(* ===== verification/_CoqProject ===== *)
-Q . S2P
Prelude.v
StateMonad.v
CMem.v
Packets.v
PacketsTls.v
PacketsHttp.v
Kavl.v
KavlSpec.v
MPool.v
MPoolSpec.v
MPoolCache.v
World.v
Conev.v
ConevTimers.v
ConevEvents.v
ConevPool.v
Desync.v
DesyncSpec.v
Addr.v
AddrSpec.v
Groups.v
GroupsSpec.v
GroupsCache.v
Extend.v
Hooks.v
Proxy.v
ProxySpec.v
Args.v
ArgsSpec.v
TpProtocol.v
TpProtocolSpec.v
TpTamper.v
TpTamperSpec.v
TpPools.v
TpFiles.v
TpFilesSpec.v
TpHostlist.v
TpHostlistSpec.v
TpIpset.v
TpIpsetSpec.v
TpProfile.v
TpRequestSpec.v
TpProfileSpec.v
TpAutoSpec.v
TpSockaddr.v
TpWorld.v
TpSend.v
TpConn.v
TpSocks.v
TpLoop.v
TpSendSpec.v
TpConnSpec.v
TpSocksSpec.v
TpLoopSpec.v
TpDialogSpec.v
HevRing.v
HevList.v
HevRbtree.v
HevRbtreeSpec.v
HevMappedDns.v
HevMappedDnsSpec.v
HevDnsPacket.v
HevAuth.v
HevIo.v
HevSocks5.v
HevSocks5Client.v
HevSocks5Server.v
HevSocks5Spec.v
HevSocks5Udp.v
HevSocks5UdpSpec.v
HevLwip.v
HevSessionTcp.v
HevLwipSpec.v
HevSessionTcpSpec.v
HevSessionUdp.v
HevSessionUdpSpec.v
HevConfig.v
HevConfigSpec.v
HevTunnel.v
HevTunnelSpec.v
