(* ===== verification/Prelude.v ===== *)
(** * The native data path of VLESS Card VPN: a verification development

    ** The program

    The repository is an Android (and desktop) client.  The packets of the
    device go through programs in C under src/native: byedpi (a local SOCKS
    and HTTP proxy that splits and rewrites the first bytes of a connection),
    tpws (an alternative to it) and hev-socks5-tunnel (the tun device end,
    with a SOCKS5 client and server of its own under src/core).  This
    development models C code of the three; the application around them
    (Kotlin, C#, scripts) starts and configures them and is not modelled.

    ** Common ground

    - [Prelude]: results of C code ([res], [wp]), bounded loops ([loop]),
      fixed-width integers, record update.
    - [CMem]: bytes in C objects, checked accesses, the mem* and str*
      functions the code calls, and the conversions of fprintf and fscanf that
      it uses on files.

    A C function is the definition of the same name; a loop body is
    [f_step].  Pointers into a buffer are offsets; an object that is linked
    to others is an index into its store, a freed one is absent there.
    Reading or writing outside an object, a negative size, a null pointer or
    a freed object is [UB] (or [Crash]), so a theorem [wp m Q] or an equation
    [m = Ok _] excludes them.

    ** byedpi

    One process with one event loop.  [Proxy.run] opens the listening socket
    and loops: [ConevEvents] picks the next eval that is ready or has timed
    out, [Proxy.call_cb] runs its callback.  Callbacks accept clients, read
    requests, open connections ([Extend]), pump tunnels ([Proxy.on_tunnel],
    [Hooks]), and send the first request through [Desync]; a failure makes
    [Extend.on_trigger] choose another group ([Groups.find_dp]) and
    reconnect.

    - [Packets] (packets.c, packets.h), proofs in [PacketsTls], [PacketsHttp].
    - [Kavl] (kavl.h), proofs in [KavlSpec]; [MPool] (mpool.c, mpool.h),
      proofs in [MPoolSpec], [MPoolCache].
    - [World]: the process state (the eval pool, buffers, mappings, groups,
      parameters), the state monad [M] and system calls, which a [Kernel]
      answers from the history of calls: a theorem that quantifies over the
      kernel holds for every behaviour of the system.
    - [Conev] (conev.c, conev.h), proofs in [ConevTimers], [ConevEvents],
      [ConevPool].
    - [Desync] (desync.c, Linux), proofs in [DesyncSpec].
    - [Addr] (proxy.c 58-381, proxy.h), proofs in [AddrSpec]; [Groups],
      [Extend], [Hooks] (extend.c), proofs in [GroupsSpec],
      [GroupsCache]; [Proxy] (proxy.c from 384), proofs in
      [ProxySpec].
    - [Args] (main.c): the options and their values, the groups they build,
      start and end of the process; proofs in [ArgsSpec].  The words go to
      [getopt_long] of the C library, which is a parameter with a contract
      (the class [Getopt]).

    ** tpws

    One process with one epoll loop and threads that resolve names.
    [TpLoop.round] is a turn of the loop: a batch of events is served, each
    for a leg of a connection (a client or the server it is connected to), a
    listener or the pipe of the resolver; then closed legs are freed and
    lists that changed are read again.  A leg reads a segment, [TpProfile]
    chooses a profile by port, address and host name and rewrites the segment
    ([TpTamper]), and [TpSend] sends its parts or keeps what the kernel does
    not take.

    - [TpProtocol] (protocol.c): what a request is and where it may be split;
      proofs in [TpProtocolSpec], [TpRequestSpec].
    - [TpTamper] (tamper.c, the rewriting), proofs in [TpTamperSpec].
    - [TpPools] (pools.c, helpers.c), [TpFiles] (reading list files),
      [TpHostlist] (hostlist.c), [TpIpset] (ipset.c), proofs in
      [TpFilesSpec], [TpHostlistSpec], [TpIpsetSpec].
    - [TpProfile] (tamper.c, params.c: profiles, the automatic host list),
      proofs in [TpProfileSpec], [TpAutoSpec].
    - [StateMonad], [TpWorld]: the store of legs, buffers, queues and
      resolver items, the monad, the [Kernel] and its laws [KernelOk],
      [ResolverOk], [CloseOk]; [TpSockaddr] (helpers.c, addresses).
    - [TpSend], [TpConn], [TpSocks], [TpLoop] (tpws_conn.c, resolver.c,
      redirect.c, tpws.c), proofs in [TpSendSpec], [TpConnSpec] (the
      invariant of the legs), [TpSocksSpec], [TpLoopSpec],
      [TpDialogSpec].

    ** hev-socks5-tunnel

    Coroutines of the vendored hev-task-system over the vendored lwIP.  A
    configuration ([HevConfig]) says how the tunnel is set up ([HevTunnel]); a
    connection of the device that lwIP accepts becomes a session with a task
    of its own ([HevSessionTcp], [HevSessionUdp]), which is a SOCKS client
    ([HevSocks5Client]) and carries what comes in both directions.  Names are
    answered by mapped DNS ([HevMappedDns]), which hands out addresses for
    them; a session to such an address asks the server for the name.

    - [HevRing] (misc/hev-ring-buffer.h and its use by the TCP session).
    - [HevList] (misc/hev-list.c); [HevRbtree] (core/src/hev-rbtree.c) as a
      tree with a zipper, proofs in [HevRbtreeSpec].
    - [HevMappedDns] (hev-mapped-dns.c), proofs in [HevMappedDnsSpec],
      [HevDnsPacket].
    - [HevAuth] (core/src/hev-socks5-authenticator.c, hev-socks5-user.c) and
      its proofs.
    - [HevIo]: programs that ask the system ([io], a free monad over
      [syscall]) and their meaning ([run] in an environment, [wpio] for every
      environment), and two of them with the connection between them, in
      every interleaving ([net_step]).
    - [HevSocks5] (core/src/hev-socks5.c, hev-socks5-misc.c,
      hev-socks5-proto.h), [HevSocks5Client] (hev-socks5-client.c and its two
      subclasses, hev-socks5-session.c), [HevSocks5Server]
      (hev-socks5-server.c), proofs in [HevSocks5Spec].
    - [HevSocks5Udp] (hev-socks5-udp.c), proofs in [HevSocks5UdpSpec].
    - [HevLwip] (misc/hev-utils.c and what the sessions see of lwIP), proofs
      in [HevLwipSpec], which also follows a name from the query to the
      request.
    - [HevSessionTcp] (hev-socks5-session-tcp.c), proofs in
      [HevSessionTcpSpec]; [HevSessionUdp] (hev-socks5-session-udp.c), proofs
      in [HevSessionUdpSpec].  A session is a state on which lwIP's handlers
      and the turns of its task act in any order.
    - [HevConfig] (hev-config.c over libyaml's nodes), proofs in
      [HevConfigSpec]: safety, and what a file says.
    - [HevTunnel] (hev-socks5-tunnel.c): what is acquired and released, the
      list of sessions, and the flags by which other threads stop the tunnel;
      proofs in [HevTunnelSpec].

    ** What the theorems show

    - Containers: the AVL tree refines a sorted list under every sequence of
      calls, the red-black tree keeps its colors and its order, the linked
      list refines a list, the ring buffer a bounded queue; pools of prefixes
      and hosts cover exactly what was added; the cache file of byedpi, as
      text, round-trips for printable entries ([MPoolCache.printable]), and a
      list file of tpws with lines that fit its buffer means its lines.
    - Packets: the TLS and HTTP parsers of both proxies stay inside any buffer
      and find the name of every well-formed request, but for byedpi a name of
      at most three bytes at the very end of a hello; rewriting preserves
      what it must and fits its buffer; the two proxies cut a TLS record the
      same way.
    - Event loops: byedpi's pool, timer and buffer invariants under add and
      delete, timers sorted, no event of a stale wait delivered; tpws' legs,
      queues, counters and resolver items stay well formed through every turn,
      with no use of a freed object, as long as its resolver's semaphore and
      pipe do not fail.
    - Streams: what byedpi hands to the kernel (without fake packets and
      random positions) is a prefix of the request, once and in order, and of an answer the client has got what came but
      for the bytes its tunnel keeps; of a leg of tpws what the kernel took and what is
      buffered is exactly what was given to it, while sends fail only for a
      full socket and a request in parts does not meet one; a TCP session of
      hev-socks5 keeps to its windows, hands the server exactly what lwIP
      handed over, and lwIP exactly what the server sent until lwIP refuses a
      write; a UDP session sends its datagrams in order, at most as many
      waiting as it may hold.
    - Choice: byedpi's groups and tpws' profiles are chosen as configured; the
      automatic host list learns at its threshold.
    - Dialogues: a SOCKS client of tpws is answered by what its message
      deserves; a SOCKS5 client and server of hev-socks5 both finish, with the
      same verdict on a CONNECT, under every interleaving; datagrams framed into the
      connection come out again; a name that was answered with an address is
      the name the server is asked for.
    - Command line: what the options of byedpi say is exactly what its
      parameters and groups become, for every list of settings said with a
      letter and its argument.  Files, addresses, escapes, fractions and the
      options -B, -O, -W and -x are modelled, and not among the settings.
    - Life of the tunnel: a configuration sets what it says and leaves stacks
      the buffers fit in, for sizes that are not negative; what the start
      acquires is released, but for the pcb that a failed tcp_listen loses;
      sessions are listed by their last use and the oldest is ended when there
      are more than the maximum; a stop that finds the
      tunnel ready wakes it, under every interleaving, and one that comes
      before can be lost.
    - Specifications: mapped DNS is a least-recently-used map through every
      history, the authenticator a map from names to users.
    - Errors: where the code does something else than it means to, a theorem
      with a concrete input shows it; they are listed as findings.

    ** Fuel

    Loops that are not structural take fuel: [loop n] answers [NoFuel] after
    [n] rounds.  The definitions of pure code fix a bound of their own (the
    size of the buffer, of the tree, of the key), and the theorems that say
    the code returns show it is enough for every input; where the code can
    loop for ever ([PacketsTls.merge_tls_records_spins]) the theorem says so
    for every fuel.  Handlers that loop over the network take a [fuel]
    argument.  An endless loop (the event loops, the relay of datagrams) is
    its round.  Programs of [io] are trees of finite depth, so they end in
    every environment.

    ** Assumptions about the system

    - byedpi: a theorem holds for every [Kernel]; about what was sent, for
      one that takes no more than it is offered; about a tunnel, for a target
      that sends finitely much and does not reset.  The command line is read
      with enough memory and at most 31 groups.  A number that fscanf cannot
      store is undefined, as in the C standard; a write to the cache file does
      not fail.
    - tpws: the clock is read once per operation; a job of a resolver thread
      is one step; a batch of events names what is watched ([TpLoopSpec]).
      [KernelOk]: send and recv report no more than they were offered,
      addresses are of a known family.  [ResolverOk]: sem_post succeeds and
      the resolver pipe takes a pointer whole; the code is not safe without it
      ([TpSocksSpec.queue_frees_listed], [TpSocksSpec.job_frees_awaited]).  [CloseOk] (for the reply
      after a failed connection): with which errors close fails.
    - hev-socks5 sessions: lwIP sends no more than the window it was told,
      hands over no empty buffers, reports as sent no more than it accepted,
      and calls a handler only while the task of the session waits; no task
      waits while it holds the mutex.  The document of a configuration is
      given as libyaml made it; the machine is little-endian; the operations
      on the tunnel's flags are atomic; socketpair stores descriptors.
    - hev-socks5: inet_pton is a parameter (it writes four bytes); the
      connection of [net_step] loses and cuts nothing, and sending into it
      succeeds; that a send or a receive fails is covered by the theorems
      over every environment, where a theorem has them.

    ** Not modelled

    The Windows and BSD branches, the poll() event loop of byedpi (NOEPOLL),
    logging, signal handlers, daemon and service glue: system calls without
    logic of their own.  The option parser of tpws (tpws.c), its
    privileges (sec.c) and the unpacking of its list files (gzip.c, over
    zlib).  The vendored libraries under hev-socks5-tunnel/third-part
    (lwIP, libyaml, hev-task-system) are third-party code.  Of
    hev-socks5-tunnel itself, what hands packets between lwIP and the device
    and drives lwIP's timers, the tun devices, JNI and main are system and
    library calls in a row; the reference counts of objects other than users
    are left out. *)

From Stdlib Require Import ZArith Lia Bool List.
From Stdlib Require Import Strings.Byte Strings.String.
From stdpp Require Import base tactics list numbers option.

Declare Scope c_scope.
Delimit Scope c_scope with C.
#[global] Open Scope Z_scope.

(* ------------------------------------------------------------------ *)
(** ** Results of C code

    [Ok a] is a normal return; [UB] is undefined behaviour (an access
    outside its object, a negative size handed to a [mem*] function ...);
    [NoFuel] is a loop whose iteration bound was too small.  A theorem
    [wp m Q] therefore excludes both undefined behaviour and divergence. *)

Inductive res (A : Type) : Type :=
| Ok (a : A)
| UB
| NoFuel.
Arguments Ok {A} a.
Arguments UB {A}.
Arguments NoFuel {A}.

Definition bind {A B} (m : res A) (k : A → res B) : res B :=
  match m with Ok a => k a | UB => UB | NoFuel => NoFuel end.

Notation "x ← y ; z" := (bind y (λ x, z))
  (at level 20, y at level 100, z at level 200, only parsing) : c_scope.
Notation "' x ← y ; z" := (bind y (λ x, z))
  (at level 20, x pattern, y at level 100, z at level 200, only parsing) : c_scope.
#[global] Open Scope c_scope.

#[export] Instance res_eq_dec {A} `{EqDecision A} : EqDecision (res A).
Proof. solve_decision. Defined.

(** Total correctness: the computation returns normally, in [Q]. *)
Definition wp {A} (m : res A) (Q : A → Prop) : Prop :=
  match m with Ok a => Q a | _ => False end.

Section wp_rules.
Context {A B : Type}.

Lemma wp_ok (a : A) (Q : A → Prop) : Q a → wp (Ok a) Q.
Proof. done. Qed.

Lemma wp_bind (m : res A) (k : A → res B) (Q : B → Prop) :
  wp m (λ a, wp (k a) Q) → wp (bind m k) Q.
Proof. by destruct m. Qed.

Lemma wp_mono (m : res A) (P Q : A → Prop) :
  wp m P → (∀ a, P a → Q a) → wp m Q.
Proof. destruct m; simpl; auto. Qed.

Lemma wp_conj (m : res A) (P Q : A → Prop) :
  wp m P → wp m Q → wp m (λ a, P a ∧ Q a).
Proof. destruct m; simpl; auto. Qed.

Lemma wp_iff (m : res A) (Q : A → Prop) :
  wp m Q ↔ ∃ a, m = Ok a ∧ Q a.
Proof. destruct m; simpl; split; [by eauto|by intros (? & [= ->] & ?)|done|by intros (? & ? & ?)|done|by intros (? & ? & ?)]. Qed.

Lemma wp_eq (m : res A) (a : A) : wp m (λ x, x = a) ↔ m = Ok a.
Proof. destruct m; simpl; split; congruence || done. Qed.

Lemma wp_det (m : res A) (a : A) (Q : A → Prop) :
  wp m Q → m = Ok a → Q a.
Proof. by intros ? ->. Qed.

Lemma bind_Ok (a : A) (k : A → res B) : bind (Ok a) k = k a.
Proof. done. Qed.

Lemma bind_ok (m : res A) (k : A → res B) (b : B) :
  bind m k = Ok b ↔ ∃ a, m = Ok a ∧ k a = Ok b.
Proof.
  destruct m; simpl; split; try done; [by eauto|..];
    by intros (? & [= ->] & ?).
Qed.
End wp_rules.

(** Two computations with the same outcome are interchangeable inside a
    [wp] whose postconditions agree. *)
#[export] Instance wp_proper {A} :
  Proper ((=) ==> pointwise_relation A iff ==> iff) (@wp A).
Proof. intros m ? <- P Q HPQ. destruct m; simpl; [apply HPQ|done..]. Qed.

(** *** Loops

    Every C loop is [loop fuel body s0]: [inl s'] is "next iteration in
    state [s']" (including [continue]), [inr r] is leaving the loop
    (condition false, [break] or [return]). *)
Fixpoint loop {S R : Type} (fuel : nat) (body : S → res (S + R)) (s : S)
  : res R :=
  match fuel with
  | O => NoFuel
  | Datatypes.S f =>
      r ← body s;
      match r with
      | inl s' => loop f body s'
      | inr x => Ok x
      end
  end.

Lemma wp_loop {S R} (I : S → Prop) (μ : S → Z) (body : S → res (S + R))
    (Q : R → Prop) (fuel : nat) (s : S) :
  (∀ s, I s → 0 <= μ s) →
  (∀ s, I s → wp (body s) (λ r,
     match r with inl s' => I s' ∧ μ s' < μ s | inr x => Q x end)) →
  I s → μ s < Z.of_nat fuel →
  wp (loop fuel body s) Q.
Proof.
  intros Hpos Hbody. revert s. induction fuel as [|f IH]; intros s HI Hμ.
  - specialize (Hpos s HI). lia.
  - simpl. apply wp_bind. eapply wp_mono; [by apply Hbody|].
    intros [s'|x]; [|by intros].
    intros [HI' Hlt]. apply IH; [done|lia].
Qed.

(** The loop rule for a partial postcondition, one unfolding at a time. *)
Lemma loop_S {S R} (fuel : nat) (body : S → res (S + R)) (s : S) :
  loop (Datatypes.S fuel) body s =
  (r ← body s; match r with inl s' => loop fuel body s' | inr x => Ok x end).
Proof. done. Qed.

(* ------------------------------------------------------------------ *)
(** ** Fixed-width integers (LP64) *)

Definition u8 (x : Z) : Z := x mod 2 ^ 8.
Definition u16 (x : Z) : Z := x mod 2 ^ 16.
Definition u32 (x : Z) : Z := x mod 2 ^ 32.
Definition u64 (x : Z) : Z := x mod 2 ^ 64.
(** conversion to [int] and to [long]/[ssize_t]: two's complement *)
Definition i32 (x : Z) : Z := (x + 2 ^ 31) mod 2 ^ 32 - 2 ^ 31.
Definition i64 (x : Z) : Z := (x + 2 ^ 63) mod 2 ^ 64 - 2 ^ 63.

Lemma u8_small x : 0 <= x < 2 ^ 8 → u8 x = x.
Proof. apply Z.mod_small. Qed.
Lemma u16_small x : 0 <= x < 2 ^ 16 → u16 x = x.
Proof. apply Z.mod_small. Qed.
Lemma u32_small x : 0 <= x < 2 ^ 32 → u32 x = x.
Proof. apply Z.mod_small. Qed.
Lemma u64_small x : 0 <= x < 2 ^ 64 → u64 x = x.
Proof. apply Z.mod_small. Qed.
Lemma i32_small x : - 2 ^ 31 <= x < 2 ^ 31 → i32 x = x.
Proof. intros. unfold i32. rewrite Z.mod_small; lia. Qed.
Lemma i64_small x : - 2 ^ 63 <= x < 2 ^ 63 → i64 x = x.
Proof. intros. unfold i64. rewrite Z.mod_small; lia. Qed.

Lemma u8_range x : 0 <= u8 x < 2 ^ 8.
Proof. by apply Z.mod_pos_bound. Qed.
Lemma u16_range x : 0 <= u16 x < 2 ^ 16.
Proof. by apply Z.mod_pos_bound. Qed.
Lemma u32_range x : 0 <= u32 x < 2 ^ 32.
Proof. by apply Z.mod_pos_bound. Qed.
Lemma u64_range x : 0 <= u64 x < 2 ^ 64.
Proof. by apply Z.mod_pos_bound. Qed.
Lemma i32_range x : - 2 ^ 31 <= i32 x < 2 ^ 31.
Proof.
  unfold i32. assert (0 <= (x + 2 ^ 31) mod 2 ^ 32 < 2 ^ 32)
    by by apply Z.mod_pos_bound. lia.
Qed.

(** *** Arithmetic modulo 2^32

    Equality of the low 32 bits is a congruence for [+] and [-], so a
    wrap-around can be dropped anywhere below another one: [wrap32]. *)
Definition eqm32 (a b : Z) : Prop := u32 a = u32 b.

#[export] Instance eqm32_equiv : Equivalence eqm32.
Proof. split; [done|by intros ???|intros ??? Hab ?; by unfold eqm32; rewrite Hab]. Qed.
#[export] Instance eqm32_add : Proper (eqm32 ==> eqm32 ==> eqm32) Z.add.
Proof.
  intros a a' Ha b b' Hb. unfold eqm32, u32 in *.
  by rewrite Z.add_mod, Ha, Hb, <- Z.add_mod.
Qed.
#[export] Instance eqm32_sub : Proper (eqm32 ==> eqm32 ==> eqm32) Z.sub.
Proof.
  intros a a' Ha b b' Hb. unfold eqm32, u32 in *.
  by rewrite Zminus_mod, Ha, Hb, <- Zminus_mod.
Qed.
Lemma u32_eqm a : eqm32 (u32 a) a.
Proof. unfold eqm32, u32. by rewrite Z.mod_mod. Qed.
Lemma eqm32_eq a b : a = b → eqm32 a b.
Proof. by intros ->. Qed.

Ltac wrap32 :=
  lazymatch goal with |- u32 ?a = u32 ?b => change (eqm32 a b) end;
  rewrite ?u32_eqm; apply eqm32_eq; lia.

(** two fields put together *)
Lemma lor_shift_add x y k : 0 <= k → 0 <= y < 2 ^ k → Z.lor (Z.shiftl x k) y = x * 2 ^ k + y.
Proof.
  intros Hk Hy. rewrite <- Z.add_nocarry_lor.
  - by rewrite Z.shiftl_mul_pow2.
  - apply Z.bits_inj_0. intros i. rewrite Z.land_spec.
    destruct (Z.ltb_spec i k) as [Hi|Hi].
    + destruct (Z.ltb_spec i 0); [by rewrite !Z.testbit_neg_r|]. by rewrite Z.shiftl_spec_low.
    + destruct (Z.eq_dec y 0) as [->|]; [by rewrite Z.bits_0, andb_false_r|].
      rewrite (Z.bits_above_log2 y), andb_false_r; [done|lia|]. apply Z.log2_lt_pow2; [lia|].
      apply Z.lt_le_trans with (2 ^ k); [lia|]. apply Z.pow_le_mono_r; lia.
Qed.

(** Bits of a flag word. *)
Definition has (x m : Z) : bool := negb (Z.land x m =? 0).

(* ------------------------------------------------------------------ *)
(** ** Field update for records

    [r <| f := v |>] is [r] with field [f] replaced.  A record declares
    how it is rebuilt from its fields ([Eta]); the updater of one field is
    that rebuilding with the field's own projection replaced. *)

Class Eta (R : Type) := rebuild : R → R.
Class Upd {R A : Type} (f : R → A) := upd : (A → A) → R → R.
Arguments upd {R A} f {_} _ _.

Ltac derive_upd :=
  match goal with
  | |- @Upd ?R ?A ?f =>
      let g := fresh in let r := fresh in
      unfold Upd; intros g r;
      let i := constr:(_ : Eta R) in
      let e := eval hnf in (i r) in
      match e with
      | context C [f r] => let t := context C [g (f r)] in exact t
      end
  end.
#[export] Hint Extern 1 (Upd _) => derive_upd : typeclass_instances.

Notation "r <| f := v |>" := (upd f (λ _, v) r)
  (at level 14, left associativity, f constr at level 1,
   format "r  <| f  :=  v |>") : c_scope.
#[global] Open Scope c_scope.

Module UpdSanity.
Record point := Point { px : Z; py : Z; pname : list Z }.
#[local] Instance point_eta : Eta point := λ r, Point (px r) (py r) (pname r).
Example upd_py (p : point) : p <| py := 3 |> = Point (px p) 3 (pname p).
Proof. reflexivity. Qed.
End UpdSanity.

(* ------------------------------------------------------------------ *)
(** ** Proof automation for [wp] goals

    [wp_step] does one step of the program: it opens a bind, returns, splits
    a test (leaving the test's outcome as a hypothesis), or applies a rule
    of the [c_wp] database; [wp_steps] repeats it. *)
Create HintDb c_wp.

Ltac wp_split :=
  match goal with
  | |- wp (if ?b then _ else _) _ => let E := fresh "E" in destruct b eqn:E
  | |- wp (match ?x with _ => _ end) _ => let E := fresh "E" in destruct x eqn:E
  end.

Ltac wp_step :=
  cbv beta zeta iota;
  lazymatch goal with
  | |- wp (bind _ _) _ => apply wp_bind
  | |- wp (Ok _) _ => apply wp_ok
  | |- wp (if _ then _ else _) _ => wp_split
  | |- wp (match _ with _ => _ end) _ => wp_split
  end.
Ltac wp_steps := repeat wp_step.

(** apply a specification [wp m P] of the first computation *)
Tactic Notation "wp_use" uconstr(l) :=
  try apply wp_bind; eapply wp_mono; [eapply l|cbv beta].

(** reduce a [bind] whose first computation is a value, nothing else *)
Ltac bstep := rewrite bind_Ok; cbv beta zeta.

(** reduce [uN x] to [x] where the bounds are known *)
Ltac ints :=
  repeat match goal with
  | |- context [u64 ?x] => rewrite (u64_small x) by lia
  | H : context [u64 ?x] |- _ => rewrite (u64_small x) in H by lia
  | |- context [u16 ?x] => rewrite (u16_small x) by lia
  | |- context [i32 ?x] => rewrite (i32_small x) by lia
  | |- context [i64 ?x] => rewrite (i64_small x) by lia
  end.

(* ------------------------------------------------------------------ *)
(** ** Discharging closed side conditions by evaluation *)
Ltac zeval :=
  repeat match goal with |- _ ∧ _ => split end;
  first [ vm_compute; reflexivity | vm_compute; discriminate
        | vm_compute; tauto ].
