(* ===== verification/StateMonad.v ===== *)
(** * A state monad over [res]

    For code that changes a state and can fail: the connections and the
    resolver of tpws.  The state type is a parameter; the rules are those of
    [wp] with the state added. *)

From Stdlib Require Import ZArith Lia Bool List.
From stdpp Require Import base tactics list numbers option.
From S2P Require Import Prelude.

Section state_monad.
Context {St : Type}.

Definition ST (A : Type) : Type := St → res (A * St).

Definition ret {A} (a : A) : ST A := λ s, Ok (a, s).
Definition mbind {A B} (m : ST A) (k : A → ST B) : ST B := λ s, bind (m s) (λ '(a, s), k a s).
Definition ub {A} : ST A := λ _, UB.
Definition lift {A} (m : res A) : ST A := λ s, bind m (λ a, Ok (a, s)).
Definition gets {A} (f : St → A) : ST A := λ s, Ok (f s, s).
Definition modify (f : St → St) : ST unit := λ s, Ok (tt, f s).
(** dereferencing a pointer that may be null *)
Definition deref {A} (p : option A) : ST A := match p with Some a => ret a | None => ub end.
Definition when (b : bool) (m : ST unit) : ST unit := if b then m else ret tt.

(** a loop over a list; a loop with fuel *)
Fixpoint for_each {A} (l : list A) (f : A → ST unit) : ST unit :=
  match l with [] => ret tt | a :: l => mbind (f a) (λ _, for_each l f) end.
Definition mloop {S R} (fuel : nat) (body : S → ST (S + R)) (s : S) : ST R :=
  λ w, loop fuel (λ '(s, w),
    '(r, w) ← body s w;
    match r with inl s => Ok (inl (s, w)) | inr x => Ok (inr (x, w)) end) (s, w).

(** total correctness *)
Definition wps {A} (m : ST A) (s : St) (Q : A → St → Prop) : Prop := wp (m s) (λ '(a, s'), Q a s').

Lemma wps_ret {A} (a : A) s (Q : A → St → Prop) : Q a s → wps (ret a) s Q.
Proof. done. Qed.
Lemma wps_bind {A B} (m : ST A) (k : A → ST B) s Q :
  wps m s (λ a s', wps (k a) s' Q) → wps (mbind m k) s Q.
Proof. unfold wps, mbind. intros H. apply wp_bind. eapply wp_mono; [exact H|]. by intros [a s']. Qed.
Lemma wps_mono {A} (m : ST A) s (P Q : A → St → Prop) :
  wps m s P → (∀ a s', P a s' → Q a s') → wps m s Q.
Proof. unfold wps. intros H HPQ. eapply wp_mono; [exact H|]. intros [a s']. apply HPQ. Qed.
Lemma wps_lift {A} (m : res A) s (Q : A → St → Prop) : wp m (λ a, Q a s) → wps (lift m) s Q.
Proof. unfold wps, lift. intros H. apply wp_bind. eapply wp_mono; [exact H|]. done. Qed.
Lemma wps_gets {A} (f : St → A) s (Q : A → St → Prop) : Q (f s) s → wps (gets f) s Q.
Proof. done. Qed.
Lemma wps_modify f s (Q : unit → St → Prop) : Q tt (f s) → wps (modify f) s Q.
Proof. done. Qed.
Lemma wps_deref {A} (p : option A) a s (Q : A → St → Prop) : p = Some a → Q a s → wps (deref p) s Q.
Proof. by intros ->. Qed.
Lemma wps_when (b : bool) m s (Q : unit → St → Prop) :
  (b = true → wps m s Q) → (b = false → Q tt s) → wps (when b m) s Q.
Proof. destruct b; intros H1 H2; [by apply H1|by apply H2]. Qed.
Lemma wps_iff {A} (m : ST A) s Q : wps m s Q ↔ ∃ a s', m s = Ok (a, s') ∧ Q a s'.
Proof. unfold wps. rewrite wp_iff. split; [intros ([a s'] & ? & ?); eauto|intros (a & s' & ? & ?); by exists (a, s')]. Qed.

Lemma wps_for_each {A} (I : list A → St → Prop) (l : list A) (f : A → ST unit) s (Q : unit → St → Prop) :
  I l s → (∀ a l s, I (a :: l) s → wps (f a) s (λ _, I l)) → (∀ s, I [] s → Q tt s) →
  wps (for_each l f) s Q.
Proof.
  intros HI Hf HQ. revert s HI. induction l as [|a l IH]; intros s HI; simpl; [by apply wps_ret, HQ|].
  apply wps_bind. eapply wps_mono; [by apply Hf|]. intros [] s'. apply IH.
Qed.

(** a loop that ends: [μ] goes down *)
Lemma wps_loop {S R} (I : S → St → Prop) (μ : S → St → Z) (body : S → ST (S + R)) (Q : R → St → Prop) fuel s w :
  (∀ s w, I s w → 0 <= μ s w) →
  (∀ s w, I s w → wps (body s) w (λ r w', match r with inl s' => I s' w' ∧ μ s' w' < μ s w | inr x => Q x w' end)) →
  I s w → μ s w < Z.of_nat fuel →
  wps (mloop fuel body s) w Q.
Proof.
  intros Hpos Hbody HI Hf. unfold wps, mloop.
  apply (wp_loop (λ '(s, w), I s w) (λ '(s, w), μ s w)); [by intros [? ?]; apply Hpos| |done|done].
  clear s w HI Hf. intros [s w] HI. apply wp_bind.
  eapply wp_mono; [by apply Hbody|]. by intros [[s'|x] w'].
Qed.
End state_monad.
Arguments ST St A : clear implicits.

Declare Scope st_scope.
Notation "'let*' x := m 'in' k" := (mbind m (λ x, k))
  (at level 200, x binder, m at level 100, k at level 200, only parsing) : st_scope.
Notation "m ;;; k" := (mbind m (λ _, k)) (at level 100, k at level 200, right associativity, only parsing) : st_scope.
#[global] Open Scope st_scope.
