(* ===== verification/CMem.v ===== *)
(** * C memory objects and the string functions of the C library

    An object is a [list byte]; a pointer into it is an offset.  Every
    access is checked: outside the object it is [UB].  The functions below
    are the C standard library's ([memchr], [memcmp], [memmove], [memset],
    [strncmp], [strncasecmp], [strtol] and the "C"-locale [ctype]
    predicates), reading exactly the bytes the standard lets them read. *)

From Stdlib Require Import ZArith Lia Bool List.
From Stdlib Require Import Strings.Byte Strings.Ascii Strings.String.
From stdpp Require Import base tactics list numbers option countable.
From S2P Require Import Prelude.

Notation mem := (list byte).

(* ------------------------------------------------------------------ *)
(** ** Bytes *)

(** the value of a byte read as [unsigned char] *)
Definition zb (b : byte) : Z := Z.of_N (Byte.to_N b).
(** the byte an [int] is stored as *)
Definition bz (z : Z) : byte :=
  match Byte.of_N (Z.to_N (u8 z)) with Some b => b | None => x00 end.

(** Whether plain [char] is signed is the platform's choice (it is on
    x86, it is not on ARM): the development is parametric in it. *)
Class CharModel := char_signed : bool.
Definition chr `{CharModel} (b : byte) : Z :=
  if char_signed && (128 <=? zb b) then zb b - 256 else zb b.

#[export] Instance byte_eq_dec : EqDecision byte := Byte.byte_eq_dec.
#[export] Instance byte_countable : Countable byte.
Proof.
  refine (inj_countable' Byte.to_N (λ n, default x00 (Byte.of_N n)) _).
  intros b. by rewrite Byte.of_to_N.
Defined.

Lemma zb_range b : 0 <= zb b < 256.
Proof. unfold zb. pose proof (Byte.to_N_bounded b). lia. Qed.

Lemma bz_zb b : bz (zb b) = b.
Proof.
  unfold bz. rewrite u8_small by (pose proof (zb_range b); lia).
  unfold zb. rewrite N2Z.id, Byte.of_to_N. done.
Qed.

Lemma zb_bz z : zb (bz z) = u8 z.
Proof.
  unfold bz. pose proof (u8_range z) as Hr.
  destruct (Byte.of_N (Z.to_N (u8 z))) as [b|] eqn:E.
  - apply Byte.to_of_N in E. unfold zb. rewrite E. lia.
  - apply Byte.of_N_None_iff in E. lia.
Qed.

Lemma zb_bz_small z : 0 <= z < 256 → zb (bz z) = z.
Proof. intros. rewrite zb_bz. by apply u8_small. Qed.

Lemma zb_inj a b : zb a = zb b → a = b.
Proof. intros H. by rewrite <- (bz_zb a), <- (bz_zb b), H. Qed.

Lemma u8_chr `{CharModel} b : u8 (chr b) = zb b.
Proof.
  unfold chr, u8. pose proof (zb_range b) as Hb.
  destruct (char_signed && (128 <=? zb b)).
  - rewrite <- (Z.mod_add _ 1) by lia. rewrite Z.mod_small; lia.
  - rewrite Z.mod_small; lia.
Qed.

Lemma chr_range `{CharModel} b : -128 <= chr b < 256.
Proof.
  unfold chr. pose proof (zb_range b).
  destruct char_signed, (Z.leb_spec 128 (zb b)); simpl; lia.
Qed.

Lemma chr_ascii `{CharModel} b : zb b < 128 → chr b = zb b.
Proof.
  intros. unfold chr. destruct char_signed, (Z.leb_spec 128 (zb b)); simpl; lia.
Qed.

Lemma chr_eq_ascii `{CharModel} b c :
  0 <= c < 128 → chr b = c ↔ zb b = c.
Proof.
  intros Hc. unfold chr. pose proof (zb_range b).
  destruct char_signed, (Z.leb_spec 128 (zb b)); simpl; lia.
Qed.

Lemma chr_eqb_ascii `{CharModel} b c :
  0 <= c < 128 → (chr b =? c) = (zb b =? c).
Proof.
  intros Hc. apply eq_true_iff_eq. rewrite !Z.eqb_eq. by apply chr_eq_ascii.
Qed.

Lemma chr_inj `{CharModel} a b : chr a = chr b → a = b.
Proof. intros E. apply zb_inj. rewrite <- !u8_chr. by rewrite E. Qed.

(** string literals: the characters, without the terminating NUL *)
Definition bytes_of (s : string) : mem := list_byte_of_string s.

Definition ch (a : ascii) : Z := Z.of_N (N_of_ascii a).
Arguments ch a%_char_scope.

(* ------------------------------------------------------------------ *)
(** ** Reading and writing *)

Definition len (m : mem) : Z := Z.of_nat (length m).

Definition rd (m : mem) (i : Z) : res byte :=
  if 0 <=? i then
    match m !! Z.to_nat i with Some b => Ok b | None => UB end
  else UB.

Definition slice (m : mem) (i n : Z) : mem :=
  take (Z.to_nat n) (drop (Z.to_nat i) m).

(** the [n] bytes at [buffer + o], given to a system call *)
Definition bytes_at (o n : Z) (m : mem) : res mem :=
  if (0 <=? o) && (0 <=? n) && (o + n <=? len m) then Ok (slice m o n) else UB.

Definition splice (m : mem) (i : Z) (bs : mem) : mem :=
  take (Z.to_nat i) m ++ bs ++ drop (Z.to_nat i + length bs) m.

Definition wr (m : mem) (i v : Z) : res mem :=
  if (0 <=? i) && (i <? len m) then Ok (<[Z.to_nat i := bz v]> m) else UB.

(** [memcpy]/[memmove] of [n] bytes from [s] in [src] to [d] in [dst] *)
Definition memcpy (dst : mem) (d : Z) (src : mem) (s n : Z) : res mem :=
  if (0 <=? n) && (0 <=? d) && (d + n <=? len dst)
     && (0 <=? s) && (s + n <=? len src)
  then Ok (splice dst d (slice src s n)) else UB.

Definition memmove (m : mem) (d s n : Z) : res mem := memcpy m d m s n.

Definition memset (m : mem) (d c n : Z) : res mem :=
  if (0 <=? n) && (0 <=? d) && (d + n <=? len m)
  then Ok (splice m d (repeat (bz c) (Z.to_nat n))) else UB.

(** the offset of [c] in the [n] bytes from [i] (the list [l] starts at
    offset [i]); reading stops at the match *)
Fixpoint memchr_from (l : mem) (i n c : Z) : res (option Z) :=
  if n <=? 0 then Ok None else
  match l with
  | [] => UB
  | b :: l' => if zb b =? c then Ok (Some i) else memchr_from l' (i + 1) (n - 1) c
  end.

(** [n] is a [size_t]: a negative difference converts to a huge count *)
Definition memchr (m : mem) (i c n : Z) : res (option Z) :=
  if (0 <=? i) && (i <=? len m)
  then memchr_from (drop (Z.to_nat i) m) i (u64 n) c else UB.

Fixpoint memcmp_list (a b : mem) : Z :=
  match a, b with
  | x :: a', y :: b' => if zb x =? zb y then memcmp_list a' b' else zb x - zb y
  | _, _ => 0
  end.

Definition memcmp (m1 : mem) (i1 : Z) (m2 : mem) (i2 n : Z) : res Z :=
  if (0 <=? n) && (0 <=? i1) && (i1 + n <=? len m1)
     && (0 <=? i2) && (i2 + n <=? len m2)
  then Ok (memcmp_list (slice m1 i1 n) (slice m2 i2 n)) else UB.

(* ------------------------------------------------------------------ *)
(** ** ctype, "C" locale, on [unsigned char] values *)

Definition isspace (c : Z) : bool := (c =? 32) || ((9 <=? c) && (c <=? 13)).
Definition isdigit (c : Z) : bool := (48 <=? c) && (c <=? 57).
Definition isupper (c : Z) : bool := (65 <=? c) && (c <=? 90).
Definition islower (c : Z) : bool := (97 <=? c) && (c <=? 122).
Definition tolower (c : Z) : Z := if isupper c then c + 32 else c.
Definition toupper (c : Z) : Z := if islower c then c - 32 else c.

(* ------------------------------------------------------------------ *)
(** ** Comparison with a string literal

    [lit] is the literal without its NUL; [f] is the identity for
    [strncmp] and [tolower] for [strncasecmp]. *)
Fixpoint strn_cmp (f : Z → Z) (l : mem) (lit : mem) (n : nat) : res Z :=
  match n with
  | O => Ok 0
  | Datatypes.S n' =>
      match l with
      | [] => UB
      | a :: l' =>
          match lit with
          | [] => Ok (f (zb a))
          | c :: lit' =>
              if f (zb a) =? f (zb c) then
                if zb a =? 0 then Ok 0 else strn_cmp f l' lit' n'
              else Ok (f (zb a) - f (zb c))
          end
      end
  end.

Definition strncmp (m : mem) (i : Z) (lit : mem) (n : Z) : res Z :=
  if (0 <=? i) && (i <=? len m)
  then strn_cmp id (drop (Z.to_nat i) m) lit (Z.to_nat n) else UB.

Definition strncasecmp (m : mem) (i : Z) (lit : mem) (n : Z) : res Z :=
  if (0 <=? i) && (i <=? len m)
  then strn_cmp tolower (drop (Z.to_nat i) m) lit (Z.to_nat n) else UB.

(* ------------------------------------------------------------------ *)
(** ** strtol

    Works on the bytes from the pointer on, and returns the value and the
    number of bytes before [*end]; it reads up to and including the first
    byte that is not part of the number. *)
Definition digit_val (c : Z) : Z :=
  if isdigit c then c - 48
  else if islower c then c - 87
  else if isupper c then c - 55 else 99.

Fixpoint skip_space (l : mem) (k : Z) : res (mem * Z) :=
  match l with
  | [] => UB
  | b :: l' => if isspace (zb b) then skip_space l' (k + 1) else Ok (l, k)
  end.

(** accumulate digits; [seen] tells whether there was one *)
Fixpoint strtol_digits (base : Z) (l : mem) (acc k : Z) (seen : bool)
  : res (Z * Z * bool) :=
  match l with
  | [] => UB
  | b :: l' =>
      if digit_val (zb b) <? base
      then strtol_digits base l' (acc * base + digit_val (zb b)) (k + 1) true
      else Ok (acc, k, seen)
  end.

Definition LONG_MAX : Z := 2 ^ 63 - 1.
Definition LONG_MIN : Z := - 2 ^ 63.
Definition clamp_long (v : Z) : Z := Z.max LONG_MIN (Z.min LONG_MAX v).

Definition rd_list (l : mem) : res byte :=
  match l with [] => UB | b :: _ => Ok b end.

(** an optional [0x]/[0] prefix: the base and the digits' position *)
Definition strtol_base (base : Z) (l : mem) (k : Z) : res (Z * mem * Z) :=
  if base =? 0 then
    b ← rd_list l;
    if zb b =? 48 then
      c ← rd_list (tail l);
      if tolower (zb c) =? 120 then
        d ← rd_list (tail (tail l));
        if digit_val (zb d) <? 16 then Ok (16, tail (tail l), k + 2)
        else Ok (8, l, k)
      else Ok (8, l, k)
    else Ok (10, l, k)
  else Ok (base, l, k).

Definition strtol (l : mem) (base : Z) : res (Z * Z) :=
  '(l1, k1) ← skip_space l 0;
  b ← rd_list l1;
  let neg := zb b =? 45 in
  let '(l2, k2) :=
    if neg || (zb b =? 43) then (tail l1, k1 + 1) else (l1, k1) in
  '(bs, l3, k3) ← strtol_base base l2 k2;
  '(v, k4, seen) ← strtol_digits bs l3 0 k3 false;
  if seen then Ok (clamp_long (if neg then - v else v), k4) else Ok (0, 0).

(* ------------------------------------------------------------------ *)
(** ** Text: C strings, fprintf and fscanf

    The conversions of [fprintf] and [fscanf] that the sources use on
    streams.  [fscanf] takes what it can of the stream: each function
    answers the value and what is left, [None] when the input does not
    match. *)

(** the characters of a C string *)
Fixpoint c_string (m : mem) : mem :=
  match m with [] => [] | b :: m => if zb b =? 0 then [] else b :: c_string m end.

(** [%d] and [%jd] *)
Fixpoint dec_digits (fuel : nat) (n : Z) : mem :=
  match fuel with
  | O => []
  | Datatypes.S k => (if n <? 10 then [] else dec_digits k (n / 10)) ++ [bz (48 + n mod 10)]
  end.
Definition print_dec (n : Z) : mem :=
  if n <? 0 then x2d :: dec_digits 20 (- n) else dec_digits 20 n.

(** [%.*s]: a negative precision is none *)
Definition print_str (precision : Z) (s : mem) : mem :=
  c_string (if precision <? 0 then s else take (Z.to_nat precision) s).

(** white space in a format *)
Fixpoint scan_ws (s : mem) : mem :=
  match s with b :: s' => if isspace (zb b) then scan_ws s' else s | [] => [] end.

(** an ordinary character of a format *)
Definition scan_char (c : Z) (s : mem) : option mem :=
  match s with b :: s' => if zb b =? c then Some s' else None | [] => None end.

(** [%ws]: after white space, at most [w] bytes up to the next white space *)
Fixpoint scan_word (w : nat) (s : mem) : mem * mem :=
  match w, s with
  | Datatypes.S w, b :: s' =>
      if isspace (zb b) then ([], s) else let '(t, rest) := scan_word w s' in (b :: t, rest)
  | _, _ => ([], s)
  end.
Definition scan_str (w : nat) (s : mem) : option (mem * mem) :=
  match scan_word w (scan_ws s) with ([], _) => None | r => Some r end.

(** [%d], [%hu] and [%jd]: after white space, an optional sign and decimal
    digits.  A number that the object cannot hold is undefined. *)
Fixpoint scan_decimal (s : mem) (acc : Z) (seen : bool) : Z * mem * bool :=
  match s with
  | b :: s' => if isdigit (zb b) then scan_decimal s' (acc * 10 + (zb b - 48)) true else (acc, s, seen)
  | [] => (acc, [], seen)
  end.
Definition scan_dec (lo hi : Z) (s : mem) : res (option (Z * mem)) :=
  let s := scan_ws s in
  let '(neg, s) := match s with
    | b :: s' => if zb b =? 45 then (true, s') else if zb b =? 43 then (false, s') else (false, s)
    | [] => (false, []) end in
  let '(n, s, seen) := scan_decimal s 0 false in
  let n := if neg then - n else n in
  if negb seen then Ok None else
  if (lo <=? n) && (n <=? hi) then Ok (Some (n, s)) else UB.

(* ================================================================== *)
(** * Lemmas *)

#[global] Arguments len : simpl never.
#[global] Arguments rd : simpl never.
#[global] Arguments wr : simpl never.
#[global] Arguments slice : simpl never.
#[global] Arguments splice : simpl never.
#[global] Arguments bz : simpl never.
#[global] Arguments zb : simpl never.

#[export] Hint Rewrite @length_app @length_take @length_drop @length_insert
  @repeat_length : c_len.

Lemma len_nonneg m : 0 <= len m.
Proof. unfold len. lia. Qed.
Lemma len_app m1 m2 : len (m1 ++ m2) = len m1 + len m2.
Proof. unfold len. rewrite length_app. lia. Qed.
Lemma len_cons b m : len (b :: m) = 1 + len m.
Proof. unfold len. simpl. lia. Qed.
Lemma len_nil : len [] = 0.
Proof. done. Qed.
Lemma to_nat_len m : Z.to_nat (len m) = length m.
Proof. unfold len. lia. Qed.

Lemma rd_ok m i b : rd m i = Ok b ↔ 0 <= i ∧ m !! Z.to_nat i = Some b.
Proof.
  unfold rd. destruct (Z.leb_spec 0 i); [|split; [done|lia]].
  destruct (m !! Z.to_nat i) eqn:E; split; [intros [= ->]; done
    |intros [_ [= ->]]; done|done|by intros [_ ?]].
Qed.

Lemma rd_in m i : 0 <= i < len m → ∃ b, rd m i = Ok b.
Proof.
  intros Hi. unfold len in Hi.
  destruct (lookup_lt_is_Some_2 m (Z.to_nat i)) as [b Hb]; [lia|].
  exists b. apply rd_ok. split; [lia|done].
Qed.

Lemma rd_bounds m i b : rd m i = Ok b → 0 <= i < len m.
Proof.
  rewrite rd_ok. intros [? Hl%lookup_lt_Some]. unfold len. lia.
Qed.

Lemma wp_rd m i (Q : byte → Prop) :
  0 <= i < len m → (∀ b, rd m i = Ok b → Q b) → wp (rd m i) Q.
Proof. intros Hi HQ. destruct (rd_in m i Hi) as [b Hb]. rewrite Hb. simpl. auto. Qed.

Lemma rd_app_l m1 m2 i : i < len m1 → rd (m1 ++ m2) i = rd m1 i.
Proof.
  intros Hi. unfold rd. destruct (Z.leb_spec 0 i); [|done].
  rewrite lookup_app_l; [done|unfold len in Hi; lia].
Qed.
Lemma rd_app_r m1 m2 i : len m1 <= i → rd (m1 ++ m2) i = rd m2 (i - len m1).
Proof.
  intros Hi. unfold rd. pose proof (len_nonneg m1).
  rewrite (proj2 (Z.leb_le 0 i)), (proj2 (Z.leb_le 0 (i - len m1))) by lia.
  rewrite lookup_app_r by (unfold len in *; lia).
  unfold len in *. by replace (Z.to_nat i - length m1)%nat
    with (Z.to_nat (i - Z.of_nat (length m1))) by lia.
Qed.
Lemma rd_cons_0 b m : rd (b :: m) 0 = Ok b.
Proof. done. Qed.
Lemma rd_cons_S b m i : 0 < i → rd (b :: m) i = rd m (i - 1).
Proof.
  intros Hi. change (b :: m) with ([b] ++ m). rewrite rd_app_r; [done|].
  unfold len; simpl; lia.
Qed.

Lemma len_slice m i n :
  0 <= i → 0 <= n → i + n <= len m → len (slice m i n) = n.
Proof.
  unfold len, slice. intros. rewrite length_take, length_drop. lia.
Qed.
Lemma rd_slice m i n j :
  0 <= i → 0 <= j < n → rd (slice m i n) j = rd m (i + j).
Proof.
  intros Hi Hj. unfold rd, slice.
  rewrite (proj2 (Z.leb_le 0 j)), (proj2 (Z.leb_le 0 (i + j))) by lia.
  rewrite lookup_take_lt by lia. rewrite lookup_drop.
  by replace (Z.to_nat i + Z.to_nat j)%nat with (Z.to_nat (i + j)) by lia.
Qed.
Lemma slice_app_l m1 m2 i n :
  0 <= i → 0 <= n → i + n <= len m1 → slice (m1 ++ m2) i n = slice m1 i n.
Proof.
  unfold slice, len. intros. rewrite drop_app_le by lia.
  rewrite take_app_le; [done|]. rewrite length_drop. lia.
Qed.
Lemma slice_app_r m1 m2 i n :
  len m1 <= i → slice (m1 ++ m2) i n = slice m2 (i - len m1) n.
Proof.
  unfold slice, len. intros. rewrite drop_app_ge by lia.
  by replace (Z.to_nat i - length m1)%nat
    with (Z.to_nat (i - Z.of_nat (length m1))) by lia.
Qed.
Lemma slice_all m : slice m 0 (len m) = m.
Proof. unfold slice. rewrite drop_0, to_nat_len. by apply firstn_all. Qed.
Lemma slice_0 m n : 0 <= n → slice m 0 n = take (Z.to_nat n) m.
Proof. done. Qed.
Lemma slice_nil m i : slice m i 0 = [].
Proof. done. Qed.
Lemma slice_split m i n1 n2 :
  0 <= i → 0 <= n1 → 0 <= n2 →
  slice m i (n1 + n2) = slice m i n1 ++ slice m (i + n1) n2.
Proof.
  intros. unfold slice.
  rewrite Z2Nat.inj_add by lia. rewrite (Z2Nat.inj_add i) by lia.
  rewrite <- drop_drop. by rewrite take_take_drop.
Qed.

Lemma len_splice m i bs :
  0 <= i → i + len bs <= len m → len (splice m i bs) = len m.
Proof.
  unfold len, splice. intros. rewrite !length_app, length_take, length_drop. lia.
Qed.
Lemma rd_splice_in m i bs j :
  0 <= i <= len m → i <= j < i + len bs → rd (splice m i bs) j = rd bs (j - i).
Proof.
  intros Hi Hj. unfold splice.
  assert (Ht : len (take (Z.to_nat i) m) = i).
  { unfold len in *. rewrite length_take. lia. }
  rewrite rd_app_r by lia. rewrite rd_app_l by lia. by rewrite Ht.
Qed.
Lemma rd_splice_lt m i bs j :
  0 <= i <= len m → j < i → rd (splice m i bs) j = rd m j.
Proof.
  intros Hi Hj. unfold splice.
  assert (Ht : len (take (Z.to_nat i) m) = i).
  { unfold len in *. rewrite length_take. lia. }
  rewrite rd_app_l by lia. unfold rd. destruct (Z.leb_spec 0 j); [|done].
  rewrite lookup_take_lt; [done|lia].
Qed.
Lemma rd_splice_ge m i bs j :
  0 <= i → i + len bs <= len m → i + len bs <= j → rd (splice m i bs) j = rd m j.
Proof.
  intros Hi Hb Hj. unfold splice.
  assert (Ht : len (take (Z.to_nat i) m) = i).
  { unfold len in *. rewrite length_take. lia. }
  rewrite rd_app_r by (pose proof (len_nonneg bs); lia).
  rewrite rd_app_r by lia. rewrite Ht.
  unfold rd, len in *.
  rewrite (proj2 (Z.leb_le 0 (j - i - Z.of_nat (length bs)))),
    (proj2 (Z.leb_le 0 j)) by lia.
  rewrite lookup_drop.
  by replace (Z.to_nat i + length bs + Z.to_nat (j - i - Z.of_nat (length bs)))%nat
    with (Z.to_nat j) by lia.
Qed.

Lemma wp_wr m i v (Q : mem → Prop) :
  0 <= i < len m → Q (<[Z.to_nat i := bz v]> m) → wp (wr m i v) Q.
Proof.
  intros Hi HQ. unfold wr.
  rewrite (proj2 (Z.leb_le 0 i)), (proj2 (Z.ltb_lt i (len m))) by lia. done.
Qed.
Lemma len_insert i (b : byte) (m : mem) : len (<[i := b]> m) = len m.
Proof. unfold len. by rewrite length_insert. Qed.
Lemma rd_insert_eq m i b :
  0 <= i < len m → rd (<[Z.to_nat i := b]> m) i = Ok b.
Proof.
  intros Hi. apply rd_ok. split; [lia|].
  apply list_lookup_insert_eq. unfold len in Hi. lia.
Qed.
Lemma rd_insert_ne m i j b :
  0 <= i → i ≠ j → rd (<[Z.to_nat i := b]> m) j = rd m j.
Proof.
  intros Hi Hne. unfold rd. destruct (Z.leb_spec 0 j); [|done].
  rewrite list_lookup_insert_ne by lia. done.
Qed.

Lemma wp_memcpy dst d src s n (Q : mem → Prop) :
  0 <= n → 0 <= d → d + n <= len dst → 0 <= s → s + n <= len src →
  Q (splice dst d (slice src s n)) → wp (memcpy dst d src s n) Q.
Proof.
  intros. unfold memcpy.
  rewrite (proj2 (Z.leb_le 0 n)), (proj2 (Z.leb_le 0 d)),
    (proj2 (Z.leb_le (d + n) (len dst))), (proj2 (Z.leb_le 0 s)),
    (proj2 (Z.leb_le (s + n) (len src))) by lia. done.
Qed.
Lemma wp_memset m d c n (Q : mem → Prop) :
  0 <= n → 0 <= d → d + n <= len m →
  Q (splice m d (repeat (bz c) (Z.to_nat n))) → wp (memset m d c n) Q.
Proof.
  intros. unfold memset.
  rewrite (proj2 (Z.leb_le 0 n)), (proj2 (Z.leb_le 0 d)),
    (proj2 (Z.leb_le (d + n) (len m))) by lia. done.
Qed.
Lemma wp_memcmp m1 i1 m2 i2 n (Q : Z → Prop) :
  0 <= n → 0 <= i1 → i1 + n <= len m1 → 0 <= i2 → i2 + n <= len m2 →
  Q (memcmp_list (slice m1 i1 n) (slice m2 i2 n)) → wp (memcmp m1 i1 m2 i2 n) Q.
Proof.
  intros. unfold memcmp.
  rewrite (proj2 (Z.leb_le 0 n)), (proj2 (Z.leb_le 0 i1)),
    (proj2 (Z.leb_le (i1 + n) (len m1))), (proj2 (Z.leb_le 0 i2)),
    (proj2 (Z.leb_le (i2 + n) (len m2))) by lia. done.
Qed.

Lemma bytes_at_ok m o n : 0 <= o → 0 <= n → o + n <= len m → bytes_at o n m = Ok (slice m o n).
Proof. intros. unfold bytes_at. by rewrite !(proj2 (Z.leb_le _ _)) by lia. Qed.
Lemma memset_ok m d c n :
  0 <= n → 0 <= d → d + n <= len m →
  memset m d c n = Ok (splice m d (repeat (bz c) (Z.to_nat n))).
Proof. intros. apply wp_eq. by apply wp_memset. Qed.

Lemma memcmp_list_eq a b :
  length a = length b → memcmp_list a b = 0 ↔ a = b.
Proof.
  revert b. induction a as [|x a IH]; intros [|y b] Hl; simplify_eq/=; [done|].
  destruct (Z.eqb_spec (zb x) (zb y)) as [E|E].
  - apply zb_inj in E as ->. rewrite IH by done. split; congruence.
  - split; [lia|]. intros [= -> _]. done.
Qed.

(** *** Scanning *)
Lemma memchr_from_spec l i n c :
  n <= len l →
  wp (memchr_from l i n c) (λ r,
    match r with
    | None => ∀ j b, 0 <= j < n → rd l j = Ok b → zb b ≠ c
    | Some p => i <= p < i + n ∧ (∃ b, rd l (p - i) = Ok b ∧ zb b = c) ∧
                ∀ j b, 0 <= j < p - i → rd l j = Ok b → zb b ≠ c
    end).
Proof.
  revert i n. induction l as [|a l IH]; intros i n Hn; simpl.
  - change (len []) with 0 in Hn. rewrite (proj2 (Z.leb_le n 0)) by lia.
    simpl. intros; lia.
  - rewrite len_cons in Hn.
    destruct (Z.leb_spec n 0); [simpl; intros; lia|].
    destruct (Z.eqb_spec (zb a) c) as [Ha|Ha]; simpl.
    + split; [lia|]. rewrite Z.sub_diag. split; [by exists a|intros; lia].
    + eapply wp_mono; [apply (IH (i + 1) (n - 1)); lia|].
      intros [p|]; simpl.
      * intros (Hp & (b & Hb & Hc) & Hno). split; [lia|].
        rewrite rd_cons_S by lia. replace (p - i - 1) with (p - (i + 1)) by lia.
        split; [by exists b|]. intros j b' Hj Hb'.
        destruct (Z.eq_dec j 0) as [->|]; [by injection Hb' as ->|].
        rewrite rd_cons_S in Hb' by lia. apply (Hno (j - 1) b'); [lia|done].
      * intros Hno j b Hj Hb.
        destruct (Z.eq_dec j 0) as [->|]; [by injection Hb as ->|].
        rewrite rd_cons_S in Hb by lia. apply (Hno (j - 1) b); [lia|done].
Qed.

Lemma rd_drop (m : mem) i j :
  0 <= i → 0 <= j → rd (drop (Z.to_nat i) m) j = rd m (i + j).
Proof.
  intros. unfold rd. rewrite (proj2 (Z.leb_le 0 j)), (proj2 (Z.leb_le 0 (i + j))) by lia.
  rewrite lookup_drop. by replace (Z.to_nat i + Z.to_nat j)%nat
    with (Z.to_nat (i + j)) by lia.
Qed.

Lemma len_drop (m : mem) i : 0 <= i <= len m → len (drop (Z.to_nat i) m) = len m - i.
Proof. unfold len. intros. rewrite length_drop. lia. Qed.

(** [memchr] inside the object: the first occurrence, or none *)
Lemma wp_memchr m i c n (Q : option Z → Prop) :
  0 <= i → 0 <= n → i + n <= len m → n < 2 ^ 64 →
  (∀ p, i <= p < i + n → (∃ b, rd m p = Ok b ∧ zb b = c) →
        (∀ j b, i <= j < p → rd m j = Ok b → zb b ≠ c) → Q (Some p)) →
  ((∀ j b, i <= j < i + n → rd m j = Ok b → zb b ≠ c) → Q None) →
  wp (memchr m i c n) Q.
Proof.
  intros Hi Hn Hb H64 HS HN. unfold memchr.
  rewrite (proj2 (Z.leb_le 0 i)), (proj2 (Z.leb_le i (len m))) by lia. simpl.
  rewrite u64_small by lia.
  eapply wp_mono; [apply memchr_from_spec; rewrite len_drop by lia; lia|].
  intros [p|].
  - intros (Hp & (b & Hb' & Hc) & Hno). rewrite rd_drop in Hb' by lia.
    apply HS; [lia| |].
    + exists b. by replace (i + (p - i)) with p in Hb' by lia.
    + intros j b' Hj Hr. apply (Hno (j - i) b'); [lia|].
      rewrite rd_drop by lia. by replace (i + (j - i)) with j by lia.
  - intros Hno. apply HN. intros j b' Hj Hr.
    apply (Hno (j - i) b'); [lia|]. rewrite rd_drop by lia.
    by replace (i + (j - i)) with j by lia.
Qed.

(** comparing with a NUL-free literal reads no more than its bytes and
    decides whether they match *)
Fixpoint lit_match (f : Z → Z) (l lit : mem) : bool :=
  match lit, l with
  | [], _ => true
  | _, [] => false
  | c :: lit', a :: l' => (f (zb a) =? f (zb c)) && lit_match f l' lit'
  end.

Lemma strn_cmp_spec f l lit :
  (∀ c, c ∈ lit → zb c ≠ 0) → (∀ z, f z = f 0 → 0 <= z < 256 → z = 0) →
  (length lit <= length l)%nat →
  wp (strn_cmp f l lit (length lit)) (λ r, r = 0 ↔ lit_match f l lit = true).
Proof.
  intros Hnz Hf. revert l. induction lit as [|c lit IH]; intros [|a l] Hl;
    simpl in *; try lia; [done..|].
  destruct (Z.eqb_spec (f (zb a)) (f (zb c))) as [E|E]; simpl.
  - destruct (Z.eqb_spec (zb a) 0) as [Ea|Ea]; simpl.
    + exfalso. apply (Hnz c); [by left|]. apply Hf; [by rewrite <- E, Ea|].
      apply zb_range.
    + apply IH; [|lia]. intros c' Hc'. apply Hnz. by right.
  - split; [lia|done].
Qed.

(** a mismatch is found at the latest at the literal's last byte *)
Lemma wp_strncmp m i lit (Q : Z → Prop) :
  0 <= i → i + len lit <= len m → forallb (λ c, negb (zb c =? 0)) lit = true →
  (∀ r, (r = 0 ↔ lit_match id (drop (Z.to_nat i) m) lit = true) → Q r) →
  wp (strncmp m i lit (len lit)) Q.
Proof.
  intros Hi Hl Hnz HQ. unfold strncmp. pose proof (len_nonneg lit).
  rewrite (proj2 (Z.leb_le 0 i)), (proj2 (Z.leb_le i (len m))) by lia. simpl.
  rewrite to_nat_len. eapply wp_mono; [apply strn_cmp_spec|apply HQ].
  - intros c Hc%list_elem_of_In. rewrite forallb_forall in Hnz.
    specialize (Hnz c Hc). lia.
  - unfold id. lia.
  - unfold len in *. rewrite length_drop. lia.
Qed.

Lemma tolower_0 z : tolower z = tolower 0 → 0 <= z < 256 → z = 0.
Proof. unfold tolower, isupper. simpl. destruct (_ && _) eqn:E; lia. Qed.

Lemma wp_strncasecmp m i lit (Q : Z → Prop) :
  0 <= i → i + len lit <= len m → forallb (λ c, negb (zb c =? 0)) lit = true →
  (∀ r, (r = 0 ↔ lit_match tolower (drop (Z.to_nat i) m) lit = true) → Q r) →
  wp (strncasecmp m i lit (len lit)) Q.
Proof.
  intros Hi Hl Hnz HQ. unfold strncasecmp. pose proof (len_nonneg lit).
  rewrite (proj2 (Z.leb_le 0 i)), (proj2 (Z.leb_le i (len m))) by lia. simpl.
  rewrite to_nat_len. eapply wp_mono; [apply strn_cmp_spec|apply HQ].
  - intros c Hc%list_elem_of_In. rewrite forallb_forall in Hnz.
    specialize (Hnz c Hc). lia.
  - apply tolower_0.
  - unfold len in *. rewrite length_drop. lia.
Qed.

(** *** Writing into a concatenation *)
Lemma splice_app (a b b' c : mem) :
  len b' = len b → splice (a ++ b ++ c) (len a) b' = a ++ b' ++ c.
Proof.
  unfold splice, len. intros Hb. rewrite Nat2Z.id, take_app_length.
  f_equal. f_equal. rewrite drop_app_ge by lia.
  rewrite drop_app_ge by lia. replace (_ - _ - _)%nat with 0%nat by lia. done.
Qed.

Lemma slice_mid (a b c : mem) i n :
  i = len a → n = len b → slice (a ++ b ++ c) i n = b.
Proof.
  intros -> ->. pose proof (len_nonneg b).
  rewrite slice_app_r by lia. rewrite Z.sub_diag, slice_app_l by lia.
  apply slice_all.
Qed.

Lemma wr_app (a : mem) (x : byte) (c : mem) v i :
  i = len a → wr (a ++ x :: c) i v = Ok (a ++ bz v :: c).
Proof.
  intros ->. unfold wr. pose proof (len_nonneg a). pose proof (len_nonneg c).
  rewrite (proj2 (Z.leb_le _ _)), (proj2 (Z.ltb_lt _ _))
    by (rewrite ?len_app, ?len_cons; lia).
  cbn [andb]. f_equal. rewrite to_nat_len.
  replace (length a) with (length a + 0)%nat by lia. by rewrite insert_app_r.
Qed.

Lemma memcpy_ok (dst : mem) d (src : mem) s n :
  0 <= n → 0 <= d → d + n <= len dst → 0 <= s → s + n <= len src →
  memcpy dst d src s n = Ok (splice dst d (slice src s n)).
Proof. intros. apply wp_eq. by apply wp_memcpy. Qed.

Lemma bz_u8 z : bz (u8 z) = bz z.
Proof.
  unfold bz. replace (u8 (u8 z)) with (u8 z); [done|].
  symmetry. unfold u8. by apply Z.mod_mod.
Qed.

Lemma take_len_app (a b : mem) n : n = len a → take (Z.to_nat n) (a ++ b) = a.
Proof. intros ->. by rewrite to_nat_len, take_app_length. Qed.

Lemma drop_len_app (a b : mem) n : n = len a → drop (Z.to_nat n) (a ++ b) = b.
Proof. intros ->. by rewrite to_nat_len, drop_app_length. Qed.

(** *** Facts about a segment of an object *)
Lemma rd_Forall (P : byte → Prop) (b : mem) j x : Forall P b → rd b j = Ok x → P x.
Proof. rewrite rd_ok. intros H [_ Hx]. by eapply Forall_lookup_1. Qed.

Lemma rd_seg (a b c : mem) j :
  len a <= j < len a + len b → rd (a ++ b ++ c) j = rd b (j - len a).
Proof. intros Hj. rewrite rd_app_r by lia. by rewrite rd_app_l by lia. Qed.

Lemma seg_Forall (P : byte → Prop) (m a b c : mem) j x :
  m = a ++ b ++ c → Forall P b → len a <= j < len a + len b →
  rd m j = Ok x → P x.
Proof. intros -> HP Hj. rewrite rd_seg by done. by apply rd_Forall. Qed.

Lemma rd_head (m a c : mem) x j : m = a ++ x :: c → j = len a → rd m j = Ok x.
Proof. intros -> ->. rewrite rd_app_r by lia. by rewrite Z.sub_diag. Qed.

(** A closed claim about either signedness of [char]: compute both. *)
Ltac by_both_signs :=
  match goal with
  | H : CharModel |- _ => unfold CharModel in H; destruct H
  end; vm_compute; repeat split; reflexivity.
