(* ===== verification/Packets.v ===== *)
(** * byedpi: recognising and rewriting TLS and HTTP messages

    Models [native/byedpi/packets.c] and [packets.h], function by function
    and under the same names.  A [char *buffer] is a [mem] and a pointer
    into it an offset; [char **hs] out-parameters are returned as an
    [option] offset; functions that write the buffer return the new one.
    [rand()] is the stream [rnd] read at a counter that is threaded through.
    Loops that terminate carry their own bound; [merge_tls_records], which
    need not terminate, takes its fuel as an argument. *)

From Stdlib Require Import ZArith Lia Bool List.
From Stdlib Require Import Strings.Byte Strings.Ascii Strings.String.
From stdpp Require Import base tactics list numbers option.
From S2P Require Import Prelude CMem.

(** the built-in fakes; the array is zero-filled up to its 517 bytes *)
Definition tls_data : mem :=
  map bz [
    0x16; 0x03; 0x01; 0x02; 0x00; 0x01; 0x00; 0x01; 0xfc; 0x03; 0x03; 0x03; 0x5f;
    0x6f; 0x2c; 0xed; 0x13; 0x22; 0xf8; 0xdc; 0xb2; 0xf2; 0x60; 0x48; 0x2d; 0x72;
    0x66; 0x6f; 0x57; 0xdd; 0x13; 0x9d; 0x1b; 0x37; 0xdc; 0xfa; 0x36; 0x2e; 0xba;
    0xf9; 0x92; 0x99; 0x3a; 0x20; 0xf9; 0xdf; 0x0c; 0x2e; 0x8a; 0x55; 0x89; 0x82;
    0x31; 0x63; 0x1a; 0xef; 0xa8; 0xbe; 0x08; 0x58; 0xa7; 0xa3; 0x5a; 0x18; 0xd3;
    0x96; 0x5f; 0x04; 0x5c; 0xb4; 0x62; 0xaf; 0x89; 0xd7; 0x0f; 0x8b; 0x00; 0x3e;
    0x13; 0x02; 0x13; 0x03; 0x13; 0x01; 0xc0; 0x2c; 0xc0; 0x30; 0x00; 0x9f; 0xcc;
    0xa9; 0xcc; 0xa8; 0xcc; 0xaa; 0xc0; 0x2b; 0xc0; 0x2f; 0x00; 0x9e; 0xc0; 0x24;
    0xc0; 0x28; 0x00; 0x6b; 0xc0; 0x23; 0xc0; 0x27; 0x00; 0x67; 0xc0; 0x0a; 0xc0;
    0x14; 0x00; 0x39; 0xc0; 0x09; 0xc0; 0x13; 0x00; 0x33; 0x00; 0x9d; 0x00; 0x9c;
    0x00; 0x3d; 0x00; 0x3c; 0x00; 0x35; 0x00; 0x2f; 0x00; 0xff; 0x01; 0x00; 0x01;
    0x75; 0x00; 0x00; 0x00; 0x16; 0x00; 0x14; 0x00; 0x00; 0x11; 0x77; 0x77; 0x77;
    0x2e; 0x77; 0x69; 0x6b; 0x69; 0x70; 0x65; 0x64; 0x69; 0x61; 0x2e; 0x6f; 0x72;
    0x67; 0x00; 0x0b; 0x00; 0x04; 0x03; 0x00; 0x01; 0x02; 0x00; 0x0a; 0x00; 0x16;
    0x00; 0x14; 0x00; 0x1d; 0x00; 0x17; 0x00; 0x1e; 0x00; 0x19; 0x00; 0x18; 0x01;
    0x00; 0x01; 0x01; 0x01; 0x02; 0x01; 0x03; 0x01; 0x04; 0x00; 0x10; 0x00; 0x0e;
    0x00; 0x0c; 0x02; 0x68; 0x32; 0x08; 0x68; 0x74; 0x74; 0x70; 0x2f; 0x31; 0x2e;
    0x31; 0x00; 0x16; 0x00; 0x00; 0x00; 0x17; 0x00; 0x00; 0x00; 0x31; 0x00; 0x00;
    0x00; 0x0d; 0x00; 0x2a; 0x00; 0x28; 0x04; 0x03; 0x05; 0x03; 0x06; 0x03; 0x08;
    0x07; 0x08; 0x08; 0x08; 0x09; 0x08; 0x0a; 0x08; 0x0b; 0x08; 0x04; 0x08; 0x05;
    0x08; 0x06; 0x04; 0x01; 0x05; 0x01; 0x06; 0x01; 0x03; 0x03; 0x03; 0x01; 0x03;
    0x02; 0x04; 0x02; 0x05; 0x02; 0x06; 0x02; 0x00; 0x2b; 0x00; 0x09; 0x08; 0x03;
    0x04; 0x03; 0x03; 0x03; 0x02; 0x03; 0x01; 0x00; 0x2d; 0x00; 0x02; 0x01; 0x01;
    0x00; 0x33; 0x00; 0x26; 0x00; 0x24; 0x00; 0x1d; 0x00; 0x20; 0x11; 0x8c; 0xb8;
    0x8c; 0xe8; 0x8a; 0x08; 0x90; 0x1e; 0xee; 0x19; 0xd9; 0xdd; 0xe8; 0xd4; 0x06;
    0xb1; 0xd1; 0xe2; 0xab; 0xe0; 0x16; 0x63; 0xd6; 0xdc; 0xda; 0x84; 0xa4; 0xb8;
    0x4b; 0xfb; 0x0e; 0x00; 0x15; 0x00; 0xac; 0x00; 0x00; 0x00; 0x00; 0x00; 0x00] ++ repeat x00 166.

Definition crlf : mem := [x0d; x0a].

Definition http_data : mem :=
  bytes_of "GET / HTTP/1.1" ++ crlf ++ bytes_of "Host: www.wikipedia.org"
  ++ crlf ++ crlf.

Definition udp_data : mem := repeat x00 64.

Section Packets.
Context `{cm : CharModel}.
(** successive results of [rand()] *)
Variable rnd : nat → Z.

Definition IS_TCP : Z := 1.
Definition IS_UDP : Z := 2.
Definition IS_HTTP : Z := 4.
Definition IS_HTTPS : Z := 8.
Definition IS_IPV4 : Z := 16.
Definition MH_HMIX : Z := 1.
Definition MH_SPACE : Z := 2.
Definition MH_DMIX : Z := 4.

(** [ANTOHS(data, i)], as the [int] the macro expands to *)
Definition ANTOHS (data : mem) (i : Z) : res Z :=
  a ← rd data i;
  b ← rd data (i + 1);
  Ok (Z.shiftl (u16 (chr a)) 8 + zb b).

(** [SHTONA(data, i, x)] *)
Definition SHTONA (data : mem) (i x : Z) : res mem :=
  d ← wr data i (u8 (Z.shiftr x 8));
  wr d (i + 1) (Z.land x 255).

(** [strncasestr] on the [as_] bytes at the start of [m] *)
Definition strncasestr (m : mem) (as_ : Z) (b : mem) (bs : Z) : res (option Z) :=
  b0 ← rd b 0;
  loop (Z.to_nat as_ + 2) (λ p,
    r ← memchr m p (zb b0) (as_ - p);
    match r with
    | None => Ok (inr None)
    | Some p =>
        if as_ <? p + bs then Ok (inr None)
        else
          c ← strncasecmp m p b bs;
          if c =? 0 then Ok (inr (Some p)) else Ok (inl (p + 1))
    end) 0.

Definition find_tls_ext_offset (type : Z) (data : mem) (size skip : Z) : res Z :=
  if size <=? u64 (skip + 2) then Ok 0
  else
    a ← ANTOHS data skip;
    let ext_len := u16 a in
    let skip := u64 (skip + 2) in
    let size :=
      if ext_len <? u64 (size - skip) then u64 (ext_len + skip) else size in
    loop (Z.to_nat size + 1) (λ skip,
      if u64 (skip + 4) <? size then
        a ← ANTOHS data skip;
        let epyt := u16 a in
        if type =? epyt then Ok (inr skip)
        else
          l ← ANTOHS data (skip + 2);
          Ok (inl (u64 (skip + (u16 l + 4))))
      else Ok (inr 0)) skip.

Definition find_ext_block (data : mem) (size : Z) : res Z :=
  if size <? 44 then Ok 0
  else
    s ← rd data 43;
    let sid_len := zb s in
    if size <? 44 + sid_len + 2 then Ok 0
    else
      c ← ANTOHS data (44 + sid_len);
      let cip_len := u16 c in
      let skip := 44 + sid_len + 2 + cip_len + 2 in
      Ok (if size <? skip then 0 else skip).

(** The loop of [merge_tls_records]: its state is (buffer, full_sz, r_sz, i). *)
Definition merge_step (n : Z) (st : mem * Z * Z * Z)
  : res ((mem * Z * Z * Z) + (mem * Z * Z)) :=
  let '(buffer, full_sz, r_sz, i) := st in
  let full_sz := u16 (full_sz + r_sz) in
  let stop := Ok (inr (buffer, full_sz, i)) in
  if n - 5 <? 5 + full_sz then stop
  else
    c ← rd buffer (5 + full_sz);
    c0 ← rd buffer 0;
    if bool_decide (c ≠ c0) then stop
    else
      r ← ANTOHS buffer (5 + full_sz + 3);
      let r_sz := u16 r in
      if n <? full_sz + 10 + r_sz then stop
      else
        buffer ← memmove buffer (5 + full_sz) (10 + full_sz) (n - (10 + full_sz));
        Ok (inl (buffer, full_sz, r_sz, i + 1)).

Definition merge_tls_records (fuel : nat) (buffer : mem) (n : Z) : res (Z * mem) :=
  if n <? 5 then Ok (0, buffer)
  else
    r ← ANTOHS buffer 3;
    '(buffer, full_sz, i) ← loop fuel (merge_step n) (buffer, 0, u16 r, 0);
    buffer ← SHTONA buffer 3 full_sz;
    buffer ← SHTONA buffer 7 (full_sz - 4);
    Ok (i * 5, buffer).

(** one character of the host pattern *)
Definition copy_char (c : Z) (k : nat) : Z * nat :=
  if c =? 42 (* '*' *) then
    let r := Z.rem (rnd k) (10 + 122 - 97 + 1) in
    ((if r <? 10 then 48 else 97 - 10) + r, S k)
  else if c =? 63 (* '?' *) then (97 + Z.rem (rnd k) (122 - 97 + 1), S k)
  else if c =? 35 (* '#' *) then (48 + Z.rem (rnd k) 10, S k)
  else (c, k).

(** [copy_name(buffer + o, name, out_len)]; [name] is a C string *)
Fixpoint copy_name (buffer : mem) (o : Z) (name : mem) (out_len : nat) (k : nat)
  : res (mem * nat) :=
  match out_len with
  | O => Ok (buffer, k)
  | S out_len =>
      match name with
      | [] => UB
      | c :: name =>
          let '(v, k) := copy_char (chr c) k in
          buffer ← wr buffer o v;
          copy_name buffer (o + 1) name out_len k
      end
  end.

(** the walk over the key-share entries of [remove_ks_group] *)
Definition ks_step (n ks_offs ks_sz group : Z) (buffer : mem) (g_offs : Z)
  : res (Z + (Z * mem)) :=
  if g_offs + 4 <? ks_offs + 4 + ks_sz then
    a ← ANTOHS buffer (g_offs + 2);
    let g_sz := u16 a in
    if n <? ks_offs + 4 + g_sz then Ok (inr (0, buffer))
    else
      t ← ANTOHS buffer g_offs;
      if u16 t =? group then
        let g_end := g_offs + 4 + g_sz in
        buffer ← memmove buffer g_offs g_end (n - g_end);
        buffer ← SHTONA buffer (ks_offs + 2) (ks_sz - (4 + g_sz));
        buffer ← SHTONA buffer (ks_offs + 4) (ks_sz - (4 + g_sz) - 2);
        Ok (inr (4 + g_sz, buffer))
      else Ok (inl (g_offs + (4 + g_sz)))
  else Ok (inr (0, buffer)).

Definition remove_ks_group (buffer : mem) (n skip group : Z) : res (Z * mem) :=
  ks_offs ← find_tls_ext_offset 0x33 buffer n skip;
  if (ks_offs =? 0) || (n <=? ks_offs + 6) then Ok (0, buffer)
  else
    ks_sz ← ANTOHS buffer (ks_offs + 2);
    if n <? ks_offs + 4 + ks_sz then Ok (0, buffer)
    else loop (Z.to_nat n + 1) (ks_step n ks_offs ks_sz group buffer)
           (ks_offs + 4 + 2).

Definition remove_tls_ext (buffer : mem) (n skip type : Z) : res (Z * mem) :=
  ext_offs ← find_tls_ext_offset type buffer n skip;
  if ext_offs =? 0 then Ok (0, buffer)
  else
    a ← ANTOHS buffer (ext_offs + 2);
    let ext_sz := u16 a in
    let ext_end := ext_offs + 4 + ext_sz in
    if n <? ext_end then Ok (0, buffer)
    else
      buffer ← memmove buffer ext_offs ext_end (n - ext_end);
      Ok (ext_sz + 4, buffer).

Definition resize_ech_ext (buffer : mem) (n skip inc : Z) : res (Z * mem) :=
  ech_offs ← find_tls_ext_offset 0xfe0d buffer n skip;
  if ech_offs =? 0 then Ok (0, buffer)
  else
    a ← ANTOHS buffer (ech_offs + 2);
    let ech_sz := u16 a in
    let ech_end := ech_offs + 4 + ech_sz in
    if (ech_sz <? 12) || (n <? ech_end) then Ok (0, buffer)
    else
      b ← ANTOHS buffer (ech_offs + 4 + 6);
      let enc_sz := u16 b in
      let pay_offs := ech_offs + 4 + 8 + enc_sz in
      let pay_sz := u16 (ech_sz - (8 + enc_sz + 2)) in
      if n <? pay_offs + 2 then Ok (0, buffer)
      else
        let inc := if pay_sz <? - inc then - pay_sz else inc in
        buffer ← SHTONA buffer (ech_offs + 2) (ech_sz + inc);
        buffer ← SHTONA buffer pay_offs (pay_sz + inc);
        buffer ← memmove buffer (ech_end + inc) ech_end (n - (ech_end + inc));
        Ok (inc, buffer).

Definition resize_sni (buffer : mem) (n sni_offs sni_sz new_sz : Z) : res mem :=
  buffer ← SHTONA buffer (sni_offs + 2) (new_sz + 5);
  buffer ← SHTONA buffer (sni_offs + 4) (new_sz + 3);
  buffer ← SHTONA buffer (sni_offs + 7) new_sz;
  let sni_end := sni_offs + 4 + sni_sz in
  memmove buffer (sni_end + new_sz - (sni_sz - 5)) sni_end (n - sni_end).

(** extensions given up, in this order, to make room for a long name *)
Definition exts : list Z :=
  [0x15; 0x31; 0x10; 0x1c; 0x23; 0x05; 0x22; 0x12; 0x1b].

(** the [for] over [exts]: [None] when the list is exhausted ([return -1]) *)
Fixpoint drop_exts (es : list Z) (buffer : mem) (n skip avail : Z)
  : res (option (Z * mem)) :=
  if negb (avail =? 0) && (avail <? 4) then
    match es with
    | [] => Ok None
    | e :: es =>
        '(d, buffer) ← remove_tls_ext buffer n skip e;
        drop_exts es buffer n skip (avail + d)
    end
  else Ok (Some (avail, buffer)).

(** [host] is the C string without its NUL; returns the status, the buffer
    and the advanced [rand] counter *)
Definition change_tls_sni (fuel : nat) (host buffer : mem) (n nn : Z) (k : nat)
  : res (Z * mem * nat) :=
  '(avail, buffer) ← merge_tls_records fuel buffer n;
  let avail := i32 (avail + (nn - n)) in
  r ← ANTOHS buffer 3;
  let r_sz := u16 (u16 r + avail) in
  skip ← find_ext_block buffer n;
  if skip =? 0 then Ok (-1, buffer, k) else
  sni_offs ← find_tls_ext_offset 0 buffer n skip;
  if sni_offs =? 0 then Ok (-1, buffer, k) else
  let new_sz := u16 (len host) in
  s ← ANTOHS buffer (sni_offs + 2);
  let sni_sz := u16 s in
  if n <? sni_offs + 4 + sni_sz then Ok (-1, buffer, k) else
  let diff := new_sz - (sni_sz - 5) in
  let avail := avail - diff in
  '(diff, buffer) ←
    (if (diff <? 0) && (0 <? avail) then
       buffer ← resize_sni buffer n sni_offs sni_sz new_sz;
       Ok (0, buffer)
     else Ok (diff, buffer));
  '(avail, buffer) ←
    (if negb (avail =? 0) then
       '(d, buffer) ← resize_ech_ext buffer n skip avail;
       Ok (avail - d, buffer)
     else Ok (avail, buffer));
  '(avail, buffer) ←
    (if avail <? -50 then
       '(d, buffer) ← remove_ks_group buffer n skip 0x11ec;
       Ok (avail + d, buffer)
     else Ok (avail, buffer));
  o ← drop_exts exts buffer n skip avail;
  match o with
  | None => Ok (-1, buffer, k)
  | Some (avail, buffer) =>
      sni_offs ← find_tls_ext_offset 0 buffer n skip;
      if sni_offs =? 0 then Ok (-1, buffer, k) else
      buffer ← (if negb (diff =? 0)
                then resize_sni buffer n sni_offs sni_sz new_sz
                else Ok buffer);
      '(buffer, k) ← copy_name buffer (sni_offs + 9) host (Z.to_nat new_sz) k;
      '(avail, buffer) ←
        (if 0 <? avail then
           '(d, buffer) ← resize_ech_ext buffer n skip avail;
           Ok (avail - d, buffer)
         else Ok (avail, buffer));
      buffer ←
        (if 4 <=? avail then
           buffer ← SHTONA buffer (5 + r_sz - avail) 0x15;
           buffer ← SHTONA buffer (5 + r_sz - avail + 2) (avail - 4);
           memset buffer (5 + r_sz - avail + 4) 0 (avail - 4)
         else Ok buffer);
      buffer ← SHTONA buffer 3 r_sz;
      buffer ← SHTONA buffer 7 (r_sz - 4);
      buffer ← SHTONA buffer skip (u64 (5 + r_sz - skip - 2));
      Ok (0, buffer, k)
  end.

Definition is_tls_chello (buffer : mem) (bsize : Z) : res bool :=
  if 5 <? bsize then
    a ← ANTOHS buffer 0;
    if a =? 0x1603 then c ← rd buffer 5; Ok (chr c =? 0x01) else Ok false
  else Ok false.

(** the length, and [*hs] when it is set *)
Definition parse_tls (buffer : mem) (bsize : Z) : res (Z * option Z) :=
  b ← is_tls_chello buffer bsize;
  if negb b then Ok (0, None) else
  skip ← find_ext_block buffer bsize;
  if skip =? 0 then Ok (0, None) else
  sni_offs ← find_tls_ext_offset 0x00 buffer bsize skip;
  if (sni_offs =? 0) || (bsize <=? sni_offs + 12) then Ok (0, None) else
  l ← ANTOHS buffer (sni_offs + 7);
  let len := u16 l in
  if bsize <? sni_offs + 9 + len then Ok (0, None)
  else Ok (len, Some (sni_offs + 9)).

Definition methods : list mem :=
  map bytes_of ["HEAD"; "GET"; "POST"; "PUT"; "DELETE";
    "OPTIONS"; "CONNECT"; "TRACE"; "PATCH"]%string.

Fixpoint starts_with_any (buffer : mem) (ms : list mem) : res bool :=
  match ms with
  | [] => Ok false
  | m :: ms =>
      c ← strncmp buffer 0 m (len m);
      if c =? 0 then Ok true else starts_with_any buffer ms
  end.

Definition is_http (buffer : mem) (bsize : Z) : res bool :=
  if bsize <? 16 then Ok false
  else
    c ← rd buffer 0;
    if (ch "T" <? chr c) || (chr c <? ch "C") then Ok false
    else starts_with_any buffer methods.

(** [while (p(buffer[i - 1])) i--] *)
Definition back_while (fuel : nat) (p : Z → bool) (buffer : mem) (i : Z) : res Z :=
  loop fuel (λ i,
    c ← rd buffer (i - 1);
    Ok (if p (zb c) then inl (i - 1) else inr i)) i.

(** [for (; i < e && buffer[i] == ' '; i++)] *)
Definition skip_spaces (buffer : mem) (i e : Z) : res Z :=
  loop (Z.to_nat e + 2) (λ i,
    if i <? e then
      c ← rd buffer i;
      Ok (if chr c =? ch " " then inl (i + 1) else inr i)
    else Ok (inr i)) i.

(** [want_port] is [port != NULL]; the result is (length, [*hs], [*port]) *)
Definition parse_http (buffer : mem) (bsize : Z) (want_port : bool)
  : res (Z * option Z * option Z) :=
  let none := Ok (0, None, None) in
  h ← is_http buffer bsize;
  if negb h then none else
  r ← strncasestr buffer bsize (x0a :: bytes_of "Host:") 6;
  match r with
  | None => none
  | Some host =>
      host ← skip_spaces buffer (host + 6) bsize;
      r ← memchr buffer host 10 (bsize - host);
      match r with
      | None => none
      | Some l_end =>
          l_end ← back_while (Z.to_nat bsize + 2) isspace buffer l_end;
          (* [h_end = l_end - 1; while (isdigit( *--h_end))] *)
          e ← back_while (Z.to_nat bsize + 2) isdigit buffer (l_end - 1);
          let h_end := e - 1 in
          c ← rd buffer h_end;
          o ← (if negb (chr c =? ch ":") then
                 Ok (Some (l_end, if want_port then Some 80 else None))
               else if want_port then
                 '(i, k) ← strtol (drop (Z.to_nat (h_end + 1)) buffer) 10;
                 Ok (if (i <=? 0) || negb (h_end + 1 + k =? l_end) || (0xffff <? i)
                     then None else Some (h_end, Some i))
               else Ok (Some (h_end, None)));
          match o with
          | None => none
          | Some (h_end, port) =>
              c ← rd buffer host;
              if chr c =? ch "[" then
                d ← rd buffer (h_end - 1);
                if negb (chr d =? ch "]") then Ok (0, None, port)
                else Ok (i32 (h_end - 1 - (host + 1)), Some (host + 1), port)
              else Ok (i32 (h_end - host), Some host, port)
          end
      end
  end.

Definition get_http_code (b : mem) (n : Z) : res Z :=
  if n <? 13 then Ok 0 else
  c ← strncmp b 0 (bytes_of "HTTP/1.") 7;
  if negb (c =? 0) then Ok 0 else
  r ← memchr b 12 10 (n - 12);
  match r with
  | None => Ok 0
  | Some _ =>
      '(num, k) ← strtol (drop 9 b) 10;
      if (num <? 100) || (511 <? num) then Ok 0 else
      e ← rd b (9 + k);
      if isspace (zb e) then Ok (i32 num) else Ok 0
  end.

(** [while (h != host && *(--h - 1) != '.')] *)
Definition back_label (req : mem) (host h : Z) : res Z :=
  loop (Z.to_nat (h - host) + 1) (λ h,
    if h =? host then Ok (inr h)
    else
      c ← rd req (h - 1 - 1);
      Ok (if chr c =? ch "." then inr (h - 1) else inl (h - 1))) h.

(** the tail of [is_http_redirect], once the request's host is
    [[host, host+len)] *)
Definition redirect_elsewhere (req : mem) (host hlen : Z) (resp : mem) (sn : Z)
  : res bool :=
  code ← get_http_code resp sn;
  if (308 <? code) || (code <? 300) then Ok false else
  r ← strncasestr resp sn (x0a :: bytes_of "Location:") 10;
  match r with
  | None => Ok false
  | Some location =>
      let location := location + 11 in
      if sn <=? location + 8 then Ok false else
      r ← memchr resp location 10 (sn - location);
      match r with
      | None => Ok false
      | Some l_end =>
          l_end ← back_while (Z.to_nat sn + 2) isspace resp l_end;
          location ←
            (if 7 <? l_end - location then
               c ← strncmp resp location (bytes_of "http://") 7;
               if c =? 0 then Ok (location + 7)
               else
                 c ← strncmp resp location (bytes_of "https://") 8;
                 if c =? 0 then Ok (location + 8) else Ok location
             else Ok location);
          r ← memchr resp location (ch "/") (l_end - location);
          let le := match r with Some p => p | None => l_end end in
          let he := host + hlen in
          h ← back_label req host he;
          h ← back_label req host h;
          if le - location <? he - h then Ok true
          else
            c ← memcmp resp (le - (he - h)) req h (he - h);
            Ok (negb (c =? 0))
      end
  end.

Definition is_http_redirect (req : mem) (qn : Z) (resp : mem) (sn : Z) : res bool :=
  '(hlen, host, _) ← parse_http req qn false;
  if (hlen <=? 0) || (sn <? 29) then Ok false
  else
    match host with
    | None => UB
    | Some host => redirect_elsewhere req host hlen resp sn
    end.

Definition neq_tls_sid (req : mem) (qn : Z) (resp : mem) (sn : Z) : res bool :=
  if (qn <? 75) || (sn <? 75) then Ok false else
  h ← is_tls_chello req qn;
  if negb h then Ok false else
  a ← ANTOHS resp 0;
  if negb (a =? 0x1603) then Ok false else
  s ← rd req 43;
  let sid_len := zb s in
  let skip := 44 + sid_len + 3 in
  o ← find_tls_ext_offset 0x2b resp sn skip;
  if o =? 0 then Ok false else
  t ← rd resp 43;
  if bool_decide (s ≠ t) then Ok true
  else
    c ← memcmp req 44 resp 44 sid_len;
    Ok (negb (c =? 0)).

Definition is_tls_shello (buffer : mem) (bsize : Z) : res bool :=
  if 5 <? bsize then
    a ← ANTOHS buffer 0;
    if a =? 0x1603 then c ← rd buffer 5; Ok (chr c =? 0x02) else Ok false
  else Ok false.

(** [buffer[i] = f(buffer[i])] *)
Definition map_at (f : Z → Z) (buffer : mem) (i : Z) : res mem :=
  c ← rd buffer i; wr buffer i (f (zb c)).

(** [for (i = 0; i < hlen; i += 2) host[i] = toupper(host[i])] *)
Definition upper_even (buffer : mem) (host hlen : Z) : res mem :=
  loop (Z.to_nat hlen + 1) (λ '(buffer, i),
    if i <? hlen then
      buffer ← map_at toupper buffer (host + i);
      Ok (inl (buffer, i + 2))
    else Ok (inr buffer)) (buffer, 0).

Definition mod_http (buffer : mem) (bsize m : Z) : res (Z * mem) :=
  '(hlen, host, _) ← parse_http buffer bsize false;
  if hlen =? 0 then Ok (-1, buffer) else
  match host with
  | None => UB
  | Some host =>
      par ← loop (Z.to_nat host + 2) (λ par,
              c ← rd buffer par;
              Ok (if negb (chr c =? ch ":") then inl (par - 1) else inr par))
            (host - 1);
      let par := par - 4 in
      buffer ← (if has m MH_HMIX then
                  buffer ← map_at tolower buffer par;
                  buffer ← map_at toupper buffer (par + 1);
                  map_at toupper buffer (par + 3)
                else Ok buffer);
      buffer ← (if has m MH_DMIX then upper_even buffer host hlen else Ok buffer);
      buffer ← (if has m MH_SPACE then
                  hlen ← loop (length buffer + 1) (λ hlen,
                           c ← rd buffer (host + hlen);
                           Ok (if negb (isspace (zb c)) then inl (hlen + 1)
                               else inr hlen)) hlen;
                  let sc := host - (par + 5) in
                  buffer ← memmove buffer (par + 5) host hlen;
                  memset buffer (par + 5 + hlen) 9 sc
                else Ok buffer);
      Ok (0, buffer)
  end.

Definition part_tls (buffer : mem) (bsize n pos : Z) : res (Z * mem) :=
  if (n <? 3) || (u64 (bsize - n) <? 5) || (pos <? 0) || (n <? pos + 5)
  then Ok (0, buffer)
  else
    r ← ANTOHS buffer 3;
    let r_sz := u16 r in
    if r_sz <? pos then Ok (i32 n, buffer)
    else
      buffer ← memmove buffer (5 + pos + 5) (5 + pos) (n - (5 + pos));
      buffer ← memcpy buffer (5 + pos) buffer 0 3;
      buffer ← SHTONA buffer 3 pos;
      buffer ← SHTONA buffer (5 + pos + 3) (r_sz - pos);
      Ok (5, buffer).

(** [gen_rand_array(buffer + o, len)] *)
Fixpoint gen_rand_array (buffer : mem) (o : Z) (len : nat) (k : nat)
  : res (mem * nat) :=
  match len with
  | O => Ok (buffer, k)
  | S len =>
      buffer ← wr buffer o (u8 (Z.rem (rnd k) 256));
      gen_rand_array buffer (o + 1) len (S k)
  end.

Definition randomize_tls (buffer : mem) (n : Z) (k : nat) : res (mem * nat) :=
  if n <? 44 then Ok (buffer, k) else
  s ← rd buffer 43;
  let sid_len := zb s in
  if n <? 44 + sid_len + 2 then Ok (buffer, k) else
  '(buffer, k) ← gen_rand_array buffer 11 32 k;
  '(buffer, k) ← gen_rand_array buffer 44 (Z.to_nat sid_len) k;
  skip ← find_ext_block buffer n;
  if skip =? 0 then Ok (buffer, k) else
  ks_offs ← find_tls_ext_offset 0x33 buffer n skip;
  if (ks_offs =? 0) || (n <=? ks_offs + 6) then Ok (buffer, k) else
  ks_sz ← ANTOHS buffer (ks_offs + 2);
  if n <? ks_offs + 4 + ks_sz then Ok (buffer, k) else
  loop (Z.to_nat n + 1) (λ '(buffer, g_offs, k),
    if g_offs + 4 <? ks_offs + 4 + ks_sz then
      a ← ANTOHS buffer (g_offs + 2);
      let g_sz := u16 a in
      if n <? ks_offs + 4 + g_sz then Ok (inr (buffer, k))
      else
        '(buffer, k) ← gen_rand_array buffer (g_offs + 4) (Z.to_nat g_sz) k;
        Ok (inl (buffer, g_offs + (4 + g_sz), k))
    else Ok (inr (buffer, k))) (buffer, ks_offs + 4 + 2, k).

End Packets.
