(* ===== verification/PacketsTls.v ===== *)
(** * The TLS half of packets.c: memory safety, parsing and record surgery

    The wire format of a ClientHello is given by the encoder [enc_chello];
    the parser is shown to stay inside any buffer and to return the server
    name of every encoded hello; splitting a record ([part_tls]) is shown
    to preserve the payload and to be undone by [merge_tls_records]. *)

From Stdlib Require Import ZArith Lia Bool List.
From Stdlib Require Import Strings.Byte Strings.Ascii Strings.String.
From stdpp Require Import base tactics list numbers option.
From S2P Require Import Prelude CMem Packets.

(* ------------------------------------------------------------------ *)
(** ** The wire format *)

(** a 16-bit big-endian field *)
Definition enc16 (z : Z) : mem := [bz (Z.shiftr z 8); bz z].

Record tls_ext := TlsExt { ext_type : Z; ext_data : mem }.

Definition enc_ext (e : tls_ext) : mem :=
  enc16 (ext_type e) ++ enc16 (len (ext_data e)) ++ ext_data e.

Definition enc_exts (es : list tls_ext) : mem := concat (map enc_ext es).

(** the server_name extension with one host_name entry *)
Definition sni_ext (host : mem) : tls_ext :=
  TlsExt 0 (enc16 (len host + 3) ++ [x00] ++ enc16 (len host) ++ host).

Record chello := CHello {
  ch_rec_ver : byte;   (* minor version of the record layer, 1 in practice *)
  ch_rec_len : mem;    (* record length field, not looked at *)
  ch_hs_len : mem;     (* handshake length field, not looked at *)
  ch_version : mem;
  ch_random : mem;
  ch_sid : mem;
  ch_ciphers : mem;
  ch_compression : mem;
  ch_exts : list tls_ext
}.

Definition enc_chello_head (h : chello) : mem :=
  [x16; x03; x01] ++ ch_rec_len h ++ [x01] ++ ch_hs_len h ++ ch_version h
  ++ ch_random h ++ [bz (len (ch_sid h))] ++ ch_sid h
  ++ enc16 (len (ch_ciphers h)) ++ ch_ciphers h ++ ch_compression h.

Definition enc_chello (h : chello) : mem :=
  enc_chello_head h ++ enc16 (len (enc_exts (ch_exts h))) ++ enc_exts (ch_exts h).

Definition chello_wf (h : chello) : Prop :=
  len (ch_rec_len h) = 2 ∧ len (ch_hs_len h) = 3 ∧ len (ch_version h) = 2 ∧
  len (ch_random h) = 32 ∧ len (ch_sid h) < 256 ∧
  len (ch_ciphers h) < 2 ^ 16 ∧ len (ch_compression h) = 2 ∧
  len (enc_exts (ch_exts h)) < 2 ^ 16.

(** offset of the first extension of type [t] in a list laid out from [o] *)
Fixpoint ext_offset (t : Z) (es : list tls_ext) (o : Z) : option Z :=
  match es with
  | [] => None
  | e :: es =>
      if ext_type e =? t then Some o
      else ext_offset t es (o + 4 + len (ext_data e))
  end.

Definition ext_wf (e : tls_ext) : Prop :=
  0 <= ext_type e < 2 ^ 16 ∧ len (ext_data e) < 2 ^ 16.

(* ------------------------------------------------------------------ *)
(** ** Fields of 16 bits *)

#[global] Arguments enc16 : simpl never.
#[global] Arguments enc_ext : simpl never.

Section Tls.
Context `{cm : CharModel}.

Lemma shiftr8 z : Z.shiftr z 8 = z / 256.
Proof. rewrite Z.shiftr_div_pow2 by lia. done. Qed.
Lemma shiftl8 z : Z.shiftl z 8 = z * 256.
Proof. rewrite Z.shiftl_mul_pow2 by lia. done. Qed.
Lemma land255 z : Z.land z 255 = u8 z.
Proof. change 255 with (Z.ones 8). rewrite Z.land_ones by lia. done. Qed.

Lemma zb_chr16 b : u16 (chr b) mod 256 = zb b.
Proof.
  rewrite <- (u8_chr b). unfold u16, u8.
  apply Z.mod_mod_divide. by exists 256.
Qed.

(** the value of an [ANTOHS] once stored in 16 bits *)
Definition be16 (a b : byte) : Z := zb a * 256 + zb b.

Lemma be16_range a b : 0 <= be16 a b < 2 ^ 16.
Proof. unfold be16. pose proof (zb_range a). pose proof (zb_range b). lia. Qed.

Lemma u16_antohs a b : u16 (Z.shiftl (u16 (chr a)) 8 + zb b) = be16 a b.
Proof.
  rewrite shiftl8. unfold be16.
  pose proof (zb_range a) as Ha. pose proof (zb_range b) as Hb.
  pose proof (zb_chr16 a) as E. pose proof (u16_range (chr a)) as Hr.
  unfold u16 at 1. change (2 ^ 16) with (256 * 256).
  symmetry. apply Z.mod_unique_pos with (q := u16 (chr a) / 256); [lia|].
  pose proof (Z.div_mod (u16 (chr a)) 256). lia.
Qed.

Lemma wp_ANTOHS m i (Q : Z → Prop) :
  0 <= i → i + 1 < len m →
  (∀ a b, rd m i = Ok a → rd m (i + 1) = Ok b →
          Q (Z.shiftl (u16 (chr a)) 8 + zb b)) →
  wp (ANTOHS m i) Q.
Proof.
  intros Hi Hl HQ. unfold ANTOHS.
  apply wp_bind, wp_rd; [lia|]. intros a Ha.
  apply wp_bind, wp_rd; [lia|]. intros b Hb. simpl. auto.
Qed.

Lemma antohs_range a b : 0 <= Z.shiftl (u16 (chr a)) 8 + zb b < 2 ^ 25.
Proof.
  rewrite shiftl8. pose proof (u16_range (chr a)). pose proof (zb_range b). lia.
Qed.

Lemma enc16_be16 z : 0 <= z < 2 ^ 16 → be16 (bz (Z.shiftr z 8)) (bz z) = z.
Proof.
  intros Hz. unfold be16. rewrite !zb_bz, shiftr8.
  rewrite (u8_small (z / 256)).
  - unfold u8. change (2 ^ 8) with 256. pose proof (Z.div_mod z 256). lia.
  - split; [apply Z.div_pos; lia|]. apply Z.div_lt_upper_bound; lia.
Qed.

Lemma len_enc16 z : len (enc16 z) = 2.
Proof. done. Qed.

(** reading back a 16-bit field written by the encoder *)
Lemma antohs_enc16 (p q : mem) z i :
  i = len p → 0 <= z < 2 ^ 16 →
  ∃ x, ANTOHS (p ++ enc16 z ++ q) i = Ok x ∧ u16 x = z.
Proof.
  intros -> Hz. unfold ANTOHS, enc16. pose proof (len_nonneg p).
  rewrite !(rd_app_r p) by lia. rewrite Z.sub_diag.
  replace (len p + 1 - len p) with 1 by lia.
  eexists. split; [reflexivity|]. by rewrite u16_antohs, enc16_be16.
Qed.

(* ------------------------------------------------------------------ *)
(** ** Memory safety of the parser *)

Lemma wp_find_ext_block m size :
  size <= len m →
  wp (find_ext_block m size) (λ s, s = 0 ∨ 48 <= s <= size).
Proof.
  intros Hs. unfold find_ext_block. wp_step; wp_step; [by left|].
  apply wp_rd; [lia|]. intros s _. pose proof (zb_range s).
  wp_step; [by left|]. wp_step. apply wp_ANTOHS; [lia..|].
  intros a b _ _. rewrite u16_antohs. pose proof (be16_range a b).
  simpl. case_match; lia.
Qed.

Lemma wp_find_tls_ext_offset type m size skip :
  0 <= skip → size <= len m → len m < 2 ^ 63 → skip < 2 ^ 63 →
  wp (find_tls_ext_offset type m size skip) (λ o,
    o = 0 ∨ skip + 2 <= o ∧ o + 4 < size ∧
            ∃ a b, rd m o = Ok a ∧ rd m (o + 1) = Ok b ∧ be16 a b = type).
Proof.
  intros Hk Hs Hm Hk2. unfold find_tls_ext_offset. ints.
  wp_step; [by left|]. wp_step. apply wp_ANTOHS; [lia..|].
  intros a b _ _. cbv zeta. rewrite u16_antohs. pose proof (be16_range a b).
  set (size' := if _ <? _ then _ else _).
  assert (Hs' : 0 <= size' <= size).
  { unfold size'. ints. case_match; [ints|]; lia. }
  clearbody size'.
  apply (wp_loop (λ s, skip + 2 <= s < 2 ^ 63 + 2 ^ 18 ∧ s < 2 ^ 63 + 2 ^ 18)
           (λ s, Z.max 0 (size' - s))); [lia| |lia|lia].
  intros s [Hs1 _]. ints. wp_step; [|by left].
  wp_step. apply wp_ANTOHS; [lia..|]. intros c d Hc Hd.
  rewrite u16_antohs. wp_step.
  - wp_step. right. split; [lia|]. split; [lia|]. exists c, d.
    split; [done|]. split; [done|]. lia.
  - wp_step. apply wp_ANTOHS; [lia..|]. intros e f _ _. simpl.
    rewrite u16_antohs. pose proof (be16_range e f). ints. lia.
Qed.

Lemma wp_is_tls_chello m bsize (Q : bool → Prop) :
  bsize <= len m → (∀ b, Q b) → wp (is_tls_chello m bsize) Q.
Proof.
  intros Hl HQ. unfold is_tls_chello. wp_step; [|by apply wp_ok].
  wp_step. apply wp_ANTOHS; [lia..|]. intros a b _ _. wp_step; [|by apply wp_ok].
  wp_step. apply wp_rd; [lia|]. intros; by apply wp_ok.
Qed.

Lemma wp_parse_tls m bsize :
  bsize <= len m → len m < 2 ^ 63 →
  wp (parse_tls m bsize) (λ '(l, h),
    match h with
    | None => l = 0
    | Some o => 59 <= o ∧ 0 <= l < 2 ^ 16 ∧ o + l <= bsize
    end).
Proof.
  intros Hl Hm. unfold parse_tls.
  wp_step. apply wp_is_tls_chello; [done|]. intros h.
  wp_step; [done|]. wp_use wp_find_ext_block; [done|].
  intros skip Hskip. wp_step; [done|].
  wp_use wp_find_tls_ext_offset; [lia..|].
  intros o Ho. wp_step; [done|]. wp_step. apply wp_ANTOHS; [lia..|].
  intros a b _ _. cbv zeta. rewrite u16_antohs. pose proof (be16_range a b).
  wp_step; [done|]. simpl. lia.
Qed.

(* ------------------------------------------------------------------ *)
(** ** Parsing an encoded ClientHello *)

Lemma len_enc_ext e : len (enc_ext e) = 4 + len (ext_data e).
Proof. unfold enc_ext. rewrite !len_app, !len_enc16. lia. Qed.

Lemma enc_exts_cons e es : enc_exts (e :: es) = enc_ext e ++ enc_exts es.
Proof. done. Qed.

Lemma len_enc_exts_cons e es :
  len (enc_exts (e :: es)) = 4 + len (ext_data e) + len (enc_exts es).
Proof. rewrite enc_exts_cons, len_app, len_enc_ext. lia. Qed.

Lemma len_enc_exts_app es1 es2 :
  len (enc_exts (es1 ++ es2)) = len (enc_exts es1) + len (enc_exts es2).
Proof. unfold enc_exts. by rewrite map_app, concat_app, len_app. Qed.

(** the answer of the scan: an extension with no byte after its 4-byte
    header inside the block is not reported *)
Definition ext_found (t : Z) (es : list tls_ext) (o e : Z) : Z :=
  match ext_offset t es o with
  | Some p => if p + 4 <? e then p else 0
  | None => 0
  end.

Lemma ext_offset_bounds t es o p :
  ext_offset t es o = Some p → o <= p ∧ p + 4 <= o + len (enc_exts es).
Proof.
  revert o. induction es as [|e es IH]; intros o; [done|]. simpl.
  rewrite len_enc_exts_cons. pose proof (len_nonneg (ext_data e)).
  pose proof (len_nonneg (enc_exts es)).
  destruct (_ =? _); [intros [= ->]; lia|]. intros ?%IH. lia.
Qed.

(** the scanning loop over a list of extensions laid out after [p] *)
Lemma scan_exts t es p q fuel :
  Forall ext_wf es → len (p ++ enc_exts es ++ q) < 2 ^ 63 →
  len (enc_exts es) < Z.of_nat fuel →
  loop fuel (λ skip,
      if u64 (skip + 4) <? len p + len (enc_exts es) then
        a ← ANTOHS (p ++ enc_exts es ++ q) skip;
        if t =? u16 a then Ok (inr skip)
        else
          l ← ANTOHS (p ++ enc_exts es ++ q) (skip + 2);
          Ok (inl (u64 (skip + (u16 l + 4))))
      else Ok (inr 0)) (len p)
  = Ok (ext_found t es (len p) (len p + len (enc_exts es))).
Proof.
  revert p fuel. induction es as [|e es IH]; intros p fuel Hwf Hlen Hfuel.
  - change (len (enc_exts [])) with 0 in *. rewrite len_app in Hlen.
    pose proof (len_nonneg p). pose proof (len_nonneg (enc_exts [] ++ q)).
    destruct fuel as [|fuel]; [lia|]. rewrite loop_S. cbv beta. ints.
    by rewrite (proj2 (Z.ltb_ge _ _)) by lia.
  - pose proof (len_nonneg (enc_exts (e :: es))).
    destruct fuel as [|fuel]; [lia|].
    apply Forall_cons_iff in Hwf as [[Ht Hd] Hwf].
    rewrite len_enc_exts_cons in *. pose proof (len_nonneg (enc_exts es)).
    pose proof (len_nonneg p). pose proof (len_nonneg (ext_data e)).
    pose proof (len_nonneg q).
    assert (Hp : len p + 4 + len (ext_data e) + len (enc_exts es) < 2 ^ 63).
    { rewrite !len_app, len_enc_exts_cons in Hlen. lia. }
    rewrite loop_S. cbv beta. ints. unfold ext_found. simpl ext_offset.
    destruct (Z.ltb_spec (len p + 4)
      (len p + (4 + len (ext_data e) + len (enc_exts es)))) as [Hlt|Hge].
    + assert (Hm : p ++ enc_exts (e :: es) ++ q =
        p ++ enc16 (ext_type e) ++
          (enc16 (len (ext_data e)) ++ ext_data e ++ enc_exts es ++ q)).
      { rewrite enc_exts_cons. unfold enc_ext. by rewrite <- !app_assoc. }
      rewrite Hm.
      destruct (antohs_enc16 p (enc16 (len (ext_data e)) ++ ext_data e ++
        enc_exts es ++ q) (ext_type e) (len p)) as (x & Hx & Hxt); [done..|].
      rewrite Hx. bstep. rewrite Hxt, (Z.eqb_sym t).
      destruct (Z.eqb_spec (ext_type e) t) as [Heq|Hne].
      * simpl. by rewrite (proj2 (Z.ltb_lt _ _)) by lia.
      * destruct (antohs_enc16 (p ++ enc16 (ext_type e)) (ext_data e ++
          enc_exts es ++ q) (len (ext_data e)) (len p + 2)) as (y & Hy & Hyt);
          [rewrite len_app, len_enc16; lia|lia|].
        rewrite <- app_assoc in Hy. rewrite Hy. bstep. rewrite Hyt. ints.
        specialize (IH (p ++ enc_ext e) fuel Hwf).
        assert (HP : (p ++ enc_ext e) ++ enc_exts es ++ q =
          p ++ enc16 (ext_type e) ++ enc16 (len (ext_data e)) ++ ext_data e ++
          enc_exts es ++ q) by (unfold enc_ext; by rewrite <- !app_assoc).
        rewrite HP, (len_app p (enc_ext e)), len_enc_ext in IH.
        rewrite Hm in Hlen. specialize (IH Hlen ltac:(lia)).
        unfold ext_found in IH.
        replace (len p + (4 + len (ext_data e))) with
          (len p + 4 + len (ext_data e)) in IH by lia.
        replace (len p + (len (ext_data e) + 4)) with
          (len p + 4 + len (ext_data e)) by lia.
        replace (len p + (4 + len (ext_data e) + len (enc_exts es))) with
          (len p + 4 + len (ext_data e) + len (enc_exts es)) by lia.
        rewrite <- IH. done.
    + assert (len (ext_data e) = 0 ∧ len (enc_exts es) = 0) as [Hd0 He0] by lia.
      simpl. destruct (ext_type e =? t).
      * by rewrite (proj2 (Z.ltb_ge _ _)) by lia.
      * destruct (ext_offset t es _) as [o'|] eqn:Eo; [|done].
        apply ext_offset_bounds in Eo. lia.
Qed.

Lemma find_tls_ext_offset_enc t es p q size :
  Forall ext_wf es → len (enc_exts es) < 2 ^ 16 →
  len (p ++ enc16 (len (enc_exts es)) ++ enc_exts es ++ q) < 2 ^ 63 →
  len p + 2 + len (enc_exts es) <= size →
  size <= len (p ++ enc16 (len (enc_exts es)) ++ enc_exts es ++ q) →
  find_tls_ext_offset t (p ++ enc16 (len (enc_exts es)) ++ enc_exts es ++ q)
    size (len p)
  = Ok (ext_found t es (len p + 2) (len p + 2 + len (enc_exts es))).
Proof.
  intros Hwf HL Hlen Hs1 Hs2. unfold find_tls_ext_offset.
  pose proof (len_nonneg p). pose proof (len_nonneg (enc_exts es)).
  pose proof (len_nonneg q). ints.
  destruct (Z.leb_spec size (len p + 2)) as [Hle|Hgt].
  { destruct es as [|e es]; [done|]. rewrite len_enc_exts_cons in *.
    pose proof (len_nonneg (enc_exts es)). pose proof (len_nonneg (ext_data e)). lia. }
  destruct (antohs_enc16 p (enc_exts es ++ q) (len (enc_exts es)) (len p))
    as (x & Hx & Hxl); [done|lia|].
  rewrite Hx. bstep. rewrite Hxl. ints.
  assert (Hsz : (if len (enc_exts es) <? size - (len p + 2)
                 then len (enc_exts es) + (len p + 2) else size)
                = len (p ++ enc16 (len (enc_exts es))) + len (enc_exts es)).
  { rewrite len_app, len_enc16.
    destruct (Z.ltb_spec (len (enc_exts es)) (size - (len p + 2))); lia. }
  rewrite Hsz.
  assert (Hp : len p + 2 = len (p ++ enc16 (len (enc_exts es)))) by by rewrite len_app.
  rewrite Hp. rewrite app_assoc. apply scan_exts; [done| |].
  - by rewrite <- app_assoc.
  - rewrite <- Hp. lia.
Qed.

Lemma len_enc_chello_head h :
  chello_wf h → len (enc_chello_head h) =
    44 + len (ch_sid h) + 2 + len (ch_ciphers h) + 2.
Proof.
  intros (H1 & H2 & H3 & H4 & H5 & H6 & H7 & _). unfold enc_chello_head.
  rewrite !len_app, H1, H2, H3, H4, H7, len_enc16, !len_cons. change (len []) with 0.
  lia.
Qed.

Lemma is_tls_chello_enc h tl :
  chello_wf h → is_tls_chello (enc_chello h ++ tl) (len (enc_chello h ++ tl)) = Ok true.
Proof.
  intros Hwf. pose proof (len_enc_chello_head h Hwf) as Hh.
  destruct Hwf as (L1 & _). unfold is_tls_chello.
  pose proof (len_nonneg (ch_sid h)). pose proof (len_nonneg (ch_ciphers h)).
  pose proof (len_nonneg tl). pose proof (len_nonneg (enc_exts (ch_exts h))).
  rewrite (proj2 (Z.ltb_lt _ _)).
  2: { unfold enc_chello. rewrite !len_app, len_enc16, Hh. lia. }
  unfold enc_chello, enc_chello_head. destruct (ch_rec_len h) as [|r1 [|r2 [|]]];
    unfold len in L1; simpl in L1; try lia.
  unfold ANTOHS, chr. destruct char_signed; reflexivity.
Qed.

Lemma find_ext_block_enc h tl :
  chello_wf h →
  find_ext_block (enc_chello h ++ tl) (len (enc_chello h ++ tl))
  = Ok (len (enc_chello_head h)).
Proof.
  intros Hwf. pose proof (len_enc_chello_head h Hwf) as Hh.
  pose proof (len_nonneg (ch_sid h)). pose proof (len_nonneg (ch_ciphers h)).
  pose proof (len_nonneg tl). pose proof (len_nonneg (enc_exts (ch_exts h))).
  assert (HL : len (enc_chello h ++ tl) = len (enc_chello_head h) + 2 +
    len (enc_exts (ch_exts h)) + len tl).
  { unfold enc_chello. rewrite !len_app, len_enc16. lia. }
  destruct Hwf as (L1 & L2 & L3 & L4 & L5 & L6 & L7 & _).
  set (P := [x16; x03; x01] ++ ch_rec_len h ++ [x01] ++ ch_hs_len h ++
            ch_version h ++ ch_random h).
  assert (HP : len P = 43).
  { unfold P. rewrite !len_app, L1, L2, L3, L4, !len_cons. done. }
  set (R := ch_ciphers h ++ ch_compression h ++
    enc16 (len (enc_exts (ch_exts h))) ++ enc_exts (ch_exts h) ++ tl).
  assert (Hm : enc_chello h ++ tl = (P ++ [bz (len (ch_sid h))] ++ ch_sid h) ++
    enc16 (len (ch_ciphers h)) ++ R).
  { unfold enc_chello, enc_chello_head, P, R. by rewrite <- !app_assoc. }
  assert (Hs : rd (enc_chello h ++ tl) 43 = Ok (bz (len (ch_sid h)))).
  { rewrite Hm, <- app_assoc, (rd_app_r P) by lia. by rewrite HP. }
  unfold find_ext_block. rewrite (proj2 (Z.ltb_ge _ _)) by lia.
  rewrite Hs. bstep. rewrite zb_bz_small by lia.
  rewrite (proj2 (Z.ltb_ge _ _)) by lia.
  destruct (antohs_enc16 (P ++ [bz (len (ch_sid h))] ++ ch_sid h) R
    (len (ch_ciphers h)) (44 + len (ch_sid h))) as (x & Hx & Hxl); [|lia|].
  { rewrite !len_app, len_cons, HP. change (len []) with 0. lia. }
  rewrite Hm, Hx, <- Hm. bstep. rewrite Hxl.
  rewrite (proj2 (Z.ltb_ge _ _)) by lia. f_equal. lia.
Qed.

Lemma ext_offset_app t es1 e es2 o :
  Forall (λ e, ext_type e ≠ t) es1 → ext_type e = t →
  ext_offset t (es1 ++ e :: es2) o = Some (o + len (enc_exts es1)).
Proof.
  intros Hno He. revert o. induction es1 as [|e1 es1 IH]; intros o; simpl.
  - rewrite He, Z.eqb_refl. f_equal. change (len (enc_exts [])) with 0. lia.
  - apply Forall_cons_iff in Hno as [H1 Hno].
    rewrite (proj2 (Z.eqb_neq _ _)) by done. rewrite IH by done.
    f_equal. rewrite len_enc_exts_cons. lia.
Qed.

Lemma ext_offset_none t es o :
  Forall (λ e, ext_type e ≠ t) es → ext_offset t es o = None.
Proof.
  intros Hno. revert o. induction es as [|e es IH]; intros o; simpl; [done|].
  apply Forall_cons_iff in Hno as [H1 Hno].
  rewrite (proj2 (Z.eqb_neq _ _)) by done. by apply IH.
Qed.

(** [parse_tls] on an encoded hello, whatever its extensions *)
Lemma parse_tls_scan h tl :
  chello_wf h → Forall ext_wf (ch_exts h) → len (enc_chello h ++ tl) < 2 ^ 63 →
  let buf := enc_chello h ++ tl in
  let b := len (enc_chello_head h) + 2 in
  parse_tls buf (len buf) =
    (let o := ext_found 0 (ch_exts h) b (b + len (enc_exts (ch_exts h))) in
     if (o =? 0) || (len buf <=? o + 12) then Ok (0, None) else
     l ← ANTOHS buf (o + 7);
     if len buf <? o + 9 + u16 l then Ok (0, None)
     else Ok (u16 l, Some (o + 9))).
Proof.
  intros Hwf Hes Hlen buf b. unfold parse_tls, buf.
  rewrite is_tls_chello_enc by done. bstep. cbn [negb].
  rewrite find_ext_block_enc by done. bstep.
  pose proof (len_enc_chello_head h Hwf) as Hh.
  pose proof (len_nonneg (ch_sid h)). pose proof (len_nonneg (ch_ciphers h)).
  rewrite (proj2 (Z.eqb_neq _ _)) by lia.
  pose proof (len_nonneg tl).
  replace (find_tls_ext_offset 0 (enc_chello h ++ tl)
    (len (enc_chello h ++ tl)) (len (enc_chello_head h)))
    with (Ok (ext_found 0 (ch_exts h) b (b + len (enc_exts (ch_exts h))))); [done|].
  symmetry. unfold enc_chello. unfold enc_chello in Hlen. rewrite <- !app_assoc in *.
  apply find_tls_ext_offset_enc; [done|apply Hwf|done| |].
  - rewrite !len_app, len_enc16. lia.
  - lia.
Qed.

End Tls.

(* ------------------------------------------------------------------ *)
(** ** Properties of the parser *)

Section Parsing.
Context `{cm : CharModel}.

(** C6: [parse_tls] never reads outside the buffer and always returns, for
    every content of the buffer; a reported name lies inside the buffer. *)
Theorem parse_tls_safe (m : mem) (bsize : Z) :
  bsize <= len m → len m < 2 ^ 63 →
  ∃ l h, parse_tls m bsize = Ok (l, h) ∧
    match h with
    | None => l = 0
    | Some o => 0 <= o ∧ 0 <= l < 2 ^ 16 ∧ o + l <= bsize
    end.
Proof.
  intros Hb Hl. pose proof (wp_parse_tls m bsize Hb Hl) as H.
  apply wp_iff in H as ([l h] & -> & H). exists l, h. split; [done|].
  destruct h; lia.
Qed.

(** a hello up to the length of the name *)
Definition sni_head (h : chello) (pre : list tls_ext) (host : mem) : mem :=
  enc_chello_head h ++ enc16 (len (enc_exts (ch_exts h))) ++ enc_exts pre
    ++ enc16 0 ++ enc16 (len (ext_data (sni_ext host))) ++ enc16 (len host + 3) ++ [x00].

Lemma len_sni_head h pre host : len (sni_head h pre host) = len (enc_chello_head h) + 2 + len (enc_exts pre) + 7.
Proof. unfold sni_head. rewrite !len_app, !len_enc16, len_cons. change (len []) with 0. lia. Qed.

Lemma len_sni_ext host : len (ext_data (sni_ext host)) = 5 + len host.
Proof. cbn [ext_data sni_ext]. rewrite !len_app, !len_enc16, len_cons. change (len []) with 0. lia. Qed.

Lemma sni_layout h pre host post tl : ch_exts h = pre ++ sni_ext host :: post →
  enc_chello h ++ tl = sni_head h pre host ++ enc16 (len host) ++ host ++ enc_exts post ++ tl.
Proof.
  intros Hexts. unfold enc_chello, sni_head.
  assert (Hes : enc_exts (ch_exts h) = enc_exts pre ++ enc_ext (sni_ext host) ++ enc_exts post).
  { rewrite Hexts. unfold enc_exts. by rewrite map_app, concat_app. }
  set (E16 := enc16 (len (enc_exts (ch_exts h)))). rewrite Hes.
  unfold enc_ext. cbn [ext_type ext_data sni_ext]. by rewrite <- !app_assoc.
Qed.

(** C7: [parse_tls] finds the server name of an encoded ClientHello, whatever
    precedes and follows the server_name extension, if the name and what is
    behind it in the buffer are more than three bytes together; otherwise (the
    hello ends with the extension, and the name has at most three bytes) the
    bound [sni_offs + 12 >= bsize] makes it report no name at all. *)
Theorem parse_tls_enc (h : chello) (pre post : list tls_ext) (host tl : mem) :
  chello_wf h → Forall ext_wf (ch_exts h) → len (enc_chello h ++ tl) < 2 ^ 63 →
  ch_exts h = pre ++ sni_ext host :: post →
  Forall (λ e, ext_type e ≠ 0) pre →
  if 3 <? len host + len (enc_exts post) + len tl then
    ∃ o, parse_tls (enc_chello h ++ tl) (len (enc_chello h ++ tl))
           = Ok (len host, Some o)
         ∧ slice (enc_chello h ++ tl) o (len host) = host
  else parse_tls (enc_chello h ++ tl) (len (enc_chello h ++ tl)) = Ok (0, None).
Proof.
  intros Hwf Hes Hlen Hexts Hpre.
  rewrite !parse_tls_scan by done. cbv zeta.
  set (found := 3 <? _).
  set (b := len (enc_chello_head h) + 2).
  set (B := enc_chello h ++ tl).
  pose proof (len_nonneg (enc_exts pre)). pose proof (len_nonneg (enc_exts post)).
  pose proof (len_nonneg host). pose proof (len_nonneg tl).
  pose proof (len_nonneg (enc_chello_head h)).
  assert (HE : len (enc_exts (ch_exts h)) = len (enc_exts pre) +
    (4 + (5 + len host) + len (enc_exts post))).
  { rewrite Hexts, len_enc_exts_app, len_enc_exts_cons, len_sni_ext. lia. }
  assert (HB : len B = b + len (enc_exts (ch_exts h)) + len tl).
  { unfold B, enc_chello, b. rewrite !len_app, len_enc16. lia. }
  assert (Hoff : ext_offset 0 (ch_exts h) b = Some (b + len (enc_exts pre))).
  { rewrite Hexts. by apply ext_offset_app. }
  unfold ext_found. rewrite Hoff.
  set (o := b + len (enc_exts pre)).
  rewrite (proj2 (Z.ltb_lt _ _)) by lia. cbv zeta.
  rewrite (proj2 (Z.eqb_neq o 0)) by lia. cbn [orb].
  unfold found. destruct (Z.ltb_spec 3 (len host + len (enc_exts post) + len tl)) as [Hmore|Hmore];
    [rewrite (proj2 (Z.leb_gt _ _)) by lia|by rewrite (proj2 (Z.leb_le _ _)) by lia].
  set (P := sni_head h pre host). assert (HP : len P = o + 7) by apply len_sni_head.
  assert (HBP : B = P ++ enc16 (len host) ++ host ++ enc_exts post ++ tl) by by apply sni_layout.
  assert (Hh16 : len host < 2 ^ 16).
  { assert (ext_wf (sni_ext host)) as [_ Hd].
    { rewrite Forall_forall in Hes. apply Hes. rewrite Hexts.
      apply in_elt. }
    rewrite len_sni_ext in Hd. lia. }
  destruct (antohs_enc16 P (host ++ enc_exts post ++ tl) (len host) (o + 7))
    as (x & Hx & Hxl); [done|lia|].
  rewrite HBP, Hx, <- HBP. bstep. rewrite Hxl.
  rewrite (proj2 (Z.ltb_ge _ _)) by lia.
  exists (o + 9). split; [done|].
  rewrite HBP, app_assoc, slice_app_r by (rewrite len_app, len_enc16; lia).
  rewrite len_app, len_enc16, HP. replace (o + 9 - (o + 7 + 2)) with 0 by lia.
  rewrite slice_app_l by lia. apply slice_all.
Qed.

(** A ClientHello without a server_name extension yields no name. *)
Theorem parse_tls_no_sni (h : chello) (tl : mem) :
  chello_wf h → Forall ext_wf (ch_exts h) → len (enc_chello h ++ tl) < 2 ^ 63 →
  Forall (λ e, ext_type e ≠ 0) (ch_exts h) →
  parse_tls (enc_chello h ++ tl) (len (enc_chello h ++ tl)) = Ok (0, None).
Proof.
  intros Hwf Hes Hlen Hno. rewrite parse_tls_scan by done.
  unfold ext_found. by rewrite ext_offset_none.
Qed.

End Parsing.

Definition sample_hello : chello :=
  CHello x01 [x00; x80] [x00; x00; x7c] [x03; x03] (repeat xaa 32) (repeat xbb 8)
    [x13; x01; x13; x02] [x01; x00]
    [TlsExt 0x0b [x01; x00]; sni_ext (bytes_of "example.org"); TlsExt 0x23 []].

Lemma sample_hello_wf : chello_wf sample_hello.
Proof. unfold chello_wf. zeval. Qed.
Lemma sample_hello_exts : Forall ext_wf (ch_exts sample_hello).
Proof. repeat constructor; zeval. Qed.

Lemma parse_tls_safe_witness :
  ∃ l h, parse_tls (cm := true) tls_data 517 = Ok (l, h) ∧
    match h with None => l = 0 | Some o => 0 <= o ∧ 0 <= l < 2 ^ 16 ∧ o + l <= 517 end.
Proof. apply (parse_tls_safe (cm := true) tls_data 517); zeval. Defined.

Lemma parse_tls_enc_witness :
  ∃ o, parse_tls (cm := false) (enc_chello sample_hello ++ [x16; x03])
         (len (enc_chello sample_hello ++ [x16; x03])) = Ok (11, Some o)
       ∧ slice (enc_chello sample_hello ++ [x16; x03]) o 11 = bytes_of "example.org".
Proof.
  apply (parse_tls_enc (cm := false) sample_hello [TlsExt 0x0b [x01; x00]]
    [TlsExt 0x23 []] (bytes_of "example.org") [x16; x03]).
  - apply sample_hello_wf.
  - apply sample_hello_exts.
  - zeval.
  - reflexivity.
  - repeat constructor; discriminate.
Defined.

(** a hello that ends with a server_name of three bytes: no name is found *)
Definition short_hello : chello :=
  CHello x01 [x00; x40] [x00; x00; x3c] [x03; x03] (repeat xaa 32) []
    [x13; x01] [x01; x00] [TlsExt 0x0b [x01; x00]; sni_ext (bytes_of "t.t")].
Lemma short_name_not_found {cm : CharModel} :
  parse_tls (enc_chello short_hello) (len (enc_chello short_hello)) = Ok (0, None)
  ∧ parse_tls (enc_chello short_hello ++ [x00]) (len (enc_chello short_hello ++ [x00])) = Ok (3, Some (len (enc_chello short_hello) - 3)).
Proof. by_both_signs. Qed.

Definition sample_hello_no_sni : chello :=
  CHello x01 [x00; x80] [x00; x00; x7c] [x03; x03] (repeat xaa 32) []
    [x13; x01] [x01; x00] [TlsExt 0x0b [x01; x00]; TlsExt 0x2b [x02; x03; x04]].

Lemma parse_tls_no_sni_witness :
  parse_tls (cm := true) (enc_chello sample_hello_no_sni ++ [])
    (len (enc_chello sample_hello_no_sni ++ [])) = Ok (0, None).
Proof.
  apply (parse_tls_no_sni (cm := true) sample_hello_no_sni []).
  - unfold chello_wf. zeval.
  - repeat constructor; zeval.
  - zeval.
  - repeat constructor; discriminate.
Defined.


(* ------------------------------------------------------------------ *)
(** ** Splitting and merging records *)

(** the five bytes before a record's payload *)
Definition rec_hdr (t v1 v2 : byte) (n : Z) : mem := [t; v1; v2] ++ enc16 n.

(** the payload bytes of a sequence of complete records *)
Fixpoint rec_payload (fuel : nat) (m : mem) : option mem :=
  match fuel, m with
  | _, [] => Some []
  | S fuel, _ :: _ :: _ :: a :: b :: m =>
      let n := be16 a b in
      if n <=? len m then
        p ← rec_payload fuel (drop (Z.to_nat n) m); Some (slice m 0 n ++ p)
      else None
  | _, _ => None
  end%stdpp.

#[global] Arguments rec_hdr : simpl never.

Section Records.
Context `{cm : CharModel}.

Lemma len_rec_hdr t v1 v2 n : len (rec_hdr t v1 v2 n) = 5.
Proof. done. Qed.

Lemma SHTONA_app (a : mem) (x y : byte) (c : mem) i v :
  i = len a → SHTONA (a ++ x :: y :: c) i v = Ok (a ++ enc16 v ++ c).
Proof.
  intros ->. unfold SHTONA. rewrite wr_app by done. rewrite bind_Ok.
  replace (a ++ bz (u8 (Z.shiftr v 8)) :: y :: c) with
    ((a ++ [bz (u8 (Z.shiftr v 8))]) ++ y :: c) by by rewrite <- app_assoc.
  rewrite wr_app by (rewrite len_app; done).
  rewrite <- app_assoc. unfold enc16. by rewrite land255, !bz_u8.
Qed.

Lemma SHTONA_enc16 (a : mem) w (c : mem) i v :
  i = len a → SHTONA (a ++ enc16 w ++ c) i v = Ok (a ++ enc16 v ++ c).
Proof. intros ->. unfold enc16 at 1. by apply SHTONA_app. Qed.

Lemma len_2 (m : mem) : len m = 2 → ∃ a b, m = [a; b].
Proof.
  unfold len. destruct m as [|a [|b [|]]]; simpl; try lia. eauto.
Qed.

(** an object long enough splits at [n] *)
Lemma split_at (m : mem) n :
  0 <= n <= len m → ∃ a b, m = a ++ b ∧ len a = n ∧ len b = len m - n.
Proof.
  intros Hn. exists (take (Z.to_nat n) m), (drop (Z.to_nat n) m).
  rewrite take_drop. unfold len in *. rewrite length_take, length_drop.
  split; [done|lia].
Qed.

(** moving [b] right by the length of a five-byte gap opened before it *)
Lemma memmove_gap (a b room rest : mem) :
  len room = 5 →
  ∃ gap, len gap = 5 ∧
  memmove (a ++ b ++ room ++ rest) (len a + 5) (len a) (len b)
    = Ok (a ++ gap ++ b ++ rest).
Proof.
  intros Hr. pose proof (len_nonneg a). pose proof (len_nonneg b).
  pose proof (len_nonneg rest).
  destruct (split_at (b ++ room) 5) as (gap & X & Hgx & Hg & HX);
    [rewrite len_app; lia|]. rewrite len_app in HX.
  exists gap. split; [done|].
  assert (Hm : a ++ b ++ room ++ rest = (a ++ gap) ++ X ++ rest).
  { rewrite <- app_assoc, (app_assoc gap X), <- Hgx. by rewrite <- app_assoc. }
  unfold memmove. rewrite memcpy_ok by (rewrite ?len_app; lia).
  rewrite (slice_mid a b (room ++ rest)) by done.
  rewrite Hm. replace (len a + 5) with (len (a ++ gap)) by (rewrite len_app; lia).
  rewrite splice_app by lia. by rewrite <- app_assoc.
Qed.

Lemma part_tls_split (t v1 v2 : byte) (r bsize : Z) (p1 p2 room rest : mem) :
  len p1 <= r < 2 ^ 16 → len room = 5 →
  10 + len p1 + len p2 <= bsize < 2 ^ 63 →
  part_tls (rec_hdr t v1 v2 r ++ p1 ++ p2 ++ room ++ rest)
    bsize (5 + len p1 + len p2) (len p1)
  = Ok (5, rec_hdr t v1 v2 (len p1) ++ p1
           ++ rec_hdr t v1 v2 (r - len p1) ++ p2 ++ rest).
Proof.
  intros Hr Hroom Hb. unfold part_tls.
  pose proof (len_nonneg p1). pose proof (len_nonneg p2). ints.
  rewrite (proj2 (Z.ltb_ge _ 3)), (proj2 (Z.ltb_ge (bsize - _) 5)),
    (proj2 (Z.ltb_ge (len p1) 0)), (proj2 (Z.ltb_ge _ (len p1 + 5))) by lia.
  cbn [orb].
  destruct (antohs_enc16 [t; v1; v2] (p1 ++ p2 ++ room ++ rest) r 3)
    as (x & Hx & Hxr); [done|lia|].
  change (rec_hdr t v1 v2 r ++ p1 ++ p2 ++ room ++ rest) with
    ([t; v1; v2] ++ enc16 r ++ p1 ++ p2 ++ room ++ rest).
  rewrite Hx. bstep. rewrite Hxr.
  rewrite (proj2 (Z.ltb_ge _ _)) by lia.
  set (A := [t; v1; v2] ++ enc16 r ++ p1).
  assert (HA : len A = 5 + len p1).
  { unfold A. rewrite !len_app, len_enc16. change (len [t; v1; v2]) with 3. lia. }
  destruct (memmove_gap A p2 room rest Hroom) as (gap & Hg & Hmv).
  replace (5 + len p1 + 5) with (len A + 5) by lia.
  replace (5 + len p1 + len p2 - (5 + len p1)) with (len p2) by lia.
  replace (5 + len p1) with (len A) by lia.
  replace ([t; v1; v2] ++ enc16 r ++ p1 ++ p2 ++ room ++ rest) with
    (A ++ p2 ++ room ++ rest) by (unfold A; by rewrite <- !app_assoc).
  rewrite Hmv. bstep.
  destruct (split_at gap 3) as (g1 & g2 & -> & Hg1 & Hg2); [lia|].
  rewrite memcpy_ok; rewrite ?len_app; try lia.
  2,3: pose proof (len_nonneg rest); lia.
  bstep.
  assert (Hs : slice (A ++ (g1 ++ g2) ++ p2 ++ rest) 0 3 = [t; v1; v2]) by done.
  rewrite Hs, <- (app_assoc g1), splice_app by (change (len [t; v1; v2]) with 3; lia).
  unfold A at 1. rewrite <- !app_assoc.
  rewrite SHTONA_enc16 by done. bstep.
  destruct (len_2 g2) as (y1 & y2 & ->); [rewrite len_app in Hg; lia|].
  replace ([t; v1; v2] ++ enc16 (len p1) ++ p1 ++ [t; v1; v2] ++ [y1; y2] ++ p2 ++ rest)
    with (([t; v1; v2] ++ enc16 (len p1) ++ p1 ++ [t; v1; v2]) ++ y1 :: y2 :: p2 ++ rest)
    by by rewrite <- !app_assoc.
  rewrite SHTONA_app.
  2: { rewrite !len_app, len_enc16. change (len [t; v1; v2]) with 3. lia. }
  bstep. unfold rec_hdr. by rewrite <- !app_assoc.
Qed.

Lemma rec_payload_one fuel t v1 v2 p :
  len p < 2 ^ 16 → rec_payload (S fuel) (rec_hdr t v1 v2 (len p) ++ p) = Some p.
Proof.
  intros Hp. pose proof (len_nonneg p). unfold rec_hdr, enc16.
  cbn [rec_payload app]. rewrite enc16_be16 by lia.
  rewrite Z.leb_refl. rewrite drop_ge by (rewrite to_nat_len; lia).
  destruct fuel; cbn; by rewrite slice_all, app_nil_r.
Qed.

Lemma rec_payload_cons fuel t v1 v2 p m q :
  len p < 2 ^ 16 → rec_payload fuel m = Some q →
  rec_payload (S fuel) (rec_hdr t v1 v2 (len p) ++ p ++ m) = Some (p ++ q).
Proof.
  intros Hp Hm. pose proof (len_nonneg p). pose proof (len_nonneg m).
  unfold rec_hdr, enc16.
  cbn [rec_payload app]. rewrite enc16_be16 by lia.
  rewrite (proj2 (Z.leb_le _ _)) by (rewrite len_app; lia).
  rewrite drop_len_app by done. rewrite Hm. cbn.
  by rewrite slice_app_l, slice_all by lia.
Qed.

(** C8: [part_tls] cuts a record in two: the header is repeated, the two
    lengths add up to the old one, nothing beyond the five inserted bytes is
    disturbed, and a receiver that strips the record headers of a complete
    record sees the same handshake bytes as before. *)
Theorem part_tls_correct (t v1 v2 : byte) (r bsize : Z) (p1 p2 room rest : mem) :
  len p1 <= r < 2 ^ 16 → len room = 5 →
  10 + len p1 + len p2 <= bsize < 2 ^ 63 →
  ∃ out,
    part_tls (rec_hdr t v1 v2 r ++ p1 ++ p2 ++ room ++ rest)
      bsize (5 + len p1 + len p2) (len p1) = Ok (5, out) ∧
    out = rec_hdr t v1 v2 (len p1) ++ p1
          ++ rec_hdr t v1 v2 (r - len p1) ++ p2 ++ rest ∧
    (r = len p1 + len p2 →
     rec_payload 2 (slice out 0 (5 + len p1 + len p2 + 5)) = Some (p1 ++ p2)).
Proof.
  intros Hr Hroom Hb. pose proof (len_nonneg p1). pose proof (len_nonneg p2).
  rewrite part_tls_split by done. eexists. split; [done|]. split; [done|].
  intros ->. replace (len p1 + len p2 - len p1) with (len p2) by lia.
  replace (rec_hdr t v1 v2 (len p1) ++ p1 ++ rec_hdr t v1 v2 (len p2) ++ p2 ++ rest)
    with ([] ++ (rec_hdr t v1 v2 (len p1) ++ p1 ++ rec_hdr t v1 v2 (len p2) ++ p2)
          ++ rest) by (cbn [app]; by rewrite <- !app_assoc).
  rewrite slice_mid; [|done|rewrite !len_app, !len_rec_hdr; lia].
  apply rec_payload_cons; [lia|]. apply rec_payload_one. lia.
Qed.

(** moving [b] left over a five-byte gap leaves its last five bytes behind *)
Lemma memmove_close (a gap b rest : mem) :
  len gap = 5 → 5 <= len b →
  memmove (a ++ gap ++ b ++ rest) (len a) (len a + 5) (len b)
  = Ok (a ++ b ++ drop (Z.to_nat (len b - 5)) b ++ rest).
Proof.
  intros Hg Hb. pose proof (len_nonneg a). pose proof (len_nonneg rest).
  destruct (split_at b (len b - 5)) as (b1 & b2 & -> & H1 & H2); [lia|].
  rewrite len_app in *. rewrite drop_len_app by lia.
  unfold memmove. rewrite memcpy_ok by (rewrite ?len_app; lia).
  replace (len a + 5) with (len (a ++ gap)) by (rewrite len_app; lia).
  rewrite (app_assoc a gap), (slice_mid (a ++ gap) (b1 ++ b2) rest)
    by (rewrite ?len_app; lia).
  replace ((a ++ gap) ++ (b1 ++ b2) ++ rest) with
    (a ++ (gap ++ b1) ++ b2 ++ rest) by by rewrite <- !app_assoc.
  by rewrite splice_app by (rewrite !len_app; lia).
Qed.

Lemma bool_decide_neq_self (c : byte) : bool_decide (c ≠ c) = false.
Proof. apply bool_decide_eq_false_2. intros H. by apply H. Qed.

(** first round of the merge: the second header disappears *)
Lemma merge_step_two t v1 v2 p1 p2 rest i :
  len p1 + len p2 < 2 ^ 16 → 5 <= len p2 →
  merge_step (10 + len p1 + len p2)
    (rec_hdr t v1 v2 (len p1) ++ p1 ++ rec_hdr t v1 v2 (len p2) ++ p2 ++ rest,
     0, len p1, i)
  = Ok (inl (rec_hdr t v1 v2 (len p1) ++ p1 ++ p2 ++
             drop (Z.to_nat (len p2 - 5)) p2 ++ rest, len p1, len p2, i + 1)).
Proof.
  intros HL H5. pose proof (len_nonneg p1). unfold merge_step.
  rewrite (u16_small (0 + len p1)) by lia. change (0 + len p1) with (len p1).
  rewrite (proj2 (Z.ltb_ge _ _)) by lia.
  set (A := rec_hdr t v1 v2 (len p1) ++ p1).
  assert (HA : len A = 5 + len p1) by by unfold A; rewrite len_app.
  replace (rec_hdr t v1 v2 (len p1) ++ p1 ++ rec_hdr t v1 v2 (len p2) ++ p2 ++ rest)
    with (A ++ rec_hdr t v1 v2 (len p2) ++ p2 ++ rest)
    by (unfold A; by rewrite <- app_assoc).
  rewrite (rd_app_r A) by lia. replace (5 + len p1 - len A) with 0 by lia.
  change (rd (rec_hdr t v1 v2 (len p2) ++ p2 ++ rest) 0) with (Ok t). bstep.
  change (rd (A ++ rec_hdr t v1 v2 (len p2) ++ p2 ++ rest) 0) with (Ok t). bstep.
  rewrite bool_decide_neq_self.
  destruct (antohs_enc16 (A ++ [t; v1; v2]) (p2 ++ rest) (len p2)
    (5 + len p1 + 3)) as (x & Hx & Hxl); [rewrite len_app, HA; done|lia|].
  replace ((A ++ [t; v1; v2]) ++ enc16 (len p2) ++ p2 ++ rest) with
    (A ++ rec_hdr t v1 v2 (len p2) ++ p2 ++ rest) in Hx
    by (unfold rec_hdr; by rewrite <- !app_assoc).
  rewrite Hx. bstep. rewrite Hxl. rewrite (proj2 (Z.ltb_ge _ _)) by lia.
  replace (5 + len p1) with (len A) by lia.
  replace (10 + len p1) with (len A + 5) by lia.
  replace (len A + 5 + len p2 - (len A + 5)) with (len p2) by lia.
  rewrite memmove_close by done. bstep.
  unfold A. by rewrite <- !app_assoc.
Qed.

Lemma merge_step_stop t v1 v2 p1 p2 z w rest i :
  len p1 + len p2 < 2 ^ 16 → len w = 4 → z ≠ t →
  merge_step (10 + len p1 + len p2)
    (rec_hdr t v1 v2 (len p1) ++ p1 ++ p2 ++ (z :: w) ++ rest, len p1, len p2, i)
  = Ok (inr (rec_hdr t v1 v2 (len p1) ++ p1 ++ p2 ++ (z :: w) ++ rest,
             len p1 + len p2, i)).
Proof.
  intros HL Hw Hz. pose proof (len_nonneg p1). pose proof (len_nonneg p2).
  unfold merge_step. rewrite u16_small by lia.
  rewrite (proj2 (Z.ltb_ge _ _)) by lia.
  set (B := rec_hdr t v1 v2 (len p1) ++ p1 ++ p2 ++ (z :: w) ++ rest).
  assert (Hrd : rd B (5 + (len p1 + len p2)) = Ok z).
  { unfold B. rewrite !app_assoc, <- (app_assoc _ (z :: w)).
    rewrite rd_app_r by (rewrite !len_app, len_rec_hdr; lia).
    rewrite !len_app, len_rec_hdr.
    by replace (5 + _ - _) with 0 by lia. }
  rewrite Hrd. bstep. change (rd B 0) with (Ok t). bstep.
  by rewrite bool_decide_eq_true_2.
Qed.

(** Merging undoes splitting: on a hello cut in two records by
    [part_tls], [merge_tls_records] restores one record (and the handshake
    length), provided the byte five before the end is not a record type. *)
Theorem merge_undoes_part (f : nat) (t v1 v2 a b c d z : byte) (p q w rest : mem) :
  let p1 := a :: b :: c :: d :: p in
  let p2 := q ++ z :: w in
  let L := len p1 + len p2 in
  L < 2 ^ 16 → len w = 4 → z ≠ t →
  merge_tls_records (2 + f)
    (rec_hdr t v1 v2 (len p1) ++ p1 ++ rec_hdr t v1 v2 (len p2) ++ p2 ++ rest)
    (10 + L)
  = Ok (5, rec_hdr t v1 v2 L ++ [a; b] ++ enc16 (L - 4) ++ p ++ p2
           ++ (z :: w) ++ rest).
Proof.
  intros p1 p2 L HL Hw Hz. unfold merge_tls_records.
  pose proof (len_nonneg p1). pose proof (len_nonneg q).
  assert (Hp2 : len p2 = len q + 5) by (unfold p2; rewrite len_app, len_cons; lia).
  rewrite (proj2 (Z.ltb_ge _ _)) by lia.
  destruct (antohs_enc16 [t; v1; v2] (p1 ++ rec_hdr t v1 v2 (len p2) ++ p2 ++ rest)
    (len p1) 3) as (x & Hx & Hxl); [done|lia|].
  change ([t; v1; v2] ++ enc16 (len p1) ++ p1 ++ rec_hdr t v1 v2 (len p2) ++ p2 ++ rest)
    with (rec_hdr t v1 v2 (len p1) ++ p1 ++ rec_hdr t v1 v2 (len p2) ++ p2 ++ rest) in Hx.
  rewrite Hx. bstep. rewrite Hxl. unfold L. rewrite Z.add_assoc.
  cbn [Nat.add]. rewrite loop_S, merge_step_two by lia. bstep.
  assert (Ht : drop (Z.to_nat (len p2 - 5)) p2 = z :: w).
  { rewrite Hp2. unfold p2. apply drop_len_app. lia. }
  rewrite Ht, loop_S, merge_step_stop by (done || lia). bstep.
  rewrite bind_Ok. cbv beta iota.
  change (rec_hdr t v1 v2 (len p1) ++ p1 ++ p2 ++ (z :: w) ++ rest) with
    ([t; v1; v2] ++ enc16 (len p1) ++ p1 ++ p2 ++ (z :: w) ++ rest).
  rewrite SHTONA_enc16 by done. bstep.
  change ([t; v1; v2] ++ enc16 (len p1 + len p2) ++ p1 ++ p2 ++ (z :: w) ++ rest)
    with ((rec_hdr t v1 v2 (len p1 + len p2) ++ [a; b]) ++ c :: d :: p ++ p2 ++
          (z :: w) ++ rest).
  rewrite SHTONA_app by done. bstep. by rewrite <- app_assoc.
Qed.

(** A hello cut in two records whose second payload ends in what looks like
    an empty record. *)
Definition merge_spin_input : mem :=
  rec_hdr x16 x03 x01 4 ++ [x01; x00; x00; x00] ++
  rec_hdr x16 x03 x01 5 ++ [x16; x03; x01; x00; x00].

(** the buffer after the first round *)
Definition merge_spin_buf : mem :=
  rec_hdr x16 x03 x01 4 ++ [x01; x00; x00; x00] ++
  [x16; x03; x01; x00; x00] ++ [x16; x03; x01; x00; x00].

Lemma merge_spin_first :
  merge_step 19 (merge_spin_input, 0, 4, 0) = Ok (inl (merge_spin_buf, 4, 5, 1)).
Proof. by_both_signs. Qed.
Lemma merge_spin_second :
  merge_step 19 (merge_spin_buf, 4, 5, 1) = Ok (inl (merge_spin_buf, 9, 0, 2)).
Proof. by_both_signs. Qed.
Lemma merge_spin_again i :
  merge_step 19 (merge_spin_buf, 9, 0, i) = Ok (inl (merge_spin_buf, 9, 0, i + 1)).
Proof. unfold merge_step, ANTOHS, chr. destruct char_signed; reflexivity. Qed.

Lemma merge_spin_loop fuel i :
  loop fuel (merge_step 19) (merge_spin_buf, 9, 0, i) = NoFuel.
Proof.
  revert i. induction fuel as [|fuel IH]; intros i; [done|].
  rewrite loop_S, merge_spin_again. apply IH.
Qed.

(** [n] is not reduced after a merge, so bytes already moved are read
    again as a record header; when they spell an empty record the loop never
    ends: no amount of fuel makes [merge_tls_records] return. *)
Theorem merge_tls_records_spins (fuel : nat) :
  merge_tls_records fuel merge_spin_input 19 = NoFuel.
Proof.
  unfold merge_tls_records. change (19 <? 5) with false. cbv iota.
  replace (ANTOHS merge_spin_input 3) with (Ok 4) by (symmetry; by_both_signs).
  bstep. change (u16 4) with 4.
  destruct fuel as [|[|fuel]]; rewrite ?loop_S, ?merge_spin_first; [done..|].
  rewrite bind_Ok, loop_S, merge_spin_second, bind_Ok, merge_spin_loop. done.
Qed.

End Records.

Lemma part_tls_correct_witness :
  ∃ out,
    part_tls (cm := true) (rec_hdr x16 x03 x01 7 ++ [x01; x00; x00] ++ [x03; x0a; x0b; x0c]
      ++ repeat x00 5 ++ [xff]) 18 (5 + 3 + 4) 3 = Ok (5, out) ∧
    out = rec_hdr x16 x03 x01 3 ++ [x01; x00; x00]
          ++ rec_hdr x16 x03 x01 (7 - 3) ++ [x03; x0a; x0b; x0c] ++ [xff] ∧
    (7 = 3 + 4 →
     rec_payload 2 (slice out 0 (5 + 3 + 4 + 5))
       = Some ([x01; x00; x00] ++ [x03; x0a; x0b; x0c])).
Proof.
  apply (part_tls_correct (cm := true) x16 x03 x01 7 18 [x01; x00; x00]
    [x03; x0a; x0b; x0c] (repeat x00 5) [xff]); zeval.
Defined.

Lemma merge_undoes_part_witness :
  merge_tls_records (cm := true) 2
    (rec_hdr x16 x03 x01 5 ++ [x01; x00; x00; x06; xaa] ++
     rec_hdr x16 x03 x01 6 ++ [xbb; xcc; x00; x01; x02; x03] ++ [xff]) 21
  = Ok (5, rec_hdr x16 x03 x01 11 ++ [x01; x00] ++ enc16 7 ++ [xaa]
           ++ [xbb; xcc; x00; x01; x02; x03] ++ [xcc; x00; x01; x02; x03] ++ [xff]).
Proof.
  apply (merge_undoes_part (cm := true) 0 x16 x03 x01 x01 x00 x00 x06 xcc [xaa] [xbb]
    [x00; x01; x02; x03] [xff]); zeval.
Defined.

(** ** Two entry lengths the code trusts *)

(** a key_share extension whose only entry claims [g] bytes *)
Definition ks_hello (g : Z) (ks : mem) : chello :=
  CHello x01 [x00; x40] [x00; x00; x3c] [x03; x03] (repeat xaa 32) []
    [x13; x01] [x01; x00]
    [TlsExt 0x33 (enc16 (len ks + 4) ++ [x11; xec] ++ enc16 g ++ ks)].

(** The bound on a key-share entry is taken from the start of the
    extension and not from the entry: an entry that claims 4 bytes more than
    it has passes the test, and [randomize_tls] writes past the hello while
    [remove_ks_group] hands a negative size to [memmove]. *)
Theorem key_share_overrun {cm : CharModel} (rnd : nat → Z) :
  let h := enc_chello (ks_hello 8 [x01; x02; x03; x04]) in
  randomize_tls rnd h (len h) 0 = UB ∧
  remove_ks_group h (len h) (len (enc_chello_head (ks_hello 8 [x01; x02; x03; x04])))
    0x11ec = UB.
Proof. by_both_signs. Qed.
