(* ===== verification/PacketsHttp.v ===== *)
(** * The HTTP half of packets.c: finding and rewriting the Host header

    [is_http] is shown equal to a plain prefix test; [parse_http] is shown
    to stay inside every buffer and to return the host and port of a
    request; [mod_http] is shown to preserve the request up to letter case.
    Three inputs on which the code leaves its buffer are exhibited. *)

From Stdlib Require Import ZArith Lia Bool List.
From Stdlib Require Import Strings.Byte Strings.Ascii Strings.String.
From stdpp Require Import base tactics list numbers option.
From S2P Require Import Prelude CMem Packets.

(** [lit] occurs at offset [p] (first byte exactly, the rest without case) *)
Definition occurs (m : mem) (lit : mem) (p : Z) : bool :=
  match drop (Z.to_nat p) m, lit with
  | a :: _, c :: _ => (zb a =? zb c) && lit_match tolower (drop (Z.to_nat p) m) lit
  | _, _ => false
  end.

Definition host_lit : mem := x0a :: bytes_of "Host:".

Section Scanning.

Lemma lit_match_len f l lit : lit_match f l lit = true → (length lit <= length l)%nat.
Proof.
  revert l. induction lit as [|c lit IH]; intros [|a l]; simpl; try done; try lia.
  intros [_ H]%andb_prop. apply IH in H. lia.
Qed.

Lemma lit_match_rd f l lit j a :
  lit_match f l lit = true → rd lit j = Ok a →
  ∃ b, rd l j = Ok b ∧ f (zb b) = f (zb a).
Proof.
  revert l j. induction lit as [|c lit IH]; intros l j Hm Hj.
  - apply rd_bounds in Hj. change (len []) with 0 in Hj. lia.
  - destruct l as [|x l]; simpl in Hm; [done|].
    apply andb_prop in Hm as [Hx Hm]. apply Z.eqb_eq in Hx.
    pose proof (rd_bounds _ _ _ Hj).
    destruct (Z.eq_dec j 0) as [->|].
    + injection Hj as <-. by exists x.
    + rewrite rd_cons_S in Hj by lia. destruct (IH _ _ Hm Hj) as (b & Hb & E).
      exists b. split; [by rewrite rd_cons_S by lia|done].
Qed.

Lemma occurs_bounds m lit p : 0 <= p → occurs m lit p = true → p + len lit <= len m.
Proof.
  unfold occurs. intros Hp. destruct (drop _ m) eqn:E; [done|].
  destruct lit eqn:El; [done|]. rewrite <- El. intros [_ H]%andb_prop.
  apply lit_match_len in H. rewrite <- E, length_drop in H.
  assert (p <= len m).
  { destruct (Z.leb_spec p (len m)); [done|]. rewrite drop_ge in E; [done|].
    unfold len in *. lia. }
  unfold len in *. lia.
Qed.

Lemma occurs_rd m lit p j a :
  0 <= p → occurs m lit p = true → rd lit j = Ok a →
  ∃ b, rd m (p + j) = Ok b ∧ tolower (zb b) = tolower (zb a).
Proof.
  intros Hp Ho Hj. pose proof (rd_bounds _ _ _ Hj).
  unfold occurs in Ho. destruct (drop _ m) as [|x0 xs] eqn:E; [done|].
  destruct lit as [|y0 ys] eqn:El; [done|]. rewrite <- El in *. rewrite <- E in Ho.
  apply andb_prop in Ho as [_ Ho].
  destruct (lit_match_rd _ _ _ _ _ Ho Hj) as (b & Hb & Hc).
  exists b. split; [|done]. by rewrite rd_drop in Hb by lia.
Qed.

(** [strncasestr] returns the first occurrence *)
Lemma wp_strncasestr m n lit :
  n <= len m → 0 <= n < 2 ^ 63 → 0 < len lit →
  forallb (λ c, negb (zb c =? 0)) lit = true →
  wp (strncasestr m n lit (len lit)) (λ r,
    match r with
    | Some p => 0 <= p ∧ p + len lit <= n ∧ occurs m lit p = true ∧
                ∀ j, 0 <= j < p → occurs m lit j = false
    | None => ∀ j, 0 <= j → j + len lit <= n → occurs m lit j = false
    end).
Proof.
  intros Hn H63 Hl Hnz. unfold strncasestr.
  destruct lit as [|b0 lit']; [done|]. set (lit := b0 :: lit') in *.
  change (rd lit 0) with (Ok b0). rewrite bind_Ok.
  apply (wp_loop (λ p, 0 <= p <= n ∧ ∀ j, 0 <= j < p → occurs m lit j = false)
           (λ p, n - p)); [intros; lia| |split; [lia|intros; lia]|lia].
  intros p [Hp Hno].
  assert (Hrd : ∀ j b, 0 <= j → rd m j = Ok b → zb b ≠ zb b0 → occurs m lit j = false).
  { intros j b Hj Hb Hne. unfold occurs. apply rd_ok in Hb as [_ Hb].
    rewrite (drop_S m b) by done. cbn. by rewrite (proj2 (Z.eqb_neq _ _)). }
  apply wp_bind, wp_memchr; [lia..| |].
  - intros q Hq (b & Hb & Hbc) Hfirst.
    assert (Hno' : ∀ j, 0 <= j < q → occurs m lit j = false).
    { intros j Hj. destruct (Z.ltb_spec j p); [apply Hno; lia|].
      destruct (rd_in m j) as [c Hc]; [lia|].
      apply (Hrd j c); [lia|done|]. apply (Hfirst j); [lia|done]. }
    wp_step.
    { wp_step. intros j Hj Hjl. destruct (Z.ltb_spec j q); [apply Hno'; lia|lia]. }
    wp_step. apply wp_strncasecmp; [lia|lia|done|].
    intros r Hr. apply rd_ok in Hb as [_ Hb].
    assert (Ho : occurs m lit q = lit_match tolower (drop (Z.to_nat q) m) lit).
    { unfold occurs. rewrite (drop_S m b) by done. cbn [lit].
      by rewrite (proj2 (Z.eqb_eq _ _) Hbc). }
    wp_step; wp_step.
    + split; [lia|]. split; [lia|]. split; [|done]. rewrite Ho. apply Hr. lia.
    + split; [|lia]. split; [lia|]. intros j Hj.
      destruct (Z.eq_dec j q) as [->|]; [|apply Hno'; lia].
      rewrite Ho. destruct (lit_match _ _ _); [|done]. exfalso.
      assert (r = 0) by by apply Hr. lia.
  - intros Hnone. wp_step. intros j Hj Hjl.
    destruct (Z.ltb_spec j p); [apply Hno; lia|].
    destruct (rd_in m j) as [c Hc]; [lia|].
    apply (Hrd j c); [lia|done|]. apply (Hnone j); [lia|done].
Qed.

(** [back_while]: stops right after the last byte that fails [p] *)
Lemma wp_back_while fuel p m i lo (Q : Z → Prop) :
  1 <= lo <= i → i <= len m → i - lo < Z.of_nat fuel →
  (∃ b, rd m (lo - 1) = Ok b ∧ p (zb b) = false) →
  (∀ r c, lo <= r <= i → rd m (r - 1) = Ok c → p (zb c) = false →
     (∀ j b, r <= j < i → rd m j = Ok b → p (zb b) = true) → Q r) →
  wp (back_while fuel p m i) Q.
Proof.
  intros Hlo Hi Hf (b & Hb & Hpb) HQ. unfold back_while.
  apply (wp_loop (λ r, lo <= r <= i ∧
           ∀ j b, r <= j < i → rd m j = Ok b → p (zb b) = true)
           (λ r, r - lo)); [intros; lia| |split; [lia|intros; lia]|lia].
  intros r [Hr Hall]. apply wp_bind, wp_rd; [lia|]. intros c Hc. wp_step.
  destruct (p (zb c)) eqn:Ec; [|by apply (HQ r c)].
  split; [|lia]. split.
  - destruct (Z.eq_dec r lo) as [->|]; [|lia]. congruence.
  - intros j b' Hj Hb'. destruct (Z.eq_dec j (r - 1)) as [->|]; [congruence|].
    apply (Hall j); [lia|done].
Qed.

(** [skip_spaces]: the first byte that is not a space, or the end *)
Lemma wp_skip_spaces `{CharModel} m i e (Q : Z → Prop) :
  0 <= i <= e → e <= len m →
  (∀ r, i <= r <= e → (∀ j b, i <= j < r → rd m j = Ok b → zb b = 32) →
     (r < e → ∀ b, rd m r = Ok b → zb b ≠ 32) → Q r) →
  wp (skip_spaces m i e) Q.
Proof.
  intros Hi He HQ. unfold skip_spaces.
  apply (wp_loop (λ r, i <= r <= e ∧ ∀ j b, i <= j < r → rd m j = Ok b → zb b = 32)
           (λ r, e - r)); [intros; lia| |split; [lia|intros; lia]|lia].
  intros r [Hr Hall]. wp_step; [|wp_step; apply HQ; [lia|done|lia]].
  wp_step. apply wp_rd; [lia|]. intros c Hc. wp_step.
  rewrite chr_eqb_ascii by done. change (ch " ") with 32.
  destruct (Z.eqb_spec (zb c) 32).
  - split; [|lia]. split; [lia|]. intros j b Hj Hb.
    destruct (Z.eq_dec j r) as [->|]; [congruence|]. apply (Hall j); [lia|done].
  - apply HQ; [lia|done|]. intros _ b Hb. congruence.
Qed.

End Scanning.

(* ------------------------------------------------------------------ *)
(** ** strtol on digits followed by something else *)

Definition is_dec (b : byte) : Prop := isdigit (zb b) = true.

Fixpoint dec_value (l : mem) (acc : Z) : Z :=
  match l with [] => acc | b :: l => dec_value l (acc * 10 + (zb b - 48)) end.

Lemma digit_val_dec b : is_dec b → digit_val (zb b) = zb b - 48.
Proof. unfold is_dec, digit_val. by intros ->. Qed.
Lemma digit_val_not_dec z : isdigit z = false → 0 <= z → 10 <= digit_val z.
Proof.
  unfold digit_val. intros -> Hz. unfold islower, isupper.
  repeat case_match; lia.
Qed.
Lemma isdigit_not_space z : isdigit z = true → isspace z = false.
Proof. unfold isdigit, isspace. lia. Qed.

Lemma strtol_digits_dec l c tl acc k seen :
  Forall is_dec l → isdigit (zb c) = false →
  strtol_digits 10 (l ++ c :: tl) acc k seen
  = Ok (dec_value l acc, k + len l, seen || negb (bool_decide (l = []))).
Proof.
  intros Hl Hc. pose proof (zb_range c). revert acc k seen.
  induction l as [|b l IH]; intros acc k seen; simpl.
  - rewrite (proj2 (Z.ltb_ge _ _)) by (apply digit_val_not_dec; [done|lia]).
    change (len []) with 0. by rewrite Z.add_0_r, orb_false_r.
  - apply Forall_cons_iff in Hl as [Hb Hl]. rewrite digit_val_dec by done.
    rewrite (proj2 (Z.ltb_lt _ _)) by (unfold is_dec, isdigit in Hb; lia).
    rewrite IH by done. rewrite len_cons. simpl. rewrite orb_true_r.
    f_equal. f_equal. f_equal. lia.
Qed.

Lemma strtol_dec l c tl :
  l ≠ [] → Forall is_dec l → isdigit (zb c) = false →
  strtol (l ++ c :: tl) 10 = Ok (clamp_long (dec_value l 0), len l).
Proof.
  intros Hne Hl Hc. destruct l as [|b l]; [done|]. clear Hne.
  pose proof Hl as Hl'. apply Forall_cons_iff in Hl' as [Hb _].
  unfold strtol. cbn [app skip_space]. rewrite isdigit_not_space by done.
  rewrite bind_Ok. cbn [rd_list]. bstep.
  assert (zb b ≠ 45 ∧ zb b ≠ 43) by (unfold is_dec, isdigit in Hb; lia).
  rewrite !(proj2 (Z.eqb_neq _ _)) by lia. cbn [orb].
  unfold strtol_base. change (10 =? 0) with false. cbv iota. rewrite bind_Ok.
  change (b :: l ++ c :: tl) with ((b :: l) ++ c :: tl).
  rewrite strtol_digits_dec by done. rewrite bind_Ok. simpl.
  by rewrite Z.add_0_l.
Qed.

(** a run of digits that ends inside the object is read safely *)
Lemma strtol_digits_ok base l acc k seen :
  (∃ b, b ∈ l ∧ base <= digit_val (zb b)) →
  wp (strtol_digits base l acc k seen) (λ _, True).
Proof.
  intros (b & Hb & Hd). revert acc k seen.
  induction l as [|a l IH]; intros; simpl; [by apply elem_of_nil in Hb|].
  destruct (Z.ltb_spec (digit_val (zb a)) base); [|done].
  apply IH. apply elem_of_cons in Hb as [->|]; [lia|done].
Qed.

(** *** A string that is a number *)

Definition number (text : mem) (n : Z) : Prop := text ≠ [] ∧ Forall is_dec text ∧ dec_value text 0 = n.

Lemma skip_space_ok s k : ∃ l j, skip_space (s ++ [x00]) k = Ok (l, j) ∧ ∃ t, l = t ++ [x00].
Proof.
  revert k. induction s as [|c s IH]; intros k; simpl; [by exists [x00], k; split; [|exists []]|].
  destruct (isspace _); [apply IH|]. eexists _, _. split; [done|]. by exists (c :: s).
Qed.
Lemma digits_end base l acc k seen : 2 <= base <= 16 → wp (strtol_digits base (l ++ [x00]) acc k seen) (λ _, True).
Proof.
  intros Hb. apply strtol_digits_ok. exists x00. split; [apply elem_of_app; right; by apply list_elem_of_singleton|].
  change (digit_val (zb x00)) with 99. lia.
Qed.
(** a string with its NUL *)
Definition ended (l : mem) : Prop := ∃ t, l = t ++ [x00].

Lemma ended_head l : ended l → wp (rd_list l) (λ c, zb c ≠ 0 → ended (tail l)).
Proof. intros ([|c t] & ->); [by intros []|]. intros _. by exists t. Qed.
Lemma base_ok base l k : base = 10 ∨ base = 0 → ended l →
  wp (strtol_base base l k) (λ r, 2 <= r.1.1 <= 16 ∧ ended r.1.2).
Proof.
  intros [->| ->] Hl; [done|]. unfold strtol_base. cbn [Z.eqb]. apply wp_bind. eapply wp_mono; [by apply ended_head|].
  intros c Hc. destruct (Z.eqb_spec (zb c) 48) as [E|_]; [|done]. specialize (Hc ltac:(lia)).
  apply wp_bind. eapply wp_mono; [by apply ended_head|]. intros d Hd.
  destruct (Z.eqb_spec (tolower (zb d)) 120) as [E'|_]; [|done].
  assert (zb d ≠ 0) by (intros E0; by rewrite E0 in E'). specialize (Hd ltac:(done)).
  apply wp_bind. eapply wp_mono; [by apply ended_head|]. intros e _. by destruct (_ <? 16).
Qed.
Lemma strtol_total s base : base = 10 ∨ base = 0 → wp (strtol (s ++ [x00]) base) (λ _, True).
Proof.
  intros Hb. unfold strtol. destruct (skip_space_ok s 0) as (l & j & -> & Hl). rewrite bind_Ok. cbv beta iota.
  apply wp_bind. eapply wp_mono; [by apply ended_head|]. intros c Hc. cbv zeta.
  destruct ((zb c =? 45) || (zb c =? 43)) eqn:E; cbv beta iota; (apply wp_bind; eapply wp_mono; [apply base_ok; [done|]|]);
    [apply Hc; lia| |done|]; (intros [[bs l3] k3] [Hbs (t & Ht)]; simpl in Hbs, Ht; subst l3;
    apply wp_bind; eapply wp_mono; [by apply digits_end|]; intros [[v k] sn] _; by destruct sn).
Qed.
Lemma dec_value_pos l acc : Forall is_dec l → 0 <= acc → 0 <= dec_value l acc.
Proof.
  intros H. revert acc. induction H as [|b l Hb H IH]; intros acc Ha; [done|]. apply IH. unfold is_dec, isdigit in Hb. lia.
Qed.
Lemma number_pos text n : number text n → 0 <= n.
Proof. intros (_ & Hd & <-). by apply dec_value_pos. Qed.
Lemma strtol_number text n : number text n → n <= LONG_MAX → ∃ k, strtol (text ++ [x00]) 10 = Ok (n, k).
Proof.
  intros H Hn. pose proof (number_pos _ _ H) as H0. destruct H as (Hne & Hd & E). rewrite strtol_dec, E by done.
  exists (len text). do 2 f_equal. unfold clamp_long, LONG_MIN. lia.
Qed.

(** a number, or a sign, before a space is read safely *)
Lemma wp_strtol_token l :
  (∃ a, rd l 0 = Ok a ∧ isspace (zb a) = false) →
  (∃ i b, 0 < i ∧ rd l i = Ok b ∧ isspace (zb b) = true) →
  wp (strtol l 10) (λ _, True).
Proof.
  intros (a & Ha & Hsp) (i & b & Hi & Hb & Hspb).
  destruct l as [|a' l]; [done|]. injection Ha as ->.
  rewrite rd_cons_S in Hb by lia. apply rd_ok in Hb as [_ Hb].
  apply list_elem_of_lookup_2 in Hb.
  assert (Hd : 10 <= digit_val (zb b)).
  { pose proof (zb_range b). apply digit_val_not_dec; [|lia].
    destruct (isdigit (zb b)) eqn:E; [|done].
    by rewrite isdigit_not_space in Hspb. }
  unfold strtol. cbn [skip_space]. rewrite Hsp, bind_Ok. cbn [rd_list]. bstep.
  destruct ((zb a =? 45) || (zb a =? 43)); unfold strtol_base;
    change (10 =? 0) with false; cbv iota; rewrite bind_Ok;
    apply wp_bind; (eapply wp_mono; [apply strtol_digits_ok|]);
    try (intros [[v k] seen] _; wp_step; by wp_step).
  - exists b. by split.
  - exists b. split; [by right|done].
Qed.

(* ------------------------------------------------------------------ *)
(** ** Recognising a request *)

Section Http.
Context `{cm : CharModel}.

Definition http_methods_match (m : mem) : bool :=
  existsb (λ mt, lit_match id m mt) methods.

Lemma starts_with_any_spec m ms :
  Forall (λ mt, len mt <= len m ∧ forallb (λ c, negb (zb c =? 0)) mt = true) ms →
  starts_with_any m ms = Ok (existsb (λ mt, lit_match id m mt) ms).
Proof.
  induction 1 as [|mt ms [Hl Hnz] _ IH]; [done|].
  cbn [starts_with_any existsb].
  assert (wp (strncmp m 0 mt (len mt)) (λ r, r = 0 ↔ lit_match id m mt = true)) as Hw.
  { apply wp_strncmp; [lia|lia|done|]. intros r Hr. exact Hr. }
  apply wp_iff in Hw as (r & -> & Hr). rewrite bind_Ok.
  destruct (Z.eqb_spec r 0) as [->|Hne].
  - by rewrite (proj1 Hr).
  - destruct (lit_match id m mt); [|done]. destruct Hne. by apply Hr.
Qed.

(** every method starts with a letter of the prefilter's range *)
Lemma method_first_char a m mt :
  mt ∈ methods → lit_match id (a :: m) mt = true → 67 <= zb a <= 84.
Proof.
  intros Hmt Hm. unfold methods in Hmt.
  repeat (apply elem_of_cons in Hmt as [->|Hmt];
    [cbn in Hm; apply andb_prop in Hm as [Hm _];
     apply Z.eqb_eq in Hm; unfold id in Hm; rewrite Hm; cbv; split; discriminate|]).
  by apply elem_of_nil in Hmt.
Qed.

Lemma is_http_eq (m : mem) (n : Z) :
  n <= len m → is_http m n = Ok ((16 <=? n) && http_methods_match m).
Proof.
  intros Hn. unfold is_http.
  destruct (Z.ltb_spec n 16); destruct (Z.leb_spec 16 n); try lia; [done|].
  destruct m as [|a m]; [change (len []) with 0 in Hn; lia|].
  change (rd (a :: m) 0) with (Ok a). rewrite bind_Ok.
  change (ch "T") with 84. change (ch "C") with 67. cbn [andb].
  destruct ((84 <? chr a) || (chr a <? 67)) eqn:E.
  - f_equal. symmetry. apply not_true_is_false. intros H1.
    apply existsb_exists in H1 as (mt & Hin & Hm).
    apply list_elem_of_In in Hin. pose proof (method_first_char a m mt Hin Hm).
    rewrite (chr_ascii a) in E by lia. lia.
  - apply starts_with_any_spec.
    assert (Hall : Forall (λ mt, len mt <= 16 ∧
      forallb (λ c, negb (zb c =? 0)) mt = true) methods).
    { repeat constructor; cbv; discriminate. }
    eapply Forall_impl; [|exact Hall]. simpl. intros mt [? ?]. split; [lia|done].
Qed.

(* ------------------------------------------------------------------ *)
(** ** Memory safety of [parse_http] *)

(** what [parse_http] knows after finding the header name at [p] *)
Lemma host_lit_rd m p j a :
  0 <= p → occurs m host_lit p = true → rd host_lit j = Ok a →
  ∃ b, rd m (p + j) = Ok b ∧ tolower (zb b) = tolower (zb a).
Proof. apply occurs_rd. Qed.

Lemma tolower_colon z : tolower z = 58 → z = 58.
Proof. unfold tolower, isupper. case_match; lia. Qed.
Lemma tolower_t z : tolower z = 116 → isdigit z = false ∧ z ≠ 58.
Proof. unfold tolower, isupper, isdigit. case_match; lia. Qed.

Lemma host_colon m p :
  0 <= p → occurs m host_lit p = true →
  ∃ b, rd m (p + 5) = Ok b ∧ zb b = 58.
Proof.
  intros Hp Ho. destruct (host_lit_rd m p 5 x3a Hp Ho) as (b & Hb & E); [done|].
  exists b. split; [done|]. by apply tolower_colon.
Qed.
Lemma host_t m p :
  0 <= p → occurs m host_lit p = true →
  ∃ b, rd m (p + 4) = Ok b ∧ isdigit (zb b) = false ∧ zb b ≠ 58.
Proof.
  intros Hp Ho. destruct (host_lit_rd m p 4 x74 Hp Ho) as (b & Hb & E); [done|].
  exists b. split; [done|]. by apply tolower_t.
Qed.

Lemma wp_parse_http m n want_port :
  n <= len m → len m < 2 ^ 31 →
  wp (parse_http m n want_port) (λ '(l, h, port),
    match h with
    | None => l = 0
    | Some o => 0 < o ∧ o <= n ∧ o + l <= n ∧
        (∃ p, 0 <= p ∧ occurs m host_lit p = true ∧ p + 6 <= o) ∧
        ∃ e b, o + l <= e < n ∧ rd m e = Ok b ∧ isspace (zb b) = true
    end).
Proof.
  intros Hn H31. pose proof (len_nonneg m). unfold parse_http.
  rewrite is_http_eq by done. bstep.
  destruct ((16 <=? n) && http_methods_match m) eqn:Eh; [|done]. cbn [negb].
  wp_step. change 6 with (len host_lit) at 1.
  eapply wp_mono; [apply wp_strncasestr; [lia|lia|done|done]|].
  intros [p|]; [|done]. intros (Hp & Hpn & Ho & _).
  change (len host_lit) with 6 in Hpn.
  wp_step. apply wp_skip_spaces; [lia|lia|]. intros host Hh Hsp _.
  wp_step. apply wp_memchr; [lia..| |done].
  intros le Hle (nl & Hnl & Hnlc) _.
  destruct (host_colon m p Hp Ho) as (co & Hco & Ecol).
  wp_step. apply (wp_back_while _ _ _ _ (p + 6)); [lia|lia|lia| |].
  { exists co. replace (p + 6 - 1) with (p + 5) by lia. by rewrite Ecol. }
  intros l_end c Hl Hc Hcs Htrim.
  assert (Hsp_end : ∃ b, rd m l_end = Ok b ∧ isspace (zb b) = true).
  { destruct (Z.eq_dec l_end le) as [->|].
    - exists nl. split; [done|]. by rewrite Hnlc.
    - destruct (rd_in m l_end) as [b Hb]; [lia|]. exists b.
      split; [done|]. apply (Htrim l_end); [lia|done]. }
  destruct (host_t m p Hp Ho) as (bt & Hbt & Ebt & Ebt').
  wp_step. apply (wp_back_while _ _ _ _ (p + 5)); [lia|lia|lia| |].
  { exists bt. by replace (p + 5 - 1) with (p + 4) by lia. }
  intros e c2 He Hc2 Hc2d Hdig.
  wp_step. apply wp_rd; [lia|]. intros c3 Hc3.
  apply wp_bind. apply (wp_mono _ (λ o,
    match o with None => True | Some (he, _) => p + 5 <= he <= l_end end)).
  { rewrite chr_eqb_ascii by done. change (ch ":") with 58.
    destruct (Z.eqb_spec (zb c3) 58) as [E58|]; cbn [negb]; [|wp_step; lia].
    assert (p + 5 <= e - 1).
    { destruct (Z.eq_dec e (p + 5)) as [->|]; [|lia]. exfalso.
      replace (p + 5 - 1) with (p + 4) in Hc3 by lia. congruence. }
    destruct want_port; [|wp_step; lia].
    replace (e - 1 + 1) with e by lia.
    apply wp_bind. eapply wp_mono; [apply wp_strtol_token|].
    - destruct (Z.eq_dec e (l_end - 1)) as [->|].
      + exists c. split; [|done]. rewrite rd_drop by lia.
        by replace (l_end - 1 + 0) with (l_end - 1) by lia.
      + destruct (rd_in m e) as [d Hd]; [lia|]. exists d. rewrite rd_drop by lia.
        rewrite Z.add_0_r. split; [done|]. apply isdigit_not_space.
        apply (Hdig e); [lia|done].
    - destruct Hsp_end as (b & Hb & Hbs). exists (l_end - e), b.
      rewrite rd_drop by lia. replace (e + (l_end - e)) with l_end by lia.
      split; [lia|done].
    - intros [i k] _. wp_step. destruct (_ || _); [done|lia]. }
  intros [[he port]|]; [|done]. intros Hhe.
  wp_step. apply wp_rd; [lia|]. intros c4 Hc4.
  rewrite chr_eqb_ascii by done.
  destruct (Z.eqb_spec (zb c4) (ch "[")) as [Eb|].
  - wp_step. apply wp_rd; [lia|]. intros c5 Hc5. wp_step; [done|].
    wp_step. ints. do 3 (split; [lia|]). split.
    + exists p. split; [done|]. split; [done|lia].
    + destruct Hsp_end as (b & Hb & Hbs). exists l_end, b. split; [lia|done].
  - wp_step. ints. do 3 (split; [lia|]). split.
    + exists p. split; [done|]. split; [done|lia].
    + destruct Hsp_end as (b & Hb & Hbs). exists l_end, b. split; [lia|done].
Qed.

(* ------------------------------------------------------------------ *)
(** ** Parsing a request *)

(** A request is everything before the Host header, the header name, blanks,
    the host, an optional port, white space and the end of the line. *)
Record http_req := HttpReq {
  hr_pre : mem;     (* the request line and earlier headers *)
  hr_name : mem;    (* newline and "Host:" in any case *)
  hr_blank : mem;   (* at least one blank *)
  hr_host : mem;
  hr_port : mem;    (* empty, or a colon and digits *)
  hr_ws : mem;      (* what precedes the newline: "\r" *)
  hr_rest : mem     (* after the newline *)
}.

Definition enc_req (r : http_req) : mem :=
  hr_pre r ++ hr_name r ++ hr_blank r ++ hr_host r ++ hr_port r ++ hr_ws r
  ++ x0a :: hr_rest r.

Definition host_off (r : http_req) : Z :=
  len (hr_pre r) + 6 + len (hr_blank r).

(** the port a request names *)
Definition port_of (r : http_req) : Z :=
  match hr_port r with [] => 80 | _ :: ds => dec_value ds 0 end.

Definition host_byte (b : byte) : Prop :=
  zb b ≠ 10 ∧ zb b ≠ 58 ∧ isspace (zb b) = false.

Record req_wf (r : http_req) : Prop := {
  rw_method : http_methods_match (enc_req r) = true;
  rw_16 : 16 <= len (enc_req r);
  rw_size : len (enc_req r) < 2 ^ 31;
  rw_name_len : len (hr_name r) = 6;
  rw_name : occurs (enc_req r) host_lit (len (hr_pre r)) = true;
  rw_first : ∀ j, 0 <= j < len (hr_pre r) → occurs (enc_req r) host_lit j = false;
  rw_blank : hr_blank r ≠ [] ∧ Forall (λ b, zb b = 32) (hr_blank r);
  rw_host : hr_host r ≠ [] ∧ Forall host_byte (hr_host r);
  rw_host_first : ∀ b, rd (hr_host r) 0 = Ok b → zb b ≠ 91;
  rw_port : hr_port r = [] ∨
            ∃ ds, hr_port r = x3a :: ds ∧ ds ≠ [] ∧ Forall is_dec ds ∧
                  0 < dec_value ds 0 <= 0xffff;
  rw_ws : Forall (λ b, isspace (zb b) = true ∧ zb b ≠ 10) (hr_ws r)
}.

Section Request.
Variable r : http_req.
Hypothesis Hwf : req_wf r.

Let m := enc_req r.
Let h0 := host_off r.
Let hend := h0 + len (hr_host r).
Let tend := hend + len (hr_port r).
Let nl := tend + len (hr_ws r).

Lemma req_lens :
  0 < len (hr_blank r) ∧ 0 < len (hr_host r) ∧ 0 <= len (hr_port r) ∧
  0 <= len (hr_ws r) ∧ 0 <= len (hr_pre r) ∧ nl < len m.
Proof.
  destruct Hwf as [_ _ _ Hn _ _ [Hb _] [Hh _] _ _ _].
  pose proof (len_nonneg (hr_pre r)). pose proof (len_nonneg (hr_port r)).
  pose proof (len_nonneg (hr_ws r)). pose proof (len_nonneg (hr_rest r)).
  assert (∀ l : mem, l ≠ [] → 0 < len l) as Hne.
  { intros [|x l] ?; [done|]. rewrite len_cons. pose proof (len_nonneg l). lia. }
  pose proof (Hne _ Hb). pose proof (Hne _ Hh).
  unfold nl, tend, hend, h0, host_off, m, enc_req.
  rewrite !len_app, len_cons, Hn. lia.
Qed.

Lemma req_blank j b : len (hr_pre r) + 6 <= j < h0 → rd m j = Ok b → zb b = 32.
Proof.
  destruct Hwf as [_ _ _ Hn _ _ [_ Hb] _ _ _ _]. intros Hj.
  apply (seg_Forall (λ b, zb b = 32) m (hr_pre r ++ hr_name r) (hr_blank r)
    (hr_host r ++ hr_port r ++ hr_ws r ++ x0a :: hr_rest r)).
  - unfold m, enc_req. by rewrite <- !app_assoc.
  - done.
  - rewrite len_app, Hn. unfold h0, host_off in Hj. lia.
Qed.

Lemma req_host j b : h0 <= j < hend → rd m j = Ok b → host_byte b.
Proof.
  destruct Hwf as [_ _ _ Hn _ _ _ [_ Hh] _ _ _]. intros Hj.
  apply (seg_Forall host_byte m (hr_pre r ++ hr_name r ++ hr_blank r) (hr_host r)
    (hr_port r ++ hr_ws r ++ x0a :: hr_rest r)).
  - unfold m, enc_req. by rewrite <- !app_assoc.
  - done.
  - rewrite !len_app, Hn. unfold hend, h0, host_off in Hj. lia.
Qed.

Lemma req_port_digits j b : hend < j < tend → rd m j = Ok b → is_dec b.
Proof.
  destruct Hwf as [_ _ _ Hn _ _ _ _ _ Hp _]. intros Hj Hb.
  unfold tend in Hj. destruct Hp as [Hp|(ds & Hp & _ & Hds & _)];
    rewrite Hp in Hj; [change (len []) with 0 in Hj; lia|]. rewrite len_cons in Hj.
  apply (seg_Forall is_dec m (hr_pre r ++ hr_name r ++ hr_blank r ++ hr_host r ++ [x3a])
    ds (hr_ws r ++ x0a :: hr_rest r) j b); [|done| |done].
  - unfold m, enc_req. rewrite Hp. by rewrite <- !app_assoc.
  - rewrite !len_app, Hn. change (len [x3a]) with 1.
    unfold hend, h0, host_off in Hj. lia.
Qed.

Lemma req_ws j b : tend <= j < nl → rd m j = Ok b → isspace (zb b) = true ∧ zb b ≠ 10.
Proof.
  destruct Hwf as [_ _ _ Hn _ _ _ _ _ _ Hw]. intros Hj.
  apply (seg_Forall (λ b, isspace (zb b) = true ∧ zb b ≠ 10) m
    (hr_pre r ++ hr_name r ++ hr_blank r ++ hr_host r ++ hr_port r) (hr_ws r)
    (x0a :: hr_rest r)).
  - unfold m, enc_req. by rewrite <- !app_assoc.
  - done.
  - rewrite !len_app, Hn. unfold nl, tend, hend, h0, host_off in Hj. lia.
Qed.

Lemma req_nl : rd m nl = Ok x0a.
Proof.
  apply (rd_head m (hr_pre r ++ hr_name r ++ hr_blank r ++ hr_host r ++ hr_port r
    ++ hr_ws r) (hr_rest r)).
  - unfold m, enc_req. by rewrite <- !app_assoc.
  - rewrite !len_app, (rw_name_len r Hwf). unfold nl, tend, hend, h0, host_off. lia.
Qed.

(** the byte that ends the host when there is a port *)
Lemma req_colon ds : hr_port r = x3a :: ds → rd m hend = Ok x3a.
Proof.
  intros Hp. apply (rd_head m (hr_pre r ++ hr_name r ++ hr_blank r ++ hr_host r)
    (ds ++ hr_ws r ++ x0a :: hr_rest r)).
  - unfold m, enc_req. rewrite Hp. by rewrite <- !app_assoc.
  - rewrite !len_app, (rw_name_len r Hwf). unfold hend, h0, host_off. lia.
Qed.

(** the last byte of the token is not white space *)
Lemma req_last_not_space b : rd m (tend - 1) = Ok b → isspace (zb b) = false.
Proof.
  pose proof req_lens as (? & ? & ? & ? & ? & _). intros Hb.
  destruct (rw_port r Hwf) as [Hp|(ds & Hp & Hne & _)].
  - apply (req_host (tend - 1)) in Hb as (_ & _ & ?); [done|].
    unfold tend, hend in *. rewrite Hp. change (len []) with 0. lia.
  - apply isdigit_not_space. apply (req_port_digits (tend - 1)); [|done].
    unfold tend. rewrite Hp, len_cons.
    destruct ds as [|d ds]; [done|]. rewrite len_cons. pose proof (len_nonneg ds). lia.
Qed.

(** at the byte before the token's trailing digits: a colon exactly when a
    port was given *)
Lemma req_digits_back e c :
  h0 <= e <= tend - 1 → rd m (e - 1) = Ok c → isdigit (zb c) = false →
  (∀ j b, e <= j < tend - 1 → rd m j = Ok b → isdigit (zb b) = true) →
  match hr_port r with
  | [] => zb c ≠ 58
  | _ => e - 1 = hend
  end.
Proof.
  intros He Hc Hcd Hdig. pose proof req_lens as (? & ? & ? & ? & ? & _).
  destruct (rw_port r Hwf) as [Hp|(ds & Hp & Hne & Hds & _)]; rewrite Hp.
  - destruct (Z.eq_dec e h0) as [->|].
    + rewrite (req_blank (h0 - 1) c); [lia| |done]. unfold h0, host_off in *. lia.
    + apply (req_host (e - 1)) in Hc as (_ & ? & _); [done|].
      unfold tend in He. rewrite Hp in He. change (len []) with 0 in He. lia.
  - pose proof (req_colon ds Hp) as Hcol.
    assert (Ht : tend = hend + 1 + len ds) by (unfold tend; rewrite Hp, len_cons; lia).
    destruct (Z.lt_trichotomy (e - 1) hend) as [Hlt|[?|Hgt]]; [|done|].
    + destruct ds as [|d ds]; [done|]. rewrite len_cons in Ht. pose proof (len_nonneg ds).
      exfalso. apply (Hdig hend) in Hcol; [done|lia].
    + exfalso. apply (req_port_digits (e - 1)) in Hc; [|lia].
      unfold is_dec in Hc. congruence.
Qed.

(** the port as [parse_http] reads it *)
Lemma req_port_value ds :
  hr_port r = x3a :: ds → ds ≠ [] → Forall is_dec ds → 0 < dec_value ds 0 <= 0xffff →
  strtol (drop (Z.to_nat (hend + 1)) m) 10 = Ok (port_of r, len ds).
Proof.
  intros Hp Hne Hds Hv. unfold port_of. rewrite Hp.
  assert (Hm : m = (hr_pre r ++ hr_name r ++ hr_blank r ++ hr_host r ++ [x3a]) ++
    ds ++ hr_ws r ++ x0a :: hr_rest r).
  { unfold m, enc_req. rewrite Hp. by rewrite <- !app_assoc. }
  rewrite Hm, drop_len_app.
  2: { rewrite !len_app, (rw_name_len r Hwf). change (len [x3a]) with 1.
       unfold hend, h0, host_off. lia. }
  assert (Hc : ∃ c tl, hr_ws r ++ x0a :: hr_rest r = c :: tl ∧ isdigit (zb c) = false).
  { pose proof (rw_ws r Hwf) as Hw. destruct (hr_ws r) as [|c w].
    - exists x0a, (hr_rest r). done.
    - exists c, (w ++ x0a :: hr_rest r). split; [done|].
      apply Forall_cons_iff in Hw as [[Hs _] _].
      destruct (isdigit (zb c)) eqn:E; [|done]. by rewrite isdigit_not_space in Hs. }
  destruct Hc as (c & tl & -> & Hc). rewrite strtol_dec by done.
  unfold clamp_long, LONG_MIN, LONG_MAX. f_equal. f_equal. lia.
Qed.

Lemma parse_http_req_wp (want : bool) :
  wp (parse_http m (len m) want)
     (λ x, x = (len (hr_host r), Some h0, if want then Some (port_of r) else None)).
Proof.
  pose proof req_lens as (Hlb & Hlh & Hlp & Hlw & Hlpre & Hnl).
  assert (Hbounds : h0 + len (hr_host r) = hend ∧ hend + len (hr_port r) = tend ∧
    tend + len (hr_ws r) = nl ∧ h0 = len (hr_pre r) + 6 + len (hr_blank r)).
  { unfold nl, tend, hend, h0, host_off. lia. }
  destruct Hbounds as (B1 & B2 & B3 & B4).
  pose proof (rw_size r Hwf) as H31. fold m in H31.
  unfold parse_http. rewrite is_http_eq by lia. bstep.
  rewrite (proj2 (Z.leb_le _ _)) by apply (rw_16 r Hwf).
  pose proof (rw_method r Hwf) as Hme. fold m in Hme. rewrite Hme. cbn [andb negb].
  wp_step. change 6 with (len host_lit) at 1.
  eapply wp_mono; [apply wp_strncasestr; [lia|lia|done|done]|].
  pose proof (rw_name r Hwf) as Ho. fold m in Ho.
  intros [p|]; cbv beta.
  2: { intros Hnone. rewrite Hnone in Ho; [done|lia|].
       change (len host_lit) with 6. lia. }
  intros (Hp & _ & Hop & Hfirst).
  assert (p = len (hr_pre r)) as ->.
  { destruct (Z.lt_trichotomy p (len (hr_pre r))) as [?|[?|?]]; [|done|].
    - unfold m in Hop. rewrite (rw_first r Hwf) in Hop; [done|lia].
    - rewrite (Hfirst (len (hr_pre r))) in Ho; [done|lia]. }
  clear Hfirst Hop. wp_step. apply wp_skip_spaces; [lia|lia|]. intros h Hh Hsp Hns.
  assert (h = h0) as ->.
  { destruct (Z.lt_trichotomy h h0) as [?|[?|?]]; [|done|].
    - destruct (rd_in m h) as [b Hb]; [lia|]. exfalso. apply (Hns ltac:(lia) b Hb).
      apply (req_blank h); [lia|done].
    - destruct (rd_in m h0) as [b Hb]; [lia|]. exfalso.
      pose proof (Hsp h0 b ltac:(lia) Hb) as E32.
      apply (req_host h0) in Hb as (_ & _ & Hs); [|lia]. by rewrite E32 in Hs. }
  clear Hsp Hns. wp_step. apply wp_memchr; [lia..| |].
  2: { intros Hnone. exfalso. apply (Hnone nl x0a); [lia|apply req_nl|done]. }
  intros le Hle (b10 & Hb10 & E10) Hfirst.
  assert (le = nl) as ->.
  { destruct (Z.lt_trichotomy le nl) as [?|[?|?]]; [|done|].
    - exfalso. destruct (Z.lt_ge_cases le hend).
      { apply (req_host le) in Hb10 as (? & _); [done|lia]. }
      destruct (Z.lt_ge_cases le tend).
      { destruct (Z.eq_dec le hend) as [->|].
        - destruct (rw_port r Hwf) as [Hpo|(ds & Hpo & _)].
          + rewrite Hpo in B2. change (len []) with 0 in B2. lia.
          + rewrite (req_colon ds Hpo) in Hb10. injection Hb10 as <-. done.
        - apply (req_port_digits le) in Hb10; [|lia]. unfold is_dec in Hb10.
          by rewrite E10 in Hb10. }
      apply (req_ws le) in Hb10 as [_ ?]; [done|lia].
    - exfalso. apply (Hfirst nl x0a); [lia|apply req_nl|done]. }
  clear Hfirst. wp_step.
  destruct (rd_in m (tend - 1)) as [bl Hbl]; [lia|].
  apply (wp_back_while _ _ _ _ tend); [lia|lia|lia| |].
  { exists bl. split; [done|]. by apply req_last_not_space. }
  intros l_end c Hl Hc Hcs Hall.
  assert (l_end = tend) as ->.
  { destruct (Z.eq_dec l_end tend) as [?|?]; [done|]. exfalso.
    apply (req_ws (l_end - 1)) in Hc as [Hs _]; [congruence|lia]. }
  clear Hall. wp_step.
  destruct (rd_in m (h0 - 1)) as [bs Hbs]; [lia|].
  assert (Ebs : zb bs = 32) by (apply (req_blank (h0 - 1)); [lia|done]).
  apply (wp_back_while _ _ _ _ h0); [lia|lia|lia| |].
  { exists bs. split; [done|]. by rewrite Ebs. }
  intros e c2 He Hc2 Hc2d Hdig.
  pose proof (req_digits_back e c2 He Hc2 Hc2d Hdig) as Hback.
  wp_step. rewrite Hc2. apply wp_ok. rewrite chr_eqb_ascii by done.
  change (ch ":") with 58.
  destruct (rd_in m h0) as [bh Hbh]; [lia|].
  assert (Hbh91 : zb bh ≠ 91).
  { apply (rw_host_first r Hwf). rewrite <- Hbh. symmetry.
    replace m with ((hr_pre r ++ hr_name r ++ hr_blank r) ++ hr_host r ++
      (hr_port r ++ hr_ws r ++ x0a :: hr_rest r))
      by (unfold m, enc_req; by rewrite <- !app_assoc).
    rewrite rd_seg; rewrite !len_app, (rw_name_len r Hwf); [f_equal; lia|lia]. }
  apply wp_bind, (wp_mono _ (λ o, o = Some (hend, if want then Some (port_of r) else None))).
  - destruct (rw_port r Hwf) as [Hpo|(ds & Hpo & Hne & Hds & Hv)];
      rewrite Hpo in Hback.
    + rewrite (proj2 (Z.eqb_neq _ _)) by done. cbn [negb]. wp_step.
      unfold port_of. rewrite Hpo in *. change (len []) with 0 in B2.
      by replace tend with hend by lia.
    + rewrite Hback in Hc2 |- *. rewrite (req_colon ds Hpo) in Hc2. injection Hc2 as <-.
      change (zb x3a =? 58) with true. cbn [negb].
      destruct want; [|by wp_step].
      rewrite (req_port_value ds) by done. wp_step. wp_step.
      rewrite Hpo, len_cons in B2.
      assert (port_of r = dec_value ds 0) as Epo by (unfold port_of; by rewrite Hpo).
      rewrite Epo. replace (hend + 1 + len ds =? tend) with true by lia.
      rewrite (proj2 (Z.leb_gt _ 0)), (proj2 (Z.ltb_ge 65535 _)) by lia. done.
  - intros ? ->. wp_step. rewrite Hbh. apply wp_ok.
    rewrite chr_eqb_ascii by done. rewrite (proj2 (Z.eqb_neq _ _)) by done.
    wp_step. ints. do 2 f_equal. lia.
Qed.

End Request.

(* ------------------------------------------------------------------ *)
(** ** Properties *)

(** [is_http] is a length test and a prefix test against the nine method
    names: the first-letter prefilter never changes the answer, and the
    function stays inside the buffer whatever it contains. *)
Theorem is_http_spec (m : mem) (n : Z) :
  n <= len m → is_http m n = Ok ((16 <=? n) && http_methods_match m).
Proof. apply is_http_eq. Qed.

(** [parse_http] never reads outside the buffer and always returns,
    whatever the buffer holds; a reported host starts inside the buffer, after
    a Host header, and does not run past the end. *)
Theorem parse_http_safe (m : mem) (n : Z) (want_port : bool) :
  n <= len m → len m < 2 ^ 31 →
  ∃ l h port, parse_http m n want_port = Ok (l, h, port) ∧
    match h with
    | None => l = 0
    | Some o => 0 < o <= n ∧ o + l <= n
    end.
Proof.
  intros Hn Hm. pose proof (wp_parse_http m n want_port Hn Hm) as H.
  apply wp_iff in H as ([[l h] port] & -> & H). exists l, h, port. split; [done|].
  destruct h; [|done]. destruct H as (? & ? & ? & _). lia.
Qed.

(** C9: [parse_http] returns the host of every well-formed request, and its
    port, 80 when none is given. *)
Theorem parse_http_req (r : http_req) :
  req_wf r →
  parse_http (enc_req r) (len (enc_req r)) true
    = Ok (len (hr_host r), Some (host_off r), Some (port_of r)) ∧
  slice (enc_req r) (host_off r) (len (hr_host r)) = hr_host r.
Proof.
  intros Hwf. split.
  - apply wp_eq. by apply (parse_http_req_wp r Hwf true).
  - unfold enc_req, host_off.
    rewrite (app_assoc (hr_pre r)), (app_assoc (_ ++ _) (hr_blank r)).
    apply slice_mid; [|done]. rewrite !len_app, (rw_name_len r Hwf). lia.
Qed.

(* ------------------------------------------------------------------ *)
(** ** Rewriting the Host header *)

(** the bytes with letters in lower case: what a case-insensitive reader sees *)
Definition lowered (m : mem) : list Z := (λ b, tolower (zb b)) <$> m.

Lemma tolower_tolower z : tolower (tolower z) = tolower z.
Proof. unfold tolower, isupper. repeat case_match; lia. Qed.
Lemma tolower_toupper z : tolower (toupper z) = tolower z.
Proof. unfold tolower, toupper, isupper, islower. repeat case_match; lia. Qed.
Lemma tolower_byte z : 0 <= z < 256 → 0 <= tolower z < 256.
Proof. unfold tolower, isupper. case_match; lia. Qed.
Lemma toupper_byte z : 0 <= z < 256 → 0 <= toupper z < 256.
Proof. unfold toupper, islower. case_match; lia. Qed.

(** a letter-case function applied to one byte *)
Definition case_fun (f : Z → Z) : Prop :=
  ∀ z, tolower (f z) = tolower z ∧ (0 <= z < 256 → 0 <= f z < 256).
Lemma case_fun_lower : case_fun tolower.
Proof. split; [apply tolower_tolower|apply tolower_byte]. Qed.
Lemma case_fun_upper : case_fun toupper.
Proof. split; [apply tolower_toupper|apply toupper_byte]. Qed.

(** same length and same letters up to case *)
Definition same_text (m m' : mem) : Prop :=
  len m' = len m ∧ lowered m' = lowered m.

#[local] Instance same_text_refl : Reflexive same_text.
Proof. by intros m. Qed.
#[local] Instance same_text_trans : Transitive same_text.
Proof. intros a b c [L1 E1] [L2 E2]. split; congruence. Qed.

Lemma same_text_wr f m i b m' :
  case_fun f → rd m i = Ok b → wr m i (f (zb b)) = Ok m' → same_text m m'.
Proof.
  intros Hf Hb Hw. pose proof (rd_bounds _ _ _ Hb).
  unfold wr in Hw. rewrite (proj2 (Z.leb_le _ _)), (proj2 (Z.ltb_lt _ _)) in Hw by lia.
  injection Hw as <-. split; [apply len_insert|]. unfold lowered.
  rewrite list_fmap_insert.
  apply list_insert_id. apply rd_ok in Hb as [_ Hb].
  rewrite list_lookup_fmap, Hb. simpl. f_equal.
  rewrite zb_bz_small by (apply Hf, zb_range). symmetry. apply Hf.
Qed.

Lemma wp_map_at f m i (Q : mem → Prop) :
  case_fun f → 0 <= i < len m → (∀ m', same_text m m' → Q m') → wp (map_at f m i) Q.
Proof.
  intros Hf Hi HQ. unfold map_at. wp_step. apply wp_rd; [lia|]. intros b Hb.
  assert (Hw : wr m i (f (zb b)) = Ok (<[Z.to_nat i := bz (f (zb b))]> m))
    by (apply wp_eq, wp_wr; [lia|done]).
  rewrite Hw. apply wp_ok, HQ. by apply (same_text_wr f m i b).
Qed.

Lemma wp_upper_even m host hlen (Q : mem → Prop) :
  0 <= host → host + hlen <= len m → (∀ m', same_text m m' → Q m') →
  wp (upper_even m host hlen) Q.
Proof.
  intros Hh Hl HQ. unfold upper_even.
  apply (wp_loop (λ '(m', i), same_text m m' ∧ 0 <= i)
           (λ '(_, i), Z.max 0 (hlen - i))); [intros [? ?]; lia| |split; [done|lia]|lia].
  intros [m' i] [Hs Hi]. wp_step; [|by apply HQ].
  pose proof (proj1 Hs) as Hlen. wp_step.
  apply wp_map_at; [apply case_fun_upper|lia|]. intros m'' Hs'.
  wp_step. split; [|lia]. split; [by transitivity m'|lia].
Qed.

(** the scan back to the colon: at least [lo] *)
Lemma wp_back_colon fuel m i lo (Q : Z → Prop) :
  0 <= lo <= i → i < len m → i - lo < Z.of_nat fuel →
  (∃ b, rd m lo = Ok b ∧ zb b = 58) →
  (∀ r c, lo <= r <= i → rd m r = Ok c → zb c = 58 → Q r) →
  wp (loop fuel (λ par,
        c ← rd m par;
        Ok (if negb (chr c =? ch ":") then inl (par - 1) else inr par)) i) Q.
Proof.
  intros Hlo Hi Hf (b & Hb & E) HQ.
  apply (wp_loop (λ r, lo <= r <= i) (λ r, r - lo)); [intros; lia| |lia|lia].
  intros r Hr. wp_step. apply wp_rd; [lia|]. intros c Hc. wp_step.
  rewrite chr_eqb_ascii by done. change (ch ":") with 58.
  destruct (Z.eqb_spec (zb c) 58) as [|Hne]; cbn [negb]; [by apply (HQ r c)|].
  assert (r ≠ lo) by congruence. lia.
Qed.

(** the first two options of [mod_http], after the colon has been found *)
Lemma wp_mod_case m host hlen par flags (Q : mem → Prop) :
  0 <= par → par + 3 < len m → 0 <= host → host + hlen <= len m →
  (∀ m', same_text m m' → Q m') →
  wp (buffer ← (if has flags MH_HMIX then
                  buffer ← map_at tolower m par;
                  buffer ← map_at toupper buffer (par + 1);
                  map_at toupper buffer (par + 3)
                else Ok m);
      (if has flags MH_DMIX then upper_even buffer host hlen else Ok buffer)) Q.
Proof.
  intros Hp Hp3 Hh Hhl HQ. wp_step. apply (wp_mono _ (same_text m)).
  - wp_step; [|wp_step; done].
    wp_step. apply wp_map_at; [apply case_fun_lower|lia|]. intros m1 H1.
    pose proof (proj1 H1). wp_step.
    apply wp_map_at; [apply case_fun_upper|lia|]. intros m2 H2.
    pose proof (proj1 H2). apply wp_map_at; [apply case_fun_upper|lia|].
    intros m3 H3. transitivity m1; [done|]. by transitivity m2.
  - intros m1 H1. pose proof (proj1 H1). wp_step; [|by apply HQ].
    apply wp_upper_even; [lia|lia|]. intros m2 H2. apply HQ. by transitivity m1.
Qed.

(** without the blank-removing option, [mod_http] either reports that
    there is no host or rewrites letters only: the request keeps its length
    and reads the same to a case-insensitive reader. *)
Theorem mod_http_same_text (m : mem) (n flags : Z) :
  n <= len m → len m < 2 ^ 31 → has flags MH_SPACE = false →
  ∃ s m', mod_http m n flags = Ok (s, m') ∧ same_text m m' ∧
          (s = -1 → m' = m) ∧ (s = -1 ∨ s = 0).
Proof.
  intros Hn Hm Hf. cut (wp (mod_http m n flags) (λ '(s, m'),
    same_text m m' ∧ (s = -1 → m' = m) ∧ (s = -1 ∨ s = 0))).
  { rewrite wp_iff. intros ([s m'] & ? & ?). by exists s, m'. }
  unfold mod_http. wp_use wp_parse_http; [done|done|].
  intros [[l h] port] Hh. wp_step; [wp_step; split_and!; [done|auto..]|].
  destruct h as [o|]; cbv beta iota in Hh; [|lia].
  destruct Hh as (Ho & Hon & Hol & (p & Hp & Hocc & Hpo) & _).
  destruct (host_colon m p Hp Hocc) as (bc & Hbc & Ebc).
  wp_step. apply (wp_back_colon _ _ _ (p + 5)); [lia|lia|lia|by exists bc|].
  intros par ? Hpar _ _. cbv beta zeta. rewrite Hf.
  pose proof (wp_mod_case m o l (par - 4) flags) as Hc.
  specialize (Hc (λ m', same_text m m') ltac:(lia) ltac:(lia) ltac:(lia) ltac:(lia)
    ltac:(done)).
  apply wp_iff in Hc as (m' & Hc & Hs). apply bind_ok in Hc as (m1 & H1 & H2).
  rewrite H1, bind_Ok, H2, bind_Ok, bind_Ok. wp_step. split_and!; [done|lia|auto].
Qed.

Lemma memmove_left (a b c d : mem) :
  memmove (a ++ b ++ c ++ d) (len a) (len a + len b) (len c)
  = Ok (a ++ c ++ drop (length c) (b ++ c) ++ d).
Proof.
  pose proof (len_nonneg a). pose proof (len_nonneg b). pose proof (len_nonneg c).
  pose proof (len_nonneg d). unfold memmove.
  rewrite memcpy_ok by (rewrite ?len_app; lia).
  rewrite (app_assoc a b), (slice_mid (a ++ b) c d) by (rewrite ?len_app; lia).
  replace ((a ++ b) ++ c ++ d) with
    (a ++ take (length c) (b ++ c) ++ drop (length c) (b ++ c) ++ d).
  2: { rewrite (app_assoc (take _ _)), take_drop. by rewrite <- !app_assoc. }
  rewrite splice_app; [done|].
  unfold len. rewrite length_take, length_app. lia.
Qed.

(** the scan forward to white space *)
Lemma wp_to_space fuel m host i e (Q : Z → Prop) :
  0 <= host + i <= host + e → host + e < len m → e - i < Z.of_nat fuel →
  (∃ b, rd m (host + e) = Ok b ∧ isspace (zb b) = true) →
  (∀ j b, i <= j < e → rd m (host + j) = Ok b → isspace (zb b) = false) →
  Q e →
  wp (loop fuel (λ hlen,
        c ← rd m (host + hlen);
        Ok (if negb (isspace (zb c)) then inl (hlen + 1) else inr hlen)) i) Q.
Proof.
  intros Hi He Hf (b & Hb & Hbs) Hno HQ.
  apply (wp_loop (λ r, i <= r <= e) (λ r, e - r)); [intros; lia| |lia|lia].
  intros r Hr. wp_step. apply wp_rd; [lia|]. intros c Hc. wp_step.
  destruct (isspace (zb c)) eqn:E; cbn [negb].
  - destruct (Z.eq_dec r e) as [->|]; [done|].
    rewrite (Hno r c) in E; [done|lia|done].
  - destruct (Z.eq_dec r e) as [->|]; [congruence|lia].
Qed.

(** the request after the blanks before the host have been moved behind it *)
Definition enc_req_tabs (r : http_req) : mem :=
  hr_pre r ++ hr_name r ++ hr_host r ++ hr_port r
  ++ repeat x09 (length (hr_blank r)) ++ hr_ws r ++ x0a :: hr_rest r.

(** [mod_http] with the blank-removing option puts the host (and port)
    right after the colon and pads with tabs behind it, so the request keeps
    its length and every other byte its place. *)
Theorem mod_http_rmspace (r : http_req) :
  req_wf r →
  mod_http (enc_req r) (len (enc_req r)) MH_SPACE = Ok (0, enc_req_tabs r).
Proof.
  intros Hwf. apply wp_eq.
  pose proof (req_lens r Hwf) as (Hlb & Hlh & Hlp & Hlw & Hlpre & Hnl).
  pose proof (rw_name_len r Hwf) as Hn6.
  set (m := enc_req r) in *. set (h0 := host_off r) in *.
  unfold mod_http. apply wp_bind.
  eapply wp_mono; [apply (parse_http_req_wp r Hwf false)|]. intros x ->.
  fold h0. cbv beta iota. rewrite (proj2 (Z.eqb_neq _ _)) by lia.
  pose proof (rw_name r Hwf) as Ho. fold m in Ho.
  destruct (host_colon m (len (hr_pre r)) ltac:(lia) Ho) as (bc & Hbc & Ebc).
  assert (Hh0 : h0 = len (hr_pre r) + 6 + len (hr_blank r)) by done.
  wp_step. apply (wp_back_colon _ _ _ (len (hr_pre r) + 5)); [lia|lia|lia|by exists bc|].
  intros par c Hpar Hc Ec.
  assert (par = len (hr_pre r) + 5) as ->.
  { destruct (Z.eq_dec par (len (hr_pre r) + 5)) as [?|?]; [done|]. exfalso.
    rewrite (req_blank r Hwf par c) in Ec; [done| |done]. fold h0. lia. }
  cbv beta zeta. change (has MH_SPACE MH_HMIX) with false.
  change (has MH_SPACE MH_DMIX) with false. change (has MH_SPACE MH_SPACE) with true.
  cbv iota. rewrite !bind_Ok. wp_step. wp_step.
  apply (wp_to_space _ _ _ _ (len (hr_host r) + len (hr_port r))); [lia|lia| | | |].
  - assert (len m = Z.of_nat (length m)) by done. lia.
  - destruct (hr_ws r) as [|w ws] eqn:Ew.
    + exists x0a. split; [|done]. rewrite <- (req_nl r Hwf). f_equal.
      rewrite Ew. change (len []) with 0. fold h0. lia.
    + destruct (rd_in m (h0 + (len (hr_host r) + len (hr_port r)))) as [b Hb]; [lia|].
      exists b. split; [done|]. pose proof (len_nonneg ws). rewrite len_cons in *.
      apply (req_ws r Hwf (h0 + (len (hr_host r) + len (hr_port r)))); [|done].
      rewrite Ew, len_cons. fold h0. lia.
  - intros j b Hj Hb. destruct (rw_port r Hwf) as [Hpo|(ds & Hpo & _)].
    { rewrite Hpo in Hj. change (len []) with 0 in Hj. lia. }
    destruct (Z.eq_dec j (len (hr_host r))) as [->|].
    + pose proof (req_colon r Hwf ds Hpo) as Hcol. fold m h0 in Hcol.
      rewrite Hcol in Hb. by injection Hb as <-.
    + apply isdigit_not_space. apply (req_port_digits r Hwf (h0 + j)); [|done].
      fold h0. lia.
  - set (A := hr_pre r ++ hr_name r). set (HP := hr_host r ++ hr_port r).
    set (D := hr_ws r ++ x0a :: hr_rest r).
    assert (HA : len A = len (hr_pre r) + 6) by (unfold A; rewrite len_app; lia).
    assert (HHP : len HP = len (hr_host r) + len (hr_port r)) by apply len_app.
    assert (Hm : m = A ++ hr_blank r ++ HP ++ D)
      by (unfold m, enc_req, A, HP, D; by rewrite <- !app_assoc).
    replace (len (hr_pre r) + 5 - 4 + 5) with (len A) by lia.
    replace h0 with (len A + len (hr_blank r)) by lia.
    rewrite <- HHP, Hm, memmove_left, bind_Ok.
    assert (Hd : len (drop (length HP) (hr_blank r ++ HP)) = len (hr_blank r)).
    { unfold len. rewrite length_drop, length_app. lia. }
    pose proof (len_nonneg D).
    rewrite memset_ok by (rewrite ?len_app, ?Hd; lia).
    rewrite (app_assoc A HP), <- len_app, splice_app.
    2: { rewrite Hd. unfold len. rewrite repeat_length. unfold len in *. lia. }
    replace (Z.to_nat (len A + len (hr_blank r) - len A)) with (length (hr_blank r))
      by (unfold len; lia).
    wp_step. unfold enc_req_tabs, A, HP, D. by rewrite <- !app_assoc.
Qed.

(* ------------------------------------------------------------------ *)
(** ** Inputs on which the code leaves its buffers *)

(** a request whose Host header holds a blank and nothing else *)
Definition blank_host_req : mem :=
  bytes_of "GET / HTTP/1.1" ++ crlf ++ bytes_of "Host: " ++ crlf ++ crlf.

(** On a Host header with only blanks [parse_http] reports a negative
    length, which [mod_http] hands to [memmove] as a size. *)
Theorem mod_http_blank_host_ub :
  parse_http blank_host_req (len blank_host_req) false = Ok (-1, Some 22, None) ∧
  mod_http blank_host_req (len blank_host_req) MH_SPACE = UB.
Proof. by_both_signs. Qed.

(** a redirect whose Location header holds nothing but the mandatory blank *)
Definition some_req : mem :=
  bytes_of "GET / HTTP/1.1" ++ crlf ++ bytes_of "Host: a.example" ++ crlf ++ crlf.
Definition blank_location : mem :=
  bytes_of "HTTP/1.1 302 Found" ++ crlf ++ bytes_of "Location: " ++ [x0a]
  ++ bytes_of "Server: x" ++ crlf ++ crlf.

(** On a response with an empty Location header the search for the first
    slash is given a negative length and runs past the response. *)
Theorem is_http_redirect_blank_location_ub :
  is_http_redirect some_req (len some_req) blank_location (len blank_location) = UB.
Proof. by_both_signs. Qed.

End Http.

(* ------------------------------------------------------------------ *)
(** ** Concrete instances *)

Lemma is_http_spec_witness :
  is_http (cm := true) http_data 43 = Ok ((16 <=? 43) && http_methods_match http_data).
Proof. apply (is_http_spec (cm := true) http_data 43). zeval. Defined.

Lemma parse_http_safe_witness :
  ∃ l h port, parse_http (cm := false) http_data 43 true = Ok (l, h, port) ∧
    match h with None => l = 0 | Some o => 0 < o <= 43 ∧ o + l <= 43 end.
Proof. apply (parse_http_safe (cm := false) http_data 43 true); zeval. Defined.

Definition sample_req : http_req :=
  HttpReq (bytes_of "GET / HTTP/1.1" ++ [x0d]) (x0a :: bytes_of "hOst:")
    (bytes_of "  ") (bytes_of "a.example") (bytes_of ":8080") [x0d]
    (bytes_of "x").

Lemma no_occurs_before m lit (n : nat) :
  forallb (λ i, negb (occurs m lit (Z.of_nat i))) (seq 0 n) = true →
  ∀ j, 0 <= j < Z.of_nat n → occurs m lit j = false.
Proof.
  intros H j Hj. rewrite forallb_forall in H. specialize (H (Z.to_nat j)).
  rewrite Z2Nat.id in H by lia. apply negb_true_iff, H, in_seq. lia.
Qed.

Lemma sample_req_wf : req_wf sample_req.
Proof.
  split; try zeval.
  - apply (no_occurs_before _ _ 15). reflexivity.
  - split; [discriminate|]. repeat constructor.
  - split; [discriminate|]. repeat constructor; discriminate.
  - intros b [= <-]. discriminate.
  - right. exists (bytes_of "8080"). split; [done|]. split; [discriminate|].
    split; [repeat constructor|zeval].
  - repeat constructor; discriminate.
Qed.

Lemma parse_http_req_witness :
  parse_http (cm := true) (enc_req sample_req) (len (enc_req sample_req)) true
    = Ok (9, Some (host_off sample_req), Some (port_of sample_req)) ∧
  slice (enc_req sample_req) (host_off sample_req) 9 = bytes_of "a.example".
Proof. apply (parse_http_req (cm := true) sample_req), sample_req_wf. Defined.

Lemma mod_http_same_text_witness :
  ∃ s m', mod_http (cm := true) http_data 43 5 = Ok (s, m') ∧ same_text http_data m' ∧
          (s = -1 → m' = http_data) ∧ (s = -1 ∨ s = 0).
Proof. apply (mod_http_same_text (cm := true) http_data 43 5); zeval. Defined.

Lemma mod_http_rmspace_witness :
  mod_http (cm := true) (enc_req sample_req) (len (enc_req sample_req)) MH_SPACE
  = Ok (0, enc_req_tabs sample_req).
Proof. apply (mod_http_rmspace (cm := true) sample_req), sample_req_wf. Defined.
