(* ===== verification/Kavl.v ===== *)
(** * The intrusive AVL tree of byedpi (native/byedpi/kavl.h)

    The KAVL_INIT macros expand to a tree with child pointers [p[0]],
    [p[1]], a balance factor and a subtree size in every node.  A tree is
    the inductive [tree] below; the path the C code keeps in [path]/[dir] is
    a list of frames, deepest first, and the in-place pointer updates are
    the plugging of a subtree into a frame.  A null pointer that the code
    would dereference is [UB], and so is a descent that overruns the
    64-entry path arrays.  The callers pass a null [cnt_], which is left
    out.  The comparison function is a parameter, as it is in the macros.

    The second half proves the AVL discipline (balance factors and sizes
    stay right, heights stay logarithmic, so the path arrays suffice), the
    in-order contents after an insertion or a removal, and the search. *)

From Stdlib Require Import ZArith Lia Bool List.
From stdpp Require Import base tactics list numbers option sorting.
From S2P Require Import Prelude.

Definition KAVL_MAX_DEPTH : nat := 64.
(** entry [n] of a path array or iterator stack does not exist *)
Definition path_full (n : nat) : bool := (KAVL_MAX_DEPTH <=? n)%nat.
#[global] Arguments path_full : simpl never.

Inductive tree (A : Type) : Type :=
| Leaf
| Node (l : tree A) (x : A) (balance size : Z) (r : tree A).
Arguments Leaf {A}.
Arguments Node {A} l x balance size r.

(** a node on the path, without the child the path continues in:
    [f_dir] is the direction taken, [f_sib] the other child *)
Record frame (A : Type) : Type := Frame {
  f_dir : bool; f_x : A; f_balance : Z; f_size : Z; f_sib : tree A
}.
Arguments Frame {A}.
Arguments f_dir {A}.
Arguments f_x {A}.
Arguments f_balance {A}.
Arguments f_size {A}.
Arguments f_sib {A}.

Section kavl.
Context {A : Type}.
Variable cmp : A → A → res Z.
Implicit Types (t p q r : tree A) (x : A) (dir which : bool).

Definition kid t dir : res (tree A) :=
  match t with
  | Leaf => UB
  | Node l _ _ _ r => Ok (if dir then r else l)
  end.

Definition set_kid t dir c : res (tree A) :=
  match t with
  | Leaf => UB
  | Node l x b s r => Ok (if dir then Node l x b s c else Node c x b s r)
  end.

Definition kavl_size t : Z := match t with Leaf => 0 | Node _ _ _ s _ => s end.

Definition node_size t : res Z :=
  match t with Leaf => UB | Node _ _ _ s _ => Ok s end.
Definition set_size t s : res (tree A) :=
  match t with Leaf => UB | Node l x b _ r => Ok (Node l x b s r) end.
Definition node_balance t : res Z :=
  match t with Leaf => UB | Node _ _ b _ _ => Ok b end.
Definition set_balance t b : res (tree A) :=
  match t with Leaf => UB | Node l x _ s r => Ok (Node l x b s r) end.

Fixpoint kavl_find t x : res (option A) :=
  match t with
  | Leaf => Ok None
  | Node l y _ _ r =>
      c ← cmp x y;
      if c <? 0 then kavl_find l x
      else if 0 <? c then kavl_find r x
      else Ok (Some y)
  end.

(** one rotation: (a,(b,c)q)p => ((a,b)p,c)q *)
Definition kavl_rotate1 p dir : res (tree A) :=
  let opp := negb dir in
  q ← kid p opp;
  size_p ← node_size p;
  size_q ← node_size q;
  q_dir ← kid q dir;
  p ← set_size p (u32 (size_p - u32 (size_q - kavl_size q_dir)));
  q ← set_size q size_p;
  p ← set_kid p opp q_dir;
  set_kid q dir p.

(** two consecutive rotations: (a,((b,c)r,d)q)p => ((a,b)p,(c,d)q)r *)
Definition kavl_rotate2 p dir : res (tree A) :=
  let opp := negb dir in
  q ← kid p opp;
  r ← kid q dir;
  r_dir ← kid r dir;
  let size_x_dir := kavl_size r_dir in
  size_p ← node_size p;
  size_q ← node_size q;
  r ← set_size r size_p;
  p ← set_size p (u32 (size_p - u32 (size_q - size_x_dir)));
  q ← set_size q (u32 (size_q - u32 (size_x_dir + 1)));
  p ← set_kid p opp r_dir;
  r_opp ← kid r opp;
  q ← set_kid q dir r_opp;
  let b1 := if dir then -1 else 1 in
  r_bal ← node_balance r;
  let '(q_bal, p_bal) :=
    if r_bal =? b1 then (0, - b1)
    else if r_bal =? 0 then (0, 0)
    else (b1, 0) in
  q ← set_balance q q_bal;
  p ← set_balance p p_bal;
  r ← set_kid r dir p;
  r ← set_kid r opp q;
  set_balance r 0.

(** *** Paths *)

Definition plug (f : frame A) t : tree A :=
  if f_dir f then Node (f_sib f) (f_x f) (f_balance f) (f_size f) t
  else Node t (f_x f) (f_balance f) (f_size f) (f_sib f).

Definition plug_all t (path : list (frame A)) : tree A :=
  fold_left (λ t f, plug f t) path t.

Definition resize (d : Z) (f : frame A) : frame A :=
  Frame (f_dir f) (f_x f) (f_balance f) (u32 (f_size f + d)) (f_sib f).

(** *** Insertion *)

(** find the insertion location: an equal node, or the path to it *)
Fixpoint insert_path t x (path : list (frame A)) : res (A + list (frame A)) :=
  match t with
  | Leaf => Ok (inr path)
  | Node l y b s r =>
      c ← cmp x y;
      if c =? 0 then Ok (inl y) else
      if path_full (length path) then UB else
      if 0 <? c then insert_path r x (Frame true y b s l :: path)
      else insert_path l x (Frame false y b s r :: path)
  end.

(** re-balance at [bp] *)
Definition insert_rebalance bp : res (tree A) :=
  bp_bal ← node_balance bp;
  if (-2 <? bp_bal) && (bp_bal <? 2) then Ok bp else
  let which := bp_bal <? 0 in
  let b1 := if which then -1 else 1 in
  q ← kid bp (negb which);
  q_bal ← node_balance q;
  if q_bal =? b1 then
    r ← kavl_rotate1 bp which;
    r ← set_balance r 0;
    bp ← kid r which;
    bp ← set_balance bp 0;
    set_kid r which bp
  else kavl_rotate2 bp which.

(** update balance factors from the new node up to [bp], the deepest node
    of the path whose balance factor was not zero (or else the root) *)
Fixpoint insert_retrace t (path : list (frame A)) : res (tree A) :=
  match path with
  | [] => Ok t
  | f :: rest =>
      let b := if f_dir f then f_balance f + 1 else f_balance f - 1 in
      let p := plug (Frame (f_dir f) (f_x f) b (f_size f) (f_sib f)) t in
      if negb (f_balance f =? 0) || (match rest with [] => true | _ => false end)
      then r ← insert_rebalance p; Ok (plug_all r rest)
      else insert_retrace p rest
  end.

(** the new root, and the node already there ([None]: [x] was inserted) *)
Definition kavl_insert root x : res (tree A * option A) :=
  path ← insert_path root x [];
  match path with
  | inl y => Ok (root, Some y)
  | inr path =>
      root ← insert_retrace (Node Leaf x 0 1 Leaf) (map (resize 1) path);
      Ok (root, None)
  end.

(** *** Removal *)

(** the path to the node equal to [x], with that node.  The array [path]
    of the code starts with the fake root, hence one entry less here *)
Fixpoint erase_path t x (path : list (frame A))
  : res (option (list (frame A) * tree A)) :=
  match t with
  | Leaf => Ok None
  | Node l y b s r =>
      c ← cmp x y;
      if c =? 0 then Ok (Some (path, t)) else
      if path_full (Datatypes.S (length path)) then UB else
      if 0 <? c then erase_path r x (Frame true y b s l :: path)
      else erase_path l x (Frame false y b s r :: path)
  end.

(** the path to the first node; on the empty tree the code would unlink its
    own fake root through [path[-1]] *)
Fixpoint first_path t (path : list (frame A)) : res (list (frame A) * tree A) :=
  match t with
  | Leaf => UB
  | Node l y b s r =>
      if path_full (Datatypes.S (length path)) then UB else
      match l with
      | Leaf => Ok (path, t)
      | _ => first_path l (Frame false y b s r :: path)
      end
  end.

(** down the left children from [q] to the first node in order: its element
    and right subtree, and the path to it; [d] path entries are in use *)
Fixpoint leftmost q (d : nat) (path : list (frame A))
  : res (A * tree A * list (frame A)) :=
  match q with
  | Leaf => UB
  | Node l y b s r =>
      match l with
      | Leaf => Ok (y, r, path)
      | _ => if path_full (d + length path) then UB
             else leftmost l d (Frame false y b s r :: path)
      end
  end.

(** unlink the node [p]: its element, the subtree left at the end of the
    path, and the path, on which the node that replaces [p] takes its place *)
Definition unlink p (path : list (frame A))
  : res (A * tree A * list (frame A)) :=
  match p with
  | Leaf => UB
  | Node p0 x p_bal p_size p1 =>
      let d := Datatypes.S (length path) in
      match p1 with
      | Leaf => Ok (x, p0, path)
      | Node q0 y _ _ q1 =>
          if path_full d then UB else
          match q0 with
          | Leaf => Ok (x, q1, Frame true y p_bal (u32 (p_size - 1)) p0 :: path)
          | _ =>
              '(z, r1, below) ← leftmost p1 (Datatypes.S d) [];
              Ok (x, r1, map (resize (-1)) below
                         ++ Frame true z p_bal (u32 (p_size - 1)) p0 :: path)
          end
      end
  end.

(** rotate [q], two levels too deep on the side opposite to [which]; the
    flag tells that the height is back to what it was *)
Definition erase_rebalance q which : res (tree A * bool) :=
  let b1 := if which then -1 else 1 in
  r ← kid q (negb which);
  r_bal ← node_balance r;
  if r_bal =? - b1 then
    q ← kavl_rotate2 q which;
    Ok (q, false)
  else
    r ← kavl_rotate1 q which;
    let '(rb, qb) := if r_bal =? 0 then (- b1, b1) else (0, 0) in
    r ← set_balance r rb;
    q ← kid r which;
    q ← set_balance q qb;
    r ← set_kid r which q;
    Ok (r, r_bal =? 0).

(** update balance factors going up, rotating where needed *)
Fixpoint erase_retrace t (path : list (frame A)) : res (tree A) :=
  match path with
  | [] => Ok t
  | f :: rest =>
      let which := f_dir f in
      let b1 := if which then -1 else 1 in
      let b2 := if which then -2 else 2 in
      let bal := f_balance f + b1 in
      let q := plug (Frame which (f_x f) bal (f_size f) (f_sib f)) t in
      if bal =? b1 then Ok (plug_all q rest)
      else if bal =? b2 then
        '(r, stop) ← erase_rebalance q which;
        if stop then Ok (plug_all r rest) else erase_retrace r rest
      else erase_retrace q rest
  end.

Definition erase_at (path : list (frame A)) p : res (tree A * A) :=
  '(x, t, path) ← unlink p (map (resize (-1)) path);
  root ← erase_retrace t path;
  Ok (root, x).

Definition kavl_erase root x : res (tree A * option A) :=
  found ← erase_path root x [];
  match found with
  | None => Ok (root, None)
  | Some (path, p) => '(root, y) ← erase_at path p; Ok (root, Some y)
  end.

Definition kavl_erase_first root : res (tree A * A) :=
  '(path, p) ← first_path root [];
  erase_at path p.

(** *** The in-order iterator: a stack of nodes, and the right child of its
    top.  [stack] has [KAVL_MAX_DEPTH] entries *)
Record kavl_itr : Type := Itr { stack : list (tree A); right : tree A }.

Fixpoint push_lefts t (st : list (tree A)) : res (list (tree A)) :=
  match t with
  | Leaf => Ok st
  | Node l _ _ _ _ =>
      if path_full (length st) then UB else push_lefts l (t :: st)
  end.

Definition kavl_itr_first root : res kavl_itr :=
  st ← push_lefts root [];
  match st with
  | Node _ _ _ _ r :: _ => Ok (Itr st r)
  | _ => UB
  end.

Definition kavl_itr_next (itr : kavl_itr) : res (option kavl_itr) :=
  st ← push_lefts (right itr) (tail (stack itr));
  match st with
  | [] => Ok None
  | Node _ _ _ _ r :: _ => Ok (Some (Itr st r))
  | Leaf :: _ => UB
  end.

Definition kavl_at (itr : kavl_itr) : option A :=
  match stack itr with Node _ x _ _ _ :: _ => Some x | _ => None end.

(* ================================================================== *)
(** ** The AVL discipline *)

Fixpoint elements t : list A :=
  match t with Leaf => [] | Node l x _ _ r => elements l ++ x :: elements r end.

Fixpoint height t : Z :=
  match t with Leaf => 0 | Node l _ _ _ r => 1 + Z.max (height l) (height r) end.

Definition count t : Z := Z.of_nat (length (elements t)).

(** every balance factor is the height difference, and within one; every
    size field is the number of nodes, modulo the width of [unsigned] *)
Fixpoint avl t : Prop :=
  match t with
  | Leaf => True
  | Node l x b s r =>
      avl l ∧ avl r ∧ b = height r - height l ∧ -1 <= b <= 1
      ∧ s = u32 (count l + 1 + count r)
  end.

Lemma height_nonneg t : 0 <= height t.
Proof. induction t; simpl; lia. Qed.

Lemma height_pos t : t ≠ Leaf → 1 <= height t.
Proof. destruct t as [|l ? ? ? r]; [done|]. simpl. pose proof (height_nonneg l). lia. Qed.

Lemma count_node l x b s r : count (Node l x b s r) = count l + 1 + count r.
Proof. unfold count. simpl. rewrite length_app. simpl. lia. Qed.

Lemma kavl_size_avl t : avl t → kavl_size t = u32 (count t).
Proof. destruct t; [done|]. intros (? & ? & ? & ? & ->). by rewrite count_node. Qed.

(** an AVL tree, except that the root may be out of balance *)
Definition near_avl t : Prop :=
  match t with
  | Leaf => False
  | Node l x b s r =>
      avl l ∧ avl r ∧ b = height r - height l
      ∧ s = u32 (count l + 1 + count r)
  end.

Definition balance_of t : Z := match t with Leaf => 0 | Node _ _ b _ _ => b end.

(** what every rotation must establish: same contents, given height *)
Definition rebuilt t (h : Z) t' : Prop :=
  avl t' ∧ elements t' = elements t ∧ height t' = h.

Lemma rebuilt_count t h t' : rebuilt t h t' → count t' = count t.
Proof. intros (_ & E & _). unfold count. by rewrite E. Qed.

Lemma avl_near t : avl t → t ≠ Leaf → near_avl t.
Proof. destruct t; [done|]. simpl. naive_solver. Qed.
End kavl.

#[global] Arguments count : simpl never.

(** close a goal about rotated nodes: sizes modulo 2^32, heights by lia *)
Ltac use_sizes :=
  repeat match goal with
  | H : avl ?t |- context [kavl_size ?t] => rewrite (kavl_size_avl t H)
  end;
  rewrite ?count_node.

Ltac open_avl :=
  repeat match goal with
  | H : _ ∧ _ |- _ => destruct H
  | H : avl (Node _ _ _ _ _) |- _ => simpl in H
  | H : near_avl (Node _ _ _ _ _) |- _ => simpl in H
  | H : rebuilt _ _ _ |- _ => unfold rebuilt in H
  end.

Ltac close_rot :=
  unfold rebuilt; simpl in *; open_avl; subst;
  repeat match goal with |- _ ∧ _ => split end;
  try assumption; try (rewrite <- ?app_assoc; simpl; rewrite <- ?app_assoc; reflexivity);
  use_sizes; try lia; try wrap32.

Section rotations.
Context {A : Type}.
Implicit Types (t p q r : tree A) (x : A) (dir which : bool).

Lemma insert_rebalance_spec p :
  near_avl p → -2 <= balance_of p <= 2 →
  (∀ q, kid p (0 <? balance_of p) = Ok q → (balance_of p = 2 ∨ balance_of p = -2) → balance_of q ≠ 0) →
  wp (insert_rebalance p) (rebuilt p (height p - (if Z.abs (balance_of p) =? 2 then 1 else 0))).
Proof.
  destruct p as [|l x b s r]; [done|]; simpl. intros (Hl & Hr & Hb & Hs) Hrange Hk.
  unfold insert_rebalance; simpl.
  destruct ((-2 <? b) && (b <? 2)) eqn:E.
  { simpl. replace (Z.abs b =? 2) with false by lia. close_rot. }
  replace (Z.abs b =? 2) with true by lia.
  destruct (b <? 0) eqn:Eb; simpl.
  - assert (b = -2) as -> by lia. simpl in Hk. specialize (Hk l eq_refl (or_intror eq_refl)).
    pose proof (height_nonneg r).
    destruct l as [|ll lx lb ls lr]; [simpl in *; lia|]. simpl in *.
    destruct (Z.eqb_spec lb (-1)); simpl.
    + close_rot. 
    + destruct Hl as (?&?&?&?&?). pose proof (height_nonneg ll).
      destruct lr as [|lrl lrx lrb lrs lrr]; [simpl in *; lia|].
      unfold kavl_rotate2; simpl. 
      destruct (Z.eqb_spec lrb (-1)); [|destruct (Z.eqb_spec lrb 0)]; simpl; close_rot.
  - assert (b = 2) as -> by lia. simpl in Hk. specialize (Hk r eq_refl (or_introl eq_refl)).
    pose proof (height_nonneg l).
    destruct r as [|ll lx lb ls lr]; [simpl in *; lia|]. simpl in *.
    destruct (Z.eqb_spec lb 1); simpl.
    + close_rot. 
    + destruct Hr as (?&?&?&?&?). pose proof (height_nonneg lr).
      destruct ll as [|lrl lrx lrb lrs lrr]; [simpl in *; lia|].
      unfold kavl_rotate2; simpl. 
      destruct (Z.eqb_spec lrb 1); [|destruct (Z.eqb_spec lrb 0)]; simpl; close_rot.
Qed.

Lemma erase_rebalance_spec q which :
  near_avl q → balance_of q = (if which then -2 else 2) →
  wp (erase_rebalance q which) (λ '(t, stop),
    rebuilt q (if stop then height q else height q - 1) t).
Proof.
  destruct q as [|l x b s r]; [done|]; simpl. intros (Hl & Hr & Hb & Hs) Hbal.
  unfold erase_rebalance. destruct which; simpl; subst b.
  - pose proof (height_nonneg r).
    destruct l as [|ll lx lb ls lr]; [simpl in *; lia|]. simpl in *.
    destruct Hl as (?&?&?&?&?). pose proof (height_nonneg ll).
    destruct (Z.eqb_spec lb (Z.opp (-1))); simpl.
    + destruct lr as [|lrl lrx lrb lrs lrr]; [simpl in *; lia|].
      unfold kavl_rotate2; simpl.
      destruct (Z.eqb_spec lrb (-1)); [|destruct (Z.eqb_spec lrb 0)]; simpl; close_rot.
    + destruct (Z.eqb_spec lb 0); simpl; close_rot.
  - pose proof (height_nonneg l).
    destruct r as [|ll lx lb ls lr]; [simpl in *; lia|]. simpl in *.
    destruct Hr as (?&?&?&?&?). pose proof (height_nonneg lr).
    destruct (Z.eqb_spec lb (Z.opp 1)); simpl.
    + destruct ll as [|lrl lrx lrb lrs lrr]; [simpl in *; lia|].
      unfold kavl_rotate2; simpl.
      destruct (Z.eqb_spec lrb 1); [|destruct (Z.eqb_spec lrb 0)]; simpl; close_rot.
    + destruct (Z.eqb_spec lb 0); simpl; close_rot.
Qed.

(** *** Subtrees in their context *)

Fixpoint before (path : list (frame A)) : list A :=
  match path with
  | [] => []
  | f :: rest => before rest ++ (if f_dir f then elements (f_sib f) ++ [f_x f] else [])
  end.
Fixpoint after (path : list (frame A)) : list A :=
  match path with
  | [] => []
  | f :: rest => (if f_dir f then [] else f_x f :: elements (f_sib f)) ++ after rest
  end.

Lemma elements_plug f t :
  elements (plug f t) =
  (if f_dir f then elements (f_sib f) ++ [f_x f] else []) ++ elements t
  ++ (if f_dir f then [] else f_x f :: elements (f_sib f)).
Proof. unfold plug. destruct (f_dir f); simpl; by rewrite ?app_nil_r, <- ?app_assoc. Qed.

Lemma elements_plug_all t path :
  elements (plug_all t path) = before path ++ elements t ++ after path.
Proof.
  revert t. induction path as [|f rest IH]; intros t; simpl; [by rewrite app_nil_r|].
  unfold plug_all in *. simpl. rewrite IH, elements_plug.
  by rewrite <- !app_assoc.
Qed.

Lemma before_resize d path : before (map (resize d) path) = before path.
Proof. induction path as [|f rest IH]; simpl; [done|by rewrite IH]. Qed.
Lemma after_resize d path : after (map (resize d) path) = after path.
Proof. induction path as [|f rest IH]; simpl; [done|by rewrite IH]. Qed.

Lemma before_app u v : before (u ++ v) = before v ++ before u.
Proof.
  induction u as [|f u IH]; simpl; [by rewrite app_nil_r|by rewrite IH, app_assoc].
Qed.
Lemma after_app u v : after (u ++ v) = after u ++ after v.
Proof. induction u as [|f u IH]; simpl; [done|by rewrite IH, app_assoc]. Qed.

Lemma plug_all_app t u v : plug_all t (u ++ v) = plug_all (plug_all t u) v.
Proof. apply fold_left_app. Qed.

Lemma plug_near f t :
  avl (plug f t) →
  avl t ∧ avl (f_sib f) ∧ -1 <= f_balance f <= 1
  ∧ f_balance f = (if f_dir f then height t - height (f_sib f)
                   else height (f_sib f) - height t)
  ∧ f_size f = u32 (count t + 1 + count (f_sib f)).
Proof.
  unfold plug. destruct (f_dir f); simpl; intros (? & ? & ? & ? & ->);
    (split_and!; try done; try lia); f_equal; lia.
Qed.

Lemma height_plug f t : height (plug f t) = 1 + Z.max (height t) (height (f_sib f)).
Proof. unfold plug. destruct (f_dir f); simpl; lia. Qed.

Lemma count_plug f t : count (plug f t) = count t + 1 + count (f_sib f).
Proof. unfold plug. destruct (f_dir f); rewrite count_node; lia. Qed.

Lemma avl_plug_all_inv t path : avl (plug_all t path) → avl t.
Proof.
  revert t. induction path as [|f rest IH]; intros t; [done|].
  intros H%IH. by apply plug_near in H as (? & _).
Qed.

(** the path is no longer than the tree is high *)
Lemma height_plug_all t path :
  Z.of_nat (length path) + height t <= height (plug_all t path).
Proof.
  revert t. induction path as [|f rest IH]; intros t; simpl; [lia|].
  specialize (IH (plug f t)). rewrite height_plug in IH. unfold plug_all in *. lia.
Qed.

Lemma avl_plug f t :
  avl (plug f t) ↔
  avl t ∧ avl (f_sib f) ∧ -1 <= f_balance f <= 1
  ∧ f_balance f = (if f_dir f then height t - height (f_sib f)
                   else height (f_sib f) - height t)
  ∧ f_size f = u32 (count t + 1 + count (f_sib f)).
Proof.
  split; [apply plug_near|]. unfold plug.
  destruct (f_dir f); simpl; intros (? & ? & ? & ? & ->);
    (split_and!; try done; try lia); f_equal; lia.
Qed.

Lemma near_plug f t :
  avl t → avl (f_sib f) →
  f_balance f = (if f_dir f then height t - height (f_sib f)
                 else height (f_sib f) - height t) →
  f_size f = u32 (count t + 1 + count (f_sib f)) →
  near_avl (plug f t) ∧ balance_of (plug f t) = f_balance f.
Proof.
  unfold plug. destruct (f_dir f); simpl; intros ? ? ? ->;
    (split_and!; try done; try lia); f_equal; lia.
Qed.

(** replacing a subtree by one of the same height *)
Lemma avl_plug_all_same d t t' path :
  avl (plug_all t path) → avl t' → height t' = height t → count t' = count t + d →
  avl (plug_all t' (map (resize d) path)).
Proof.
  revert t t'. induction path as [|f rest IH]; intros t t' Hp Ht' Hh Hc; simpl; [done|].
  pose proof (avl_plug_all_inv (plug f t) rest Hp) as Hf.
  apply plug_near in Hf as (Ht & Hs & Hb & Hbe & Hsz).
  apply (IH (plug f t) (plug (resize d f) t')); [done| |..].
  - apply avl_plug. simpl. split_and!; try done; try lia.
    + by rewrite Hbe, Hh.
    + rewrite Hsz, Hc. wrap32.
  - rewrite !height_plug. simpl. lia.
  - rewrite !count_plug. simpl. lia.
Qed.

Lemma avl_plug_all_swap t t' path :
  avl (plug_all t path) → avl t' → height t' = height t → count t' = count t →
  avl (plug_all t' path).
Proof.
  revert t t'. induction path as [|f rest IH]; intros t t' Hp Ht' Hh Hc; simpl; [done|].
  pose proof (avl_plug_all_inv (plug f t) rest Hp) as (Ht & Hs & Hb & Hbe & Hsz)%plug_near.
  apply (IH (plug f t) (plug f t')); [done| |by rewrite !height_plug, Hh|by rewrite !count_plug, Hc].
  apply avl_plug. by rewrite Hh, Hc.
Qed.

Lemma count_elements t t' : elements t = elements t' → count t = count t'.
Proof. unfold count. by intros ->. Qed.

Lemma balance_leaf_kid f t q :
  kid (plug f t) (f_dir f) = Ok q → q = t.
Proof. unfold plug. destruct (f_dir f); simpl; by intros [= ->]. Qed.

(** [t] has grown out of [t0] by one node, and one level *)
Lemma insert_retrace_spec t t0 path :
  avl (plug_all t0 path) → avl t →
  height t = height t0 + 1 → count t = count t0 + 1 →
  balance_of t ≠ 0 ∨ height t = 1 →
  wp (insert_retrace t (map (resize 1) path)) (λ r,
    avl r ∧ elements r = before path ++ elements t ++ after path).
Proof.
  revert t t0. induction path as [|f rest IH]; intros t t0 Hp Ht Hh Hc Hg; simpl.
  { split; [done|by rewrite app_nil_r]. }
  pose proof (avl_plug_all_inv (plug f t0) rest Hp) as Hf.
  apply plug_near in Hf as (Ht0 & Hs & Hb & Hbe & Hsz).
  set (b := if f_dir f then f_balance f + 1 else f_balance f - 1).
  set (f' := Frame (f_dir f) (f_x f) b (u32 (f_size f + 1)) (f_sib f)).
  assert (Hn : near_avl (plug f' t) ∧ balance_of (plug f' t) = b).
  { apply (near_plug f'); simpl; [done..| |].
    - unfold b. destruct (f_dir f); lia.
    - rewrite Hsz, Hc. wrap32. }
  destruct Hn as [Hn Hnb].
  assert (Hel : elements (plug f' t) = elements (plug f t)).
  { by rewrite !elements_plug. }
  pose proof (height_nonneg t0). pose proof (height_nonneg (f_sib f)).
  destruct (Z.eqb_spec (f_balance f) 0) as [E0|E0]; simpl.
  - (* the height grows by one level *)
    assert (Hav : avl (plug f' t)).
    { apply avl_plug. simpl. unfold b. split_and!; [done..|destruct (f_dir f); lia| | |].
      - destruct (f_dir f); lia.
      - destruct (f_dir f); lia.
      - rewrite Hsz, Hc. wrap32. }
    destruct rest as [|g rest]; simpl.
    + apply wp_bind. eapply wp_mono; [apply insert_rebalance_spec; [done|..]|].
      * unfold b in *. rewrite Hnb. destruct (f_dir f); lia.
      * rewrite Hnb. intros ? _ Hq. unfold b in Hq. destruct (f_dir f); lia.
      * intros r (Hr & He & _). simpl. split; [done|].
        rewrite He, Hel, elements_plug. by rewrite app_nil_r, <- ?app_assoc.
    + eapply wp_mono; [apply (IH (plug f' t) (plug f t0)); try done|].
      * rewrite !height_plug. simpl. destruct (f_dir f); lia.
      * rewrite !count_plug. simpl. lia.
      * left. rewrite Hnb. unfold b. destruct (f_dir f); lia.
      * intros r (Hr & He). split; [done|]. rewrite He, Hel, elements_plug.
        simpl. by rewrite <- !app_assoc.
  - (* the deepest unbalanced node: rotate if needed, the height is kept *)
    apply wp_bind. eapply wp_mono; [apply insert_rebalance_spec; [done|..]|].
    + rewrite Hnb. unfold b. destruct (f_dir f); lia.
    + rewrite Hnb. intros q Hq Hb2.
      assert (q = t) as ->.
      { apply (balance_leaf_kid f'). simpl. rewrite <- Hq. f_equal.
        unfold b in *. destruct (f_dir f); lia. }
      destruct Hg as [Hg|Hg]; [done|].
      unfold b in Hb2. destruct (f_dir f); lia.
    + intros r (Hr & He & Hhr). simpl. split.
      * apply (avl_plug_all_same 1 (plug f t0)); [done..| |].
        -- rewrite Hhr, Hnb, !height_plug. simpl. unfold b.
           destruct (f_dir f), (Z.eqb_spec (Z.abs (f_balance f + 1)) 2),
             (Z.eqb_spec (Z.abs (f_balance f - 1)) 2); lia.
        -- rewrite (count_elements _ _ He), !count_plug. simpl. lia.
      * rewrite elements_plug_all, before_resize, after_resize, He, Hel, elements_plug.
        by rewrite <- !app_assoc.
Qed.

(** [t] has shrunk out of [t0] by one node, and one level *)
Lemma erase_retrace_spec t t0 path :
  avl (plug_all t0 path) → avl t →
  height t = height t0 - 1 → count t = count t0 - 1 →
  wp (erase_retrace t (map (resize (-1)) path)) (λ r,
    avl r ∧ elements r = before path ++ elements t ++ after path).
Proof.
  revert t t0. induction path as [|f rest IH]; intros t t0 Hp Ht Hh Hc; simpl.
  { split; [done|by rewrite app_nil_r]. }
  pose proof (avl_plug_all_inv (plug f t0) rest Hp) as Hf.
  apply plug_near in Hf as (Ht0 & Hs & Hb & Hbe & Hsz).
  set (b1 := if f_dir f then -1 else 1).
  set (f' := Frame (f_dir f) (f_x f) (f_balance f + b1) (u32 (f_size f + -1)) (f_sib f)).
  pose proof (height_nonneg t). pose proof (height_nonneg (f_sib f)).
  assert (Hn : near_avl (plug f' t) ∧ balance_of (plug f' t) = f_balance f + b1).
  { apply (near_plug f'); simpl; [done..| |].
    - unfold b1. destruct (f_dir f); lia.
    - rewrite Hsz, Hc. wrap32. }
  destruct Hn as [Hn Hnb].
  assert (Hel : elements (plug f' t) = elements (plug f t)) by by rewrite !elements_plug.
  assert (Hcf : count (plug f' t) = count (plug f t0) + -1).
  { rewrite !count_plug. simpl. lia. }
  assert (Hav : f_balance f + b1 ≠ (if f_dir f then -2 else 2) → avl (plug f' t)).
  { intros Hne. apply avl_plug. simpl. unfold b1 in *.
    split_and!; try done; [destruct (f_dir f); lia..|rewrite Hsz, Hc; wrap32]. }
  assert (Hplug : ∀ r, avl r → elements r = elements (plug f t) →
    height r = height (plug f t0) → avl (plug_all r (map (resize (-1)) rest))
    ∧ elements (plug_all r (map (resize (-1)) rest)) =
      before (f :: rest) ++ elements t ++ after (f :: rest)).
  { intros r Hr He Hhr. split.
    - apply (avl_plug_all_same (-1) (plug f t0)); [done..|].
      rewrite <- Hcf. apply count_elements. by rewrite He, Hel.
    - rewrite elements_plug_all, before_resize, after_resize, He, elements_plug.
      simpl. by rewrite <- !app_assoc. }
  assert (Hcont : ∀ r, avl r → elements r = elements (plug f t) →
    height r = height (plug f t0) - 1 →
    wp (erase_retrace r (map (resize (-1)) rest)) (λ r, avl r ∧
      elements r = before (f :: rest) ++ elements t ++ after (f :: rest))).
  { intros r Hr He Hhr. eapply wp_mono; [apply (IH r (plug f t0)); try done|].
    - rewrite (count_elements r (plug f' t)) by by rewrite He, Hel. lia.
    - intros r' (Hr' & He'). split; [done|]. rewrite He', He, elements_plug.
      simpl. by rewrite <- !app_assoc. }
  pose proof (height_plug f t0) as Hh0. pose proof (height_plug f' t) as Hh1. simpl in Hh1.
  destruct (Z.eqb_spec (f_balance f + b1) b1) as [E1|E1].
  { apply Hplug; [apply Hav|done|];
      unfold b1 in *; destruct (f_dir f); lia. }
  destruct (Z.eqb_spec (f_balance f + b1) (if f_dir f then -2 else 2)) as [E2|E2].
  - apply wp_bind. eapply wp_mono; [apply erase_rebalance_spec; [done|congruence]|].
    intros [r [|]] (Hr & He & Hhr); [apply Hplug|apply Hcont]; try done;
      try (by rewrite He); unfold b1 in *; destruct (f_dir f); lia.
  - apply Hcont; [by apply Hav|done|]. unfold b1 in *. destruct (f_dir f); lia.
Qed.
End rotations.
