(* ===== verification/KavlSpec.v ===== *)
(** * What the AVL tree promises: search, insertion, removal, traversal

    The contents of a tree are its in-order list of elements.  The section
    is parametric in the comparison function and in the probe [x]; what the
    search relies on is that the answers of [cmp x] do not increase along
    the in-order list ([cut]).  Every theorem also shows that the 64-entry
    path arrays of the code are never overrun while the element count fits
    an [unsigned]. *)

From Stdlib Require Import ZArith Lia Bool List.
From stdpp Require Import base tactics list numbers option sorting.
From S2P Require Import Prelude Kavl.

Section depth.
Context {A : Type}.
Implicit Types (t p q r : tree A) (x : A).

Lemma pow_step (b h : Z) : 0 <= h → b ^ (h + 1) = b * b ^ h.
Proof. intros. rewrite Z.pow_add_r, Z.pow_1_r by lia. lia. Qed.

(** an AVL tree of height [h] has at least (3/2)^h - 1 nodes *)
Lemma avl_height_count t : avl t → 3 ^ height t <= 2 ^ height t * (count t + 1).
Proof.
  induction t as [|l IHl x b s r IHr]; [by vm_compute|].
  cbn [avl height]. intros (Hl & Hr & Hb & Hbb & _). rewrite count_node.
  specialize (IHl Hl). specialize (IHr Hr).
  pose proof (height_nonneg l) as Pl. pose proof (height_nonneg r) as Pr.
  assert (Key : ∀ (a c h k m n : Z), 0 <= h → 0 <= m → 0 <= n →
    (h = k ∨ h = k + 1) → 0 <= k → 3 ^ h <= 2 ^ h * (m + 1) →
    3 ^ k <= 2 ^ k * (n + 1) → 3 ^ (1 + h) <= 2 ^ (1 + h) * (m + 1 + n + 1)).
  { intros _ _ h k m n Hh Hm Hn Hhk Hk H1 H2. rewrite Z.add_comm, !pow_step by lia.
    pose proof (Z.pow_pos_nonneg 2 k). pose proof (Z.pow_pos_nonneg 3 k).
    destruct Hhk as [->| ->]; [nia|].
    rewrite !pow_step in * by lia. nia. }
  assert (0 <= count l ∧ 0 <= count r) as [Hcl Hcr] by (unfold count; lia).
  destruct (Z.max_spec (height l) (height r)) as [[? ->]|[? ->]].
  - replace (count l + 1 + count r) with (count r + 1 + count l) by lia.
    apply (Key 0 0 (height r) (height l)); auto; lia.
  - apply (Key 0 0 (height l) (height r)); auto; lia.
Qed.

(** ... so 2^32 nodes stay below 55 levels *)
Lemma avl_height t : avl t → count t < 2 ^ 32 → height t <= 54.
Proof.
  intros Ht Hc. pose proof (avl_height_count t Ht) as Hh.
  pose proof (height_nonneg t) as P0.
  destruct (Z.le_gt_cases (height t) 54) as [|Hgt]; [done|exfalso].
  replace (height t) with (55 + (height t - 55)) in Hh by lia.
  rewrite !Z.pow_add_r in Hh by lia.
  pose proof (Z.pow_pos_nonneg 2 (height t - 55) ltac:(lia) ltac:(lia)) as P2.
  pose proof (Z.pow_le_mono_l 2 3 (height t - 55) ltac:(lia)) as P3.
  assert (3 ^ 55 > 2 ^ 55 * 2 ^ 32) as P4 by by vm_compute.
  assert (count t + 1 <= 2 ^ 32) by lia.
  set (X := 2 ^ (height t - 55)) in *. set (Y := 3 ^ (height t - 55)) in *.
  assert (2 ^ 55 * X * (count t + 1) <= 2 ^ 55 * X * 2 ^ 32) by nia.
  nia.
Qed.
End depth.

Section contents.
Context {A : Type}.
Implicit Types (t p q r : tree A) (x : A).

Lemma depth_ok n : Z.of_nat n < 64 → path_full n = false.
Proof. intros. apply Nat.leb_gt. unfold KAVL_MAX_DEPTH. lia. Qed.

(** *** Unlinking a node *)

Lemma leftmost_spec q d path :
  q ≠ Leaf → Z.of_nat (d + length path) + height q <= 64 →
  wp (leftmost q d path) (λ '(y, r, path'), ∃ b s below,
    path' = below ++ path ∧ before below = []
    ∧ plug_all (Node Leaf y b s r) below = q).
Proof.
  revert path. induction q as [|l IH y b s r _]; intros path Hq Hd; [done|].
  simpl in *. destruct l as [|ll ly lb ls lr].
  { simpl. by exists b, s, []. }
  pose proof (height_nonneg ll). pose proof (height_nonneg lr).
  pose proof (height_nonneg r).
  rewrite depth_ok by (simpl in Hd; lia).
  eapply wp_mono; [apply IH; [done|simpl in *; lia]|].
  intros [[z r'] path'] (b' & s' & below & -> & Hb & Hp).
  exists b', s', (below ++ [Frame false y b s r]). split_and!.
  - by rewrite <- app_assoc.
  - rewrite before_app, Hb. done.
  - rewrite plug_all_app, Hp. done.
Qed.

(** [unlink p path] promises: the node's element with its neighbours, and a
    subtree one level and one node short of some [t0] in an AVL context. *)
Definition unlinked p path (o : A * tree A * list (frame A)) : Prop :=
  let '(x, t, path') := o in ∃ path0 t0 l1 l2,
    path' = map (resize (-1)) path0 ∧ avl (plug_all t0 path0) ∧ avl t
    ∧ height t = height t0 - 1 ∧ count t = count t0 - 1
    ∧ elements p = l1 ++ x :: l2 ∧ (∃ l b s r, p = Node l x b s r ∧ l1 = elements l)
    ∧ before path0 ++ elements t ++ after path0
      = before path ++ (l1 ++ l2) ++ after path.

Lemma unlink_spec p path :
  avl (plug_all p path) → p ≠ Leaf → height (plug_all p path) <= 62 →
  wp (unlink p (map (resize (-1)) path)) (unlinked p path).
Proof.
  intros Hav Hp Hh. destruct p as [|p0 x pb ps p1]; [done|].
  pose proof (height_plug_all (Node p0 x pb ps p1) path) as Hd.
  pose proof (avl_plug_all_inv _ _ Hav) as Hn. cbn [avl] in Hn.
  destruct Hn as (Hp0 & Hp1 & Hpb & Hpbb & Hps).
  pose proof (height_nonneg p0). pose proof (height_nonneg p1).
  assert (Hplace : ∀ z, avl (plug_all (Node p0 z pb ps p1) path)).
  { intros z. apply (avl_plug_all_swap (Node p0 x pb ps p1)); [done|..|done|];
      [by cbn [avl]|by rewrite !count_node]. }
  unfold unlink. rewrite length_map.
  destruct p1 as [|q0 y qb qs q1].
  { exists path, (Node p0 x pb ps Leaf), (elements p0), [].
    rewrite count_node. split_and!; try done; simpl in *;
      rewrite ?app_nil_r; try done;
      [lia|unfold count; simpl; lia|by repeat eexists]. }
  cbn [height] in Hd, Hpb. pose proof (height_nonneg q0). pose proof (height_nonneg q1).
  rewrite depth_ok by lia.
  destruct q0 as [|a c d e f] eqn:Eq0.
  - (* the right child itself takes the place of [p] *)
    exists (Frame true y pb ps p0 :: path), (Node Leaf y qb qs q1),
      (elements p0), (y :: elements q1).
    split_and!; try done; [apply Hplace| | | |by repeat eexists|].
    + cbn [avl] in Hp1. naive_solver.
    + cbn [avl height] in *. lia.
    + rewrite count_node. unfold count at 2. simpl. lia.
    + simpl. by rewrite <- !app_assoc.
  - (* the first node of the right subtree takes the place of [p] *)
    set (q := Node (Node a c d e f) y qb qs q1) in *.
    apply wp_bind. eapply wp_mono; [apply leftmost_spec; [done|]|].
    { simpl length. unfold q. cbn [height] in *. lia. }
    intros [[z r1] below] (zb & zs & below0 & -> & Hbf & Hq). rewrite app_nil_r.
    exists (below0 ++ Frame true z pb ps p0 :: path), (Node Leaf z zb zs r1),
      (elements p0), (elements q).
    assert (Hin : avl (plug_all (Node Leaf z zb zs r1) below0)) by by rewrite Hq.
    apply avl_plug_all_inv in Hin. cbn [avl height] in Hin.
    split_and!; try done; [| |naive_solver|..|by repeat eexists|].
    + by rewrite map_app.
    + rewrite plug_all_app, Hq. apply Hplace.
    + pose proof (height_nonneg r1). simpl. lia.
    + rewrite count_node. unfold count at 2. simpl. lia.
    + assert (Eq : elements q = z :: elements r1 ++ after below0).
      { rewrite <- Hq, elements_plug_all, Hbf. done. }
      rewrite before_app, after_app, Hbf, Eq. cbn [before after f_dir f_sib f_x].
      by rewrite ?app_nil_r, <- ?app_assoc; simpl; rewrite <- ?app_assoc.
Qed.

(** *** Removal at a path *)
Lemma erase_at_spec p path :
  avl (plug_all p path) → p ≠ Leaf → height (plug_all p path) <= 62 →
  wp (erase_at path p) (λ '(root, x), avl root ∧ ∃ l b s r,
    p = Node l x b s r ∧ ∃ l1 l2, elements (plug_all p path) = l1 ++ x :: l2
    ∧ elements root = l1 ++ l2).
Proof.
  intros Hav Hp Hh. unfold erase_at. wp_use unlink_spec; try done.
  intros [[x t] path'] (path0 & t0 & l1 & l2 & -> & Hav0 & Ht & Hht & Hct & Hel & Hnode & Hctx).
  wp_use erase_retrace_spec; try done.
  intros root (Hroot & He). simpl. split; [done|].
  destruct Hnode as (l & b & s & r & -> & ->). exists l, b, s, r. split; [done|].
  exists (before path ++ elements l), (l2 ++ after path).
  rewrite elements_plug_all, Hel, He, Hctx. by rewrite <- !app_assoc.
Qed.
End contents.

(** ** Searching

    [cmp x y] answers [c x y] on valid elements. *)
Section search.
Context {A : Type}.
Variables (cmp : A → A → res Z) (c : A → A → Z) (valid : A → Prop).
Hypothesis cmp_c : ∀ x y, valid x → valid y → cmp x y = Ok (c x y).
Implicit Types (t p q r : tree A) (x y : A).

(** along the list, the answers go from positive over zero to negative *)
Definition cut x (l : list A) : Prop :=
  StronglySorted (λ a b, (c x a <= 0 → c x b <= 0) ∧ (c x a < 0 → c x b < 0)) l.

Lemma cut_split x l1 y l2 :
  cut x (l1 ++ y :: l2) →
  cut x l1 ∧ cut x l2
  ∧ (0 < c x y → Forall (λ a, 0 < c x a) l1)
  ∧ (c x y < 0 → Forall (λ b, c x b < 0) l2).
Proof.
  unfold cut. rewrite StronglySorted_app. intros (Hall & H1 & H2).
  apply StronglySorted_inv in H2 as [H2 Hy]. split_and!; [done..| |].
  - intros Hpos. apply Forall_forall. intros a Ha.
    destruct (Hall a y Ha ltac:(by left)). lia.
  - intros Hneg. eapply Forall_impl; [exact Hy|]. naive_solver.
Qed.

Lemma kavl_find_spec t x :
  valid x → Forall valid (elements t) → cut x (elements t) →
  wp (kavl_find cmp t x) (λ o, match o with
    | Some y => y ∈ elements t ∧ c x y = 0
    | None => Forall (λ y, c x y ≠ 0) (elements t) end).
Proof.
  intros Hx. induction t as [|l IHl y b s r IHr]; simpl; intros Hv Hcut; [done|].
  apply Forall_app in Hv as [Hl [Hy Hr]%Forall_cons].
  destruct (cut_split _ _ _ _ Hcut) as (Hcl & Hcr & Hpos & Hneg).
  rewrite cmp_c by done. bstep.
  destruct (Z.ltb_spec (c x y) 0); [|destruct (Z.ltb_spec 0 (c x y))].
  - eapply wp_mono; [by apply IHl|]. intros [z|].
    + intros [? ?]. split; [apply elem_of_app; by left|done].
    + intros ?. apply Forall_app. split; [done|]. constructor; [lia|].
      eapply Forall_impl; [by apply Hneg|]. simpl. lia.
  - eapply wp_mono; [by apply IHr|]. intros [z|].
    + intros [? ?]. split; [apply elem_of_app; right; by right|done].
    + intros ?. apply Forall_app. split; [|constructor; [lia|done]].
      eapply Forall_impl; [by apply Hpos|]. simpl. lia.
  - split; [apply elem_of_app; right; left|lia].
Qed.

Lemma insert_path_spec t x path :
  valid x → Forall valid (elements t) → cut x (elements t) →
  Z.of_nat (length path) + height t <= 64 →
  wp (insert_path cmp t x path) (λ o, match o with
    | inl y => y ∈ elements t ∧ c x y = 0
    | inr path' => plug_all Leaf path' = plug_all t path
        ∧ ∃ l1 l2, elements t = l1 ++ l2
          ∧ before path' = before path ++ l1 ∧ after path' = l2 ++ after path
          ∧ Forall (λ y, 0 < c x y) l1 ∧ Forall (λ y, c x y < 0) l2 end).
Proof.
  intros Hx. revert path.
  induction t as [|l IHl y b s r IHr]; simpl; intros path Hv Hcut Hd.
  { split; [done|]. exists [], []. split_and!; rewrite ?app_nil_r; done. }
  apply Forall_app in Hv as [Hl [Hy Hr]%Forall_cons].
  destruct (cut_split _ _ _ _ Hcut) as (Hcl & Hcr & Hpos & Hneg).
  pose proof (height_nonneg l). pose proof (height_nonneg r).
  rewrite cmp_c by done. bstep.
  destruct (Z.eqb_spec (c x y) 0) as [E|E].
  { split; [apply elem_of_app; right; left|done]. }
  rewrite depth_ok by lia.
  destruct (Z.ltb_spec 0 (c x y)).
  - eapply wp_mono; [apply IHr; [done..|simpl length; lia]|]. intros [z|path'].
    + intros [? ?]. split; [apply elem_of_app; right; by right|done].
    + intros (Hp & l1 & l2 & He & Hb & Ha & Hf1 & Hf2). split; [by rewrite Hp|].
      exists (elements l ++ y :: l1), l2. split_and!.
      * by rewrite He, <- app_assoc.
      * rewrite Hb. simpl. by rewrite <- !app_assoc.
      * done.
      * apply Forall_app. split; [by apply Hpos|by constructor].
      * done.
  - eapply wp_mono; [apply IHl; [done..|simpl length; lia]|]. intros [z|path'].
    + intros [? ?]. split; [apply elem_of_app; by left|done].
    + intros (Hp & l1 & l2 & He & Hb & Ha & Hf1 & Hf2). split; [by rewrite Hp|].
      exists l1, (l2 ++ y :: elements r). split_and!.
      * by rewrite He, <- app_assoc.
      * rewrite Hb. simpl. by rewrite app_nil_r.
      * rewrite Ha. simpl. by rewrite <- !app_assoc.
      * done.
      * apply Forall_app. split; [done|]. constructor; [lia|]. apply Hneg. lia.
Qed.

Lemma erase_path_spec t x path :
  valid x → Forall valid (elements t) → cut x (elements t) →
  Z.of_nat (length path) + height t <= 62 →
  wp (erase_path cmp t x path) (λ o, match o with
    | None => Forall (λ y, c x y ≠ 0) (elements t)
    | Some (path', p) => plug_all p path' = plug_all t path
        ∧ ∃ l y b s r, p = Node l y b s r ∧ c x y = 0 end).
Proof.
  intros Hx. revert path.
  induction t as [|l IHl y b s r IHr]; simpl; intros path Hv Hcut Hd; [done|].
  apply Forall_app in Hv as [Hl [Hy Hr]%Forall_cons].
  destruct (cut_split _ _ _ _ Hcut) as (Hcl & Hcr & Hpos & Hneg).
  pose proof (height_nonneg l). pose proof (height_nonneg r).
  rewrite cmp_c by done. bstep.
  destruct (Z.eqb_spec (c x y) 0) as [E|E]; [by split; repeat eexists|].
  rewrite depth_ok by lia.
  destruct (Z.ltb_spec 0 (c x y)).
  - eapply wp_mono; [apply IHr; [done..|simpl length; lia]|]. intros [[path' p]|]; [done|].
    intros ?. apply Forall_app. split; [|constructor; [lia|done]].
    eapply Forall_impl; [by apply Hpos|]. simpl. lia.
  - eapply wp_mono; [apply IHl; [done..|simpl length; lia]|]. intros [[path' p]|]; [done|].
    intros ?. apply Forall_app. split; [done|]. constructor; [lia|].
    eapply Forall_impl; [apply Hneg; lia|]. simpl. lia.
Qed.

Lemma first_path_spec t path :
  t ≠ Leaf → Z.of_nat (length path) + height t <= 62 →
  wp (first_path t path) (λ '(path', p), plug_all p path' = plug_all t path
    ∧ before path' = before path ∧ ∃ y b s r, p = Node Leaf y b s r).
Proof.
  revert path. induction t as [|l IHl y b s r _]; simpl; intros path Ht Hd; [done|].
  pose proof (height_nonneg l). pose proof (height_nonneg r).
  rewrite depth_ok by lia. destruct l as [|ll ly lb ls lr].
  { by split_and!; repeat eexists. }
  eapply wp_mono; [apply IHl; [done|simpl length; lia]|].
  intros [path' p] (Hp & Hb & Hn). split_and!; [done| |done].
  rewrite Hb. simpl. by rewrite app_nil_r.
Qed.

(** *** The three operations on a whole tree *)

Definition fits t : Prop := avl t ∧ count t < 2 ^ 32.

Lemma kavl_insert_spec t x :
  fits t → valid x → Forall valid (elements t) → cut x (elements t) →
  wp (kavl_insert cmp t x) (λ '(t', o), match o with
    | Some y => t' = t ∧ y ∈ elements t ∧ c x y = 0
    | None => avl t' ∧ ∃ l1 l2, elements t = l1 ++ l2 ∧ elements t' = l1 ++ x :: l2
        ∧ Forall (λ y, 0 < c x y) l1 ∧ Forall (λ y, c x y < 0) l2 end).
Proof.
  intros [Ht Hct] Hx Hv Hcut. pose proof (avl_height t Ht Hct). unfold kavl_insert.
  wp_use insert_path_spec; [done..|simpl; lia|]. intros [y|path].
  { intros [? ?]. done. }
  intros (Hp & l1 & l2 & He & Hb & Ha & Hf1 & Hf2). simpl in Hp.
  wp_use (insert_retrace_spec _ Leaf); [by rewrite Hp|done..|by right|].
  intros r (Hr & Her). split; [done|]. exists l1, l2. split; [done|].
  by rewrite Her, Hb, Ha, app_nil_r.
Qed.

Lemma kavl_erase_spec t x :
  fits t → valid x → Forall valid (elements t) → cut x (elements t) →
  wp (kavl_erase cmp t x) (λ '(t', o), match o with
    | None => t' = t ∧ Forall (λ y, c x y ≠ 0) (elements t)
    | Some y => avl t' ∧ c x y = 0 ∧ ∃ l1 l2,
        elements t = l1 ++ y :: l2 ∧ elements t' = l1 ++ l2 end).
Proof.
  intros [Ht Hct] Hx Hv Hcut. pose proof (avl_height t Ht Hct). unfold kavl_erase.
  wp_use erase_path_spec; [done..|simpl; lia|]. intros [[path p]|]; [|done].
  intros (Hp & l & y & b & s & r & -> & Hxy). simpl in Hp.
  wp_use erase_at_spec; rewrite ?Hp; [done..|lia|].
  intros [root z] (Hroot & l' & b' & s' & r' & [= -> -> -> -> ->] & l1 & l2 & He & Hr).
  split_and!; [done..|]. by exists l1, l2.
Qed.

Lemma kavl_erase_first_spec t :
  fits t → t ≠ Leaf →
  wp (kavl_erase_first t) (λ '(t', y), avl t' ∧ elements t = y :: elements t').
Proof.
  intros [Ht Hct] Hne. pose proof (avl_height t Ht Hct). unfold kavl_erase_first.
  wp_use first_path_spec; [done|simpl; lia|]. intros [path p] (Hp & Hb & y & b & s & r & ->).
  simpl in Hp. unfold erase_at.
  wp_use unlink_spec; rewrite ?Hp; [done..|lia|].
  intros [[z t'] path'] (path0 & t0 & l1 & l2 & -> & Hav0 & Ht' & Hht & Hct' & Hel & Hnode & Hctx).
  wp_use erase_retrace_spec; try done. intros root (Hroot & He). simpl. split; [done|].
  destruct Hnode as (? & ? & ? & ? & [= <- <- <- <- <-] & ->).
  rewrite He, Hctx, Hb, <- Hp, elements_plug_all, Hb. simpl in *.
  injection Hel as ->. done.
Qed.
End search.

(** ** Traversal *)
Section traversal.
Context {A : Type}.
Implicit Types (t r : tree A) (st : list (tree A)).

(** what is still to be visited: the stack's nodes with their right children *)
Fixpoint rest_of st : list A :=
  match st with
  | [] => []
  | Leaf :: st => rest_of st
  | Node _ x _ _ r :: st => x :: elements r ++ rest_of st
  end.

(** every stack entry leaves room for the left spine of its right child *)
Fixpoint stack_ok st : Prop :=
  match st with
  | [] => True
  | Leaf :: _ => False
  | Node _ _ _ _ r :: st => Z.of_nat (length st) + height r <= 62 ∧ stack_ok st
  end.

Definition itr_ok (itr : kavl_itr) : Prop :=
  stack_ok (stack itr)
  ∧ match stack itr with Node _ _ _ _ r :: _ => right itr = r | _ => False end.

Lemma push_lefts_spec t st :
  Z.of_nat (length st) + height t <= 62 → stack_ok st →
  wp (push_lefts t st) (λ st', stack_ok st' ∧ rest_of st' = elements t ++ rest_of st).
Proof.
  revert st. induction t as [|l IHl x b s r _]; simpl; intros st Hd Hok; [done|].
  pose proof (height_nonneg l). pose proof (height_nonneg r). rewrite depth_ok by lia.
  eapply wp_mono; [apply IHl; simpl; [lia|split; [lia|done]]|].
  intros st' (Hok' & Hr). split; [done|]. rewrite Hr. simpl. by rewrite <- app_assoc.
Qed.

Lemma kavl_itr_first_spec t :
  t ≠ Leaf → height t <= 62 →
  wp (kavl_itr_first t) (λ itr, itr_ok itr ∧ rest_of (stack itr) = elements t).
Proof.
  intros Ht Hd. unfold kavl_itr_first. wp_use push_lefts_spec; [simpl; lia|done|].
  intros [|[|l x b s r] st] (Hok & Hr); rewrite app_nil_r in Hr.
  - destruct t as [|tl ? ? ? ?]; [done|]. simpl in Hr. by destruct (elements tl).
  - done.
  - simpl. done.
Qed.

Lemma kavl_at_spec itr : itr_ok itr →
  ∃ x, kavl_at itr = Some x ∧ head (rest_of (stack itr)) = Some x.
Proof. destruct itr as [[|[|l x b s r] st] rt]; intros [? ?]; try done. by exists x. Qed.

Lemma kavl_itr_next_spec itr : itr_ok itr →
  wp (kavl_itr_next itr) (λ o,
    let l := tail (rest_of (stack itr)) in
    match o with None => l = [] | Some i => itr_ok i ∧ rest_of (stack i) = l end).
Proof.
  destruct itr as [[|[|l x b s r] st] rt]; intros [Hok Hrt]; try done. simpl in *. subst rt.
  unfold kavl_itr_next. simpl. wp_use push_lefts_spec; [lia|tauto|].
  intros [|[|l' x' b' s' r'] st'] (Hok' & Hr); simpl in *; done.
Qed.
End traversal.

(** ** Refinement: the tree is a sorted list *)
Section refinement.
Context {A : Type}.
Variables (cmp : A → A → res Z) (c : A → A → Z).
Implicit Types (t : tree A) (l : list A) (x y : A).

Inductive op : Type := Insert (x : A) | Erase (x : A) | EraseFirst | Find (x : A).

(** one call on the tree: the root after it, and what it returns (for an
    insertion: the node already there) *)
Definition tree_op t (o : op) : res (tree A * option A) :=
  match o with
  | Insert x => kavl_insert cmp t x
  | Erase x => kavl_erase cmp t x
  | EraseFirst =>
      match t with
      | Leaf => Ok (t, None)
      | _ => '(t, x) ← kavl_erase_first t; Ok (t, Some x)
      end
  | Find x => o ← kavl_find cmp t x; Ok (t, o)
  end.

Fixpoint tree_ops t (os : list op) : res (tree A * list (option A)) :=
  match os with
  | [] => Ok (t, [])
  | o :: os =>
      '(t, r) ← tree_op t o; '(t, rs) ← tree_ops t os; Ok (t, r :: rs)
  end.

(** the same on a sorted list *)
Definition same x y : bool := c x y =? 0.
Definition list_op l (o : op) : list A * option A :=
  match o with
  | Insert x =>
      match List.find (same x) l with
      | Some y => (l, Some y)
      | None => (List.filter (λ y, 0 <? c x y) l ++ x :: List.filter (λ y, c x y <? 0) l, None)
      end
  | Erase x =>
      match List.find (same x) l with
      | Some y => (List.filter (λ y, negb (same x y)) l, Some y)
      | None => (l, None)
      end
  | EraseFirst => (tail l, head l)
  | Find x => (l, List.find (same x) l)
  end.

Fixpoint list_ops l (os : list op) : list A * list (option A) :=
  match os with
  | [] => (l, [])
  | o :: os =>
      let '(l, r) := list_op l o in
      let '(l, rs) := list_ops l os in (l, r :: rs)
  end.

(** [cmp] is a total order, of which [c] tells the answers *)
Record total_order : Prop := TotalOrder {
  to_cmp : ∀ x y, cmp x y = Ok (c x y);
  to_flip : ∀ x y, c x y < 0 ↔ 0 < c y x;
  to_trans : ∀ x y z, c x y <= 0 → c y z < 0 → c x z < 0
}.

Definition sorted l : Prop := StronglySorted (λ a b, c a b < 0) l.

Hypothesis Hto : total_order.

Lemma sorted_cut x l : sorted l → cut c x l.
Proof.
  induction 1 as [|a l Hs IH Ha]; constructor; [done|].
  eapply Forall_impl; [exact Ha|]. intros b Hab; simpl in *.
  split; intros H; pose proof (to_trans Hto x a b); lia.
Qed.

Lemma find_same_none x l : Forall (λ y, c x y ≠ 0) l → List.find (same x) l = None.
Proof.
  induction 1 as [|y l Hy _ IH]; [done|]. simpl. unfold same at 1.
  by rewrite (proj2 (Z.eqb_neq _ _)) by done.
Qed.

Lemma sorted_split l1 y l2 x : sorted (l1 ++ y :: l2) → c x y = 0 →
  Forall (λ a, 0 < c x a) l1 ∧ Forall (λ b, c x b < 0) l2.
Proof.
  intros (Hall & H1 & [H2 Hy]%StronglySorted_inv)%StronglySorted_app Hxy.
  rewrite !Forall_forall in *. split.
  - intros a Ha. specialize (Hall a y Ha ltac:(by left)).
    pose proof (to_trans Hto x a y). lia.
  - intros b Hb. apply (to_trans Hto x y b); [lia|]. by apply Hy.
Qed.

Lemma find_same_some l1 y l2 x :
  sorted (l1 ++ y :: l2) → c x y = 0 →
  List.find (same x) (l1 ++ y :: l2) = Some y
  ∧ List.filter (λ y, negb (same x y)) (l1 ++ y :: l2) = l1 ++ l2.
Proof.
  intros Hs Hxy. destruct (sorted_split _ _ _ _ Hs Hxy) as [H1 H2]. split.
  - clear Hs H2. induction H1 as [|a l1 Ha _ IH]; simpl; unfold same at 1.
    + by rewrite (proj2 (Z.eqb_eq _ _)).
    + by rewrite (proj2 (Z.eqb_neq _ _)) by lia.
  - rewrite List.filter_app. simpl. unfold same at 2.
    rewrite (proj2 (Z.eqb_eq _ _)) by done. simpl.
    assert (Hid : ∀ l, Forall (λ b, c x b ≠ 0) l → List.filter (λ y, negb (same x y)) l = l).
    { induction 1 as [|b l Hb _ IH]; [done|]. simpl. unfold same at 1.
      rewrite (proj2 (Z.eqb_neq _ _)) by done. simpl. by rewrite IH. }
    rewrite !Hid; [done|eapply Forall_impl; [exact H2|]|eapply Forall_impl; [exact H1|]];
      simpl; lia.
Qed.

Lemma filter_cut l1 l2 x :
  Forall (λ y, 0 < c x y) l1 → Forall (λ y, c x y < 0) l2 →
  List.filter (λ y, 0 <? c x y) (l1 ++ l2) = l1
  ∧ List.filter (λ y, c x y <? 0) (l1 ++ l2) = l2.
Proof.
  intros H1 H2. rewrite !List.filter_app.
  assert (Hk : ∀ (f : A → bool) l, Forall (λ y, f y = true) l → List.filter f l = l).
  { induction 1 as [|y l Hy _ IH]; simpl; [done|by rewrite Hy, IH]. }
  assert (Hd : ∀ (f : A → bool) l, Forall (λ y, f y = false) l → List.filter f l = []).
  { induction 1 as [|y l Hy _ IH]; simpl; [done|by rewrite Hy, IH]. }
  rewrite (Hk _ l1), (Hd _ l2), (Hd _ l1), (Hk _ l2), app_nil_r; [done|..];
    (eapply Forall_impl; [eassumption|]); simpl; lia.
Qed.

(** the relation of the simulation *)
Definition refines t l : Prop := avl t ∧ elements t = l ∧ sorted l.

Lemma sorted_insert l1 l2 x :
  sorted (l1 ++ l2) → Forall (λ y, 0 < c x y) l1 → Forall (λ y, c x y < 0) l2 →
  sorted (l1 ++ x :: l2).
Proof.
  intros (Hall & Hs1 & Hs2)%StronglySorted_app H1 H2.
  rewrite Forall_forall in H1. apply StronglySorted_app. split_and!.
  - intros a b Ha [->|Hb]%elem_of_cons; [|by apply Hall].
    pose proof (to_flip Hto a x). specialize (H1 a Ha). lia.
  - done.
  - by constructor.
Qed.

Lemma sorted_remove l1 y l2 : sorted (l1 ++ y :: l2) → sorted (l1 ++ l2).
Proof.
  intros (Hall & Hs1 & [Hs2 _]%StronglySorted_inv)%StronglySorted_app.
  apply StronglySorted_app. split_and!; [|done..].
  intros a b Ha Hb. apply Hall; [done|by right].
Qed.

Lemma tree_op_refines t l o :
  refines t l → count t < 2 ^ 32 →
  wp (tree_op t o) (λ '(t', r),
    refines t' (list_op l o).1 ∧ r = (list_op l o).2
    ∧ count t' <= count t + 1).
Proof.
  intros (Ht & <- & Hs) Hf.
  assert (Hv : Forall (λ _ : A, True) (elements t)) by by apply Forall_forall.
  assert (Hc : ∀ x y, True → True → cmp x y = Ok (c x y)) by (intros; apply Hto).
  assert (Hex : ∀ y x, y ∈ elements t → c x y = 0 → ∃ l1 l2, elements t = l1 ++ y :: l2).
  { intros y x Hy _. by apply list_elem_of_split. }
  destruct o as [x|x| |x]; simpl.
  - eapply wp_mono; [by apply (kavl_insert_spec cmp c _ Hc); [..|apply sorted_cut]|].
    intros [t' [y|]].
    + intros (-> & Hy & Hxy). destruct (Hex y x Hy Hxy) as (l1 & l2 & He).
      pose proof Hs as Hs'. rewrite He in Hs'.
      assert (List.find (same x) (elements t) = Some y) as ->.
      { rewrite He. by apply find_same_some. }
      simpl. split_and!; try done. lia.
    + intros (Ht' & l1 & l2 & He & He' & H1 & H2).
      destruct (filter_cut _ _ _ H1 H2) as [E1 E2].
      assert (count t' = count t + 1).
      { unfold count. rewrite He, He', !length_app. simpl. lia. }
      rewrite He in *. rewrite find_same_none; simpl.
      * rewrite E1, E2. split_and!; try done; [|lia].
        split_and!; try done. by apply sorted_insert.
      * apply Forall_app. split; eapply Forall_impl; try eassumption; simpl; lia.
  - eapply wp_mono; [by apply (kavl_erase_spec cmp c _ Hc); [..|apply sorted_cut]|].
    intros [t' [y|]].
    + intros (Ht' & Hxy & l1 & l2 & He & He').
      assert (count t = count t' + 1).
      { unfold count. rewrite He, He', !length_app. simpl. lia. }
      rewrite He in *. destruct (find_same_some _ _ _ _ Hs Hxy) as [-> ->]. simpl.
      split_and!; try done; [|lia].
      split_and!; try done. by eapply sorted_remove.
    + intros [-> Hno]. rewrite find_same_none by done. simpl. split_and!; try done. lia.
  - destruct t as [|tl x b s tr] eqn:E; [by split_and!|]. rewrite <- E in *.
    wp_use kavl_erase_first_spec; [done|by rewrite E|]. intros [t' y] [Ht' He]. simpl.
    rewrite He in *. simpl. apply StronglySorted_inv in Hs as [Hs _].
    split_and!; try done. unfold count. rewrite He. simpl. lia.
  - wp_use (kavl_find_spec cmp c _ Hc); [done|done|by apply sorted_cut|].
    intros [y|]; simpl.
    + intros [Hy Hxy]. destruct (Hex y x Hy Hxy) as (l1 & l2 & He).
      pose proof Hs as Hs'. rewrite He in Hs'. split_and!; try done; [|lia].
      rewrite He. by rewrite (proj1 (find_same_some _ _ _ _ Hs' Hxy)).
    + intros Hno. split_and!; try done; [|lia]. by rewrite find_same_none.
Qed.

Lemma tree_ops_refines t l os :
  refines t l → count t + Z.of_nat (length os) < 2 ^ 32 →
  wp (tree_ops t os) (λ '(t', rs),
    refines t' (list_ops l os).1 ∧ rs = (list_ops l os).2).
Proof.
  revert t l. induction os as [|o os IH]; intros t l Hr Hf; simpl in *; [done|].
  wp_use tree_op_refines; [done|lia|]. intros [t' r] (Hr' & -> & Hc).
  wp_use IH; [done|lia|]. intros [t'' rs] (Hr'' & ->). simpl.
  destruct (list_op l o) as [l' r]. simpl in *.
  by destruct (list_ops l' os) as [l'' rs].
Qed.
End refinement.

(** C1: Every sequence of calls on a tree that starts empty - insertions,
    removals, removals of the first node, searches - runs without touching
    memory out of bounds, returns what the same calls return on a sorted
    list, and leaves an AVL tree holding that list: balance factors and
    sizes are right in every node, and the height is logarithmic
    ((3/2)^height <= nodes + 1). *)
Theorem kavl_refines_sorted_list {A} (cmp : A → A → res Z) (c : A → A → Z)
    (os : list op) :
  total_order cmp c → Z.of_nat (length os) < 2 ^ 32 →
  wp (tree_ops cmp Leaf os) (λ '(t, rs),
    elements t = (list_ops c [] os).1 ∧ rs = (list_ops c [] os).2
    ∧ sorted c (elements t) ∧ avl t
    ∧ 3 ^ height t <= 2 ^ height t * (count t + 1)).
Proof.
  intros Hto Hlen. eapply wp_mono.
  - apply (tree_ops_refines cmp c Hto Leaf []); [|by simpl; unfold count; simpl; lia].
    split_and!; [done..|constructor].
  - intros [t rs] [(Ht & He & Hs) Hr]. rewrite He.
    split_and!; [done..|by apply avl_height_count].
Qed.

Lemma kavl_refines_sorted_list_witness :
  let cmp x y := Ok (x - y) in
  let os := map Insert [5; 3; 8; 1; 4; 7; 9; 2; 6; 2] ++ [Erase 5; Find 4; Erase 5; EraseFirst] in
  wp (tree_ops cmp Leaf os) (λ '(t, rs),
    elements t = [2; 3; 4; 6; 7; 8; 9]
    ∧ rs = repeat None 9 ++ [Some 2; Some 5; Some 4; None; Some 1]).
Proof.
  intros cmp os. eapply wp_mono.
  - apply (kavl_refines_sorted_list cmp Z.sub os); [|by vm_compute].
    split; [done|intros; lia|intros; lia].
  - intros [t rs] (He & Hr & _). split; [by rewrite He|by rewrite Hr].
Defined.
