(* ===== verification/MPool.v ===== *)
(** * Pools of addresses and host names (native/byedpi/mpool.c, mpool.h)

    A pool is an AVL tree of [elem]s under one of three comparisons: bit
    strings (address prefixes), byte strings, and host names compared from
    the end.  In the first and the last an element "equals" every element it
    covers.  [struct elem] and [struct elem_ex] are prefixes of
    [struct elem_i], so one record stands for the three; [calloc] zeroes the
    fields a pool does not use.

    [mem_add] and [mem_delete] also return the elements they free, so that
    the ownership of elements can be stated.  Whether [calloc] succeeds is
    an argument.  A pointer the code keeps to an element and writes through
    is modelled by [elem_write]. *)

From Stdlib Require Import ZArith Lia Bool List.
From Stdlib Require Import Strings.Byte Strings.Ascii Strings.String.
From stdpp Require Import base tactics list numbers option.
From S2P Require Import Prelude CMem Kavl.

Definition CMP_BYTES : Z := 0.
Definition CMP_BITS : Z := 1.
Definition CMP_HOST : Z := 2.
Definition MF_STATIC : Z := 1.
Definition MF_EXTRA : Z := 2.

Definition AF_INET : Z := 2.
Definition AF_INET6 : Z := 10.

Record elem : Type := Elem {
  el_len : Z; el_data : mem; el_cmp_type : Z;
  el_extra_len : Z; el_extra : option mem;
  el_dp_mask : Z; el_dp : option nat; el_detect : Z; el_time : Z
}.
#[export] Instance elem_eta : Eta elem := λ e,
  Elem (el_len e) (el_data e) (el_cmp_type e) (el_extra_len e) (el_extra e)
    (el_dp_mask e) (el_dp e) (el_detect e) (el_time e).

Record mphdr : Type := Mphdr {
  h_flags : Z; h_cmp_type : Z; h_count : Z; h_root : tree elem
}.
#[export] Instance mphdr_eta : Eta mphdr := λ h,
  Mphdr (h_flags h) (h_cmp_type h) (h_count h) (h_root h).

Section mpool.
Context {cm : CharModel}.
Implicit Types (p q e v : elem) (hdr : mphdr).

(** ** Comparisons *)

(** [data[bytes] >> (8 - df)] of a plain [char], as [uint8_t] *)
Definition top_bits (b : byte) (df : Z) : Z := u8 (Z.shiftr (chr b) (8 - df)).

Definition bit_cmp p q : res Z :=
  let len := if el_len q <? el_len p then el_len q else el_len p in
  let df := Z.rem len 8 in
  let bytes := Z.quot len 8 in
  cmp ← memcmp (el_data p) 0 (el_data q) 0 bytes;
  if negb (cmp =? 0) || (df =? 0) then Ok cmp else
  b1 ← rd (el_data p) bytes;
  b2 ← rd (el_data q) bytes;
  let c1 := top_bits b1 df in
  let c2 := top_bits b2 df in
  if negb (c1 =? c2) then Ok (if c1 <? c2 then -1 else 1) else Ok 0.

Definition byte_cmp p q : res Z :=
  if negb (el_len p =? el_len q) then Ok (if el_len p <? el_len q then -1 else 1)
  else memcmp (el_data p) 0 (el_data q) 0 (el_len p).

(** one pass of the backward loop: [pd], [qd] after the decrements *)
Definition host_step p q (s : Z * Z * Z) : res (Z * Z * Z + option Z) :=
  let '(len, pd, qd) := s in
  if 0 <? len then
    let pd := pd - 1 in
    let qd := qd - 1 in
    a ← rd (el_data p) pd;
    b ← rd (el_data q) qd;
    if negb (chr a =? chr b)
    then Ok (inr (Some (if chr a <? chr b then -1 else 1)))
    else Ok (inl (len - 1, pd, qd))
  else Ok (inr None).

Definition host_cmp p q : res Z :=
  let len := if el_len q <? el_len p then el_len q else el_len p in
  r ← loop (Datatypes.S (Z.to_nat len)) (host_step p q) (len, el_len p, el_len q);
  match r with
  | Some d => Ok d
  | None =>
      if el_len p =? el_len q then Ok 0 else
      c ← (if el_len q <? el_len p then rd (el_data p) (el_len p - len - 1)
           else rd (el_data q) (el_len q - len - 1));
      if chr c =? ch "." then Ok 0
      else Ok (if el_len q <? el_len p then 1 else -1)
  end.

Definition scmp p q : res Z :=
  if el_cmp_type p =? CMP_BITS then bit_cmp p q
  else if el_cmp_type p =? CMP_HOST then host_cmp p q
  else byte_cmp p q.

(** ** Pools *)

Definition mem_pool (flags cmp_type : Z) : mphdr := Mphdr flags cmp_type 0 Leaf.

(** a fresh, zeroed element *)
Definition new_elem (cmp_type : Z) (str : mem) (len : Z) : elem :=
  Elem len str cmp_type 0 None 0 None 0 0.

Definition mem_get hdr (str : mem) (len : Z) : res (option elem) :=
  kavl_find scmp (h_root hdr) (new_elem (h_cmp_type hdr) str len).

Definition mem_delete hdr (str : mem) (len : Z) : res (mphdr * list elem) :=
  '(root, e) ← kavl_erase scmp (h_root hdr) (new_elem (h_cmp_type hdr) str len);
  match e with
  | None => Ok (hdr <| h_root := root |>, [])
  | Some e => Ok (hdr <| h_root := root |> <| h_count := u64 (h_count hdr - 1) |>, [e])
  end.

(** [while (e != v && e->len < v->len)]: the pool, the element in the
    tree ([None]: [e] itself), what was freed *)
Definition mem_add_step e (s : mphdr * option elem * list elem)
  : res (mphdr * option elem * list elem + mphdr * option elem * list elem) :=
  let '(hdr, v, freed) := s in
  match v with
  | Some v' =>
      if el_len e <? el_len v' then
        '(hdr, gone) ← mem_delete hdr (el_data v') (el_len v');
        '(root, v) ← kavl_insert scmp (h_root hdr) e;
        Ok (inl (hdr <| h_root := root |>, v, gone ++ freed))
      else Ok (inr s)
  | None => Ok (inr s)
  end.

(** [alloc]: [calloc] succeeds.  The element now in the pool, [None] when
    out of memory *)
Definition mem_add (fuel : nat) (alloc : bool) hdr (str : mem) (len : Z)
  : res (mphdr * option elem * list elem) :=
  if negb alloc then Ok (hdr, None, []) else
  let e := new_elem (h_cmp_type hdr) str len in
  '(root, v) ← kavl_insert scmp (h_root hdr) e;
  '(hdr, v, freed) ← loop fuel (mem_add_step e) (hdr <| h_root := root |>, v, []);
  match v with
  | Some v => Ok (hdr, Some v, e :: freed)
  | None => Ok (hdr <| h_count := u64 (h_count hdr + 1) |>, Some e, freed)
  end.

(** erase the first node until the tree is empty; what was freed *)
Definition mem_destroy_step (s : tree elem * list elem)
  : res (tree elem * list elem + list elem) :=
  let '(root, freed) := s in
  match root with
  | Leaf => Ok (inr freed)
  | _ => '(root, e) ← kavl_erase_first root; Ok (inl (root, freed ++ [e]))
  end.

Definition mem_destroy (fuel : nat) (hdr : option mphdr) : res (list elem) :=
  match hdr with
  | None => Ok []
  | Some hdr => loop fuel mem_destroy_step (h_root hdr, [])
  end.

(** writing through a pointer to the element [v] of the tree *)
Fixpoint tree_write v (f : elem → elem) (t : tree elem) : res (tree elem) :=
  match t with
  | Leaf => UB
  | Node l y b s r =>
      c ← scmp v y;
      if c <? 0 then l ← tree_write v f l; Ok (Node l y b s r)
      else if 0 <? c then r ← tree_write v f r; Ok (Node l y b s r)
      else Ok (Node l (f y) b s r)
  end.

Definition elem_write hdr v (f : elem → elem) : res mphdr :=
  root ← tree_write v f (h_root hdr);
  Ok (hdr <| h_root := root |>).

(** ** The cache file

    A text: [dump_cache] prints with [fprintf], [load_cache] reads with
    [fscanf] ([CMem]).  [inet_ntop] and [inet_pton] are parameters. *)

(** [offsetof(struct cache_key, ip)]; the key's fields *)
Definition KEY_IP : Z := 4.
Definition key_family (key : mem) : res Z :=
  a ← rd key 0; b ← rd key 1; Ok (zb a + 256 * zb b).
Definition key_port (key : mem) : res Z :=
  a ← rd key 2; b ← rd key 3; Ok (256 * zb a + zb b).
Definition key_ip (key : mem) (n : Z) : res mem :=
  if KEY_IP + n <=? len key then Ok (slice key KEY_IP n) else UB.
Definition mk_key (family port : Z) (ip : mem) : mem :=
  [bz family; bz (Z.shiftr family 8); bz (Z.shiftr port 8); bz port] ++ ip.

Context (inet_ntop : Z → mem → mem) (inet_pton : Z → mem → option mem).

(** ["0 %s %d %d %jd %.*s\n"] *)
Definition dump_line (e : elem) : res mem :=
  family ← key_family (el_data e);
  addr_str ← (if family =? AF_INET
    then ip ← key_ip (el_data e) 4; Ok (inet_ntop AF_INET ip)
    else ip ← key_ip (el_data e) 16; Ok (inet_ntop AF_INET6 ip));
  port ← key_port (el_data e);
  let bitlen := el_len e - KEY_IP * 8 in
  let n := if el_extra_len e =? 0 then 1 else el_extra_len e in
  let host := match el_extra e with Some x => x | None => bytes_of "-" end in
  Ok (bytes_of "0 " ++ addr_str ++ x20 :: print_dec bitlen ++ x20 :: print_dec port
        ++ x20 :: print_dec (el_time e) ++ x20 :: print_str n host ++ [x0a]).

(** one line per element of the group [dp], in order; [out] is what was
    written *)
Definition dump_step (dp : option nat) (s : kavl_itr * mem) : res (kavl_itr * mem + mem) :=
  let '(itr, out) := s in
  match kavl_at itr with
  | None => UB
  | Some p =>
      out ← (if decide (el_dp p = dp) then line ← dump_line p; Ok (out ++ line)
             else Ok out);
      next ← kavl_itr_next itr;
      match next with
      | Some itr => Ok (inl (itr, out))
      | None => Ok (inr out)
      end
  end.

Definition dump_cache (fuel : nat) hdr (dp : option nat) : res mem :=
  match h_root hdr with
  | Leaf => Ok []
  | root => itr ← kavl_itr_first root; loop fuel (dump_step dp) (itr, [])
  end.

(** what [fscanf] stores: [addr_str] and [host] are C strings; [time_t] has the
    64 bits of [intmax_t], so that [cache_time] is [parsed_time] *)
Record cache_line : Type := CacheLine {
  cl_addr : mem; cl_bitlen : Z; cl_port : Z; cl_time : Z; cl_host : mem
}.

(** [fscanf(in, "0 %45s %d %hu %jd %255s\n", ...)] and what is left of
    [in]: [None] unless all five were read *)
Definition scan_line (input : mem) : res (option (cache_line * mem)) :=
  match scan_char (ch "0") input with None => Ok None | Some input =>
  match scan_str 45 input with None => Ok None | Some (addr, input) =>
  bitlen ← scan_dec (- 2 ^ 31) (2 ^ 31 - 1) input;
  match bitlen with None => Ok None | Some (bitlen, input) =>
  port ← scan_dec 0 (2 ^ 16 - 1) input;
  match port with None => Ok None | Some (port, input) =>
  time ← scan_dec (- 2 ^ 63) (2 ^ 63 - 1) input;
  match time with None => Ok None | Some (time, input) =>
  match scan_str 255 input with None => Ok None | Some (host, input) =>
  Ok (Some (CacheLine (c_string addr) bitlen port time (c_string host), scan_ws input))
  end end end end end end.

(** the key a line stands for: [None] is [continue] *)
Definition line_key (l : cache_line) : option (mem * Z) :=
  if (cl_bitlen l <? 0) || (128 <? cl_bitlen l) then None else
  let bitlen := cl_bitlen l + KEY_IP * 8 in
  match inet_pton AF_INET (cl_addr l) with
  | Some ip =>
      if (KEY_IP + 4) * 8 <? bitlen then None
      else Some (mk_key AF_INET (cl_port l) ip, bitlen)
  | None =>
      match inet_pton AF_INET6 (cl_addr l) with
      | Some ip =>
          if (KEY_IP + 16) * 8 <? bitlen then None
          else Some (mk_key AF_INET6 (cl_port l) ip, bitlen)
      | None => None
      end
  end.

Definition load_write (dp : option nat) (l : cache_line) (e : elem) : elem :=
  let n := len (cl_host l) in
  let e := e <| el_time := cl_time l |> <| el_extra_len := n |> <| el_dp := dp |> in
  if 1 <? n then e <| el_extra := Some (cl_host l) |> else e.

(** the body for a line that was read; [inr] is [return] *)
Definition load_line (fuel : nat) hdr (l : cache_line) (dp : option nat) : res (mphdr + mphdr) :=
  match line_key l with
  | None => Ok (inl hdr)
  | Some (data, bitlen) =>
      '(hdr, e, _) ← mem_add fuel true hdr data bitlen;
      match e with
      | None => Ok (inr hdr)
      | Some e => hdr ← elem_write hdr e (load_write dp l); Ok (inl hdr)
      end
  end.

Definition load_step (fuel : nat) (dp : option nat) (s : mphdr * mem) : res (mphdr * mem + mphdr) :=
  let '(hdr, input) := s in
  line ← scan_line input;
  match line with
  | None => Ok (inr hdr)
  | Some (l, input) =>
      hdr ← load_line fuel hdr l dp;
      Ok match hdr with inl hdr => inl (hdr, input) | inr hdr => inr hdr end
  end.

(** [input]: the file's text *)
Definition load_cache (fuel : nat) hdr (input : mem) (dp : option nat) : res mphdr :=
  loop (Datatypes.S (length input)) (load_step fuel dp) (hdr, input).
End mpool.
