(* ===== verification/MPoolSpec.v ===== *)
(** * Correctness of the pools of mpool.c

    Both covering comparisons are one and the same order on keys: the bits
    of an address prefix, or the characters of a host name read backwards
    and closed by a dot.  [pcmp] compares keys lexicographically and answers
    0 when one is a prefix of the other.  A pool holds an antichain: no key
    is a prefix of another.  On antichains the search is monotone, which is
    what the AVL tree needs. *)

From Stdlib Require Import ZArith Lia Bool List.
From Stdlib Require Import Strings.Byte Strings.Ascii Strings.String.
From stdpp Require Import base tactics list numbers option sorting.
From S2P Require Import Prelude CMem Kavl KavlSpec MPool.

(** ** The prefix order *)

Fixpoint pcmp (a b : list Z) : Z :=
  match a, b with
  | x :: a, y :: b => if x =? y then pcmp a b else if x <? y then -1 else 1
  | _, _ => 0
  end.

Lemma pcmp_nil_r a : pcmp a [] = 0.
Proof. by destruct a. Qed.

Lemma pcmp_flip a b : pcmp b a = - pcmp a b.
Proof.
  revert b. induction a as [|x a IH]; intros [|y b]; simpl; try done.
  rewrite Z.eqb_sym. destruct (Z.eqb_spec x y); [done|].
  destruct (Z.ltb_spec x y), (Z.ltb_spec y x); lia.
Qed.

Lemma pcmp_prefix a b : pcmp a b = 0 ↔ a `prefix_of` b ∨ b `prefix_of` a.
Proof.
  revert b. induction a as [|x a IH]; intros b.
  { split; [intros _; left; apply prefix_nil|done]. }
  destruct b as [|y b]; [split; [intros _; right; apply prefix_nil|done]|].
  simpl. destruct (Z.eqb_spec x y) as [->|Hne].
  - rewrite IH. split; (intros [H|H]; [left|right]);
      [by apply prefix_cons..|by apply prefix_cons_inv_2 in H|by apply prefix_cons_inv_2 in H].
  - split; [destruct (x <? y); lia|].
    intros [H|H]; apply prefix_cons_inv_1 in H; congruence.
Qed.

(** searching for [x] is monotone along strictly increasing keys *)
Lemma pcmp_cut x a b :
  pcmp a b < 0 → (pcmp x a <= 0 → pcmp x b <= 0) ∧ (pcmp x a < 0 → pcmp x b < 0).
Proof.
  revert a b. induction x as [|i x IH]; intros [|j a] [|k b]; simpl; try lia.
  destruct (Z.eqb_spec j k) as [->|Hjk].
  - intros H. destruct (Z.eqb_spec i k) as [->|]; [by apply IH|].
    destruct (i <? k); lia.
  - destruct (Z.ltb_spec j k); [|lia]. intros _.
    repeat match goal with
    | |- context [?u =? ?v] => destruct (Z.eqb_spec u v)
    | |- context [?u <? ?v] => destruct (Z.ltb_spec u v)
    end; subst; lia.
Qed.

Lemma pcmp_prefix_common k a b :
  k `prefix_of` a → pcmp k b ≠ 0 → pcmp a b = pcmp k b.
Proof.
  intros [t ->]. revert b. induction k as [|x k IH]; intros [|y b]; simpl; try done.
  destruct (x =? y); [apply IH|done].
Qed.

(** ** Bit strings *)

(** the [n] low bits of [z], most significant first *)
Fixpoint bits_n (n : nat) (z : Z) : list Z :=
  match n with
  | O => []
  | Datatypes.S n => (z / 2 ^ Z.of_nat n) mod 2 :: bits_n n z
  end.

Definition bits_of_bytes (d : mem) : list Z := d ≫= (λ b, bits_n 8 (zb b)).
(** the bit string an element stands for *)
Definition bits_key (e : elem) : list Z :=
  take (Z.to_nat (el_len e)) (bits_of_bytes (el_data e)).

Lemma length_bits_n n z : length (bits_n n z) = n.
Proof. induction n; simpl; auto. Qed.

Lemma length_bits_of_bytes d : length (bits_of_bytes d) = (8 * length d)%nat.
Proof.
  unfold bits_of_bytes. induction d as [|b d IH]; [done|].
  rewrite bind_cons, length_app, IH, length_bits_n. simpl. lia.
Qed.

Lemma pcmp_bits_n n a b :
  pcmp (bits_n n a) (bits_n n b) = Z.sgn (a mod 2 ^ Z.of_nat n - b mod 2 ^ Z.of_nat n).
Proof.
  induction n as [|n IH].
  { simpl. by rewrite !Z.mod_1_r. }
  cbn [bits_n pcmp]. rewrite IH.
  rewrite Nat2Z.inj_succ, Z.pow_succ_r by lia.
  assert (0 < 2 ^ Z.of_nat n) by (apply Z.pow_pos_nonneg; lia).
  set (m := 2 ^ Z.of_nat n) in *.
  rewrite (Z.mul_comm 2), !Z.rem_mul_r by lia.
  pose proof (Z.mod_pos_bound a m). pose proof (Z.mod_pos_bound b m).
  pose proof (Z.mod_pos_bound (a / m) 2). pose proof (Z.mod_pos_bound (b / m) 2).
  destruct (Z.eqb_spec ((a / m) mod 2) ((b / m) mod 2)) as [->|E]; [f_equal; lia|].
  destruct (Z.ltb_spec ((a / m) mod 2) ((b / m) mod 2)); [|symmetry; apply Z.sgn_pos; nia].
  symmetry. apply Z.sgn_neg. nia.
Qed.

Lemma pcmp_app a b c d :
  length a = length b → pcmp (a ++ c) (b ++ d) = if pcmp a b =? 0 then pcmp c d else pcmp a b.
Proof.
  revert b. induction a as [|x a IH]; intros [|y b] Hl; try done; simpl in *.
  destruct (x =? y); [apply IH; lia|]. by destruct (x <? y).
Qed.

Lemma pcmp_take a b n : (length a <= n \/ length b <= n)%nat → pcmp (take n a) (take n b) = pcmp a b.
Proof.
  revert b n. induction a as [|x a IH]; intros [|y b] [|n] Hn; simpl in *; try done; try lia.
  destruct (x =? y); [apply IH; lia|done].
Qed.

#[global] Arguments bits_n : simpl never.

(** a property of all bytes, checked on each *)
Definition all_bytes : list byte := map (λ n, bz (Z.of_nat n)) (seq 0 256).
Lemma forall_bytes (P : byte → bool) : forallb P all_bytes = true → ∀ b, P b = true.
Proof.
  intros H b. rewrite forallb_forall in H. apply H.
  unfold all_bytes. apply in_map_iff. exists (Z.to_nat (zb b)).
  pose proof (zb_range b). split; [rewrite Z2Nat.id by lia; apply bz_zb|apply in_seq; lia].
Qed.

(** the first [df] bits of a byte *)
Lemma take_bits_byte b df : (df <= 8)%nat →
  take df (bits_n 8 (zb b)) = bits_n df (zb b / 2 ^ (8 - Z.of_nat df)).
Proof.
  intros Hdf. revert b.
  assert (H : ∀ df, (df <= 8)%nat → forallb (λ b,
    bool_decide (take df (bits_n 8 (zb b)) = bits_n df (zb b / 2 ^ (8 - Z.of_nat df))))
      all_bytes = true).
  { intros n Hn. do 9 (destruct n as [|n]; [by vm_compute|]). lia. }
  intros b. pose proof (forall_bytes _ (H df Hdf) b) as E. by apply bool_decide_eq_true in E.
Qed.

Lemma bits_of_cons b d : bits_of_bytes (b :: d) = bits_n 8 (zb b) ++ bits_of_bytes d.
Proof. done. Qed.

Lemma bits_drop_take k d :
  take (8 * k) (bits_of_bytes d) = bits_of_bytes (take k d)
  ∧ drop (8 * k) (bits_of_bytes d) = bits_of_bytes (drop k d).
Proof.
  revert d. induction k as [|k IH]; intros [|b d]; try done.
  rewrite bits_of_cons. replace (8 * Datatypes.S k)%nat with (8 + 8 * k)%nat by lia.
  destruct (IH d) as [E1 E2].
  rewrite take_app_add', drop_app_add' by by rewrite length_bits_n.
  rewrite E1, E2. done.
Qed.

Lemma memcmp_bits a b :
  length a = length b →
  Z.sgn (memcmp_list a b) = pcmp (bits_of_bytes a) (bits_of_bytes b).
Proof.
  revert b. induction a as [|x a IH]; intros [|y b] Hl; try done.
  rewrite !bits_of_cons, pcmp_app by by rewrite !length_bits_n.
  rewrite pcmp_bits_n. pose proof (zb_range x). pose proof (zb_range y).
  change (2 ^ Z.of_nat 8) with 256. rewrite !Z.mod_small by lia.
  cbn [memcmp_list]. destruct (Z.eqb_spec (zb x) (zb y)) as [->|E].
  - rewrite Z.sub_diag. simpl. apply IH. simpl in Hl. lia.
  - destruct (Z.eqb_spec (Z.sgn (zb x - zb y)) 0) as [E'|]; [|done]. lia.
Qed.

Section comparisons.
Context {cm : CharModel}.
Implicit Types p q : elem.

(** comparing [top_bits] compares the top bits: sign extension keeps order *)
Lemma top_bits_cmp df a b :
  0 < df < 8 →
  (if negb (top_bits a df =? top_bits b df)
   then (if top_bits a df <? top_bits b df then -1 else 1) else 0)
  = pcmp (take (Z.to_nat df) (bits_n 8 (zb a))) (take (Z.to_nat df) (bits_n 8 (zb b))).
Proof.
  intros Hdf. rewrite !take_bits_byte by lia. rewrite pcmp_bits_n, Z2Nat.id by lia.
  set (top c := zb c / 2 ^ (8 - df)).
  assert (H : ∀ c, 0 <= top c < 2 ^ df
    ∧ top_bits c df = top c + (if char_signed && (2 ^ (df - 1) <=? top c) then 256 - 2 ^ df else 0)).
  { intros c. assert (Hc : ∀ n, n ∈ [1; 2; 3; 4; 5; 6; 7] → forallb (λ c,
      (0 <=? zb c / 2 ^ (8 - n)) && (zb c / 2 ^ (8 - n) <? 2 ^ n) &&
      (top_bits c n =? zb c / 2 ^ (8 - n) +
        (if char_signed && (2 ^ (n - 1) <=? zb c / 2 ^ (8 - n)) then 256 - 2 ^ n else 0)))
      all_bytes = true).
    { intros n Hn. unfold top_bits, chr, char_signed. 
      destruct cm; repeat (apply elem_of_cons in Hn as [->|Hn]; [by vm_compute|]);
        by apply elem_of_nil in Hn. }
    assert (Hin : df ∈ [1; 2; 3; 4; 5; 6; 7]) by (rewrite !elem_of_cons, elem_of_nil; lia).
    pose proof (forall_bytes _ (Hc df Hin) c) as E.
    rewrite !andb_true_iff, Z.leb_le, Z.ltb_lt, Z.eqb_eq in E.
    unfold top. tauto. }
  destruct (H a) as [Ha ->]. destruct (H b) as [Hb ->]. clear H.
  fold (top a) (top b). rewrite !Z.mod_small by done.
  assert (2 ^ df = 2 * 2 ^ (df - 1)) as Hp.
  { rewrite <- Z.pow_succ_r by lia. f_equal. lia. }
  assert (2 ^ df <= 256).
  { change 256 with (2 ^ 8). apply Z.pow_le_mono_r; lia. }
  destruct char_signed, (Z.leb_spec (2 ^ (df - 1)) (top a)), (Z.leb_spec (2 ^ (df - 1)) (top b));
    simpl;
    repeat match goal with
    | |- context [?u =? ?v] => destruct (Z.eqb_spec u v)
    | |- context [?u <? ?v] => destruct (Z.ltb_spec u v)
    end; simpl; lia.
Qed.

(** an address prefix: a bit count within the bytes *)
Definition bits_ok (e : elem) : Prop :=
  el_cmp_type e = CMP_BITS ∧ 0 <= el_len e <= 8 * len (el_data e).

Lemma take_bits_split d n :
  0 <= n <= 8 * len d →
  take (Z.to_nat n) (bits_of_bytes d) =
  bits_of_bytes (slice d 0 (n / 8)) ++
  (if n mod 8 =? 0 then [] else
   match d !! Z.to_nat (n / 8) with
   | Some b => take (Z.to_nat (n mod 8)) (bits_n 8 (zb b)) | None => [] end).
Proof.
  intros Hn. pose proof (Z.div_mod n 8 ltac:(lia)) as Hdm.
  pose proof (Z.mod_pos_bound n 8 ltac:(lia)) as Hm.
  assert (0 <= n / 8) by (apply Z.div_pos; lia). unfold len in Hn.
  replace (Z.to_nat n) with (8 * Z.to_nat (n / 8) + Z.to_nat (n mod 8))%nat by lia.
  destruct (bits_drop_take (Z.to_nat (n / 8)) d) as [E1 E2].
  rewrite <- (take_drop (8 * Z.to_nat (n / 8)) (bits_of_bytes d)) at 1.
  rewrite take_app_add'; [|rewrite length_take, length_bits_of_bytes; lia].
  rewrite E1, E2. unfold slice. rewrite drop_0. f_equal.
  destruct (Z.eqb_spec (n mod 8) 0) as [->|Hne]; [done|].
  destruct (d !! Z.to_nat (n / 8)) as [b|] eqn:Eb.
  - erewrite drop_S by done. rewrite bits_of_cons, take_app_le; [done|].
    rewrite length_bits_n. lia.
  - apply lookup_ge_None in Eb. lia.
Qed.

Lemma bit_cmp_spec p q :
  bits_ok p → bits_ok q →
  ∃ z, bit_cmp p q = Ok z ∧ Z.sgn z = pcmp (bits_key p) (bits_key q).
Proof.
  intros [_ Hp] [_ Hq]. unfold bit_cmp.
  set (n := if el_len q <? el_len p then el_len q else el_len p).
  assert (Hn : n = Z.min (el_len p) (el_len q)).
  { unfold n. destruct (Z.ltb_spec (el_len q) (el_len p)); lia. }
  rewrite Z.rem_mod_nonneg, Z.quot_div_nonneg by lia.
  assert (E : pcmp (bits_key p) (bits_key q) =
    pcmp (take (Z.to_nat n) (bits_of_bytes (el_data p)))
         (take (Z.to_nat n) (bits_of_bytes (el_data q)))).
  { rewrite <- (pcmp_take (bits_key p) (bits_key q) (Z.to_nat n)).
    - unfold bits_key. rewrite !take_take. f_equal; f_equal; lia.
    - unfold bits_key. rewrite !length_take. lia. }
  rewrite E, !take_bits_split by lia.
  pose proof (Z.mod_pos_bound n 8 ltac:(lia)) as Hm.
  pose proof (Z.div_mod n 8 ltac:(lia)) as Hdm.
  assert (0 <= n / 8) by (apply Z.div_pos; lia).
  assert (Hl : ∀ d, 8 * (n / 8) <= 8 * len d → length (slice d 0 (n / 8)) = Z.to_nat (n / 8)).
  { intros d Hd. rewrite <- to_nat_len, len_slice; lia. }
  assert (Hlen : length (slice (el_data p) 0 (n / 8)) = length (slice (el_data q) 0 (n / 8))).
  { rewrite !Hl; lia. }
  rewrite pcmp_app by by rewrite !length_bits_of_bytes, Hlen.
  rewrite <- memcmp_bits by done.
  unfold memcmp. rewrite (proj2 (andb_true_iff _ _)) by lia. bstep.
  set (c := memcmp_list _ _).
  destruct (Z.eqb_spec c 0) as [->|Hc]; simpl.
  - destruct (Z.eqb_spec (n mod 8) 0) as [_|Hne]; [by exists 0|].
    destruct (lookup_lt_is_Some_2 (el_data p) (Z.to_nat (n / 8))) as [a Ha]; [unfold len in *; lia|].
    destruct (lookup_lt_is_Some_2 (el_data q) (Z.to_nat (n / 8))) as [b Hb]; [unfold len in *; lia|].
    assert (rd (el_data p) (n / 8) = Ok a) as -> by (by apply rd_ok). bstep.
    assert (rd (el_data q) (n / 8) = Ok b) as -> by (by apply rd_ok). bstep.
    rewrite Ha, Hb, <- top_bits_cmp by lia.
    destruct (top_bits a _ =? top_bits b _); simpl; [by exists 0|].
    destruct (top_bits a _ <? top_bits b _); eexists; split; reflexivity.
  - exists c. split; [done|]. destruct (Z.eqb_spec (Z.sgn c) 0); [lia|done].
Qed.

(** *** Host names *)

Lemma pcmp_same_prefix a b c : pcmp (a ++ b) (a ++ c) = pcmp b c.
Proof. induction a as [|x a IH]; [done|]. simpl. by rewrite Z.eqb_refl. Qed.

(** a host name backwards, and closed by a dot *)
Definition host_rev (e : elem) : list Z :=
  reverse (map chr (take (Z.to_nat (el_len e)) (el_data e))).
Definition host_key (e : elem) : list Z := host_rev e ++ [ch "."].

(** no character sorts before the dot (so: no hyphen) *)
Definition host_ok (e : elem) : Prop :=
  el_cmp_type e = CMP_HOST ∧ 0 <= el_len e <= len (el_data e)
  ∧ Forall (λ c, ch "." <= c) (host_rev e).

Lemma length_host_rev e : 0 <= el_len e <= len (el_data e) →
  length (host_rev e) = Z.to_nat (el_len e).
Proof. unfold host_rev, len. intros. rewrite length_reverse, length_map, length_take. lia. Qed.

(** the [k]-th character from the end *)
Lemma host_rev_lookup e k : 0 <= k < el_len e → el_len e <= len (el_data e) →
  ∃ b, rd (el_data e) (el_len e - k - 1) = Ok b ∧ host_rev e !! Z.to_nat k = Some (chr b).
Proof.
  intros Hk He. destruct (rd_in (el_data e) (el_len e - k - 1)) as [b Hb]; [lia|].
  exists b. split; [done|]. apply rd_ok in Hb as [_ Hb].
  assert (0 <= el_len e <= len (el_data e)) as Hl%length_host_rev by lia.
  unfold host_rev in *. rewrite length_reverse in Hl.
  rewrite reverse_lookup by (rewrite Hl; lia).
  rewrite Hl. change (map chr) with (fmap (M:=list) chr). rewrite list_lookup_fmap, lookup_take_lt by lia.
  replace (Z.to_nat (el_len e) - Datatypes.S (Z.to_nat k))%nat
    with (Z.to_nat (el_len e - k - 1)) by lia. by rewrite Hb.
Qed.

Lemma host_loop p q n :
  0 <= n -> n <= el_len p <= len (el_data p) → n <= el_len q <= len (el_data q) →
  wp (loop (Datatypes.S (Z.to_nat n)) (host_step p q) (n, el_len p, el_len q)) (λ r,
    match r with
    | Some d => d ≠ 0 ∧ ∀ u v, pcmp (host_rev p ++ u) (host_rev q ++ v) = d
    | None => take (Z.to_nat n) (host_rev p) = take (Z.to_nat n) (host_rev q) end).
Proof.
  intros Hn Hp Hq.
  apply (wp_loop (λ '(l, pd, qd), 0 <= l <= n ∧ pd = el_len p - (n - l) ∧ qd = el_len q - (n - l)
    ∧ take (Z.to_nat (n - l)) (host_rev p) = take (Z.to_nat (n - l)) (host_rev q))
    (λ '(l, _, _), l)); [intros [[l pd] qd]; lia| |split_and!; try lia; by rewrite Z.sub_diag|lia].
  intros [[l pd] qd] (Hl & -> & -> & Heq). unfold host_step.
  destruct (Z.ltb_spec 0 l); [|simpl; by replace n with (n - l) by lia].
  destruct (host_rev_lookup p (n - l)) as (a & Ha & La); [lia..|].
  destruct (host_rev_lookup q (n - l)) as (b & Hb & Lb); [lia..|].
  replace (el_len p - (n - l) - 1) with (el_len p - (n - l) - 1) by lia.
  rewrite Ha. bstep. rewrite Hb. bstep.
  destruct (Z.eqb_spec (chr a) (chr b)) as [E|E]; simpl.
  - split_and!; try lia. replace (Z.to_nat (n - (l - 1))) with (Datatypes.S (Z.to_nat (n - l))) by lia.
    erewrite !take_S_r by eassumption. by rewrite Heq, E.
  - split; [destruct (_ <? _); lia|]. intros u v.
    rewrite <- (take_drop_middle _ _ _ La), <- (take_drop_middle _ _ _ Lb), Heq.
    rewrite <- !app_assoc, pcmp_same_prefix. simpl.
    destruct (Z.eqb_spec (chr a) (chr b)); [done|]. done.
Qed.

Lemma host_cmp_spec p q :
  host_ok p → host_ok q →
  ∃ z, host_cmp p q = Ok z ∧ Z.sgn z = pcmp (host_key p) (host_key q).
Proof.
  intros (_ & Hp & Fp) (_ & Hq & Fq). unfold host_cmp.
  set (n := if el_len q <? el_len p then el_len q else el_len p).
  assert (Hn : n = Z.min (el_len p) (el_len q)).
  { unfold n. destruct (Z.ltb_spec (el_len q) (el_len p)); lia. }
  destruct (proj1 (wp_iff _ _) (host_loop p q n ltac:(lia) ltac:(lia) ltac:(lia)))
    as (r & -> & Hr). bstep. unfold host_key.
  pose proof (length_host_rev p Hp) as Lp. pose proof (length_host_rev q Hq) as Lq.
  destruct r as [d|].
  { destruct Hr as [Hd Hr]. exists d. split; [done|]. specialize (Hr [ch "."] [ch "."]).
    rewrite Hr. assert (d = -1 ∨ d = 1) as [->| ->]; [|done..].
    rewrite <- Hr in *. clear -Hd. revert Hd.
    generalize (host_rev p ++ [ch "."]) (host_rev q ++ [ch "."]).
    intros u. induction u as [|x u IH]; intros [|y v]; simpl; try done.
    destruct (x =? y); [apply IH|]. destruct (x <? y); auto. }
  destruct (Z.eqb_spec (el_len p) (el_len q)) as [E|E].
  { exists 0. split; [done|]. rewrite !take_ge in Hr by lia. rewrite Hr.
    by rewrite pcmp_same_prefix. }
  destruct (Z.ltb_spec (el_len q) (el_len p)) as [Hlt|Hge].
  - destruct (host_rev_lookup p n) as (b & Hb & Lb); [lia..|]. rewrite Hb. bstep.
    rewrite (take_ge (host_rev q)) in Hr by lia.
    rewrite <- (take_drop_middle _ _ _ Lb), Hr, <- app_assoc, pcmp_same_prefix.
    rewrite Forall_forall in Fp. pose proof (Fp _ (list_elem_of_lookup_2 _ _ _ Lb)) as Hc.
    cbn [app pcmp]. destruct (Z.eqb_spec (chr b) (ch ".")); [exists 0; by rewrite pcmp_nil_r|].
    exists 1. split; [done|]. destruct (Z.ltb_spec (chr b) (ch ".")); [lia|done].
  - destruct (host_rev_lookup q n) as (b & Hb & Lb); [lia..|]. rewrite Hb. bstep.
    rewrite (take_ge (host_rev p)) in Hr by lia.
    rewrite <- (take_drop_middle _ _ _ Lb), <- Hr, <- app_assoc, pcmp_same_prefix.
    rewrite Forall_forall in Fq. pose proof (Fq _ (list_elem_of_lookup_2 _ _ _ Lb)) as Hc.
    cbn [app pcmp]. rewrite Z.eqb_sym. destruct (Z.eqb_spec (ch ".") (chr b)) as [E'|E'].
    + by exists 0.
    + exists (-1).
      split; [done|]. destruct (Z.ltb_spec (ch ".") (chr b)); [done|lia].
Qed.
End comparisons.

(** ** Covering comparisons: the interface of the pools *)

Class Covering {cm : CharModel} (ok : elem → Prop) (key : elem → list Z) := {
  scmp_key : ∀ p q, ok p → ok q →
    ∃ z, scmp p q = Ok z ∧ Z.sgn z = pcmp (key p) (key q);
  key_len : ∀ p q, ok p → ok q → key p `prefix_of` key q → el_len p <= el_len q;
  key_prefix_len : ∀ p q, ok p → ok q →
    key p `prefix_of` key q → el_len q <= el_len p → key q `prefix_of` key p
}.

Lemma prefix_same_len {X} (a b : list X) :
  a `prefix_of` b → (length b <= length a)%nat → b `prefix_of` a.
Proof. intros H Hl. by rewrite (prefix_length_eq _ _ H Hl). Qed.

Section instances.
Context {cm : CharModel}.

#[export] Instance bits_covering : Covering bits_ok bits_key.
Proof.
  assert (L : ∀ p, bits_ok p → length (bits_key p) = Z.to_nat (el_len p)).
  { intros p [_ Hp]. unfold bits_key. rewrite length_take, length_bits_of_bytes.
    unfold len in Hp. lia. }
  split; intros p q Hp Hq.
  - unfold scmp. rewrite (proj1 Hp). by apply bit_cmp_spec.
  - intros Hpre%prefix_length. rewrite !L in Hpre by done. destruct Hp, Hq. lia.
  - intros Hpre Hle. apply prefix_same_len; [done|]. rewrite !L by done. lia.
Qed.

#[export] Instance host_covering : Covering host_ok host_key.
Proof.
  assert (L : ∀ p, host_ok p → length (host_key p) = Datatypes.S (Z.to_nat (el_len p))).
  { intros p (_ & Hp & _). unfold host_key. rewrite length_app, length_host_rev by done.
    simpl. lia. }
  split; intros p q Hp Hq.
  - unfold scmp. rewrite (proj1 Hp). by apply host_cmp_spec.
  - intros Hpre%prefix_length. rewrite !L in Hpre by done.
    destruct Hp as (_ & ? & _), Hq as (_ & ? & _). lia.
  - intros Hpre Hle. apply prefix_same_len; [done|]. rewrite !L by done. lia.
Qed.
End instances.

Section pools.
Context {cm : CharModel} {ok : elem → Prop} {key : elem → list Z} `{!Covering ok key}.
Implicit Types (e v p q : elem) (hdr : mphdr) (t : tree elem).

Definition ccmp p q : Z := match scmp p q with Ok z => z | _ => 0 end.

Lemma scmp_ccmp p q : ok p → ok q → scmp p q = Ok (ccmp p q).
Proof. intros Hp Hq. unfold ccmp. by destruct (scmp_key p q Hp Hq) as (z & -> & _). Qed.

Lemma ccmp_sgn p q : ok p → ok q → Z.sgn (ccmp p q) = pcmp (key p) (key q).
Proof. intros Hp Hq. unfold ccmp. by destruct (scmp_key p q Hp Hq) as (z & -> & ?). Qed.

(** one of the two keys covers the other *)
Definition related p q : Prop := pcmp (key p) (key q) = 0.

Lemma related_prefix p q :
  related p q ↔ key p `prefix_of` key q ∨ key q `prefix_of` key p.
Proof. apply pcmp_prefix. Qed.

Lemma related_shorter p q : ok p → ok q → related p q → el_len p <= el_len q →
  key p `prefix_of` key q.
Proof.
  intros Hp Hq [H|H]%related_prefix Hl; [done|by apply key_prefix_len].
Qed.

(** a pool's contents: valid, in strictly increasing order of keys; in
    particular no element covers another *)
Definition antichain (l : list elem) : Prop :=
  Forall ok l ∧ StronglySorted (λ a b, pcmp (key a) (key b) < 0) l.

Lemma antichain_cut x l : ok x → antichain l → cut ccmp x l.
Proof.
  intros Hx [Hok Hs]. induction Hs as [|a l Hs IH Ha]; [constructor|].
  apply Forall_cons in Hok as [Hoka Hok]. constructor; [by apply IH|].
  rewrite Forall_forall in *. intros b Hb.
  pose proof (pcmp_cut (key x) _ _ (Ha b Hb)) as [H1 H2].
  pose proof (ccmp_sgn x a Hx Hoka). pose proof (ccmp_sgn x b Hx (Hok b Hb)). lia.
Qed.

Lemma antichain_related l a b :
  antichain l → a ∈ l → b ∈ l → related a b → a = b.
Proof.
  intros [_ Hs] Ha Hb Hr. induction Hs as [|x l Hs IH Hx]; [by apply elem_of_nil in Ha|].
  rewrite Forall_forall in Hx. unfold related in Hr.
  apply elem_of_cons in Ha as [->|Ha]; apply elem_of_cons in Hb as [->|Hb]; auto.
  - specialize (Hx b Hb). lia.
  - specialize (Hx a Ha). rewrite pcmp_flip in Hr. lia.
Qed.

Lemma antichain_nodup l : antichain l → NoDup l.
Proof.
  intros [_ Hs]. induction Hs as [|a l Hs IH Ha]; constructor; [|done].
  intros Hin. rewrite Forall_forall in Ha. specialize (Ha a Hin).
  rewrite (proj2 (pcmp_prefix _ _)) in Ha by by left. lia.
Qed.

Lemma antichain_insert l1 l2 x :
  ok x → antichain (l1 ++ l2) →
  Forall (λ y, 0 < ccmp x y) l1 → Forall (λ y, ccmp x y < 0) l2 →
  antichain (l1 ++ x :: l2).
Proof.
  intros Hx [[Hok1 Hok2]%Forall_app Hs] H1 H2. rewrite Forall_forall in *.
  apply StronglySorted_app in Hs as (Hall & Hs1 & Hs2).
  assert (B1 : ∀ y, y ∈ l1 → pcmp (key y) (key x) < 0).
  { intros y Hy. pose proof (ccmp_sgn x y Hx (Hok1 y Hy)). specialize (H1 y Hy).
    rewrite pcmp_flip. lia. }
  assert (B2 : ∀ y, y ∈ l2 → pcmp (key x) (key y) < 0).
  { intros y Hy. pose proof (ccmp_sgn x y Hx (Hok2 y Hy)). specialize (H2 y Hy). lia. }
  split.
  - apply Forall_app. split; [by apply Forall_forall|].
    constructor; [done|by apply Forall_forall].
  - apply StronglySorted_app. split_and!.
    + intros a b Ha [->|Hb]%elem_of_cons; auto.
    + done.
    + constructor; [done|]. by apply Forall_forall.
Qed.

Lemma antichain_remove l1 x l2 : antichain (l1 ++ x :: l2) → antichain (l1 ++ l2).
Proof.
  intros [[Hok1 [_ Hok2]%Forall_cons]%Forall_app Hs]. split; [by apply Forall_app|].
  apply StronglySorted_app in Hs as (Hall & Hs1 & [Hs2 _]%StronglySorted_inv).
  apply StronglySorted_app. split_and!; [|done..].
  intros a b Ha Hb. apply Hall; [done|by right].
Qed.

(** a pool in good order: [n] elements, as [count] says *)
Record pool_ok hdr : Prop := PoolOk {
  pool_avl : avl (h_root hdr);
  pool_anti : antichain (elements (h_root hdr));
  pool_count : h_count hdr = count (h_root hdr);
  pool_fits : count (h_root hdr) < 2 ^ 32
}.

Definition contents hdr : list elem := elements (h_root hdr).

Lemma mem_get_spec hdr str n :
  pool_ok hdr → ok (new_elem (h_cmp_type hdr) str n) →
  wp (mem_get hdr str n) (λ o, match o with
    | Some v => v ∈ contents hdr ∧ related (new_elem (h_cmp_type hdr) str n) v
    | None => ∀ v, v ∈ contents hdr → ¬ related (new_elem (h_cmp_type hdr) str n) v end).
Proof.
  intros [Ht Hanti _ Hf] Hx. unfold mem_get. set (x := new_elem _ _ _) in *.
  eapply wp_mono; [apply (kavl_find_spec scmp ccmp ok scmp_ccmp); [done|apply Hanti|by apply antichain_cut]|].
  pose proof (proj1 Hanti) as Hok. rewrite Forall_forall in Hok.
  intros [v|]; unfold related.
  - intros [Hv Hc]. split; [done|]. rewrite <- ccmp_sgn, Hc; auto.
  - intros Hall v Hv. rewrite Forall_forall in Hall. specialize (Hall v Hv).
    rewrite <- ccmp_sgn; auto. lia.
Qed.

Lemma count_contents hdr : count (h_root hdr) = Z.of_nat (length (contents hdr)).
Proof. done. Qed.

Lemma pool_new flags ct : pool_ok (mem_pool flags ct).
Proof. split; simpl; [done|by split; constructor|done|by vm_compute]. Qed.

(** [mem_delete] of a key removes one element related to it, and frees it *)
Lemma mem_delete_spec hdr str n :
  pool_ok hdr → ok (new_elem (h_cmp_type hdr) str n) →
  wp (mem_delete hdr str n) (λ '(hdr', freed),
    pool_ok hdr' ∧ h_cmp_type hdr' = h_cmp_type hdr ∧
    match freed with
    | [] => contents hdr' = contents hdr
        ∧ ∀ v, v ∈ contents hdr → ¬ related (new_elem (h_cmp_type hdr) str n) v
    | [v] => related (new_elem (h_cmp_type hdr) str n) v
        ∧ ∃ l1 l2, contents hdr = l1 ++ v :: l2 ∧ contents hdr' = l1 ++ l2
    | _ => False end).
Proof.
  intros [Ht Hanti Hc Hf] Hx. unfold mem_delete. set (x := new_elem _ _ _) in *.
  wp_use (kavl_erase_spec scmp ccmp ok scmp_ccmp);
    [done|done|apply Hanti|by apply antichain_cut|].
  pose proof (proj1 Hanti) as Hok. rewrite Forall_forall in Hok.
  intros [root [v|]]; simpl.
  - intros (Hr & Hcv & l1 & l2 & He & He'). split_and!; [|done| |by exists l1, l2].
    + assert (count (h_root hdr) = count root + 1) as Hcr.
      { unfold count. rewrite He, He', !length_app. simpl. lia. }
      split; simpl; [done| | |lia].
      * rewrite He'. eapply antichain_remove. by rewrite <- He.
      * rewrite Hc, u64_small; unfold count in *; lia.
    + unfold related. rewrite <- ccmp_sgn, Hcv; auto. apply Hok.
      rewrite He. apply elem_of_app. right. left.
  - intros [-> Hall]. split_and!; [by destruct hdr|done|done|].
    intros v Hv. unfold related. rewrite Forall_forall in Hall. specialize (Hall v Hv).
    rewrite <- ccmp_sgn; auto. lia.
Qed.

(** what [mem_add] makes of the contents [old]: either an element covering
    [e] is there already, or [e] replaces all the elements it covers *)
Definition added e (old new freed : list elem) (v : elem) : Prop :=
  (v ∈ old ∧ key v `prefix_of` key e ∧ new ≡ₚ old ∧ freed = [e])
  ∨ (v = e ∧ (∀ u, u ∈ old → ¬ key u `prefix_of` key e)
     ∧ (∀ u, u ∈ freed → key e `prefix_of` key u)
     ∧ (∀ u, u ∈ new → u = e ∨ ¬ related e u)
     ∧ freed ++ new ≡ₚ e :: old).

(** the loop of [mem_add]: [freed] has left the pool *)
Definition add_inv e hdr0 (s : mphdr * option elem * list elem) : Prop :=
  let '(hdr, v, freed) := s in
  avl (h_root hdr) ∧ antichain (contents hdr) ∧ h_cmp_type hdr = h_cmp_type hdr0
  ∧ (∀ u, u ∈ freed → key e `prefix_of` key u ∧ el_len e < el_len u)
  ∧ match v with
    | Some v => pool_ok hdr ∧ v ∈ contents hdr ∧ related e v
        ∧ freed ++ contents hdr ≡ₚ contents hdr0
    | None => h_count hdr + 1 = count (h_root hdr) ∧ e ∈ contents hdr
        ∧ freed ++ contents hdr ≡ₚ e :: contents hdr0
    end.

Lemma kavl_insert_pool e hdr freed hdr0 :
  ok e → pool_ok hdr → h_cmp_type hdr = h_cmp_type hdr0 →
  freed ++ contents hdr ≡ₚ contents hdr0 →
  (∀ u, u ∈ freed → key e `prefix_of` key u ∧ el_len e < el_len u) →
  wp (kavl_insert scmp (h_root hdr) e) (λ '(root, v),
    add_inv e hdr0 (hdr <| h_root := root |>, v, freed)
    ∧ (v ≠ None → root = h_root hdr)).
Proof.
  intros He Hp Hct Hperm Hfr. pose proof Hp as [Ht Hanti Hc Hf].
  eapply wp_mono; [apply (kavl_insert_spec scmp ccmp ok scmp_ccmp);
    [done|done|apply Hanti|by apply antichain_cut]|].
  pose proof (proj1 Hanti) as Hok. rewrite Forall_forall in Hok.
  intros [root [v|]]; simpl.
  - intros (-> & Hv & Hcv). unfold contents. simpl. split; [|done].
    split_and!; try done.
    unfold related. rewrite <- ccmp_sgn, Hcv; auto.
  - intros (Hr & l1 & l2 & Hl & Hl' & H1 & H2). unfold contents in *. simpl.
    split; [|done]. split_and!; try done.
    + rewrite Hl'. apply antichain_insert; [done| |done..]. by rewrite <- Hl.
    + rewrite Hc. unfold count. rewrite Hl, Hl', !length_app. simpl. lia.
    + rewrite Hl'. apply elem_of_app. right. left.
    + rewrite <- Hperm, Hl, Hl'. by rewrite !Permutation_middle.
Qed.

Lemma new_elem_id hdr v :
  ok v → h_cmp_type hdr = el_cmp_type v →
  el_len (new_elem (h_cmp_type hdr) (el_data v) (el_len v)) = el_len v.
Proof. done. Qed.

(** how many rounds are left at most *)
Definition add_rounds (s : mphdr * option elem * list elem) : Z :=
  match s with (hdr, Some _, _) => count (h_root hdr) + 1 | (_, None, _) => 0 end.
Lemma add_rounds_nonneg s : 0 <= add_rounds s.
Proof. destruct s as [[h [?|]] ?]; simpl; unfold count; lia. Qed.

(** one round: closer to the end, or out with nothing left to replace *)
Lemma mem_add_step_spec e hdr0 s :
  ok e → add_inv e hdr0 s →
  (∀ v, ok v → ok (new_elem (h_cmp_type hdr0) (el_data v) (el_len v))
             ∧ key (new_elem (h_cmp_type hdr0) (el_data v) (el_len v)) = key v) →
  wp (mem_add_step e s) (λ r, match r with
    | inl s' => add_inv e hdr0 s' ∧ 0 <= add_rounds s' < add_rounds s
    | inr s' => add_inv e hdr0 s' ∧ match s' with (_, Some v, _) => key v `prefix_of` key e | _ => True end
    end).
Proof.
  intros He Hinv Hkey. destruct s as [[hdr [v|]] freed]; unfold mem_add_step; [|done].
  destruct Hinv as (Ht & Hanti & Hct & Hfr & Hp & Hv & Hrel & Hperm).
  pose proof (proj1 Hanti) as Hok. rewrite Forall_forall in Hok.
  specialize (Hkey v (Hok v Hv)) as [Hnok Hnkey].
  destruct (Z.ltb_spec (el_len e) (el_len v)) as [Hlt|Hge].
  - wp_use (mem_delete_spec hdr (el_data v) (el_len v)); [done|by rewrite Hct|]. rewrite Hct.
    intros [hdr' gone] (Hp' & Hct' & Hgone).
    destruct gone as [|z [|? ?]]; [|destruct Hgone as (Hz & l1 & l2 & Hc & Hc')|done].
    { destruct Hgone as [_ Hno]. exfalso. apply (Hno v Hv). unfold related.
      rewrite Hnkey. by apply related_prefix; left. }
    assert (z = v) as ->.
    { symmetry. apply (antichain_related (contents hdr)); [done|done| |].
      - rewrite Hc. apply elem_of_app. right. left.
      - unfold related in *. by rewrite <- Hnkey. }
    wp_use (kavl_insert_pool e hdr' (v :: freed) hdr0); [done|done|done| | |].
    + rewrite <- Hperm, Hc, Hc'. simpl. by rewrite <- !Permutation_middle.
    + intros u [->|Hu]%elem_of_cons; [|by apply Hfr].
      split; [|done]. apply related_shorter; auto. lia.
    + intros [root o] [Hinv Hroot]. simpl. split; [done|].
      destruct o as [o|]; [|unfold count; lia]. rewrite Hroot by done.
      rewrite !count_contents, Hc, Hc', !length_app. simpl. lia.
  - simpl. split; [by split_and!|].
    apply related_prefix in Hrel as [H|H]; [|done]. apply key_prefix_len; auto.
Qed.

Lemma mem_add_loop e hdr0 fuel s :
  ok e → add_inv e hdr0 s →
  (∀ v, ok v → ok (new_elem (h_cmp_type hdr0) (el_data v) (el_len v))
             ∧ key (new_elem (h_cmp_type hdr0) (el_data v) (el_len v)) = key v) →
  count (h_root s.1.1) + 1 < Z.of_nat fuel →
  wp (loop fuel (mem_add_step e) s) (λ s', add_inv e hdr0 s'
    ∧ match s' with (_, Some v, _) => key v `prefix_of` key e | _ => True end).
Proof.
  intros He Hinv Hkey Hfuel. apply (wp_loop (add_inv e hdr0) add_rounds).
  - intros s' _. by apply add_rounds_nonneg.
  - intros s' Hs'. eapply wp_mono; [by apply mem_add_step_spec|]. intros [s''|s'']; [|done]. intros [? ?]. split; [done|lia].
  - done.
  - destruct s as [[h [?|]] ?]; simpl in *; unfold count in *; lia.
Qed.

Lemma mem_add_spec fuel hdr str n :
  let e := new_elem (h_cmp_type hdr) str n in
  pool_ok hdr → ok e → count (h_root hdr) + 1 < 2 ^ 32 →
  (∀ v, ok v → ok (new_elem (h_cmp_type hdr) (el_data v) (el_len v))
             ∧ key (new_elem (h_cmp_type hdr) (el_data v) (el_len v)) = key v) →
  count (h_root hdr) + 2 < Z.of_nat fuel →
  wp (mem_add fuel true hdr str n) (λ '(hdr', v, freed),
    pool_ok hdr' ∧ h_cmp_type hdr' = h_cmp_type hdr ∧
    ∃ v', v = Some v' ∧ v' ∈ contents hdr'
      ∧ added e (contents hdr) (contents hdr') freed v').
Proof.
  intros e Hp He Hfit Hkey Hfuel. unfold mem_add. simpl. fold e.
  wp_use (kavl_insert_pool e hdr [] hdr);
    [done|done|done|done|by intros u Hu%elem_of_nil|].
  intros [root v] [Hinv Hroot].
  assert (Hcr : count root <= count (h_root hdr) + 1).
  { destruct v as [v|]; [rewrite Hroot by done; lia|].
    destruct Hinv as (_ & _ & _ & _ & Hc & _). simpl in Hc. rewrite <- Hc.
    by rewrite (pool_count _ Hp). }
  wp_use (mem_add_loop e hdr); [done|done|done|simpl; lia|].
  intros [[hdr' v'] freed] [(Ht & Hanti & Hct & Hfr & Hv) Hpre].
  pose proof (proj1 Hanti) as Hok. rewrite Forall_forall in Hok.
  pose proof (proj1 (pool_anti _ Hp)) as Hok0. rewrite Forall_forall in Hok0.
  destruct v' as [v'|]; simpl.
  - destruct Hv as (Hp' & Hv & Hrel & Hperm). split; [done|]. split; [done|].
    exists v'. split_and!; [done|done|left].
    assert (freed = []) as ->.
    { destruct freed as [|u freed]; [done|exfalso].
      destruct (Hfr u) as [Hu Hlt]; [by left|].
      assert (u = v') as ->.
      { apply (antichain_related (contents hdr)).
        - apply Hp.
        - rewrite <- Hperm. by left.
        - rewrite <- Hperm. apply elem_of_app. by right.
        - apply related_prefix. right. by etrans. }
      assert (Hpd : NoDup (v' :: freed ++ contents hdr')).
      { change (NoDup ((v' :: freed) ++ contents hdr')). rewrite Hperm.
        by apply antichain_nodup, Hp. }
      apply NoDup_cons in Hpd as [Hpd _]. apply Hpd, elem_of_app. by right. }
    simpl in Hperm. split_and!; [by rewrite <- Hperm|done|by symmetry|done].
  - destruct Hv as (Hc & Hin & Hperm). split_and!.
    { assert (Hle : count (h_root hdr') <= count (h_root hdr) + 1).
      { rewrite !count_contents.
        pose proof (Permutation_length Hperm) as Hl. rewrite length_app in Hl. simpl in Hl. lia. }
      split; simpl; [done|done| |lia]. rewrite Hc. apply u64_small. unfold count in *. lia. }
    { done. }
    exists e. split_and!; [done|done|right]. split_and!; [done| | | |done].
    + intros u Hu Hpre'.
      assert (Hin' : u ∈ freed ++ contents hdr') by (rewrite Hperm; by right).
      apply elem_of_app in Hin' as [Hf|Hu'].
      { destruct (Hfr u Hf) as [_ Hlt].
        pose proof (key_len u e (Hok0 u Hu) He Hpre'). lia. }
      assert (u = e) as ->.
      { apply (antichain_related (contents hdr')); try done. apply related_prefix. by left. }
      apply elem_of_Permutation in Hin as [l Hl].
      assert (Hel : e ∈ freed ++ l).
      { assert (Heq : freed ++ l ≡ₚ contents hdr); [|by rewrite Heq].
        apply (Permutation_cons_inv (a:=e)). by rewrite <- Hperm, Hl, Permutation_middle. }
      apply elem_of_app in Hel as [Hf|Hl']; [destruct (Hfr e Hf); lia|].
      pose proof (antichain_nodup _ Hanti) as Hnd. rewrite Hl in Hnd.
      by apply NoDup_cons in Hnd as [? _].
    + intros u Hu. by apply Hfr.
    + intros u Hu. destruct (decide (pcmp (key e) (key u) = 0)) as [Hr|Hr]; [left|by right].
      symmetry. by apply (antichain_related (contents hdr')).
Qed.

(** [mem_destroy] frees every element once, in order *)
Lemma mem_destroy_spec fuel hdr :
  avl (h_root hdr) → count (h_root hdr) < 2 ^ 32 →
  count (h_root hdr) < Z.of_nat fuel →
  wp (mem_destroy fuel (Some hdr)) (λ freed, freed = contents hdr).
Proof.
  intros Ht Hf Hfuel. unfold mem_destroy.
  apply (wp_loop (λ '(root, freed), avl root ∧ count root < 2 ^ 32
      ∧ freed ++ elements root = contents hdr) (λ '(root, _), count root));
    [intros [root freed] _; unfold count; lia| |done|done].
  intros [root freed] (Hr & Hc & He). unfold mem_destroy_step.
  destruct root as [|l x b sz r]; [simpl in *; by rewrite app_nil_r in He|].
  wp_use kavl_erase_first_spec; [done|done|]. intros [root y] [Hr' Hel]. simpl.
  assert (count (Node l x b sz r) = count root + 1).
  { unfold count. rewrite Hel. simpl. lia. }
  split_and!; [done|lia|by rewrite <- app_assoc, <- He, Hel|lia].
Qed.

(** *** Writing through an element pointer *)

Lemma tree_write_spec v f t :
  ok v → Forall ok (elements t) → cut ccmp v (elements t) → v ∈ elements t →
  (∀ y, y ∈ elements t → ccmp v y = 0 → y = v) →
  wp (tree_write v f t) (λ t', (avl t → avl t') ∧ height t' = height t ∧
    ∃ l1 l2, elements t = l1 ++ v :: l2 ∧ elements t' = l1 ++ f v :: l2).
Proof.
  intros Hv. induction t as [|l IHl y b s r IHr]; simpl; intros Hok Hcut Hin Huniq.
  { by apply elem_of_nil in Hin. }
  apply Forall_app in Hok as [Hl [Hy Hr]%Forall_cons].
  destruct (cut_split _ _ _ _ _ Hcut) as (Hcl & Hcr & Hpos & Hneg).
  assert (Hsame : ∀ u u' l1 l2, elements u = l1 ++ v :: l2 → elements u' = l1 ++ f v :: l2 →
    count u' = count u).
  { intros u u' l1 l2 E E'. unfold count. by rewrite E, E', !length_app. }
  rewrite scmp_ccmp by done. bstep.
  assert (Hv0 : ccmp v v = 0).
  { pose proof (ccmp_sgn v v Hv Hv). rewrite (proj2 (pcmp_prefix _ _)) in * by by left. lia. }
  apply elem_of_app in Hin as [Hin|[Hin|Hin]%elem_of_cons].
  all: destruct (Z.ltb_spec (ccmp v y) 0); [|destruct (Z.ltb_spec 0 (ccmp v y))].
  all: try (exfalso; subst; lia).
  all: try (exfalso; specialize (Hpos ltac:(lia)); rewrite Forall_forall in Hpos;
            specialize (Hpos v Hin); lia).
  all: try (exfalso; specialize (Hneg ltac:(lia)); rewrite Forall_forall in Hneg;
            specialize (Hneg v Hin); lia).
  all: try (assert (y = v) as -> by
              (apply Huniq; [apply elem_of_app; right; left|lia]);
            simpl; split_and!; [by intros (? & ? & ? & ? & ?)|done|by exists (elements l), (elements r)]).
  - wp_use IHl; [done..|intros; apply Huniq; [apply elem_of_app; by left|done]|].
    intros t' (Ha & Hh & l1 & l2 & He & He'). simpl. rewrite Hh. split_and!; [|done|].
    + intros (? & ? & ? & ? & ?). by rewrite (Hsame _ _ _ _ He He'); auto.
    + exists l1, (l2 ++ y :: elements r). by rewrite He, He', <- !app_assoc.
  - wp_use IHr; [done..|intros; apply Huniq; [apply elem_of_app; right; by right|done]|].
    intros t' (Ha & Hh & l1 & l2 & He & He'). simpl. rewrite Hh. split_and!; [|done|].
    + intros (? & ? & ? & ? & ?). by rewrite (Hsame _ _ _ _ He He'); auto.
    + exists (elements l ++ y :: l1), l2. by rewrite He, He', <- !app_assoc.
Qed.

Lemma elem_write_spec hdr v f :
  pool_ok hdr → v ∈ contents hdr → ok (f v) → key (f v) = key v →
  wp (elem_write hdr v f) (λ hdr', pool_ok hdr' ∧ h_cmp_type hdr' = h_cmp_type hdr
    ∧ ∃ l1 l2, contents hdr = l1 ++ v :: l2 ∧ contents hdr' = l1 ++ f v :: l2).
Proof.
  intros [Ht Hanti Hc Hf] Hin Hfok Hkey. unfold elem_write.
  pose proof (proj1 Hanti) as Hok. rewrite Forall_forall in Hok.
  pose proof (Hok v Hin) as Hv.
  wp_use tree_write_spec; [done|apply Hanti|by apply antichain_cut|done| |].
  { intros y Hy Hz. symmetry. apply (antichain_related _ _ _ Hanti); [done..|].
    unfold related. rewrite <- ccmp_sgn, Hz; auto. }
  intros t' (Ha & Hh & l1 & l2 & He & He'). simpl. unfold contents. simpl.
  assert (Hct : count t' = count (h_root hdr)).
  { unfold count. by rewrite He, He', !length_app. }
  split_and!; [|done|by exists l1, l2].
  split; simpl; [by apply Ha| |by rewrite Hct|by rewrite Hct].
  rewrite He in Hanti. rewrite He'. destruct Hanti as [Hok' Hs]. split.
  - apply Forall_app in Hok' as [? [_ ?]%Forall_cons]. apply Forall_app. by split; [|constructor].
  - apply StronglySorted_app in Hs as (Hall & Hs1 & [Hs2 Hx]%StronglySorted_inv).
    apply StronglySorted_app. split_and!; [|done|constructor; by rewrite ?Hkey].
    intros a b Ha' [->|Hb]%elem_of_cons; [rewrite Hkey; apply Hall; [done|by left]|].
    apply Hall; [done|by right].
Qed.
End pools.

(** ** The pools of addresses and of host names *)

Section theorems.
Context {cm : CharModel}.

Definition covered (l : list elem) (k : list Z) : Prop :=
  ∃ u, u ∈ l ∧ bits_key u `prefix_of` k.

Definition address_pool (hdr : mphdr) : Prop :=
  pool_ok (ok := bits_ok) (key := bits_key) hdr ∧ h_cmp_type hdr = CMP_BITS.

Lemma added_covered e old new freed v k :
  added (key := bits_key) e old new freed v → v ∈ new →
  covered new k ↔ covered old k ∨ bits_key e `prefix_of` k.
Proof.
  unfold covered. intros [(Hv & Hpre & Hperm & _)|(-> & _ & Hfr & _ & Hperm)] Hin.
  - setoid_rewrite Hperm. split; [by left|]. intros [?|He]; [done|].
    exists v. split; [done|by etrans].
  - split.
    + intros (u & Hu & Hk). assert (u ∈ e :: old) as [->|Hu']%elem_of_cons; [|by right|].
      * rewrite <- Hperm. apply elem_of_app. by right.
      * left. by exists u.
    + intros [(u & Hu & Hk)|Hk]; [|by exists e].
      assert (u ∈ freed ++ new) as [Hf|Hn]%elem_of_app.
      * rewrite Hperm. by right.
      * exists e. split; [done|]. etrans; [by apply Hfr|done].
      * by exists u.
Qed.

Lemma added_frees e old new freed v :
  added (key := bits_key) e old new freed v → freed ++ new ≡ₚ e :: old.
Proof.
  intros [(_ & _ & Hperm & ->)|(_ & _ & _ & _ & Hperm)]; [by simpl; rewrite Hperm|done].
Qed.
End theorems.

(** C2: [mem_add] of an address prefix (a bit string) to a pool in good
    order, with memory available: it terminates inside all buffers, leaves
    the pool in good order (balanced, sorted, no prefix covering another,
    [count] right), and answers an element of the pool that covers the new
    prefix; an address is covered by the new contents exactly when it was
    covered before or has the new prefix; and every element is either in
    the pool or was freed, exactly once. *)
Theorem mem_add_covers `{cm : CharModel} (fuel : nat) (hdr : mphdr) (str : mem) (n : Z) :
  address_pool hdr → 0 <= n <= 8 * len str →
  count (h_root hdr) + 1 < 2 ^ 32 → count (h_root hdr) + 2 < Z.of_nat fuel →
  let e := new_elem CMP_BITS str n in
  wp (mem_add fuel true hdr str n) (λ '(hdr', v, freed),
    address_pool hdr'
    ∧ (∃ v', v = Some v' ∧ v' ∈ contents hdr' ∧ bits_key v' `prefix_of` bits_key e)
    ∧ (∀ k, covered (contents hdr') k ↔ covered (contents hdr) k ∨ bits_key e `prefix_of` k)
    ∧ freed ++ contents hdr' ≡ₚ e :: contents hdr).
Proof.
  intros [Hp Hct] Hn Hfit Hfuel e.
  eapply wp_mono; [apply (mem_add_spec (ok := bits_ok) (key := bits_key)); [done| |done| |done]|].
  - by rewrite Hct.
  - intros v [Hv Hvl]. rewrite Hct. done.
  - intros [[hdr' v] freed] (Hp' & Hct' & v' & -> & Hin & Hadd).
    rewrite Hct in Hadd. fold e in Hadd. split_and!; [split; [done|congruence]| | |].
    + exists v'. split_and!; [done|done|].
      by destruct Hadd as [(_ & ? & _)|(-> & _)].
    + intros k. by eapply added_covered.
    + by eapply added_frees.
Qed.

Definition one_net : mphdr :=
  Mphdr 0 CMP_BITS 1 (Node Leaf (new_elem CMP_BITS [x0a; x01] 16) 0 1 Leaf).

Lemma one_net_ok `{cm : CharModel} : address_pool one_net.
Proof.
  split; [|done]. split; simpl; [|split|done|by vm_compute].
  - split_and!; try done.
  - repeat constructor; done.
  - repeat constructor.
Qed.

Lemma mem_add_covers_witness : let cm : CharModel := true in
  wp (mem_add 10 true one_net [x0a; x00; x00] 8) (λ '(hdr', v, freed),
    address_pool hdr' ∧ freed = [new_elem CMP_BITS [x0a; x01] 16]
    ∧ covered (contents hdr') (bits_of_bytes [x0a; x63])).
Proof.
  intros cm.
  pose proof (mem_add_covers 10 one_net [x0a; x00; x00] 8 one_net_ok
    ltac:(by vm_compute) ltac:(by vm_compute) ltac:(by vm_compute)) as H.
  destruct (mem_add 10 true one_net [x0a; x00; x00] 8) as [[[hdr' v] freed]| |] eqn:E;
    [|done|done].
  destruct H as (Hp & _ & Hcov & _). split; [done|]. split.
  - vm_compute in E. by injection E as <- <- <-.
  - apply Hcov. right. by exists (bits_of_bytes [x63]).
Defined.

(** *** Address lookup *)

(** C3: Looking a full address up in a pool of address prefixes in good
    order answers an element exactly when some element of the pool is a
    prefix of the address, or extends it (an element longer than the
    address); it never leaves the buffers. *)
Theorem mem_get_bits `{cm : CharModel} (hdr : mphdr) (addr : mem) :
  address_pool hdr →
  let k := bits_of_bytes addr in
  wp (mem_get hdr addr (8 * len addr)) (λ o,
    (o = None ↔ ∀ u, u ∈ contents hdr →
       ¬ bits_key u `prefix_of` k ∧ ¬ k `prefix_of` bits_key u)
    ∧ ∀ v, o = Some v → v ∈ contents hdr ∧
       (if el_len v <=? 8 * len addr then bits_key v `prefix_of` k
        else k `prefix_of` bits_key v)).
Proof.
  intros [Hp Hct] k. set (e := new_elem CMP_BITS addr (8 * len addr)).
  assert (He : bits_ok e) by (split; simpl; [done|pose proof (len_nonneg addr); lia]).
  assert (Hk : bits_key e = k).
  { unfold bits_key, e, new_elem. cbn [el_len el_data]. apply take_ge; unfold k; rewrite length_bits_of_bytes. unfold len. lia. }
  pose proof (proj1 (pool_anti _ Hp)) as Hok. rewrite Forall_forall in Hok.
  eapply wp_mono; [apply (mem_get_spec (ok := bits_ok) (key := bits_key)); [exact Hp|by rewrite Hct]|]. rewrite Hct. fold e.
  intros [v|] Hv; split; try done.
  - destruct Hv as [Hin Hr%related_prefix]. rewrite Hk in Hr. split; [done|].
    intros Hno. destruct (Hno v Hin). tauto.
  - intros ? [= <-]. destruct Hv as [Hin Hr]. split; [done|].
    pose proof (Hok v Hin) as Hv. rewrite <- Hk.
    destruct (Z.leb_spec (el_len v) (8 * len addr)).
    + apply related_shorter; [done..| |done]. unfold related in *. rewrite pcmp_flip. lia.
    + apply related_shorter; [done..|]. simpl. lia.
  - split; [intros _|done]. intros u Hu. specialize (Hv u Hu).
    rewrite related_prefix, Hk in Hv. tauto.
Qed.

Lemma mem_get_bits_witness : let cm : CharModel := true in
  wp (mem_get one_net [x0a; x01; x63] 24) (λ o, o = Some (new_elem CMP_BITS [x0a; x01] 16)).
Proof.
  intros cm. eapply wp_mono; [apply (mem_get_bits one_net [x0a; x01; x63] one_net_ok)|].
  intros o [Hnone Hsome]. destruct o as [v|].
  - destruct (Hsome v eq_refl) as [Hv _]. by apply list_elem_of_singleton in Hv as ->.
  - exfalso. destruct (proj1 Hnone eq_refl (new_elem CMP_BITS [x0a; x01] 16)) as [H _].
    + by left.
    + apply H. by exists (bits_of_bytes [x63]).
Defined.

(** *** Host lookup *)

Section hosts.
Context {cm : CharModel}.

Definition host_name (e : elem) : mem := take (Z.to_nat (el_len e)) (el_data e).

(** [host] is the name [rule], or a name below it *)
Definition host_matches (rule host : mem) : Prop :=
  rule = host ∨ ∃ pre, host = pre ++ bytes_of "." ++ rule.

Lemma chr_dot : map chr (bytes_of ".") = [ch "."].
Proof. by destruct cm. Qed.

Lemma map_chr_inj (a b : mem) : map chr a = map chr b → a = b.
Proof.
  revert b. induction a as [|x a IH]; intros [|y b]; simpl; try done.
  intros [= Hxy Hab]. by rewrite (chr_inj x y Hxy), (IH b Hab).
Qed.

Lemma host_key_prefix (u e : elem) :
  host_key u `prefix_of` host_key e ↔ host_matches (host_name u) (host_name e).
Proof.
  unfold host_key, host_rev, host_matches. fold (host_name u) (host_name e). split.
  - intros [k Hk]. destruct k as [|z k _] using rev_ind.
    + left. rewrite app_nil_r in Hk. apply app_inj_2 in Hk as [Hk _]; [|done].
      apply map_chr_inj. symmetry. by apply (inj reverse).
    + right. rewrite app_assoc in Hk. apply app_inj_2 in Hk as [Hk _]; [|done].
      apply (f_equal reverse) in Hk.
      rewrite reverse_involutive, !reverse_app, reverse_involutive in Hk.
      assert (E : map chr (host_name e) = reverse k ++ ch "." :: map chr (host_name u)) by done.
      clear Hk. apply map_eq_app in E as (pre & rest & Ee & _ & Er).
      destruct rest as [|d rest]; [done|]. simpl in Er. injection Er as Hd Hr.
      apply map_chr_inj in Hr as ->. exists pre. rewrite Ee. f_equal.
      pose proof chr_dot as Hdot. simpl in Hdot. injection Hdot as Hdot.
      simpl. f_equal. apply chr_inj. by rewrite Hd, Hdot.
  - intros [->|[pre ->]]; [done|].
    rewrite !map_app, chr_dot, !reverse_app, <- !app_assoc.
    apply prefix_app. apply prefix_cons. apply prefix_nil.
Qed.
End hosts.

Definition host_pool `{cm : CharModel} (hdr : mphdr) : Prop :=
  pool_ok (ok := host_ok) (key := host_key) hdr ∧ h_cmp_type hdr = CMP_HOST.

(** C4: In a pool of host names in good order whose characters all sort at
    or after the dot, the test of check_host - [mem_get] answers an element
    no longer than the host - succeeds exactly when the pool holds the host
    itself or a name the host is a subdomain of. *)
Theorem mem_get_host `{cm : CharModel} (hdr : mphdr) (host : mem) :
  host_pool hdr → Forall (λ b, ch "." <= chr b) host →
  wp (mem_get hdr host (len host)) (λ o,
    (∃ v, o = Some v ∧ el_len v <= len host)
    ↔ ∃ v, v ∈ contents hdr ∧ host_matches (host_name v) host).
Proof.
  intros [Hp Hct] Hchars. set (e := new_elem CMP_HOST host (len host)).
  assert (Hname : host_name e = host).
  { unfold host_name. simpl. rewrite to_nat_len. by apply take_ge. }
  assert (He : host_ok e).
  { split_and!; [done|apply len_nonneg|done|]. unfold host_rev. fold (host_name e).
    rewrite Hname. apply Forall_reverse. by apply Forall_map. }
  pose proof (proj1 (pool_anti _ Hp)) as Hok. rewrite Forall_forall in Hok.
  eapply wp_mono; [apply (mem_get_spec (ok := host_ok) (key := host_key)); [exact Hp|by rewrite Hct]|]. rewrite Hct. fold e.
  intros [v|] Hv.
  - destruct Hv as [Hin Hr]. split.
    + intros (? & [= <-] & Hle). exists v. split; [done|].
      rewrite <- Hname. apply host_key_prefix. apply related_shorter; auto.
      unfold related in *. rewrite pcmp_flip. lia.
    + intros (u & Hu & Hm). exists v. split; [done|].
      rewrite <- Hname in Hm. apply host_key_prefix in Hm.
      destruct (Z.le_gt_cases (el_len v) (len host)) as [|Hgt]; [done|exfalso].
      assert (Hpre : host_key e `prefix_of` host_key v).
      { apply related_shorter; auto. simpl. lia. }
      assert (u = v) as ->.
      { apply (antichain_related (ok := host_ok) (key := host_key) (contents hdr)); [apply Hp|done..|].
        apply related_prefix. left. by etrans. }
      pose proof (key_len v e (Hok v Hin) He Hm) as Hl. simpl in Hl. lia.
  - split; [by intros (? & ? & _)|]. intros (u & Hu & Hm). exfalso.
    apply (Hv u Hu). apply related_prefix. right. apply host_key_prefix. by rewrite Hname.
Qed.

Definition host_rules : mphdr :=
  Mphdr MF_STATIC CMP_HOST 1
    (Node Leaf (new_elem CMP_HOST (bytes_of "example.com") 11) 0 1 Leaf).

Lemma host_rules_ok `{cm : CharModel} : host_pool host_rules.
Proof.
  split; [|done]. split; simpl; [by split_and!|split|done|by vm_compute].
  - constructor; [|done]. split_and!; [done|by vm_compute|by vm_compute|].
    destruct cm; vm_compute; repeat constructor; done.
  - repeat constructor.
Qed.

Lemma mem_get_host_witness : let cm : CharModel := true in
  wp (mem_get host_rules (bytes_of "www.example.com") 15) (λ o,
    ∃ v, o = Some v ∧ el_len v <= 15).
Proof.
  intros cm. eapply wp_mono; [apply (mem_get_host host_rules (bytes_of "www.example.com"))|].
  - apply host_rules_ok.
  - vm_compute. repeat constructor; done.
  - intros o Ho. apply Ho. eexists. split; [by left|]. right.
    exists (bytes_of "www"). reflexivity.
Defined.

(** With a hyphen - which sorts before the dot - the order of host
    names is not consistent: after adding the rules a-example.com and
    example.com to an empty pool, both are in it, but a lookup of
    b.example.com finds nothing. *)
Theorem mem_get_hyphen_miss `{cm : CharModel} :
  let rules := '(h, _, _) ← mem_add 9 true (mem_pool MF_STATIC CMP_HOST)
                             (bytes_of "a-example.com") 13;
               '(h, _, _) ← mem_add 9 true h (bytes_of "example.com") 11; Ok h in
  wp rules (λ h, map host_name (contents h) = [bytes_of "example.com"; bytes_of "a-example.com"]
    ∧ host_matches (bytes_of "example.com") (bytes_of "b.example.com")
    ∧ mem_get h (bytes_of "b.example.com") 13 = Ok None).
Proof.
  cbv zeta.
  assert (Hm : host_matches (bytes_of "example.com") (bytes_of "b.example.com")).
  { right. by exists (bytes_of "b"). }
  destruct cm; (split; [by vm_compute|split; [exact Hm|by vm_compute]]).
Qed.
