(* ===== verification/MPoolCache.v ===== *)
(** * Writing and reading the cache file (dump_cache, load_cache)

    What [load_cache] rebuilds from the lines of [dump_cache] is the dumped
    group's part of the pool: same address prefixes, ports, times and host
    names.  [inet_ntop] and [inet_pton] are parameters; [printable] asks of
    them only that they invert each other on the stored addresses. *)

From Stdlib Require Import ZArith Lia Bool List.
From Stdlib Require Import Strings.Byte Strings.Ascii Strings.String.
From stdpp Require Import base tactics list numbers option sorting.
From S2P Require Import Prelude CMem Kavl KavlSpec MPool MPoolSpec.

(** ** What fprintf prints, fscanf reads *)

(** a word of at most [n] bytes, without white space *)
Definition blank_free (w : mem) : Prop := Forall (λ b, isspace (zb b) = false) w.
Definition word (n : Z) (w : mem) : Prop := 0 < len w <= n ∧ blank_free w.

(** the next byte is no digit *)
Definition at_gap (s : mem) : Prop := ∃ b s', s = b :: s' ∧ isspace (zb b) = true.

Lemma scan_ws_stop b s : isspace (zb b) = false → scan_ws (b :: s) = b :: s.
Proof. intros H. simpl. by rewrite H. Qed.

Lemma scan_word_gap w : ∀ (n : nat) s, blank_free w → (length w <= n)%nat → at_gap s → scan_word n (w ++ s) = (w, s).
Proof.
  induction w as [|b w IH]; intros n s Hw Hn Hs; simpl in *.
  - destruct Hs as (b & s' & -> & Hb). destruct n; [done|]. simpl. by rewrite Hb.
  - destruct n as [|n]; [lia|]. apply Forall_cons in Hw as [Hb Hw]. simpl. rewrite Hb. by rewrite IH by (done || lia).
Qed.

Lemma scan_str_word n w s : word (Z.of_nat n) w → at_gap s → scan_str n (x20 :: w ++ s) = Some (w, s).
Proof.
  intros [Hn Hw] Hs. unfold scan_str. change (scan_ws (x20 :: w ++ s)) with (scan_ws (w ++ s)).
  destruct w as [|b w]; [by unfold len in Hn; simpl in Hn; lia|].
  pose proof Hw as [Hb _]%Forall_cons. rewrite <- app_comm_cons, scan_ws_stop by done.
  rewrite app_comm_cons, scan_word_gap; [done|done|unfold len in Hn; lia|done].
Qed.

Lemma digit_byte d : 0 <= d < 10 → isdigit (zb (bz (48 + d))) = true ∧ zb (bz (48 + d)) = 48 + d.
Proof. intros Hd. rewrite zb_bz_small by lia. unfold isdigit. split; [lia|done]. Qed.

Lemma scan_decimal_dec k : ∀ n s acc seen, 0 <= n < 10 ^ Z.of_nat k → (0 < k)%nat →
  scan_decimal (dec_digits k n ++ s) acc seen = scan_decimal s (acc * 10 ^ len (dec_digits k n) + n) true.
Proof.
  induction k as [|k IH]; intros n s acc seen Hn Hk; [lia|]. cbn [dec_digits].
  pose proof (Z.mod_pos_bound n 10 ltac:(lia)) as Hm. destruct (digit_byte _ Hm) as [Hd Hz].
  assert (Hlast : ∀ acc seen, scan_decimal ([bz (48 + n mod 10)] ++ s) acc seen = scan_decimal s (acc * 10 + n mod 10) true).
  { intros acc' seen'. cbn [app scan_decimal]. rewrite Hd, Hz. f_equal. lia. }
  destruct (Z.ltb_spec n 10) as [Hs|Hs].
  - rewrite app_nil_l. rewrite Hlast. rewrite (Z.mod_small n) by lia. do 2 f_equal.
  - assert (0 < k)%nat by (destruct k; [change (10 ^ Z.of_nat 1) with 10 in Hn; lia|lia]).
    assert (Hq : 0 <= n / 10 < 10 ^ Z.of_nat k).
    { split; [apply Z.div_pos; lia|]. apply Z.div_lt_upper_bound; [lia|].
      rewrite Nat2Z.inj_succ, Z.pow_succ_r in Hn by lia. lia. }
    rewrite <- app_assoc, IH by done. rewrite Hlast. f_equal. rewrite len_app. change (len [_]) with 1.
    rewrite Z.pow_add_r by (lia || apply len_nonneg). 
    pose proof (Z.div_mod n 10 ltac:(lia)). change (10 ^ 1) with 10. lia.
Qed.

Lemma scan_decimal_gap s n : at_gap s → scan_decimal s n true = (n, s, true).
Proof.
  intros (b & s' & -> & Hb). simpl. unfold isspace in Hb. unfold isdigit.
  by rewrite (proj2 (andb_false_iff _ _)) by lia.
Qed.

Lemma dec_digits_head k n : 0 <= n → (0 < k)%nat → ∃ d l, 0 <= d < 10 ∧ dec_digits k n = bz (48 + d) :: l.
Proof.
  revert n. induction k as [|k IH]; intros n Hn Hk; [lia|]. cbn [dec_digits].
  pose proof (Z.mod_pos_bound n 10 ltac:(lia)) as Hm.
  destruct (Z.ltb_spec n 10) as [Hs|Hs]; [by exists (n mod 10), []|].
  destruct k as [|k]; [by exists (n mod 10), []|].
  destruct (IH (n / 10)) as (d & l & Hd & ->); [apply Z.div_pos; lia|lia|]. by eexists d, _.
Qed.

Lemma scan_dec_print lo hi n s : lo <= n <= hi → - 10 ^ 20 < n < 10 ^ 20 → at_gap s →
  scan_dec lo hi (x20 :: print_dec n ++ s) = Ok (Some (n, s)).
Proof.
  intros Hr Hn Hs. unfold scan_dec. change (scan_ws (x20 :: print_dec n ++ s)) with (scan_ws (print_dec n ++ s)).
  unfold print_dec. destruct (Z.ltb_spec n 0) as [Hneg|Hneg].
  - change (scan_ws ((x2d :: dec_digits 20 (- n)) ++ s)) with (x2d :: dec_digits 20 (- n) ++ s).
    cbv beta iota. change (zb x2d =? 45) with true. cbv iota.
    rewrite scan_decimal_dec by (simpl; lia). rewrite scan_decimal_gap by done. cbv beta iota zeta.
    rewrite Z.mul_0_l, Z.add_0_l, Z.opp_involutive. cbn [negb].
    by rewrite (proj2 (Z.leb_le lo n)), (proj2 (Z.leb_le n hi)) by lia.
  - destruct (dec_digits_head 20 n) as (d & l & Hd & E); [lia|lia|]. destruct (digit_byte d Hd) as [_ Hz].
    rewrite E, <- app_comm_cons, scan_ws_stop by (rewrite Hz; unfold isspace; lia).
    rewrite Hz. rewrite (proj2 (Z.eqb_neq _ _)), (proj2 (Z.eqb_neq _ _)) by lia. cbv beta iota.
    rewrite app_comm_cons, <- E.
    rewrite scan_decimal_dec by (simpl; lia). rewrite scan_decimal_gap by done. cbv beta iota zeta.
    rewrite Z.mul_0_l, Z.add_0_l. cbn [negb].
    by rewrite (proj2 (Z.leb_le lo n)), (proj2 (Z.leb_le n hi)) by lia.
Qed.

Lemma c_string_id s : Forall (λ b, zb b ≠ 0) s → c_string s = s.
Proof. induction 1 as [|b s Hb _ IH]; simpl; [done|]. by rewrite (proj2 (Z.eqb_neq _ _) Hb), IH. Qed.

Definition no_nul (s : mem) : Prop := Forall (λ b, zb b ≠ 0) s.

(** the text of a line *)
Definition line_text (addr : mem) (bitlen port time : Z) (host : mem) : mem :=
  bytes_of "0 " ++ addr ++ x20 :: print_dec bitlen ++ x20 :: print_dec port
    ++ x20 :: print_dec time ++ x20 :: host ++ [x0a].

Lemma at_gap_cons b s : isspace (zb b) = true → at_gap (b :: s).
Proof. intros H. by exists b, s. Qed.

Lemma scan_line_text addr bitlen port time host rest :
  word 45 addr → no_nul addr → - 2 ^ 31 <= bitlen < 2 ^ 31 → 0 <= port < 2 ^ 16 → - 2 ^ 63 <= time < 2 ^ 63 →
  word 255 host → no_nul host → scan_ws rest = rest →
  scan_line (line_text addr bitlen port time host ++ rest)
  = Ok (Some (CacheLine addr bitlen port time host, rest)).
Proof.
  intros Ha Na Hb Hp Ht Hh Nh Hrest. unfold line_text, scan_line.
  assert (Hsp : ∀ s, at_gap (x20 :: s)) by (intros; by apply at_gap_cons).
  repeat (rewrite <- ?app_assoc, <- ?app_comm_cons).
  change (scan_char (ch "0") (bytes_of "0 " ++ ?s)) with (Some (x20 :: s)). cbv beta iota.
  rewrite scan_str_word by done. cbv beta iota.
  rewrite scan_dec_print by (done || lia). rewrite bind_Ok.
  rewrite scan_dec_print by (done || lia). rewrite bind_Ok.
  rewrite scan_dec_print by (done || lia). rewrite bind_Ok.
  rewrite scan_str_word by (done || by apply at_gap_cons). cbv beta iota.
  change (scan_ws (x0a :: [] ++ rest)) with (scan_ws rest).
  by rewrite Hrest, !c_string_id.
Qed.

Section cache.
Context {cm : CharModel}.
Context (inet_ntop : Z → mem → mem) (inet_pton : Z → mem → option mem).
Implicit Types (e u v : elem) (hdr : mphdr).

(** the stored address survives printing and parsing: its text is a word that
    [addr_str] holds, and stands for the address again *)
Definition text_ok (family : Z) (ip : mem) : Prop :=
  word 45 (inet_ntop family ip) ∧ no_nul (inet_ntop family ip)
  ∧ inet_pton family (inet_ntop family ip) = Some ip.
Definition addr_ok (family : Z) (ip : mem) (bits : Z) : Prop :=
  text_ok family ip
  ∧ ((family = AF_INET ∧ len ip = 4 ∧ bits <= 32)
     ∨ (family = AF_INET6 ∧ len ip = 16 ∧ bits <= 128
        ∧ inet_pton AF_INET (inet_ntop AF_INET6 ip) = None)).

(** the host name of an entry, if it has one: a word that [host] holds *)
Definition extra_ok e : Prop :=
  match el_extra e with
  | Some x => el_extra_len e = len x ∧ word 255 x ∧ no_nul x
  | None => True
  end.

Definition printable e : Prop :=
  bits_ok e ∧ 32 <= el_len e ∧ - 2 ^ 63 <= el_time e < 2 ^ 63 ∧ extra_ok e ∧ ∃ family port ip,
    el_data e = mk_key family port ip ∧ 0 <= port < 2 ^ 16
    ∧ addr_ok family ip (el_len e - 32).

Definition dump_host e : mem :=
  match el_extra e with Some x => x | None => bytes_of "-" end.

Lemma mk_key_fields family port ip :
  0 <= family < 2 ^ 16 → 0 <= port < 2 ^ 16 →
  key_family (mk_key family port ip) = Ok family
  ∧ key_port (mk_key family port ip) = Ok port
  ∧ ∀ n, len ip = n → key_ip (mk_key family port ip) n = Ok ip.
Proof.
  intros Hf Hp. unfold key_family, key_port, key_ip, mk_key, rd. simpl.
  rewrite !zb_bz. rewrite !Z.shiftr_div_pow2 by lia. unfold u8.
  split_and!.
  - f_equal. rewrite (Z.mod_small (family / 2 ^ 8)).
    + pose proof (Z.div_mod family (2 ^ 8)). lia.
    + split; [apply Z.div_pos; lia|apply Z.div_lt_upper_bound; lia].
  - f_equal. rewrite (Z.mod_small (port / 2 ^ 8)).
    + pose proof (Z.div_mod port (2 ^ 8)). lia.
    + split; [apply Z.div_pos; lia|apply Z.div_lt_upper_bound; lia].
  - intros n <-. rewrite !len_cons. unfold KEY_IP.
    rewrite (proj2 (Z.leb_le _ _)) by lia. f_equal. unfold slice. simpl.
    rewrite drop_0, to_nat_len. by apply take_ge.
Qed.

Lemma dump_host_ok e : extra_ok e →
  word 255 (dump_host e) ∧ no_nul (dump_host e)
  ∧ print_str (if el_extra_len e =? 0 then 1 else el_extra_len e) (dump_host e) = dump_host e.
Proof.
  unfold extra_ok, dump_host, print_str. destruct (el_extra e) as [x|].
  - intros (-> & Hw & Hn). split_and!; [done|done|]. destruct Hw as [Hl _].
    rewrite (proj2 (Z.eqb_neq _ _)), (proj2 (Z.ltb_ge _ _)) by lia. rewrite to_nat_len, take_ge by done. by apply c_string_id.
  - intros _. split_and!; [by repeat constructor|by repeat constructor|].
    destruct (Z.eqb_spec (el_extra_len e) 0); [done|]. destruct (Z.ltb_spec (el_extra_len e) 0); [done|].
    rewrite take_ge; [done|]. change (length (bytes_of "-")) with 1%nat. lia.
Qed.

(** a printed entry is a line that is read back *)
Definition text_of (l : cache_line) : mem := line_text (cl_addr l) (cl_bitlen l) (cl_port l) (cl_time l) (cl_host l).
Lemma dump_line_ok e :
  printable e →
  ∃ l, dump_line inet_ntop e = Ok (text_of l)
    ∧ (∀ rest, scan_ws rest = rest → scan_line (text_of l ++ rest) = Ok (Some (l, rest)))
    ∧ line_key inet_pton l = Some (el_data e, el_len e)
    ∧ cl_time l = el_time e ∧ cl_host l = dump_host e.
Proof.
  intros ([_ Hb] & Hlo & Ht & Hx & f & p & ip & Hd & Hp & (Hw & Hn & Hpton) & Ha).
  assert (Hf : 0 <= f < 2 ^ 16) by (destruct Ha as [(-> & _)|(-> & _)]; unfold AF_INET, AF_INET6; lia).
  destruct (mk_key_fields f p ip Hf Hp) as (E1 & E2 & E3).
  destruct (dump_host_ok e Hx) as (Wh & Nh & Eh).
  assert (Hbits : 0 <= el_len e - 32 <= 128) by (destruct Ha as [(_ & _ & ?)|(_ & _ & ? & _)]; lia).
  exists (CacheLine (inet_ntop f ip) (el_len e - 32) p (el_time e) (dump_host e)). split_and!; [| | |done|done]; unfold text_of; cbn [cl_addr cl_bitlen cl_port cl_time cl_host].
  - unfold dump_line. rewrite Hd, E1, bind_Ok.
    fold (dump_host e). rewrite Eh. change (KEY_IP * 8) with 32.
    destruct Ha as [(-> & Hl & _)|(-> & Hl & _)].
    + change (AF_INET =? AF_INET) with true. cbv beta iota. rewrite (E3 4 Hl), !bind_Ok, E2, bind_Ok. reflexivity.
    + change (AF_INET6 =? AF_INET) with false. cbv beta iota. rewrite (E3 16 Hl), !bind_Ok, E2, bind_Ok. reflexivity.
  - intros rest Hrest. apply scan_line_text; try done; lia.
  - unfold line_key, KEY_IP. cbn [cl_addr cl_bitlen cl_port].
    rewrite (proj2 (orb_false_iff _ _)) by lia.
    destruct Ha as [(-> & _ & Hl)|(-> & _ & Hl & E)].
    + rewrite Hpton, (proj2 (Z.ltb_ge _ _)) by lia. rewrite <- Hd. do 2 f_equal. lia.
    + rewrite E, Hpton, (proj2 (Z.ltb_ge _ _)) by lia. rewrite <- Hd. do 2 f_equal. lia.
Qed.

(** *** Dumping *)

Definition of_group (dp : option nat) e : bool := bool_decide (el_dp e = dp).

(** [out] is the lines of the entries [es] *)
Definition dumped es (out : mem) : Prop :=
  ∃ ls, Forall2 (λ e l, dump_line inet_ntop e = Ok l) es ls ∧ out = concat ls.

Lemma dumped_snoc es out e l : dumped es out → dump_line inet_ntop e = Ok l → dumped (es ++ [e]) (out ++ l).
Proof.
  intros (ls & Hf & ->) Hl. exists (ls ++ [l]). split.
  - apply Forall2_app; [done|]. by constructor.
  - rewrite concat_app. simpl. by rewrite app_nil_r.
Qed.

Lemma dump_cache_spec fuel hdr dp :
  avl (h_root hdr) → count (h_root hdr) < 2 ^ 32 →
  count (h_root hdr) < Z.of_nat fuel →
  Forall printable (List.filter (of_group dp) (contents hdr)) →
  wp (dump_cache inet_ntop fuel hdr dp) (dumped (List.filter (of_group dp) (contents hdr))).
Proof.
  intros Ht Hf Hfuel Hpr. unfold dump_cache, contents in *.
  destruct (h_root hdr) as [|tl x b s tr] eqn:E; [by exists []|].
  rewrite <- E in *. pose proof (avl_height _ Ht Hf) as Hh.
  wp_use kavl_itr_first_spec; [by rewrite E|lia|]. intros itr [Hok Hrest].
  apply (wp_loop (λ '(itr, out), itr_ok itr ∧ ∃ visited,
      elements (h_root hdr) = visited ++ rest_of (stack itr)
      ∧ dumped (List.filter (of_group dp) visited) out)
    (λ '(itr, _), Z.of_nat (length (rest_of (stack itr))))).
  - intros [? ?] _. lia.
  - clear itr Hok Hrest. intros [itr out] (Hok & visited & He & Hout). unfold dump_step.
    destruct (kavl_at_spec itr Hok) as (y & -> & Hhd).
    destruct (rest_of (stack itr)) as [|y' rest] eqn:Er; [done|]. injection Hhd as ->.
    assert (Hnext : ∀ out', dumped (List.filter (of_group dp) (visited ++ [y])) out' →
      wp (next ← kavl_itr_next itr; match next with
          | Some itr => Ok (inl (itr, out')) | None => Ok (inr out') end)
        (λ r, match r with
         | inl s' => (let '(itr0, out0) := s' in itr_ok itr0 ∧ ∃ visited0,
             elements (h_root hdr) = visited0 ++ rest_of (stack itr0)
             ∧ dumped (List.filter (of_group dp) visited0) out0)
             ∧ (let '(itr0, _) := s' in Z.of_nat (length (rest_of (stack itr0)))) < Z.of_nat (length (y :: rest))
         | inr x0 => dumped (List.filter (of_group dp) (elements (h_root hdr))) x0 end)).
    { intros out' Hout'. wp_use kavl_itr_next_spec; [done|]. rewrite Er. simpl.
      intros [itr'|].
      - intros [Hok' Hr']. simpl. split; [|rewrite Hr'; lia]. split; [done|].
        exists (visited ++ [y]). by rewrite Hr', He, <- app_assoc.
      - intros ->. by rewrite He. }
    rewrite List.filter_app in Hnext. simpl in Hnext.
    destruct (decide (el_dp y = dp)) as [Hdp|Hdp].
    + assert (of_group dp y = true) as Hg by by apply bool_decide_eq_true. rewrite Hg in Hnext.
      assert (printable y) as Hy.
      { rewrite Forall_forall in Hpr. apply Hpr. rewrite He, List.filter_app.
        apply elem_of_app. right. simpl. rewrite Hg. left. }
      destruct (dump_line_ok y Hy) as (l & Hl & _). rewrite Hl. do 2 bstep.
      apply Hnext. by apply dumped_snoc.
    + assert (of_group dp y = false) as Hg by by apply bool_decide_eq_false. rewrite Hg in Hnext.
      bstep. apply Hnext. by rewrite app_nil_r.
  - split; [done|]. exists []. rewrite Hrest. split; [done|]. by exists [].
  - rewrite Hrest. unfold count in Hfuel. lia.
Qed.

(** *** Loading *)

(** the entry [load_cache] makes of a dumped entry *)
Definition reload (dp : option nat) e : elem :=
  let n := len (dump_host e) in
  Elem (el_len e) (el_data e) CMP_BITS n
    (if 1 <? n then Some (dump_host e) else None) 0 dp 0 (el_time e).

Notation unrelated e l := (∀ u, u ∈ l → ¬ related (key := bits_key) e u).

Lemma related_reload dp e u :
  related (key := bits_key) (reload dp e) u ↔ related (key := bits_key) e u.
Proof. done. Qed.

(** adding a key unrelated to the pool *)
Lemma mem_add_fresh fuel hdr e :
  address_pool hdr → bits_ok e → unrelated e (contents hdr) →
  count (h_root hdr) + 1 < 2 ^ 32 → count (h_root hdr) + 2 < Z.of_nat fuel →
  wp (mem_add fuel true hdr (el_data e) (el_len e)) (λ '(hdr', v, _),
    let e' := new_elem CMP_BITS (el_data e) (el_len e) in
    v = Some e' ∧ address_pool hdr' ∧ e' ∈ contents hdr' ∧ contents hdr' ≡ₚ e' :: contents hdr).
Proof.
  intros [Hp Hct] He Hun Hfit Hfuel.
  set (e' := new_elem CMP_BITS (el_data e) (el_len e)).
  assert (He' : bits_ok e') by by destruct He.
  eapply wp_mono; [apply (mem_add_spec (ok := bits_ok) (key := bits_key)); [done| |done| |done]|].
  - by rewrite Hct.
  - intros v [Hv Hvl]. by rewrite Hct.
  - rewrite Hct. fold e'. intros [[hdr' v] freed] (Hp' & Hct' & v' & -> & Hin & Hadd). simpl.
    destruct Hadd as [(Hv & Hpre & _)|(-> & Hno & Hfr & _ & Hperm)].
    { destruct (Hun v' Hv). apply related_prefix. by right. }
    assert (freed = []) as ->.
    { destruct freed as [|u freed]; [done|exfalso].
      assert (Hu : ∀ w, w ∈ contents hdr → ¬ related (key := bits_key) e' w) by done.
      assert (Hue : u ∈ e' :: contents hdr) by (rewrite <- Hperm; by left).
      apply elem_of_cons in Hue as [->|Hu'].
      - assert (Hin2 : e' ∈ contents hdr).
        { apply elem_of_Permutation in Hin as [l Hl].
          assert (Heq : freed ++ e' :: l ≡ₚ contents hdr).
          { apply (Permutation_cons_inv (a:=e')). rewrite <- Hperm, Hl. done. }
          rewrite <- Heq. apply elem_of_app. right. left. }
        apply (Hu e' Hin2). apply related_prefix. by left.
      - apply (Hu u Hu'). apply related_prefix. left. apply Hfr. by left. }
    split_and!; [done|split; [done|congruence]|done|done].
Qed.

Lemma load_line_ok fuel hdr e l dp :
  address_pool hdr → printable e →
  line_key inet_pton l = Some (el_data e, el_len e) → cl_time l = el_time e → cl_host l = dump_host e →
  unrelated e (contents hdr) →
  count (h_root hdr) + 1 < 2 ^ 32 → count (h_root hdr) + 2 < Z.of_nat fuel →
  wp (load_line inet_pton fuel hdr l dp) (λ r, ∃ hdr', r = inl hdr'
    ∧ address_pool hdr' ∧ contents hdr' ≡ₚ reload dp e :: contents hdr).
Proof.
  intros Hp He Hkey Htime Hhost Hun Hfit Hfuel. unfold load_line. rewrite Hkey.
  wp_use mem_add_fresh; [done|apply He|done..|].
  intros [[hdr' v] freed] (-> & [Hp' Hct'] & Hin & Hperm). simpl.
  set (e' := new_elem CMP_BITS (el_data e) (el_len e)) in *.
  assert (Hw : load_write dp l e' = reload dp e).
  { unfold load_write, reload. rewrite Htime, Hhost. simpl.
    by destruct (1 <? len (dump_host e)). }
  wp_use (elem_write_spec (ok := bits_ok) (key := bits_key));
    [done|done|by rewrite Hw; destruct He as [[? ?] _]|by rewrite Hw|].
  intros hdr'' (Hp'' & Hct'' & l1 & l2 & Hc & Hc'). rewrite Hw in Hc'. simpl.
  eexists. split; [done|]. split; [split; [done|congruence]|].
  rewrite Hc', <- Permutation_middle. f_equiv.
  rewrite Hc, <- Permutation_middle in Hperm. by apply Permutation_cons_inv in Hperm.
Qed.

(** a text of lines begins with no white space *)
Lemma dumped_head es ls : Forall printable es →
  Forall2 (λ e l, dump_line inet_ntop e = Ok l) es ls → scan_ws (concat ls) = concat ls.
Proof.
  intros Hpr Hf. destruct Hf as [|e l es ls Hl _]; [done|].
  apply Forall_cons in Hpr as [He _]. destruct (dump_line_ok e He) as (l' & E & _).
  rewrite E in Hl. by injection Hl as <-.
Qed.

Lemma load_loop_spec es : ∀ fuel n hdr ls dp,
  address_pool hdr → Forall printable es →
  Forall2 (λ e l, dump_line inet_ntop e = Ok l) es ls →
  (∀ e, e ∈ es → unrelated e (contents hdr)) →
  antichain (ok := bits_ok) (key := bits_key) es →
  count (h_root hdr) + Z.of_nat (length es) + 1 < 2 ^ 32 →
  count (h_root hdr) + Z.of_nat (length es) + 2 < Z.of_nat fuel →
  (length es < n)%nat →
  wp (loop n (load_step inet_pton fuel dp) (hdr, concat ls)) (λ hdr',
    address_pool hdr' ∧ contents hdr' ≡ₚ map (reload dp) es ++ contents hdr).
Proof.
  induction es as [|e es IH]; intros fuel n hdr ls dp Hp Hpr Hls Hun Hanti Hfit Hfuel Hn;
    (destruct n as [|n]; [simpl in Hn; lia|]); rewrite loop_S; cbn [load_step].
  { apply Forall2_nil_inv_l in Hls as ->. simpl. done. }
  apply Forall2_cons_inv_l in Hls as (t & ls' & Ht & Hls & ->). pose proof Hpr as [He Hpr']%Forall_cons.
  destruct (dump_line_ok e He) as (l & E & Hscan & Hkey & Htime & Hhost). rewrite E in Ht. injection Ht as <-.
  cbn [concat]. rewrite Hscan by by apply dumped_head with es. rewrite !bind_Ok.
  apply wp_bind. wp_use load_line_ok; [done|done|done|done|done|by apply Hun; left|simpl in *; lia|simpl in *; lia|].
  intros r (hdr' & -> & Hp' & Hperm). apply wp_ok.
  assert (Hc : count (h_root hdr') = count (h_root hdr) + 1).
  { rewrite !count_contents, Hperm. simpl. lia. }
  destruct Hanti as [[_ Hok]%Forall_cons [Hs Hrel]%StronglySorted_inv].
  eapply wp_mono; [apply IH; [done|done|done| |by split|simpl in *; lia|simpl in *; lia|simpl in *; lia]|].
  - intros e2 He2 u. rewrite Hperm. intros [->|Hu]%elem_of_cons.
    + rewrite Forall_forall in Hrel. specialize (Hrel e2 He2). unfold related.
      change (bits_key (reload dp e)) with (bits_key e). rewrite pcmp_flip. lia.
    + apply Hun; [by right|done].
  - intros hdr'' [Hp'' Hperm'']. split; [done|].
    by rewrite Hperm'', Hperm, <- Permutation_middle.
Qed.

Lemma load_cache_spec fuel hdr es out dp :
  address_pool hdr → Forall printable es → dumped es out →
  (∀ e, e ∈ es → unrelated e (contents hdr)) →
  antichain (ok := bits_ok) (key := bits_key) es →
  count (h_root hdr) + Z.of_nat (length es) + 1 < 2 ^ 32 →
  count (h_root hdr) + Z.of_nat (length es) + 2 < Z.of_nat fuel →
  wp (load_cache inet_pton fuel hdr out dp) (λ hdr',
    address_pool hdr' ∧ contents hdr' ≡ₚ map (reload dp) es ++ contents hdr).
Proof.
  intros Hp Hpr (ls & Hls & ->) Hun Hanti Hfit Hfuel. unfold load_cache.
  apply load_loop_spec; try done.
  clear -Hls Hpr. revert Hpr. induction Hls as [|e l es ls Hl _ IH]; intros Hpr; [simpl; lia|].
  apply Forall_cons in Hpr as [He Hpr]. specialize (IH Hpr). destruct (dump_line_ok e He) as (l' & E & _).
  rewrite E in Hl. injection Hl as <-. simpl. rewrite !length_app. simpl. lia.
Qed.
End cache.

(** the entries of a group are unrelated to one another *)
Lemma group_antichain f l : antichain (ok := bits_ok) (key := bits_key) l →
  antichain (ok := bits_ok) (key := bits_key) (List.filter f l).
Proof.
  intros [Hok Hs]. induction Hs as [|a l Hs IH Ha]; simpl; [by split; constructor|].
  apply Forall_cons in Hok as [Hoka Hok]. specialize (IH Hok) as [IH1 IH2].
  destruct (f a); [|done]. split; [by constructor|]. constructor; [done|].
  rewrite Forall_forall in *. intros b Hb. apply Ha.
  apply list_elem_of_In, List.filter_In in Hb as [Hb _]. by apply list_elem_of_In.
Qed.

(** C5: Round trip of the cache file: loading the text that was printed for
    the entries of one group of a pool in good order into an empty pool gives
    a pool in good order with exactly the same address prefixes, ports and
    times, and the same host names of two characters and more ([reload]: a name
    of one character is not kept).  [fprintf] and [fscanf] work on the text, so
    the entries must be [printable]: a host name has at most 255 bytes and no
    white space or NUL, the text of an address has at most 45 bytes and no
    white space, and [inet_pton] reads what [inet_ntop] wrote. *)
Theorem cache_file_roundtrip `{cm : CharModel}
    (inet_ntop : Z → mem → mem) (inet_pton : Z → mem → option mem)
    (fuel : nat) (hdr : mphdr) (dp dp' : option nat) :
  let es := List.filter (of_group dp) (contents hdr) in
  address_pool hdr → Forall (printable inet_ntop inet_pton) es →
  count (h_root hdr) + 1 < 2 ^ 32 → count (h_root hdr) + 2 < Z.of_nat fuel →
  wp (text ← dump_cache inet_ntop fuel hdr dp;
      load_cache inet_pton fuel (mem_pool MF_EXTRA CMP_BITS) text dp') (λ hdr',
    address_pool hdr' ∧ contents hdr' ≡ₚ map (reload dp') es).
Proof.
  intros es [Hp Hct] Hpr Hfit Hfuel. pose proof Hp as [Ht Hanti _ Hf].
  assert (Hlen : Z.of_nat (length es) <= count (h_root hdr)).
  { unfold es, count. pose proof (List.filter_length_le (of_group dp) (contents hdr)).
    unfold contents in *. lia. }
  wp_use dump_cache_spec; [done|done|lia|done|]. intros out Hout.
  eapply wp_mono; [apply (load_cache_spec inet_ntop inet_pton fuel _ es); try done|].
  - split; [apply pool_new|done].
  - intros e _ u Hu. by apply elem_of_nil in Hu.
  - by apply group_antichain.
  - unfold count. simpl. lia.
  - unfold count at 1. simpl. lia.
  - intros hdr' [Hp' Hperm]. split; [done|]. by rewrite app_nil_r in Hperm.
Qed.

(** [inet_ntop] and [inet_pton] for one address *)
Definition text_ntop (_ : Z) (_ : mem) : mem := bytes_of "10.0.0.1".
Definition text_pton (family : Z) (s : mem) : option mem :=
  if bool_decide (family = AF_INET ∧ s = bytes_of "10.0.0.1") then Some [x0a; x00; x00; x01] else None.

(** one cached route of group 0: 10.0.0.1, port 443 *)
Definition one_route (host : mem) : mphdr :=
  Mphdr MF_EXTRA CMP_BITS 1 (Node Leaf
    (Elem 64 (mk_key AF_INET 443 [x0a; x00; x00; x01]) CMP_BITS
       (len host) (Some host) 1 (Some 0%nat) 0 1700000000) 0 1 Leaf).

Lemma cache_file_roundtrip_witness : let cm : CharModel := true in
  wp (text ← dump_cache text_ntop 9 (one_route (bytes_of "a.b")) (Some 0%nat);
      load_cache text_pton 9 (mem_pool MF_EXTRA CMP_BITS) text (Some 2%nat)) (λ hdr',
    contents hdr' ≡ₚ [Elem 64 (mk_key AF_INET 443 [x0a; x00; x00; x01]) CMP_BITS
       3 (Some (bytes_of "a.b")) 0 (Some 2%nat) 0 1700000000]).
Proof.
  intros cm. eapply wp_mono.
  - apply (cache_file_roundtrip text_ntop text_pton 9 (one_route (bytes_of "a.b")) (Some 0%nat) (Some 2%nat)).
    + split; [|done]. split; simpl; [by split_and!|split|done|by vm_compute].
      * repeat constructor; done.
      * repeat constructor.
    + constructor; [|constructor]. split_and!; [split; done|done|done|done|by split_and!; repeat constructor|].
      exists AF_INET, 443, [x0a; x00; x00; x01]. split; [done|]. split; [done|].
      split; [|by left]. split_and!; [done..|by repeat constructor|by repeat constructor|done].
    + by vm_compute.
    + by vm_compute.
  - intros hdr' [_ H]. exact H.
Defined.

(** the text of that route *)
Example one_route_text : let cm : CharModel := true in
  dump_cache text_ntop 9 (one_route (bytes_of "a.b")) (Some 0%nat)
  = Ok (bytes_of "0 10.0.0.1 32 443 1700000000 a.b" ++ [x0a]).
Proof. by vm_compute. Qed.

(** A host name with a blank is written as it is and read back as two words:
    the first stays, and the rest of the name is where [load_cache] expects the
    next line, so that it stops there and whatever follows is lost. *)
Lemma blank_host_stops : let cm : CharModel := true in
  let line host := bytes_of "0 10.0.0.1 32 443 1700000000 " ++ host ++ [x0a] in
  dump_cache text_ntop 9 (one_route (bytes_of "a.b c")) (Some 0%nat) = Ok (line (bytes_of "a.b c"))
  ∧ ∀ rest, load_step text_pton 9 (Some 0%nat) (mem_pool MF_EXTRA CMP_BITS, line (bytes_of "a.b c") ++ rest)
      = Ok (inl (one_route (bytes_of "a.b") <| h_root := Node Leaf
          (Elem 64 (mk_key AF_INET 443 [x0a; x00; x00; x01]) CMP_BITS 3 (Some (bytes_of "a.b")) 0 (Some 0%nat) 0 1700000000) 0 1 Leaf |>,
          bytes_of "c" ++ [x0a] ++ rest))
    ∧ ∀ hdr, load_step text_pton 9 (Some 0%nat) (hdr, bytes_of "c" ++ [x0a] ++ rest) = Ok (inr hdr).
Proof. intros cm line. split; [by vm_compute|]. intros rest. split; [by vm_compute|done]. Qed.
