(* ===== verification/World.v ===== *)
(** * The shared state of byedpi, and its system calls

    The structures of params.h and conev.h as records, the process state
    they live in ([world]), and a state monad for the code that changes it.

    Pointers.  [struct eval *] is an index into [pool->items] (the array
    never moves), [struct buffer *] an index into the buffer heap [w_bufs]
    (a freed slot is [None]: any use is [UB]), a pointer to a mapping made by
    [alloc_pktd] an index into [w_maps] with an offset, [struct
    desync_params *] an index into [w_dps].  Function pointers ([evcb_t])
    are the names of the callbacks.

    System calls.  The kernel is a parameter ([Kernel]): the reply to a call
    is a function of the calls and replies so far, which the world records
    in [w_trace].  A failing call sets [errno].  [malloc], [rand] and
    [time] are calls too. *)

From Stdlib Require Import ZArith Lia Bool List.
From Stdlib Require Import Strings.Byte Strings.Ascii Strings.String.
From stdpp Require Import base tactics list numbers option.
From S2P Require Import Prelude CMem MPool.

(* ------------------------------------------------------------------ *)
(** ** Constants *)

Definition OFFSET_END : Z := 1.
Definition OFFSET_MID : Z := 2.
Definition OFFSET_RAND : Z := 4.
Definition OFFSET_SNI : Z := 8.
Definition OFFSET_HOST : Z := 16.
Definition OFFSET_START : Z := 32.

Definition DETECT_HTTP_LOCAT : Z := 1.
Definition DETECT_TLS_ERR : Z := 2.
Definition DETECT_TORST : Z := 8.
Definition DETECT_CONNECT : Z := 16.

Definition AUTO_ONRECONN : Z := 1.
Definition AUTO_NORECONN : Z := 2.
Definition AUTO_SORT : Z := 4.

Definition MODE_SOCKS5 : Z := 1.
Definition MODE_SOCKS4 : Z := 2.
Definition MODE_HTTP : Z := 4.
Definition MODE_TRANSPARENT : Z := 8.
Definition MODE_SHADOWSOCKS : Z := 16.
Definition MODE_RAWTLS : Z := 32.
Definition MODE_TCP : Z := 64.

Definition FM_RAND : Z := 1.
Definition FM_ORIG : Z := 2.

Inductive demode : Type :=
| DESYNC_NONE | DESYNC_SPLIT | DESYNC_DISORDER | DESYNC_OOB | DESYNC_DISOOB
| DESYNC_FAKE.
#[export] Instance demode_eq_dec : EqDecision demode.
Proof. solve_decision. Defined.

Definition EPOLL_CTL_ADD : Z := 1.
Definition EPOLL_CTL_DEL : Z := 2.
Definition EPOLL_CTL_MOD : Z := 3.

Definition FLAG_S4 : Z := 1.
Definition FLAG_S5 : Z := 2.
Definition FLAG_CONN : Z := 4.
Definition FLAG_HTTP : Z := 8.

Definition MAX_BUFF_INP : Z := 8.

(** poll events (epoll's values) *)
Definition POLLIN : Z := 1.
Definition POLLOUT : Z := 4.
Definition POLLERR : Z := 8.
Definition POLLHUP : Z := 16.
Definition POLLRDHUP : Z := 8192.
Definition POLLTIMEOUT : Z := 0.

(** Linux errno values *)
Definition ENOENT : Z := 2.
Definition EINTR : Z := 4.
Definition EAGAIN : Z := 11.
Definition EMSGSIZE : Z := 90.
Definition ENETUNREACH : Z := 101.
Definition ECONNRESET : Z := 104.
Definition ETIMEDOUT : Z := 110.
Definition ECONNREFUSED : Z := 111.
Definition EHOSTUNREACH : Z := 113.
Definition EINPROGRESS : Z := 115.

(* ------------------------------------------------------------------ *)
(** ** Configuration: params.h *)

Record part : Type := Part {
  pt_m : demode; pt_flag : Z; pt_pos : Z; pt_r : Z; pt_s : Z
}.

(** [pk_data = None] is the null pointer *)
Record packet : Type := Packet { pk_size : Z; pk_data : option mem; pk_off : Z }.

(** an array with its count ([parts], [parts_n]) is a list; the hosts, ipset
    and cache pools are owned by their pointer *)
Record desync_params : Type := DesyncParams {
  d_ttl : Z; d_md5sig : bool; d_fake_data : packet; d_udp_fake_count : Z;
  d_fake_offset : option part; d_fake_sni_list : list mem; d_fake_mod : Z;
  d_fake_tls_size : Z; d_drop_sack : bool; d_oob_char : byte * byte;
  d_parts : list part; d_mod_http : Z; d_tlsrec : list part;
  d_tlsminor : Z; d_tlsminor_set : bool;
  d_proto : Z; d_detect : Z; d_auto_level : Z;
  d_hosts : option mphdr; d_ipset : option mphdr; d_pf : Z * Z; d_rounds : Z * Z;
  d_out_type : Z; d_out_addr : mem;
  d_id : Z; d_bit : Z; d_fail_count : Z; d_pri : Z; d_cache_ttl : Z;
  d_prev : option nat; d_next : option nat
}.
#[export] Instance desync_params_eta : Eta desync_params := λ d,
  DesyncParams (d_ttl d) (d_md5sig d) (d_fake_data d) (d_udp_fake_count d)
    (d_fake_offset d) (d_fake_sni_list d) (d_fake_mod d)
    (d_fake_tls_size d) (d_drop_sack d) (d_oob_char d)
    (d_parts d) (d_mod_http d) (d_tlsrec d) (d_tlsminor d) (d_tlsminor_set d)
    (d_proto d) (d_detect d) (d_auto_level d)
    (d_hosts d) (d_ipset d) (d_pf d) (d_rounds d)
    (d_out_type d) (d_out_addr d)
    (d_id d) (d_bit d) (d_fail_count d) (d_pri d) (d_cache_ttl d)
    (d_prev d) (d_next d).

Record params : Type := Params {
  p_dp : option nat; p_dp_full_mask : Z; p_await_int : Z; p_wait_send : bool;
  p_def_ttl : Z; p_custom_ttl : bool; p_tfo : bool;
  p_timeout : Z; p_ptimeout : Z; p_to_count_lim : Z; p_to_bytes_lim : Z;
  p_cache_pre : Z; p_mode : Z; p_ipv6 : bool; p_resolve : bool; p_udp : bool;
  p_delay_conn : bool; p_auto_reconnect : bool; p_max_open : Z; p_debug : Z;
  p_bfsize : Z; p_baddr : mem; p_laddr : mem; p_mempool : mphdr;
  p_protect_path : option mem
}.
#[export] Instance params_eta : Eta params := λ p,
  Params (p_dp p) (p_dp_full_mask p) (p_await_int p) (p_wait_send p)
    (p_def_ttl p) (p_custom_ttl p) (p_tfo p)
    (p_timeout p) (p_ptimeout p) (p_to_count_lim p) (p_to_bytes_lim p)
    (p_cache_pre p) (p_mode p) (p_ipv6 p) (p_resolve p) (p_udp p)
    (p_delay_conn p) (p_auto_reconnect p) (p_max_open p) (p_debug p)
    (p_bfsize p) (p_baddr p) (p_laddr p) (p_mempool p) (p_protect_path p).

(* ------------------------------------------------------------------ *)
(** ** Connections: conev.h *)

Inductive evcb : Type :=
| ON_ACCEPT | ON_REQUEST | ON_TUNNEL | ON_UDP_TUNNEL | ON_CONNECT | ON_IGNORE
| ON_SOCKS_CONN | ON_SOCKS_RECV | RECV_AND_CONNECT.
#[export] Instance evcb_eq_dec : EqDecision evcb.
Proof. solve_decision. Defined.

Record buffer : Type := Buffer {
  b_size : Z; b_offset : Z; b_lock : Z; b_next : option nat; b_data : mem
}.
#[export] Instance buffer_eta : Eta buffer := λ b,
  Buffer (b_size b) (b_offset b) (b_lock b) (b_next b) (b_data b).

Record eval : Type := MkEval {
  e_fd : Z; e_index : Z; e_mod_iter : Z; e_cb : option evcb;
  e_tv_ms : Z; e_tv_next : option nat; e_tv_prev : option nat;
  e_after_conn_cb : option evcb; e_conn_state : Z;
  e_pair : option nat; e_buff : option nat; e_sq_buff : option nat;
  e_flag : Z; e_addr : mem; e_host : option mem; e_host_len : Z;
  e_recv_count : Z; e_round_sent : Z; e_round_count : Z;
  e_dp : option nat; e_dp_mask : Z; e_detect : Z; e_mark : bool; e_to_count : Z;
  e_tls_rec_size : Z; e_tls_rec_pos : Z; e_tls_rec : mem;
  e_restore_ttl : bool; e_restore_md5 : bool;
  e_restore_fake : option (nat * Z); e_restore_fake_len : Z;
  e_restore_orig : option (nat * Z); e_restore_orig_len : Z;
  e_part_sent : Z
}.
#[export] Instance eval_eta : Eta eval := λ e,
  MkEval (e_fd e) (e_index e) (e_mod_iter e) (e_cb e)
    (e_tv_ms e) (e_tv_next e) (e_tv_prev e)
    (e_after_conn_cb e) (e_conn_state e)
    (e_pair e) (e_buff e) (e_sq_buff e)
    (e_flag e) (e_addr e) (e_host e) (e_host_len e)
    (e_recv_count e) (e_round_sent e) (e_round_count e)
    (e_dp e) (e_dp_mask e) (e_detect e) (e_mark e) (e_to_count e)
    (e_tls_rec_size e) (e_tls_rec_pos e) (e_tls_rec e)
    (e_restore_ttl e) (e_restore_md5 e)
    (e_restore_fake e) (e_restore_fake_len e)
    (e_restore_orig e) (e_restore_orig_len e)
    (e_part_sent e).

(** [sizeof(union sockaddr_u)] *)
Definition SOCKADDR_U : nat := 28.
Definition zero_addr : mem := repeat x00 SOCKADDR_U.

(** [memset(val, 0, sizeof( *val))] *)
Definition zero_eval : eval :=
  MkEval 0 0 0 None 0 None None None 0 None None None 0 zero_addr None 0 0 0 0
    None 0 0 false 0 0 0 (repeat x00 5) false false None 0 None 0 0.

Record poolhd : Type := Poolhd {
  ph_max : Z; ph_count : Z; ph_efd : Z;
  ph_links : list nat; ph_items : list eval; ph_pevents : list (nat * Z);
  ph_iters : Z; ph_brk : bool;
  ph_tv_start : option nat; ph_tv_end : option nat;
  ph_root_buff : option nat; ph_buff_count : Z
}.
#[export] Instance poolhd_eta : Eta poolhd := λ p,
  Poolhd (ph_max p) (ph_count p) (ph_efd p)
    (ph_links p) (ph_items p) (ph_pevents p)
    (ph_iters p) (ph_brk p)
    (ph_tv_start p) (ph_tv_end p)
    (ph_root_buff p) (ph_buff_count p).

(* ------------------------------------------------------------------ *)
(** ** System calls *)

(** what is asked of [malloc] and [calloc] *)
Inductive alloc : Type :=
| A_POOLHD | A_PEVENTS (count : Z) | A_LINKS (count : Z) | A_ITEMS (count : Z)
| A_BUFFER (size : Z) | A_BYTES (n : Z) | A_ELEM.

(** [ClockGettime] answers nanoseconds; an [epoll_event] carries an eval *)
Inductive call : Type :=
| EpollCreate (n : Z)
| EpollCtl (efd op fd events : Z) (data : option nat)
| EpollWait (efd maxevents ms : Z)
| Close (fd : Z)
| Mmap (n : Z) | Munmap (obj : nat) (off n : Z)
| Malloc (what : alloc) | ClockGettime | Time | Rand
| Socket (domain type : Z) | Bind (fd : Z) (addr : mem)
| Connect (fd : Z) (addr : mem) | Listen (fd backlog : Z)
| Accept4 (fd : Z) | Getsockname (fd : Z) | Getpeername (fd : Z)
| Setsockopt (fd level opt : Z) (val : mem)
| Getsockopt (fd level opt n : Z)
| Send (fd : Z) (data : mem) (flags : Z)
| Recv (fd n : Z) | Recvfrom (fd n : Z)
| Pipe | Vmsplice (fd : Z) (data : mem) | Splice (fd_in fd_out n : Z)
| SendFd (fd sent : Z)
| Getaddrinfo (host : mem) (family socktype flags : Z).

(** what comes back: the return value, [errno] if it is negative, the bytes
    written to the caller's buffer, the events of [epoll_wait] *)
Record reply : Type := Reply {
  r_ret : Z; r_errno : Z; r_data : mem; r_events : list (nat * Z)
}.

Definition history : Type := list (call * reply).

Class Kernel := kernel : history → call → reply.

(* ------------------------------------------------------------------ *)
(** ** The process state *)

Record world : Type := World {
  w_pool : poolhd;
  w_bufs : list (option buffer);
  w_maps : list (option mem);
  w_params : params;
  w_dps : list desync_params;
  w_errno : Z;
  w_trace : history
}.
#[export] Instance world_eta : Eta world := λ w,
  World (w_pool w) (w_bufs w) (w_maps w) (w_params w) (w_dps w) (w_errno w) (w_trace w).

(** the state monad over [res] *)
Definition M (A : Type) : Type := world → res (A * world).

Definition ret {A} (a : A) : M A := λ w, Ok (a, w).
Definition mbind {A B} (m : M A) (k : A → M B) : M B :=
  λ w, bind (m w) (λ '(a, w), k a w).
Definition ub {A} : M A := λ _, UB.
Definition lift {A} (m : res A) : M A := λ w, bind m (λ a, Ok (a, w)).
Definition get {A} (f : world → A) : M A := λ w, Ok (f w, w).
Definition modify (f : world → world) : M unit := λ w, Ok (tt, f w).

Declare Scope m_scope.
Delimit Scope m_scope with M.
Notation "'let*' x := m 'in' k" := (mbind m (λ x, k))
  (at level 200, x binder, m at level 100, k at level 200, only parsing) : m_scope.
Notation "m ;;; k" := (mbind m (λ _, k)) (at level 100, k at level 200, right associativity, only parsing) : m_scope.
#[global] Open Scope m_scope.

(** loops that change the world *)
Definition mloop {S R} (fuel : nat) (body : S → M (S + R)) (s : S) : M R :=
  λ w, loop fuel (λ '(s, w),
    '(r, w) ← body s w;
    match r with inl s => Ok (inl (s, w)) | inr x => Ok (inr (x, w)) end) (s, w).

(** *** Access to the store *)

Definition pool_get {A} (f : poolhd → A) : M A := get (λ w, f (w_pool w)).
Definition pool_set (f : poolhd → poolhd) : M unit :=
  modify (λ w, w <| w_pool := f (w_pool w) |>).

(** [*val], and writing its fields *)
Definition ev (i : nat) : M eval := λ w,
  match ph_items (w_pool w) !! i with Some e => Ok (e, w) | None => UB end.
Definition ev_set (i : nat) (f : eval → eval) : M unit := λ w,
  match ph_items (w_pool w) !! i with
  | Some _ => Ok (tt, w <| w_pool := w_pool w <| ph_items := alter f i (ph_items (w_pool w)) |> |>)
  | None => UB
  end.
Definition ev_get {A} (i : nat) (f : eval → A) : M A := let* e := ev i in ret (f e).

(** dereferencing a pointer that may be null *)
Definition deref {A} (p : option A) : M A :=
  match p with Some a => ret a | None => ub end.

Definition buf (b : nat) : M buffer := λ w,
  match w_bufs w !! b with Some (Some x) => Ok (x, w) | _ => UB end.
Definition buf_set (b : nat) (f : buffer → buffer) : M unit := λ w,
  match w_bufs w !! b with
  | Some (Some _) => Ok (tt, w <| w_bufs := alter (fmap f) b (w_bufs w) |>)
  | _ => UB
  end.

Definition dpg (d : nat) : M desync_params := λ w,
  match w_dps w !! d with Some x => Ok (x, w) | None => UB end.
Definition dp_set (d : nat) (f : desync_params → desync_params) : M unit := λ w,
  match w_dps w !! d with
  | Some _ => Ok (tt, w <| w_dps := alter f d (w_dps w) |>)
  | None => UB
  end.

Definition par {A} (f : params → A) : M A := get (λ w, f (w_params w)).
Definition par_set (f : params → params) : M unit :=
  modify (λ w, w <| w_params := f (w_params w) |>).

Definition get_e : M Z := get w_errno.

Section sys.
Context {K : Kernel}.

Definition sys (c : call) : M reply := λ w,
  let r := kernel (w_trace w) c in
  Ok (r, w <| w_trace := w_trace w ++ [(c, r)] |>
           <| w_errno := if r_ret r <? 0 then r_errno r else w_errno w |>).
Definition sysret (c : call) : M Z := let* r := sys c in ret (r_ret r).
End sys.

(* ================================================================== *)
(** ** Reasoning *)

(** total correctness of a stateful computation *)
Definition wpm {A} (m : M A) (w : world) (Q : A → world → Prop) : Prop :=
  wp (m w) (λ '(a, w'), Q a w').

Lemma wpm_ret {A} (a : A) w (Q : A → world → Prop) : Q a w → wpm (ret a) w Q.
Proof. done. Qed.
Lemma wpm_bind {A B} (m : M A) (k : A → M B) w Q :
  wpm m w (λ a w', wpm (k a) w' Q) → wpm (mbind m k) w Q.
Proof.
  unfold wpm, mbind. intros H. apply wp_bind. eapply wp_mono; [exact H|]. by intros [a w'].
Qed.
Lemma wpm_mono {A} (m : M A) w (P Q : A → world → Prop) :
  wpm m w P → (∀ a w', P a w' → Q a w') → wpm m w Q.
Proof. unfold wpm. intros H HPQ. eapply wp_mono; [exact H|]. intros [a w']. apply HPQ. Qed.
Lemma wpm_lift {A} (m : res A) w (Q : A → world → Prop) :
  wp m (λ a, Q a w) → wpm (lift m) w Q.
Proof. unfold wpm, lift. intros H. apply wp_bind. eapply wp_mono; [exact H|]. done. Qed.
Lemma wpm_get {A} (f : world → A) w (Q : A → world → Prop) : Q (f w) w → wpm (get f) w Q.
Proof. done. Qed.
Lemma wpm_modify f w (Q : unit → world → Prop) : Q tt (f w) → wpm (modify f) w Q.
Proof. done. Qed.
Lemma wpm_ev i w e (Q : eval → world → Prop) :
  ph_items (w_pool w) !! i = Some e → Q e w → wpm (ev i) w Q.
Proof. unfold wpm, ev. by intros ->. Qed.
Lemma wpm_ev_set i f w e (Q : unit → world → Prop) :
  ph_items (w_pool w) !! i = Some e →
  Q tt (w <| w_pool := w_pool w <| ph_items := alter f i (ph_items (w_pool w)) |> |>) →
  wpm (ev_set i f) w Q.
Proof. unfold wpm, ev_set. by intros ->. Qed.
Lemma wpm_buf b w x (Q : buffer → world → Prop) :
  w_bufs w !! b = Some (Some x) → Q x w → wpm (buf b) w Q.
Proof. unfold wpm, buf. by intros ->. Qed.
Lemma wpm_buf_set b f w x (Q : unit → world → Prop) :
  w_bufs w !! b = Some (Some x) →
  Q tt (w <| w_bufs := alter (fmap f) b (w_bufs w) |>) → wpm (buf_set b f) w Q.
Proof. unfold wpm, buf_set. by intros ->. Qed.

(** the loop rule, for a body that changes the world *)
Lemma wpm_loop {S R} (I : S → world → Prop) (μ : S → world → Z)
    (body : S → M (S + R)) (Q : R → world → Prop) fuel s w :
  (∀ s w, I s w → 0 <= μ s w) →
  (∀ s w, I s w → wpm (body s) w (λ r w',
     match r with inl s' => I s' w' ∧ μ s' w' < μ s w | inr x => Q x w' end)) →
  I s w → μ s w < Z.of_nat fuel →
  wpm (mloop fuel body s) w Q.
Proof.
  intros Hpos Hbody HI Hf. unfold wpm, mloop.
  apply (wp_loop (λ '(s, w), I s w) (λ '(s, w), μ s w)); [by intros [? ?]; apply Hpos| |done|done].
  clear s w HI Hf. intros [s w] HI. apply wp_bind.
  eapply wp_mono; [by apply Hbody|]. by intros [[s'|x] w'].
Qed.

(** unrolling a loop once *)
Lemma mloop_inl {S R} fuel (body : S → M (S + R)) s w s' w' :
  body s w = Ok (inl s', w') → mloop (Datatypes.S fuel) body s w = mloop fuel body s' w'.
Proof. intros E. unfold mloop. simpl. by rewrite E. Qed.
Lemma mloop_inr {S R} fuel (body : S → M (S + R)) s w x w' :
  body s w = Ok (inr x, w') → mloop (Datatypes.S fuel) body s w = Ok (x, w').
Proof. intros E. unfold mloop. simpl. by rewrite E. Qed.

(** ** Running a computation step by step

    The equations of [mbind] over the primitive steps; [mrun] applies them,
    and [mrun E] an equation [m w = Ok (a, w')] of the first step. *)

(** the world after a system call *)
Definition after `{K : Kernel} (c : call) (w : world) : world :=
  let r := kernel (w_trace w) c in
  w <| w_trace := w_trace w ++ [(c, r)] |>
    <| w_errno := if r_ret r <? 0 then r_errno r else w_errno w |>.

Section run.
Context {A B : Type}.
Implicit Types (k : A → M B) (w : world).

Lemma mbind_ok (m : M A) k w a w' : m w = Ok (a, w') → mbind m k w = k a w'.
Proof. unfold mbind. by intros ->. Qed.
Lemma mbind_assoc {C} (m : M C) (k : C → M A) (k' : A → M B) w :
  mbind (mbind m k) k' w = mbind m (λ c, mbind (k c) k') w.
Proof. unfold mbind. by destruct (m w) as [[]| |]. Qed.
Lemma mbind_ret k a w : mbind (ret a) k w = k a w.
Proof. done. Qed.
Lemma mbind_get k (f : world → A) w : mbind (get f) k w = k (f w) w.
Proof. done. Qed.
Lemma mbind_pool_get k (f : poolhd → A) w : mbind (pool_get f) k w = k (f (w_pool w)) w.
Proof. done. Qed.
Lemma mbind_par k (f : params → A) w : mbind (par f) k w = k (f (w_params w)) w.
Proof. done. Qed.
End run.
Section run_unit.
Context {B : Type} {K : Kernel}.
Implicit Types (w : world).
Lemma mbind_modify (k : unit → M B) f w : mbind (modify f) k w = k tt (f w).
Proof. done. Qed.
Lemma mbind_pool_set (k : unit → M B) f w :
  mbind (pool_set f) k w = k tt (w <| w_pool := f (w_pool w) |>).
Proof. done. Qed.
Lemma mbind_par_set (k : unit → M B) f w :
  mbind (par_set f) k w = k tt (w <| w_params := f (w_params w) |>).
Proof. done. Qed.
Lemma mbind_sys (k : reply → M B) c w :
  mbind (sys c) k w = k (kernel (w_trace w) c) (after c w).
Proof. done. Qed.
Lemma mbind_sysret (k : Z → M B) c w :
  mbind (sysret c) k w = k (r_ret (kernel (w_trace w) c)) (after c w).
Proof. done. Qed.
Lemma mbind_get_e (k : Z → M B) w : mbind get_e k w = k (w_errno w) w.
Proof. done. Qed.
End run_unit.

Lemma ev_eq i w e : ph_items (w_pool w) !! i = Some e → ev i w = Ok (e, w).
Proof. unfold ev. by intros ->. Qed.
Lemma ev_set_eq i f w e : ph_items (w_pool w) !! i = Some e →
  ev_set i f w = Ok (tt, w <| w_pool := w_pool w <| ph_items := alter f i (ph_items (w_pool w)) |> |>).
Proof. unfold ev_set. by intros ->. Qed.
Lemma ev_get_eq {A} i (f : eval → A) w e :
  ph_items (w_pool w) !! i = Some e → ev_get i f w = Ok (f e, w).
Proof. unfold ev_get, mbind. intros H. by rewrite (ev_eq i w e H). Qed.
Lemma buf_eq b w x : w_bufs w !! b = Some (Some x) → buf b w = Ok (x, w).
Proof. unfold buf. by intros ->. Qed.
Lemma buf_set_eq b f w x : w_bufs w !! b = Some (Some x) →
  buf_set b f w = Ok (tt, w <| w_bufs := alter (fmap f) b (w_bufs w) |>).
Proof. unfold buf_set. by intros ->. Qed.

Ltac mnorm :=
  repeat first
    [ rewrite mbind_assoc | rewrite mbind_ret | rewrite mbind_pool_get | rewrite mbind_par
    | rewrite mbind_pool_set | rewrite mbind_par_set | rewrite mbind_sysret | rewrite mbind_sys
    | rewrite mbind_get_e | rewrite mbind_get | rewrite mbind_modify ];
  cbv beta.
Tactic Notation "mrun" := mnorm.
Tactic Notation "mrun" uconstr(E) := erewrite mbind_ok by (eapply E; eassumption || done); mnorm.

(** ** A concrete world, for the examples *)
Definition sample_params : params :=
  Params None 0 10 false 64 false false 0 0 0 0 0 0 true true true false false 4 0 16
    zero_addr zero_addr (Mphdr MF_EXTRA CMP_BITS 0 Kavl.Leaf) None.
Definition sample_world (p : poolhd) : world := World p [] [] sample_params [] 0 [].
(** every call succeeds; the clock stands at 5 s *)
Definition quiet_kernel : Kernel := λ _ c,
  match c with
  | ClockGettime => Reply 5000000000 0 [] []
  | _ => Reply 0 0 [] []
  end.
