(* ===== verification/Conev.v ===== *)
(** * The event loop: native/byedpi/conev.c (the epoll build)

    A pool of [eval]s (one per descriptor), the timers as a doubly linked
    list through them, a free list of at most eight buffers, and the loop
    that dispatches events to callbacks.  Iteration bounds are arguments
    [fuel]; ConevSpec.v shows which are enough. *)

From Stdlib Require Import ZArith Lia Bool List.
From Stdlib Require Import Strings.Byte.
From stdpp Require Import base tactics list numbers option.
From S2P Require Import Prelude CMem World.

Section conev.
Context {K : Kernel}.
Implicit Types (val : nat) (fd : Z).

Definition malloc (what : alloc) : M bool :=
  let* r := sysret (Malloc what) in ret (negb (r =? 0)).

(** [n] bytes of fresh memory: whatever the allocator left there *)
Definition fresh (n : Z) (r : reply) : mem :=
  take (Z.to_nat n) (r_data r ++ repeat x00 (Z.to_nat n)).

Definition free_buf (b : nat) : M unit :=
  let* _ := buf b in
  modify (λ w, w <| w_bufs := <[b := None]> (w_bufs w) |>).

(** *** Buffers *)

Definition buff_pop (size : Z) : M (option nat) :=
  let* root := pool_get ph_root_buff in
  match root with
  | Some b =>
      let* x := buf b in
      pool_set (λ p, p <| ph_root_buff := b_next x |>
                       <| ph_buff_count := ph_buff_count p - 1 |>) ;;;
      ret (Some b)
  | None =>
      let* r := sys (Malloc (A_BUFFER size)) in
      if r_ret r =? 0 then ret None else
      let* b := get (λ w, length (w_bufs w)) in
      modify (λ w, w <| w_bufs := w_bufs w ++ [Some (Buffer size 0 0 None (fresh size r))] |>) ;;;
      ret (Some b)
  end.

Definition buff_push (buff : option nat) : M unit :=
  match buff with
  | None => ret tt
  | Some b =>
      let* n := pool_get ph_buff_count in
      if MAX_BUFF_INP <=? n then free_buf b else
      let* root := pool_get ph_root_buff in
      buf_set b (λ x, x <| b_lock := 0 |> <| b_offset := 0 |> <| b_next := root |>) ;;;
      pool_set (λ p, p <| ph_root_buff := Some b |>
                       <| ph_buff_count := ph_buff_count p + 1 |>)
  end.

(** pop and push back at once: the buffer stays in the free list *)
Definition buff_ppop (size : Z) : M (option nat) :=
  let* b := buff_pop size in
  (match b with Some _ => buff_push b | None => ret tt end) ;;;
  ret b.

Definition buff_destroy (fuel : nat) (root : option nat) : M unit :=
  mloop fuel (λ root,
    match root with
    | None => ret (inr tt)
    | Some c => let* x := buf c in free_buf c ;;; ret (inl (b_next x))
    end) root.

(** *** Timers *)

Definition time_ms : M Z := let* r := sysret ClockGettime in ret (r / 1000000).

(** walk back from the end over the timers not before [tv_ms] *)
Definition set_timer_step (tv_ms : Z) (s : option nat * option nat)
  : M (option nat * option nat + option nat * option nat) :=
  let '(next, prev) := s in
  match prev with
  | Some p =>
      let* e := ev p in
      if tv_ms <=? e_tv_ms e then ret (inl (Some p, e_tv_prev e)) else ret (inr s)
  | None => ret (inr s)
  end.

Definition opt_set (p : option nat) (f : eval → eval) : M unit :=
  match p with Some i => ev_set i f | None => ret tt end.

Definition set_timer (fuel : nat) val (ms : Z) : M unit :=
  let* v := ev val in
  if negb (e_tv_ms v =? 0) then ret tt else
  let* tv_end := pool_get ph_tv_end in
  let* now := time_ms in
  let tv_ms := now + ms in
  ev_set val (λ v, v <| e_tv_ms := tv_ms |>) ;;;
  let* np := mloop fuel (set_timer_step tv_ms) (None, tv_end) in
  let '(next, prev) := np in
  ev_set val (λ v, v <| e_tv_next := next |> <| e_tv_prev := prev |>) ;;;
  opt_set next (λ e, e <| e_tv_prev := Some val |>) ;;;
  opt_set prev (λ e, e <| e_tv_next := Some val |>) ;;;
  pool_set (λ p,
    match ph_tv_start p with
    | None => p <| ph_tv_start := Some val |>
    | Some _ => if decide (next = ph_tv_start p) then p <| ph_tv_start := Some val |> else p
    end) ;;;
  pool_set (λ p,
    match ph_tv_end p with
    | None => p <| ph_tv_end := Some val |>
    | Some _ => if decide (prev = ph_tv_end p) then p <| ph_tv_end := Some val |> else p
    end).

Definition remove_timer val : M unit :=
  let* v := ev val in
  opt_set (e_tv_prev v) (λ e, e <| e_tv_next := e_tv_next v |>) ;;;
  let* v := ev val in
  opt_set (e_tv_next v) (λ e, e <| e_tv_prev := e_tv_prev v |>) ;;;
  let* v := ev val in
  pool_set (λ p, if decide (ph_tv_start p = Some val)
                 then p <| ph_tv_start := e_tv_next v |> else p) ;;;
  pool_set (λ p, if decide (ph_tv_end p = Some val)
                 then p <| ph_tv_end := e_tv_prev v |> else p) ;;;
  ev_set val (λ v, v <| e_tv_ms := 0 |> <| e_tv_next := None |> <| e_tv_prev := None |>).

(** *** Events *)

Definition link (i : Z) : M nat :=
  let* l := pool_get ph_links in
  if i <? 0 then ub else deref (l !! Z.to_nat i).

Definition set_link (i : Z) (v : nat) : M unit :=
  let* l := pool_get ph_links in
  if (0 <=? i) && (i <? Z.of_nat (length l))
  then pool_set (λ p, p <| ph_links := <[Z.to_nat i := v]> (ph_links p) |>) else ub.

Definition add_event (cb : evcb) fd (e : Z) : M (option nat) :=
  if negb (0 <? fd) then ub else
  let* count := pool_get ph_count in
  let* max := pool_get ph_max in
  if max <=? count then ret None else
  let* val := link count in
  let* iters := pool_get ph_iters in
  ev_set val (λ _, zero_eval <| e_mod_iter := iters |> <| e_fd := fd |>
                             <| e_index := count |> <| e_cb := Some cb |>) ;;;
  let* efd := pool_get ph_efd in
  let* r := sysret (EpollCtl efd EPOLL_CTL_ADD fd e (Some val)) in
  if negb (r =? 0) then ret None else
  pool_set (λ p, p <| ph_count := ph_count p + 1 |>) ;;;
  ret (Some val).

Definition munmap (p : nat * Z) (n : Z) : M unit :=
  let* r := sysret (Munmap p.1 p.2 n) in
  if r =? 0 then modify (λ w, w <| w_maps := <[p.1 := None]> (w_maps w) |>) else ret tt.

(** out of the live prefix of [links]: the last live eval takes its place *)
Definition unlink_live val : M unit :=
  pool_set (λ p, p <| ph_count := ph_count p - 1 |>) ;;;
  let* count := pool_get ph_count in
  let* last := link count in
  if decide (last = val) then ret tt else
  let* index := ev_get val e_index in
  set_link index last ;;;
  set_link count val ;;;
  ev_set last (λ e, e <| e_index := index |>).

(** the part of [del_event] before the pair is followed *)
Definition release val : M unit :=
  let* v := ev val in
  let* efd := pool_get ph_efd in
  sys (EpollCtl efd EPOLL_CTL_DEL (e_fd v) 0 None) ;;;
  buff_push (e_buff v) ;;;
  ev_set val (λ v, v <| e_buff := None |>) ;;;
  buff_push (e_sq_buff v) ;;;
  ev_set val (λ v, v <| e_sq_buff := None |>) ;;;
  (match e_restore_fake v with
   | Some p => munmap p (e_restore_fake_len v) ;;;
               ev_set val (λ v, v <| e_restore_fake := None |>)
   | None => ret tt
   end) ;;;
  ev_set val (λ v, v <| e_host := None |>) ;;;
  sys (Close (e_fd v)) ;;;
  let* iters := pool_get ph_iters in
  ev_set val (λ v, v <| e_fd := -1 |> <| e_mod_iter := iters |>) ;;;
  remove_timer val ;;;
  unlink_live val.

(** [if (val->pair->pair == val) val->pair->pair = 0; e = val->pair; val->pair = 0] *)
Definition unpair val (u : nat) : M unit :=
  let* x := ev u in
  (if decide (e_pair x = Some val) then ev_set u (λ x, x <| e_pair := None |>) else ret tt) ;;;
  ev_set val (λ v, v <| e_pair := None |>).

Fixpoint del_event (fuel : nat) val : M unit :=
  match fuel with
  | O => λ _, NoFuel
  | Datatypes.S fuel =>
      let* v := ev val in
      let* iters := pool_get ph_iters in
      if negb ((-1 <=? e_fd v) && (e_mod_iter v <=? iters)) then ub else
      if e_fd v =? -1 then ret tt else
      release val ;;;
      let* other := ev_get val e_pair in
      (match other with
       | Some u => unpair val u ;;; del_event fuel u
       | None => ret tt
       end) ;;;
      let* count := pool_get ph_count in
      if count <? 0 then ub else ret tt
  end.

Definition mod_etype val (type : Z) : M Z :=
  let* v := ev val in
  if negb (0 <? e_fd v) then ub else
  let* efd := pool_get ph_efd in
  sysret (EpollCtl efd EPOLL_CTL_MOD (e_fd v) type (Some val)).

(** *** The pool *)

Definition empty_pool : poolhd :=
  Poolhd 0 0 0 [] [] [] 0 false None None None 0.

Definition destroy_pool (fuel : nat) : M unit :=
  mloop fuel (λ _ : unit,
    let* count := pool_get ph_count in
    if count =? 0 then ret (inr tt) else
    let* val := link 0 in
    del_event fuel val ;;; ret (inl tt)) tt ;;;
  let* efd := pool_get ph_efd in
  (if negb (efd =? 0) then sys (Close efd) ;;; ret tt else ret tt) ;;;
  let* root := pool_get ph_root_buff in
  buff_destroy fuel root ;;;
  pool_set (λ _, empty_pool).

(** [items]: what [malloc] left in the array; only the first is zeroed.
    [false]: no pool *)
Definition init_pool (fuel : nat) (count : Z) (items : list eval) : M bool :=
  let* ok := malloc A_POOLHD in
  if negb ok then ret false else
  pool_set (λ _, empty_pool <| ph_max := count |>) ;;;
  let* efd := sysret (EpollCreate count) in
  if efd <? 0 then pool_set (λ _, empty_pool) ;;; ret false else
  pool_set (λ p, p <| ph_efd := efd |>) ;;;
  let* a := malloc (A_PEVENTS count) in
  let* b := malloc (A_LINKS count) in
  let* c := malloc (A_ITEMS count) in
  if negb (a && b && c) then destroy_pool fuel ;;; ret false else
  pool_set (λ p, p <| ph_links := seq 0 (Z.to_nat count) |>
                   <| ph_items := <[0%nat := zero_eval]> items |>) ;;;
  ret true.

(** *** The loop *)

(** one iteration: from [offs], the eval to serve (or [None]), the new
    [*offs] and [*type] *)
Definition next_event_step (ms : Z) (s : Z * Z)
  : M (Z * Z + option nat * Z * Z) :=
  let '(offs, type) := s in
  let* max := pool_get ph_max in
  if negb ((-1 <=? offs) && (offs <? max)) then ub else
  let serve (i : Z) : M (Z * Z + option nat * Z * Z) :=
    let* pevents := pool_get ph_pevents in
    let* pe := deref (pevents !! Z.to_nat i) in
    let* v := ev pe.1 in
    let* iters := pool_get ph_iters in
    if e_mod_iter v =? iters then ret (inl (i - 1, type))
    else ret (inr (Some pe.1, i - 1, pe.2)) in
  if offs <? 0 then
    let* efd := pool_get ph_efd in
    let* r := sys (EpollWait efd max ms) in
    let n := r_ret r in
    let type := if n =? 0 then POLLTIMEOUT else type in
    if n <=? 0 then ret (inr (None, offs, type)) else
    pool_set (λ p, p <| ph_pevents := r_events r ++ drop (length (r_events r)) (ph_pevents p) |>
                     <| ph_iters := u64 (ph_iters p + 1) |>) ;;;
    serve (n - 1)
  else serve offs.

Definition next_event (fuel : nat) (offs type ms : Z) : M (option nat * Z * Z) :=
  mloop fuel (next_event_step ms) (offs, type).

Definition next_event_tv (fuel : nat) (offs type : Z) : M (option nat * Z * Z) :=
  let* tv_start := pool_get ph_tv_start in
  match tv_start with
  | None => next_event fuel offs type (-1)
  | Some first =>
      let* tv := ev_get first e_tv_ms in
      let* now := time_ms in
      let ms := i32 (tv - now) in
      let* vot := (if 0 <? ms then next_event fuel offs type ms
                   else ret (None, offs, POLLTIMEOUT)) in
      let '(val, offs, type) := vot in
      let* tv_start := pool_get ph_tv_start in
      match val, tv_start with
      | None, Some first =>
          if type =? POLLTIMEOUT then
            remove_timer first ;;; ret (Some first, offs, type)
          else ret (None, offs, type)
      | _, _ => ret (val, offs, type)
      end
  end.

(** [call_cb] runs a callback *)
Definition loop_event (fuel : nat) (call_cb : evcb → nat → Z → M Z) : M unit :=
  mloop fuel (λ '(i, etype),
    let* brk := pool_get ph_brk in
    if brk : bool then ret (inr tt) else
    let* vot := next_event_tv fuel i etype in
    let '(val, i, etype) := vot in
    match val with
    | None =>
        let* e := get_e in
        if e =? EINTR then ret (inl (i, etype)) else ret (inr tt)
    | Some val =>
        let* v := ev val in
        let* cb := deref (e_cb v) in
        let* r := call_cb cb val etype in
        (if r <? 0 then del_event fuel val else ret tt) ;;;
        ret (inl (i, etype))
    end) (-1, -1).
End conev.
