(* ===== verification/ConevTimers.v ===== *)
(** * The timers of the event loop

    The timers of a pool are a doubly linked list through [tv_next] and
    [tv_prev], from [tv_start] to [tv_end], in order of expiry.  [timers p l]
    says that the list is [l]; [set_timer] inserts by expiry, [remove_timer]
    takes out, and both leave everything else of the pool alone. *)

From Stdlib Require Import ZArith Lia Bool List.
From Stdlib Require Import Strings.Byte.
From stdpp Require Import base tactics list numbers option sorting sets.
From S2P Require Import Prelude CMem World Conev.

(** ** Doubly linked segments *)

Definition hd_or (l : list nat) (n : option nat) : option nat :=
  match l with u :: _ => Some u | [] => n end.
Definition last_or (l : list nat) (p : option nat) : option nat :=
  match last l with Some u => Some u | None => p end.

(** [l] is linked in [items], coming from [p] and leading to [n] *)
Fixpoint lseg (items : list eval) (p : option nat) (l : list nat) (n : option nat) : Prop :=
  match l with
  | [] => True
  | v :: l =>
      (∃ e, items !! v = Some e ∧ e_tv_prev e = p ∧ e_tv_next e = hd_or l n)
      ∧ lseg items (Some v) l n
  end.

Section lseg.
Implicit Types (items : list eval) (l : list nat) (p n : option nat).

Lemma last_or_cons v l p : last_or (v :: l) p = last_or l (Some v).
Proof. unfold last_or. by rewrite last_cons; destruct (last l). Qed.

Lemma lseg_app items p l1 l2 n :
  lseg items p (l1 ++ l2) n ↔
  lseg items p l1 (hd_or l2 n) ∧ lseg items (last_or l1 p) l2 n.
Proof.
  revert p. induction l1 as [|v l1 IH]; intros p; simpl; [tauto|].
  rewrite IH, last_or_cons.
  replace (hd_or (l1 ++ l2) n) with (hd_or l1 (hd_or l2 n)) by by destruct l1.
  tauto.
Qed.

(** only the links of the segment's members matter *)
Lemma lseg_frame items items' p l n :
  (∀ v, v ∈ l → (λ e, (e_tv_prev e, e_tv_next e)) <$> items' !! v
              = (λ e, (e_tv_prev e, e_tv_next e)) <$> items !! v) →
  lseg items p l n → lseg items' p l n.
Proof.
  revert p. induction l as [|v l IH]; intros p Hf; simpl; [done|].
  intros [(e & He & Hp & Hn) Hl]. split; [|apply IH; [intros u Hu; apply Hf; by right|done]].
  specialize (Hf v ltac:(by left)). rewrite He in Hf.
  destruct (items' !! v) as [e'|]; [|done]. simpl in Hf. injection Hf as Hfp Hfn.
  exists e'. by rewrite Hfp, Hfn.
Qed.

Lemma lseg_insert_ne items p l n v e :
  v ∉ l → lseg items p l n → lseg (<[v := e]> items) p l n.
Proof.
  intros Hv. apply lseg_frame. intros u Hu. rewrite list_lookup_insert_ne; [done|].
  by intros ->.
Qed.

Lemma lseg_lookup items p l n v : lseg items p l n → v ∈ l → is_Some (items !! v).
Proof.
  revert p. induction l as [|u l IH]; intros p Hl Hv; [by apply elem_of_nil in Hv|].
  simpl in Hl. destruct Hl as [(e & He & _) Hl].
  apply elem_of_cons in Hv as [->|Hv]; [by eexists|by eapply IH].
Qed.

(** redirecting the end and the start of a segment *)
Definition set_next_of (u : option nat) (n : option nat) (items : list eval) : list eval :=
  match u with Some u => alter (λ e, e <| e_tv_next := n |>) u items | None => items end.
Definition set_prev_of (u : option nat) (p : option nat) (items : list eval) : list eval :=
  match u with Some u => alter (λ e, e <| e_tv_prev := p |>) u items | None => items end.

Lemma lseg_set_next items p l n n' :
  NoDup l → lseg items p l n → lseg (set_next_of (last l) n' items) p l n'.
Proof.
  revert p. induction l as [|v l IH]; intros p Hnd Hl; [done|].
  apply NoDup_cons in Hnd as [Hv Hnd]. simpl in Hl. destruct Hl as [(e & He & Hp & Hn) Hl].
  rewrite last_cons. destruct l as [|u l].
  - simpl. split; [|done]. exists (e <| e_tv_next := n' |>).
    by rewrite list_lookup_alter_eq, He.
  - specialize (IH _ Hnd Hl). destruct (last (u :: l)) as [z|] eqn:Ez; [|by apply last_None in Ez].
    simpl. split; [|exact IH]. exists e.
    rewrite list_lookup_alter_ne; [done|]. intros ->. apply Hv. by apply last_Some_elem_of.
Qed.

Lemma lseg_set_prev items p p' l n :
  NoDup l → lseg items p l n → lseg (set_prev_of (head l) p' items) p' l n.
Proof.
  destruct l as [|v l]; [done|]. intros [Hv Hnd]%NoDup_cons. simpl.
  intros [(e & He & Hp & Hn) Hl]. split.
  - exists (e <| e_tv_prev := p' |>). by rewrite list_lookup_alter_eq, He.
  - eapply lseg_frame; [|exact Hl]. intros u Hu. rewrite list_lookup_alter_ne; [done|].
    by intros ->.
Qed.
End lseg.

(** ** Removing a timer *)

Definition clear_tv (e : eval) : eval :=
  e <| e_tv_ms := 0 |> <| e_tv_next := None |> <| e_tv_prev := None |>.

(** [remove_timer] as a function of the pool *)
Definition remove_pool (val : nat) (v : eval) (p : poolhd) : poolhd :=
  p <| ph_items := alter clear_tv val
         (set_prev_of (e_tv_next v) (e_tv_prev v)
           (set_next_of (e_tv_prev v) (e_tv_next v) (ph_items p))) |>
    <| ph_tv_start := if decide (ph_tv_start p = Some val) then e_tv_next v else ph_tv_start p |>
    <| ph_tv_end := if decide (ph_tv_end p = Some val) then e_tv_prev v else ph_tv_end p |>.

Definition valid_ptr (items : list eval) (q : option nat) : Prop :=
  match q with Some i => is_Some (items !! i) | None => True end.

Lemma lookup_set_next u n items i :
  Some i ≠ u → set_next_of u n items !! i = items !! i.
Proof. destruct u; simpl; [|done]. intros ?. rewrite list_lookup_alter_ne; [done|congruence]. Qed.
Lemma lookup_set_prev u n items i :
  Some i ≠ u → set_prev_of u n items !! i = items !! i.
Proof. destruct u; simpl; [|done]. intros ?. rewrite list_lookup_alter_ne; [done|congruence]. Qed.

Lemma is_Some_alter {A} (f : A → A) i j (l : list A) :
  is_Some (alter f i l !! j) ↔ is_Some (l !! j).
Proof. rewrite list_lookup_alter. case_decide; subst; [apply fmap_is_Some|done]. Qed.

Lemma opt_set_next u n w :
  valid_ptr (ph_items (w_pool w)) u →
  opt_set u (λ e, e <| e_tv_next := n |>) w =
  Ok (tt, w <| w_pool := w_pool w <| ph_items := set_next_of u n (ph_items (w_pool w)) |> |>).
Proof. destruct u as [u|]; simpl; [|by destruct w as [[]]]. unfold ev_set. by intros [e ->]. Qed.
Lemma opt_set_prev u n w :
  valid_ptr (ph_items (w_pool w)) u →
  opt_set u (λ e, e <| e_tv_prev := n |>) w =
  Ok (tt, w <| w_pool := w_pool w <| ph_items := set_prev_of u n (ph_items (w_pool w)) |> |>).
Proof. destruct u as [u|]; simpl; [|by destruct w as [[]]]. unfold ev_set. by intros [e ->]. Qed.

Lemma remove_timer_run `{K : Kernel} val v w :
  ph_items (w_pool w) !! val = Some v →
  e_tv_prev v ≠ Some val → e_tv_next v ≠ Some val →
  valid_ptr (ph_items (w_pool w)) (e_tv_prev v) → valid_ptr (ph_items (w_pool w)) (e_tv_next v) →
  remove_timer val w = Ok (tt, w <| w_pool := remove_pool val v (w_pool w) |>).
Proof.
  intros Hv Hp Hn Vp Vn. unfold remove_timer, mbind.
  rewrite (ev_eq _ _ _ Hv). bstep. rewrite opt_set_next by done. bstep.
  set (w1 := w <| w_pool := _ |>).
  assert (Hv1 : ph_items (w_pool w1) !! val = Some v).
  { simpl. by rewrite lookup_set_next. }
  rewrite (ev_eq _ _ _ Hv1). bstep. rewrite opt_set_prev.
  2:{ simpl. destruct (e_tv_next v) as [n|]; [|done]. simpl in *.
      destruct (e_tv_prev v); simpl; [by apply is_Some_alter|done]. }
  bstep. set (w2 := w1 <| w_pool := _ |>).
  assert (Hv2 : ph_items (w_pool w2) !! val = Some v).
  { simpl. by rewrite lookup_set_prev, lookup_set_next. }
  rewrite (ev_eq _ _ _ Hv2). bstep. unfold pool_set, modify. do 2 bstep.
  erewrite ev_set_eq.
  2:{ case_decide; case_decide; simpl; exact Hv2. }
  f_equal. f_equal. unfold remove_pool. destruct w as [[]]; simpl in *.
  repeat case_decide; done.
Qed.

(** ** The timer list of a pool *)

Definition tv_of (items : list eval) (v : nat) : Z :=
  match items !! v with Some e => e_tv_ms e | None => 0 end.

Record timers (p : poolhd) (l : list nat) : Prop := Timers {
  tm_seg : lseg (ph_items p) None l None;
  tm_start : ph_tv_start p = head l;
  tm_end : ph_tv_end p = last l;
  tm_nodup : NoDup l;
  tm_sorted : StronglySorted (λ a b, tv_of (ph_items p) a <= tv_of (ph_items p) b) l;
  tm_armed : Forall (λ v, tv_of (ph_items p) v ≠ 0) l
}.

(** the list only depends on the timer fields *)
Lemma timers_same (p p' : poolhd) (l : list nat) :
  (∀ u, (λ e, (e_tv_ms e, e_tv_next e, e_tv_prev e)) <$> ph_items p' !! u
      = (λ e, (e_tv_ms e, e_tv_next e, e_tv_prev e)) <$> ph_items p !! u) →
  ph_tv_start p' = ph_tv_start p → ph_tv_end p' = ph_tv_end p →
  timers p l → timers p' l.
Proof.
  intros Hi E1 E2 [Hseg Hst Hen Hnd Hso Har].
  assert (Htv : ∀ u, tv_of (ph_items p') u = tv_of (ph_items p) u).
  { intros u. unfold tv_of. specialize (Hi u).
    destruct (ph_items p' !! u), (ph_items p !! u); simpl in Hi; congruence. }
  split; try congruence.
  - clear -Hi Hseg. revert Hseg. generalize (@None nat) at 1 3.
    induction l as [|v l IH]; intros q; simpl; [done|]. intros [(e & He & Hp & Hn) Hs].
    split; [|by apply IH]. specialize (Hi v). rewrite He in Hi.
    destruct (ph_items p' !! v) as [e'|]; simplify_eq/=. eexists. split; [done|]. split; congruence.
  - clear -Hso Htv. induction Hso as [|a l Hs IH Ha]; constructor; [done|].
    eapply Forall_impl; [exact Ha|]. intros b. simpl. by rewrite !Htv.
  - eapply Forall_impl; [exact Har|]. intros b. simpl. by rewrite Htv.
Qed.

Lemma timers_alter (p : poolhd) (l : list nat) f u :
  (∀ e, e_tv_ms (f e) = e_tv_ms e ∧ e_tv_next (f e) = e_tv_next e ∧ e_tv_prev (f e) = e_tv_prev e) →
  timers p l → timers (p <| ph_items := alter f u (ph_items p) |>) l.
Proof.
  intros Hf. apply timers_same; try done. intros i. simpl. rewrite list_lookup_alter.
  case_decide; [subst|done]. destruct (_ !! i) as [e|]; [|done]. simpl.
  by destruct (Hf e) as (-> & -> & ->).
Qed.

(** an eval that is not in the list *)
Definition idle (e : eval) : Prop := clear_tv e = e.

(** what the timers leave alone: the pool without the timer fields *)
Definition strip_pool (p : poolhd) : poolhd :=
  p <| ph_items := map clear_tv (ph_items p) |> <| ph_tv_start := None |> <| ph_tv_end := None |>.

Lemma map_clear_alter f i items :
  (∀ e, clear_tv (f e) = clear_tv e) → map clear_tv (alter f i items) = map clear_tv items.
Proof.
  intros Hf. apply list_eq. intros j. change (map clear_tv) with (fmap (M:=list) clear_tv).
  rewrite !list_lookup_fmap, list_lookup_alter. case_decide as E; [subst|done].
  destruct (items !! j); simpl; [by rewrite Hf|done].
Qed.

Lemma map_clear_next u n items : map clear_tv (set_next_of u n items) = map clear_tv items.
Proof. destruct u; [by apply map_clear_alter|done]. Qed.
Lemma map_clear_prev u n items : map clear_tv (set_prev_of u n items) = map clear_tv items.
Proof. destruct u; [by apply map_clear_alter|done]. Qed.

Lemma strip_remove_pool val v p : strip_pool (remove_pool val v p) = strip_pool p.
Proof.
  change (strip_pool (remove_pool val v p)) with
    (p <| ph_items := map clear_tv (ph_items (remove_pool val v p)) |>
       <| ph_tv_start := None |> <| ph_tv_end := None |>).
  simpl. by rewrite map_clear_alter, map_clear_prev, map_clear_next.
Qed.

Lemma tv_of_alter f i items v :
  (∀ e, e_tv_ms (f e) = e_tv_ms e) → tv_of (alter f i items) v = tv_of items v.
Proof.
  intros Hf. unfold tv_of. rewrite list_lookup_alter. case_decide; subst; [|done].
  destruct (items !! v); simpl; [by rewrite Hf|done].
Qed.
Lemma tv_of_set_next u n items v : tv_of (set_next_of u n items) v = tv_of items v.
Proof. destruct u; [by apply tv_of_alter|done]. Qed.
Lemma tv_of_set_prev u n items v : tv_of (set_prev_of u n items) v = tv_of items v.
Proof. destruct u; [by apply tv_of_alter|done]. Qed.
Lemma tv_of_ne f i items v : i ≠ v → tv_of (alter f i items) v = tv_of items v.
Proof. intros. unfold tv_of. by rewrite list_lookup_alter_ne. Qed.

Lemma timers_split p l1 v l2 e :
  timers p (l1 ++ v :: l2) → ph_items p !! v = Some e →
  e_tv_prev e = last l1 ∧ e_tv_next e = head l2
  ∧ lseg (ph_items p) None l1 (Some v) ∧ lseg (ph_items p) (Some v) l2 None
  ∧ v ∉ l1 ∧ v ∉ l2 ∧ NoDup l1 ∧ NoDup l2 ∧ (∀ u, u ∈ l1 → u ∉ l2).
Proof.
  intros [Hseg _ _ Hnd _ _] He. apply lseg_app in Hseg as [H1 H2]. simpl in H1, H2.
  destruct H2 as [(e' & He' & Hp & Hn) H2]. rewrite He in He'. injection He' as <-.
  apply NoDup_app in Hnd as (Hnd1 & Hd & [Hv2 Hnd2]%NoDup_cons).
  split_and!; try done.
  - rewrite Hp. unfold last_or. by destruct (last l1).
  - intros Hin. apply (Hd v Hin). by left.
  - intros u Hu Hu2. apply (Hd u Hu). by right.
Qed.

(** [remove_timer] of an armed eval takes it out of the list *)
Lemma remove_pool_timers p l1 v l2 e :
  timers p (l1 ++ v :: l2) → ph_items p !! v = Some e →
  timers (remove_pool v e p) (l1 ++ l2).
Proof.
  intros Ht He.
  destruct (timers_split _ _ _ _ _ Ht He) as (Hp & Hn & S1 & S2 & Hv1 & Hv2 & N1 & N2 & Hd).
  assert (Hh : ∀ u, head l2 = Some u → u ∈ l2) by (destruct l2; [done|]; intros ? [= <-]; left).
  assert (Hl : ∀ u, last l1 = Some u → u ∈ l1) by (intros u; apply last_Some_elem_of).
  assert (Htv : ∀ u, u ∈ l1 ++ l2 → tv_of (ph_items (remove_pool v e p)) u = tv_of (ph_items p) u).
  { intros u Hu. simpl. rewrite tv_of_ne, tv_of_set_prev, tv_of_set_next; [done|].
    intros <-. apply elem_of_app in Hu. tauto. }
  destruct Ht as [_ Hst Hen Hnd Hso Har]. split.
  - simpl. apply lseg_app. rewrite Hp, Hn. split.
    + eapply (lseg_frame (set_next_of (last l1) (head l2) (ph_items p))).
      * intros u Hu. rewrite list_lookup_alter_ne by by intros ->.
        rewrite lookup_set_prev; [done|]. intros E. apply (Hd u Hu). by apply Hh.
      * replace (hd_or l2 None) with (head l2) by by destruct l2. by eapply lseg_set_next.
    + eapply (lseg_frame (set_prev_of (head l2) (last l1) (ph_items p))).
      * intros u Hu. rewrite list_lookup_alter_ne by by intros ->.
        destruct (decide (Some u = head l2)) as [E|E].
        -- rewrite <- E. simpl. rewrite !list_lookup_alter_eq, lookup_set_next; [done|].
           intros E'. apply (Hd u); [by apply Hl|done].
        -- rewrite !lookup_set_prev, lookup_set_next; [done| |done..].
           intros E'. apply (Hd u); [by apply Hl|done].
      * replace (last_or l1 None) with (last l1) by by unfold last_or; destruct (last l1).
        by eapply lseg_set_prev.
  - simpl. rewrite Hst, Hn. destruct l1 as [|u l1]; simpl.
    + by rewrite decide_True.
    + rewrite decide_False; [done|]. intros [= ->]. apply Hv1. by left.
  - simpl. rewrite Hen, Hp. rewrite !last_app, last_cons. destruct (last l2) as [u|] eqn:E.
    + rewrite decide_False; [done|]. intros [= ->]. apply Hv2. by apply last_Some_elem_of.
    + by rewrite decide_True.
  - apply NoDup_app. apply NoDup_app in Hnd as (? & ? & ?). done.
  - assert (Hso' : StronglySorted (λ a b, tv_of (ph_items p) a <= tv_of (ph_items p) b) (l1 ++ l2)).
    { apply StronglySorted_app in Hso as (Hall & Hs1 & [Hs2 _]%StronglySorted_inv).
      apply StronglySorted_app. split_and!; [|done..].
      intros a b Ha Hb. apply Hall; [done|by right]. }
    clear -Hso' Htv. induction Hso' as [|a l Hs IH Ha]; constructor.
    + apply IH. intros u Hu. apply Htv. by right.
    + rewrite Forall_forall in *. intros b Hb. rewrite !Htv; [by apply Ha|by right|by left].
  - rewrite Forall_forall in *. intros u Hu. rewrite Htv by done. apply Har.
    rewrite elem_of_app in *. destruct Hu; [by left|right; by right].
Qed.

(** and of an idle one does nothing *)
Lemma remove_pool_idle p l v e :
  timers p l → ph_items p !! v = Some e → idle e → v ∉ l →
  remove_pool v e p = p.
Proof.
  intros Ht He Hi Hv. unfold remove_pool.
  assert (e_tv_next e = None ∧ e_tv_prev e = None) as [-> ->] by by rewrite <- Hi.
  simpl. rewrite !decide_False.
  - replace (alter clear_tv v (ph_items p)) with (ph_items p); [by destruct p|].
    symmetry. apply list_eq. intros i. rewrite list_lookup_alter. case_decide; subst; [|done].
    rewrite He. simpl. by rewrite Hi.
  - rewrite (tm_start _ _ Ht). intros E. apply Hv. destruct l; [done|]. injection E as ->. left.
  - rewrite (tm_end _ _ Ht). intros E. apply Hv. by apply last_Some_elem_of.
Qed.

(** ** Setting a timer *)

(** [set_timer] past the walk, as a function of the pool *)
Definition set_pool (val : nat) (tv : Z) (next prev : option nat) (p : poolhd) : poolhd :=
  p <| ph_items := set_next_of prev (Some val) (set_prev_of next (Some val)
         (alter (λ v, v <| e_tv_ms := tv |> <| e_tv_next := next |> <| e_tv_prev := prev |>)
            val (ph_items p))) |>
    <| ph_tv_start := if decide (ph_tv_start p = None ∨ next = ph_tv_start p)
                      then Some val else ph_tv_start p |>
    <| ph_tv_end := if decide (ph_tv_end p = None ∨ prev = ph_tv_end p)
                    then Some val else ph_tv_end p |>.

Section set_timer.
Context {K : Kernel}.

Lemma set_timer_walk tv l1 l2 fuel w l :
  timers (w_pool w) l → l = l1 ++ l2 → (length l1 < fuel)%nat →
  Forall (λ u, tv <= tv_of (ph_items (w_pool w)) u) l2 →
  ∃ m1 m2, l = m1 ++ m2 ∧
    mloop fuel (set_timer_step tv) (head l2, last l1) w = Ok ((head m2, last m1), w)
    ∧ Forall (λ u, tv_of (ph_items (w_pool w)) u < tv) m1
    ∧ Forall (λ u, tv <= tv_of (ph_items (w_pool w)) u) m2.
Proof.
  intros Ht. revert l2 fuel. induction l1 as [|u l1 IH] using rev_ind;
    intros l2 fuel -> Hf H2; (destruct fuel as [|fuel]; [lia|]).
  { exists [], l2. split; [done|]. split; [by apply mloop_inr|done]. }
  rewrite length_app in Hf. simpl in Hf.
  assert (Hu : ∃ e, ph_items (w_pool w) !! u = Some e).
  { apply (lseg_lookup _ None _ None _ (tm_seg _ _ Ht)). apply elem_of_app. left.
    apply elem_of_app. right. left. }
  destruct Hu as [e He].
  assert (Htv : tv_of (ph_items (w_pool w)) u = e_tv_ms e) by by unfold tv_of; rewrite He.
  pose proof Ht as Ht'. rewrite <- app_assoc in Ht'. simpl in Ht'.
  destruct (timers_split _ _ _ _ _ Ht' He) as (Hp & _).
  rewrite last_snoc. destruct (Z.leb_spec tv (e_tv_ms e)) as [Hle|Hlt].
  - destruct (IH (u :: l2) fuel) as (m1 & m2 & E & Hloop & Hm1 & Hm2).
    + by rewrite <- app_assoc.
    + lia.
    + constructor; [lia|done].
    + exists m1, m2. split; [by rewrite E|]. split; [|done].
      erewrite mloop_inl; [exact Hloop|]. unfold set_timer_step, mbind.
      rewrite (ev_eq _ _ _ He). bstep. rewrite (proj2 (Z.leb_le _ _)) by lia.
      by rewrite Hp.
  - exists (l1 ++ [u]), l2. rewrite last_snoc. split; [done|]. split; [|split; [|done]].
    + apply mloop_inr. unfold set_timer_step, mbind. rewrite (ev_eq _ _ _ He). bstep.
      by rewrite (proj2 (Z.leb_gt _ _)) by lia.
    + pose proof (tm_sorted _ _ Ht') as Hs. apply Forall_app. split; [|constructor; [lia|done]].
      apply StronglySorted_app in Hs as (Hall & _ & _). apply Forall_forall. intros x Hx.
      pose proof (Hall x u Hx ltac:(by left)). simpl in *. lia.
Qed.

Lemma set_pool_timers p l1 l2 val v tv :
  timers p (l1 ++ l2) → ph_items p !! val = Some v → val ∉ l1 ++ l2 → tv ≠ 0 →
  Forall (λ u, tv_of (ph_items p) u < tv) l1 → Forall (λ u, tv <= tv_of (ph_items p) u) l2 →
  let p' := set_pool val tv (head l2) (last l1) p in
  timers p' (l1 ++ val :: l2) ∧ tv_of (ph_items p') val = tv.
Proof.
  intros [Hseg Hst Hen Hnd Hso Har] Hv Hnin Htv H1 H2 p'.
  apply not_elem_of_app in Hnin as [Hn1 Hn2].
  assert (Hh : ∀ u, head l2 = Some u → u ∈ l2) by (destruct l2; [done|]; intros ? [= <-]; left).
  assert (Hl : ∀ u, last l1 = Some u → u ∈ l1) by (intros u; apply last_Some_elem_of).
  pose proof Hnd as (N1 & Hd & N2)%NoDup_app.
  apply lseg_app in Hseg as [S1 S2].
  assert (Htvu : ∀ u, u ∈ l1 ++ l2 → tv_of (ph_items p') u = tv_of (ph_items p) u).
  { intros u Hu. simpl. rewrite tv_of_set_next, tv_of_set_prev, tv_of_ne; [done|].
    intros <-. apply elem_of_app in Hu. tauto. }
  assert (Hval : ph_items p' !! val = Some (v <| e_tv_ms := tv |> <| e_tv_next := head l2 |> <| e_tv_prev := last l1 |>)).
  { simpl. rewrite lookup_set_next by (intros E; by apply Hn1, Hl).
    rewrite lookup_set_prev by (intros E; by apply Hn2, Hh).
    by rewrite list_lookup_alter_eq, Hv. }
  assert (Htvv : tv_of (ph_items p') val = tv) by by unfold tv_of; rewrite Hval.
  split; [|done]. split.
  - apply lseg_app. split; [|split].
    + simpl. eapply (lseg_frame (set_next_of (last l1) (Some val) (ph_items p))).
      * intros u Hu. destruct (decide (Some u = last l1)) as [E|E].
        -- rewrite <- E. simpl. rewrite !list_lookup_alter_eq, lookup_set_prev.
           ++ rewrite list_lookup_alter_ne; [done|]. by intros ->.
           ++ intros E'. apply (Hd u Hu). by apply Hh.
        -- rewrite !lookup_set_next, lookup_set_prev by
             (done || (intros E'; apply (Hd u Hu); by apply Hh)).
           rewrite list_lookup_alter_ne; [done|]. by intros ->.
      * by eapply lseg_set_next.
    + eexists. split; [exact Hval|]. simpl. split; [|by destruct l2].
      unfold last_or. by destruct (last l1).
    + simpl. eapply (lseg_frame (set_prev_of (head l2) (Some val) (ph_items p))).
      * intros u Hu. assert (Hul : Some u ≠ last l1).
        { intros E. apply (Hd u); [by apply Hl|done]. }
        rewrite lookup_set_next by done.
        destruct (decide (Some u = head l2)) as [E|E].
        -- rewrite <- E. simpl. rewrite !list_lookup_alter_eq, list_lookup_alter_ne; [done|].
           by intros ->.
        -- rewrite !lookup_set_prev by done. rewrite list_lookup_alter_ne; [done|]. by intros ->.
      * by eapply lseg_set_prev.
  - simpl. rewrite Hst. destruct l1 as [|u l1]; simpl.
    + by rewrite decide_True by auto.
    + rewrite decide_False; [done|]. intros [E|E]; [done|].
      apply (Hd u); [by left|by apply Hh].
  - simpl. rewrite Hen. rewrite !last_app, last_cons. destruct (last l2) as [u|] eqn:E.
    + rewrite decide_False; [done|]. intros [E'|E']; [done|].
      apply (Hd u); [by apply Hl|by apply last_Some_elem_of].
    + by rewrite decide_True by auto.
  - apply NoDup_app. split_and!; [done| |by constructor].
    intros u Hu [->|Hu']%elem_of_cons; [done|by apply (Hd u)].
  - apply StronglySorted_app in Hso as (Hall & Hs1 & Hs2).
    rewrite Forall_forall in H1, H2.
    assert (Hmono : ∀ l, (∀ u, u ∈ l → u ∈ l1 ++ l2) →
      StronglySorted (λ a b, tv_of (ph_items p) a <= tv_of (ph_items p) b) l →
      StronglySorted (λ a b, tv_of (ph_items p') a <= tv_of (ph_items p') b) l).
    { intros l Hsub Hs. induction Hs as [|a l Hs IH Ha]; constructor.
      - apply IH. intros u Hu. apply Hsub. by right.
      - rewrite Forall_forall in *. intros b Hb. rewrite !Htvu; [by apply Ha|..];
          apply Hsub; [by right|by left]. }
    apply StronglySorted_app. split_and!.
    + intros a b Ha Hb. rewrite (Htvu a) by (apply elem_of_app; by left).
      specialize (H1 a Ha). apply elem_of_cons in Hb as [->|Hb]; [lia|].
      rewrite Htvu by (apply elem_of_app; by right). by apply Hall.
    + apply Hmono; [|done]. intros u Hu. apply elem_of_app. by left.
    + constructor.
      * apply Hmono; [|done]. intros u Hu. apply elem_of_app. by right.
      * apply Forall_forall. intros b Hb. rewrite Htvv, Htvu by (apply elem_of_app; by right).
        by apply H2.
  - rewrite Forall_forall in *. intros u Hu. rewrite elem_of_app, elem_of_cons in Hu.
    destruct Hu as [Hu|[->|Hu]]; [|by rewrite Htvv|];
      (rewrite Htvu by (apply elem_of_app; auto); apply Har, elem_of_app; auto).
Qed.

Definition now_ms (w : world) : Z := r_ret (kernel (w_trace w) ClockGettime) / 1000000.

Lemma list_alter_twice {A} (f g : A → A) i (l : list A) :
  alter f i (alter g i l) = alter (λ x, f (g x)) i l.
Proof.
  apply list_eq. intros j. rewrite !list_lookup_alter. case_decide; [subst|done].
  rewrite decide_True by done. by destruct (l !! j).
Qed.

Lemma timers_other p l val f :
  timers p l → val ∉ l → timers (p <| ph_items := alter f val (ph_items p) |>) l.
Proof.
  intros [Hseg Hst Hen Hnd Hso Har] Hn.
  assert (Htv : ∀ u, u ∈ l → tv_of (alter f val (ph_items p)) u = tv_of (ph_items p) u).
  { intros u Hu. apply tv_of_ne. by intros ->. }
  split; simpl; try done.
  - eapply lseg_frame; [|exact Hseg]. intros u Hu. rewrite list_lookup_alter_ne; [done|].
    by intros ->.
  - clear -Hso Htv. induction Hso as [|a l Hs IH Ha]; constructor.
    + apply IH. intros u Hu. apply Htv. by right.
    + rewrite Forall_forall in *. intros b Hb. rewrite !Htv; [by apply Ha|by right|by left].
  - rewrite Forall_forall in *. intros u Hu. rewrite Htv by done. by apply Har.
Qed.

Lemma set_timer_armed fuel val ms w v :
  ph_items (w_pool w) !! val = Some v → e_tv_ms v ≠ 0 → set_timer fuel val ms w = Ok (tt, w).
Proof.
  intros Hv Hne. unfold set_timer, mbind. rewrite (ev_eq _ _ _ Hv). bstep.
  by rewrite (proj2 (Z.eqb_neq _ _)).
Qed.

Lemma set_start_eq val (next : option nat) p :
  match ph_tv_start p with
  | None => p <| ph_tv_start := Some val |>
  | Some _ => if decide (next = ph_tv_start p) then p <| ph_tv_start := Some val |> else p
  end = p <| ph_tv_start := if decide (ph_tv_start p = None ∨ next = ph_tv_start p)
                            then Some val else ph_tv_start p |>.
Proof.
  destruct p as [? ? ? ? ? ? ? ? [s|] ? ? ?]; cbn [World.ph_tv_start World.ph_tv_end].
  - destruct (decide (next = Some s)) as [->|Hne].
    + by rewrite decide_True by auto.
    + rewrite decide_False; [done|]. by intros [?|?].
  - by case_decide; [|tauto].
Qed.
Lemma set_end_eq val (prev : option nat) p :
  match ph_tv_end p with
  | None => p <| ph_tv_end := Some val |>
  | Some _ => if decide (prev = ph_tv_end p) then p <| ph_tv_end := Some val |> else p
  end = p <| ph_tv_end := if decide (ph_tv_end p = None ∨ prev = ph_tv_end p)
                          then Some val else ph_tv_end p |>.
Proof.
  destruct p as [? ? ? ? ? ? ? ? ? [s|] ? ?]; cbn [World.ph_tv_start World.ph_tv_end].
  - destruct (decide (prev = Some s)) as [->|Hne].
    + by rewrite decide_True by auto.
    + rewrite decide_False; [done|]. by intros [?|?].
  - by case_decide; [|tauto].
Qed.

Lemma set_timer_run fuel val ms w l v :
  timers (w_pool w) l → ph_items (w_pool w) !! val = Some v → e_tv_ms v = 0 → val ∉ l →
  (length l < fuel)%nat →
  ∃ l1 l2, l = l1 ++ l2
    ∧ Forall (λ u, tv_of (ph_items (w_pool w)) u < now_ms w + ms) l1
    ∧ Forall (λ u, now_ms w + ms <= tv_of (ph_items (w_pool w)) u) l2
    ∧ set_timer fuel val ms w = Ok (tt, after ClockGettime w
        <| w_pool := set_pool val (now_ms w + ms) (head l2) (last l1) (w_pool w) |>).
Proof.
  intros Ht Hv Hz Hn Hf. set (tv := now_ms w + ms).
  set (w1 := after ClockGettime w
    <| w_pool := w_pool w <| ph_items := alter (λ v, v <| e_tv_ms := tv |>) val (ph_items (w_pool w)) |> |>).
  assert (Ht1 : timers (w_pool w1) l) by by apply timers_other.
  destruct (set_timer_walk tv l [] fuel w1 l Ht1) as (l1 & l2 & El & Hloop & H1 & H2);
    [by rewrite app_nil_r|done|done|].
  assert (Htv : ∀ u, u ∈ l → tv_of (ph_items (w_pool w1)) u = tv_of (ph_items (w_pool w)) u).
  { intros u Hu. simpl. apply tv_of_ne. by intros ->. }
  exists l1, l2. split; [done|]. subst l. split_and!.
  - rewrite Forall_forall in *. intros u Hu. rewrite <- Htv by (apply elem_of_app; by left). by apply H1.
  - rewrite Forall_forall in *. intros u Hu. rewrite <- Htv by (apply elem_of_app; by right). by apply H2.
  - unfold set_timer. unfold mbind at 1. rewrite (ev_eq _ _ _ Hv). bstep.
    rewrite Hz. change (negb (0 =? 0)) with false. cbv iota.
    unfold mbind at 1. change (pool_get ph_tv_end w) with (Ok (ph_tv_end (w_pool w), w)). bstep.
    unfold mbind at 1. change (time_ms w) with (Ok (now_ms w, after ClockGettime w)). bstep.
    fold tv. unfold mbind at 1. rewrite (ev_set_eq _ _ _ v) by done. bstep.
    lazymatch goal with |- mbind _ _ ?x = _ => change x with w1 end.
    rewrite (tm_end _ _ Ht). unfold mbind at 1. change (@None nat) with (head (@nil nat)).
    rewrite Hloop. bstep.
    assert (Hv1 : ph_items (w_pool w1) !! val = Some (v <| e_tv_ms := tv |>)).
    { simpl. by rewrite list_lookup_alter_eq, Hv. }
    unfold mbind at 1. rewrite (ev_set_eq _ _ _ _ Hv1). bstep.
    unfold mbind at 1. rewrite opt_set_prev.
    2:{ destruct (head l2) as [u|] eqn:E; [|done]. simpl. rewrite !is_Some_alter.
        apply (lseg_lookup _ None _ None _ (tm_seg _ _ Ht)). apply elem_of_app. right.
        destruct l2; [done|]. injection E as ->. left. }
    bstep. unfold mbind at 1. rewrite opt_set_next.
    2:{ destruct (last l1) as [u|] eqn:E; [|done]. simpl.
        destruct (head l2); simpl; rewrite !is_Some_alter;
        apply (lseg_lookup _ None _ None _ (tm_seg _ _ Ht)); apply elem_of_app; left;
        by apply last_Some_elem_of. }
    bstep. unfold mbind at 1. unfold pool_set, modify. bstep.
    rewrite set_start_eq, set_end_eq. simpl.
    f_equal. f_equal. unfold w1, set_pool, after. simpl. by rewrite list_alter_twice.
Qed.
End set_timer.

(** ** Theorems *)

(** an idle eval, linked nowhere *)
Definition idle_in (p : poolhd) (l : list nat) (val : nat) : Prop :=
  val ∉ l ∧ ∃ v, ph_items p !! val = Some v ∧ idle v.

(** [set_timer] arms an idle eval: the walk ends, the eval is linked in
    behind every timer that expires earlier and before all the others, the
    list stays well linked, duplicate-free and in order of expiry, and
    nothing but the timer fields changes (one clock reading is made). *)
Theorem set_timer_inserts `{K : Kernel} (fuel : nat) (val : nat) (ms : Z) (w : world)
    (l : list nat) :
  timers (w_pool w) l → idle_in (w_pool w) l val → now_ms w + ms ≠ 0 →
  (length l < fuel)%nat →
  wpm (set_timer fuel val ms) w (λ _ w', ∃ l1 l2,
    l = l1 ++ l2 ∧ timers (w_pool w') (l1 ++ val :: l2)
    ∧ tv_of (ph_items (w_pool w')) val = now_ms w + ms
    ∧ Forall (λ u, tv_of (ph_items (w_pool w)) u < now_ms w + ms) l1
    ∧ Forall (λ u, now_ms w + ms <= tv_of (ph_items (w_pool w)) u) l2
    ∧ strip_pool (w_pool w') = strip_pool (w_pool w)
    ∧ w' <| w_pool := w_pool w |> = after ClockGettime w).
Proof.
  intros Ht (Hn & v & Hv & Hi) Hnz Hf.
  assert (Hz : e_tv_ms v = 0) by by rewrite <- Hi.
  destruct (set_timer_run fuel val ms w l v Ht Hv Hz Hn Hf) as (l1 & l2 & -> & H1 & H2 & E).
  unfold wpm. rewrite E. simpl. exists l1, l2. split; [done|].
  destruct (set_pool_timers (w_pool w) l1 l2 val v (now_ms w + ms) Ht Hv Hn Hnz H1 H2) as [Ht' Htv].
  split_and!; [done|done|done|done| |by destruct w].
  change (w_pool w <| ph_items := map clear_tv
      (ph_items (set_pool val (now_ms w + ms) (head l2) (last l1) (w_pool w))) |>
      <| ph_tv_start := None |> <| ph_tv_end := None |> = strip_pool (w_pool w)).
  simpl. by rewrite map_clear_next, map_clear_prev, map_clear_alter.
Qed.

Lemma remove_timer_armed `{K : Kernel} (val : nat) (w : world) (l1 l2 : list nat) :
  timers (w_pool w) (l1 ++ val :: l2) →
  ∃ p', remove_timer val w = Ok (tt, w <| w_pool := p' |>)
    ∧ timers p' (l1 ++ l2) ∧ idle_in p' (l1 ++ l2) val
    ∧ strip_pool p' = strip_pool (w_pool w)
    ∧ (∀ u, u ∉ l1 ++ val :: l2 → ph_items p' !! u = ph_items (w_pool w) !! u).
Proof.
  intros Ht. destruct (lseg_lookup _ _ _ _ val (tm_seg _ _ Ht)) as [v Hv].
  { apply elem_of_app. right. left. }
  destruct (timers_split _ _ _ _ _ Ht Hv) as (Hp & Hnx & S1 & S2 & Hv1 & Hv2 & _ & _ & _).
  assert (Hh : ∀ u, head l2 = Some u → u ∈ l2) by (destruct l2; [done|]; intros ? [= <-]; left).
  assert (Hl : ∀ u, last l1 = Some u → u ∈ l1) by (intros u; apply last_Some_elem_of).
  exists (remove_pool val v (w_pool w)). split_and!.
  - apply remove_timer_run; [done|..].
    + rewrite Hp. intros E. by apply Hv1, Hl.
    + rewrite Hnx. intros E. by apply Hv2, Hh.
    + rewrite Hp. destruct (last l1) as [u|] eqn:E; [|done]. simpl.
      eapply lseg_lookup; [exact S1|by apply Hl].
    + rewrite Hnx. destruct (head l2) as [u|] eqn:E; [|done]. simpl.
      eapply lseg_lookup; [exact S2|by apply Hh].
  - by apply remove_pool_timers.
  - split; [by apply not_elem_of_app|]. exists (clear_tv v). split; [|done]. simpl.
    rewrite list_lookup_alter_eq.
    rewrite lookup_set_prev by (rewrite Hnx; intros E; by apply Hv2, Hh).
    rewrite lookup_set_next by (rewrite Hp; intros E; by apply Hv1, Hl). by rewrite Hv.
  - apply strip_remove_pool.
  - intros u [Hu1 [Hu2 Hu3]%not_elem_of_cons]%not_elem_of_app. simpl.
    rewrite list_lookup_alter_ne by done.
    rewrite lookup_set_prev by (rewrite Hnx; intros E; by apply Hu3, Hh).
    by rewrite lookup_set_next by (rewrite Hp; intros E; by apply Hu1, Hl).
Qed.

Lemma remove_timer_idle `{K : Kernel} (val : nat) (w : world) (l : list nat) :
  timers (w_pool w) l → idle_in (w_pool w) l val → remove_timer val w = Ok (tt, w).
Proof.
  intros Ht (Hn & v & Hv & Hi).
  assert (e_tv_next v = None ∧ e_tv_prev v = None) as [En Ep] by by rewrite <- Hi.
  rewrite (remove_timer_run val v w Hv); rewrite ?En, ?Ep; [|done..].
  rewrite (remove_pool_idle _ l) by done. by destruct w.
Qed.

(** [remove_timer] of an armed eval unlinks it and no other; of an idle
    eval it changes nothing at all. *)
Theorem remove_timer_unlinks `{K : Kernel} (val : nat) (w : world) (l : list nat) :
  timers (w_pool w) l →
  (∀ l1 l2, l = l1 ++ val :: l2 →
    wpm (remove_timer val) w (λ _ w',
      timers (w_pool w') (l1 ++ l2) ∧ idle_in (w_pool w') (l1 ++ l2) val
      ∧ strip_pool (w_pool w') = strip_pool (w_pool w)
      ∧ w' <| w_pool := w_pool w |> = w))
  ∧ (idle_in (w_pool w) l val → remove_timer val w = Ok (tt, w)).
Proof.
  intros Ht. split; [|by apply remove_timer_idle].
  intros l1 l2 ->. destruct (remove_timer_armed val w l1 l2 Ht) as (p' & E & H1 & H2 & H3 & _).
  unfold wpm. rewrite E. simpl. split_and!; try done. by destruct w.
Qed.

(** two timers, expiring at 5100 and 6000 ms, and an idle eval *)
Definition two_timers : poolhd :=
  Poolhd 3 3 4 [0; 1; 2]%nat
    [zero_eval <| e_tv_ms := 5100 |> <| e_tv_next := Some 1%nat |>;
     zero_eval <| e_tv_ms := 6000 |> <| e_tv_prev := Some 0%nat |>;
     zero_eval] [] 0 false (Some 0%nat) (Some 1%nat) None 0.

Lemma two_timers_ok : timers two_timers [0; 1]%nat.
Proof.
  split; try done; [simpl; split_and!; eauto|by repeat constructor; set_solver| |];
    repeat constructor; by vm_compute.
Qed.

Lemma set_timer_inserts_witness : let K : Kernel := quiet_kernel in
  wpm (set_timer 9 2 500) (sample_world two_timers) (λ _ w',
    timers (w_pool w') [0; 2; 1]%nat).
Proof.
  intros K. eapply wpm_mono; [apply (set_timer_inserts 9 2 500 (sample_world two_timers) [0; 1]%nat)|].
  - apply two_timers_ok.
  - split; [set_solver|]. by exists zero_eval.
  - by vm_compute.
  - simpl. lia.
  - intros _ w' (l1 & l2 & E & Ht & _ & H1 & H2 & _).
    destruct l1 as [|a [|b [|? ?]]]; simplify_eq/=; [|done|].
    + exfalso. apply Forall_cons in H2 as [H2 _]. vm_compute in H2. congruence.
    + exfalso. apply Forall_cons in H1 as [_ [H1 _]%Forall_cons]. vm_compute in H1. congruence.
Defined.

Lemma remove_timer_unlinks_witness : let K : Kernel := quiet_kernel in
  wpm (remove_timer 0) (sample_world two_timers) (λ _ w', timers (w_pool w') [1]%nat)
  ∧ remove_timer 2 (sample_world two_timers) = Ok (tt, sample_world two_timers).
Proof.
  intros K.
  pose proof (remove_timer_unlinks 0 (sample_world two_timers) [0; 1]%nat two_timers_ok) as [H _].
  pose proof (remove_timer_unlinks 2 (sample_world two_timers) [0; 1]%nat two_timers_ok) as [_ H'].
  split.
  - eapply wpm_mono; [by apply (H [] [1]%nat)|]. by intros _ w' (? & _).
  - apply H'. split; [set_solver|]. by exists zero_eval.
Defined.
