(* ===== verification/ConevEvents.v ===== *)
(** * Waiting for events: next_event and next_event_tv

    [epoll_wait] fills [pevents] with a batch, which [next_event] serves from
    its end.  An eval whose [mod_iter] is the current batch number was added
    or deleted while this batch was being served, and its event is skipped. *)

From Stdlib Require Import ZArith Lia Bool List.
From Stdlib Require Import Strings.Byte.
From stdpp Require Import base tactics list numbers option sorting sets.
From S2P Require Import Prelude CMem World Conev ConevTimers.

(** every event of [evs] carries an eval of the pool *)
Definition events_ok (p : poolhd) (evs : list (nat * Z)) : Prop :=
  Forall (λ pe, is_Some (ph_items p !! pe.1)) evs.

(** documented behaviour of [epoll_wait]: at most [maxevents] events, each
    with the data it was registered with (here: an eval of the pool) *)
Definition epoll_ok `{K : Kernel} (p : poolhd) : Prop :=
  ∀ tr efd n ms, let r := kernel tr (EpollWait efd n ms) in
    (0 < r_ret r → r_ret r <= n ∧ Z.of_nat (length (r_events r)) = r_ret r)
    ∧ events_ok p (r_events r).

(** between two batches, at position [offs] of the current one *)
Record batch_ok (p : poolhd) (offs : Z) : Prop := BatchOk {
  bt_offs : -1 <= offs < ph_max p;
  bt_held : offs < Z.of_nat (length (ph_pevents p));
  bt_events : events_ok p (ph_pevents p);
  bt_iters : 0 <= ph_iters p < 2 ^ 64 - 1;
  bt_stale : Forall (λ e, e_mod_iter e <= ph_iters p) (ph_items p)
}.

Section events.
Context {K : Kernel}.

(** the part of the world [next_event] leaves alone *)
Definition same_but_events (w w' : world) : Prop :=
  ph_items (w_pool w') = ph_items (w_pool w)
  ∧ w_pool w' <| ph_pevents := [] |> <| ph_iters := 0 |>
    = w_pool w <| ph_pevents := [] |> <| ph_iters := 0 |>
  ∧ w_bufs w' = w_bufs w ∧ w_maps w' = w_maps w ∧ w_params w' = w_params w ∧ w_dps w' = w_dps w.

Definition wait_call (w : world) (ms : Z) : call :=
  EpollWait (ph_efd (w_pool w)) (ph_max (w_pool w)) ms.
Definition wait_ret (w : world) (ms : Z) : Z := r_ret (kernel (w_trace w) (wait_call w ms)).

(** what [next_event] answers *)
Definition next_event_post (type ms : Z) (w : world) (r : option nat * Z * Z) (w' : world) : Prop :=
  let '(val, offs', type') := r in
  same_but_events w w'
  ∧ match val with
    | Some v => -1 <= offs' < ph_max (w_pool w') ∧ offs' < Z.of_nat (length (ph_pevents (w_pool w')))
        ∧ ∃ e, ph_items (w_pool w') !! v = Some e ∧ e_mod_iter e ≠ ph_iters (w_pool w')
    | None => offs' = -1 ∧ w' = after (wait_call w ms) w ∧ wait_ret w ms <= 0
        ∧ type' = (if wait_ret w ms =? 0 then POLLTIMEOUT else type)
    end.

Lemma next_event_step_spec ms offs type w :
  epoll_ok (w_pool w) → batch_ok (w_pool w) offs →
  wpm (next_event_step ms (offs, type)) w (λ r w', match r with
    | inl (offs', type') => 0 <= offs ∧ offs' = offs - 1 ∧ type' = type ∧ w' = w
    | inr r => next_event_post type ms w r w' end).
Proof.
  intros Hep [Ho Hheld Hev Hit Hst]. unfold next_event_step, wpm. mrun.
  rewrite (proj2 (andb_true_iff _ _)) by lia. change (negb true) with false. cbv iota.
  destruct (Z.ltb_spec offs 0) as [Hneg|Hpos].
  - assert (offs = -1) as -> by lia. mrun.
    set (c := EpollWait (ph_efd (w_pool w)) (ph_max (w_pool w)) ms).
    destruct (Hep (w_trace w) (ph_efd (w_pool w)) (ph_max (w_pool w)) ms) as (Hlen & Hevs).
    fold c in Hlen, Hevs. set (r := kernel (w_trace w) c) in *.
    destruct (Z.leb_spec (r_ret r) 0) as [Hz|Hn]; [by split_and!|].
    specialize (Hlen Hn) as [Hmax Hlen]. mrun.
    set (w2 := after c w <| w_pool := _ |>).
    assert (Hit2 : ph_iters (w_pool w2) = ph_iters (w_pool w) + 1).
    { simpl. apply u64_small. lia. }
    destruct (lookup_lt_is_Some_2 (r_events r) (Z.to_nat (r_ret r - 1))) as [pe Hpe']; [lia|].
    assert (Hpe : ph_pevents (w_pool w2) !! Z.to_nat (r_ret r - 1) = Some pe).
    { simpl. by rewrite lookup_app_l by lia. }
    rewrite Hpe. unfold deref. mrun.
    assert (Hv : is_Some (ph_items (w_pool w) !! pe.1)).
    { unfold events_ok in Hevs. rewrite Forall_forall in Hevs. apply Hevs.
      by eapply list_elem_of_lookup_2. }
    destruct Hv as [e He]. mrun (ev_eq pe.1 w2 e He).
    rewrite Forall_forall in Hst. pose proof (Hst e (list_elem_of_lookup_2 _ _ _ He)) as Hle.
    destruct (Z.eqb_spec (e_mod_iter e) (ph_iters (w_pool w2))) as [E|E]; [lia|].
    simpl. split; [by split_and!|].
    split; [simpl; lia|]. split; [rewrite length_app; simpl; lia|].
    by exists e.
  - mrun. destruct (lookup_lt_is_Some_2 (ph_pevents (w_pool w)) (Z.to_nat offs)) as [pe Hpe]; [lia|].
    rewrite Hpe. unfold deref. mrun.
    unfold events_ok in Hev. rewrite Forall_forall in Hev.
    destruct (Hev pe (list_elem_of_lookup_2 _ _ _ Hpe)) as [e He].
    mrun (ev_eq pe.1 w e He).
    destruct (Z.eqb_spec (e_mod_iter e) (ph_iters (w_pool w))) as [E|E]; simpl.
    + by split_and!.
    + split; [by split_and!|]. split; [lia|]. split; [lia|]. by exists e.
Qed.
End events.

Lemma next_event_spec `{K : Kernel} (fuel : nat) (offs type ms : Z) (w : world) :
  epoll_ok (w_pool w) → batch_ok (w_pool w) offs → offs + 2 < Z.of_nat fuel →
  wpm (next_event fuel offs type ms) w (next_event_post type ms w).
Proof.
  intros Hep Hb Hf. unfold next_event.
  apply (wpm_loop (λ '(o, t) w', w' = w ∧ t = type ∧ batch_ok (w_pool w) o) (λ '(o, _) _, o + 1)).
  - intros [o t] w' (-> & -> & Hbt). destruct Hbt. lia.
  - intros [o t] w' (-> & -> & Hbt). eapply wpm_mono; [by apply next_event_step_spec|].
    intros [[o' t']|r] w''; [|done].
    intros (Ho & -> & -> & ->). split; [|lia]. split; [done|]. split; [done|].
    destruct Hbt. split; try done; lia.
  - done.
  - lia.
Qed.

(** [next_event] terminates, whatever the kernel reports, within the
    events left of the current batch and one wait; the eval it answers was
    neither added nor deleted while the current batch is being served (its
    [mod_iter] is not the batch number); when it answers none, the wait it
    made reported no event, and the position is that of "ask again". *)
Theorem next_event_fresh `{K : Kernel} (fuel : nat) (offs type ms : Z) (w : world) :
  epoll_ok (w_pool w) → batch_ok (w_pool w) offs → offs + 2 < Z.of_nat fuel →
  wpm (next_event fuel offs type ms) w (λ '(val, offs', type') w',
    match val with
    | Some v => ∃ e, ph_items (w_pool w') !! v = Some e ∧ e_mod_iter e ≠ ph_iters (w_pool w')
    | None => offs' = -1 ∧ wait_ret w ms <= 0 ∧ w' = after (wait_call w ms) w
    end).
Proof.
  intros Hep Hb Hf. eapply wpm_mono; [by apply next_event_spec|].
  intros [[[v|] o] t] w' [_ Hp]; [by destruct Hp as (_ & _ & ?)|tauto].
Qed.

(** three evals; the batch holds events of evals 0 and 2, and eval 2 was
    deleted while the batch was served *)
Definition batch_pool : poolhd :=
  Poolhd 3 2 4 [0; 1; 2]%nat
    [zero_eval <| e_fd := 7 |>; zero_eval <| e_fd := 8 |>; zero_eval <| e_fd := -1 |> <| e_mod_iter := 6 |>]
    [(0%nat, POLLIN); (2%nat, POLLIN)] 6 false None None None 0.

Lemma next_event_fresh_witness : let K : Kernel := quiet_kernel in
  wpm (next_event 4 1 0 (-1)) (sample_world batch_pool) (λ '(val, _, _) w',
    val = None ∨ ∃ v e, val = Some v ∧ ph_items (w_pool w') !! v = Some e
      ∧ e_mod_iter e ≠ ph_iters (w_pool w')).
Proof.
  intros K. eapply wpm_mono; [apply (next_event_fresh 4 1 0 (-1) (sample_world batch_pool))|].
  - intros tr efd n ms. simpl. split; [lia|constructor].
  - split; simpl; [lia|lia| |lia|].
    + repeat constructor; by eexists.
    + repeat constructor; simpl; lia.
  - lia.
  - intros [[[v|] offs'] type'] w' Hpost; [right|by left].
    destruct Hpost as (e & ? & ?). by exists v, e.
Defined.

(** ** Timers and events together *)

Section tv.
Context {K : Kernel}.

(** expiry of the first timer *)
Definition first_tv (w : world) (first : nat) : Z := tv_of (ph_items (w_pool w)) first.

(** the world [next_event] starts from, and the one it leaves on silence *)
Definition clocked (w : world) : world := after ClockGettime w.
Definition waited (w : world) : world :=
  after (wait_call (clocked w) (i32 (first_tv w (default 0%nat (ph_tv_start (w_pool w))) - now_ms w))) (clocked w).

Lemma timers_items p p' l :
  timers p l → ph_items p' = ph_items p → ph_tv_start p' = ph_tv_start p →
  ph_tv_end p' = ph_tv_end p → timers p' l.
Proof. intros [? ? ? ? ? ?] E1 E2 E3. split; by rewrite ?E1, ?E2, ?E3. Qed.

Lemma pop_first first l w :
  timers (w_pool w) (first :: l) →
  ∃ e, ph_items (w_pool w) !! first = Some e
    ∧ remove_timer first w = Ok (tt, w <| w_pool := remove_pool first e (w_pool w) |>)
    ∧ timers (remove_pool first e (w_pool w)) l.
Proof.
  intros Ht. destruct (lseg_lookup _ _ _ _ first (tm_seg _ _ Ht)) as [e He]; [by left|].
  pose proof (timers_split (w_pool w) [] first l e Ht He) as (Hp & Hn & _ & S2 & _ & Hni & _).
  exists e. split; [done|]. split; [|by apply (remove_pool_timers _ [] first l)].
  apply remove_timer_run; [done|by rewrite Hp| |by rewrite Hp|].
  - rewrite Hn. intros E. apply Hni. destruct l; [done|]. injection E as ->. left.
  - rewrite Hn. destruct l as [|u l]; [done|]. simpl. eapply lseg_lookup; [exact S2|by left].
Qed.

Lemma next_event_tv_spec fuel offs type w first l :
  timers (w_pool w) (first :: l) → epoll_ok (w_pool w) → batch_ok (w_pool w) offs →
  offs + 2 < Z.of_nat fuel →
  - 2 ^ 31 <= first_tv w first - now_ms w < 2 ^ 31 →
  wpm (next_event_tv fuel offs type) w (λ '(val, offs', type') w',
    if first_tv w first <=? now_ms w then
      val = Some first ∧ type' = POLLTIMEOUT ∧ offs' = offs ∧ timers (w_pool w') l
    else
      let ms := first_tv w first - now_ms w in
      match val with
      | Some v =>
          (∃ e, ph_items (w_pool w') !! v = Some e ∧ e_mod_iter e ≠ ph_iters (w_pool w')
             ∧ timers (w_pool w') (first :: l))
          ∨ v = first ∧ offs' = -1 ∧ type' = POLLTIMEOUT ∧ timers (w_pool w') l
            ∧ (wait_ret (clocked w) ms = 0 ∨ wait_ret (clocked w) ms < 0 ∧ type = POLLTIMEOUT)
      | None => wait_ret (clocked w) ms < 0 ∧ type ≠ POLLTIMEOUT ∧ type' = type
            ∧ w_pool w' = w_pool w
      end).
Proof.
  intros Ht Hep Hb Hf Hms. unfold next_event_tv, wpm. mrun.
  rewrite (tm_start _ _ Ht). cbn [head].
  destruct (lseg_lookup _ _ _ _ first (tm_seg _ _ Ht)) as [e He]; [by left|].
  assert (Etv : first_tv w first = e_tv_ms e) by by unfold first_tv, tv_of; rewrite He.
  mrun (ev_get_eq first e_tv_ms w e He).
  erewrite (mbind_ok time_ms _ w (now_ms w) (clocked w)) by done. rewrite <- Etv.
  rewrite i32_small by lia. set (ms := first_tv w first - now_ms w) in *.
  destruct (Z.leb_spec (first_tv w first) (now_ms w)) as [Hexp|Hfut].
  - rewrite (proj2 (Z.ltb_ge 0 ms)) by lia. mrun.
    change (ph_tv_start (w_pool (clocked w))) with (ph_tv_start (w_pool w)).
    rewrite (tm_start _ _ Ht). cbn [head]. change (POLLTIMEOUT =? POLLTIMEOUT) with true. cbv iota.
    destruct (pop_first first l (clocked w) Ht) as (e' & _ & Hr & Ht').
    rewrite (mbind_ok _ _ _ _ _ Hr). by split_and!.
  - rewrite (proj2 (Z.ltb_lt 0 ms)) by lia.
    destruct (proj1 (wp_iff _ _) (next_event_spec fuel offs type ms (clocked w) Hep Hb Hf))
      as ([[[val o'] t'] w1] & E & (Hit & Hpool & _) & Hpost).
    rewrite (mbind_ok _ _ _ _ _ E). mrun.
    assert (Hst : ph_tv_start (w_pool w1) = Some first ∧ timers (w_pool w1) (first :: l)).
    { assert (Hs : ph_tv_start (w_pool w1) = ph_tv_start (w_pool w)
        ∧ ph_tv_end (w_pool w1) = ph_tv_end (w_pool w)).
      { split; [apply (f_equal ph_tv_start) in Hpool|apply (f_equal ph_tv_end) in Hpool]; done. }
      destruct Hs as [Hs1 Hs2]. rewrite Hs1. split; [by rewrite (tm_start _ _ Ht)|].
      by apply (timers_items (w_pool w)). }
    destruct Hst as [-> Ht1]. destruct val as [v|].
    + destruct Hpost as (_ & _ & e1 & He1 & Hne). left. by exists e1.
    + destruct Hpost as (-> & Hw1 & Hret & ->).
      destruct (Z.eqb_spec (wait_ret (clocked w) ms) 0) as [Hz|Hnz].
      * change (POLLTIMEOUT =? POLLTIMEOUT) with true. cbv iota.
        destruct (pop_first first l w1 Ht1) as (e' & _ & Hr & Ht').
        rewrite (mbind_ok _ _ _ _ _ Hr). right. split_and!; try done. by left.
      * destruct (Z.eqb_spec type POLLTIMEOUT) as [->|Hty].
        -- destruct (pop_first first l w1 Ht1) as (e' & _ & Hr & Ht').
           rewrite (mbind_ok _ _ _ _ _ Hr). right. split_and!; try done. right. split; [lia|done].
        -- split_and!; [lia|done|done|by rewrite Hw1].
Qed.
End tv.

(** With timers pending, [next_event_tv] terminates and: a timer that
    has expired is served at once, before any event, and unlinked; otherwise
    either a fresh event is served and the timers stay as they are, or the
    first timer is served and unlinked after a wait that reported nothing -
    provided the wait did not fail, or [*type] did not hold the value of a
    time-out from before.  A timer is never lost and never served twice. *)
Theorem next_event_tv_serves `{K : Kernel} (fuel : nat) (offs type : Z) (w : world)
    (first : nat) (l : list nat) :
  timers (w_pool w) (first :: l) → epoll_ok (w_pool w) → batch_ok (w_pool w) offs →
  offs + 2 < Z.of_nat fuel → - 2 ^ 31 <= first_tv w first - now_ms w < 2 ^ 31 →
  type ≠ POLLTIMEOUT →
  wpm (next_event_tv fuel offs type) w (λ '(val, _, type') w',
    (first_tv w first <= now_ms w → val = Some first ∧ type' = POLLTIMEOUT ∧ timers (w_pool w') l)
    ∧ (now_ms w < first_tv w first →
        let ms := first_tv w first - now_ms w in
        match val with
        | Some v => timers (w_pool w') (first :: l) ∨
            v = first ∧ type' = POLLTIMEOUT ∧ timers (w_pool w') l ∧ wait_ret (clocked w) ms = 0
        | None => wait_ret (clocked w) ms < 0 ∧ timers (w_pool w') (first :: l)
        end)).
Proof.
  intros Ht Hep Hb Hf Hms Hty. eapply wpm_mono; [by apply next_event_tv_spec|].
  intros [[val o'] t'] w'. destruct (Z.leb_spec (first_tv w first) (now_ms w)) as [Hle|Hgt].
  - intros (-> & -> & _ & Ht'). split; [done|lia].
  - intros Hpost. split; [lia|]. intros _ ms. destruct val as [v|].
    + destruct Hpost as [(e & _ & _ & Ht')|(-> & _ & -> & Ht' & [Hz|[_ ?]])]; [by left|right|done].
      by split_and!.
    + destruct Hpost as (Hneg & _ & _ & Hp). split; [done|]. by rewrite Hp.
Qed.

Lemma next_event_fail `{K : Kernel} fuel type ms w :
  0 <= ph_max (w_pool w) → wait_ret w ms < 0 →
  next_event (Datatypes.S fuel) (-1) type ms w = Ok ((None, -1, type), after (wait_call w ms) w).
Proof.
  intros Hmax Hneg. apply mloop_inr. unfold next_event_step. mrun.
  rewrite (proj2 (andb_true_iff _ _)) by lia. change (negb true) with false.
  change (-1 <? 0) with true. cbv iota. mrun. unfold wait_ret, wait_call in *.
  rewrite (proj2 (Z.leb_le _ _)) by lia. by rewrite (proj2 (Z.eqb_neq _ _)) by lia.
Qed.

(** Left over from an earlier time-out, [*type] still says
    [POLLTIMEOUT]: when the next wait fails (a signal), [next_event_tv]
    serves the first timer although its time has not come. *)
Theorem next_event_tv_early `{K : Kernel} (fuel : nat) (w : world) (first : nat) (l : list nat) :
  timers (w_pool w) (first :: l) → 0 <= ph_max (w_pool w) →
  0 < first_tv w first - now_ms w < 2 ^ 31 →
  wait_ret (clocked w) (first_tv w first - now_ms w) < 0 →
  wpm (next_event_tv (Datatypes.S fuel) (-1) POLLTIMEOUT) w (λ '(val, _, type') w',
    val = Some first ∧ type' = POLLTIMEOUT ∧ timers (w_pool w') l).
Proof.
  intros Ht Hmax Hms Hneg. unfold next_event_tv, wpm. mrun.
  rewrite (tm_start _ _ Ht). cbn [head].
  destruct (lseg_lookup _ _ _ _ first (tm_seg _ _ Ht)) as [e He]; [by left|].
  assert (Etv : first_tv w first = e_tv_ms e) by by unfold first_tv, tv_of; rewrite He.
  mrun (ev_get_eq first e_tv_ms w e He).
  erewrite (mbind_ok time_ms _ w (now_ms w) (clocked w)) by done. rewrite <- Etv.
  rewrite i32_small by lia. rewrite (proj2 (Z.ltb_lt 0 _)) by lia.
  rewrite (mbind_ok _ _ _ _ _ (next_event_fail fuel POLLTIMEOUT _ (clocked w) Hmax Hneg)). mrun.
  set (w1 := after _ (clocked w)). assert (Ht1 : timers (w_pool w1) (first :: l)) by done.
  rewrite (tm_start _ _ Ht1). cbn [head]. change (POLLTIMEOUT =? POLLTIMEOUT) with true. cbv iota.
  destruct (pop_first first l w1 Ht1) as (e' & _ & Hr & Ht').
  by rewrite (mbind_ok _ _ _ _ _ Hr).
Qed.

(** the clock at 5.5 s: the first of [two_timers] has expired *)
Definition late_kernel : Kernel := λ _ c,
  match c with ClockGettime => Reply 5500000000 0 [] [] | _ => Reply 0 0 [] [] end.

Lemma next_event_tv_serves_witness : let K : Kernel := late_kernel in
  wpm (next_event_tv 4 (-1) POLLIN) (sample_world two_timers) (λ '(val, _, type') w',
    val = Some 0%nat ∧ type' = POLLTIMEOUT ∧ timers (w_pool w') [1]%nat).
Proof.
  intros K. eapply wpm_mono.
  - apply (next_event_tv_serves 4 (-1) POLLIN (sample_world two_timers) 0 [1]%nat).
    + apply two_timers_ok.
    + intros tr efd n ms. simpl. split; [lia|constructor].
    + split; simpl; [lia|lia|constructor|lia|]. repeat constructor; simpl; lia.
    + lia.
    + by vm_compute.
    + done.
  - intros [[val o] t] w' [H _]. apply H. by vm_compute.
Defined.

(** a kernel whose waits are interrupted *)
Definition interrupted_kernel : Kernel := λ _ c,
  match c with
  | ClockGettime => Reply 5000000000 0 [] []
  | EpollWait _ _ _ => Reply (-1) EINTR [] []
  | _ => Reply 0 0 [] []
  end.

Lemma next_event_tv_early_witness : let K : Kernel := interrupted_kernel in
  wpm (next_event_tv 1 (-1) POLLTIMEOUT) (sample_world two_timers) (λ '(val, _, type') w',
    val = Some 0%nat ∧ type' = POLLTIMEOUT ∧ timers (w_pool w') [1]%nat).
Proof.
  intros K. apply (next_event_tv_early 0 (sample_world two_timers) 0 [1]%nat).
  - apply two_timers_ok.
  - by vm_compute.
  - by vm_compute.
  - by vm_compute.
Defined.
