(* ===== verification/ConevPool.v ===== *)
(** * The pool of connections: add_event and del_event

    [pool_wf] is the invariant of a pool: [links] permutes the items, its
    first [count] entries are the live evals, each of which knows its own
    position.  [release] (the body of [del_event] before the pair is
    followed) takes one eval out; [del_event] takes out a whole ring of
    paired evals, whatever its length. *)

From Stdlib Require Import ZArith Lia Bool List.
From Stdlib Require Import Strings.Byte.
From stdpp Require Import base tactics list numbers option sorting sets.
From S2P Require Import Prelude CMem World Conev ConevTimers.

(** ** Buffers: the free list *)

(** the free list from [root] *)
Fixpoint chain (bufs : list (option buffer)) (root : option nat) (l : list nat) : Prop :=
  match l with
  | [] => root = None
  | b :: l => root = Some b ∧ ∃ x, bufs !! b = Some (Some x) ∧ chain bufs (b_next x) l
  end.

Record free_list (w : world) (l : list nat) : Prop := FreeList {
  fl_chain : chain (w_bufs w) (ph_root_buff (w_pool w)) l;
  fl_nodup : NoDup l;
  fl_count : ph_buff_count (w_pool w) = Z.of_nat (length l);
  fl_max : (length l <= 8)%nat
}.

Definition allocated (bufs : list (option buffer)) (b : nat) : Prop :=
  ∃ x, bufs !! b = Some (Some x).

Lemma chain_frame bufs bufs' root l :
  (∀ b, b ∈ l → bufs' !! b = bufs !! b) → chain bufs root l → chain bufs' root l.
Proof.
  revert root. induction l as [|b l IH]; intros root Hf; simpl; [done|].
  intros (-> & x & Hx & Hc). split; [done|]. exists x.
  rewrite Hf by by left. split; [done|]. apply IH; [|done]. intros c Hb. apply Hf. by right.
Qed.

Lemma chain_allocated bufs root l b : chain bufs root l → b ∈ l → allocated bufs b.
Proof.
  revert root. induction l as [|c l IH]; intros root Hc Hb; [by apply elem_of_nil in Hb|].
  destruct Hc as (-> & x & Hx & Hc).
  apply elem_of_cons in Hb as [->|Hb]; [by exists x|by eapply IH].
Qed.

Section pool.
Context {K : Kernel}.

(** the world with other buffers and another free list *)
Definition rebuf (bufs : list (option buffer)) (root : option nat) (n : Z) (w : world) : world :=
  w <| w_bufs := bufs |>
    <| w_pool := w_pool w <| ph_root_buff := root |> <| ph_buff_count := n |> |>.

(** [buff_push] of a buffer that is not in the free list puts it there,
    emptied, unless the list is full: then it is freed *)
Lemma buff_push_run b w l :
  free_list w l → allocated (w_bufs w) b → b ∉ l →
  ∃ bufs root n, buff_push (Some b) w = Ok (tt, rebuf bufs root n w)
    ∧ (∀ c, c ≠ b → bufs !! c = w_bufs w !! c)
    ∧ (if (length l <? 8)%nat
       then free_list (rebuf bufs root n w) (b :: l)
         ∧ ∃ x, bufs !! b = Some (Some x) ∧ b_lock x = 0 ∧ b_offset x = 0
       else free_list (rebuf bufs root n w) l ∧ bufs !! b = Some None).
Proof.
  intros [Hc Hnd Hn Hmax] [x Hx] Hb. unfold buff_push. mrun. rewrite Hn.
  assert (Hlt : (b < length (w_bufs w))%nat) by (by eapply lookup_lt_Some).
  destruct (Nat.ltb_spec (length l) 8) as [Hl|Hl].
  - rewrite (proj2 (Z.leb_gt _ _)) by (unfold MAX_BUFF_INP; lia). mrun.
    rewrite (mbind_ok _ _ _ _ _ (buf_set_eq b _ w x Hx)).
    eexists (alter _ b (w_bufs w)), _, _. split; [reflexivity|].
    set (y := x <| b_lock := 0 |> <| b_offset := 0 |> <| b_next := ph_root_buff (w_pool w) |>).
    assert (Hy : alter (fmap (M:=option) (λ x, x <| b_lock := 0 |> <| b_offset := 0 |> <| b_next := ph_root_buff (w_pool w) |>)) b (w_bufs w) !! b = Some (Some y)).
    { by rewrite list_lookup_alter_eq, Hx. }
    split_and!.
    + intros c Hc'. by rewrite list_lookup_alter_ne.
    + split; simpl.
      * split; [done|]. exists y. split; [exact Hy|]. eapply chain_frame; [|exact Hc].
        intros c Hcl. rewrite list_lookup_alter_ne; [done|]. by intros ->.
      * by constructor.
      * rewrite Hn. lia.
      * lia.
    + by exists y.
  - rewrite (proj2 (Z.leb_le _ _)) by (unfold MAX_BUFF_INP; lia). unfold free_buf.
    rewrite (mbind_ok _ _ _ _ _ (buf_eq b w x Hx)).
    exists (<[b := None]> (w_bufs w)), (ph_root_buff (w_pool w)), (ph_buff_count (w_pool w)).
    split; [by destruct w as [[]]|]. split_and!.
    + intros c Hc'. by rewrite list_lookup_insert_ne.
    + split; simpl; try done. eapply chain_frame; [|exact Hc].
      intros c Hcl. rewrite list_lookup_insert_ne; [done|]. by intros ->.
    + by rewrite list_lookup_insert_eq.
Qed.
End pool.

(** The free list under [buff_push] and [buff_pop]: a buffer that is
    not free goes to the head of the list, emptied, and the list never
    holds more than eight (the ninth is freed); popping answers the head,
    keeps its size, and leaves the rest; popping an empty list allocates a
    fresh, empty buffer of the size asked for, or answers none when
    [malloc] fails. *)
Theorem buffers_recycled `{K : Kernel} (w : world) (l : list nat) (size : Z) :
  free_list w l →
  (∀ b, allocated (w_bufs w) b → b ∉ l →
    wpm (buff_push (Some b)) w (λ _ w',
      (∀ c, c ≠ b → w_bufs w' !! c = w_bufs w !! c)
      ∧ if (length l <? 8)%nat
        then free_list w' (b :: l) ∧ ∃ x, w_bufs w' !! b = Some (Some x) ∧ b_lock x = 0 ∧ b_offset x = 0
        else free_list w' l ∧ w_bufs w' !! b = Some None))
  ∧ wpm (buff_pop size) w (λ o w', match l, o with
      | b :: l', Some c => c = b ∧ free_list w' l' ∧ w_bufs w' = w_bufs w
      | [], Some c => free_list w' [] ∧ c = length (w_bufs w)
          ∧ (∀ d, (d < c)%nat → w_bufs w' !! d = w_bufs w !! d)
          ∧ ∃ x, w_bufs w' !! c = Some (Some x) ∧ b_size x = size ∧ b_lock x = 0 ∧ b_offset x = 0
             ∧ length (b_data x) = Z.to_nat size
      | [], None => r_ret (kernel (w_trace w) (Malloc (A_BUFFER size))) = 0 ∧ free_list w' []
      | _, _ => False
      end).
Proof.
  intros Hfl. split.
  - intros b Hb Hn. destruct (buff_push_run b w l Hfl Hb Hn) as (bufs & root & n & E & Hc & Hp).
    unfold wpm. rewrite E. simpl. by split.
  - destruct Hfl as [Hc Hnd Hn Hmax]. unfold buff_pop, wpm. mrun.
    destruct l as [|b l]; simpl in Hc.
    + rewrite Hc. mrun. set (r := kernel _ _).
      destruct (Z.eqb_spec (r_ret r) 0) as [Hz|Hnz]; [by split|]. mrun.
      split_and!; [by split|done| |].
      * intros d Hd. simpl. by rewrite lookup_app_l.
      * eexists. split; [simpl; by rewrite list_lookup_middle|]. split_and!; try done.
        simpl. unfold fresh. rewrite length_take, length_app, repeat_length. lia.
    + destruct Hc as (-> & x & Hx & Hc). mrun (buf_eq b w x Hx).
      apply NoDup_cons in Hnd as [Hb Hnd]. split_and!; [done| |done].
      split; simpl in *; [done|done|lia|lia].
Qed.

Definition malloc_kernel : Kernel := λ _ c,
  match c with Malloc _ => Reply 1 0 [] [] | ClockGettime => Reply 5000000000 0 [] [] | _ => Reply 0 0 [] [] end.

Lemma empty_free_list p : ph_root_buff p = None → ph_buff_count p = 0 → free_list (sample_world p) [].
Proof. intros Hr Hc. split; simpl; [done|constructor|done|lia]. Qed.

Lemma buffers_recycled_witness : let K : Kernel := malloc_kernel in
  wpm (buff_pop 16) (sample_world two_timers) (λ o w', ∃ c x,
    o = Some c ∧ free_list w' [] ∧ w_bufs w' !! c = Some (Some x) ∧ b_size x = 16).
Proof.
  intros K.
  pose proof (buffers_recycled (sample_world two_timers) [] 16
    (empty_free_list two_timers eq_refl eq_refl)) as [_ H].
  eapply wpm_mono; [exact H|]. intros [c|] w'.
  - intros (Hf & _ & _ & x & Hx & Hs & _). by exists c, x.
  - intros [Hz _]. by vm_compute in Hz.
Defined.

(** ** The pool invariant *)

Definition alive (p : poolhd) (v : nat) : Prop :=
  ∃ i, Z.of_nat i < ph_count p ∧ ph_links p !! i = Some v.

Record pool_wf (p : poolhd) : Prop := PoolWf {
  wf_links : Z.of_nat (length (ph_links p)) = ph_max p;
  wf_items : length (ph_items p) = length (ph_links p);
  wf_nodup : NoDup (ph_links p);
  wf_range : Forall (λ v, v < length (ph_items p))%nat (ph_links p);
  wf_count : 0 <= ph_count p <= ph_max p;
  wf_live : ∀ i v, Z.of_nat i < ph_count p → ph_links p !! i = Some v →
    ∃ e, ph_items p !! v = Some e ∧ 0 < e_fd e ∧ e_index e = Z.of_nat i
      ∧ e_mod_iter e <= ph_iters p
}.

(** live evals are armed or idle; dead ones are not armed *)
Definition timers_wf (p : poolhd) (l : list nat) : Prop :=
  timers p l ∧ (∀ v, v ∈ l → alive p v)
  ∧ (∀ v e, alive p v → v ∉ l → ph_items p !! v = Some e → idle e).

(** what the deletion of another eval leaves alone *)
Definition conn (e : eval) : eval := clear_tv e <| e_index := 0 |>.

(** swapping two entries *)
Lemma lookup_swap {A} (l : list A) i j a b k :
  l !! i = Some a → l !! j = Some b → i ≠ j →
  <[j := a]> (<[i := b]> l) !! k = l !! (if decide (k = i) then j else if decide (k = j) then i else k).
Proof.
  intros Hi Hj Hne. pose proof (lookup_lt_Some _ _ _ Hi). pose proof (lookup_lt_Some _ _ _ Hj).
  destruct (decide (k = j)) as [->|Hkj].
  - rewrite decide_False by done. by rewrite list_lookup_insert_eq by (rewrite length_insert; lia).
  - rewrite list_lookup_insert_ne by done. destruct (decide (k = i)) as [->|Hki].
    + by rewrite list_lookup_insert_eq by lia.
    + by rewrite list_lookup_insert_ne.
Qed.

Lemma NoDup_swap {A} (l : list A) i j a b :
  l !! i = Some a → l !! j = Some b → i ≠ j → NoDup l → NoDup (<[j := a]> (<[i := b]> l)).
Proof.
  intros Hi Hj Hne Hnd. apply NoDup_alt. intros k m u Hk Hm.
  rewrite (lookup_swap l i j a b) in Hk, Hm by done.
  pose proof (NoDup_lookup _ _ _ _ Hnd Hk Hm) as E. repeat case_decide; congruence.
Qed.

Section release.
Context {K : Kernel}.
Implicit Types (p : poolhd) (w : world).

Lemma alive_lookup p v : pool_wf p → alive p v → ∃ e i,
  ph_items p !! v = Some e ∧ 0 < e_fd e ∧ e_mod_iter e <= ph_iters p
  ∧ e_index e = Z.of_nat i ∧ ph_links p !! i = Some v ∧ Z.of_nat i < ph_count p.
Proof.
  intros Hwf (i & Hi & Hl). destruct (wf_live p Hwf i v Hi Hl) as (e & ? & ? & ? & ?).
  by exists e, i.
Qed.

(** the last step of [release]: out of the live prefix, with a swap *)
Definition drop_live (val : nat) (last : nat) (i : nat) (p : poolhd) : poolhd :=
  let p := p <| ph_count := ph_count p - 1 |> in
  if decide (last = val) then p else
  p <| ph_links := <[Z.to_nat (ph_count p) := val]> (<[i := last]> (ph_links p)) |>
    <| ph_items := alter (λ e, e <| e_index := Z.of_nat i |>) last (ph_items p) |>.

Lemma unlink_live_run w v e i last :
  ph_items (w_pool w) !! v = Some e → e_index e = Z.of_nat i →
  ph_links (w_pool w) !! i = Some v → Z.of_nat i < ph_count (w_pool w) →
  ph_links (w_pool w) !! Z.to_nat (ph_count (w_pool w) - 1) = Some last →
  is_Some (ph_items (w_pool w) !! last) →
  unlink_live v w = Ok (tt, w <| w_pool := drop_live v last i (w_pool w) |>).
Proof.
  intros He Hidx Hi Hlt Hlast [el Hel]. unfold unlink_live, link. mrun. simpl ph_count.
  rewrite (proj2 (Z.ltb_ge _ _)) by (simpl; lia). simpl ph_links. simpl ph_count.
  rewrite Hlast. unfold deref. mrun. unfold drop_live.
  destruct (decide (last = v)) as [->|Hne]; [done|].
  erewrite mbind_ok by (by apply (ev_get_eq v)). unfold set_link. mrun. simpl ph_links.
  apply lookup_lt_Some in Hi as Hil. apply lookup_lt_Some in Hlast as Hll.
  rewrite Hidx. rewrite (proj2 (andb_true_iff _ _)) by (split; [apply Z.leb_le|apply Z.ltb_lt]; lia).
  mrun. simpl. rewrite length_insert.
  rewrite (proj2 (andb_true_iff _ _)) by (split; [apply Z.leb_le|apply Z.ltb_lt]; lia).
  mrun. rewrite (ev_set_eq last _ _ el) by done. simpl. rewrite Nat2Z.id. done.
Qed.

Lemma drop_live_wf v last i p e :
  (∀ j u, Z.of_nat j < ph_count p → ph_links p !! j = Some u → u ≠ v →
     ∃ e, ph_items p !! u = Some e ∧ 0 < e_fd e ∧ e_index e = Z.of_nat j ∧ e_mod_iter e <= ph_iters p) →
  Z.of_nat (length (ph_links p)) = ph_max p → length (ph_items p) = length (ph_links p) →
  NoDup (ph_links p) → Forall (λ v, v < length (ph_items p))%nat (ph_links p) →
  0 <= ph_count p <= ph_max p →
  ph_items p !! v = Some e → e_index e = Z.of_nat i →
  ph_links p !! i = Some v → Z.of_nat i < ph_count p →
  ph_links p !! Z.to_nat (ph_count p - 1) = Some last →
  pool_wf (drop_live v last i p) ∧ ∀ u, alive (drop_live v last i p) u ↔ alive p u ∧ u ≠ v.
Proof.
  intros Hlive Hl1 Hl2 Hnd Hr Hc He Hidx Hi Hlt Hlast.
  apply lookup_lt_Some in Hi as Hil. apply lookup_lt_Some in Hlast as Hll.
  assert (Hinj : ∀ a b u, ph_links p !! a = Some u → ph_links p !! b = Some u → a = b).
  { intros a b u. by apply NoDup_lookup. }
  unfold drop_live. destruct (decide (last = v)) as [->|Hne].
  - assert (Ei : i = Z.to_nat (ph_count p - 1)) by by eapply Hinj.
    split; [split; simpl; try done; [lia|]|].
    + intros j u Hj Hu. apply Hlive; [lia|done|]. intros ->.
      pose proof (Hinj _ _ _ Hi Hu). lia.
    + intros u. unfold alive. simpl. split.
      * intros (j & Hj & Hu). split; [exists j; split; [lia|done]|]. intros ->.
        pose proof (Hinj _ _ _ Hi Hu). lia.
      * intros [(j & Hj & Hu) Huv]. exists j. split; [|done].
        destruct (decide (j = i)) as [->|]; [congruence|lia].
  - assert (Hne' : i ≠ Z.to_nat (ph_count p - 1)) by (intros ->; congruence).
    set (c := Z.to_nat (ph_count p - 1)) in *.
    assert (Hlook : ∀ j u, Z.of_nat j < ph_count p - 1 →
      <[c:=v]> (<[i:=last]> (ph_links p)) !! j = Some u →
      (j = i ∧ u = last) ∨ (j ≠ i ∧ ph_links p !! j = Some u)).
    { intros j u Hj. rewrite list_lookup_insert_ne by lia.
      destruct (decide (j = i)) as [->|Hji].
      - rewrite list_lookup_insert_eq by done. intros [= ->]. by left.
      - rewrite list_lookup_insert_ne by done. auto. }
    split; [split; simpl|].
    + by rewrite !length_insert.
    + by rewrite length_alter, !length_insert.
    + by apply (NoDup_swap _ i c v last).
    + rewrite length_alter. apply Forall_insert; [apply Forall_insert; [done|]|].
      * rewrite Forall_forall in Hr. apply Hr. by eapply list_elem_of_lookup_2.
      * rewrite Forall_forall in Hr. apply Hr. by eapply list_elem_of_lookup_2.
    + lia.
    + intros j u Hj Hu. destruct (Hlook j u Hj Hu) as [[-> ->]|[Hji Hu']].
      * destruct (Hlive c last) as (el & Hel & ? & ? & ?); [lia|done|done|].
        exists (el <| e_index := Z.of_nat i |>). by rewrite list_lookup_alter_eq, Hel.
      * assert (Huv : u ≠ v) by (intros ->; apply Hji; by eapply Hinj).
        destruct (Hlive j u) as (eu & Heu & ? & ? & ?); [lia|done|done|].
        exists eu. rewrite list_lookup_alter_ne; [done|]. intros ->.
        assert (j = c) by (by eapply Hinj). lia.
    + intros u. unfold alive. simpl. split.
      * intros (j & Hj & Hu). destruct (Hlook j u Hj Hu) as [[-> ->]|[Hji Hu']].
        -- split; [|done]. exists c. split; [lia|done].
        -- split; [exists j; split; [lia|done]|]. intros ->. apply Hji. by eapply Hinj.
      * intros [(j & Hj & Hu) Huv]. destruct (decide (j = c)) as [->|Hjc].
        -- exists i. split; [lia|]. rewrite list_lookup_insert_ne by done.
           rewrite list_lookup_insert_eq by done. congruence.
        -- exists j. split; [lia|]. rewrite list_lookup_insert_ne by lia.
           rewrite list_lookup_insert_ne; [done|]. intros ->. congruence.
Qed.

(** *** Ownership of buffers *)

Definition owns p (u b : nat) : Prop :=
  alive p u ∧ ∃ e, ph_items p !! u = Some e ∧ (e_buff e = Some b ∨ e_sq_buff e = Some b).

(** every buffer has one owner: the free list or one slot of one live eval *)
Record bufs_wf w (fl : list nat) : Prop := BufsWf {
  bw_free : free_list w fl;
  bw_alloc : ∀ u b, owns (w_pool w) u b → allocated (w_bufs w) b ∧ b ∉ fl;
  bw_owner : ∀ u u' b, owns (w_pool w) u b → owns (w_pool w) u' b → u = u';
  bw_slots : ∀ u e b, alive (w_pool w) u → ph_items (w_pool w) !! u = Some e →
    e_buff e = Some b → e_sq_buff e ≠ Some b
}.

Lemma rebuf_same w : rebuf (w_bufs w) (ph_root_buff (w_pool w)) (ph_buff_count (w_pool w)) w = w.
Proof. by destruct w as [[]]. Qed.

Lemma push_opt o w fl :
  free_list w fl → (∀ b, o = Some b → allocated (w_bufs w) b ∧ b ∉ fl) →
  ∃ bufs root n fl', buff_push o w = Ok (tt, rebuf bufs root n w)
    ∧ free_list (rebuf bufs root n w) fl'
    ∧ (∀ c, o ≠ Some c → bufs !! c = w_bufs w !! c)
    ∧ (∀ c, c ∈ fl' → c ∈ fl ∨ o = Some c).
Proof.
  intros Hfl Ho. destruct o as [b|].
  - destruct (Ho b eq_refl) as [Ha Hn].
    destruct (buff_push_run b w fl Hfl Ha Hn) as (bufs & root & n & E & Hc & Hp).
    exists bufs, root, n. destruct (_ <? 8)%nat; destruct Hp as [Hp _];
      [exists (b :: fl)|exists fl]; (split_and!; [done|done|intros c Hcb; apply Hc; congruence|]).
    + intros c [->|Hin]%elem_of_cons; auto.
    + auto.
  - exists (w_bufs w), (ph_root_buff (w_pool w)), (ph_buff_count (w_pool w)), fl.
    rewrite rebuf_same. split_and!; auto.
Qed.

(** *** The frame of the steps of [release] *)

(** the descriptors closed so far *)
Definition closed (tr : history) : list Z :=
  omap (λ cr : call * reply, match cr.1 with Close fd => Some fd | _ => None end) tr.

Definition skel p : poolhd :=
  p <| ph_items := [] |> <| ph_root_buff := None |> <| ph_buff_count := 0 |>.

(** from [w] to [w'] only the eval [val] (by [f]), buffers, mappings and
    the trace have changed; [fds] were closed *)
Record only (val : nat) (f : eval → eval) (fds : list Z) w w' : Prop := Only {
  on_items : ph_items (w_pool w') = alter f val (ph_items (w_pool w));
  on_skel : skel (w_pool w') = skel (w_pool w);
  on_params : w_params w' = w_params w;
  on_dps : w_dps w' = w_dps w;
  on_closed : closed (w_trace w') = closed (w_trace w) ++ fds
}.

Lemma alter_id val (l : list eval) : alter (λ e, e) val l = l.
Proof.
  apply list_eq. intros i. rewrite list_lookup_alter. case_decide; subst; [|done].
  by destruct (l !! i).
Qed.

Lemma only_refl val w : only val (λ e, e) [] w w.
Proof. split; rewrite ?alter_id, ?app_nil_r; done. Qed.
Section steps.
Context (val : nat) (f : eval → eval) (fds : list Z) (w w' : world) (H : only val f fds w w').
Lemma only_after c :
  (match c with Close _ => False | _ => True end) → only val f fds w (after c w').
Proof.
  intros Hc. destruct H as [? ? ? ? E]. split; try done. simpl. rewrite <- E.
  unfold closed. rewrite omap_app. simpl. destruct c; by rewrite ?app_nil_r.
Qed.
Lemma only_close fd : only val f (fds ++ [fd]) w (after (Close fd) w').
Proof.
  destruct H as [? ? ? ? E]. split; try done. rewrite app_assoc, <- E.
  unfold closed. simpl. by rewrite omap_app.
Qed.
Lemma only_rebuf bufs root n : only val f fds w (rebuf bufs root n w').
Proof. by destruct H. Qed.
Lemma only_set g : only val (λ e, g (f e)) fds w
  (w' <| w_pool := w_pool w' <| ph_items := alter g val (ph_items (w_pool w')) |> |>).
Proof. destruct H as [E ? ? ? ?]. split; try done. simpl. by rewrite E, list_alter_twice. Qed.
Lemma only_maps maps : only val f fds w (w' <| w_maps := maps |>).
Proof. by destruct H. Qed.
End steps.

Lemma munmap_run (q : nat * Z) n w : ∃ maps,
  munmap q n w = Ok (tt, after (Munmap q.1 q.2 n) w <| w_maps := maps |>).
Proof.
  unfold munmap. mrun. destruct (_ =? 0).
  - by eexists.
  - exists (w_maps w). by destruct w.
Qed.

(** *** [release], up to the timer *)

(** what [release] makes of the eval before [remove_timer] *)
Definition shut (iters : Z) (e : eval) : eval :=
  e <| e_buff := None |> <| e_sq_buff := None |> <| e_restore_fake := None |>
    <| e_host := None |> <| e_fd := -1 |> <| e_mod_iter := iters |>.

(** the buffers [o1] and [o2] have been pushed *)
Definition pushed (o1 o2 : option nat) (fl : list nat) w w' (fl' : list nat) : Prop :=
  free_list w' fl'
  ∧ (∀ c, o1 ≠ Some c → o2 ≠ Some c → w_bufs w' !! c = w_bufs w !! c)
  ∧ (∀ c, c ∈ fl' → c ∈ fl ∨ o1 = Some c ∨ o2 = Some c).

Lemma free_list_only w w' fl :
  w_bufs w' = w_bufs w → ph_root_buff (w_pool w') = ph_root_buff (w_pool w) →
  ph_buff_count (w_pool w') = ph_buff_count (w_pool w) → free_list w fl → free_list w' fl.
Proof. intros E1 E2 E3 []. split; congruence. Qed.

Lemma pushed_only o1 o2 fl w w1 w2 fl' :
  w_bufs w2 = w_bufs w1 → ph_root_buff (w_pool w2) = ph_root_buff (w_pool w1) →
  ph_buff_count (w_pool w2) = ph_buff_count (w_pool w1) →
  pushed o1 o2 fl w w1 fl' → pushed o1 o2 fl w w2 fl'.
Proof.
  intros E1 E2 E3 (F & B & S). split_and!; [|by rewrite E1|done].
  by eapply free_list_only; [..|exact F].
Qed.

Lemma release_head w fl val e :
  ph_items (w_pool w) !! val = Some e → free_list w fl →
  (∀ b, e_buff e = Some b ∨ e_sq_buff e = Some b → allocated (w_bufs w) b ∧ b ∉ fl) →
  (∀ b, e_buff e = Some b → e_sq_buff e ≠ Some b) →
  ∃ w1 fl1, release val w = (remove_timer val ;;; unlink_live val) w1
    ∧ only val (shut (ph_iters (w_pool w))) [e_fd e] w w1
    ∧ pushed (e_buff e) (e_sq_buff e) fl w w1 fl1.
Proof.
  intros He Hfl Ha Hne. unfold release. mrun (ev_eq val w e He).
  set (c0 := EpollCtl _ _ _ _ _).
  destruct (push_opt (e_buff e) (after c0 w) fl) as (b1 & r1 & n1 & fl1 & E1 & F1 & B1 & S1).
  { by eapply free_list_only; [..|exact Hfl]. }
  { intros b Hb. apply Ha. by left. }
  rewrite (mbind_ok _ _ _ _ _ E1). erewrite mbind_ok by (by eapply (ev_set_eq val)).
  set (w1 := rebuf _ _ _ _ <| w_pool := _ |>).
  destruct (push_opt (e_sq_buff e) w1 fl1) as (b2 & r2 & n2 & fl2 & E2 & F2 & B2 & S2).
  { eapply free_list_only; [..|exact F1]; done. }
  { intros b Hb. destruct (Ha b) as [[x Hx] Hn]; [by right|].
    assert (Hbb : e_buff e ≠ Some b) by (intros E; by apply (Hne b)).
    split; [exists x; simpl; by rewrite B1|]. intros [|]%S1; [done|congruence]. }
  rewrite (mbind_ok _ _ _ _ _ E2).
  erewrite mbind_ok by (eapply (ev_set_eq val); simpl; by rewrite list_lookup_alter_eq, He).
  set (w2 := rebuf _ _ _ w1 <| w_pool := _ |>).
  pose proof (only_after _ _ _ _ _ (only_refl val w) c0 I) as O2.
  apply (only_rebuf _ _ _ _ _) with (bufs := b1) (root := r1) (n := n1) in O2.
  apply (only_set _ _ _ _ _) with (g := λ v, v <| e_buff := None |>) in O2.
  fold w1 in O2. apply (only_rebuf _ _ _ _ _) with (bufs := b2) (root := r2) (n := n2) in O2.
  apply (only_set _ _ _ _ _) with (g := λ v, v <| e_sq_buff := None |>) in O2.
  fold w2 in O2.
  assert (P2 : pushed (e_buff e) (e_sq_buff e) fl w w2 fl2).
  { split_and!.
    - eapply free_list_only; [..|exact F2]; done.
    - intros c H1 H2. simpl. rewrite B2 by done. simpl. by rewrite B1.
    - intros c [Hc|Hc]%S2; [apply S1 in Hc; tauto|tauto]. }
  pose proof (on_items _ _ _ _ _ O2) as I2. pose proof (on_skel _ _ _ _ _ O2) as K2.
  clearbody w2. clear E1 E2 B1 B2 S1 S2 F1 F2 w1.
  assert (H2 : ∃ e2, ph_items (w_pool w2) !! val = Some e2).
  { rewrite I2, list_lookup_alter_eq, He. by eexists. }
  assert (Hfake : ∃ w3, (match e_restore_fake e with
      | Some q => munmap q (e_restore_fake_len e) ;;;
                  ev_set val (λ v, v <| e_restore_fake := None |>)
      | None => ret tt end) w2 = Ok (tt, w3)
    ∧ only val (λ e, e <| e_buff := None |> <| e_sq_buff := None |> <| e_restore_fake := None |>) [] w w3
    ∧ pushed (e_buff e) (e_sq_buff e) fl w w3 fl2).
  { destruct (e_restore_fake e) as [q|] eqn:Eq.
    - destruct (munmap_run q (e_restore_fake_len e) w2) as [maps Em].
      destruct H2 as [e2 H2].
      eexists. split; [rewrite (mbind_ok _ _ _ _ _ Em); by eapply (ev_set_eq val)|].
      split; [|by eapply pushed_only; [..|exact P2]].
      apply (only_set _ _ _ _ _ (only_maps _ _ _ _ _ (only_after _ _ _ _ _ O2 (Munmap q.1 q.2 (e_restore_fake_len e)) I) maps)
               (λ v, v <| e_restore_fake := None |>)).
    - exists w2. split; [done|]. split; [|done]. destruct O2 as [E1 E2 E3 E4 E5]. split; try done.
      rewrite E1. apply list_eq. intros i. rewrite !list_lookup_alter. case_decide; [|done].
      subst i. rewrite He. simpl. f_equal. destruct e; simpl in *. by subst. }
  destruct Hfake as (w3 & E3 & O3 & P3). rewrite (mbind_ok _ _ _ _ _ E3). clear E3 O2 I2 H2.
  assert (H3 : ∃ e3, ph_items (w_pool w3) !! val = Some e3).
  { rewrite (on_items _ _ _ _ _ O3), list_lookup_alter_eq, He. by eexists. }
  destruct H3 as [e3 H3].
  erewrite mbind_ok by (eapply (ev_set_eq val); exact H3). mrun.
  erewrite mbind_ok by (eapply (ev_set_eq val); simpl; by rewrite list_lookup_alter_eq, H3).
  eexists _, fl2. split; [reflexivity|].
  assert (Ei : ph_iters (w_pool w3) = ph_iters (w_pool w)).
  { by pose proof (f_equal ph_iters (on_skel _ _ _ _ _ O3)). }
  split; [|by eapply pushed_only; [..|exact P3]]. simpl. rewrite Ei.
  apply (only_set _ _ _ _ _ (only_close _ _ _ _ _
    (only_set _ _ _ _ _ O3 (λ v, v <| e_host := None |>)) (e_fd e))
    (λ v, v <| e_fd := -1 |> <| e_mod_iter := ph_iters (w_pool w) |>)).
Qed.

(** *** [release], whole *)

Record inv w (l fl : list nat) : Prop := Inv {
  inv_pool : pool_wf (w_pool w);
  inv_timers : timers_wf (w_pool w) l;
  inv_bufs : bufs_wf w fl
}.

(** [val] is out of the pool, the others are as they were *)
Record released (val : nat) (fd : Z) w w' : Prop := Released {
  rl_conn : ∀ u, conn <$> ph_items (w_pool w') !! u
    = conn <$> alter (shut (ph_iters (w_pool w))) val (ph_items (w_pool w)) !! u;
  rl_alive : ∀ u, alive (w_pool w') u ↔ alive (w_pool w) u ∧ u ≠ val;
  rl_count : ph_count (w_pool w') = ph_count (w_pool w) - 1;
  rl_iters : ph_iters (w_pool w') = ph_iters (w_pool w);
  rl_closed : closed (w_trace w') = closed (w_trace w) ++ [fd];
  rl_rest : w_params w' = w_params w ∧ w_dps w' = w_dps w
}.

(** the timer step of [release]: [val] out of the list, if it is there *)
Lemma release_timer val w l :
  timers (w_pool w) l → (val ∈ l ∨ idle_in (w_pool w) l val) →
  ∃ p' l', remove_timer val w = Ok (tt, w <| w_pool := p' |>)
    ∧ timers p' l' ∧ idle_in p' l' val ∧ (∀ u, u ∈ l' ↔ u ∈ l ∧ u ≠ val)
    ∧ strip_pool p' = strip_pool (w_pool w)
    ∧ (∀ u, u ∉ l → u ≠ val → ph_items p' !! u = ph_items (w_pool w) !! u).
Proof.
  intros Ht [Hin|Hid].
  - apply list_elem_of_split in Hin as (l1 & l2 & ->).
    destruct (remove_timer_armed val w l1 l2 Ht) as (p' & E & Ht' & Hi & Hs & Hu).
    exists p', (l1 ++ l2). split_and!; try done; [|intros; by apply Hu]. intros u.
    pose proof (tm_nodup _ _ Ht) as (_ & Hd & [Hv _]%NoDup_cons)%NoDup_app.
    rewrite !elem_of_app, elem_of_cons. split; [|naive_solver].
    intros [Hw|Hw]; (split; [tauto|]); intros ->; [apply (Hd val Hw); by left|done].
  - exists (w_pool w), l. rewrite (remove_timer_idle val w l) by done.
    split_and!; try done; [by destruct w|]. intros u. split; [|tauto].
    intros Hu. split; [done|]. intros ->. by destruct Hid.
Qed.

Lemma strip_lookup p p' u : strip_pool p' = strip_pool p →
  clear_tv <$> ph_items p' !! u = clear_tv <$> ph_items p !! u.
Proof.
  intros E. apply (f_equal ph_items) in E. simpl in E.
  apply (f_equal (λ l, l !! u)) in E. by rewrite !list_lookup_fmap in E.
Qed.

(** a live eval other than [val], after [val] was shut and its timer removed *)
Lemma keep_lookup p p' val it u e :
  strip_pool p' = strip_pool (p <| ph_items := alter (shut it) val (ph_items p) |>) →
  ph_items p !! u = Some e →
  ∃ e', ph_items p' !! u = Some e'
    ∧ clear_tv e' = clear_tv (if decide (u = val) then shut it e else e).
Proof.
  intros E He. pose proof (strip_lookup _ _ u E) as H. simpl in H.
  rewrite list_lookup_alter in H. destruct (decide (u = val)) as [->|Hne].
  - rewrite decide_True, He in H by done. apply fmap_Some in H as (e' & -> & ->). by exists e'.
  - rewrite decide_False, He in H by congruence. apply fmap_Some in H as (e' & -> & ->). by exists e'.
Qed.

Lemma drop_live_items val last i p u :
  ph_items (drop_live val last i p) !! u
  = (if decide (u = last ∧ last ≠ val) then (λ e, e <| e_index := Z.of_nat i |>) <$> ph_items p !! u
     else ph_items p !! u).
Proof.
  unfold drop_live. destruct (decide (last = val)) as [E|E].
  - by rewrite decide_False by (by intros [_ ?]).
  - simpl. rewrite list_lookup_alter. destruct (decide (last = u)) as [->|].
    + by rewrite decide_True.
    + rewrite decide_False; [done|]. intros [? _]. congruence.
Qed.

Lemma drop_live_proj {A} (f : eval → A) val last i p u :
  (∀ e z, f (e <| e_index := z |>) = f e) →
  f <$> ph_items (drop_live val last i p) !! u = f <$> ph_items p !! u.
Proof.
  intros Hf. rewrite drop_live_items. case_decide; [|done].
  destruct (ph_items p !! u); simpl; [by rewrite Hf|done].
Qed.

Lemma drop_live_same val last i p :
  ph_count (drop_live val last i p) = ph_count p - 1
  ∧ ph_iters (drop_live val last i p) = ph_iters p
  ∧ ph_tv_start (drop_live val last i p) = ph_tv_start p
  ∧ ph_tv_end (drop_live val last i p) = ph_tv_end p
  ∧ ph_root_buff (drop_live val last i p) = ph_root_buff p
  ∧ ph_buff_count (drop_live val last i p) = ph_buff_count p.
Proof. unfold drop_live. by case_decide. Qed.

(** the end of [release], after the timer *)
Lemma release_tail p p' w val e it :
  pool_wf p → alive p val → ph_items p !! val = Some e →
  strip_pool p' = strip_pool (p <| ph_items := alter (shut it) val (ph_items p) |>) →
  w_pool w = p' →
  ∃ last i, unlink_live val w = Ok (tt, w <| w_pool := drop_live val last i p' |>)
    ∧ pool_wf (drop_live val last i p')
    ∧ ∀ u, alive (drop_live val last i p') u ↔ alive p u ∧ u ≠ val.
Proof.
  intros Hwf Ha He Hs Hw. subst p'. destruct (alive_lookup p val Hwf Ha) as (e0 & i & He0 & _ & _ & Hi & Hl & Hlt).
  rewrite He in He0. injection He0 as <-.
  destruct (keep_lookup _ _ _ _ _ _ Hs He) as (e' & He' & Hc). rewrite decide_True in Hc by done.
  assert (Ei : e_index e' = Z.of_nat i) by (apply (f_equal e_index) in Hc; simpl in Hc; congruence).
  pose proof (f_equal ph_links Hs) as Sl. pose proof (f_equal ph_count Hs) as Sc.
  pose proof (f_equal ph_max Hs) as Sm. pose proof (f_equal ph_iters Hs) as Si.
  pose proof (f_equal length (f_equal ph_items Hs)) as Sn.
  simpl in Sl, Sc, Sm, Si, Sn. rewrite !length_map, length_alter in Sn.
  destruct Hwf as [W1 W2 W3 W4 W5 W6].
  destruct (lookup_lt_is_Some_2 (ph_links p) (Z.to_nat (ph_count p - 1))) as [last Hlast]; [lia|].
  destruct (W6 (Z.to_nat (ph_count p - 1)) last) as (el & Hel & _); [lia|done|].
  destruct (keep_lookup _ _ _ _ _ _ Hs Hel) as (el' & Hel' & _).
  exists last, i.
  destruct (drop_live_wf val last i (w_pool w) e') as [D1 D2]; rewrite ?Sl, ?Sc, ?Sm, ?Sn, ?Si; try done.
  { intros j u Hj Hu Hne. destruct (W6 j u Hj Hu) as (eu & Heu & H1 & H2 & H3).
    destruct (keep_lookup _ _ _ _ _ _ Hs Heu) as (eu' & Heu' & Hcu). rewrite decide_False in Hcu by done.
    exists eu'. split; [done|].
    pose proof (f_equal e_fd Hcu). pose proof (f_equal e_index Hcu). pose proof (f_equal e_mod_iter Hcu).
    simpl in *. split_and!; congruence. }
  split; [|split; [done|]].
  - eapply unlink_live_run; rewrite ?Sl, ?Sc; eauto.
  - intros u. rewrite D2. unfold alive. by rewrite Sl, Sc.
Qed.

(** what survives [release] of the eval [u] *)
Lemma conn_keep p p' val it last i u :
  strip_pool p' = strip_pool (p <| ph_items := alter (shut it) val (ph_items p) |>) →
  conn <$> ph_items (drop_live val last i p') !! u
  = conn <$> alter (shut it) val (ph_items p) !! u.
Proof.
  intros Hs. rewrite (drop_live_proj conn) by done.
  pose proof (strip_lookup _ _ u Hs) as H. simpl in H.
  apply (f_equal (fmap (λ e, e <| e_index := 0 |>))) in H.
  by rewrite <- !option_fmap_compose in H.
Qed.

(** the buffers after [release] of [val] *)
Lemma release_bufs w w1 w' fl fl1 val e :
  bufs_wf w fl → alive (w_pool w) val → ph_items (w_pool w) !! val = Some e →
  pushed (e_buff e) (e_sq_buff e) fl w w1 fl1 →
  w_bufs w' = w_bufs w1 → ph_root_buff (w_pool w') = ph_root_buff (w_pool w1) →
  ph_buff_count (w_pool w') = ph_buff_count (w_pool w1) →
  (∀ u, alive (w_pool w') u ↔ alive (w_pool w) u ∧ u ≠ val) →
  (∀ u, u ≠ val → conn <$> ph_items (w_pool w') !! u = conn <$> ph_items (w_pool w) !! u) →
  bufs_wf w' fl1.
Proof.
  intros [B1 B2 B3 B4] Hal He (P1 & P2 & P3) E1 E2 E3 Ha Hc.
  assert (Hit : ∀ u eu, u ≠ val → ph_items (w_pool w') !! u = Some eu →
    ∃ e0, ph_items (w_pool w) !! u = Some e0 ∧ e_buff eu = e_buff e0 ∧ e_sq_buff eu = e_sq_buff e0).
  { intros u eu Hne Hu. specialize (Hc u Hne). rewrite Hu in Hc. symmetry in Hc.
    apply fmap_Some in Hc as (e0 & H0 & Hcc). exists e0. split; [done|].
    split; [by apply (f_equal e_buff) in Hcc|by apply (f_equal e_sq_buff) in Hcc]. }
  assert (Ho : ∀ u b, owns (w_pool w') u b → owns (w_pool w) u b ∧ u ≠ val).
  { intros u b [[Hu Hne]%Ha (eu & Heu & Hb)]. split; [|done]. split; [done|].
    destruct (Hit u eu Hne Heu) as (e0 & He0 & Q1 & Q2). exists e0. by rewrite <- Q1, <- Q2. }
  assert (Hv : ∀ b, e_buff e = Some b ∨ e_sq_buff e = Some b → owns (w_pool w) val b).
  { intros b Hb. split; [done|]. by exists e. }
  split.
  - by eapply free_list_only; [..|exact P1].
  - intros u b [Hu Hne]%Ho. destruct (B2 u b Hu) as [[x Hx] Hn].
    assert (N : ¬ owns (w_pool w) val b) by (intros Hvb; by apply Hne, (B3 u val b)).
    split.
    + exists x. rewrite E1, P2; [done|intros Q; apply N, Hv; auto..].
    + intros [|[|]]%P3; [done|apply N, Hv; auto..].
  - intros u u' b [H1 _]%Ho [H2 _]%Ho. by eapply B3.
  - intros u eu b [Hu Hne]%Ha Heu. destruct (Hit u eu Hne Heu) as (e0 & He0 & -> & ->). eauto.
Qed.

Lemma shut_idle p l val e it :
  timers p l → (val ∈ l ∨ idle_in p l val) → ph_items p !! val = Some e →
  timers (p <| ph_items := alter (shut it) val (ph_items p) |>) l
  ∧ (val ∈ l ∨ idle_in (p <| ph_items := alter (shut it) val (ph_items p) |>) l val).
Proof.
  intros Ht Hv He. split.
  - eapply timers_same; [..|exact Ht]; try done. intros u. simpl.
    rewrite list_lookup_alter. case_decide; [subst|done]. by rewrite He.
  - destruct Hv as [|(Hn & v & Hv & Hi)]; [by left|right]. split; [done|].
    exists (shut it e). simpl. rewrite list_lookup_alter_eq, He. split; [done|].
    unfold idle in *. assert (v = e) as -> by congruence. transitivity (shut it (clear_tv e)); [done|]. by rewrite Hi.
Qed.

Lemma only_pool val f fds w w1 : only val f fds w w1 →
  ∃ root n, w_pool w1 = w_pool w <| ph_root_buff := root |> <| ph_buff_count := n |>
                          <| ph_items := alter f val (ph_items (w_pool w)) |>.
Proof.
  intros [I S _ _ _]. exists (ph_root_buff (w_pool w1)), (ph_buff_count (w_pool w1)).
  destruct (w_pool w1), (w_pool w). unfold skel in S. simpl in *. injection S as -> -> -> -> -> -> -> -> ->. by rewrite I.
Qed.

Lemma release_spec w l fl val e :
  inv w l fl → alive (w_pool w) val → ph_items (w_pool w) !! val = Some e →
  ∃ w' l' fl', release val w = Ok (tt, w') ∧ inv w' l' fl' ∧ released val (e_fd e) w w'.
Proof.
  intros [Hp (Ht & Htl & Hti) Hb] Ha He. pose proof Hb as [B1 B2 B3 B4].
  destruct (release_head w fl val e) as (w1 & fl1 & E1 & O1 & P1); [done|done| |eauto|].
  { intros b Hbb. apply (B2 val b). split; [done|]. by exists e. }
  destruct (only_pool _ _ _ _ _ O1) as (root & n & Ep).
  set (p1 := w_pool w <| ph_root_buff := root |> <| ph_buff_count := n |>) in Ep.
  assert (Hp1 : pool_wf p1) by (destruct Hp; by split).
  assert (Ht1 : timers p1 l) by (destruct Ht; by split).
  assert (Hv1 : val ∈ l ∨ idle_in p1 l val).
  { destruct (decide (val ∈ l)) as [|Hn]; [by left|right]. split; [done|]. exists e. eauto. }
  destruct (shut_idle _ _ _ _ (ph_iters (w_pool w)) Ht1 Hv1 He) as [Ht2 Hv2].
  change (ph_items p1) with (ph_items (w_pool w)) in Ht2, Hv2. rewrite <- Ep in Ht2, Hv2.
  destruct (release_timer val w1 l Ht2 Hv2) as (p' & l' & E2 & Ht' & Hid & Hl' & Hs & Hu').
  rewrite Ep in Hs. rewrite E1, (mbind_ok _ _ _ _ _ E2).
  assert (Ew : w_pool (w1 <| w_pool := p' |>) = p') by done.
  destruct (release_tail p1 p' (w1 <| w_pool := p' |>) val e _ Hp1 Ha He Hs Ew)
    as (last & i & E3 & Hwf' & Ha').
  rewrite E3. eexists _, l', fl1. split; [reflexivity|].
  destruct (drop_live_same val last i p') as (Dc & Di & Ds & De & Dr & Dn).
  assert (Hc : ∀ u, conn <$> ph_items (drop_live val last i p') !! u
    = conn <$> alter (shut (ph_iters (w_pool w))) val (ph_items (w_pool w)) !! u).
  { intros u. exact (conn_keep p1 p' val _ last i u Hs). }
  pose proof (f_equal ph_iters Hs) as Si. pose proof (f_equal ph_count Hs) as Sc.
  pose proof (f_equal ph_root_buff Hs) as Sr. pose proof (f_equal ph_buff_count Hs) as Sn.
  simpl in Si, Sc, Sr, Sn.
  split.
  - split; simpl; [done| |].
    + split; [|split].
      * eapply timers_same; [..|exact Ht']; try done. intros u. by apply drop_live_proj.
      * intros u [Hu Hne]%Hl'. apply Ha'. split; [by apply Htl|done].
      * intros u eu [Hu Hne]%Ha' Hn Heu.
        assert (Hnl : u ∉ l) by (intros Hul; by apply Hn, Hl').
        destruct (ph_items (w_pool w) !! u) as [e0|] eqn:He0.
        -- pose proof (Hti u e0 Hu Hnl He0) as Hi0.
           assert (Heu' : ph_items p' !! u = Some e0).
           { rewrite Hu', Ep by done. simpl. by rewrite list_lookup_alter_ne. }
           rewrite drop_live_items, Heu' in Heu. unfold idle in *.
           case_decide; simplify_eq/=; [|done].
           transitivity (clear_tv e0 <| e_index := Z.of_nat i |>); [done|]. by rewrite Hi0.
        -- exfalso. pose proof (Hc u) as Hcu. rewrite Heu, list_lookup_alter_ne, He0 in Hcu by done.
           done.
    + eapply (release_bufs w w1); [done..| | | | |]; simpl; try done; rewrite ?Dr, ?Dn, ?Ep; try done.
      intros u Hne. rewrite Hc. by rewrite list_lookup_alter_ne.
  - destruct O1 as [_ _ R1 D1 C1]. split; simpl; try done; congruence.
Qed.

(** *** Pairs *)

Definition pair_of p (v : nat) : option nat := ph_items p !! v ≫= e_pair.
Definition fd_of p (v : nat) : Z := match ph_items p !! v with Some e => e_fd e | None => 0 end.

(** [pair] leads through [l] and then to [d] *)
Fixpoint pairs p (l : list nat) (d : option nat) : Prop :=
  match l with
  | [] => True
  | v :: l => pair_of p v = hd_or l d ∧ pairs p l d
  end.

(** a slot whose descriptor was closed *)
Definition dead p (v : nat) : Prop :=
  ∃ e, ph_items p !! v = Some e ∧ e_fd e = -1 ∧ e_mod_iter e <= ph_iters p.

Definition clear_pair (u : nat) w : world :=
  w <| w_pool := w_pool w <| ph_items :=
         alter (λ x, x <| e_pair := None |>) u (ph_items (w_pool w)) |> |>.

Lemma clear_pair_proj {A} (f : eval → A) u w v :
  (∀ e, f (e <| e_pair := None |>) = f e) →
  f <$> ph_items (w_pool (clear_pair u w)) !! v = f <$> ph_items (w_pool w) !! v.
Proof.
  intros Hf. simpl. rewrite list_lookup_alter. case_decide; [subst|done].
  destruct (_ !! v); simpl; [by rewrite Hf|done].
Qed.

Lemma clear_pair_inv u w l fl : inv w l fl → inv (clear_pair u w) l fl.
Proof.
  intros [[W1 W2 W3 W4 W5 W6] (T1 & T2 & T3) [B1 B2 B3 B4]].
  assert (Hl : ∀ v e', ph_items (w_pool (clear_pair u w)) !! v = Some e' →
    ∃ e, ph_items (w_pool w) !! v = Some e ∧ e' = e <| e_pair := e_pair e' |>).
  { intros v e'. simpl. rewrite list_lookup_alter. case_decide; subst.
    - intros (e & -> & ->)%fmap_Some. by exists e.
    - intros ->. exists e'. split; [done|]. by destruct e'. }
  assert (Ho : ∀ v b, owns (w_pool (clear_pair u w)) v b → owns (w_pool w) v b).
  { intros v b [Hv (e' & He & Hb)]. split; [done|].
    destruct (Hl v e' He) as (e & He0 & Ee). exists e. split; [done|].
    rewrite Ee in Hb. done. }
  split; [split; try done|split; [|split]|split; try done].
  - simpl. by rewrite length_alter.
  - simpl. by rewrite length_alter.
  - intros i v Hi Hv. destruct (W6 i v Hi Hv) as (e & He & H). simpl.
    rewrite list_lookup_alter. case_decide; [subst; rewrite He|]; eauto.
  - eapply timers_same; [..|exact T1]; try done. intros v. by apply clear_pair_proj.
  - done.
  - intros v e' Hv Hn He. destruct (Hl v e' He) as (e & He0 & ->).
    unfold idle in *. transitivity (clear_tv e <| e_pair := e_pair e' |>); [done|].
    by rewrite (T3 v e).
  - eapply free_list_only; [..|exact B1]; done.
  - intros v b H%Ho. eauto.
  - intros v v' b H1%Ho H2%Ho. eauto.
  - intros v e' b Hv He. destruct (Hl v e' He) as (e & He0 & ->). simpl. eauto.
Qed.

Definition unpaired (val u : nat) w : world :=
  clear_pair val (if decide (pair_of (w_pool w) u = Some val) then clear_pair u w else w).

Lemma unpair_run val u w :
  is_Some (ph_items (w_pool w) !! val) → is_Some (ph_items (w_pool w) !! u) →
  unpair val u w = Ok (tt, unpaired val u w).
Proof.
  intros [e He] [x Hx]. unfold unpair, unpaired, pair_of. mrun (ev_eq u w x Hx).
  rewrite Hx. simpl. destruct (decide (e_pair x = Some val)).
  - erewrite mbind_ok by by apply (ev_set_eq u _ _ x).
    assert (is_Some (ph_items (w_pool (clear_pair u w)) !! val)) as [e' He'].
    { simpl. apply is_Some_alter. by exists e. }
    by rewrite (ev_set_eq val _ _ e').
  - mrun. by rewrite (ev_set_eq val _ _ e).
Qed.

Lemma unpaired_ind (P : world → Prop) val u w :
  (∀ v w, P w → P (clear_pair v w)) → P w → P (unpaired val u w).
Proof. intros HP Hw. unfold unpaired. apply HP. case_decide; [by apply HP|done]. Qed.

Lemma unpaired_proj {A} (f : eval → A) val u w v :
  (∀ e, f (e <| e_pair := None |>) = f e) →
  f <$> ph_items (w_pool (unpaired val u w)) !! v = f <$> ph_items (w_pool w) !! v.
Proof.
  intros Hf. apply (unpaired_ind (λ w', f <$> ph_items (w_pool w') !! v = _)); [|done].
  intros x w' Hw. by rewrite (clear_pair_proj f).
Qed.

(** the evals [vs] are gone, each closed once, the others are as they were
    but for their pair *)
Definition body (e : eval) : eval := conn e <| e_pair := None |>.

Record freed (vs : list nat) w w' : Prop := Freed {
  fr_alive : ∀ u, alive (w_pool w') u ↔ alive (w_pool w) u ∧ u ∉ vs;
  fr_dead : ∀ u, u ∈ vs ∨ dead (w_pool w) u → dead (w_pool w') u;
  fr_body : ∀ u, u ∉ vs → body <$> ph_items (w_pool w') !! u = body <$> ph_items (w_pool w) !! u;
  fr_count : ph_count (w_pool w') = ph_count (w_pool w) - Z.of_nat (length vs);
  fr_iters : ph_iters (w_pool w') = ph_iters (w_pool w);
  fr_closed : closed (w_trace w') = closed (w_trace w) ++ map (fd_of (w_pool w)) vs;
  fr_rest : w_params w' = w_params w ∧ w_dps w' = w_dps w
}.

(** outside [vs] (and the dead) nobody's pair has changed *)
Definition paired_outside (vs : list nat) w w' : Prop :=
  ∀ u, u ∉ vs → ¬ dead (w_pool w) u → pair_of (w_pool w') u = pair_of (w_pool w) u.

Lemma alive_not_dead p u : pool_wf p → alive p u → ¬ dead p u.
Proof.
  intros Hwf Ha (e & He & Hfd & _). destruct (alive_lookup p u Hwf Ha) as (e' & i & He' & Hf & _).
  simplify_eq. lia.
Qed.

(** reading a field through [conn] or [body] *)
Lemma fmap_proj {A B} (c : eval → B) (f : eval → A) (g : B → A) (o o' : option eval) :
  (∀ e, g (c e) = f e) → c <$> o' = c <$> o → f <$> o' = f <$> o.
Proof.
  intros Hf H. destruct o as [e|], o' as [e'|]; simpl in *; [|done..].
  apply (inj Some) in H. by rewrite <- (Hf e'), <- (Hf e), H.
Qed.

Lemma pair_of_conn p p' u :
  conn <$> ph_items p' !! u = conn <$> ph_items p !! u → pair_of p' u = pair_of p u.
Proof.
  intros H. apply (fmap_proj conn e_pair e_pair) in H; [|done]. unfold pair_of.
  destruct (ph_items p' !! u), (ph_items p !! u); simpl in *; congruence.
Qed.
Lemma fd_of_body p p' u :
  body <$> ph_items p' !! u = body <$> ph_items p !! u → fd_of p' u = fd_of p u.
Proof.
  intros H. apply (fmap_proj body e_fd e_fd) in H; [|done]. unfold fd_of.
  destruct (ph_items p' !! u), (ph_items p !! u); simpl in *; congruence.
Qed.
Lemma dead_body p p' u :
  ph_iters p' = ph_iters p →
  body <$> ph_items p' !! u = body <$> ph_items p !! u → dead p u → dead p' u.
Proof.
  intros Ei Hu (e & He & Hfd & Hm).
  apply (fmap_proj body (λ e, (e_fd e, e_mod_iter e)) (λ e, (e_fd e, e_mod_iter e))) in Hu; [|done].
  rewrite He in Hu. apply fmap_Some in Hu as (e' & He' & [= E1 E2]).
  exists e'. rewrite Ei. split_and!; [done|congruence|congruence].
Qed.

(** one eval released *)
Lemma released_freed val e w w1 :
  ph_items (w_pool w) !! val = Some e → released val (e_fd e) w w1 →
  freed [val] w w1 ∧ paired_outside [val] w w1.
Proof.
  intros He [R1 R2 R3 R4 R5 R6].
  assert (Hother : ∀ x, x ≠ val → conn <$> ph_items (w_pool w1) !! x = conn <$> ph_items (w_pool w) !! x).
  { intros x Hx. rewrite R1. by rewrite list_lookup_alter_ne. }
  assert (Hbody : ∀ x, x ≠ val → body <$> ph_items (w_pool w1) !! x = body <$> ph_items (w_pool w) !! x).
  { intros x Hx. by eapply (fmap_proj conn body (λ e, e <| e_pair := None |>)), Hother. }
  split; [split|].
  - intros x. by rewrite (R2 x), list_elem_of_singleton.
  - intros x Hx. destruct (decide (x = val)) as [->|Hne].
    + pose proof (R1 val) as Hr. rewrite list_lookup_alter_eq, He in Hr.
      apply fmap_Some in Hr as (e1 & He1 & Hr). exists e1. split; [done|].
      pose proof (f_equal e_fd Hr). pose proof (f_equal e_mod_iter Hr). simpl in *.
      rewrite R4. split; [done|lia].
    + destruct Hx as [Hx%list_elem_of_singleton|Hx]; [done|].
      by eapply dead_body; [|by apply Hbody|].
  - intros x [Hx _]%not_elem_of_cons. by apply Hbody.
  - rewrite R3. simpl. lia.
  - done.
  - rewrite R5. simpl. unfold fd_of. by rewrite He.
  - done.
  - intros x [Hx _]%not_elem_of_cons _. by apply pair_of_conn, Hother.
Qed.

(** clearing a pair is no more than that *)
Lemma clear_pair_freed vs u w w1 : freed vs w w1 → freed vs w (clear_pair u w1).
Proof.
  intros [A B C D E F G].
  assert (Hb : ∀ x, body <$> ph_items (w_pool (clear_pair u w1)) !! x = body <$> ph_items (w_pool w1) !! x).
  { intros x. by apply clear_pair_proj. }
  split; try done.
  - intros x Hx. eapply dead_body; [|apply Hb|by apply B]. done.
  - intros x Hx. rewrite Hb. by apply C.
Qed.
Lemma unpaired_freed vs val u w w1 : freed vs w w1 → freed vs w (unpaired val u w1).
Proof. apply (unpaired_ind (λ w1, freed vs w w1)). intros. by apply clear_pair_freed. Qed.

Lemma pair_of_clear u w x : x ≠ u → pair_of (w_pool (clear_pair u w)) x = pair_of (w_pool w) x.
Proof. intros. unfold pair_of. simpl. by rewrite list_lookup_alter_ne. Qed.

Lemma unpaired_pairs val u w x :
  x ≠ val → (x = u → pair_of (w_pool w) u ≠ Some val) →
  pair_of (w_pool (unpaired val u w)) x = pair_of (w_pool w) x.
Proof.
  intros Hv Hu. unfold unpaired. rewrite pair_of_clear by done. case_decide; [|done].
  apply pair_of_clear. intros ->. by apply Hu.
Qed.

Lemma freed_trans vs vs' w1 w2 w3 :
  (∀ u, u ∈ vs' → u ∉ vs) → freed vs w1 w2 → freed vs' w2 w3 → freed (vs ++ vs') w1 w3.
Proof.
  intros Hvs [A1 B1 C1 D1 E1 F1 G1] [A2 B2 C2 D2 E2 F2 G2]. split.
  - intros u. rewrite A2, A1, not_elem_of_app. tauto.
  - intros u [[Hu|Hu]%elem_of_app|Hu]; apply B2; auto.
  - intros u [Hu1 Hu2]%not_elem_of_app. by rewrite C2, C1.
  - rewrite D2, D1, length_app. lia.
  - congruence.
  - rewrite F2, F1, map_app, app_assoc. f_equal. apply map_ext_in. intros u Hu.
    apply list_elem_of_In in Hu. by apply fd_of_body, C1, Hvs.
  - destruct G1, G2. split; congruence.
Qed.

Lemma paired_outside_trans vs vs' w1 w2 w3 :
  freed vs w1 w2 → paired_outside vs w1 w2 → paired_outside vs' w2 w3 →
  paired_outside (vs ++ vs') w1 w3.
Proof.
  intros Hf H1 H2 u [Hu1 Hu2]%not_elem_of_app Hd. rewrite H2; [by apply H1|done|].
  intros Hd2. apply Hd. eapply dead_body; [| |exact Hd2]; [by rewrite (fr_iters _ _ _ Hf)|].
  by rewrite (fr_body _ _ _ Hf).
Qed.

(** [del_event] of a live eval without a pair, and with one *)
Lemma del_event_run fuel val w l fl e :
  inv w l fl → alive (w_pool w) val → ph_items (w_pool w) !! val = Some e →
  ∃ w1 l1 fl1, inv w1 l1 fl1 ∧ released val (e_fd e) w w1
  ∧ ∀ w',
    match e_pair e with
    | None => w' = w1
    | Some u => is_Some (ph_items (w_pool w1) !! u)
        ∧ del_event fuel u (unpaired val u w1) = Ok (tt, w')
    end → 0 <= ph_count (w_pool w') →
    del_event (Datatypes.S fuel) val w = Ok (tt, w').
Proof.
  intros Hi Ha He. destruct (release_spec w l fl val e Hi Ha He) as (w1 & l1 & fl1 & E & Hi1 & Hr).
  exists w1, l1, fl1. split; [done|]. split; [done|]. intros w' Hw' Hc.
  destruct (alive_lookup _ _ (inv_pool _ _ _ Hi) Ha) as (e0 & i & He0 & Hfd & Hm & _).
  rewrite He in He0. injection He0 as <-. cbn [del_event]. mrun (ev_eq val w e He).
  rewrite (proj2 (andb_true_iff _ _)) by (split; apply Z.leb_le; lia).
  rewrite (proj2 (Z.eqb_neq _ _)) by lia. cbn [negb]. cbv iota.
  rewrite (mbind_ok _ _ _ _ _ E).
  assert (Hv : ∃ e1, ph_items (w_pool w1) !! val = Some e1 ∧ e_pair e1 = e_pair e).
  { pose proof (rl_conn _ _ _ _ Hr val) as Hcv. rewrite list_lookup_alter_eq, He in Hcv.
    apply fmap_Some in Hcv as (e1 & He1 & Hc1). exists e1. split; [done|].
    by apply (f_equal e_pair) in Hc1. }
  destruct Hv as (e1 & He1 & Hp1). erewrite mbind_ok by (by apply (ev_get_eq val)).
  rewrite Hp1. destruct (e_pair e) as [u|].
  - destruct Hw' as [Hu E2]. erewrite mbind_ok.
    2:{ erewrite mbind_ok by (apply unpair_run; [by exists e1|done]). exact E2. }
    mrun. by rewrite (proj2 (Z.ltb_ge _ _)).
  - subst w'. mrun. by rewrite (proj2 (Z.ltb_ge _ _)).
Qed.

Lemma del_event_dead fuel u w : dead (w_pool w) u → del_event (Datatypes.S fuel) u w = Ok (tt, w).
Proof.
  intros (e & He & Hfd & Hm). cbn [del_event]. mrun (ev_eq u w e He).
  rewrite Hfd. rewrite (proj2 (andb_true_iff _ _)) by (split; apply Z.leb_le; lia). done.
Qed.

Lemma unpaired_inv val u w l fl : inv w l fl → inv (unpaired val u w) l fl.
Proof. apply (unpaired_ind (λ w, inv w l fl)). intros. by apply clear_pair_inv. Qed.

Lemma count_alive p l : pool_wf p → NoDup l → (∀ v, v ∈ l → alive p v) → Z.of_nat (length l) <= ph_count p.
Proof.
  intros Hwf Hnd Hal.
  assert (Hsub : l ⊆ take (Z.to_nat (ph_count p)) (ph_links p)).
  { intros v Hv. destruct (Hal v Hv) as (i & Hi & Hl).
    apply (list_elem_of_lookup_2 _ i). rewrite lookup_take_lt; [done|]. lia. }
  apply NoDup_submseteq in Hsub; [|done]. apply submseteq_length in Hsub.
  rewrite length_take in Hsub. destruct (wf_count p Hwf). lia.
Qed.

Lemma pairs_frame p p' l d :
  (∀ u, u ∈ l → pair_of p' u = pair_of p u) → pairs p l d → pairs p' l d.
Proof.
  induction l as [|v l IH]; simpl; [done|]. intros Hf [Hv Hl]. split.
  - rewrite <- Hv. apply Hf. by left.
  - apply IH; [|done]. intros u Hu. apply Hf. by right.
Qed.

(** [release] and [unpair], towards [u] *)
Lemma del_event_step fuel val w l fl u :
  inv w l fl → alive (w_pool w) val → pair_of (w_pool w) val = Some u →
  is_Some (ph_items (w_pool w) !! u) →
  ∃ w1 w2 l2 fl2, w2 = unpaired val u w1 ∧ inv w2 l2 fl2 ∧ freed [val] w w2
    ∧ paired_outside [val] w w1 
    ∧ ∀ w', del_event fuel u w2 = Ok (tt, w') → 0 <= ph_count (w_pool w') →
        del_event (Datatypes.S fuel) val w = Ok (tt, w').
Proof.
  intros Hi Ha Hp Hu. destruct (alive_lookup _ _ (inv_pool _ _ _ Hi) Ha) as (e & i & He & _).
  assert (Ep : e_pair e = Some u) by (unfold pair_of in Hp; by rewrite He in Hp).
  destruct (del_event_run fuel val w l fl e Hi Ha He) as (w1 & l1 & fl1 & Hi1 & Hr & Hrun).
  rewrite Ep in Hrun. destruct (released_freed val e w w1 He Hr) as [Hf Hpo].
  exists w1, (unpaired val u w1), l1, fl1. split_and!; [done|by apply unpaired_inv|by apply unpaired_freed|done|].
  intros w' Hw'. apply Hrun. split; [|done].
  destruct (decide (u = val)) as [->|Hne].
  - pose proof (rl_conn _ _ _ _ Hr val) as Hc. rewrite list_lookup_alter_eq, He in Hc.
    apply fmap_Some in Hc as (e1 & -> & _). done.
  - pose proof (rl_conn _ _ _ _ Hr u) as Hc. rewrite list_lookup_alter_ne in Hc by done.
    destruct Hu as [eu Hu]. rewrite Hu in Hc. apply fmap_Some in Hc as (e1 & -> & _). done.
Qed.

(** a path of pairs that ends nowhere, or in a dead slot *)
Lemma del_path rest : ∀ val w l fl d fuel,
  inv w l fl → NoDup (val :: rest) → (∀ u, u ∈ val :: rest → alive (w_pool w) u) →
  pairs (w_pool w) (val :: rest) d → (∀ x, d = Some x → dead (w_pool w) x) →
  (length (val :: rest) < fuel)%nat →
  ∃ w' l' fl', del_event fuel val w = Ok (tt, w') ∧ inv w' l' fl'
    ∧ freed (val :: rest) w w' ∧ paired_outside (val :: rest) w w'.
Proof.
  induction rest as [|u rest IH]; intros val w l fl d fuel Hi Hnd Hal [Hp Hps] Hd Hfuel;
    (destruct fuel as [|fuel]; [simpl in Hfuel; lia|]);
    assert (Ha : alive (w_pool w) val) by (apply Hal; by left).
  - simpl in Hp. destruct d as [x|].
    + pose proof (Hd x eq_refl) as Hx.
      destruct (del_event_step fuel val w l fl x) as (w1 & w2 & l2 & fl2 & Ew & Hi2 & Hf & Hpo & Hrun);
        [done|done|done|by destruct Hx as (? & ? & _)|].
      destruct fuel as [|fuel]; [simpl in Hfuel; lia|].
      exists w2, l2, fl2. split_and!; [|done|done|].
      * apply Hrun; [by apply del_event_dead, (fr_dead _ _ _ Hf); right|apply (wf_count _ (inv_pool _ _ _ Hi2))].
      * intros y Hy Hyd. subst w2. rewrite unpaired_pairs; [by apply Hpo|set_solver|].
        intros ->. done.
    + destruct (alive_lookup _ _ (inv_pool _ _ _ Hi) Ha) as (e & i & He & _).
      assert (Ep : e_pair e = None) by (unfold pair_of in Hp; by rewrite He in Hp).
      destruct (del_event_run fuel val w l fl e Hi Ha He) as (w1 & l1 & fl1 & Hi1 & Hr & Hrun).
      rewrite Ep in Hrun. destruct (released_freed val e w w1 He Hr) as [Hf Hpo].
      exists w1, l1, fl1. split_and!; [|done..].
      apply Hrun; [done|apply (wf_count _ (inv_pool _ _ _ Hi1))].
  - apply NoDup_cons in Hnd as [Hn Hnd].
    assert (Hau : alive (w_pool w) u) by (apply Hal; right; left).
    destruct (alive_lookup _ _ (inv_pool _ _ _ Hi) Hau) as (eu & iu & Heu & _).
    assert (Hpu : pair_of (w_pool w) u ≠ Some val).
    { destruct Hps as [-> _]. destruct rest as [|y rest]; simpl.
      - intros E. by apply (alive_not_dead _ _ (inv_pool _ _ _ Hi) Ha), Hd.
      - intros [= ->]. set_solver. }
    destruct (del_event_step fuel val w l fl u) as (w1 & w2 & l2 & fl2 & Ew & Hi2 & Hf & Hpo & Hrun);
      [done|done|done|by exists eu|].
    assert (Hpo2 : paired_outside [val] w w2).
    { intros y Hy Hyd. subst w2. assert (y ≠ val) by set_solver.
      rewrite unpaired_pairs; [by apply Hpo|done|].
      intros ->. rewrite (Hpo u); [done|set_solver|].
      by apply (alive_not_dead _ _ (inv_pool _ _ _ Hi)). }
    destruct (IH u w2 l2 fl2 d fuel) as (w' & l' & fl' & E & Hi' & Hf' & Hpo'); [done|done| | | | |].
    + intros y Hy. apply (fr_alive _ _ _ Hf). split; [apply Hal; by right|set_solver].
    + eapply pairs_frame; [|exact Hps]. intros y Hy. apply Hpo2; [set_solver|].
      apply (alive_not_dead _ _ (inv_pool _ _ _ Hi)), Hal. by right.
    + intros x Hx. apply (fr_dead _ _ _ Hf). right. by apply Hd.
    + simpl in *. lia.
    + exists w', l', fl'. split_and!; [|done| |].
      * apply Hrun; [done|apply (wf_count _ (inv_pool _ _ _ Hi'))].
      * apply (freed_trans [val] (u :: rest) w w2); [set_solver|done..].
      * by apply (paired_outside_trans [val] (u :: rest) w w2).
Qed.
End release.

(** a ring that is one eval, its own pair *)
Lemma del_event_self `{K : Kernel} fuel val w l fl :
  inv w l fl → alive (w_pool w) val → pair_of (w_pool w) val = Some val → (1 < fuel)%nat →
  wpm (del_event fuel val) w (λ _ w', (∃ l' fl', inv w' l' fl') ∧ freed [val] w w' ∧ paired_outside [val] w w').
Proof.
  intros Hi Hal Hp Hfuel. destruct fuel as [|fuel]; [lia|]. pose proof (inv_pool _ _ _ Hi) as Hwf.
  assert (Hex : is_Some (ph_items (w_pool w) !! val)).
  { destruct (alive_lookup _ _ Hwf Hal) as (e & i & He & _). by exists e. }
  destruct (del_event_step fuel val w l fl val) as (w1 & w2 & l2 & fl2 & Ew & Hi2 & Hf & Hpo & Hrun);
    [done|exact Hal|done|exact Hex|]. destruct fuel as [|fuel]; [lia|].
  unfold wpm. rewrite (Hrun w2).
  + simpl. split_and!; [by eauto|done|]. intros y Hy Hyd. subst w2.
    assert (y ≠ val) by set_solver. rewrite unpaired_pairs; [by apply Hpo|done|by intros ->].
  + apply del_event_dead, (fr_dead _ _ _ Hf). left. left.
  + apply (wf_count _ (inv_pool _ _ _ Hi2)).
Qed.

(** a ring of several *)
Lemma del_event_cycle `{K : Kernel} fuel val u rest w l fl :
  inv w l fl → NoDup (val :: u :: rest) → (∀ x, x ∈ val :: u :: rest → alive (w_pool w) x) →
  pairs (w_pool w) (val :: u :: rest) (Some val) → (length rest + 3 < fuel)%nat →
  wpm (del_event fuel val) w (λ _ w',
    (∃ l' fl', inv w' l' fl') ∧ freed (val :: u :: rest) w w' ∧ paired_outside (val :: u :: rest) w w').
Proof.
  intros Hi Hnd Hal [Hp Hps] Hfuel. pose proof (inv_pool _ _ _ Hi) as Hwf.
  assert (Hex : ∀ u', u' ∈ val :: u :: rest → is_Some (ph_items (w_pool w) !! u')).
  { intros u' Hu. destruct (alive_lookup _ _ Hwf (Hal u' Hu)) as (e & i & He & _). by exists e. }
  assert (Hnd' : ∀ u', u' ∈ val :: u :: rest → ¬ dead (w_pool w) u').
  { intros u' Hu. by apply alive_not_dead, Hal. }
  destruct fuel as [|fuel]; [lia|].
  apply NoDup_cons in Hnd as [Hn Hnd].
  destruct (del_event_step fuel val w l fl u) as (w1 & w2 & l2 & fl2 & Ew & Hi2 & Hf & Hpo & Hrun);
    [done|apply Hal; left|done|apply Hex; right; left|].
  assert (Hpo2 : ∀ y, y ≠ val → ¬ dead (w_pool w) y → (y = u → pair_of (w_pool w) u ≠ Some val) →
    pair_of (w_pool w2) y = pair_of (w_pool w) y).
  { intros y Hy Hyd Hyu. subst w2. rewrite unpaired_pairs; [apply Hpo; set_solver|done|].
    intros ->. rewrite (Hpo u); [by apply Hyu|set_solver|done]. }
  assert (Hd : ∃ d, pairs (w_pool w2) (u :: rest) d ∧ ∀ x, d = Some x → dead (w_pool w2) x).
  { destruct rest as [|y rest].
    - exists None. simpl in *. split; [|done]. split; [|done]. subst w2. unfold unpaired, pair_of.
      assert (E : pair_of (w_pool w1) u = Some val).
      { rewrite Hpo; [by destruct Hps|set_solver|apply Hnd'; right; left]. }
      rewrite decide_True by done. simpl. rewrite list_lookup_alter_ne by set_solver.
      rewrite list_lookup_alter_eq. by destruct (_ !! u).
    - exists (Some val). split; [|intros x [= <-]; apply (fr_dead _ _ _ Hf); left; left].
      eapply pairs_frame; [|exact Hps]. intros x Hx. apply Hpo2; [set_solver|apply Hnd'; by right|].
      intros ->. destruct Hps as [-> _]. intros [= ->]. set_solver. }
  destruct Hd as (d & Hps2 & Hd).
  destruct (del_path rest u w2 l2 fl2 d fuel) as (w' & l' & fl' & E & Hi' & Hf' & Hpo');
    [done|done| |done|done|simpl in *; lia|].
  { intros y Hy. apply (fr_alive _ _ _ Hf). split; [apply Hal; by right|set_solver]. }
  unfold wpm. rewrite (Hrun w'); [|done|apply (wf_count _ (inv_pool _ _ _ Hi'))]. simpl.
  split_and!; [by eauto|apply (freed_trans [val] (u :: rest) w w2); [set_solver|done..]|].
  intros y [Hy1 Hy2]%not_elem_of_cons Hyd. rewrite (Hpo' y); [|done|].
  + apply Hpo2; [done|done|]. intros ->. set_solver.
  + intros Hdy. apply Hyd. eapply dead_body; [| |exact Hdy]; [by rewrite (fr_iters _ _ _ Hf)|].
    rewrite (fr_body _ _ _ Hf); [done|set_solver].
Qed.

(** C10: [del_event] takes out the whole ring (or path) of paired evals its
    argument leads through, and nothing else: every one of them is dead,
    its descriptor closed exactly once, in the order of the ring; the evals
    outside keep all their fields and their pair; buffers, timers, [links]
    and [index] stay consistent; and the recursion ends. *)
Theorem del_event_ring `{K : Kernel} (fuel : nat) (val : nat) (rest : list nat) (w : world)
    (l fl : list nat) :
  inv w l fl → NoDup (val :: rest) → (∀ u, u ∈ val :: rest → alive (w_pool w) u) →
  pairs (w_pool w) (val :: rest) None ∨ pairs (w_pool w) (val :: rest) (Some val) →
  (length rest + 2 < fuel)%nat →
  wpm (del_event fuel val) w (λ _ w',
    (∃ l' fl', inv w' l' fl') ∧ freed (val :: rest) w w' ∧ paired_outside (val :: rest) w w').
Proof.
  intros Hi Hnd Hal [Hps|Hps] Hfuel.
  { destruct (del_path rest val w l fl None fuel) as (w' & l' & fl' & E & ? & ? & ?);
      [done..|simpl; lia|]. unfold wpm. rewrite E. simpl. eauto. }
  destruct rest as [|u rest]; [|by eapply del_event_cycle; [..|simpl in Hfuel; lia]].
  destruct Hps as [Hp _]. eapply del_event_self; [done|apply Hal; left|done|simpl in Hfuel; lia].
Qed.

(** ** Adding an event *)

(** the slot [add_event] fills *)
Definition new_eval (iters fd count : Z) (cb : evcb) : eval :=
  zero_eval <| e_mod_iter := iters |> <| e_fd := fd |> <| e_index := count |> <| e_cb := Some cb |>.

Section add.
Context {K : Kernel}.
Implicit Types (p : poolhd) (w : world).

(** writing an eval that is not live keeps the invariant *)
Lemma write_free_inv w l fl v e :
  inv w l fl → ¬ alive (w_pool w) v →
  inv (w <| w_pool := w_pool w <| ph_items := alter (λ _, e) v (ph_items (w_pool w)) |> |>) l fl.
Proof.
  intros [[W1 W2 W3 W4 W5 W6] (T1 & T2 & T3) [B1 B2 B3 B4]] Hv.
  assert (Hk : ∀ u, alive (w_pool w) u → alter (λ _, e) v (ph_items (w_pool w)) !! u = ph_items (w_pool w) !! u).
  { intros u Hu. rewrite list_lookup_alter_ne; [done|]. by intros ->. }
  assert (Ho : ∀ u b, owns (w_pool w <| ph_items := alter (λ _, e) v (ph_items (w_pool w)) |>) u b →
    owns (w_pool w) u b).
  { intros u b [Hu (x & Hx & Hb)]. split; [done|]. exists x. simpl in Hx. by rewrite Hk in Hx. }
  split; [split; simpl; try done|split; [|split]|split; simpl; try done].
  - by rewrite length_alter.
  - by rewrite length_alter.
  - intros i u Hi Hu. rewrite Hk by (by exists i). by apply W6.
  - apply timers_other; [done|]. intros Hl. by apply Hv, T2.
  - done.
  - intros u x Hu Hn Hx. simpl in Hx. rewrite Hk in Hx by done. by apply (T3 u).
  - by eapply free_list_only; [..|exact B1].
  - intros u b H%Ho. eauto.
  - intros u u' b H1%Ho H2%Ho. eauto.
  - intros u x b Hu Hx. rewrite Hk in Hx by done. eauto.
Qed.

(** a system call keeps it too *)
Lemma after_inv c w l fl : inv w l fl → inv (after c w) l fl.
Proof. intros [P T [B1 B2 B3 B4]]. split; [done|done|]. by split; [eapply free_list_only; [..|exact B1]|..]. Qed.

(** one more live eval, which owns nothing and has no timer *)
Lemma grow_inv w l fl v e :
  inv w l fl → ph_count (w_pool w) < ph_max (w_pool w) →
  ph_links (w_pool w) !! Z.to_nat (ph_count (w_pool w)) = Some v →
  ph_items (w_pool w) !! v = Some e → idle e → e_buff e = None → e_sq_buff e = None →
  0 < e_fd e → e_index e = ph_count (w_pool w) → e_mod_iter e <= ph_iters (w_pool w) →
  let w' := w <| w_pool := w_pool w <| ph_count := ph_count (w_pool w) + 1 |> |> in
  inv w' l fl ∧ ∀ u, alive (w_pool w') u ↔ alive (w_pool w) u ∨ u = v.
Proof.
  intros [[W1 W2 W3 W4 W5 W6] (T1 & T2 & T3) [B1 B2 B3 B4]] Hlt Hv He Hid Hb1 Hb2 Hfd Hix Hm w'.
  assert (Ha : ∀ u, alive (w_pool w') u ↔ alive (w_pool w) u ∨ u = v).
  { intros u. split.
    - intros (i & Hi & Hu). simpl in Hi, Hu.
      destruct (decide (Z.of_nat i = ph_count (w_pool w))) as [E|].
      + right. rewrite <- E, Nat2Z.id in Hv. congruence.
      + left. exists i. split; [lia|done].
    - intros [(i & Hi & Hu)| ->]; [exists i; split; [simpl; lia|done]|].
      exists (Z.to_nat (ph_count (w_pool w))). split; [simpl; lia|done]. }
  split; [|done]. split; [split; simpl; try done; [lia|]|split; [|split]|split; simpl].
  - intros i u Hi Hu. destruct (decide (Z.of_nat i = ph_count (w_pool w))) as [E|].
    + rewrite <- E, Nat2Z.id in Hv. exists e. split_and!; congruence.
    + apply W6; [lia|done].
  - eapply timers_same; [..|exact T1]; done.
  - intros u Hu. apply Ha. left. by apply T2.
  - intros u x Hu Hn Hx. apply Ha in Hu as [Hu| ->]; [by eapply T3|]. simpl in Hx. congruence.
  - by eapply free_list_only; [..|exact B1].
  - intros u b [[Hu| ->]%Ha (x & Hx & Hb)]; [apply (B2 u); split; eauto|].
    simpl in Hx. simplify_eq. destruct Hb; congruence.
  - intros u u' b [[Hu| ->]%Ha (x & Hx & Hb)] [[Hu'| ->]%Ha (x' & Hx' & Hb')]; simpl in *.
    + eapply B3; split; eauto.
    + simplify_eq. destruct Hb'; congruence.
    + simplify_eq. destruct Hb; congruence.
    + done.
  - intros u x b [Hu| ->]%Ha Hx; [eauto|]. simplify_eq. congruence.
Qed.
End add.

(** [add_event] answers a slot that was not in use, zeroed but for the
    descriptor, the callback, its position and the generation; the pool
    grows by exactly that eval, in order.  A full pool, or a kernel that
    refuses the descriptor, answers none and changes no live eval. *)
Theorem add_event_grows `{K : Kernel} (cb : evcb) (fd e : Z) (w : world) (l fl : list nat) :
  inv w l fl → 0 < fd →
  wpm (add_event cb fd e) w (λ o w',
    inv w' l fl
    ∧ (∀ u, alive (w_pool w) u → ph_items (w_pool w') !! u = ph_items (w_pool w) !! u)
    ∧ match o with
      | Some val => ph_count (w_pool w) < ph_max (w_pool w)
          ∧ ¬ alive (w_pool w) val ∧ (∀ u, alive (w_pool w') u ↔ alive (w_pool w) u ∨ u = val)
          ∧ ph_items (w_pool w') !! val
            = Some (new_eval (ph_iters (w_pool w)) fd (ph_count (w_pool w)) cb)
          ∧ ph_count (w_pool w') = ph_count (w_pool w) + 1
      | None => (∀ u, alive (w_pool w') u ↔ alive (w_pool w) u)
          ∧ (ph_count (w_pool w) = ph_max (w_pool w) ∧ w' = w
             ∨ ∃ c, ph_links (w_pool w) !! Z.to_nat (ph_count (w_pool w)) = Some c
                ∧ r_ret (kernel (w_trace w) (EpollCtl (ph_efd (w_pool w)) EPOLL_CTL_ADD fd e (Some c))) ≠ 0)
      end).
Proof.
  intros Hi Hfd. pose proof (inv_pool _ _ _ Hi) as [W1 W2 W3 W4 W5 W6].
  unfold add_event, wpm. rewrite (proj2 (Z.ltb_lt _ _)) by done. cbn [negb]. mrun.
  destruct (Z.leb_spec (ph_max (w_pool w)) (ph_count (w_pool w))) as [Hfull|Hlt].
  { simpl. split_and!; [done|done|done|]. left. split; [lia|done]. }
  unfold link. mrun. rewrite (proj2 (Z.ltb_ge _ _)) by lia.
  destruct (lookup_lt_is_Some_2 (ph_links (w_pool w)) (Z.to_nat (ph_count (w_pool w)))) as [v Hv]; [lia|].
  rewrite Hv. simpl. mrun.
  assert (Hvn : ¬ alive (w_pool w) v).
  { intros (j & Hj & Hjv). pose proof (NoDup_lookup _ _ _ _ W3 Hv Hjv). lia. }
  destruct (lookup_lt_is_Some_2 (ph_items (w_pool w)) v) as [x Hx].
  { rewrite Forall_forall in W4. apply W4. by eapply list_elem_of_lookup_2. }
  rewrite (mbind_ok _ _ _ _ _ (ev_set_eq v _ w x Hx)). mrun.
  change (zero_eval <| e_mod_iter := _ |> <| e_fd := _ |> <| e_index := _ |> <| e_cb := _ |>)
    with (new_eval (ph_iters (w_pool w)) fd (ph_count (w_pool w)) cb).
  set (ne := new_eval _ _ _ _).
  pose proof (write_free_inv w l fl v ne Hi Hvn) as Hi1.
  set (w1 := w <| w_pool := _ |>) in *.
  change (w_trace w1) with (w_trace w). change (ph_efd (w_pool w1)) with (ph_efd (w_pool w)).
  set (c := EpollCtl _ _ _ _ _) in *.
  assert (Hi2 : inv (after c w1) l fl) by by apply after_inv.
  assert (Hk : ∀ u, alive (w_pool w) u → ph_items (w_pool (after c w1)) !! u = ph_items (w_pool w) !! u).
  { intros u Hu. simpl. rewrite list_lookup_alter_ne; [done|]. by intros ->. }
  destruct (Z.eqb_spec (r_ret (kernel (w_trace w) c)) 0) as [Hz|Hnz]; cbn [negb].
  - mrun. simpl.
    destruct (grow_inv (after c w1) l fl v ne Hi2) as [Hi3 Ha3]; try done; simpl.
    { by rewrite list_lookup_alter_eq, Hx. }
    split_and!; [exact Hi3|exact Hk|done|done|exact Ha3| |done].
    by rewrite list_lookup_alter_eq, Hx.
  - simpl. split_and!; [done|exact Hk|done|]. right. by exists v.
Qed.

(** ** A pool with a ring of three, one with a timer, one with a buffer *)

Definition live_eval (i : Z) (pair : nat) : eval :=
  zero_eval <| e_fd := 10 + i |> <| e_index := i |> <| e_pair := Some pair |>.
Definition ring_pool : poolhd :=
  Poolhd 4 3 9 [0; 1; 2; 3]%nat
    [live_eval 0 1 <| e_buff := Some 0%nat |>; live_eval 1 2 <| e_tv_ms := 5100 |>;
     live_eval 2 0; zero_eval] [] 0 false (Some 1%nat) (Some 1%nat) None 0.
Definition ring_world : world :=
  sample_world ring_pool <| w_bufs := [Some (Buffer 16 3 5 None (repeat x00 16))] |>.

Lemma ring_alive u : alive ring_pool u ↔ (u < 3)%nat.
Proof.
  split.
  - intros ([|[|[|i]]] & Hi & Hu); simpl in *; [by injection Hu as <-; lia..|lia].
  - intros Hu. destruct u as [|[|[|u]]]; [exists 0%nat|exists 1%nat|exists 2%nat|lia]; simpl; split; (lia || done).
Qed.

Lemma ring_inv : inv ring_world [1]%nat [].
Proof.
  assert (Ho : ∀ u b, owns ring_pool u b → u = 0%nat ∧ b = 0%nat).
  { intros u b [Hu%ring_alive (e & He & Hb)].
    destruct u as [|[|[|u]]]; [|simpl in *; injection He as <-; by destruct Hb..|lia].
    injection He as <-. destruct Hb as [[= <-]|Hb]; [done|discriminate]. }
  split; [split|split; [split|split]|split].
  - done.
  - done.
  - repeat constructor; set_solver.
  - repeat constructor; simpl; lia.
  - simpl. lia.
  - intros i v Hi Hv. destruct i as [|[|[|i]]]; simpl in *; simplify_eq; [eexists; split; [done|by vm_compute]..|lia].
  - simpl. by eauto.
  - done.
  - done.
  - by repeat constructor; set_solver.
  - by repeat constructor.
  - by repeat constructor.
  - intros v ->%list_elem_of_singleton. apply ring_alive; lia.
  - intros v e Hv%ring_alive Hn He. destruct v as [|[|[|v]]]; [|exfalso|by injection He as <-|lia].
    + by injection He as <-.
    + apply Hn. left.
  - split; simpl; [done|constructor|done|lia].
  - intros u b [-> ->]%Ho. split; [by eexists|set_solver].
  - intros u u' b [-> _]%Ho [-> _]%Ho. done.
  - intros u e b Hu He Hb. destruct (Ho u b) as [-> ->]; [split; [done|]; exists e; by auto|].
    injection He as <-. done.
Qed.

Lemma del_event_ring_witness : let K : Kernel := quiet_kernel in
  wpm (del_event 6 1) ring_world (λ _ w',
    closed (w_trace w') = [11; 12; 10] ∧ ph_count (w_pool w') = 0 ∧ ∃ l fl, inv w' l fl).
Proof.
  intros K. eapply wpm_mono.
  - apply (del_event_ring 6 1 [2; 0]%nat ring_world [1]%nat []).
    + apply ring_inv.
    + repeat constructor; set_solver.
    + intros u Hu. apply ring_alive. set_unfold. lia.
    + right. by vm_compute.
    + simpl. lia.
  - intros _ w' (Hi & Hf & _). split_and!; [|by rewrite (fr_count _ _ _ Hf)|done].
    by rewrite (fr_closed _ _ _ Hf).
Defined.

Lemma add_event_grows_witness : let K : Kernel := quiet_kernel in
  wpm (add_event ON_TUNNEL 20 POLLIN) ring_world (λ o w', ∃ val, o = Some val
    ∧ inv w' [1]%nat [] ∧ ph_items (w_pool w') !! val = Some (new_eval 0 20 3 ON_TUNNEL)).
Proof.
  intros K. eapply wpm_mono.
  - apply (add_event_grows ON_TUNNEL 20 POLLIN ring_world [1]%nat []); [apply ring_inv|lia].
  - intros [v|] w' (Hi & _ & H).
    + destruct H as (_ & _ & _ & Hv & _). by exists v.
    + destruct H as (_ & [[Hc _]|(c & _ & Hr)]); by vm_compute in *.
Defined.
