(* ===== verification/Desync.v ===== *)
(** * Sending a request in pieces: native/byedpi/desync.c (the Linux build)

    [tamp] rewrites the first request in place, [desync] sends it in the
    parts the group asks for (plain, out of order, with an urgent byte, with
    a fake packet first), [desync_udp] sends fake datagrams ahead of one.
    Bytes are what the system calls are given: [Send fd data flags].  Data in
    the kernel is out of reach: [vmsplice] is given the bytes of the mapping
    as they are then, although the trick of a fake packet is that the pages
    are overwritten later. *)

From Stdlib Require Import ZArith Lia Bool List.
From Stdlib Require Import Strings.Byte.
From stdpp Require Import base tactics list numbers option.
From S2P Require Import Prelude CMem Packets World Conev.

(** socket options (Linux) *)
Definition IPPROTO_IP : Z := 0.
Definition IP_TTL : Z := 2.
Definition IPPROTO_IPV6 : Z := 41.
Definition IPV6_UNICAST_HOPS : Z := 16.
Definition SOL_SOCKET : Z := 1.
Definition SO_ATTACH_FILTER : Z := 26.
Definition SO_DETACH_FILTER : Z := 27.
Definition IPPROTO_TCP : Z := 6.
Definition TCP_INFO : Z := 11.
Definition TCP_MD5SIG : Z := 14.
Definition MSG_OOB : Z := 1.

Definition DEFAULT_TTL : Z := 8.
Definition ERR_WAIT : Z := -12.

(** an integer of [k] bytes, little end first, and back *)
Fixpoint le_bytes (k : nat) (v : Z) : mem :=
  match k with O => [] | Datatypes.S k => bz v :: le_bytes k (Z.shiftr v 8) end.
Fixpoint le_val (m : mem) : Z :=
  match m with [] => 0 | b :: m => zb b + 256 * le_val m end.
Definition int_bytes (v : Z) : mem := le_bytes 4 v.
Definition int_at (m : mem) (i : Z) : Z := i32 (le_val (slice m (4 * i) 4)).

Record proto_info : Type := ProtoInfo {
  pi_init : bool; pi_type : Z; pi_host_len : Z; pi_host_pos : Z
}.
#[export] Instance proto_info_eta : Eta proto_info := λ i,
  ProtoInfo (pi_init i) (pi_type i) (pi_host_len i) (pi_host_pos i).
Definition no_info : proto_info := ProtoInfo false 0 0 0.

(** a packet made by [get_tcp_fake]: the mapping, [size], [off] *)
Record fake : Type := Fake { fk_map : nat; fk_size : Z; fk_off : Z }.

Section desync.
Context {K : Kernel} `{cm : CharModel}.
Implicit Types (val b : nat) (fd sfd : Z) (dp : desync_params).

Definition fake_tls : packet := Packet (len tls_data) (Some tls_data) 0.
Definition fake_http : packet := Packet (len http_data) (Some http_data) 0.
Definition fake_udp : packet := Packet (len udp_data) (Some udp_data) 0.

(** *** Memory of buffers and mappings *)

(** run [f] on the bytes of a buffer, from its start *)
Definition on_data {A} b (f : mem → res (A * mem)) : M A :=
  let* x := buf b in
  let* am := lift (f (b_data x)) in
  buf_set b (λ x, x <| b_data := am.2 |>) ;;;
  ret am.1.

(** [f] at [buffer + lp] *)
Definition at_off {A} (lp : Z) (f : mem → res (A * mem)) : mem → res (A * mem) := λ m,
  if (0 <=? lp) && (lp <=? len m) then
    '(a, m') ← f (drop (Z.to_nat lp) m);
    Ok (a, take (Z.to_nat lp) m ++ m')
  else UB.

(** read-only access *)
Definition of_data {A} b (f : mem → res A) : M A :=
  let* x := buf b in lift (f (b_data x)).

Definition mapping (p : nat) : M mem :=
  let* ms := get w_maps in
  match ms !! p with Some (Some m) => ret m | _ => ub end.
Definition on_map {A} (p : nat) (f : mem → res (A * mem)) : M A :=
  let* m := mapping p in
  let* am := lift (f m) in
  modify (λ w, w <| w_maps := <[p := Some am.2]> (w_maps w) |>) ;;;
  ret am.1.

(** *** [rand()]: a function that takes successive results *)

Definition rand : M Z := sysret Rand.
Fixpoint rands (n : nat) (tr : history) : history :=
  match n with
  | O => tr
  | Datatypes.S n => let tr := rands n tr in tr ++ [(Rand, kernel tr Rand)]
  end.
Definition with_rnd {A} (f : (nat → Z) → nat → res (A * nat)) : M A := λ w,
  '(a, k) ← f (λ i, r_ret (kernel (rands i (w_trace w)) Rand)) O;
  Ok (a, w <| w_trace := rands k (w_trace w) |>).

(** *** Socket options *)

Definition setsockopt fd (level opt : Z) (val : mem) : M Z :=
  sysret (Setsockopt fd level opt val).

Definition setttl fd (ttl : Z) : M Z :=
  let* ret6 := setsockopt fd IPPROTO_IPV6 IPV6_UNICAST_HOPS (int_bytes ttl) in
  let* ret4 := setsockopt fd IPPROTO_IP IP_TTL (int_bytes ttl) in
  if negb (ret4 =? 0) && negb (ret6 =? 0) then ret (-1) else ret 0.

(** the filter's instructions: code (2), jt (1), jf (1), k (4) *)
Definition sack_filter : mem :=
  concat (map (λ '(code, jt, jf, k),
    le_bytes 2 code ++ le_bytes 1 jt ++ le_bytes 1 jf ++ le_bytes 4 k)
    [(0x30, 0, 0, 0x0000000c); (0x74, 0, 0, 0x00000004); (0x35, 0, 3, 0x0000000b);
     (0x30, 0, 0, 0x00000022); (0x15, 0, 1, 0x00000005); (0x6, 0, 0, 0x00000000);
     (0x6, 0, 0, 0x00040000)]).

Definition drop_sack fd : M Z :=
  let* r := setsockopt fd SOL_SOCKET SO_ATTACH_FILTER sack_filter in
  if r =? -1 then ret (-1) else ret 0.

(** [offsetof(struct tcp_info, tcpi_notsent_bytes)], and the size *)
Definition TCPI_NOTSENT : Z := 144.
Definition TCPI_SIZE : Z := 232.

Definition sock_has_notsent sfd : M bool :=
  let* r := sys (Getsockopt sfd IPPROTO_TCP TCP_INFO TCPI_SIZE) in
  if r_ret r <? 0 then ret false else
  let* state := lift (rd (r_data r) 0) in
  if negb (zb state =? 1) then ret false else
  if len (r_data r) <=? TCPI_NOTSENT then ret false else
  ret (negb (le_val (slice (r_data r) TCPI_NOTSENT 4) =? 0)).

(** anonymous pages: at least [n] bytes *)
Definition alloc_pktd (n : Z) : M (option nat) :=
  let* r := sys (Mmap n) in
  if r_ret r =? -1 then ret None else
  let* p := get (λ w, length (w_maps w)) in
  modify (λ w, w <| w_maps := w_maps w
    ++ [Some (r_data r ++ repeat x00 (Z.to_nat (n - len (r_data r))))] |>) ;;;
  ret (Some p).

(** [struct tcp_md5sig]: 128 bytes of address, flags, prefix length, key
    length, interface, 80 bytes of key *)
Definition md5sig (addr : mem) (key_len : Z) : mem :=
  take 128 (addr ++ repeat x00 128) ++ [x00; x00] ++ le_bytes 2 key_len ++ repeat x00 84.

Definition set_md5sig sfd (key_len : Z) : M Z :=
  let* r := sys (Getpeername sfd) in
  if r_ret r <? 0 then ret (-1) else
  let* r := setsockopt sfd IPPROTO_TCP TCP_MD5SIG (md5sig (r_data r) key_len) in
  if r <? 0 then ret (-1) else ret 0.

(** *** Positions *)

Definition init_proto_info b (n : Z) (info : proto_info) : M proto_info :=
  if pi_init info then ret info else
  let* tls := of_data b (λ m, parse_tls m n) in
  let '(host_len, host) := tls in
  let* lht := (if negb (host_len =? 0) then ret (host_len, host, IS_HTTPS) else
    let* http := of_data b (λ m, parse_http m n false) in
    let '(host_len, host', _) := http in
    let host := match host' with Some h => Some h | None => host end in
    ret (host_len, host, if negb (host_len =? 0) then IS_HTTP else pi_type info)) in
  let '(host_len, host, type) := lht in
  ret (ProtoInfo true type host_len (match host with Some h => i32 h | None => 0 end)).

(** [n] is a [size_t], [pos] a [long] *)
Definition gen_offset (pos flag : Z) b (n lp : Z) (info : proto_info) : M (Z * proto_info) :=
  if has flag (Z.lor OFFSET_SNI OFFSET_HOST) then
    let* info := init_proto_info b n info in
    if (pi_host_pos info =? 0) || (has flag OFFSET_SNI && negb (pi_type info =? IS_HTTPS))
    then ret (-1, info) else
    let pos := pos + pi_host_pos info in
    if has flag OFFSET_END then ret (pos + pi_host_len info, info)
    else if has flag OFFSET_MID then ret (pos + Z.quot (pi_host_len info) 2, info)
    else if has flag OFFSET_RAND then
      let* r := rand in
      if pi_host_len info =? 0 then ub else ret (pos + Z.rem r (pi_host_len info), info)
    else ret (pos, info)
  else if has flag OFFSET_RAND then
    let* r := rand in
    if u64 (n - lp) =? 0 then ub else
    ret (i64 (pos + lp + u64 r mod u64 (n - lp)), info)
  else if has flag OFFSET_MID then ret (i64 (pos + u64 n / 2), info)
  else if (pos <? 0) || has flag OFFSET_END then ret (i64 (pos + n), info)
  else ret (pos, info).

(** *** Fake packets *)

Definition choose_fake b (n : Z) (info : proto_info) dp : M (packet * proto_info) :=
  match pk_data (d_fake_data dp) with
  | Some _ => ret (d_fake_data dp, info)
  | None =>
      let* info := (if negb (pi_type info =? 0) then ret info else
        let* tls := of_data b (λ m, is_tls_chello m n) in
        if tls : bool then ret (info <| pi_type := IS_HTTPS |>) else
        let* http := of_data b (λ m, is_http m n) in
        ret (if http : bool then info <| pi_type := IS_HTTP |> else info)) in
      ret (if pi_type info =? IS_HTTP then fake_http else fake_tls, info)
  end.

Definition change_sni (fuel : nat) (p : nat) (sni : mem) (n nn : Z) : M Z :=
  let* m := mapping p in
  let* rm := with_rnd (λ rnd k,
    '(rc, m, k) ← change_tls_sni rnd fuel sni m n nn k; Ok ((rc, m), k)) in
  on_map p (λ _, Ok (tt, rm.2)) ;;;
  ret rm.1.

(** the [do { ... } while (0)] that fills the packet at [p] *)
Definition fill_fake (fuel : nat) (p b : nat) (n : Z) (pkt : packet) (sni : option mem)
    (info : proto_info) dp : M unit :=
  let f_size := d_fake_tls_size dp in
  let f_size := if f_size <? 0 then n + f_size else f_size in
  let f_size := if (n <? f_size) || (f_size <=? 0) then n else f_size in
  let* done := (if has (d_fake_mod dp) FM_ORIG && (pi_type info =? IS_HTTPS) then
      let* x := buf b in
      on_map p (λ m, m ← memcpy m 0 (b_data x) 0 n; Ok (tt, m)) ;;;
      match sni with
      | None => ret true
      | Some sni => let* rc := change_sni fuel p sni n f_size in ret (rc =? 0)
      end
    else ret false) in
  if done : bool then ret tt else
  let* data := deref (pk_data pkt) in
  on_map p (λ m, m ← memcpy m 0 data 0 (pk_size pkt); Ok (tt, m)) ;;;
  match sni with
  | None => ret tt
  | Some sni => change_sni fuel p sni (pk_size pkt) f_size ;;; ret tt
  end.

(** [None]: no memory ([pkt.data == 0]) *)
Definition get_tcp_fake (fuel : nat) b (n : Z) (info : proto_info) dp
  : M (option fake * proto_info) :=
  let* pi := choose_fake b n info dp in
  let '(pkt, info) := pi in
  let ps := if pk_size pkt <? n then n else pk_size pkt in
  let* p := alloc_pktd ps in
  match p with
  | None => ret (None, info)
  | Some p =>
      let* sni := (match d_fake_sni_list dp with
        | [] => ret None
        | l => let* r := rand in
               let* s := deref (l !! Z.to_nat (Z.rem r (Z.of_nat (length l)))) in
               ret (Some s)
        end) in
      fill_fake fuel p b n pkt sni info dp ;;;
      (if has (d_fake_mod dp) FM_RAND then
         let* m := mapping p in
         let* m := with_rnd (λ rnd k, randomize_tls rnd m ps k) in
         on_map p (λ _, Ok (tt, m))
       else ret tt) ;;;
      match d_fake_offset dp with
      | None => ret (Some (Fake p ps (pk_off pkt)), info)
      | Some part =>
          let* oi := gen_offset (pt_pos part) (pt_flag part) b n 0 info in
          let '(off, info) := oi in
          let off := if (ps <? off) || (off <? 0) then 0 else off in
          ret (Some (Fake p ps off), info)
      end
  end.

(** the body of the [while (1)] of [send_fake]: the return value *)
Definition splice_fake val (rfd wfd pos : Z) dp (pkt : fake) : M Z :=
  let* fd := ev_get val e_fd in
  let* r := setttl fd (if negb (d_ttl dp =? 0) then d_ttl dp else DEFAULT_TTL) in
  if r <? 0 then ret (-1) else
  ev_set val (λ v, v <| e_restore_ttl := true |>) ;;;
  let* bad := (if d_md5sig dp then let* r := set_md5sig fd 5 in ret (negb (r =? 0))
               else ret false) in
  if bad : bool then ret (-1) else
  ev_set val (λ v, v <| e_restore_md5 := d_md5sig dp |>) ;;;
  let* m := mapping (fk_map pkt) in
  let* len := sysret (Vmsplice wfd (slice m (fk_off pkt) pos)) in
  if len <? 0 then ret (-1) else
  let* len := sysret (Splice rfd fd len) in
  if len <? 0 then ret (-1) else ret len.

(** [buffer + lp] and [pos] bytes from there *)
Definition send_fake val b (lp pos : Z) dp (pkt : fake) : M Z :=
  let* r := sys Pipe in
  if r_ret r <? 0 then ret (-1) else
  let rfd := int_at (r_data r) 0 in
  let wfd := int_at (r_data r) 1 in
  ev_set val (λ v, v <| e_restore_orig := Some (b, lp) |> <| e_restore_orig_len := pos |>
                     <| e_restore_fake := Some (fk_map pkt, fk_off pkt) |>
                     <| e_restore_fake_len := fk_size pkt |>) ;;;
  let* len := splice_fake val rfd wfd pos dp pkt in
  sys (Close rfd) ;;;
  sys (Close wfd) ;;;
  ret len.

Definition restore_state val : M unit :=
  let* v := ev val in
  (match e_restore_fake v with
   | Some p =>
       let* o := deref (e_restore_orig v) in
       let* orig := of_data o.1 (bytes_at o.2 (e_restore_orig_len v)) in
       on_map p.1 (λ m, m ← memcpy m p.2 orig 0 (e_restore_orig_len v); Ok (tt, m)) ;;;
       munmap p (e_restore_fake_len v) ;;;
       ev_set val (λ v, v <| e_restore_fake := None |>)
   | None => ret tt
   end) ;;;
  (if e_restore_md5 v then
     set_md5sig (e_fd v) 0 ;;; ev_set val (λ v, v <| e_restore_md5 := false |>)
   else ret tt) ;;;
  (if e_restore_ttl v then
     let* ttl := par p_def_ttl in
     setttl (e_fd v) ttl ;;; ev_set val (λ v, v <| e_restore_ttl := false |>)
   else ret tt).

(** *** Sending *)

Definition send fd b (o n flags : Z) : M Z :=
  let* data := of_data b (bytes_at o n) in
  sysret (Send fd data flags).

(** one byte past the piece is replaced and sent as urgent data *)
Definition send_oob sfd b (lp n pos : Z) (c : byte * byte) : M Z :=
  if n <=? pos then ret (-1) else
  let* rchar := of_data b (λ m, rd m (lp + pos)) in
  let oob := if negb (zb c.2 =? 0) then zb c.1 else 97 (* 'a' *) in
  on_data b (λ m, m ← wr m (lp + pos) oob; Ok (tt, m)) ;;;
  let* len := send sfd b lp (pos + 1) MSG_OOB in
  on_data b (λ m, m ← wr m (lp + pos) (zb rchar); Ok (tt, m)) ;;;
  if len <? 0 then ret (-1) else ret (len - 1).

(** *** [tamp]: rewriting the request in place *)

(** the parts of a list, each [r] times (once, if [r] is not positive):
    position in the list, repetitions left, current part *)
Record cursor : Type := Cursor { cu_i : nat; cu_r : Z; cu_part : part }.
Definition no_part : part := Part DESYNC_NONE 0 0 0 0.

(** [r > 0 || i < n], and taking the next part *)
Definition advance (parts : list part) (c : cursor) : M (option cursor) :=
  if (0 <? cu_r c) || (cu_i c <? length parts)%nat then
    if cu_r c <=? 0 then
      let* p := deref (parts !! cu_i c) in ret (Some (Cursor (Datatypes.S (cu_i c)) (pt_r p) p))
    else ret (Some c)
  else ret None.
(** [r--] *)
Definition count_down (c : cursor) : cursor := Cursor (cu_i c) (cu_r c - 1) (cu_part c).

Definition tlsrec_step b (bfsize : Z) dp (s : cursor * Z * Z * Z * proto_info)
  : M (cursor * Z * Z * Z * proto_info + Z * proto_info) :=
  let '(c, rc, lp, n, info) := s in
  let* c := advance (d_tlsrec dp) c in
  match c with
  | None => ret (inr (n, info))
  | Some c =>
      let part := cu_part c in
      let pos := rc * 5 in
      let* oi := gen_offset (pt_pos part) (pt_flag part) b (n - pos) lp info in
      let '(off, info) := oi in
      let pos := pos + off in
      let pos := if (pt_pos part <? 0) || negb (pt_flag part =? 0) then pos - 5 else pos in
      let pos := i64 (pos + pt_s part * (pt_r part - cu_r c)) in
      if pos <? lp then ret (inr (n, info)) else
      let* ok := on_data b (at_off lp (λ m, part_tls m (bfsize - lp) (n - lp) (pos - lp))) in
      if ok =? 0 then ret (inr (n, info)) else
      ret (inl (count_down c, rc + 1, pos + 5, n + 5, info))
  end.

(** the new [*n] *)
Definition tamp (fuel : nat) b (bfsize n : Z) dp (info : proto_info) : M (Z * proto_info) :=
  let* http := (if negb (d_mod_http dp =? 0) then of_data b (λ m, is_http m n) else ret false) in
  (if http : bool then on_data b (λ m, mod_http m n (d_mod_http dp)) ;;; ret tt else ret tt) ;;;
  let* tls := (if d_tlsminor_set dp then of_data b (λ m, is_tls_chello m n) else ret false) in
  (if tls : bool then on_data b (λ m, m ← wr m 2 (d_tlsminor dp); Ok (tt, m)) else ret tt) ;;;
  let* tls := (match d_tlsrec dp with
    | [] => ret false | _ => of_data b (λ m, is_tls_chello m n) end) in
  if tls : bool then
    mloop fuel (tlsrec_step b bfsize dp) (Cursor 0 0 no_part, 0, 0, n, info)
  else ret (n, info).

(** *** [desync] *)

(** what it reads once *)
Record frame : Type := Frame {
  fr_val : nat; fr_pair : nat; fr_sfd : Z; fr_b : nat; fr_dp : desync_params;
  fr_size : Z; fr_off : Z; fr_skip : Z; fr_part_skip : Z; fr_n : Z
}.

(** the [switch (part.m)]: [inr] is the early [return -1] *)
Definition send_part (fuel : nat) (f : frame) (c : cursor) (lp pos : Z) (info : proto_info)
  : M (Z * proto_info + Z) :=
  let part := cu_part c in
  let val := fr_val f in let sfd := fr_sfd f in let b := fr_b f in
  match pt_m part with
  | DESYNC_FAKE =>
      let* fi := get_tcp_fake fuel b (fr_n f) info (fr_dp f) in
      let '(pkt, info) := fi in
      match pkt with
      | None => ret (inr (-1))
      | Some pkt =>
          let* s := (if negb (pos =? lp) then send_fake val b lp (pos - lp) (fr_dp f) pkt
                     else ret 0) in
          ret (inl (s, info))
      end
  | DESYNC_OOB =>
      let* s := send_oob sfd b lp (fr_size f - lp) (pos - lp) (d_oob_char (fr_dp f)) in
      ret (inl (s, info))
  | DESYNC_DISORDER | DESYNC_DISOOB =>
      let* bad := (if Z.rem (pt_r part - cu_r c) 2 =? 0 then
          let* r := setttl sfd 1 in ret (r <? 0) else ret false) in
      if bad : bool then ret (inl (-1, info)) else
      ev_set val (λ v, v <| e_restore_ttl := true |>) ;;;
      let* s := (if decide (pt_m part = DESYNC_DISOOB)
                 then send_oob sfd b lp (fr_size f - lp) (pos - lp) (d_oob_char (fr_dp f))
                 else send sfd b lp (pos - lp) 0) in
      ret (inl (s, info))
  | DESYNC_SPLIT | DESYNC_NONE =>
      let* s := send sfd b lp (pos - lp) 0 in ret (inl (s, info))
  end.

(** what follows a send of [s] bytes: [inr (ret, wait)], or go on at [pos] *)
Definition after_part (fuel : nat) (f : frame) (curr_part lp pos s : Z) : M (unit + Z * bool) :=
  ev_set (fr_pair f) (λ p, p <| e_part_sent := curr_part |>) ;;;
  let* await := par p_await_int in
  if s =? ERR_WAIT then
    set_timer fuel (fr_val f) await ;;; ret (inr (lp - fr_off f, true))
  else if s <? 0 then
    let* e := get_e in
    if e =? EAGAIN then ret (inr (lp - fr_off f, false)) else ret (inr (-1, false))
  else if negb (s =? pos - lp) then ret (inr (lp + s - fr_off f, false))
  else
    let* notsent := sock_has_notsent (fr_sfd f) in
    let* wait_send := par p_wait_send in
    if notsent || (wait_send && (fr_part_skip f <? curr_part)) then
      set_timer fuel (fr_val f) await ;;; ret (inr (pos - fr_off f, true))
    else restore_state (fr_val f) ;;; ret (inl tt).

(** one iteration: [inr (inl lp)] leaves the loop for the last send,
    [inr (inr (ret, wait))] returns *)
Definition desync_step (fuel : nat) (f : frame) (st : cursor * Z * Z * proto_info)
  : M (cursor * Z * Z * proto_info + (Z + Z * bool)) :=
  let '(c, curr_part, lp, info) := st in
  let* c := advance (d_parts (fr_dp f)) c in
  match c with
  | None => ret (inr (inl lp))
  | Some c =>
      let part := cu_part c in
      let curr_part := u32 (curr_part + 1) in
      let* oi := gen_offset (pt_pos part) (pt_flag part) (fr_b f) (fr_n f) lp info in
      let '(pos, info) := oi in
      let pos := i64 (pos + pt_s part * (pt_r part - cu_r c)) in
      if ((negb (fr_skip f =? 0) && (pos <? fr_skip f)) || (curr_part <? fr_part_skip f))
         && negb (has (pt_flag part) OFFSET_START)
      then ret (inl (count_down c, curr_part, lp, info))
      else if negb (fr_off f =? 0) && (pos <? fr_off f)
      then ret (inl (count_down c, curr_part, lp, info))
      else if (pos <? 0) || (pos <? lp) then ret (inr (inl lp))
      else
        let pos := if fr_n f <? pos then fr_n f else pos in
        let* si := (if curr_part =? fr_part_skip f then ret (inl (pos - lp, info))
                    else send_part fuel f c lp pos info) in
        match si with
        | inr r => ret (inr (inr (r, false)))
        | inl (s, info) =>
            let* go := after_part fuel f curr_part lp pos s in
            match go with
            | inr r => ret (inr (inr r))
            | inl _ => ret (inl (count_down c, curr_part, pos, info))
            end
        end
  end.

(** the part before the loop: [tamp], for the first bytes of a round *)
Definition desync_prepare (fuel : nat) val b (n : Z) : M (frame * proto_info) :=
  let* v := ev val in
  let* peer := deref (e_pair v) in
  let* p := ev peer in
  let* d := deref (e_dp p) in
  let* dp := dpg d in
  let* x := buf b in
  let skip := e_round_sent p in
  let* debug := par p_debug in
  let* info := (if (skip =? 0) && (1 <=? debug) then init_proto_info b n no_info else ret no_info) in
  let* ni := (if skip =? 0 then tamp fuel b (b_size x) n dp info else ret (n, info)) in
  ret (Frame val peer (e_fd v) b dp (b_size x) (b_offset x) skip (e_part_sent p) ni.1, ni.2).

(** send the parts from [lp], then the rest *)
Definition desync_send (fuel : nat) (f : frame) (info : proto_info) : M (Z * bool) :=
  let* r := mloop fuel (desync_step fuel f) (Cursor 0 0 no_part, 0, fr_off f, info) in
  match r with
  | inr res => ret res
  | inl lp =>
      if lp <? fr_n f then
        let* r := send (fr_sfd f) (fr_b f) lp (fr_n f - lp) 0 in
        if r <? 0 then
          let* e := get_e in
          if e =? EAGAIN then ret (lp - fr_off f, false) else ret (-1, false)
        else ret (fr_n f - fr_off f, false)
      else ret (fr_n f - fr_off f, false)
  end.

(** returns the result, the new [*np] and whether [*wait] was set *)
Definition desync (fuel : nat) val b (n : Z) : M (Z * Z * bool) :=
  let* fi := desync_prepare fuel val b n in
  let '(f, info) := fi in
  let* rw := desync_send fuel f info in
  ret (rw.1, fr_n f, rw.2).

Definition pre_desync sfd dp : M Z :=
  if d_drop_sack dp then
    let* r := drop_sack sfd in if negb (r =? 0) then ret (-1) else ret 0
  else ret 0.

Definition post_desync sfd dp : M Z :=
  if d_drop_sack dp then
    let* r := setsockopt sfd SOL_SOCKET SO_DETACH_FILTER (int_bytes 0) in
    if r =? -1 then ret (-1) else ret 0
  else ret 0.

(** *** Datagrams *)

Definition udp_fake dp : packet :=
  let pkt := match pk_data (d_fake_data dp) with Some _ => d_fake_data dp | None => fake_udp end in
  match d_fake_offset dp with
  | None => Packet (pk_size pkt) (pk_data pkt) 0
  | Some part =>
      if pt_pos part <? pk_size pkt
      then Packet (pk_size pkt - pt_pos part) (pk_data pkt) (pt_pos part)
      else Packet 0 (pk_data pkt) 0
  end.

(** [data] and [n] bytes from [buffer + o] *)
Definition desync_udp (fuel : nat) sfd b (o n : Z) dp : M Z :=
  let* go := (if negb (d_udp_fake_count dp =? 0) then
      let pkt := udp_fake dp in
      let bttl := if negb (d_ttl dp =? 0) then d_ttl dp else DEFAULT_TTL in
      let* r := setttl sfd bttl in
      if r <? 0 then ret false else
      let* data := deref (pk_data pkt) in
      let* ok := mloop fuel (λ i,
        if i <? d_udp_fake_count dp then
          let* piece := lift (bytes_at (pk_off pkt) (pk_size pkt) data) in
          let* len := sysret (Send sfd piece 0) in
          if len <? 0 then ret (inr false) else ret (inl (i + 1))
        else ret (inr true)) 0 in
      if negb ok then ret false else
      let* ttl := par p_def_ttl in
      let* r := setttl sfd ttl in
      ret (negb (r <? 0))
    else ret true) in
  if negb go then ret (-1) else send sfd b o n 0.
End desync.
