(* ===== verification/DesyncSpec.v ===== *)
(** * What [desync] sends

    The bytes the kernel accepts, in order, are the request itself: a group
    without fake packets sends a prefix of the buffer and reports its length
    ([desync_send_prefix]), whatever the positions, repetitions, modes and
    the kernel's partial answers; except for the last send and for a retried
    part, whose partial answers are lost ([desync_rest_lost],
    [desync_retry_lost]). *)

From Stdlib Require Import ZArith Lia Bool List.
From Stdlib Require Import Strings.Byte Strings.Ascii Strings.String.
From stdpp Require Import base tactics list numbers option sorting sets.
From S2P Require Import Prelude CMem Packets PacketsTls PacketsHttp World Conev ConevTimers Desync.

(** ** Bytes accepted by the kernel *)

(** the in-band bytes of one call; the last byte of an urgent send is not *)
Definition taken (fd : Z) (cr : call * reply) : mem :=
  match cr.1 with
  | Send fd' data flags =>
      if (fd' =? fd) && (0 <? r_ret cr.2)
      then take (Z.to_nat (if has flags MSG_OOB then r_ret cr.2 - 1 else r_ret cr.2)) data
      else []
  | _ => []
  end.
Definition accepted (fd : Z) (tr : history) : mem := concat (map (taken fd) tr).

Lemma accepted_snoc fd tr c r : accepted fd (tr ++ [(c, r)]) = accepted fd tr ++ taken fd (c, r).
Proof. unfold accepted. rewrite map_app, concat_app. simpl. by rewrite app_nil_r. Qed.

(** documented behaviour of the calls: [send] accepts at most what it is
    given, [getsockopt] fills something in *)
Record kernel_ok `{K : Kernel} : Prop := KernelOk {
  ko_send : ∀ h fd data flags, r_ret (kernel h (Send fd data flags)) <= len data;
  ko_sockopt : ∀ h fd level opt n,
    0 <= r_ret (kernel h (Getsockopt fd level opt n)) →
    r_data (kernel h (Getsockopt fd level opt n)) ≠ []
}.

(** a part that does not pick a random place, nor a fake packet *)
Definition plain (p : part) : Prop :=
  pt_m p ≠ DESYNC_FAKE ∧ has (pt_flag p) OFFSET_RAND = false.

(** how many times the parts of a list are taken *)
Fixpoint reps (ps : list part) : Z :=
  match ps with [] => 0 | p :: ps => Z.max 1 (pt_r p) + reps ps end.
Definition left_of (ps : list part) (c : cursor) : Z := Z.max 0 (cu_r c) + reps (drop (cu_i c) ps).

Lemma reps_nonneg ps : 0 <= reps ps.
Proof. induction ps; simpl; lia. Qed.
Lemma left_nonneg ps c : 0 <= left_of ps c.
Proof. unfold left_of. pose proof (reps_nonneg (drop (cu_i c) ps)). lia. Qed.

Lemma advance_spec `{K : Kernel} ps c w (Q : option cursor → world → Prop) :
  Forall plain ps → (0 < cu_r c → plain (cu_part c)) →
  Q None w →
  (∀ c', plain (cu_part c') → left_of ps (count_down c') + 1 <= left_of ps c → Q (Some c') w) →
  wpm (advance ps c) w Q.
Proof.
  intros Hps Hc HN HS. unfold advance.
  destruct (Z.ltb_spec 0 (cu_r c)) as [Hr|Hr]; cbn [orb].
  - rewrite (proj2 (Z.leb_gt _ _)) by lia. apply wpm_ret, HS; [auto|]. unfold left_of. simpl. lia.
  - destruct (Nat.ltb_spec (cu_i c) (length ps)) as [Hi|Hi]; [|by apply wpm_ret].
    rewrite (proj2 (Z.leb_le _ _)) by lia.
    destruct (lookup_lt_is_Some_2 ps (cu_i c) Hi) as [p Hp]. rewrite Hp.
    apply wpm_bind, wpm_ret, wpm_ret, HS.
    + rewrite Forall_lookup in Hps. by eapply Hps.
    + unfold left_of. simpl. rewrite (drop_S ps p (cu_i c) Hp). simpl. lia.
Qed.

Section send.
Context {K : Kernel} `{cm : CharModel}.
Context (f : frame) (data : mem) (l : list nat) (fuel : nat).
Context (Hk : kernel_ok) (Hplain : Forall plain (d_parts (fr_dp f))).
Context (Hn : fr_n f <= len data) (Hlen : len data < 2 ^ 31) (Hfuel : (length l < fuel)%nat).
Context (Hsize : fr_size f = len data).
Implicit Types (w : world) (acc : mem).

(** the state [desync] relies on: the buffer with its bytes, the two evals,
    the timer list, no fake packet to restore *)
Record sending acc w : Prop := Sending {
  sd_buf : ∃ x, w_bufs w !! fr_b f = Some (Some x) ∧ b_data x = data;
  sd_val : ∃ v, ph_items (w_pool w) !! fr_val f = Some v ∧ e_restore_fake v = None
             ∧ (e_tv_ms v = 0 → fr_val f ∉ l);
  sd_pair : is_Some (ph_items (w_pool w) !! fr_pair f);
  sd_timers : timers (w_pool w) l;
  sd_acc : accepted (fr_sfd f) (w_trace w) = acc
}.

Lemma sending_after acc w c :
  sending acc w → sending (acc ++ taken (fr_sfd f) (c, kernel (w_trace w) c)) (after c w).
Proof.
  intros [H1 H2 H3 H4 H5]. split; try done. simpl. by rewrite accepted_snoc, H5.
Qed.
Lemma sending_quiet acc w c :
  (match c with Send _ _ _ => False | _ => True end) → sending acc w → sending acc (after c w).
Proof.
  intros Hc H. apply (sending_after _ _ c) in H. unfold taken in H. simpl in H.
  destruct c; try done; by rewrite app_nil_r in H.
Qed.

(** writing fields of an eval that neither the timers nor [restore_fake] are *)
Lemma sending_set acc w u g :
  (∀ e, e_tv_ms (g e) = e_tv_ms e ∧ e_tv_next (g e) = e_tv_next e ∧ e_tv_prev (g e) = e_tv_prev e
     ∧ e_restore_fake (g e) = e_restore_fake e) →
  sending acc w →
  sending acc (w <| w_pool := w_pool w <| ph_items := alter g u (ph_items (w_pool w)) |> |>).
Proof.
  intros Hg [H1 (v & Hv & Hf & Ht) H3 H4 H5]. split; try done.
  - simpl. rewrite list_lookup_alter. case_decide as E; [subst|by exists v].
    rewrite Hv. exists (g v). destruct (Hg v) as (G1 & G2 & G3 & G4). split_and!; [done|congruence|].
    by rewrite G1.
  - simpl. by apply is_Some_alter.
  - apply (timers_alter (w_pool w)); [|done]. intros e. destruct (Hg e) as (? & ? & ? & ?). done.
Qed.

Lemma quiet_sysret acc w c (Q : Z → world → Prop) :
  (match c with Send _ _ _ => False | _ => True end) → sending acc w →
  (∀ w', sending acc w' → Q (r_ret (kernel (w_trace w) c)) w') → wpm (sysret c) w Q.
Proof. intros Hc H HQ. unfold wpm, sysret. mrun. by apply HQ, sending_quiet. Qed.

Lemma quiet_set acc w u g (Q : unit → world → Prop) :
  (∀ e, e_tv_ms (g e) = e_tv_ms e ∧ e_tv_next (g e) = e_tv_next e ∧ e_tv_prev (g e) = e_tv_prev e
     ∧ e_restore_fake (g e) = e_restore_fake e) →
  is_Some (ph_items (w_pool w) !! u) → sending acc w →
  (∀ w', sending acc w' → Q tt w') → wpm (ev_set u g) w Q.
Proof. intros Hg [e He] H HQ. eapply wpm_ev_set; [exact He|]. by apply HQ, sending_set. Qed.

Lemma quiet_setttl acc w fd ttl (Q : Z → world → Prop) :
  sending acc w → (∀ r w', sending acc w' → Q r w') → wpm (setttl fd ttl) w Q.
Proof.
  intros H HQ. unfold setttl, setsockopt. apply wpm_bind.
  eapply quiet_sysret; [done|exact H|]. intros w1 H1. apply wpm_bind.
  eapply quiet_sysret; [done|exact H1|]. intros w2 H2. case_match; by apply wpm_ret, HQ.
Qed.

Lemma quiet_md5sig acc w fd k (Q : Z → world → Prop) :
  sending acc w → (∀ r w', sending acc w' → Q r w') → wpm (set_md5sig fd k) w Q.
Proof.
  intros H HQ. unfold set_md5sig, wpm, setsockopt. mrun.
  pose proof (sending_quiet _ _ (Getpeername fd) I H) as H1. case_match; [by apply HQ|].
  mrun. case_match; by apply HQ, sending_quiet.
Qed.

Lemma quiet_notsent acc w (Q : bool → world → Prop) :
  sending acc w → (∀ r w', sending acc w' → Q r w') → wpm (sock_has_notsent (fr_sfd f)) w Q.
Proof.
  intros H HQ. unfold sock_has_notsent, wpm. mrun.
  set (c := Getsockopt _ _ _ _). pose proof (sending_quiet _ _ c I H) as H1.
  destruct (Z.ltb_spec (r_ret (kernel (w_trace w) c)) 0) as [|Hr]; [by apply HQ|].
  apply (ko_sockopt Hk) in Hr. destruct (r_data (kernel (w_trace w) c)) as [|x d] eqn:E; [done|].
  unfold mbind, lift. change (rd (x :: d) 0) with (Ok x). do 2 bstep.
  repeat case_match; by apply HQ.
Qed.

Lemma quiet_restore acc w (Q : unit → world → Prop) :
  sending acc w → (∀ w', sending acc w' → Q tt w') → wpm (restore_state (fr_val f)) w Q.
Proof.
  intros H HQ. destruct (sd_val _ _ H) as (v & Hv & Hf & _). unfold restore_state.
  apply wpm_bind. eapply wpm_ev; [exact Hv|]. rewrite Hf. apply wpm_bind, wpm_ret.
  assert (Hs : ∀ acc w, sending acc w → is_Some (ph_items (w_pool w) !! fr_val f)).
  { intros acc' w' H'. destruct (sd_val _ _ H') as (v' & -> & _). done. }
  apply wpm_bind. apply (wpm_mono _ _ (λ _ w', sending acc w')).
  { destruct (e_restore_md5 v); [|by apply wpm_ret].
    apply wpm_bind, (quiet_md5sig acc); [done|]. intros _ w1 H1.
    eapply quiet_set; [done|by eapply Hs|exact H1|done]. }
  intros _ w1 H1. destruct (e_restore_ttl v); [|by apply wpm_ret, HQ].
  apply wpm_bind, wpm_get, wpm_bind, (quiet_setttl acc); [done|]. intros _ w2 H2.
  eapply quiet_set; [done|by eapply Hs|exact H2|done].
Qed.

Lemma wpm_of_data {A} acc w (g : mem → res A) (Q : A → world → Prop) :
  sending acc w → wp (g data) (λ a, Q a w) → wpm (of_data (fr_b f) g) w Q.
Proof.
  intros H HQ. destruct (sd_buf _ _ H) as (x & Hx & Hd). unfold of_data.
  apply wpm_bind. eapply wpm_buf; [exact Hx|]. rewrite Hd. by apply wpm_lift.
Qed.

Lemma init_proto_info_total acc w n info (Q : proto_info → world → Prop) :
  sending acc w → n <= len data → (∀ i, Q i w) → wpm (init_proto_info (fr_b f) n info) w Q.
Proof.
  intros H Hn' HQ. unfold init_proto_info. destruct (pi_init info); [by apply wpm_ret|].
  apply wpm_bind. eapply wpm_of_data; [exact H|].
  eapply wp_mono; [apply wp_parse_tls; lia|]. intros [hl h] _. apply wpm_bind.
  destruct (negb (hl =? 0)); [by apply wpm_ret, wpm_ret|].
  apply wpm_bind. eapply wpm_of_data; [exact H|].
  eapply wp_mono; [apply wp_parse_http; lia|]. intros [[hl' h'] ?] _. by apply wpm_ret, wpm_ret.
Qed.

Lemma gen_offset_total acc w pos flag n lp info (Q : Z * proto_info → world → Prop) :
  sending acc w → has flag OFFSET_RAND = false → n <= len data → (∀ r, Q r w) →
  wpm (gen_offset pos flag (fr_b f) n lp info) w Q.
Proof.
  intros H Hr Hn' HQ. unfold gen_offset. rewrite Hr. destruct (has flag (Z.lor _ _)).
  - apply wpm_bind. eapply init_proto_info_total; [exact H|done|]. intros i.
    repeat case_match; by apply wpm_ret.
  - repeat case_match; by apply wpm_ret.
Qed.

(** *** The sends *)

Lemma send_plain acc w o n (Q : Z → world → Prop) :
  sending acc w → 0 <= o → 0 <= n → o + n <= len data →
  (∀ r w', r <= n → sending (acc ++ slice data o r) w' → Q r w') →
  wpm (send (fr_sfd f) (fr_b f) o n 0) w Q.
Proof.
  intros H Ho Hn' Hon HQ. unfold send. apply wpm_bind. eapply wpm_of_data; [exact H|].
  unfold bytes_at. rewrite !(proj2 (Z.leb_le _ _)) by lia. apply wp_ok.
  set (c := Send (fr_sfd f) (slice data o n) 0).
  pose proof (ko_send Hk (w_trace w) (fr_sfd f) (slice data o n) 0) as Hr.
  rewrite len_slice in Hr by lia. fold c in Hr.
  unfold wpm, sysret. mrun. apply HQ; [done|].
  pose proof (sending_after _ _ c H) as H1. set (r := kernel (w_trace w) c) in *.
  replace (slice data o (r_ret r)) with (taken (fr_sfd f) (c, r)); [done|].
  unfold taken. simpl. rewrite Z.eqb_refl. simpl.
  destruct (Z.ltb_spec 0 (r_ret r)) as [Hp|Hp].
  - unfold slice. rewrite take_take. f_equal. lia.
  - unfold slice. by replace (Z.to_nat (r_ret r)) with 0%nat by lia.
Qed.

(** the same, with the last call in sight *)
Lemma last_send acc w o n :
  sending acc w → 0 <= o → 0 <= n → o + n <= len data →
  wpm (send (fr_sfd f) (fr_b f) o n 0) w (λ r w', r <= n ∧ sending (acc ++ slice data o r) w'
    ∧ ∃ tr rr, w_trace w' = tr ++ [(Send (fr_sfd f) (slice data o n) 0, rr)] ∧ r_ret rr = r).
Proof.
  intros H Ho Hn' Hon.
  assert (Hboth : wpm (send (fr_sfd f) (fr_b f) o n 0) w
    (λ r w', (r <= n ∧ sending (acc ++ slice data o r) w'))) by by eapply send_plain.
  assert (Htr : wpm (send (fr_sfd f) (fr_b f) o n 0) w (λ r w',
    ∃ tr rr, w_trace w' = tr ++ [(Send (fr_sfd f) (slice data o n) 0, rr)] ∧ r_ret rr = r)).
  { unfold send. apply wpm_bind. eapply wpm_of_data; [exact H|].
    unfold bytes_at. rewrite !(proj2 (Z.leb_le _ _)) by lia. apply wp_ok.
    unfold wpm, sysret. mrun. by eexists _, _. }
  unfold wpm in *. pose proof (wp_conj _ _ _ Hboth Htr) as Hc.
  eapply wp_mono; [exact Hc|]. intros [r w'] [[? ?] ?]. done.
Qed.

Lemma sending_bufs acc w bufs :
  (∃ x, bufs !! fr_b f = Some (Some x) ∧ b_data x = data) →
  sending acc w → sending acc (w <| w_bufs := bufs |>).
Proof. by intros H []. Qed.

Lemma taken_oob o pos c data' :
  0 <= o → 0 <= pos → o + pos + 1 <= len data →
  (∀ j, 0 <= j < o + pos → rd data' j = rd data j) → len data' = len data →
  let cl := Send (fr_sfd f) (slice data' o (pos + 1)) MSG_OOB in
  r_ret c <= pos + 1 →
  taken (fr_sfd f) (cl, c) = slice data o (r_ret c - 1).
Proof.
  intros Ho Hp Hb Hsame Hl cl Hr. unfold taken. simpl. rewrite Z.eqb_refl. simpl.
  destruct (Z.ltb_spec 0 (r_ret c)) as [Hr0|Hr0].
  2:{ unfold slice. by replace (Z.to_nat (r_ret c - 1)) with 0%nat by lia. }
  unfold slice. rewrite take_take.
  replace (Z.to_nat (r_ret c - 1) `min` Z.to_nat (pos + 1))%nat with (Z.to_nat (r_ret c - 1)) by lia.
  apply list_eq. intros i. destruct (decide (i < Z.to_nat (r_ret c - 1))%nat) as [Hi|Hi].
  - rewrite !lookup_take_lt, !lookup_drop by done.
    specialize (Hsame (o + Z.of_nat i)). unfold rd in Hsame.
    rewrite !(proj2 (Z.leb_le _ _)) in Hsame by lia.
    replace (Z.to_nat (o + Z.of_nat i)) with (Z.to_nat o + i)%nat in Hsame by lia.
    unfold len in *.
    destruct (lookup_lt_is_Some_2 data (Z.to_nat o + i)) as [b1 E1]; [lia|].
    destruct (lookup_lt_is_Some_2 data' (Z.to_nat o + i)) as [b2 E2]; [lia|].
    rewrite E1, E2 in *. specialize (Hsame ltac:(lia)). congruence.
  - rewrite !lookup_take_ge by lia. done.
Qed.

Lemma on_data_run {A} b (g : mem → res (A * mem)) w x a m :
  w_bufs w !! b = Some (Some x) → g (b_data x) = Ok (a, m) →
  on_data b g w = Ok (a, w <| w_bufs := alter (fmap (λ x, x <| b_data := m |>)) b (w_bufs w) |>).
Proof.
  intros Hx Hg. unfold on_data. mrun (buf_eq b w x Hx). unfold lift.
  rewrite Hg. unfold mbind at 1. do 2 bstep. simpl. by erewrite mbind_ok by by eapply buf_set_eq.
Qed.

Lemma send_oob_spec acc w lp pos c (Q : Z → world → Prop) :
  sending acc w → 0 <= lp → 0 <= pos →
  (∀ s w', s <= pos → sending (acc ++ slice data lp s) w' → Q s w') →
  wpm (send_oob (fr_sfd f) (fr_b f) lp (fr_size f - lp) pos c) w Q.
Proof.
  intros H Hlp Hpos HQ. unfold send_oob.
  destruct (Z.leb_spec (fr_size f - lp) pos) as [Hle|Hlt].
  { apply wpm_ret, HQ; [lia|]. change (slice data lp (-1)) with (@nil byte). by rewrite app_nil_r. }
  destruct (sd_buf _ _ H) as (x & Hx & Hd).
  set (i := Z.to_nat (lp + pos)). assert (Hi : (i < length data)%nat) by (unfold len in *; lia).
  destruct (lookup_lt_is_Some_2 data i Hi) as [rc Hrc].
  assert (Hrd : rd data (lp + pos) = Ok rc).
  { apply rd_ok. split; [lia|done]. }
  set (oob := if negb (zb c.2 =? 0) then zb c.1 else 97). set (data1 := <[i := bz oob]> data).
  apply wpm_bind. eapply wpm_of_data; [exact H|]. rewrite Hrd. apply wp_ok.
  assert (Hwr : ∀ m v, length m = length data → wr m (lp + pos) v = Ok (<[i := bz v]> m)).
  { intros m v Hm. unfold wr. unfold len in *. by rewrite (proj2 (Z.leb_le _ _)), (proj2 (Z.ltb_lt _ _)) by lia. }
  unfold wpm. erewrite mbind_ok.
  2:{ apply (on_data_run _ _ _ _ tt data1 Hx). rewrite Hd, Hwr by done. done. }
  set (x1 := x <| b_data := data1 |>).
  set (w1 := w <| w_bufs := _ |>).
  assert (Hx1 : w_bufs w1 !! fr_b f = Some (Some x1)) by (simpl; by rewrite list_lookup_alter_eq, Hx).
  unfold send, of_data. mrun. mrun (buf_eq (fr_b f) w1 x1 Hx1). simpl b_data.
  assert (Hl1 : len data1 = len data) by (unfold data1, len; by rewrite length_insert).
  unfold bytes_at. rewrite !(proj2 (Z.leb_le _ _)) by lia. cbn [andb].
  unfold lift. unfold mbind at 1. do 2 bstep. mrun.
  set (cl := Send _ _ _). set (r := kernel (w_trace w1) cl).
  assert (Hx2 : w_bufs (after cl w1) !! fr_b f = Some (Some x1)) by done.
  erewrite mbind_ok.
  2:{ apply (on_data_run _ _ _ _ tt data Hx2). simpl.
      rewrite Hwr by (unfold data1; by rewrite length_insert). rewrite bind_Ok.
      unfold data1. rewrite bz_zb, list_insert_insert_eq, list_insert_id by done. done. }
  assert (Hr : r_ret r <= pos + 1).
  { pose proof (ko_send Hk (w_trace w1) (fr_sfd f) (slice data1 lp (pos + 1)) MSG_OOB) as Hr.
    rewrite len_slice in Hr by lia. exact Hr. }
  set (bufs := alter _ (fr_b f) (w_bufs (after cl w1))).
  assert (Hfin : sending (acc ++ slice data lp (r_ret r - 1)) (after cl w <| w_bufs := bufs |>)).
  { apply sending_bufs.
    - exists (x1 <| b_data := data |>). unfold bufs. rewrite list_lookup_alter_eq, Hx2. done.
    - rewrite <- (taken_oob lp pos r data1); [by apply (sending_after _ w cl)|done|done|lia| |done|done].
      intros j Hj. unfold data1, i. apply rd_insert_ne; lia. }
  destruct (Z.ltb_spec (r_ret r) 0) as [Hneg|Hnn].
  - simpl. apply HQ; [lia|]. unfold slice in Hfin |- *.
    replace (Z.to_nat (r_ret r - 1)) with 0%nat in Hfin by lia. exact Hfin.
  - simpl. apply HQ; [lia|done].
Qed.

(** *** One part *)

Lemma send_part_spec acc w c lp pos info (Q : Z * proto_info + Z → world → Prop) :
  sending acc w → plain (cu_part c) → 0 <= lp <= pos → pos <= fr_n f →
  (∀ s w', s <= pos - lp → sending (acc ++ slice data lp s) w' → Q (inl (s, info)) w') →
  wpm (send_part fuel f c lp pos info) w Q.
Proof.
  intros H [Hm _] Hlp Hpos HQ. unfold send_part.
  assert (Hplain1 : ∀ w1, sending acc w1 → wpm (send (fr_sfd f) (fr_b f) lp (pos - lp) 0) w1
            (λ s w', wpm (ret (inl (s, info))) w' Q)).
  { intros w1 H1. eapply send_plain; [exact H1|lia..|]. intros r w2 Hr H2. by apply wpm_ret, HQ. }
  assert (Hoob : ∀ w1, sending acc w1 → wpm (send_oob (fr_sfd f) (fr_b f) lp (fr_size f - lp)
              (pos - lp) (d_oob_char (fr_dp f))) w1 (λ s w', wpm (ret (inl (s, info))) w' Q)).
  { intros w1 H1. eapply send_oob_spec; [exact H1|lia..|]. intros s w2 Hs H2. by apply wpm_ret, HQ. }
  assert (Hs : ∀ w, sending acc w → is_Some (ph_items (w_pool w) !! fr_val f)).
  { intros w' H'. destruct (sd_val _ _ H') as (v' & -> & _). done. }
  assert (Hdis : ∀ snd, (∀ w1, sending acc w1 → wpm snd w1 (λ s w', wpm (ret (inl (s, info))) w' Q)) →
    wpm (let* bad := (if Z.rem (pt_r (cu_part c) - cu_r c) 2 =? 0 then
          let* r := setttl (fr_sfd f) 1 in ret (r <? 0) else ret false) in
      if bad : bool then ret (inl (-1, info)) else
      ev_set (fr_val f) (λ v, v <| e_restore_ttl := true |>) ;;;
      let* s := snd in ret (inl (s, info))) w Q).
  { intros snd Hsnd. apply wpm_bind. apply (wpm_mono _ _ (λ _ w', sending acc w')).
    { case_match; [|by apply wpm_ret]. apply wpm_bind, (quiet_setttl acc); [done|].
      intros r w1 H1. by apply wpm_ret. }
    intros bad w1 H1. destruct bad.
    - apply wpm_ret, HQ; [lia|]. unfold slice.
      replace (Z.to_nat (-1)) with 0%nat by lia. rewrite take_0. by rewrite app_nil_r.
    - apply wpm_bind. eapply quiet_set; [done|by apply Hs|exact H1|].
      intros w2 H2. apply wpm_bind. by apply Hsnd. }
  destruct (pt_m (cu_part c)) eqn:Em; try done.
  - apply wpm_bind. by apply Hplain1.
  - apply wpm_bind. by apply Hplain1.
  - apply (Hdis (send (fr_sfd f) (fr_b f) lp (pos - lp) 0)), Hplain1.
  - apply wpm_bind. by apply Hoob.
  - apply (Hdis (send_oob (fr_sfd f) (fr_b f) lp (fr_size f - lp) (pos - lp) _)), Hoob.
Qed.

(** the trace of [set_timer] *)
Lemma set_timer_quiet acc w ms (Q : unit → world → Prop) :
  sending acc w → (∀ w', accepted (fr_sfd f) (w_trace w') = acc → Q tt w') →
  wpm (set_timer fuel (fr_val f) ms) w Q.
Proof.
  intros H HQ. destruct (sd_val _ _ H) as (v & Hv & _ & Hl). unfold wpm.
  destruct (Z.eq_dec (e_tv_ms v) 0) as [Hz|Hnz].
  - destruct (set_timer_run fuel (fr_val f) ms w l v) as (l1 & l2 & _ & _ & _ & E);
      [apply (sd_timers _ _ H)|done|done|by apply Hl|done|].
    rewrite E. apply HQ. simpl. rewrite accepted_snoc, app_nil_r. apply (sd_acc _ _ H).
  - rewrite (set_timer_armed _ _ _ _ v) by done. apply HQ, (sd_acc _ _ H).
Qed.

(** [k] bytes from [o] were accepted since [acc] *)
Definition upto acc (o k : Z) w : Prop :=
  0 <= k /\ o + k <= len data /\ accepted (fr_sfd f) (w_trace w) = acc ++ slice data o k.

Lemma after_part_spec acc w curr lp pos s (Q : unit + Z * bool → world → Prop) :
  sending (acc ++ slice data lp s) w → 0 <= lp <= pos → pos <= len data → s <= pos - lp →
  (∀ r wait w' k, upto acc lp k w' → r = -1 ∨ r = lp + k - fr_off f → Q (inr (r, wait)) w') →
  (∀ w', sending (acc ++ slice data lp (pos - lp)) w' → Q (inl tt) w') →
  wpm (after_part fuel f curr lp pos s) w Q.
Proof.
  intros H Hlp Hpos Hs Hret Hgo. unfold after_part.
  assert (Hk0 : ∀ w', s <= 0 → accepted (fr_sfd f) (w_trace w') = acc ++ slice data lp s → upto acc lp 0 w').
  { intros w' Hs0 E. split_and!; [lia|lia|]. rewrite E. f_equal. unfold slice. f_equal. lia. }
  apply wpm_bind. eapply quiet_set; [done|apply (sd_pair _ _ H)|exact H|]. intros w1 H1.
  apply wpm_bind, wpm_get.
  destruct (Z.eqb_spec s ERR_WAIT) as [->|_].
  { apply wpm_bind. eapply set_timer_quiet; [exact H1|]. intros w2 H2.
    apply wpm_ret, (Hret _ _ _ 0); [by apply Hk0|lia]. }
  destruct (Z.ltb_spec s 0) as [Hneg|Hnn].
  { apply wpm_bind, wpm_get. pose proof (Hk0 w1 ltac:(lia) (sd_acc _ _ H1)).
    case_match; apply wpm_ret, (Hret _ _ _ 0); auto; lia. }
  assert (Hks : ∀ w', accepted (fr_sfd f) (w_trace w') = acc ++ slice data lp s → upto acc lp s w').
  { intros w' E. split_and!; [lia|lia|done]. }
  destruct (Z.eqb_spec s (pos - lp)) as [E|Hne]; cbn [negb].
  2:{ apply wpm_ret, (Hret _ _ _ s); [apply Hks, (sd_acc _ _ H1)|lia]. }
  apply wpm_bind. eapply quiet_notsent; [exact H1|]. intros b w2 H2.
  apply wpm_bind, wpm_get. case_match.
  - apply wpm_bind. eapply set_timer_quiet; [exact H2|]. intros w3 H3.
    apply wpm_ret, (Hret _ _ _ s); [by apply Hks|lia].
  - apply wpm_bind. eapply quiet_restore; [exact H2|]. intros w3 H3. apply wpm_ret, Hgo. by rewrite <- E.
Qed.

(** *** The loop *)

Context (Hskip : fr_part_skip f = 0) (Hreps : reps (d_parts (fr_dp f)) < 2 ^ 32).
Context (Hoff : 0 <= fr_off f <= fr_n f).

(** since [acc0], exactly the bytes from [offset] to [lp] *)
Definition at_lp acc0 lp w : Prop :=
  fr_off f <= lp <= fr_n f ∧ sending (acc0 ++ slice data (fr_off f) (lp - fr_off f)) w.

(** a result: what was accepted is [k] bytes, and so it says *)
Definition sent acc0 (r : Z) w : Prop :=
  ∃ k, upto acc0 (fr_off f) k w ∧ (r = -1 ∨ r = k).

Lemma upto_from acc0 lp k w :
  fr_off f <= lp → upto (acc0 ++ slice data (fr_off f) (lp - fr_off f)) lp k w →
  upto acc0 (fr_off f) (lp - fr_off f + k) w.
Proof.
  intros Hlp (Hk0 & Hkl & E). split_and!; [lia|lia|]. rewrite E, <- app_assoc. f_equal.
  rewrite slice_split by lia. do 2 f_equal. lia.
Qed.

Definition loop_inv acc0 (st : cursor * Z * Z * proto_info) w : Prop :=
  let '(c, curr, lp, info) := st in
  at_lp acc0 lp w ∧ (0 < cu_r c → plain (cu_part c))
  ∧ 0 <= curr /\ curr + left_of (d_parts (fr_dp f)) c <= reps (d_parts (fr_dp f)).

Definition step_post acc0 (st : cursor * Z * Z * proto_info)
    (r : cursor * Z * Z * proto_info + (Z + Z * bool)) w' : Prop :=
  match r with
  | inl st' => loop_inv acc0 st' w'
      ∧ left_of (d_parts (fr_dp f)) st'.1.1.1 < left_of (d_parts (fr_dp f)) st.1.1.1
  | inr (inl lp) => at_lp acc0 lp w'
  | inr (inr (r, _)) => sent acc0 r w'
  end.

Lemma desync_step_spec acc0 st w :
  loop_inv acc0 st w → wpm (desync_step fuel f st) w (step_post acc0 st).
Proof.
  destruct st as [[[c curr] lp] info]. intros ([Hlp H] & Hc & Hcurr & Hleft). unfold desync_step.
  apply wpm_bind. apply advance_spec; [done|done|by apply wpm_ret|].
  intros c' Hc' Hdec.
  assert (Hcu : u32 (curr + 1) = curr + 1).
  { apply u32_small. pose proof (left_nonneg (d_parts (fr_dp f)) (count_down c')). lia. }
  rewrite Hcu. apply wpm_bind. eapply gen_offset_total; [exact H|by destruct Hc'|done|].
  intros [off info']. set (pos := i64 _).
  assert (Hskip' : wpm (ret (inl (count_down c', curr + 1, lp, info'))) w
    (step_post acc0 (c, curr, lp, info))).
  { apply wpm_ret. simpl. split_and!; try done; lia. }
  rewrite Hskip. rewrite (proj2 (Z.ltb_ge (curr + 1) 0)) by lia.
  destruct (_ && _); [exact Hskip'|]. destruct (_ && _); [exact Hskip'|]. clear Hskip'.
  destruct (Z.ltb_spec pos 0) as [|Hp0]; [by apply wpm_ret|]. cbn [orb].
  destruct (Z.ltb_spec pos lp) as [|Hpl]; [by apply wpm_ret|].
  set (pos' := if fr_n f <? pos then fr_n f else pos).
  assert (Hpos' : lp <= pos' <= fr_n f) by (unfold pos'; destruct (Z.ltb_spec (fr_n f) pos); lia).
  rewrite (proj2 (Z.eqb_neq (curr + 1) 0)) by lia.
  apply wpm_bind. eapply send_part_spec; [exact H|done|lia|lia|].
  intros s w1 Hs H1. apply wpm_bind. eapply after_part_spec; [exact H1|lia|lia|lia| |].
  - intros r wait w' k Hup Hr. apply wpm_ret.
    exists (lp - fr_off f + k). split; [apply upto_from; [lia|done]|lia].
  - intros w' H'. apply wpm_ret. simpl. split_and!; try lia; [|done].
    split; [lia|]. rewrite <- app_assoc in H'.
    replace (pos' - fr_off f) with (lp - fr_off f + (pos' - lp)) by lia.
    rewrite slice_split by lia. by replace (fr_off f + (lp - fr_off f)) with lp by lia.
Qed.

(** the last call was a [send] of which the kernel took only a part *)
Definition cut_short (tr : history) : Prop :=
  ∃ tr' rest flags r, tr = tr' ++ [(Send (fr_sfd f) rest flags, r)] ∧ 0 <= r_ret r < len rest.

Lemma desync_send_spec info acc0 w :
  sending acc0 w → reps (d_parts (fr_dp f)) < Z.of_nat fuel →
  wpm (desync_send fuel f info) w (λ '(r, _) w', ∃ k,
    upto acc0 (fr_off f) k w'
    ∧ (r = -1 ∨ r = k ∨ r = fr_n f - fr_off f ∧ k < r ∧ cut_short (w_trace w'))).
Proof.
  intros H Hf. unfold desync_send. apply wpm_bind.
  eapply (wpm_mono _ _ (λ r w', match r with
    | inl lp => at_lp acc0 lp w' | inr (r, _) => sent acc0 r w' end)).
  { apply (wpm_loop (loop_inv acc0) (λ st _, left_of (d_parts (fr_dp f)) st.1.1.1)).
    - intros. apply left_nonneg.
    - intros st w1 H1. eapply wpm_mono; [by apply desync_step_spec|].
      intros [st'|[lp|[r wait]]] w2; done.
    - split_and!; [split; [lia|]|simpl; lia|lia|].
      + by rewrite Z.sub_diag, slice_nil, app_nil_r.
      + unfold left_of. simpl. rewrite drop_0. lia.
    - unfold left_of. simpl. rewrite drop_0. lia. }
  intros [lp|[r wait]] w1; [|intros (k & Hup0 & Hr); apply wpm_ret; exists k; tauto].
  intros [Hlp H1].
  assert (Hup : ∀ w2 s, 0 <= s → lp + s <= len data →
    sending ((acc0 ++ slice data (fr_off f) (lp - fr_off f)) ++ slice data lp s) w2 →
    upto acc0 (fr_off f) (lp - fr_off f + s) w2).
  { intros w2 s Hs0 Hs1 H2. apply upto_from; [lia|]. split_and!; [lia|lia|apply (sd_acc _ _ H2)]. }
  destruct (Z.ltb_spec lp (fr_n f)) as [Hlt|Hge].
  2:{ apply wpm_ret. exists (lp - fr_off f + 0). split; [|lia].
      apply Hup; [lia|lia|by rewrite slice_nil, app_nil_r]. }
  apply wpm_bind. eapply wpm_mono; [apply (last_send _ _ lp (fr_n f - lp) H1); lia|].
  intros r w2 (Hr & H2 & tr & rr & Etr & Er).
  destruct (Z.ltb_spec r 0) as [Hneg|Hnn].
  - assert (Hu0 : upto acc0 (fr_off f) (lp - fr_off f + 0) w2).
    { apply Hup; [lia|lia|]. unfold slice in H2 |- *. by replace (Z.to_nat r) with (Z.to_nat 0) in H2 by lia. }
    apply wpm_bind, wpm_get. case_match; apply wpm_ret; eexists; (split; [exact Hu0|lia]).
  - apply wpm_ret. exists (lp - fr_off f + r). split; [apply Hup; [lia|lia|done]|].
    destruct (decide (r = fr_n f - lp)); [lia|]. right; right. split_and!; [lia|lia|].
    eexists tr, _, 0, rr. split; [exact Etr|]. rewrite len_slice by lia. lia.
Qed.
End send.

(** a frame over the bytes [data], at the start of a request *)
Record frame_ok (f : frame) (data : mem) : Prop := FrameOk {
  fo_n : 0 <= fr_off f <= fr_n f ∧ fr_n f <= len data ∧ len data < 2 ^ 31;
  fo_size : fr_size f = len data;
  fo_fresh : fr_part_skip f = 0;
  fo_parts : Forall plain (d_parts (fr_dp f)) ∧ reps (d_parts (fr_dp f)) < 2 ^ 32
}.


(** The result of the last [send] is only tested for failure: when the
    kernel takes [r] of the remaining bytes, [desync] still answers that all
    of them are sent, and the buffer is released with the rest unsent. *)
Theorem desync_rest_lost `{K : Kernel} `{cm : CharModel} (fuel : nat) (f : frame)
    (info : proto_info) (data acc : mem) (l : list nat) (w : world) :
  d_parts (fr_dp f) = [] → 0 <= fr_off f < fr_n f → fr_n f <= len data →
  sending f data l acc w →
  let rest := slice data (fr_off f) (fr_n f - fr_off f) in
  let r := r_ret (kernel (w_trace w) (Send (fr_sfd f) rest 0)) in
  0 <= r < fr_n f - fr_off f →
  wpm (desync_send (Datatypes.S fuel) f info) w (λ '(ret, wait) w',
    ret = fr_n f - fr_off f ∧ wait = false
    ∧ accepted (fr_sfd f) (w_trace w') = acc ++ slice data (fr_off f) r).
Proof.
  intros Hp Ho Hn H rest r Hr. unfold desync_send. apply wpm_bind.
  eapply (wpm_mono _ _ (λ r w', r = inl (fr_off f) ∧ w' = w)).
  { unfold wpm. erewrite mloop_inr; [by split|]. unfold desync_step. rewrite Hp. done. }
  intros _ _ [-> ->]. rewrite (proj2 (Z.ltb_lt _ _)) by lia.
  destruct (sd_buf _ _ _ _ _ H) as (x & Hx & Hd).
  unfold send, of_data, wpm. mrun. mrun (buf_eq (fr_b f) w x Hx). rewrite Hd.
  unfold bytes_at. rewrite !(proj2 (Z.leb_le _ _)) by lia. cbn [andb].
  unfold lift. unfold mbind at 1. do 2 bstep. mrun. fold rest. fold r.
  rewrite (proj2 (Z.ltb_ge _ _)) by lia. simpl. split_and!; [done|done|].
  rewrite accepted_snoc, (sd_acc _ _ _ _ _ H). f_equal. unfold taken. simpl.
  rewrite Z.eqb_refl. simpl. fold r. destruct (Z.ltb_spec 0 r) as [|Hz].
  - unfold rest, slice. rewrite take_take. f_equal. lia.
  - by replace r with 0 by lia.
Qed.

(** ** Examples: a request of six bytes from eval 0 (descriptor 7), the
    client being eval 1, to be split at 2 and at 4 *)
Definition request : mem := bytes_of "abcdef"%string.
Definition some_group (parts : list part) : desync_params :=
  DesyncParams 0 false (Packet 0 None 0) 0 None [] 0 0 false (x61, x00) parts 0 [] 0 false
    0 0 0 None None (0, 0) (0, 0) 0 zero_addr 0 1 0 0 0 None None.
Definition two_parts : list part := [Part DESYNC_SPLIT 0 2 1 0; Part DESYNC_DISOOB 0 4 1 0].
Definition pair_pool : poolhd :=
  Poolhd 2 2 3 [0; 1]%nat
    [zero_eval <| e_fd := 7 |> <| e_pair := Some 1%nat |>;
     zero_eval <| e_fd := 8 |> <| e_pair := Some 0%nat |> <| e_dp := Some 0%nat |>]
    [] 0 false None None None 0.
Definition send_world (parts : list part) : world :=
  World pair_pool [Some (Buffer 6 0 6 None request)] [] sample_params [some_group parts] 0 [].
Definition sample_frame : frame :=
  Frame 0 1 7 0 (some_group two_parts) 6 0 0 0 6.

(** takes everything *)
Definition open_kernel : Kernel := λ _ c,
  match c with
  | Send _ d _ => Reply (len d) 0 [] []
  | Getsockopt _ _ _ _ => Reply 0 0 [x00] []
  | _ => Reply 0 0 [] []
  end.
(** refuses the first [send], for want of room *)
Definition busy_kernel : Kernel := λ h c,
  match c with
  | Send _ d _ =>
      if existsb (λ cr : call * reply, match cr.1 with Send _ _ _ => true | _ => false end) h
      then Reply (len d) 0 [] [] else Reply (-1) EAGAIN [] []
  | Getsockopt _ _ _ _ => Reply 0 0 [x00] []
  | _ => Reply 0 0 [] []
  end.
(** takes two bytes at a time *)
Definition narrow_kernel : Kernel := λ _ c,
  match c with
  | Send _ d _ => Reply (Z.min 2 (len d)) 0 [] []
  | Getsockopt _ _ _ _ => Reply 0 0 [x00] []
  | _ => Reply 0 0 [] []
  end.

(** A part that the kernel refused is not sent when it is tried again:
    [part_sent] already counts it.  A request of six bytes, split at 2: the
    first [send] answers EAGAIN, [desync] reports 0 bytes; called again, it
    reports all six, but the first two were never accepted. *)
Theorem desync_retry_lost :
  let K : Kernel := busy_kernel in let cm : CharModel := true in
  let w := send_world [Part DESYNC_SPLIT 0 2 1 0] in
  ∃ w1 w2, desync 9 0 0 6 w = Ok ((0, 6, false), w1)
    ∧ desync 9 0 0 6 w1 = Ok ((6, 6, false), w2)
    ∧ accepted 7 (w_trace w2) = bytes_of "cdef"%string.
Proof.
  intros K cm w. eexists _, _. split; [by vm_compute|]. split; by vm_compute.
Qed.

Lemma sample_sending parts : sending sample_frame request [] [] (send_world parts).
Proof.
  split.
  - by eexists.
  - eexists. split_and!; [done|done|]. intros _ H. by apply elem_of_nil in H.
  - by eexists.
  - split; simpl; try done; constructor.
  - done.
Qed.

Lemma open_kernel_ok : let K : Kernel := open_kernel in kernel_ok.
Proof. split; [intros; simpl; lia|done]. Qed.


Lemma desync_rest_lost_witness :
  let K : Kernel := narrow_kernel in let cm : CharModel := true in
  let f := Frame 0 1 7 0 (some_group []) 6 0 0 0 6 in
  wpm (desync_send 9 f no_info) (send_world []) (λ '(r, _) w',
    r = 6 ∧ accepted 7 (w_trace w') = bytes_of "ab"%string).
Proof.
  intros K cm f. eapply wpm_mono.
  - apply (desync_rest_lost 8 f no_info request [] [] (send_world [])); try by vm_compute.
    destruct (sample_sending []) as [H1 H2 H3 H4 H5]. by split.
  - intros [r b] w' (Hr & _ & Ha). split; [done|]. etransitivity; [exact Ha|by vm_compute].
Defined.
