(* ===== verification/Addr.v ===== *)
(** * Addresses on the wire: native/byedpi/proxy.c, lines 58-381, proxy.h

    [union sockaddr_u] is its 28 bytes: family at 0 (host order), port at 2
    (network order), the IPv4 address at 4, the IPv6 address at 8.  The
    proxy protocols' requests and replies (SOCKS4, SOCKS5, HTTP CONNECT, a
    bare TLS hello) are byte strings; a pointer into a buffer is an offset,
    which may lie before its start. *)

From Stdlib Require Import ZArith Lia Bool List.
From Stdlib Require Import Strings.Byte Strings.Ascii Strings.String.
From stdpp Require Import base tactics list numbers option.
From S2P Require Import Prelude CMem Packets MPool World Conev Desync.

Definition SOCK_STREAM : Z := 1.
Definition SOCK_DGRAM : Z := 2.
Definition SOCK_NONBLOCK : Z := 2048.
Definition AF_UNSPEC : Z := 0.
Definition AF_UNIX : Z := 1.
Definition AI_NUMERICHOST : Z := 4.
Definition AI_ADDRCONFIG : Z := 32.
Definition SO_LINGER : Z := 13.

Definition S_AUTH_NONE : Z := 0x00.
Definition S_AUTH_BAD : Z := 0xff.
Definition S_ATP_I4 : Z := 0x01.
Definition S_ATP_ID : Z := 0x03.
Definition S_ATP_I6 : Z := 0x04.
Definition S_CMD_CONN : Z := 0x01.
Definition S_CMD_AUDP : Z := 0x03.
Definition S_ER_OK : Z := 0x00.
Definition S_ER_GEN : Z := 0x01.
Definition S_ER_NET : Z := 0x03.
Definition S_ER_HOST : Z := 0x04.
Definition S_ER_CONN : Z := 0x05.
Definition S_ER_CMD : Z := 0x07.
Definition S_ER_ATP : Z := 0x08.
Definition S4_OK : Z := 0x5a.
Definition S4_ER : Z := 0x5b.
Definition S_VER5 : Z := 0x05.
Definition S_VER4 : Z := 0x04.
Definition S_SIZE_MIN : Z := 8.
Definition S_SIZE_I4 : Z := 10.
Definition S_SIZE_I6 : Z := 22.
Definition S_SIZE_ID : Z := 7.

(** ** Fields of an address *)

Definition sa_family (a : mem) : Z := le_val (slice a 0 2).
Definition sin_port (a : mem) : Z := le_val (slice a 2 2).
Definition sin_addr (a : mem) : mem := slice a 4 4.
Definition sin6_addr (a : mem) : mem := slice a 8 16.

Definition set_family (f : Z) (a : mem) : mem := splice a 0 (le_bytes 2 f).
(** [port] as stored: two bytes *)
Definition set_port (port : mem) (a : mem) : mem := splice a 2 port.
Definition set_addr4 (ip : mem) (a : mem) : mem := splice a 4 ip.
Definition set_addr6 (ip : mem) (a : mem) : mem := splice a 8 ip.
(** the bytes of [htons(port)] *)
Definition htons (port : Z) : mem := [bz (Z.shiftr port 8); bz port].

(** [SA_SIZE] *)
Definition SA_SIZE (a : mem) : Z := if sa_family a =? AF_INET6 then 28 else 16.

(** the words [o64], [o16], [t16], [o32] laid over the IPv6 address *)
Definition map_fix (a : mem) (f6 : bool) : mem :=
  if (sa_family a =? AF_INET) && f6 then
    let a := set_family AF_INET6 a in
    let a := splice a 20 (sin_addr a) in
    let a := splice a 8 (repeat x00 8) in
    let a := splice a 16 [x00; x00] in
    splice a 18 [xff; xff]
  else if (le_val (slice a 8 8) =? 0) && (le_val (slice a 16 2) =? 0)
          && (le_val (slice a 18 2) =? 0xffff) && negb f6 then
    let a := set_family AF_INET a in
    set_addr4 (slice a 20 4) a
  else a.

Definition addr_equ (a b : mem) : bool :=
  if sa_family a =? AF_INET then bool_decide (sin_addr a = sin_addr b)
  else bool_decide (sin6_addr a = sin6_addr b).

Section addr.
Context {K : Kernel} `{cm : CharModel}.
Implicit Types (fd : Z) (m dst addr : mem).

Definition nb_socket (domain type : Z) : M Z :=
  let* fd := sysret (Socket domain (Z.lor type SOCK_NONBLOCK)) in
  if fd <? 0 then ret (-1) else ret fd.

(** [chost] and [len] bytes, at [o] in [m]; the new [*addr] *)
Definition resolve m (o n : Z) addr (type : Z) : M (Z * mem) :=
  let* numeric := par (λ p, negb (p_resolve p)) in
  let flags := if numeric : bool then Z.lor AI_ADDRCONFIG AI_NUMERICHOST else AI_ADDRCONFIG in
  let* ipv6 := par p_ipv6 in
  let* host := lift (bytes_at o n m) in
  let* r := sys (Getaddrinfo (c_string host) (if ipv6 : bool then AF_UNSPEC else AF_INET) type flags) in
  if negb (r_ret r =? 0) || bool_decide (r_data r = []) then ret (-1, addr) else
  let* addr := lift (memcpy addr 0 (r_data r) 0 (SA_SIZE (r_data r))) in
  ret (0, addr).

(** *** Replies *)

(** [buffer[i] == S_AUTH_NONE] for some [i] from 2 *)
Definition auth_method m (n : Z) : res Z :=
  loop (Z.to_nat n) (λ i,
    if i <? n then
      b ← rd m i;
      if zb b =? S_AUTH_NONE then Ok (inr S_AUTH_NONE) else Ok (inl (i + 1))
    else Ok (inr S_AUTH_BAD)) 2.

Definition auth_socks5 fd m (n : Z) : M Z :=
  if n <=? 2 then ret (-1) else
  let* nmethods := lift (rd m 1) in
  if negb (zb nmethods =? n - 2) then ret (-1) else
  let* c := lift (auth_method m n) in
  let* r := sysret (Send fd [bz S_VER5; bz c] 0) in
  if r <? 0 then ret (-1) else
  ret (if negb (c =? S_AUTH_BAD) then 0 else -1).

Definition resp_s5_error fd (e : Z) : M Z :=
  sysret (Send fd ([bz 0x05; bz e; x00; bz S_ATP_I4] ++ repeat x00 6) 0).

Definition http_ok : mem := bytes_of "HTTP/1.1 200 OK" ++ crlf ++ crlf.
Definition http_fail : mem := bytes_of "HTTP/1.1 503 Fail" ++ crlf ++ crlf.

(** the SOCKS5 code of an [errno] *)
Definition s5_code (e : Z) : Z :=
  if e =? 0 then S_ER_OK
  else if e =? ECONNREFUSED then S_ER_CONN
  else if (e =? EHOSTUNREACH) || (e =? ETIMEDOUT) then S_ER_HOST
  else if e =? ENETUNREACH then S_ER_NET
  else S_ER_GEN.

Definition linger : mem := int_bytes 1 ++ int_bytes 0.

Definition resp_error fd (e flag : Z) : M Z :=
  if flag =? FLAG_S4 then
    sysret (Send fd ([x00; bz (if negb (e =? 0) then S4_ER else S4_OK)] ++ repeat x00 6) 0)
  else if flag =? FLAG_S5 then resp_s5_error fd (s5_code e)
  else if flag =? FLAG_HTTP then
    sysret (Send fd (if e =? 0 then http_ok else http_fail) 0)
  else if negb (e =? 0) then
    let* r := setsockopt fd SOL_SOCKET SO_LINGER linger in
    if r <? 0 then ret (-1) else ret 0
  else ret 0.

(** *** Requests: the result and the new [*dst] *)

Definition s4_get_addr m (n : Z) dst : M (Z * mem) :=
  if n <? 9 then ret (-1, dst) else
  let* cmd := lift (rd m 1) in
  if negb (zb cmd =? S_CMD_CONN) then ret (-1, dst) else
  let* port := lift (bytes_at 2 2 m) in
  let* i4 := lift (bytes_at 4 4 m) in
  let* rd4 := (if (le_val (rev i4) <=? 255) then
      let* last := lift (rd m (n - 1)) in
      let* ok := par p_resolve in
      if negb ok || negb (zb last =? 0) then ret (-1, dst) else
      let* id_end := lift (memchr m 8 0 (len m)) in
      match id_end with
      | None => ret (-1, dst)
      | Some id_end =>
          let l := n - id_end - 2 in
          if (l <? 3) || (255 <? l) then ret (-1, dst) else
          let* r := resolve m (id_end + 1) l dst SOCK_STREAM in
          if negb (r.1 =? 0) then ret (-1, r.2) else ret (0, r.2)
      end
    else ret (0, set_addr4 i4 (set_family AF_INET dst))) in
  if rd4.1 <? 0 then ret rd4 else ret (0, set_port port rd4.2).

(** the length of a request of type [atp] *)
Definition s5_size m (o atp : Z) : res Z :=
  if atp =? S_ATP_I4 then Ok S_SIZE_I4
  else if atp =? S_ATP_ID then l ← rd m (o + 4); Ok (zb l + S_SIZE_ID)
  else if atp =? S_ATP_I6 then Ok S_SIZE_I6
  else Ok 0.

(** the request is at [m + o] *)
Definition s5_get_addr m (o n : Z) addr (type : Z) : M (Z * mem) :=
  if n <? S_SIZE_MIN then ret (- S_ER_GEN, addr) else
  let* atp := lift (rd m (o + 3)) in
  let* size := lift (s5_size m o (zb atp)) in
  if n <? size then ret (- S_ER_GEN, addr) else
  let* ra := (
    if zb atp =? S_ATP_I4 then
      let* ip := lift (bytes_at (o + 4) 4 m) in
      ret (0, set_addr4 ip (set_family AF_INET addr))
    else if zb atp =? S_ATP_ID then
      let* ok := par p_resolve in
      if negb ok then ret (- S_ER_ATP, addr) else
      let* l := lift (rd m (o + 4)) in
      if zb l <? 3 then ret (- S_ER_HOST, addr) else
      let* r := resolve m (o + 5) (zb l) addr type in
      if negb (r.1 =? 0) then ret (- S_ER_HOST, r.2) else ret (0, r.2)
    else if zb atp =? S_ATP_I6 then
      let* ok := par p_ipv6 in
      if negb ok then ret (- S_ER_ATP, addr) else
      let* ip := lift (bytes_at (o + 4) 16 m) in
      ret (0, set_addr6 ip (set_family AF_INET6 addr))
    else ret (0, addr)) in
  if ra.1 <? 0 then ret ra else
  let* port := lift (bytes_at (o + size - 2) 2 m) in
  ret (size, set_port port ra.2).

(** the address written at [m + o], or so that it ends there ([end]) *)
Definition s5_set_addr m (o n : Z) addr (at_end : bool) : res (Z * mem) :=
  if n <? S_SIZE_I4 then Ok (-1, m) else
  if sa_family addr =? AF_INET then
    let r := if at_end then o - S_SIZE_I4 else o in
    m ← wr m (r + 3) S_ATP_I4;
    m ← memcpy m (r + 4) (sin_addr addr ++ slice addr 2 2) 0 6;
    Ok (S_SIZE_I4, m)
  else
    if n <? S_SIZE_I6 then Ok (-1, m) else
    let r := if at_end then o - S_SIZE_I6 else o in
    m ← wr m (r + 3) S_ATP_I6;
    m ← memcpy m (r + 4) (sin6_addr addr ++ slice addr 2 2) 0 18;
    Ok (S_SIZE_I6, m).

Definition http_get_addr m (n : Z) dst : M (Z * mem) :=
  let* hp := lift (parse_http m n true) in
  let '(host_len, host, port) := hp in
  if (host_len <? 3) || (255 <? host_len) then ret (-1, dst) else
  let* host := deref host in
  let* r := resolve m host host_len dst SOCK_STREAM in
  if negb (r.1 =? 0) then ret (-1, r.2) else
  ret (0, set_port (htons (match port with Some p => p | None => 0 end)) r.2).

Definition tls_get_addr m (n : Z) dst : M (Z * mem) :=
  let* hl := lift (parse_tls m n) in
  let '(host_len, host) := hl in
  if (host_len <? 3) || (255 <? host_len) then ret (-1, dst) else
  let* ok := par p_resolve in
  let* r := (if ok : bool then
      let* host := deref host in resolve m host host_len dst SOCK_STREAM
    else ret (0, dst)) in
  if negb (r.1 =? 0) then ret (-1, r.2) else
  ret (0, set_port (htons 443) r.2).
End addr.
