(* ===== verification/AddrSpec.v ===== *)
(** * Addresses: round trips and limits

    [s5_set_addr] and [s5_get_addr] are inverse, wherever in a buffer the
    request lies; [map_fix] takes an IPv4 address into its IPv6 form and
    back; a SOCKS5 request of an unknown address type is read before its
    start. *)

From Stdlib Require Import ZArith Lia Bool List.
From Stdlib Require Import Strings.Byte.
From stdpp Require Import base tactics list numbers option.
From S2P Require Import Prelude CMem Packets MPool World Conev Desync Addr.

(** two addresses that name the same end point *)
Definition same_addr (a b : mem) : Prop :=
  sa_family a = sa_family b ∧ slice a 2 2 = slice b 2 2
  ∧ (if sa_family a =? AF_INET then sin_addr a = sin_addr b else sin6_addr a = sin6_addr b).

(** the length of the SOCKS5 form of an address *)
Definition s5_len (a : mem) : Z := if sa_family a =? AF_INET then S_SIZE_I4 else S_SIZE_I6.

(** *** Slices of a spliced memory *)

Lemma slice_splice_in m i bs j k :
  0 <= i <= len m → 0 <= j → 0 <= k → j + k <= len bs →
  slice (splice m i bs) (i + j) k = slice bs j k.
Proof.
  unfold slice, splice, len. intros Hi Hj Hk Hb.
  rewrite drop_app_ge by (rewrite length_take; lia). rewrite length_take.
  replace (Z.to_nat (i + j) - Z.to_nat i `min` length m)%nat with (Z.to_nat j) by lia.
  rewrite drop_app_le by lia. rewrite take_app_le by (rewrite length_drop; lia). done.
Qed.

Lemma slice_splice_here m i bs k :
  0 <= i <= len m → 0 <= k <= len bs → slice (splice m i bs) i k = slice bs 0 k.
Proof. intros. rewrite <- (Z.add_0_r i) at 2. apply slice_splice_in; lia. Qed.

Lemma slice_splice_before m i bs j k :
  0 <= j → 0 <= k → j + k <= i → i <= len m → slice (splice m i bs) j k = slice m j k.
Proof.
  unfold slice, splice, len. intros Hj Hk Hjk Hi.
  rewrite drop_app_le by (rewrite length_take; lia).
  rewrite take_app_le by (rewrite length_drop, length_take; lia).
  rewrite skipn_firstn_comm, take_take. f_equal. lia.
Qed.

Lemma slice_splice_after m i bs j k :
  0 <= i → i + len bs <= j → i + len bs <= len m → slice (splice m i bs) j k = slice m j k.
Proof.
  unfold slice, splice, len. intros Hi Hj Hm. f_equal.
  rewrite app_assoc, drop_app_ge by (rewrite length_app, length_take; lia).
  rewrite length_app, length_take, drop_drop. f_equal. lia.
Qed.


Lemma slice_all_n m n : len m = n → slice m 0 n = m.
Proof. intros <-. apply slice_all. Qed.

(** *** The fields of an address that was written *)

Section fields.
Context (d ip port : mem) (Hd : len d = 28) (Hp : len port = 2).

Lemma wrote4 : len ip = 4 →
  let a := set_port port (set_addr4 ip (set_family AF_INET d)) in
  sa_family a = AF_INET ∧ slice a 2 2 = port ∧ sin_addr a = ip.
Proof.
  intros Hi a. unfold a, set_port, set_addr4, set_family, sa_family, sin_addr.
  set (f := splice d 0 _).
  assert (Hf : len f = 28) by (unfold f; rewrite len_splice; [done|lia|]; change (len (le_bytes 2 AF_INET)) with 2; lia).
  assert (Hg : len (splice f 4 ip) = 28) by (rewrite len_splice; lia).
  split_and!.
  - rewrite slice_splice_before by lia. rewrite slice_splice_before by lia.
    unfold f. rewrite slice_splice_here by (change (len (le_bytes 2 AF_INET)) with 2; lia). done.
  - rewrite slice_splice_here by lia. by apply slice_all_n.
  - rewrite slice_splice_after by lia. rewrite slice_splice_here by lia. by apply slice_all_n.
Qed.

Lemma wrote6 : len ip = 16 →
  let a := set_port port (set_addr6 ip (set_family AF_INET6 d)) in
  sa_family a = AF_INET6 ∧ slice a 2 2 = port ∧ sin6_addr a = ip.
Proof.
  intros Hi a. unfold a, set_port, set_addr6, set_family, sa_family, sin6_addr.
  set (f := splice d 0 _).
  assert (Hf : len f = 28) by (unfold f; rewrite len_splice; [done|lia|]; change (len (le_bytes 2 AF_INET6)) with 2; lia).
  assert (Hg : len (splice f 8 ip) = 28) by (rewrite len_splice; lia).
  split_and!.
  - rewrite slice_splice_before by lia. rewrite slice_splice_before by lia.
    unfold f. rewrite slice_splice_here by (change (len (le_bytes 2 AF_INET6)) with 2; lia). done.
  - rewrite slice_splice_here by lia. by apply slice_all_n.
  - rewrite slice_splice_after by lia. rewrite slice_splice_here by lia. by apply slice_all_n.
Qed.
End fields.

(** *** Writing a request, and reading it back *)

(** [type] and [body] at [m + r] *)
Lemma s5_write m r type body k :
  0 <= r → r + 4 + k <= len m → len body = k → 0 <= type < 256 →
  ∃ m', (m1 ← wr m (r + 3) type; memcpy m1 (r + 4) body 0 k) = Ok m'
    ∧ len m' = len m ∧ rd m' (r + 3) = Ok (bz type)
    ∧ (∀ j n, 0 <= j → 0 <= n → j + n <= k → slice m' (r + 4 + j) n = slice body j n)
    ∧ (∀ i, i < r + 3 ∨ r + 4 + k <= i → rd m' i = rd m i).
Proof.
  intros Hr Hm Hb Ht. pose proof (len_nonneg body) as Hk.
  set (m1 := <[Z.to_nat (r + 3) := bz type]> m).
  assert (Hl1 : len m1 = len m) by apply len_insert.
  exists (splice m1 (r + 4) body).
  assert (E : wr m (r + 3) type = Ok m1).
  { unfold wr. by rewrite (proj2 (Z.leb_le _ _)), (proj2 (Z.ltb_lt _ _)) by lia. }
  rewrite E, bind_Ok. split.
  { rewrite memcpy_ok by lia. by rewrite slice_all_n. }
  split_and!.
  - rewrite len_splice by lia. done.
  - rewrite rd_splice_lt by lia. unfold m1. apply rd_insert_eq. lia.
  - intros j n Hj Hn Hjn. apply slice_splice_in; lia.
  - intros i Hi. destruct Hi as [Hi|Hi].
    + rewrite rd_splice_lt by lia. unfold m1. apply rd_insert_ne; lia.
    + rewrite rd_splice_ge by lia. unfold m1. apply rd_insert_ne; lia.
Qed.

(** [s5_get_addr] reads back the address [s5_set_addr] wrote, at any place
    of a buffer and for both families: [s5_set_addr] stays inside the bytes
    of the request (from its start, or ending at the given place), leaves the
    first three for the caller, and the address read has the same family,
    port and IP. *)
Theorem s5_addr_roundtrip `{K : Kernel} `{cm : CharModel} (m addr dst : mem) (o n k type : Z)
    (at_end : bool) (w : world) :
  let r := if at_end then o - s5_len addr else o in
  len addr = 28 → len dst = 28 → sa_family addr = AF_INET ∨ sa_family addr = AF_INET6 →
  s5_len addr <= n → s5_len addr <= k → 0 <= r → r + s5_len addr <= len m →
  p_ipv6 (w_params w) = true →
  ∃ m' dst', s5_set_addr m o n addr at_end = Ok (s5_len addr, m')
    ∧ len m' = len m
    ∧ (∀ i, i < r + 3 ∨ r + s5_len addr <= i → rd m' i = rd m i)
    ∧ s5_get_addr m' r k dst type w = Ok ((s5_len addr, dst'), w)
    ∧ same_addr addr dst'.
Proof.
  intros r Ha Hd Hf Hn Hk Hr Hm Hv6.
  assert (Hport : len (slice addr 2 2) = 2) by (apply len_slice; lia).
  assert (Hip4 : len (sin_addr addr) = 4) by (apply len_slice; lia).
  assert (Hip6 : len (sin6_addr addr) = 16) by (apply len_slice; lia).
  unfold s5_set_addr, s5_get_addr, s5_len in *.
  destruct (Z.eqb_spec (sa_family addr) AF_INET) as [E4|N4].
  - rewrite (proj2 (Z.ltb_ge _ _)) by (unfold S_SIZE_I4 in *; lia).
    fold r. destruct (s5_write m r S_ATP_I4 (sin_addr addr ++ slice addr 2 2) 6)
      as (m' & Em & Hl & Ht & Hs & Hout);
      [done|unfold S_SIZE_I4 in *; lia|rewrite len_app; lia|unfold S_ATP_I4; lia|].
    apply bind_ok in Em as (m1 & E1 & E2). rewrite E1, bind_Ok, E2, bind_Ok.
    eexists m', _. split; [done|]. split; [done|]. split.
    { intros i Hi. apply Hout. unfold S_SIZE_I4 in *. lia. }
    rewrite (proj2 (Z.ltb_ge _ _)) by (unfold S_SIZE_I4, S_SIZE_MIN in *; lia).
    unfold lift. rewrite Ht. unfold mbind at 1. do 2 bstep.
    change (zb (bz S_ATP_I4)) with 1. change (s5_size m' r 1) with (Ok S_SIZE_I4).
    unfold mbind at 1. do 2 bstep. rewrite (proj2 (Z.ltb_ge _ _)) by done.
    change (1 =? S_ATP_I4) with true. cbv iota.
    unfold S_SIZE_I4 in *. rewrite !bytes_at_ok by lia.
    replace (r + 10 - 2) with (r + 4 + 4) by lia. rewrite (Hs 4 2) by lia.
    replace (slice m' (r + 4) 4) with (slice m' (r + 4 + 0) 4) by (f_equal; lia). rewrite (Hs 0 4) by lia.
    rewrite slice_app_l, slice_app_r by lia. rewrite (slice_all_n (sin_addr addr)) by done.
    replace (4 - len (sin_addr addr)) with 0 by lia. rewrite slice_all_n by done.
    split; [reflexivity|].
    destruct (wrote4 dst (sin_addr addr) (slice addr 2 2) Hd Hport Hip4) as (W1 & W2 & W3).
    cbn [snd]. split; [congruence|]. split; [by rewrite W2|].
    rewrite E4. change (AF_INET =? AF_INET) with true. by rewrite W3.
  - assert (E6 : sa_family addr = AF_INET6) by (by destruct Hf).
    rewrite !(proj2 (Z.ltb_ge n _)) by (unfold S_SIZE_I4, S_SIZE_I6 in *; lia).
    fold r. destruct (s5_write m r S_ATP_I6 (sin6_addr addr ++ slice addr 2 2) 18)
      as (m' & Em & Hl & Ht & Hs & Hout);
      [done|unfold S_SIZE_I6 in *; lia|rewrite len_app; lia|unfold S_ATP_I6; lia|].
    apply bind_ok in Em as (m1 & E1 & E2). rewrite E1, bind_Ok, E2, bind_Ok.
    eexists m', _. split; [done|]. split; [done|]. split.
    { intros i Hi. apply Hout. unfold S_SIZE_I6 in *. lia. }
    rewrite (proj2 (Z.ltb_ge _ _)) by (unfold S_SIZE_I6, S_SIZE_MIN in *; lia).
    unfold lift. rewrite Ht. unfold mbind at 1. do 2 bstep.
    change (zb (bz S_ATP_I6)) with 4. change (s5_size m' r 4) with (Ok S_SIZE_I6).
    unfold mbind at 1. do 2 bstep. rewrite (proj2 (Z.ltb_ge _ _)) by done.
    change (4 =? S_ATP_I4) with false. change (4 =? S_ATP_ID) with false.
    change (4 =? S_ATP_I6) with true. cbv iota. mrun. rewrite Hv6. cbn [negb].
    unfold S_SIZE_I6 in *. rewrite !bytes_at_ok by lia.
    replace (r + 22 - 2) with (r + 4 + 16) by lia. rewrite (Hs 16 2) by lia.
    replace (slice m' (r + 4) 16) with (slice m' (r + 4 + 0) 16) by (f_equal; lia). rewrite (Hs 0 16) by lia.
    rewrite slice_app_l, slice_app_r by lia. rewrite (slice_all_n (sin6_addr addr)) by done.
    replace (16 - len (sin6_addr addr)) with 0 by lia. rewrite slice_all_n by done.
    split; [reflexivity|].
    destruct (wrote6 dst (sin6_addr addr) (slice addr 2 2) Hd Hport Hip6) as (W1 & W2 & W3).
    cbn [snd]. split; [congruence|]. split; [by rewrite W2|].
    rewrite E6. change (AF_INET6 =? AF_INET) with false. by rewrite W3.
Qed.

(** 28 bytes, one by one *)
Lemma len_28 (m : mem) : len m = 28 → ∃ b0 b1 b2 b3 b4 b5 b6 b7 b8 b9 b10 b11 b12 b13 b14 b15 b16
  b17 b18 b19 b20 b21 b22 b23 b24 b25 b26 b27,
  m = [b0; b1; b2; b3; b4; b5; b6; b7; b8; b9; b10; b11; b12; b13; b14; b15; b16; b17; b18; b19;
       b20; b21; b22; b23; b24; b25; b26; b27].
Proof.
  unfold len. intros H. do 28 (destruct m as [|? m]; [simpl in H; lia|]).
  destruct m; [|simpl in H; lia]. by repeat eexists.
Qed.

Lemma le_val_nonneg m : 0 <= le_val m.
Proof. induction m as [|b m IH]; simpl; [lia|]. pose proof (zb_range b). lia. Qed.

Lemma le_val_0 m : le_val m = 0 → m = repeat x00 (length m).
Proof.
  induction m as [|b m IH]; [done|]. cbn [le_val length repeat]. intros H.
  pose proof (zb_range b). pose proof (le_val_nonneg m). f_equal; [|apply IH; lia].
  apply zb_inj. change (zb x00) with 0. lia.
Qed.

Lemma le_val_ffff m : length m = 2%nat → le_val m = 0xffff → m = [xff; xff].
Proof.
  intros Hl H. destruct m as [|a [|b [|? ?]]]; try done. cbn [le_val] in H.
  pose proof (zb_range a). pose proof (zb_range b).
  f_equal; [|f_equal]; apply zb_inj; change (zb xff) with 255; lia.
Qed.

(** [map_fix(addr, 6)] turns an IPv4 address into ::ffff:a.b.c.d with the
    same port, and [map_fix(addr, 0)] turns it back; an IPv6 address is left
    alone by the first, and by the second unless it has that form. *)
Theorem map_fix_roundtrip (a : mem) :
  len a = 28 →
  (sa_family a = AF_INET →
    sa_family (map_fix a true) = AF_INET6
    ∧ sin6_addr (map_fix a true) = repeat x00 10 ++ [xff; xff] ++ sin_addr a
    ∧ same_addr a (map_fix (map_fix a true) false))
  ∧ (sa_family a = AF_INET6 →
    map_fix a true = a
    ∧ (slice a 8 12 ≠ repeat x00 10 ++ [xff; xff] → map_fix a false = a)).
Proof.
  intros Hl. destruct (len_28 a Hl) as (b0 & b1 & b2 & b3 & b4 & b5 & b6 & b7 & b8 & b9 & b10 & b11
    & b12 & b13 & b14 & b15 & b16 & b17 & b18 & b19 & b20 & b21 & b22 & b23 & b24 & b25 & b26 & b27 & ->).
  split; intros Hf.
  - unfold map_fix. rewrite Hf. change (AF_INET =? AF_INET) with true. cbn [andb].
    split_and!; [reflexivity..|].
    split; [exact Hf|]. split; [reflexivity|]. by rewrite Hf.
  - unfold map_fix. rewrite Hf. change (AF_INET6 =? AF_INET) with false. cbn [andb negb].
    split; [by rewrite andb_false_r|]. intros Hne. case_match eqn:E; [|done]. exfalso. apply Hne.
    rewrite !andb_true_iff, !Z.eqb_eq in E. destruct E as [[[E1 E2] E3] _].
    apply le_val_0 in E1, E2. apply le_val_ffff in E3; [|reflexivity].
    set (m := [b0; b1; b2; b3; b4; b5; b6; b7; b8; b9; b10; b11; b12; b13; b14; b15; b16; b17; b18; b19;
       b20; b21; b22; b23; b24; b25; b26; b27]) in *.
    change 12 with (8 + (2 + 2)). rewrite !slice_split by lia. change (8 + 8) with 16.
    change (16 + 2) with 18. rewrite E1, E2, E3. reflexivity.
Qed.

(** A SOCKS5 request whose address type is none of the three is not
    refused: its length is taken to be 0, and the port is read two bytes
    before the request. *)
Theorem s5_get_addr_unknown_type `{K : Kernel} `{cm : CharModel} (m dst : mem) (n type : Z) (w : world)
    (atp : byte) :
  8 <= n → rd m 3 = Ok atp → zb atp ∉ [S_ATP_I4; S_ATP_ID; S_ATP_I6] →
  s5_get_addr m 0 n dst type w = UB.
Proof.
  intros Hn Hr Ha. apply not_elem_of_cons in Ha as [H1 Ha]. apply not_elem_of_cons in Ha as [H2 Ha].
  apply not_elem_of_cons in Ha as [H3 _]. apply Z.eqb_neq in H1, H2, H3.
  unfold s5_get_addr, S_SIZE_MIN. rewrite (proj2 (Z.ltb_ge _ _)) by lia.
  unfold lift. change (0 + 3) with 3. rewrite Hr. unfold mbind at 1. do 2 bstep. unfold s5_size. rewrite H1, H2, H3.
  unfold mbind at 1. do 2 bstep. by rewrite (proj2 (Z.ltb_ge _ _)) by lia.
Qed.

(** 192.0.2.7:443 *)
Definition addr4 : mem :=
  [x02; x00; x01; xbb; xc0; x00; x02; x07] ++ repeat x00 20.

Lemma s5_addr_roundtrip_witness :
  let K : Kernel := quiet_kernel in let cm : CharModel := true in
  ∃ m' dst', s5_set_addr (repeat x00 40) 22 22 addr4 true = Ok (10, m')
    ∧ s5_get_addr m' 12 18 zero_addr SOCK_DGRAM (sample_world empty_pool) = Ok ((10, dst'), sample_world empty_pool)
    ∧ same_addr addr4 dst'.
Proof.
  intros K cm.
  destruct (s5_addr_roundtrip (repeat x00 40) addr4 zero_addr 22 22 18 SOCK_DGRAM true
              (sample_world empty_pool)) as (m' & dst' & H1 & _ & _ & H2 & H3);
    try by vm_compute; try by left.
  by exists m', dst'.
Defined.

Lemma map_fix_roundtrip_witness :
  sin6_addr (map_fix addr4 true) = repeat x00 10 ++ [xff; xff; xc0; x00; x02; x07].
Proof.
  destruct (map_fix_roundtrip addr4 eq_refl) as [H _]. destruct (H eq_refl) as (_ & E & _). exact E.
Defined.

Lemma s5_get_addr_unknown_type_witness :
  let K : Kernel := quiet_kernel in let cm : CharModel := true in
  s5_get_addr [x05; x01; x00; x02; x00; x00; x00; x00] 0 8 zero_addr SOCK_STREAM
    (sample_world empty_pool) = UB.
Proof.
  intros K cm. apply (s5_get_addr_unknown_type _ _ _ _ _ x02); [done|done|].
  intros H. by repeat (apply elem_of_cons in H as [H|H]; [by vm_compute in H|]); apply elem_of_nil in H.
Defined.
