(* ===== verification/Groups.v ===== *)
(** * Desync groups: native/byedpi/extend.c, lines 49-135, 224-339, 557-581

    The groups are a doubly linked list through [w_dps].  [find_dp] picks the
    group of a connection, [swop_groups] exchanges two of them, and the cache
    remembers which groups failed for an address. *)

From Stdlib Require Import ZArith Lia Bool List.
From Stdlib Require Import Strings.Byte.
From stdpp Require Import base tactics list numbers option.
From S2P Require Import Prelude CMem Packets MPool World Conev Desync Addr.

Section groups.
Context {K : Kernel} `{cm : CharModel}.
Implicit Types (d : nat) (dst key : mem).

(** *** The cache *)

(** the key of an address, and its length in bytes *)
Definition serialize_addr dst : mem * Z :=
  let head := slice dst 0 2 ++ slice dst 2 2 in
  if sa_family dst =? AF_INET then (head ++ sin_addr dst, KEY_IP + 4)
  else (head ++ sin6_addr dst, KEY_IP + 16).

(** the number of leading bits two keys share; 8 more than they have if
    they are equal *)
Definition eq_bitlen (a b : mem) (n : Z) : res Z :=
  by_ ← loop (Datatypes.S (Z.to_nat n)) (λ by_,
    if by_ <? n then
      x ← rd a by_; y ← rd b by_;
      if chr x =? chr y then Ok (inl (by_ + 1)) else Ok (inr by_)
    else Ok (inr by_)) 0;
  bi ← (if negb (by_ =? n) then
      x ← rd a by_; y ← rd b by_;
      loop 9 (λ bi,
        if (bi <? 8) && negb (Z.shiftr (chr x) bi =? Z.shiftr (chr y) bi)
        then Ok (inl (bi + 1)) else Ok (inr bi)) 0
    else Ok 0);
  Ok (by_ * 8 + 8 - bi).

Definition pool_lookup (key : mem) (bits : Z) : M (option elem) :=
  let* hdr := par p_mempool in lift (mem_get hdr key bits).

Definition pool_delete (key : mem) (bits : Z) : M unit :=
  let* hdr := par p_mempool in
  let* hf := lift (mem_delete hdr key bits) in
  par_set (λ p, p <| p_mempool := hf.1 |>).

Definition pool_add (fuel : nat) (key : mem) (bits : Z) : M (option elem) :=
  let* ok := malloc A_ELEM in
  let* hdr := par p_mempool in
  let* hvf := lift (mem_add fuel ok hdr key bits) in
  par_set (λ p, p <| p_mempool := hvf.1.1 |>) ;;;
  ret hvf.1.2.

(** [v->field = ...] for an element of the pool; the element now *)
Definition pool_write (v : elem) (f : elem → elem) : M elem :=
  let* hdr := par p_mempool in
  let* hdr := lift (elem_write hdr v f) in
  par_set (λ p, p <| p_mempool := hdr |>) ;;;
  ret (f v).

Definition cache_get dst : M (option elem) :=
  let '(key, len) := serialize_addr dst in
  let* val := pool_lookup key (len * 8) in
  match val with
  | None => ret None
  | Some val =>
      let* d := deref (el_dp val) in
      let* dp := dpg d in
      let* t := sysret Time in
      if negb (d_cache_ttl dp =? 0) && (el_time val + d_cache_ttl dp <? t) then
        pool_delete key len ;;; ret None
      else ret (Some val)
  end.

(** the element, and what is left of [*host] *)
Definition cache_add (fuel : nat) dst (host : option mem) (host_len : Z)
  : M (option elem * option mem) :=
  let '(key, bytes) := serialize_addr dst in
  let* t := sysret Time in
  let* pre := par p_cache_pre in
  let* cmp_len := (if (sa_family dst =? AF_INET) && negb (pre =? 0) then
      let* val := pool_lookup key (bytes * 8 - pre) in
      match val with
      | Some v => lift (eq_bitlen key (el_data v) bytes)
      | None => ret (bytes * 8)
      end
    else ret (bytes * 8)) in
  let* ok := malloc (A_BYTES bytes) in
  if negb ok then ret (None, host) else
  let* val := pool_add fuel key cmp_len in
  match val with
  | None => ret (None, host)
  | Some v =>
      let* v := pool_write v (λ v, v <| el_time := t |>) in
      match el_extra v, host with
      | None, Some h =>
          let* v := pool_write v (λ v, v <| el_extra_len := u32 host_len |>
                                         <| el_extra := Some h |>) in
          ret (Some v, None)
      | _, _ => ret (Some v, host)
      end
  end.

(** *** Conditions of a group *)

(** [n] bytes of [m] *)
Definition check_host (hosts : mphdr) (m : mem) (n : Z) : res bool :=
  '(l, host) ← parse_tls m n;
  '(l, host) ← (if l =? 0 then '(l, h, _) ← parse_http m n false;
                  Ok (l, match h with Some o => Some o | None => host end)
                else Ok (l, host));
  if negb ((l =? 0) || bool_decide (is_Some host)) then UB else
  if l <=? 0 then Ok false else
  match host with
  | None => UB
  | Some o =>
      v ← mem_get hosts (drop (Z.to_nat o) m) l;
      Ok (match v with Some v => el_len v <=? l | None => false end)
  end.

Definition check_ip (ipset : mphdr) dst : res bool :=
  let '(data, len) := if sa_family dst =? AF_INET6 then (sin6_addr dst, 16)
                      else (sin_addr dst, 4) in
  v ← mem_get ipset data (len * 8);
  Ok (bool_decide (is_Some v)).

Definition check_proto_tcp (proto : Z) (m : mem) (n : Z) : res bool :=
  if Z.land proto (Z.lnot IS_IPV4) =? 0 then Ok true else
  http ← (if has proto IS_HTTP then is_http m n else Ok false);
  if http : bool then Ok true else
  if has proto IS_HTTPS then is_tls_chello m n else Ok false.

Definition mapped_prefix : mem := repeat x00 10 ++ [xff; xff].

(** ports are compared as stored in memory *)
Definition check_l34 (dp : desync_params) (st : Z) dst : res bool :=
  if has (d_proto dp) IS_UDP && negb (st =? SOCK_DGRAM) then Ok false else
  if has (d_proto dp) IS_TCP && negb (st =? SOCK_STREAM) then Ok false else
  if has (d_proto dp) IS_IPV4 && negb (sa_family dst =? AF_INET)
     && negb (bool_decide (slice dst 8 12 = mapped_prefix)) then Ok false else
  if negb ((d_pf dp).1 =? 0)
     && ((sin_port dst <? (d_pf dp).1) || ((d_pf dp).2 <? sin_port dst)) then Ok false else
  match d_ipset dp with
  | Some ipset => b ← check_ip ipset dst; Ok b
  | None => Ok true
  end.

Definition check_round (nr : Z * Z) (r : Z) : bool :=
  ((nr.2 =? 0) && (r <=? 1)) || ((nr.1 <=? r) && (r <=? nr.2)).

(** *** The list of groups *)

(** [p->field = ...] through a pointer *)
Definition dp_put (p : option nat) (f : desync_params → desync_params) : M unit :=
  let* d := deref p in dp_set d f.

Definition swop_groups (dpc dpn : nat) : M unit :=
  let* c := dpg dpc in
  let* n := dpg dpn in
  dp_set dpc (λ g, g <| d_next := d_next n |> <| d_prev := d_prev n |>) ;;;
  dp_set dpn (λ g, g <| d_prev := d_prev c |>) ;;;
  dp_set dpn (λ g, g <| d_next := d_next c |>) ;;;
  let* n := dpg dpn in
  (match d_prev n with Some p => dp_set p (λ g, g <| d_next := Some dpn |>) | None => ret tt end) ;;;
  let* c' := dpg dpc in
  (match d_next c' with Some x => dp_set x (λ g, g <| d_prev := Some dpc |>) | None => ret tt end) ;;;
  (if decide (d_next c ≠ Some dpn) then
     let* n := dpg dpn in
     dp_put (d_next n) (λ g, g <| d_prev := Some dpn |>) ;;;
     let* c' := dpg dpc in
     dp_put (d_prev c') (λ g, g <| d_next := Some dpc |>)
   else
     dp_set dpc (λ g, g <| d_prev := Some dpn |>) ;;;
     dp_set dpn (λ g, g <| d_next := Some dpc |>)) ;;;
  let* n := dpg dpn in
  dp_set dpc (λ g, g <| d_detect := d_detect n |> <| d_auto_level := d_auto_level n |>) ;;;
  dp_set dpn (λ g, g <| d_detect := d_detect c |> <| d_auto_level := d_auto_level c |>) ;;;
  par_set (λ p, if decide (p_dp p = Some dpc) then p <| p_dp := Some dpn |> else p).

(** the conditions of [find_dp] for a group that is not masked; [data]: the
    bytes of the first request, if there are any *)
Definition dp_fits (client : nat) (init_dp : option nat) (data : option (mem * Z)) dst
    (d : nat) (dp : desync_params) : M bool :=
  let* cl := ev client in
  if negb (bool_decide (init_dp = Some d) || (d_detect dp =? 0) || has (e_detect cl) (d_detect dp))
  then ret false else
  let* l34 := lift (check_l34 dp SOCK_STREAM dst) in
  if negb l34 then ret false else
  let* proto := (match data with
    | Some (m, n) => if d_proto dp =? 0 then ret true else lift (check_proto_tcp (d_proto dp) m n)
    | None => ret true end) in
  if negb proto then ret false else
  match d_hosts dp, data with
  | Some hosts, Some (m, n) => lift (check_host hosts m n)
  | _, _ => ret true
  end.

(** one iteration, from the group [dp] *)
Definition find_dp_step (client : nat) (init_dp : option nat) (data : option (mem * Z)) dst
    (dp : option nat) : M (option nat + option nat) :=
  let* head := par p_dp in
  let dp := match dp with Some d => Some d | None => head end in
  let* full := par p_dp_full_mask in
  let* cl := ev client in
  if e_dp_mask cl =? full then ret (inr None) else
  let* d := deref dp in
  let* g := dpg d in
  let* fits := (if has (d_bit g) (e_dp_mask cl) then ret false
                else dp_fits client init_dp data dst d g) in
  if fits : bool then ret (inr (Some d)) else
  ev_set client (λ c, c <| e_dp_mask := Z.lor (e_dp_mask c) (d_bit g) |>) ;;;
  ret (inl (d_next g)).

Definition find_dp (fuel : nat) (client : nat) (buff : option (mem * Z)) dst : M (option nat) :=
  let* cl := ev client in
  let* data := (match buff, e_buff cl with
    | None, Some b => let* x := buf b in ret (Some (b_data x, b_lock x))
    | _, _ => ret buff
    end) in
  mloop fuel (find_dp_step client (e_dp cl) data dst) (e_dp cl).
End groups.
