(* ===== verification/GroupsSpec.v ===== *)
(** * Choosing and exchanging groups

    [find_dp] ends and answers the first group, in the order of the list from
    the connection's own group on and round, that has not failed and fits
    ([find_dp_first]). *)

From Stdlib Require Import ZArith Lia Bool List.
From Stdlib Require Import Strings.Byte.
From stdpp Require Import base tactics list numbers option sets.
From S2P Require Import Prelude CMem Packets MPool World Conev ConevTimers Desync DesyncSpec Addr Groups.

Lemma alter_same {A} (f g : A → A) i (l : list A) x :
  l !! i = Some x → f x = g x → alter f i l = alter g i l.
Proof.
  intros Hx Hf. apply list_eq. intros j. rewrite !list_lookup_alter. case_decide; [subst|done].
  rewrite Hx. simpl. by rewrite Hf.
Qed.
Lemma alter_fix {A} (f : A → A) i (l : list A) x : l !! i = Some x → f x = x → alter f i l = l.
Proof.
  intros Hx Hf. apply list_eq. intros j. rewrite list_lookup_alter. case_decide; [subst|done].
  rewrite Hx. simpl. by rewrite Hf.
Qed.

(** ** The list of groups *)

(** [l] is linked by [next] in [dps] and ends the list *)
Fixpoint next_list (dps : list desync_params) (l : list nat) : Prop :=
  match l with
  | [] => True
  | d :: l => (∃ g, dps !! d = Some g ∧ d_next g = head l) ∧ next_list dps l
  end.

Lemma next_list_app dps l1 l2 : next_list dps (l1 ++ l2) → next_list dps l2.
Proof. induction l1 as [|d l1 IH]; simpl; [done|]. intros [_ H]. by apply IH. Qed.

Definition bit_of (dps : list desync_params) (d : nat) : Z :=
  match dps !! d with Some g => d_bit g | None => 0 end.

(** a group's bit: one bit, its own *)
Record group_bits (dps : list desync_params) (l : list nat) (full : Z) (k : nat → Z) : Prop := BitsOk {
  bo_pow : ∀ d, d ∈ l → 0 <= k d ∧ bit_of dps d = 2 ^ k d;
  bo_inj : ∀ d d', d ∈ l → d' ∈ l → k d = k d' → d = d';
  bo_full : ∀ i, Z.testbit full i = true ↔ ∃ d, d ∈ l ∧ k d = i
}.

Lemma has_pow2 m k : 0 <= k → has (2 ^ k) m = Z.testbit m k.
Proof.
  intros Hk. unfold has. rewrite Z.land_comm. destruct (Z.testbit m k) eqn:E.
  - apply negb_true_iff, Z.eqb_neq. intros H. apply (f_equal (λ z, Z.testbit z k)) in H.
    rewrite Z.land_spec, Z.pow2_bits_true, E in H by done. by rewrite Z.bits_0 in H.
  - apply negb_false_iff, Z.eqb_eq. apply Z.bits_inj_0. intros i. rewrite Z.land_spec.
    destruct (Z.eq_dec i k) as [->|Hne]; [by rewrite E|].
    by rewrite Z.pow2_bits_false, andb_false_r by congruence.
Qed.

(** ** [find_dp] *)

Section find.
Context {K : Kernel} `{cm : CharModel}.
Context (dps : list desync_params) (l : list nat) (full : Z) (k : nat → Z).
Context (client : nat) (init_dp : option nat) (data : option (mem * Z)) (dst : mem) (detect : Z).
Context (Hbits : group_bits dps l full k).

(** the conditions on the group alone *)
Definition fits_res (d : nat) (dp : desync_params) : res bool :=
  if negb (bool_decide (init_dp = Some d) || (d_detect dp =? 0) || has detect (d_detect dp))
  then Ok false else
  l34 ← check_l34 dp SOCK_STREAM dst;
  if negb l34 then Ok false else
  proto ← (match data with
    | Some (m, n) => if d_proto dp =? 0 then Ok true else check_proto_tcp (d_proto dp) m n
    | None => Ok true end);
  if negb proto then Ok false else
  match d_hosts dp, data with
  | Some hosts, Some (m, n) => check_host hosts m n
  | _, _ => Ok true
  end.

Lemma dp_fits_res w c d dp b :
  ph_items (w_pool w) !! client = Some c → e_detect c = detect → fits_res d dp = Ok b →
  dp_fits client init_dp data dst d dp w = Ok (b, w).
Proof.
  intros Hc Hd. unfold dp_fits, fits_res. mrun (ev_eq client w c Hc). rewrite Hd.
  case_match; [by intros [= <-]|]. unfold lift.
  destruct (check_l34 dp SOCK_STREAM dst) as [l34| |]; [|done..]. rewrite bind_Ok.
  unfold mbind at 1. do 2 bstep. destruct l34; cbn [negb]; [|by intros [= <-]].
  destruct data as [[m n]|].
  - destruct (d_proto dp =? 0).
    + rewrite bind_Ok. mrun. cbn [negb]. destruct (d_hosts dp); [|by intros [= <-]].
      unfold lift. by intros ->.
    + destruct (check_proto_tcp (d_proto dp) m n) as [pr| |]; [|done..]. rewrite bind_Ok.
      unfold mbind at 1. do 2 bstep. destruct pr; cbn [negb]; [|by intros [= <-]].
      destruct (d_hosts dp); [|by intros [= <-]]. by intros ->.
  - rewrite bind_Ok. mrun. cbn [negb]. destruct (d_hosts dp); by intros [= <-].
Qed.

Context (fit : nat → bool).
Context (Hfit : ∀ d g, d ∈ l → dps !! d = Some g → fits_res d g = Ok (fit d)).

(** the world with another mask of the client *)
Definition masked (m : Z) (w : world) : world :=
  w <| w_pool := w_pool w <| ph_items :=
         alter (λ c, c <| e_dp_mask := m |>) client (ph_items (w_pool w)) |> |>.

(** what the loop needs of the world *)
Record scanning (m : Z) (w : world) : Prop := Scanning {
  sc_dps : w_dps w = dps;
  sc_head : p_dp (w_params w) = head l;
  sc_full : p_dp_full_mask (w_params w) = full;
  sc_client : ∃ c, ph_items (w_pool w) !! client = Some c ∧ e_detect c = detect ∧ e_dp_mask c = m
}.

Lemma scanning_masked m m' w : scanning m w → scanning m' (masked m' w).
Proof.
  intros [H1 H2 H3 (c & H4 & H5 & H6)]. split; try done.
  exists (c <| e_dp_mask := m' |>). simpl. by rewrite list_lookup_alter_eq, H4.
Qed.

(** the group answers: not failed, and fits *)
Definition candidate (m : Z) (d : nat) : bool := negb (has (bit_of dps d) m) && fit d.

Lemma masked_masked m m' w : masked m' (masked m w) = masked m' w.
Proof. unfold masked. simpl. by rewrite list_alter_twice. Qed.
Lemma masked_same m w : scanning m w → masked m w = w.
Proof.
  intros [_ _ _ (c & H4 & _ & H6)]. unfold masked. rewrite (alter_fix _ client _ c H4).
  - by destruct w as [[]].
  - destruct c. simpl in *. by subst.
Qed.

(** one iteration *)
Lemma find_step d rest m w :
  scanning m w → d ∈ l → next_list dps (d :: rest) → m ≠ full → ∀ p, 
  (p = Some d ∨ p = None ∧ head l = Some d) →
  find_dp_step client init_dp data dst p w
  = if candidate m d then Ok (inr (Some d), w)
    else Ok (inl (head rest), masked (Z.lor m (bit_of dps d)) w).
Proof.
  intros Hs Hd [(g & Hg & Hn) _] Hm p Hp. pose proof Hs as [H1 H2 H3 (c & H4 & H5 & H6)].
  unfold find_dp_step. mrun. rewrite H2, H3.
  assert (match p with Some d => Some d | None => head l end = Some d) as ->.
  { destruct Hp as [->|[-> E]]; done. }
  mrun (ev_eq client w c H4). rewrite H6, (proj2 (Z.eqb_neq _ _)) by done.
  assert (Eg : dpg d w = Ok (g, w)) by (unfold dpg; by rewrite H1, Hg).
  unfold deref. mrun. rewrite (mbind_ok _ _ _ _ _ Eg).
  unfold candidate, bit_of. rewrite Hg.
  assert (Hset : ev_set client (λ c, c <| e_dp_mask := Z.lor (e_dp_mask c) (d_bit g) |>) w
    = Ok (tt, masked (Z.lor m (d_bit g)) w)).
  { rewrite (ev_set_eq client _ _ c H4). unfold masked. do 2 f_equal.
    erewrite alter_same; [reflexivity|exact H4|]. simpl. by rewrite H6. }
  destruct (has (d_bit g) m); cbn [negb andb].
  - mrun. rewrite (mbind_ok _ _ _ _ _ Hset). by rewrite Hn.
  - rewrite (mbind_ok _ _ w (fit d) w) by (eapply dp_fits_res; eauto).
    destruct (fit d); [done|]. rewrite (mbind_ok _ _ _ _ _ Hset). by rewrite Hn.
Qed.

(** every bit of the mask is some group's *)
Definition within (m : Z) : Prop := ∀ i, Z.testbit m i = true → Z.testbit full i = true.

Lemma has_bit d m : d ∈ l → has (bit_of dps d) m = Z.testbit m (k d).
Proof. intros Hd. destruct (bo_pow _ _ _ _ Hbits d Hd) as [Hk ->]. by apply has_pow2. Qed.

Lemma has_lor d d' m : d ∈ l → d' ∈ l →
  has (bit_of dps d) (Z.lor m (bit_of dps d')) = has (bit_of dps d) m || bool_decide (d = d').
Proof.
  intros Hd Hd'. rewrite !has_bit by done. rewrite Z.lor_spec. f_equal.
  destruct (bo_pow _ _ _ _ Hbits d' Hd') as [Hk ->].
  destruct (decide (d = d')) as [->|Hne].
  - by rewrite Z.pow2_bits_true, bool_decide_eq_true_2.
  - rewrite bool_decide_eq_false_2 by done. apply Z.pow2_bits_false.
    intros E. by apply Hne, (bo_inj _ _ _ _ Hbits).
Qed.

Lemma within_lor m d : d ∈ l → within m → within (Z.lor m (bit_of dps d)).
Proof.
  intros Hd Hm i. rewrite Z.lor_spec, orb_true_iff. intros [H|H]; [by apply Hm|].
  destruct (bo_pow _ _ _ _ Hbits d Hd) as [Hk E]. rewrite E in H.
  apply (bo_full _ _ _ _ Hbits). exists d. split; [done|].
  destruct (Z.eq_dec i (k d)) as [->|Hne]; [done|].
  by rewrite Z.pow2_bits_false in H by congruence.
Qed.

(** all groups failed: the mask is full *)
Lemma full_has d : d ∈ l → has (bit_of dps d) full = true.
Proof. intros Hd. rewrite has_bit by done. apply (bo_full _ _ _ _ Hbits). by exists d. Qed.

Lemma all_full m : within m → (∀ d, d ∈ l → has (bit_of dps d) m = true) → m = full.
Proof.
  intros Hm Hall. apply Z.bits_inj. intros i. destruct (Z.testbit full i) eqn:E.
  - apply (bo_full _ _ _ _ Hbits) in E as (d & Hd & <-). rewrite <- has_bit by done. by apply Hall.
  - destruct (Z.testbit m i) eqn:E'; [|done]. apply Hm in E'. congruence.
Qed.

Lemma find_full p w : scanning full w → find_dp_step client init_dp data dst p w = Ok (inr None, w).
Proof.
  intros [H1 H2 H3 (c & H4 & H5 & H6)]. unfold find_dp_step. mrun. mrun (ev_eq client w c H4).
  by rewrite H3, H6, Z.eqb_refl.
Qed.

(** masks of groups that were passed over *)
Definition passed (m m' : Z) (ds : list nat) : Prop :=
  within m' ∧ ∀ d, d ∈ l → has (bit_of dps d) m' = has (bit_of dps d) m || bool_decide (d ∈ ds).

Lemma passed_nil m : within m → passed m m [].
Proof.
  intros Hm. split; [done|]. intros d _. rewrite (bool_decide_eq_false_2 (d ∈ [])) by set_solver.
  by rewrite orb_false_r.
Qed.
Lemma passed_cons m m' d ds : d ∈ l → passed (Z.lor m (bit_of dps d)) m' ds → passed m m' (d :: ds).
Proof.
  intros Hd [Hw H]. split; [done|]. intros x Hx. rewrite H, has_lor by done.
  rewrite <- orb_assoc, <- bool_decide_or. f_equal. apply bool_decide_ext.
  by rewrite elem_of_cons.
Qed.

Lemma passed_full ds : passed full full ds.
Proof. split; [by intros i|]. intros d Hd. by rewrite full_has. Qed.

Lemma candidate_lor m d d' : d ∈ l → d' ∈ l → d ≠ d' →
  candidate (Z.lor m (bit_of dps d')) d = candidate m d.
Proof.
  intros Hd Hd' Hne. unfold candidate. rewrite has_lor by done.
  by rewrite bool_decide_eq_false_2, orb_false_r by done.
Qed.

Lemma find_ext {A} (f g : A → bool) (ds : list A) :
  (∀ d, d ∈ ds → f d = g d) → List.find f ds = List.find g ds.
Proof.
  induction ds as [|d ds IH]; simpl; [done|]. intros H. rewrite <- (H d) by left.
  case_match; [done|]. apply IH. intros x Hx. apply H. by right.
Qed.

(** a pass over [ds], from its head: the first candidate; or all of [ds] is
    passed over, and the loop goes on at the end of the list unless the mask
    is full *)
Lemma find_pass ds : ∀ m w p fuel,
  scanning m w → within m → next_list dps ds → (∀ d, d ∈ ds → d ∈ l) → NoDup ds →
  (p = head ds ∨ p = None ∧ head ds = head l) →
  let step := find_dp_step client init_dp data dst in
  match List.find (candidate m) ds with
  | Some d => ∃ m', mloop (length ds + Datatypes.S fuel) step p w = Ok (Some d, masked m' w)
  | None => ∃ m', passed m m' ds
      ∧ mloop (length ds + Datatypes.S fuel) step p w
        = if m' =? full then Ok (None, masked m' w)
          else mloop (Datatypes.S fuel) step None (masked m' w)
  end.
Proof.
  induction ds as [|d ds IH]; intros m w p fuel Hs Hw Hl Hin Hnd Hp step.
  - simpl. exists m. split; [by apply passed_nil|].
    assert (p = None) as -> by (destruct Hp as [|[? _]]; done).
    destruct (Z.eqb_spec m full) as [->|Hne]; rewrite (masked_same _ w) by done; [|done].
    apply mloop_inr. by apply find_full.
  - apply NoDup_cons in Hnd as [Hd Hnd]. assert (Hdl : d ∈ l) by (apply Hin; left).
    destruct (Z.eq_dec m full) as [->|Hne].
    { assert (Hnone : List.find (candidate full) (d :: ds) = None).
      { destruct (List.find _ _) as [x|] eqn:E; [|done]. apply List.find_some in E as [E1 E2].
        apply list_elem_of_In in E1. unfold candidate in E2. rewrite full_has in E2 by auto. done. }
      rewrite Hnone. exists full. split; [by apply passed_full|]. rewrite Z.eqb_refl, masked_same by done.
      cbn [length Nat.add]. apply mloop_inr. by apply find_full. }
    assert (Hp' : p = Some d ∨ p = None ∧ head l = Some d).
    { destruct Hp as [->|[-> E]]; [by left|right; split; [done|by rewrite <- E]]. }
    pose proof (find_step d ds m w Hs Hdl Hl Hne p Hp') as Estep. fold step in Estep.
    cbn [List.find]. destruct (candidate m d) eqn:Ec.
    + exists m. rewrite masked_same by done. cbn [length Nat.add]. by apply mloop_inr.
    + cbn [length Nat.add]. rewrite (mloop_inl _ _ _ _ _ _ Estep).
      set (m1 := Z.lor m (bit_of dps d)) in *.
      assert (Hs1 : scanning m1 (masked m1 w)) by by eapply scanning_masked.
      specialize (IH m1 (masked m1 w) (head ds) fuel Hs1 (within_lor m d Hdl Hw)
        (proj2 Hl) (λ x Hx, Hin x (list_elem_of_further _ _ _ Hx)) Hnd (or_introl eq_refl)).
      cbv zeta in IH. fold step in IH.
      rewrite (find_ext (candidate m1) (candidate m)) in IH.
      2:{ intros x Hx. apply candidate_lor; [by apply Hin; right|done|]. by intros ->. }
      destruct (List.find (candidate m) ds) as [x|].
      * destruct IH as (m' & E). exists m'. rewrite E. by rewrite masked_masked.
      * destruct IH as (m' & Hm' & E). exists m'. split.
        -- by apply passed_cons.
        -- rewrite E. by rewrite masked_masked.
Qed.

Lemma find_none_intro {A} (f : A → bool) (ds : list A) :
  (∀ d, d ∈ ds → f d = false) → List.find f ds = None.
Proof.
  intros H. destruct (List.find f ds) as [x|] eqn:E; [|done].
  apply List.find_some in E as [E1 E2]. apply list_elem_of_In in E1. by rewrite H in E2.
Qed.

Lemma find_app {A} (f : A → bool) (l1 l2 : list A) :
  List.find f (l1 ++ l2)
  = match List.find f l1 with Some d => Some d | None => List.find f l2 end.
Proof. induction l1 as [|d l1 IH]; simpl; [done|]. by destruct (f d). Qed.

Lemma find_full_none : List.find (candidate full) l = None.
Proof. apply find_none_intro. intros d Hd. unfold candidate. by rewrite full_has. Qed.

Lemma find_passed m m' ds :
  passed m m' ds → List.find (candidate m) ds = None →
  List.find (candidate m') l = List.find (candidate m) l.
Proof.
  intros [_ Hp] Hn. apply find_ext. intros d Hd. unfold candidate. rewrite Hp by done.
  destruct (decide (d ∈ ds)) as [Hin|Hin].
  - rewrite (bool_decide_eq_true_2 (d ∈ ds)), orb_true_r by done. simpl.
    symmetry. apply (List.find_none _ _ Hn). by apply list_elem_of_In.
  - by rewrite (bool_decide_eq_false_2 (d ∈ ds)), orb_false_r by done.
Qed.

Lemma passed_all m m' : passed m m' l → m' = full.
Proof.
  intros [Hw Hp]. apply all_full; [done|]. intros d Hd. rewrite Hp by done.
  by rewrite bool_decide_eq_true_2, orb_true_r.
Qed.

(** from the group [p] (the connection's, at [l2] of the list), once round *)
Lemma find_loop l1 l2 m w p fuel :
  l = l1 ++ l2 → scanning m w → within m → next_list dps l → NoDup l →
  (p = head l2 ∨ p = None ∧ l1 = []) →
  (2 * length l + 1 < fuel)%nat →
  ∃ m', mloop fuel (find_dp_step client init_dp data dst) p w
    = Ok (List.find (candidate m) (l2 ++ l), masked m' w)
    ∧ (List.find (candidate m) (l2 ++ l) = None → m' = full).
Proof.
  intros Hl Hs Hw Hn Hnd Hp Hfuel.
  assert (Hn2 : next_list dps l2) by (rewrite Hl in Hn; by eapply next_list_app).
  assert (Hnd2 : NoDup l2) by (rewrite Hl in Hnd; by apply NoDup_app in Hnd as (_ & _ & ?)).
  assert (Hin2 : ∀ d, d ∈ l2 → d ∈ l) by (intros d Hd; rewrite Hl; set_solver).
  assert (Hlen : (length l2 <= length l)%nat) by (rewrite Hl, length_app; lia).
  destruct fuel as [|fuel]; [lia|].
  replace (Datatypes.S fuel) with (length l2 + Datatypes.S (fuel - length l2))%nat by lia.
  assert (Hp2 : p = head l2 ∨ p = None ∧ head l2 = head l).
  { destruct Hp as [|[-> E]]; [by left|right]. split; [done|]. by rewrite Hl, E. }
  pose proof (find_pass l2 m w p (fuel - length l2) Hs Hw Hn2 Hin2 Hnd2 Hp2) as H1. cbv zeta in H1.
  rewrite find_app. destruct (List.find (candidate m) l2) as [d|] eqn:E2.
  { destruct H1 as (m' & E). by exists m'. }
  destruct H1 as (m1 & Hpass & E). rewrite E. clear E.
  rewrite <- (find_passed m m1 l2) by done.
  destruct (Z.eqb_spec m1 full) as [->|Hne].
  { exists full. by rewrite find_full_none. }
  assert (Hs1 : scanning m1 (masked m1 w)) by by eapply scanning_masked.
  replace (Datatypes.S (fuel - length l2))
    with (length l + Datatypes.S (fuel - length l2 - length l))%nat by lia.
  pose proof (find_pass l m1 (masked m1 w) None (fuel - length l2 - length l)%nat Hs1 (proj1 Hpass)
    Hn ltac:(done) Hnd (or_intror (conj eq_refl eq_refl))) as H2. cbv zeta in H2.
  destruct (List.find (candidate m1) l) as [d|].
  { destruct H2 as (m' & E). exists m'. by rewrite E, masked_masked. }
  destruct H2 as (m2 & Hpass2 & E). exists m2. rewrite E.
  rewrite (passed_all m1 m2) by done. by rewrite Z.eqb_refl, masked_masked.
Qed.
End find.

(** the bytes the conditions look at: those given, or those the connection
    has kept *)
Definition request_of (w : world) (c : eval) (buff : option (mem * Z)) : option (option (mem * Z)) :=
  match buff, e_buff c with
  | None, Some b =>
      match w_bufs w !! b with Some (Some x) => Some (Some (b_data x, b_lock x)) | _ => None end
  | _, _ => Some buff
  end.

(** C13: [find_dp] always answers, whatever the marks left by earlier failures.
    With the groups [l] linked by [next], each with a bit of its own, and the
    connection standing at [l2] of the list (or nowhere yet), it goes from
    there to the end and once round from the head, and returns the first group
    that has not failed and whose conditions hold; when there is none, it
    answers null with every group marked.  It changes only the connection's
    marks, and at most two rounds of the list are needed. *)
Theorem find_dp_first {K : Kernel} `{cm : CharModel} (w : world) (l1 l2 : list nat) (k : nat → Z)
    (client : nat) (c : eval) (buff data : option (mem * Z)) (dst : mem) (fit : nat → bool) (fuel : nat) :
  let l := l1 ++ l2 in
  let full := p_dp_full_mask (w_params w) in
  let cand := candidate (w_dps w) fit (e_dp_mask c) in
  next_list (w_dps w) l → NoDup l → p_dp (w_params w) = head l →
  group_bits (w_dps w) l full k → within full (e_dp_mask c) →
  ph_items (w_pool w) !! client = Some c →
  (e_dp c = head l2 ∨ e_dp c = None ∧ l1 = []) →
  request_of w c buff = Some data →
  (∀ d g, d ∈ l → w_dps w !! d = Some g → fits_res (e_dp c) data dst (e_detect c) d g = Ok (fit d)) →
  (2 * length l + 1 < fuel)%nat →
  ∃ m', find_dp fuel client buff dst w = Ok (List.find cand (l2 ++ l), masked client m' w)
    ∧ (List.find cand (l2 ++ l) = None → m' = full).
Proof.
  intros l full cand Hn Hnd Hh Hb Hw Hc Hp Hd Hfit Hfuel. unfold find_dp. mrun (ev_eq client w c Hc).
  assert (E : (match buff, e_buff c with
    | None, Some b => let* x := buf b in ret (Some (b_data x, b_lock x))
    | _, _ => ret buff end) w = Ok (data, w)).
  { revert Hd. unfold request_of. destruct buff; [by intros [= <-]|]. destruct (e_buff c) as [b|]; [|by intros [= <-]].
    destruct (w_bufs w !! b) as [[x|]|] eqn:Eb; [|done..]. intros [= <-]. by mrun (buf_eq b w x Eb). }
  rewrite (mbind_ok _ _ _ _ _ E).
  eapply (find_loop (w_dps w) l full k client (e_dp c) data dst (e_detect c)); eauto.
  split; try done. by exists c.
Qed.

(** two groups; the first has failed *)
Definition two_groups_world : world :=
  World (pair_pool <| ph_items := alter (λ c, c <| e_dp_mask := 1 |>) 1%nat (ph_items pair_pool) |>) [] []
    (sample_params <| p_dp := Some 0%nat |> <| p_dp_full_mask := 3 |>)
    [some_group [] <| d_next := Some 1%nat |>; some_group [] <| d_bit := 2 |>] 0 [].

Lemma find_dp_first_witness :
  let K : Kernel := quiet_kernel in let cm : CharModel := true in
  ∃ m', find_dp 9 1 None zero_addr two_groups_world = Ok (Some 1%nat, masked 1 m' two_groups_world).
Proof.
  intros K cm.
  destruct (find_dp_first two_groups_world [] [0; 1]%nat Z.of_nat 1
    (zero_eval <| e_fd := 8 |> <| e_pair := Some 0%nat |> <| e_dp := Some 0%nat |> <| e_dp_mask := 1 |>)
    None None zero_addr (λ _, true) 9) as (m' & E & _).
  - simpl. split_and!; eauto.
  - by repeat (apply NoDup_cons; split; [set_solver|]); apply NoDup_nil.
  - done.
  - split.
    + intros d Hd. repeat (apply elem_of_cons in Hd as [->|Hd]; [done|]). by apply elem_of_nil in Hd.
    + intros d d' _ _. apply Nat2Z.inj.
    + intros i. simpl. split.
      * intros H. assert (0 <= i < 2) as Hi.
        { split; [destruct (Z.leb_spec 0 i); [done|by rewrite Z.testbit_neg_r in H by done]|].
          destruct (Z.ltb_spec i 2); [done|]. by rewrite Z.bits_above_log2 in H by (simpl; lia). }
        exists (Z.to_nat i). split; [|lia]. destruct (Z.eq_dec i 0) as [->|]; [by left|].
        replace i with 1 by lia. by right; left.
      * intros (d & Hd & <-). repeat (apply elem_of_cons in Hd as [->|Hd]; [done|]). by apply elem_of_nil in Hd.
  - intros i. simpl. intros H. destruct i as [|[]|]; done.
  - done.
  - by left.
  - done.
  - intros d g Hd Hg. repeat (apply elem_of_cons in Hd as [->|Hd]; [injection Hg as <-; by vm_compute|]).
    by apply elem_of_nil in Hd.
  - simpl. lia.
  - exists m'. exact E.
Defined.

(** * Exchanging two groups

    [swop_groups] as nine writes through pointers, what a reader finds behind
    each of them, and the list it leaves ([swop_groups_swaps]). *)

(** ** Exchanging two groups *)

(** [l] is doubly linked in [dps], between [p] and [q] *)
Fixpoint dseg (dps : list desync_params) (p : option nat) (l : list nat) (q : option nat) : Prop :=
  match l with
  | [] => True
  | d :: l => (∃ g, dps !! d = Some g ∧ d_prev g = p
                ∧ d_next g = match head l with Some x => Some x | None => q end)
              ∧ dseg dps (Some d) l q
  end.

Lemma dseg_frame dps dps' l : ∀ p q,
  (∀ d, d ∈ l → dps' !! d = dps !! d) → dseg dps p l q → dseg dps' p l q.
Proof.
  induction l as [|d l IH]; simpl; [done|]. intros p q H [Hd Hl]. split.
  - rewrite H; [done|by left].
  - apply IH; [|done]. intros x Hx. apply H. by right.
Qed.

Lemma dseg_app dps l1 : ∀ l2 p q,
  dseg dps p (l1 ++ l2) q
  ↔ dseg dps p l1 (match head l2 with Some x => Some x | None => q end)
    ∧ dseg dps (match last l1 with Some x => Some x | None => p end) l2 q.
Proof.
  induction l1 as [|d l1 IH]; intros l2 p q; [simpl; tauto|]. cbn [dseg app].
  rewrite IH, last_cons.
  assert (match head (l1 ++ l2) with Some x => Some x | None => q end
    = match head l1 with Some x => Some x
      | None => match head l2 with Some x => Some x | None => q end end) as -> by by destruct l1.
  destruct (last l1); tauto.
Qed.

(** *** The writes of [swop_groups] *)

Definition on_dps (w : world) (D : list desync_params) : world := w <| w_dps := D |>.
(** [p->field = ...], if there is a [p] *)
Definition put (o : option nat) (f : desync_params → desync_params) (D : list desync_params) :=
  match o with Some d => alter f d D | None => D end.

Lemma put_lookup o f D d : put o f D !! d = if decide (o = Some d) then f <$> D !! d else D !! d.
Proof.
  destruct o as [x|]; simpl; [|done]. destruct (decide (Some x = Some d)) as [[= ->]|H].
  - by rewrite list_lookup_alter_eq.
  - rewrite list_lookup_alter_ne; congruence.
Qed.
Lemma put_other o f D d : o ≠ Some d → put o f D !! d = D !! d.
Proof. intros H. rewrite put_lookup. by case_decide. Qed.
Lemma put_at o f D d g : o = Some d → D !! d = Some g → put o f D !! d = Some (f g).
Proof. intros -> H. rewrite put_lookup. case_decide; [by rewrite H|done]. Qed.
Lemma put_some o f D d : is_Some (D !! d) → is_Some (put o f D !! d).
Proof. intros [g H]. rewrite put_lookup, H. case_decide; eauto. Qed.

Lemma dpg_on d w D g : D !! d = Some g → dpg d (on_dps w D) = Ok (g, on_dps w D).
Proof. unfold dpg, on_dps. simpl. by intros ->. Qed.
Lemma dp_set_on d f w D : is_Some (D !! d) → dp_set d f (on_dps w D) = Ok (tt, on_dps w (put (Some d) f D)).
Proof. unfold dp_set, on_dps. simpl. by intros [g ->]. Qed.
Lemma dp_put_on o f w D : (∃ d, o = Some d ∧ is_Some (D !! d)) →
  dp_put o f (on_dps w D) = Ok (tt, on_dps w (put o f D)).
Proof. intros (d & -> & H). unfold dp_put, deref. rewrite mbind_ret. by apply dp_set_on. Qed.
Lemma put_if_on o f w D : (∀ d, o = Some d → is_Some (D !! d)) →
  (match o with Some d => dp_set d f | None => ret tt end) (on_dps w D) = Ok (tt, on_dps w (put o f D)).
Proof. intros H. destruct o as [d|]; [|done]. apply dp_set_on. by apply H. Qed.

(** the writes up to the test for neighbours *)
Definition swop_ends (c n : nat) (gc gn : desync_params) (D : list desync_params) :=
  put (d_next gn) (λ g, g <| d_prev := Some c |>)
    (put (d_prev gc) (λ g, g <| d_next := Some n |>)
      (put (Some n) (λ g, g <| d_next := d_next gc |>)
        (put (Some n) (λ g, g <| d_prev := d_prev gc |>)
          (put (Some c) (λ g, g <| d_next := d_next gn |> <| d_prev := d_prev gn |>) D)))).
Definition swop_middle (c n : nat) (gc gn : desync_params) (D : list desync_params) :=
  if decide (d_next gc ≠ Some n) then
    put (d_prev gn) (λ g, g <| d_next := Some c |>) (put (d_next gc) (λ g, g <| d_prev := Some n |>) D)
  else
    put (Some n) (λ g, g <| d_next := Some c |>) (put (Some c) (λ g, g <| d_prev := Some n |>) D).
Definition with_level (h g : desync_params) : desync_params :=
  g <| d_detect := d_detect h |> <| d_auto_level := d_auto_level h |>.
Definition swopped (c n : nat) (gc gn : desync_params) (D : list desync_params) :=
  put (Some n) (with_level gc) (put (Some c) (with_level gn) (swop_middle c n gc gn (swop_ends c n gc gn D))).

(** what the two groups' links must be *)
Record swop_ok (c n : nat) (gc gn : desync_params) (D : list desync_params) : Prop := SwopOk {
  so_c : D !! c = Some gc;
  so_n : D !! n = Some gn;
  so_ne : c ≠ n;
  so_prev : ∀ p, d_prev gc = Some p → p ≠ c ∧ p ≠ n ∧ is_Some (D !! p);
  so_next : ∀ x, d_next gn = Some x → x ≠ c ∧ x ≠ n ∧ is_Some (D !! x);
  so_mid : d_next gc = Some n ∧ d_prev gn = Some c
    ∨ ∃ a b, d_next gc = Some a ∧ d_prev gn = Some b ∧ a ≠ c ∧ a ≠ n ∧ b ≠ c ∧ b ≠ n
        ∧ is_Some (D !! a) ∧ is_Some (D !! b)
}.

Section swop.
Context (c n : nat) (gc gn : desync_params) (D : list desync_params) (Hok : swop_ok c n gc gn D).

Lemma swop_ends_c : swop_ends c n gc gn D !! c = Some (gc <| d_next := d_next gn |> <| d_prev := d_prev gn |>).
Proof.
  destruct Hok as [Hc Hn Hne Hp Hx _]. unfold swop_ends.
  rewrite 4!put_other; [by erewrite put_at|..]; try congruence; intros H.
  - by apply Hp in H as [? _].
  - by apply Hx in H as [? _].
Qed.
Lemma swop_ends_n : swop_ends c n gc gn D !! n = Some (gn <| d_prev := d_prev gc |> <| d_next := d_next gc |>).
Proof.
  destruct Hok as [Hc Hn Hne Hp Hx _]. unfold swop_ends.
  rewrite (put_other (d_next gn)), (put_other (d_prev gc)); cycle 1.
  { intros H. by apply Hp in H as (_ & ? & _). }
  { intros H. by apply Hx in H as (_ & ? & _). }
  erewrite (put_at (Some n)); [done..|]. erewrite (put_at (Some n)); [done..|].
  rewrite put_other by congruence. done.
Qed.
Lemma swop_ends_some d : is_Some (D !! d) → is_Some (swop_ends c n gc gn D !! d).
Proof. intros H. unfold swop_ends. by repeat apply put_some. Qed.

Abbreviation E := (swop_ends c n gc gn D).

Lemma swop_middle_run w :
  (if decide (d_next gc ≠ Some n) then
     let* n' := dpg n in
     dp_put (d_next n') (λ g, g <| d_prev := Some n |>) ;;;
     let* c' := dpg c in
     dp_put (d_prev c') (λ g, g <| d_next := Some c |>)
   else
     dp_set c (λ g, g <| d_prev := Some n |>) ;;;
     dp_set n (λ g, g <| d_next := Some c |>)) (on_dps w E)
  = Ok (tt, on_dps w (swop_middle c n gc gn E)).
Proof.
  pose proof swop_ends_c as Ec. pose proof swop_ends_n as En. pose proof swop_ends_some as Es.
  destruct Hok as [Hc Hn Hne Hp Hx Hm]. unfold swop_middle. case_decide as Hd.
  - destruct Hm as [[? _]|(a & b & Ha & Hb & Hac & Han & Hbc & Hbn & Hsa & Hsb)]; [congruence|].
    rewrite (mbind_ok _ _ _ _ _ (dpg_on n w _ _ En)). simpl (d_next _).
    rewrite (mbind_ok _ _ _ _ _ (dp_put_on (d_next gc) _ w E ltac:(eauto))).
    erewrite mbind_ok by (apply dpg_on; rewrite put_other by congruence; exact Ec). simpl (d_prev _).
    apply dp_put_on. exists b. split; [done|]. apply put_some. auto.
  - rewrite (mbind_ok _ _ _ _ _ (dp_set_on c _ w E (mk_is_Some _ _ Ec))).
    apply dp_set_on. apply put_some. eauto.
Qed.

Lemma swop_middle_n : ∃ p q, swop_middle c n gc gn E !! n = Some (gn <| d_prev := p |> <| d_next := q |>).
Proof.
  pose proof swop_ends_n as En. destruct Hok as [Hc Hn Hne Hp Hx Hm]. unfold swop_middle. case_decide as Hd.
  - destruct Hm as [[? _]|(a & b & Ha & Hb & Hac & Han & Hbc & Hbn & _)]; [congruence|].
    rewrite 2!put_other by congruence. rewrite En. eauto.
  - erewrite put_at; [|done|rewrite put_other by congruence; exact En]. eexists _, _. reflexivity.
Qed.
Lemma swop_middle_some d : is_Some (D !! d) → is_Some (swop_middle c n gc gn E !! d).
Proof. intros H%swop_ends_some. unfold swop_middle. case_decide; by do 2 apply put_some. Qed.

Lemma swop_run w :
  swop_groups c n (on_dps w D)
  = par_set (λ p, if decide (p_dp p = Some c) then p <| p_dp := Some n |> else p)
      (on_dps w (swopped c n gc gn D)).
Proof.
  pose proof swop_ends_c as Ec. pose proof swop_ends_n as En. pose proof swop_ends_some as Es.
  destruct Hok as [Hc Hn Hne Hp Hx Hm]. unfold swop_groups.
  rewrite (mbind_ok _ _ _ _ _ (dpg_on c w D gc Hc)), (mbind_ok _ _ _ _ _ (dpg_on n w D gn Hn)).
  rewrite (mbind_ok _ _ _ _ _ (dp_set_on c _ w D (mk_is_Some _ _ Hc))).
  do 2 (erewrite mbind_ok by (apply dp_set_on; repeat apply put_some; eauto)).
  set (D3 := put (Some n) _ (put (Some n) _ _)).
  assert (E3 : D3 !! n = Some (gn <| d_prev := d_prev gc |> <| d_next := d_next gc |>)).
  { unfold D3. erewrite (put_at (Some n)); [done..|]. erewrite (put_at (Some n)); [done..|].
    rewrite put_other by congruence. done. }
  rewrite (mbind_ok _ _ _ _ _ (dpg_on n w D3 _ E3)). simpl (d_prev _).
  erewrite mbind_ok; [|apply put_if_on; intros p H; unfold D3; do 3 apply put_some; by apply Hp].
  erewrite mbind_ok; [|apply dpg_on; rewrite put_other; [unfold D3; rewrite 2!put_other by congruence; by apply put_at|]];
    [|intros H; by apply Hp in H as [? _]].
  simpl (d_next _).
  erewrite mbind_ok; [|apply put_if_on; intros x H; unfold D3; do 4 apply put_some; by apply Hx].
  fold (swop_ends c n gc gn D). rewrite (mbind_ok _ _ _ _ _ (swop_middle_run w)).
  destruct swop_middle_n as (p & q & Emn).
  rewrite (mbind_ok _ _ _ _ _ (dpg_on n w _ _ Emn)).
  erewrite mbind_ok by (apply dp_set_on, swop_middle_some; eauto).
  by erewrite mbind_ok by (apply dp_set_on, put_some, swop_middle_some; eauto).
Qed.
End swop.

(** a list, seen from both ends *)
Inductive ends : list nat → Prop :=
| ends_nil : ends []
| ends_one a : ends [a]
| ends_two a m b : ends (a :: m ++ [b]).
Lemma ends_of l : ends l.
Proof.
  destruct l as [|a l]; [constructor|]. destruct l as [|b l _] using rev_ind; constructor.
Qed.

(** *** The list after it *)

Lemma dseg_some D l d : ∀ p q, dseg D p l q → d ∈ l → is_Some (D !! d).
Proof.
  induction l as [|x l IH]; intros p q H Hd; [by apply elem_of_nil in Hd|].
  destruct H as [(g & Hg & _) H]. apply elem_of_cons in Hd as [->|Hd]; eauto.
Qed.

Lemma dseg_put D o f p l q :
  (∀ d, o = Some d → d ∉ l) → dseg D p l q → dseg (put o f D) p l q.
Proof.
  intros Ho. apply dseg_frame. intros d Hd. apply put_other. intros H. by apply Ho in H.
Qed.

Lemma dseg_put_last D p l q q' :
  NoDup l → dseg D p l q → dseg (put (last l) (λ g, g <| d_next := q' |>) D) p l q'.
Proof.
  intros Hnd Hl. destruct l as [|x l _] using rev_ind; [done|]. rewrite last_snoc.
  apply NoDup_app in Hnd as (_ & Hx & _).
  rewrite dseg_app in *. cbn [dseg head] in *. destruct Hl as [H1 [(g & Hg & Hp & _) _]]. split_and!; [|..|done].
  - apply dseg_put; [|done]. intros d [= <-] Hd. apply (Hx _ Hd). by left.
  - exists (g <| d_next := q' |>). by erewrite put_at.
Qed.

Lemma dseg_put_head D p p' l q :
  NoDup l → dseg D p l q → dseg (put (head l) (λ g, g <| d_prev := p' |>) D) p' l q.
Proof.
  intros Hnd Hl. destruct l as [|x l]; [done|]. apply NoDup_cons in Hnd as [Hx _].
  cbn [dseg head] in *. destruct Hl as [(g & Hg & _ & Hn) H]. split.
  - exists (g <| d_prev := p' |>). by erewrite put_at.
  - apply dseg_put; [|done]. by intros d [= <-].
Qed.

Lemma head_in (l : list nat) d : head l = Some d → d ∈ l.
Proof. destruct l; [done|]. intros [= ->]. by left. Qed.
Lemma last_in (l : list nat) d : last l = Some d → d ∈ l.
Proof. intros (l' & ->)%last_Some. set_solver. Qed.

(** [l1 ++ c :: l2 ++ n :: l3] before the exchange *)
Section swop_list.
Context (D : list desync_params) (l1 : list nat) (c : nat) (l2 : list nat) (n : nat) (l3 : list nat).
Context (gc gn : desync_params).
Context (Hnd : NoDup (l1 ++ c :: l2 ++ n :: l3)).
Context (Hl : dseg D None (l1 ++ c :: l2 ++ n :: l3) None).
Context (Hc : D !! c = Some gc) (Hn : D !! n = Some gn).

Lemma swop_disjoint :
  (NoDup l1 ∧ NoDup l2 ∧ NoDup l3 ∧ c ≠ n)
  ∧ (∀ d, d ∈ l1 → d ≠ c ∧ d ≠ n ∧ d ∉ l2 ∧ d ∉ l3)
  ∧ (∀ d, d ∈ l2 → d ≠ c ∧ d ≠ n ∧ d ∉ l3) ∧ (∀ d, d ∈ l3 → d ≠ c ∧ d ≠ n).
Proof.
  pose proof Hnd as H. rewrite NoDup_app, NoDup_cons, NoDup_app, NoDup_cons in H.
  destruct H as (H1 & H2 & H3 & H4 & H5 & H6 & H7). split_and!; set_solver.
Qed.

Lemma swop_segments :
  dseg D None l1 (Some c) ∧ dseg D (Some c) l2 (Some n) ∧ dseg D (Some n) l3 None
  ∧ d_prev gc = last l1 ∧ d_next gn = head l3
  ∧ d_next gc = (match head l2 with Some a => Some a | None => Some n end)
  ∧ d_prev gn = (match last l2 with Some b => Some b | None => Some c end).
Proof.
  pose proof Hl as H. rewrite dseg_app in H. cbn [dseg head] in H.
  destruct H as [H1 [(g & Hg & Hcp & Hcn) H]].
  rewrite dseg_app in H. cbn [dseg head] in H. destruct H as [H2 [(g' & Hg' & Hnp & Hnn) H3]].
  simplify_eq. split_and!; try done.
  - rewrite Hcp. by destruct (last l1).
  - rewrite Hnn. by destruct (head l3).
  - rewrite Hcn. by destruct l2.
Qed.

Lemma swop_list_ok : swop_ok c n gc gn D.
Proof.
  pose proof swop_disjoint as ((_ & _ & _ & Hne) & D1 & D2 & D3).
  pose proof swop_segments as (S1 & S2 & S3 & Hcp & Hnn & Hcn & Hnp).
  split; [done..| | |].
  - intros p H. rewrite Hcp in H. apply last_in in H. destruct (D1 _ H) as (? & ? & _). eauto using dseg_some.
  - intros x H. rewrite Hnn in H. apply head_in in H. destruct (D3 _ H) as (? & ?). eauto using dseg_some.
  - rewrite Hcn, Hnp. destruct (ends_of l2) as [|a|a m b]; [by left|right..].
    + destruct (D2 a) as (? & ? & _); [by left|]. exists a, a. simpl.
      assert (is_Some (D !! a)) by (eapply dseg_some; [exact S2|by left]). by split_and!.
    + rewrite last_cons, last_snoc. destruct (D2 a) as (? & ? & _); [by left|].
      destruct (D2 b) as (? & ? & _); [by apply last_in; rewrite last_cons, last_snoc|].
      exists a, b. split_and!; try done; (eapply dseg_some; [exact S2|]); [by left|].
      by apply last_in; rewrite last_cons, last_snoc.
Qed.

(** what the other groups see *)
Definition relink : list desync_params :=
  put (last l2) (λ g, g <| d_next := Some c |>) (put (head l2) (λ g, g <| d_prev := Some n |>)
    (put (head l3) (λ g, g <| d_prev := Some c |>) (put (last l1) (λ g, g <| d_next := Some n |>) D))).

Lemma swopped_other d : d ≠ c → d ≠ n → swopped c n gc gn D !! d = relink !! d.
Proof.
  intros Hdc Hdn. pose proof swop_disjoint as (_ & _ & D2 & _). pose proof swop_segments as (_ & _ & _ & Hcp & Hnn & Hcn & Hnp).
  unfold swopped. rewrite 2!put_other by congruence.
  assert (He : swop_ends c n gc gn D !! d
    = put (head l3) (λ g, g <| d_prev := Some c |>) (put (last l1) (λ g, g <| d_next := Some n |>) D) !! d).
  { unfold swop_ends. rewrite Hcp, Hnn, !(put_lookup (head l3)), !(put_lookup (last l1)).
    by rewrite !(put_other (Some _)) by congruence. }
  unfold relink, swop_middle. rewrite Hcn, Hnp. destruct (ends_of l2) as [|a|a m b]; cbn [head last].
  - rewrite decide_False by (intros H; by apply H). by rewrite 2!(put_other (Some _)), He by congruence.
  - destruct (D2 a) as (_ & ? & _); [by left|]. rewrite decide_True by congruence.
    by rewrite !(put_lookup (Some _)), He.
  - destruct (D2 a) as (_ & ? & _); [by left|]. rewrite last_cons, last_snoc, decide_True by congruence.
    by rewrite !(put_lookup (Some _)), He.
Qed.

Lemma swopped_segments :
  let S := swopped c n gc gn D in
  dseg S None l1 (Some n) ∧ dseg S (Some n) l2 (Some c) ∧ dseg S (Some c) l3 None.
Proof.
  pose proof swop_disjoint as ((N1 & N2 & N3 & Hne) & D1 & D2 & D3).
  pose proof swop_segments as (S1 & S2 & S3 & _).
  assert (Hout : ∀ l d, last l = Some d ∨ head l = Some d → d ∈ l)
    by (intros l d [?%last_in|?%head_in]; done).
  split_and!.
  - apply (dseg_frame relink); [intros d Hd; apply swopped_other; by apply D1|].
    unfold relink. do 3 (apply dseg_put; [intros d Hd Hin; destruct (D1 d Hin) as (_ & _ & ? & ?); by eauto|]).
    by apply dseg_put_last with (Some c).
  - apply (dseg_frame relink); [intros d Hd; apply swopped_other; by apply D2|].
    unfold relink. apply dseg_put_last with (Some n); [done|]. apply dseg_put_head with (Some c); [done|].
    apply dseg_put; [intros d Hd Hin; destruct (D2 d Hin) as (_ & _ & ?); by eauto|].
    apply dseg_put; [intros d Hd Hin; destruct (D1 d) as (_ & _ & ? & _); by eauto|done].
  - apply (dseg_frame relink); [intros d Hd; apply swopped_other; by apply D3|].
    unfold relink. do 2 (apply dseg_put; [intros d Hd Hin; destruct (D2 d) as (_ & _ & ?); by eauto|]).
    apply dseg_put_head with (Some n); [done|].
    apply dseg_put; [intros d Hd Hin; destruct (D1 d) as (_ & _ & _ & ?); by eauto|done].
Qed.

Lemma swopped_ends :
  let S := swopped c n gc gn D in
  S !! c = Some (with_level gn gc <| d_prev := match last l2 with Some b => Some b | None => Some n end |>
                                  <| d_next := head l3 |>)
  ∧ S !! n = Some (with_level gc gn <| d_prev := last l1 |>
                                    <| d_next := match head l2 with Some a => Some a | None => Some c end |>).
Proof.
  pose proof swop_disjoint as ((N1 & N2 & N3 & Hne) & D1 & D2 & D3).
  pose proof swop_segments as (S1 & S2 & S3 & Hcp & Hnn & Hcn & Hnp).
  pose proof (swop_ends_c _ _ _ _ _ swop_list_ok) as Ec. pose proof (swop_ends_n _ _ _ _ _ swop_list_ok) as En.
  rewrite Hcp, Hnn, Hcn, Hnp in *.
  assert (Hm : swop_middle c n gc gn (swop_ends c n gc gn D) !! c
      = Some (gc <| d_next := head l3 |> <| d_prev := match last l2 with Some b => Some b | None => Some n end |>)
    ∧ swop_middle c n gc gn (swop_ends c n gc gn D) !! n
      = Some (gn <| d_prev := last l1 |> <| d_next := match head l2 with Some a => Some a | None => Some c end |>)).
  { unfold swop_middle. rewrite Hcn, Hnp. destruct (ends_of l2) as [|a|a m b]; cbn [head last] in *.
    - rewrite decide_False by (intros H; by apply H). split.
      + rewrite put_other by congruence. by erewrite put_at by (done || exact Ec).
      + erewrite put_at; [|done|rewrite put_other by congruence; exact En]. done.
    - destruct (D2 a) as (? & ? & _); [by left|]. rewrite decide_True by congruence.
      by rewrite !put_other, Ec, En by congruence.
    - rewrite last_cons, last_snoc in *. destruct (D2 a) as (? & ? & _); [by left|].
      destruct (D2 b) as (? & ? & _); [by apply last_in; rewrite last_cons, last_snoc|].
      rewrite decide_True by congruence. by rewrite !put_other, Ec, En by congruence. }
  destruct Hm as [Mc Mn]. unfold swopped. split.
  - rewrite put_other by congruence. by erewrite put_at by (done || exact Mc).
  - erewrite put_at; [|done|rewrite put_other by congruence; exact Mn]. done.
Qed.

(** the group with other links *)
Definition relinked (S : list desync_params) (d : nat) (g : desync_params) : Prop :=
  ∃ p q, S !! d = Some (g <| d_prev := p |> <| d_next := q |>).

(** [f] changes a link only *)
Definition link_only (f : desync_params → desync_params) : Prop :=
  ∀ h, ∃ p q, f h = h <| d_prev := p |> <| d_next := q |>.
Lemma link_only_next q : link_only (λ g, g <| d_next := q |>).
Proof. intros h. exists (d_prev h), q. by destruct h. Qed.
Lemma link_only_prev p : link_only (λ g, g <| d_prev := p |>).
Proof. intros h. exists p, (d_next h). by destruct h. Qed.

Lemma relinked_put o f S d g : link_only f → relinked S d g → relinked (put o f S) d g.
Proof.
  intros Hf (p & q & H). unfold relinked. rewrite put_lookup, H.
  case_decide; [|eauto]. destruct (Hf (g <| d_prev := p |> <| d_next := q |>)) as (p' & q' & E).
  exists p', q'. simpl. by rewrite E.
Qed.

Lemma relink_fields d g : D !! d = Some g → relinked relink d g.
Proof.
  intros H. unfold relink. do 4 (apply relinked_put; [apply link_only_next || apply link_only_prev|]).
  exists (d_prev g), (d_next g). rewrite H. by destruct g.
Qed.

Lemma swopped_fields d g : D !! d = Some g →
  relinked (swopped c n gc gn D) d
    (if decide (d = c) then with_level gn gc else if decide (d = n) then with_level gc gn else g).
Proof.
  intros H. pose proof swopped_ends as [Ec En]. unfold relinked.
  destruct (decide (d = c)) as [->|]; [rewrite Ec; eauto|].
  destruct (decide (d = n)) as [->|]; [rewrite En; eauto|].
  rewrite swopped_other by done. by apply relink_fields.
Qed.
End swop_list.

(** [swop_groups] exchanges two groups of the list: [c], anywhere before
    [n], takes [n]'s place and [n] takes [c]'s, neighbours or not, ends of the
    list included; the list stays doubly linked and [params.dp] stays its
    head; the triggers ([detect], [auto_level]) stay with the place, so they
    are exchanged between the two groups, and nothing else of any group
    changes but its links. *)
Theorem swop_groups_swaps (w : world) (l1 : list nat) (c : nat) (l2 : list nat) (n : nat) (l3 : list nat) gc gn :
  let l := l1 ++ c :: l2 ++ n :: l3 in
  let l' := l1 ++ n :: l2 ++ c :: l3 in
  NoDup l → dseg (w_dps w) None l None → p_dp (w_params w) = head l →
  w_dps w !! c = Some gc → w_dps w !! n = Some gn →
  ∃ D, swop_groups c n w
      = Ok (tt, w <| w_dps := D |> <| w_params := w_params w <| p_dp := head l' |> |>)
    ∧ dseg D None l' None
    ∧ ∀ d g, w_dps w !! d = Some g →
        relinked D d (if decide (d = c) then with_level gn gc
                      else if decide (d = n) then with_level gc gn else g).
Proof.
  intros l l' Hnd Hl Hp Hc Hn. exists (swopped c n gc gn (w_dps w)). split_and!.
  - replace w with (on_dps w (w_dps w)) at 1 by by destruct w.
    rewrite (swop_run c n gc gn (w_dps w)) by by eapply swop_list_ok.
    unfold par_set, modify, on_dps. do 3 f_equal. simpl. rewrite Hp. unfold l, l'.
    destruct l1 as [|x l1']; simpl.
    + by rewrite decide_True.
    + rewrite decide_False; [|intros [= ->]; apply NoDup_cons in Hnd as [Hnd _]; set_solver].
      unfold l in Hp. simpl in Hp. destruct w as [? ? ? []]; simpl in *. by rewrite Hp.
  - destruct (swopped_segments _ _ _ _ _ _ _ _ Hnd Hl Hc Hn) as (S1 & S2 & S3).
    destruct (swopped_ends _ _ _ _ _ _ _ _ Hnd Hl Hc Hn) as [Ec En].
    unfold l'. rewrite dseg_app. cbn [dseg head]. split; [done|]. split.
    { eexists. split; [exact En|]. simpl. split; [by destruct (last l1)|by destruct l2]. }
    rewrite dseg_app. cbn [dseg head]. split; [done|]. split; [|done].
    eexists. split; [exact Ec|]. simpl. split; [done|by destruct (head l3)].
  - by eapply swopped_fields.
Qed.

Lemma swop_groups_swaps_witness :
  let g i p q := some_group [] <| d_id := i |> <| d_detect := i |> <| d_prev := p |> <| d_next := q |> in
  let w := sample_world empty_pool <| w_dps := [g 0 None (Some 1%nat); g 1 (Some 0%nat) (Some 2%nat); g 2 (Some 1%nat) None] |>
             <| w_params := sample_params <| p_dp := Some 0%nat |> |> in
  ∃ D, (∃ w', swop_groups 0 1 w = Ok (tt, w') ∧ w_dps w' = D)
    ∧ dseg D None [1; 0; 2]%nat None.
Proof.
  intros g w. destruct (swop_groups_swaps w [] 0 [] 1 [2%nat] (g 0 None (Some 1%nat)) (g 1 (Some 0%nat) (Some 2%nat)))
    as (D & E & H & _).
  - by repeat (apply NoDup_cons; split; [set_solver|]); apply NoDup_nil.
  - simpl. split_and!; eauto.
  - done.
  - done.
  - done.
  - exists D. split; [eexists; split; [exact E|done]|exact H].
Defined.
