(* ===== verification/GroupsCache.v ===== *)
(** * The cache of failed groups

    What [eq_bitlen] counts ([eq_bitlen_counts]), a stale entry that stays in
    the cache ([cache_get_deletes_other]), and the order in which the port
    range of a group is compared ([port_range_stored_order]). *)

From Stdlib Require Import ZArith Lia Bool List.
From Stdlib Require Import Strings.Byte.
From stdpp Require Import base tactics list numbers option.
From S2P Require Import Prelude CMem Packets Kavl MPool MPoolSpec World Conev Desync DesyncSpec Addr Groups.

(** the number of bits two bit strings share at the front *)
Fixpoint common (a b : list Z) : Z :=
  match a, b with
  | x :: a, y :: b => if x =? y then 1 + common a b else 0
  | _, _ => 0
  end.

Lemma common_app p a b : common (p ++ a) (p ++ b) = Z.of_nat (length p) + common a b.
Proof.
  induction p as [|x p IH]; [done|]. simpl. rewrite Z.eqb_refl, IH. lia.
Qed.
Lemma common_short a b c d : length a = length b → a ≠ b → common (a ++ c) (b ++ d) = common a b.
Proof.
  revert b. induction a as [|x a IH]; intros [|y b] Hl Hne; try done. simpl in *.
  destruct (Z.eqb_spec x y) as [->|]; [|done]. rewrite IH; [done|lia|]. by intros ->.
Qed.

(** two byte strings of one length: equal, or they part at some byte *)
Lemma part_or_equal (a b : mem) : length a = length b →
  a = b ∨ ∃ p x y a' b', a = p ++ x :: a' ∧ b = p ++ y :: b' ∧ x ≠ y.
Proof.
  revert b. induction a as [|x a IH]; intros [|y b] Hl; try done; [by left|].
  destruct (decide (x = y)) as [->|Hne].
  - destruct (IH b) as [->|(p & x' & y' & a' & b' & -> & -> & Hne)]; [simpl in Hl; lia|by left|].
    right. by exists (y :: p), x', y', a', b'.
  - right. by exists [], x, y, a, b.
Qed.

Section counts.
Context `{cm : CharModel}.

Lemma chr_eqb (x y : byte) : (chr x =? chr y) = bool_decide (x = y).
Proof.
  case_bool_decide as H; [subst; apply Z.eqb_refl|]. apply Z.eqb_neq. intros E. apply H.
  apply (f_equal (λ z, z mod 256)) in E. revert E. unfold chr.
  pose proof (zb_range x). pose proof (zb_range y).
  assert (∀ z, (z - 256) mod 256 = z mod 256) as Hm.
  { intros z. replace (z - 256) with (z + -1 * 256) by lia. apply Z_mod_plus_full. }
  intros E. assert (zb x mod 256 = zb y mod 256) as E' by (repeat case_match; rewrite ?Hm in E; done).
  rewrite !Z.mod_small in E' by lia. rewrite <- (bz_zb x), <- (bz_zb y). by rewrite E'.
Qed.

(** [bi] of two different bytes *)
Definition bit_loop (x y : byte) : res Z :=
  loop 9 (λ bi, if (bi <? 8) && negb (Z.shiftr (chr x) bi =? Z.shiftr (chr y) bi)
                then Ok (inl (bi + 1)) else Ok (inr bi)) 0.

Lemma shift_chr (x y : byte) bi : 0 <= bi < 8 ->
  (Z.shiftr (chr x) bi =? Z.shiftr (chr y) bi) = (zb x / 2 ^ bi =? zb y / 2 ^ bi).
Proof.
  intros Hbi. rewrite !Z.shiftr_div_pow2 by lia. pose proof (zb_range x). pose proof (zb_range y).
  assert (bi = 0 \/ bi = 1 \/ bi = 2 \/ bi = 3 \/ bi = 4 \/ bi = 5 \/ bi = 6 \/ bi = 7) as Hc by lia.
  unfold chr. destruct char_signed; cbn [andb]; [|done].
  apply eq_true_iff_eq. rewrite !Z.eqb_eq.
  destruct (Z.leb_spec 128 (zb x)), (Z.leb_spec 128 (zb y));
    destruct Hc as [->|[->|[->|[->|[->|[->|[->| ->]]]]]]]; simpl (2 ^ _); rewrite ?Z.div_1_r;
    split; Z.to_euclidean_division_equations; lia.
Qed.

(** the least shift at which two numbers agree *)
Lemma common_shift n : forall x y, x / 2 ^ Z.of_nat n = y / 2 ^ Z.of_nat n ->
  let r := Z.of_nat n - common (bits_n n x) (bits_n n y) in
  0 <= r <= Z.of_nat n /\ x / 2 ^ r = y / 2 ^ r /\ (forall bi, 0 <= bi < r -> x / 2 ^ bi <> y / 2 ^ bi).
Proof.
  induction n as [|n IH]; intros x y H r.
  { split_and!; simpl in *; [lia|lia|done|lia]. }
  assert (Hs : forall z, z / 2 ^ Z.of_nat (Datatypes.S n) = z / 2 ^ Z.of_nat n / 2).
  { intros z. rewrite Nat2Z.inj_succ, Z.pow_succ_r, Z.mul_comm, Z.div_div by lia. done. }
  assert (Hb : forall z, bits_n (Datatypes.S n) z = (z / 2 ^ Z.of_nat n) mod 2 :: bits_n n z) by done.
  unfold r. rewrite !Hb. cbn [common]. rewrite !Hs in H.
  destruct (Z.eqb_spec ((x / 2 ^ Z.of_nat n) mod 2) ((y / 2 ^ Z.of_nat n) mod 2)) as [E|E].
  - assert (Hn : x / 2 ^ Z.of_nat n = y / 2 ^ Z.of_nat n)
      by (clear Hs; Z.to_euclidean_division_equations; lia).
    specialize (IH x y Hn). cbv zeta in IH.
    replace (Z.of_nat (Datatypes.S n) - (1 + common (bits_n n x) (bits_n n y)))
      with (Z.of_nat n - common (bits_n n x) (bits_n n y)) by lia.
    destruct IH as (I1 & I2 & I3). split_and!; [lia|lia|done|done].
  - rewrite Z.sub_0_r. split_and!; [lia|lia|by rewrite !Hs|].
    intros bi Hbi Hq. apply E. f_equal.
    replace (Z.of_nat n) with (bi + (Z.of_nat n - bi)) by lia.
    by rewrite Z.pow_add_r, <- !Z.div_div, Hq by lia.
Qed.

Lemma bit_loop_counts x y : bit_loop x y = Ok (8 - common (bits_n 8 (zb x)) (bits_n 8 (zb y))).
Proof.
  destruct (common_shift 8 (zb x) (zb y)) as (H1 & H2 & H3).
  { pose proof (zb_range x). pose proof (zb_range y). by rewrite !Z.div_small by (simpl; lia). }
  change (Z.of_nat 8) with 8 in *. set (r := 8 - _) in *. clearbody r.
  unfold bit_loop. set (body := fun bi : Z => _).
  assert (Hk : forall k bi, 0 <= bi -> bi + Z.of_nat k = r ->
    loop (k + Datatypes.S (8 - Z.to_nat r)) body bi = Ok r).
  { induction k as [|k IH]; intros bi H0 Hbi; cbn [Nat.add]; rewrite loop_S; unfold body at 1.
    - replace bi with r by lia. destruct (Z.ltb_spec r 8); [|done].
      rewrite shift_chr, H2, Z.eqb_refl by lia. done.
    - rewrite (proj2 (Z.ltb_lt _ _)) by lia. rewrite shift_chr by lia.
      rewrite (proj2 (Z.eqb_neq _ _)) by (apply H3; lia). cbn [andb negb bind]. apply IH; lia. }
  rewrite <- (Hk (Z.to_nat r) 0) by lia. f_equal. lia.
Qed.

(** the search for the first byte that differs, from behind [p] *)
Definition byte_step (a b : mem) (n by_ : Z) : res (Z + Z) :=
  if by_ <? n then
    x ← rd a by_; y ← rd b by_;
    if chr x =? chr y then Ok (inl (by_ + 1)) else Ok (inr by_)
  else Ok (inr by_).

Lemma byte_loop_skip s : ∀ a b p fuel n,
  len p + len s <= n →
  loop (length s + fuel) (byte_step (p ++ s ++ a) (p ++ s ++ b) n) (len p)
  = loop fuel (byte_step (p ++ s ++ a) (p ++ s ++ b) n) (len p + len s).
Proof.
  induction s as [|x s IH]; intros a b p fuel n Hn.
  { simpl. by rewrite len_nil, Z.add_0_r. }
  cbn [length Nat.add]. rewrite loop_S. unfold byte_step at 1. rewrite len_cons in *.
  pose proof (len_nonneg s). rewrite (proj2 (Z.ltb_lt _ _)) by lia.
  cbn [app]. do 2 (rewrite rd_app_r, Z.sub_diag, rd_cons_0 by lia; cbn [bind]).
  rewrite Z.eqb_refl. cbn [bind].
  specialize (IH a b (p ++ [x]) fuel n). rewrite <- !app_assoc in IH. cbn [app] in IH.
  rewrite len_app, len_cons, len_nil in IH. rewrite Z.add_0_r in IH. rewrite IH by lia. f_equal. lia.
Qed.

Lemma bits_app a b : bits_of_bytes (a ++ b) = bits_of_bytes a ++ bits_of_bytes b.
Proof. unfold bits_of_bytes. apply bind_app. Qed.

Lemma bits_n_inj (x y : byte) : bits_n 8 (zb x) = bits_n 8 (zb y) → x = y.
Proof.
  intros H. pose proof (pcmp_bits_n 8 (zb x) (zb y)) as E. rewrite H in E.
  pose proof (pcmp_bits_n 8 (zb y) (zb y)) as E'. rewrite E', Z.sub_diag in E. simpl in E.
  pose proof (zb_range x). pose proof (zb_range y). rewrite !Z.mod_small in E by (simpl; lia).
  rewrite <- (bz_zb x), <- (bz_zb y). f_equal. lia.
Qed.

(** [eq_bitlen] of two keys of [n] bytes that differ is the number of
    leading bits they share (the length of the shared prefix of their bit
    strings), with plain [char] signed or not; of two equal keys it is
    [8 * n + 8], eight bits more than they have. *)
Theorem eq_bitlen_counts (a b : mem) (n : Z) :
  0 <= n -> n <= len a -> n <= len b ->
  eq_bitlen a b n
  = Ok (if decide (slice a 0 n = slice b 0 n) then 8 * n + 8
        else common (bits_of_bytes (slice a 0 n)) (bits_of_bytes (slice b 0 n))).
Proof.
  intros Hn Ha Hb. unfold slice. simpl (Z.to_nat 0). rewrite !drop_0.
  set (a1 := take (Z.to_nat n) a). set (b1 := take (Z.to_nat n) b).
  assert (La : len a1 = n) by (unfold a1, len in *; rewrite length_take; lia).
  assert (Lb : len b1 = n) by (unfold b1, len in *; rewrite length_take; lia).
  assert (Ea : a = a1 ++ drop (Z.to_nat n) a) by (symmetry; apply take_drop).
  assert (Eb : b = b1 ++ drop (Z.to_nat n) b) by (symmetry; apply take_drop).
  generalize dependent a1. generalize dependent b1.
  generalize (drop (Z.to_nat n) a) (drop (Z.to_nat n) b).
  intros ta tb b1 Lb -> a1 La ->.
  clear Ha Hb. unfold eq_bitlen.
  assert (length a1 = length b1) as Hlen by (unfold len in *; lia).
  destruct (part_or_equal a1 b1 Hlen) as [->|(p & x & y & a2 & b2 & -> & -> & Hne)].
  - rewrite decide_True by done.
    pose proof (byte_loop_skip b1 ta tb [] 1 n) as E. rewrite len_nil in E. cbn [app] in E.
    replace (Datatypes.S (Z.to_nat n)) with (length b1 + 1)%nat by (unfold len in Lb; lia).
    unfold byte_step in E. rewrite E by lia. simpl. rewrite (proj2 (Z.ltb_ge _ _)) by lia. cbn [bind].
    rewrite (proj2 (Z.eqb_eq _ _)) by lia. cbn [negb bind]. f_equal. lia.
  - assert (Hd : p ++ x :: a2 <> p ++ y :: b2) by (intros E%app_inv_head; by injection E).
    rewrite decide_False by done. rewrite len_app, len_cons in La.
    pose proof (len_nonneg p). pose proof (len_nonneg a2).
    pose proof (byte_loop_skip p (x :: a2 ++ ta) (y :: b2 ++ tb) [] (Datatypes.S (Z.to_nat n - length p)) n) as E.
    rewrite len_nil in E. cbn [app] in E. rewrite Z.add_0_l in E. specialize (E ltac:(lia)).
    rewrite loop_S in E. unfold byte_step at 2 in E.
    rewrite (proj2 (Z.ltb_lt _ _)) in E by lia.
    rewrite !(rd_app_r p), Z.sub_diag, !rd_cons_0 in E by lia. cbn [bind] in E.
    rewrite chr_eqb, bool_decide_eq_false_2 in E by done. cbn [bind] in E.
    rewrite <- !app_assoc. cbn [app].
    replace (Datatypes.S (Z.to_nat n)) with (length p + Datatypes.S (Z.to_nat n - length p))%nat
      by (unfold len in *; lia).
    unfold byte_step in E. rewrite E. cbn [bind].
    rewrite (proj2 (Z.eqb_neq _ _)) by lia. cbn [negb].
    do 2 (rewrite (rd_app_r p), Z.sub_diag, rd_cons_0 by lia; cbn [bind]).
    fold (bit_loop x y). rewrite bit_loop_counts. cbn [bind]. f_equal.
    rewrite !bits_app, common_app.
    assert (Hx : forall z (l : mem), bits_of_bytes (z :: l) = bits_n 8 (zb z) ++ bits_of_bytes l) by done.
    rewrite !Hx, common_short; [|by rewrite !length_bits_n|by intros ?%bits_n_inj].
    rewrite length_bits_of_bytes. unfold len. lia.
Qed.
End counts.

(** ** A stale entry *)

(** 198.51.100.1:443 and 192.0.2.7:443 *)
Definition fresh_addr : mem := [x02; x00; x01; xbb; xc6; x33; x64; x01] ++ repeat x00 20.
Definition stale_addr : mem := [x02; x00; x01; xbb; xc0; x00; x02; x07] ++ repeat x00 20.

(** the clock stands at 1000 s *)
Definition clock_kernel : Kernel := λ _ c,
  match c with Time => Reply 1000 0 [] [] | _ => Reply 0 0 [] [] end.

(** one group, whose entries last 100 s; the fresh entry was made at 990, the
    stale one at 10 *)
Definition two_entries `{cm : CharModel} : option mphdr :=
  let entry (hdr : mphdr) addr t :=
    '(hdr, v, _) ← mem_add 9 true hdr (serialize_addr addr).1 64;
    match v with
    | Some v => elem_write hdr v (λ v, v <| el_dp := Some 0%nat |> <| el_time := t |>)
    | None => UB
    end in
  match (hdr ← entry (mem_pool MF_EXTRA CMP_BITS) fresh_addr 990; entry hdr stale_addr 10) with
  | Ok hdr => Some hdr
  | _ => None
  end.
Definition cache_world (hdr : mphdr) : world :=
  sample_world empty_pool
    <| w_params := sample_params <| p_mempool := hdr |> |>
    <| w_dps := [some_group [] <| d_cache_ttl := 100 |>] |>.

(** [cache_get] of a stale entry reports nothing, as it should, but the
    call that is to drop the entry passes the key's length in bytes where
    [mem_delete] takes bits: with 8 bits of an IPv4 key, the low byte of the
    family, it removes whichever IPv4 entry the search meets first.  Here the
    fresh entry goes and the stale one stays. *)
Theorem cache_get_deletes_other :
  let K : Kernel := clock_kernel in let cm : CharModel := true in
  ∃ hdr w', two_entries = Some hdr
    ∧ (∃ v, cache_get fresh_addr (cache_world hdr) = Ok (Some v, w'))
    ∧ ∃ w1 w2 w3,
        cache_get stale_addr (cache_world hdr) = Ok (None, w1)
        ∧ cache_get fresh_addr w1 = Ok (None, w2)
        ∧ ∃ v, pool_lookup (serialize_addr stale_addr).1 64 w2 = Ok (Some v, w3) ∧ el_time v = 10.
Proof.
  intros K cm. eexists _, _. split; [by vm_compute|]. split; [eexists; by vm_compute|].
  eexists _, _, _. split; [by vm_compute|]. split; [by vm_compute|]. eexists. split; by vm_compute.
Qed.

(** ** The port range of a group *)

(** [-V 80-443]: both ends as [htons] leaves them *)
Definition range_80_443 : desync_params :=
  some_group [] <| d_pf := (le_val (htons 80), le_val (htons 443)) |>.
Definition to_port (port : Z) : mem := set_port (htons port) fresh_addr.

(** The range of ports of a group is compared as the ports are stored, in
    network order: with [-V 80-443], on a little-endian machine, port 200 is
    not in the range and port 600 is. *)
Theorem port_range_stored_order `{cm : CharModel} :
  check_l34 range_80_443 SOCK_STREAM (to_port 80) = Ok true
  ∧ check_l34 range_80_443 SOCK_STREAM (to_port 443) = Ok true
  ∧ check_l34 range_80_443 SOCK_STREAM (to_port 200) = Ok false
  ∧ check_l34 range_80_443 SOCK_STREAM (to_port 600) = Ok true.
Proof. split_and!; by vm_compute. Qed.

Lemma eq_bitlen_counts_witness : let cm : CharModel := true in
  eq_bitlen (serialize_addr fresh_addr).1 (serialize_addr stale_addr).1 8 = Ok 37.
Proof.
  intros cm. rewrite (eq_bitlen_counts _ _ 8); [by vm_compute|lia|vm_compute; congruence..].
Defined.
