(* ===== verification/Extend.v ===== *)
(** * Connections between client and target: native/byedpi/extend.c

    The hooks around the proxy's traffic: outgoing connections (with
    [remote_sock] and [create_conn] of proxy.c, which call back into
    extend.c), failures and the switch to another group ([on_trigger]), and
    the hooks of the tunnel ([tcp_send_hook], [tcp_recv_hook], [udp_hook]).
    Calls through a callback pointer go through [call_cb]. *)

From Stdlib Require Import ZArith Lia Bool List.
From Stdlib Require Import Strings.Byte.
From stdpp Require Import base tactics list numbers option.
From S2P Require Import Prelude CMem Packets MPool World Conev Desync Addr Groups.

Definition TCP_NODELAY : Z := 1.
Definition TCP_SYNCNT : Z := 7.
Definition TCP_USER_TIMEOUT : Z := 18.
Definition TCP_FASTOPEN_CONNECT : Z := 30.
Definition IPV6_V6ONLY : Z := 26.
Definition SO_RCVTIMEO : Z := 20.
Definition SO_SNDTIMEO : Z := 21.

Section extend.
Context {K : Kernel} `{cm : CharModel}.
Implicit Types (fd : Z) (dst : mem) (b : nat).

(** *** Sockets *)

Definition set_timeout fd (s : Z) : M Z :=
  let* r := setsockopt fd IPPROTO_TCP TCP_USER_TIMEOUT (int_bytes s) in
  if negb (r =? 0) then ret (-1) else ret 0.

(** [struct sockaddr_un]; [strcpy] to its 108 bytes *)
Definition unix_addr (path : mem) : res mem :=
  if 108 <=? len path then UB
  else Ok (le_bytes 2 AF_UNIX ++ path ++ repeat x00 (Z.to_nat (108 - len path))).

(** ask the process behind [path] to protect [conn_fd] *)
Definition protect (conn_fd : Z) (path : mem) : M Z :=
  let* sa := lift (unix_addr path) in
  let* fd := sysret (Socket AF_UNIX SOCK_STREAM) in
  if fd <? 0 then ret (-1) else
  let tv := le_bytes 8 1 ++ le_bytes 8 0 in
  setsockopt fd SOL_SOCKET SO_RCVTIMEO tv ;;;
  setsockopt fd SOL_SOCKET SO_SNDTIMEO tv ;;;
  let* err := sysret (Connect fd sa) in
  if negb (err =? 0) then sys (Close fd) ;;; ret (-1) else
  let* r := sysret (SendFd fd conn_fd) in
  if r <? 0 then sys (Close fd) ;;; ret (-1) else
  let* r := sysret (Recv fd 1) in
  if r <? 1 then sys (Close fd) ;;; ret (-1) else
  sys (Close fd) ;;; ret 0.

Definition socket_mod fd : M Z :=
  let* custom := par p_custom_ttl in
  let* ok := (if custom : bool then
      let* ttl := par p_def_ttl in
      let* r := setttl fd ttl in ret (negb (r <? 0))
    else ret true) in
  if negb ok then ret (-1) else
  let* path := par p_protect_path in
  match path with
  | Some path => protect fd path
  | None => ret 0
  end.

(** the socket, and [*dst] as changed *)
Definition remote_sock dst (type : Z) : M (Z * mem) :=
  let* baddr := par p_baddr in
  let dst := map_fix dst (sa_family baddr =? AF_INET6) in
  if negb (sa_family dst =? sa_family baddr) then ret (-1, dst) else
  let* sfd := nb_socket (sa_family dst) type in
  if sfd <? 0 then ret (-1, dst) else
  let* r := socket_mod sfd in
  if r <? 0 then sys (Close sfd) ;;; ret (-1, dst) else
  let* r := (if sa_family dst =? AF_INET6
             then setsockopt sfd IPPROTO_IPV6 IPV6_V6ONLY (int_bytes 0) else ret 0) in
  if negb (r =? 0) then sys (Close sfd) ;;; ret (-1, dst) else
  let* r := sysret (Bind sfd (slice baddr 0 (SA_SIZE baddr))) in
  if r <? 0 then sys (Close sfd) ;;; ret (-1, dst) else
  ret (sfd, dst).

(** the options of a new connection, in order; [false]: one was refused *)
Definition conn_options sfd : M bool :=
  let* r := setsockopt sfd IPPROTO_TCP TCP_SYNCNT (int_bytes 1) in
  if negb (r =? 0) then ret false else
  let* tfo := par p_tfo in
  let* r := (if tfo : bool then setsockopt sfd IPPROTO_TCP TCP_FASTOPEN_CONNECT (int_bytes 1)
             else ret 0) in
  if negb (r =? 0) then ret false else
  let* r := setsockopt sfd IPPROTO_TCP TCP_NODELAY (int_bytes 1) in
  ret (r =? 0).

Definition create_conn (val : nat) dst (next : evcb) : M Z :=
  let* sa := remote_sock dst SOCK_STREAM in
  let '(sfd, addr) := sa in
  if sfd <? 0 then ret (-1) else
  let* ok := conn_options sfd in
  if negb ok then sys (Close sfd) ;;; ret (-1) else
  let* status := sysret (Connect sfd (slice addr 0 (SA_SIZE addr))) in
  let* e := get_e in
  if (status <? 0) && negb (e =? EINPROGRESS) && negb (e =? EAGAIN)
  then sys (Close sfd) ;;; ret (-1) else
  let* peer := add_event next sfd POLLOUT in
  match peer with
  | None => sys (Close sfd) ;;; ret (-1)
  | Some peer =>
      let* r := mod_etype val 0 in
      if r <? 0 then ret (-1) else
      ev_set val (λ v, v <| e_pair := Some peer |>) ;;;
      ev_set peer (λ p, p <| e_pair := Some val |> <| e_addr := dst |>
                          <| e_flag := FLAG_CONN |>) ;;;
      ev_set val (λ v, v <| e_cb := Some ON_IGNORE |>) ;;;
      ret 0
  end.

(** [val->dp], from the cache if it has none *)
Definition recall_dp (val : nat) dst : M unit :=
  let* v := ev val in
  match e_dp v with
  | Some _ => ret tt
  | None =>
      let* e := cache_get dst in
      match e with
      | Some e => ev_set val (λ v, v <| e_dp_mask := el_dp_mask e |>
                    <| e_detect := el_detect e |> <| e_dp := el_dp e |>)
      | None => ret tt
      end
  end.

Definition connect_hook (fuel : nat) (val : nat) dst (next : evcb) : M Z :=
  recall_dp val dst ;;;
  let* dp := find_dp fuel val None dst in
  match dp with
  | None => ret (-1)
  | Some d =>
      ev_set val (λ v, v <| e_dp := Some d |>) ;;;
      let* g := dpg d in
      let* v := ev val in
      let* delay := par p_delay_conn in
      if (bool_decide (is_Some (d_hosts g)) || negb (d_proto g =? 0))
         && negb (bool_decide (is_Some (e_buff v))) && delay then
        let* r := resp_error (e_fd v) 0 (e_flag v) in
        if r <? 0 then ret (-1) else
        ev_set val (λ v, v <| e_cb := Some RECV_AND_CONNECT |> <| e_addr := dst |>) ;;;
        ret 0
      else if negb (d_out_type g =? 0) then
        let* e := create_conn val (d_out_addr g)
          (if d_out_type g =? MODE_SOCKS5 then ON_SOCKS_CONN else next) in
        (if e =? 0 then
           let* p := ev_get val e_pair in
           let* p := deref p in
           ev_set p (λ p, p <| e_after_conn_cb := Some next |> <| e_addr := dst |>)
         else ret tt) ;;;
        ret e
      else create_conn val dst next
  end.

(** *** Through an upstream SOCKS5 proxy *)

(** [sizeof(struct s5_req)]; the request is sent back, rewritten *)
Definition S5_REQ : Z := 262.

Definition on_socks_recv (call_cb : evcb → nat → Z → M Z) (val : nat) : M Z :=
  let* v := ev val in
  let fail := (let* v := ev val in
               let* cb := deref (e_after_conn_cb v) in call_cb cb val POLLERR) in
  let* r := sys (Recv (e_fd v) S5_REQ) in
  if r_ret r <? 2 then fail else
  let m := splice (repeat x00 (Z.to_nat S5_REQ)) 0 (take (Z.to_nat S5_REQ) (r_data r)) in
  let* ver := lift (rd m 0) in
  let* cmd := lift (rd m 1) in
  if negb (zb ver =? S_VER5) || negb (zb cmd =? S_ER_OK) then fail else
  if negb (e_conn_state v =? FLAG_S5) then
    let* m := lift (wr m 1 S_CMD_CONN) in
    let* lm := lift (s5_set_addr m 0 S5_REQ (e_addr v) false) in
    let* piece := lift (bytes_at 0 lm.1 lm.2) in
    let* s := sysret (Send (e_fd v) piece 0) in
    if s <? 0 then fail else
    ev_set val (λ v, v <| e_conn_state := FLAG_S5 |>) ;;;
    ret 0
  else
    ev_set val (λ v, v <| e_cb := e_after_conn_cb v |>) ;;;
    let* cb := deref (e_after_conn_cb v) in
    call_cb cb val POLLOUT.

Definition on_socks_conn (call_cb : evcb → nat → Z → M Z) (val : nat) (t : Z) : M Z :=
  let* v := ev val in
  let* s := sysret (Send (e_fd v) [bz S_VER5; x01; x00] 0) in
  if s <? 0 then
    let* cb := deref (e_after_conn_cb v) in call_cb cb val t
  else
    let* r := mod_etype val POLLIN in
    if negb (r =? 0) then ret (-1) else
    ev_set val (λ v, v <| e_cb := Some ON_SOCKS_RECV |>) ;;;
    ret 0.

(** *** Failure, and another group *)

(** the saved first request goes back into the client's buffer *)
Definition refill (client : nat) : M unit :=
  let* c := ev client in
  match e_sq_buff c with
  | None => ret tt
  | Some sq =>
      let* s := buf sq in
      (match e_buff c with
       | Some _ => ret tt
       | None => let* nb := buff_pop (b_size s) in ev_set client (λ c, c <| e_buff := nb |>)
       end) ;;;
      let* ob := ev_get client e_buff in
      let* b := deref ob in
      buf_set b (λ x, x <| b_lock := b_lock s |>) ;;;
      on_data b (λ m, m ← memcpy m 0 (b_data s) 0 (b_lock s); Ok (tt, m)) ;;;
      buf_set b (λ x, x <| b_offset := 0 |>)
  end.

Definition reconnect (fuel : nat) (val : nat) : M Z :=
  let* v := ev val in
  if negb (e_flag v =? FLAG_CONN) then ub else
  let* client := deref (e_pair v) in
  refill client ;;;
  ev_set client (λ c, c <| e_round_sent := 0 |> <| e_part_sent := 0 |>) ;;;
  let* r := connect_hook fuel client (e_addr v) ON_CONNECT in
  if negb (r =? 0) then ret (-1) else
  ev_set val (λ v, v <| e_pair := None |>) ;;;
  del_event fuel val ;;;
  ret 0.

(** the next group to try: the loop of [on_trigger]; [lav] is the client *)
Definition trigger_step (type : Z) (lav : nat) (can_reconn : bool) (s : option nat * Z)
  : M (option nat * Z + option nat * Z) :=
  let '(dp, unchecked) := s in
  match dp with
  | None => ret (inr (None, unchecked))
  | Some d =>
      let* g := dpg d in
      let* l := ev lav in
      if (unchecked =? 0) && (d_detect g =? 0) then ret (inr (None, unchecked)) else
      if negb (has (d_bit g) (e_dp_mask l))
         && ((d_detect g =? 0) || has (d_detect g) type)
         && (negb (has (d_auto_level g) AUTO_ONRECONN) || can_reconn)
      then ret (inr (Some d, unchecked)) else
      ev_set lav (λ l, l <| e_dp_mask := Z.lor (e_dp_mask l) (d_bit g) |>) ;;;
      ret (inl (d_next g, Z.land unchecked (Z.lnot (d_bit g))))
  end.

(** reordering of the groups after a failure of [cur] *)
Definition trigger_sort (cur : nat) (next : option nat) (unchecked : Z) : M unit :=
  let* c := dpg cur in
  (match next with
   | Some nx =>
       let* n := dpg nx in
       if has (d_auto_level n) AUTO_SORT && (d_pri n <? d_pri c) && negb (has (d_bit c) unchecked)
       then swop_groups cur nx else ret tt
   | None => ret tt
   end) ;;;
  dp_set cur (λ g, g <| d_pri := d_pri g + 1 |>).

Definition on_trigger (fuel : nat) (type : Z) (val : nat) (client_alive : bool) : M Z :=
  let* v := ev val in
  let* lav := deref (e_pair v) in
  let* l := ev lav in
  let before_req := (e_recv_count l =? 0) && (e_recv_count v =? 0) in
  let can_reconn := (bool_decide (is_Some (e_sq_buff l)) || before_req) && client_alive in
  let* ch := cache_add fuel (e_addr v) (e_host l) (e_host_len l) in
  ev_set lav (λ l, l <| e_host := ch.2 |>) ;;;
  match ch.1 with
  | None => ret (-1)
  | Some cache =>
      let* cur := deref (e_dp l) in
      dp_set cur (λ g, g <| d_fail_count := d_fail_count g + 1 |>) ;;;
      let* c := dpg cur in
      ev_set lav (λ l, l <| e_dp_mask := Z.lor (e_dp_mask l) (d_bit c) |>
                         <| e_detect := type |>) ;;;
      let* mask := ev_get lav e_dp_mask in
      let* head := par p_dp in
      let* nu := mloop fuel (trigger_step type lav can_reconn) (head, mask) in
      let '(next, unchecked) := nu in
      (if negb (has (d_bit c) (el_dp_mask cache)) then trigger_sort cur next unchecked
       else ret tt) ;;;
      match next with
      | None =>
          let* head := par p_dp in
          pool_write cache (λ e, e <| el_dp_mask := 0 |> <| el_detect := 0 |> <| el_dp := head |>) ;;;
          ret (-1)
      | Some nx =>
          let* l := ev lav in
          pool_write cache (λ e, e <| el_dp_mask := Z.lor (el_dp_mask e) (e_dp_mask l) |>
            <| el_detect := e_detect l |> <| el_dp := Some nx |>) ;;;
          let* n := dpg nx in
          if negb (has (d_auto_level n) AUTO_NORECONN) && can_reconn
          then reconnect fuel val else ret (-1)
      end
  end.

Definition on_torst (fuel : nat) (val : nat) : M Z :=
  let* r := on_trigger fuel DETECT_TORST val true in
  if r =? 0 then ret 0 else
  let* p := ev_get val e_pair in
  let* p := deref p in
  let* fd := ev_get p e_fd in
  setsockopt fd SOL_SOCKET SO_LINGER linger ;;;
  ret (-1).

Definition on_fin (fuel : nat) (val : nat) : M Z :=
  let* v := ev val in
  let is_client := negb (e_flag v =? FLAG_CONN) in
  match (if is_client then e_pair v else Some val) with
  | None => ret (-1)
  | Some val =>
      let* v := ev val in
      let* p := deref (e_pair v) in
      let* mark := ev_get p e_mark in
      if negb (mark && (e_round_count v <=? 1)) then ret (-1) else
      let* r := on_trigger fuel DETECT_TLS_ERR val (negb is_client) in
      if r =? 0 then ret 0 else ret (-1)
  end.

Definition on_timeout (fuel : nat) (val : nat) : M Z :=
  ev_set val (λ v, v <| e_to_count := e_to_count v + 1 |>) ;;;
  let* count := ev_get val e_to_count in
  let* lim := par p_to_count_lim in
  if lim <=? count then on_torst fuel val else
  let* ms := par p_ptimeout in
  set_timer fuel val ms ;;;
  ret 0.

Definition on_connerr (fuel : nat) (val : nat) : M Z :=
  on_trigger fuel DETECT_CONNECT val true.

(** the first group whose detector recognises the response *)
Definition response_step (client : nat) (req : mem) (qn : Z) (resp : mem) (sn : Z) (dp : option nat)
  : M (option nat + option nat) :=
  match dp with
  | None => ret (inr None)
  | Some d =>
      let* g := dpg d in
      let* c := ev client in
      if has (d_bit g) (e_dp_mask c) then ret (inl (d_next g)) else
      let* redirect := (if has (d_detect g) DETECT_HTTP_LOCAT
        then lift (is_http_redirect req qn resp sn) else ret false) in
      if redirect : bool then ret (inr (Some d)) else
      let* err := (if has (d_detect g) DETECT_TLS_ERR then
          let* chello := lift (is_tls_chello req qn) in
          let* broken := (if chello : bool
            then let* sh := lift (is_tls_shello resp sn) in ret (negb sh) else ret false) in
          if broken : bool then ret true else lift (neq_tls_sid req qn resp sn)
        else ret false) in
      if err : bool then ret (inr (Some d)) else ret (inl (d_next g))
  end.

Definition on_response (fuel : nat) (val b : nat) (sn : Z) : M Z :=
  let* v := ev val in
  let* client := deref (e_pair v) in
  let* c := ev client in
  let* sq := deref (e_sq_buff c) in
  let* s := buf sq in
  let* x := buf b in
  let* cur := deref (e_dp c) in
  let* g := dpg cur in
  ev_set client (λ c, c <| e_dp_mask := Z.lor (e_dp_mask c) (d_bit g) |>) ;;;
  let* head := par p_dp in
  let* dp := mloop fuel (response_step client (b_data s) (b_size s) (b_data x) sn) head in
  match dp with
  | Some d => let* g := dpg d in on_trigger fuel (d_detect g) val true
  | None => ret (-1)
  end.
End extend.
