(* ===== verification/Hooks.v ===== *)
(** * The hooks of the tunnel: native/byedpi/extend.c, lines 481-554, 584-818

    What the tunnel does with the bytes it moves: choosing the group of a
    connection at its first bytes, sending them through [desync], following
    the TLS records of the answer, keeping the first request for another
    attempt. *)

From Stdlib Require Import ZArith Lia Bool List.
From Stdlib Require Import Strings.Byte.
From stdpp Require Import base tactics list numbers option.
From S2P Require Import Prelude CMem Packets MPool World Conev Desync Addr Groups Extend.

Section hooks.
Context {K : Kernel} `{cm : CharModel}.
Implicit Types (val b : nat) (dst : mem).

(** *** The TLS records of the answer *)

(** one iteration of the [do ... while (pos < n)]: [inr false] is
    [return -1] *)
Definition tls_timer_step val b (n : Z) (pos : Z) : M (Z + bool) :=
  let next (pos : Z) : M (Z + bool) := ret (if pos <? n then inl pos else inr true) in
  let skip (pos : Z) : M (Z + bool) :=
    let* v := ev val in
    let left := e_tls_rec_size v - e_tls_rec_pos v in
    if left <=? 0 then ret (inr false) else
    let left := if n <? pos + left then n - pos else left in
    ev_set val (λ v, v <| e_tls_rec_pos := e_tls_rec_pos v + left |>) ;;;
    next (pos + left) in
  let* v := ev val in
  if e_tls_rec_pos v <? 5 then
    let* c := of_data b (λ m, rd m pos) in
    let* rec := lift (wr (e_tls_rec v) (e_tls_rec_pos v) (zb c)) in
    ev_set val (λ v, v <| e_tls_rec := rec |> <| e_tls_rec_pos := e_tls_rec_pos v + 1 |>) ;;;
    next (pos + 1)
  else if e_tls_rec_pos v =? 5 then
    let* size := lift (ANTOHS (e_tls_rec v) 3) in
    ev_set val (λ v, v <| e_tls_rec_size := size + 5 |>) ;;;
    let* t := lift (rd (e_tls_rec v) 0) in
    if (zb t <? 0x14) || (0x18 <? zb t) then ret (inr false) else skip pos
  else if e_tls_rec_pos v =? e_tls_rec_size v then
    ev_set val (λ v, v <| e_tls_rec_pos := 0 |> <| e_tls_rec_size := 0 |>) ;;;
    next pos
  else skip pos.

Definition try_set_tls_timer (fuel : nat) val b (n : Z) : M Z :=
  let* lim := par p_to_bytes_lim in
  let* v := ev val in
  if negb (lim =? 0) && (lim <? e_recv_count v) then remove_timer val ;;; ret (-1) else
  let* ok := mloop fuel (tls_timer_step val b n) 0 in
  if negb ok then ret (-1) else
  let* ms := par p_ptimeout in
  (if negb (ms =? 0) then
     remove_timer val ;;;
     let* v := ev val in
     if negb (e_tls_rec_pos v =? e_tls_rec_size v) then set_timer fuel val ms else ret tt
   else ret tt) ;;;
  ret 0.

(** *** The first request *)

Definition free_first_req (client : nat) : M unit :=
  let* sq := ev_get client e_sq_buff in
  buff_push sq ;;;
  ev_set client (λ c, c <| e_sq_buff := None |>).

Definition save_hostname (client : nat) b (n : Z) : M unit :=
  let* c := ev client in
  match e_host c with
  | Some _ => ret tt
  | None =>
      let* lh := of_data b (λ m, parse_tls m n) in
      let* lh := (if lh.1 =? 0 then
          let* http := of_data b (λ m, parse_http m n false) in
          ret (http.1.1, match http.1.2 with Some h => Some h | None => lh.2 end)
        else ret lh) in
      let '(l, host) := lh in
      if l =? 0 then ret tt else
      let* ok := malloc (A_BYTES l) in
      if negb ok then ret tt else
      let* o := deref host in
      let* h := of_data b (bytes_at o l) in
      ev_set client (λ c, c <| e_host := Some h |> <| e_host_len := l |>)
  end.

Definition setup_conn (fuel : nat) (client : nat) b (n : Z) : M Z :=
  let* c := ev client in
  let* remote := deref (e_pair c) in
  let* r := ev remote in
  let* x := buf b in
  let* dp := find_dp fuel client (Some (b_data x, n)) (e_addr r) in
  match dp with
  | None => ret (-1)
  | Some d =>
      save_hostname client b n ;;;
      let* mark := of_data b (λ m, is_tls_chello m n) in
      ev_set client (λ c, c <| e_mark := mark |> <| e_dp := Some d |>) ;;;
      let* timeout := par p_timeout in
      let* r' := (if negb (timeout =? 0) then set_timeout (e_fd r) timeout else ret 0) in
      if negb (r' =? 0) then ret (-1) else
      let* g := dpg d in
      let* r' := pre_desync (e_fd r) g in
      if negb (r' =? 0) then ret (-1) else ret 0
  end.

Definition cancel_setup (remote : nat) : M Z :=
  let* r := ev remote in
  let* client := deref (e_pair r) in
  let* d := ev_get client e_dp in
  let* d := deref d in
  let* g := dpg d in
  let* r := post_desync (e_fd r) g in
  if negb (r =? 0) then ret (-1) else ret 0.

Definition handle_err (fuel : nat) val (e : Z) : M Z :=
  if (e =? ECONNRESET) || (e =? ECONNREFUSED) || (e =? ETIMEDOUT) || (e =? EHOSTUNREACH) then
    let* flag := ev_get val e_flag in
    if flag =? FLAG_CONN then on_torst fuel val else on_fin fuel val
  else ret (-1).

(** *** Sending and receiving *)

(** returns the result, the new [*n] and whether [*wait] was set; [store]
    writes [*n], if it is not a local variable of the caller *)
Definition tcp_send_hook (fuel : nat) (remote : nat) b (n : Z) (store : Z → M unit)
  : M (Z * Z * bool) :=
  let* v := ev remote in
  let* x := buf b in
  let off := b_offset x in
  let plain : M (Z * Z * bool) :=
    let* sn := send (e_fd v) b off (n - off) 0 in ret (sn, n, false) in
  let finish (skip : bool) (r : Z * Z * bool) : M (Z * Z * bool) :=
    let '(sn, n, wait) := r in
    let* e := get_e in
    if skip && (sn <? 0) && (e =? EAGAIN) then ret (0, n, wait) else
    if sn <? 0 then let* h := handle_err fuel remote e in ret (h, n, wait) else
    let* p := ev_get remote e_pair in
    let* p := deref p in
    ev_set p (λ p, p <| e_round_sent := e_round_sent p + sn |>) ;;;
    ret (sn, n, wait) in
  if negb (e_flag v =? FLAG_CONN) then
    let* r := plain in finish true r
  else
    let* client := deref (e_pair v) in
    let* c := ev client in
    let* ok := (if e_recv_count c =? n then
        let* r := setup_conn fuel client b n in ret (negb (r <? 0))
      else ret true) in
    if negb ok then ret (-1, n, false) else
    let* c := ev client in
    let* d := deref (e_dp c) in
    let* g := dpg d in
    if negb (check_round (d_rounds g) (i32 (e_round_count c))) then
      let* r := plain in finish true r
    else
      let* r := desync fuel remote b n in store r.1.2 ;;; finish false r.

(** the bookkeeping of a round; [false]: [cancel_setup] failed *)
Definition new_round val : M bool :=
  let* v := ev val in
  (if e_round_sent v =? 0 then
     ev_set val (λ v, v <| e_round_count := u32 (e_round_count v + 1) |>) ;;;
     match e_pair v with
     | Some p => ev_set p (λ p, p <| e_round_sent := 0 |> <| e_part_sent := 0 |>)
     | None => ret tt
     end
   else ret tt) ;;;
  let* v := ev val in
  if (e_flag v =? FLAG_CONN) && (e_round_sent v =? 0) then
    let* p := deref (e_pair v) in
    let* d := ev_get p e_dp in
    let* d := deref d in
    let* g := dpg d in
    if check_round (d_rounds g) (i32 (e_round_count v))
       && negb (check_round (d_rounds g) (i32 (e_round_count v + 1)))
    then let* r := cancel_setup val in ret (r =? 0)
    else ret true
  else ret true.

(** an answer: the TLS timer, the byte limit, the detectors; [true]: the
    connection was started again *)
Definition on_answer (fuel : nat) val b (n : Z) : M bool :=
  let* v := ev val in
  let* client := deref (e_pair v) in
  let* mark := ev_get client e_mark in
  (if mark : bool then
     let* r := try_set_tls_timer fuel val b n in
     if negb (r =? 0) then ev_set client (λ c, c <| e_mark := false |>) else ret tt
   else ret tt) ;;;
  let* v := ev val in
  let* timeout := par p_timeout in
  let* lim := par p_to_bytes_lim in
  (if (0 <=? e_to_count v) && negb (timeout =? 0) && (negb (lim =? 0) && (lim <? e_recv_count v))
   then set_timeout (e_fd v) 0 ;;; ev_set val (λ v, v <| e_to_count := -1 |>)
   else ret tt) ;;;
  let* sq := ev_get client e_sq_buff in
  match sq with
  | None => ret false
  | Some _ =>
      let* r := on_response fuel val b n in
      if r =? 0 then ret true else
      let* v := ev val in
      let* client := deref (e_pair v) in
      free_first_req client ;;; ret false
  end.

(** a client's bytes are kept, while they fit; [false]: no memory *)
Definition keep_request val b (n : Z) : M bool :=
  let* x := buf b in
  let* v := ev val in
  let* sq := (match e_sq_buff v with
    | Some sq => ret (Some sq)
    | None =>
        let* sq := buff_pop (b_size x) in
        ev_set val (λ v, v <| e_sq_buff := sq |>) ;;; ret sq
    end) in
  match sq with
  | None => ret false
  | Some sq =>
      buf_set sq (λ s, s <| b_lock := b_lock s + n |>) ;;;
      let* s := buf sq in
      (if b_size s <=? u64 (b_lock s) then free_first_req val else
       let* x := buf b in
       on_data sq (λ m, m ← memcpy m (b_lock s - n) (b_data x) 0 n; Ok (tt, m))) ;;;
      ret true
  end.

Definition tcp_recv_hook (fuel : nat) val b : M Z :=
  let* v := ev val in
  let* x := buf b in
  let* r := sys (Recv (e_fd v) (b_size x)) in
  let n := r_ret r in
  let* e := get_e in
  if n <? 1 then
    if n =? 0 then on_fin fuel val
    else if e =? EAGAIN then ret 0
    else handle_err fuel val e
  else
  on_data b (λ m, m ← memcpy m 0 (r_data r) 0 n; Ok (tt, m)) ;;;
  ev_set val (λ v, v <| e_recv_count := e_recv_count v + n |>) ;;;
  let* ok := new_round val in
  if negb ok then ret (-1) else
  let* v := ev val in
  let* auto := par p_auto_reconnect in
  if e_flag v =? FLAG_CONN then
    let* again := on_answer fuel val b n in
    ret (if again : bool then 0 else n)
  else if auto && (bool_decide (is_Some (e_sq_buff v)) || (e_recv_count v =? n)) then
    let* ok := keep_request val b n in
    ret (if ok : bool then n else -1)
  else ret n.

Definition recv_and_connect (fuel : nat) val : M Z :=
  let* size := par p_bfsize in
  let* nb := buff_pop size in
  ev_set val (λ v, v <| e_buff := nb |>) ;;;
  match nb with
  | None => ret (-1)
  | Some b =>
      let* n := tcp_recv_hook fuel val b in
      let* v := ev val in
      let* b := deref (e_buff v) in
      buf_set b (λ x, x <| b_lock := n |>) ;;;
      if n <=? 0 then ret (-1) else
      let* v := ev val in
      connect_hook fuel val (e_addr v) ON_CONNECT
  end.

(** *** Datagrams *)

(** the first group for datagrams, from [dp] on *)
Definition udp_dp_step dst (dp : option nat) : M (option nat + option nat) :=
  match dp with
  | None => ret (inr None)
  | Some d =>
      let* g := dpg d in
      let* ok := (if d_detect g =? 0 then lift (check_l34 g SOCK_DGRAM dst) else ret false) in
      if ok : bool then ret (inr (Some d)) else ret (inl (d_next g))
  end.

(** [n] bytes at [b + o] *)
Definition udp_hook (fuel : nat) val b (o n : Z) dst : M Z :=
  let* v := ev val in
  let* p := deref (e_pair v) in
  let* p := ev_get p e_pair in
  let* peer := deref p in
  let* p := ev peer in
  let r := i32 (e_round_count p) in
  let* dp := (match e_dp p with
    | Some d => ret (Some d)
    | None =>
        let* head := par p_dp in
        let* dp := mloop fuel (udp_dp_step dst) head in
        match dp with
        | Some d => ev_set peer (λ p, p <| e_dp := Some d |>) ;;; ret (Some d)
        | None => ret None
        end
    end) in
  match dp with
  | None => ret (-1)
  | Some d =>
      let* g := dpg d in
      if negb (check_round (d_rounds g) r) then send (e_fd v) b o n 0
      else desync_udp fuel (e_fd v) b o n g
  end.
End hooks.
