(* ===== verification/Proxy.v ===== *)
(** * The proxy: native/byedpi/proxy.c, the callbacks and the server

    One callback per kind of descriptor: [on_accept] (the listening socket),
    [on_request] (a client that has not asked yet), [on_connect] (a
    connection being made), [on_tunnel] (both ends of a connection),
    [on_udp_tunnel], [on_ignore].  [call_cb] is the call through [val->cb];
    [start_event_loop] runs the whole.

    A datagram's reply is its bytes followed by the sender's address.  The
    bytes of a [sockaddr_u] the kernel does not fill are taken to be zero. *)

From Stdlib Require Import ZArith Lia Bool List.
From Stdlib Require Import Strings.Byte Strings.Ascii Strings.String.
From stdpp Require Import base tactics list numbers option.
From S2P Require Import Prelude CMem Packets MPool World Conev Desync Addr Groups Extend Hooks.

Definition SO_ORIGINAL_DST : Z := 80.
Definition SO_REUSEADDR : Z := 2.
Definition SO_ERROR : Z := 4.

Section proxy.
Context {K : Kernel} `{cm : CharModel}.
Implicit Types (val : nat) (dst : mem).

Definition union_addr (m : mem) : mem := take SOCKADDR_U (m ++ repeat x00 SOCKADDR_U).

(** [mod_etype(a, x) || mod_etype(b, y)]: [true] if one fails *)
Definition mod_both (a : nat) (x : Z) (b : nat) (y : Z) : M bool :=
  let* r := mod_etype a x in
  if negb (r =? 0) then ret true else
  let* r := mod_etype b y in ret (negb (r =? 0)).

(** *** UDP ASSOCIATE *)

Definition udp_associate (fuel : nat) val dst : M Z :=
  let* ua := remote_sock dst SOCK_DGRAM in
  let ufd := ua.1 in
  if ufd <? 0 then ret (-1) else
  let* peer := add_event ON_UDP_TUNNEL ufd POLLIN in
  match peer with
  | None => sys (Close ufd) ;;; ret (-1)
  | Some peer =>
      let* v := ev val in
      let* r := sys (Getsockname (e_fd v)) in
      if negb (r_ret r =? 0) then ret (-1) else
      let addr := set_port [x00; x00] (union_addr (r_data r)) in
      let* cfd := nb_socket (sa_family addr) SOCK_DGRAM in
      if cfd <? 0 then del_event fuel peer ;;; ret (-1) else
      let* r := sysret (Bind cfd (slice addr 0 (SA_SIZE addr))) in
      if r <? 0 then del_event fuel peer ;;; sys (Close cfd) ;;; ret (-1) else
      let* client := add_event ON_UDP_TUNNEL cfd POLLIN in
      match client with
      | None => del_event fuel peer ;;; sys (Close cfd) ;;; ret (-1)
      | Some client =>
          ev_set val (λ v, v <| e_cb := Some ON_IGNORE |> <| e_pair := Some client |>) ;;;
          ev_set client (λ c, c <| e_pair := Some peer |>) ;;;
          ev_set peer (λ p, p <| e_pair := Some val |>) ;;;
          let* v := ev val in
          ev_set client (λ c, c <| e_flag := FLAG_CONN |>
                                <| e_addr := set_port [x00; x00] (e_addr v) |>) ;;;
          let* r := sys (Getsockname cfd) in
          if negb (r_ret r =? 0) then ret (-1) else
          let addr := union_addr (r_data r) in
          let* lm := lift (s5_set_addr (x05 :: repeat x00 (Z.to_nat (S5_REQ - 1))) 0 S5_REQ addr false) in
          if lm.1 <? 0 then ret (-1) else
          let* piece := lift (bytes_at 0 lm.1 lm.2) in
          let* r := sysret (Send (e_fd v) piece 0) in
          if r <? 0 then ret (-1) else
          let* r := mod_etype val POLLRDHUP in
          if negb (r =? 0) then ret (-1) else ret 0
      end
  end.

(** *** Accepting *)

Definition transp_conn (fuel : nat) val : M Z :=
  let* v := ev val in
  let* r4 := sys (Getsockopt (e_fd v) IPPROTO_IP SO_ORIGINAL_DST 28) in
  let* remote := (if negb (r_ret r4 =? 0) then
      let* r6 := sys (Getsockopt (e_fd v) IPPROTO_IPV6 SO_ORIGINAL_DST 28) in
      ret (if negb (r_ret r6 =? 0) then None else Some (union_addr (r_data r6)))
    else ret (Some (union_addr (r_data r4)))) in
  match remote with
  | None => ret (-1)
  | Some remote =>
      let* r := sys (Getsockname (e_fd v)) in
      if r_ret r <? 0 then ret (-1) else
      let self := union_addr (r_data r) in
      if (sa_family self =? sa_family remote) && (sin_port self =? sin_port remote)
         && addr_equ self remote then ret (-1) else
      let* error := connect_hook fuel val remote ON_CONNECT in
      if negb (error =? 0) then ret (-1) else ret 0
  end.

(** one connection: [inr] leaves the loop *)
Definition accept_step (fuel : nat) val (_ : unit) : M (unit + Z) :=
  let* fd := ev_get val e_fd in
  let* r := sys (Accept4 fd) in
  let c := r_ret r in
  let* e := get_e in
  if c <? 0 then
    if (e =? EAGAIN) || (e =? EINPROGRESS) then ret (inr 0)
    else pool_set (λ p, p <| ph_brk := true |>) ;;; ret (inr (-1))
  else
  let* r' := setsockopt c IPPROTO_TCP TCP_NODELAY (int_bytes 1) in
  if negb (r' =? 0) then sys (Close c) ;;; ret (inl tt) else
  let* rval := add_event ON_REQUEST c POLLIN in
  match rval with
  | None => sys (Close c) ;;; ret (inl tt)
  | Some rval =>
      ev_set rval (λ v, v <| e_addr := union_addr (r_data r) |>) ;;;
      let* mode := par p_mode in
      let* lost := (if has mode MODE_TRANSPARENT then
          let* r := transp_conn fuel rval in ret (r <? 0)
        else ret false) in
      (if lost && (Z.land mode (Z.lnot MODE_TRANSPARENT) =? 0) then del_event fuel rval
       else ret tt) ;;;
      ret (inl tt)
  end.

Definition on_accept (fuel : nat) val : M Z := mloop fuel (accept_step fuel val) tt.

(** *** The tunnel *)

(** bytes were left from before: [None] is "go on and read" *)
Definition tunnel_flush (fuel : nat) val (peer : nat) : M (option Z) :=
  let* v := ev val in
  match e_buff v with
  | None => ret None
  | Some b =>
      let* x := buf b in
      let n := b_lock x - b_offset x in
      let* r := tcp_send_hook fuel peer b (b_lock x) (λ n, buf_set b (λ x, x <| b_lock := n |>)) in
      let '(sn, _, wait) := r in
      if sn <? 0 then ret (Some (-1)) else
      if (sn <? n) || wait then
        let* v := ev val in
        let* b := deref (e_buff v) in
        buf_set b (λ x, x <| b_offset := u32 (b_offset x + sn) |>) ;;;
        ret (Some 0)
      else
        let* v := ev val in
        buff_push (e_buff v) ;;;
        ev_set val (λ v, v <| e_buff := None |>) ;;;
        let* bad := mod_both val POLLIN peer POLLIN in
        ret (if bad : bool then Some (-1) else None)
  end.

(** read and send once: [inr (Some r)] returns [r], [inr None] ends the loop *)
Definition tunnel_step (fuel : nat) val (peer b : nat) (_ : unit) : M (unit + option Z) :=
  let* n := tcp_recv_hook fuel val b in
  if n =? 0 then ret (inr None) else
  if n <? 0 then ret (inr (Some (-1))) else
  let* r := tcp_send_hook fuel peer b n (λ _, ret tt) in
  let '(sn, n, wait) := r in
  if sn <? 0 then ret (inr (Some (-1))) else
  if (sn <? n) || wait then
    buf_set b (λ x, x <| b_lock := n |> <| b_offset := u32 sn |>) ;;;
    let* bad := mod_both val 0 peer (if negb wait then POLLOUT else 0) in
    ret (inr (Some (if bad : bool then -1 else 0)))
  else
    let* x := buf b in
    ret (if n =? b_size x then inl tt else inr None).

Definition on_tunnel (fuel : nat) val (etype : Z) : M Z :=
  let* v := ev val in
  let* late := (if etype =? POLLTIMEOUT then
      let* p := deref (e_pair v) in
      let* p := ev p in
      ret (negb (bool_decide (is_Some (e_buff p))) && negb (e_round_count v =? 0))
    else ret false) in
  if late : bool then on_timeout fuel val else
  let* ends := (if has etype POLLOUT || (etype =? POLLTIMEOUT) then
      let* val := deref (e_pair v) in
      let* p := ev_get val e_pair in
      ret (val, p)
    else ret (val, e_pair v)) in
  let '(val, peer) := ends in
  let* v := ev val in
  let* done := (match e_buff v with
    | Some _ => let* peer := deref peer in tunnel_flush fuel val peer
    | None => ret None
    end) in
  match done with
  | Some r => ret r
  | None =>
      let* size := par p_bfsize in
      let* nb := buff_pop size in
      match nb with
      | None => ret (-1)
      | Some b =>
          ev_set val (λ v, v <| e_buff := Some b |>) ;;;
          let* peer := deref peer in
          let* r := mloop fuel (tunnel_step fuel val peer b) tt in
          match r with
          | Some r => ret r
          | None =>
              let* v := ev val in
              buff_push (e_buff v) ;;;
              ev_set val (λ v, v <| e_buff := None |>) ;;;
              ret 0
          end
      end
  end.

(** *** Datagrams *)

(** a datagram of the client: the result of sending it; [None]: drop it;
    [Some (inl r)]: return [r] *)
Definition udp_out (fuel : nat) val (peer b : nat) (n : Z) (addr : mem) : M (option (Z + Z) * mem) :=
  let* v := ev val in
  let* go := (if sin_port (e_addr v) =? 0 then
      if negb (addr_equ addr (e_addr v)) then ret (Some 0) else
      let* r := sysret (Connect (e_fd v) (slice addr 0 (SA_SIZE addr))) in
      if r <? 0 then ret (Some (-1)) else
      ev_set val (λ v, v <| e_addr := addr |>) ;;; ret None
    else ret None) in
  match go with
  | Some r => ret (Some (inl r), addr)
  | None =>
      let* frag := of_data b (λ m, rd m 2) in
      if negb (zb frag =? 0) then ret (None, addr) else
      let* x := buf b in
      let* oa := s5_get_addr (b_data x) 0 n addr SOCK_DGRAM in
      let '(offs, addr) := oa in
      if offs <? 0 then ret (Some (inl (-1)), addr) else
      let* p := ev peer in
      let* baddr := par p_baddr in
      let addr' := if sa_family baddr =? AF_INET6 then map_fix addr true else addr in
      let* go := (if sin_port (e_addr p) =? 0 then
          if negb (sa_family baddr =? sa_family addr') then ret false else
          let* r := sysret (Connect (e_fd p) (slice addr' 0 (SA_SIZE addr'))) in
          if r <? 0 then ret false else
          ev_set peer (λ p, p <| e_addr := addr' |>) ;;; ret true
        else ret true) in
      let addr := if sin_port (e_addr p) =? 0 then addr' else addr in
      if negb go then ret (Some (inl (-1)), addr) else
      let* p := ev peer in
      let* ns := udp_hook fuel peer b offs (n - offs) (e_addr p) in
      ret (Some (inr ns), addr)
  end.

(** an answer: the header is written in front of it *)
Definition udp_in (peer b : nat) (n : Z) (addr : mem) : M (option (Z + Z) * mem) :=
  let addr := map_fix addr false in
  on_data b (λ m, m ← memset m 0 0 S_SIZE_I6; Ok (tt, m)) ;;;
  let* offs := on_data b (λ m, s5_set_addr m S_SIZE_I6 S_SIZE_I6 addr true) in
  if (offs <? 0) || (S_SIZE_I6 <? offs) then ret (Some (inl (-1)), addr) else
  let* p := ev peer in
  let* ns := send (e_fd p) b (S_SIZE_I6 - offs) (offs + n) 0 in
  ret (Some (inr ns), addr).

Definition udp_step (fuel : nat) val (peer b : nat) (addr : mem) : M (mem + Z) :=
  let* v := ev val in
  let* x := buf b in
  let off := if negb (e_flag v =? FLAG_CONN) then S_SIZE_I6 else 0 in
  let* r := sys (Recvfrom (e_fd v) (b_size x - off)) in
  let n := r_ret r in
  let* err := get_e in
  if n <? 0 then
    if err =? EAGAIN then ret (inr 0)
    else if (err =? EMSGSIZE) || (err =? ECONNREFUSED) then ret (inl addr)
    else ret (inr (-1))
  else
  on_data b (λ m, m ← memcpy m off (r_data r) 0 n; Ok (tt, m)) ;;;
  let addr := splice addr 0 (take SOCKADDR_U (drop (Z.to_nat n) (r_data r))) in
  ev_set val (λ v, v <| e_recv_count := e_recv_count v + n |>) ;;;
  (if e_round_sent v =? 0 then
     ev_set val (λ v, v <| e_round_count := u32 (e_round_count v + 1) |>
                        <| e_round_sent := e_round_sent v + n |>) ;;;
     ev_set peer (λ p, p <| e_round_sent := 0 |>)
   else ret tt) ;;;
  let* na := (if e_flag v =? FLAG_CONN then udp_out fuel val peer b n addr
              else udp_in peer b n addr) in
  let '(res, addr) := na in
  match res with
  | None => ret (inl addr)
  | Some (inl r) => ret (inr r)
  | Some (inr ns) =>
      let* err := get_e in
      if ns <? 0 then
        if (err =? EMSGSIZE) || (err =? ECONNREFUSED) then ret (inl addr) else ret (inr (-1))
      else ret (inl addr)
  end.

Definition on_udp_tunnel (fuel : nat) val : M Z :=
  let* size := par p_bfsize in
  let* nb := buff_ppop size in
  match nb with
  | None => ret (-1)
  | Some b =>
      let* v := ev val in
      let* p := deref (e_pair v) in
      let* peer := (if e_flag v =? FLAG_CONN then ret p else
        let* q := ev_get p e_pair in deref q) in
      mloop fuel (udp_step fuel val peer b) zero_addr
  end.

(** *** Requests *)

(** [val->buff] becomes [b], which holds [n] bytes *)
Definition save_buffer val (b : nat) (n : Z) : M Z :=
  let* size := par p_bfsize in
  let* nb := buff_pop size in
  ev_set val (λ v, v <| e_buff := nb |>) ;;;
  if decide (nb ≠ Some b) then ub else
  buf_set b (λ x, x <| b_lock := n |>) ;;;
  ev_set val (λ v, v <| e_recv_count := n |> <| e_round_count := u32 (e_round_count v + 1) |>) ;;;
  let* auto := par p_auto_reconnect in
  if auto : bool then
    let* sq := buff_pop size in
    ev_set val (λ v, v <| e_sq_buff := sq |>) ;;;
    match sq with
    | None => ret (-1)
    | Some sq =>
        let* x := buf b in
        buf_set sq (λ s, s <| b_lock := b_lock x |>) ;;;
        on_data sq (λ m, m ← memcpy m 0 (b_data x) 0 (b_lock x); Ok (tt, m)) ;;;
        ret 0
    end
  else ret 0.

(** the result, and the new [*dst] *)
Definition handle_s5 (fuel : nat) val (b : nat) (n : Z) dst : M Z :=
  let* v := ev val in
  let* x := buf b in
  let m := b_data x in
  if negb (e_flag v =? FLAG_S5) then
    let* r := auth_socks5 (e_fd v) m n in
    if negb (r =? 0) then ret (-1) else
    ev_set val (λ v, v <| e_flag := FLAG_S5 |>) ;;;
    ret 0
  else if n <? S_SIZE_MIN then ret (-1) else
  let* cmd := lift (rd m 1) in
  let refuse (s5e : Z) : M Z := resp_s5_error (e_fd v) (- s5e) ;;; ret 1 in
  let* udp := par p_udp in
  if zb cmd =? S_CMD_CONN then
    let* r := s5_get_addr m 0 n dst SOCK_STREAM in
    if 0 <=? r.1 then connect_hook fuel val r.2 ON_CONNECT else refuse r.1
  else if (zb cmd =? S_CMD_AUDP) && udp then
    let* r := s5_get_addr m 0 n dst SOCK_DGRAM in
    if 0 <=? r.1 then udp_associate fuel val r.2 else refuse r.1
  else refuse (- S_ER_CMD).

(** what the first bytes ask for: [inr r] returns [r] at once; [inl (error,
    skip_conn, dst)] goes on *)
Definition classify (fuel : nat) val (b : nat) (n : Z) : M (Z * bool * mem + Z) :=
  let dst := zero_addr in
  let* x := buf b in
  let m := b_data x in
  let* mode := par p_mode in
  let* c := lift (rd m 0) in
  let* connect := (if has mode MODE_HTTP && (7 <? n)
    then lift (memcmp m 0 (bytes_of "CONNECT") 0 7) else ret 1) in
  let* chello := (if has mode MODE_RAWTLS then lift (is_tls_chello m n) else ret false) in
  if has mode MODE_SOCKS5 && (zb c =? S_VER5) then
    let* error := handle_s5 fuel val b n dst in
    if 0 <? error then ret (inr (-1)) else ret (inl (error, true, dst))
  else if has mode MODE_SOCKS4 && (zb c =? S_VER4) then
    ev_set val (λ v, v <| e_flag := FLAG_S4 |>) ;;;
    let* r := s4_get_addr m n dst in ret (inl (r.1, false, r.2))
  else if connect =? 0 then
    ev_set val (λ v, v <| e_flag := FLAG_HTTP |>) ;;;
    let* r := http_get_addr m n dst in ret (inl (r.1, false, r.2))
  else if has mode MODE_SHADOWSOCKS && (chr c <=? S_ATP_I6) then
    let* r := s5_get_addr m (-3) (n + 3) dst SOCK_STREAM in
    let '(req_size, dst) := r in
    if req_size <? 0 then ret (inr (-1)) else
    let k := req_size - 3 in
    on_data b (λ m, m ← memmove m 0 k (n - k); Ok (tt, m)) ;;;
    let* r := save_buffer val b (n - k) in
    if negb (r =? 0) then ret (inr (-1)) else ret (inl (0, false, dst))
  else if chello then
    let* r := tls_get_addr m n dst in
    let '(error, dst) := r in
    let* bad := (if error =? 0 then let* r := save_buffer val b n in ret (negb (r =? 0))
                 else ret false) in
    if bad : bool then ret (inr (-1)) else ret (inl (error, false, dst))
  else if has mode MODE_TCP then
    let* r := save_buffer val b n in
    if negb (r =? 0) then ret (inr (-1)) else ret (inl (0, false, dst))
  else ret (inr (-1)).

Definition on_request (fuel : nat) val : M Z :=
  let* size := par p_bfsize in
  let* nb := buff_ppop size in
  match nb with
  | None => ret (-1)
  | Some b =>
      let* v := ev val in
      let* x := buf b in
      let* r := sys (Recv (e_fd v) (b_size x)) in
      let n := r_ret r in
      if n <? 1 then ret (-1) else
      on_data b (λ m, m ← memcpy m 0 (r_data r) 0 n; Ok (tt, m)) ;;;
      let* req := classify fuel val b n in
      match req with
      | inr r => ret r
      | inl (error, skip_conn, dst) =>
          let* error := (if (error =? 0) && negb skip_conn
                         then connect_hook fuel val dst ON_CONNECT else ret error) in
          if negb (error =? 0) then
            let* v := ev val in
            resp_error (e_fd v) ENOENT (e_flag v) ;;; ret (-1)
          else ret 0
      end
  end.

Definition on_connect (fuel : nat) val (et : Z) : M Z :=
  let* early := (if has et POLLERR then
      let* v := ev val in
      let* r := sys (Getsockopt (e_fd v) SOL_SOCKET SO_ERROR 4) in
      if negb (r_ret r =? 0) then ret (inr (-1)) else
      let error := int_at (r_data r) 0 in
      let error := if error =? 0 then ECONNREFUSED else error in
      if (error =? ECONNRESET) || (error =? ECONNREFUSED) || (error =? ETIMEDOUT) then
        let* r := on_connerr fuel val in
        ret (if r =? 0 then inr 0 else inl error)
      else ret (inl error)
    else
      let* v := ev val in
      let* r := mod_etype val POLLIN in
      let* bad := (if negb (r =? 0) then ret true else
        let* p := deref (e_pair v) in
        let* r := mod_etype p POLLIN in ret (negb (r =? 0))) in
      if bad : bool then ret (inr (-1)) else
      ev_set val (λ v, v <| e_cb := Some ON_TUNNEL |>) ;;;
      let* p := deref (e_pair v) in
      ev_set p (λ p, p <| e_cb := Some ON_TUNNEL |>) ;;;
      ret (inl 0)) in
  match early with
  | inr r => ret r
  | inl error =>
      let* v := ev val in
      let* p := deref (e_pair v) in
      let* c := ev p in
      if (error =? 0) && bool_decide (is_Some (e_buff c)) then on_tunnel fuel val et else
      let* r := resp_error (e_fd c) error (e_flag c) in
      if r <? 0 then ret (-1) else
      ret (if negb (error =? 0) then -1 else 0)
  end.

Definition on_ignore (etype : Z) : M Z :=
  ret (if has etype (Z.lor POLLHUP (Z.lor POLLERR POLLRDHUP)) then -1 else 0).

(** *** The server *)

(** [( *val->cb)(pool, val, et)]; [depth]: callbacks calling callbacks *)
Fixpoint call_cb (depth fuel : nat) (cb : evcb) val (et : Z) : M Z :=
  match depth with
  | O => λ _, NoFuel
  | Datatypes.S depth =>
      match cb with
      | ON_ACCEPT => on_accept fuel val
      | ON_REQUEST => on_request fuel val
      | ON_TUNNEL => on_tunnel fuel val et
      | ON_UDP_TUNNEL => on_udp_tunnel fuel val
      | ON_CONNECT => on_connect fuel val et
      | ON_IGNORE => on_ignore et
      | ON_SOCKS_CONN => on_socks_conn (call_cb depth fuel) val et
      | ON_SOCKS_RECV => on_socks_recv (call_cb depth fuel) val
      | RECV_AND_CONNECT => recv_and_connect fuel val
      end
  end.

(** [items]: the contents of fresh memory, see [init_pool] *)
Definition start_event_loop (depth fuel : nat) (items : list eval) (srvfd : Z) : M Z :=
  let* max_open := par p_max_open in
  let* ok := init_pool fuel (i32 (max_open * 2 + 1)) items in
  if negb ok then sys (Close srvfd) ;;; ret (-1) else
  let* e := add_event ON_ACCEPT srvfd POLLIN in
  match e with
  | None => destroy_pool fuel ;;; sys (Close srvfd) ;;; ret (-1)
  | Some _ =>
      loop_event fuel (call_cb depth fuel) ;;;
      destroy_pool fuel ;;;
      ret 0
  end.

Definition listen_socket (srv : mem) : M Z :=
  let* srvfd := nb_socket (sa_family srv) SOCK_STREAM in
  if srvfd <? 0 then ret (-1) else
  let* r := setsockopt srvfd SOL_SOCKET SO_REUSEADDR (int_bytes 1) in
  if r =? -1 then sys (Close srvfd) ;;; ret (-1) else
  let* r := sysret (Bind srvfd (slice srv 0 (SA_SIZE srv))) in
  if r <? 0 then sys (Close srvfd) ;;; ret (-1) else
  let* r := sysret (Listen srvfd 10) in
  if negb (r =? 0) then sys (Close srvfd) ;;; ret (-1) else
  ret srvfd.

(** signal handlers are not modelled *)
Definition run (depth fuel : nat) (items : list eval) (srv : mem) : M Z :=
  let* fd := listen_socket srv in
  if fd <? 0 then ret (-1) else start_event_loop depth fuel items fd.
End proxy.
