(* ===== verification/ProxySpec.v ===== *)
(** * byedpi: the tunnel hands on every byte of the answer

    While a client and its target are joined, what the target sends reaches
    the client whole, once and in order: what was received is always what the
    client's socket took followed by what the tunnel keeps
    ([tunnel_answers]). *)

From Stdlib Require Import ZArith Lia Bool List.
From Stdlib Require Import Strings.Byte.
From stdpp Require Import base tactics list numbers option sets.
From S2P Require Import Prelude CMem Packets MPool World Conev ConevTimers ConevPool Desync DesyncSpec Groups Extend Hooks Proxy.

(** ** What is received, and what is kept *)

Definition got (fd : Z) (cr : call * reply) : mem :=
  match cr.1 with
  | Recv fd' _ => if (fd' =? fd) && (0 <? r_ret cr.2) then take (Z.to_nat (r_ret cr.2)) (r_data cr.2) else []
  | _ => []
  end.
Definition received (fd : Z) (tr : history) : mem := concat (map (got fd) tr).

Lemma received_snoc fd tr c r : received fd (tr ++ [(c, r)]) = received fd tr ++ got fd (c, r).
Proof. unfold received. rewrite map_app, concat_app. simpl. by rewrite app_nil_r. Qed.

(** the bytes of a buffer that wait *)
Definition pending (bufs : list (option buffer)) (o : option nat) : mem :=
  match o with
  | Some b =>
      match bufs !! b with
      | Some (Some x) => slice (b_data x) (b_offset x) (b_lock x - b_offset x)
      | _ => []
      end
  | None => []
  end.

(** a buffer with the memory of its size *)
Definition fit (x : buffer) : Prop := 0 < b_size x < 2 ^ 31 ∧ len (b_data x) = b_size x.

(** what a tunnel has to do with an eval *)
Definition face (e : eval) := (e_fd e, e_pair e, e_flag e, e_buff e, e_sq_buff e, e_mark e, e_dp e).

Section tunnel.
Context {K : Kernel} `{cm : CharModel}.
(** the client, the connection to the target, their descriptors; the group;
    the history when they were joined *)
Context (c r : nat) (cfd rfd cflag : Z) (d : nat) (tr0 : history).
Context (Hcfd : 0 < cfd) (Hrfd : 0 < rfd) (Hcflag : cflag ≠ FLAG_CONN).
Implicit Types (w : world) (o : option nat) (fl : list nat) (R q : mem).

Record ends o w : Prop := Ends {
  en_client : ∃ x, ph_items (w_pool w) !! c = Some x ∧ (e_fd x, e_pair x, e_flag x) = (cfd, Some r, cflag)
    ∧ (e_sq_buff x, e_mark x, e_dp x) = (None, false, Some d);
  en_remote : ∃ y, ph_items (w_pool w) !! r = Some y ∧ (e_fd y, e_pair y, e_flag y, e_buff y) = (rfd, Some c, FLAG_CONN, o);
  en_group : is_Some (w_dps w !! d);
  en_size : 0 < p_bfsize (w_params w) < 2 ^ 31
}.
(** the free buffers, and the one in use *)
Record store o fl w : Prop := Store {
  st_free : free_list w fl;
  st_idle : ∀ b, b ∈ fl → ∃ x, w_bufs w !! b = Some (Some x) ∧ fit x ∧ b_offset x = 0;
  st_own : ∀ b, o = Some b → b ∉ fl ∧ ∃ x, w_bufs w !! b = Some (Some x) ∧ fit x
}.
(** [R] has come from the target, [q] of it the client has not got *)
Definition flow R q w : Prop :=
  ∃ tr, w_trace w = tr0 ++ tr ∧ received rfd tr = R ∧ R = accepted cfd tr ++ q.
Definition tun o fl R q w : Prop := ends o w ∧ store o fl w ∧ flow R q w.

(** the tunnel between two events *)
Definition answering w : Prop := ∃ o fl R, tun o fl R (pending (w_bufs w) o) w
  ∧ ∀ b x, o = Some b → w_bufs w !! b = Some (Some x) → 0 <= b_offset x <= b_lock x ∧ b_lock x <= b_size x.
(** the client has got the first of the bytes that have come *)
Definition in_order w : Prop := ∃ tr, w_trace w = tr0 ++ tr ∧ accepted cfd tr `prefix_of` received rfd tr.

Lemma tun_in_order o fl R q w : tun o fl R q w → in_order w.
Proof. intros (_ & _ & tr & E & H1 & H2). exists tr. split; [done|]. rewrite H1, H2. by exists q. Qed.

(** *** Steps that do not move bytes *)

Definition other_call (cl : call) : Prop :=
  match cl with Send _ _ _ | Recv _ _ => False | _ => True end.

Lemma tun_after o fl R q w cl : other_call cl → tun o fl R q w → tun o fl R q (after cl w).
Proof.
  intros Hc ([] & [] & tr & E & H1 & H2). split_and!; [done| |].
  - split; [|done..]. by destruct st_free0.
  - exists (tr ++ [(cl, kernel (w_trace w) cl)]). simpl. rewrite E, app_assoc. split; [done|].
    rewrite received_snoc, accepted_snoc. by destruct cl; rewrite ?app_nil_r.
Qed.

Lemma tun_sysret o fl R q w cl (Q : Z → world → Prop) : other_call cl → tun o fl R q w →
  (∀ z w', w_bufs w' = w_bufs w → tun o fl R q w' → Q z w') → wpm (sysret cl) w Q.
Proof. intros Hc H HQ. unfold wpm, sysret. mrun. by apply HQ, tun_after. Qed.

Lemma ends_set o w u g : (∀ e, face (g e) = face e) → ends o w →
  ends o (w <| w_pool := w_pool w <| ph_items := alter g u (ph_items (w_pool w)) |> |>).
Proof.
  unfold face. intros Hg [(x & Hx & X1 & X2) (y & Hy & Y) H3 H4]. split; try done; simpl.
  - rewrite list_lookup_alter. case_decide; [|by exists x]. subst. rewrite Hx. exists (g x). specialize (Hg x).
    split_and!; [done| |]; congruence.
  - rewrite list_lookup_alter. case_decide; [|by exists y]. subst. rewrite Hy. exists (g y). specialize (Hg y).
    split_and!; [done|]; congruence.
Qed.

Lemma tun_set o fl R q w u g (Q : unit → world → Prop) : (∀ e, face (g e) = face e) →
  (u = c ∨ u = r) → tun o fl R q w →
  (∀ w', w_bufs w' = w_bufs w → tun o fl R q w' → Q tt w') → wpm (ev_set u g) w Q.
Proof.
  intros Hg Hu (He & [] & Hf) HQ.
  assert (is_Some (ph_items (w_pool w) !! u)) as [e E].
  { destruct He as [(x & Hx & _) (y & Hy & _) _ _]. by destruct Hu as [->| ->]. }
  eapply wpm_ev_set; [exact E|]. apply HQ; [done|]. split_and!; [by apply ends_set| |done].
  split; [|done..]. by destruct st_free0.
Qed.

(** *** Buffers *)

Lemma tun_same o fl fl' R q w w' :
  ph_items (w_pool w') = ph_items (w_pool w) → w_dps w' = w_dps w → w_params w' = w_params w → w_trace w' = w_trace w →
  store o fl' w' → tun o fl R q w → tun o fl' R q w'.
Proof.
  intros E1 E2 E3 E4 Hs ([] & _ & Hf). split_and!; [|done|unfold flow; by rewrite E4].
  split; by rewrite ?E1, ?E2, ?E3.
Qed.

Lemma free_list_root w w' fl : w_bufs w' = w_bufs w → ph_root_buff (w_pool w') = ph_root_buff (w_pool w) →
  ph_buff_count (w_pool w') = ph_buff_count (w_pool w) → free_list w fl → free_list w' fl.
Proof. intros E1 E2 E3 []. by split; rewrite ?E1, ?E2, ?E3. Qed.

(** a buffer that is not in use any more, or not yet *)
Definition spare (b : nat) fl w : Prop :=
  b ∉ fl ∧ ∃ x, w_bufs w !! b = Some (Some x) ∧ fit x ∧ b_offset x = 0.

Lemma tun_pop fl R q w (Q : option nat → world → Prop) : tun None fl R q w →
  (∀ w', tun None [] R q w' → Q None w') →
  (∀ b fl' w', tun None fl' R q w' → spare b fl' w' → Q (Some b) w') →
  wpm (buff_pop (p_bfsize (w_params w))) w Q.
Proof.
  intros H HN HS. pose proof H as (He & [[Hc Hnd Hn Hmax] Hi _] & Hf). unfold buff_pop, wpm. mrun.
  destruct fl as [|b fl]; simpl in Hc.
  - rewrite Hc. mrun. set (cl := Malloc _). assert (H1 := tun_after _ _ _ _ w cl I H).
    destruct (Z.eqb_spec (r_ret (kernel (w_trace w) cl)) 0) as [_|_]; [by apply HN|]. mrun. simpl.
    assert (Hl : ∀ y, (w_bufs w ++ [Some y]) !! length (w_bufs w) = Some (Some y)) by (intros y; by rewrite list_lookup_middle).
    apply (HS _ []); [|split; [set_solver|]].
    + eapply tun_same; [..|exact H1]; try done. split; [by split|set_solver|done].
    + eexists. split; [apply Hl|]. unfold fit, len. simpl. split; [|done]. split; [apply (en_size _ _ He)|].
      unfold fresh. rewrite length_take, length_app, repeat_length. pose proof (en_size _ _ He). lia.
  - destruct Hc as (-> & x & Hx & Hc). mrun (buf_eq b w x Hx). apply NoDup_cons in Hnd as [Hb Hnd].
    apply (HS _ fl); [|split; [done|]].
    + eapply tun_same; [..|exact H]; try done. split; simpl; [split; simpl in *; [done|done|lia|lia]| |done].
      intros b' Hb'. apply Hi. by right.
    + apply (Hi b). by left.
Qed.

Lemma tun_own o o' fl R q w (Q : unit → world → Prop) : tun o fl R q w →
  (∀ b, o' = Some b → b ∉ fl ∧ ∃ x, w_bufs w !! b = Some (Some x) ∧ fit x) →
  (∀ w', w_bufs w' = w_bufs w → tun o' fl R q w' → Q tt w') →
  wpm (ev_set r (λ v, v <| e_buff := o' |>)) w Q.
Proof.
  intros ([(x & Hx & X1 & X2) (y & Hy & Y) ? ?] & [] & Hf) Ho HQ. eapply wpm_ev_set; [exact Hy|]. apply HQ; [done|].
  split_and!; [|split; [by destruct st_free0|done|done]|done]. split; simpl; [|exists (y <| e_buff := o' |>)|done|done].
  - exists x. split; [|done]. rewrite list_lookup_alter_ne; [done|]. intros ->. congruence.
  - rewrite list_lookup_alter_eq, Hy. split; [done|]. simpl. congruence.
Qed.

Lemma buff_push_keeps b w x a w' x' : w_bufs w !! b = Some (Some x) → buff_push (Some b) w = Ok (a, w') →
  w_bufs w' !! b = Some (Some x') → b_size x' = b_size x ∧ b_data x' = b_data x.
Proof.
  intros Hx. unfold buff_push. mrun. case_match.
  - unfold free_buf. rewrite (mbind_ok _ _ _ _ _ (buf_eq b w x Hx)). unfold modify. intros [= <- <-]. simpl.
    rewrite list_lookup_insert_eq; [done|]. by eapply lookup_lt_Some.
  - mrun. rewrite (mbind_ok _ _ _ _ _ (buf_set_eq b _ w x Hx)). unfold pool_set, modify. intros [= <- <-]. simpl.
    rewrite list_lookup_alter_eq, Hx. by intros [= <-].
Qed.

(** [buff_push(val->buff); val->buff = 0;] *)
Lemma tun_push {A} b fl R q w (k : M A) (Q : A → world → Prop) : tun (Some b) fl R q w →
  (∀ fl' w', tun None fl' R q w' → wpm k w' Q) →
  wpm (let* v := ev r in buff_push (e_buff v) ;;; ev_set r (λ v, v <| e_buff := None |>) ;;; k) w Q.
Proof.
  intros H HQ. pose proof H as (He & [Hfl Hi Ho] & Hf). destruct (en_remote _ _ He) as (y & Hy & Y).
  destruct (Ho b eq_refl) as (Hb & x & Hx & Hfit).
  apply wpm_bind. eapply wpm_ev; [exact Hy|]. replace (e_buff y) with (Some b) by congruence. unfold wpm.
  destruct (buff_push_run b w fl Hfl) as (bufs & root & n & E & Hne & Hp); [by exists x|done|].
  assert (Hx' : ∀ b', b' ∈ fl → ∃ x, bufs !! b' = Some (Some x) ∧ fit x ∧ b_offset x = 0).
  { intros b' Hb'. rewrite Hne by set_solver. by apply Hi. }
  pose proof (λ x', buff_push_keeps b w x _ _ x' Hx E) as Hk.
  rewrite (mbind_ok _ _ _ _ _ E). set (w1 := rebuf bufs root n w) in *.
  assert (∃ fl', free_list w1 fl' ∧ ∀ b', b' ∈ fl' → ∃ x, bufs !! b' = Some (Some x) ∧ fit x ∧ b_offset x = 0) as (fl' & Hfl' & Hin).
  { destruct (length fl <? 8)%nat; [|exists fl; split; [apply Hp|exact Hx']].
    destruct Hp as (Hp & x' & Hx'' & _ & Hoff). exists (b :: fl). split; [done|]. intros b' [->|?]%elem_of_cons; [|by apply Hx'].
    exists x'. destruct (Hk x' Hx'') as [E1 E2]. unfold fit. rewrite E1, E2. done. }
  assert (Hy1 : ph_items (w_pool w1) !! r = Some y) by done.
  rewrite (mbind_ok _ _ _ _ _ (ev_set_eq _ _ w1 y Hy1)). apply (HQ fl').
  destruct H as ([(z & Hz & Z1 & Z2) _ ? ?] & _ & ?). split_and!; [|split; [by destruct Hfl'|exact Hin|done]|done].
  split; simpl; [exists z|exists (y <| e_buff := None |>)|done|done].
  - split; [|done]. rewrite list_lookup_alter_ne; [done|]. intros ->. congruence.
  - rewrite list_lookup_alter_eq, Hy. split; [done|]. simpl. congruence.
Qed.

(** *** The hooks *)

(** the target's answer has at most [T] bytes and is not reset; the calls
    report what their manuals allow *)
Record target_ok (T : Z) : Prop := TargetOk {
  to_send : ∀ h data, r_ret (kernel h (Send cfd data 0)) <= len data;
  to_recv : ∀ h n, 0 <= n → r_ret (kernel h (Recv rfd n)) <= n ∧ r_ret (kernel h (Recv rfd n)) <= len (r_data (kernel h (Recv rfd n)));
  to_ends : ∀ tr n, r_ret (kernel (tr0 ++ tr) (Recv rfd n)) <= Z.max 0 (T - len (received rfd tr));
  to_reset : ∀ h n, r_ret (kernel h (Recv rfd n)) < 0 →
    r_errno (kernel h (Recv rfd n)) ∉ [ECONNRESET; ECONNREFUSED; ETIMEDOUT; EHOSTUNREACH]
}.
Context (T : Z) (Hok : target_ok T) (fuel : nat).

Lemma client_at o fl R q w : tun o fl R q w → ∃ x, ph_items (w_pool w) !! c = Some x ∧ e_fd x = cfd ∧ e_pair x = Some r
  ∧ e_flag x = cflag ∧ e_sq_buff x = None ∧ e_mark x = false ∧ e_dp x = Some d.
Proof. intros ([(x & Hx & X1 & X2) _ _ _] & _). exists x. split; [done|]. split_and!; congruence. Qed.
Lemma remote_at o fl R q w : tun o fl R q w → ∃ y, ph_items (w_pool w) !! r = Some y ∧ e_fd y = rfd ∧ e_pair y = Some c
  ∧ e_flag y = FLAG_CONN ∧ e_buff y = o.
Proof. intros ([_ (y & Hy & Y) _ _] & _). exists y. split; [done|]. split_and!; congruence. Qed.

(** an end without a hello: no other group is tried *)
Lemma tun_fin o fl R q w u : u = c ∨ u = r → tun o fl R q w → on_fin fuel u w = Ok (-1, w).
Proof.
  intros Hu H. destruct (client_at _ _ _ _ _ H) as (x & Hx & X1 & X2 & X3 & X4 & X5 & X6).
  destruct (remote_at _ _ _ _ _ H) as (y & Hy & Y1 & Y2 & Y3 & Y4). unfold on_fin.
  destruct Hu as [->| ->].
  - rewrite (mbind_ok _ _ _ _ _ (ev_eq c w x Hx)). rewrite X3, (proj2 (Z.eqb_neq _ _)) by done. cbn [negb]. rewrite X2.
    rewrite (mbind_ok _ _ _ _ _ (ev_eq r w y Hy)). rewrite Y2. unfold deref. mrun.
    rewrite (mbind_ok _ _ _ _ _ (ev_get_eq c e_mark w x Hx)). by rewrite X5.
  - rewrite (mbind_ok _ _ _ _ _ (ev_eq r w y Hy)). rewrite Y3, Z.eqb_refl. cbn [negb].
    rewrite (mbind_ok _ _ _ _ _ (ev_eq r w y Hy)). rewrite Y2. unfold deref. mrun.
    rewrite (mbind_ok _ _ _ _ _ (ev_get_eq c e_mark w x Hx)). by rewrite X5.
Qed.

(** what is sent to the client leaves the queue *)
Lemma tun_send o fl R q1 q2 w piece :
  tun o fl R (piece ++ q2) w → q1 = drop (Z.to_nat (r_ret (kernel (w_trace w) (Send cfd piece 0)))) piece ++ q2 →
  tun o fl R q1 (after (Send cfd piece 0) w).
Proof.
  intros (He & Hs & tr & E & H1 & H2) ->. set (rr := kernel _ _). split_and!; [by destruct He|by destruct Hs as [[] ? ?]|].
  exists (tr ++ [(Send cfd piece 0, rr)]). simpl. rewrite E, app_assoc. split; [by unfold rr; rewrite E|].
  rewrite received_snoc, accepted_snoc. cbn. rewrite app_nil_r. split; [done|].
  rewrite H2 at 1. rewrite <- app_assoc. f_equal. unfold taken. cbn. rewrite Z.eqb_refl. cbn [andb].
  destruct (Z.ltb_spec 0 (r_ret rr)) as [Hp|Hp]; cbn.
  - by rewrite app_assoc, take_drop.
  - by replace (Z.to_nat (r_ret rr)) with 0%nat by lia.
Qed.

Lemma tun_send_hook o fl R b x n store_n w :
  tun o fl R (slice (b_data x) (b_offset x) (n - b_offset x)) w → w_bufs w !! b = Some (Some x) →
  0 <= b_offset x <= n → n <= len (b_data x) →
  wpm (tcp_send_hook fuel c b n store_n) w (λ '(sn, n', wait) w', n' = n ∧ wait = false ∧ w_bufs w' = w_bufs w
    ∧ ∃ q, tun o fl R q w' ∧ sn <= n - b_offset x
      ∧ (0 <= sn → q = slice (b_data x) (b_offset x + sn) (n - (b_offset x + sn)))).
Proof.
  intros H Hx Hoff Hn. destruct (client_at _ _ _ _ _ H) as (u & Hu & U1 & U2 & U3 & U4 & U5 & U6). unfold tcp_send_hook.
  apply wpm_bind. eapply wpm_ev; [exact Hu|]. apply wpm_bind. eapply wpm_buf; [exact Hx|].
  rewrite U3, (proj2 (Z.eqb_neq _ _)) by done. cbn [negb]. rewrite U1. unfold send, of_data, wpm. mrun.
  rewrite (mbind_ok _ _ _ _ _ (buf_eq b w x Hx)). unfold lift. rewrite bytes_at_ok by lia. unfold mbind at 1. do 2 bstep. mrun.
  set (piece := slice _ _ _) in *. set (cl := Send cfd piece 0). set (rr := kernel (w_trace w) cl).
  assert (Hr : r_ret rr <= n - b_offset x).
  { pose proof (to_send _ Hok (w_trace w) piece) as Hr. unfold piece in Hr at 2. by rewrite len_slice in Hr by lia. }
  assert (H1 : tun o fl R (drop (Z.to_nat (r_ret rr)) piece) (after cl w)).
  { eapply tun_send; [rewrite app_nil_r; exact H|by rewrite app_nil_r]. }
  assert (Hd : 0 <= r_ret rr → drop (Z.to_nat (r_ret rr)) piece = slice (b_data x) (b_offset x + r_ret rr) (n - (b_offset x + r_ret rr))).
  { intros Hp. unfold piece, slice. rewrite skipn_firstn_comm, drop_drop. f_equal; [lia|f_equal; lia]. }
  destruct (Z.ltb_spec (r_ret rr) 0) as [Hneg|Hpos]; cbn [andb].
  - assert (E0 : drop (Z.to_nat (r_ret rr)) piece = piece) by (by replace (Z.to_nat (r_ret rr)) with 0%nat by lia).
    rewrite E0 in H1. case_match.
    + simpl. split_and!; [done..|]. exists piece. split_and!; [done|lia|]. intros _. by rewrite Z.add_0_r.
    + unfold handle_err. case_match; mrun.
      * rewrite (mbind_ok _ _ _ _ _ (ev_get_eq c e_flag (after cl w) u Hu)). rewrite U3, (proj2 (Z.eqb_neq _ _)) by done.
        rewrite (mbind_ok _ _ _ _ _ (tun_fin _ _ _ _ (after cl w) c (or_introl eq_refl) H1)). simpl. split_and!; [done..|].
        exists piece. split_and!; [done|lia|lia].
      * simpl. split_and!; [done..|]. exists piece. split_and!; [done|lia|lia].
  - mrun. rewrite (mbind_ok _ _ _ _ _ (ev_get_eq c e_pair (after cl w) u Hu)), U2. unfold deref. mrun.
    change (wpm (mbind (ev_set r (λ p, p <| e_round_sent := e_round_sent p + r_ret rr |>)) (λ _, ret (r_ret rr, n, false))) (after cl w)
      (λ '(sn, n', wait) w', n' = n ∧ wait = false ∧ w_bufs w' = w_bufs w ∧ ∃ q, tun o fl R q w' ∧ sn <= n - b_offset x
      ∧ (0 <= sn → q = slice (b_data x) (b_offset x + sn) (n - (b_offset x + sn))))).
    apply wpm_bind. eapply tun_set; [done|by right|exact H1|]. intros w2 E2 H2. apply wpm_ret. split_and!; [done|done|by rewrite E2|].
    eexists. split_and!; [exact H2|done|exact Hd].
Qed.

(** *** Receiving *)

Lemma tun_dpg o fl R q w (Q : desync_params → world → Prop) : tun o fl R q w → (∀ g, Q g w) → wpm (dpg d) w Q.
Proof. intros ([_ _ [g Hg] _] & _) HQ. unfold wpm, dpg. rewrite Hg. apply HQ. Qed.

(** reading the evals, one step of the code at a time *)
Lemma tun_remote o fl R q w (Q : eval → world → Prop) : tun o fl R q w →
  (∀ y, e_fd y = rfd → e_pair y = Some c → e_flag y = FLAG_CONN → e_buff y = o → Q y w) → wpm (ev r) w Q.
Proof. intros H HQ. destruct (remote_at _ _ _ _ _ H) as (y & Hy & ? & ? & ? & ?). eapply wpm_ev; [exact Hy|]. by apply HQ. Qed.
Lemma tun_client o fl R q w (Q : eval → world → Prop) : tun o fl R q w →
  (∀ x, e_fd x = cfd → e_pair x = Some r → e_sq_buff x = None → e_mark x = false → e_dp x = Some d → Q x w) → wpm (ev c) w Q.
Proof. intros H HQ. destruct (client_at _ _ _ _ _ H) as (x & Hx & ? & ? & ? & ? & ? & ?). eapply wpm_ev; [exact Hx|]. by apply HQ. Qed.

Definition kept o fl R q (bufs : list (option buffer)) {A} (_ : A) w : Prop := w_bufs w = bufs ∧ tun o fl R q w.

Lemma kept_ret {A} o fl R q w (a : A) : tun o fl R q w → wpm (ret a) w (kept o fl R q (w_bufs w)).
Proof. intros H. apply wpm_ret. by split. Qed.

Lemma tun_new_round o fl R q w : tun o fl R q w → wpm (new_round r) w (kept o fl R q (w_bufs w)).
Proof.
  intros H. unfold new_round. apply wpm_bind. eapply tun_remote; [exact H|]. intros y _ Hp _ _. apply wpm_bind.
  apply (wpm_mono _ _ (kept o fl R q (w_bufs w))).
  { destruct (e_round_sent y =? 0); [|by apply kept_ret]. apply wpm_bind. eapply tun_set; [done|by right|exact H|].
    intros w1 E1 H1. rewrite Hp. eapply tun_set; [done|by left|exact H1|]. intros w2 E2 H2. split; [by rewrite E2|done]. }
  intros _ w1 [E1 H1]. rewrite <- E1. clear E1 H w. apply wpm_bind. eapply tun_remote; [exact H1|]. intros y1 _ Hp1 _ _.
  case_match; [|by apply kept_ret]. rewrite Hp1. cbn [deref]. apply wpm_bind, wpm_ret. unfold ev_get. apply wpm_bind, wpm_bind.
  eapply tun_client; [exact H1|]. intros x _ _ _ _ Hd. apply wpm_ret. rewrite Hd. apply wpm_bind, wpm_ret. apply wpm_bind.
  eapply tun_dpg; [exact H1|]. intros g. case_match; [|by apply kept_ret]. apply wpm_bind.
  apply (wpm_mono _ _ (kept o fl R q (w_bufs w1))); [|intros z w2 [E2 H2]; apply wpm_ret; by split].
  unfold cancel_setup. apply wpm_bind. eapply tun_remote; [exact H1|]. intros y2 _ Hp2 _ _. rewrite Hp2. apply wpm_bind, wpm_ret.
  apply wpm_bind. unfold ev_get. apply wpm_bind. eapply tun_client; [exact H1|]. intros x2 _ _ _ _ Hd2. apply wpm_ret. rewrite Hd2.
  apply wpm_bind, wpm_ret. apply wpm_bind. eapply tun_dpg; [exact H1|]. intros g2. apply wpm_bind.
  apply (wpm_mono _ _ (kept o fl R q (w_bufs w1))); [|intros z w2 [E2 H2]; case_match; apply wpm_ret; by split].
  unfold post_desync, setsockopt. destruct (d_drop_sack g2); [|by apply kept_ret]. apply wpm_bind. eapply tun_sysret; [done|exact H1|].
  intros z w2 E2 H2. destruct (z =? -1); apply wpm_ret; by split.
Qed.

Lemma tun_on_answer o fl R q w b n : tun o fl R q w →
  wpm (on_answer fuel r b n) w (λ again w', again = false ∧ w_bufs w' = w_bufs w ∧ tun o fl R q w').
Proof.
  intros H. unfold on_answer. apply wpm_bind. eapply tun_remote; [exact H|]. intros y _ Hp _ _. rewrite Hp. apply wpm_bind, wpm_ret.
  unfold ev_get. apply wpm_bind, wpm_bind. eapply tun_client; [exact H|]. intros x _ _ _ Hm _. apply wpm_ret. rewrite Hm.
  apply wpm_bind, wpm_ret, wpm_bind. eapply tun_remote; [exact H|]. intros y1 _ _ _ _. apply wpm_bind, wpm_get, wpm_bind, wpm_get, wpm_bind.
  apply (wpm_mono _ _ (kept o fl R q (w_bufs w))).
  { case_match; [|by apply kept_ret]. unfold set_timeout, setsockopt. apply wpm_bind, wpm_bind. eapply tun_sysret; [done|exact H|].
    intros z w1 E1 H1. apply (wpm_mono _ _ (kept o fl R q (w_bufs w))); [case_match; apply wpm_ret; by split|].
    intros _ w2 [E2 H2]. eapply tun_set; [done|by right|exact H2|]. intros w3 E3 H3. split; [by rewrite E3|done]. }
  intros _ w1 [E1 H1]. apply wpm_bind, wpm_bind. eapply tun_client; [exact H1|]. intros x1 _ _ Hs _ _. apply wpm_ret. rewrite Hs. by apply wpm_ret.
Qed.

Lemma tun_store o fl R q w b x m : tun o fl R q w → w_bufs w !! b = Some (Some x) → b ∉ fl → len m = len (b_data x) →
  tun o fl R q (w <| w_bufs := alter (fmap (λ x, x <| b_data := m |>)) b (w_bufs w) |>).
Proof.
  intros (He & [Hfl Hi Ho] & Hf) Hx Hb Hm. split_and!; [by destruct He| |done].
  assert (Hne : ∀ b', b' ∈ fl → alter (fmap (M:=option) (λ x, x <| b_data := m |>)) b (w_bufs w) !! b' = w_bufs w !! b').
  { intros b' Hb'. rewrite list_lookup_alter_ne; [done|]. by intros ->. }
  split; simpl.
  - destruct Hfl. split; try done. simpl. by eapply chain_frame.
  - intros b' Hb'. rewrite Hne by done. by apply Hi.
  - intros b' E. destruct (Ho b' E) as (Hb' & x' & Hx' & [? ?]). split; [done|].
    destruct (decide (b' = b)) as [->|Hn]; [|exists x'; by rewrite list_lookup_alter_ne by done].
    rewrite Hx in Hx'. injection Hx' as <-. exists (x <| b_data := m |>). rewrite list_lookup_alter_eq, Hx. split; [done|]. unfold fit. simpl. split; [done|congruence].
Qed.

Lemma tun_recv_hook b fl R x w : tun (Some b) fl R [] w → w_bufs w !! b = Some (Some x) →
  wpm (tcp_recv_hook fuel r b) w (λ k w', ∃ x' R' q, tun (Some b) fl R' q w' ∧ w_bufs w' !! b = Some (Some x')
    ∧ b_size x' = b_size x ∧ b_offset x' = b_offset x ∧ k <= b_size x
    ∧ (0 <= k → q = slice (b_data x') 0 k ∧ len R' = len R + k ∧ (0 < k → len R' <= T))).
Proof.
  intros H Hx. pose proof H as (_ & [_ _ Ho] & tr & Etr & Er & _). destruct (Ho b eq_refl) as (Hb & x' & Hx' & Hfit).
  rewrite Hx in Hx'. injection Hx' as <-. destruct Hfit as [Hsz Hlen].
  destruct (remote_at _ _ _ _ _ H) as (y & Hy & Y1 & Y2 & Y3 & Y4). unfold tcp_recv_hook.
  apply wpm_bind. eapply wpm_ev; [exact Hy|]. apply wpm_bind. eapply wpm_buf; [exact Hx|]. rewrite Y1. unfold wpm. mrun.
  set (cl := Recv rfd (b_size x)). set (rr := kernel (w_trace w) cl).
  destruct (to_recv _ Hok (w_trace w) (b_size x)) as [Hn1 Hn2]; [lia|]. pose proof (to_ends _ Hok tr (b_size x)) as Hn3. rewrite <- Etr, Er in Hn3.
  pose proof (to_reset _ Hok (w_trace w) (b_size x)) as Hn4. fold cl rr in Hn1, Hn2, Hn3, Hn4.
  set (data := if 0 <? r_ret rr then take (Z.to_nat (r_ret rr)) (r_data rr) else []).
  assert (H1 : tun (Some b) fl (R ++ data) data (after cl w)).
  { destruct H as (He & Hs & tr' & E & H1 & H2). split_and!; [by destruct He|by destruct Hs as [[] ? ?]|].
    exists (tr' ++ [(cl, rr)]). simpl. fold rr. rewrite E, app_assoc. split; [done|]. rewrite received_snoc, accepted_snoc.
    replace (got rfd (cl, rr)) with data by (unfold got, data; cbn; by rewrite Z.eqb_refl). cbn. rewrite app_nil_r in H2 |- *. by rewrite H1, <- H2. }
  destruct (Z.ltb_spec (r_ret rr) 1) as [Hlt|Hge].
  { assert (data = []) as Hd by (unfold data; by rewrite (proj2 (Z.ltb_ge _ _)) by lia). rewrite Hd, app_nil_r in H1.
    destruct (Z.eqb_spec (r_ret rr) 0) as [Hz|Hz].
    { rewrite (tun_fin _ _ _ _ (after cl w) r (or_intror eq_refl) H1). simpl. exists x, R, []. split_and!; try done; lia. }
    cbn [w_errno after]. simpl. fold rr. rewrite (proj2 (Z.ltb_lt _ _)) by lia. specialize (Hn4 ltac:(lia)).
    case_match; simpl.
    - exists x, R, []. split_and!; try done; [lia|]. intros _. split_and!; [done|lia|lia].
    - unfold handle_err. rewrite !not_elem_of_cons in Hn4. destruct Hn4 as (N1 & N2 & N3 & N4 & _).
      rewrite !(proj2 (Z.eqb_neq _ _)) by done. simpl. exists x, R, []. split_and!; try done; lia. }
  assert (Hd : len data = r_ret rr) by (unfold data; rewrite (proj2 (Z.ltb_lt _ _)) by lia; unfold len in *; rewrite length_take; lia).
  change (wpm (mbind (on_data b (λ m, m ← memcpy m 0 (r_data rr) 0 (r_ret rr); Ok (tt, m))) (λ _, mbind (ev_set r (λ v, v <| e_recv_count := e_recv_count v + r_ret rr |>)) (λ _,
    mbind (new_round r) (λ ok, if negb ok then ret (-1) else mbind (ev r) (λ v, mbind (par p_auto_reconnect) (λ auto,
      if e_flag v =? FLAG_CONN then mbind (on_answer fuel r b (r_ret rr)) (λ again, ret (if again then 0 else r_ret rr))
      else if auto && (bool_decide (is_Some (e_sq_buff v)) || (e_recv_count v =? r_ret rr))
        then mbind (keep_request r b (r_ret rr)) (λ ok, ret (if ok then r_ret rr else -1)) else ret (r_ret rr))))))) (after cl w)
    (λ k w', ∃ x' R' q, tun (Some b) fl R' q w' ∧ w_bufs w' !! b = Some (Some x')
    ∧ b_size x' = b_size x ∧ b_offset x' = b_offset x ∧ k <= b_size x
    ∧ (0 <= k → q = slice (b_data x') 0 k ∧ len R' = len R + k ∧ (0 < k → len R' <= T)))).
  set (m := splice (b_data x) 0 (slice (r_data rr) 0 (r_ret rr))). assert (Hm : len m = len (b_data x)).
  { unfold m. apply len_splice; rewrite ?len_slice; lia. }
  assert (Hx1 : w_bufs (after cl w) !! b = Some (Some x)) by done.
  apply wpm_bind. unfold wpm. rewrite (on_data_run b _ (after cl w) x tt m Hx1) by (rewrite memcpy_ok by lia; by rewrite bind_Ok).
  pose proof (tun_store _ _ _ _ _ b x m H1 Hx1 Hb Hm) as H2. set (w2 := after cl w <| w_bufs := _ |>) in *. set (x2 := x <| b_data := m |>).
  assert (Hx2 : w_bufs w2 !! b = Some (Some x2)) by (simpl; by rewrite list_lookup_alter_eq, Hx).
  assert (Hq : data = slice (b_data x2) 0 (r_ret rr)).
  { unfold data. rewrite (proj2 (Z.ltb_lt _ _)) by lia. unfold x2, m, splice. simpl. rewrite !slice_0 by lia.
    rewrite take_app_le by (unfold len in *; rewrite length_take; lia). by rewrite take_take, Nat.min_id. }
  clearbody w2 m. clear H1 Hx1.
  assert (Hfin : ∀ k w', w_bufs w' = w_bufs w2 → tun (Some b) fl (R ++ data) data w' → k = r_ret rr ∨ k = -1 → 
    ∃ x' R' q, tun (Some b) fl R' q w' ∧ w_bufs w' !! b = Some (Some x') ∧ b_size x' = b_size x ∧ b_offset x' = b_offset x ∧ k <= b_size x
    ∧ (0 <= k → q = slice (b_data x') 0 k ∧ len R' = len R + k ∧ (0 < k → len R' <= T))).
  { intros k w' E' H' Hk. exists x2, (R ++ data), data. rewrite E'. split_and!; try done; [lia|]. intros Hk0.
    destruct Hk as [->|]; [|lia]. assert (len (R ++ data) = len R + r_ret rr) as -> by (rewrite len_app; lia). split_and!; [done|done|lia]. }
  apply wpm_bind. eapply tun_set; [done|by right|exact H2|]. intros w3 E3 H3. apply wpm_bind.
  eapply wpm_mono; [by apply tun_new_round|]. intros ok w4 [E4 H4]. destruct ok; cbn [negb].
  2:{ apply wpm_ret, Hfin; [congruence|done|by right]. }
  apply wpm_bind. eapply tun_remote; [exact H4|]. intros y4 _ _ F4 _. apply wpm_bind, wpm_get. rewrite F4, Z.eqb_refl.
  apply wpm_bind. eapply wpm_mono; [by apply tun_on_answer|]. intros again w5 (-> & E5 & H5). apply wpm_ret, Hfin; [congruence|done|by left].
Qed.

(** *** The tunnel *)

Lemma tun_mod_etype o fl R q w u ty : u = c ∨ u = r → tun o fl R q w → wpm (mod_etype u ty) w (kept o fl R q (w_bufs w)).
Proof.
  intros Hu H. unfold mod_etype. apply wpm_bind.
  assert (∃ e, ph_items (w_pool w) !! u = Some e ∧ 0 < e_fd e) as (e & He & Hf).
  { destruct (client_at _ _ _ _ _ H) as (x & Hx & X1 & _). destruct (remote_at _ _ _ _ _ H) as (y & Hy & Y1 & _).
    destruct Hu as [->| ->]; [exists x|exists y]; (split; [done|lia]). }
  eapply wpm_ev; [exact He|]. rewrite (proj2 (Z.ltb_lt _ _)) by done. cbn [negb]. apply wpm_bind, wpm_get.
  eapply tun_sysret; [done|exact H|]. intros z w1 E1 H1. by split.
Qed.

Lemma tun_mod_both o fl R q w ty1 ty2 : tun o fl R q w → wpm (mod_both r ty1 c ty2) w (kept o fl R q (w_bufs w)).
Proof.
  intros H. unfold mod_both. apply wpm_bind. eapply wpm_mono; [apply tun_mod_etype; [by right|exact H]|]. intros z w1 [E1 H1].
  rewrite <- E1. case_match; [by apply kept_ret|]. apply wpm_bind. eapply wpm_mono; [apply tun_mod_etype; [by left|exact H1]|].
  intros z2 w2 [E2 H2]. rewrite <- E2. by apply kept_ret.
Qed.

(** what a turn answers: after a failure the connection is given up *)
Definition turn (rc : Z) w : Prop := in_order w ∧ (0 <= rc → answering w).

Lemma turn_failed o fl R q w : tun o fl R q w → turn (-1) w.
Proof. intros H. split; [by eapply tun_in_order|lia]. Qed.
Lemma turn_empty fl R w rc : tun None fl R [] w → turn rc w.
Proof. intros H. split; [by eapply tun_in_order|]. intros _. by exists None, fl, R. Qed.

(** some of the bytes wait in the buffer *)
Definition waits b w : Prop := ∃ fl R, tun (Some b) fl R (pending (w_bufs w) (Some b)) w
  ∧ ∀ x, w_bufs w !! b = Some (Some x) → 0 <= b_offset x <= b_lock x ∧ b_lock x <= b_size x.
Lemma turn_waits b w rc : waits b w → turn rc w.
Proof.
  intros (fl & R & H & Hx). split; [by eapply tun_in_order|]. intros _. exists (Some b), fl, R. split; [done|].
  intros b1 x1 [= <-]. apply Hx.
Qed.
Lemma waits_kept b w ty1 ty2 : waits b w → wpm (mod_both r ty1 c ty2) w (λ _ w', waits b w').
Proof.
  intros (fl & R & H & Hx). eapply wpm_mono; [by apply tun_mod_both|]. intros _ w1 [E1 H1]. exists fl, R. by rewrite E1.
Qed.

Lemma turn_wait b fl R w x g (Q : unit → world → Prop) : let y := g x in
  b_data y = b_data x → b_size y = b_size x →
  tun (Some b) fl R (slice (b_data y) (b_offset y) (b_lock y - b_offset y)) w → w_bufs w !! b = Some (Some x) →
  0 <= b_offset y <= b_lock y → b_lock y <= b_size x →
  (∀ w', waits b w' → Q tt w') → wpm (buf_set b g) w Q.
Proof.
  intros y Ed Es (He & [Hfl Hi Ho] & Hf) Hx Hoff Hl HQ. eapply wpm_buf_set; [exact Hx|].
  destruct (Ho b eq_refl) as (Hb & x' & Hx' & Hfit). rewrite Hx in Hx'. injection Hx' as <-.
  set (w' := w <| w_bufs := _ |>).
  assert (Hne : ∀ b', b' ∈ fl → w_bufs w' !! b' = w_bufs w !! b').
  { intros b' Hb'. simpl. rewrite list_lookup_alter_ne; [done|]. by intros ->. }
  assert (Hx' : w_bufs w' !! b = Some (Some y)) by (simpl; by rewrite list_lookup_alter_eq, Hx).
  assert (Ht : tun (Some b) fl R (slice (b_data y) (b_offset y) (b_lock y - b_offset y)) w').
  { split_and!; [by destruct He| |done]. split.
    - destruct Hfl. split; try done. by eapply chain_frame.
    - intros b' Hb'. rewrite Hne by done. by apply Hi.
    - intros b' [= <-]. split; [done|]. exists y. unfold fit. by rewrite Ed, Es. }
  apply HQ. exists fl, R. unfold pending. rewrite Hx'. split; [done|]. intros x1 [= <-]. rewrite Es. lia.
Qed.

(** the steps of a turn: what they answer, and what is true if they go on *)
Definition outcome {A} (fin : world → Prop) (step : A + option Z) (go : world → Prop) w : Prop :=
  match step with inl _ => go w | inr (Some rc) => turn rc w | inr None => fin w end.

(** the measure of the loop: what the target can still send *)
Definition rest w : Z := Z.max 0 (T - len (received rfd (drop (length tr0) (w_trace w)))).
Lemma rest_of o fl R q w : tun o fl R q w → rest w = Z.max 0 (T - len R).
Proof. intros (_ & _ & tr & E & <- & _). unfold rest. by rewrite E, drop_app_length. Qed.

Definition clean b w : Prop := ∃ fl R x, tun (Some b) fl R [] w ∧ w_bufs w !! b = Some (Some x) ∧ b_offset x = 0.

Lemma tun_step b w : clean b w →
  wpm (tunnel_step fuel r c b tt) w (λ step w', outcome (clean b) step (λ w', clean b w' ∧ rest w' < rest w) w').
Proof.
  intros (fl & R & x & H & Hx & Hoff). unfold tunnel_step. apply wpm_bind. eapply wpm_mono; [by eapply tun_recv_hook|].
  intros k w1 (x1 & R1 & q & H1 & Hx1 & Es & Eo & Hk & Hq).
  destruct (Z.eqb_spec k 0) as [->|Hk0].
  { apply wpm_ret. destruct Hq as [-> _]; [lia|]. exists fl, R1, x1. rewrite slice_nil in H1. split_and!; [done|done|lia]. }
  destruct (Z.ltb_spec k 0) as [Hneg|Hpos]; [by apply wpm_ret; eapply turn_failed|].
  destruct Hq as (-> & Hl & HT); [lia|]. specialize (HT ltac:(lia)).
  assert (Hfit : fit x1).
  { destruct H1 as (_ & [_ _ Ho] & _). destruct (Ho b eq_refl) as (_ & x' & Hx' & ?). rewrite Hx1 in Hx'. by injection Hx' as <-. }
  destruct Hfit as [Hs1 Hs2]. rewrite Hoff in Eo.
  pose proof (tun_send_hook (Some b) fl R1 b x1 k (λ _, ret tt) w1) as Hsend. rewrite Eo, Z.sub_0_r in Hsend.
  apply wpm_bind. eapply wpm_mono; [apply Hsend; by try lia|].
  intros [[sn n'] wait] w2 (-> & -> & E2 & q & H2 & Hsn & Hq2).
  destruct (Z.ltb_spec sn 0) as [Hsn0|Hsn0]; [by apply wpm_ret; eapply turn_failed|]. specialize (Hq2 ltac:(lia)).
  rewrite orb_false_r. cbn [Z.add] in Hq2. subst q. destruct (Z.ltb_spec sn k) as [Hlt|Hge].
  - apply wpm_bind. eapply (turn_wait b fl R1 w2 x1); [done|done| | | |simpl; lia|]; rewrite ?E2; try done; simpl.
    + unfold u32. rewrite Z.mod_small by lia. done.
    + unfold u32. rewrite Z.mod_small by lia. lia.
    + intros w3 H3. cbn [negb]. apply wpm_bind. eapply wpm_mono; [by apply waits_kept|]. intros bad w4 H4. apply wpm_ret. exact (turn_waits b w4 _ H4).
  - assert (sn = k) as -> by lia. rewrite Z.sub_diag, slice_nil in H2. apply wpm_bind. eapply wpm_buf; [by rewrite E2|]. apply wpm_ret.
    assert (clean b w2) by (exists fl, R1, x1; rewrite E2; done).
    case_match; cbn; [|done]. split; [done|]. rewrite (rest_of _ _ _ _ _ H2), (rest_of _ _ _ _ _ H). lia.
Qed.

Lemma tun_flush b w : waits b w →
  wpm (tunnel_flush fuel r c) w (λ done w', match done with Some rc => turn rc w' | None => ∃ fl R, tun None fl R [] w' end).
Proof.
  intros (fl & R & H & Hx). unfold tunnel_flush. pose proof H as (_ & [_ _ Ho] & _). destruct (Ho b eq_refl) as (_ & x & Hb & [Hs1 Hs2]).
  destruct (Hx x Hb) as [Hoff Hlock]. unfold pending in H. rewrite Hb in H.
  apply wpm_bind. eapply tun_remote; [exact H|]. intros y _ _ _ Ey. rewrite Ey. apply wpm_bind. eapply wpm_buf; [exact Hb|].
  apply wpm_bind. eapply wpm_mono; [apply (tun_send_hook (Some b) fl R b x); [done|done|lia|lia]|].
  intros [[sn n'] wait] w1 (_ & -> & E1 & q & H1 & Hsn & Hq).
  destruct (Z.ltb_spec sn 0) as [Hneg|Hpos]; [by apply wpm_ret; eapply turn_failed|]. rewrite (Hq ltac:(lia)) in H1. rewrite orb_false_r.
  destruct (Z.ltb_spec sn (b_lock x - b_offset x)) as [Hlt|Hge].
  - apply wpm_bind. eapply tun_remote; [exact H1|]. intros y1 _ _ _ Ey1. rewrite Ey1. apply wpm_bind, wpm_ret. apply wpm_bind.
    assert (Hu : u32 (b_offset x + sn) = b_offset x + sn) by (apply Z.mod_small; lia).
    eapply (turn_wait b fl R w1 x); simpl; rewrite ?E1, ?Hu; [done|done|exact H1|done|lia|lia|].
    intros w2 H2. apply wpm_ret. by eapply turn_waits.
  - replace (b_lock x - (b_offset x + sn)) with 0 in H1 by lia. rewrite slice_nil in H1.
    eapply tun_push; [exact H1|]. intros fl2 w2 H2. apply wpm_bind. eapply wpm_mono; [by apply tun_mod_both|].
    intros bad w3 [_ H3]. apply wpm_ret. destruct bad; [by eapply turn_failed|]. by exists fl2, R.
Qed.

Lemma tun_turn w : answering w → Z.max 0 T < Z.of_nat fuel →
  wpm (let* v := ev r in
       let* done := (match e_buff v with Some _ => let* peer := deref (Some c) in tunnel_flush fuel r peer | None => ret None end) in
       match done with
       | Some rc => ret rc
       | None =>
           let* size := par p_bfsize in
           let* nb := buff_pop size in
           match nb with
           | None => ret (-1)
           | Some b =>
               ev_set r (λ v, v <| e_buff := Some b |>) ;;;
               let* peer := deref (Some c) in
               let* rc := mloop fuel (tunnel_step fuel r peer b) tt in
               match rc with
               | Some rc => ret rc
               | None => let* v := ev r in buff_push (e_buff v) ;;; ev_set r (λ v, v <| e_buff := None |>) ;;; ret 0
               end
           end
       end) w turn.
Proof.
  intros (o & fl & R & H & Hb) Hfuel. apply wpm_bind. eapply tun_remote; [exact H|]. intros y _ _ _ Ey. rewrite Ey. clear y Ey.
  apply wpm_bind. apply (wpm_mono _ _ (λ done w', match done with Some rc => turn rc w' | None => ∃ fl R, tun None fl R [] w' end)).
  { destruct o as [b|]; [|apply wpm_ret; by exists fl, R]. apply wpm_bind, wpm_ret, (tun_flush b). exists fl, R. split; [done|].
    intros x. by apply Hb. }
  clear H Hb R fl o w. intros [rc|] w1; [by intros H; apply wpm_ret|]. intros (fl & R & H). apply wpm_bind, wpm_get, wpm_bind.
  eapply tun_pop; [exact H| |].
  { intros w2 H2. by apply wpm_ret; eapply turn_failed. }
  intros b fl2 w2 H2 (Hb & x & Hx & Hfit & Hoff). apply wpm_bind. eapply tun_own; [exact H2| |].
  { intros b' [= <-]. split; [done|]. by exists x. }
  intros w3 E3 H3. apply wpm_bind, wpm_ret, wpm_bind.
  apply (wpm_loop (λ _ w, clean b w) (λ _ w, rest w)); [unfold rest; lia| |by exists fl2, R, x; rewrite E3|].
  - intros [] w4 H4. eapply wpm_mono; [by apply tun_step|]. intros [[]|[rc|]] w5; cbn [outcome]; [done| |].
    + intros H5. by apply wpm_ret.
    + intros (fl5 & R5 & x5 & H5 & _). eapply tun_push; [exact H5|]. intros fl6 w6 H6. apply wpm_ret. by eapply turn_empty.
  - rewrite (rest_of _ _ _ _ _ H3). unfold len. lia.
Qed.
End tunnel.

(** C12: While a client and its target are joined in a tunnel, what the target
    sends reaches the client whole, once and in order.  Whether the event is
    that the target has sent something or that the client can take more, and
    however the kernel cuts what it delivers and takes: when [on_tunnel]
    returns, what has come from the target is what the client's socket took
    followed by what the tunnel keeps for it, in a buffer that is its own; after
    a failure the client has got a prefix of what came.  The call ends, for an
    answer of any length, and leaves the tunnel ready for the next event.  (The
    client's first request is not kept for another attempt any more, its hello
    is not followed, and the target does not reset the connection.) *)
Theorem tunnel_answers `{K : Kernel} `{cm : CharModel} (fuel : nat) (c r : nat) (cfd rfd cflag : Z) (d : nat) (tr0 : history)
    (T : Z) (v : nat) (et : Z) (w : world) :
  0 < cfd → 0 < rfd → cflag ≠ FLAG_CONN → target_ok cfd rfd tr0 T → Z.max 0 T < Z.of_nat fuel →
  answering c r cfd rfd cflag d tr0 w → et ≠ POLLTIMEOUT → v = (if has et POLLOUT then c else r) →
  wpm (on_tunnel fuel v et) w (λ rc w', in_order cfd rfd tr0 w' ∧ (0 <= rc → answering c r cfd rfd cflag d tr0 w')).
Proof.
  intros Hc Hr Hf Hok Hfuel H Het ->. pose proof H as (o & fl & R & Ht & _). unfold on_tunnel.
  destruct (client_at _ _ _ _ _ _ _ _ _ _ _ _ Ht) as (x & Hx & _ & X2 & _).
  destruct (remote_at _ _ _ _ _ _ _ _ _ _ _ _ Ht) as (y & Hy & _ & Y2 & _).
  apply wpm_bind. rewrite (proj2 (Z.eqb_neq _ _)) by done. destruct (has et POLLOUT); cbn [orb].
  - eapply wpm_ev; [exact Hx|]. apply wpm_bind, wpm_ret, wpm_bind. rewrite X2. apply wpm_bind, wpm_ret. apply wpm_bind.
    unfold ev_get. apply wpm_bind. eapply wpm_ev; [exact Hy|]. apply wpm_ret, wpm_ret. rewrite Y2. by eapply tun_turn.
  - eapply wpm_ev; [exact Hy|]. apply wpm_bind, wpm_ret, wpm_bind, wpm_ret. rewrite Y2. by eapply tun_turn.
Qed.

(** ** Example: an answer of three bytes, to a client that takes two *)

Definition answer_kernel : Kernel := λ h cl,
  match cl with
  | Recv fd n => if (fd =? 6) && bool_decide (received 6 h = []) then Reply (Z.min n 3) EAGAIN [x61; x62; x63] []
                 else Reply (-1) EAGAIN [] []
  | Send _ data _ => Reply (Z.min 2 (len data)) 0 [] []
  | Malloc _ => Reply 1 0 [] []
  | _ => Reply 0 0 [] []
  end.
Definition joined_world : world :=
  let client := zero_eval <| e_fd := 5 |> <| e_pair := Some 1%nat |> <| e_flag := FLAG_S5 |> <| e_dp := Some 0%nat |> in
  let remote := zero_eval <| e_fd := 6 |> <| e_pair := Some 0%nat |> <| e_flag := FLAG_CONN |> in
  sample_world (Poolhd 4 2 3 [0; 1]%nat [client; remote] [] 0 false None None None 0)
    <| w_dps := [some_group []] |>.

Lemma joined_answering : answering 0 1 5 6 FLAG_S5 0 [] joined_world.
Proof.
  exists None, [], []. split; [|done]. split_and!.
  - split; [eexists; by split|eexists; by split|by eexists|simpl; lia].
  - split; [split; [done|apply NoDup_nil_2|done|simpl; lia]|set_solver|done].
  - by exists [].
Qed.
Lemma answer_ok : let K : Kernel := answer_kernel in target_ok 5 6 [] 3.
Proof.
  intros K. split; unfold K, kernel, answer_kernel; cbn.
  - intros _ data. lia.
  - intros h n Hn. case_match; cbn; unfold len; simpl; lia.
  - intros tr n. fold (received 6 tr). destruct (decide (received 6 tr = [])) as [E|E].
    + rewrite bool_decide_eq_true_2, E by done. unfold len. simpl. lia.
    + rewrite bool_decide_eq_false_2 by done. simpl. lia.
  - intros h n _. rewrite !not_elem_of_cons. case_match; simpl; (split_and!; [done..|apply not_elem_of_nil]).
Qed.

(** the client has two bytes, and the third waits; then it takes it *)
Lemma tunnel_answers_witness :
  let K : Kernel := answer_kernel in let cm : CharModel := true in
  wpm (on_tunnel 4 1 POLLIN) joined_world (λ rc w', in_order 5 6 [] w' ∧ (0 <= rc → answering 0 1 5 6 FLAG_S5 0 [] w'))
  ∧ wpm (on_tunnel 4 1 POLLIN) joined_world (λ rc w', rc = 0 ∧ accepted 5 (w_trace w') = [x61; x62]
      ∧ pending (w_bufs w') (Some 0%nat) = [x63]
      ∧ wpm (on_tunnel 4 0 POLLOUT) w' (λ rc w', rc = 0 ∧ accepted 5 (w_trace w') = [x61; x62; x63])).
Proof.
  intros K cm. split; [|by vm_compute].
  apply (tunnel_answers 4 0 1 5 6 FLAG_S5 0 [] 3); [done|done|done|exact answer_ok|done|exact joined_answering|done|done].
Defined.
