(* ===== verification/Args.v ===== *)
(** * byedpi, the command line: main.c

    [parse_args] turns the words of the command line into the parameters and
    the list of groups.  A string is its characters without the NUL, a pointer
    into it (such as [end]) what is left of it; [None] is the null pointer.  The
    system is asked for addresses, files and memory through parameters, and so
    is [getopt_long] of the C library, whose position between two calls is
    [optind] and a state of its own. *)

From Stdlib Require Import ZArith Lia Bool List Floats.SpecFloat.
From Stdlib Require Import Strings.Byte Strings.Ascii Strings.String.
From stdpp Require Import base tactics list numbers option.
From S2P Require Import Prelude CMem Packets MPool World Desync Addr StateMonad.

(* ------------------------------------------------------------------ *)
(** ** The C library *)

Definition INT_MAX : Z := 2 ^ 31 - 1.
Definition USHRT_MAX : Z := 2 ^ 16 - 1.

(** [*s] *)
Definition at_ (s : mem) : Z := match s with [] => 0 | b :: _ => zb b end.

Fixpoint strchr (s : mem) (c : ascii) : option mem :=
  match s with
  | [] => None
  | b :: s' => if zb b =? ch c then Some s else strchr s' c
  end.

(** [strtol] with its [end] *)
Definition strtol_end (s : mem) (base : Z) : res (Z * mem) :=
  '(v, k) ← strtol (s ++ [x00]) base; Ok (v, drop (Z.to_nat k) s).

(** *** [float]

    A decimal or hexadecimal number is [m * base ^ e]; it is rounded to the
    nearest [float]. *)
Definition to_float (neg : bool) (m base e : Z) : spec_float :=
  if m =? 0 then S754_zero neg else
  if 0 <=? e then binary_round_aux 24 128 neg (m * base ^ e) 0 loc_Exact else
  let '(q, e', l) := SFdiv_core_binary 24 128 m 0 (base ^ (- e)) 0 in
  binary_round_aux 24 128 neg q e' l.

(** digits, with at most one point: the digits read, how many of them follow
    the point, whether there was one, the rest *)
Fixpoint float_digits (base : Z) (point : bool) (s : mem) (acc frac : Z) (seen : bool) : Z * Z * bool * mem :=
  match s with
  | [] => (acc, frac, seen, s)
  | b :: s' =>
      if digit_val (zb b) <? base
      then float_digits base point s' (acc * base + digit_val (zb b)) (if point then frac + 1 else frac) true
      else if negb point && (zb b =? ch ".") then float_digits base true s' acc frac seen
      else (acc, frac, seen, s)
  end.

(** the decimal digits at [s] *)
Fixpoint digits (s : mem) (acc : Z) : Z * mem :=
  match s with
  | [] => (acc, s)
  | b :: s' => if isdigit (zb b) then digits s' (acc * 10 + (zb b - 48)) else (acc, s)
  end.

(** an exponent after [mark], if there is one *)
Definition float_exponent (mark : ascii) (s : mem) : Z * mem :=
  if negb (tolower (at_ s) =? ch mark) then (0, s) else
  let s1 := tail s in
  let neg := at_ s1 =? ch "-" in
  let s2 := if neg || (at_ s1 =? ch "+") then tail s1 else s1 in
  if negb (isdigit (at_ s2)) then (0, s) else
  let '(e, s3) := digits s2 0 in (if neg then - e else e, s3).

(** [s] begins with the word, in any case *)
Fixpoint after_word (w s : mem) : option mem :=
  match w, s with
  | [], _ => Some s
  | a :: w, b :: s => if tolower (zb b) =? zb a then after_word w s else None
  | _, [] => None
  end.

Fixpoint blanks (s : mem) : mem :=
  match s with b :: s' => if isspace (zb b) then blanks s' else s | [] => [] end.

(** [nan(...)]: letters, digits and underscores in parentheses *)
Fixpoint nan_chars (s : mem) : option mem :=
  match s with
  | [] => None
  | b :: s => if zb b =? ch ")" then Some s
              else if (digit_val (zb b) <? 36) || (zb b =? ch "_") then nan_chars s else None
  end.

Definition strtof (s : mem) : spec_float * mem :=
  let s1 := blanks s in
  let neg := at_ s1 =? ch "-" in
  let s2 := if neg || (at_ s1 =? ch "+") then tail s1 else s1 in
  match after_word (bytes_of "infinity") s2, after_word (bytes_of "inf") s2, after_word (bytes_of "nan") s2 with
  | Some s3, _, _ | None, Some s3, _ => (S754_infinity neg, s3)
  | None, None, Some s3 =>
      (S754_nan, if at_ s3 =? ch "(" then match nan_chars (tail s3) with Some s4 => s4 | None => s3 end else s3)
  | None, None, None =>
      let '(m, frac, seen, s3) :=
        match after_word (bytes_of "0x") s2 with
        | Some s3 => float_digits 16 false s3 0 0 false
        | None => (0, 0, false, s2)
        end in
      if seen : bool then
        let '(e, s4) := float_exponent "p" s3 in (to_float neg m 2 (e - 4 * frac), s4)
      else
        let '(m, frac, seen, s3) := float_digits 10 false s2 0 0 false in
        if negb seen then (S754_zero false, s) else
        let '(e, s4) := float_exponent "e" s3 in (to_float neg m 10 (e - frac), s4)
  end.

(** the integer a [float] is cut to: undefined outside of the type *)
Definition cut_float (lo hi : Z) (f : spec_float) : res Z :=
  match f with
  | S754_zero _ => Ok 0
  | S754_finite neg m e =>
      let v := Z.shiftl (Z.pos m) e in
      let v := if neg then - v else v in
      if (lo <=? v) && (v <=? hi) then Ok v else UB
  | _ => UB
  end.
Definition float_int (f : spec_float) : res Z := cut_float (- 2 ^ 31) (2 ^ 31 - 1) f.
Definition float_uint (f : spec_float) : res Z := cut_float 0 (2 ^ 32 - 1) f.
(** [f * 1000] *)
Definition thousand (f : spec_float) : spec_float := SFmul 24 128 f (binary_normalize 24 128 1000 0 false).

(** *** One number of [sscanf], of at most [width] characters: the byte it is
    stored as, and what is left; of [0x] without a digit only the [0] is read *)
Definition scan_byte (base : Z) (width : nat) (s : mem) : option (byte * mem) :=
  let s1 := blanks s in
  let neg := at_ s1 =? ch "-" in
  let '(s2, width) := if neg || (at_ s1 =? ch "+") then (tail s1, pred width) else (s1, width) in
  let l := take width s2 in
  match strtol_digits base (l ++ [x00]) 0 0 false with
  | Ok (v, k, true) => Some (bz (u8 (if neg then - v else v)), drop (Z.to_nat k) s2)
  | _ => None
  end.

(* ------------------------------------------------------------------ *)
(** ** What is read *)

(** *** Escapes *)

Definition esca : list (ascii * Z) :=
  [("r", 13); ("n", 10); ("t", 9); ("\", 92); ("f", 12); ("b", 8); ("v", 11); ("a", 7)]%char.

(** the character after a backslash *)
Definition escape (c : Z) : option byte :=
  match List.find (λ x, ch x.1 =? c) esca with Some (_, v) => Some (bz v) | None => None end.

(** [buffer] so far, and [str + p] *)
Definition cform_step (blen : Z) (st : mem * mem) : res (mem * mem + mem) :=
  let '(out, s) := st in
  match s with
  | [] => Ok (inr out)
  | b :: p =>
      if blen <=? len out then Ok (inr out) else
      if negb (zb b =? ch "\") then Ok (inl (out ++ [b], p)) else
      match escape (at_ p) with
      | Some v => Ok (inl (out ++ [v], tail p))
      | None =>
          match (if at_ p =? ch "x" then scan_byte 16 2 (tail p) else None), scan_byte 8 3 p with
          | Some (v, p'), _ | None, Some (v, p') => Ok (inl (out ++ [v], p'))
          | None, None => Ok (inl (out, p))
          end
      end
  end.

(** the bytes written to [buffer] *)
Definition parse_cform (blen : Z) (str : mem) : res mem :=
  loop (Datatypes.S (length str)) (cform_step blen) ([], str).

(** *** Positions *)

Definition zero_part : part := Part DESYNC_NONE 0 0 0 0.
#[export] Instance part_eta : Eta part := λ p, Part (pt_m p) (pt_flag p) (pt_pos p) (pt_r p) (pt_s p).

(** [while ( *end == ':')]: the numbers, and [end]; [None]: [return -1] *)
Definition offset_step (st : part * mem) : res (part * mem + part * option mem) :=
  let '(p, s) := st in
  if negb (at_ s =? ch ":") then Ok (inr (p, Some s)) else
  '(rs, s) ← strtol_end (tail s) 0;
  if (rs <? 0) || (INT_MAX <? rs) then Ok (inr (p, None)) else
  if pt_r p =? 0 then
    if rs =? 0 then Ok (inr (p, None)) else Ok (inl (p <| pt_r := rs |>, s))
  else Ok (inr (p <| pt_s := rs |>, Some s)).

(** the letters after [+]; [None]: [return -1] *)
Definition offset_flags (p : part) (s : mem) : option part :=
  let c1 := at_ (tail s) in
  let c2 := at_ (tail (tail s)) in
  match (if c1 =? ch "s" then Some (p <| pt_flag := OFFSET_SNI |>)
         else if c1 =? ch "h" then Some (p <| pt_flag := OFFSET_HOST |>)
         else if c1 =? ch "n" then Some p else None) with
  | None => None
  | Some p =>
      let add f := p <| pt_flag := Z.lor (pt_flag p) f |> in
      Some (if c2 =? ch "e" then add OFFSET_END
            else if c2 =? ch "m" then add OFFSET_MID
            else if c2 =? ch "r" then add OFFSET_RAND
            else if c2 =? ch "s" then add OFFSET_START else p)
  end.

Definition parse_offset (p : part) (str : mem) : res (part * Z) :=
  '(val, s) ← strtol_end str 0;
  '(p, s) ← loop 3 offset_step (p, s);
  match s with
  | None => Ok (p, -1)
  | Some s =>
      if at_ s =? ch "+" then
        match offset_flags p s with
        | None => Ok (p, -1)
        | Some p => Ok (p <| pt_pos := val |>, 0)
        end
      else if negb (at_ s =? 0) then Ok (p, -1)
      else Ok (p <| pt_pos := val |>, 0)
  end.

(** *** Addresses *)

Section address.
(** [getaddrinfo] with [AI_NUMERICHOST]: the first address *)
Context (numeric : mem → option mem).

(** the port after [p], if a digit follows the colon; [None]: [return -1] *)
Definition get_port (p : option mem) : res (option (option (mem * Z))) :=
  match p with
  | Some p =>
      if isdigit (at_ (tail p)) then
        '(val, s) ← strtol_end (tail p) 0;
        if (val <=? 0) || (0xffff <? val) || negb (at_ s =? 0) then Ok None else Ok (Some (Some (p, val)))
      else Ok (Some None)
  | None => Ok (Some None)
  end.

(** [addr] with the address of the host, if one is named; [None]: [return -1] *)
Definition set_host (host : mem) (addr : mem) : option mem :=
  match host with
  | [] => Some addr
  | _ =>
      match numeric host with
      | None => None
      | Some sa =>
          let addr := if sa_family sa =? AF_INET6 then set_addr6 (sin6_addr sa) addr
                      else set_addr4 (sin_addr sa) addr in
          Some (set_family (sa_family sa) addr)
      end
  end.

(** what is between [s] and its suffix [e] *)
Definition upto (s e : mem) : mem := take (length s - length e) s.

Definition get_addr (str addr : mem) : res (mem * Z) :=
  let bracket := at_ str =? ch "[" in
  match (if bracket then strchr str "]" else Some str) with
  | None => Ok (addr, -1)
  | Some p =>
      let s := if bracket then tail str else str in
      port ← get_port (strchr (if bracket then tail p else str) ":");
      match port with
      | None => Ok (addr, -1)
      | Some port =>
          let e := if bracket then p else match port with Some (p, _) => p | None => [] end in
          match set_host (upto s e) addr with
          | None => Ok (addr, -1)
          | Some addr => Ok (match port with Some (_, val) => set_port (htons val) addr | None => addr end, 0)
          end
      end
  end.

Definition MODE_SOCKS : Z := Z.lor MODE_SOCKS4 MODE_SOCKS5.
Definition OUT_SUPPORT : Z := Z.lor MODE_SOCKS5 MODE_TCP.

Definition schemes : list (string * Z) :=
  [("socks4://", MODE_SOCKS4); ("socks5://", MODE_SOCKS5); ("socks://", MODE_SOCKS); ("ss://", MODE_SHADOWSOCKS);
   ("http://", MODE_HTTP); ("sni://", MODE_RAWTLS); ("tcp://", MODE_TCP); ("red://", MODE_TRANSPARENT)]%string.

(** the first scheme [str] begins with, and what follows it *)
Fixpoint scheme_of (l : list (string * Z)) (str : mem) : Z * mem :=
  match l with
  | [] => (0, str)
  | (name, mode) :: l =>
      let n := String.length name in
      if bool_decide (take n str = bytes_of name) then (mode, drop n str) else scheme_of l str
  end.

Definition get_addr_scheme (str addr : mem) : res (mem * Z) :=
  let '(mode, str) := scheme_of schemes str in
  '(addr, rc) ← get_addr str addr;
  Ok (addr, if rc =? 0 then mode else -1).
End address.

(* ------------------------------------------------------------------ *)
(** ** The state of the parser *)

(** a group, with the fields only the command line and the listing of the
    cache use *)
Record group : Type := Group { g_dp : desync_params; g_str : mem; g_cache_file : option mem; g_optind : Z }.
#[export] Instance group_eta : Eta group := λ g, Group (g_dp g) (g_str g) (g_cache_file g) (g_optind g).

(** [G] is what [getopt_long] remembers; [ar_dp] the group that is being
    described; [ar_mallocs] counts the requests for memory *)
Record Args {G : Type} : Type := MkArgs {
  ar_params : params; ar_dp_n : Z; ar_groups : list group; ar_dp : nat;
  ar_daemonize : bool; ar_pid_file : option mem; ar_need_free : list mem;
  ar_invalid : bool; ar_all_limited : bool; ar_curr_optind : Z;
  ar_optind : Z; ar_getopt : G; ar_mallocs : nat; ar_pid_fd : Z
}.
Arguments Args G : clear implicits.
#[export] Instance args_eta {G} : Eta (Args G) := λ a,
  MkArgs G (ar_params a) (ar_dp_n a) (ar_groups a) (ar_dp a) (ar_daemonize a) (ar_pid_file a) (ar_need_free a)
    (ar_invalid a) (ar_all_limited a) (ar_curr_optind a) (ar_optind a) (ar_getopt a) (ar_mallocs a) (ar_pid_fd a).

(** [calloc(1, sizeof( *prev))], and what [add_group] puts into it *)
Definition zero_dp (id : Z) (prev : option nat) : desync_params :=
  DesyncParams 0 false (Packet 0 None 0) 0 None [] 0 0 false (x00, x00) [] 0 [] 0 false 0 0 0 None None (0, 0) (0, 0)
    0 zero_addr id (2 ^ id) 0 0 0 prev None.

(** [_optind] is 0 until [-A] sets it *)
Definition new_group (id : Z) (prev : option nat) : group := Group (zero_dp id prev) [] None 0.

Section args.
Context {G : Type} `{cm : CharModel}.
(** whether the n-th request for memory is met; the system's answers *)
Context (memory : nat → bool) (numeric : mem → option mem) (inet_pton : Z → mem → option mem).
Context (file : mem → option mem) (cache_text : mem → option mem).
Abbreviation P := (ST (Args G)).

Definition malloc : P bool := λ a, Ok (memory (ar_mallocs a), a <| ar_mallocs := Datatypes.S (ar_mallocs a) |>).

(** *** Access *)

Definition par {A} (f : params → A) : P A := gets (λ a, f (ar_params a)).
Definition par_set (f : params → params) : P unit := modify (λ a, a <| ar_params := f (ar_params a) |>).
Definition invalid : P unit := modify (λ a, a <| ar_invalid := true |>).
Definition group_set (d : nat) (f : group → group) : P unit := λ a,
  match ar_groups a !! d with Some _ => Ok (tt, a <| ar_groups := alter f d (ar_groups a) |>) | None => UB end.
Definition group_get (d : nat) : P group := λ a,
  match ar_groups a !! d with Some g => Ok (g, a) | None => UB end.
(** the current group *)
Definition cur : P group := let* d := gets ar_dp in group_get d.
Definition dpg : P desync_params := let* g := cur in ret (g_dp g).
Definition cur_set (f : group → group) : P unit := let* d := gets ar_dp in group_set d f.
Definition dp_set (f : desync_params → desync_params) : P unit := cur_set (λ g, g <| g_dp := f (g_dp g) |>).

Definition add_group (prev : option nat) : P (option nat) :=
  let* ok := malloc in
  if negb ok then ret None else
  let* d := gets (λ a, length (ar_groups a)) in
  let* id := gets ar_dp_n in
  modify (λ a, a <| ar_groups := ar_groups a ++ [new_group id prev] |>) ;;;
  match prev with Some p => group_set p (λ g, g <| g_dp := g_dp g <| d_next := Some d |> |>) | None => ret tt end ;;;
  (if 31 <=? id then ub else ret tt) ;;;          (* [1 << dp->id] *)
  modify (λ a, a <| ar_dp_n := id + 1 |>) ;;;
  par_set (λ p, p <| p_dp_full_mask := Z.lor (p_dp_full_mask p) (2 ^ id) |>) ;;;
  ret (Some d).

(** *** Files and lists *)

Definition data_from_str (str : mem) : P (option mem) :=
  match str with
  | [] => ret None
  | _ =>
      let* ok := malloc in
      if negb ok then ret None else
      let* d := lift (parse_cform (len str) str) in
      ret (match d with [] => None | _ => Some d end)
  end.

Definition ftob (str : mem) : P (option mem) :=
  if at_ str =? ch ":" then data_from_str (tail str) else
  match file str with
  | None | Some [] => ret None
  | Some content => let* ok := malloc in ret (if ok : bool then Some content else None)
  end.

Definition lower_char (b : byte) : option byte :=
  let c := chr b in
  if c <? ch "A" then if (ch "9" <? c) || (c <? ch "-") then None else Some b
  else if c <? ch "a" then if ch "Z" <? c then None else Some (bz (c + 32))
  else if ch "z" <? c then None else Some b.

Definition is_sep (b : byte) : bool := (zb b =? ch " ") || (zb b =? 10) || (zb b =? 13).

(** [mem_add] with enough fuel *)
Definition pool_add (hdr : mphdr) (str : mem) (n : Z) : P (option mphdr) :=
  let* ok := malloc in
  let* r := lift (mem_add (Z.to_nat (h_count hdr + 3)) ok hdr str n) in
  let '(hdr, e, _) := r in
  ret (match e with Some _ => Some hdr | None => None end).

(** the end of a word, at [e] *)
Definition end_host (hdr : mphdr) (buffer : mem) (e s : Z) (drop : bool)
  : P (mphdr * mem * Z * Z * bool + mphdr * Z) :=
  if s =? e then ret (inl (hdr, buffer, e + 1, s + 1, drop)) else
  if drop then ret (inl (hdr, buffer, e + 1, e + 1, false)) else
  let* hdr' := pool_add hdr (slice buffer s (e - s)) (e - s) in
  match hdr' with
  | None => ret (inr (hdr, -1))
  | Some hdr => ret (inl (hdr, buffer, e + 1, e + 1, drop))
  end.

(** a turn of the loop: the pool, the buffer, [e], [s] and [drop] *)
Definition hosts_step (size : Z) (st : mphdr * mem * Z * Z * bool) : P (mphdr * mem * Z * Z * bool + mphdr * Z) :=
  let '(hdr, buffer, e, s, drop) := st in
  if size <? e then ret (inr (hdr, 0)) else
  if e =? size then end_host hdr buffer e s drop else
  let* b := lift (rd buffer e) in
  if is_sep b then end_host hdr buffer e s drop else
  match lower_char b with
  | None => ret (inl (hdr, buffer, e + 1, s, true))
  | Some b => ret (inl (hdr, splice buffer e [b], e + 1, s, drop))
  end.

Definition parse_hosts (hdr : mphdr) (buffer : mem) : P (mphdr * Z) :=
  mloop (length buffer + 2) (hosts_step (len buffer)) (hdr, buffer, 0, 0, false).

(** the address and the number of bits, 0 for an invalid one *)
Definition parse_ip (str : mem) : res (mem * Z) :=
  sep ← memchr str 0 (ch "/") (len str);
  bits ← match sep with
    | Some i => '(v, _) ← strtol (drop (Z.to_nat (i + 1)) str) 10; Ok (if v <=? 0 then None else Some v)
    | None => Ok (Some 0)
    end;
  match bits with
  | None => Ok ([], 0)
  | Some bits =>
      let str := c_string (match sep with Some i => take (Z.to_nat i) str | None => str end) in
      match (match inet_pton AF_INET str with
             | Some ip => Some (ip, 4)
             | None => match inet_pton AF_INET6 str with Some ip => Some (ip, 16) | None => None end
             end) with
      | None => Ok ([], 0)
      | Some (out, len) => Ok (out, if (bits =? 0) || (len * 8 <? bits) then len * 8 else bits)
      end
  end.

(** a turn of the loop: the pool, [e] and [s] *)
Definition ipset_step (buffer : mem) (st : mphdr * Z * Z) : P (mphdr * Z * Z + mphdr * Z) :=
  let '(hdr, e, s) := st in
  if len buffer <? e then ret (inr (hdr, 0)) else
  let* inside := (if e =? len buffer then ret false else let* b := lift (rd buffer e) in ret (negb (is_sep b))) in
  if inside : bool then ret (inl (hdr, e + 1, s)) else
  if s =? e then ret (inl (hdr, e + 1, s + 1)) else
  let* r := lift (parse_ip (slice buffer s (e - s) ++ [x00])) in
  let '(ip_stack, bits) := r in
  if bits <=? 0 then ret (inl (hdr, e + 1, e + 1)) else
  let n := bits / 8 + (if bits mod 8 =? 0 then 0 else 1) in
  let* ok := malloc in
  if negb ok then ub else                        (* [memcpy] to a null pointer *)
  let* hdr' := pool_add hdr (take (Z.to_nat n) ip_stack) bits in
  match hdr' with
  | None => ret (inr (hdr, -1))
  | Some hdr => ret (inl (hdr, e + 1, e + 1))
  end.

Definition parse_ipset (hdr : mphdr) (buffer : mem) : P (mphdr * Z) :=
  mloop (length buffer + 2) (ipset_step buffer) (hdr, 0, 0).

(* ------------------------------------------------------------------ *)
(** ** The options *)

(** a number from [lo] to [hi] *)
Definition opt_number (lo hi : Z) (optarg : mem) (set : Z → P unit) : P unit :=
  let* r := lift (strtol_end optarg 0) in
  let '(val, end_) := r in
  if (val <? lo) || (hi <? val) || negb (at_ end_ =? 0) then invalid else set val.

(** [while (end && !invalid)]: [flag] is the [switch]; [None] is its
    [default], otherwise it answers the [end] it leaves *)
Definition flags_step (flag : mem → P (option (option mem))) (end_ : mem) : P (mem + unit) :=
  let* inv := gets ar_invalid in
  if inv : bool then ret (inr tt) else
  let* r := flag end_ in
  match r with
  | None => invalid ;;; ret (inr tt)
  | Some None => ub                             (* [strchr] of a null pointer *)
  | Some (Some end_) => ret (match strchr end_ "," with Some e => inl (tail e) | None => inr tt end)
  end.
Definition flags (flag : mem → P (option (option mem))) (optarg : mem) : P unit :=
  mloop (length optarg + 2) (flags_step flag) optarg.

(** a letter that sets something in the group *)
Definition sets (end_ : mem) (f : desync_params → desync_params) : P (option (option mem)) :=
  dp_set f ;;; ret (Some (Some end_)).

Definition auto_mode_flag (end_ : mem) : P (option (option mem)) :=
  let add m := sets end_ (λ d, d <| d_auto_level := Z.lor (d_auto_level d) m |>) in
  if at_ end_ =? ch "o" then add AUTO_ONRECONN
  else if at_ end_ =? ch "s" then add AUTO_SORT
  else if at_ end_ =? ch "n" then add AUTO_NORECONN
  else ret None.

Definition auto_flag (end_ : mem) : P (option (option mem)) :=
  let add m := sets end_ (λ d, d <| d_detect := Z.lor (d_detect d) m |>) in
  if at_ end_ =? ch "t" then add DETECT_TORST
  else if at_ end_ =? ch "r" then add DETECT_HTTP_LOCAT
  else if at_ end_ =? ch "s" then add DETECT_TLS_ERR
  else if at_ end_ =? ch "c" then add DETECT_CONNECT
  else if at_ end_ =? ch "n" then ret (Some (Some end_))
  else if at_ end_ =? ch "p" then
    match strchr end_ "=" with
    | None => ret (Some None)
    | Some e =>
        let '(f, e) := strtof (tail e) in
        if negb (at_ e =? 0) then invalid ;;; ret (Some (Some e)) else
        let* v := lift (float_int f) in
        let* d := dpg in
        let* p := deref (d_prev d) in
        group_set p (λ g, g <| g_dp := g_dp g <| d_pri := v |> |>) ;;;
        ret (Some (Some e))
    end
  else ret None.

(** [dp->hosts || dp->proto || dp->pf[0] || dp->detect || dp->ipset] *)
Definition limited (d : desync_params) : bool :=
  bool_decide (is_Some (d_hosts d)) || negb (d_proto d =? 0) || negb ((d_pf d).1 =? 0) || negb (d_detect d =? 0)
  || bool_decide (is_Some (d_ipset d)).

(** [case 'A']; [None]: [return -1] *)
Definition opt_auto (optarg : mem) : P (option unit) :=
  let* optind := gets ar_optind in
  let* curr := gets ar_curr_optind in
  if optind <? curr then modify (λ a, a <| ar_optind := curr |>) ;;; ret (Some tt) else
  let* d := dpg in
  when (negb (limited d)) (modify (λ a, a <| ar_all_limited := false |>)) ;;;
  let* dp := gets ar_dp in
  let* new := add_group (Some dp) in
  match new with
  | None => ret None
  | Some dp =>
      modify (λ a, a <| ar_dp := dp |>) ;;;
      flags auto_flag optarg ;;;
      let* d := dpg in
      when (negb (d_detect d =? 0)) (par_set (λ p, p <| p_auto_reconnect := true |>)) ;;;
      let* optind := gets ar_optind in
      cur_set (λ g, g <| g_optind := optind |>) ;;;
      ret (Some tt)
  end.

(** the 16 bits of [htons] as a number *)
Definition htons16 (v : Z) : Z := le_val (htons (u16 v)).

(** the group with the id, from [itdp] on *)
Definition copy_step (id : Z) (itdp : option nat) : P (option nat + option nat) :=
  match itdp with
  | None => ret (inr None)
  | Some d =>
      let* g := group_get d in
      if d_id (g_dp g) =? id then ret (inr (Some d)) else ret (inl (d_next (g_dp g)))
  end.

Definition opt_copy (optarg : mem) : P unit :=
  let* optind := gets ar_optind in
  let* curr := gets ar_curr_optind in
  if optind <? curr then ret tt else
  if at_ optarg =? ch "i" then dp_set (λ d, d <| d_pf := (htons16 1, (d_pf d).2) |>) else
  let* r := lift (strtol_end optarg 0) in
  (if r.1 =? LONG_MIN then ub else ret tt) ;;;    (* [val - 1] *)
  let* head := par p_dp in
  let* n := gets (λ a, length (ar_groups a)) in
  let* itdp := mloop (n + 2) (copy_step (r.1 - 1)) head in
  match itdp with
  | None => invalid
  | Some d =>
      let* g := group_get d in
      modify (λ a, a <| ar_curr_optind := optind |> <| ar_optind := g_optind g |>)
  end.

Definition opt_timeout (optarg : mem) : P unit :=
  let '(f, end_) := strtof optarg in
  let* t := lift (float_uint (thousand f)) in
  par_set (λ p, p <| p_timeout := t |>) ;;;
  let* end_ := (if at_ end_ =? ch ":" then
      let '(f, end_) := strtof (tail end_) in
      let* t := lift (float_uint (thousand f)) in
      par_set (λ p, p <| p_ptimeout := t |>) ;;; ret end_
    else ret end_) in
  let* end_ := (if at_ end_ =? ch ":" then
      let '(f, end_) := strtof (tail end_) in
      let* n := lift (float_int f) in
      par_set (λ p, p <| p_to_count_lim := n |>) ;;; ret end_
    else ret end_) in
  let* end_ := (if at_ end_ =? ch ":" then
      let '(f, end_) := strtof (tail end_) in
      let* n := lift (float_int f) in
      par_set (λ p, p <| p_to_bytes_lim := n |>) ;;; ret end_
    else ret end_) in
  if negb (at_ end_ =? 0) then invalid else ret tt.

Definition proto_flag (end_ : mem) : P (option (option mem)) :=
  let add m := sets end_ (λ d, d <| d_proto := Z.lor (d_proto d) m |>) in
  if at_ end_ =? ch "t" then add (Z.lor IS_TCP IS_HTTPS)
  else if at_ end_ =? ch "h" then add (Z.lor IS_TCP IS_HTTP)
  else if at_ end_ =? ch "u" then add IS_UDP
  else if at_ end_ =? ch "i" then add IS_IPV4
  else ret None.

(** [case 'H']; [None]: [return -1] *)
Definition opt_hosts (optarg : mem) : P (option unit) :=
  let* d := dpg in
  let* ok := (match d_hosts d with
    | Some _ => ret true
    | None => let* ok := malloc in
              when ok (dp_set (λ d, d <| d_hosts := Some (mem_pool MF_STATIC CMP_HOST) |>)) ;;; ret ok
    end) in
  if negb ok then ret None else
  let* data := ftob optarg in
  match data with
  | None => invalid ;;; ret (Some tt)
  | Some data =>
      let* ok := malloc in
      if negb ok then ret None else
      modify (λ a, a <| ar_need_free := ar_need_free a ++ [data] |>) ;;;
      let* d := dpg in
      let* hosts := deref (d_hosts d) in
      let* r := parse_hosts hosts data in
      dp_set (λ d, d <| d_hosts := Some r.1 |>) ;;;
      ret (if r.2 =? 0 then Some tt else None)
  end.

Definition opt_ipset (optarg : mem) : P (option unit) :=
  let* data := ftob optarg in
  match data with
  | None => invalid ;;; ret (Some tt)
  | Some data =>
      let* d := dpg in
      let* ok := (match d_ipset d with
        | Some _ => ret true
        | None => let* ok := malloc in
                  when ok (dp_set (λ d, d <| d_ipset := Some (mem_pool 0 CMP_BITS) |>)) ;;; ret ok
        end) in
      if negb ok then ret None else
      let* d := dpg in
      let* ipset := deref (d_ipset d) in
      let* r := parse_ipset ipset data in
      dp_set (λ d, d <| d_ipset := Some r.1 |>) ;;;
      when (negb (r.2 =? 0)) invalid ;;;
      ret (Some tt)
  end.

(** [add] and [parse_offset] for a list of parts; [None]: [return -1] *)
Definition opt_part (optarg : mem) (get : desync_params → list part) (set : list part → desync_params → desync_params)
    (finish : part → part) (fits : part → bool) : P (option unit) :=
  let* ok := malloc in
  if negb ok then ret None else
  let* r := lift (parse_offset zero_part optarg) in
  let '(part, rc) := r in
  let* d := dpg in
  if negb (rc =? 0) || negb (fits part)
  then dp_set (set (get d ++ [part])) ;;; invalid ;;; ret (Some tt)
  else dp_set (set (get d ++ [finish part])) ;;; ret (Some tt).

Definition opt_split (m : demode) (optarg : mem) : P (option unit) :=
  opt_part optarg d_parts (λ l d, d <| d_parts := l |>) (λ p, p <| pt_m := m |>) (λ _, true).
Definition opt_tlsrec (optarg : mem) : P (option unit) :=
  opt_part optarg d_tlsrec (λ l d, d <| d_tlsrec := l |>) id (λ p, pt_pos p <=? 0xffff).

(** [fake_offset] counts when its [m] is set *)
Definition opt_fake_offset (optarg : mem) : P unit :=
  let* d := dpg in
  let* r := lift (parse_offset (default zero_part (d_fake_offset d)) optarg) in
  if negb (r.2 =? 0) then invalid
  else dp_set (λ d, d <| d_fake_offset := Some r.1 |>).

Definition fake_mod_flag (end_ : mem) : P (option (option mem)) :=
  let add m := sets end_ (λ d, d <| d_fake_mod := Z.lor (d_fake_mod d) m |>) in
  if at_ end_ =? ch "r" then add FM_RAND
  else if at_ end_ =? ch "o" then add FM_ORIG
  else if at_ end_ =? ch "m" then
    match strchr end_ "=" with
    | None => ret None
    | Some e =>
        let* r := lift (strtol_end (tail e) 0) in
        let '(val, e) := r in
        if (INT_MAX <? val) || (negb (at_ e =? 0) && negb (at_ e =? ch ",")) then ret None
        else sets e (λ d, d <| d_fake_tls_size := i32 val |>)
    end
  else ret None.

Definition opt_fake_sni (optarg : mem) : P unit :=
  let* ok := malloc in
  if negb ok then invalid else dp_set (λ d, d <| d_fake_sni_list := d_fake_sni_list d ++ [optarg] |>).

Definition opt_fake_data (optarg : mem) : P unit :=
  let* d := dpg in
  match pk_data (d_fake_data d) with
  | Some _ => ret tt
  | None =>
      let* data := ftob optarg in
      match data with
      | None => invalid
      | Some data => dp_set (λ d, d <| d_fake_data := Packet (len data) (Some data) (pk_off (d_fake_data d)) |>)
      end
  end.

Definition opt_oob (optarg : mem) : P unit :=
  let* out := lift (parse_cform 1 optarg) in
  match out with
  | [c] => dp_set (λ d, d <| d_oob_char := (c, x01) |>)
  | _ => invalid
  end.

Definition mod_http_flag (end_ : mem) : P (option (option mem)) :=
  let add m := sets end_ (λ d, d <| d_mod_http := Z.lor (d_mod_http d) m |>) in
  if at_ end_ =? ch "r" then add MH_SPACE
  else if at_ end_ =? ch "h" then add MH_HMIX
  else if at_ end_ =? ch "d" then add MH_DMIX
  else ret None.

(** [first[-last]]: [val] goes into the second place too if there is none *)
Definition range (hi : Z) (conv : Z → Z) (optarg : mem) (get : desync_params → Z * Z)
    (set : Z * Z → desync_params → desync_params) : P unit :=
  let* r := lift (strtol_end optarg 0) in
  let '(val, end_) := r in
  if (val <=? 0) || (hi <? val) then invalid else
  dp_set (λ d, set (conv val, (get d).2) d) ;;;
  let* r := (if at_ end_ =? ch "-" then
      let* r := lift (strtol_end (tail end_) 0) in
      when ((r.1 <=? 0) || (hi <? r.1)) invalid ;;; ret r
    else ret (val, end_)) in
  let '(val, end_) := r in
  if negb (at_ end_ =? 0) then invalid else dp_set (λ d, set ((get d).1, conv val) d).

Definition opt_ports (optarg : mem) : P unit := range USHRT_MAX htons16 optarg d_pf (λ v d, d <| d_pf := v |>).
Definition opt_rounds (optarg : mem) : P unit := range INT_MAX i32 optarg d_rounds (λ v d, d <| d_rounds := v |>).

Definition opt_connect_to (optarg : mem) : P unit :=
  let* d := dpg in
  let* r := lift (get_addr_scheme numeric optarg (d_out_addr d)) in
  let '(addr, mode) := r in
  let out_type := u16 mode in
  dp_set (λ d, d <| d_out_addr := addr |> <| d_out_type := out_type |>) ;;;
  when (negb (Z.land out_type OUT_SUPPORT =? out_type) || (sin_port addr =? 0)) invalid ;;;
  when (out_type =? 0) (dp_set (λ d, d <| d_out_type := MODE_SOCKS5 |>)) ;;;
  par_set (λ p, p <| p_delay_conn := true |>).

Definition opt_listen (optarg : mem) : P unit :=
  let* laddr := par p_laddr in
  let* r := lift (get_addr_scheme numeric optarg laddr) in
  let '(addr, mode) := r in
  par_set (λ p, p <| p_laddr := addr |>) ;;;
  if mode <? 0 then invalid else par_set (λ p, p <| p_mode := Z.lor (p_mode p) mode |>).

Definition opt_conn_ip (optarg : mem) : P unit :=
  let* baddr := par p_baddr in
  let* r := lift (get_addr numeric optarg baddr) in
  par_set (λ p, p <| p_baddr := r.1 |>) ;;;
  when (r.2 <? 0) invalid.

Definition opt_debug (optarg : mem) : P unit :=
  let* r := lift (strtol_end optarg 0) in
  par_set (λ p, p <| p_debug := i32 r.1 |>) ;;;
  when (i32 r.1 <? 0) invalid.

(** [cache_text]: what the file holds, when it can be opened.  A line takes two
    bytes and more, so the pool never has more elements than the fuel says *)
Definition opt_cache_file (optarg : mem) : P unit :=
  cur_set (λ g, g <| g_cache_file := Some optarg |>) ;;;
  if bool_decide (optarg = bytes_of "-") then ret tt else
  match cache_text optarg with
  | None => ret tt
  | Some text =>
      let* dp := gets ar_dp in
      let* pool := par p_mempool in
      let* pool := lift (load_cache inet_pton (Z.to_nat (h_count pool + Z.of_nat (length text) + 3)) pool text (Some dp)) in
      par_set (λ p, p <| p_mempool := pool |>)
  end.

(** [atoi]: undefined for what is no [int] *)
Definition atoi (s : mem) : res Z :=
  '(v, _) ← strtol_end s 10; if (- 2 ^ 31 <=? v) && (v <? 2 ^ 31) then Ok v else UB.

(** the options without an argument *)
Definition opt_switch (rez : Z) : option (P unit) :=
  if rez =? ch "N" then Some (par_set (λ p, p <| p_resolve := false |>))
  else if rez =? ch "X" then Some (par_set (λ p, p <| p_ipv6 := false |>))
  else if rez =? ch "U" then Some (par_set (λ p, p <| p_udp := false |>))
  else if rez =? ch "E" then Some (par_set (λ p, p <| p_mode := MODE_TRANSPARENT |>))
  else if rez =? ch "D" then Some (modify (λ a, a <| ar_daemonize := true |>))
  else if rez =? ch "F" then Some (par_set (λ p, p <| p_tfo := true |>))
  else if rez =? ch "S" then Some (dp_set (λ d, d <| d_md5sig := true |>))
  else if rez =? ch "Y" then Some (dp_set (λ d, d <| d_drop_sack := true |>))
  else if rez =? ch "Z" then Some (par_set (λ p, p <| p_wait_send := true |>))
  else None.

(** those of the process *)
Definition opt_process (rez : Z) (optarg : mem) : option (P unit) :=
  if rez =? ch "w" then Some (modify (λ a, a <| ar_pid_file := Some optarg |>))
  else if rez =? ch "i" then Some (opt_listen optarg)
  else if rez =? ch "p" then Some (opt_number 1 0xffff optarg (λ v, par_set (λ p, p <| p_laddr := set_port (htons v) (p_laddr p) |>)))
  else if rez =? ch "I" then Some (opt_conn_ip optarg)
  else if rez =? ch "b" then Some (opt_number 1 (INT_MAX / 4) optarg (λ v, par_set (λ p, p <| p_bfsize := v |>)))
  else if rez =? ch "c" then Some (opt_number 1 (0xffff / 2 - 1) optarg (λ v, par_set (λ p, p <| p_max_open := v |>)))
  else if rez =? ch "x" then Some (opt_debug optarg)
  else if rez =? ch "y" then Some (opt_cache_file optarg)
  else if rez =? ch "/" then Some (opt_number 0 32 optarg (λ v, par_set (λ p, p <| p_cache_pre := 32 - v |>)))
  else if rez =? ch "T" then Some (opt_timeout optarg)
  else if rez =? ch "g" then Some (opt_number 1 255 optarg (λ v, par_set (λ p, p <| p_def_ttl := v |> <| p_custom_ttl := true |>)))
  else if rez =? ch "W" then Some (let* v := lift (atoi optarg) in par_set (λ p, p <| p_await_int := v |>))
  else if rez =? ch "P" then Some (par_set (λ p, p <| p_protect_path := Some optarg |>))
  else None.

(** those of the current group *)
Definition opt_group (rez : Z) (optarg : mem) : option (P unit) :=
  if rez =? ch "L" then Some (flags auto_mode_flag optarg)
  else if rez =? ch "B" then Some (opt_copy optarg)
  else if rez =? ch "#" then Some (cur_set (λ g, g <| g_str := optarg |>))
  else if rez =? ch "u" then Some (opt_number 1 LONG_MAX optarg (λ v, dp_set (λ d, d <| d_cache_ttl := v |>)))
  else if rez =? ch "K" then Some (flags proto_flag optarg)
  else if rez =? ch "t" then Some (opt_number 1 255 optarg (λ v, dp_set (λ d, d <| d_ttl := v |>)))
  else if rez =? ch "O" then Some (opt_fake_offset optarg)
  else if rez =? ch "Q" then Some (flags fake_mod_flag optarg)
  else if rez =? ch "n" then Some (opt_fake_sni optarg)
  else if rez =? ch "l" then Some (opt_fake_data optarg)
  else if rez =? ch "e" then Some (opt_oob optarg)
  else if rez =? ch "M" then Some (flags mod_http_flag optarg)
  else if rez =? ch "m" then Some (opt_number 1 255 optarg (λ v, dp_set (λ d, d <| d_tlsminor := v |> <| d_tlsminor_set := true |>)))
  else if rez =? ch "a" then Some (opt_number 0 INT_MAX optarg (λ v, dp_set (λ d, d <| d_udp_fake_count := v |>)))
  else if rez =? ch "V" then Some (opt_ports optarg)
  else if rez =? ch "R" then Some (opt_rounds optarg)
  else if rez =? ch "C" then Some (opt_connect_to optarg)
  else None.

(** those that can run out of memory *)
Definition opt_alloc (rez : Z) (optarg : mem) : option (P (option unit)) :=
  if rez =? ch "A" then Some (opt_auto optarg)
  else if rez =? ch "H" then Some (opt_hosts optarg)
  else if rez =? ch "j" then Some (opt_ipset optarg)
  else if rez =? ch "s" then Some (opt_split DESYNC_SPLIT optarg)
  else if rez =? ch "d" then Some (opt_split DESYNC_DISORDER optarg)
  else if rez =? ch "o" then Some (opt_split DESYNC_OOB optarg)
  else if rez =? ch "q" then Some (opt_split DESYNC_DISOOB optarg)
  else if rez =? ch "f" then Some (opt_split DESYNC_FAKE optarg)
  else if rez =? ch "r" then Some (opt_tlsrec optarg)
  else None.

(** the [switch]: what [parse_args] returns at once, if anything *)
Definition parse_opt (rez : Z) (optarg : mem) : P (option Z) :=
  if (rez =? ch "h") || (rez =? ch "v") then ret (Some 1) else
  match opt_switch rez, opt_process rez optarg, opt_group rez optarg, opt_alloc rez optarg with
  | Some m, _, _, _ | _, Some m, _, _ | _, _, Some m, _ => m ;;; ret None
  | _, _, _, Some m => let* r := m in ret (match r with Some _ => None | None => Some (-1) end)
  | _, _, _, _ => ret (if rez =? 0 then None else Some (-1))      (* 0, '?', default *)
  end.

(** [options], without the end of the table: the long name, [has_arg], [val] *)
Definition options : list (string * Z * ascii) :=
  [("daemon", 0, "D"%char); ("pidfile", 1, "w"%char); ("no-domain", 0, "N"%char); ("no-ipv6", 0, "X"%char);
   ("no-udp", 0, "U"%char); ("help", 0, "h"%char); ("version", 0, "v"%char); ("ip", 1, "i"%char); ("port", 1, "p"%char);
   ("transparent", 0, "E"%char); ("conn-ip", 1, "I"%char); ("buf-size", 1, "b"%char); ("max-conn", 1, "c"%char);
   ("debug", 1, "x"%char); ("tfo", 0, "F"%char); ("auto", 1, "A"%char); ("auto-mode", 1, "L"%char);
   ("cache-ttl", 1, "u"%char); ("timeout", 1, "T"%char); ("copy", 1, "B"%char); ("cache-file", 1, "y"%char);
   ("proto", 1, "K"%char); ("hosts", 1, "H"%char); ("pf", 1, "V"%char); ("round", 1, "R"%char); ("split", 1, "s"%char);
   ("disorder", 1, "d"%char); ("oob", 1, "o"%char); ("disoob", 1, "q"%char); ("fake", 1, "f"%char);
   ("md5sig", 0, "S"%char); ("fake-sni", 1, "n"%char); ("ttl", 1, "t"%char); ("fake-data", 1, "l"%char);
   ("fake-offset", 1, "O"%char); ("fake-tls-mod", 1, "Q"%char); ("oob-data", 1, "e"%char); ("mod-http", 1, "M"%char);
   ("tlsrec", 1, "r"%char); ("tlsminor", 1, "m"%char); ("udp-fake", 1, "a"%char); ("def-ttl", 1, "g"%char);
   ("wait-send", 0, "Z"%char); ("await-int", 1, "W"%char); ("drop-sack", 0, "Y"%char); ("protect-path", 1, "P"%char);
   ("ipset", 1, "j"%char); ("connect-to", 1, "C"%char); ("comment", 1, "#"%char); ("cache-merge", 1, "/"%char)]%string.

(** [opt]: each letter with as many colons as it has arguments *)
Definition opt : list ascii := flat_map (λ '(_, a, c), c :: repeat ":"%char (Z.to_nat a)) options.

(** [params] as it is declared *)
Definition params0 (mempool : mphdr) : params :=
  Params None 0 10 false 0 false false 0 0 0 0 0 0 true true true false false 512 0 16384
    (set_family AF_INET6 zero_addr) (set_family AF_INET zero_addr) mempool None.

(** [getopt_long(argc, argv, opt, options, 0)] at [optind]: the option and its
    argument, or [-1]; the new [optind] *)
Context (getopt_long : list ascii → list (string * Z * ascii) → Z → G → option (Z * mem) * Z * G).

Definition args_step (_ : unit) : P (unit + Z) :=
  let* inv := gets ar_invalid in
  if inv : bool then ret (inr (-1)) else
  let* optind := gets ar_optind in
  let* g := gets ar_getopt in
  let '(r, optind, g) := getopt_long opt options optind g in
  modify (λ a, a <| ar_optind := optind |> <| ar_getopt := g |>) ;;;
  match r with
  | None => ret (inr 0)
  | Some (rez, optarg) =>
      let* r := parse_opt rez optarg in
      ret (match r with None => inl tt | Some r => inr r end)
  end.

(** what is done before the loop: whether it goes on *)
Definition args_begin (ipv6_support : bool) : P bool :=
  par_set (λ p, if sin_port (p_laddr p) =? 0 then p <| p_laddr := set_port (htons 1080) (p_laddr p) |> else p) ;;;
  when (negb ipv6_support) (par_set (λ p, p <| p_baddr := set_family AF_INET (p_baddr p) |>)) ;;;
  let* ok := malloc in
  if negb ok then ret false else
  par_set (λ p, p <| p_mempool := mem_pool MF_EXTRA CMP_BITS |>) ;;;
  let* dp := add_group None in
  match dp with
  | None => ret false
  | Some dp =>
      modify (λ a, a <| ar_dp := dp |>) ;;;
      par_set (λ p, p <| p_dp := Some dp |>) ;;;
      ret true
  end.

(** and behind it *)
Definition args_end : P Z :=
  let* all_limited := gets ar_all_limited in
  let* dp := gets ar_dp in
  let* ok := (if all_limited : bool then let* new := add_group (Some dp) in ret (bool_decide (is_Some new)) else ret true) in
  if negb ok then ret (-1) else
  par_set (λ p, if negb (sa_family (p_baddr p) =? AF_INET6) then p <| p_ipv6 := false |> else p) ;;;
  par_set (λ p, if p_mode p =? 0 then p <| p_mode := Z.lor MODE_SOCKS4 MODE_SOCKS5 |> else p) ;;;
  ret 0.

Definition parse_args (fuel : nat) (ipv6_support : bool) : P Z :=
  let* ok := args_begin ipv6_support in
  if negb ok then ret (-1) else
  let* r := mloop fuel args_step tt in
  if negb (r =? 0) then ret r else args_end.

(* ------------------------------------------------------------------ *)
(** ** The program *)

(** the socket's descriptor, and the option if it can be read *)
Definition get_default_ttl (fd : Z) (ttl : option Z) : Z := if fd <? 0 then -1 else default (-1) ttl.
Definition ipv6_support (fd : Z) : bool := negb (fd <? 0).

(** the results of [open], [fcntl] and [write] *)
Definition init_pid_file (pid_fd lock written : Z) : Z :=
  if pid_fd <? 0 then -1 else if lock <? 0 then -1 else if written <? 0 then -1 else pid_fd.

Definition init (default_ttl daemon pid_file : Z) : P Z :=
  let* ttl := par p_def_ttl in
  let* ok := (if ttl =? 0 then par_set (λ p, p <| p_def_ttl := default_ttl |>) ;;; ret (1 <=? default_ttl) else ret true) in
  if negb ok then ret (-1) else
  let* daemonize := gets ar_daemonize in
  if daemonize && (daemon <? 0) then ret (-1) else
  let* name := gets ar_pid_file in
  match name with
  | None => ret 0
  | Some _ => modify (λ a, a <| ar_pid_fd := pid_file |>) ;;; ret (if pid_file <? 0 then -1 else 0)
  end.

(** [while (dp)]: the groups that were freed, in order *)
Definition clear_step (st : option nat * list nat) : P (option nat * list nat + list nat) :=
  let '(dp, freed) := st in
  match dp with
  | None => ret (inr freed)
  | Some d =>
      if bool_decide (d ∈ freed) then ub else
      let* g := group_get d in
      let destroy hdr := lift (mem_destroy (Z.to_nat (match hdr with Some h => h_count h + 2 | None => 0 end)) hdr) in
      destroy (d_hosts (g_dp g)) ;;;
      destroy (d_ipset (g_dp g)) ;;;
      ret (inl (d_next (g_dp g), freed ++ [d]))
  end.

Definition clear_params : P (list nat) :=
  let* pool := par p_mempool in
  lift (mem_destroy (Z.to_nat (h_count pool + 2)) (Some pool)) ;;;
  modify (λ a, a <| ar_need_free := [] |>) ;;;
  let* dp := par p_dp in
  let* n := gets (λ a, length (ar_groups a)) in
  let* freed := mloop (n + 2) clear_step (dp, []) in
  par_set (λ p, p <| p_dp := None |>) ;;;
  ret freed.

(** the text that is written, by file; [writable]: [fopen] succeeds *)
Definition dump_group (inet_ntop : Z → mem → mem) (writable : mem → bool) (st : option nat * list (mem * mem))
  : P (option nat * list (mem * mem) + list (mem * mem)) :=
  let '(dp, out) := st in
  match dp with
  | None => ret (inr out)
  | Some d =>
      let* g := group_get d in
      match g_cache_file g with
      | None => ret (inl (d_next (g_dp g), out))
      | Some name =>
          if negb (bool_decide (name = bytes_of "-")) && negb (writable name) then ret (inr out) else
          let* pool := par p_mempool in
          let* text := lift (dump_cache inet_ntop (Z.to_nat (h_count pool + 2)) pool (Some d)) in
          ret (inl (d_next (g_dp g), out ++ [(name, text)]))
      end
  end.
Definition dump_all_cache (inet_ntop : Z → mem → mem) (writable : mem → bool) : P (list (mem * mem)) :=
  let* dp := par p_dp in
  let* n := gets (λ a, length (ar_groups a)) in
  mloop (n + 2) (dump_group inet_ntop writable) (dp, []).

(** the words of [SS_PLUGIN_OPTIONS]: the copy of the line, [c], and where the
    words begin *)
Definition split_step (st : mem * Z * list Z) : res (mem * Z * list Z + mem * list Z) :=
  let '(cmd_line, c, argv) := st in
  b ← rd cmd_line c;
  if (zb b =? 0) || (64 <=? Z.of_nat (length argv)) then Ok (inr (cmd_line, argv)) else
  if zb b =? ch " " then cmd_line ← wr cmd_line c 0; Ok (inl (cmd_line, c + 1, argv)) else
  before ← (if c =? 0 then Ok x00 else rd cmd_line (c - 1));
  Ok (inl (cmd_line, c + 1, if zb before =? 0 then argv ++ [c] else argv)).

(** [env] without its NUL; each word up to the next NUL *)
Definition split_options (env : mem) : res (list mem) :=
  '(cmd_line, argv) ← loop (length env + 2) split_step (env ++ [x00], 0, [0]);
  Ok (map (λ i, c_string (drop (Z.to_nat i) cmd_line)) argv).

(** what [SS_LOCAL_PORT] sets; [access]: the file exists *)
Definition local_port (port : option mem) (access : bool) : P unit :=
  match port with
  | None => ret tt
  | Some port =>
      let* v := lift (atoi port) in
      par_set (λ p, p <| p_laddr := set_port (htons (u16 v)) (p_laddr p) |>) ;;;
      when access (par_set (λ p, p <| p_protect_path := Some (bytes_of "protect_path") |>)) ;;;
      par_set (λ p, p <| p_mode := Z.lor (p_mode p) MODE_SHADOWSOCKS |>)
  end.

(** [main] behind the environment; [run] is the event loop, and what it makes
    of the parameters *)
Definition main (fuel : nat) (ipv6 : bool) (default_ttl daemon pid_file : Z) (run : Args G → Z * Args G)
    (inet_ntop : Z → mem → mem) (writable : mem → bool) : P (Z * list (mem * mem)) :=
  let* status := parse_args fuel ipv6 in
  if negb (status =? 0) then clear_params ;;; ret (status - 1, []) else
  let* r := init default_ttl daemon pid_file in
  let* r := (if r <? 0 then ret r else
    let* a := gets run in modify (λ _, a.2) ;;; ret a.1) in
  if r <? 0 then clear_params ;;; ret (-1, []) else
  let* out := dump_all_cache inet_ntop writable in
  clear_params ;;;
  ret (0, out).
End args.
