(* ===== verification/ArgsSpec.v ===== *)
(** * byedpi: the command line sets what it says

    A command line says a list of settings; [parse_args] makes exactly these
    parameters and groups of it ([args_say_settings]). *)

From Stdlib Require Import ZArith Lia Bool List Floats.SpecFloat.
From Stdlib Require Import Strings.Byte Strings.Ascii Strings.String.
From stdpp Require Import base tactics list numbers option sets.
From S2P Require Import Prelude CMem Packets PacketsHttp MPool World Desync Addr StateMonad Args.

(** ** Numbers *)

(** digits that [strtol] takes for decimal ones *)
Definition decimal (text : mem) (n : Z) : Prop := number text n ∧ (head text = Some x30 → text = [x30]).
Definition int_text (text : mem) (n : Z) : Prop :=
  decimal text n ∨ ∃ t, text = x2d :: t ∧ decimal t (- n).

Lemma at_end s : ∃ c tl, s ++ [x00] = c :: tl ∧ zb c = at_ s.
Proof. destruct s as [|c s]; [by exists x00, []|]. by exists c, (s ++ [x00]). Qed.

Lemma dec_head b l : Forall is_dec (b :: l) → isspace (zb b) = false ∧ zb b ≠ 45 ∧ zb b ≠ 43.
Proof. intros [Hb _]%Forall_cons_iff. unfold is_dec in Hb. split; [by apply isdigit_not_space|]. unfold isdigit in Hb. lia. Qed.

(** the digits, read with the base that [strtol_base] chooses *)
Lemma decimal_digits text n c tl k : decimal text n → isdigit (zb c) = false → tolower (zb c) ≠ 120 →
  ('(bs, l3, k3) ← strtol_base 0 (text ++ c :: tl) k; strtol_digits bs l3 0 k3 false) = Ok (n, k + len text, true).
Proof.
  intros [(Hne & Hd & E) Hz] Hc Hx. unfold strtol_base. cbn [Z.eqb]. destruct text as [|b l]; [done|]. cbn [app rd_list].
  rewrite bind_Ok. destruct (Z.eqb_spec (zb b) 48) as [E0|E0].
  - assert (b = x30) as -> by (by apply zb_inj). specialize (Hz eq_refl). injection Hz as ->. cbn [tail rd_list app]. rewrite bind_Ok.
    rewrite (proj2 (Z.eqb_neq _ _) Hx), bind_Ok. cbn [strtol_digits]. change (digit_val (zb x30) <? 8) with true. cbv iota.
    pose proof (zb_range c). pose proof (digit_val_not_dec (zb c) Hc).
    rewrite (proj2 (Z.ltb_ge _ _)) by lia. simpl in E |- *. subst n. change (len [x30]) with 1. reflexivity.
  - rewrite bind_Ok. change (b :: l ++ c :: tl) with ((b :: l) ++ c :: tl). rewrite strtol_digits_dec by done. by rewrite E.
Qed.

Lemma strtol_end_dec text n s (neg : bool) : decimal text n → isdigit (at_ s) = false → tolower (at_ s) ≠ 120 →
  let v := if neg then - n else n in LONG_MIN <= v <= LONG_MAX →
  strtol_end ((if neg then [x2d] else []) ++ text ++ s) 0 = Ok (v, s).
Proof.
  intros Hd Hs Hx v Hv. destruct (at_end s) as (c & tl & E & Ec). rewrite <- Ec in Hs, Hx.
  pose proof Hd as [(Hne & Hdec & _) _]. destruct text as [|b l]; [done|]. destruct (dec_head b l Hdec) as (Hsp & H45 & H43).
  unfold strtol_end, strtol. rewrite <- !app_assoc, E. destruct neg; cbn [app].
  - cbn [skip_space]. change (isspace (zb x2d)) with false. cbv iota. rewrite bind_Ok. cbn [rd_list]. rewrite bind_Ok.
    change (zb x2d =? 45) with true. cbn [orb tail]. change (b :: l ++ c :: tl) with ((b :: l) ++ c :: tl).
    pose proof (decimal_digits (b :: l) n c tl 1 Hd Hs Hx) as H. destruct (strtol_base 0 _ _) as [[[bs l3] k3]| |]; try done.
    rewrite bind_Ok in H. rewrite bind_Ok, H, bind_Ok. cbv beta iota. rewrite bind_Ok. f_equal. f_equal.
    + subst v. unfold clamp_long. lia.
    + replace (Z.to_nat (1 + len (b :: l))) with (S (length (b :: l))) by (unfold len; lia). exact (drop_app_length (b :: l) s).
  - cbn [skip_space]. rewrite Hsp, bind_Ok. cbn [rd_list]. rewrite bind_Ok. rewrite !(proj2 (Z.eqb_neq _ _)) by done. cbn [orb].
    change (b :: l ++ c :: tl) with ((b :: l) ++ c :: tl).
    pose proof (decimal_digits (b :: l) n c tl 0 Hd Hs Hx) as H. destruct (strtol_base 0 _ _) as [[[bs l3] k3]| |]; try done.
    rewrite bind_Ok in H. rewrite bind_Ok, H, bind_Ok. cbv beta iota. rewrite bind_Ok. f_equal. f_equal.
    + subst v. unfold clamp_long. lia.
    + replace (Z.to_nat (0 + len (b :: l))) with (length (b :: l)) by (unfold len; lia). exact (drop_app_length (b :: l) s).
Qed.

Lemma strtol_end_int text n s : int_text text n → LONG_MIN <= n <= LONG_MAX →
  isdigit (at_ s) = false → tolower (at_ s) ≠ 120 → strtol_end (text ++ s) 0 = Ok (n, s).
Proof.
  intros [Hd|(t & -> & Hd)] Hn Hs Hx; [by apply (strtol_end_dec text n s false)|].
  change ((x2d :: t) ++ s) with ([x2d] ++ t ++ s). rewrite (strtol_end_dec t (- n) s true); try done; cbv iota; [|lia].
  by rewrite Z.opp_involutive.
Qed.
Lemma strtol_end_whole text n : int_text text n → LONG_MIN <= n <= LONG_MAX → strtol_end text 0 = Ok (n, []).
Proof. intros H Hn. rewrite <- (app_nil_r text) at 1. by apply strtol_end_int. Qed.

(** ** Positions *)

Inductive place : Type := OfHost | OfSni | OfNone.
Inductive spot : Type := AtEnd | AtMiddle | AtRandom | AtStart.
(** [pos[:repeats[:skip]][+place[spot]]] *)
Record offset : Type := Offset { of_pos : Z; of_times : option (Z * option Z); of_place : option (place * option spot) }.

Definition place_letter (p : place) : byte := match p with OfHost => x68 | OfSni => x73 | OfNone => x6e end.
Definition place_flag (p : place) : Z := match p with OfHost => OFFSET_HOST | OfSni => OFFSET_SNI | OfNone => 0 end.
Definition spot_letter (s : spot) : byte := match s with AtEnd => x65 | AtMiddle => x6d | AtRandom => x72 | AtStart => x73 end.
Definition spot_flag (s : spot) : Z :=
  match s with AtEnd => OFFSET_END | AtMiddle => OFFSET_MID | AtRandom => OFFSET_RAND | AtStart => OFFSET_START end.

Definition place_text (o : option (place * option spot)) : mem :=
  match o with
  | None => []
  | Some (p, s) => x2b :: place_letter p :: match s with Some s => [spot_letter s] | None => [] end
  end.
Definition offset_text (text : mem) (o : offset) : Prop :=
  ∃ pos, int_text pos (of_pos o) ∧ LONG_MIN <= of_pos o <= LONG_MAX ∧
  match of_times o with
  | None => text = pos ++ place_text (of_place o)
  | Some (r, None) => 0 < r <= INT_MAX ∧ ∃ rs, int_text rs r ∧ text = pos ++ x3a :: rs ++ place_text (of_place o)
  | Some (r, Some s) => 0 < r <= INT_MAX ∧ 0 <= s <= INT_MAX ∧ ∃ rs ss, int_text rs r ∧ int_text ss s
      ∧ text = pos ++ x3a :: rs ++ x3a :: ss ++ place_text (of_place o)
  end.
Definition offset_part (m : demode) (o : offset) : part :=
  Part m (match of_place o with
          | Some (p, s) => Z.lor (place_flag p) (match s with Some s => spot_flag s | None => 0 end)
          | None => 0 end)
    (of_pos o) (match of_times o with Some (r, _) => r | None => 0 end)
    (match of_times o with Some (_, Some s) => s | _ => 0 end).

Lemma place_text_stops o : isdigit (at_ (place_text o)) = false ∧ tolower (at_ (place_text o)) ≠ 120 ∧ at_ (place_text o) ≠ 58.
Proof. by destruct o as [[p s]|]. Qed.

Lemma parse_offset_says text o : offset_text text o → parse_offset zero_part text = Ok (offset_part DESYNC_NONE o, 0).
Proof.
  intros (pos & Hpos & Hp & H). unfold parse_offset. destruct (place_text_stops (of_place o)) as (Hd & Hx & Hc).
  assert (Hend : ∀ p, pt_m p = DESYNC_NONE → pt_flag p = 0 →
    match Some (place_text (of_place o)) with
    | None => Ok (p, -1)
    | Some s => if at_ s =? ch "+" then
        match offset_flags p s with None => Ok (p, -1) | Some p => Ok (p <| pt_pos := of_pos o |>, 0) end
      else if negb (at_ s =? 0) then Ok (p, -1) else Ok (p <| pt_pos := of_pos o |>, 0)
    end = Ok (Part DESYNC_NONE (pt_flag (offset_part DESYNC_NONE o)) (of_pos o) (pt_r p) (pt_s p), 0)).
  { intros [m fl ps r s]. simpl. intros -> ->. by destruct (of_place o) as [[[] [[]|]]|]. }
  assert (HM : INT_MAX <= LONG_MAX ∧ LONG_MIN <= 0) by done.
  assert (Hstop : ∀ n p, loop (S n) offset_step (p, place_text (of_place o)) = Ok (p, Some (place_text (of_place o)))).
  { intros n p. cbn [loop]. unfold offset_step. change (ch ":") with 58. by rewrite (proj2 (Z.eqb_neq _ _) Hc). }
  assert (Hone : ∀ n p r rs s, pt_r p = 0 → int_text rs r → 0 < r <= INT_MAX → isdigit (at_ s) = false → tolower (at_ s) ≠ 120 →
    loop (S n) offset_step (p, x3a :: rs ++ s) = loop n offset_step (p <| pt_r := r |>, s)).
  { intros n p r rs s Hr Hrs Hb Hs Hs'. cbn [loop]. unfold offset_step. cbn [at_ tail]. change (zb x3a =? ch ":") with true. cbn [negb].
    rewrite (strtol_end_int rs r s) by (try done; lia). rewrite bind_Ok. rewrite (proj2 (Z.ltb_ge r 0)), (proj2 (Z.ltb_ge INT_MAX r)) by lia.
    cbn [orb]. rewrite Hr, (proj2 (Z.eqb_neq r 0)) by lia. done. }
  unfold offset_part in *. destruct (of_times o) as [[r [s|]]|].
  - destruct H as (Hr & Hs & rs & ss & Hrs & Hss & ->). rewrite (strtol_end_int pos (of_pos o)) by done. rewrite bind_Ok.
    rewrite (Hone 2%nat zero_part r) by done. cbn [loop]. unfold offset_step at 1. cbn [at_ tail]. change (zb x3a =? ch ":") with true. cbn [negb].
    rewrite (strtol_end_int ss s) by (try done; lia). rewrite bind_Ok. rewrite (proj2 (Z.ltb_ge s 0)), (proj2 (Z.ltb_ge INT_MAX s)) by lia.
    cbn [orb]. simpl pt_r. rewrite (proj2 (Z.eqb_neq r 0)) by lia. rewrite !bind_Ok. cbv beta iota. by rewrite Hend.
  - destruct H as (Hr & rs & Hrs & ->). rewrite (strtol_end_int pos (of_pos o)) by done. rewrite bind_Ok.
    rewrite (Hone 2%nat zero_part r) by done. rewrite Hstop, bind_Ok. cbv beta iota. by rewrite Hend.
  - subst text. rewrite (strtol_end_int pos (of_pos o)) by done. rewrite bind_Ok. rewrite Hstop, bind_Ok. cbv beta iota. by rewrite Hend.
Qed.

(** ** What a command line says *)

Inductive switch : Type := NoDomain | NoIpv6 | NoUdp | Transparent | Daemon | Tfo | Md5sig | DropSack | WaitSend.
Inductive numeral : Type := Port | BufSize | MaxConn | CacheMerge | DefTtl | CacheTtl | Ttl | TlsMinor | UdpFake.
Inductive letters : Type := AutoMode | Proto | FakeMod | ModHttp.
Inductive textual : Type := Comment | PidFile | ProtectPath | FakeSni.
Inductive ranged : Type := Ports | Rounds.
Inductive setting : Type :=
  | Switch (s : switch) | Numeral (k : numeral) (n : Z) | Letters (k : letters) (words : list mem) | Textual (k : textual) (t : mem)
  | Ranged (k : ranged) (lo : Z) (hi : option Z) | Split (m : demode) (o : offset) | TlsRec (o : offset)
  | FakeSize (n : Z) | OobData (c : byte) | Auto (words : list mem).

Definition switch_letter (s : switch) : ascii :=
  match s with
  | NoDomain => "N" | NoIpv6 => "X" | NoUdp => "U" | Transparent => "E" | Daemon => "D" | Tfo => "F" | Md5sig => "S"
  | DropSack => "Y" | WaitSend => "Z"
  end%char.
Definition numeral_letter (k : numeral) : ascii :=
  match k with
  | Port => "p" | BufSize => "b" | MaxConn => "c" | CacheMerge => "/" | DefTtl => "g" | CacheTtl => "u" | Ttl => "t"
  | TlsMinor => "m" | UdpFake => "a"
  end%char.
Definition numeral_range (k : numeral) : Z * Z :=
  match k with
  | Port => (1, 65535) | BufSize => (1, 536870911) | MaxConn => (1, 32766) | CacheMerge => (0, 32) | DefTtl => (1, 255)
  | CacheTtl => (1, LONG_MAX) | Ttl => (1, 255) | TlsMinor => (1, 255) | UdpFake => (0, INT_MAX)
  end.
Definition letters_letter (k : letters) : ascii :=
  match k with AutoMode => "L" | Proto => "K" | FakeMod => "Q" | ModHttp => "M" end%char.
(** what the first letter of a word stands for *)
Definition mask (k : letters) (c : byte) : option Z :=
  match k, c with
  | AutoMode, "o" => Some AUTO_ONRECONN | AutoMode, "s" => Some AUTO_SORT | AutoMode, "n" => Some AUTO_NORECONN
  | Proto, "t" => Some (Z.lor IS_TCP IS_HTTPS) | Proto, "h" => Some (Z.lor IS_TCP IS_HTTP) | Proto, "u" => Some IS_UDP
  | Proto, "i" => Some IS_IPV4
  | FakeMod, "r" => Some FM_RAND | FakeMod, "o" => Some FM_ORIG
  | ModHttp, "r" => Some MH_SPACE | ModHttp, "h" => Some MH_HMIX | ModHttp, "d" => Some MH_DMIX
  | _, _ => None
  end%byte.
Definition auto_mask (c : byte) : option Z :=
  match c with
  | "t" => Some DETECT_TORST | "r" => Some DETECT_HTTP_LOCAT | "s" => Some DETECT_TLS_ERR | "c" => Some DETECT_CONNECT
  | "n" => Some 0 | _ => None
  end%byte.
Definition textual_letter (k : textual) : ascii :=
  match k with Comment => "#" | PidFile => "w" | ProtectPath => "P" | FakeSni => "n" end%char.
Definition ranged_letter (k : ranged) : ascii := match k with Ports => "V" | Rounds => "R" end%char.
Definition ranged_max (k : ranged) : Z := match k with Ports => USHRT_MAX | Rounds => INT_MAX end.
Definition split_letter (m : demode) : ascii :=
  match m with
  | DESYNC_SPLIT => "s" | DESYNC_DISORDER => "d" | DESYNC_OOB => "o" | DESYNC_DISOOB => "q" | DESYNC_FAKE => "f"
  | DESYNC_NONE => "?"
  end%char.

(** words between commas, each with a letter of the option in front *)
Fixpoint commas (ws : list mem) : mem :=
  match ws with [] => [] | [w] => w | w :: ws => w ++ x2c :: commas ws end.
Definition word_ok (m : byte → option Z) (w : mem) : Prop :=
  (x2c ∉ w) ∧ match w with c :: _ => is_Some (m c) | [] => False end.
Definition words_text (m : byte → option Z) (text : mem) (ws : list mem) : Prop :=
  ws ≠ [] ∧ Forall (word_ok m) ws ∧ text = commas ws.
(** all that the words stand for *)
Definition masks (m : byte → option Z) (ws : list mem) : Z :=
  foldl (λ z w, Z.lor z (match w with c :: _ => default 0 (m c) | [] => 0 end)) 0 ws.

Definition range_text (text : mem) (lo : Z) (hi : option Z) : Prop :=
  ∃ t, int_text t lo ∧ match hi with None => text = t | Some hi => ∃ t', int_text t' hi ∧ text = t ++ x2d :: t' end.

(** the words say a list of settings; an option is one letter, its argument
    the next word *)
Inductive argument : setting → ascii → mem → Prop :=
  | arg_numeral k n t : int_text t n → (numeral_range k).1 <= n <= (numeral_range k).2 → argument (Numeral k n) (numeral_letter k) t
  | arg_letters k ws t : words_text (mask k) t ws → argument (Letters k ws) (letters_letter k) t
  | arg_textual k t : argument (Textual k t) (textual_letter k) t
  | arg_ranged k lo hi t : range_text t lo hi → 0 < lo <= ranged_max k → 0 < default lo hi <= ranged_max k →
      argument (Ranged k lo hi) (ranged_letter k) t
  | arg_split m o t : m ≠ DESYNC_NONE → offset_text t o → argument (Split m o) (split_letter m) t
  | arg_tlsrec o t : offset_text t o → of_pos o <= 0xffff → argument (TlsRec o) "r"%char t
  | arg_fake_size n name t : x3d ∉ name → int_text t n → - 2 ^ 31 <= n <= INT_MAX →
      argument (FakeSize n) "Q"%char (x6d :: name ++ x3d :: t)
  | arg_oob c : c ≠ x5c → argument (OobData c) "e"%char [c]
  | arg_auto ws t : words_text auto_mask t ws → argument (Auto ws) "A"%char t.

Definition letter_word (c : ascii) : mem := [x2d; byte_of_ascii c].
Inductive line : list setting → list mem → Prop :=
  | line_nil : line [] []
  | line_switch s l ws : line l ws → line (Switch s :: l) (letter_word (switch_letter s) :: ws)
  | line_argument x c t l ws : argument x c t → line l ws → line (x :: l) (letter_word c :: t :: ws).

(** *** What the settings mean *)

(** a group is described by its own parameters and its comment; number, bit
    and neighbours follow from its place *)
Record config : Type := Config { c_params : params; c_groups : list (desync_params * mem); c_daemonize : bool; c_pid_file : option mem }.
#[export] Instance config_eta : Eta config := λ c, Config (c_params c) (c_groups c) (c_daemonize c) (c_pid_file c).

Definition blank_group : desync_params * mem := (zero_dp 0 None, []).
(** the last group is the one that is described *)
Definition group_means (f : desync_params → desync_params) (c : config) : config :=
  c <| c_groups := alter (prod_map f id) (pred (length (c_groups c))) (c_groups c) |>.
Definition params_mean (f : params → params) (c : config) : config := c <| c_params := f (c_params c) |>.

Definition switch_means (s : switch) : config → config :=
  match s with
  | NoDomain => params_mean (λ p, p <| p_resolve := false |>)
  | NoIpv6 => params_mean (λ p, p <| p_ipv6 := false |>)
  | NoUdp => params_mean (λ p, p <| p_udp := false |>)
  | Transparent => params_mean (λ p, p <| p_mode := MODE_TRANSPARENT |>)
  | Daemon => λ c, c <| c_daemonize := true |>
  | Tfo => params_mean (λ p, p <| p_tfo := true |>)
  | Md5sig => group_means (λ d, d <| d_md5sig := true |>)
  | DropSack => group_means (λ d, d <| d_drop_sack := true |>)
  | WaitSend => params_mean (λ p, p <| p_wait_send := true |>)
  end.
Definition numeral_means (k : numeral) (n : Z) : config → config :=
  match k with
  | Port => params_mean (λ p, p <| p_laddr := set_port (htons n) (p_laddr p) |>)
  | BufSize => params_mean (λ p, p <| p_bfsize := n |>)
  | MaxConn => params_mean (λ p, p <| p_max_open := n |>)
  | CacheMerge => params_mean (λ p, p <| p_cache_pre := 32 - n |>)
  | DefTtl => params_mean (λ p, p <| p_def_ttl := n |> <| p_custom_ttl := true |>)
  | CacheTtl => group_means (λ d, d <| d_cache_ttl := n |>)
  | Ttl => group_means (λ d, d <| d_ttl := n |>)
  | TlsMinor => group_means (λ d, d <| d_tlsminor := n |> <| d_tlsminor_set := true |>)
  | UdpFake => group_means (λ d, d <| d_udp_fake_count := n |>)
  end.
Definition letters_mean (k : letters) (m : Z) : desync_params → desync_params :=
  match k with
  | AutoMode => λ d, d <| d_auto_level := Z.lor (d_auto_level d) m |>
  | Proto => λ d, d <| d_proto := Z.lor (d_proto d) m |>
  | FakeMod => λ d, d <| d_fake_mod := Z.lor (d_fake_mod d) m |>
  | ModHttp => λ d, d <| d_mod_http := Z.lor (d_mod_http d) m |>
  end.
Definition textual_means (k : textual) (t : mem) : config → config :=
  match k with
  | Comment => λ c, c <| c_groups := alter (λ g, (g.1, t)) (pred (length (c_groups c))) (c_groups c) |>
  | PidFile => λ c, c <| c_pid_file := Some t |>
  | ProtectPath => params_mean (λ p, p <| p_protect_path := Some t |>)
  | FakeSni => group_means (λ d, d <| d_fake_sni_list := d_fake_sni_list d ++ [t] |>)
  end.

Definition means (c : config) (x : setting) : config :=
  match x with
  | Switch s => switch_means s c
  | Numeral k n => numeral_means k n c
  | Letters k ws => group_means (letters_mean k (masks (mask k) ws)) c
  | Textual k t => textual_means k t c
  | Ranged Ports lo hi => group_means (λ d, d <| d_pf := (htons16 lo, htons16 (default lo hi)) |>) c
  | Ranged Rounds lo hi => group_means (λ d, d <| d_rounds := (lo, default lo hi) |>) c
  | Split m o => group_means (λ d, d <| d_parts := d_parts d ++ [offset_part m o] |>) c
  | TlsRec o => group_means (λ d, d <| d_tlsrec := d_tlsrec d ++ [offset_part DESYNC_NONE o] |>) c
  | FakeSize n => group_means (λ d, d <| d_fake_tls_size := n |>) c
  | OobData b => group_means (λ d, d <| d_oob_char := (b, x01) |>) c
  | Auto ws =>
      let m := masks auto_mask ws in
      c <| c_groups := c_groups c ++ [(blank_group.1 <| d_detect := m |>, [])] |>
        <| c_params := if m =? 0 then c_params c else c_params c <| p_auto_reconnect := true |> |>
  end.

(** ** The groups in their list *)

(** the group at place [i] of [n] *)
Definition put (n i : nat) (d : desync_params) : desync_params :=
  d <| d_id := Z.of_nat i |> <| d_bit := 2 ^ Z.of_nat i |>
    <| d_prev := match i with O => None | S j => Some j end |> <| d_next := if decide (S i < n)%nat then Some (S i) else None |>.
Definition linked (l : list desync_params) : list desync_params := imap (put (length l)) l.
(** [f] leaves the place alone *)
Definition local (f : desync_params → desync_params) : Prop := ∀ n i d, f (put n i d) = put n i (f d).

Lemma linked_lookup l i : linked l !! i = put (length l) i <$> l !! i.
Proof. apply list_lookup_imap. Qed.
Lemma length_linked l : length (linked l) = length l.
Proof. apply length_imap. Qed.
Lemma linked_alter f i l : local f → linked (alter f i l) = alter f i (linked l).
Proof.
  intros Hf. apply list_eq. intros j. rewrite linked_lookup, length_alter. destruct (decide (i = j)) as [<-|Hne].
  - rewrite !list_lookup_alter_eq, linked_lookup. destruct (l !! i); [|done]. simpl. by rewrite Hf.
  - by rewrite !list_lookup_alter_ne, linked_lookup.
Qed.

(** a new group is linked behind the last one *)
Lemma linked_snoc l d : l ≠ [] →
  linked (l ++ [d]) = alter (λ g, g <| d_next := Some (length l) |>) (pred (length l)) (linked l) ++ [put (S (length l)) (length l) d].
Proof.
  intros Hl. assert (Hl0 : length l ≠ 0%nat) by (by destruct l). apply list_eq. intros j. rewrite linked_lookup, length_app. simpl. destruct (Nat.lt_total j (length l)) as [H|[->|H]].
  - rewrite !lookup_app_l by (rewrite ?length_alter, ?length_linked; lia). destruct (decide (j = pred (length l))) as [->|Hne].
    + rewrite list_lookup_alter_eq, linked_lookup. destruct (l !! pred (length l)) as [g|]; [|done]. simpl. f_equal. unfold put. simpl.
      replace (S (pred (length l))) with (length l) by lia. by rewrite decide_True by lia.
    + rewrite list_lookup_alter_ne, linked_lookup by done. destruct (l !! j); [|done]. simpl. f_equal. unfold put.
      rewrite !decide_True by lia. done.
  - rewrite !lookup_app_r by (rewrite ?length_alter, ?length_linked; lia). rewrite length_alter, length_linked, Nat.sub_diag. simpl.
    by rewrite Nat.add_1_r.
  - rewrite !lookup_ge_None_2; [done|rewrite length_app, length_alter, length_linked; simpl; lia|rewrite length_app; simpl; lia].
Qed.

(** ** Following the settings *)

Section line.
Context {G : Type} `{cm : CharModel}.
Context (numeric : mem → option mem) (inet_pton : Z → mem → option mem).
Context (file : mem → option mem) (cache_text : mem → option mem).
Implicit Types (a : Args G) (c : config).

(** memory is always there *)
Abbreviation opt_of := (parse_opt (λ _ : nat, true) numeric inet_pton file cache_text).

Record follows c a : Prop := Follows {
  fo_params : ar_params a = c_params c <| p_dp := Some 0%nat |> <| p_dp_full_mask := 2 ^ Z.of_nat (length (c_groups c)) - 1 |>;
  fo_dps : map g_dp (ar_groups a) = linked (map fst (c_groups c));
  fo_strs : map g_str (ar_groups a) = map snd (c_groups c);
  fo_files : Forall (λ g, g_cache_file g = None) (ar_groups a);
  fo_last : S (ar_dp a) = length (c_groups c);
  fo_n : ar_dp_n a = Z.of_nat (length (c_groups c));
  fo_valid : ar_invalid a = false;
  fo_curr : ar_curr_optind a = 1;
  fo_limited : ar_all_limited a = forallb limited (map fst (removelast (c_groups c)));
  fo_daemon : ar_daemonize a = c_daemonize c;
  fo_pid : ar_pid_file a = c_pid_file c;
  fo_pos : 1 <= ar_optind a
}.

(** a step that sets something, and leaves [getopt_long] alone *)
Definition sets_to c' a (r : res (option Z * Args G)) : Prop :=
  ∃ a', r = Ok (None, a') ∧ follows c' a' ∧ ar_optind a' = ar_optind a ∧ ar_getopt a' = ar_getopt a.

Lemma fo_groups c a : follows c a → length (ar_groups a) = length (c_groups c).
Proof. intros H. rewrite <- (length_map g_dp), (fo_dps _ _ H), length_linked. apply length_map. Qed.

(** what is written to the current group *)
Definition on_cur (f : group → group) a : Args G := a <| ar_groups := alter f (ar_dp a) (ar_groups a) |>.
Lemma cur_set_eq f c a : follows c a → cur_set f a = Ok (tt, on_cur f a).
Proof.
  intros H. unfold cur_set, gets, mbind, group_set. rewrite bind_Ok. pose proof (fo_groups c a H). pose proof (fo_last _ _ H).
  destruct (lookup_lt_is_Some_2 (ar_groups a) (ar_dp a)) as [g ->]; [lia|]. done.
Qed.
Lemma fo_dp_last c a : follows c a → ar_dp a = pred (length (c_groups c)).
Proof. intros H. pose proof (fo_last _ _ H). lia. Qed.
Lemma removelast_alter {A} (f : A → A) (l : list A) : removelast (alter f (pred (length l)) l) = removelast l.
Proof.
  destruct (decide (l = [])) as [->|Hl]; [done|]. destruct (exists_last Hl) as (l' & x & ->).
  rewrite length_app. simpl. rewrite Nat.add_1_r. simpl. rewrite alter_app_r_alt by lia. rewrite Nat.sub_diag. simpl.
  by rewrite !removelast_last.
Qed.
Lemma map_alter {A B} (h : A → B) (f : A → A) (f' : B → B) i (l : list A) :
  (∀ x, h (f x) = f' (h x)) → map h (alter f i l) = alter f' i (map h l).
Proof.
  intros H. apply list_eq. intros j. change (map h) with (fmap (M := list) h). rewrite list_lookup_fmap. destruct (decide (i = j)) as [<-|Hne].
  - rewrite !list_lookup_alter_eq, list_lookup_fmap. destruct (l !! i); [|done]. simpl. by rewrite H.
  - by rewrite !list_lookup_alter_ne, list_lookup_fmap.
Qed.

Lemma follows_group f c a : local f → follows c a → follows (group_means f c) (on_cur (λ g, g <| g_dp := f (g_dp g) |>) a).
Proof.
  intros Hf H. pose proof (fo_dp_last c a H) as Hd. destruct H. unfold group_means, on_cur. rewrite Hd. split; simpl; rewrite ?length_alter; try done.
  - rewrite (map_alter g_dp _ f) by done. rewrite (map_alter fst _ f) by done. rewrite linked_alter by done. by f_equal.
  - rewrite (map_alter g_str _ id) by done. rewrite (map_alter snd _ id) by (by intros []). by f_equal.
  - apply Forall_alter; [|done]. by intros.
  - by rewrite removelast_alter.
Qed.
Lemma follows_comment t c a : follows c a →
  follows (textual_means Comment t c) (on_cur (λ g, g <| g_str := t |>) a).
Proof.
  intros H. pose proof (fo_dp_last c a H) as Hd. destruct H. unfold on_cur. simpl. rewrite Hd. split; simpl; rewrite ?length_alter; try done.
  - rewrite (map_alter g_dp _ id) by done. rewrite (map_alter fst _ id) by done. rewrite !list_alter_id by done. done.
  - rewrite (map_alter g_str _ (λ _, t)) by done. rewrite (map_alter snd _ (λ _, t)) by done. by f_equal.
  - apply Forall_alter; [|done]. by intros.
  - by rewrite removelast_alter.
Qed.
(** [f] leaves alone what belongs to the groups *)
Definition apart (f : params → params) : Prop :=
  ∀ p d m, f (p <| p_dp := d |> <| p_dp_full_mask := m |>) = f p <| p_dp := d |> <| p_dp_full_mask := m |>.
Lemma follows_params f c a : apart f → follows c a → follows (params_mean f c) (a <| ar_params := f (ar_params a) |>).
Proof. intros Hf []. split; simpl; try done. by rewrite fo_params0, Hf. Qed.

(** *** One option *)

Lemma opt_unit rez t (m : ST (Args G) unit) a a' : opt_of rez t = (m ;;; ret None) → m a = Ok (tt, a') → opt_of rez t a = Ok (None, a').
Proof. intros -> E. unfold mbind at 1. by rewrite E, bind_Ok. Qed.
Lemma opt_some rez t (m : ST (Args G) (option unit)) a a' :
  opt_of rez t = (let* r := m in ret (match r with Some _ => None | None => Some (-1) end)) →
  m a = Ok (Some tt, a') → opt_of rez t a = Ok (None, a').
Proof. intros -> E. unfold mbind at 1. by rewrite E, bind_Ok. Qed.

Lemma sets_group f c a (m : ST (Args G) unit) rez t : local f → follows c a →
  opt_of rez t = (m ;;; ret None) → m a = dp_set f a → sets_to (group_means f c) a (opt_of rez t a).
Proof.
  intros Hf H E Em. exists (on_cur (λ g, g <| g_dp := f (g_dp g) |>) a). split; [|split; [by apply follows_group|done]].
  eapply opt_unit; [exact E|]. rewrite Em. by apply (cur_set_eq _ c).
Qed.
Lemma sets_params f c a (m : ST (Args G) unit) rez t : apart f → follows c a →
  opt_of rez t = (m ;;; ret None) → m a = par_set f a → sets_to (params_mean f c) a (opt_of rez t a).
Proof.
  intros Hf H E Em. exists (a <| ar_params := f (ar_params a) |>). split; [|split; [by apply follows_params|done]].
  eapply opt_unit; [exact E|]. by rewrite Em.
Qed.

Lemma switch_says s c a : follows c a → sets_to (switch_means s c) a (opt_of (ch (switch_letter s)) [] a).
Proof.
  intros H. destruct s; try (by eapply sets_params); try (by eapply sets_group).
  eexists. split; [by eapply opt_unit|]. split; [|done]. destruct H. by split.
Qed.

Lemma opt_number_eq lo hi t n (set : Z → ST (Args G) unit) a : int_text t n → lo <= n <= hi → LONG_MIN <= lo → hi <= LONG_MAX →
  opt_number lo hi t set a = set n a.
Proof.
  intros Ht Hn Hlo Hhi. unfold opt_number, mbind, lift. rewrite (strtol_end_whole t n) by (done || lia). rewrite !bind_Ok.
  by rewrite (proj2 (Z.ltb_ge _ _)), (proj2 (Z.ltb_ge _ _)) by lia.
Qed.
Lemma numeral_says k n t c a : int_text t n → (numeral_range k).1 <= n <= (numeral_range k).2 → follows c a →
  sets_to (numeral_means k n c) a (opt_of (ch (numeral_letter k)) t a).
Proof.
  intros Ht Hn H.
  assert (HM : LONG_MIN <= (numeral_range k).1 ∧ (numeral_range k).2 <= LONG_MAX) by (by destruct k).
  destruct HM as [HM1 HM2]. destruct k; simpl in Hn, HM1, HM2;
    (eapply sets_params + eapply sets_group); try exact H; try done; try reflexivity; by rewrite (opt_number_eq _ _ _ n).
Qed.

Lemma textual_says k t c a : follows c a → sets_to (textual_means k t c) a (opt_of (ch (textual_letter k)) t a).
Proof.
  intros H. destruct k.
  - exists (on_cur (λ g, g <| g_str := t |>) a). split; [|split; [by apply follows_comment|done]].
    eapply opt_unit; [reflexivity|]. by apply (cur_set_eq _ c).
  - eexists. split; [by eapply opt_unit|]. split; [|done]. destruct H. by split.
  - by eapply sets_params.
  - pose (f d := d <| d_fake_sni_list := d_fake_sni_list d ++ [t] |>).
    pose proof (follows_group f c a ltac:(done) H) as H'.
    exists (on_cur (λ g, g <| g_dp := f (g_dp g) |>) a <| ar_mallocs := S (ar_mallocs a) |>).
    split; [|split; [destruct H'; by split|done]]. eapply opt_unit; [reflexivity|]. unfold opt_fake_sni, malloc, mbind. rewrite bind_Ok. cbn [negb].
    unfold dp_set. rewrite (cur_set_eq _ c); [done|]. destruct H. by split.
Qed.

(** a malloc changes nothing that follows *)
Lemma follows_malloc c a : follows c a → follows c (a <| ar_mallocs := S (ar_mallocs a) |>).
Proof. intros []. by split. Qed.

Lemma dpg_eq c a : follows c a → ∃ d, dpg a = Ok (d, a).
Proof.
  intros H. unfold dpg, cur, gets, mbind, group_get. rewrite bind_Ok. pose proof (fo_groups c a H). pose proof (fo_last _ _ H).
  destruct (lookup_lt_is_Some_2 (ar_groups a) (ar_dp a)) as [g ->]; [lia|]. rewrite !bind_Ok. by eexists.
Qed.
Lemma on_cur_eq f f' a : (∀ g, f g = f' g) → on_cur f a = on_cur f' a.
Proof.
  intros Hf. unfold on_cur. by rewrite (list_alter_ext f f' (ar_groups a) (ar_groups a) (ar_dp a)) by auto.
Qed.
(** writing what was read *)
Lemma on_cur_ext f f' c a d : follows c a → dpg a = Ok (d, a) → (∀ g, g_dp g = d → f g = f' g) → on_cur f a = on_cur f' a.
Proof.
  intros H Ed Hf. unfold on_cur. rewrite (list_alter_ext f f' (ar_groups a) (ar_groups a) (ar_dp a)); [done| |done].
  intros g Hg. apply Hf. unfold dpg, cur, gets, mbind, group_get in Ed. rewrite bind_Ok, Hg, !bind_Ok in Ed. by injection Ed.
Qed.

Lemma part_says text o get set finish fits f rez c a : local f → follows c a → offset_text text o →
  (opt_of rez text : ST (Args G) (option Z)) = (let* r := opt_part (λ _, true) text get set finish fits in ret (match r with Some _ => None | None => Some (-1) end)) →
  fits (offset_part DESYNC_NONE o) = true → (∀ d, set (get d ++ [finish (offset_part DESYNC_NONE o)]) d = f d) →
  sets_to (group_means f c) a (opt_of rez text a).
Proof.
  intros Hf H Ho E Hfit Hset. pose proof (follows_malloc c a H) as H1. destruct (dpg_eq _ _ H1) as [d Ed].
  exists (on_cur (λ g, g <| g_dp := f (g_dp g) |>) (a <| ar_mallocs := S (ar_mallocs a) |>)).
  split; [|split; [by apply follows_group|done]]. eapply opt_some; [exact E|].
  unfold opt_part. unfold mbind at 1. unfold malloc. rewrite bind_Ok. cbn [negb]. unfold mbind at 1. unfold lift.
  rewrite (parse_offset_says text o Ho), !bind_Ok. unfold mbind at 1. rewrite Ed, bind_Ok. rewrite Hfit. cbn [Z.eqb negb orb].
  unfold mbind, dp_set. rewrite (cur_set_eq _ c) by done. rewrite bind_Ok. unfold ret. do 2 f_equal.
  eapply on_cur_ext; [done..|]. intros g <-. simpl. by rewrite Hset.
Qed.

Lemma split_says m o t c a : m ≠ DESYNC_NONE → offset_text t o → follows c a →
  sets_to (means c (Split m o)) a (opt_of (ch (split_letter m)) t a).
Proof.
  intros Hm Ho H.
  apply (part_says t o d_parts (λ l d, d <| d_parts := l |>) (λ p, p <| pt_m := m |>) (λ _, true)); try done.
  by destruct m.
Qed.
Lemma tlsrec_says o t c a : offset_text t o → of_pos o <= 0xffff → follows c a →
  sets_to (means c (TlsRec o)) a (opt_of (ch "r") t a).
Proof.
  intros Ho Hp H.
  apply (part_says t o d_tlsrec (λ l d, d <| d_tlsrec := l |>) id (λ p, pt_pos p <=? 0xffff)); try done. by apply Z.leb_le.
Qed.

Lemma on_cur_comp f f' a : on_cur f' (on_cur f a) = on_cur (λ g, f' (f g)) a.
Proof.
  unfold on_cur. simpl. enough (alter f' (ar_dp a) (alter f (ar_dp a) (ar_groups a)) = alter (λ g, f' (f g)) (ar_dp a) (ar_groups a)) as <- by done.
  apply list_eq. intros j. destruct (decide (ar_dp a = j)) as [<-|Hne].
  - rewrite !list_lookup_alter_eq. by destruct (_ !! _).
  - by rewrite !list_lookup_alter_ne.
Qed.
Lemma dp_set_eq f c a : follows c a → dp_set f a = Ok (tt, on_cur (λ g, g <| g_dp := f (g_dp g) |>) a).
Proof. intros H. by apply (cur_set_eq _ c). Qed.

Lemma range_says hi conv optarg get set lo to c a f : local f → follows c a → local (λ d, set (conv lo, (get d).2) d) →
  range_text optarg lo to → 0 < lo <= hi → 0 < default lo to <= hi → hi <= LONG_MAX →
  (∀ v d, get (set v d) = v) → (∀ v w d, set v (set w d) = set v d) →
  (∀ d, f d = set (conv lo, conv (default lo to)) d) →
  range hi conv optarg get set a = Ok (tt, on_cur (λ g, g <| g_dp := f (g_dp g) |>) a).
Proof.
  intros Hf H Hf1 (t & Ht & Hto) Hlo Hhi HM Hgs Hss Hfd. unfold range.
  assert (HL : LONG_MIN <= 0) by done.
  set (end_ := match to with None => [] | Some h => x2d :: drop (length t + 1) optarg end).
  assert (Hfirst : strtol_end optarg 0 = Ok (lo, end_)).
  { subst end_. destruct to as [h|].
    - destruct Hto as (t' & Ht' & ->). rewrite (strtol_end_int t lo) by (done || lia). do 2 f_equal.
      rewrite drop_app_ge by lia. by replace (length t + 1 - length t)%nat with 1%nat by lia.
    - subst optarg. apply strtol_end_whole; [done|lia]. }
  unfold mbind at 1. unfold lift at 1. rewrite Hfirst, !bind_Ok. rewrite (proj2 (Z.leb_gt _ _)), (proj2 (Z.ltb_ge _ _)) by lia. cbn [orb].
  unfold mbind at 1. rewrite (dp_set_eq _ c) by done. rewrite bind_Ok. pose proof (follows_group _ c a Hf1 H) as H1.
  set (a1 := on_cur _ a) in *.
  assert (Hsecond : (if at_ end_ =? ch "-" then
      let* r := lift (strtol_end (tail end_) 0) in
      when ((r.1 <=? 0) || (hi <? r.1)) invalid ;;; ret r
    else ret (lo, end_)) a1 = Ok ((default lo to, []), a1)).
  { subst end_. destruct to as [h|]; [|done]. destruct Hto as (t' & Ht' & ->). cbn [at_ tail]. change (zb x2d =? ch "-") with true. cbv iota.
    simpl in Hhi. rewrite drop_app_ge by lia. replace (length t + 1 - length t)%nat with 1%nat by lia. cbn [drop]. rewrite drop_0. unfold mbind at 1. unfold lift.
    rewrite (strtol_end_whole t' h) by (done || lia). rewrite !bind_Ok. cbn [fst]. rewrite (proj2 (Z.leb_gt _ _)), (proj2 (Z.ltb_ge _ _)) by lia. done. }
  unfold mbind at 1. rewrite Hsecond, bind_Ok. cbn [at_ Z.eqb negb]. rewrite (dp_set_eq _ _ _ H1). subst a1. rewrite on_cur_comp.
  do 2 f_equal. apply on_cur_eq. intros g. simpl. by rewrite Hfd, Hss, Hgs.
Qed.

Lemma ranged_says k lo hi t c a : range_text t lo hi → 0 < lo <= ranged_max k → 0 < default lo hi <= ranged_max k → follows c a →
  sets_to (means c (Ranged k lo hi)) a (opt_of (ch (ranged_letter k)) t a).
Proof.
  intros Ht Hlo Hhi H. destruct k; simpl in Hlo, Hhi.
  - eexists. split; [|split; [by apply (follows_group (λ d, d <| d_pf := (htons16 lo, htons16 (default lo hi)) |>))|done]].
    eapply opt_unit; [reflexivity|]. by eapply (range_says USHRT_MAX htons16 t d_pf (λ v d, d <| d_pf := v |>) lo hi c).
  - eexists. split; [|split; [by apply (follows_group (λ d, d <| d_rounds := (lo, default lo hi) |>))|done]].
    eapply opt_unit; [reflexivity|]. eapply (range_says INT_MAX i32 t d_rounds (λ v d, d <| d_rounds := v |>) lo hi c); try done.
    intros d. rewrite !i32_small; [done|unfold INT_MAX in *; lia..].
Qed.

(** *** Lists of words *)

Lemma strchr_none s (b : ascii) : byte_of_ascii b ∉ s → strchr s b = None.
Proof.
  induction s as [|x s IH]; [done|]. intros H. simpl. destruct (Z.eqb_spec (zb x) (ch b)) as [E|_]; [|apply IH; set_solver].
  destruct H. replace x with (byte_of_ascii b); [left|]. apply zb_inj. rewrite E. by destruct b as [[] [] [] [] [] [] [] []].
Qed.
Lemma strchr_app s (b : ascii) r : byte_of_ascii b ∉ s → strchr (s ++ byte_of_ascii b :: r) b = Some (byte_of_ascii b :: r).
Proof.
  induction s as [|x s IH]; simpl; intros H.
  - replace (zb (byte_of_ascii b)) with (ch b) by (by destruct b as [[] [] [] [] [] [] [] []]). by rewrite Z.eqb_refl.
  - destruct (Z.eqb_spec (zb x) (ch b)) as [E|_]; [|apply IH; set_solver].
    destruct H. replace x with (byte_of_ascii b); [left|]. apply zb_inj. rewrite E. by destruct b as [[] [] [] [] [] [] [] []].
Qed.

Section words.
Context (m : byte → option Z) (upd : Z → desync_params → desync_params) (flag : mem → ST (Args G) (option (option mem))).
Hypothesis Hloc : ∀ z, local (upd z).
Hypothesis Hupd : ∀ z z' d, upd z' (upd z d) = upd (Z.lor z z') d.
Hypothesis Hflag : ∀ b e z c a, follows c a → m b = Some z →
  flag (b :: e) a = Ok (Some (Some (b :: e)), on_cur (λ g, g <| g_dp := upd z (g_dp g) |>) a).

Lemma masks_lor ws : ∀ acc,
  foldl (λ z w, Z.lor z (match w with b :: _ => default 0 (m b) | [] => 0 end)) acc ws = Z.lor acc (masks m ws).
Proof.
  unfold masks. induction ws as [|w ws IH]; intros acc; [by rewrite Z.lor_0_r|]. cbn [foldl]. rewrite IH.
  set (z := match w with b :: _ => default 0 (m b) | [] => 0 end). rewrite (IH (Z.lor 0 z)), Z.lor_0_l. by rewrite Z.lor_assoc.
Qed.
Lemma masks_cons b w ws z : m b = Some z → masks m ((b :: w) :: ws) = Z.lor z (masks m ws).
Proof. intros E. unfold masks at 1. cbn [foldl]. rewrite masks_lor, E. done. Qed.

Lemma flags_loop ws : ∀ fuel c a, ws ≠ [] → Forall (word_ok m) ws → (length ws < fuel)%nat → follows c a →
  mloop fuel (flags_step flag) (commas ws) a = Ok (tt, on_cur (λ g, g <| g_dp := upd (masks m ws) (g_dp g) |>) a).
Proof.
  induction ws as [|w ws IH]; [done|]. intros [|fuel] c a _ [[Hc Hw] Hws]%Forall_cons Hfuel H; [simpl in Hfuel; lia|].
  destruct w as [|b w]; [done|]. destruct Hw as [z Hz]. rewrite (masks_cons _ _ _ z) by done.
  pose proof (follows_group (upd z) c a (Hloc z) H) as H1.
  assert (Hstep : ∀ e, flags_step flag (b :: e) a = Ok (match strchr (b :: e) "," with Some e => inl (tail e) | None => inr tt end,
      on_cur (λ g, g <| g_dp := upd z (g_dp g) |>) a)).
  { intros e. unfold flags_step. unfold mbind at 1, gets at 1. rewrite bind_Ok, (fo_valid _ _ H). unfold mbind. rewrite (Hflag b e z c a) by done.
    rewrite bind_Ok. done. }
  destruct ws as [|w' ws].
  - cbn [commas]. unfold mloop. cbn [loop]. rewrite Hstep, bind_Ok. rewrite (strchr_none _ ",") by done. rewrite bind_Ok. cbv beta iota.
    do 2 f_equal. apply on_cur_eq. intros g. unfold masks. simpl. by rewrite Z.lor_0_r.
  - change (commas ((b :: w) :: w' :: ws)) with (b :: (w ++ x2c :: commas (w' :: ws))). unfold mloop. cbn [loop]. rewrite Hstep, bind_Ok.
    pose proof (strchr_app (b :: w) "," (commas (w' :: ws)) Hc) as Es. change (byte_of_ascii ",") with x2c in Es.
    cbn [app] in Es. rewrite Es. cbn [tail]. rewrite bind_Ok. cbv beta iota.
    pose proof (IH fuel _ _ ltac:(done) Hws ltac:(simpl in *; lia) H1) as E. unfold mloop in E. rewrite E, on_cur_comp.
    do 2 f_equal. apply on_cur_eq. intros g. simpl. by rewrite Hupd.
Qed.

Lemma length_commas ws : Forall (word_ok m) ws → (length ws <= length (commas ws))%nat.
Proof.
  intros H. induction H as [|w ws [Hc Hw] H IH]; [done|]. destruct w as [|b w]; [done|]. destruct ws; simpl in *; [lia|].
  rewrite length_app. simpl. lia.
Qed.
Lemma flags_says t ws c a : words_text m t ws → follows c a →
  flags flag t a = Ok (tt, on_cur (λ g, g <| g_dp := upd (masks m ws) (g_dp g) |>) a).
Proof. intros (Hne & Hws & ->) H. unfold flags. eapply flags_loop; try done. pose proof (length_commas ws Hws). lia. Qed.
End words.

Lemma flag_sets f c a e : follows c a → sets e f a = Ok (Some (Some e), on_cur (λ g, g <| g_dp := f (g_dp g) |>) a).
Proof. intros H. unfold sets, mbind. by rewrite (dp_set_eq _ c), bind_Ok. Qed.

Lemma letters_says k ws t c a : words_text (mask k) t ws → follows c a →
  sets_to (means c (Letters k ws)) a (opt_of (ch (letters_letter k)) t a).
Proof.
  intros Ht H. eexists. split; [|split; [apply (follows_group (letters_mean k (masks (mask k) ws)) c a); [by destruct k|done]|done]].
  pose (flag := match k with AutoMode => auto_mode_flag | Proto => proto_flag | FakeMod => fake_mod_flag | ModHttp => mod_http_flag end
    : mem → ST (Args G) (option (option mem))).
  apply (opt_unit _ _ (flags flag t)); [by destruct k|]. apply (flags_says (mask k) (letters_mean k) flag) with c; try done.
  - by destruct k.
  - intros z z' d. destruct k; simpl; by rewrite Z.lor_assoc.
  - intros b e z c' a' H' Hb. subst flag.
    destruct k, b; try done; injection Hb as <-; by rewrite <- (flag_sets _ c').
Qed.

Lemma fake_size_says n name t c a : x3d ∉ name → int_text t n → - 2 ^ 31 <= n <= INT_MAX → follows c a →
  sets_to (means c (FakeSize n)) a (opt_of (ch "Q") (x6d :: name ++ x3d :: t) a).
Proof.
  intros Hname Ht Hn H. pose (f d := d <| d_fake_tls_size := n |>).
  exists (on_cur (λ g, g <| g_dp := f (g_dp g) |>) a). split; [|split; [by apply follows_group|done]].
  eapply opt_unit; [reflexivity|]. unfold flags, mloop. rewrite Nat.add_comm. cbn [Nat.add loop]. unfold flags_step at 1. unfold mbind at 1, gets at 1.
  rewrite bind_Ok, (fo_valid _ _ H). unfold mbind at 1. unfold fake_mod_flag at 1. cbn [at_]. change (zb x6d =? ch "r") with false.
  change (zb x6d =? ch "o") with false. change (zb x6d =? ch "m") with true. cbv iota.
  pose proof (strchr_app (x6d :: name) "=" t ltac:(intros [?|?]%elem_of_cons; done)) as Es. change (byte_of_ascii "=") with x3d in Es. cbn [app] in Es.
  rewrite Es. cbn [tail]. assert (HL : LONG_MIN <= - 2 ^ 31 ∧ INT_MAX <= LONG_MAX) by done.
  unfold mbind at 1. unfold lift. rewrite (strtol_end_whole t n) by (done || lia). rewrite !bind_Ok.
  rewrite (proj2 (Z.ltb_ge _ _)) by lia. cbn [at_ Z.eqb negb andb orb]. rewrite i32_small by (unfold INT_MAX in *; lia).
  rewrite (flag_sets f c) by done. rewrite bind_Ok. done.
Qed.
Lemma oob_says b c a : b ≠ x5c → follows c a → sets_to (means c (OobData b)) a (opt_of (ch "e") [b] a).
Proof.
  intros Hb H. pose (f d := d <| d_oob_char := (b, x01) |>).
  exists (on_cur (λ g, g <| g_dp := f (g_dp g) |>) a). split; [|split; [by apply follows_group|done]].
  eapply opt_unit; [reflexivity|]. unfold opt_oob.
  assert (E : parse_cform 1 [b] = Ok [b]).
  { unfold parse_cform. cbn [length loop]. unfold cform_step at 1. change (1 <=? len []) with false. cbv iota.
    assert ((zb b =? ch "\") = false) as -> by (apply Z.eqb_neq; intros E; apply Hb, zb_inj, E). done. }
  rewrite E. by apply (cur_set_eq _ c).
Qed.

(** *** A new group *)

Lemma dpg_last c a l d s : follows c a → c_groups c = l ++ [(d, s)] → dpg a = Ok (put (S (length l)) (length l) d, a).
Proof.
  intros H E. pose proof (fo_dp_last c a H) as Hd. pose proof (fo_dps _ _ H) as Hg. rewrite E in Hd, Hg. rewrite length_app, Nat.add_comm in Hd. simpl in Hd.
  apply (f_equal (λ x, x !! length l)) in Hg. change (map g_dp) with (fmap (M := list) g_dp) in Hg. rewrite list_lookup_fmap in Hg.
  unfold dpg, cur, gets, mbind, group_get. rewrite bind_Ok, Hd. rewrite linked_lookup in Hg.
  change (map fst) with (fmap (M := list) fst (A := desync_params * mem)) in Hg. rewrite list_lookup_fmap, lookup_app_r, Nat.sub_diag, length_fmap, length_app in Hg by lia.
  destruct (ar_groups a !! length l) as [g|]; [|done]. simpl in Hg. rewrite !bind_Ok. injection Hg as ->. by rewrite Nat.add_1_r.
Qed.

Lemma mask_snoc n : 0 <= n → Z.lor (2 ^ n - 1) (2 ^ n) = 2 ^ (n + 1) - 1.
Proof.
  intros Hn. rewrite !Z.sub_1_r, <- !Z.ones_equiv. apply Z.bits_inj'. intros i Hi. rewrite Z.lor_spec, Z.pow2_bits_eqb by done.
  rewrite !Z.testbit_ones_nonneg by lia. destruct (Z.ltb_spec i n), (Z.ltb_spec i (n + 1)), (Z.eqb_spec n i); simpl; lia.
Qed.

(** what of a state the settings determine *)
Record made c a : Prop := Made {
  md_params : ar_params a = c_params c <| p_dp := Some 0%nat |> <| p_dp_full_mask := 2 ^ Z.of_nat (length (c_groups c)) - 1 |>;
  md_dps : map g_dp (ar_groups a) = linked (map fst (c_groups c));
  md_strs : map g_str (ar_groups a) = map snd (c_groups c);
  md_daemon : ar_daemonize a = c_daemonize c;
  md_pid : ar_pid_file a = c_pid_file c
}.
Lemma follows_made c a : follows c a → made c a.
Proof. intros []. by split. Qed.
Lemma made_params f c a : apart f → made c a → made (params_mean f c) (a <| ar_params := f (ar_params a) |>).
Proof. intros Hf []. split; simpl; try done. by rewrite md_params0, Hf. Qed.

(** the new group, which is now described *)
Definition grown (blank : desync_params) c : config := c <| c_groups := c_groups c ++ [(blank, [])] |>.
Lemma add_group_says c a (all : bool) : follows c a → (length (c_groups c) < 31)%nat →
  ∃ a', add_group (λ _, true) (Some (ar_dp a)) (a <| ar_all_limited := all |>) = Ok (Some (length (c_groups c)), a')
    ∧ made (grown blank_group.1 c) a'
    ∧ (all = forallb limited (map fst (c_groups c)) → follows (grown blank_group.1 c) (a' <| ar_dp := length (c_groups c) |>))
    ∧ ar_optind a' = ar_optind a ∧ ar_getopt a' = ar_getopt a.
Proof.
  intros H Hn. pose proof (fo_groups c a H) as Hg. pose proof (fo_last _ _ H) as Hl. pose proof (fo_n _ _ H) as Hid.
  unfold add_group, malloc, mbind, gets, modify, ret, par_set, ub. rewrite !bind_Ok. cbn [negb]. rewrite !bind_Ok.
  unfold group_set. simpl ar_groups. rewrite lookup_app_l by lia. destruct (lookup_lt_is_Some_2 (ar_groups a) (ar_dp a)) as [g Eg]; [lia|].
  rewrite Eg, bind_Ok. simpl. rewrite (proj2 (Z.leb_gt _ _)) by lia. rewrite !bind_Ok. rewrite Hg.
  eexists. split; [reflexivity|]. match goal with |- made _ ?x ∧ _ => set (a' := x) end.
  assert (Hm : made (grown blank_group.1 c) a').
  { destruct H. subst a'. split; simpl; rewrite ?length_app; simpl; try done.
    - rewrite fo_params0. unfold par_set. rewrite fo_n0. simpl. rewrite mask_snoc by lia. by rewrite Nat2Z.inj_add.
    - rewrite (map_alter g_dp _ (λ d, d <| d_next := Some (length (c_groups c)) |>)) by done. rewrite !map_app. simpl. rewrite fo_dps0.
      rewrite linked_snoc by (intros E; apply (f_equal length) in E; rewrite length_map in E; simpl in E; lia).
      rewrite length_map. rewrite alter_app_l by (rewrite length_linked, length_map; lia).
      replace (ar_dp a) with (pred (length (c_groups c))) by lia. do 2 f_equal. unfold put, blank_group, zero_dp. simpl.
      rewrite decide_False by lia. rewrite fo_n0. destruct (length (c_groups c)) eqn:El; [lia|]. done.
    - rewrite (map_alter g_str _ id) by done. rewrite list_alter_id by done. by rewrite !map_app, fo_strs0. }
  split; [exact Hm|]. split; [|done]. intros Hall. destruct H.
  split; [exact (md_params _ _ Hm)|exact (md_dps _ _ Hm)|exact (md_strs _ _ Hm)|..]; simpl; rewrite ?length_app; simpl; try done.
  - apply Forall_alter; [|by intros]. apply Forall_app. split; [done|by constructor].
  - lia.
  - lia.
  - by rewrite removelast_last.
Qed.

Definition detects (z : Z) (d : desync_params) : desync_params := d <| d_detect := Z.lor (d_detect d) z |>.
Lemma auto_mask_says b e z c a : follows c a → auto_mask b = Some z →
  auto_flag (b :: e) a = Ok (Some (Some (b :: e)), on_cur (λ g, g <| g_dp := detects z (g_dp g) |>) a).
Proof.
  intros H Hb. destruct b; try done; injection Hb as <-; try by rewrite <- (flag_sets (detects _) c).
  rewrite (on_cur_eq _ id). { unfold on_cur. rewrite list_alter_id by done. by destruct a. }
  intros [[]]. unfold detects. simpl. by rewrite Z.lor_0_r.
Qed.

Lemma auto_says ws t c a : words_text auto_mask t ws → (length (c_groups c) < 31)%nat → follows c a →
  sets_to (means c (Auto ws)) a (opt_of (ch "A") t a).
Proof.
  intros Ht Hn H. unfold sets_to.
  destruct (exists_last (l := c_groups c)) as (l & [d s] & El).
  { intros E. pose proof (fo_last _ _ H) as Hl. by rewrite E in Hl. }
  set (all := forallb limited (map fst (c_groups c))).
  assert (Hall : all = ar_all_limited a && limited d).
  { subst all. rewrite (fo_limited _ _ H), El, removelast_last, map_app, forallb_app. simpl. by rewrite andb_true_r. }
  destruct (add_group_says c a all H Hn) as (a1 & E1 & _ & F1 & O1 & G1). specialize (F1 eq_refl).
  set (m := masks auto_mask ws).
  pose proof (follows_group (detects m) _ _ ltac:(done) F1) as F2. set (a2 := on_cur _ _) in F2.
  assert (Hc2 : group_means (detects m) (grown blank_group.1 c) = grown (blank_group.1 <| d_detect := m |>) c).
  { unfold group_means, grown. simpl. rewrite length_app, Nat.add_1_r. simpl.
    rewrite alter_app_r_alt by lia. rewrite Nat.sub_diag. done. }
  rewrite Hc2 in F2.
  set (a3 := if m =? 0 then a2 else a2 <| ar_params := ar_params a2 <| p_auto_reconnect := true |> |>).
  assert (F3 : follows (means c (Auto ws)) a3).
  { subst a3. unfold means. fold m. destruct (m =? 0); [destruct F2; by split|]. apply (follows_params (λ p, p <| p_auto_reconnect := true |>)) in F2; [|done].
    destruct F2. by split. }
  assert (Oa2 : ar_optind a2 = ar_optind a) by done. assert (Ga2 : ar_getopt a2 = ar_getopt a) by done.
  exists (on_cur (λ g, g <| g_optind := ar_optind a |>) a3). split; [|split; [|by subst a3; destruct (m =? 0)]].
  2:{ destruct F3. unfold on_cur. split; simpl; rewrite ?length_alter; try done.
      - rewrite (map_alter g_dp _ id) by done. by rewrite list_alter_id by done.
      - rewrite (map_alter g_str _ id) by done. by rewrite list_alter_id by done.
      - apply Forall_alter; [done|]. by intros. }
  eapply opt_some; [reflexivity|]. unfold opt_auto. unfold mbind at 1, gets at 1. rewrite bind_Ok. unfold mbind at 1, gets at 1. rewrite bind_Ok.
  rewrite (fo_curr _ _ H), (proj2 (Z.ltb_ge _ _)) by apply (fo_pos _ _ H). unfold mbind at 1. rewrite (dpg_last c a l d s) by done. rewrite bind_Ok.
  change (limited (put _ _ d)) with (limited d).
  assert (Ew : when (negb (limited d)) (modify (λ a, a <| ar_all_limited := false |>)) a = Ok (tt, a <| ar_all_limited := all |>)).
  { rewrite Hall. destruct (limited d); cbn [negb when]; [|by rewrite andb_false_r]. rewrite andb_true_r. by destruct a. }
  unfold mbind at 1. rewrite Ew, bind_Ok. unfold mbind at 1, gets at 1. rewrite bind_Ok. unfold mbind at 1. change (ar_dp (a <| ar_all_limited := all |>)) with (ar_dp a).
  rewrite E1, bind_Ok. unfold mbind at 1, modify at 1. rewrite bind_Ok.
  unfold mbind at 1. rewrite (flags_says auto_mask detects auto_flag ltac:(done) ltac:(by intros; unfold detects; simpl; rewrite Z.lor_assoc) auto_mask_says t ws _ _ Ht F1).
  rewrite bind_Ok. fold m. fold a2. unfold mbind at 1. rewrite (dpg_last _ a2 (c_groups c) _ _ F2 eq_refl), bind_Ok. cbn [d_detect put].
  assert (Ep : when (negb (m =? 0)) (par_set (λ p, p <| p_auto_reconnect := true |>)) a2 = Ok (tt, a3)) by (subst a3; by destruct (m =? 0)).
  unfold mbind at 1. change (d_detect (put _ _ _)) with m. rewrite Ep, bind_Ok. unfold mbind at 1, gets at 1. rewrite bind_Ok.
  unfold mbind. rewrite (cur_set_eq _ _ a3 F3), bind_Ok. assert (ar_optind a3 = ar_optind a) as -> by (subst a3; by destruct (m =? 0)). done.
Qed.

(** *** All of them *)

Lemma argument_says x o t c a : argument x o t → (length (c_groups (means c x)) <= 31)%nat → follows c a →
  sets_to (means c x) a (opt_of (ch o) t a).
Proof.
  intros Hx Hn H. destruct Hx.
  - by apply numeral_says.
  - by apply letters_says.
  - by apply textual_says.
  - by apply ranged_says.
  - by apply split_says.
  - by apply tlsrec_says.
  - by apply fake_size_says.
  - by apply oob_says.
  - apply auto_says; [done| |done]. unfold means in Hn. simpl in Hn. rewrite length_app in Hn. simpl in Hn. lia.
Qed.
End line.

(** whether a letter is an option, and takes an argument *)
Fixpoint takes (opt : list ascii) (c : ascii) : option bool :=
  match opt with
  | [] => None
  | x :: opt =>
      if Ascii.eqb x c && negb (Ascii.eqb c ":") then Some (match opt with ":"%char :: _ => true | _ => false end)
      else takes opt c
  end.
(** what [getopt_long] promises for words of one letter; [ready i g] when it
    stands in front of a word *)
Class Getopt {G : Type} (argv : list mem)
    (getopt_long : list ascii → list (string * Z * ascii) → Z → G → option (Z * mem) * Z * G) (ready : Z → G → Prop) : Prop := {
  getopt_end i g : ready i g → Z.of_nat (length argv) <= i → ∃ g', getopt_long opt options i g = (None, i, g');
  getopt_letter i g c : ready i g → argv !! Z.to_nat i = Some (letter_word c) → takes opt c = Some false →
    ∃ g', getopt_long opt options i g = (Some (ch c, []), i + 1, g') ∧ ready (i + 1) g';
  getopt_argument i g c t : ready i g → argv !! Z.to_nat i = Some (letter_word c) → takes opt c = Some true →
    argv !! Z.to_nat (i + 1) = Some t → ∃ g', getopt_long opt options i g = (Some (ch c, t), i + 2, g') ∧ ready (i + 2) g'
}.

Section whole.
Context {G : Type} `{cm : CharModel}.
Context (numeric : mem → option mem) (inet_pton : Z → mem → option mem).
Context (file : mem → option mem) (cache_text : mem → option mem).
Context (argv : list mem) (getopt_long : list ascii → list (string * Z * ascii) → Z → G → option (Z * mem) * Z * G) (ready : Z → G → Prop).
Context `{!Getopt argv getopt_long ready}.
Implicit Types (a : Args G) (c : config).
Abbreviation step := (args_step (λ _, true) numeric inet_pton file cache_text getopt_long).

Lemma means_grow x c : (length (c_groups c) <= length (c_groups (means c x)))%nat.
Proof.
  destruct x as [[]|[]|[]|[]|[]| | | | |]; simpl; rewrite ?length_alter, ?length_app; lia.
Qed.
Lemma settings_grow l : ∀ c, (length (c_groups c) <= length (c_groups (foldl means c l)))%nat.
Proof. induction l as [|x l IH]; intros c; [done|]. simpl. etrans; [apply (means_grow x)|apply IH]. Qed.

Lemma step_says c a x g i rez t : follows c a → ar_optind a < i →
  getopt_long opt options (ar_optind a) (ar_getopt a) = (Some (rez, t), i, g) →
  (∀ a1, follows c a1 → sets_to (means c x) a1 (parse_opt (λ _, true) numeric inet_pton file cache_text rez t a1)) →
  ∃ a', step tt a = Ok (inl tt, a') ∧ follows (means c x) a' ∧ ar_optind a' = i ∧ ar_getopt a' = g.
Proof.
  intros H Hi Eg Hx. assert (H1 : follows c (a <| ar_optind := i |> <| ar_getopt := g |>)).
  { destruct H. split; try done. simpl. lia. }
  destruct (Hx _ H1) as (a' & E & F & O & Gt). exists a'. split; [|done]. unfold args_step, mbind, gets. rewrite bind_Ok, (fo_valid _ _ H).
  rewrite !bind_Ok. rewrite Eg. unfold modify. rewrite bind_Ok, E, bind_Ok. done.
Qed.

Lemma opt_takes : (∀ s, takes opt (switch_letter s) = Some false) ∧ ∀ x o t, argument x o t → takes opt o = Some true.
Proof. split; [by intros []|]. intros x o t []; try (by destruct k); try done. by destruct m. Qed.

Lemma settings_loop l ws : line l ws → ∀ fuel c a, follows c a → ready (ar_optind a) (ar_getopt a) →
  drop (Z.to_nat (ar_optind a)) argv = ws → (length (c_groups (foldl means c l)) <= 31)%nat → (length l < fuel)%nat →
  ∃ a', mloop fuel step tt a = Ok (0, a') ∧ follows (foldl means c l) a'.
Proof.
  intros Hl. induction Hl as [|s l ws Hl IH|x o t l ws Ha Hl IH]; intros [|fuel] c a H Hr Hd Hn Hf; simpl in Hf; try lia.
  - assert (Hlen : Z.of_nat (length argv) <= ar_optind a).
    { apply (f_equal length) in Hd. rewrite length_drop in Hd. simpl in Hd. pose proof (fo_pos _ _ H). lia. }
    destruct (getopt_end _ _ Hr Hlen) as (g' & E).
    exists (a <| ar_optind := ar_optind a |> <| ar_getopt := g' |>). split; [|destruct H; by split].
    unfold mloop. cbn [loop]. unfold args_step at 1, mbind, gets. rewrite bind_Ok, (fo_valid _ _ H). rewrite !bind_Ok. rewrite E. done.
  - pose proof (fo_pos _ _ H) as Hp.
    assert (Hw : argv !! Z.to_nat (ar_optind a) = Some (letter_word (switch_letter s))).
    { rewrite <- (Nat.add_0_r (Z.to_nat _)), <- lookup_drop, Hd. done. }
    destruct (getopt_letter _ _ _ Hr Hw (proj1 opt_takes s)) as (g' & E & Hr').
    destruct (step_says c a (Switch s) g' (ar_optind a + 1) _ _ H ltac:(lia) E) as (a' & Es & F & O & Eg); [intros; by apply switch_says|].
    destruct (IH fuel (means c (Switch s)) a' F) as (a2 & E2 & F2); [by rewrite O, Eg| |done|lia|].
    + rewrite O. replace (Z.to_nat (ar_optind a + 1)) with (Z.to_nat (ar_optind a) + 1)%nat by lia. by rewrite <- drop_drop, Hd.
    + exists a2. split; [|done]. unfold mloop in *. cbn [loop]. rewrite Es, !bind_Ok. exact E2.
  - pose proof (fo_pos _ _ H) as Hp.
    assert (Hw : argv !! Z.to_nat (ar_optind a) = Some (letter_word o)).
    { rewrite <- (Nat.add_0_r (Z.to_nat _)), <- lookup_drop, Hd. done. }
    assert (Hw' : argv !! Z.to_nat (ar_optind a + 1) = Some t).
    { replace (Z.to_nat (ar_optind a + 1)) with (Z.to_nat (ar_optind a) + 1)%nat by lia. by rewrite <- lookup_drop, Hd. }
    destruct (getopt_argument _ _ _ _ Hr Hw (proj2 opt_takes _ _ _ Ha) Hw') as (g' & E & Hr').
    destruct (step_says c a x g' (ar_optind a + 2) _ _ H ltac:(lia) E) as (a' & Es & F & O & Eg).
    { intros a1 H1. apply argument_says; [done| |done]. etrans; [apply (settings_grow l)|exact Hn]. }
    destruct (IH fuel (means c x) a' F) as (a2 & E2 & F2); [by rewrite O, Eg| |done|lia|].
    + rewrite O. replace (Z.to_nat (ar_optind a + 2)) with (Z.to_nat (ar_optind a) + 2)%nat by lia. by rewrite <- drop_drop, Hd.
    + exists a2. split; [|done]. unfold mloop in *. cbn [loop]. rewrite Es, !bind_Ok. exact E2.
Qed.

(** the program before [parse_args], and the settings before the first option *)
Definition started (g : G) : Args G :=
  MkArgs G (params0 (mem_pool MF_EXTRA CMP_BITS)) 0 [] 0 false None [] false true 1 1 g 0 0.
Definition defaults (ipv6 : bool) : config :=
  Config (params0 (mem_pool MF_EXTRA CMP_BITS)
      <| p_laddr := set_port (htons 1080) (set_family AF_INET zero_addr) |>
      <| p_baddr := set_family (if ipv6 then AF_INET6 else AF_INET) zero_addr |>)
    [blank_group] false None.
(** what is settled at the end: a group for all the rest, no IPv6 without an
    IPv6 address, SOCKS if no mode was chosen *)
Definition settle (p : params) : params :=
  let p := if sa_family (p_baddr p) =? AF_INET6 then p else p <| p_ipv6 := false |> in
  if p_mode p =? 0 then p <| p_mode := Z.lor MODE_SOCKS4 MODE_SOCKS5 |> else p.
Definition settled (c : config) : config :=
  params_mean settle (if forallb limited (map fst (removelast (c_groups c))) then grown blank_group.1 c else c).

Lemma begin_says ipv6 g :
  ∃ a, args_begin (λ _, true) ipv6 (started g) = Ok (true, a) ∧ follows (defaults ipv6) a ∧ ar_optind a = 1 ∧ ar_getopt a = g.
Proof. destruct ipv6; (eexists; split; [vm_compute; reflexivity|]; split; [|done]; by split; try done; constructor). Qed.
Lemma end_says c a : follows c a → (length (c_groups c) < 31)%nat →
  ∃ a', args_end (λ _, true) a = Ok (0, a') ∧ made (settled c) a'.
Proof.
  intros H Hn. unfold args_end, settled.
  assert (Hf : apart settle) by (intros []; unfold settle; intros d m;
    cbn -[sa_family]; destruct (sa_family _ =? AF_INET6); cbn -[sa_family]; by destruct (_ =? 0)).
  assert (Hend : ∀ c' a', made c' a' → ∃ a2, (par_set (λ p, if negb (sa_family (p_baddr p) =? AF_INET6) then p <| p_ipv6 := false |> else p) ;;;
      par_set (λ p, if p_mode p =? 0 then p <| p_mode := Z.lor MODE_SOCKS4 MODE_SOCKS5 |> else p) ;;; ret 0) a' = Ok (0, a2)
      ∧ made (params_mean settle c') a2).
  { intros c' a' Hm. eexists. split; [reflexivity|]. apply (made_params settle _ _ Hf) in Hm. unfold settle at 2 in Hm.
    simpl. destruct (sa_family (p_baddr (ar_params a')) =? AF_INET6); exact Hm. }
  unfold mbind at 1, gets at 1. rewrite bind_Ok, (fo_limited _ _ H). unfold mbind at 1, gets at 1. rewrite bind_Ok. unfold mbind at 1.
  destruct (forallb limited _) eqn:El.
  - destruct (add_group_says c a (ar_all_limited a) H Hn) as (a' & E & Hm & _). replace (a <| ar_all_limited := ar_all_limited a |>) with a in E by (by destruct a).
    unfold mbind at 1. rewrite E, bind_Ok. unfold ret at 1. rewrite bind_Ok. cbn [negb]. by apply Hend.
  - unfold ret at 1. rewrite bind_Ok. cbn [negb]. by apply Hend, follows_made.
Qed.
End whole.

(** C36: a command line that says a list of settings, one letter each with the
    argument behind it, makes exactly the parameters and groups the settings
    mean, in their order: a setting belongs to the last group that was begun,
    the groups are linked and numbered as they come, each has its own bit, and
    a group for all other connections is added when there is none before the
    last.  It reads every word once, whatever [getopt_long] the system has, as
    long as there is memory and there are not more than 31 groups. *)
Theorem args_say_settings {G : Type} `{cm : CharModel} (numeric : mem → option mem) (inet_pton : Z → mem → option mem)
    (file : mem → option mem) (cache_text : mem → option mem)
    prog ws getopt_long (ready : Z → G → Prop) g (l : list setting) ipv6 :
  Getopt (prog :: ws) getopt_long ready → ready 1 g → line l ws →
  let c := foldl means (defaults ipv6) l in (length (c_groups c) < 31)%nat →
  ∃ a, parse_args (λ _, true) numeric inet_pton file cache_text getopt_long (S (length l)) ipv6 (started g) = Ok (0, a)
    ∧ made (settled c) a.
Proof.
  intros Hg Hr Hl c Hn. destruct (begin_says ipv6 g) as (a & E & F & O & Eg).
  destruct (settings_loop numeric inet_pton file cache_text (prog :: ws) getopt_long ready l ws Hl (S (length l)) (defaults ipv6) a F)
    as (a1 & E1 & F1); [by rewrite O, Eg|by rewrite O|fold c; lia|lia|].
  destruct (end_says _ a1 F1 Hn) as (a2 & E2 & M). exists a2. split; [|done].
  unfold parse_args, mbind. rewrite E, bind_Ok. cbn [negb]. by rewrite E1, bind_Ok.
Qed.

(** ** Examples *)

(** a [getopt_long] for words of one letter *)
Definition word_getopt (argv : list mem) (opt : list ascii) (_ : list (string * Z * ascii)) (i : Z) (g : unit) : option (Z * mem) * Z * unit :=
  let i := if i =? 0 then 1 else i in
  match argv !! Z.to_nat i with
  | None => (None, i, g)
  | Some [d; b] =>
      match takes opt (ascii_of_byte b) with
      | None => (Some (ch "?", []), i + 1, g)
      | Some false => (Some (zb b, []), i + 1, g)
      | Some true =>
          match argv !! Z.to_nat (i + 1) with
          | Some t => (Some (zb b, t), i + 2, g)
          | None => (Some (ch "?", []), i + 1, g)
          end
      end
  | Some _ => (Some (ch "?", []), i + 1, g)
  end.
#[export] Instance word_getopt_ok argv : Getopt argv (word_getopt argv) (λ i _, 1 <= i).
Proof.
  assert (Hz : ∀ c, zb (byte_of_ascii c) = ch c) by (by intros [[] [] [] [] [] [] [] []]).
  split; unfold word_getopt; intros i [].
  - intros Hi Hl. rewrite (proj2 (Z.eqb_neq _ _)) by lia. rewrite (proj2 (lookup_ge_None _ _)) by lia. by exists tt.
  - intros c Hi Hw Ht. rewrite (proj2 (Z.eqb_neq _ _)) by lia. rewrite Hw. cbn [letter_word]. rewrite ascii_of_byte_of_ascii, Ht, Hz.
    exists tt. split; [done|lia].
  - intros c t Hi Hw Ht Hw'. rewrite (proj2 (Z.eqb_neq _ _)) by lia. rewrite Hw. cbn [letter_word]. rewrite ascii_of_byte_of_ascii, Ht, Hw', Hz.
    exists tt. split; [done|lia].
Qed.

Definition command_line : list mem := map bytes_of
  ["-p"; "1081"; "-s"; "1+s"; "-d"; "3:2:1+he"; "-A"; "torst,conn"; "-N"; "-V"; "80-443"; "-K"; "tls,http"; "-Q"; "msize=-5"; "-e"; "x"; "-#"; "two"]%string.
Definition its_settings : list setting :=
  [Numeral Port 1081; Split DESYNC_SPLIT (Offset 1 None (Some (OfSni, None)));
   Split DESYNC_DISORDER (Offset 3 (Some (2, Some 1)) (Some (OfHost, Some AtEnd)));
   Auto [bytes_of "torst"; bytes_of "conn"]; Switch NoDomain; Ranged Ports 80 (Some 443); Letters Proto [bytes_of "tls"; bytes_of "http"];
   FakeSize (-5); OobData x78; Textual Comment (bytes_of "two")].

Lemma decimal_of t n : forallb (λ b, isdigit (zb b)) t && negb (bool_decide (t = [])) && (dec_value t 0 =? n)
  && negb (bool_decide (head t = Some x30)) = true → decimal t n.
Proof.
  rewrite !andb_true_iff, !negb_true_iff, Z.eqb_eq, !bool_decide_eq_false. intros (((Hd & Hne) & Hn) & Hz). split; [|done].
  split; [done|]. split; [|done]. apply Forall_forall. intros x Hx. apply forallb_forall with (x := x) in Hd; [exact Hd|by apply list_elem_of_In].
Qed.
Lemma int_of t n : forallb (λ b, isdigit (zb b)) t && negb (bool_decide (t = [])) && (dec_value t 0 =? n)
  && negb (bool_decide (head t = Some x30)) = true → int_text t n.
Proof. intros H. left. by apply decimal_of. Qed.

Lemma command_line_says : line its_settings command_line.
Proof.
  unfold its_settings, command_line. cbn [map].
  repeat match goal with
  | |- line (Switch _ :: _) _ => apply (line_switch NoDomain)
  | |- line (_ :: _) _ => eapply line_argument
  | |- line [] _ => apply line_nil
  end.
  - apply (arg_numeral Port); [by apply int_of|done].
  - apply (arg_split DESYNC_SPLIT); [done|]. exists (bytes_of "1"). split; [by apply int_of|]. by split.
  - apply (arg_split DESYNC_DISORDER); [done|]. exists (bytes_of "3"). split; [by apply int_of|]. split; [done|]. split; [done|]. split; [done|].
    exists (bytes_of "2"), (bytes_of "1"). split; [by apply int_of|]. split; [by apply int_of|done].
  - apply arg_auto. split; [done|]. split; [|reflexivity]. repeat constructor; try (by eexists); by apply (bool_decide_unpack _).
  - apply (arg_ranged Ports); [|done..]. exists (bytes_of "80"). split; [by apply int_of|]. exists (bytes_of "443"). split; [by apply int_of|done].
  - apply (arg_letters Proto). split; [done|]. split; [|reflexivity]. repeat constructor; try (by eexists); by apply (bool_decide_unpack _).
  - apply (arg_fake_size (-5) (bytes_of "size") (bytes_of "-5")); [by apply (bool_decide_unpack _)| |done].
    right. exists (bytes_of "5"). split; [done|]. by apply decimal_of.
  - by apply arg_oob.
  - apply (arg_textual Comment).
Qed.

Definition read_line `{CharModel} (ws : list mem) (fuel : nat) : res (Z * Args unit) :=
  parse_args (λ _, true) (λ _, None) (λ _ _, None) (λ _, None) (λ _, None) (word_getopt (bytes_of "byedpi" :: ws)) fuel true (started tt).
Lemma args_say_settings_witness : ∃ a : Args unit, read_line (H := true) command_line 11 = Ok (0, a)
  ∧ map d_pf (map g_dp (ar_groups a)) = [(0, 0); (20480, 47873)] ∧ map g_str (ar_groups a) = [[]; bytes_of "two"].
Proof.
  destruct (args_say_settings (cm := true) (λ _, None) (λ _ _, None) (λ _, None) (λ _, None) (bytes_of "byedpi") command_line
    (word_getopt (bytes_of "byedpi" :: command_line)) (λ i _, 1 <= i) tt its_settings true
    (word_getopt_ok _) ltac:(done) command_line_says ltac:(vm_compute; lia)) as (a & E & M).
  exists a. split; [exact E|]. rewrite (md_dps _ _ M), (md_strs _ _ M). split; vm_compute; reflexivity.
Defined.

(** a group that copies itself: the line is read over and over *)
Section self_copy.
Context `{cm : CharModel}.
Definition self_copy : list mem := [bytes_of "-B"; bytes_of "1"].
Definition copy_turn : ST (Args unit) (unit + Z) :=
  args_step (λ _, true) (λ _, None) (λ _ _, None) (λ _, None) (λ _, None) (word_getopt (bytes_of "byedpi" :: self_copy)) tt.
Definition state_of {A} (r : res (A * Args unit)) : Args unit := match r with Ok (_, a) => a | _ => started tt end.
Definition begun : Args unit := state_of (args_begin (λ _, true) true (started tt)).

Lemma copy_self_spins fuel : read_line self_copy fuel = NoFuel.
Proof.
  assert (E0 : args_begin (λ _, true) true (started tt) = Ok (true, begun)) by (vm_compute; reflexivity).
  assert (E1 : copy_turn begun = Ok (inl tt, state_of (copy_turn begun))) by (vm_compute; reflexivity).
  assert (E2 : copy_turn (state_of (copy_turn begun)) = Ok (inl tt, state_of (copy_turn begun))) by (vm_compute; reflexivity).
  assert (Hspin : ∀ n, mloop n (λ _, copy_turn) tt (state_of (copy_turn begun)) = NoFuel).
  { induction n as [|n IH]; [done|]. unfold mloop in *. cbn [loop]. by rewrite E2, bind_Ok, bind_Ok. }
  assert (H : mloop fuel (λ _, copy_turn) tt begun = NoFuel).
  { destruct fuel as [|fuel]; [done|]. specialize (Hspin fuel). unfold mloop in *. cbn [loop]. by rewrite E1, bind_Ok, bind_Ok. }
  unfold read_line, parse_args, mbind. rewrite E0, bind_Ok. cbn [negb].
  change (mloop fuel _ tt begun) with (mloop fuel (λ _, copy_turn) tt begun). by rewrite H.
Qed.
End self_copy.
(** [-A p] without a value reads behind a null pointer *)
Lemma auto_priority_null `{cm : CharModel} : read_line [bytes_of "-A"; bytes_of "p"] 3 = UB.
Proof. vm_compute. reflexivity. Qed.
