(* ===== verification/TpProtocol.v ===== *)
(** * tpws, recognising a request: native/tpws/protocol.c

    Positions in a request ([ResolvePos], [ResolveMultiPos]) and the parsers
    they rest on.  [data] is a whole object, a pointer into it an offset; a
    C string is an object with its terminating zero. *)

From Stdlib Require Import ZArith Lia Bool List.
From Stdlib Require Import Strings.Byte Strings.String Strings.Ascii.
From stdpp Require Import base tactics list numbers option sorting.
From S2P Require Import Prelude CMem.

(** *** helpers.c *)

(** one round of [unique_size_t]: the array, [i], [j] *)
Definition unique_step (ct : Z) (s : list Z * Z * Z) : res (list Z * Z * Z + list Z * Z) :=
  let '(pu, i, j) := s in
  if j <? ct then
    match pu !! Z.to_nat j with
    | None => UB
    | Some u =>
        j ← loop (Datatypes.S (Z.to_nat ct)) (λ j,
          if j <? ct then
            match pu !! Z.to_nat j with
            | None => UB
            | Some v => Ok (if v =? u then inl (j + 1) else inr j)
            end
          else Ok (inr j)) (j + 1);
        Ok (inl (<[Z.to_nat i := u]> pu, i + 1, j))
    end
  else Ok (inr (pu, i)).

Definition unique_size_t (pu : list Z) (ct : Z) : res (list Z * Z) :=
  loop (Datatypes.S (Z.to_nat ct)) (unique_step ct) (pu, 0, 0).

(** [qsort] with the order of the numbers *)
Definition qsort_size_t (array : list Z) : list Z := merge_sort Z.le array.

Definition pntoh16 (m : mem) (p : Z) : res Z :=
  a ← rd m p; b ← rd m (p + 1); Ok (Z.lor (Z.shiftl (zb a) 8) (zb b)).

(** [strncasestr] of helpers.c, from the start of [s] *)
Definition strncasestr (s : mem) (find : mem) (slen : Z) : res (option Z) :=
  match find with
  | [] => Ok (Some 0)
  | c :: find =>
      let flen := len find in
      loop (Datatypes.S (Z.to_nat slen)) (λ st,
        let '(p, slen) := st in
        if slen <? 1 then Ok (inr None) else
        sc ← rd s p;
        if zb sc =? 0 then Ok (inr None) else
        let p := p + 1 in let slen := slen - 1 in
        if negb (toupper (zb c) =? toupper (zb sc)) then Ok (inl (p, slen)) else
        if slen <? flen then Ok (inr None) else
        d ← strncasecmp s p find flen;
        if d =? 0 then Ok (inr (Some (p - 1))) else Ok (inl (p, slen))) (0, slen)
  end.

(** [strlen] of the string at [p] *)
Definition strlen (s : mem) (p : Z) : res Z :=
  loop (Datatypes.S (length s)) (λ i,
    c ← rd s (p + i); Ok (if zb c =? 0 then inr i else inl (i + 1))) 0.

(** [strcasecmp] of two strings *)
Definition strcasecmp (a : mem) (i : Z) (b : mem) (j : Z) : res Z :=
  loop (Datatypes.S (length a)) (λ k,
    x ← rd a (i + k); y ← rd b (j + k);
    let d := tolower (zb x) - tolower (zb y) in
    Ok (if negb (d =? 0) || (zb x =? 0) then inr d else inl (k + 1))) 0.

(** *** Domains *)

(** [for (p--; p > dom && *p != '.'; p--)], from [p - 1] *)
Definition back_to_dot (m : mem) (dom p : Z) : res Z :=
  loop (Datatypes.S (length m)) (λ p,
    if dom <? p then c ← rd m p; Ok (if zb c =? ch "." then inr p else inl (p - 1))
    else Ok (inr p)) p.

(** the domain of level [level] of the [dlen] bytes at [dom]: its offset and
    length *)
Definition FindNLD (m : mem) (dom dlen level : Z) : res (option (Z * Z)) :=
  p2 ← loop (Datatypes.S (Z.to_nat level)) (λ st,
    let '(i, p2) := st in
    if i <? level then
      p2 ← back_to_dot m dom (p2 - 1);
      Ok (if p2 <=? dom then inr None else inl (i + 1, p2))
    else Ok (inr (Some p2))) (1, dom + dlen);
  match p2 with
  | None => Ok None
  | Some p2 =>
      p1 ← back_to_dot m dom (p2 - 1);
      c ← rd m p1;
      let p1 := if zb c =? ch "." then p1 + 1 else p1 in
      Ok (Some (p1, u64 (p2 - p1)))
  end.

(** *** Layer 7 *)

Inductive l7proto : Type := UNKNOWN | HTTP | TLS | QUIC | WIREGUARD | DHT.
#[export] Instance l7proto_eq_dec : EqDecision l7proto.
Proof. solve_decision. Defined.

Definition L7_PROTO_HTTP : Z := 1.
Definition L7_PROTO_TLS : Z := 2.
Definition L7_PROTO_QUIC : Z := 4.
Definition L7_PROTO_WIREGUARD : Z := 8.
Definition L7_PROTO_DHT : Z := 16.
Definition L7_PROTO_UNKNOWN : Z := 0x80000000.

Definition l7_proto_match (p : l7proto) (filter_l7 : Z) : bool :=
  (bool_decide (p = UNKNOWN) && has filter_l7 L7_PROTO_UNKNOWN)
  || (bool_decide (p = HTTP) && has filter_l7 L7_PROTO_HTTP)
  || (bool_decide (p = TLS) && has filter_l7 L7_PROTO_TLS)
  || (bool_decide (p = QUIC) && has filter_l7 L7_PROTO_QUIC)
  || (bool_decide (p = WIREGUARD) && has filter_l7 L7_PROTO_WIREGUARD)
  || (bool_decide (p = DHT) && has filter_l7 L7_PROTO_DHT).

(** *** Position markers *)

Inductive marker : Type :=
| PM_ABS | PM_HOST | PM_HOST_END | PM_HOST_SLD | PM_HOST_MIDSLD | PM_HOST_ENDSLD
| PM_HTTP_METHOD | PM_SNI_EXT.
#[export] Instance marker_eq_dec : EqDecision marker.
Proof. solve_decision. Defined.

Record proto_pos : Type := ProtoPos { pp_pos : Z; pp_marker : marker }.

Definition IsHostMarker (posmarker : marker) : bool :=
  match posmarker with
  | PM_HOST | PM_HOST_END | PM_HOST_SLD | PM_HOST_MIDSLD | PM_HOST_ENDSLD => true
  | _ => false
  end.

(** [offset] is a [ssize_t] *)
Definition CheckPos (sz offset : Z) : Z :=
  if (0 <=? offset) && (offset <? sz) then offset else 0.

Definition AnyProtoPos (posmarker : marker) (pos sz : Z) : Z :=
  match posmarker with
  | PM_ABS => CheckPos sz (i64 (if pos <? 0 then u64 (sz + pos) else pos))
  | _ => 0
  end.

Definition HostPos (posmarker : marker) (pos : Z) (data : mem) (sz offset_host len_host : Z)
  : res Z :=
  offset ← (match posmarker with
    | PM_HOST => Ok (i64 (u64 (offset_host + pos)))
    | PM_HOST_END => Ok (i64 (u64 (offset_host + len_host + pos)))
    | PM_HOST_SLD | PM_HOST_MIDSLD | PM_HOST_ENDSLD =>
        nld ← (if u64 (offset_host + len_host) <=? sz then FindNLD data offset_host len_host 2
               else Ok None);
        match nld with
        | Some (p, slen) =>
            Ok (i64 (u64 ((if decide (posmarker = PM_HOST_SLD) then p
              else if decide (posmarker = PM_HOST_ENDSLD) then p + slen
              else if slen =? 1 then p + 1 else p + slen / 2) + pos)))
        | None => Ok 0
        end
    | _ => UB
    end);
  Ok (CheckPos sz offset).

(** *** HTTP *)

Definition http_methods : list mem :=
  map bytes_of ["GET /"; "POST /"; "HEAD /"; "OPTIONS "; "PUT /"; "DELETE /"; "CONNECT "; "TRACE /"]%string.

(** the method's text, if the data starts with one *)
Fixpoint first_method (ms : list mem) (data : mem) (n : Z) : res (option mem) :=
  match ms with
  | [] => Ok None
  | m :: ms =>
      b ← (if len m <=? n then d ← memcmp data 0 m 0 (len m); Ok (d =? 0) else Ok false);
      if b : bool then Ok (Some m) else first_method ms data n
  end.
Definition HttpMethod (data : mem) (n : Z) : res (option mem) := first_method http_methods data n.
Definition IsHttp (data : mem) (n : Z) : res bool :=
  r ← HttpMethod data n; Ok (bool_decide (is_Some r)).

(** one byte of the test, left to right *)
Fixpoint bytes_in (m : mem) (p : Z) (sets : list (list Z)) : res bool :=
  match sets with
  | [] => Ok true
  | s :: sets =>
      c ← rd m p;
      if existsb (Z.eqb (zb c)) s then bytes_in m (p + 1) sets else Ok false
  end.
Definition IsHostAt (m : mem) (p : Z) : res bool :=
  bytes_in m p [[10]; [ch "H"; ch "h"]; [ch "o"; ch "O"]; [ch "s"; ch "S"]; [ch "t"; ch "T"]; [ch ":"]].

Definition FindHostIn (buf : mem) (bs : Z) : res (option Z) :=
  if bs <? 6 then Ok None else
  loop (Z.to_nat bs) (λ pos,
    if pos <=? bs - 6 then
      b ← IsHostAt buf pos;
      Ok (if b : bool then inr (Some pos) else inl (pos + 1))
    else Ok (inr None)) 0.

(** [*pHost] after the call; it points to "Host: ..." *)
Definition HttpFindHost (pHost : option Z) (buf : mem) (bs : Z) : res (option Z) :=
  match pHost with
  | Some p => Ok (Some p)
  | None => r ← FindHostIn buf bs; Ok (option_map (Z.add 1) r)
  end.

Definition IsHttpReply (data : mem) (n : Z) : res bool :=
  if negb (14 <? n) then Ok false else
  d ← memcmp data 0 (bytes_of "HTTP/1.") 0 7;
  if negb (d =? 0) then Ok false else
  let digits := map ch ["0"; "1"; "2"; "3"; "4"; "5"; "6"; "7"; "8"; "9"]%char in
  bytes_in data 7 [[ch "0"; ch "1"]; [ch " "]; digits; digits; digits].

Definition HttpReplyCode (data : mem) : res Z :=
  a ← rd data 9; b ← rd data 10; c ← rd data 11;
  Ok ((zb a - 48) * 100 + (zb b - 48) * 10 + (zb c - 48)).

(** [buf[i] = tolower(src[p + i])] for [i < slen], then the zero *)
Definition copy_lower (buf src : mem) (p slen : Z) : res mem :=
  '(buf, _) ← loop (Datatypes.S (Z.to_nat slen)) (λ st,
    let '(buf, i) := st in
    if i <? slen then
      c ← rd src (p + i);
      buf ← wr buf i (tolower (zb c));
      Ok (inl (buf, i + 1))
    else Ok (inr (buf, i))) (buf, 0);
  wr buf slen 0.

(** skips the bytes in [set] (or, [neg], those not in it) before [e] *)
Definition skip_while (m : mem) (p e : Z) (test : Z → bool) : res Z :=
  loop (Datatypes.S (length m)) (λ p,
    if p <? e then c ← rd m p; Ok (if test (zb c) then inl (p + 1) else inr p)
    else Ok (inr p)) p.
Definition blank (c : Z) : bool := (c =? 32) || (c =? 9).
Definition eol (c : Z) : bool := (c =? 13) || (c =? 10).

(** the answer, and the buffer ([len_buf] bytes) *)
Definition HttpExtractHeader (data : mem) (n : Z) (header : mem) (buf : mem) : res (bool * mem) :=
  p ← strncasestr data header n;
  match p with
  | None => Ok (false, buf)
  | Some p =>
      p ← skip_while data (p + len header) n blank;
      s ← skip_while data p n (λ c, negb (blank c || eol c));
      if p <? s then
        if len buf =? 0 then Ok (true, buf) else
        let slen := s - p in
        let slen := if len buf <=? slen then len buf - 1 else slen in
        buf ← copy_lower buf data p slen;
        Ok (true, buf)
      else Ok (false, buf)
  end.
Definition HttpExtractHost (data : mem) (n : Z) (host : mem) : res (bool * mem) :=
  HttpExtractHeader data n (x0a :: bytes_of "Host:") host.

Definition HttpReplyLooksLikeDPIRedirect (data : mem) (n : Z) (host : mem) : res bool :=
  h0 ← rd host 0;
  if zb h0 =? 0 then Ok false else
  code ← HttpReplyCode data;
  if negb (code =? 302) && negb (code =? 307) then Ok false else
  '(ok, loc) ← HttpExtractHeader data n (x0a :: bytes_of "Location:") (repeat x00 256);
  if negb ok then Ok false else
  d ← strncmp loc 0 (bytes_of "http://") 7;
  red ← (if d =? 0 then Ok (Some 7) else
    d ← strncmp loc 0 (bytes_of "https://") 8;
    Ok (if d =? 0 then Some 8 else None));
  match red with
  | None => Ok false
  | Some red =>
      p ← loop (Datatypes.S (length loc)) (λ p,
        c ← rd loc p; Ok (if (zb c =? 0) || (zb c =? ch "/") then inr p else inl (p + 1))) red;
      loc ← wr loc p 0;
      r0 ← rd loc red;
      if zb r0 =? 0 then Ok false else
      hl ← strlen host 0;
      dh ← FindNLD host 0 hl 2;
      match dh with
      | None => Ok false
      | Some (dhost, _) =>
          rl ← strlen loc red;
          dr ← FindNLD loc red rl 2;
          match dr with
          | None => Ok false
          | Some (drhost, _) => c ← strcasecmp host dhost loc drhost; Ok (negb (c =? 0))
          end
      end
  end.

(** [for (p = method, i = 0; i < 7; i++) if ( *p is a capital) p++] *)
Fixpoint skip_capitals (k : nat) (data : mem) (p : Z) : res Z :=
  match k with
  | O => Ok p
  | Datatypes.S k => c ← rd data p; skip_capitals k data (if isupper (zb c) then p + 1 else p)
  end.

Definition HttpPos (posmarker : marker) (pos : Z) (data : mem) (sz : Z) : res Z :=
  match posmarker with
  | PM_HTTP_METHOD =>
      if sz <? 10 then Ok 0 else
      c ← rd data 0;
      let method := if eol (zb c) then 1 else 0 in
      c ← rd data method;
      let method := if eol (zb c) then method + 1 else method in
      p ← skip_capitals 7 data method;
      c ← rd data p;
      if negb (zb c =? 32) then Ok 0 else Ok (CheckPos sz (method + pos))
  | PM_HOST | PM_HOST_END | PM_HOST_SLD | PM_HOST_MIDSLD | PM_HOST_ENDSLD =>
      host ← HttpFindHost None data sz;
      match host with
      | Some host =>
          if host + 7 <? sz then
            c ← rd data (host + 5);
            let offset_host := if blank (zb c) then host + 5 + 1 else host + 5 in
            len_host ← (if decide (posmarker ≠ PM_HOST) then
                e ← skip_while data offset_host sz (λ c, negb (eol c)); Ok (e - offset_host)
              else Ok 0);
            HostPos posmarker pos data sz offset_host len_host
          else Ok 0
      | None => Ok 0
      end
  | _ => Ok (AnyProtoPos posmarker pos sz)
  end.

(** *** TLS *)

Definition TLSRecordDataLen (m : mem) : res Z := pntoh16 m 3.
Definition TLSRecordLen (m : mem) : res Z := l ← TLSRecordDataLen m; Ok (l + 5).
Definition IsTLSRecordFull (m : mem) (n : Z) : res bool := l ← TLSRecordLen m; Ok (l <=? n).

Definition IsTLSClientHello (m : mem) (n : Z) (bPartialIsOK : bool) : res bool :=
  if n <? 6 then Ok false else
  a ← rd m 0; if negb (zb a =? 0x16) then Ok false else
  b ← rd m 1; if negb (zb b =? 0x03) then Ok false else
  c ← rd m 2; if negb (zb c <=? 0x03) then Ok false else
  d ← rd m 5; if negb (zb d =? 0x01) then Ok false else
  if bPartialIsOK then Ok true else l ← TLSRecordLen m; Ok (l <=? n).

(** one extension: [data], what is left of the block *)
Definition ext_step (m : mem) (type : Z) (st : Z * Z) : res (Z * Z + option (Z * Z)) :=
  let '(data, l) := st in
  if 4 <=? l then
    etype ← pntoh16 m data;
    elen ← pntoh16 m (data + 2);
    let data := data + 4 in let l := l - 4 in
    if l <? elen then Ok (inr None)
    else if etype =? type then Ok (inr (Some (data, elen)))
    else Ok (inl (data + elen, l - elen))
  else Ok (inr None).

(** the extension's offset and length, in the handshake of [n] bytes at [data] *)
Definition TLSFindExtInHandshake (m : mem) (data n type : Z) (bPartialIsOK : bool)
  : res (option (Z * Z)) :=
  let l := 1 + 3 + 2 + 32 in
  if n <? l + 1 then Ok None else
  whole ← (if bPartialIsOK then Ok true else
    a ← rd m (data + 1); b ← rd m (data + 2); c ← rd m (data + 3);
    let ll := Z.lor (Z.lor (Z.shiftl (zb a) 16) (Z.shiftl (zb b) 8)) (zb c) in
    Ok (ll + 4 <=? n));
  if negb whole then Ok None else
  s ← rd m (data + l);
  let l := l + (zb s + 1) in
  if n <? l + 2 then Ok None else
  c ← pntoh16 m (data + l);
  let l := l + (c + 2) in
  if n <? l + 1 then Ok None else
  k ← rd m (data + l);
  let l := l + (zb k + 1) in
  if n <? l + 2 then Ok None else
  let data := data + l in let n := n - l in
  l ← pntoh16 m data;
  let data := data + 2 in let n := n - 2 in
  if negb bPartialIsOK && (n <? l) then Ok None else
  let l := if bPartialIsOK && (n <? l) then n else l in
  loop (Datatypes.S (Z.to_nat l)) (ext_step m type) (data, l).

Definition TLSFindExt (m : mem) (n type : Z) (bPartialIsOK : bool) : res (option (Z * Z)) :=
  b ← IsTLSClientHello m n bPartialIsOK;
  if negb b then Ok None else
  reclen ← TLSRecordLen m;
  let n := if reclen <? n then reclen else n in
  TLSFindExtInHandshake m 5 (n - 5) type bPartialIsOK.

(** the name's offset, what is left of the extension, the name's length *)
Definition TLSAdvanceToHostInSNI (m : mem) (ext elen : Z) : res (option (Z * Z * Z)) :=
  if elen <? 5 then Ok None else
  t ← rd m (ext + 2);
  if negb (zb t =? 0) then Ok None else
  slen ← pntoh16 m (ext + 3);
  Ok (if slen <=? elen - 5 then Some (ext + 5, elen - 5, slen) else None).

Definition TLSExtractHostFromExt (m : mem) (ext elen : Z) (host : mem) : res (bool * mem) :=
  r ← TLSAdvanceToHostInSNI m ext elen;
  match r with
  | None => Ok (false, host)
  | Some (ext, _, slen) =>
      if len host =? 0 then Ok (true, host) else
      let slen := if len host <=? slen then len host - 1 else slen in
      host ← copy_lower host m ext slen;
      Ok (true, host)
  end.

Definition TLSHelloExtractHost (m : mem) (n : Z) (host : mem) (bPartialIsOK : bool) : res (bool * mem) :=
  r ← TLSFindExt m n 0 bPartialIsOK;
  match r with
  | None => Ok (false, host)
  | Some (ext, elen) => TLSExtractHostFromExt m ext elen host
  end.
Definition TLSHelloExtractHostFromHandshake (m : mem) (data n : Z) (host : mem) (bPartialIsOK : bool)
  : res (bool * mem) :=
  r ← TLSFindExtInHandshake m data n 0 bPartialIsOK;
  match r with
  | None => Ok (false, host)
  | Some (ext, elen) => TLSExtractHostFromExt m ext elen host
  end.

Definition TLSPos (posmarker : marker) (pos : Z) (data : mem) (sz : Z) : res Z :=
  if IsHostMarker posmarker || bool_decide (posmarker = PM_SNI_EXT) then
    r ← TLSFindExt data sz 0 false;
    match r with
    | None => Ok 0
    | Some (ext, elen) =>
        if decide (posmarker = PM_SNI_EXT) then Ok (CheckPos sz (ext + pos)) else
        h ← TLSAdvanceToHostInSNI data ext elen;
        match h with
        | None => Ok 0
        | Some (ext, _, len_host) => HostPos posmarker pos data sz ext len_host
        end
    end
  else Ok (AnyProtoPos posmarker pos sz).

(** *** Positions of a request *)

Definition ResolvePos (data : mem) (sz : Z) (proto : l7proto) (sp : proto_pos) : res Z :=
  match proto with
  | HTTP => HttpPos (pp_marker sp) (pp_pos sp) data sz
  | TLS => TLSPos (pp_marker sp) (pp_pos sp) data sz
  | _ => Ok (AnyProtoPos (pp_marker sp) (pp_pos sp) sz)
  end.

(** the positions found, in the order of [splits]; a zero is overwritten by
    the next one *)
Fixpoint resolve_all (data : mem) (sz : Z) (proto : l7proto) (splits : list proto_pos) : res (list Z) :=
  match splits with
  | [] => Ok []
  | sp :: splits =>
      p ← ResolvePos data sz proto sp;
      ps ← resolve_all data sz proto splits;
      Ok (if p =? 0 then ps else p :: ps)
  end.

(** [pos], its first [*pos_count] cells *)
Definition ResolveMultiPos (data : mem) (sz : Z) (proto : l7proto) (splits : list proto_pos)
  : res (list Z) :=
  ps ← resolve_all data sz proto splits;
  let pos := qsort_size_t ps in
  '(pos, j) ← unique_size_t pos (Z.of_nat (length pos));
  Ok (take (Z.to_nat j) pos).
