(* ===== verification/TpProtocolSpec.v ===== *)
(** * tpws: positions in a request

    The parsers of [TpProtocol] stay inside the request whatever it holds
    ([resolve_multi_pos]: and the positions found are sorted, distinct and
    inside it), and both recognisers of the program, tpws's and byedpi's,
    find the same name in a ClientHello ([tls_extract_host]). *)

From Stdlib Require Import ZArith Lia Bool List Sorted.
From Stdlib Require Import Strings.Byte Strings.String.
From stdpp Require Import base tactics list numbers option sets sorting.
From S2P Require Import Prelude CMem Packets PacketsTls TpProtocol.

(** ** Reading *)

Lemma pntoh16_be a b : Z.lor (Z.shiftl (zb a) 8) (zb b) = be16 a b.
Proof.
  pose proof (zb_range b). apply (lor_shift_add _ _ 8); simpl; lia.
Qed.

Lemma wp_pntoh16 m i (Q : Z → Prop) :
  0 <= i → i + 1 < len m →
  (∀ a b, rd m i = Ok a → rd m (i + 1) = Ok b → Q (be16 a b)) → wp (pntoh16 m i) Q.
Proof.
  intros Hi Hl HQ. unfold pntoh16. apply wp_bind, wp_rd; [lia|]. intros a Ha.
  apply wp_bind, wp_rd; [lia|]. intros b Hb. simpl. rewrite pntoh16_be. auto.
Qed.

Lemma wp_skip_while m p e test :
  0 <= p → e <= len m → wp (skip_while m p e test) (λ r, p <= r ∧ (r <= e ∨ r = p)).
Proof.
  intros Hp He. unfold skip_while.
  apply (wp_loop (λ q, p <= q ∧ (q <= e ∨ q = p)) (λ q, Z.max 0 (e - q))); [lia| |by split; [|right]|unfold len in *; lia].
  intros q Hq. wp_step; [|done]. wp_step. apply wp_rd; [lia|]. intros c _. destruct (test (zb c)); simpl; lia.
Qed.

Lemma wp_back_to_dot m dom p :
  0 <= dom → p < len m → wp (back_to_dot m dom p) (λ r, r = p ∧ p <= dom ∨ dom <= r <= p).
Proof.
  intros Hd Hp. unfold back_to_dot.
  apply (wp_loop (λ q, q = p ∧ p <= dom ∨ dom <= q <= p) (λ q, Z.max 0 (q - dom)));
    [lia| |lia|unfold len in *; lia].
  intros q Hq. wp_step; [|simpl; lia]. wp_step. apply wp_rd; [lia|]. intros c _. destruct (_ =? _); simpl; lia.
Qed.

(** the domain of level two, or more, lies inside the name *)
Lemma wp_FindNLD m dom dlen level :
  0 <= dom → 0 <= dlen → dom + dlen <= len m → len m < 2 ^ 63 → 2 <= level →
  wp (FindNLD m dom dlen level) (λ r, match r with
    | Some (p, slen) => dom <= p ∧ 0 <= slen ∧ p + slen < dom + dlen
    | None => True end).
Proof.
  intros Hd Hn Hm Hl Hlev. unfold FindNLD. apply wp_bind.
  eapply wp_mono.
  - apply (wp_loop (λ '(i, p2), 1 <= i <= level ∧ (i = 1 ∧ p2 = dom + dlen ∨ dom < p2 < dom + dlen))
      (λ '(i, _), level - i)
      _ (λ r, match r with Some p2 => dom < p2 < dom + dlen | None => True end)); [intros []; lia| |lia|simpl; lia].
    intros [i p2] [Hi Hp2]. wp_step; [|simpl; lia].
    wp_use wp_back_to_dot; [lia|lia|]. intros q Hq. destruct (Z.leb_spec q dom); simpl; [done|lia].
  - intros [p2|]; [|done]. intros Hp2. wp_use wp_back_to_dot; [lia|lia|]. intros p1 Hp1.
    wp_step. apply wp_rd; [lia|]. intros c _. simpl. destruct (zb c =? _); ints; lia.
Qed.

(** a position, or none *)
Definition pos_ok (sz r : Z) : Prop := 0 <= r ∧ (r = 0 ∨ r < sz).

Lemma pos_ok_0 sz : pos_ok sz 0.
Proof. split; [lia|by left]. Qed.
Lemma CheckPos_ok sz offset : pos_ok sz (CheckPos sz offset).
Proof. unfold CheckPos, pos_ok. case_match; lia. Qed.
Lemma AnyProtoPos_ok posmarker pos sz : pos_ok sz (AnyProtoPos posmarker pos sz).
Proof. destruct posmarker; simpl; try apply pos_ok_0. apply CheckPos_ok. Qed.
#[local] Hint Resolve pos_ok_0 CheckPos_ok AnyProtoPos_ok : core.

Lemma wp_HostPos posmarker pos data sz o n :
  IsHostMarker posmarker = true → sz <= len data → len data < 2 ^ 63 →
  0 <= o → 0 <= n → o + n < 2 ^ 64 →
  wp (HostPos posmarker pos data sz o n) (pos_ok sz).
Proof.
  intros Hk Hs Hl Ho Hn Hon. unfold HostPos. apply wp_bind, (wp_mono _ (λ _, True)).
  - assert (Hnld : wp (if u64 (o + n) <=? sz then FindNLD data o n 2 else Ok None) (λ _, True)).
    { ints. wp_step; [|done]. eapply wp_mono; [apply wp_FindNLD; lia|done]. }
    destruct posmarker; try done; (apply wp_bind; eapply wp_mono; [exact Hnld|]; intros [[p slen]|] _; done).
  - intros offset _. simpl. auto.
Qed.

(** ** HTTP *)

Lemma wp_bytes_in m p sets (Q : bool → Prop) :
  0 <= p → p + Z.of_nat (length sets) <= len m → (∀ b, Q b) → wp (bytes_in m p sets) Q.
Proof.
  intros Hp Hl HQ. revert p Hp Hl. induction sets as [|s sets IH]; intros p Hp Hl; simpl in *; [by apply wp_ok|].
  wp_step. apply wp_rd; [lia|]. intros c _. wp_step; [apply IH; lia|by apply wp_ok].
Qed.

Lemma wp_FindHostIn buf bs :
  bs <= len buf → wp (FindHostIn buf bs) (λ r, ∀ p, r = Some p → 0 <= p ∧ p + 6 <= bs).
Proof.
  intros Hl. unfold FindHostIn. wp_step; [done|].
  apply (wp_loop (λ p, 0 <= p) (λ p, Z.max 0 (bs - 5 - p))); [lia| |lia|lia].
  intros p Hp. wp_step; [|done]. wp_step. unfold IsHostAt. apply wp_bytes_in; [lia|simpl; lia|].
  intros []; simpl; [|lia]. intros q [= <-]. lia.
Qed.

Lemma wp_skip_capitals k data p (Q : Z → Prop) :
  0 <= p → p + Z.of_nat k <= len data → (∀ q, p <= q <= p + Z.of_nat k → Q q) → wp (skip_capitals k data p) Q.
Proof.
  revert p. induction k as [|k IH]; intros p Hp Hl HQ; simpl; [apply HQ; lia|].
  apply wp_bind, wp_rd; [lia|]. intros c _. apply IH; [case_match; lia..|].
  intros q Hq. apply HQ. case_match; lia.
Qed.

#[local] Arguments skip_capitals : simpl never.
Lemma wp_HttpPos posmarker pos data sz :
  0 <= sz → sz <= len data → len data < 2 ^ 63 → wp (HttpPos posmarker pos data sz) (pos_ok sz).
Proof.
  intros H0 Hs Hl.
  assert (Hhost : IsHostMarker posmarker = true → wp (HttpPos posmarker pos data sz) (pos_ok sz)).
  { intros Hk. assert (E : HttpPos posmarker pos data sz = (host ← HttpFindHost None data sz;
      match host with
      | Some host =>
          if host + 7 <? sz then
            c ← rd data (host + 5);
            let offset_host := if blank (zb c) then host + 5 + 1 else host + 5 in
            len_host ← (if decide (posmarker ≠ PM_HOST) then
                e ← skip_while data offset_host sz (λ c, negb (eol c)); Ok (e - offset_host)
              else Ok 0);
            HostPos posmarker pos data sz offset_host len_host
          else Ok 0
      | None => Ok 0
      end)) by by destruct posmarker.
    rewrite E. unfold HttpFindHost. wp_step. wp_use wp_FindHostIn; [done|]. intros r Hr.
    destruct r as [p|]; [|simpl; auto]. destruct (Hr p eq_refl) as [Hp1 Hp2]. cbn [option_map].
    wp_step.
    wp_step; [|simpl; auto]. wp_step. apply wp_rd; [lia|]. intros c _.
    set (o := if blank (zb c) then _ else _). assert (Ho : 1 + p + 5 <= o <= 1 + p + 6) by (unfold o; destruct (blank _); lia).
    wp_step. apply (wp_mono _ (λ n, 0 <= n ∧ o + n <= sz)).
    - case_decide; simpl; [|lia]. wp_use wp_skip_while; [lia|lia|]. intros e He. simpl. lia.
    - intros n [Hn1 Hn2]. apply wp_HostPos; try done; lia. }
  destruct posmarker; try (by apply Hhost); simpl; auto.
  wp_step; [simpl; auto|]. wp_step. apply wp_rd; [lia|]. intros c _. cbv zeta.
  set (mm := if eol (zb c) then 1 else 0). assert (Hmm : 0 <= mm <= 1) by (unfold mm; case_match; lia).
  wp_step. apply wp_rd; [lia|]. intros c' _. cbv zeta.
  set (mm' := if eol (zb c') then mm + 1 else mm).
  assert (Hmm' : 0 <= mm' <= 2) by (unfold mm'; case_match; lia). clearbody mm mm'.
  wp_step. apply wp_skip_capitals; [lia|simpl; lia|]. intros q Hq.
  wp_step. apply wp_rd; [simpl in Hq; lia|]. intros x _. wp_step; simpl; auto.
Qed.

(** ** TLS *)

Lemma wp_IsTLSClientHello m n partial :
  n <= len m → wp (IsTLSClientHello m n partial) (λ b, b = true → 6 <= n ∧
    ∀ l, TLSRecordLen m = Ok l → partial = true ∨ l <= n).
Proof.
  intros Hl. unfold IsTLSClientHello. wp_step; [done|].
  do 4 (wp_step; apply wp_rd; [lia|]; intros ? _; wp_step; [done|]).
  wp_step; [simpl; split; [lia|by left]|].
  wp_step. unfold TLSRecordLen, TLSRecordDataLen at 1. apply wp_bind, wp_pntoh16; [lia..|].
  intros x y Ha Hb. simpl. intros Hle. split; [lia|]. intros l. unfold TLSRecordDataLen, pntoh16.
  rewrite Ha, Hb. simpl. rewrite pntoh16_be. intros [= <-]. right. lia.
Qed.

Lemma wp_TLSRecordLen m : 6 <= len m → wp (TLSRecordLen m) (λ l, 5 <= l < 2 ^ 17 ∧ TLSRecordLen m = Ok l).
Proof.
  intros Hl. unfold TLSRecordLen, TLSRecordDataLen.
  apply wp_bind, wp_pntoh16; [lia..|]. intros a b Ha Hb. simpl. pose proof (be16_range a b). split; [lia|].
  unfold pntoh16. by rewrite Ha, Hb, bind_Ok, bind_Ok, pntoh16_be.
Qed.

(** an extension that is found lies inside the handshake *)
Definition ext_in (data n : Z) (r : option (Z * Z)) : Prop :=
  ∀ ext elen, r = Some (ext, elen) → data + 47 <= ext ∧ 0 <= elen ∧ ext + elen <= data + n.

Lemma wp_TLSFindExtInHandshake m data n type partial :
  0 <= data → data + n <= len m → wp (TLSFindExtInHandshake m data n type partial) (ext_in data n).
Proof.
  intros Hd Hn. unfold TLSFindExtInHandshake. wp_step; [done|]. wp_step.
  apply (wp_mono _ (λ _, True)).
  { wp_step; [done|]. do 3 (wp_step; apply wp_rd; [lia|]; intros ? _). done. }
  intros whole _. wp_step; [done|]. wp_step. apply wp_rd; [lia|]. intros s _. pose proof (zb_range s).
  wp_step; [done|]. wp_step. apply wp_pntoh16; [lia..|]. intros c1 c2 _ _. pose proof (be16_range c1 c2).
  wp_step; [done|]. wp_step. apply wp_rd; [lia|]. intros k _. pose proof (zb_range k).
  wp_step; [done|]. wp_step. apply wp_pntoh16; [lia..|]. intros l1 l2 _ _. pose proof (be16_range l1 l2).
  wp_step; [done|]. cbv beta zeta.
  set (p := data + _ + 2). set (e := data + n). set (l := if (_ && _) then _ else _).
  assert (Hl : 0 <= l ∧ p + l <= e) by (unfold l, p, e; destruct partial; cbn [negb andb] in *; try case_match; lia).
  assert (Hp : data + 43 <= p) by (unfold p; lia). unfold ext_in. fold e. clearbody p l.
  apply (wp_loop (λ '(q, l), data + 43 <= q ∧ 0 <= l ∧ q + l <= e) (λ '(_, l), l)); [by intros []; lia| |lia|lia].
  intros [q r] Hq. unfold ext_step. wp_step; [|done].
  wp_step. apply wp_pntoh16; [lia..|]. intros t1 t2 _ _.
  wp_step. apply wp_pntoh16; [lia..|]. intros e1 e2 _ _. pose proof (be16_range e1 e2).
  wp_step; [done|]. wp_step; simpl; [|lia]. intros ? ? [= <- <-]. lia.
Qed.

Lemma wp_TLSFindExt m n type partial :
  n <= len m → wp (TLSFindExt m n type partial) (ext_in 5 (n - 5)).
Proof.
  intros Hn. unfold TLSFindExt. wp_use wp_IsTLSClientHello; [done|]. intros b Hb. wp_step; [done|].
  destruct Hb as [H6 Hrec]; [by destruct b|]. wp_use wp_TLSRecordLen; [lia|]. intros l [Hl _].
  eapply wp_mono; [apply wp_TLSFindExtInHandshake; [lia|case_match; lia]|].
  intros r Hr ext elen Ee. destruct (Hr ext elen Ee) as (? & ? & ?). destruct (Z.ltb_spec l n); lia.
Qed.

Lemma wp_TLSAdvanceToHostInSNI m ext elen :
  0 <= ext → ext + elen <= len m →
  wp (TLSAdvanceToHostInSNI m ext elen) (λ r, ∀ o e n, r = Some (o, e, n) →
    o = ext + 5 ∧ 0 <= n ∧ o + n <= ext + elen).
Proof.
  intros He Hl. unfold TLSAdvanceToHostInSNI. wp_step; [done|].
  wp_step. apply wp_rd; [lia|]. intros t _. wp_step; [done|].
  wp_step. apply wp_pntoh16; [lia..|]. intros a b _ _. pose proof (be16_range a b). simpl.
  destruct (Z.leb_spec (be16 a b) (elen - 5)); [|done]. intros ? ? ? [= <- <- <-]. lia.
Qed.

Lemma wp_TLSPos posmarker pos data sz :
  sz <= len data → len data < 2 ^ 63 → wp (TLSPos posmarker pos data sz) (pos_ok sz).
Proof.
  intros Hs Hl. unfold TLSPos. wp_step; [|simpl; auto].
  wp_use wp_TLSFindExt; [done|]. intros [[ext elen]|] Hr; [|simpl; auto].
  destruct (Hr ext elen eq_refl) as (? & ? & ?). case_decide as Hm; [simpl; auto|].
  wp_use wp_TLSAdvanceToHostInSNI; [lia|lia|]. intros [[[o e] k]|] Hn; [|simpl; auto].
  destruct (Hn o e k eq_refl) as (-> & ? & ?).
  apply wp_HostPos; try lia. rewrite bool_decide_eq_false_2, orb_false_r in E by done. done.
Qed.

Lemma wp_ResolvePos data sz proto sp :
  0 <= sz → sz <= len data → len data < 2 ^ 63 → wp (ResolvePos data sz proto sp) (pos_ok sz).
Proof.
  intros. destruct proto; simpl; auto; [by apply wp_HttpPos|by apply wp_TLSPos].
Qed.

(** ** Several positions *)

Section unique.
Implicit Types (l done garb rest : list Z).

Lemma lookup_mid done garb u rest j :
  j = Z.of_nat (length (done ++ garb)) → (done ++ garb ++ u :: rest) !! Z.to_nat j = Some u.
Proof.
  intros ->. rewrite Nat2Z.id, app_assoc, lookup_app_r by lia. by rewrite Nat.sub_diag.
Qed.

(** skipping the copies of [u] in front of [rest] *)
Lemma wp_skip_equal pre u rest (ct j : Z) (Q : Z → Prop) :
  ct = Z.of_nat (length (pre ++ rest)) → j = Z.of_nat (length pre) →
  (∀ us rest', rest = us ++ rest' → (∀ x, x ∈ us → x = u) → (∀ x, head rest' = Some x → x ≠ u) →
    Q (j + Z.of_nat (length us))) →
  wp (loop (Datatypes.S (Z.to_nat ct)) (λ j,
    if j <? ct then
      match (pre ++ rest) !! Z.to_nat j with
      | None => UB
      | Some v => Ok (if v =? u then inl (j + 1) else inr j)
      end
    else Ok (inr j)) j) Q.
Proof.
  intros Hct Hj HQ.
  apply (wp_loop (λ k, ∃ us rest', rest = us ++ rest' ∧ (∀ x, x ∈ us → x = u) ∧ k = j + Z.of_nat (length us))
    (λ k, Z.max 0 (ct - k))); [lia| | |lia].
  - intros k (us & rest' & -> & Hus & ->). rewrite !length_app in Hct.
    assert (Hl : (pre ++ us ++ rest') !! Z.to_nat (j + Z.of_nat (length us)) = head rest').
    { rewrite app_assoc, lookup_app_r by (rewrite length_app; lia).
      replace (_ - _)%nat with 0%nat by (rewrite length_app; lia). by destruct rest'. }
    rewrite Hl. destruct rest' as [|v rest']; simpl in *.
    { rewrite (proj2 (Z.ltb_ge _ _)) by lia. simpl. apply (HQ us []); done. }
    rewrite (proj2 (Z.ltb_lt _ _)) by lia. simpl. destruct (Z.eqb_spec v u) as [->|Hne].
    + split; [|lia]. exists (us ++ [u]), rest'. rewrite <- app_assoc, length_app. split_and!; [done| |simpl; lia].
      intros x [Hx|Hx]%elem_of_app; [by apply Hus|]. by apply list_elem_of_singleton in Hx.
    + apply (HQ us (v :: rest')); [done|done|]. by intros x [= <-].
  - exists [], rest. split_and!; [done| |simpl; lia]. intros x Hx. by apply elem_of_nil in Hx.
Qed.

(** [unique_size_t] of a sorted array: the numbers in it, each once *)
Lemma wp_unique_size_t l :
  StronglySorted Z.le l →
  wp (unique_size_t l (Z.of_nat (length l))) (λ '(pu, k),
    StronglySorted Z.lt (take (Z.to_nat k) pu) ∧ ∀ x, x ∈ take (Z.to_nat k) pu ↔ x ∈ l).
Proof.
  intros Hsort. unfold unique_size_t. set (ct := Z.of_nat (length l)).
  apply (wp_loop (λ '(pu, i, j), ∃ done garb rest, pu = done ++ garb ++ rest ∧ length pu = length l
      ∧ i = Z.of_nat (length done) ∧ j = Z.of_nat (length (done ++ garb))
      ∧ StronglySorted Z.lt done ∧ StronglySorted Z.le rest
      ∧ (∀ x y, x ∈ done → y ∈ rest → x < y) ∧ (∀ x, x ∈ l ↔ x ∈ done ∨ x ∈ rest))
    (λ '(_, _, j), Z.max 0 (ct - j))); [intros [[]]; lia| | |subst ct; lia].
  - intros [[pu i] j] (done & garb & rest & -> & Hlen & -> & -> & Sd & Sr & Hlt & Hel).
    rewrite !length_app in Hlen. unfold unique_step. cbv beta iota.
    destruct rest as [|u rest].
    { rewrite (proj2 (Z.ltb_ge _ _)) by (subst ct; rewrite length_app; simpl in Hlen; lia). simpl.
      rewrite Nat2Z.id, take_app_length. split; [done|]. intros x. rewrite Hel. set_solver. }
    simpl in Hlen. rewrite (proj2 (Z.ltb_lt _ _)) by (subst ct; rewrite length_app; lia).
    rewrite (lookup_mid done garb u rest) by done. apply wp_bind.
    replace (done ++ garb ++ u :: rest) with ((done ++ garb ++ [u]) ++ rest) by by rewrite <- !app_assoc.
    apply (wp_skip_equal (done ++ garb ++ [u]) u rest).
    { subst ct. rewrite !length_app. simpl. lia. }
    { rewrite !length_app. simpl. lia. }
    intros us rest' -> Hus Hhd. simpl. split; [|subst ct; rewrite !length_app; lia].
    assert (Hg : ∃ z g, garb ++ [u] = z :: g) by (destruct garb; simpl; eauto).
    destruct Hg as (z & g & Eg).
    exists (done ++ [u]), (g ++ us), rest'.
    apply StronglySorted_inv in Sr as [Sr Hu]. rewrite Forall_app in Hu. destruct Hu as [_ Hu].
    assert (Hrest : StronglySorted Z.le rest') by by eapply StronglySorted_app_1_r.
    assert (Hlt' : ∀ y, y ∈ rest' → u < y).
    { destruct rest' as [|v rest']; [set_solver|]. intros y Hy. specialize (Hhd v eq_refl).
      apply Forall_cons in Hu as [Huv Hu]. apply StronglySorted_inv in Hrest as [_ Hv].
      apply elem_of_cons in Hy as [->|Hy]; [lia|]. rewrite Forall_forall in Hv. specialize (Hv y Hy). lia. }
    assert (Hmid : <[Z.to_nat (Z.of_nat (length done)):=u]> ((done ++ garb ++ [u]) ++ us ++ rest')
      = (done ++ [u]) ++ (g ++ us) ++ rest').
    { rewrite Nat2Z.id, Eg, <- !app_assoc. replace (length done) with (length done + 0)%nat by lia.
      rewrite insert_app_r. done. }
    split_and!.
    + exact Hmid.
    + rewrite length_insert, !length_app. rewrite length_app in Hlen. simpl. lia.
    + rewrite length_app. simpl. lia.
    + apply (f_equal length) in Eg. rewrite !length_app in *. simpl in *. lia.
    + apply StronglySorted_app_2; [|done|by repeat constructor].
      intros x y Hx Hy. apply list_elem_of_singleton in Hy as ->. apply Hlt; [done|by left].
    + done.
    + intros x y [Hx|Hx]%elem_of_app Hy; [|apply list_elem_of_singleton in Hx as ->; by apply Hlt'].
      apply Hlt; [done|]. right. apply elem_of_app. by right.
    + intros x. rewrite Hel. rewrite !elem_of_app, elem_of_cons, list_elem_of_singleton, elem_of_app.
      specialize (Hus x). naive_solver.
  - exists [], [], l. split_and!; try done; [constructor|set_solver|set_solver].
Qed.
End unique.

Lemma wp_resolve_all data sz proto splits :
  0 <= sz → sz <= len data → len data < 2 ^ 63 →
  wp (resolve_all data sz proto splits) (λ ps, ∀ p, p ∈ ps ↔
    0 < p < sz ∧ ∃ sp, sp ∈ splits ∧ ResolvePos data sz proto sp = Ok p).
Proof.
  intros H0 Hs Hl. induction splits as [|sp splits IH]; simpl; [set_solver|].
  wp_step. pose proof (wp_ResolvePos data sz proto sp H0 Hs Hl) as Hp.
  destruct (ResolvePos data sz proto sp) as [p| |] eqn:E; [|done..]. simpl in *. destruct Hp as [Hp0 Hp].
  wp_step. eapply wp_mono; [exact IH|]. intros ps Hps. cbv beta in Hps. simpl. intros q.
  destruct (Z.eqb_spec p 0) as [->|Hne].
  - rewrite Hps. split; [set_solver|]. intros (Hq & x & [->|Hx]%elem_of_cons & Ex); [|by eauto].
    rewrite E in Ex. injection Ex as <-. lia.
  - rewrite elem_of_cons, Hps. split.
    + intros [->|(Hq & x & Hx & Ex)]; [split; [lia|]; exists sp; split; [by left|done]|].
      split; [done|]. exists x. split; [by right|done].
    + intros (Hq & x & [->|Hx]%elem_of_cons & Ex); [left; congruence|by eauto].
Qed.

Lemma wp_ResolveMultiPos data sz proto splits :
  0 <= sz → sz <= len data → len data < 2 ^ 63 →
  wp (ResolveMultiPos data sz proto splits) (λ ps,
    StronglySorted Z.lt ps
    ∧ ∀ p, p ∈ ps ↔ 0 < p < sz ∧ ∃ sp, sp ∈ splits ∧ ResolvePos data sz proto sp = Ok p).
Proof.
  intros H0 Hs Hl. unfold ResolveMultiPos. wp_use wp_resolve_all; [done..|].
  intros ps Hps. cbv zeta. unfold qsort_size_t.
  wp_use wp_unique_size_t; [apply StronglySorted_merge_sort; apply _|].
  intros [pu k] [Hsort Hel]. simpl. split; [done|]. intros p.
  by rewrite Hel, merge_sort_Permutation.
Qed.

(** C14: [ResolveMultiPos] of any request, of any protocol, for any list of
    markers: it stays inside the request and returns; the positions it
    leaves are strictly increasing, each is inside the request and not its
    start, and they are exactly the positions the markers resolve to, the
    ones that resolve to none left out. *)
Theorem resolve_multi_pos data sz proto splits :
  0 <= sz → sz <= len data → len data < 2 ^ 63 →
  wp (ResolveMultiPos data sz proto splits) (λ ps,
    StronglySorted Z.lt ps
    ∧ ∀ p, p ∈ ps ↔ 0 < p < sz ∧ ∃ sp, sp ∈ splits ∧ ResolvePos data sz proto sp = Ok p).
Proof. apply wp_ResolveMultiPos. Qed.

(** ** The name in a ClientHello *)

Lemma pntoh16_enc (m p q : mem) z i :
  m = p ++ enc16 z ++ q → i = len p → 0 <= z < 2 ^ 16 → pntoh16 m i = Ok z.
Proof.
  intros -> -> Hz. unfold pntoh16. change (enc16 z) with [bz (Z.shiftr z 8); bz z].
  rewrite (rd_head _ p ([bz z] ++ q) (bz (Z.shiftr z 8)) (len p)) by done.
  rewrite bind_Ok. rewrite (rd_head _ (p ++ [bz (Z.shiftr z 8)]) q (bz z) (len p + 1)).
  - by rewrite bind_Ok, pntoh16_be, enc16_be16.
  - by rewrite <- app_assoc.
  - by rewrite len_app.
Qed.

(** the walk over the extensions in front of the one looked for *)
Lemma ext_scan (t : Z) (e : tls_ext) (q : mem) pre : ∀ p l fuel,
  ext_type e = t → ext_wf e → Forall ext_wf pre → Forall (λ x, ext_type x ≠ t) pre →
  len (enc_exts pre) + 4 + len (ext_data e) <= l → (length pre < fuel)%nat →
  loop fuel (ext_step (p ++ enc_exts pre ++ enc_ext e ++ q) t) (len p, l)
  = Ok (Some (len p + len (enc_exts pre) + 4, len (ext_data e))).
Proof.
  induction pre as [|x pre IH]; intros p l fuel Ht [Hte Hde] Hwf Hne Hl Hf;
    (destruct fuel as [|fuel]; [simpl in Hf; lia|]); rewrite loop_S; unfold ext_step at 1.
  - change (len (enc_exts [])) with 0 in *. pose proof (len_nonneg (ext_data e)).
    rewrite (proj2 (Z.leb_le _ _)) by lia. cbn [enc_exts map concat app]. unfold enc_ext. rewrite <- !app_assoc.
    rewrite (pntoh16_enc _ p (enc16 (len (ext_data e)) ++ ext_data e ++ q) (ext_type e) (len p)) by done.
    rewrite bind_Ok.
    rewrite (pntoh16_enc _ (p ++ enc16 (ext_type e)) (ext_data e ++ q) (len (ext_data e)) (len p + 2));
      [|by rewrite <- !app_assoc|by rewrite len_app, len_enc16|lia].
    rewrite bind_Ok. cbv zeta. rewrite (proj2 (Z.ltb_ge _ _)), (proj2 (Z.eqb_eq _ _)) by lia.
    rewrite bind_Ok. do 3 f_equal. lia.
  - apply Forall_cons in Hwf as [[Htx Hdx] Hwf]. apply Forall_cons in Hne as [Hnx Hne].
    rewrite len_enc_exts_cons in *. pose proof (len_nonneg (ext_data e)). pose proof (len_nonneg (ext_data x)).
    pose proof (len_nonneg (enc_exts pre)).
    rewrite (proj2 (Z.leb_le _ _)) by lia.
    assert (E : p ++ enc_exts (x :: pre) ++ enc_ext e ++ q
      = (p ++ enc_ext x) ++ enc_exts pre ++ enc_ext e ++ q) by by rewrite enc_exts_cons, <- !app_assoc.
    rewrite E.
    rewrite (pntoh16_enc _ p (enc16 (len (ext_data x)) ++ ext_data x ++ enc_exts pre ++ enc_ext e ++ q)
      (ext_type x) (len p)); [|by unfold enc_ext; rewrite <- !app_assoc|done..].
    rewrite bind_Ok.
    rewrite (pntoh16_enc _ (p ++ enc16 (ext_type x)) (ext_data x ++ enc_exts pre ++ enc_ext e ++ q)
      (len (ext_data x)) (len p + 2));
      [|by unfold enc_ext; rewrite <- !app_assoc|by rewrite len_app, len_enc16|lia].
    rewrite bind_Ok. cbv zeta. rewrite (proj2 (Z.ltb_ge _ _)), (proj2 (Z.eqb_neq _ _)) by lia.
    rewrite bind_Ok.
    replace (len p + 4 + len (ext_data x)) with (len (p ++ enc_ext x)) by (rewrite len_app, len_enc_ext; lia).
    rewrite IH; [|done..|lia|simpl in Hf; lia]. rewrite len_app, len_enc_ext. do 3 f_equal. lia.
Qed.

Definition lower (m : mem) : mem := map (λ c, bz (tolower (zb c))) m.

(** [copy_lower] writes the lower-case bytes and the zero *)
Lemma copy_lower_spec (buf src p q : mem) :
  len src < len buf →
  copy_lower buf (p ++ src ++ q) (len p) (len src) = Ok (lower src ++ x00 :: drop (Z.to_nat (len src) + 1) buf).
Proof.
  intros Hl. unfold copy_lower.
  assert (Hk : ∀ s2 s1, src = s1 ++ s2 →
    loop (Datatypes.S (length s2)) (λ st,
      let '(buf, i) := st in
      if i <? len src then
        c ← rd (p ++ src ++ q) (len p + i);
        buf ← wr buf i (tolower (zb c));
        Ok (inl (buf, i + 1))
      else Ok (inr (buf, i))) (lower s1 ++ drop (length s1) buf, len s1)
    = Ok (lower src ++ drop (length src) buf, len src)).
  { induction s2 as [|c s2 IH]; intros s1 E; rewrite loop_S; cbv beta iota.
    - rewrite app_nil_r in E. subst s1. by rewrite Z.ltb_irrefl.
    - assert (Hs : len src = len s1 + (1 + len s2)) by (rewrite E, len_app, len_cons; lia).
      pose proof (len_nonneg s1). pose proof (len_nonneg s2).
      rewrite (proj2 (Z.ltb_lt _ _)) by lia.
      rewrite (rd_head _ (p ++ s1) (s2 ++ q) c); [|by rewrite E, <- !app_assoc|by rewrite len_app].
      rewrite bind_Ok.
      assert (Hw : wr (lower s1 ++ drop (length s1) buf) (len s1) (tolower (zb c))
        = Ok (lower (s1 ++ [c]) ++ drop (length (s1 ++ [c])) buf)).
      { assert (Hlow : length (lower s1) = length s1) by apply length_map.
        destruct (drop (length s1) buf) as [|y t] eqn:Ed.
        { apply (f_equal length) in Ed. rewrite length_drop in Ed. unfold len in *. simpl in Ed. lia. }
        unfold wr. rewrite len_app, len_cons. unfold len at 1 2 3. rewrite Hlow.
        pose proof (len_nonneg t). rewrite (proj2 (Z.leb_le _ _)), (proj2 (Z.ltb_lt _ _)) by (unfold len in *; lia).
        cbn [andb]. f_equal. unfold len. rewrite Nat2Z.id, <- Hlow.
        replace (length (lower s1)) with (length (lower s1) + 0)%nat by lia. rewrite insert_app_r. simpl.
        unfold lower. rewrite map_app, <- app_assoc. f_equal. simpl. f_equal.
        rewrite length_app, <- drop_drop, Ed. done. }
      rewrite Hw, bind_Ok, bind_Ok.
      replace (len s1 + 1) with (len (s1 ++ [c])) by by rewrite len_app.
      apply IH. by rewrite <- app_assoc. }
  specialize (Hk src [] eq_refl). cbn [lower map app length drop] in Hk. change (len []) with 0 in Hk.
  replace (Z.to_nat (len src)) with (length src) by (unfold len; lia).
  rewrite drop_0 in Hk. rewrite Hk. cbn [bind].
  assert (Hlow : length (lower src) = length src) by apply length_map.
  destruct (drop (length src) buf) as [|y t] eqn:Ed.
  { apply (f_equal length) in Ed. rewrite length_drop in Ed. unfold len in *. simpl in Ed. lia. }
  unfold wr. rewrite len_app, len_cons. unfold len at 1 2 3. rewrite Hlow.
  pose proof (len_nonneg t). rewrite (proj2 (Z.leb_le _ _)), (proj2 (Z.ltb_lt _ _)) by (unfold len in *; lia).
  cbn [andb]. f_equal. unfold len. rewrite Nat2Z.id, <- Hlow.
  replace (length (lower src)) with (length (lower src) + 0)%nat at 1 by lia. rewrite insert_app_r. simpl.
  f_equal. f_equal. rewrite Hlow, <- drop_drop, Ed. done.
Qed.

(** a hello up to the server_name extension; [r], [hs], [L] are the lengths
    it declares for its record, its handshake and its extensions *)
Definition enc24 (z : Z) : mem := [bz (Z.shiftr z 16); bz (Z.shiftr z 8); bz z].
Definition hello_to_sni (ver : byte) (r hs : Z) (h : chello) (L : Z) (pre : list tls_ext) (host : mem) : mem :=
  [x16; x03; ver] ++ enc16 r ++ [x01] ++ enc24 hs ++ ch_version h ++ ch_random h
  ++ [bz (len (ch_sid h))] ++ ch_sid h ++ enc16 (len (ch_ciphers h)) ++ ch_ciphers h
  ++ [bz (len (ch_compression h))] ++ ch_compression h
  ++ enc16 L ++ enc_exts pre ++ enc_ext (sni_ext host).

(** where the extensions begin *)
Definition exts_at (h : chello) : Z :=
  44 + len (ch_sid h) + 2 + len (ch_ciphers h) + 1 + len (ch_compression h) + 2.

Record hello_wf (ver : byte) (h : chello) (r hs L : Z) (pre : list tls_ext) (host : mem) : Prop := HelloWf {
  hw_ver : zb ver <= 3;
  hw_version : len (ch_version h) = 2;
  hw_random : len (ch_random h) = 32;
  hw_sid : len (ch_sid h) < 256;
  hw_ciphers : len (ch_ciphers h) < 2 ^ 16;
  hw_compression : len (ch_compression h) < 256;
  hw_pre : Forall ext_wf pre;
  hw_first : Forall (λ e, ext_type e ≠ 0) pre;
  hw_host : len host + 5 < 2 ^ 16;
  hw_r : 0 <= r < 2 ^ 16;
  hw_hs : 0 <= hs < 2 ^ 24;
  hw_L : 0 <= L < 2 ^ 16;
  hw_record : exts_at h + len (enc_exts pre) + 9 + len host <= r + 5;
  hw_block : len (enc_exts pre) + 9 + len host <= L
}.

Section hello.
Context (ver : byte) (h : chello) (r hs L : Z) (pre : list tls_ext) (host tl : mem).
Context (Hwf : hello_wf ver h r hs L pre host).
Abbreviation data := (hello_to_sni ver r hs h L pre host ++ tl).

Lemma len_sni : len (enc_ext (sni_ext host)) = 9 + len host.
Proof. rewrite len_enc_ext. cbn [ext_data sni_ext]. rewrite !len_app, !len_enc16, len_cons, len_nil. lia. Qed.

Lemma len_hello : len data = exts_at h + len (enc_exts pre) + 9 + len host + len tl.
Proof.
  destruct Hwf. unfold hello_to_sni, exts_at.
  rewrite !len_app, len_sni, !len_enc16, hw_version0, hw_random0.
  change (len [x16; x03; ver]) with 3. change (len [x01]) with 1. change (len (enc24 hs)) with 3.
  change (len [bz (len (ch_sid h))]) with 1. change (len [bz (len (ch_compression h))]) with 1. lia.
Qed.

Lemma hello_rd0 : rd data 0 = Ok x16 ∧ rd data 1 = Ok x03 ∧ rd data 2 = Ok ver ∧ rd data 5 = Ok x01
  ∧ pntoh16 data 3 = Ok r ∧ rd data 6 = Ok (bz (Z.shiftr hs 16)) ∧ rd data 7 = Ok (bz (Z.shiftr hs 8))
  ∧ rd data 8 = Ok (bz hs).
Proof.
  destruct Hwf. split_and!; try reflexivity.
  eapply (pntoh16_enc _ [x16; x03; ver]); [|done|done]. unfold hello_to_sni. by rewrite <- !app_assoc.
Qed.

Lemma hs_len24 : Z.lor (Z.lor (Z.shiftl (zb (bz (Z.shiftr hs 16))) 16) (Z.shiftl (zb (bz (Z.shiftr hs 8))) 8)) (zb (bz hs)) = hs.
Proof.
  destruct Hwf. rewrite !zb_bz, !Z.shiftr_div_pow2 by lia. unfold u8.
  rewrite <- Z.lor_assoc, (lor_shift_add _ (hs mod 2 ^ 8) 8) by (try apply Z.mod_pos_bound; lia).
  change (2 ^ 8) with 256. change (2 ^ 16) with 65536.
  pose proof (Z.mod_pos_bound hs 256 eq_refl). pose proof (Z.mod_pos_bound (hs / 256) 256 eq_refl).
  rewrite (lor_shift_add _ _ 16) by (change (2 ^ 16) with 65536; lia). change (2 ^ 16) with 65536.
  change (2 ^ 24) with 16777216 in *. clear -hw_hs0. Z.to_euclidean_division_equations; lia.
Qed.

(** the parts of the hello that the walk reads *)
Lemma hello_rd :
  let o1 := 44 + len (ch_sid h) in
  let o2 := o1 + 2 + len (ch_ciphers h) in
  let o3 := o2 + 1 + len (ch_compression h) in
  rd data 43 = Ok (bz (len (ch_sid h))) ∧ pntoh16 data o1 = Ok (len (ch_ciphers h))
  ∧ rd data o2 = Ok (bz (len (ch_compression h))) ∧ pntoh16 data o3 = Ok L
  ∧ ∃ p, len p = o3 + 2 ∧ data = p ++ enc_exts pre ++ enc_ext (sni_ext host) ++ tl.
Proof.
  intros o1 o2 o3. destruct Hwf. pose proof (len_nonneg (ch_ciphers h)).
  set (A := [x16; x03; ver] ++ enc16 r ++ [x01] ++ enc24 hs ++ ch_version h ++ ch_random h).
  assert (LA : len A = 43) by (unfold A; rewrite !len_app, hw_version0, hw_random0; done).
  set (A1 := A ++ [bz (len (ch_sid h))] ++ ch_sid h).
  assert (L1 : len A1 = o1) by (unfold A1; rewrite !len_app, LA, len_cons, len_nil; subst o1; lia).
  set (A2 := A1 ++ enc16 (len (ch_ciphers h)) ++ ch_ciphers h).
  assert (L2 : len A2 = o2) by (unfold A2; rewrite !len_app, L1, len_enc16; subst o2; lia).
  set (A3 := A2 ++ [bz (len (ch_compression h))] ++ ch_compression h).
  assert (L3 : len A3 = o3) by (unfold A3; rewrite !len_app, L2, len_cons, len_nil; subst o3; lia).
  assert (E : data = A3 ++ enc16 L ++ enc_exts pre ++ enc_ext (sni_ext host) ++ tl).
  { unfold A3, A2, A1, A, hello_to_sni. by rewrite <- !app_assoc. }
  rewrite E. split_and!.
  - unfold A3, A2, A1. rewrite <- !app_assoc. by eapply rd_head; [|symmetry; exact LA].
  - unfold A3, A2. rewrite <- !app_assoc. by eapply pntoh16_enc; [reflexivity|symmetry; exact L1|lia].
  - unfold A3. rewrite <- !app_assoc. by eapply rd_head; [|symmetry; exact L2].
  - by eapply pntoh16_enc; [reflexivity|symmetry; exact L3|lia].
  - exists (A3 ++ enc16 L). rewrite <- app_assoc. split; [|done]. rewrite len_app, len_enc16, L3. lia.
Qed.

Lemma hello_find partial :
  (partial = false → r + 5 <= len data ∧ hs + 4 <= r ∧ exts_at h + L <= r + 5) →
  TLSFindExt data (len data) 0 partial = Ok (Some (exts_at h + len (enc_exts pre) + 4, 5 + len host)).
Proof.
  intros Hpart. pose proof hello_rd0 as (E0 & E1 & E2 & E5 & E3 & E6 & E7 & E8).
  pose proof hello_rd as (R1 & R2 & R3 & R4 & p & Lp & Ep).
  pose proof len_hello as Hlen. pose proof Hwf as Hwf'. destruct Hwf'.
  pose proof (len_nonneg host). pose proof (len_nonneg tl). pose proof (len_nonneg (enc_exts pre)).
  pose proof (len_nonneg (ch_sid h)). pose proof (len_nonneg (ch_ciphers h)).
  pose proof (len_nonneg (ch_compression h)).
  unfold TLSFindExt, IsTLSClientHello, TLSRecordLen, TLSRecordDataLen.
  unfold exts_at in *.
  rewrite (proj2 (Z.ltb_ge _ 6)) by lia. rewrite E0, E1, E2, E5, E3, !bind_Ok.
  rewrite (proj2 (Z.leb_le _ 3)) by lia. change (zb x16 =? 22) with true. change (zb x03 =? 3) with true.
  change (zb x01 =? 1) with true. cbn [negb].
  assert (Eh : (if partial then Ok true else l ← r0 ← Ok r; Ok (r0 + 5); Ok (l <=? len data)) = Ok true).
  { destruct partial; [done|]. rewrite !bind_Ok. by rewrite (proj2 (Z.leb_le _ _)) by (apply Hpart; done). }
  rewrite !bind_Ok in Eh. rewrite Eh, !bind_Ok. cbn [negb].
  set (n := (if r + 5 <? len data then r + 5 else len data) - 5).
  assert (Hn : 44 + len (ch_sid h) + 2 + len (ch_ciphers h) + 1 + len (ch_compression h) + 2
    + len (enc_exts pre) + 9 + len host <= n + 5 ∧ (partial = false → n = r)).
  { unfold n. destruct (Z.ltb_spec (r + 5) (len data)); split; try lia. intros ->. lia. }
  destruct Hn as [Hn Hnr]. clearbody n.
  unfold TLSFindExtInHandshake.
  rewrite (proj2 (Z.ltb_ge n _)) by lia.
  assert (Ew : (if partial then Ok true else
    a ← rd data (5 + 1); b ← rd data (5 + 2); c ← rd data (5 + 3);
    Ok (Z.lor (Z.lor (Z.shiftl (zb a) 16) (Z.shiftl (zb b) 8)) (zb c) + 4 <=? n)) = Ok true).
  { destruct partial; [done|]. change (5 + 1) with 6. change (5 + 2) with 7. change (5 + 3) with 8.
    rewrite E6, E7, E8, !bind_Ok, hs_len24. by rewrite (proj2 (Z.leb_le _ _)) by (rewrite Hnr; lia). }
  rewrite Ew, bind_Ok. cbn [negb]. change (5 + (1 + 3 + 2 + 32)) with 43. rewrite R1, bind_Ok, zb_bz.
  cbv zeta. rewrite (u8_small (len (ch_sid h))) by lia.
  rewrite (proj2 (Z.ltb_ge n _)) by lia.
  replace (5 + (1 + 3 + 2 + 32 + (len (ch_sid h) + 1))) with (44 + len (ch_sid h)) by lia.
  rewrite R2, bind_Ok, (proj2 (Z.ltb_ge n _)) by lia.
  replace (5 + (1 + 3 + 2 + 32 + (len (ch_sid h) + 1) + (len (ch_ciphers h) + 2)))
    with (44 + len (ch_sid h) + 2 + len (ch_ciphers h)) by lia.
  rewrite R3, bind_Ok, zb_bz, (u8_small (len (ch_compression h))), (proj2 (Z.ltb_ge n _)) by lia.
  replace (5 + (1 + 3 + 2 + 32 + (len (ch_sid h) + 1) + (len (ch_ciphers h) + 2) + (len (ch_compression h) + 1)))
    with (44 + len (ch_sid h) + 2 + len (ch_ciphers h) + 1 + len (ch_compression h)) by lia.
  rewrite R4, bind_Ok.
  set (l := if partial && _ then _ else _).
  assert (Hl : len (enc_exts pre) + 9 + len host <= l).
  { unfold l. destruct partial; cbn [andb]; [case_match; lia|lia]. }
  assert (Ec : negb partial && (n - (1 + 3 + 2 + 32 + (len (ch_sid h) + 1) + (len (ch_ciphers h) + 2)
    + (len (ch_compression h) + 1)) - 2 <? L) = false).
  { destruct partial; [done|]. destruct (Hpart eq_refl) as (_ & _ & ?). rewrite Hnr by done. cbn [negb andb].
    apply Z.ltb_ge. lia. }
  rewrite Ec. clearbody l. rewrite Ep.
  replace (44 + len (ch_sid h) + 2 + len (ch_ciphers h) + 1 + len (ch_compression h) + 2) with (len p) by lia.
  rewrite ext_scan; [|done|split; [simpl; lia|]|done|done| |].
  - cbn [ext_data sni_ext]. rewrite !len_app, !len_enc16, !len_cons, !len_nil. do 2 f_equal. f_equal; lia.
  - cbn [ext_data sni_ext]. rewrite !len_app, !len_enc16, len_cons, len_nil. lia.
  - cbn [ext_data sni_ext]. rewrite !len_app, !len_enc16, len_cons, len_nil. lia.
  - assert (Z.of_nat (length pre) <= len (enc_exts pre)); [|lia]. clear.
    induction pre as [|x l IH]; [done|]. rewrite len_enc_exts_cons. pose proof (len_nonneg (ext_data x)). simpl. lia.
Qed.
(** the extension read at its data *)
Lemma hello_advance :
  TLSAdvanceToHostInSNI data (exts_at h + len (enc_exts pre) + 4) (5 + len host)
  = Ok (Some (exts_at h + len (enc_exts pre) + 9, len host, len host))
  ∧ ∃ p, len p = exts_at h + len (enc_exts pre) + 9 ∧ data = p ++ host ++ tl.
Proof.
  pose proof hello_rd as (_ & _ & _ & _ & p & Lp & Ep). destruct Hwf. pose proof (len_nonneg host).
  fold (exts_at h) in Lp.
  set (B := p ++ enc_exts pre ++ enc16 0 ++ enc16 (len (ext_data (sni_ext host)))).
  assert (LB : len B = exts_at h + len (enc_exts pre) + 4).
  { unfold B. rewrite !len_app, !len_enc16, Lp. unfold exts_at. lia. }
  assert (EB : data = B ++ enc16 (len host + 3) ++ [x00] ++ enc16 (len host) ++ host ++ tl).
  { rewrite Ep. unfold B, enc_ext. cbn [ext_type ext_data sni_ext]. by rewrite <- !app_assoc. }
  split.
  - unfold TLSAdvanceToHostInSNI. rewrite (proj2 (Z.ltb_ge _ 5)), EB by lia.
    rewrite (rd_head _ (B ++ enc16 (len host + 3)) (enc16 (len host) ++ host ++ tl) x00);
      [|by rewrite <- !app_assoc|rewrite len_app, len_enc16; lia].
    rewrite bind_Ok. change (zb x00 =? 0) with true. cbn [negb].
    rewrite (pntoh16_enc _ (B ++ enc16 (len host + 3) ++ [x00]) (host ++ tl) (len host));
      [|by rewrite <- !app_assoc|rewrite !len_app, len_enc16; change (len [x00]) with 1; lia|lia].
    rewrite bind_Ok, (proj2 (Z.leb_le _ _)) by lia. do 2 f_equal. f_equal; f_equal; lia.
  - exists (B ++ enc16 (len host + 3) ++ [x00] ++ enc16 (len host)). rewrite <- !app_assoc. split; [|exact EB].
    rewrite !len_app, !len_enc16, LB. change (len [x00]) with 1. lia.
Qed.
End hello.

(** C15: tpws finds the server name of every ClientHello, in lower case and
    cut to the caller's buffer: the hello is given by its fields and the
    lengths [r], [hs], [L] it declares for record, handshake and extensions,
    any extensions [pre] before server_name, and anything ([tl]) behind it.
    A caller that accepts a partial hello gets the name as soon as the
    server_name extension is there; one that does not needs the record whole,
    the handshake inside it and the extensions inside that. *)
Theorem tls_extract_host (ver : byte) (h : chello) (r hs L : Z) (pre : list tls_ext) (host tl hb : mem)
    (partial : bool) :
  let data := hello_to_sni ver r hs h L pre host ++ tl in
  let kept := slice host 0 (len hb - 1) in
  hello_wf ver h r hs L pre host → 0 < len hb →
  (partial = false → r + 5 <= len data ∧ hs + 4 <= r ∧ exts_at h + L <= r + 5) →
  TLSHelloExtractHost data (len data) hb partial
  = Ok (true, lower kept ++ x00 :: drop (Z.to_nat (len kept) + 1) hb).
Proof.
  intros data kept Hwf Hb Hpart. unfold TLSHelloExtractHost, data.
  rewrite hello_find, bind_Ok by done. unfold TLSExtractHostFromExt.
  destruct (hello_advance ver h r hs L pre host tl Hwf) as [Ea (p & Lp & Ed)]. rewrite Ea, bind_Ok.
  rewrite (proj2 (Z.eqb_neq _ _)) by lia. cbv zeta. rewrite Ed, <- Lp.
  assert (Hk : len kept = if len hb <=? len host then len hb - 1 else len host).
  { unfold kept, slice, len. rewrite length_take, length_drop. simpl.
    destruct (Z.leb_spec (Z.of_nat (length hb)) (Z.of_nat (length host))); unfold len in Hb; lia. }
  rewrite <- Hk.
  assert (Eh : host ++ tl = kept ++ drop (Z.to_nat (len hb - 1)) host ++ tl).
  { unfold kept, slice. simpl. by rewrite drop_0, app_assoc, take_drop. }
  rewrite Eh, copy_lower_spec; [done|]. rewrite Hk. destruct (Z.leb_spec (len hb) (len host)); lia.
Qed.

(** ** Examples *)

Definition get_request : mem :=
  bytes_of "GET / HTTP/1.1" ++ crlf ++ bytes_of "Host: www.example.org" ++ crlf ++ crlf.
(** midsld, method+2, 2, host *)
Definition four_markers : list proto_pos :=
  [ProtoPos 0 PM_HOST_MIDSLD; ProtoPos 2 PM_HTTP_METHOD; ProtoPos 2 PM_ABS; ProtoPos 0 PM_HOST].

Lemma resolve_multi_pos_witness :
  wp (ResolveMultiPos get_request (len get_request) HTTP four_markers) (λ ps,
    StronglySorted Z.lt ps
    ∧ ∀ p, p ∈ ps ↔ 0 < p < len get_request
        ∧ ∃ sp, sp ∈ four_markers ∧ ResolvePos get_request (len get_request) HTTP sp = Ok p).
Proof. apply resolve_multi_pos; zeval. Defined.

Example four_positions :
  ResolveMultiPos get_request (len get_request) HTTP four_markers = Ok [2; 22; 29].
Proof. by vm_compute. Qed.

(** a hello cut off behind its server_name extension *)
Definition cut_hello : chello :=
  CHello x01 [] [] [x03; x03] (repeat xaa 32) (repeat xbb 8) [x13; x01; x13; x02] [x00] [].

Lemma tls_extract_host_witness :
  let data := hello_to_sni x01 400 396 cut_hello 300 [TlsExt 0x0b [x01; x00]] (bytes_of "Example.ORG") ++ [] in
  TLSHelloExtractHost data (len data) (repeat xff 14) true
  = Ok (true, bytes_of "example.org" ++ [x00; xff; xff]).
Proof.
  intros data. unfold data. rewrite (tls_extract_host x01 cut_hello 400 396 300 [TlsExt 0x0b [x01; x00]]
    (bytes_of "Example.ORG") [] (repeat xff 14) true).
  - by vm_compute.
  - split; try (by repeat constructor); try zeval.
  - zeval.
  - done.
Defined.
