(* ===== verification/TpTamper.v ===== *)
(** * tpws, rewriting a request: native/tpws/tamper.c, lines 320-505

    What [tamper_out] does to the segment once the profile is chosen: the
    HTTP tricks in their order ([tamper_http]) and the split of a TLS record
    ([tamper_tls]).  [segment] is the whole buffer, [segment_buffer_size] its
    length; [size] bytes of it are used. *)

From Stdlib Require Import ZArith Lia Bool List.
From Stdlib Require Import Strings.Byte Strings.String Strings.Ascii.
From stdpp Require Import base tactics list numbers option.
From S2P Require Import Prelude CMem TpProtocol.

Record desync_profile : Type := DesyncProfile {
  dp_unixeol : bool; dp_methodeol : bool; dp_methodspace : bool;
  dp_hostdot : bool; dp_hosttab : bool; dp_domcase : bool;
  dp_hostnospace : bool; dp_hostcase : bool; dp_hostspell : mem; dp_hostpad : Z;
  dp_splits : list proto_pos; dp_tlsrec : proto_pos; dp_split_any_protocol : bool;
  dp_disorder : bool; dp_disorder_http : bool; dp_disorder_tls : bool;
  dp_oob : bool; dp_oob_http : bool; dp_oob_tls : bool
}.

Definition SPLIT_FLAG_DISORDER : Z := 1.
Definition SPLIT_FLAG_OOB : Z := 2.

Section tamper.
(** successive results of [rand()]; the buffer's address *)
Context (rnd : nat → Z) (address : Z).
Implicit Types (segment : mem) (size : Z) (dp : desync_profile).

(** [memmem(p, e - p, "\r\n", 2)] *)
Definition find_crlf segment (p e : Z) : res (option Z) :=
  loop (Datatypes.S (length segment)) (λ p,
    if p + 2 <=? e then
      a ← rd segment p; b ← rd segment (p + 1);
      Ok (if (zb a =? 13) && (zb b =? 10) then inr (Some p) else inl (p + 1))
    else Ok (inr None)) p.

Definition phton16 (m : mem) (p v : Z) : res mem :=
  m ← wr m p (Z.shiftr v 8); wr m (p + 1) (Z.land v 255).

(** one round of the unix EOL loop: the segment, [*size], [p], [pp] *)
Definition unixeol_step (s : mem * Z * Z * Z) : res (mem * Z * Z * Z + mem * Z) :=
  let '(segment, size, p, pp) := s in
  r ← find_crlf segment p size;
  match r with
  | None => Ok (inr (segment, size))
  | Some p =>
      segment ← wr segment p 10;
      let p := p + 1 in
      segment ← memmove segment p (p + 1) (size - p - 1);
      let size := size - 1 in
      if pp =? p - 1 then Ok (inr (segment, size)) else Ok (inl (segment, size, p, p))
  end.
Definition unixeol segment size : res (mem * Z) :=
  loop (Datatypes.S (length segment)) unixeol_step (segment, size, 0, 0).

(** [MAX_HDR_SIZE]; one header of the padding: [p], what is left of
    [hostpad], the random numbers used *)
Definition MAX_HDR_SIZE : Z := 2048.
Definition hex_digit (d : Z) : Z := if d <? 10 then 48 + d else 87 + d.
Definition letter (r : Z) : Z := 97 + Z.rem r 26.
Definition pad_step (hsize : Z) (unix : bool) (s : mem * Z * Z * nat) : res (mem * Z * Z * nat + mem * nat) :=
  let '(segment, p, hostpad, k) := s in
  if hostpad =? 0 then Ok (inr (segment, k)) else
  let padsize := if hsize <? hostpad then hostpad - hsize else 0 in
  let padsize := if MAX_HDR_SIZE <? padsize then MAX_HDR_SIZE else padsize in
  let rest := u64 (hostpad - padsize - hsize) in
  let padsize := if rest <? hsize then padsize + rest else padsize in
  let x := Z.land (rnd (k + 1)) 0xffff in
  let s := map bz [letter (rnd k);
    hex_digit (Z.shiftr x 12); hex_digit (Z.land (Z.shiftr x 8) 15);
    hex_digit (Z.land (Z.shiftr x 4) 15); hex_digit (Z.land x 15); ch ":"; 32] in
  segment ← memcpy segment p s 0 7;
  let p := p + 7 in
  segment ← memset segment p (letter (rnd (k + 2))) padsize;
  let p := p + padsize in
  '(segment, p) ← (if unix then segment ← wr segment p 10; Ok (segment, p + 1)
    else segment ← wr segment p 13; segment ← wr segment (p + 1) 10; Ok (segment, p + 2));
  Ok (inl (segment, p, u64 (hostpad - (hsize + padsize)), (k + 3)%nat)).

Definition add_hostpad dp segment (bufsize size pHost : Z) (k : nat) : res (mem * Z * nat) :=
  let hsize := if dp_unixeol dp then 8 else 9 in
  let hostpad := if u64 (dp_hostpad dp) <? hsize then hsize else u64 (dp_hostpad dp) in
  if bufsize <? u64 (hsize + size) then Ok (segment, size, k) else
  let hostpad := if bufsize <? u64 (hostpad + size) then u64 (bufsize - size) else hostpad in
  segment ← memmove segment (pHost + hostpad) pHost (size - pHost);
  '(segment, k) ← loop (Datatypes.S (Z.to_nat hostpad)) (pad_step hsize (dp_unixeol dp)) (segment, pHost, hostpad, k);
  Ok (segment, size + hostpad, k).

(** [for (; p < e && not EOL; p++) *p = ...] *)
Definition mix_case segment (p e : Z) : res mem :=
  loop (Datatypes.S (length segment)) (λ st,
    let '(segment, p) := st in
    if p <? e then
      c ← rd segment p;
      if eol (zb c) then Ok (inr segment) else
      segment ← wr segment p (if Z.odd (address + p) then tolower (zb c) else toupper (zb c));
      Ok (inl (segment, p + 1))
    else Ok (inr segment)) (segment, p).

(** *** The tricks, each with the segment, its size and [pHost] *)

Notation state := (mem * Z * option Z)%type.

Definition do_unixeol dp (s : state) : res state :=
  let '(segment, size, pHost) := s in
  if negb (dp_unixeol dp) then Ok s else
  '(segment, size) ← unixeol segment size; Ok (segment, size, None).

Definition do_methodeol dp (bufsize : Z) (s : state) : res state :=
  let '(segment, size, pHost) := s in
  if dp_methodeol dp && (size + 1 + (if dp_unixeol dp then 0 else 1) <=? bufsize) then
    if dp_unixeol dp then
      segment ← memmove segment 1 0 size;
      segment ← wr segment 0 10;
      Ok (segment, size + 1, None)
    else
      segment ← memmove segment 2 0 size;
      segment ← wr segment 0 13;
      segment ← wr segment 1 10;
      Ok (segment, size + 2, None)
  else Ok s.

(** [pos]: [method_len + 1] *)
Definition do_methodspace dp (bufsize method_len : Z) (s : state) : res state :=
  let '(segment, size, pHost) := s in
  if dp_methodspace dp && (size <? bufsize) then
    let p := method_len + 1 in
    segment ← memmove segment (p + 1) p (size - p);
    segment ← wr segment p 32;
    Ok (segment, size + 1, option_map (Z.add 1) pHost)
  else Ok s.

Definition do_hostdot dp (bufsize : Z) (s : state) : res state :=
  let '(segment, size, pHost) := s in
  if (dp_hostdot dp || dp_hosttab dp) && (size <? bufsize) then
    pHost ← HttpFindHost pHost segment size;
    match pHost with
    | None => Ok (segment, size, None)
    | Some h =>
        p ← skip_while segment (h + 5) size (λ c, negb (eol c));
        if p <? size then
          segment ← memmove segment (p + 1) p (size - p);
          segment ← wr segment p (if dp_hostdot dp then ch "." else 9);
          Ok (segment, size + 1, pHost)
        else Ok (segment, size, pHost)
    end
  else Ok s.

Definition do_domcase dp (s : state) : res state :=
  let '(segment, size, pHost) := s in
  if negb (dp_domcase dp) then Ok s else
  pHost ← HttpFindHost pHost segment size;
  match pHost with
  | None => Ok (segment, size, None)
  | Some h => segment ← mix_case segment (h + 5) size; Ok (segment, size, pHost)
  end.

Definition do_hostnospace dp (s : state) : res state :=
  let '(segment, size, pHost) := s in
  if negb (dp_hostnospace dp) then Ok s else
  pHost ← HttpFindHost pHost segment size;
  match pHost with
  | None => Ok (segment, size, None)
  | Some h =>
      if negb (h + 5 <? size) then Ok (segment, size, pHost) else
      c ← rd segment (h + 5);
      if zb c =? 32 then
        segment ← memmove segment (h + 5) (h + 6) (size - (h + 6));
        Ok (segment, size - 1, pHost)
      else Ok (segment, size, pHost)
  end.

Definition do_hostcase dp (s : state) : res state :=
  let '(segment, size, pHost) := s in
  if negb (dp_hostcase dp) then Ok s else
  pHost ← HttpFindHost pHost segment size;
  match pHost with
  | None => Ok (segment, size, None)
  | Some h => segment ← memcpy segment h (dp_hostspell dp) 0 4; Ok (segment, size, pHost)
  end.

Definition do_hostpad dp (bufsize : Z) (k : nat) (s : state) : res (state * nat) :=
  let '(segment, size, pHost) := s in
  if dp_hostpad dp =? 0 then Ok (s, k) else
  pHost ← HttpFindHost pHost segment size;
  match pHost with
  | None => Ok (segment, size, None, k)
  | Some h => '(segment, size', k) ← add_hostpad dp segment bufsize size h k;
      Ok (segment, size', if size' =? size then pHost else None, k)
  end.

(** *** A request *)

(** [pHost]: where HttpFindHost found the header before *)
Definition tamper_http dp segment (bufsize size method_len : Z) (pHost : option Z) (k : nat)
  : res (mem * Z * nat) :=
  s ← do_unixeol dp (segment, size, pHost);
  s ← do_methodeol dp bufsize s;
  s ← do_methodspace dp bufsize method_len s;
  s ← do_hostdot dp bufsize s;
  s ← do_domcase dp s;
  s ← do_hostnospace dp s;
  s ← do_hostcase dp s;
  '(s, k) ← do_hostpad dp bufsize k s;
  let '(segment, size, _) := s in
  Ok (segment, size, k).

(** the record at the start of the segment cut at [tpos] *)
Definition split_record segment (size tpos : Z) : res (mem * Z * Z) :=
  l ← pntoh16 segment 3;
  if negb (2 <=? l) then Ok (segment, size, 0) else
  let tpos := if l <=? tpos - 5 then 5 + 1 else tpos in
  segment ← memmove segment (tpos + 5) tpos (size - tpos);
  a ← rd segment 0; segment ← wr segment tpos (zb a);
  a ← rd segment 1; segment ← wr segment (tpos + 1) (zb a);
  a ← rd segment 2; segment ← wr segment (tpos + 2) (zb a);
  segment ← phton16 segment (tpos + 3) (u16 (l - (tpos - 5)));
  segment ← phton16 segment 3 (u16 (tpos - 5));
  Ok (segment, size + 5, tpos).

(** the segment, its size, the split positions moved behind the new header *)
Definition tamper_tls dp segment (bufsize size : Z) (multisplit_pos : list Z) : res (mem * Z * list Z) :=
  if 5 + size <=? bufsize then
    tpos ← ResolvePos segment size TLS (dp_tlsrec dp);
    if 5 <? tpos then
      '(segment, size', tpos) ← split_record segment size tpos;
      Ok (segment, size',
        if size' =? size then multisplit_pos
        else map (λ p, if tpos <? p then p + 5 else p) multisplit_pos)
    else Ok (segment, size, multisplit_pos)
  else Ok (segment, size, multisplit_pos).

Definition split_flags dp (proto : l7proto) : Z :=
  let d := match proto with
    | HTTP => dp_disorder_http dp | TLS => dp_disorder_tls dp | _ => false end in
  let o := match proto with
    | HTTP => dp_oob_http dp | TLS => dp_oob_tls dp | _ => false end in
  Z.lor (if d || dp_disorder dp then SPLIT_FLAG_DISORDER else 0)
        (if o || dp_oob dp then SPLIT_FLAG_OOB else 0).

(** the segment, [*size], the split positions, the flags.  [method_len] and
    [pHost] are those of an HTTP request *)
Definition tamper_segment dp (proto : l7proto) segment (bufsize size method_len : Z)
    (pHost : option Z) (k : nat) : res (mem * Z * list Z * Z) :=
  match proto with
  | HTTP =>
      '(segment, size, _) ← tamper_http dp segment bufsize size method_len pHost k;
      pos ← ResolveMultiPos segment size proto (dp_splits dp);
      Ok (segment, size, pos, split_flags dp proto)
  | TLS =>
      pos ← ResolveMultiPos segment size proto (dp_splits dp);
      '(segment, size, pos) ← tamper_tls dp segment bufsize size pos;
      Ok (segment, size, pos, split_flags dp proto)
  | _ =>
      pos ← (if dp_split_any_protocol dp then ResolveMultiPos segment size proto (dp_splits dp) else Ok []);
      Ok (segment, size, pos, split_flags dp proto)
  end.
End tamper.
