(* ===== verification/TpTamperSpec.v ===== *)
(** * tpws: what rewriting keeps

    The HTTP tricks never leave the segment ([wp_tamper_http]); unix line
    ends change exactly the header's line ends ([unixeol_lines]); a TLS record
    is cut exactly as byedpi cuts it ([split_record_is_part_tls]); two of the
    tricks together break the request ([methodeol_methodspace_breaks]). *)

From Stdlib Require Import ZArith Lia Bool List Sorted.
From Stdlib Require Import Strings.Byte Strings.String.
From stdpp Require Import base tactics list numbers option.
From S2P Require Import Prelude CMem Packets PacketsTls TpProtocol TpProtocolSpec TpTamper.

(** ** Moving the rest of the segment *)

Lemma memmove_down X y t R :
  memmove (X ++ [y] ++ t ++ R) (len X) (len X + 1) (len t)
  = Ok (X ++ t ++ drop (length t) ([y] ++ t ++ R)).
Proof.
  pose proof (len_nonneg X). pose proof (len_nonneg t). pose proof (len_nonneg R).
  unfold memmove. rewrite memcpy_ok; [|rewrite ?len_app; change (len [y]) with 1; lia..].
  f_equal. unfold splice, slice. rewrite take_len_app by done. f_equal.
  assert (E : drop (Z.to_nat (len X + 1)) (X ++ [y] ++ t ++ R) = t ++ R).
  { rewrite app_assoc. apply drop_len_app. by rewrite len_app. }
  rewrite E, take_len_app by done. f_equal. rewrite to_nat_len.
  by rewrite <- drop_drop, drop_app_length.
Qed.

Lemma memmove_up X t R k :
  0 <= k → k <= len R →
  memmove (X ++ t ++ R) (len X + k) (len X) (len t)
  = Ok (X ++ take (Z.to_nat k) (t ++ R) ++ t ++ drop (Z.to_nat k) R).
Proof.
  intros Hk HR. pose proof (len_nonneg X). pose proof (len_nonneg t).
  unfold memmove. rewrite memcpy_ok; [|rewrite ?len_app; lia..].
  f_equal. unfold splice, slice.
  rewrite (drop_len_app X) by done. rewrite (take_len_app t) by done.
  replace (Z.to_nat (len X + k)) with (length X + Z.to_nat k)%nat by (unfold len; lia).
  rewrite take_app_add. rewrite <- !app_assoc. do 3 f_equal.
  replace (length X + Z.to_nat k + length t)%nat with (length X + (length t + Z.to_nat k))%nat by lia.
  rewrite <- drop_drop, drop_app_length, <- drop_drop, drop_app_length. done.
Qed.

(** ** Unix line ends *)

(** the text before the first CRLF, and behind it *)
Fixpoint split_crlf (t : mem) : option (mem * mem) :=
  match t with
  | [] => None
  | c :: t' =>
      match t' with
      | d :: t'' => if (zb c =? 13) && (zb d =? 10) then Some ([], t'')
                    else option_map (λ ur, (c :: ur.1, ur.2)) (split_crlf t')
      | [] => None
      end
  end.

Lemma split_crlf_cons c d t :
  split_crlf (c :: d :: t) = if (zb c =? 13) && (zb d =? 10) then Some ([], t)
    else option_map (λ ur, (c :: ur.1, ur.2)) (split_crlf (d :: t)).
Proof. done. Qed.

Lemma split_crlf_app t u r : split_crlf t = Some (u, r) → t = u ++ crlf ++ r.
Proof.
  revert u r. induction t as [|c t IH]; intros u r; [done|]. simpl. destruct t as [|d t']; [done|].
  destruct ((zb c =? 13) && (zb d =? 10)) eqn:E.
  - intros [= <- <-]. apply andb_true_iff in E as [E1%Z.eqb_eq E2%Z.eqb_eq].
    unfold crlf. simpl. rewrite <- (bz_zb c), <- (bz_zb d), E1, E2. done.
  - destruct (split_crlf (d :: t')) as [[u' r']|] eqn:E'; [|done]. intros [= <- <-].
    simpl. f_equal. by apply IH.
Qed.

Lemma find_crlf_spec A t R :
  find_crlf (A ++ t ++ R) (len A) (len A + len t)
  = Ok (option_map (λ ur, len A + len ur.1) (split_crlf t)).
Proof.
  unfold find_crlf.
  assert (H : ∀ t A fuel, (length t < fuel)%nat →
    loop fuel (λ p,
      if p + 2 <=? len A + len t then
        a ← rd (A ++ t ++ R) p; b ← rd (A ++ t ++ R) (p + 1);
        Ok (if (zb a =? 13) && (zb b =? 10) then inr (Some p) else inl (p + 1))
      else Ok (inr None)) (len A) = Ok (option_map (λ ur, len A + len ur.1) (split_crlf t))).
  { clear A t. induction t as [|c t IH]; intros A fuel Hf; (destruct fuel as [|fuel]; [simpl in Hf; lia|]);
      rewrite loop_S; cbv beta.
    - by rewrite len_nil, (proj2 (Z.leb_gt _ _)) by lia.
    - rewrite len_cons. destruct t as [|d t].
      { by rewrite len_nil, (proj2 (Z.leb_gt _ _)) by lia. }
      pose proof (len_nonneg t). rewrite len_cons. rewrite (proj2 (Z.leb_le _ _)) by lia.
      rewrite (rd_head _ A ((d :: t) ++ R) c) by done.
      rewrite bind_Ok, (rd_head _ (A ++ [c]) (t ++ R) d); [|by rewrite <- app_assoc|by rewrite len_app].
      rewrite bind_Ok, split_crlf_cons. destruct ((zb c =? 13) && (zb d =? 10)) eqn:E.
      { simpl. by rewrite len_nil, Z.add_0_r. }
      rewrite bind_Ok. cbv iota. cbn [app]. specialize (IH (A ++ [c]) fuel ltac:(simpl in *; lia)).
      rewrite <- app_assoc in IH. rewrite len_app, len_cons, (len_cons d t) in IH. change (len []) with 0 in IH.
      cbn [app] in IH. replace (len A + (1 + 0) + (1 + len t)) with (len A + (1 + (1 + len t))) in IH by lia.
      replace (len A + (1 + 0)) with (len A + 1) in IH by lia. rewrite IH.
      destruct (split_crlf (d :: t)) as [[u r]|]; [|done]. simpl. rewrite len_cons. do 2 f_equal. lia. }
  apply H. rewrite !length_app. lia.
Qed.

(** the text with unix line ends, up to an empty line *)
Fixpoint to_lf (fuel : nat) (t : mem) : mem :=
  match fuel with
  | O => t
  | Datatypes.S fuel =>
      match split_crlf t with
      | None => t
      | Some ([], r) => x0a :: r
      | Some (u, r) => u ++ x0a :: to_lf fuel r
      end
  end.

Lemma unixeol_loop fuel : ∀ t A R,
  (length t < fuel)%nat →
  ∃ R', loop fuel unixeol_step (A ++ t ++ R, len A + len t, len A, len A)
    = Ok (A ++ to_lf fuel t ++ R', len A + len (to_lf fuel t))
    ∧ length (to_lf fuel t ++ R') = length (t ++ R).
Proof.
  induction fuel as [|fuel IH]; intros t A R Hf; [lia|].
  rewrite loop_S. unfold unixeol_step at 1. rewrite find_crlf_spec, bind_Ok. cbn [to_lf].
  destruct (split_crlf t) as [[u r]|] eqn:E; cbn [option_map].
  2:{ exists R. split; done. }
  apply split_crlf_app in E. subst t. unfold crlf in *. cbn [fst snd].
  pose proof (len_nonneg A). pose proof (len_nonneg u). pose proof (len_nonneg r).
  assert (Ew : wr (A ++ (u ++ [x0d; x0a] ++ r) ++ R) (len A + len u) 10
    = Ok ((A ++ u ++ [x0a]) ++ [x0a] ++ r ++ R)).
  { replace (A ++ (u ++ [x0d; x0a] ++ r) ++ R) with ((A ++ u) ++ x0d :: x0a :: r ++ R)
      by by rewrite <- !app_assoc.
    rewrite wr_app by by rewrite len_app. change (bz 10) with x0a. by rewrite <- !app_assoc. }
  rewrite Ew, bind_Ok.
  replace (len A + len u + 1) with (len (A ++ u ++ [x0a])) by (rewrite !len_app; change (len [x0a]) with 1; lia).
  replace (len A + len (u ++ [x0d; x0a] ++ r) - len (A ++ u ++ [x0a]) - 1) with (len r)
    by (rewrite !len_app; change (len [x0a]) with 1; change (len [x0d; x0a]) with 2; lia).
  rewrite memmove_down, bind_Ok. cbv zeta.
  replace (len A + len (u ++ [x0d; x0a] ++ r) - 1) with (len (A ++ u ++ [x0a]) + len r)
    by (rewrite !len_app; change (len [x0a]) with 1; change (len [x0d; x0a]) with 2; lia).
  set (R1 := drop (length r) ([x0a] ++ r ++ R)).
  assert (HR1 : length R1 = Datatypes.S (length R)).
  { unfold R1. rewrite length_drop. simpl. rewrite length_app. lia. }
  destruct u as [|c u].
  - cbn [app] in *. change (len []) with 0. rewrite len_app. change (len [x0a]) with 1.
    rewrite (proj2 (Z.eqb_eq _ _)) by lia. rewrite bind_Ok. exists R1. split.
    + rewrite <- !app_assoc, len_cons. cbn [app]. do 2 f_equal. lia.
    + simpl. rewrite !length_app. lia.
  - rewrite (proj2 (Z.eqb_neq _ _)) by (rewrite !len_app, len_cons; change (len [x0a]) with 1; pose proof (len_nonneg u); lia).
    rewrite bind_Ok. destruct (IH r (A ++ (c :: u) ++ [x0a]) R1) as (R' & Er & Hlen).
    { rewrite !length_app in Hf. simpl in Hf. lia. }
    rewrite Er. exists R'. split.
    + rewrite <- !app_assoc. cbn [app]. do 2 f_equal.
      repeat rewrite ?len_app, ?len_cons. change (len []) with 0. lia.
    + repeat (rewrite ?length_app in *; simpl in * ). lia.
Qed.

(** *** A header of lines *)

(** a line without the two bytes of its end *)
Definition plain_line (l : mem) : Prop := l ≠ [] ∧ Forall (λ c, eol (zb c) = false) l.

Definition header (nl : mem) (lines : list mem) : mem := concat (map (λ l, l ++ nl) lines) ++ nl.

Lemma split_crlf_line l r : Forall (λ c, eol (zb c) = false) l → split_crlf (l ++ crlf ++ r) = Some (l, r).
Proof.
  induction l as [|c l IH]; [done|]. intros H. inversion H as [|? ? Hc Hl]; subst. specialize (IH Hl).
  unfold eol in Hc. apply orb_false_iff in Hc as [Hc _].
  destruct l as [|d l]; cbn [app] in *.
  - unfold crlf. cbn [app]. rewrite split_crlf_cons, Hc. unfold crlf in IH. cbn [app] in IH. by rewrite IH.
  - by rewrite split_crlf_cons, Hc, IH.
Qed.

Lemma to_lf_header lines body fuel :
  Forall plain_line lines → (length (header crlf lines ++ body) < fuel)%nat →
  to_lf fuel (header crlf lines ++ body) = header [x0a] lines ++ body.
Proof.
  intros Hl. revert fuel. induction Hl as [|l lines [Hne Hl] Hls IH]; intros fuel Hf;
    (destruct fuel as [|fuel]; [simpl in Hf; lia|]); [done|].
  unfold header in *. cbn [map concat]. rewrite <- !app_assoc in *. cbn [to_lf map concat] in *.
  rewrite <- !app_assoc in *. rewrite split_crlf_line by done. destruct l as [|c l]; [done|].
  cbn [app]. rewrite IH; [done|].
  repeat (rewrite ?length_app in *; simpl in * ). lia.
Qed.

(** for a request of non-empty lines ending in CRLF and an empty line, in
    a segment of any size, unix line ends make exactly the same lines ending
    in LF, leave the body as it is, and count the new size. *)
Theorem unixeol_lines (lines : list mem) (body rest : mem) :
  Forall plain_line lines →
  ∃ rest', unixeol (header crlf lines ++ body ++ rest) (len (header crlf lines ++ body))
    = Ok (header [x0a] lines ++ body ++ rest', len (header [x0a] lines ++ body)).
Proof.
  intros Hl. set (t := header crlf lines ++ body).
  destruct (unixeol_loop (Datatypes.S (length (header crlf lines ++ body ++ rest))) t [] rest)
    as (R' & E & _); [unfold t; rewrite !length_app; lia|].
  unfold t in E. rewrite to_lf_header in E by (done || rewrite !length_app; lia).
  exists R'. rewrite <- !app_assoc in E. exact E.
Qed.

(** ** The tricks stay inside the segment *)

Lemma split_crlf_prefix m t :
  Forall (λ c, zb c ≠ 13) m → split_crlf (m ++ t) = option_map (λ ur, (m ++ ur.1, ur.2)) (split_crlf t).
Proof.
  induction m as [|c m IH]; intros H; [cbn [app]; by destruct (split_crlf t) as [[]|]|].
  inversion H as [|? ? Hc Hm]; subst. specialize (IH Hm). cbn [app]. destruct (m ++ t) as [|d v] eqn:E.
  { apply app_eq_nil in E as [-> ->]. done. }
  rewrite split_crlf_cons, (proj2 (Z.eqb_neq _ _)) by done. cbn [andb]. rewrite IH.
  by destruct (split_crlf t) as [[]|].
Qed.

(** what comes before the first carriage return stays *)
Lemma to_lf_prefix fuel m t : m ≠ [] → Forall (λ c, zb c ≠ 13) m → ∃ v, to_lf fuel (m ++ t) = m ++ v.
Proof.
  intros Hne Hm. destruct fuel as [|fuel]; simpl; [by eexists|]. rewrite split_crlf_prefix by done.
  destruct (split_crlf t) as [[u r]|]; simpl; [|by eexists]. destruct m as [|c m]; [done|].
  cbn [app]. exists (u ++ x0a :: to_lf fuel r). simpl. by rewrite <- app_assoc.
Qed.

Lemma first_method_prefix ms data n m :
  first_method ms data n = Ok (Some m) → m ∈ ms ∧ len m <= n ∧ ∃ v, data = m ++ v.
Proof.
  induction ms as [|a ms IH]; simpl; [done|]. intros H.
  assert (Hr : first_method ms data n = Ok (Some m) → m ∈ a :: ms ∧ len m <= n ∧ ∃ v, data = m ++ v).
  { intros Hm. destruct (IH Hm) as (? & ? & ?). split; [by apply elem_of_cons; right|done]. }
  destruct (Z.leb_spec (len a) n); [|by apply Hr].
  apply bind_ok in H as (b & Hb & H). apply bind_ok in Hb as (d & Hd & [= Hb]).
  destruct b; [|by apply Hr]. injection H as [= <-]. apply Z.eqb_eq in Hb as ->.
  unfold memcmp in Hd. destruct (_ && _) eqn:E in Hd; [|done]. injection Hd as Hd.
  repeat (apply andb_true_iff in E as [E ?]).
  rewrite slice_all in Hd. apply memcmp_list_eq in Hd.
  2:{ pose proof (len_slice data 0 (len a)) as Hs. unfold len in *. lia. }
  split; [by apply elem_of_cons; left|]. split; [lia|].
  exists (drop (length a) data). rewrite <- (take_drop (length a) data) at 1. f_equal.
  by rewrite slice_0, to_nat_len in Hd by apply len_nonneg.
Qed.

(** rules that follow only the length of the segment *)
Lemma wp_memcpy_len m d src s n (Q : mem → Prop) :
  0 <= n → 0 <= d → d + n <= len m → 0 <= s → s + n <= len src →
  (∀ m', len m' = len m → Q m') → wp (memcpy m d src s n) Q.
Proof. intros. apply wp_memcpy; auto. apply H4, len_splice; rewrite ?len_slice by lia; lia. Qed.
Lemma wp_memmove_len m d s n (Q : mem → Prop) :
  0 <= n → 0 <= d → d + n <= len m → 0 <= s → s + n <= len m →
  (∀ m', len m' = len m → Q m') → wp (memmove m d s n) Q.
Proof. apply wp_memcpy_len. Qed.
Lemma wp_memset_len m d c n (Q : mem → Prop) :
  0 <= n → 0 <= d → d + n <= len m → (∀ m', len m' = len m → Q m') → wp (memset m d c n) Q.
Proof.
  intros H1 H2 H3 HQ. apply wp_memset; [done..|].
  assert (E : len (repeat (bz c) (Z.to_nat n)) = n) by (unfold len; rewrite repeat_length; lia).
  apply HQ, len_splice; rewrite ?E; lia.
Qed.
Lemma wp_wr_len m i v (Q : mem → Prop) :
  0 <= i < len m → (∀ m', len m' = len m → Q m') → wp (wr m i v) Q.
Proof. intros Hi HQ. apply wp_wr; [done|]. apply HQ, len_insert. Qed.

(** [pHost] points to "Host:" inside the segment *)
Definition host_in (size : Z) (pHost : option Z) : Prop := ∀ h, pHost = Some h → 0 <= h ∧ h + 5 <= size.

Lemma wp_HttpFindHost pHost m size (Q : option Z → Prop) :
  size <= len m → host_in size pHost → (∀ r, host_in size r → Q r) → wp (HttpFindHost pHost m size) Q.
Proof.
  intros Hs Hh HQ. unfold HttpFindHost. destruct pHost; [by apply HQ|].
  wp_use wp_FindHostIn; [done|]. intros r Hr. apply HQ. intros h Eh. destruct r as [p|]; [|done].
  injection Eh as <-. destruct (Hr p eq_refl). lia.
Qed.

Lemma wp_skip_to m p e test (Q : Z → Prop) :
  0 <= p → e <= len m → (∀ r, p <= r ∧ (r <= e ∨ r = p) → Q r) → wp (skip_while m p e test) Q.
Proof. intros. eapply wp_mono; [by apply wp_skip_while|done]. Qed.

Lemma wp_mix_case address m p e (Q : mem → Prop) :
  0 <= p → e <= len m → (∀ m', len m' = len m → Q m') → wp (mix_case address m p e) Q.
Proof.
  intros Hp He HQ. unfold mix_case.
  apply (wp_loop (λ '(m', q), len m' = len m ∧ 0 <= q) (λ '(m', q), Z.max 0 (e - q))).
  - intros [??]. lia.
  - intros [m' q] [Hm Hq]. wp_step; [|by apply wp_ok, HQ]. wp_step. apply wp_rd; [lia|]. intros c _.
    wp_step; [by apply wp_ok, HQ|]. wp_step. apply wp_wr_len; [lia|]. intros m2 Hm2. simpl. lia.
  - done.
  - unfold len in *. lia.
Qed.

Section safe.
Context (rnd : nat → Z) (address : Z) (dp : desync_profile).
Context (Hspell : len (dp_hostspell dp) = 4) (Hpad : 0 <= dp_hostpad dp < 2 ^ 31).
Variables (bufsize mlen : Z).
Context (Hbuf : bufsize < 2 ^ 63) (Hm : 2 <= mlen).

(** the segment, the size, [pHost] *)
Definition in_segment (lo : Z) (s : mem * Z * option Z) : Prop :=
  let '(segment, size, pHost) := s in
  len segment = bufsize ∧ lo <= size <= bufsize ∧ host_in size pHost.

Local Ltac host :=
  match goal with Hr : host_in _ (Some ?h) |- _ => destruct (Hr h eq_refl) end.
Local Ltac inside := simpl; split; [lia|split; [lia|]]; first [ by intros ? [=] | assumption | intros ? [= <-]; lia
  | match goal with Hr : host_in _ _ |- _ => intros ? Eh; destruct (Hr _ Eh); lia end ].

Lemma wp_do_methodeol s : in_segment mlen s → wp (do_methodeol dp bufsize s) (in_segment mlen).
Proof.
  destruct s as [[m size] pHost]. intros (Hl & Hs & Hh). unfold do_methodeol. wp_step; [|inside].
  apply andb_true_iff in E as [_ E]. destruct (dp_unixeol dp); wp_step; (apply wp_memmove_len; [lia..|]);
    intros m1 H1; wp_step; (apply wp_wr_len; [lia|]); intros m2 H2; [simpl; inside|].
  wp_step. apply wp_wr_len; [lia|]. intros m3 H3. simpl. inside.
Qed.

Lemma wp_do_methodspace s : in_segment mlen s → wp (do_methodspace dp bufsize (mlen - 2) s) (in_segment 0).
Proof.
  destruct s as [[m size] pHost]. intros (Hl & Hs & Hh). unfold do_methodspace. wp_step; [|inside].
  apply andb_true_iff in E as [_ E]. wp_step. apply wp_memmove_len; [lia..|]. intros m1 H1.
  wp_step. apply wp_wr_len; [lia|]. intros m2 H2. simpl. split; [lia|]. split; [lia|].
  intros h' Eh. destruct pHost as [h|]; [|done]. injection Eh as <-. host. lia.
Qed.

Lemma wp_do_hostdot s : in_segment 0 s → wp (do_hostdot dp bufsize s) (in_segment 0).
Proof.
  destruct s as [[m size] pHost]. intros (Hl & Hs & Hh). unfold do_hostdot. wp_step; [|inside].
  apply andb_true_iff in E as [_ E]. wp_step. apply wp_HttpFindHost; [lia|done|].
  intros [h|] Hr; [|simpl; inside]. host. wp_step. apply wp_skip_to; [lia..|]. intros p Hp.
  wp_step; [|simpl; inside]. wp_step. apply wp_memmove_len; [lia..|]. intros m1 H1.
  wp_step. apply wp_wr_len; [lia|]. intros m2 H2. simpl. inside.
Qed.

Lemma wp_do_domcase s : in_segment 0 s → wp (do_domcase address dp s) (in_segment 0).
Proof.
  destruct s as [[m size] pHost]. intros (Hl & Hs & Hh). unfold do_domcase. wp_step; [inside|].
  wp_step. apply wp_HttpFindHost; [lia|done|]. intros [h|] Hr; [|simpl; inside]. host.
  wp_step. apply wp_mix_case; [lia..|]. intros m1 H1. simpl. inside.
Qed.

(** removing the blank may leave the header's name at the very end *)
Lemma wp_do_hostnospace s : in_segment 0 s → wp (do_hostnospace dp s) (in_segment 0).
Proof.
  destruct s as [[m size] pHost]. intros (Hl & Hs & Hh). unfold do_hostnospace. wp_step; [inside|].
  wp_step. apply wp_HttpFindHost; [lia|done|]. intros [h|] Hr; [|simpl; inside]. host.
  wp_step; [simpl; inside|]. wp_step. apply wp_rd; [lia|]. intros c _. wp_step; [|simpl; inside].
  wp_step. apply wp_memmove_len; [lia..|]. intros m1 H1. simpl. inside.
Qed.

Lemma wp_do_hostcase s : in_segment 0 s → wp (do_hostcase dp s) (in_segment 0).
Proof.
  destruct s as [[m size] pHost]. intros (Hl & Hs & Hh). unfold do_hostcase. wp_step; [inside|].
  wp_step. apply wp_HttpFindHost; [lia|done|]. intros [h|] Hr; [|simpl; inside]. host.
  wp_step. apply wp_memcpy_len; [lia..|]. intros m1 H1. simpl. inside.
Qed.
(** *** The padding fills exactly the gap *)

Section pad.
Context (hsize : Z) (unix : bool) (Hh : hsize = if unix then 8 else 9).

Lemma wp_pad_step m p hostpad k :
  len m = bufsize → 0 <= p → 0 <= hostpad → p + hostpad <= bufsize → (hostpad = 0 ∨ hsize <= hostpad) →
  wp (pad_step rnd hsize unix (m, p, hostpad, k)) (λ r,
    match r with
    | inl (m', p', hostpad', _) => len m' = bufsize ∧ p' + hostpad' = p + hostpad ∧ 0 <= p' ∧
        (hostpad' = 0 ∨ hsize <= hostpad') ∧ 0 <= hostpad' < hostpad
    | inr (m', _) => len m' = bufsize
    end).
Proof.
  intros Hl Hp H0 Hin Hor. unfold pad_step. destruct (Z.eqb_spec hostpad 0); [done|].
  assert (8 <= hsize <= 9) by (rewrite Hh; destruct unix; lia).
  cbv zeta. set (d := if hsize <? hostpad then _ else _).
  assert (Ed : d = hostpad - hsize) by (unfold d; destruct (Z.ltb_spec hsize hostpad); lia). clearbody d.
  unfold MAX_HDR_SIZE. set (d2 := if 2048 <? d then _ else _).
  assert (0 <= d2 <= d) by (unfold d2; destruct (Z.ltb_spec 2048 d); lia). clearbody d2. ints.
  set (padsize := if hostpad - d2 - hsize <? hsize then _ else d2).
  assert (Epad : 0 <= padsize ∧ hsize + padsize <= hostpad ∧
    (hostpad - (hsize + padsize) = 0 ∨ hsize <= hostpad - (hsize + padsize))).
  { unfold padsize. destruct (Z.ltb_spec (hostpad - d2 - hsize) hsize); lia. }
  clearbody padsize. destruct Epad as (Epad1 & Epad2 & Epad3).
  wp_step. apply wp_memcpy_len; [lia..|done|]. intros m1 L1.
  wp_step. apply wp_memset_len; [lia..|]. intros m2 L2. ints.
  wp_step. destruct unix; wp_step; (apply wp_wr_len; [lia|]); intros m3 L3; [simpl; lia|].
  wp_step. apply wp_wr_len; [lia|]. intros m4 L4. simpl. lia.
Qed.

Lemma wp_pad m p hostpad k (Q : mem * nat → Prop) :
  len m = bufsize → 0 <= p → p + hostpad <= bufsize → hsize <= hostpad →
  (∀ m' k', len m' = bufsize → Q (m', k')) →
  wp (loop (Datatypes.S (Z.to_nat hostpad)) (pad_step rnd hsize unix) (m, p, hostpad, k)) Q.
Proof.
  intros Hl Hp Hin Hle HQ. assert (8 <= hsize) by (rewrite Hh; destruct unix; lia).
  apply (wp_loop (λ '(m, p, hostpad, _), len m = bufsize ∧ 0 <= p ∧ 0 <= hostpad ∧ p + hostpad <= bufsize ∧
      (hostpad = 0 ∨ hsize <= hostpad)) (λ '(_, _, hostpad, _), hostpad)); [| | |lia].
  - intros [[[??]?]?]. lia.
  - intros [[[m' p'] h'] k'] (?&?&?&?&?). eapply wp_mono; [by apply wp_pad_step|].
    intros [[[[m2 p2] h2] k2]|[m2 k2]]; [|by apply HQ]. lia.
  - lia.
Qed.
End pad.

Lemma wp_add_hostpad m size h k :
  len m = bufsize → 0 <= h → h + 5 <= size → size <= bufsize →
  wp (add_hostpad rnd dp m bufsize size h k) (λ '(m', size', _),
    len m' = bufsize ∧ size <= size' <= bufsize).
Proof.
  intros Hl Hh0 Hh Hs. unfold add_hostpad. cbv zeta.
  set (hsize := if dp_unixeol dp then 8 else 9).
  assert (8 <= hsize <= 9) by (unfold hsize; destruct (dp_unixeol dp); lia). ints.
  set (p1 := if dp_hostpad dp <? hsize then _ else _).
  assert (hsize <= p1 < 2 ^ 31) by (unfold p1; destruct (Z.ltb_spec (dp_hostpad dp) hsize); lia).
  clearbody p1. ints. wp_step; [simpl; lia|].
  set (p2 := if bufsize <? p1 + size then _ else _).
  assert (hsize <= p2 ∧ p2 + size <= bufsize) by (unfold p2; destruct (Z.ltb_spec bufsize (p1 + size)); lia).
  clearbody p2. wp_step. apply wp_memmove_len; [lia..|]. intros m1 L1. wp_step.
  apply wp_pad; [done|lia..|]. intros m2 k2 L2. simpl. lia.
Qed.

Lemma wp_do_hostpad k s : in_segment 0 s → wp (do_hostpad rnd dp bufsize k s) (λ r, in_segment 0 r.1).
Proof.
  destruct s as [[m size] pHost]. intros (Hl & Hs & Hh). unfold do_hostpad. wp_step; [inside|].
  wp_step. apply wp_HttpFindHost; [lia|done|]. intros [h|] Hr; [|simpl; inside]. host. cbv iota.
  wp_step. eapply wp_mono; [apply wp_add_hostpad; lia|]. intros [[m' size'] k'] [H1 H2].
  destruct (Z.eqb_spec size' size) as [->|]; simpl; inside.
Qed.
End safe.

Lemma methods_no_cr m : m ∈ http_methods → m ≠ [] ∧ 5 <= len m ∧ Forall (λ c, zb c ≠ 13) m.
Proof.
  intros H. assert (Hall : Forall (λ m, m ≠ [] ∧ 5 <= len m ∧ Forall (λ c, zb c ≠ 13) m) http_methods).
  { refine (bool_decide_eq_true_1 _ _). vm_compute. reflexivity. }
  rewrite Forall_forall in Hall. apply Hall. by apply list_elem_of_In.
Qed.

Lemma wp_do_unixeol dp bufsize segment size pHost method :
  len segment = bufsize → 0 <= size <= bufsize → host_in size pHost →
  HttpMethod segment size = Ok (Some method) →
  wp (do_unixeol dp (segment, size, pHost)) (in_segment bufsize (len method)).
Proof.
  intros Hl Hs Hh Hmeth. apply first_method_prefix in Hmeth as (Hin & Hm & v & ->).
  destruct (methods_no_cr method Hin) as (Hne & _ & Hcr). unfold do_unixeol.
  wp_step; [simpl; split; [done|split; [lia|done]]|]. wp_step. unfold unixeol.
  pose proof (len_nonneg v). pose proof (len_nonneg method). rewrite len_app in Hl.
  assert (Ev : v = take (Z.to_nat (size - len method)) v ++ drop (Z.to_nat (size - len method)) v)
    by (symmetry; apply take_drop).
  set (t := take (Z.to_nat (size - len method)) v) in *. set (R := drop (Z.to_nat (size - len method)) v) in *.
  assert (Ht : len (method ++ t) = size).
  { rewrite len_app. unfold t, len in *. rewrite length_take. lia. }
  set (fuel := Datatypes.S (length (method ++ v))).
  destruct (unixeol_loop fuel (method ++ t) [] R) as (R' & Er & Hlen).
  { unfold fuel. rewrite Ev. rewrite !length_app. lia. }
  change (len []) with 0 in Er. rewrite Z.add_0_l, Ht in Er. cbn [app] in Er.
  rewrite <- app_assoc, <- Ev in Er. rewrite Er. apply wp_ok. cbv iota. apply wp_ok.
  destruct (to_lf_prefix fuel method t) as [w Ew]; [done..|].
  assert (Hl' : len (to_lf fuel (method ++ t) ++ R') = bufsize).
  { unfold len in *. rewrite Hlen, <- app_assoc, <- Ev, length_app. lia. }
  split; [done|]. rewrite Ew in Hl' |- *. repeat rewrite len_app in Hl'. rewrite len_app.
  pose proof (len_nonneg w). pose proof (len_nonneg R'). split; [lia|by intros ?].
Qed.

(** every HTTP request in a segment, every profile with a four letter spelling
    and a padding that is not negative *)
Lemma wp_tamper_http (rnd : nat → Z) (address : Z) (dp : desync_profile)
    (segment : mem) (bufsize size : Z) (method : mem) (pHost : option Z) (k : nat) :
  len (dp_hostspell dp) = 4 → 0 <= dp_hostpad dp < 2 ^ 31 →
  len segment = bufsize → bufsize < 2 ^ 63 → 0 <= size <= bufsize →
  HttpMethod segment size = Ok (Some method) → HttpFindHost None segment size = Ok pHost →
  wp (tamper_http rnd address dp segment bufsize size (len method - 2) pHost k)
     (λ '(segment', size', _), len segment' = bufsize ∧ 0 <= size' <= bufsize).
Proof.
  intros Hspell Hpad Hl Hb Hs Hmeth Hhost.
  assert (Hh : host_in size pHost).
  { assert (Hw : wp (HttpFindHost None segment size) (host_in size)) by (apply wp_HttpFindHost; [lia|done|done]).
    by rewrite Hhost in Hw. }
  destruct (methods_no_cr method) as (_ & Hm & _); [by apply first_method_prefix in Hmeth as [? _]|].
  unfold tamper_http. wp_use wp_do_unixeol; [done..|]. intros s1 I1.
  wp_use wp_do_methodeol; [|exact I1|]; [lia|]. intros s2 I2.
  wp_use wp_do_methodspace; [|exact I2|]; [lia|]. intros s3 I3.
  wp_use wp_do_hostdot; [exact I3|]. intros s4 I4.
  wp_use wp_do_domcase; [exact I4|]. intros s5 I5.
  wp_use wp_do_hostnospace; [exact I5|]. intros s6 I6.
  wp_use wp_do_hostcase; [exact Hspell|exact I6|]. intros s7 I7.
  wp_use wp_do_hostpad; [exact Hpad|exact Hb|exact I7|]. intros [[[m' size'] h'] k'] (I8 & I9 & _).
  simpl. done.
Qed.

Lemma phton16_SHTONA m i v : phton16 m i v = SHTONA m i v.
Proof. unfold phton16, SHTONA, wr. by rewrite bz_u8. Qed.

(** ** A TLS record in two *)

Lemma split_record_out (t v1 v2 : byte) (r : Z) (p1 p2 room rest : mem) :
  1 <= len p1 < r → r < 2 ^ 16 → len room = 5 →
  split_record (rec_hdr t v1 v2 r ++ p1 ++ p2 ++ room ++ rest) (5 + len p1 + len p2) (5 + len p1)
  = Ok (rec_hdr t v1 v2 (len p1) ++ p1 ++ rec_hdr t v1 v2 (r - len p1) ++ p2 ++ rest,
        5 + len p1 + len p2 + 5, 5 + len p1).
Proof.
  intros Hp1 Hr Hroom. pose proof (len_nonneg p2). unfold split_record.
  rewrite (pntoh16_enc _ [t; v1; v2] (p1 ++ p2 ++ room ++ rest) r) by (done || lia).
  rewrite bind_Ok, (proj2 (Z.leb_le 2 _)), (proj2 (Z.leb_gt r _)) by lia. cbn [negb]. cbv zeta.
  set (A := [t; v1; v2] ++ enc16 r ++ p1).
  assert (HA : len A = 5 + len p1).
  { unfold A. rewrite !len_app, len_enc16. change (len [t; v1; v2]) with 3. lia. }
  destruct (memmove_gap A p2 room rest Hroom) as (gap & Hg & Hmv).
  replace (5 + len p1 + len p2 - (5 + len p1)) with (len p2) by lia. rewrite <- !HA.
  replace (rec_hdr t v1 v2 r ++ p1 ++ p2 ++ room ++ rest) with (A ++ p2 ++ room ++ rest)
    by (unfold A, rec_hdr; by rewrite <- !app_assoc).
  rewrite Hmv. bstep. clear Hmv.
  destruct gap as [|y1 [|y2 [|y3 [|y4 [|y5 [|? ?]]]]]]; try (unfold len in Hg; simpl in Hg; lia).
  pose proof (len_nonneg p1). cbn [app].
  rewrite rd_app_l by lia. change (rd A 0) with (Ok t). bstep.
  rewrite (wr_app A y1) by done. bstep. rewrite bz_zb.
  rewrite rd_app_l by lia. change (rd A 1) with (Ok v1). bstep.
  replace (A ++ t :: y2 :: y3 :: y4 :: y5 :: p2 ++ rest) with ((A ++ [t]) ++ y2 :: y3 :: y4 :: y5 :: p2 ++ rest)
    by by rewrite <- app_assoc.
  rewrite (wr_app (A ++ [t]) y2) by by rewrite len_app. bstep. rewrite ?bz_zb.
  rewrite <- app_assoc. cbn [app].
  rewrite rd_app_l by lia. change (rd A 2) with (Ok v2). bstep.
  replace (A ++ t :: v1 :: y3 :: y4 :: y5 :: p2 ++ rest) with ((A ++ [t; v1]) ++ y3 :: y4 :: y5 :: p2 ++ rest)
    by by rewrite <- app_assoc.
  rewrite (wr_app (A ++ [t; v1]) y3) by by rewrite len_app. bstep. rewrite ?bz_zb.
  replace ((A ++ [t; v1]) ++ v2 :: y4 :: y5 :: p2 ++ rest) with ((A ++ [t; v1; v2]) ++ y4 :: y5 :: p2 ++ rest)
    by by rewrite <- !app_assoc.
  rewrite !phton16_SHTONA, SHTONA_app by by rewrite len_app. bstep. rewrite ?bz_zb.
  replace (len A - 5) with (len p1) by lia. rewrite !u16_small by lia.
  rewrite phton16_SHTONA. unfold A at 1. rewrite <- !app_assoc, SHTONA_enc16 by done. bstep.
  unfold rec_hdr. by rewrite <- !app_assoc.
Qed.

(** C16: tpws cuts a TLS record exactly as byedpi does, when the cut lies inside
    the record: the same bytes in front of the same rest. *)
Theorem split_record_is_part_tls `{cm : CharModel} (t v1 v2 : byte) (r bsize : Z) (p1 p2 room rest : mem) :
  1 <= len p1 < r → r < 2 ^ 16 → len room = 5 → 10 + len p1 + len p2 <= bsize < 2 ^ 63 →
  let segment := rec_hdr t v1 v2 r ++ p1 ++ p2 ++ room ++ rest in
  let size := 5 + len p1 + len p2 in
  ∃ segment', part_tls segment bsize size (len p1) = Ok (5, segment')
    ∧ split_record segment size (5 + len p1) = Ok (segment', size + 5, 5 + len p1).
Proof.
  intros Hp Hr Hroom Hb segment size. eexists. split.
  - apply part_tls_split; lia.
  - apply split_record_out; lia.
Qed.

(** ** Two tricks together *)

Definition eol_and_space : desync_profile :=
  DesyncProfile false true true false false false false false (bytes_of "host") 0 [] (ProtoPos 0 PM_ABS)
    false false false false false false false.

(** An extra EOL before the method moves the request by two bytes, and
    the extra space is still put where the method ended before: between
    the letters of the method. *)
Theorem methodeol_methodspace_breaks :
  let segment := get_request ++ repeat x00 10 in
  ∃ segment' k, HttpMethod segment (len get_request) = Ok (Some (bytes_of "GET /"))
    ∧ tamper_http (λ _, 0) 0 eol_and_space segment (len segment) (len get_request) (len (bytes_of "GET /") - 2) None 0
      = Ok (segment', len get_request + 3, k)
    ∧ take 9 segment' = crlf ++ bytes_of "GE T / ".
Proof. eexists _, _. split; [by vm_compute|]. split; vm_compute; reflexivity. Qed.

(** ** Examples *)

Lemma unixeol_lines_witness :
  ∃ rest', unixeol (header crlf [bytes_of "GET / HTTP/1.1"; bytes_of "Host: a.b"] ++ [x41; x0d; x0a] ++ [xff])
      (len (header crlf [bytes_of "GET / HTTP/1.1"; bytes_of "Host: a.b"] ++ [x41; x0d; x0a]))
    = Ok (header [x0a] [bytes_of "GET / HTTP/1.1"; bytes_of "Host: a.b"] ++ [x41; x0d; x0a] ++ rest',
          len (header [x0a] [bytes_of "GET / HTTP/1.1"; bytes_of "Host: a.b"] ++ [x41; x0d; x0a])).
Proof.
  apply unixeol_lines. refine (bool_decide_eq_true_1 _ _). vm_compute. reflexivity.
Defined.

Lemma split_record_is_part_tls_witness :
  let segment := rec_hdr x16 x03 x01 7 ++ [x01; x00; x00] ++ [x03; x0a; x0b; x0c] ++ repeat x00 5 ++ [xff] in
  let size := 5 + len [x01; x00; x00] + len [x03; x0a; x0b; x0c] in
  ∃ segment', part_tls (cm := true) segment 18 size (len [x01; x00; x00]) = Ok (5, segment')
    ∧ split_record segment size (5 + len [x01; x00; x00]) = Ok (segment', size + 5, 5 + len [x01; x00; x00]).
Proof. apply (split_record_is_part_tls (cm := true)); zeval. Defined.
