(* ===== verification/TpPools.v ===== *)
(** * tpws, the pools: native/tpws/pools.c, pools.h

    Host lists and failure counters are uthash tables keyed by a string: maps
    here, the null pointer being the empty one.  What [malloc] and the table
    answer is a parameter.  The [LIST]s of sys/queue.h are lists, their head
    first; an object a list entry points to is an index into its store.
    [time(NULL)] is an argument: an operation runs within one second. *)

From Stdlib Require Import ZArith Lia Bool List.
From Stdlib Require Import Strings.Byte Strings.String Strings.Ascii.
From stdpp Require Import base tactics list numbers option countable gmap.
From S2P Require Import Prelude CMem.

(** ** Host lists *)

Definition HOSTLIST_POOL_FLAG_STRICT_MATCH : Z := 1.

(** a name's flags *)
Notation hostlist_pool := (gmap mem Z).

Section hostlist_pool.
(** there is memory for one more name *)
Context (alloc : hostlist_pool → mem → bool).

Definition HostlistPoolAddStrLen (pp : hostlist_pool) (s : mem) (flags : Z) : hostlist_pool * bool :=
  match pp !! s with
  | Some _ => (pp, true)
  | None => if alloc pp s then (<[s := flags]> pp, true) else (pp, false)
  end.
(** the same of a C string *)
Definition HostlistPoolAddStr (pp : hostlist_pool) (s : mem) (flags : Z) : hostlist_pool * bool :=
  HostlistPoolAddStrLen pp s flags.
End hostlist_pool.

Definition HostlistPoolGetStr (p : hostlist_pool) (s : mem) : option Z := p !! s.
Definition HostlistPoolCheckStr (p : hostlist_pool) (s : mem) : bool := bool_decide (is_Some (HostlistPoolGetStr p s)).
Definition HostlistPoolDestroy (p : hostlist_pool) : hostlist_pool := ∅.

(** ** Failure counters *)

Record hostfail : Type := HostFail { hf_counter : Z; hf_expire : Z }.
#[export] Instance hostfail_eta : Eta hostfail := λ f, HostFail (hf_counter f) (hf_expire f).
Notation hostfail_pool := (gmap mem hostfail).

(** [None]: out of memory; only called for a name that is not there *)
Definition HostFailPoolAdd (room : bool) (now : Z) (pp : hostfail_pool) (s : mem) (fail_time : Z) : option hostfail_pool :=
  if room then Some (<[s := HostFail 0 (now + fail_time)]> pp) else None.
Definition HostFailPoolFind (p : hostfail_pool) (s : mem) : option hostfail := p !! s.
Definition HostFailPoolDel (p : hostfail_pool) (s : mem) : hostfail_pool := delete s p.
Definition HostFailPoolPurge (now : Z) (pp : hostfail_pool) : hostfail_pool :=
  filter (λ e, ¬ hf_expire e.2 <= now) pp.
(** the pool, [host_fail_purge_prev] *)
Definition HostFailPoolPurgeRateLimited (now : Z) (pp : hostfail_pool) (prev : Z) : hostfail_pool * Z :=
  if negb (prev =? now) then (HostFailPoolPurge now pp, now) else (pp, prev).

(** ** Port filters *)

Record port_filter : Type := PortFilter { pf_from : Z; pf_to : Z; pf_neg : bool }.
#[export] Instance port_filter_eta : Eta port_filter := λ f, PortFilter (pf_from f) (pf_to f) (pf_neg f).

Definition pf_in_range (port : Z) (pf : port_filter) : bool :=
  negb (port =? 0) &&
  xorb (((pf_from pf =? 0) && (pf_to pf =? 0)) || ((pf_from pf <=? port) && (port <=? pf_to pf))) (pf_neg pf).
Definition pf_is_empty (pf : port_filter) : bool :=
  negb (pf_neg pf) && (pf_from pf =? 0) && (pf_to pf =? 0).

(** [%u] of [sscanf]: blanks, a sign, digits; the number as an [unsigned int]
    and the rest *)
Fixpoint scan_digits (l : mem) (acc : option Z) : option Z * mem :=
  match l with
  | c :: l' => if isdigit (zb c) then scan_digits l' (Some (10 * default 0 acc + (zb c - 48))) else (acc, l)
  | [] => (acc, [])
  end.
Fixpoint scan_blanks (l : mem) : mem :=
  match l with c :: l' => if isspace (zb c) then scan_blanks l' else l | [] => [] end.
Definition scan_u (l : mem) : option (Z * mem) :=
  let l := scan_blanks l in
  let '(neg, l) := match l with
    | c :: l' => if zb c =? ch "-" then (true, l') else if zb c =? ch "+" then (false, l') else (false, l)
    | [] => (false, [])
    end in
  match scan_digits l None with
  | (Some v, rest) =>
      Some (u32 (if 2 ^ 64 <=? v then -1 else if neg : bool then - v else v), rest)
  | (None, _) => None
  end.

(** [pf] is what the caller's variable holds; the answer writes it *)
Definition pf_parse (s : mem) (pf : port_filter) : port_filter * bool :=
  if bool_decide (s = bytes_of "*") then (pf <| pf_from := 1 |> <| pf_to := 0xFFFF |>, true) else
  let '(pf, s) := match s with
    | c :: s' => if zb c =? ch "~" then (pf <| pf_neg := true |>, s') else (pf <| pf_neg := false |>, s)
    | [] => (pf <| pf_neg := false |>, [])
    end in
  let deny pf := if (pf_from pf =? 0) && (pf_to pf =? 0) then pf <| pf_neg := true |> else pf in
  match scan_u s with
  | None => (pf, false)
  | Some (v1, []) =>
      if 65535 <? v1 then (pf, false) else (deny (pf <| pf_to := v1 |> <| pf_from := v1 |>), true)
  | Some (v1, c :: s) =>
      if negb (zb c =? ch "-") then (pf, false) else
      match scan_u s with
      | Some (v2, []) =>
          if (65535 <? v1) || (65535 <? v2) || (v2 <? v1) then (pf, false)
          else (deny (pf <| pf_from := v1 |> <| pf_to := v2 |>), true)
      | _ => (pf, false)
      end
  end.

Definition port_filters : Type := list port_filter.
Definition port_filter_add (room : bool) (head : port_filters) (pf : port_filter) : option port_filters :=
  if room then Some (pf :: head) else None.
Definition port_filters_in_range (head : port_filters) (port : Z) : bool :=
  match head with [] => true | _ => existsb (pf_in_range port) head end.
Definition port_filters_deny_if_empty (room : bool) (garbage : port_filter) (head : port_filters)
  : option port_filters :=
  match head with
  | _ :: _ => Some head
  | [] => match pf_parse (bytes_of "0") garbage with
      | (pf, true) => port_filter_add room head pf
      | (_, false) => None
      end
  end.

(** ** The cache of host names by address *)

Record ip_cache_item : Type := IpCacheItem { ic_last : Z; ic_hostname : option mem; ic_hostname_is_ip : bool }.
#[export] Instance ip_cache_item_eta : Eta ip_cache_item := λ i,
  IpCacheItem (ic_last i) (ic_hostname i) (ic_hostname_is_ip i).
Record ip_cache : Type := IpCache { ipcache4 : gmap mem ip_cache_item; ipcache6 : gmap mem ip_cache_item }.
#[export] Instance ip_cache_eta : Eta ip_cache := λ c, IpCache (ipcache4 c) (ipcache6 c).

(** a destination: one of the two pointers, or neither *)
Inductive ip_dest : Type := In4 (a : mem) | In6 (a : mem) | InNone.
#[export] Instance ip_dest_eq_dec : EqDecision ip_dest.
Proof. solve_decision. Defined.

Section ip_cache.
Context (room : ip_cache → ip_dest → bool).

Definition ipcache_item_init (now : Z) : ip_cache_item := IpCacheItem now None false.
(** the item at an address *)
Definition ipcache_get (c : ip_cache) (a : ip_dest) : option ip_cache_item :=
  match a with In4 a => ipcache4 c !! a | In6 a => ipcache6 c !! a | InNone => None end.
Definition ipcache_set (c : ip_cache) (a : ip_dest) (i : ip_cache_item) : ip_cache :=
  match a with
  | In4 a => c <| ipcache4 := <[a := i]> (ipcache4 c) |>
  | In6 a => c <| ipcache6 := <[a := i]> (ipcache6 c) |>
  | InNone => c
  end.

(** [ipcache4Add] and [ipcache6Add]: found, or added *)
Definition ipcacheAdd (now : Z) (c : ip_cache) (a : ip_dest) : option (ip_cache * ip_cache_item) :=
  match ipcache_get c a with
  | Some i => Some (c, i)
  | None =>
      if room c a then Some (ipcache_set c a (ipcache_item_init now), ipcache_item_init now) else None
  end.
(** the cache and the item pointed to; [None]: the null pointer *)
Definition ipcacheTouch (now : Z) (c : ip_cache) (a : ip_dest) : ip_cache * option ip_cache_item :=
  match a with
  | InNone => (c, None)
  | _ =>
      match ipcacheAdd now c a with
      | None => (c, None)
      | Some (c, i) =>
          let i := i <| ic_last := now |> in
          (ipcache_set c a i, Some i)
      end
  end.

Definition ipcache4_purge (now lifetime : Z) (m : gmap mem ip_cache_item) : gmap mem ip_cache_item :=
  filter (λ e, ¬ ic_last e.2 + lifetime <= now) m.
Definition ipcache_purge (now lifetime : Z) (c : ip_cache) : ip_cache :=
  if negb (lifetime =? 0)
  then IpCache (ipcache4_purge now lifetime (ipcache4 c)) (ipcache4_purge now lifetime (ipcache6 c)) else c.
(** the cache, [ipcache_purge_prev] *)
Definition ipcachePurgeRateLimited (now lifetime : Z) (c : ip_cache) (prev : Z) : ip_cache * Z :=
  if negb (prev =? now) then (ipcache_purge now lifetime c, now) else (c, prev).
End ip_cache.
