(* ===== verification/TpFiles.v ===== *)
(** * tpws, list files: what hostlist.c and ipset.c share

    hostlist.c and ipset.c read text files, packed or not, into a pool of
    rules, keep them with the time and size they had, and read them again when
    those change.  The two files repeat the same code for two kinds of pool;
    here it is once, for a pool [P] with its null pointer [null] and the
    function [addpool] that takes one line.

    A file object is its place in the store of [params], which keeps the order
    of creation; the [LIST] starts with the last.  A profile's collection is
    the list of its files, the [LIST]'s head first.  [fs] is the file system
    at the moment of the call; [z_readfile] stands for zlib. *)

From Stdlib Require Import ZArith Lia Bool List.
From Stdlib Require Import Strings.Byte Strings.String Strings.Ascii.
From stdpp Require Import base tactics list numbers option.
From S2P Require Import Prelude CMem.

Record file_mod_sig : Type := FileModSig { mod_time : Z; mod_size : Z }.
#[export] Instance file_mod_sig_eq_dec : EqDecision file_mod_sig.
Proof. solve_decision. Defined.
Definition FILE_MOD_RESET : file_mod_sig := FileModSig 0 0.
Definition FILE_MOD_COMPARE (a b : file_mod_sig) : bool :=
  (mod_time a =? mod_time b) && (mod_size a =? mod_size b).

(** what [stat] answers and what can be read *)
Record file : Type := File { f_stat : option file_mod_sig; f_data : option mem }.
#[export] Instance file_eta : Eta file := λ f, File (f_stat f) (f_data f).

(** ** Lines *)

Definition is_eol (c : byte) : bool := (zb c =? 0) || (zb c =? 13) || (zb c =? 10).
(** up to the end of the line *)
Fixpoint until_eol (l : mem) : mem * mem :=
  match l with
  | [] => ([], [])
  | c :: l' => if is_eol c then ([], l) else let '(a, b) := until_eol l' in (c :: a, b)
  end.
Fixpoint skip_eols (l : mem) : mem :=
  match l with c :: l' => if is_eol c then skip_eols l' else l | [] => [] end.

(** [fgets (s, k + 1, F)]: the string, the rest of the file *)
Fixpoint fgets (k : nat) (l : mem) : mem * mem :=
  match k, l with
  | O, _ => ([], l)
  | _, [] => ([], [])
  | Datatypes.S k, c :: l => if zb c =? 10 then ([c], l) else let '(a, b) := fgets k l in (c :: a, b)
  end.
(** the bytes [strlen] counts *)
Fixpoint c_str (l : mem) : mem :=
  match l with c :: l' => if zb c =? 0 then [] else c :: c_str l' | [] => [] end.

Definition is_comment (c : byte) : bool :=
  (zb c =? ch "#") || (zb c =? ch ";") || (zb c =? ch "/") || (zb c =? 13) || (zb c =? 10).

Definition is_gzip (data : mem) : bool :=
  match data with a :: b :: _ => (zb a =? 0x1F) && (zb b =? 0x8B) | _ => false end.

(** ** Reading a file *)

Record list_file (P : Type) : Type := ListFile {
  lf_filename : option mem; lf_mod_sig : file_mod_sig; lf_pool : P
}.
Arguments ListFile {P}.
Arguments lf_filename {P}.
Arguments lf_mod_sig {P}.
Arguments lf_pool {P}.
#[export] Instance list_file_eta {P} : Eta (list_file P) := λ f,
  ListFile (lf_filename f) (lf_mod_sig f) (lf_pool f).

Section files.
Context {P : Type} (null : P).
Context (addpool : P → mem → res (P * mem * bool)) (line_size : nat) (z_readfile : mem → option mem).
Implicit Types (pool : P) (files : list (list_file P)) (fs : mem → file).

(** the loops over a file, unpacked or line by line *)
Definition zbuf_step (st : P * mem) : res (P * mem + P * bool) :=
  let '(pool, p) := st in
  match p with
  | [] => Ok (inr (pool, true))
  | _ => '(pool, p, ok) ← addpool pool p;
      Ok (if ok : bool then inl (pool, p) else inr (pool, false))
  end.
Definition fgets_step (st : P * mem) : res (P * mem + P * bool) :=
  let '(pool, F) := st in
  match F with
  | [] => Ok (inr (pool, true))
  | _ => let '(s, F) := fgets line_size F in
      '(pool, _, ok) ← addpool pool (c_str s);
      Ok (if ok : bool then inl (pool, F) else inr (pool, false))
  end.
Definition append_list fs pool (filename : mem) : res (P * bool) :=
  match f_data (fs filename) with
  | None => Ok (pool, false)
  | Some F =>
      if is_gzip F then
        match z_readfile F with
        | Some zbuf => loop (Datatypes.S (length zbuf)) zbuf_step (pool, zbuf)
        | None => Ok (pool, false)
        end
      else loop (Datatypes.S (length F)) fgets_step (pool, F)
  end.

(** ** Keeping up with the files *)

Definition load_list fs files (i : nat) : res (list (list_file P) * bool) :=
  match files !! i with
  | None => UB
  | Some hfile =>
      match lf_filename hfile with
      | None => Ok (files, true)
      | Some filename =>
          match f_stat (fs filename) with
          | None => Ok (files, true)
          | Some fsig =>
              if FILE_MOD_COMPARE (lf_mod_sig hfile) fsig then Ok (files, true) else
              '(pool, ok) ← append_list fs null filename;
              if ok : bool then Ok (<[i := hfile <| lf_pool := pool |> <| lf_mod_sig := fsig |>]> files, true)
              else Ok (<[i := hfile <| lf_pool := null |>]> files, false)
          end
      end
  end.

(** every file, whether one failed or not *)
Fixpoint load_lists fs files (ids : list nat) : res (list (list_file P) * bool) :=
  match ids with
  | [] => Ok (files, true)
  | i :: ids =>
      '(files, ok) ← load_list fs files i;
      '(files, rest) ← load_lists fs files ids;
      Ok (files, ok && rest)
  end.
(** the files of a collection, up to the first that fails *)
Fixpoint reload_lists fs files (c : list nat) : res (list (list_file P) * bool) :=
  match c with
  | [] => Ok (files, true)
  | i :: c =>
      '(files, ok) ← load_list fs files i;
      if ok : bool then reload_lists fs files c else Ok (files, false)
  end.

(** ** The stores *)

Definition files_order files : list nat := rev (seq 0 (length files)).

(** the store and the new file; [None]: out of memory *)
Definition files_add (room : bool) files (filename : option mem) : option (list (list_file P) * nat) :=
  if room then Some (files ++ [ListFile filename FILE_MOD_RESET null], length files) else None.
Definition named files (filename : mem) (i : nat) : Prop := (files !! i) ≫= lf_filename = Some filename.
#[export] Instance named_dec files filename i : Decision (named files filename i).
Proof. unfold named. apply _. Defined.
Definition files_search files (filename : mem) : option nat :=
  snd <$> list_find (named files filename) (files_order files).
Definition files_reset_modtime files : list (list_file P) := map (λ f, f <| lf_mod_sig := FILE_MOD_RESET |>) files.

Definition collection_add (room : bool) (c : list nat) (hfile : nat) : option (list nat) :=
  if room then Some (hfile :: c) else None.
Definition collection_search files (c : list nat) (filename : mem) : option nat :=
  snd <$> list_find (named files filename) c.

(** the pool of a file *)
Definition hfile_pool files (i : nat) : P :=
  match files !! i with Some f => lf_pool f | None => null end.

(** [room]: there is memory.  The files, the collection, the file *)
Definition register (room : bool) files (c : list nat) (filename : option mem)
  : option (list (list_file P) * list nat * nat) :=
  match filename with
  | Some name =>
      '(files, i) ← (match files_search files name with
        | Some i => Some (files, i)
        | None => files_add room files filename
        end);
      match collection_search files c name with
      | Some _ => Some (files, c, i)
      | None => c' ← collection_add room c i; Some (files, c', i)
      end
  | None =>
      '(files, i) ← files_add room files None;
      c' ← collection_add room c i;
      Some (files, c', i)
  end%stdpp.
End files.
