(* ===== verification/TpFilesSpec.v ===== *)
(** * tpws, list files: a file's lines are added one by one

    A text of lines, read line by line or unpacked at once, gives the pool
    that adding the lines one after another gives ([append_text]), whatever
    the pool is. *)

From Stdlib Require Import ZArith Lia Bool List.
From Stdlib Require Import Strings.Byte Strings.String Strings.Ascii.
From stdpp Require Import base tactics list numbers option gmap.
From S2P Require Import Prelude CMem TpFiles.

(** ** Texts *)

(** no control characters within a line, either line end *)
Definition line_ok (l : mem) : Prop := Forall (λ c, is_eol c = false) l.
Definition line_end (crlf : bool) : mem := if crlf then [x0d; x0a] else [x0a].
Definition text (ls : list (mem * bool)) : mem := concat (map (λ l, l.1 ++ line_end l.2) ls).

Lemma line_end_cases crlf : ∃ c e, line_end crlf = c :: e ∧ is_eol c = true ∧ is_comment c = true.
Proof. destruct crlf; by eexists _, _. Qed.

Lemma until_eol_line l c r : line_ok l → is_eol c = true → until_eol (l ++ c :: r) = (l, c :: r).
Proof.
  intros Hl Hc. induction Hl as [|x l Hx Hl IH]; simpl; [by rewrite Hc|]. by rewrite Hx, IH.
Qed.
Lemma skip_line_end crlf r : skip_eols (line_end crlf ++ r) = skip_eols r.
Proof. by destruct crlf. Qed.

Lemma text_cons l crlf ls : ∃ c m, text ((l, crlf) :: ls) = c :: m ∧ c :: m = l ++ line_end crlf ++ text ls.
Proof.
  unfold text. simpl. rewrite <- app_assoc. destruct l as [|x l]; [destruct crlf|]; by eexists _, _.
Qed.
Lemma length_text ls : (length ls <= length (text ls))%nat.
Proof.
  induction ls as [|[l crlf] ls IH]; [done|]. unfold text in *. simpl. rewrite !length_app.
  destruct crlf; simpl; lia.
Qed.

Lemma fgets_line l crlf r k :
  line_ok l → (length (l ++ line_end crlf) <= k)%nat → fgets k (l ++ line_end crlf ++ r) = (l ++ line_end crlf, r).
Proof.
  revert k. induction l as [|x l IH]; intros k Hl Hk.
  - destruct crlf; simpl in Hk; (destruct k as [|k]; [lia|]); [|done]. destruct k as [|k]; [lia|done].
  - apply Forall_cons in Hl as [Hx Hl]. destruct k as [|k]; [simpl in Hk; lia|]. cbn [app fgets].
    unfold is_eol in Hx. apply orb_false_iff in Hx as [_ Hx]. rewrite Hx.
    rewrite IH; [done|done|simpl in Hk; lia].
Qed.

Lemma c_str_line l crlf : line_ok l → c_str (l ++ line_end crlf) = l ++ line_end crlf.
Proof.
  induction 1 as [|x l Hx _ IH]; [by destruct crlf|]. simpl. rewrite IH.
  unfold is_eol in Hx. apply orb_false_iff in Hx as [Hx _]. apply orb_false_iff in Hx as [Hx _]. by rewrite Hx.
Qed.

(** blank lines are skipped together *)
Fixpoint strip (ls : list (mem * bool)) : list (mem * bool) :=
  match ls with ([], _) :: ls => strip ls | _ => ls end.
Lemma strip_text ls : Forall (λ l, line_ok l.1) ls → skip_eols (text ls) = text (strip ls).
Proof.
  induction 1 as [|[l crlf] ls Hl _ IH]; [done|]. destruct l as [|x l].
  - unfold text. simpl. by rewrite skip_line_end.
  - simpl in Hl. apply Forall_cons in Hl as [Hx _]. cbn [strip]. unfold text. simpl. by rewrite Hx.
Qed.
Lemma strip_sub ls : (length (strip ls) <= length ls)%nat ∧ ∀ Q : mem * bool → Prop, Forall Q ls → Forall Q (strip ls).
Proof.
  induction ls as [|[[|x l] crlf] ls [IH1 IH2]]; [done| |done]. split; [simpl; lia|].
  intros Q [_ H]%Forall_cons. by apply IH2.
Qed.

Definition short (k : nat) (l : mem * bool) : Prop := (length (l.1 ++ line_end l.2) <= k)%nat.

(** how a file comes: as it is, with lines that fit the buffer, or packed *)
Definition file_text (k : nat) (z_readfile : mem → option mem) (f : file) (ls : list (mem * bool)) : Prop :=
  (f_data f = Some (text ls) ∧ is_gzip (text ls) = false ∧ Forall (short k) ls)
  ∨ ∃ z, f_data f = Some z ∧ is_gzip z = true ∧ z_readfile z = Some (text ls).

(** ** Reading *)

Section append.
Context {P : Type} (addpool : P → mem → res (P * mem * bool)) (k : nat) (z_readfile : mem → option mem).
(** what a line does to a pool that has room for [n] more lines *)
Context (rule : P → mem → P) (room : nat → P → Prop).
Context (Hblank : ∀ pool, rule pool [] = pool).
Context (Hroom : ∀ n m pool, (m <= n)%nat → room n pool → room m pool).
Context (Hrule : ∀ n pool l crlf r, room (Datatypes.S n) pool → line_ok l →
  addpool pool (l ++ line_end crlf ++ r) = Ok (rule pool l, skip_eols r, true) ∧ room n (rule pool l)).

Lemma fgets_loop ls : ∀ pool fuel,
  Forall (λ l, line_ok l.1 ∧ short k l) ls → room (length ls) pool → (length ls < fuel)%nat →
  loop fuel (fgets_step addpool k) (pool, text ls) = Ok (foldl rule pool (map fst ls), true)
  ∧ room 0 (foldl rule pool (map fst ls)).
Proof.
  induction ls as [|[l crlf] ls IH]; intros pool fuel Hls Hr Hf; (destruct fuel as [|fuel]; [simpl in Hf; lia|]);
    rewrite loop_S; [done|].
  apply Forall_cons in Hls as [[Hl Hs] Hls]. destruct (text_cons l crlf ls) as (c & m & -> & Em).
  cbn [fgets_step]. rewrite Em, fgets_line, c_str_line by done. rewrite <- (app_nil_r (line_end crlf)) at 1.
  destruct (Hrule _ pool l crlf [] Hr Hl) as [E Hr']. rewrite E, !bind_Ok. apply IH; [done|done|simpl in Hf; lia].
Qed.

Lemma strip_rules ls : ∀ pool, foldl rule pool (map fst (strip ls)) = foldl rule pool (map fst ls).
Proof.
  induction ls as [|[[|x l] crlf] ls IH]; intros pool; [done| |done]. cbn [strip map foldl fst]. by rewrite Hblank.
Qed.

Lemma zbuf_loop n : ∀ ls pool fuel,
  (length ls <= n)%nat → Forall (λ l, line_ok l.1) ls → room (length ls) pool → (length ls < fuel)%nat →
  loop fuel (zbuf_step addpool) (pool, text ls) = Ok (foldl rule pool (map fst ls), true)
  ∧ room 0 (foldl rule pool (map fst ls)).
Proof.
  induction n as [|n IH]; intros ls pool fuel Hn Hls Hr Hf; (destruct fuel as [|fuel]; [lia|]);
    (destruct ls as [|[l crlf] ls]; [by rewrite loop_S|]); simpl in Hn, Hf; [lia|]. rewrite loop_S.
  apply Forall_cons in Hls as [Hl Hls]. destruct (text_cons l crlf ls) as (c & m & -> & Em).
  destruct (Hrule _ pool l crlf (text ls) Hr Hl) as [E Hr'].
  cbn [zbuf_step]. rewrite Em, E, !bind_Ok. rewrite strip_text by done.
  destruct (strip_sub ls) as [Hs1 Hs2].
  destruct (IH (strip ls) (rule pool l) fuel) as [E' R'];
    [lia|by apply Hs2|by apply (Hroom _ _ _ Hs1)|lia|]. rewrite strip_rules in E', R'. done.
Qed.

Lemma append_text fs pool filename ls :
  Forall (λ l, line_ok l.1) ls → file_text k z_readfile (fs filename) ls → room (length ls) pool →
  append_list addpool k z_readfile fs pool filename = Ok (foldl rule pool (map fst ls), true)
  ∧ room 0 (foldl rule pool (map fst ls)).
Proof.
  intros Hls [(E & Eg & Hs)|(z & E & Eg & Ez)] Hr; unfold append_list; rewrite E, Eg; [|rewrite Ez];
    pose proof (length_text ls).
  - apply fgets_loop; [|done|lia]. by apply Forall_and.
  - by apply (zbuf_loop (length ls)); [|done|done|lia].
Qed.
End append.

(** ** Reading any file ends

    whatever its bytes are, when adding a line takes something of the text
    and fits into a room that shrinks with it. *)
Lemma skip_eols_length l : (length (skip_eols l) <= length l)%nat.
Proof. induction l as [|c l IH]; simpl; [done|]. destruct (is_eol c); simpl; lia. Qed.
Lemma next_line_length l : l ≠ [] → (length (skip_eols (until_eol l).2) < length l)%nat.
Proof.
  induction l as [|c l IH]; [done|]. intros _. simpl. destruct (is_eol c) eqn:Ec; simpl.
  - rewrite Ec. pose proof (skip_eols_length l). lia.
  - destruct (until_eol l) as [a r] eqn:El. simpl in *. destruct l as [|d l]; [by injection El as <- <-; simpl; lia|].
    specialize (IH ltac:(done)). lia.
Qed.

Lemma fgets_spec j l : ∃ s rest, fgets j l = (s, rest) ∧ l = s ++ rest ∧ ((0 < j)%nat → l ≠ [] → s ≠ []).
Proof.
  revert l. induction j as [|j IH]; intros l; simpl; [by exists [], l; split_and!; [|..|lia]|].
  destruct l as [|c l]; [by exists [], []|]. destruct (zb c =? 10); [by exists [c], l|].
  destruct (IH l) as (s & rest & -> & -> & _). by exists (c :: s), rest.
Qed.

Section total.
Context {P : Type} (null : P) (addpool : P → mem → res (P * mem * bool)) (k : nat) (z_readfile : mem → option mem).
Context (room : nat → P → Prop).
Context (Hk : (0 < k)%nat).
Context (Hroom : ∀ n m pool, (m <= n)%nat → room n pool → room m pool).
Context (Hadd : ∀ n pool l, room (Datatypes.S n) pool → wp (addpool pool l) (λ '(pool', rest, ok),
  room n pool' ∧ (ok = true → l ≠ [] → (length rest < length l)%nat))).
Implicit Types (files : list (list_file P)) (fs : mem → file).

Lemma fgets_total l : ∀ pool fuel, room (length l) pool → (length l < fuel)%nat →
  wp (loop fuel (fgets_step addpool k) (pool, l)) (λ '(pool', _), room 0 pool').
Proof.
  intros pool fuel Hr Hf. apply (wp_loop (λ '(pool, l), room (length l) pool) (λ '(_, l), Z.of_nat (length l)));
    [intros [??]; lia| |done|lia].
  clear l pool fuel Hr Hf. intros [pool l] Hr. unfold fgets_step. destruct l as [|c l]; [done|].
  destruct (fgets_spec k (c :: l)) as (s & rest & -> & El & Hs). specialize (Hs Hk ltac:(done)).
  destruct s as [|x s]; [done|]. apply (f_equal length) in El. rewrite length_app in El. simpl in El.
  wp_use (Hadd (length rest)); [eapply Hroom; [|exact Hr]; simpl; lia|].
  intros [[pool' r] ok] [Hr' _]. destruct ok; simpl; [split; [done|lia]|]. eapply Hroom; [|exact Hr']. lia.
Qed.

Lemma zbuf_total l : ∀ pool fuel, room (length l) pool → (length l < fuel)%nat →
  wp (loop fuel (zbuf_step addpool) (pool, l)) (λ '(pool', _), room 0 pool').
Proof.
  intros pool fuel Hr Hf. apply (wp_loop (λ '(pool, l), room (length l) pool) (λ '(_, l), Z.of_nat (length l)));
    [intros [??]; lia| |done|lia].
  clear l pool fuel Hr Hf. intros [pool l] Hr. unfold zbuf_step. destruct l as [|c l]; [done|].
  wp_use (Hadd (length l)); [exact Hr|]. intros [[pool' r] ok] [Hr' Hl]. destruct ok; simpl.
  - specialize (Hl eq_refl ltac:(done)). simpl in Hl. split; [eapply Hroom; [|exact Hr']; lia|lia].
  - eapply Hroom; [|exact Hr']. lia.
Qed.

(** how long the text of a file is *)
Definition text_length (f : file) : nat :=
  match f_data f with
  | Some F => if is_gzip F then match z_readfile F with Some z => length z | None => O end else length F
  | None => O
  end.

Lemma append_total fs pool filename :
  room (text_length (fs filename)) pool →
  wp (append_list addpool k z_readfile fs pool filename) (λ '(pool', _), room 0 pool').
Proof.
  unfold text_length, append_list. destruct (f_data (fs filename)) as [F|]; [|done].
  destruct (is_gzip F); [destruct (z_readfile F); [|done]|]; intros Hr; [apply zbuf_total|apply fgets_total]; (done || lia).
Qed.

(** the store: the files keep their names, the pools stay in order *)
Definition same_names files files' : Prop := lf_filename <$> files' = lf_filename <$> files.
Definition pools_ok files : Prop := Forall (λ f, room 0 (lf_pool f)) files.
Definition fits_memory fs files : Prop :=
  Forall (λ f, ∀ name, lf_filename f = Some name → room (text_length (fs name)) null) files.

Lemma same_names_length files files' : same_names files files' → length files' = length files.
Proof. intros H. apply (f_equal length) in H. by rewrite !length_fmap in H. Qed.
Lemma same_names_lookup files files' i f :
  same_names files files' → files !! i = Some f → ∃ f', files' !! i = Some f' ∧ lf_filename f' = lf_filename f.
Proof.
  intros H Hf. apply (f_equal (.!! i)) in H. rewrite !list_lookup_fmap, Hf in H.
  destruct (files' !! i) as [f'|]; [|done]. injection H as H. by exists f'.
Qed.
Lemma same_names_insert files i f f' :
  files !! i = Some f → lf_filename f' = lf_filename f → same_names files (<[i := f']> files).
Proof.
  intros Hf Hn. unfold same_names. change (lf_filename <$> <[i := f']> files = lf_filename <$> files).
  rewrite list_fmap_insert, Hn. apply list_insert_id. by rewrite list_lookup_fmap, Hf.
Qed.
Lemma fits_memory_names fs files files' : same_names files files' → fits_memory fs files → fits_memory fs files'.
Proof.
  unfold same_names, fits_memory. intros Hn.
  rewrite <- (Forall_fmap lf_filename (λ o, ∀ name, o = Some name → room (text_length (fs name)) null) files').
  rewrite <- (Forall_fmap lf_filename (λ o, ∀ name, o = Some name → room (text_length (fs name)) null) files).
  by rewrite Hn.
Qed.

Lemma load_list_total fs files i :
  (i < length files)%nat → pools_ok files → fits_memory fs files →
  wp (load_list null addpool k z_readfile fs files i) (λ '(files', _), same_names files files' ∧ pools_ok files').
Proof.
  intros Hi Hp Hm. unfold load_list. destruct (lookup_lt_is_Some_2 files i Hi) as [f Ef]. rewrite Ef.
  destruct (lf_filename f) as [name|] eqn:En; [|done]. destruct (f_stat (fs name)) as [sig|]; [|done].
  wp_step; [done|]. pose proof (Forall_lookup_1 _ _ _ _ Hm Ef name En) as Hr.
  wp_use append_total; [exact Hr|]. intros [pool ok] Hp'.
  assert (H0 : room 0 null) by (eapply Hroom; [|exact Hr]; lia).
  destruct ok; simpl; (split; [by eapply same_names_insert|]); by apply Forall_insert.
Qed.

Lemma reload_lists_total fs c : ∀ files,
  Forall (λ i, (i < length files)%nat) c → pools_ok files → fits_memory fs files →
  wp (reload_lists null addpool k z_readfile fs files c) (λ '(files', _), same_names files files' ∧ pools_ok files').
Proof.
  induction c as [|i c IH]; intros files Hc Hp Hm; [done|]. apply Forall_cons in Hc as [Hi Hc]. cbn [reload_lists].
  wp_use load_list_total; [done..|]. intros [files' ok] [Hn Hp']. destruct ok; [|done].
  eapply wp_mono; [apply IH; [by rewrite (same_names_length _ _ Hn)|done|by eapply fits_memory_names]|].
  intros [files'' ok] [Hn' Hp'']. split; [by unfold same_names in *; etransitivity|done].
Qed.

Lemma load_lists_total fs ids : ∀ files,
  Forall (λ i, (i < length files)%nat) ids → pools_ok files → fits_memory fs files →
  wp (load_lists null addpool k z_readfile fs files ids) (λ '(files', _), same_names files files' ∧ pools_ok files').
Proof.
  induction ids as [|i ids IH]; intros files Hc Hp Hm; [done|]. apply Forall_cons in Hc as [Hi Hc]. cbn [load_lists].
  wp_use load_list_total; [done..|]. intros [files' ok] [Hn Hp'].
  wp_use IH; [by rewrite (same_names_length _ _ Hn)|done|by eapply fits_memory_names|].
  intros [files'' rest] [Hn' Hp'']. split; [by unfold same_names in *; etransitivity|done].
Qed.
End total.

Lemma order_in {P} (files : list (list_file P)) : Forall (λ i, (i < length files)%nat) (files_order files).
Proof. unfold files_order. apply Forall_rev, Forall_forall. intros i Hi%elem_of_seq. lia. Qed.
Lemma reset_names {P} (files : list (list_file P)) : same_names files (files_reset_modtime files).
Proof. unfold same_names, files_reset_modtime. rewrite <- list_fmap_compose. by apply list_fmap_ext. Qed.
Lemma reset_pools {P} (room : nat → P → Prop) (files : list (list_file P)) : pools_ok room files → pools_ok room (files_reset_modtime files).
Proof. unfold pools_ok, files_reset_modtime. intros H. apply Forall_map. eapply Forall_impl; [exact H|]. done. Qed.
