(* ===== verification/TpHostlist.v ===== *)
(** * tpws, host lists: native/tpws/hostlist.c

    A list is a file of names, one a line; a name stands for itself and every
    name below it, with a [^] before it for itself alone.  A profile has lists
    that include and lists that exclude.  Files are read again when their
    time or size has changed, before every check ([TpFiles]). *)

From Stdlib Require Import ZArith Lia Bool List.
From Stdlib Require Import Strings.Byte Strings.String Strings.Ascii.
From stdpp Require Import base tactics list numbers option countable gmap.
From S2P Require Import Prelude CMem TpPools TpFiles.

Notation hostlist_file := (list_file hostlist_pool).
Notation hostlist_files := (list (list_file hostlist_pool)).
Notation hostlist_collection := (list nat).

Definition lower (b : byte) : byte := bz (tolower (zb b)).

(** [PROFILE_HOSTLISTS_EMPTY] asks this of both collections of a profile *)
Definition hostlist_collection_is_empty (files : hostlist_files) (c : hostlist_collection) : bool :=
  forallb (λ i, bool_decide (hfile_pool ∅ files i = ∅)) c.

Section hostlist.
Context (alloc : hostlist_pool → mem → bool) (z_readfile : mem → option mem).
Implicit Types (hostlist : hostlist_pool) (files : hostlist_files) (fs : mem → file) (host : mem).

(** [l] is what lies between [*s] and [end]; where nothing does the callers
    have a terminating zero there.  The list, what is left, success *)
Definition addpool hostlist (l : mem) : res (hostlist_pool * mem * bool) :=
  let first := match l with c :: _ => c | [] => x00 end in
  if is_comment first then Ok (hostlist, skip_eols (until_eol l).2, true)
  else
    let '(l, flags) := if zb first =? ch "^" then (tail l, HOSTLIST_POOL_FLAG_STRICT_MATCH) else (l, 0) in
    let '(name, rest) := until_eol l in
    let '(hostlist, ok) := HostlistPoolAddStrLen alloc hostlist (map lower name) flags in
    Ok (if ok : bool then (hostlist, skip_eols rest, true) else (HostlistPoolDestroy hostlist, rest, false)).

Definition AppendHostlistItem hostlist (s : mem) : res (hostlist_pool * bool) :=
  '(hostlist, _, ok) ← addpool hostlist s; Ok (hostlist, ok).

(** [char s[256]] *)
Definition AppendHostList fs hostlist (filename : mem) : res (hostlist_pool * bool) :=
  append_list addpool 255 z_readfile fs hostlist filename.
Definition LoadHostList fs files (i : nat) : res (hostlist_files * bool) :=
  load_list ∅ addpool 255 z_readfile fs files i.
Definition LoadHostLists fs files : res (hostlist_files * bool) :=
  load_lists ∅ addpool 255 z_readfile fs files (files_order files).

(** an impossible name in a list that is empty *)
Definition NonEmptyHostlist hostlist : hostlist_pool * bool :=
  if bool_decide (hostlist = ∅) then HostlistPoolAddStrLen alloc hostlist (bytes_of "@&()") 0 else (hostlist, true).

(** [autos]: the profiles' [hostlist_auto] *)
Definition MakeAutolistsNonEmpty (autos : list nat) files : hostlist_files :=
  foldl (λ files i, alter (λ f, f <| lf_pool := (NonEmptyHostlist (lf_pool f)).1 |>) i files) files autos.

Definition LoadAllHostLists (autos : list nat) fs files : res (hostlist_files * bool) :=
  '(files, ok) ← LoadHostLists fs files;
  Ok (if ok : bool then (MakeAutolistsNonEmpty autos files, true) else (files, false)).

(** ** Looking a name up *)

(** behind the first dot *)
Fixpoint strchr_dot (p : mem) : option mem :=
  match p with
  | [] => None
  | c :: p => if zb c =? ch "." then Some p else strchr_dot p
  end.
Definition search_step hostlist (no_match_subdomains : bool) (st : mem * bool) : res (mem * bool + bool) :=
  let '(p, bHostFull) := st in
  let positive := match HostlistPoolGetStr hostlist p with
    | Some flags => negb (has flags HOSTLIST_POOL_FLAG_STRICT_MATCH && negb bHostFull)
    | None => false
    end in
  if positive then Ok (inr true) else
  if no_match_subdomains then Ok (inr false) else
  Ok (match strchr_dot p with Some p => inl (p, false) | None => inr false end).
Definition SearchHostList hostlist host (no_match_subdomains : bool) : res bool :=
  if bool_decide (hostlist = ∅) then Ok false
  else loop (Datatypes.S (length host)) (search_step hostlist no_match_subdomains) (host, true).

(** ** The lists of a profile *)

Definition HostlistsReloadCheck (autos : list nat) fs files (c : hostlist_collection) : res (hostlist_files * bool) :=
  '(files, ok) ← reload_lists ∅ addpool 255 z_readfile fs files c;
  Ok (if ok : bool then (MakeAutolistsNonEmpty autos files, true) else (files, false)).
(** of the including, then of the excluding lists *)
Definition HostlistsReloadCheckForProfile (autos : list nat) fs files (incl excl : hostlist_collection)
  : res (hostlist_files * bool) :=
  '(files, ok) ← HostlistsReloadCheck autos fs files incl;
  if ok : bool then HostlistsReloadCheck autos fs files excl else Ok (files, false).

Fixpoint search_any files (c : hostlist_collection) host (no_match_subdomains : bool) : res bool :=
  match c with
  | [] => Ok false
  | i :: c =>
      r ← SearchHostList (hfile_pool ∅ files i) host no_match_subdomains;
      if r : bool then Ok true else search_any files c host no_match_subdomains
  end.

(** once the lists are up to date: the answer, [*excluded] *)
Definition lists_check files (incl excl : hostlist_collection) host (no_match_subdomains : bool) : res (bool * bool) :=
  out ← search_any files excl host no_match_subdomains;
  if out : bool then Ok (false, true) else
  if hostlist_collection_is_empty files incl then Ok (true, false) else
  r ← search_any files incl host no_match_subdomains;
  Ok (r, false).

(** the lists, the answer, [*excluded] *)
Definition HostlistCheck (autos : list nat) fs files (incl excl : hostlist_collection) host
    (no_match_subdomains bSkipReloadCheck : bool) : res (hostlist_files * bool * bool) :=
  '(files, ok) ← (if bSkipReloadCheck then Ok (files, true)
    else HostlistsReloadCheckForProfile autos fs files incl excl);
  if negb ok then Ok (files, false, false) else
  '(r, excluded) ← lists_check files incl excl host no_match_subdomains;
  Ok (files, r, excluded).

(** [bExclude] has chosen the collection *)
Definition RegisterHostlist (room : bool) files (c : hostlist_collection) (filename : option mem)
  : option (hostlist_files * hostlist_collection * nat) := register ∅ room files c filename.
End hostlist.
