(* ===== verification/TpHostlistSpec.v ===== *)
(** * tpws, host lists: what a list of names matches

    A file of lines makes the pool of its rules ([append_rules]); a name
    matches when it, or a name above it, is a rule ([search_spec]); together
    they say what a host list file means ([host_file_matches]).  The check of a
    profile puts the excluding lists first ([lists_check_spec]). *)

From Stdlib Require Import ZArith Lia Bool List.
From Stdlib Require Import Strings.Byte Strings.String Strings.Ascii.
From stdpp Require Import base tactics list numbers option countable gmap.
From S2P Require Import Prelude CMem TpPools TpFiles TpFilesSpec TpHostlist.

(** ** Looking a name up *)

Definition strict (flags : Z) : bool := has flags HOSTLIST_POOL_FLAG_STRICT_MATCH.

(** [host] is a name below [n] *)
Definition below (host n : mem) : Prop := ∃ pre, host = pre ++ bytes_of "." ++ n.

(** the pool holds [host], or a name above it that is not strict *)
Definition pool_matches (pool : hostlist_pool) (nosub : bool) (host : mem) : Prop :=
  is_Some (pool !! host)
  ∨ nosub = false ∧ ∃ n flags, below host n ∧ pool !! n = Some flags ∧ strict flags = false.

(** the same from some label on, [full] for the whole name *)
Definition matches_from (pool : hostlist_pool) (nosub : bool) (p : mem) (full : bool) : Prop :=
  (∃ flags, pool !! p = Some flags ∧ (strict flags = true → full = true))
  ∨ nosub = false ∧ ∃ n flags, below p n ∧ pool !! n = Some flags ∧ strict flags = false.

Lemma pool_matches_from pool nosub host : matches_from pool nosub host true ↔ pool_matches pool nosub host.
Proof.
  unfold matches_from, pool_matches. split; (intros [H|H]; [left|by right]).
  - destruct H as (fl & H & _). by eexists.
  - destruct H as [fl H]. by exists fl.
Qed.

Lemma zb_dot c : zb c = ch "." ↔ c = x2e.
Proof. split; [|by intros ->]. change (ch ".") with (zb x2e). apply zb_inj. Qed.

Lemma strchr_dot_spec p :
  match strchr_dot p with
  | Some q => ∃ a, p = a ++ bytes_of "." ++ q ∧ (length q < length p)%nat ∧ ∀ n, below p n ↔ n = q ∨ below q n
  | None => ∀ n, ¬ below p n
  end.
Proof.
  induction p as [|c p IH]; [by intros n [[|? ?] ?]|]. simpl.
  destruct (Z.eqb_spec (zb c) (ch ".")) as [->%zb_dot|Hc].
  - exists []. split; [done|]. split; [simpl; lia|]. intros n. split.
    + intros [[|b pre] E]; [left|right]; injection E; [done|]. intros E' _. by exists pre.
    + intros [->|[pre ->]]; [by exists []|by exists (x2e :: pre)].
  - assert (Hb : ∀ n, below (c :: p) n ↔ below p n).
    { intros n. split; [|intros [pre ->]; by exists (c :: pre)].
      intros [[|b pre] E]; injection E; [intros _ ->; by destruct Hc|]. intros E' _. by exists pre. }
    destruct (strchr_dot p) as [q|].
    + destruct IH as (a & -> & Hl & Hq). exists (c :: a). split; [done|]. split; [simpl in *; lia|].
      intros n. rewrite Hb. apply Hq.
    + intros n. rewrite Hb. apply IH.
Qed.

(** the test at [p] *)
Definition hit (pool : hostlist_pool) (p : mem) (full : bool) : bool :=
  match pool !! p with Some flags => negb (strict flags && negb full) | None => false end.

Lemma hit_spec pool p full :
  hit pool p full = true ↔ ∃ flags, pool !! p = Some flags ∧ (strict flags = true → full = true).
Proof.
  unfold hit. destruct (pool !! p) as [fl|]; [|split; [done|by intros (? & ? & _)]].
  rewrite negb_true_iff, andb_false_iff, negb_false_iff. split.
  - intros H. exists fl. split; [done|]. intros Hs. destruct H as [H|H]; [congruence|done].
  - intros (? & [= <-] & H). destruct (strict fl); [right; by apply H|by left].
Qed.

Lemma matches_next pool nosub p full :
  hit pool p full = false →
  matches_from pool nosub p full ↔
    nosub = false ∧ match strchr_dot p with Some q => matches_from pool nosub q false | None => False end.
Proof.
  intros Hh. assert (Hno : ¬ ∃ fl, pool !! p = Some fl ∧ (strict fl = true → full = true)).
  { rewrite <- hit_spec. by rewrite Hh. }
  unfold matches_from at 1. pose proof (strchr_dot_spec p) as Hd. destruct (strchr_dot p) as [q|].
  - destruct Hd as (_ & _ & _ & Hq). split.
    + intros [H|(-> & n & fl & Hn & E & Hs)]; [done|]. split; [done|].
      apply Hq in Hn as [->|Hn]; [left; exists fl; by rewrite Hs|right]. split; [done|]. by exists n, fl.
    + intros [-> [(fl & E & H)|[_ (n & fl & Hn & H)]]]; right; (split; [done|]).
      * exists q, fl. split; [apply Hq; by left|]. split; [done|]. destruct (strict fl); [by specialize (H eq_refl)|done].
      * exists n, fl. split; [apply Hq; by right|done].
  - split; [|by intros [_ []]]. intros [H|(_ & n & fl & Hn & _)]; [done|]. by destruct (Hd n).
Qed.

Lemma search_spec pool host nosub :
  wp (SearchHostList pool host nosub) (λ b, b = true ↔ pool_matches pool nosub host).
Proof.
  unfold SearchHostList. case_bool_decide as He.
  { subst. simpl. split; [done|]. unfold pool_matches.
    intros [[? H]|(_ & n & fl & _ & H & _)]; by rewrite lookup_empty in H. }
  apply (wp_loop (λ '(p, full), matches_from pool nosub p full ↔ pool_matches pool nosub host)
    (λ '(p, _), len p)).
  - intros [p full] _. apply len_nonneg.
  - intros [p full] HI. unfold search_step, HostlistPoolGetStr. cbv zeta.
    change (match pool !! p with Some _ => _ | None => false end) with (hit pool p full).
    destruct (hit pool p full) eqn:Eh; simpl.
    { split; [|done]. intros _. apply HI. left. by apply hit_spec. }
    rewrite (matches_next _ _ _ _ Eh) in HI. destruct nosub; simpl.
    { split; [done|]. intros [? _]%HI. done. }
    pose proof (strchr_dot_spec p) as Hd. destruct (strchr_dot p) as [q|]; simpl.
    + destruct Hd as (_ & _ & Hl & _). split; [|unfold len in *; lia]. rewrite <- HI. tauto.
    + split; [done|]. by intros [_ []]%HI.
  - apply pool_matches_from.
  - unfold len. lia.
Qed.

(** ** The rules of a file *)

(** what a line says: nothing, or a name and its flags *)
Definition rule_of (line : mem) : option (mem * Z) :=
  match line with
  | [] => None
  | c :: l =>
      if is_comment c then None
      else if zb c =? ch "^" then Some (map lower l, HOSTLIST_POOL_FLAG_STRICT_MATCH)
      else Some (map lower line, 0)
  end.
(** the first rule of a name counts *)
Definition add_rule (pool : hostlist_pool) (r : option (mem * Z)) : hostlist_pool :=
  match r with
  | Some (n, f) => match pool !! n with Some _ => pool | None => <[n := f]> pool end
  | None => pool
  end.
Fixpoint first_rule (rs : list (option (mem * Z))) (n : mem) : option Z :=
  match rs with
  | [] => None
  | Some (m, f) :: rs => if decide (m = n) then Some f else first_rule rs n
  | None :: rs => first_rule rs n
  end.

Lemma lookup_rules rs n : ∀ pool : hostlist_pool,
  foldl add_rule pool rs !! n = match pool !! n with Some f => Some f | None => first_rule rs n end.
Proof.
  induction rs as [|[[m f]|] rs IH]; intros pool; simpl.
  - by destruct (pool !! n).
  - rewrite IH. destruct (decide (m = n)) as [->|Hne].
    + destruct (pool !! n) eqn:E; [by rewrite E|by rewrite lookup_insert_eq].
    + destruct (pool !! m); [done|]. by rewrite lookup_insert_ne.
  - apply IH.
Qed.

Definition rules (ls : list mem) : list (option (mem * Z)) := map rule_of ls.

Lemma addpool_line (alloc : hostlist_pool → mem → bool) (pool : hostlist_pool) l crlf r :
  (∀ p s, alloc p s = true) → line_ok l →
  addpool alloc pool (l ++ line_end crlf ++ r) = Ok (add_rule pool (rule_of l), skip_eols r, true).
Proof.
  intros Halloc Hl. destruct (line_end_cases crlf) as (c & e & Ee & Hc & Hcm). unfold addpool.
  assert (Hadd : ∀ n f, HostlistPoolAddStrLen alloc pool n f = (add_rule pool (Some (n, f)), true)).
  { intros n f. unfold HostlistPoolAddStrLen. rewrite Halloc. simpl. by destruct (pool !! n). }
  rewrite <- (skip_line_end crlf r), Ee. cbn [app].
  destruct l as [|x l]; cbn [app].
  { rewrite Hcm. cbn [until_eol rule_of add_rule]. by rewrite Hc. }
  pose proof Hl as [Hx Hl']%Forall_cons. cbn [rule_of].
  destruct (is_comment x) eqn:Ex.
  { cbn [until_eol]. rewrite Hx, (until_eol_line l c) by done. done. }
  destruct (zb x =? ch "^"); cbn [tail].
  - rewrite (until_eol_line l c), Hadd by done. done.
  - change (x :: l ++ c :: e ++ r) with ((x :: l) ++ c :: e ++ r).
    rewrite (until_eol_line (x :: l) c), Hadd by done. done.
Qed.

Lemma append_rules (alloc : hostlist_pool → mem → bool) (z_readfile : mem → option mem) (fs : mem → file) (pool : hostlist_pool) (filename : mem) ls :
  (∀ p s, alloc p s = true) → Forall (λ l, line_ok l.1) ls → file_text 255 z_readfile (fs filename) ls →
  AppendHostList alloc z_readfile fs pool filename = Ok (foldl add_rule pool (rules (map fst ls)), true).
Proof.
  intros Ha Hls Hf. unfold rules, AppendHostList.
  replace (foldl add_rule pool (map rule_of (map fst ls)))
    with (foldl (λ p l, add_rule p (rule_of l)) pool (map fst ls)).
  - eapply (append_text (addpool alloc) 255 z_readfile _ (λ _ _, True)); try done.
    intros n p l crlf r _ Hl. split; [|done]. by apply addpool_line.
  - generalize (map fst ls). intros l. revert pool. induction l as [|x l IH]; intros pool; [done|apply IH].
Qed.

(** what the rules say of a name *)
Definition rules_match (rs : list (option (mem * Z))) (nosub : bool) (host : mem) : Prop :=
  is_Some (first_rule rs host)
  ∨ nosub = false ∧ ∃ n flags, below host n ∧ first_rule rs n = Some flags ∧ strict flags = false.

Lemma append_matches (alloc : hostlist_pool → mem → bool) (z_readfile : mem → option mem)
    (fs : mem → file) (filename : mem) (ls : list (mem * bool)) :
  (∀ p s, alloc p s = true) → Forall (λ l, line_ok l.1) ls → file_text 255 z_readfile (fs filename) ls →
  ∃ pool, AppendHostList alloc z_readfile fs ∅ filename = Ok (pool, true)
    ∧ ∀ host nosub, ∃ b, SearchHostList pool host nosub = Ok b ∧ (b = true ↔ rules_match (rules (map fst ls)) nosub host).
Proof.
  intros Ha Hls Hf. exists (foldl add_rule ∅ (rules (map fst ls))). split; [by apply append_rules|]. intros host nosub.
  pose proof (search_spec (foldl add_rule ∅ (rules (map fst ls))) host nosub) as Hs.
  destruct (SearchHostList _ host nosub) as [b| |]; [|done|done]. exists b. split; [done|]. etransitivity; [exact Hs|].
  unfold pool_matches, rules_match. setoid_rewrite lookup_rules. by setoid_rewrite lookup_empty.
Qed.

(** C24: with enough memory a host list file means its lines: a name matches when a line says it,
    or says a name above it and no [^]; case does not count, comments and blank
    lines do not, and of two lines with one name the first counts.  Loading and
    looking up end and stay inside their strings.  The file is packed, or its
    lines have at most 255 bytes with their ends ([file_text], [short]): a
    longer line of a plain file comes in pieces, and each is a name of its own
    ([long_line_two_names]). *)
Theorem host_file_matches (alloc : hostlist_pool → mem → bool) (z_readfile : mem → option mem)
    (fs : mem → file) (filename : mem) (ls : list (mem * bool)) :
  (∀ p s, alloc p s = true) → Forall (λ l, line_ok l.1) ls → file_text 255 z_readfile (fs filename) ls →
  ∃ pool, AppendHostList alloc z_readfile fs ∅ filename = Ok (pool, true)
    ∧ ∀ host nosub, ∃ b, SearchHostList pool host nosub = Ok b ∧ (b = true ↔ rules_match (rules (map fst ls)) nosub host).
Proof. apply append_matches. Qed.

(** ** The lists of a profile *)

Definition any_matches (files : hostlist_files) (c : hostlist_collection) (nosub : bool) (host : mem) : Prop :=
  ∃ i, i ∈ c ∧ pool_matches (hfile_pool ∅ files i) nosub host.

Lemma search_any_spec files c host nosub :
  wp (search_any files c host nosub) (λ b, b = true ↔ any_matches files c nosub host).
Proof.
  induction c as [|i c IH]; cbn [search_any].
  { simpl. split; [done|]. by intros (? & ?%elem_of_nil & _). }
  wp_use (search_spec (hfile_pool ∅ files i) host nosub). intros b Hb. unfold any_matches.
  destruct b; [simpl; split; [|done]; intros _; exists i; split; [by left|by apply Hb]|].
  eapply wp_mono; [exact IH|]. intros b' Hb'. rewrite Hb'. unfold any_matches. split.
  - intros (j & Hj & Hm). exists j. split; [by right|done].
  - intros (j & [->|Hj]%elem_of_cons & Hm); [by apply Hb in Hm|by exists j].
Qed.

Lemma is_empty_spec files c :
  hostlist_collection_is_empty files c = true ↔ ∀ i, i ∈ c → hfile_pool ∅ files i = ∅.
Proof.
  unfold hostlist_collection_is_empty. rewrite forallb_forall. setoid_rewrite <- list_elem_of_In.
  by setoid_rewrite bool_decide_eq_true.
Qed.

Lemma lists_check_answer (files : hostlist_files) (incl excl : hostlist_collection) (host : mem) (nosub : bool) :
  ∃ r excluded, lists_check files incl excl host nosub = Ok (r, excluded)
    ∧ (excluded = true ↔ any_matches files excl nosub host)
    ∧ (r = true ↔ ¬ any_matches files excl nosub host
        ∧ ((∀ i, i ∈ incl → hfile_pool ∅ files i = ∅) ∨ any_matches files incl nosub host)).
Proof.
  unfold lists_check. pose proof (search_any_spec files excl host nosub) as He.
  destruct (search_any files excl host nosub) as [out| |]; [|done|done]. bstep. simpl in He.
  destruct out.
  { exists false, true. split; [done|]. split; [done|]. split; [done|]. intros [H _]. by destruct H; apply He. }
  assert (Hno : ¬ any_matches files excl nosub host) by (intros H; by apply He in H).
  pose proof (is_empty_spec files incl) as Hi. destruct (hostlist_collection_is_empty files incl).
  { exists true, false. split; [done|]. split; [done|]. split; [|done]. intros _. split; [done|left]. by apply Hi. }
  pose proof (search_any_spec files incl host nosub) as Hs.
  destruct (search_any files incl host nosub) as [r| |]; [|done|done]. bstep. simpl in Hs.
  exists r, false. split; [done|]. split; [done|]. rewrite Hs. split; [auto|].
  intros [_ [H|H]]; [|done]. by apply Hi in H.
Qed.

(** A profile takes a name that no excluding list matches and that some
    including list matches, or any name when all its including lists are
    empty; [*excluded] says whether an excluding list matched. *)
Theorem lists_check_spec (files : hostlist_files) (incl excl : hostlist_collection) (host : mem) (nosub : bool) :
  ∃ r excluded, lists_check files incl excl host nosub = Ok (r, excluded)
    ∧ (excluded = true ↔ any_matches files excl nosub host)
    ∧ (r = true ↔ ¬ any_matches files excl nosub host
        ∧ ((∀ i, i ∈ incl → hfile_pool ∅ files i = ∅) ∨ any_matches files incl nosub host)).
Proof. apply lists_check_answer. Qed.

(** ** Any files

    whatever the files hold, keeping up with them ends; the lists keep their
    names. *)
Section any_files.
Context (alloc : hostlist_pool → mem → bool) (z_readfile : mem → option mem).
Implicit Types (files : hostlist_files) (fs : mem → file).

Lemma addpool_total (n : nat) pool l :
  wp (addpool alloc pool l) (λ '(_, rest, ok), True ∧ (ok = true → l ≠ [] → (length rest < length l)%nat)).
Proof.
  unfold addpool. destruct (is_comment _); [split; [done|]; intros _; apply next_line_length|].
  set (q := if zb _ =? ch "^" then _ else _). destruct q as [l' f] eqn:Eq.
  assert (Hl : (length l' <= length l)%nat).
  { unfold q in Eq. destruct (zb _ =? ch "^"); injection Eq as <- <-; destruct l; simpl; lia. }
  destruct (until_eol l') as [name rest] eqn:Eu. destruct (HostlistPoolAddStrLen _ _ _ _) as [p ok].
  destruct ok; simpl; (split; [done|]); [|done]. intros _ Hne.
  destruct l' as [|c l']; [injection Eu as <- <-; destruct l; simpl; [done|lia]|].
  pose proof (next_line_length (c :: l') ltac:(done)) as H. rewrite Eu in H. simpl in *. lia.
Qed.

Lemma make_autolists_names autos files : same_names files (MakeAutolistsNonEmpty alloc autos files).
Proof.
  unfold MakeAutolistsNonEmpty, same_names. revert files. induction autos as [|i autos IH]; intros files; [done|].
  cbn [foldl]. rewrite IH, (list_fmap_alter lf_filename _ id) by by apply Forall_true. by rewrite list_alter_id.
Qed.

Lemma reload_total autos fs files c :
  Forall (λ i, (i < length files)%nat) c →
  wp (HostlistsReloadCheck alloc z_readfile autos fs files c) (λ '(files', _), same_names files files').
Proof.
  intros Hc. unfold HostlistsReloadCheck.
  wp_use (reload_lists_total ∅ (addpool alloc) 255 z_readfile (λ _ _, True)); [lia|done| |done| | |].
  - intros n p l _. apply (addpool_total n p l).
  - unfold pools_ok. by apply Forall_true.
  - unfold fits_memory. by apply Forall_true.
  - intros [files' ok] [Hn _]. destruct ok; [|done]. simpl. unfold same_names in *. by rewrite make_autolists_names.
Qed.
Lemma reload_profile_total autos fs files incl excl :
  Forall (λ i, (i < length files)%nat) incl → Forall (λ i, (i < length files)%nat) excl →
  wp (HostlistsReloadCheckForProfile alloc z_readfile autos fs files incl excl) (λ '(files', _), same_names files files').
Proof.
  intros Hi He. unfold HostlistsReloadCheckForProfile. wp_use reload_total; [done|]. intros [files' ok] Hn.
  destruct ok; [|done]. eapply wp_mono; [apply reload_total; by rewrite (same_names_length _ _ Hn)|].
  intros [files'' ok] Hn'. unfold same_names in *. by rewrite Hn'.
Qed.
Lemma check_total autos fs files incl excl host nosub skip :
  Forall (λ i, (i < length files)%nat) incl → Forall (λ i, (i < length files)%nat) excl →
  wp (HostlistCheck alloc z_readfile autos fs files incl excl host nosub skip) (λ '(files', _, _), same_names files files').
Proof.
  intros Hi He. unfold HostlistCheck. apply wp_bind.
  apply (wp_mono _ (λ '(files', _), same_names files files')).
  { destruct skip; [done|by apply reload_profile_total]. }
  intros [files' ok] Hn. destruct ok; [|done]. simpl. destruct (lists_check_answer files' incl excl host nosub) as (r & x & -> & _). done.
Qed.
End any_files.

(** ** Examples *)

Definition some_lines : list (mem * bool) :=
  [(bytes_of "# names", false); (bytes_of "Example.COM", true); (bytes_of "", false);
   (bytes_of "^only.org", false); (bytes_of "^example.com", false)].
Definition some_file (name : mem) : file := File (Some (FileModSig 7 52)) (Some (text some_lines)).

(** looking a name up in the list just read *)
Definition read_and_search (host : string) : res bool :=
  r ← AppendHostList (λ _ _, true) (λ _, None) some_file ∅ (bytes_of "list");
  SearchHostList r.1 (bytes_of host) false.

Lemma host_file_matches_witness :
  ∃ pool, AppendHostList (λ _ _, true) (λ _, None) some_file ∅ (bytes_of "list") = Ok (pool, true)
    ∧ SearchHostList pool (bytes_of "a.b.example.com") false = Ok true
    ∧ SearchHostList pool (bytes_of "www.only.org") false = Ok false
    ∧ ∀ host nosub, ∃ b, SearchHostList pool host nosub = Ok b ∧ (b = true ↔ rules_match (rules (map fst some_lines)) nosub host).
Proof.
  destruct (host_file_matches (λ _ _, true) (λ _, None) some_file (bytes_of "list") some_lines) as (pool & E & H).
  - done.
  - repeat constructor.
  - left. split; [done|]. split; [done|].
    repeat (apply Forall_cons; split; [unfold short; simpl; lia|]). constructor.
  - exists pool. split; [exact E|].
    assert (E1 : read_and_search "a.b.example.com" = Ok true) by (vm_compute; reflexivity).
    assert (E2 : read_and_search "www.only.org" = Ok false) by (vm_compute; reflexivity).
    unfold read_and_search in E1, E2. rewrite E in E1, E2. done.
Defined.

(** a plain file of one line of 266 characters: the first 255 are a name, and
    the other eleven are another *)
Definition long_file (name : mem) : file :=
  File (Some (FileModSig 7 267)) (Some (text [(repeat x61 255 ++ bytes_of "example.com", false)])).
Lemma long_line_two_names :
  (r ← AppendHostList (λ _ _, true) (λ _, None) long_file ∅ (bytes_of "list"); SearchHostList r.1 (bytes_of "example.com") false) = Ok true
  ∧ ¬ rules_match (rules [repeat x61 255 ++ bytes_of "example.com"]) false (bytes_of "example.com").
Proof.
  split; [vm_compute; reflexivity|].
  assert (E : ∃ f, rules [repeat x61 255 ++ bytes_of "example.com"] = [Some (repeat x61 255 ++ bytes_of "example.com", f)])
    by (eexists; vm_compute; reflexivity).
  destruct E as [f ->]. set (l := repeat x61 255 ++ bytes_of "example.com").
  assert (Hl : ∀ n, is_Some (first_rule [Some (l, f)] n) → length n = 266%nat).
  { intros n. cbn [first_rule]. destruct (decide (l = n)) as [<-|]; [done|]. by intros [? ?]. }
  intros [H%Hl|(_ & n & flags & [pre Hb] & Hn & _)]; [done|].
  assert (length n = 266%nat) by (apply Hl; by eexists).
  apply (f_equal length) in Hb. rewrite !length_app in Hb. change (length (bytes_of "example.com")) with 11%nat in Hb. lia.
Qed.
