(* ===== verification/TpIpset.v ===== *)
(** * tpws, address sets: native/tpws/ipset.c, pools.c 263-408, helpers.c 505-542

    A set of addresses is two trees of prefixes, IPv4 and IPv6; the tree is
    byedpi's (native/tpws/kavl.h is the same file).  A [struct kavl_bit_elem]
    has the fields [len] and [data] of byedpi's [struct elem] and no other, so
    it is an [elem] here, the rest zero.  Files of prefixes are read like
    files of names ([TpFiles]).  [inet_pton] is a parameter. *)

From Stdlib Require Import ZArith Lia Bool List.
From Stdlib Require Import Strings.Byte Strings.String Strings.Ascii.
From stdpp Require Import base tactics list numbers option.
From S2P Require Import Prelude CMem Kavl MPool TpPools TpFiles.

(** ** Trees of prefixes *)

Definition kavl_bit_elem (bitlen : Z) (data : mem) : elem := new_elem CMP_BITS data bitlen.

Definition kavl_bit_cmp (p q : elem) : res Z :=
  let bitlen := if el_len q <? el_len p then el_len q else el_len p in
  let df := Z.land bitlen 7 in
  let bytes := Z.shiftr bitlen 3 in
  cmp ← memcmp (el_data p) 0 (el_data q) 0 bytes;
  if negb (cmp =? 0) || (df =? 0) then Ok cmp else
  b1 ← rd (el_data p) bytes;
  b2 ← rd (el_data q) bytes;
  let c1 := u8 (Z.shiftr (zb b1) (8 - df)) in
  let c2 := u8 (Z.shiftr (zb b2) (8 - df)) in
  Ok (if c1 <? c2 then -1 else if c1 =? c2 then 0 else 1).

Definition kavl_bit_get (hdr : tree elem) (data : mem) (bitlen : Z) : res (option elem) :=
  kavl_find kavl_bit_cmp hdr (kavl_bit_elem bitlen data).

(** the element found is freed *)
Definition kavl_bit_delete (hdr : tree elem) (data : mem) (bitlen : Z) : res (tree elem) :=
  '(hdr, _) ← kavl_erase kavl_bit_cmp hdr (kavl_bit_elem bitlen data); Ok hdr.

(** [while (e != v && e->bitlen < v->bitlen)]; [None]: [e] is in the tree *)
Definition kavl_bit_add_step (e : elem) (st : tree elem * option elem)
  : res (tree elem * option elem + tree elem * option elem) :=
  let '(hdr, v) := st in
  match v with
  | Some v' =>
      if el_len e <? el_len v' then
        hdr ← kavl_bit_delete hdr (el_data v') (el_len v');
        '(hdr, v) ← kavl_insert kavl_bit_cmp hdr e;
        Ok (inl (hdr, v))
      else Ok (inr st)
  | None => Ok (inr st)
  end.
(** [room]: [calloc] succeeds; the element in the tree, [None]: out of memory *)
Definition kavl_bit_add (room : bool) (hdr : tree elem) (data : mem) (bitlen : Z) : res (tree elem * option elem) :=
  if negb room then Ok (hdr, None) else
  let e := kavl_bit_elem bitlen data in
  '(root, v) ← kavl_insert kavl_bit_cmp hdr e;
  '(root, v) ← loop (length (elements hdr) + 4) (kavl_bit_add_step e) (root, v);
  Ok (root, Some (match v with Some v => v | None => e end)).

(** the first element goes until none is left *)
Definition kavl_bit_destroy_step (hdr : tree elem) : res (tree elem + tree elem) :=
  match hdr with
  | Leaf => Ok (inr Leaf)
  | _ => '(hdr, _) ← kavl_erase_first hdr; Ok (inl hdr)
  end.
Definition kavl_bit_destroy (hdr : tree elem) : res (tree elem) :=
  loop (Datatypes.S (length (elements hdr))) kavl_bit_destroy_step hdr.

(** ** Sets of addresses *)

Record ipset : Type := Ipset { ips4 : tree elem; ips6 : tree elem }.
#[export] Instance ipset_eta : Eta ipset := λ i, Ipset (ips4 i) (ips6 i).
Definition no_ips : ipset := Ipset Leaf Leaf.

Definition IPSET_EMPTY (ips : ipset) : bool :=
  match ips with Ipset Leaf Leaf => true | _ => false end.

Section ipset.
(** there is memory for the bytes and the element *)
Context (room : tree elem → mem → bool).

Definition ipset_kavl_add (ips : tree elem) (a : mem) (preflen : Z) : res (tree elem * bool) :=
  let bytelen := Z.shiftr (preflen + 7) 3 in
  if negb (room ips a) then Ok (ips, false) else
  if len a <? bytelen then UB else
  '(ips, v) ← kavl_bit_add true ips (slice a 0 bytelen) preflen;
  Ok (ips, bool_decide (is_Some v)).

Definition ipset4Check (ips : tree elem) (a : mem) (preflen : Z) : res bool :=
  v ← kavl_bit_get ips a preflen; Ok (bool_decide (is_Some v)).
Definition ipset4Add (ips : tree elem) (a : mem) (preflen : Z) : res (tree elem * bool) :=
  if 32 <? preflen then Ok (ips, false) else ipset_kavl_add ips a preflen.
Definition ipset6Check (ips : tree elem) (a : mem) (preflen : Z) : res bool :=
  v ← kavl_bit_get ips a preflen; Ok (bool_decide (is_Some v)).
Definition ipset6Add (ips : tree elem) (a : mem) (preflen : Z) : res (tree elem * bool) :=
  if 128 <? preflen then Ok (ips, false) else ipset_kavl_add ips a preflen.

Definition ipsetDestroy (ips : ipset) : res ipset :=
  a ← kavl_bit_destroy (ips4 ips); b ← kavl_bit_destroy (ips6 ips); Ok (Ipset a b).

(** ** Lines *)

Context (inet_pton : Z → mem → option mem) (z_readfile : mem → option mem).

(** up to the first slash, and behind it *)
Fixpoint cut_slash (s : mem) : mem * option mem :=
  match s with
  | [] => ([], None)
  | c :: s' => if zb c =? ch "/" then ([], Some s') else let '(a, b) := cut_slash s' in (c :: a, b)
  end.
(** the address and the prefix length *)
Definition parse_cidr (family maxlen : Z) (s : mem) : option (mem * Z) :=
  let '(addr, p) := cut_slash s in
  (preflen ← match p with
    | None => Some maxlen
    | Some p =>
        match scan_u p with
        | Some (plen, _) => if maxlen <? plen then None else Some (u8 plen)
        | None => None
        end
    end;
  a ← inet_pton family addr;
  Some (a, preflen))%stdpp.
Definition parse_cidr4 (s : mem) : option (mem * Z) := parse_cidr AF_INET 32 s.
Definition parse_cidr6 (s : mem) : option (mem * Z) := parse_cidr AF_INET6 128 s.

(** the line ends at the end of the text *)
Fixpoint rtrim (s : mem) : mem :=
  match s with
  | [] => []
  | c :: s' => match rtrim s' with
      | [] => if (zb c =? 10) || (zb c =? 13) then [] else [c]
      | t => c :: t
      end
  end.

(** [char cidr[128]]; the set, what is left, success *)
Definition ips_addpool (ips : ipset) (l : mem) : res (ipset * mem * bool) :=
  let '(line, rest) := until_eol l in
  let first := match l with c :: _ => c | [] => x00 end in
  if is_comment first then Ok (ips, skip_eols rest, true) else
  let cidr := rtrim (take 127 line) in
  match parse_cidr4 cidr with
  | Some (a, preflen) =>
      '(t, ok) ← ipset4Add (ips4 ips) a preflen;
      let ips := ips <| ips4 := t |> in
      if ok : bool then Ok (ips, skip_eols rest, true)
      else ips ← ipsetDestroy ips; Ok (ips, rest, false)
  | None =>
      match parse_cidr6 cidr with
      | Some (a, preflen) =>
          '(t, ok) ← ipset6Add (ips6 ips) a preflen;
          let ips := ips <| ips6 := t |> in
          if ok : bool then Ok (ips, skip_eols rest, true)
          else ips ← ipsetDestroy ips; Ok (ips, rest, false)
      | None => Ok (ips, skip_eols rest, true)
      end
  end.
Definition AppendIpsetItem (ips : ipset) (ip : mem) : res (ipset * bool) :=
  '(ips, _, ok) ← ips_addpool ips ip; Ok (ips, ok).

(** ** Files and profiles *)

Implicit Types (files : list (list_file ipset)) (fs : mem → file).

(** [fgets (s, sizeof (s) - 1, F)] with [char s[256]] *)
Definition AppendIpset fs (ips : ipset) (filename : mem) : res (ipset * bool) :=
  append_list ips_addpool 254 z_readfile fs ips filename.
Definition LoadIpset fs files (i : nat) : res (list (list_file ipset) * bool) :=
  load_list no_ips ips_addpool 254 z_readfile fs files i.
Definition LoadIpsets fs files : res (list (list_file ipset) * bool) :=
  load_lists no_ips ips_addpool 254 z_readfile fs files (files_order files).
Definition IpsetsReloadCheck fs files (c : list nat) : res (list (list_file ipset) * bool) :=
  reload_lists no_ips ips_addpool 254 z_readfile fs files c.
Definition IpsetsReloadCheckForProfile fs files (incl excl : list nat) : res (list (list_file ipset) * bool) :=
  '(files, ok) ← IpsetsReloadCheck fs files incl;
  if ok : bool then IpsetsReloadCheck fs files excl else Ok (files, false).

Definition ipset_collection_is_empty files (c : list nat) : bool :=
  forallb (λ i, IPSET_EMPTY (hfile_pool no_ips files i)) c.

Definition SearchIpset (ips : ipset) (dest : ip_dest) : res bool :=
  match dest with
  | In4 a => match ips4 ips with Leaf => Ok false | t => ipset4Check t a 32 end
  | In6 a => match ips6 ips with Leaf => Ok false | t => ipset6Check t a 128 end
  | InNone => Ok false
  end.
Fixpoint search_ipsets files (c : list nat) (dest : ip_dest) : res bool :=
  match c with
  | [] => Ok false
  | i :: c =>
      r ← SearchIpset (hfile_pool no_ips files i) dest;
      if r : bool then Ok true else search_ipsets files c dest
  end.

Definition IpsetCheck_ fs files (incl excl : list nat) (dest : ip_dest) : res (list (list_file ipset) * bool) :=
  '(files, ok) ← IpsetsReloadCheck fs files incl;
  if negb ok then Ok (files, false) else
  '(files, ok) ← IpsetsReloadCheck fs files excl;
  if negb ok then Ok (files, false) else
  out ← search_ipsets files excl dest;
  if out : bool then Ok (files, false) else
  if ipset_collection_is_empty files incl then Ok (files, true) else
  r ← search_ipsets files incl dest;
  Ok (files, r).

(** without lists every address passes *)
Definition IpsetCheck fs files (incl excl : list nat) (dest : ip_dest) : res (list (list_file ipset) * bool) :=
  match incl, excl with
  | [], [] => Ok (files, true)
  | _, _ => IpsetCheck_ fs files incl excl dest
  end.

(** a file must be there when it is registered *)
Definition RegisterIpset (have_memory : bool) fs files (c : list nat) (filename : option mem)
  : option (list (list_file ipset) * list nat * nat) :=
  match filename with
  | Some name =>
      match f_stat (fs name) with
      | Some sig => if mod_time sig =? 0 then None else register no_ips have_memory files c filename
      | None => None
      end
  | None => register no_ips have_memory files c filename
  end.
End ipset.
