(* ===== verification/TpIpsetSpec.v ===== *)
(** * tpws, address sets: what a file of prefixes matches

    The trees of tpws are byedpi's pools of address prefixes under another
    name ([bit_add_pool]), so what is proved of those holds of
    them; a file of prefixes matches exactly the addresses its lines cover
    ([ipset_file_matches]). *)

From Stdlib Require Import ZArith Lia Bool List.
From Stdlib Require Import Strings.Byte Strings.String Strings.Ascii.
From stdpp Require Import base tactics list numbers option gmap.
From S2P Require Import Prelude CMem Kavl KavlSpec MPool MPoolSpec TpPools TpFiles TpFilesSpec TpIpset.

(** ** The comparison *)

#[local] Instance signed_char : CharModel := true.

Lemma land_7 n : 0 <= n → Z.land n 7 = Z.rem n 8.
Proof. intros Hn. change 7 with (Z.ones 3). rewrite Z.land_ones, Z.rem_mod_nonneg by lia. done. Qed.
Lemma shiftr_3 n : 0 <= n → Z.shiftr n 3 = Z.quot n 8.
Proof. intros Hn. rewrite Z.shiftr_div_pow2, Z.quot_div_nonneg by lia. done. Qed.

Lemma top_bits_order df : 0 < df < 8 → ∀ a b,
  (if u8 (Z.shiftr (zb a) (8 - df)) <? u8 (Z.shiftr (zb b) (8 - df)) then -1
   else if u8 (Z.shiftr (zb a) (8 - df)) =? u8 (Z.shiftr (zb b) (8 - df)) then 0 else 1)
  = (if negb (top_bits a df =? top_bits b df) then (if top_bits a df <? top_bits b df then -1 else 1) else 0).
Proof.
  intros Hdf a b. rewrite (top_bits_cmp df a b Hdf), !take_bits_byte by lia.
  rewrite pcmp_bits_n, !Z2Nat.id by lia.
  assert (Hs : ∀ c, u8 (Z.shiftr (zb c) (8 - df)) = (zb c / 2 ^ (8 - df)) mod 2 ^ df).
  { intros c. pose proof (zb_range c). rewrite Z.shiftr_div_pow2 by lia.
    assert (0 <= zb c / 2 ^ (8 - df) < 2 ^ df).
    { split; [apply Z.div_pos; lia|]. apply Z.div_lt_upper_bound; [lia|]. rewrite <- Z.pow_add_r by lia.
      replace (8 - df + df) with 8 by lia. lia. }
    assert (2 ^ df <= 2 ^ 8) by (apply Z.pow_le_mono_r; lia).
    rewrite (Z.mod_small _ (2 ^ df)), u8_small; lia. }
  rewrite <- !Hs. destruct (Z.ltb_spec (u8 (Z.shiftr (zb a) (8 - df))) (u8 (Z.shiftr (zb b) (8 - df)))); [lia|].
  destruct (Z.eqb_spec (u8 (Z.shiftr (zb a) (8 - df))) (u8 (Z.shiftr (zb b) (8 - df)))); lia.
Qed.

Lemma kavl_bit_cmp_eq p q : bits_ok p → bits_ok q → kavl_bit_cmp p q = scmp p q.
Proof.
  intros [Tp Hp] [Tq Hq]. unfold scmp. rewrite Tp. change (CMP_BITS =? CMP_BITS) with true. cbv iota.
  unfold kavl_bit_cmp, bit_cmp. set (n := if el_len q <? el_len p then el_len q else el_len p).
  assert (Hn : 0 <= n) by (unfold n; destruct (_ <? _); lia). rewrite land_7, shiftr_3 by done.
  destruct (memcmp _ _ _ _ _) as [c| |]; [|done|done]. rewrite !bind_Ok.
  destruct (negb (c =? 0) || (Z.rem n 8 =? 0)) eqn:E; [done|]. apply orb_false_iff in E as [_ E%Z.eqb_neq].
  destruct (rd (el_data p) _) as [b1| |]; [|done|done]. destruct (rd (el_data q) _) as [b2| |]; [|done|done].
  rewrite !bind_Ok. cbv zeta. pose proof (Z.rem_bound_pos n 8). rewrite top_bits_order by lia.
  by destruct (negb _).
Qed.

(** ** The trees *)

(** comparing the same way finds the same way *)
Section same_comparison.
Context {A : Type} (cmp1 cmp2 : A → A → res Z) (x : A).
Implicit Types t : tree A.

Definition agree t : Prop := ∀ y, y ∈ elements t → cmp1 x y = cmp2 x y.

Lemma agree_node l y b s r : agree (Node l y b s r) → agree l ∧ cmp1 x y = cmp2 x y ∧ agree r.
Proof.
  intros H. split; [|split].
  - intros z Hz. apply H. simpl. apply elem_of_app. by left.
  - apply H. simpl. apply elem_of_app. right. by left.
  - intros z Hz. apply H. simpl. apply elem_of_app. right. by right.
Qed.
Lemma kavl_find_agree t : agree t → kavl_find cmp1 t x = kavl_find cmp2 t x.
Proof.
  induction t as [|l IHl y b s r IHr]; [done|]. intros (Hl & Hy & Hr)%agree_node. simpl.
  by rewrite Hy, IHl, IHr.
Qed.
Lemma insert_path_agree t : ∀ path, agree t → insert_path cmp1 t x path = insert_path cmp2 t x path.
Proof.
  induction t as [|l IHl y b s r IHr]; [done|]. intros path (Hl & Hy & Hr)%agree_node. simpl.
  by rewrite Hy, IHl, IHr.
Qed.
Lemma erase_path_agree t : ∀ path, agree t → erase_path cmp1 t x path = erase_path cmp2 t x path.
Proof.
  induction t as [|l IHl y b s r IHr]; [done|]. intros path (Hl & Hy & Hr)%agree_node. simpl.
  by rewrite Hy, IHl, IHr.
Qed.
Lemma kavl_insert_agree t : agree t → kavl_insert cmp1 t x = kavl_insert cmp2 t x.
Proof. intros H. unfold kavl_insert. by rewrite insert_path_agree. Qed.
Lemma kavl_erase_agree t : agree t → kavl_erase cmp1 t x = kavl_erase cmp2 t x.
Proof. intros H. unfold kavl_erase. by rewrite erase_path_agree. Qed.
End same_comparison.

Lemma bits_agree e t : bits_ok e → Forall bits_ok (elements t) → agree kavl_bit_cmp scmp e t.
Proof. intros He Ht y Hy. rewrite Forall_forall in Ht. apply kavl_bit_cmp_eq; auto. Qed.

(** a tree as one of byedpi's pools *)
Definition pool_of (t : tree elem) : mphdr := Mphdr 0 CMP_BITS (count t) t.
Definition prefix_tree (t : tree elem) : Prop := address_pool (pool_of t).

Lemma new_elem_ok v : bits_ok v →
  bits_ok (new_elem CMP_BITS (el_data v) (el_len v)) ∧ bits_key (new_elem CMP_BITS (el_data v) (el_len v)) = bits_key v.
Proof. intros [_ H]. done. Qed.

Lemma add_inv_ok e hdr0 hdr v freed :
  add_inv (ok := bits_ok) (key := bits_key) e hdr0 (hdr, v, freed) → Forall bits_ok (elements (h_root hdr)).
Proof. intros (_ & [H _] & _). exact H. Qed.

(** the loops in step *)
Lemma bit_add_loop e hdr0 fuel : ∀ hdr v freed,
  bits_ok e → h_cmp_type hdr0 = CMP_BITS →
  add_inv (ok := bits_ok) (key := bits_key) e hdr0 (hdr, v, freed) →
  loop fuel (kavl_bit_add_step e) (h_root hdr, v)
  = (r ← loop fuel (mem_add_step e) (hdr, v, freed); Ok (h_root r.1.1, r.1.2)).
Proof.
  induction fuel as [|fuel IH]; intros hdr v freed He Hct Hinv; [done|]. rewrite !loop_S.
  pose proof (mem_add_step_spec (ok := bits_ok) (key := bits_key) e hdr0 (hdr, v, freed) He Hinv) as Hw.
  rewrite Hct in Hw. specialize (Hw new_elem_ok). cbn [kavl_bit_add_step].
  pose proof (add_inv_ok _ _ _ _ _ Hinv) as Hok. unfold mem_add_step in *.
  destruct v as [v'|]; [|done]. destruct (el_len e <? el_len v'); [|done].
  destruct Hinv as (_ & _ & Hct' & _ & Hp & Hv & _). rewrite Hct in Hct'.
  assert (Hvok : bits_ok v') by (rewrite Forall_forall in Hok; by apply Hok).
  pose proof (mem_delete_spec (ok := bits_ok) (key := bits_key) hdr (el_data v') (el_len v') Hp) as Hd.
  rewrite Hct' in Hd. specialize (Hd (proj1 (new_elem_ok v' Hvok))).
  unfold kavl_bit_delete, kavl_bit_elem. rewrite (kavl_erase_agree kavl_bit_cmp scmp _ _ (bits_agree _ _ (proj1 (new_elem_ok v' Hvok)) Hok)).
  unfold mem_delete in *. rewrite Hct' in *.
  destruct (kavl_erase scmp (h_root hdr) _) as [[root gone]| |]; [|done|done]. rewrite !bind_Ok in *. cbv beta in *.
  set (del := match gone with Some _ => _ | None => _ end) in *.
  assert (Er : ∃ h g, del = Ok (h, g) ∧ h_root h = root) by (unfold del; destruct gone; by eexists _, _).
  destruct Er as (h & g & Ed & Eroot). rewrite Ed in *. rewrite !bind_Ok in *. cbv beta in *. simpl in Hd.
  destruct Hd as ([_ [Hok' _] _ _] & _ & _). rewrite <- Eroot.
  rewrite (kavl_insert_agree kavl_bit_cmp scmp e _ (bits_agree _ _ He Hok')).
  destruct (kavl_insert scmp (h_root h) e) as [[root' o]| |]; [|done|done]. rewrite !bind_Ok in *. cbv beta in *.
  destruct Hw as [Hinv' _]. by rewrite <- (IH (h <| h_root := root' |>) o (g ++ freed) He Hct Hinv').
Qed.

(** adding to a tree of tpws is adding to a pool of byedpi *)
Lemma bit_add_pool t data n :
  prefix_tree t → 0 <= n <= 8 * len data →
  kavl_bit_add true t data n
  = ('(hdr, v, _) ← mem_add (length (elements t) + 4) true (pool_of t) data n; Ok (h_root hdr, v)).
Proof.
  intros [Hp Hct] Hn. assert (He : bits_ok (new_elem CMP_BITS data n)) by (split; [done|exact Hn]).
  pose proof (pool_anti _ Hp) as [Hok _]. cbn [h_root pool_of] in Hok.
  pose proof (kavl_insert_pool (ok := bits_ok) (key := bits_key) (new_elem CMP_BITS data n) (pool_of t) [] (pool_of t)
    He Hp eq_refl (Permutation_refl _)) as Hi.
  specialize (Hi ltac:(by intros u ?%elem_of_nil)). cbn [pool_of h_root] in Hi.
  unfold kavl_bit_add, mem_add, kavl_bit_elem. cbn [negb h_cmp_type h_root pool_of].
  rewrite (kavl_insert_agree kavl_bit_cmp scmp _ _ (bits_agree _ _ He Hok)).
  destruct (kavl_insert scmp t _) as [[root v]| |]; [|done|done]. rewrite !bind_Ok. cbv beta.
  destruct Hi as [Hinv _].
  pose proof (bit_add_loop _ (pool_of t) (length (elements t) + 4) (pool_of t <| h_root := root |>) v [] He eq_refl Hinv) as El.
  cbn [h_root] in El. change (h_root (pool_of t <| h_root := root |>)) with root in El. rewrite El.
  destruct (loop _ (mem_add_step _) _) as [[[hdr o] fr]| |]; [|done|done]. rewrite !bind_Ok. by destruct o.
Qed.

(** a tree of prefixes of at most [m] bits with room for [n] more *)
Record tree_room (m : Z) (n : nat) (t : tree elem) : Prop := TreeRoom {
  tr_pool : prefix_tree t;
  tr_short : ∀ u, u ∈ elements t → el_len u <= m;
  tr_fits : count t + Z.of_nat n + 1 < 2 ^ 32
}.

Lemma tree_room_nil m n : Z.of_nat n + 1 < 2 ^ 32 → tree_room m n Leaf.
Proof. intros Hn. split; [split; [apply pool_new|done]|by intros u ?%elem_of_nil|unfold count; simpl; lia]. Qed.
Lemma tree_room_le m n n' t : (n' <= n)%nat → tree_room m n t → tree_room m n' t.
Proof. intros Hn [H1 H2 H3]. split; [done|done|lia]. Qed.

(** [room] for a prefix: it gets in *)
Lemma bit_add_spec m n t data k :
  tree_room m (Datatypes.S n) t → 0 <= k <= 8 * len data → k <= m →
  wp (kavl_bit_add true t data k) (λ '(t', v), is_Some v ∧ tree_room m n t'
    ∧ ∀ key, covered (elements t') key ↔ covered (elements t) key ∨ bits_key (kavl_bit_elem k data) `prefix_of` key).
Proof.
  intros [Ht Hs Hf] Hk Hm. rewrite bit_add_pool by done. destruct Ht as [Hp Hct].
  wp_use (mem_add_spec (ok := bits_ok) (key := bits_key) (length (elements t) + 4) (pool_of t) data k);
    [done|done|cbn [pool_of h_root]; lia|apply new_elem_ok|cbn [pool_of h_root]; unfold count; lia|].
  intros [[hdr v] freed] (Hp' & Hct' & v' & -> & Hin & Hadd). simpl. cbn [pool_of h_cmp_type] in Hct', Hadd.
  unfold contents in *. cbn [pool_of h_root] in Hadd.
  assert (Hsub : (∀ u, u ∈ elements (h_root hdr) → u ∈ elements t ∨ u = new_elem CMP_BITS data k)
    ∧ count (h_root hdr) <= count t + 1).
  { pose proof (added_frees _ _ _ _ _ Hadd) as Hperm. unfold count. split.
    - intros u Hu. assert (Hu' : u ∈ new_elem CMP_BITS data k :: elements t).
      { rewrite <- Hperm. apply elem_of_app. by right. }
      apply elem_of_cons in Hu' as [?|?]; auto.
    - apply Permutation_length in Hperm. rewrite length_app in Hperm. simpl in Hperm. lia. }
  destruct Hsub as [Hsub Hcount]. split; [by eexists|]. split.
  - split.
    + split; [|done]. destruct Hp' as [? ? ? ?]. by split.
    + intros u [Hu| ->]%Hsub; [by apply Hs|done].
    + lia.
  - intros key. by apply (added_covered (new_elem CMP_BITS data k) _ _ freed v').
Qed.

Lemma bit_get_spec m n t a :
  tree_room m n t → m <= 8 * len a →
  wp (kavl_bit_get t a (8 * len a)) (λ o, is_Some o ↔ covered (elements t) (bits_of_bytes a)).
Proof.
  intros [[Hp Hct] Hs Hf] Hm. set (e := kavl_bit_elem (8 * len a) a).
  assert (He : bits_ok e) by (split; [done|]; simpl; pose proof (len_nonneg a); lia).
  assert (Ek : bits_key e = bits_of_bytes a).
  { unfold bits_key, e, kavl_bit_elem, new_elem. simpl. apply take_ge. rewrite length_bits_of_bytes. unfold len. lia. }
  pose proof (pool_anti _ Hp) as [Hok _]. cbn [h_root pool_of] in Hok.
  unfold kavl_bit_get. fold e. rewrite (kavl_find_agree kavl_bit_cmp scmp _ _ (bits_agree _ _ He Hok)).
  pose proof (mem_get_spec (ok := bits_ok) (key := bits_key) (pool_of t) a (8 * len a) Hp He) as Hg.
  unfold mem_get in Hg. cbn [pool_of h_root h_cmp_type] in Hg. fold e in Hg.
  change (new_elem CMP_BITS a (8 * len a)) with e in Hg. unfold contents in Hg. cbn [h_root] in Hg.
  eapply wp_mono; [exact Hg|]. rewrite Forall_forall in Hok.
  intros [u|]; unfold covered; rewrite <- Ek.
  - intros [Hu Hr]. split; [|by eexists]. intros _. exists u. split; [done|].
    apply related_prefix in Hr as [H|H]; [|done]. apply key_prefix_len; auto. simpl. specialize (Hs u Hu). lia.
  - intros Hno. split; [by intros [? ?]|]. intros (u & Hu & Hpre). exfalso. apply (Hno u Hu).
    apply related_prefix. by right.
Qed.

(** ** Files of prefixes *)

(** a prefix covers an address of its family that starts with its bits *)
Definition covers (p : ip_dest * Z) (dest : ip_dest) : Prop :=
  match p, dest with
  | (In4 a, n), In4 b | (In6 a, n), In6 b => take (Z.to_nat n) (bits_of_bytes a) `prefix_of` bits_of_bytes b
  | _, _ => False
  end.
Definition dest_ok (dest : ip_dest) : Prop :=
  match dest with In4 a => len a = 4 | In6 a => len a = 16 | InNone => True end.

Section file.
Context (inet_pton : Z → mem → option mem) (z_readfile : mem → option mem).
(** [inet_pton] answers an address of its family *)
Context (Hpton4 : ∀ s a, inet_pton AF_INET s = Some a → len a = 4).
Context (Hpton6 : ∀ s a, inet_pton AF_INET6 s = Some a → len a = 16).

Notation room := (λ _ _, true).

(** what a line says *)
Definition prefix_of_line (line : mem) : option (ip_dest * Z) :=
  match line with
  | [] => None
  | c :: _ =>
      if is_comment c then None else
      let cidr := rtrim (take 127 line) in
      match parse_cidr4 inet_pton cidr with
      | Some (a, n) => Some (In4 a, n)
      | None => match parse_cidr6 inet_pton cidr with Some (a, n) => Some (In6 a, n) | None => None end
      end
  end.

Lemma parse_cidr_ok family maxlen s a n :
  0 <= maxlen < 256 → parse_cidr inet_pton family maxlen s = Some (a, n) →
  0 <= n <= maxlen ∧ ∃ s', inet_pton family s' = Some a.
Proof.
  intros Hm. unfold parse_cidr. destruct (cut_slash s) as [addr [p|]].
  - destruct (scan_u p) as [[plen rest]|] eqn:Es; [|done].
    assert (0 <= plen).
    { unfold scan_u in Es. destruct (match scan_blanks p with [] => _ | _ => _ end) as [neg l].
      destruct (scan_digits l None) as [[v|] rest']; [|done]. injection Es as <- _. apply u32_range. }
    destruct (Z.ltb_spec maxlen plen); [done|]. simpl. destruct (inet_pton family addr) eqn:Ea; [|done].
    intros [= -> <-]. rewrite u8_small by lia. split; [lia|by eexists].
  - simpl. destruct (inet_pton family addr) eqn:Ea; [|done]. intros [= -> <-]. split; [lia|by eexists].
Qed.

Lemma prefix_of_line_ok line dest n :
  prefix_of_line line = Some (dest, n) →
  match dest with In4 a => len a = 4 ∧ 0 <= n <= 32 | In6 a => len a = 16 ∧ 0 <= n <= 128 | InNone => False end.
Proof.
  unfold prefix_of_line. destruct line as [|c line]; [done|]. destruct (is_comment c); [done|].
  destruct (parse_cidr4 inet_pton _) as [[a k]|] eqn:E4.
  - intros [= <- <-]. apply parse_cidr_ok in E4 as [Hk [s' Hs]]; [|lia]. split; [by eapply Hpton4|done].
  - destruct (parse_cidr6 inet_pton _) as [[a k]|] eqn:E6; [|done].
    intros [= <- <-]. apply parse_cidr_ok in E6 as [Hk [s' Hs]]; [|lia]. split; [by eapply Hpton6|done].
Qed.

(** the bytes kept of an address *)
Definition kept (a : mem) (n : Z) : mem := slice a 0 (Z.shiftr (n + 7) 3).

Definition tree_rule (t : tree elem) (a : mem) (n : Z) : tree elem :=
  match kavl_bit_add true t (kept a n) n with Ok (t, _) => t | _ => t end.
Definition ips_rule (ips : ipset) (line : mem) : ipset :=
  match prefix_of_line line with
  | Some (In4 a, n) => ips <| ips4 := tree_rule (ips4 ips) a n |>
  | Some (In6 a, n) => ips <| ips6 := tree_rule (ips6 ips) a n |>
  | _ => ips
  end.
Definition ips_room (n : nat) (ips : ipset) : Prop := tree_room 32 n (ips4 ips) ∧ tree_room 128 n (ips6 ips).

Lemma kept_len a n : 0 <= n <= 8 * len a → len (kept a n) = (n + 7) / 8 ∧ n <= 8 * len (kept a n).
Proof.
  intros Hn. unfold kept. rewrite Z.shiftr_div_pow2 by done. change (2 ^ 3) with 8.
  assert (0 <= (n + 7) / 8 <= len a) by (Z.div_mod_to_equations; lia).
  rewrite len_slice by lia. split; [done|]. Z.div_mod_to_equations. lia.
Qed.
Lemma kept_key a n : 0 <= n <= 8 * len a →
  bits_key (kavl_bit_elem n (kept a n)) = take (Z.to_nat n) (bits_of_bytes a).
Proof.
  intros Hn. destruct (kept_len a n Hn) as [Hl Hb]. unfold bits_key, kavl_bit_elem, new_elem, kept in *. simpl.
  set (k := Z.shiftr (n + 7) 3) in *. unfold slice. change (Z.to_nat 0) with 0%nat. rewrite drop_0.
  destruct (bits_drop_take (Z.to_nat k) a) as [<- _]. rewrite take_take. f_equal.
  unfold slice, len in Hb. rewrite drop_0, length_take in Hb. lia.
Qed.

(** one line's prefix into a tree *)
Lemma tree_rule_spec m n t a k :
  tree_room m (Datatypes.S n) t → 0 <= k <= 8 * len a → k <= m →
  ipset_kavl_add room t a k = Ok (tree_rule t a k, true) ∧ tree_room m n (tree_rule t a k)
  ∧ ∀ key, covered (elements (tree_rule t a k)) key ↔
      covered (elements t) key ∨ take (Z.to_nat k) (bits_of_bytes a) `prefix_of` key.
Proof.
  intros Ht Hk Hm. destruct (kept_len a k Hk) as [Hl Hb].
  pose proof (bit_add_spec m n t (kept a k) k Ht) as Hw. specialize (Hw ltac:(lia) Hm). rewrite kept_key in Hw by done.
  unfold ipset_kavl_add, tree_rule. cbn [negb].
  rewrite (proj2 (Z.ltb_ge _ _)) by (rewrite Z.shiftr_div_pow2 by done; change (2 ^ 3) with 8; Z.div_mod_to_equations; lia).
  fold (kept a k). destruct (kavl_bit_add true t (kept a k) k) as [[t' v]| |]; [|done|done].
  destruct Hw as ([u ->] & Hr & Hc). done.
Qed.

Lemma until_eol_cons l c r : line_ok l → is_eol c = true → until_eol (l ++ c :: r) = (l, c :: r).
Proof. apply until_eol_line. Qed.

Lemma ips_line n ips l crlf r :
  ips_room (Datatypes.S n) ips → line_ok l →
  ips_addpool room inet_pton ips (l ++ line_end crlf ++ r) = Ok (ips_rule ips l, skip_eols r, true)
  ∧ ips_room n (ips_rule ips l).
Proof.
  intros [H4 H6] Hl. destruct (line_end_cases crlf) as (c & e & Ee & Hc & Hcm).
  rewrite <- (skip_line_end crlf r), Ee. cbn [app]. unfold ips_addpool, ips_rule.
  rewrite until_eol_line by done.
  assert (Hle : ips_room n ips) by (split; eapply tree_room_le; [|done| |done]; lia).
  pose proof (prefix_of_line_ok l) as Hok. unfold prefix_of_line in *. destruct l as [|x l]; cbn [app].
  { by rewrite Hcm. }
  destruct (is_comment x); [done|].
  destruct (parse_cidr4 inet_pton _) as [[a k]|].
  - destruct (Hok _ _ eq_refl) as [Ha Hk]. unfold ipset4Add. rewrite (proj2 (Z.ltb_ge _ _)) by lia.
    destruct (tree_rule_spec 32 n (ips4 ips) a k H4) as (E & Hr & _); [lia|lia|]. rewrite E, bind_Ok.
    split; [done|]. split; [done|apply Hle].
  - destruct (parse_cidr6 inet_pton _) as [[a k]|]; [|done].
    destruct (Hok _ _ eq_refl) as [Ha Hk]. unfold ipset6Add. rewrite (proj2 (Z.ltb_ge _ _)) by lia.
    destruct (tree_rule_spec 128 n (ips6 ips) a k H6) as (E & Hr & _); [lia|lia|]. rewrite E, bind_Ok.
    split; [done|]. split; [apply Hle|done].
Qed.

(** what the set covers after the lines *)
Definition set_covers (ips : ipset) (dest : ip_dest) : Prop :=
  match dest with
  | In4 b => covered (elements (ips4 ips)) (bits_of_bytes b)
  | In6 b => covered (elements (ips6 ips)) (bits_of_bytes b)
  | InNone => False
  end.

Lemma rule_covers n ips l dest :
  ips_room (Datatypes.S n) ips →
  set_covers (ips_rule ips l) dest ↔
    set_covers ips dest ∨ ∃ p, prefix_of_line l = Some p ∧ covers p dest.
Proof.
  intros [H4 H6]. unfold ips_rule. pose proof (prefix_of_line_ok l) as Hok.
  assert (Hs : ∀ p, (∃ p', Some p = Some p' ∧ covers p' dest) ↔ covers p dest).
  { intros p. split; [by intros (? & [= <-] & ?)|by eexists]. }
  destruct (prefix_of_line l) as [[[a|a|] k]|]; rewrite ?Hs; [| |destruct dest; simpl; tauto|].
  - destruct (Hok _ _ eq_refl) as [Ha Hk]. destruct (tree_rule_spec 32 n (ips4 ips) a k H4) as (_ & _ & Hc); [lia|lia|].
    destruct dest; simpl; [apply Hc|tauto|tauto].
  - destruct (Hok _ _ eq_refl) as [Ha Hk]. destruct (tree_rule_spec 128 n (ips6 ips) a k H6) as (_ & _ & Hc); [lia|lia|].
    destruct dest; simpl; [tauto|apply Hc|tauto].
  - split; [by left|]. by intros [?|(? & ? & _)].
Qed.

Lemma rules_cover ls dest : ∀ ips, ips_room (length ls) ips → Forall line_ok ls →
  set_covers (foldl ips_rule ips ls) dest ↔
    set_covers ips dest ∨ ∃ l p, l ∈ ls ∧ prefix_of_line l = Some p ∧ covers p dest.
Proof.
  induction ls as [|l ls IH]; intros ips Hr Hls.
  { simpl. split; [by left|]. by intros [?|(? & ? & ?%elem_of_nil & _)]. }
  apply Forall_cons in Hls as [Hl Hls]. cbn [foldl].
  destruct (ips_line (length ls) ips l false [] Hr Hl) as [_ Hr'].
  rewrite IH, (rule_covers (length ls)) by done. setoid_rewrite elem_of_cons. naive_solver.
Qed.

Lemma search_covers n ips dest :
  ips_room n ips → dest_ok dest → ∃ b, SearchIpset ips dest = Ok b ∧ (b = true ↔ set_covers ips dest).
Proof.
  intros [H4 H6] Hd. destruct dest as [a|a|]; simpl; [| |exists false; split; [done|by split]].
  - destruct (ips4 ips) as [|l x b s r] eqn:E.
    { exists false. split; [done|]. simpl. split; [done|]. by intros (? & ?%elem_of_nil & _). }
    rewrite <- E in *. unfold ipset4Check. simpl in Hd. replace 32 with (8 * len a) by lia.
    pose proof (bit_get_spec 32 n (ips4 ips) a H4) as Hg. specialize (Hg ltac:(lia)).
    destruct (kavl_bit_get _ _ _) as [o| |]; [|done|done]. rewrite bind_Ok. eexists. split; [done|].
    by rewrite bool_decide_eq_true.
  - destruct (ips6 ips) as [|l x b s r] eqn:E.
    { exists false. split; [done|]. simpl. split; [done|]. by intros (? & ?%elem_of_nil & _). }
    rewrite <- E in *. unfold ipset6Check. simpl in Hd. replace 128 with (8 * len a) by lia.
    pose proof (bit_get_spec 128 n (ips6 ips) a H6) as Hg. specialize (Hg ltac:(lia)).
    destruct (kavl_bit_get _ _ _) as [o| |]; [|done|done]. rewrite bind_Ok. eexists. split; [done|].
    by rewrite bool_decide_eq_true.
Qed.

(** ** Any files

    whatever the files hold, keeping up with them and looking an address up
    end, as long as a tree's 32-bit size can count the prefixes. *)
Section any_files.
Context (mem_left : tree elem → mem → bool).
Implicit Types (files : list (list_file ipset)) (fs : mem → file).

Lemma destroy_total m n t : tree_room m n t → wp (kavl_bit_destroy t) (λ t', t' = Leaf).
Proof.
  intros [[Hp _] _ Hf]. unfold kavl_bit_destroy.
  apply (wp_loop fits (λ t, Z.of_nat (length (elements t)))); [lia| | |lia].
  - clear. intros t Ht. destruct t as [|l x b s r] eqn:E; [done|]. rewrite <- E in *.
    assert (Es : kavl_bit_destroy_step t = ('(hdr, _) ← kavl_erase_first t; Ok (inl hdr))) by by rewrite E.
    rewrite Es.
    wp_use kavl_erase_first_spec; [done|by rewrite E|]. intros [t' y] [Ht' He]. simpl.
    assert (count t' < count t) by (unfold count; rewrite He; simpl; lia).
    destruct Ht. rewrite He. split; [split; [done|lia]|simpl; lia].
  - destruct Hp. split; [done|lia].
Qed.

Lemma ipsetDestroy_total n ips : ips_room n ips → wp (ipsetDestroy ips) (λ ips', ips' = no_ips ∧ ips_room n ips').
Proof.
  intros [H4 H6]. unfold ipsetDestroy. wp_use destroy_total; [exact H4|]. intros ? ->.
  wp_use destroy_total; [exact H6|]. intros ? ->. split; [done|].
  destruct H4. split; apply tree_room_nil; unfold count in *; lia.
Qed.

Lemma tree_add_total m n t a k :
  tree_room m (Datatypes.S n) t → 0 <= k <= 8 * len a → k <= m →
  wp (ipset_kavl_add mem_left t a k) (λ '(t', _), tree_room m n t').
Proof.
  intros Ht Hk Hm. destruct (kept_len a k Hk) as [Hl Hb]. unfold ipset_kavl_add.
  wp_step; [simpl; eapply tree_room_le; [|exact Ht]; lia|].
  rewrite (proj2 (Z.ltb_ge _ _)) by (rewrite Z.shiftr_div_pow2 by done; change (2 ^ 3) with 8; Z.div_mod_to_equations; lia).
  fold (kept a k). wp_use (bit_add_spec m n); [done|lia|done|]. intros [t' v] (_ & Hr & _). done.
Qed.

Lemma ips_addpool_total n ips l : ips_room (Datatypes.S n) ips →
  wp (ips_addpool mem_left inet_pton ips l) (λ '(ips', rest, ok),
    ips_room n ips' ∧ (ok = true → l ≠ [] → (length rest < length l)%nat)).
Proof.
  intros [H4 H6]. unfold ips_addpool. destruct (until_eol l) as [line rest] eqn:Eu.
  assert (Hrest : l ≠ [] → (length (skip_eols rest) < length l)%nat).
  { intros Hne. pose proof (next_line_length l Hne) as H. by rewrite Eu in H. }
  assert (Hle : ips_room n ips) by (split; eapply tree_room_le; [|done| |done]; lia).
  destruct (is_comment _); [done|]. destruct (parse_cidr4 _ _) as [[a k]|] eqn:E4.
  - apply parse_cidr_ok in E4 as (Hk & s & Hs); [|lia]. apply Hpton4 in Hs. unfold ipset4Add.
    rewrite (proj2 (Z.ltb_ge _ _)) by lia. wp_use (tree_add_total 32 n); [exact H4|lia|lia|]. intros [t ok] Ht.
    assert (Hr : ips_room n (ips <| ips4 := t |>)) by (split; [done|apply Hle]).
    destruct ok; [done|]. cbv iota. wp_use ipsetDestroy_total; [exact Hr|]. by intros ? [-> ?].
  - destruct (parse_cidr6 _ _) as [[a k]|] eqn:E6; [|done].
    apply parse_cidr_ok in E6 as (Hk & s & Hs); [|lia]. apply Hpton6 in Hs. unfold ipset6Add.
    rewrite (proj2 (Z.ltb_ge _ _)) by lia. wp_use (tree_add_total 128 n); [exact H6|lia|lia|]. intros [t ok] Ht.
    assert (Hr : ips_room n (ips <| ips6 := t |>)) by (split; [apply Hle|done]).
    destruct ok; [done|]. cbv iota. wp_use ipsetDestroy_total; [exact Hr|]. by intros ? [-> ?].
Qed.

Lemma ips_room_le n m ips : (m <= n)%nat → ips_room n ips → ips_room m ips.
Proof. intros Hn [? ?]. split; by eapply tree_room_le. Qed.

Lemma ips_reload_total fs files c :
  Forall (λ i, (i < length files)%nat) c → pools_ok ips_room files → fits_memory no_ips z_readfile ips_room fs files →
  wp (IpsetsReloadCheck mem_left inet_pton z_readfile fs files c)
    (λ '(files', _), same_names files files' ∧ pools_ok ips_room files').
Proof.
  intros Hc Hp Hm. apply (reload_lists_total no_ips (ips_addpool mem_left inet_pton) 254 z_readfile ips_room);
    [lia|apply ips_room_le|apply ips_addpool_total|done..].
Qed.

Lemma search_ipsets_total files c dest :
  pools_ok ips_room files → dest_ok dest → Forall (λ i, (i < length files)%nat) c →
  wp (search_ipsets files c dest) (λ _, True).
Proof.
  intros Hp Hd. induction 1 as [|i c Hi _ IH]; [done|]. cbn [search_ipsets].
  destruct (lookup_lt_is_Some_2 files i Hi) as [f Ef]. unfold hfile_pool. rewrite Ef.
  destruct (search_covers 0 (lf_pool f) dest) as (b & -> & _); [by eapply (Forall_lookup_1 _ _ _ _ Hp)|done|].
  rewrite bind_Ok. by destruct b.
Qed.

Lemma ipset_check_total fs files incl excl dest :
  Forall (λ i, (i < length files)%nat) incl → Forall (λ i, (i < length files)%nat) excl → dest_ok dest →
  pools_ok ips_room files → fits_memory no_ips z_readfile ips_room fs files →
  wp (IpsetCheck mem_left inet_pton z_readfile fs files incl excl dest)
    (λ '(files', _), same_names files files' ∧ pools_ok ips_room files').
Proof.
  intros Hi He Hd Hp Hm.
  assert (Hw : wp (IpsetCheck_ mem_left inet_pton z_readfile fs files incl excl dest)
    (λ '(files', _), same_names files files' ∧ pools_ok ips_room files')).
  { unfold IpsetCheck_. wp_use ips_reload_total; [done..|]. intros [files1 ok1] [Hn1 Hp1]. destruct ok1; [|done]. simpl.
    pose proof (same_names_length _ _ Hn1) as El1.
    wp_use ips_reload_total; [by rewrite El1|done|by eapply fits_memory_names|].
    intros [files2 ok2] [Hn2 Hp2]. pose proof (same_names_length _ _ Hn2) as El2.
    assert (Hn : same_names files files2) by (unfold same_names in *; by rewrite Hn2).
    destruct ok2; [|done]. simpl.
    wp_use search_ipsets_total; [done|done|by rewrite El2, El1|]. intros [] _; [done|]. wp_step; [done|].
    wp_use search_ipsets_total; [done|done|by rewrite El2, El1|]. done. }
  unfold IpsetCheck. by destruct incl; [destruct excl|].
Qed.
End any_files.
End file.

(** C25: a file of addresses and prefixes, packed or not, matches exactly the
    addresses that a line of its family covers; reading and looking up end
    and stay inside their buffers. *)
Theorem ipset_file_matches (inet_pton : Z → mem → option mem) (z_readfile : mem → option mem)
    (fs : mem → file) (filename : mem) (ls : list (mem * bool)) :
  (∀ s a, inet_pton AF_INET s = Some a → len a = 4) → (∀ s a, inet_pton AF_INET6 s = Some a → len a = 16) →
  Forall (λ l, line_ok l.1) ls → file_text 254 z_readfile (fs filename) ls → Z.of_nat (length ls) + 1 < 2 ^ 32 →
  ∃ ips, AppendIpset (λ _ _, true) inet_pton z_readfile fs no_ips filename = Ok (ips, true)
    ∧ ∀ dest, dest_ok dest → ∃ b, SearchIpset ips dest = Ok b
      ∧ (b = true ↔ ∃ l p, l ∈ ls ∧ prefix_of_line inet_pton l.1 = Some p ∧ covers p dest).
Proof.
  intros H4 H6 Hls Hf Hn. exists (foldl (ips_rule inet_pton) no_ips (map fst ls)).
  assert (Hroom : ips_room (length ls) no_ips) by (split; by apply tree_room_nil).
  destruct (append_text (ips_addpool (λ _ _, true) inet_pton) 254 z_readfile (ips_rule inet_pton) ips_room)
    with (fs := fs) (pool := no_ips) (filename := filename) (ls := ls) as [E Hr]; [done| | |done|done|done|].
  { intros n m pool Hnm [? ?]. split; by eapply tree_room_le. }
  { intros n pool l crlf r. by apply ips_line. }
  split; [exact E|]. intros dest Hd.
  destruct (search_covers 0 (foldl (ips_rule inet_pton) no_ips (map fst ls)) dest Hr Hd) as (b & Eb & Hb).
  exists b. split; [done|]. rewrite Hb, (rules_cover inet_pton z_readfile H4 H6); [|by rewrite length_map|by apply Forall_map].
  split.
  - intros [H|(l & p & Hl & H)]; [destruct dest; simpl in H; [..|done]; by destruct H as (? & ?%elem_of_nil & _)|].
    apply list_elem_of_fmap in Hl as (l' & -> & Hl'). by exists l', p.
  - intros (l & p & Hl & H). right. exists l.1, p. split; [|done]. by apply list_elem_of_fmap_2.
Qed.

(** a resolver of three addresses *)
Definition some_pton (family : Z) (s : mem) : option mem :=
  if (family =? AF_INET) && bool_decide (s = bytes_of "10.0.0.0") then Some [x0a; x00; x00; x00]
  else if (family =? AF_INET) && bool_decide (s = bytes_of "192.168.1.1") then Some [xc0; xa8; x01; x01]
  else if (family =? AF_INET6) && bool_decide (s = bytes_of "2001:db8::")
    then Some ([x20; x01; x0d; xb8] ++ repeat x00 12)
  else None.
Definition some_prefixes : list (mem * bool) :=
  [(bytes_of "# ours", false); (bytes_of "10.0.0.0/8  ", false); ([], true); (bytes_of "192.168.1.1", true);
   (bytes_of "10.0.0.0/40", false); (bytes_of "2001:db8::/32", false)].
Definition some_file (_ : mem) : file := File (Some (FileModSig 1 1)) (Some (text some_prefixes)).
Definition ipset_answer (dest : ip_dest) : res bool :=
  '(ips, _) ← AppendIpset (λ _ _, true) some_pton (λ _, None) some_file no_ips (bytes_of "set");
  SearchIpset ips dest.

Lemma ipset_file_matches_witness :
  ∃ ips, AppendIpset (λ _ _, true) some_pton (λ _, None) some_file no_ips (bytes_of "set") = Ok (ips, true)
    ∧ SearchIpset ips (In4 [x0a; x07; x08; x09]) = Ok true
    ∧ SearchIpset ips (In4 [xc0; xa8; x01; x02]) = Ok false
    ∧ SearchIpset ips (In6 ([x20; x01; x0d; xb8] ++ repeat x01 12)) = Ok true
    ∧ ∀ dest, dest_ok dest → ∃ b, SearchIpset ips dest = Ok b
      ∧ (b = true ↔ ∃ l p, l ∈ some_prefixes ∧ prefix_of_line some_pton l.1 = Some p ∧ covers p dest).
Proof.
  destruct (ipset_file_matches some_pton (λ _, None) some_file (bytes_of "set") some_prefixes) as (ips & E & H).
  - intros s a. unfold some_pton. simpl. repeat (case_bool_decide; [by intros [= <-]|]). done.
  - intros s a. unfold some_pton. simpl. repeat (case_bool_decide; [by intros [= <-]|]). done.
  - repeat constructor.
  - left. split; [done|]. split; [done|].
    repeat (apply Forall_cons; split; [unfold short; simpl; lia|]). constructor.
  - done.
  - exists ips. split; [exact E|].
    assert (E1 : ipset_answer (In4 [x0a; x07; x08; x09]) = Ok true) by (vm_compute; reflexivity).
    assert (E2 : ipset_answer (In4 [xc0; xa8; x01; x02]) = Ok false) by (vm_compute; reflexivity).
    assert (E3 : ipset_answer (In6 ([x20; x01; x0d; xb8] ++ repeat x01 12)) = Ok true) by (vm_compute; reflexivity).
    unfold ipset_answer in E1, E2, E3. rewrite E in E1, E2, E3. done.
Defined.
