(* ===== verification/TpProfile.v ===== *)
(** * tpws, profiles and the automatic host list: native/tpws/tamper.c

    [tamper.c], lines 94-329 and 533-684, with the parts of [params.c] and
    [helpers.c] it uses: the names kept by address, the choice of a
    connection's profile, what [tamper_out] finds out before it rewrites a
    request ([TpTamper]), and the host list that learns a name after it has
    failed often enough.

    The globals of tpws are one record; a profile is named by its place in
    [params.desync_profiles].  A C string is its characters. *)

From Stdlib Require Import ZArith Lia Bool List.
From Stdlib Require Import Strings.Byte Strings.String Strings.Ascii.
From stdpp Require Import base tactics list numbers option countable gmap.
From S2P Require Import Prelude CMem Kavl MPool TpProtocol TpTamper TpPools TpFiles TpHostlist TpIpset.

(** ** The state *)

(** [struct desync_profile]; [pr_dp]: what rewriting a request uses of it *)
Record profile : Type := Profile {
  pr_dp : desync_profile; mss : Z; oob_byte : Z;
  tamper_start_n : bool; tamper_start : Z; tamper_cutoff_n : bool; tamper_cutoff : Z;
  filter_ipv4 : bool; filter_ipv6 : bool; pf_tcp : port_filters; filter_l7 : Z;
  ips_collection : list nat; ips_collection_exclude : list nat;
  hl_collection : list nat; hl_collection_exclude : list nat;
  hostlist_auto : option nat; hostlist_auto_fail_threshold : Z; hostlist_auto_fail_time : Z;
  hostlist_auto_fail_counters : hostfail_pool
}.
#[export] Instance profile_eta : Eta profile := λ p,
  Profile (pr_dp p) (mss p) (oob_byte p) (tamper_start_n p) (tamper_start p) (tamper_cutoff_n p) (tamper_cutoff p)
    (filter_ipv4 p) (filter_ipv6 p) (pf_tcp p) (filter_l7 p)
    (ips_collection p) (ips_collection_exclude p) (hl_collection p) (hl_collection_exclude p)
    (hostlist_auto p) (hostlist_auto_fail_threshold p) (hostlist_auto_fail_time p) (hostlist_auto_fail_counters p).

(** the globals, the file system and the two static [time_t]s of pools.c *)
Record tpws : Type := Tpws {
  hostlists : hostlist_files; ipsets : list (list_file ipset); desync_profiles : list profile;
  ipcache : ip_cache; ipcache_purge_prev : Z; host_fail_purge_prev : Z; fs : mem → file
}.
#[export] Instance tpws_eta : Eta tpws := λ t,
  Tpws (hostlists t) (ipsets t) (desync_profiles t) (ipcache t) (ipcache_purge_prev t) (host_fail_purge_prev t) (fs t).

(** a connection *)
Record t_ctrack : Type := Ctrack {
  ct_l7proto : l7proto; bTamperInCutoff : bool;
  b_host_checked : bool; b_host_matches : bool; b_ah_check : bool;
  hostname_discovered : bool; hostname_is_ip : bool; hostname : option mem; dp : option nat
}.
#[export] Instance t_ctrack_eta : Eta t_ctrack := λ c,
  Ctrack (ct_l7proto c) (bTamperInCutoff c) (b_host_checked c) (b_host_matches c) (b_ah_check c)
    (hostname_discovered c) (hostname_is_ip c) (hostname c) (dp c).

(** of a new connection, which the client may have named a host for *)
Definition new_ctrack (name : option mem) (is_ip : bool) : t_ctrack :=
  Ctrack UNKNOWN false false false false false is_ip name None.

(** a [struct sockaddr] of one of the two families, or of another *)
Record sockaddr : Type := Sockaddr { sa_addr : ip_dest; sa_port : Z }.
Definition saport (dest : sockaddr) : Z := match sa_addr dest with InNone => 0 | _ => sa_port dest end.

(** [params.c] *)
Definition HOSTLIST_AUTO_FAIL_THRESHOLD_DEFAULT : Z := 3.
Definition HOSTLIST_AUTO_FAIL_TIME_DEFAULT : Z := 60.
Definition dp_init (d : profile) : profile :=
  d <| hl_collection := [] |> <| hl_collection_exclude := [] |>
    <| ips_collection := [] |> <| ips_collection_exclude := [] |> <| pf_tcp := [] |>
    <| filter_ipv4 := true |> <| filter_ipv6 := true |>
    <| pr_dp := DesyncProfile
         (dp_unixeol (pr_dp d)) (dp_methodeol (pr_dp d)) (dp_methodspace (pr_dp d)) (dp_hostdot (pr_dp d))
         (dp_hosttab (pr_dp d)) (dp_domcase (pr_dp d)) (dp_hostnospace (pr_dp d)) (dp_hostcase (pr_dp d))
         (bytes_of "host") (dp_hostpad (pr_dp d)) (dp_splits (pr_dp d)) (dp_tlsrec (pr_dp d))
         (dp_split_any_protocol (pr_dp d)) (dp_disorder (pr_dp d)) (dp_disorder_http (pr_dp d))
         (dp_disorder_tls (pr_dp d)) (dp_oob (pr_dp d)) (dp_oob_http (pr_dp d)) (dp_oob_tls (pr_dp d)) |>
    <| hostlist_auto_fail_threshold := HOSTLIST_AUTO_FAIL_THRESHOLD_DEFAULT |>
    <| hostlist_auto_fail_time := HOSTLIST_AUTO_FAIL_TIME_DEFAULT |>.
(** what [calloc] gives *)
Definition zero_profile : profile :=
  Profile (DesyncProfile false false false false false false false false (repeat x00 4) 0 [] (ProtoPos 0 PM_ABS)
      false false false false false false false) 0 0 false 0 false 0
    false false [] 0 [] [] [] [] None 0 0 ∅.
Definition dp_list_add (room : bool) (head : list profile) : option (list profile) :=
  if room then Some (head ++ [dp_init zero_profile]) else None.

(** [helpers.c]: the name or address without blanks, brackets and port, and
    whether it is an address *)
Section strip.
Context (inet_pton : Z → mem → option mem).
Fixpoint skip_blanks (host : mem) : mem :=
  match host with c :: h => if blank (zb c) then skip_blanks h else host | [] => [] end.
Fixpoint before (c : Z) (h : mem) : mem * bool :=
  match h with
  | [] => ([], false)
  | x :: h => if zb x =? c then ([], true) else let '(a, b) := before c h in (x :: a, b)
  end.
Definition strip_host_to_ip (host : mem) : mem * bool :=
  let is_ip family s := bool_decide (is_Some (inet_pton family s)) in
  match skip_blanks host with
  | c :: ((_ :: _) as h) =>
      if zb c =? ch "[" then
        let '(l, closed) := before (ch "]") h in
        if closed : bool then (l, is_ip AF_INET6 l) else (host, false)
      else if is_ip AF_INET6 (c :: h) then (c :: h, true)
      else let l := (before (ch ":") (c :: h)).1 in (l, is_ip AF_INET l)
  | _ => (host, false)
  end.
End strip.

(** ** Operations *)

Section profile.
(** memory: for a name in a list, an address in the cache, a copy of a string,
    a failure counter; unpacking; addresses in text; the files that may be
    written; the options [--cache-hostname] and [--ipcache-lifetime] *)
Context (alloc : hostlist_pool → mem → bool) (room : ip_cache → ip_dest → bool).
Context (strdup : mem → bool) (room_fail : hostfail_pool → mem → bool) (room_prefix : tree elem → mem → bool).
Context (z_readfile : mem → option mem) (inet_pton : Z → mem → option mem) (writable : mem → bool).
Context (cache_hostname : bool) (ipcache_lifetime : Z).
(** [time(NULL)] *)
Context (now : Z).
Implicit Types (st : tpws) (ct : t_ctrack) (dest : sockaddr).

(** *** Names by address *)

Definition ipcache_put_hostname st (a : ip_dest) (name : mem) (is_ip : bool) : tpws * bool :=
  if negb cache_hostname then (st, true) else
  let '(c, ipc) := ipcacheTouch room now (ipcache st) a in
  let st := st <| ipcache := c |> in
  match ipc with
  | None => (st, false)
  | Some ipc =>
      if bool_decide (ic_hostname ipc = Some name) then (st, true) else
      if strdup name then
        (st <| ipcache := ipcache_set c a (ipc <| ic_hostname := Some name |> <| ic_hostname_is_ip := is_ip |>) |>, true)
      else (st <| ipcache := ipcache_set c a (ipc <| ic_hostname := None |>) |>, false)
  end.

(** [char hostname[256]]; what [*hostname_is_ip] becomes, where it is written *)
Definition ipcache_get_hostname st (a : ip_dest) : tpws * bool * mem * option bool :=
  if negb cache_hostname then (st, true, [], None) else
  let '(c, ipc) := ipcacheTouch room now (ipcache st) a in
  let st := st <| ipcache := c |> in
  match ipc with
  | None => (st, false, [], None)
  | Some ipc => match ic_hostname ipc with
      | Some name => (st, true, take 255 name, Some (ic_hostname_is_ip ipc))
      | None => (st, true, [], None)
      end
  end.

(** *** The profile of a connection *)

Definition autos st : list nat := omap hostlist_auto (desync_profiles st).
Definition hostlists_reload st (p : profile) : res (tpws * bool) :=
  '(files, ok) ← HostlistsReloadCheckForProfile alloc z_readfile (autos st) (fs st) (hostlists st)
    (hl_collection p) (hl_collection_exclude p);
  Ok (st <| hostlists := files |>, ok).
Definition ipset_check st (p : profile) (a : ip_dest) : res (tpws * bool) :=
  '(files, ok) ← IpsetCheck room_prefix inet_pton z_readfile (fs st) (ipsets st)
    (ips_collection p) (ips_collection_exclude p) a;
  Ok (st <| ipsets := files |>, ok).
(** the answer, [*excluded] *)
Definition hostlist_check st (p : profile) (name : mem) (nosub skip_reload : bool) : res (tpws * bool * bool) :=
  '(files, r, excluded) ← HostlistCheck alloc z_readfile (autos st) (fs st) (hostlists st)
    (hl_collection p) (hl_collection_exclude p) name nosub skip_reload;
  Ok (st <| hostlists := files |>, r, excluded).

Definition PROFILE_HOSTLISTS_EMPTY st (p : profile) : bool :=
  hostlist_collection_is_empty (hostlists st) (hl_collection p)
  && hostlist_collection_is_empty (hostlists st) (hl_collection_exclude p).

Definition dp_match st (p : profile) dest (name : option mem) (nosub : bool) (proto : l7proto) : res (tpws * bool) :=
  '(st, ok) ← hostlists_reload st p;
  if negb ok then Ok (st, false) else
  if match sa_addr dest with In4 _ => negb (filter_ipv4 p) | In6 _ => negb (filter_ipv6 p) | InNone => false end
  then Ok (st, false) else
  if negb (port_filters_in_range (pf_tcp p) (saport dest)) then Ok (st, false) else
  if negb (filter_l7 p =? 0) && negb (l7_proto_match proto (filter_l7 p)) then Ok (st, false) else
  let empty := PROFILE_HOSTLISTS_EMPTY st p in
  let auto := bool_decide (is_Some (hostlist_auto p)) in
  if negb auto && bool_decide (name = None) && negb empty then Ok (st, false) else
  '(st, ok) ← ipset_check st p (sa_addr dest);
  if negb ok then Ok (st, false) else
  if auto then Ok (st, true) else
  if empty then Ok (st, true) else
  match name with
  | Some name => '(st, r, _) ← hostlist_check st p name nosub true; Ok (st, r)
  | None => Ok (st, false)
  end.

(** the profiles from [i] on *)
Fixpoint dp_find_from st (i : nat) (head : list profile) dest (name : option mem) (nosub : bool) (proto : l7proto)
  : res (tpws * option nat) :=
  match head with
  | [] => Ok (st, None)
  | p :: head =>
      '(st, ok) ← dp_match st p dest name nosub proto;
      if ok : bool then Ok (st, Some i) else dp_find_from st (Datatypes.S i) head dest name nosub proto
  end.
Definition dp_find st dest (name : option mem) (nosub : bool) (proto : l7proto) : res (tpws * option nat) :=
  dp_find_from st 0 (desync_profiles st) dest name nosub proto.

Definition apply_desync_profile st ct dest : res (tpws * t_ctrack) :=
  let '(c, prev) := ipcachePurgeRateLimited now ipcache_lifetime (ipcache st) (ipcache_purge_prev st) in
  let st := st <| ipcache := c |> <| ipcache_purge_prev := prev |> in
  let '(st, ct) := match hostname ct with
    | Some _ => (st, ct)
    | None =>
        let '(st, ok, host, is_ip) := ipcache_get_hostname st (sa_addr dest) in
        let ct := match is_ip with Some b => ct <| hostname_is_ip := b |> | None => ct end in
        (st, if ok && negb (bool_decide (host = [])) && strdup host then ct <| hostname := Some host |> else ct)
    end in
  '(st, i) ← dp_find st dest (hostname ct) (hostname_is_ip ct) (ct_l7proto ct);
  Ok (st, ct <| dp := i |>).

(** [tpws_conn.c]: the connection to [dest] is about to be made; with the
    maximum segment size to make it with *)
Definition connect_remote_conn st ct dest : res (tpws * t_ctrack * Z) :=
  let st := match hostname ct with
    | Some name => (ipcache_put_hostname st (sa_addr dest) name (hostname_is_ip ct)).1
    | None => st
    end in
  '(st, ct) ← apply_desync_profile st ct dest;
  match dp ct with
  | None => Ok (st, ct, 0)
  | Some i => match desync_profiles st !! i with
      | None => UB
      | Some p =>
          if (mss p =? 0) || negb (bool_decide (is_Some (hostlist_auto p))) then Ok (st, ct, mss p) else
          match hostname ct with
          | None => Ok (st, ct, mss p)
          | Some name =>
              '(st, r, bHostExcluded) ← hostlist_check st p name (hostname_is_ip ct) false;
              let ct := ct <| b_host_matches := r |> <| b_host_checked := true |> in
              Ok (if r : bool then (st, ct, mss p) else (st, ct <| b_ah_check := negb bHostExcluded |>, 0))
          end
      end
  end.

(** *** An outgoing request *)

(** what the segment is: the protocol, of an HTTP request the method's length
    and the place of its Host header, the host it names *)
Definition inspect (segment : mem) (size : Z) : res (l7proto * Z * option Z * option mem) :=
  m ← HttpMethod segment size;
  match m with
  | Some method =>
      pHost ← HttpFindHost None segment size;
      match pHost with
      | Some h =>
          p ← skip_while segment (h + 5) size blank;
          pp ← skip_while segment p (Z.min size (p + 255)) (λ c, negb (eol c));
          Ok (HTTP, len method - 2, pHost, Some (map lower (c_str (slice segment p (pp - p)))))
      | None => Ok (HTTP, len method - 2, None, None)
      end
  | None =>
      tls ← IsTLSClientHello segment size false;
      if tls : bool then
        '(ok, Host) ← TLSHelloExtractHost segment size (repeat x00 256) false;
        Ok (TLS, 0, None, if ok : bool then Some (c_str Host) else None)
      else Ok (UNKNOWN, 0, None, None)
  end.

(** the connection learns the protocol and the host, and its profile anew;
    [None]: out of memory *)
Definition discover st ct dest (proto : l7proto) (Host : option (mem * bool)) : res (tpws * t_ctrack * bool) :=
  let st := match Host with
    | Some (host, is_ip) => (ipcache_put_hostname st (sa_addr dest) host is_ip).1
    | None => st
    end in
  let bDiscoveredL7 := bool_decide (ct_l7proto ct = UNKNOWN) && negb (bool_decide (proto = UNKNOWN)) in
  let ct := if bDiscoveredL7 then ct <| ct_l7proto := proto |> else ct in
  let found := match Host with
    | Some (host, is_ip) =>
        if hostname_discovered ct then Some (ct, false)
        else if strdup host then
          Some (ct <| hostname := Some host |> <| hostname_is_ip := is_ip |> <| hostname_discovered := true |>, true)
        else None
    | None => Some (ct, false)
    end in
  match found with
  | None => Ok (st, ct <| hostname := None |>, false)
  | Some (ct, bDiscoveredHostname) =>
      if bDiscoveredL7 || bDiscoveredHostname then
        '(st, ct') ← apply_desync_profile st ct dest;
        Ok (st, if bool_decide (dp ct' = dp ct) then ct'
                else ct' <| b_host_checked := false |> <| b_ah_check := false |>, true)
      else Ok (st, ct, true)
  end.

(** whether to act on the request: the automatic host list *)
Definition auto_check st ct (proto : l7proto) (Host : option (mem * bool)) : res (tpws * t_ctrack * bool) :=
  if bool_decide (proto = UNKNOWN) then Ok (st, ct, true) else
  match dp ct ≫= (λ i, desync_profiles st !! i) with
  | None => UB
  | Some p =>
      if negb (bool_decide (is_Some (hostlist_auto p))) then Ok (st, ct, true) else
      '(st, ct) ← match Host with
        | Some (host, is_ip) =>
            if b_host_checked ct then Ok (st, ct) else
            '(st, r, bHostExcluded) ← hostlist_check st p host is_ip false;
            let ct := ct <| b_host_matches := r |> <| b_host_checked := true |> in
            Ok (st, if r : bool then ct else ct <| b_ah_check := negb bHostExcluded |>)
        | None => Ok (st, ct)
        end;
      Ok (st, ct, b_host_matches ct)
  end.

(** what [tamper_out] answers: the segment, its size, the split positions,
    the split flags *)
Record outgoing : Type := Outgoing { out_segment : mem; out_size : Z; out_pos : list Z; out_flags : Z }.

Section out.
Context (rnd : nat → Z) (address : Z).

(** from the recognition of the request on *)
Definition tamper_request st ct dest (segment : mem) (bufsize size : Z) : res (tpws * t_ctrack * outgoing) :=
  '(proto, method_len, pHost, Host) ← inspect segment size;
  let Host := option_map (strip_host_to_ip inet_pton) Host in
  '(st, ct, go_on) ← discover st ct dest proto Host;
  if negb go_on then Ok (st, ct, Outgoing segment size [] 0) else
  '(st, ct, act) ← auto_check st ct proto Host;
  if negb act then Ok (st, ct, Outgoing segment size [] 0) else
  match dp ct ≫= (λ i, desync_profiles st !! i) with
  | None => UB
  | Some p =>
      '(segment, size, pos, flags) ← tamper_segment rnd address (pr_dp p) proto segment bufsize size method_len pHost 0;
      Ok (st, ct, Outgoing segment size pos flags)
  end.

(** [pos] and [flags]: what the caller's variables hold *)
Definition tamper_out st ct dest (segment : mem) (bufsize size : Z) (pos : list Z) (flags : Z)
  : res (tpws * t_ctrack * outgoing) :=
  match dp ct, sa_addr dest with
  | None, _ | _, InNone => Ok (st, ct, Outgoing segment size pos flags)
  | _, _ => tamper_request st ct dest segment bufsize size
  end.
End out.

(** *** The automatic host list *)

Definition set_counters st (i : nat) (c : hostfail_pool) : tpws :=
  st <| desync_profiles := alter (λ p, p <| hostlist_auto_fail_counters := c |>) i (desync_profiles st) |>.

(** a line at the end of the file *)
Definition append_to_list_file (files : mem → file) (filename s : mem) : (mem → file) * bool :=
  if writable filename then
    let text := default [] (f_data (files filename)) ++ s ++ [x0a] in
    (λ name, if bool_decide (name = filename) then File (Some (FileModSig now (len text))) (Some text) else files name, true)
  else (files, false).
Definition file_mod_signature (files : mem → file) (filename : mem) : file_mod_sig :=
  default FILE_MOD_RESET (f_stat (files filename)).

Definition auto_hostlist_reset_fail_counter st (i : nat) (name : option mem) : res tpws :=
  match name, desync_profiles st !! i with
  | None, _ => Ok st
  | Some _, None => UB
  | Some name, Some p =>
      match HostFailPoolFind (hostlist_auto_fail_counters p) name with
      | Some _ => Ok (set_counters st i (HostFailPoolDel (hostlist_auto_fail_counters p) name))
      | None => Ok st
      end
  end.

(** the name goes into the list and to the end of its file *)
Definition auto_hostlist_add st (j : nat) (name : mem) : res tpws :=
  match hostlists st !! j with
  | None => UB
  | Some f => match lf_filename f with
      | None => UB
      | Some filename =>
          let '(pool, ok) := HostlistPoolAddStr alloc (lf_pool f) name 0 in
          let f := f <| lf_pool := pool |> in
          if negb ok then Ok (st <| hostlists := <[j := f]> (hostlists st) |>) else
          let '(files, ok) := append_to_list_file (fs st) filename name in
          let f := if ok : bool then f <| lf_mod_sig := file_mod_signature files filename |> else f in
          Ok (st <| hostlists := <[j := f]> (hostlists st) |> <| fs := files |>)
      end
  end.

Definition auto_hostlist_failed st (i : nat) (name : mem) (nosub : bool) : res tpws :=
  match desync_profiles st !! i with
  | None => UB
  | Some p =>
      let pool := hostlist_auto_fail_counters p in
      match match HostFailPoolFind pool name with
            | Some _ => Some pool
            | None => HostFailPoolAdd (room_fail pool name) now pool name (hostlist_auto_fail_time p)
            end with
      | None => Ok st
      | Some pool =>
          let counter := match HostFailPoolFind pool name with Some c => hf_counter c + 1 | None => 0 end in
          let pool := alter (λ c, c <| hf_counter := counter |>) name pool in
          if negb (hostlist_auto_fail_threshold p <=? counter) then Ok (set_counters st i pool) else
          let st := set_counters st i (HostFailPoolDel pool name) in
          '(st, r, bExcluded) ← hostlist_check st p name nosub false;
          if negb r && negb bExcluded then
            match hostlist_auto p with
            | Some j => auto_hostlist_add st j name
            | None => UB
            end
          else Ok st
      end
  end.

(** the counters that have run out *)
Definition fail_purge st (i : nat) : res tpws :=
  match desync_profiles st !! i with
  | None => UB
  | Some p =>
      let '(pool, prev) := HostFailPoolPurgeRateLimited now (hostlist_auto_fail_counters p) (host_fail_purge_prev st) in
      Ok (set_counters st i pool <| host_fail_purge_prev := prev |>)
  end.

(** a reply from the server *)
Definition tamper_in st ct (segment : mem) (size : Z) : res (tpws * t_ctrack) :=
  st ← match dp ct with
    | Some i =>
        if negb (b_ah_check ct) then Ok st else
        st ← fail_purge st i;
        bFail ← match ct_l7proto ct, hostname ct with
          | HTTP, Some name =>
              reply ← IsHttpReply segment size;
              if reply : bool then HttpReplyLooksLikeDPIRedirect segment size (name ++ [x00]) else Ok false
          | _, _ => Ok false
          end;
        if bFail : bool then
          match hostname ct with
          | Some name => auto_hostlist_failed st i name (hostname_is_ip ct)
          | None => UB
          end
        else auto_hostlist_reset_fail_counter st i (hostname ct)
    | None => Ok st
    end;
  Ok (st, ct <| bTamperInCutoff := true |>).

(** the server's RST, and a client that hangs up ([hup_out] is the same) *)
Definition rst_in st ct : res tpws :=
  match dp ct with
  | Some i =>
      if negb (b_ah_check ct) then Ok st else
      st ← fail_purge st i;
      match hostname ct with
      | Some name => if bTamperInCutoff ct then Ok st else auto_hostlist_failed st i name (hostname_is_ip ct)
      | None => Ok st
      end
  | None => Ok st
  end.
Definition hup_out st ct : res tpws :=
  match dp ct with
  | Some i =>
      if negb (b_ah_check ct) then Ok st else
      st ← fail_purge st i;
      match hostname ct with
      | Some name => if bTamperInCutoff ct then Ok st else auto_hostlist_failed st i name (hostname_is_ip ct)
      | None => Ok st
      end
  | None => Ok st
  end.
End profile.
