(* ===== verification/TpRequestSpec.v ===== *)
(** * tpws: reading a request and rewriting it stay inside the segment

    What [tamper_out] needs of [TpProtocol] and [TpTamper] for any segment:
    the recognition of its protocol and host ([wp_inspect]), the tricks and
    the cut of a TLS record ([wp_tamper_segment]); and of a reply
    ([wp_redirect]). *)

From Stdlib Require Import ZArith Lia Bool List.
From Stdlib Require Import Strings.Byte Strings.String Strings.Ascii.
From stdpp Require Import base tactics list numbers option gmap.
From stdpp Require Import sorting.
From S2P Require Import Prelude CMem PacketsTls TpProtocol TpProtocolSpec TpTamper TpTamperSpec TpFiles TpHostlist TpProfile.

(** ** Recognising a request *)

Lemma wp_HttpMethod data n : n <= len data → wp (HttpMethod data n) (λ r, HttpMethod data n = Ok r).
Proof.
  intros Hn. apply wp_iff. unfold HttpMethod. induction http_methods as [|m ms IH]; cbn [first_method]; [by eexists|].
  destruct (Z.leb_spec (len m) n).
  - assert (Hw : wp (memcmp data 0 m 0 (len m)) (λ _, True)).
    { apply wp_memcmp; [apply len_nonneg|lia..|done]. }
    destruct (memcmp data 0 m 0 (len m)) as [d| |]; [|done|done]. rewrite !bind_Ok.
    destruct (d =? 0); [by eexists|]. destruct IH as (r & -> & _). by eexists.
  - rewrite bind_Ok. destruct IH as (r & -> & _). by eexists.
Qed.

(** a C string of [slen] characters in the buffer *)
Definition ends_at (buf : mem) (slen : Z) : Prop := ∃ pre post, buf = pre ++ x00 :: post ∧ len pre = slen.

Lemma wp_copy_lower buf src p slen :
  0 <= p → 0 <= slen → p + slen <= len src → slen < len buf →
  wp (copy_lower buf src p slen) (λ buf', len buf' = len buf ∧ ends_at buf' slen).
Proof.
  intros Hp Hs Hsrc Hb. set (a := take (Z.to_nat p) src). set (b := slice src p slen).
  set (c := drop (Z.to_nat (p + slen)) src).
  assert (Hlb : len b = slen) by (apply len_slice; lia).
  assert (Hla : len a = p) by (unfold a, len in *; rewrite length_take; lia).
  assert (E : src = a ++ b ++ c).
  { unfold a, b, c, slice. rewrite <- (take_drop (Z.to_nat p) src) at 1. f_equal.
    rewrite <- (take_drop (Z.to_nat slen) (drop (Z.to_nat p) src)) at 1. f_equal. rewrite drop_drop. f_equal. lia. }
  rewrite E. replace p with (len a). replace slen with (len b).
  rewrite copy_lower_spec by lia. simpl. split.
  - rewrite len_app, len_cons. unfold len at 2. rewrite length_drop.
    assert (len (TpProtocolSpec.lower b) = len b) by (unfold len, TpProtocolSpec.lower; by rewrite length_map).
    unfold len in *. lia.
  - eexists _, _. split; [done|]. unfold len, TpProtocolSpec.lower. by rewrite length_map.
Qed.

Lemma wp_TLSHelloExtractHost m n host partial :
  n <= len m → wp (TLSHelloExtractHost m n host partial) (λ '(_, host'), len host' = len host).
Proof.
  intros Hn. unfold TLSHelloExtractHost. wp_use wp_TLSFindExt; [done|]. intros [[ext elen]|] Hr; [|done].
  destruct (Hr ext elen eq_refl) as (? & ? & ?). unfold TLSExtractHostFromExt.
  wp_use wp_TLSAdvanceToHostInSNI; [lia|lia|]. intros [[[o e] k]|] Ho; [|done].
  destruct (Ho o e k eq_refl) as (-> & ? & ?). pose proof (len_nonneg host).
  destruct (Z.eqb_spec (len host) 0); [done|].
  assert (0 <= (if len host <=? k then len host - 1 else k) <= k) by (destruct (Z.leb_spec (len host) k); lia).
  assert ((if len host <=? k then len host - 1 else k) < len host) by (destruct (Z.leb_spec (len host) k); lia).
  wp_use wp_copy_lower; [lia..|]. by intros host' [? _].
Qed.

(** what the segment was found to be *)
Definition inspected (segment : mem) (size : Z) (r : l7proto * Z * option Z * option mem) : Prop :=
  let '(proto, method_len, pHost, Host) := r in
  match proto with
  | HTTP => ∃ method, HttpMethod segment size = Ok (Some method) ∧ method_len = len method - 2
      ∧ HttpFindHost None segment size = Ok pHost
  | TLS => 6 <= size
  | UNKNOWN => Host = None
  | _ => False
  end ∧ ∀ host, Host = Some host → len host <= 256.

Lemma c_str_length m : len (c_str m) <= len m.
Proof. induction m as [|c m IH]; [done|]. simpl. rewrite len_cons. case_match; rewrite ?len_cons; [unfold len; simpl; lia|lia]. Qed.

Lemma wp_inspect segment size :
  0 <= size <= len segment → wp (inspect segment size) (inspected segment size).
Proof.
  intros Hs. unfold inspect. wp_use wp_HttpMethod; [lia|]. intros [method|] Em.
  - assert (Hw : wp (HttpFindHost None segment size) (host_in size)) by (apply wp_HttpFindHost; [lia|done|done]).
    apply wp_iff in Hw as (pHost & Eh & Hin). rewrite Eh, bind_Ok. destruct pHost as [h|]; [|by split; [eexists|]].
    destruct (Hin h eq_refl). wp_use wp_skip_while; [lia|lia|]. intros p Hp.
    wp_use wp_skip_while; [lia|lia|]. intros q Hq. simpl. split; [by eexists|]. intros host [= <-].
    unfold len. rewrite length_map. etransitivity; [apply c_str_length|]. rewrite len_slice; lia.
  - wp_use wp_IsTLSClientHello; [lia|]. intros [] Ht; [|by split].
    destruct (Ht eq_refl) as [H6 _]. wp_use wp_TLSHelloExtractHost; [lia|]. intros [ok Host] Hl. simpl.
    split; [done|]. intros host. destruct ok; [|done]. intros [= <-].
    etransitivity; [apply c_str_length|]. rewrite Hl. done.
Qed.

(** ** Rewriting it *)

Lemma wp_split_record segment bufsize size tpos :
  len segment = bufsize → 6 <= size → size + 5 <= bufsize → 5 < tpos → tpos < size →
  wp (split_record segment size tpos) (λ '(segment', size', tpos'),
    len segment' = bufsize ∧ (size' = size ∨ size' = size + 5)).
Proof.
  intros Hl H6 Hb H5 Ht. unfold split_record. wp_step. apply wp_pntoh16; [lia|lia|]. intros a b _ _.
  wp_step; [simpl; by split; [|left]|].
  set (t := if be16 a b <=? tpos - 5 then 5 + 1 else tpos).
  assert (Hti : 5 < t <= size) by (unfold t; case_match; lia).
  wp_step. apply wp_memmove_len; [lia..|]. intros m1 H1.
  wp_step. apply wp_rd; [lia|]. intros c1 _. wp_step. apply wp_wr_len; [lia|]. intros m2 H2.
  wp_step. apply wp_rd; [lia|]. intros c2 _. wp_step. apply wp_wr_len; [lia|]. intros m3 H3.
  wp_step. apply wp_rd; [lia|]. intros c3 _. wp_step. apply wp_wr_len; [lia|]. intros m4 H4.
  wp_step. unfold phton16. wp_step. apply wp_wr_len; [lia|]. intros m5 H5'. apply wp_wr_len; [lia|]. intros m6 H6'.
  wp_step. wp_step. apply wp_wr_len; [lia|]. intros m7 H7. apply wp_wr_len; [lia|]. intros m8 H8.
  simpl. split; [lia|by right].
Qed.

(** strictly increasing positions inside the request *)
Definition cuts (size : Z) (ps : list Z) : Prop := StronglySorted Z.lt ps ∧ Forall (λ p, 0 < p < size) ps.

Lemma cuts_shift size tpos ps : cuts size ps → cuts (size + 5) (map (λ p, if tpos <? p then p + 5 else p) ps).
Proof.
  intros [Hs Hi]. split.
  - induction Hs as [|p ps Hs IH Hp]; [constructor|]. apply Forall_cons in Hi as [_ Hi]. simpl. constructor; [by apply IH|].
    apply Forall_map. eapply Forall_impl; [exact Hp|]. intros q Hq. simpl.
    destruct (Z.ltb_spec tpos p), (Z.ltb_spec tpos q); lia.
  - apply Forall_map. eapply Forall_impl; [exact Hi|]. intros q Hq. simpl in *. destruct (tpos <? q); lia.
Qed.
Lemma cuts_mono size size' ps : size <= size' → cuts size ps → cuts size' ps.
Proof. intros Hle [Hs Hi]. split; [done|]. eapply Forall_impl; [exact Hi|]. intros q Hq. simpl in *. lia. Qed.

Lemma wp_cuts data sz proto splits :
  0 <= sz → sz <= len data → len data < 2 ^ 63 → wp (ResolveMultiPos data sz proto splits) (cuts sz).
Proof.
  intros H0 Hs Hl. eapply wp_mono; [by apply wp_ResolveMultiPos|]. intros ps [H1 H2]. split; [done|].
  apply Forall_forall. intros p [? _]%H2. done.
Qed.

Lemma wp_tamper_segment (rnd : nat → Z) (address : Z) dp proto segment bufsize size method_len pHost Host k :
  len (dp_hostspell dp) = 4 → 0 <= dp_hostpad dp < 2 ^ 31 →
  len segment = bufsize → bufsize < 2 ^ 63 → 0 <= size <= bufsize →
  inspected segment size (proto, method_len, pHost, Host) →
  wp (tamper_segment rnd address dp proto segment bufsize size method_len pHost k)
     (λ '(segment', size', ps, _), len segment' = bufsize ∧ 0 <= size' <= bufsize ∧ cuts size' ps).
Proof.
  intros Hspell Hpad Hl Hb Hs [Hi _]. unfold tamper_segment. destruct proto; try done.
  - wp_step. apply (wp_mono _ (cuts size)); [|done]. wp_step; [apply wp_cuts; lia|by split; constructor].
  - destruct Hi as (method & Em & -> & Eh). wp_use wp_tamper_http; [done..|].
    intros [[segment' size'] k'] [Hl' Hs']. wp_use wp_cuts; [lia..|]. done.
  - wp_use wp_cuts; [lia..|]. intros ps Hps. unfold tamper_tls. wp_step. wp_step; [|done].
    apply Z.leb_le in E. wp_use wp_ResolvePos; [lia..|]. intros tpos [Ht0 Ht]. wp_step; [|done].
    apply Z.ltb_lt in E0. wp_use (wp_split_record segment bufsize); [done|lia..|].
    intros [[segment' size'] tpos'] [Hl' Hs']. simpl. destruct (Z.eqb_spec size' size) as [->|]; [done|].
    destruct Hs' as [->| ->]; [done|]. split; [done|]. split; [lia|by apply cuts_shift].
Qed.

(** ** A reply *)

Lemma wp_tp_strncasestr s find slen :
  find ≠ [] → forallb (λ c, negb (zb c =? 0)) find = true → slen <= len s →
  wp (strncasestr s find slen) (λ r, ∀ p, r = Some p → 0 <= p ∧ p + len find <= slen).
Proof.
  intros Hne Hnz Hs. unfold strncasestr. destruct find as [|c find]; [done|]. rewrite len_cons.
  simpl in Hnz. apply andb_true_iff in Hnz as [_ Hnz]. pose proof (len_nonneg find).
  apply (wp_loop (λ '(p, l), 0 <= p ∧ p + l = slen) (λ '(_, l), Z.max 0 l)); [intros []; lia| |lia|lia].
  intros [p l] [Hp Hl]. wp_step; [done|]. wp_step. apply wp_rd; [lia|]. intros sc _. wp_step; [done|].
  wp_step; [simpl; lia|]. wp_step; [done|]. apply Z.ltb_ge in E2. wp_step. apply wp_strncasecmp; [lia|lia|done|].
  intros d _. destruct (d =? 0); simpl; [|lia]. intros q [= <-]. lia.
Qed.

Definition nul_at (m : mem) (z : Z) : Prop := rd m z = Ok x00.
Lemma ends_nul m z : ends_at m z → nul_at m z ∧ 0 <= z < len m.
Proof.
  intros (pre & post & -> & <-). split; [by eapply rd_head|].
  pose proof (len_nonneg pre). pose proof (len_nonneg post). rewrite len_app, len_cons. lia.
Qed.

Lemma wp_HttpExtractHeader data n header buf :
  header ≠ [] → forallb (λ c, negb (zb c =? 0)) header = true → n <= len data → 0 < len buf →
  wp (HttpExtractHeader data n header buf) (λ '(ok, b), len b = len buf ∧ (ok = true → ∃ z, ends_at b z)).
Proof.
  intros Hne Hnz Hn Hb. unfold HttpExtractHeader. wp_use wp_tp_strncasestr; [done..|]. intros [p|] Hp; [|done].
  destruct (Hp p eq_refl) as [Hp0 Hp1]. pose proof (len_nonneg header).
  wp_use wp_skip_while; [lia|lia|]. intros q Hq. wp_use wp_skip_while; [lia|lia|]. intros s Hs. wp_step; [|done].
  apply Z.ltb_lt in E. destruct (Z.eqb_spec (len buf) 0); [lia|]. set (k := s - q).
  assert (0 <= (if len buf <=? k then len buf - 1 else k) <= k) by (destruct (Z.leb_spec (len buf) k); lia).
  assert ((if len buf <=? k then len buf - 1 else k) < len buf) by (destruct (Z.leb_spec (len buf) k); lia).
  wp_use wp_copy_lower; [lia..|]. intros b [Hlb He]. simpl. split; [done|]. intros _. by eexists.
Qed.

Lemma wp_strlen s p z : 0 <= p <= z → nul_at s z → wp (strlen s p) (λ r, 0 <= r ∧ p + r <= z).
Proof.
  intros Hp Hz. pose proof (rd_bounds _ _ _ Hz). unfold strlen.
  apply (wp_loop (λ i, 0 <= i ∧ p + i <= z) (λ i, z - p - i)); [lia| |lia|unfold len in *; lia].
  intros i Hi. wp_step. apply wp_rd; [lia|]. intros c Hc. destruct (Z.eqb_spec (zb c) 0) as [|Hne]; simpl; [lia|].
  destruct (decide (p + i = z)) as [E|]; [|lia]. unfold nul_at in Hz. rewrite E, Hz in Hc. by injection Hc as <-.
Qed.

Lemma wp_strcasecmp a i za b j zb' :
  0 <= i <= za → nul_at a za → 0 <= j <= zb' → nul_at b zb' → wp (strcasecmp a i b j) (λ _, True).
Proof.
  intros Hi Ha Hj Hb. pose proof (rd_bounds _ _ _ Ha). pose proof (rd_bounds _ _ _ Hb). unfold strcasecmp.
  apply (wp_loop (λ k, 0 <= k ∧ i + k <= za ∧ j + k <= zb') (λ k, za - i - k)); [lia| |lia|unfold len in *; lia].
  intros k Hk. wp_step. apply wp_rd; [lia|]. intros x Hx. wp_step. apply wp_rd; [lia|]. intros y Hy. cbv zeta. simpl.
  destruct (Z.eqb_spec (tolower (zb x) - tolower (zb y)) 0) as [Hd|]; [|done].
  destruct (Z.eqb_spec (zb x) 0) as [|Hne]; [done|]. simpl. unfold nul_at in *.
  assert (i + k ≠ za) by (intros E; rewrite E, Ha in Hx; by injection Hx as <-).
  assert (j + k ≠ zb').
  { intros E. rewrite E, Hb in Hy. injection Hy as <-. apply Hne, tolower_0; [|apply zb_range].
    change (zb x00) with 0 in Hd. lia. }
  lia.
Qed.

(** a string that starts with [lit] is as long *)
Lemma lit_match_length (lit pre post : mem) :
  forallb (λ c, negb (zb c =? 0)) lit = true → lit_match id (pre ++ x00 :: post) lit = true → len lit <= len pre.
Proof.
  revert pre. induction lit as [|c lit IH]; intros pre Hnz Hm; [apply len_nonneg|].
  cbn [forallb] in Hnz. apply andb_true_iff in Hnz as [Hc Hnz]. destruct pre as [|x pre]; cbn [lit_match app] in Hm.
  - apply andb_true_iff in Hm as [Hm _]. unfold id in Hm. change (zb x00) with 0 in Hm.
    apply negb_true_iff, Z.eqb_neq in Hc. apply Z.eqb_eq in Hm. lia.
  - apply andb_true_iff in Hm as [_ Hm]. apply IH in Hm; [|done]. rewrite !len_cons. lia.
Qed.

(** the host of a redirect starts inside the string *)
Lemma wp_scheme {A} (loc : mem) (z : Z) (k : option Z → res A) (Q : A → Prop) :
  len loc = 256 → ends_at loc z → (∀ r, (∀ red, r = Some red → 0 <= red <= z) → wp (k r) Q) →
  wp (d ← strncmp loc 0 (bytes_of "http://") 7;
      red ← (if d =? 0 then Ok (Some 7) else
        d ← strncmp loc 0 (bytes_of "https://") 8;
        Ok (if d =? 0 then Some 8 else None));
      k red) Q.
Proof.
  intros Hl (pre & post & El & Ez) HK. pose proof (len_nonneg pre).
  wp_step. change 7 with (len (bytes_of "http://")). apply wp_strncmp; [lia|by rewrite Hl; vm_compute|by vm_compute|]. intros d Hd7.
  apply wp_bind. apply (wp_mono _ (λ r, ∀ red, r = Some red → 0 <= red <= z)); [|exact HK].
   assert (Hm : ∀ lit, forallb (λ c, negb (zb c =? 0)) lit = true → lit_match id (drop (Z.to_nat 0) loc) lit = true →
      0 <= len lit <= z).
    { intros lit Hnz Hm. rewrite El in Hm. apply lit_match_length in Hm; [|done]. pose proof (len_nonneg lit). lia. }
    destruct (Z.eqb_spec d 0) as [Ed|].
    - apply Hd7, Hm in Ed; [|by vm_compute]. intros red [= <-]. exact Ed.
    - wp_step. change 8 with (len (bytes_of "https://")). apply wp_strncmp; [lia|by rewrite Hl; vm_compute|by vm_compute|].
      intros d' Hd8. destruct (Z.eqb_spec d' 0) as [Ed|]; simpl; [|done].
      apply Hd8, Hm in Ed; [|by vm_compute]. intros red [= <-]. exact Ed.
Qed.

Lemma wp_redirect data n host :
  14 < n → n <= len data → len host <= 256 → wp (HttpReplyLooksLikeDPIRedirect data n (host ++ [x00])) (λ _, True).
Proof.
  intros Hn Hd Hh. unfold HttpReplyLooksLikeDPIRedirect. set (h := host ++ [x00]).
  assert (Hhn : nul_at h (len host)) by by eapply rd_head.
  assert (Hhl : len h = len host + 1) by (unfold h; by rewrite len_app). pose proof (len_nonneg host).
  wp_step. apply wp_rd; [lia|]. intros h0 _. wp_step; [done|].
  unfold HttpReplyCode. do 2 wp_step. apply wp_rd; [lia|]. intros c9 _. wp_step. apply wp_rd; [lia|]. intros c10 _.
  wp_step. apply wp_rd; [lia|]. intros c11 _. wp_step. wp_step; [done|].
  wp_use wp_HttpExtractHeader; [done|by vm_compute|done|by vm_compute|]. intros [ok loc] [Hl Hz]. change (len (repeat x00 256)) with 256 in Hl.
  destruct ok; [|done]. destruct (Hz eq_refl) as (z & Hends). pose proof (ends_nul _ _ Hends) as [Hnul Hzr].
  cbn [negb]. apply (wp_scheme _ z); [done|done|].
  intros [red|] Hred; [|done]. specialize (Hred red eq_refl).
  apply wp_bind, (wp_mono _ (λ p, red <= p <= z)).
  { apply (wp_loop (λ p, red <= p <= z) (λ p, z - p)); [lia| |lia|unfold len in *; lia].
    intros p Hp. wp_step. apply wp_rd; [lia|]. intros c Hc. destruct (Z.eqb_spec (zb c) 0) as [|Hne]; simpl; [lia|].
    destruct (zb c =? ch "/"); simpl; [lia|]. destruct (decide (p = z)) as [->|]; [|lia].
    unfold nul_at in Hnul. rewrite Hnul in Hc. by injection Hc as <-. }
  intros p Hp. wp_step. apply wp_wr; [lia|]. set (loc' := <[_ := _]> loc).
  assert (Hl' : len loc' = 256) by (unfold loc'; by rewrite len_insert).
  assert (Hn' : nul_at loc' p) by (apply rd_insert_eq; lia).
  wp_step. apply wp_rd; [lia|]. intros r0 _. wp_step; [done|].
  wp_use wp_strlen; [|exact Hhn|]; [lia|]. intros hl Hhl2. wp_use wp_FindNLD; [lia..|]. intros [[dhost dl]|] Hdh; [|done].
  wp_use wp_strlen; [|exact Hn'|]; [lia|]. intros rl Hrl. wp_use wp_FindNLD; [lia..|]. intros [[drhost drl]|] Hdr; [|done].
  wp_use wp_strcasecmp; [|exact Hhn| |exact Hn'|]; [lia|lia|]. done.
Qed.
