(* ===== verification/TpProfileSpec.v ===== *)
(** * tpws, profiles: every run is safe

    Through every sequence of connections, requests, replies, resets and
    hang-ups, with the list files changing in between, tpws stays inside its
    segments and its lists, never uses a missing profile or automatic list,
    and every function returns ([tpws_runs]). *)

From Stdlib Require Import ZArith Lia Bool List.
From Stdlib Require Import Strings.Byte Strings.String Strings.Ascii.
From stdpp Require Import base tactics list numbers option countable gmap.
From S2P Require Import Prelude CMem Kavl MPool TpProtocol TpProtocolSpec TpTamper TpTamperSpec TpPools TpFiles TpFilesSpec.
From S2P Require Import TpHostlist TpHostlistSpec TpIpset TpIpsetSpec TpProfile TpRequestSpec.

(** ** The invariant *)

(** what the options make sure of: places in the lists that exist, a spelling
    of four letters, a padding, a threshold; counters are below the threshold *)
Record profile_ok (nh ns : nat) (p : profile) : Prop := ProfileOk {
  po_ips : Forall (λ i, (i < ns)%nat) (ips_collection p);
  po_ips_exclude : Forall (λ i, (i < ns)%nat) (ips_collection_exclude p);
  po_hl : Forall (λ i, (i < nh)%nat) (hl_collection p);
  po_hl_exclude : Forall (λ i, (i < nh)%nat) (hl_collection_exclude p);
  po_hostspell : len (dp_hostspell (pr_dp p)) = 4;
  po_hostpad : 0 <= dp_hostpad (pr_dp p) < 2 ^ 31;
  po_threshold : 1 <= hostlist_auto_fail_threshold p <= 20;
  po_counters : map_Forall (λ _ c, 1 <= hf_counter c < hostlist_auto_fail_threshold p) (hostlist_auto_fail_counters p)
}.

(** a profile like the one tpws adds behind the user's *)
Definition catches_all (p : profile) : Prop :=
  ips_collection p = [] ∧ ips_collection_exclude p = [] ∧ hl_collection p = [] ∧ hl_collection_exclude p = []
  ∧ pf_tcp p = [] ∧ filter_ipv4 p = true ∧ filter_ipv6 p = true ∧ filter_l7 p = 0 ∧ hostlist_auto p = None.

Section safety.
Context (alloc : hostlist_pool → mem → bool) (room : ip_cache → ip_dest → bool).
Context (strdup : mem → bool) (room_fail : hostfail_pool → mem → bool) (room_prefix : tree elem → mem → bool).
Context (z_readfile : mem → option mem) (inet_pton : Z → mem → option mem) (writable : mem → bool).
Context (cache_hostname : bool) (ipcache_lifetime : Z).
Context (Hpton4 : ∀ s a, inet_pton AF_INET s = Some a → len a = 4).
Context (Hpton6 : ∀ s a, inet_pton AF_INET6 s = Some a → len a = 16).

Record tpws_ok (st : tpws) : Prop := TpwsOk {
  ok_profiles : Forall (profile_ok (length (hostlists st)) (length (ipsets st))) (desync_profiles st);
  ok_auto : ∀ p j, p ∈ desync_profiles st → hostlist_auto p = Some j →
    ∃ f name, hostlists st !! j = Some f ∧ lf_filename f = Some name
      ∧ Forall (λ g, lf_filename g ≠ Some name) (ipsets st);
  ok_last : ∃ p, last (desync_profiles st) = Some p ∧ catches_all p;
  ok_sets : pools_ok ips_room (ipsets st);
  ok_files : fits_memory no_ips z_readfile ips_room (fs st) (ipsets st)
}.

Record ct_ok (st : tpws) (ct : t_ctrack) : Prop := CtOk {
  ct_dp : ∀ i, dp ct = Some i → (i < length (desync_profiles st))%nat;
  ct_auto : b_ah_check ct = true →
    ∀ i, dp ct = Some i → ∃ p, desync_profiles st !! i = Some p ∧ is_Some (hostlist_auto p);
  ct_name : ∀ name, hostname ct = Some name → len name <= 256
}.

(** reading the lists again changes nothing but their contents *)
Record reloads (st st' : tpws) : Prop := Reloads {
  rl_profiles : desync_profiles st' = desync_profiles st;
  rl_fs : fs st' = fs st;
  rl_hostlists : same_names (hostlists st) (hostlists st');
  rl_ipsets : same_names (ipsets st) (ipsets st');
  rl_pools : pools_ok ips_room (ipsets st) → pools_ok ips_room (ipsets st')
}.

Lemma reloads_refl st : reloads st st.
Proof. done. Qed.
Lemma reloads_trans st1 st2 st3 : reloads st1 st2 → reloads st2 st3 → reloads st1 st3.
Proof.
  intros [H1 H2 H3 H4 H5] [K1 K2 K3 K4 K5]. unfold same_names in *. split; [congruence..|auto].
Qed.
(** operations that leave the lists alone *)
Lemma reloads_other st st' :
  desync_profiles st' = desync_profiles st → fs st' = fs st → hostlists st' = hostlists st → ipsets st' = ipsets st →
  reloads st st'.
Proof. intros H1 H2 H3 H4. unfold same_names. by split; rewrite ?H3, ?H4. Qed.

Lemma reloads_ok st st' : reloads st st' → tpws_ok st → tpws_ok st'.
Proof.
  intros [H1 H2 H3 H4 H5] [K1 K2 K3 K4 K5]. split.
  - by rewrite H1, (same_names_length _ _ H3), (same_names_length _ _ H4).
  - rewrite H1. intros p j Hp Hj. destruct (K2 p j Hp Hj) as (f & name & Ef & En & Hg).
    destruct (same_names_lookup _ _ _ _ H3 Ef) as (f' & Ef' & En'). exists f', name. split; [done|].
    split; [congruence|]. rewrite <- (Forall_fmap lf_filename (λ o, o ≠ Some name)) in Hg |- *. by rewrite H4.
  - by rewrite H1.
  - auto.
  - rewrite H2. by eapply fits_memory_names.
Qed.
Lemma reloads_ct st st' ct : reloads st st' → ct_ok st ct → ct_ok st' ct.
Proof. intros [H1 _ _ _ _] [K1 K2 K3]. by split; rewrite ?H1. Qed.

Lemma ok_profile st i : tpws_ok st → (i < length (desync_profiles st))%nat →
  ∃ p, desync_profiles st !! i = Some p ∧ p ∈ desync_profiles st ∧ profile_ok (length (hostlists st)) (length (ipsets st)) p.
Proof.
  intros Hok Hi. destruct (lookup_lt_is_Some_2 _ _ Hi) as [p Ep]. exists p. split; [done|].
  split; [by eapply list_elem_of_lookup_2|]. by eapply (Forall_lookup_1 _ _ _ _ (ok_profiles _ Hok)).
Qed.

(** ** The profile of a connection *)

Lemma wp_hostlists_reload st p :
  profile_ok (length (hostlists st)) (length (ipsets st)) p →
  wp (hostlists_reload alloc z_readfile st p) (λ '(st', _), reloads st st').
Proof.
  intros []. unfold hostlists_reload. wp_use reload_profile_total; [done..|]. intros [files ok] Hn. done.
Qed.
Lemma wp_ipset_check st p a :
  tpws_ok st → profile_ok (length (hostlists st)) (length (ipsets st)) p → dest_ok a →
  wp (ipset_check room_prefix z_readfile inet_pton st p a) (λ '(st', _), reloads st st').
Proof.
  intros Hok [] Ha. unfold ipset_check. wp_use ipset_check_total; [done..|apply Hok|apply Hok|].
  intros [files ok] [Hn Hp]. done.
Qed.
Lemma wp_hostlist_check st p name nosub skip :
  profile_ok (length (hostlists st)) (length (ipsets st)) p →
  wp (hostlist_check alloc z_readfile st p name nosub skip) (λ '(st', _, _), reloads st st').
Proof. intros []. unfold hostlist_check. wp_use check_total; [done..|]. intros [[files r] x] Hn. done. Qed.

Lemma reloads_profile st st' p :
  reloads st st' → profile_ok (length (hostlists st)) (length (ipsets st)) p →
  profile_ok (length (hostlists st')) (length (ipsets st')) p.
Proof. intros [_ _ H3 H4 _]. by rewrite (same_names_length _ _ H3), (same_names_length _ _ H4). Qed.

Lemma wp_dp_match st p dest name nosub proto :
  tpws_ok st → profile_ok (length (hostlists st)) (length (ipsets st)) p → dest_ok (sa_addr dest) →
  wp (dp_match alloc room_prefix z_readfile inet_pton st p dest name nosub proto) (λ '(st', _), reloads st st').
Proof.
  intros Hok Hp Hd. unfold dp_match. wp_use wp_hostlists_reload; [done|]. intros [st1 ok1] R1.
  do 5 (wp_step; [done|]).
  assert (Hok1 : tpws_ok st1) by by eapply reloads_ok. assert (Hp1 := reloads_profile _ _ _ R1 Hp).
  wp_use wp_ipset_check; [done..|]. intros [st2 ok2] R2. assert (R : reloads st st2) by by eapply reloads_trans.
  do 3 (wp_step; [done|]). destruct name as [name|]; [|done].
  wp_use wp_hostlist_check; [by eapply reloads_profile|]. intros [[st3 r] x] R3. simpl. by eapply reloads_trans.
Qed.

(** the last profile takes every connection *)
Lemma dp_match_last st p dest name nosub proto :
  catches_all p → ∃ st', dp_match alloc room_prefix z_readfile inet_pton st p dest name nosub proto = Ok (st', true).
Proof.
  intros (H1 & H2 & H3 & H4 & H5 & H6 & H7 & H8 & H9).
  unfold dp_match, hostlists_reload, ipset_check, PROFILE_HOSTLISTS_EMPTY. rewrite H1, H2, H3, H4, H5, H6, H7, H8, H9.
  cbn. destruct (sa_addr dest); cbn; rewrite ?andb_false_r; by eexists.
Qed.

Lemma wp_dp_find_from head dest name nosub proto : ∀ st i,
  tpws_ok st → Forall (profile_ok (length (hostlists st)) (length (ipsets st))) head → dest_ok (sa_addr dest) →
  (∃ p, last head = Some p ∧ catches_all p) →
  wp (dp_find_from alloc room_prefix z_readfile inet_pton st i head dest name nosub proto)
    (λ '(st', r), reloads st st' ∧ ∃ k, r = Some k ∧ (k < i + length head)%nat).
Proof.
  induction head as [|p head IH]; intros st i Hok Hh Hd (q & Hq & Hc); [done|].
  apply Forall_cons in Hh as [Hp Hh]. cbn [dp_find_from].
  assert (Hw : wp (dp_match alloc room_prefix z_readfile inet_pton st p dest name nosub proto)
    (λ '(st', b), reloads st st' ∧ (b = false → head ≠ []))).
  { pose proof (wp_dp_match st p dest name nosub proto Hok Hp Hd) as Hm. destruct head as [|p' head].
    - injection Hq as ->. destruct (dp_match_last st q dest name nosub proto Hc) as (st' & E). rewrite E in *. done.
    - eapply wp_mono; [exact Hm|]. by intros [st' b]. }
  apply wp_bind. eapply wp_mono; [exact Hw|]. intros [st1 b] [R1 Hb]. destruct b.
  { simpl. split; [done|]. exists i. split; [done|lia]. }
  destruct head as [|p' head]; [by specialize (Hb eq_refl)|].
  eapply wp_mono; [apply IH|].
  - by eapply reloads_ok.
  - eapply Forall_impl; [exact Hh|]. intros x. by apply reloads_profile.
  - done.
  - by exists q.
  - intros [st' r] (R & k & -> & Hk). split; [by eapply reloads_trans|]. exists k. simpl in *. split; [done|lia].
Qed.

#[local] Abbreviation apply_profile := (apply_desync_profile alloc room strdup room_prefix z_readfile inet_pton cache_hostname ipcache_lifetime).

(** names of a cached host come out shortened to the buffer *)
Lemma ipcache_get_reloads (now : Z) st a :
  let '(st', _, host, _) := ipcache_get_hostname room cache_hostname now st a in
  reloads st st' ∧ len host <= 256.
Proof.
  unfold ipcache_get_hostname. destruct (negb cache_hostname); [done|].
  destruct (ipcacheTouch _ _ _ _) as [c [ipc|]]; [|by split; [apply reloads_other|]].
  destruct (ic_hostname ipc); (split; [by apply reloads_other|]); [|done]. unfold len. rewrite length_take. lia.
Qed.

Lemma wp_apply (now : Z) st ct dest :
  tpws_ok st → (∀ name, hostname ct = Some name → len name <= 256) → dest_ok (sa_addr dest) →
  wp (apply_profile now st ct dest) (λ '(st', ct'), reloads st st'
    ∧ (∃ k, dp ct' = Some k ∧ (k < length (desync_profiles st'))%nat)
    ∧ (∀ name, hostname ct' = Some name → len name <= 256)
    ∧ b_ah_check ct' = b_ah_check ct).
Proof.
  intros Hok Hn Hd. unfold apply_desync_profile. destruct (ipcachePurgeRateLimited _ _ _ _) as [c prev].
  set (st1 := st <| ipcache := c |> <| ipcache_purge_prev := prev |>).
  assert (R1 : reloads st st1) by by apply reloads_other.
  set (q := match hostname ct with Some _ => _ | None => _ end).
  assert (Hq : let '(st2, ct2) := q in reloads st st2 ∧ (∀ name, hostname ct2 = Some name → len name <= 256)
    ∧ b_ah_check ct2 = b_ah_check ct).
  { unfold q. destruct (hostname ct) as [name|] eqn:En; [split; [done|by rewrite En]|].
    pose proof (ipcache_get_reloads now st1 (sa_addr dest)) as Hg.
    destruct (ipcache_get_hostname _ _ _ _ _) as [[[st2 ok] host] is_ip]. destruct Hg as [R2 Hl].
    split; [by eapply reloads_trans|]. destruct is_ip; destruct (_ && strdup host); simpl; (split; [|done]);
      rewrite ?En; by intros ? [= <-]. }
  destruct q as [st2 ct2]. destruct Hq as (R2 & Hn2 & Hb). pose proof (reloads_ok _ _ R2 Hok) as Hok2.
  unfold dp_find. wp_use wp_dp_find_from; [done|apply Hok2|done|apply Hok2|].
  intros [st3 r] (R3 & k & -> & Hk). simpl. split; [by eapply reloads_trans|]. split; [|done].
  exists k. split; [done|]. rewrite (rl_profiles _ _ R3). lia.
Qed.

Lemma ipcache_put_reloads (now : Z) st a name is_ip :
  reloads st (ipcache_put_hostname room strdup cache_hostname now st a name is_ip).1.
Proof.
  unfold ipcache_put_hostname. destruct (negb cache_hostname); [done|].
  destruct (ipcacheTouch _ _ _ _) as [c [ipc|]]; [|by apply reloads_other].
  case_bool_decide; [by apply reloads_other|]. by destruct (strdup name); apply reloads_other.
Qed.

Lemma wp_discover (now : Z) st ct dest proto Host :
  tpws_ok st → ct_ok st ct → dest_ok (sa_addr dest) →
  (∀ name is_ip, Host = Some (name, is_ip) → len name <= 256) → is_Some (dp ct) →
  wp (discover alloc room strdup room_prefix z_readfile inet_pton cache_hostname ipcache_lifetime now st ct dest proto Host)
    (λ '(st', ct', _), reloads st st' ∧ ct_ok st' ct' ∧ is_Some (dp ct')).
Proof.
  intros Hok Hct Hd Hh Hdp. unfold discover.
  set (st1 := match Host with Some (host, is_ip) => (ipcache_put_hostname room strdup cache_hostname now st (sa_addr dest) host is_ip).1
    | None => st end).
  assert (R1 : reloads st st1) by (unfold st1; destruct Host as [[]|]; [apply ipcache_put_reloads|done]).
  pose proof (reloads_ok _ _ R1 Hok) as Hok1. pose proof (reloads_ct _ _ _ R1 Hct) as Hct1.
  set (l7 := bool_decide _ && _). set (ct1 := if l7 then _ else ct).
  assert (H1 : ct_ok st1 ct1 ∧ dp ct1 = dp ct ∧ hostname_discovered ct1 = hostname_discovered ct)
    by (unfold ct1; destruct l7; [|done]; split; [by destruct Hct1|done]).
  destruct H1 as (Hct1' & Edp & Edisc). set (found := match Host with Some _ => _ | None => _ end).
  assert (Hf : match found with Some (ct2, _) => ct_ok st1 ct2 ∧ dp ct2 = dp ct | None => True end).
  { unfold found. destruct Host as [[host is_ip]|]; [|done]. destruct (hostname_discovered ct1); [done|].
    destruct (strdup host); [|done]. split; [|done]. destruct Hct1' as [K1 K2 K3]. split; simpl; [done|done|].
    intros name [= <-]. by eapply Hh. }
  destruct found as [[ct2 b]|]; cycle 1.
  { simpl. split; [done|]. split; [|by rewrite Edp]. destruct Hct1' as [K1 K2 K3]. by split. }
  destruct Hf as [Hct2 Edp2]. wp_step; [|simpl; rewrite Edp2; done].
  wp_use wp_apply; [done|by destruct Hct2|done|]. intros [st3 ct3] (R3 & (k & Ek & Hk) & Hn & Hb). simpl.
  split; [by eapply reloads_trans|]. case_bool_decide as Hsame; simpl.
  - split; [|by rewrite Ek]. split; [by intros i; rewrite Ek; intros [= <-]| |done].
    rewrite Hb, Hsame, (rl_profiles _ _ R3). apply Hct2.
  - split; [|by rewrite Ek]. split; [by intros i; simpl; rewrite Ek; intros [= <-]|done|done].
Qed.

Lemma wp_auto_check st ct proto Host :
  tpws_ok st → ct_ok st ct → is_Some (dp ct) →
  wp (auto_check alloc z_readfile st ct proto Host) (λ '(st', ct', _), reloads st st' ∧ ct_ok st' ct' ∧ is_Some (dp ct')).
Proof.
  intros Hok Hct [i Ei]. unfold auto_check. wp_step; [done|]. rewrite Ei. simpl.
  destruct (ok_profile st i Hok) as (p & Ep & _ & Hp); [by eapply ct_dp|]. rewrite Ep.
  wp_step; [simpl; by rewrite Ei|]. apply negb_false_iff, bool_decide_eq_true in E0. rename E0 into Hauto. apply wp_bind.
  apply (wp_mono _ (λ '(st', ct'), reloads st st' ∧ ct_ok st' ct' ∧ dp ct' = Some i)); [|intros [st' ct'] (? & ? & E'); simpl; by rewrite E'].
  destruct Host as [[host is_ip]|]; [|done]. wp_step; [done|].
  wp_use wp_hostlist_check; [done|]. intros [[st1 r] x] R1. simpl. split; [done|].
  pose proof (reloads_ct _ _ _ R1 Hct) as [K1 K2 K3].
  destruct r; (split; [|done]); (split; [done| |done]); [done|]. intros _ j. simpl. rewrite Ei. intros [= <-].
  exists p. by rewrite (rl_profiles _ _ R1).
Qed.

(** what a rewritten request looks like *)
Definition out_ok (bufsize : Z) (pos : list Z) (out : outgoing) : Prop :=
  len (out_segment out) = bufsize ∧ 0 <= out_size out <= bufsize
  ∧ (out_pos out = pos ∨ cuts (out_size out) (out_pos out)).

Lemma strip_length host : len (strip_host_to_ip inet_pton host).1 <= len host.
Proof.
  assert (Hb : ∀ h, len (skip_blanks h) <= len h).
  { induction h as [|c h IH]; [done|]. simpl. rewrite len_cons. destruct (blank _); rewrite ?len_cons; lia. }
  assert (Hbef : ∀ c h, len (before c h).1 <= len h).
  { intros c. induction h as [|x h IH]; [done|]. simpl. rewrite len_cons. pose proof (len_nonneg h).
    destruct (_ =? _); [simpl; unfold len at 1; simpl; lia|]. destruct (before c h). simpl in *. rewrite len_cons. lia. }
  unfold strip_host_to_ip. specialize (Hb host). destruct (skip_blanks host) as [|c [|d h]] eqn:E; [simpl; lia|simpl; lia|].
  rewrite len_cons in Hb. destruct (_ =? _).
  - pose proof (Hbef (ch "]") (d :: h)). destruct (before (ch "]") (d :: h)) as [l []]; cbn [fst] in *; lia.
  - case_bool_decide; [cbn [fst]; rewrite len_cons; lia|]. pose proof (Hbef (ch ":") (c :: d :: h)) as H'. rewrite len_cons in H'.
    cbn [fst]. lia.
Qed.

Lemma wp_tamper_request (rnd : nat → Z) (address now : Z) st ct dest segment bufsize size pos :
  tpws_ok st → ct_ok st ct → dest_ok (sa_addr dest) → is_Some (dp ct) →
  len segment = bufsize → bufsize < 2 ^ 63 → 0 <= size <= bufsize →
  wp (tamper_request alloc room strdup room_prefix z_readfile inet_pton cache_hostname ipcache_lifetime now rnd address
        st ct dest segment bufsize size)
    (λ '(st', ct', out), reloads st st' ∧ ct_ok st' ct' ∧ out_ok bufsize pos out).
Proof.
  intros Hok Hct Hd Hdp Hl Hb Hs. unfold tamper_request.
  assert (Hnone : ∀ s, out_ok bufsize pos (Outgoing segment size [] s)).
  { intros s. split; [done|]. split; [done|]. right. by split; constructor. }
  wp_use wp_inspect; [lia|]. intros [[[proto mlen] pHost] Host] Hi.
  wp_use wp_discover; [done|done|done| |done|].
  { intros name is_ip E. destruct Host as [host|]; [|done]. injection E as E.
    pose proof (strip_length host). rewrite E in *. simpl in *. destruct Hi as [_ Hi]. specialize (Hi host eq_refl). lia. }
  intros [[st1 ct1] go] (R1 & Hct1 & Hdp1). destruct go; [|done]. cbn [negb].
  pose proof (reloads_ok _ _ R1 Hok) as Hok1. wp_use wp_auto_check; [done..|].
  intros [[st2 ct2] act] (R2 & Hct2 & [i Ei]). assert (R : reloads st st2) by by eapply reloads_trans.
  destruct act; [|done]. cbn [negb]. pose proof (reloads_ok _ _ R2 Hok1) as Hok2. rewrite Ei. simpl.
  destruct (ok_profile st2 i Hok2) as (p & Ep & _ & Hp); [by eapply ct_dp|]. rewrite Ep.
  wp_use wp_tamper_segment; [apply Hp|apply Hp|done|done|done|exact Hi|].
  intros [[[seg' size'] ps] fl] (Hl' & Hs' & Hps). simpl. split; [done|]. split; [done|]. split; [done|].
  split; [done|by right].
Qed.

Lemma wp_tamper_out (rnd : nat → Z) (address now : Z) st ct dest segment bufsize size pos flags :
  tpws_ok st → ct_ok st ct → dest_ok (sa_addr dest) →
  len segment = bufsize → bufsize < 2 ^ 63 → 0 <= size <= bufsize →
  wp (tamper_out alloc room strdup room_prefix z_readfile inet_pton cache_hostname ipcache_lifetime now rnd address
        st ct dest segment bufsize size pos flags)
    (λ '(st', ct', out), reloads st st' ∧ ct_ok st' ct' ∧ out_ok bufsize pos out).
Proof.
  intros Hok Hct Hd Hl Hb Hs. unfold tamper_out.
  assert (H0 : out_ok bufsize pos (Outgoing segment size pos flags)) by (split; [done|]; split; [done|by left]).
  destruct (dp ct) as [i|] eqn:Ei; [|done]. destruct (sa_addr dest) eqn:Ea; [| |done];
    (apply wp_tamper_request; rewrite ?Ea, ?Ei; done || by eexists).
Qed.

(** ** The automatic list *)

(** the state is still in order, and so is every connection *)
Record keeps (st st' : tpws) : Prop := Keeps {
  kp_ok : tpws_ok st';
  kp_ct : ∀ ct, ct_ok st ct → ct_ok st' ct;
  kp_sets : same_names (ipsets st) (ipsets st')
}.

Lemma keeps_trans st1 st2 st3 : keeps st1 st2 → keeps st2 st3 → keeps st1 st3.
Proof. intros [_ K1 K2] [K3 K4 K5]. unfold same_names in *. split; [done|auto|congruence]. Qed.
Lemma reloads_keeps st st' : tpws_ok st → reloads st st' → keeps st st'.
Proof. intros Hok R. split; [by eapply reloads_ok| |apply R]. intros ct. by apply reloads_ct. Qed.

Definition counters_ok (p : profile) (c : hostfail_pool) : Prop :=
  map_Forall (λ _ c, 1 <= hf_counter c < hostlist_auto_fail_threshold p) c.

Lemma set_counters_keeps st i p c :
  desync_profiles st !! i = Some p → counters_ok p c → tpws_ok st → keeps st (set_counters st i c).
Proof.
  intros Ep Hc [K1 K2 K3 K4 K5]. set (f := λ p, p <| hostlist_auto_fail_counters := c |>).
  assert (Hlook : ∀ j q, alter f i (desync_profiles st) !! j = Some q → ∃ q0, desync_profiles st !! j = Some q0 ∧ (q = q0 ∨ q = f q0)).
  { intros j q. rewrite list_lookup_alter. case_decide; [subst j|by eauto].
    destruct (desync_profiles st !! i) as [q0|] eqn:E0; simpl; [|done]. intros [= <-]. by eauto. }
  split.
  - unfold set_counters. split; simpl; [| | |exact K4|exact K5].
    + apply Forall_lookup. intros j q Hq. rewrite list_lookup_alter in Hq. case_decide as Hj.
      * subst j. rewrite Ep in Hq. injection Hq as <-. pose proof (Forall_lookup_1 _ _ _ _ K1 Ep) as [].
        by split.
      * by eapply (Forall_lookup_1 _ _ _ _ K1).
    + intros q j Hq Hj. apply list_elem_of_lookup in Hq as [k Hq]. apply Hlook in Hq as (q0 & E0 & Eq).
      apply (K2 q0); [by eapply list_elem_of_lookup_2|]. by destruct Eq as [-> | ->].
    + destruct K3 as (q & Hq & Hcatch). rewrite last_lookup in *. rewrite length_alter.
      rewrite list_lookup_alter. case_decide as Hk; [|by eauto]. rewrite Hk, Hq. by exists (f q).
  - intros ct [C1 C2 C3]. split; simpl; [by rewrite length_alter| |done].
    intros Hb k Hk. destruct (C2 Hb k Hk) as (q & Eq & Ha). rewrite list_lookup_alter. case_decide as Hik; [|by eauto].
    rewrite Hik, Eq. by exists (f q).
  - done.
Qed.

Lemma wp_fail_purge (now : Z) st i :
  tpws_ok st → (i < length (desync_profiles st))%nat → wp (fail_purge now st i) (keeps st).
Proof.
  intros Hok Hi. unfold fail_purge. destruct (ok_profile st i Hok Hi) as (p & Ep & _ & Hp). rewrite Ep.
  destruct (HostFailPoolPurgeRateLimited _ _ _) as [pool prev] eqn:Eq. simpl.
  assert (Hc : counters_ok p pool).
  { unfold HostFailPoolPurgeRateLimited in Eq. destruct (negb _); injection Eq as <- _; [|apply Hp].
    intros n c [Hn _]%map_lookup_filter_Some. by apply (po_counters _ _ _ Hp n). }
  eapply keeps_trans; [by eapply set_counters_keeps|]. apply reloads_keeps; [|by apply reloads_other].
  by eapply set_counters_keeps.
Qed.

Lemma wp_reset st i name :
  tpws_ok st → (i < length (desync_profiles st))%nat → wp (auto_hostlist_reset_fail_counter st i name) (keeps st).
Proof.
  intros Hok Hi. unfold auto_hostlist_reset_fail_counter. destruct name as [name|]; [|done].
  destruct (ok_profile st i Hok Hi) as (p & Ep & _ & Hp). rewrite Ep. destruct (HostFailPoolFind _ _); [|done]. simpl.
  eapply set_counters_keeps; [done| |done]. unfold HostFailPoolDel. intros n c [_ Hn]%lookup_delete_Some. by apply (po_counters _ _ _ Hp n).
Qed.

Lemma wp_auto_add (now : Z) st j name :
  tpws_ok st →
  (∃ f fn, hostlists st !! j = Some f ∧ lf_filename f = Some fn ∧ Forall (λ g, lf_filename g ≠ Some fn) (ipsets st)) →
  wp (auto_hostlist_add alloc writable now st j name) (keeps st).
Proof.
  intros Hok (f & fn & Ef & En & Hapart). unfold auto_hostlist_add. rewrite Ef, En.
  destruct (HostlistPoolAddStr _ _ _ _) as [pool ok].
  assert (Hkeep : ∀ f' st1, lf_filename f' = Some fn → keeps st st1 →
    hostlists st1 = hostlists st → keeps st (st1 <| hostlists := <[j := f']> (hostlists st) |>)).
  { intros f' st1 En' K Eh. eapply keeps_trans; [exact K|]. apply reloads_keeps; [by apply K|]. split; try done. simpl.
    rewrite Eh. eapply same_names_insert; [done|]. by rewrite En, En'. }
  destruct ok; [|by apply (Hkeep _ st)]. cbn [negb]. unfold append_to_list_file. destruct (writable fn); cbv zeta iota.
  - set (files := λ name0 : mem, if bool_decide (name0 = fn) then _ else fs st name0).
    assert (K : keeps st (st <| fs := files |>)).
    { split; [|by intros ct []|done]. destruct Hok as [K1 K2 K3 K4 K5]. split; simpl; [done..|].
      apply Forall_forall. intros g Hg n Hn. unfold fits_memory in K5. rewrite Forall_forall in K5, Hapart. unfold files.
      rewrite bool_decide_false; [by apply (K5 g Hg)|]. intros ->. by apply (Hapart g). }
    apply wp_ok. set (f' := f <| lf_pool := _ |> <| lf_mod_sig := _ |>). exact (Hkeep f' _ En K eq_refl).
  - by apply (Hkeep _ st).
Qed.

Lemma wp_auto_failed (now : Z) st i p name nosub :
  tpws_ok st → desync_profiles st !! i = Some p → is_Some (hostlist_auto p) →
  wp (auto_hostlist_failed alloc room_fail z_readfile writable now st i name nosub) (keeps st).
Proof.
  intros Hok Ep [j Ej]. unfold auto_hostlist_failed. rewrite Ep.
  destruct (ok_profile st i Hok) as (q & Eq & Hin & Hp); [by eapply lookup_lt_Some|].
  rewrite Ep in Eq. injection Eq as <-. pose proof (po_counters _ _ _ Hp) as Hc.
  set (o := match HostFailPoolFind _ _ with Some _ => _ | None => _ end).
  assert (Ho : match o with Some c => map_Forall (λ n c, hf_counter c < hostlist_auto_fail_threshold p ∧ 0 <= hf_counter c ∧ (n ≠ name → 1 <= hf_counter c)) c | None => True end).
  { assert (H0 : map_Forall (λ n c, hf_counter c < hostlist_auto_fail_threshold p ∧ 0 <= hf_counter c ∧ (n ≠ name → 1 <= hf_counter c)) (hostlist_auto_fail_counters p)).
    { intros n c E. specialize (Hc n c E). simpl in Hc. lia. }
    unfold o. destruct (HostFailPoolFind _ _); [done|]. unfold HostFailPoolAdd. destruct (room_fail _ _); [|done].
    apply map_Forall_insert_2; [|done]. pose proof (po_threshold _ _ _ Hp). simpl. split; [lia|]. split; [lia|done]. }
  destruct o as [pool|]; [|done]. cbv zeta. set (counter := match HostFailPoolFind pool name with Some _ => _ | None => _ end).
  wp_step; simpl.
  - apply negb_true_iff, Z.leb_gt in E. eapply set_counters_keeps; [done| |done]. intros n c Hn.
    apply lookup_alter_Some in Hn as [(-> & c0 & E0 & ->)|[Hne Hn]].
    + simpl. unfold counter, HostFailPoolFind in *. rewrite E0 in *. destruct (Ho _ _ E0) as (? & ? & _). lia.
    + destruct (Ho _ _ Hn) as (? & ? & H1). simpl. specialize (H1 ltac:(congruence)). lia.
  - set (st1 := set_counters st i _). assert (K1 : keeps st st1).
    { eapply set_counters_keeps; [done| |done]. unfold HostFailPoolDel. intros n c [Hne Hn]%lookup_delete_Some.
      rewrite lookup_alter_ne in Hn by done. destruct (Ho _ _ Hn) as (? & ? & H1). simpl.
      specialize (H1 ltac:(congruence)). lia. }
    wp_use wp_hostlist_check; [done|]. intros [[st2 r] x] R2.
    assert (K2 : keeps st st2) by (eapply keeps_trans; [exact K1|]; by apply reloads_keeps; [apply K1|]).
    wp_step; [|done]. rewrite Ej. eapply wp_mono; [|intros st3 K3; by eapply keeps_trans; [exact K2|exact K3]].
    apply wp_auto_add; [by apply K2|]. destruct (ok_auto _ Hok p j Hin Ej) as (f & fn & Ef & En & Hg).
    destruct R2 as [_ _ R3 R4 _]. destruct (same_names_lookup _ _ _ _ R3 Ef) as (f' & Ef' & En').
    exists f', fn. split; [done|]. split; [by rewrite En'|].
    rewrite <- (Forall_fmap lf_filename (λ o, o ≠ Some fn)) in Hg |- *. by rewrite R4.
Qed.

(** ** Replies, resets, hang-ups *)

Lemma ct_profile st ct i : tpws_ok st → ct_ok st ct → dp ct = Some i → b_ah_check ct = true →
  ∃ p, desync_profiles st !! i = Some p ∧ is_Some (hostlist_auto p).
Proof. intros _ [_ H _] Hi Hb. by apply H. Qed.

Lemma wp_lost (now : Z) st ct i name :
  tpws_ok st → ct_ok st ct → dp ct = Some i → b_ah_check ct = true →
  wp (auto_hostlist_failed alloc room_fail z_readfile writable now st i name (hostname_is_ip ct)) (keeps st).
Proof.
  intros Hok Hct Hi Hb. destruct (ct_profile st ct i Hok Hct Hi Hb) as (p & Ep & Ha). by eapply wp_auto_failed.
Qed.

Lemma wp_rst_in (now : Z) st ct : tpws_ok st → ct_ok st ct →
  wp (rst_in alloc room_fail z_readfile writable now st ct) (keeps st).
Proof.
  intros Hok Hct. assert (K0 : keeps st st) by done. unfold rst_in. destruct (dp ct) as [i|] eqn:Ei; [|done].
  destruct (b_ah_check ct) eqn:Eb; [|done]. cbn [negb].
  wp_use wp_fail_purge; [done|by eapply ct_dp|]. intros st1 K1. destruct (hostname ct) as [name|]; [|done].
  destruct (bTamperInCutoff ct); [done|].
  eapply wp_mono; [apply wp_lost; [apply K1|by apply K1|done|done]|]. intros st2 K2. by eapply keeps_trans.
Qed.
Lemma hup_rst (now : Z) st ct :
  hup_out alloc room_fail z_readfile writable now st ct = rst_in alloc room_fail z_readfile writable now st ct.
Proof. done. Qed.

Lemma wp_IsHttpReply data n : n <= len data → wp (IsHttpReply data n) (λ b, b = true → 14 < n).
Proof.
  intros Hn. unfold IsHttpReply. wp_step; [done|]. apply negb_false_iff, Z.ltb_lt in E.
  wp_step. apply wp_memcmp; [lia|lia|lia|lia|by vm_compute|].
  wp_step; [done|]. apply wp_bytes_in; [lia|simpl; lia|done].
Qed.

Lemma wp_tamper_in (now : Z) st ct segment size : tpws_ok st → ct_ok st ct → size <= len segment →
  wp (tamper_in alloc room_fail z_readfile writable now st ct segment size)
    (λ '(st', ct'), keeps st st' ∧ ct_ok st' ct').
Proof.
  intros Hok Hct Hs. unfold tamper_in. apply wp_bind. eapply (wp_mono _ (keeps st)).
  2:{ intros st' K. simpl. split; [done|]. destruct (kp_ct _ _ K ct Hct). by split. }
  destruct (dp ct) as [i|] eqn:Ei; [|done]. destruct (b_ah_check ct) eqn:Eb; [|done]. cbn [negb].
  wp_use wp_fail_purge; [done|by eapply ct_dp|]. intros st1 K1.
  assert (Hl : (i < length (desync_profiles st1))%nat) by (apply K1 in Hct; by eapply ct_dp).
  apply wp_bind, (wp_mono _ (λ bFail, bFail = true → ∃ name, hostname ct = Some name)).
  { destruct (ct_l7proto ct); try done. destruct (hostname ct) as [name|] eqn:En; [|done].
    wp_use wp_IsHttpReply; [done|]. intros [] H14; [|done].
    eapply wp_mono; [apply wp_redirect; [by apply H14|done|by eapply ct_name]|]. intros b _ _. by eexists. }
  intros [] Hf.
  - destruct (Hf eq_refl) as (name & ->). eapply wp_mono; [apply wp_lost; [apply K1|by apply K1|done|done]|].
    intros st2 K2. by eapply keeps_trans.
  - eapply wp_mono; [by apply wp_reset; [apply K1|]|]. intros st2 K2. by eapply keeps_trans.
Qed.

(** ** Runs *)

(** what happens to tpws: a connection is made; the [i]-th sends a request, gets
    a reply, is reset, or hangs up; files change *)
Inductive event : Type :=
  | Connect (name : option mem) (is_ip : bool) (dest : sockaddr)
  | Request (i : nat) (dest : sockaddr) (segment : mem) (size : Z) (rnd : nat → Z) (address : Z)
  | Reply (i : nat) (segment : mem) (size : Z)
  | Reset (i : nat)
  | HangUp (i : nat)
  | Edit (files : mem → file).

(** the events with the time they happen at *)
Definition handle (st : tpws) (cts : list t_ctrack) (now : Z) (e : event) : res (tpws * list t_ctrack) :=
  let on i k := match cts !! i with
    | None => Ok (st, cts)
    | Some ct => '(st, ct) ← k ct; Ok (st, <[i := ct]> cts)
    end in
  match e with
  | Connect name is_ip dest =>
      '(st, ct, _) ← connect_remote_conn alloc room strdup room_prefix z_readfile inet_pton cache_hostname ipcache_lifetime now
        st (new_ctrack name is_ip) dest;
      Ok (st, cts ++ [ct])
  | Request i dest segment size rnd address => on i (λ ct,
      '(st, ct, _) ← tamper_out alloc room strdup room_prefix z_readfile inet_pton cache_hostname ipcache_lifetime
        now rnd address st ct dest segment (len segment) size [] 0; Ok (st, ct))
  | Reply i segment size => on i (λ ct, tamper_in alloc room_fail z_readfile writable now st ct segment size)
  | Reset i => on i (λ ct, st ← rst_in alloc room_fail z_readfile writable now st ct; Ok (st, ct))
  | HangUp i => on i (λ ct, st ← hup_out alloc room_fail z_readfile writable now st ct; Ok (st, ct))
  | Edit files => Ok (st <| fs := files |>, cts)
  end.
Fixpoint handle_all (st : tpws) (cts : list t_ctrack) (es : list (Z * event)) : res (tpws * list t_ctrack) :=
  match es with
  | [] => Ok (st, cts)
  | (now, e) :: es => '(st, cts) ← handle st cts now e; handle_all st cts es
  end.

(** addresses of their family; segments that hold their bytes; files of
    addresses that a 32-bit count can number *)
Definition event_ok (sets : list (list_file ipset)) (e : event) : Prop :=
  match e with
  | Connect name _ dest => dest_ok (sa_addr dest) ∧ ∀ n, name = Some n → len n <= 256
  | Request _ dest segment size _ _ => dest_ok (sa_addr dest) ∧ 0 <= size <= len segment ∧ len segment < 2 ^ 63
  | Reply _ segment size => size <= len segment
  | Reset _ | HangUp _ => True
  | Edit files => fits_memory no_ips z_readfile ips_room files sets
  end.

Lemma wp_on st cts (i : nat) k :
  tpws_ok st → Forall (ct_ok st) cts →
  (∀ ct, ct_ok st ct → wp (k ct) (λ '(st', ct'), keeps st st' ∧ ct_ok st' ct')) →
  wp (match cts !! i with None => Ok (st, cts) | Some ct => '(st, ct) ← k ct; Ok (st, <[i := ct]> cts) end)
    (λ '(st', cts'), tpws_ok st' ∧ Forall (ct_ok st') cts' ∧ same_names (ipsets st) (ipsets st')).
Proof.
  intros Hok Hcts Hk. destruct (cts !! i) as [ct|] eqn:Ei; [|done].
  apply wp_bind. eapply wp_mono; [apply Hk; by eapply (Forall_lookup_1 _ _ _ _ Hcts)|].
  intros [st' ct'] (K & Hct). simpl. split; [apply K|]. split; [|apply K].
  apply Forall_insert; [|done]. eapply Forall_impl; [exact Hcts|]. apply K.
Qed.

Lemma wp_connect (now : Z) st ct dest :
  tpws_ok st → (∀ name, hostname ct = Some name → len name <= 256) → b_ah_check ct = false → dest_ok (sa_addr dest) →
  wp (connect_remote_conn alloc room strdup room_prefix z_readfile inet_pton cache_hostname ipcache_lifetime now st ct dest)
    (λ '(st', ct', _), reloads st st' ∧ ct_ok st' ct').
Proof.
  intros Hok Hn Hb Hd. unfold connect_remote_conn.
  set (st1 := match hostname ct with Some name => (ipcache_put_hostname room strdup cache_hostname now st (sa_addr dest) name _).1 | None => st end).
  assert (R1 : reloads st st1) by (unfold st1; destruct (hostname ct); [apply ipcache_put_reloads|done]).
  wp_use wp_apply; [by eapply reloads_ok|done|done|].
  intros [st2 ct2] (R2 & (k & Ek & Hk) & Hn2 & Hb2). assert (R : reloads st st2) by by eapply reloads_trans.
  assert (Hct2 : ct_ok st2 ct2) by (split; [rewrite Ek; by intros i [= <-]|by rewrite Hb2, Hb|done]).
  rewrite Ek. destruct (ok_profile st2 k) as (p & Ep & _ & Hp); [by eapply reloads_ok|done|]. rewrite Ep.
  wp_step; [done|]. apply orb_false_iff in E as [_ Ha]. apply negb_false_iff, bool_decide_eq_true in Ha.
  destruct (hostname ct2) as [name|]; [|done]. wp_use wp_hostlist_check; [done|]. intros [[st3 r] x] R3.
  assert (R' : reloads st st3) by by eapply reloads_trans.
  pose proof (reloads_ct _ _ _ R3 Hct2) as [K1 K2 K3]. destruct r; simpl; (split; [done|]); (split; [done| |done]); [done|].
  intros _ j. simpl. rewrite Ek. intros [= <-]. exists p. by rewrite (rl_profiles _ _ R3).
Qed.

Lemma wp_handle st cts now e :
  tpws_ok st → Forall (ct_ok st) cts → event_ok (ipsets st) e →
  wp (handle st cts now e) (λ '(st', cts'), tpws_ok st' ∧ Forall (ct_ok st') cts' ∧ same_names (ipsets st) (ipsets st')).
Proof.
  intros Hok Hcts He. unfold handle. destruct e as [name is_ip dest|i dest segment size rnd address|i segment size|i|i|files].
  - destruct He as [Hd Hn]. wp_use wp_connect; [done..|]. intros [[st' ct'] m] [R Hct]. simpl.
    split; [by eapply reloads_ok|]. split; [|apply R]. apply Forall_app. split; [|by constructor].
    eapply Forall_impl; [exact Hcts|]. intros ct. by apply reloads_ct.
  - destruct He as (Hd & Hs & Hl). apply wp_on; [done..|]. intros ct Hct. wp_use wp_tamper_out; [done|done|done|done|lia|lia|].
    intros [[st' ct'] out] (R & Hct' & _). split; [by apply reloads_keeps|done].
  - apply wp_on; [done..|]. intros ct Hct. by apply wp_tamper_in.
  - apply wp_on; [done..|]. intros ct Hct. wp_use wp_rst_in; [done|done|]. intros st' K. split; [done|by apply K].
  - apply wp_on; [done..|]. intros ct Hct. rewrite hup_rst. wp_use wp_rst_in; [done|done|]. intros st' K.
    split; [done|by apply K].
  - simpl. destruct Hok as [K1 K2 K3 K4 K5]. split; [by split|]. split; [|done].
    eapply Forall_impl; [exact Hcts|]. by intros ct [].
Qed.

Lemma wp_handle_all es : ∀ st cts,
  tpws_ok st → Forall (ct_ok st) cts → Forall (λ e, event_ok (ipsets st) e.2) es →
  wp (handle_all st cts es) (λ '(st', cts'), tpws_ok st' ∧ Forall (ct_ok st') cts').
Proof.
  induction es as [|[now e] es IH]; intros st cts Hok Hcts Hes; [done|]. apply Forall_cons in Hes as [He Hes].
  wp_use wp_handle; [done..|]. intros [st' cts'] (Hok' & Hcts' & Hn). apply IH; [done|done|].
  eapply Forall_impl; [exact Hes|]. intros [now' e']. destruct e'; try done. by apply fits_memory_names.
Qed.
End safety.

(** C17: every run of tpws, from any state whose lists are in order: whatever
    bytes arrive and whatever the list files come to hold, no function leaves
    a segment, a string or a list, dereferences a missing profile or automatic
    list, or fails to return; the failure counters stay below their
    thresholds. *)
Theorem tpws_runs alloc room strdup room_fail room_prefix z_readfile inet_pton writable cache_hostname ipcache_lifetime
    (st : tpws) (cts : list t_ctrack) (es : list (Z * event)) :
  (∀ s a, inet_pton AF_INET s = Some a → len a = 4) → (∀ s a, inet_pton AF_INET6 s = Some a → len a = 16) →
  tpws_ok z_readfile st → Forall (ct_ok st) cts → Forall (λ e, event_ok z_readfile (ipsets st) e.2) es →
  ∃ st' cts', handle_all alloc room strdup room_fail room_prefix z_readfile inet_pton writable cache_hostname ipcache_lifetime
      st cts es = Ok (st', cts')
    ∧ tpws_ok z_readfile st' ∧ Forall (ct_ok st') cts'
    ∧ Forall (λ p, map_Forall (λ _ c, 1 <= hf_counter c < hostlist_auto_fail_threshold p) (hostlist_auto_fail_counters p))
        (desync_profiles st').
Proof.
  intros H4 H6 Hok Hcts Hes.
  pose proof (wp_handle_all alloc room strdup room_fail room_prefix z_readfile inet_pton writable cache_hostname ipcache_lifetime
    H4 H6 es st cts Hok Hcts Hes) as Hw.
  apply wp_iff in Hw as ([st' cts'] & E & Hok' & Hcts'). exists st', cts'. split; [done|]. split; [done|]. split; [done|].
  eapply Forall_impl; [apply Hok'|]. by intros p [].
Qed.

(** What [tamper_out] makes of any segment fits its buffer, and the places
    to cut it at are strictly increasing and inside the request. *)
Theorem tamper_out_fits alloc room strdup room_prefix z_readfile inet_pton cache_hostname ipcache_lifetime
    (rnd : nat → Z) (address now : Z) (st : tpws) (ct : t_ctrack) (dest : sockaddr) (segment : mem) (size : Z) :
  (∀ s a, inet_pton AF_INET s = Some a → len a = 4) → (∀ s a, inet_pton AF_INET6 s = Some a → len a = 16) →
  tpws_ok z_readfile st → ct_ok st ct → dest_ok (sa_addr dest) → len segment < 2 ^ 63 → 0 <= size <= len segment →
  ∃ st' ct' out,
    tamper_out alloc room strdup room_prefix z_readfile inet_pton cache_hostname ipcache_lifetime now rnd address
      st ct dest segment (len segment) size [] 0 = Ok (st', ct', out)
    ∧ len (out_segment out) = len segment ∧ 0 <= out_size out <= len segment ∧ cuts (out_size out) (out_pos out).
Proof.
  intros H4 H6 Hok Hct Hd Hl Hs.
  pose proof (wp_tamper_out alloc room strdup room_prefix z_readfile inet_pton cache_hostname ipcache_lifetime H4 H6
    rnd address now st ct dest segment (len segment) size [] 0 Hok Hct Hd eq_refl Hl Hs) as Hw.
  apply wp_iff in Hw as ([[st' ct'] out] & E & _ & _ & Ho1 & Ho2 & Ho3). exists st', ct', out. split; [done|].
  split; [done|]. split; [done|]. destruct Ho3 as [->|]; [by split; constructor|done].
Qed.

(** ** An instance

    One profile with an automatic list in the file "auto", an address set in
    the file "set", and the profile tpws adds. *)
Definition auto_file : file := File (Some (FileModSig 5 8)) (Some (text [(bytes_of "old.org", false)])).
Definition some_files (name : mem) : file := if bool_decide (name = bytes_of "auto") then auto_file else File None None.
Definition user_profile : profile :=
  dp_init zero_profile <| hl_collection := [0%nat] |> <| hostlist_auto := Some 0%nat |> <| hostlist_auto_fail_threshold := 2 |>
    <| ips_collection_exclude := [0%nat] |>.
Definition some_tpws : tpws :=
  Tpws [ListFile (Some (bytes_of "auto")) (FileModSig 5 8) {[ bytes_of "old.org" := 0 ]}]
    [ListFile (Some (bytes_of "set")) FILE_MOD_RESET no_ips] [user_profile; dp_init zero_profile]
    (IpCache ∅ ∅) 0 0 some_files.
Definition some_dest : sockaddr := Sockaddr (In4 [x0a; x00; x00; x01]) 443.
Definition some_segment : mem :=
  bytes_of "GET / HTTP/1.1" ++ [x0d; x0a] ++ bytes_of "Host: a.b" ++ [x0d; x0a; x0d; x0a] ++ repeat x00 30.

Lemma some_tpws_ok : tpws_ok (λ _, None) some_tpws.
Proof.
  split.
  - repeat constructor; try by vm_compute.
  - intros p j [->|[->|?%elem_of_nil]%elem_of_cons]%elem_of_cons; [|done|done]. intros [= <-].
    eexists _, _. split; [done|]. split; [done|]. by constructor.
  - exists (dp_init zero_profile). split; [done|]. by vm_compute.
  - constructor; [|constructor]. by split; apply tree_room_nil.
  - constructor; [|constructor]. intros name [= <-]. by split; apply tree_room_nil.
Qed.

Lemma tpws_runs_witness :
  let run := handle_all (λ _ _, true) (λ _ _, true) (λ _, true) (λ _ _, true) (λ _ _, true) (λ _, None) (λ _ _, None)
    (λ _, true) true 60 some_tpws [new_ctrack None false]
    [(10, Connect (Some (bytes_of "a.b")) false some_dest); (11, Request 1 some_dest some_segment 29 (λ _, 7) 0);
     (12, Reset 1); (13, Edit (λ _, File None None)); (14, HangUp 1)] in
  ∃ st' cts', run = Ok (st', cts') ∧ tpws_ok (λ _, None) st' ∧ Forall (ct_ok st') cts'
    ∧ Forall (λ p, map_Forall (λ _ c, 1 <= hf_counter c < hostlist_auto_fail_threshold p) (hostlist_auto_fail_counters p))
        (desync_profiles st').
Proof.
  apply tpws_runs; [done|done|apply some_tpws_ok|by repeat constructor|].
  constructor; [by split; [|intros n [= <-]; vm_compute]|]. constructor; [by vm_compute|]. constructor; [done|].
  constructor; [|by constructor]. constructor; [|constructor]. intros name [= <-]. by split; apply tree_room_nil.
Defined.

Lemma tamper_out_fits_witness :
  ∃ st' ct' out,
    tamper_out (λ _ _, true) (λ _ _, true) (λ _, true) (λ _ _, true) (λ _, None) (λ _ _, None) true 60 11 (λ _, 7) 0
      some_tpws (new_ctrack None false <| dp := Some 1%nat |>) some_dest some_segment (len some_segment) 29 [] 0 = Ok (st', ct', out)
    ∧ len (out_segment out) = len some_segment ∧ 0 <= out_size out <= len some_segment ∧ cuts (out_size out) (out_pos out).
Proof.
  apply tamper_out_fits; [done|done|apply some_tpws_ok| |done|by vm_compute|by vm_compute].
  split; [|done|done]. intros i [= <-]. simpl. lia.
Defined.
