(* ===== verification/TpAutoSpec.v ===== *)
(** * tpws, profiles: which one a connection gets, and what the lists learn

    With lists that are up to date the first profile that takes a connection
    gets it ([dp_find_first]); a name that fails as often as the threshold says
    goes into the automatic list, matches from then on ([auto_list_learns]),
    and is there again when the file is read anew ([learned_name_survives]);
    a name put into the cache comes out again ([ipcache_put_get]). *)

From Stdlib Require Import ZArith Lia Bool List.
From Stdlib Require Import Strings.Byte Strings.String Strings.Ascii.
From stdpp Require Import base tactics list numbers option countable gmap.
From S2P Require Import Prelude CMem Kavl MPool TpProtocol TpTamper TpPools TpFiles TpFilesSpec.
From S2P Require Import TpHostlist TpHostlistSpec TpIpset TpIpsetSpec TpProfile TpProfileSpec.

(** ** Lists that are up to date *)

Definition up_to_date {P} (fs : mem → file) (f : list_file P) : Prop :=
  ∀ name sig, lf_filename f = Some name → f_stat (fs name) = Some sig → lf_mod_sig f = sig.
Definition all_fresh {P} (fs : mem → file) (files : list (list_file P)) (c : list nat) : Prop :=
  Forall (λ i, ∃ f, files !! i = Some f ∧ up_to_date fs f) c.

Section fresh.
Context {P : Type} (null : P) (addpool : P → mem → res (P * mem * bool)) (k : nat) (z_readfile : mem → option mem).

Lemma load_list_fresh fs (files : list (list_file P)) i f :
  files !! i = Some f → up_to_date fs f → load_list null addpool k z_readfile fs files i = Ok (files, true).
Proof.
  intros E Hf. unfold load_list. rewrite E. destruct (lf_filename f) as [name|] eqn:En; [|done].
  destruct (f_stat (fs name)) as [sig|] eqn:Es; [|done]. rewrite (Hf name sig En Es).
  unfold FILE_MOD_COMPARE. by rewrite !Z.eqb_refl.
Qed.
Lemma reload_lists_fresh fs (files : list (list_file P)) c :
  all_fresh fs files c → reload_lists null addpool k z_readfile fs files c = Ok (files, true).
Proof.
  induction 1 as [|i c (f & E & Hf) _ IH]; [done|]. cbn [reload_lists]. by rewrite (load_list_fresh fs files i f), bind_Ok.
Qed.
End fresh.

Section profile.
Context (alloc : hostlist_pool → mem → bool) (room_fail : hostfail_pool → mem → bool) (room_prefix : tree elem → mem → bool).
Context (z_readfile : mem → option mem) (inet_pton : Z → mem → option mem) (writable : mem → bool).

(** the automatic lists hold something: a name that cannot be, at least *)
Definition autos_nonempty (st : tpws) : Prop :=
  Forall (λ j, ∃ f, hostlists st !! j = Some f ∧ lf_pool f ≠ ∅) (autos st).
Definition hl_fresh (st : tpws) (p : profile) : Prop :=
  all_fresh (fs st) (hostlists st) (hl_collection p) ∧ all_fresh (fs st) (hostlists st) (hl_collection_exclude p).

Lemma make_autolists_id st : autos_nonempty st → MakeAutolistsNonEmpty alloc (autos st) (hostlists st) = hostlists st.
Proof.
  unfold autos_nonempty, MakeAutolistsNonEmpty. induction 1 as [|j js (f & E & Hf) _ IH]; [done|]. cbn [foldl].
  rewrite <- IH at 2. f_equal. apply list_eq. intros i. rewrite list_lookup_alter. case_decide; [subst i|done].
  rewrite E. simpl. f_equal. unfold NonEmptyHostlist. rewrite bool_decide_false by done. by destruct f.
Qed.

Lemma hostlists_reload_fresh st p :
  autos_nonempty st → hl_fresh st p → hostlists_reload alloc z_readfile st p = Ok (st, true).
Proof.
  intros Ha [Hi He]. unfold hostlists_reload, HostlistsReloadCheckForProfile, HostlistsReloadCheck.
  rewrite reload_lists_fresh, bind_Ok, make_autolists_id, bind_Ok, reload_lists_fresh, bind_Ok, make_autolists_id by done.
  by destruct st.
Qed.

(** what the lists of the profile say of a name *)
Definition listed (st : tpws) (p : profile) (nosub : bool) (name : mem) : Prop :=
  (∀ i, i ∈ hl_collection p → hfile_pool ∅ (hostlists st) i = ∅)
  ∨ any_matches (hostlists st) (hl_collection p) nosub name.
Definition excluded (st : tpws) (p : profile) (nosub : bool) (name : mem) : Prop :=
  any_matches (hostlists st) (hl_collection_exclude p) nosub name.

Lemma hostlist_check_fresh st p name nosub skip :
  autos_nonempty st → hl_fresh st p →
  ∃ r x, hostlist_check alloc z_readfile st p name nosub skip = Ok (st, r, x)
    ∧ (x = true ↔ excluded st p nosub name)
    ∧ (r = true ↔ ¬ excluded st p nosub name ∧ listed st p nosub name).
Proof.
  intros Ha Hf. pose proof (hostlists_reload_fresh st p Ha Hf) as E. unfold hostlists_reload in E.
  destruct (lists_check_answer (hostlists st) (hl_collection p) (hl_collection_exclude p) name nosub) as (r & x & El & Hx & Hr).
  exists r, x. split; [|done]. unfold hostlist_check, HostlistCheck.
  assert (E' : (if skip then Ok (hostlists st, true)
    else HostlistsReloadCheckForProfile alloc z_readfile (autos st) (fs st) (hostlists st) (hl_collection p) (hl_collection_exclude p))
    = Ok (hostlists st, true)).
  { destruct skip; [done|]. destruct (HostlistsReloadCheckForProfile _ _ _ _ _ _ _) as [[files ok]| |]; [|done|done].
    rewrite bind_Ok in E. injection E as E ->. apply (f_equal hostlists) in E. simpl in E. by rewrite E. }
  rewrite E', bind_Ok. cbn [negb]. rewrite El, !bind_Ok. by destruct st.
Qed.

(** ** A name that fails *)

Notation failed now st i name nosub := (auto_hostlist_failed alloc room_fail z_readfile writable now st i name nosub).
Fixpoint all_failed (ts : list Z) (st : tpws) (i : nat) (name : mem) (nosub : bool) : res tpws :=
  match ts with
  | [] => Ok st
  | t :: ts => st ← failed t st i name nosub; all_failed ts st i name nosub
  end.

(** *** Only the counters change *)

Lemma lookup_set_counters st i p c : desync_profiles st !! i = Some p →
  desync_profiles (set_counters st i c) !! i = Some (p <| hostlist_auto_fail_counters := c |>).
Proof. intros E. simpl. by rewrite list_lookup_alter_eq, E. Qed.
Lemma set_counters_twice st i c1 c2 : set_counters (set_counters st i c1) i c2 = set_counters st i c2.
Proof.
  assert (E : ∀ l : list profile, alter (λ p, p <| hostlist_auto_fail_counters := c2 |>) i
      (alter (λ p, p <| hostlist_auto_fail_counters := c1 |>) i l)
    = alter (λ p, p <| hostlist_auto_fail_counters := c2 |>) i l).
  { intros l. apply list_eq. intros j. destruct (decide (i = j)) as [<-|Hij].
    - rewrite !list_lookup_alter_eq. by destruct (l !! i).
    - by rewrite !list_lookup_alter_ne. }
  unfold set_counters. simpl. unfold upd at 1 3. simpl. by rewrite E.
Qed.
Lemma autos_set_counters st i c : autos (set_counters st i c) = autos st.
Proof.
  unfold autos, set_counters. simpl. generalize (desync_profiles st). intros l. revert i.
  induction l as [|p l IH]; intros [|i]; [done..|]. cbn. by rewrite IH.
Qed.

(** one more failure *)
Lemma fail_step now st i p name nosub :
  (∀ c n, room_fail c n = true) → desync_profiles st !! i = Some p →
  let h := default (HostFail 0 (now + hostlist_auto_fail_time p)) (hostlist_auto_fail_counters p !! name) in
  failed now st i name nosub =
    if negb (hostlist_auto_fail_threshold p <=? hf_counter h + 1) then
      Ok (set_counters st i (<[name := HostFail (hf_counter h + 1) (hf_expire h)]> (hostlist_auto_fail_counters p)))
    else
      let st := set_counters st i (delete name (hostlist_auto_fail_counters p)) in
      '(st, r, x) ← hostlist_check alloc z_readfile st p name nosub false;
      if negb r && negb x then
        match hostlist_auto p with Some j => auto_hostlist_add alloc writable now st j name | None => UB end
      else Ok st.
Proof.
  intros Hroom E h. unfold auto_hostlist_failed. rewrite E. unfold HostFailPoolFind, HostFailPoolAdd. rewrite Hroom.
  subst h. destruct (hostlist_auto_fail_counters p !! name) as [h|] eqn:Eh; cbv beta iota zeta.
  - rewrite Eh. cbn [default from_option id].
    assert (Ea : alter (λ c, c <| hf_counter := hf_counter h + 1 |>) name (hostlist_auto_fail_counters p)
      = <[name := HostFail (hf_counter h + 1) (hf_expire h)]> (hostlist_auto_fail_counters p)).
    { apply map_eq. intros n. destruct (decide (n = name)) as [->|]; [by rewrite lookup_alter_eq, lookup_insert_eq, Eh|].
      by rewrite lookup_alter_ne, lookup_insert_ne. }
    rewrite Ea. unfold HostFailPoolDel. by rewrite delete_insert_eq.
  - rewrite lookup_insert_eq. cbn [default from_option id hf_counter hf_expire].
    assert (Ea : alter (λ c, c <| hf_counter := 0 + 1 |>) name
        (<[name := HostFail 0 (now + hostlist_auto_fail_time p)]> (hostlist_auto_fail_counters p))
      = <[name := HostFail (0 + 1) (now + hostlist_auto_fail_time p)]> (hostlist_auto_fail_counters p)).
    { apply map_eq. intros n. destruct (decide (n = name)) as [->|]; [by rewrite lookup_alter_eq, !lookup_insert_eq|].
      by rewrite lookup_alter_ne, !lookup_insert_ne. }
    rewrite Ea. unfold HostFailPoolDel. by rewrite delete_insert_eq.
Qed.

(** below the threshold failures are counted, nothing else *)
Lemma fails_below ts : ∀ st i p name nosub c e,
  (∀ c n, room_fail c n = true) → desync_profiles st !! i = Some p →
  hostlist_auto_fail_counters p !! name = Some (HostFail c e) →
  c + Z.of_nat (length ts) < hostlist_auto_fail_threshold p →
  all_failed ts st i name nosub
    = Ok (set_counters st i (<[name := HostFail (c + Z.of_nat (length ts)) e]> (hostlist_auto_fail_counters p))).
Proof.
  induction ts as [|t ts IH]; intros st i p name nosub c e Hroom E Ec Hlt.
  - simpl. rewrite Z.add_0_r, insert_id by done. f_equal.
    assert (El : alter (λ p0, p0 <| hostlist_auto_fail_counters := hostlist_auto_fail_counters p |>) i (desync_profiles st)
      = desync_profiles st).
    { apply list_eq. intros j. rewrite list_lookup_alter. case_decide; [subst j|done]. rewrite E. simpl. by destruct p. }
    unfold set_counters. simpl. unfold upd at 1. simpl. rewrite El. by destruct st.
  - cbn [all_failed]. rewrite (fail_step _ _ _ p) by done. rewrite Ec. cbn [default from_option id hf_counter hf_expire].
    cbn [length] in *. rewrite (proj2 (Z.leb_gt _ _)) by lia. cbn [negb]. rewrite bind_Ok.
    erewrite IH; [|done|by apply lookup_set_counters|simpl; by rewrite lookup_insert_eq|simpl; lia].
    rewrite set_counters_twice. simpl. rewrite insert_insert_eq. do 4 f_equal. lia.
Qed.

(** at the threshold the name is learned *)
Record learns (st : tpws) (i : nat) (p : profile) (j : nat) (fn name : mem) (nosub : bool) : Prop := Learns {
  le_room : ∀ c n, room_fail c n = true;
  le_alloc : ∀ pool n, alloc pool n = true;
  le_writable : writable fn = true;
  le_profile : desync_profiles st !! i = Some p;
  le_auto : hostlist_auto p = Some j;
  le_file : ∃ f, hostlists st !! j = Some f ∧ lf_filename f = Some fn;
  le_one_file : ∀ k g, hostlists st !! k = Some g → lf_filename g = Some fn → k = j;
  le_in : j ∈ hl_collection p;
  le_not_out : j ∉ hl_collection_exclude p;
  le_autos : autos_nonempty st;
  le_fresh : hl_fresh st p;
  le_not_listed : ¬ listed st p nosub name;
  le_not_excluded : ¬ excluded st p nosub name
}.

Lemma learns_counters st i p j fn name nosub c :
  learns st i p j fn name nosub → learns (set_counters st i c) i (p <| hostlist_auto_fail_counters := c |>) j fn name nosub.
Proof.
  intros []. split; try done; [by apply lookup_set_counters|]. unfold autos_nonempty. by rewrite autos_set_counters.
Qed.

(** a list the name is added to, in the store and in its file *)
Definition learned (st st' : tpws) (p : profile) (j : nat) (fn name : mem) (nosub : bool) : Prop :=
  (∃ f, hostlists st' !! j = Some f ∧ lf_pool f !! name = Some 0)
  ∧ f_data (fs st' fn) = Some (default [] (f_data (fs st fn)) ++ name ++ [x0a])
  ∧ hostlist_check alloc z_readfile st' p name nosub false = Ok (st', true, false).

Lemma auto_add_learned now st i p j fn name nosub :
  learns st i p j fn name nosub →
  ∃ st', auto_hostlist_add alloc writable now st j name = Ok st' ∧ desync_profiles st' = desync_profiles st
    ∧ learned st st' p j fn name nosub.
Proof.
  intros []. destruct le_file0 as (f & Ef & En). unfold auto_hostlist_add. rewrite Ef, En.
  assert (Hnew : lf_pool f !! name = None).
  { destruct (lf_pool f !! name) eqn:E; [|done]. exfalso. apply le_not_listed0. right. exists j. split; [done|].
    left. unfold hfile_pool. rewrite Ef. by eexists. }
  unfold HostlistPoolAddStr, HostlistPoolAddStrLen. rewrite Hnew, le_alloc0. cbn [negb].
  unfold append_to_list_file, file_mod_signature. rewrite le_writable0. cbv beta iota zeta.
  rewrite bool_decide_eq_true_2 by done. cbn [f_stat default from_option id].
  set (text := default [] (f_data (fs st fn)) ++ name ++ [x0a]).
  set (fs' := λ name0 : mem, if bool_decide (name0 = fn) then _ else fs st name0).
  set (f' := f <| lf_pool := _ |> <| lf_mod_sig := _ |>). eexists. split; [done|]. split; [done|].
  set (st' := st <| hostlists := <[j := f']> (hostlists st) |> <| fs := fs' |>).
  assert (Ej : hostlists st' !! j = Some f') by (simpl; apply list_lookup_insert_eq; by eapply lookup_lt_Some).
  assert (Hother : ∀ k g, k ≠ j → hostlists st' !! k = Some g → hostlists st !! k = Some g).
  { intros k g Hk. simpl. by rewrite list_lookup_insert_ne. }
  assert (Hfresh : ∀ c, all_fresh (fs st) (hostlists st) c → all_fresh (fs st') (hostlists st') c).
  { intros c Hc. eapply Forall_impl; [exact Hc|]. intros k (g & Eg & Hg). destruct (decide (k = j)) as [->|Hk].
    - exists f'. split; [done|]. intros n sig Hn. simpl in Hn. rewrite En in Hn. injection Hn as <-.
      simpl. unfold fs'. rewrite bool_decide_eq_true_2 by done. simpl. by intros [= <-].
    - exists g. split; [simpl; by rewrite list_lookup_insert_ne|]. intros n sig Hn. simpl. unfold fs'.
      rewrite bool_decide_eq_false_2; [by apply Hg|]. intros ->. by apply Hk, (le_one_file0 k g). }
  assert (Ha : autos_nonempty st').
  { eapply Forall_impl; [exact le_autos0|]. intros k (g & Eg & Hg). destruct (decide (k = j)) as [->|Hk].
    - exists f'. split; [done|]. simpl. apply insert_non_empty.
    - exists g. split; [simpl; by rewrite list_lookup_insert_ne|done]. }
  split; [by exists f'; split; [|simpl; apply lookup_insert_eq]|].
  split; [simpl; unfold fs'; by rewrite bool_decide_eq_true_2|].
  destruct (hostlist_check_fresh st' p name nosub false Ha) as (r & x & E & Hx & Hr).
  { destruct le_fresh0. split; by apply Hfresh. }
  assert (Hne : ¬ excluded st' p nosub name).
  { intros (k & Hk & Hm). apply le_not_excluded0. exists k. split; [done|]. unfold hfile_pool in *. simpl in Hm.
    rewrite list_lookup_insert_ne in Hm; [done|]. by intros <-. }
  assert (Hl : listed st' p nosub name).
  { right. exists j. split; [done|]. left. unfold hfile_pool. rewrite Ej. simpl. rewrite lookup_insert_eq. by eexists. }
  rewrite E. rewrite (proj2 Hr) by done. destruct x; [|done]. destruct Hne. by apply Hx.
Qed.

Lemma learn_step now st i p j fn name nosub :
  learns st i p j fn name nosub →
  hostlist_auto_fail_threshold p <= hf_counter (default (HostFail 0 0) (hostlist_auto_fail_counters p !! name)) + 1 →
  ∃ st', failed now st i name nosub = Ok st'
    ∧ desync_profiles st' !! i = Some (p <| hostlist_auto_fail_counters := delete name (hostlist_auto_fail_counters p) |>)
    ∧ learned st st' p j fn name nosub.
Proof.
  intros Hl Ht. rewrite (fail_step _ _ _ p) by apply Hl.
  assert (Hc : hf_counter (default (HostFail 0 (now + hostlist_auto_fail_time p)) (hostlist_auto_fail_counters p !! name))
    = hf_counter (default (HostFail 0 0) (hostlist_auto_fail_counters p !! name)))
    by by destruct (hostlist_auto_fail_counters p !! name).
  cbv zeta. rewrite Hc, (proj2 (Z.leb_le _ _)) by done. cbn [negb].
  set (c := delete name (hostlist_auto_fail_counters p)). pose proof (learns_counters _ _ _ _ _ _ _ c Hl) as Hl1.
  destruct (hostlist_check_fresh (set_counters st i c) p name nosub false) as (r & x & E & Hx & Hr); [apply Hl1|apply Hl|].
  rewrite E, bind_Ok. cbv beta iota.
  destruct r; [by destruct (proj1 Hr eq_refl) as [_ []%(le_not_listed _ _ _ _ _ _ _ Hl1)]|].
  destruct x; [destruct (le_not_excluded _ _ _ _ _ _ _ Hl1); by apply Hx|]. cbn [negb andb].
  rewrite (le_auto _ _ _ _ _ _ _ Hl).
  destruct (auto_add_learned now _ _ _ _ _ _ _ Hl1) as (st' & -> & Ep & H). exists st'. split; [done|].
  split; [rewrite Ep; apply lookup_set_counters, Hl|exact H].
Qed.

Lemma all_failed_app ts1 ts2 : ∀ st i name nosub,
  all_failed (ts1 ++ ts2) st i name nosub = (st ← all_failed ts1 st i name nosub; all_failed ts2 st i name nosub).
Proof.
  induction ts1 as [|t ts1 IH]; intros st i name nosub; [done|]. cbn [app all_failed].
  destruct (failed t st i name nosub); [|done|done]. rewrite !bind_Ok. apply IH.
Qed.

Lemma fails_counted t ts st i p name nosub :
  (∀ c n, room_fail c n = true) → desync_profiles st !! i = Some p → hostlist_auto_fail_counters p !! name = None →
  Z.of_nat (length (t :: ts)) < hostlist_auto_fail_threshold p →
  all_failed (t :: ts) st i name nosub
    = Ok (set_counters st i (<[name := HostFail (Z.of_nat (length (t :: ts))) (t + hostlist_auto_fail_time p)]>
        (hostlist_auto_fail_counters p))).
Proof.
  intros Hroom E Ec Hlt. cbn [all_failed length] in *. rewrite (fail_step _ _ _ p) by done. rewrite Ec.
  cbn [default from_option id hf_counter hf_expire]. rewrite (proj2 (Z.leb_gt _ _)) by lia. cbn [negb]. rewrite bind_Ok.
  erewrite fails_below; [|done|by apply lookup_set_counters|simpl; by rewrite lookup_insert_eq|simpl; lia].
  rewrite set_counters_twice. simpl. rewrite insert_insert_eq. do 4 f_equal. lia.
Qed.
End profile.

(** C22: a name that no list of the profile knows goes into the automatic list
    with exactly the failure the threshold says: up to it the failures are
    counted and nothing else happens; with it the name is in the list and at
    the end of its file, the profile takes the name from then on, and the
    counter is gone. *)
Theorem auto_list_learns alloc room_fail z_readfile writable (st : tpws) (i : nat) (p : profile) (j : nat)
    (fn name : mem) (nosub : bool) (t : Z) (ts : list Z) :
  learns alloc room_fail writable st i p j fn name nosub → hostlist_auto_fail_counters p !! name = None →
  (Z.of_nat (length (t :: ts)) < hostlist_auto_fail_threshold p →
    all_failed alloc room_fail z_readfile writable (t :: ts) st i name nosub
      = Ok (set_counters st i (<[name := HostFail (Z.of_nat (length (t :: ts))) (t + hostlist_auto_fail_time p)]>
          (hostlist_auto_fail_counters p))))
  ∧ (Z.of_nat (length (t :: ts)) = hostlist_auto_fail_threshold p →
    ∃ st', all_failed alloc room_fail z_readfile writable (t :: ts) st i name nosub = Ok st'
      ∧ desync_profiles st' !! i = Some (p <| hostlist_auto_fail_counters := delete name (hostlist_auto_fail_counters p) |>)
      ∧ learned alloc z_readfile st st' p j fn name nosub).
Proof.
  intros Hl Ec. split; [intros Hlt; apply fails_counted; by try apply Hl|]. intros Hth.
  destruct ts as [|t' ts' _] using rev_ind.
  - destruct (learn_step alloc room_fail z_readfile writable t st i p j fn name nosub Hl) as (st' & E & H).
    { rewrite Ec. simpl in *. lia. }
    exists st'. cbn [all_failed]. by rewrite E.
  - change (t :: ts' ++ [t']) with ((t :: ts') ++ [t']) in *. rewrite length_app in Hth. cbn [length] in Hth.
    rewrite all_failed_app. erewrite fails_counted; [|apply Hl|apply Hl|done|simpl; lia]. rewrite bind_Ok.
    cbn [all_failed]. set (c := <[name := _]> _). pose proof (learns_counters _ _ _ _ _ _ _ _ _ _ c Hl) as Hl1.
    destruct (learn_step alloc room_fail z_readfile writable t' _ i _ j fn name nosub Hl1) as (st' & E & Ep & H).
    { simpl. unfold c. rewrite lookup_insert_eq. simpl in *. lia. }
    exists st'. rewrite E, bind_Ok. split; [done|]. split; [|exact H].
    rewrite Ep. simpl. unfold c. by rewrite delete_insert_eq, delete_id.
Qed.

(** ** The name in its file *)

Lemma text_app ls ls' : text (ls ++ ls') = text ls ++ text ls'.
Proof. unfold text. by rewrite map_app, concat_app. Qed.

(** A name the automatic list has learned is there again when its file is
    read anew, with everything the file held before: a name matches as the old
    lines and the new one say. *)
Theorem learned_name_survives alloc z_readfile (st st' : tpws) (p : profile) (j : nat) (fn name : mem) (nosub : bool)
    (ls : list (mem * bool)) :
  (∀ pool n, alloc pool n = true) → learned alloc z_readfile st st' p j fn name nosub →
  f_data (fs st fn) = Some (text ls) → Forall (λ l, line_ok l.1 ∧ short 255 l) ls →
  line_ok name → short 255 (name, false) → rule_of name = Some (name, 0) → is_gzip (text (ls ++ [(name, false)])) = false →
  ∃ pool, AppendHostList alloc z_readfile (fs st') ∅ fn = Ok (pool, true)
    ∧ SearchHostList pool name nosub = Ok true
    ∧ ∀ host ns, ∃ b, SearchHostList pool host ns = Ok b
      ∧ (b = true ↔ rules_match (rules (map fst ls) ++ [Some (name, 0)]) ns host).
Proof.
  intros Ha (_ & Hd & _) Ef Hls Hn Hs Hr Hg. rewrite Ef in Hd. cbn [default from_option id] in Hd.
  destruct (append_matches alloc z_readfile (fs st') fn (ls ++ [(name, false)])) as (pool & E & H).
  - done.
  - apply Forall_app. split; [|by constructor]. eapply Forall_impl; [exact Hls|]. by intros l [? _].
  - left. assert (Et : text (ls ++ [(name, false)]) = text ls ++ name ++ [x0a]).
    { rewrite text_app. f_equal. unfold text. simpl. by rewrite app_nil_r. }
    rewrite Hd, Et in *. split; [done|]. split; [done|]. apply Forall_app. split; [|by constructor].
    eapply Forall_impl; [exact Hls|]. by intros l [_ ?].
  - assert (Er : rules (map fst (ls ++ [(name, false)])) = rules (map fst ls) ++ [Some (name, 0)]).
    { unfold rules. rewrite !map_app. simpl. by rewrite Hr. }
    rewrite Er in H. exists pool. split; [done|]. split; [|exact H].
    destruct (H name nosub) as (b & -> & Hb). f_equal. apply Hb. left.
    assert (Hf : ∀ rs : list (option (mem * Z)), is_Some (first_rule (rs ++ [Some (name, 0)]) name)).
    { induction rs as [|[[m f]|] rs IH]; simpl; [rewrite decide_True by done; by eexists| |done].
      case_decide; [by eexists|done]. }
    apply Hf.
Qed.

(** ** The first profile that takes a connection *)

Section find.
Context (alloc : hostlist_pool → mem → bool) (room_prefix : tree elem → mem → bool).
Context (z_readfile : mem → option mem) (inet_pton : Z → mem → option mem).

Definition any_covers (sets : list (list_file ipset)) (c : list nat) (a : ip_dest) : Prop :=
  ∃ i, i ∈ c ∧ set_covers (hfile_pool no_ips sets i) a.
(** the address is in no excluding set, and in an including one, if any holds
    something *)
Definition addr_passes (st : tpws) (p : profile) (a : ip_dest) : Prop :=
  ¬ any_covers (ipsets st) (ips_collection_exclude p) a
  ∧ ((∀ i, i ∈ ips_collection p → IPSET_EMPTY (hfile_pool no_ips (ipsets st) i) = true)
     ∨ any_covers (ipsets st) (ips_collection p) a).
Definition no_names (st : tpws) (p : profile) : Prop :=
  ∀ i, i ∈ hl_collection p ++ hl_collection_exclude p → hfile_pool ∅ (hostlists st) i = ∅.
Definition family_passes (p : profile) (a : ip_dest) : Prop :=
  match a with In4 _ => filter_ipv4 p = true | In6 _ => filter_ipv6 p = true | InNone => True end.

Definition takes (st : tpws) (p : profile) (dest : sockaddr) (name : option mem) (nosub : bool) (proto : l7proto) : Prop :=
  family_passes p (sa_addr dest)
  ∧ port_filters_in_range (pf_tcp p) (saport dest) = true
  ∧ (filter_l7 p = 0 ∨ l7_proto_match proto (filter_l7 p) = true)
  ∧ addr_passes st p (sa_addr dest)
  ∧ (is_Some (hostlist_auto p) ∨ no_names st p
     ∨ ∃ n, name = Some n ∧ ¬ excluded st p nosub n ∧ listed st p nosub n).

Record sets_fresh (st : tpws) (p : profile) : Prop := SetsFresh {
  sf_in : all_fresh (fs st) (ipsets st) (ips_collection p);
  sf_out : all_fresh (fs st) (ipsets st) (ips_collection_exclude p);
  sf_pools : pools_ok ips_room (ipsets st)
}.

Lemma search_ipsets_spec sets c a :
  pools_ok ips_room sets → dest_ok a → Forall (λ i, is_Some (sets !! i)) c →
  wp (search_ipsets sets c a) (λ b, b = true ↔ any_covers sets c a).
Proof.
  intros Hp Ha. induction 1 as [|i c [f Ef] _ IH]; cbn [search_ipsets].
  { simpl. split; [done|]. by intros (? & ?%elem_of_nil & _). }
  unfold hfile_pool at 1. rewrite Ef.
  destruct (search_covers 0 (lf_pool f) a) as (b & -> & Hb); [by eapply (Forall_lookup_1 _ _ _ _ Hp)|done|].
  rewrite bind_Ok. assert (Hf : set_covers (hfile_pool no_ips sets i) a ↔ b = true) by (unfold hfile_pool; by rewrite Ef).
  destruct b.
  - simpl. split; [|done]. intros _. exists i. split; [by left|by apply Hf].
  - eapply wp_mono; [exact IH|]. intros b' ->. unfold any_covers. split.
    + intros (k & Hk & H). exists k. split; [by right|done].
    + intros (k & [->|Hk]%elem_of_cons & H); [by apply Hf in H|by exists k].
Qed.

Lemma ipset_check_fresh st p a : sets_fresh st p → dest_ok a →
  ∃ b, ipset_check room_prefix z_readfile inet_pton st p a = Ok (st, b) ∧ (b = true ↔ addr_passes st p a).
Proof.
  intros [Hi Ho Hp] Ha.
  assert (Hsome : ∀ c, all_fresh (fs st) (ipsets st) c → Forall (λ i, is_Some (ipsets st !! i)) c).
  { intros c Hc. eapply Forall_impl; [exact Hc|]. intros i (f & -> & _). by eexists. }
  assert (Hw : ∃ b, IpsetCheck_ room_prefix inet_pton z_readfile (fs st) (ipsets st) (ips_collection p) (ips_collection_exclude p) a
      = Ok (ipsets st, b) ∧ (b = true ↔ addr_passes st p a)).
  { unfold IpsetCheck_, IpsetsReloadCheck. rewrite !reload_lists_fresh, bind_Ok by done. cbn [negb].
    rewrite reload_lists_fresh, bind_Ok by done. cbn [negb].
    pose proof (search_ipsets_spec (ipsets st) (ips_collection_exclude p) a Hp Ha (Hsome _ Ho)) as Hx.
    destruct (search_ipsets _ (ips_collection_exclude p) a) as [x| |]; [|done|done]. simpl in Hx. rewrite bind_Ok. unfold addr_passes.
    destruct x; [exists false; split; [done|]; rewrite <- Hx; naive_solver|].
    assert (Hne : ¬ any_covers (ipsets st) (ips_collection_exclude p) a) by (rewrite <- Hx; done).
    assert (He : ipset_collection_is_empty (ipsets st) (ips_collection p) = true
      ↔ ∀ i, i ∈ ips_collection p → IPSET_EMPTY (hfile_pool no_ips (ipsets st) i) = true).
    { unfold ipset_collection_is_empty. rewrite forallb_forall. by setoid_rewrite <- list_elem_of_In. }
    destruct (ipset_collection_is_empty _ _).
    { exists true. split; [done|]. split; [|done]. intros _. split; [done|]. left. by apply He. }
    pose proof (search_ipsets_spec (ipsets st) (ips_collection p) a Hp Ha (Hsome _ Hi)) as Hr.
    destruct (search_ipsets _ (ips_collection p) a) as [r| |]; [|done|done]. simpl in Hr. rewrite bind_Ok.
    exists r. split; [done|]. rewrite Hr. split; [by intros; split; [|right]|]. intros [_ [H|H]]; [|done]. by apply He in H. }
  destruct Hw as (b & E & Hb). exists b. split; [|done]. unfold ipset_check, IpsetCheck.
  assert (Hst : st <| ipsets := ipsets st |> = st) by by destruct st.
  destruct (ips_collection p) as [|i c] eqn:Ei; [|by rewrite E, bind_Ok, Hst].
  destruct (ips_collection_exclude p) as [|k c] eqn:Ek; [|by rewrite E, bind_Ok, Hst].
  rewrite bind_Ok, Hst. f_equal. f_equal. symmetry. apply Hb. unfold addr_passes. rewrite Ei, Ek.
  split; [by intros (? & ?%elem_of_nil & _)|]. left. by intros i ?%elem_of_nil.
Qed.

Lemma dp_match_fresh st p dest name nosub proto :
  autos_nonempty st → hl_fresh st p → sets_fresh st p → dest_ok (sa_addr dest) →
  ∃ b, dp_match alloc room_prefix z_readfile inet_pton st p dest name nosub proto = Ok (st, b)
    ∧ (b = true ↔ takes st p dest name nosub proto).
Proof.
  intros Ha Hl Hs Hd. unfold dp_match, takes. rewrite hostlists_reload_fresh, bind_Ok by done. cbn [negb].
  set (fam := match sa_addr dest with In4 _ => _ | In6 _ => _ | InNone => false end).
  assert (Hfam : fam = false ↔ family_passes p (sa_addr dest)).
  { unfold fam, family_passes. by destruct (sa_addr dest); rewrite ?negb_false_iff. }
  destruct fam; [exists false; split; [done|]; rewrite <- Hfam; naive_solver|].
  destruct (port_filters_in_range _ _); [|exists false; split; [done|]; naive_solver]. cbn [negb].
  set (l7 := negb _ && negb _). assert (H7 : l7 = false ↔ filter_l7 p = 0 ∨ l7_proto_match proto (filter_l7 p) = true).
  { unfold l7. rewrite andb_false_iff, !negb_false_iff, Z.eqb_eq. done. }
  destruct l7; [exists false; split; [done|]; rewrite <- H7; naive_solver|].
  assert (Hempty : PROFILE_HOSTLISTS_EMPTY st p = true ↔ no_names st p).
  { unfold PROFILE_HOSTLISTS_EMPTY, no_names. rewrite andb_true_iff, !is_empty_spec. setoid_rewrite elem_of_app. naive_solver. }
  destruct (ipset_check_fresh st p (sa_addr dest) Hs Hd) as (b & Eb & Hb).
  set (empty := PROFILE_HOSTLISTS_EMPTY st p) in *. pose proof (proj1 Hfam eq_refl). pose proof (proj1 H7 eq_refl).
  destruct (hostlist_auto p) as [j|]; cbn.
  { rewrite Eb, bind_Ok. exists b. destruct b; (split; [done|]); naive_solver. }
  assert (Hnone : ¬ is_Some (@None nat)) by by intros [? ?].
  destruct empty; cbn.
  { rewrite andb_false_r, Eb, bind_Ok. exists b. destruct b; (split; [done|]); naive_solver. }
  destruct name as [name|]; cbn; [|exists false; split; [done|]; naive_solver].
  rewrite Eb, bind_Ok. destruct b; cbn [negb]; [|exists false; split; [done|]; naive_solver].
  destruct (hostlist_check_fresh alloc z_readfile st p name nosub true Ha Hl) as (r & x & -> & _ & Hr). rewrite bind_Ok.
  exists r. split; [done|]. naive_solver.
Qed.

Lemma dp_find_from_fresh st dest name nosub proto head : ∀ i,
  autos_nonempty st → Forall (λ p, hl_fresh st p ∧ sets_fresh st p) head → dest_ok (sa_addr dest) →
  ∃ r, dp_find_from alloc room_prefix z_readfile inet_pton st i head dest name nosub proto = Ok (st, r)
    ∧ match r with
      | Some k => ∃ m p, k = (i + m)%nat ∧ head !! m = Some p ∧ takes st p dest name nosub proto
          ∧ ∀ m' q, (m' < m)%nat → head !! m' = Some q → ¬ takes st q dest name nosub proto
      | None => Forall (λ p, ¬ takes st p dest name nosub proto) head
      end.
Proof.
  induction head as [|p head IH]; intros i Ha Hf Hd; cbn [dp_find_from]; [by exists None|].
  apply Forall_cons in Hf as [[Hl Hs] Hf].
  destruct (dp_match_fresh st p dest name nosub proto Ha Hl Hs Hd) as (b & -> & Hb). rewrite bind_Ok. destruct b.
  { exists (Some i). split; [done|]. exists O, p. split; [lia|]. split; [done|]. split; [by apply Hb|]. intros m' q Hm. lia. }
  assert (Hp : ¬ takes st p dest name nosub proto) by by rewrite <- Hb.
  destruct (IH (Datatypes.S i) Ha Hf Hd) as (r & -> & Hr). exists r. split; [done|]. destruct r as [k|]; [|by constructor].
  destruct Hr as (m & q & -> & Eq & Hq & Hbefore). exists (Datatypes.S m), q. split; [lia|]. split; [done|]. split; [done|].
  intros [|m'] q' Hm; simpl; [by intros [= <-]|]. apply Hbefore. lia.
Qed.
End find.

(** C23: with lists that are up to date, a connection gets the first profile
    whose address family, ports, protocol, address sets and host lists all
    take it, or none; a profile with an automatic list takes any name. *)
Theorem dp_find_first alloc room_prefix z_readfile inet_pton (st : tpws) (dest : sockaddr) (name : option mem)
    (nosub : bool) (proto : l7proto) :
  autos_nonempty st → Forall (λ p, hl_fresh st p ∧ sets_fresh st p) (desync_profiles st) → dest_ok (sa_addr dest) →
  ∃ r, dp_find alloc room_prefix z_readfile inet_pton st dest name nosub proto = Ok (st, r)
    ∧ match r with
      | Some k => ∃ p, desync_profiles st !! k = Some p ∧ takes st p dest name nosub proto
          ∧ ∀ k' q, (k' < k)%nat → desync_profiles st !! k' = Some q → ¬ takes st q dest name nosub proto
      | None => Forall (λ p, ¬ takes st p dest name nosub proto) (desync_profiles st)
      end.
Proof.
  intros Ha Hf Hd.
  destruct (dp_find_from_fresh alloc room_prefix z_readfile inet_pton st dest name nosub proto (desync_profiles st) 0 Ha Hf Hd)
    as (r & E & Hr).
  exists r. split; [done|]. destruct r as [k|]; [|done]. by destruct Hr as (m & p & -> & H); exists p.
Qed.

(** ** Names by address *)

Lemma ipcache_get_set c a i : a ≠ InNone → ipcache_get (ipcache_set c a i) a = Some i.
Proof. destruct a; intros Ha; simpl; [apply lookup_insert_eq|apply lookup_insert_eq|done]. Qed.

(** what [put] leaves at the address *)
Lemma put_item (room : ip_cache → ip_dest → bool) strdup now st a name is_ip st' :
  a ≠ InNone → ipcache_put_hostname room strdup true now st a name is_ip = (st', true) →
  ∃ flag, ipcache_get (ipcache st') a = Some (IpCacheItem now (Some name) flag)
    ∧ (flag = is_ip ∨ ∃ i, ipcache_get (ipcache st) a = Some i ∧ ic_hostname i = Some name ∧ ic_hostname_is_ip i = flag).
Proof.
  intros Ha. unfold ipcache_put_hostname. cbn [negb]. unfold ipcacheTouch.
  assert (Hadd : ∀ c i, ipcacheAdd room now (ipcache st) a = Some (c, i) →
    i = ipcache_item_init now ∨ ipcache_get (ipcache st) a = Some i).
  { intros c i. unfold ipcacheAdd. destruct (ipcache_get (ipcache st) a); [intros [= <- <-]; by right|].
    destruct (room _ _); [|done]. intros [= <- <-]. by left. }
  destruct (ipcacheAdd room now (ipcache st) a) as [[c i]|]; [|by destruct a]. specialize (Hadd c i eq_refl).
  replace (match a with InNone => _ | _ => _ end) with (ipcache_set c a (i <| ic_last := now |>), Some (i <| ic_last := now |>))
    by by destruct a.
  cbn [ic_hostname]. simpl. case_bool_decide as Hn.
  - intros [= <-]. exists (ic_hostname_is_ip i). simpl. rewrite ipcache_get_set by done. unfold upd. simpl. rewrite Hn.
    split; [done|]. destruct Hadd as [->|Hi]; [done|]. right. by exists i.
  - destruct (strdup name); [|done]. intros [= <-]. exists is_ip. simpl. rewrite ipcache_get_set by done. split; [done|by left].
Qed.

Lemma purge_get now lifetime c prev a i :
  ipcache_get c a = Some i →
  ipcache_get (ipcachePurgeRateLimited now lifetime c prev).1 a
  = if (prev =? now) || (lifetime =? 0) || (now <? ic_last i + lifetime) then Some i else None.
Proof.
  intros E. unfold ipcachePurgeRateLimited, ipcache_purge. destruct (prev =? now); [done|]. cbn [negb orb].
  destruct (lifetime =? 0); [done|]. cbn [negb orb]. destruct a as [a|a|]; [| |done]; simpl in *; unfold ipcache4_purge;
    (destruct (Z.ltb_spec now (ic_last i + lifetime));
      [apply map_lookup_filter_Some; split; [done|simpl; lia]
      |apply map_lookup_filter_None; right; intros i' E'; rewrite E in E'; injection E' as <-; simpl; lia]).
Qed.

(** A name put into the cache comes out of it for its lifetime, shortened
    to the buffer, with its kind; a clean-up after the lifetime has dropped
    it. *)
Theorem ipcache_put_get (room : ip_cache → ip_dest → bool) (strdup : mem → bool) (st st' st2 : tpws) (a : ip_dest)
    (name : mem) (is_ip : bool) (now t lifetime prev : Z) :
  a ≠ InNone →
  (∀ i, ipcache_get (ipcache st) a = Some i → ic_hostname i ≠ Some name) →
  ipcache_put_hostname room strdup true now st a name is_ip = (st', true) →
  ipcache st2 = (ipcachePurgeRateLimited t lifetime (ipcache st') prev).1 →
  (lifetime = 0 ∨ t < now + lifetime →
    ∃ st3, ipcache_get_hostname room true t st2 a = (st3, true, take 255 name, Some is_ip))
  ∧ (lifetime ≠ 0 → now + lifetime <= t → prev ≠ t → ipcache_get (ipcache st2) a = None).
Proof.
  intros Ha Hnew Hput E2. destruct (put_item room strdup now st a name is_ip st' Ha Hput) as (flag & Ei & Hf).
  assert (flag = is_ip) as -> by (destruct Hf as [|(i & Hi & Hn & _)]; [done|by destruct (Hnew i Hi)]).
  pose proof (purge_get t lifetime (ipcache st') prev a _ Ei) as Hp. rewrite <- E2 in Hp. simpl in Hp. split.
  - intros Hl. assert (Hc : (prev =? t) || (lifetime =? 0) || (t <? now + lifetime) = true).
    { rewrite !orb_true_iff, !Z.eqb_eq, Z.ltb_lt. tauto. }
    rewrite Hc in Hp. unfold ipcache_get_hostname, ipcacheTouch, ipcacheAdd. cbn [negb]. rewrite Hp.
    destruct a; [| |done]; by eexists.
  - intros Hl Hle Hne. rewrite Hp. rewrite (proj2 (Z.eqb_neq _ _)), (proj2 (Z.eqb_neq _ _)), (proj2 (Z.ltb_ge _ _)) by done.
    done.
Qed.

(** ** Instances *)

Lemma some_autos_nonempty : autos_nonempty some_tpws.
Proof. constructor; [|constructor]. eexists. split; [done|]. apply map_non_empty_singleton. Qed.
Lemma some_fresh p : p ∈ desync_profiles some_tpws → hl_fresh some_tpws p ∧ sets_fresh some_tpws p.
Proof.
  assert (H0 : all_fresh (fs some_tpws) (hostlists some_tpws) [0%nat]).
  { constructor; [|constructor]. eexists. split; [done|]. intros name sig [= <-]. by intros [= <-]. }
  assert (H1 : all_fresh (fs some_tpws) (ipsets some_tpws) [0%nat]).
  { constructor; [|constructor]. eexists. split; [done|]. intros name sig [= <-]. by intros [=]. }
  assert (Hp : pools_ok ips_room (ipsets some_tpws)) by apply some_tpws_ok.
  intros [->|[->|?%elem_of_nil]%elem_of_cons]%elem_of_cons; [| |done].
  - split; [split; [exact H0|constructor]|split; [constructor|exact H1|exact Hp]].
  - split; [split; constructor|split; [constructor|constructor|exact Hp]].
Qed.

(** the old name is not above the new one *)
Lemma some_not_matched : ¬ pool_matches {[ bytes_of "old.org" := 0 ]} false (bytes_of "a.b").
Proof.
  intros [[f H]|(_ & n & f & [pre E] & H & _)].
  - rewrite lookup_singleton_ne in H; [done|]. by apply (bool_decide_eq_true_1 (bytes_of "old.org" ≠ bytes_of "a.b")).
  - apply lookup_singleton_Some in H as [<- _]. apply (f_equal length) in E. rewrite !length_app in E. simpl in E. lia.
Qed.

Lemma some_learns :
  learns (λ _ _, true) (λ _ _, true) (λ _, true) some_tpws 0 user_profile 0 (bytes_of "auto") (bytes_of "a.b") false.
Proof.
  split; try done.
  - by eexists.
  - by intros [|[|k]] g.
  - by left.
  - by intros ?%elem_of_nil.
  - apply some_autos_nonempty.
  - apply some_fresh. by left.
  - intros [H|(k & [->|?%elem_of_nil]%elem_of_cons & Hm)]; [|by apply some_not_matched|done].
    specialize (H 0%nat ltac:(by left)). exact (map_non_empty_singleton _ _ H).
  - by intros (k & ?%elem_of_nil & _).
Qed.

Lemma auto_list_learns_witness :
  let failed := all_failed (λ _ _, true) (λ _ _, true) (λ _, None) (λ _, true) in
  failed [10] some_tpws 0%nat (bytes_of "a.b") false
    = Ok (set_counters some_tpws 0 (<[bytes_of "a.b" := HostFail 1 70]> ∅))
  ∧ ∃ st', failed [10; 20] some_tpws 0%nat (bytes_of "a.b") false = Ok st'
    ∧ learned (λ _ _, true) (λ _, None) some_tpws st' user_profile 0 (bytes_of "auto") (bytes_of "a.b") false.
Proof.
  split.
  - by apply (auto_list_learns (λ _ _, true) (λ _ _, true) (λ _, None) (λ _, true) some_tpws 0 user_profile 0
      (bytes_of "auto") (bytes_of "a.b") false 10 [] some_learns eq_refl).
  - destruct (proj2 (auto_list_learns (λ _ _, true) (λ _ _, true) (λ _, None) (λ _, true) some_tpws 0 user_profile 0
      (bytes_of "auto") (bytes_of "a.b") false 10 [20] some_learns eq_refl) eq_refl) as (st' & E & _ & H).
    by exists st'.
Defined.

Lemma learned_name_survives_witness :
  ∃ st' pool, all_failed (λ _ _, true) (λ _ _, true) (λ _, None) (λ _, true) [10; 20] some_tpws 0 (bytes_of "a.b") false = Ok st'
    ∧ AppendHostList (λ _ _, true) (λ _, None) (fs st') ∅ (bytes_of "auto") = Ok (pool, true)
    ∧ SearchHostList pool (bytes_of "a.b") false = Ok true.
Proof.
  destruct (learn_step (λ _ _, true) (λ _ _, true) (λ _, None) (λ _, true) 20 _ 0 _ 0 (bytes_of "auto") (bytes_of "a.b") false
    (learns_counters _ _ _ _ _ _ _ _ _ _ (<[bytes_of "a.b" := HostFail (Z.of_nat (length [10])) (10 + hostlist_auto_fail_time user_profile)]>
      (hostlist_auto_fail_counters user_profile)) some_learns)) as (st' & E & _ & H).
  { simpl. by rewrite lookup_insert_eq. }
  destruct (learned_name_survives (λ _ _, true) (λ _, None) _ _ _ _ (bytes_of "auto") (bytes_of "a.b") false
    [(bytes_of "old.org", false)] (λ _ _, eq_refl) H) as (pool & E1 & E2 & _); [done| |by repeat constructor|unfold short; simpl; lia|done|done|].
  { constructor; [|constructor]. split; [by repeat constructor|unfold short; simpl; lia]. }
  exists st', pool. split; [|done]. rewrite (all_failed_app _ _ _ _ [10] [20]).
  erewrite fails_counted; [|done|done|done|done]. rewrite bind_Ok. cbn [all_failed]. by rewrite E.
Defined.

Lemma dp_find_first_witness :
  ∃ r, dp_find (λ _ _, true) (λ _ _, true) (λ _, None) (λ _ _, None) some_tpws some_dest (Some (bytes_of "a.b")) false TLS
      = Ok (some_tpws, r)
    ∧ match r with
      | Some k => ∃ p, desync_profiles some_tpws !! k = Some p ∧ takes some_tpws p some_dest (Some (bytes_of "a.b")) false TLS
          ∧ ∀ k' q, (k' < k)%nat → desync_profiles some_tpws !! k' = Some q
            → ¬ takes some_tpws q some_dest (Some (bytes_of "a.b")) false TLS
      | None => Forall (λ p, ¬ takes some_tpws p some_dest (Some (bytes_of "a.b")) false TLS) (desync_profiles some_tpws)
      end.
Proof.
  apply dp_find_first; [apply some_autos_nonempty|apply Forall_forall; apply some_fresh|done].
Defined.

Lemma ipcache_put_get_witness :
  let st' := (ipcache_put_hostname (λ _ _, true) (λ _, true) true 100 some_tpws (In4 [x0a; x00; x00; x01]) (bytes_of "a.b") false).1 in
  let st2 := st' <| ipcache := (ipcachePurgeRateLimited 150 60 (ipcache st') 100).1 |> in
  ∃ st3, ipcache_get_hostname (λ _ _, true) true 150 st2 (In4 [x0a; x00; x00; x01]) = (st3, true, bytes_of "a.b", Some false).
Proof.
  intros st' st2.
  destruct (ipcache_put_get (λ _ _, true) (λ _, true) some_tpws st' st2 (In4 [x0a; x00; x00; x01]) (bytes_of "a.b") false
    100 150 60 100) as [H _]; [done|done| |done|].
  - unfold st'. simpl. done.
  - apply H. right. lia.
Defined.
