(* ===== verification/TpSockaddr.v ===== *)
(** * tpws, socket addresses: native/tpws/helpers.c, lines 215-340

    Which addresses are local, and IPv4 addresses mapped into IPv6.  A
    [struct sockaddr] is [TpProfile.sockaddr]: the bytes of the address in
    network order and the port as a number. *)

From Stdlib Require Import ZArith Lia Bool List.
From Stdlib Require Import Strings.Byte Strings.String.
From stdpp Require Import base tactics list numbers option.
From S2P Require Import Prelude CMem TpPools TpProfile.

Definition sa_family (sa : sockaddr) : Z := match sa_addr sa with In4 _ => 2 | In6 _ => 10 | InNone => 0 end.
Definition no_addr : sockaddr := Sockaddr InNone 0.

Definition MAPPED : mem := [x00; x00; x00; x00; x00; x00; x00; x00; x00; x00; xff; xff].
Definition ZERO_ADDR : mem := repeat x00 16.

Definition saismapped (a6 : mem) : bool := bool_decide (take 12 a6 = MAPPED).
(** [IN6_EXTRACT_MAP4] *)
Definition extract_map4 (a6 : mem) : mem := drop 12 a6.
Definition samappedcmp (a4 a6 : mem) : bool := saismapped a6 && bool_decide (extract_map4 a6 = a4).
Definition sacmp (sa1 sa2 : sockaddr) : bool :=
  match sa_addr sa1, sa_addr sa2 with
  | In4 a, In4 b | In6 a, In6 b => bool_decide (a = b)
  | In4 a, In6 b | In6 b, In4 a => samappedcmp a b
  | _, _ => false
  end.
Definition saconvmapped (a : sockaddr) : sockaddr * bool :=
  match sa_addr a with
  | In6 b => if saismapped b then (Sockaddr (In4 (extract_map4 b)) (sa_port a), true) else (a, false)
  | _ => (a, false)
  end.
(** copies the address of either family; of another, sets the family to 0 *)
Definition sacopy (sa : sockaddr) : sockaddr := match sa_addr sa with InNone => no_addr | _ => sa end.
Definition sa46copy (sa : sockaddr) : sockaddr := sacopy sa.

(** [IN_LOOPBACK], [INADDR_ANY] *)
Definition in_loopback (a4 : mem) : bool := match a4 with b :: _ => zb b =? 127 | [] => false end.
Definition inaddr_any (a4 : mem) : bool := bool_decide (a4 = repeat x00 4).
Definition is_localnet (a : sockaddr) : bool :=
  match sa_addr a with
  | In4 b => in_loopback b || inaddr_any b
  | In6 b => bool_decide (b = repeat x00 15 ++ [x01]) || bool_decide (b = ZERO_ADDR)
      || saismapped b && (in_loopback (extract_map4 b) || inaddr_any (extract_map4 b))
  | InNone => false
  end.
Definition is_linklocal (a6 : mem) : bool :=
  match a6 with a :: b :: _ => (zb a =? 0xFE) && (Z.land (zb b) 0xC0 =? 0x80) | _ => false end.
Definition is_private6 (a6 : mem) : bool := match a6 with a :: _ => Z.land (zb a) 0xFE =? 0xFC | [] => false end.

(** ** Mapping does not change what is local *)

Lemma saconvmapped_localnet a : is_localnet a = false → is_localnet (saconvmapped a).1 = false.
Proof.
  unfold saconvmapped, is_localnet. destruct (sa_addr a) as [b|b|] eqn:E; simpl; rewrite ?E; try done.
  intros H. destruct (saismapped b) eqn:Em; simpl; [|by rewrite E, Em].
  by apply orb_false_iff in H as [_ H].
Qed.
Lemma sacmp_sym a b : sacmp a b = sacmp b a.
Proof.
  unfold sacmp. destruct (sa_addr a), (sa_addr b); try done; apply bool_decide_ext; split; intros ->; done.
Qed.
Lemma sacmp_convmapped a b : match sa_addr b with In6 b => saismapped b = false | _ => True end →
  sacmp (saconvmapped a).1 b = sacmp a b.
Proof.
  unfold saconvmapped, sacmp. destruct (sa_addr a) as [x|x|] eqn:E; simpl; rewrite ?E; try done.
  destruct (saismapped x) eqn:Em; simpl; [|by rewrite E].
  destruct (sa_addr b) as [y|y|]; simpl; try done.
  - intros _. unfold samappedcmp. by rewrite Em.
  - intros Ey. unfold samappedcmp. rewrite Ey. simpl. symmetry. apply bool_decide_false. intros ->. congruence.
Qed.
