(* ===== verification/TpWorld.v ===== *)
(** * tpws, the process: native/tpws/tpws_conn.h, resolver.h, part of params.h

    The connections, the queue of the resolver threads and the system calls
    of tpws.

    Pointers.  [tproxy_conn_t *] is an index into [p_conns], [struct
    resolve_item *] one into [p_items]; what has been freed is [None] there:
    any use is [UB].  The array of listening sockets is [p_listen]; the
    pointer an epoll event carries is a [target].

    System calls.  The kernel is a parameter ([Kernel]): the reply to a call
    is a function of the calls and replies so far, which the process records
    in [p_trace].  A call that fails sets [errno].  [malloc], [time] and
    [getaddrinfo] are calls too; whatever memory holds that nobody has
    written is part of the reply. *)

From Stdlib Require Import ZArith Lia Bool List.
From Stdlib Require Import Strings.Byte Strings.String.
From stdpp Require Import base tactics list numbers option.
From S2P Require Import Prelude CMem Kavl MPool TpProtocol TpPools TpProfile TpSockaddr StateMonad.

(** ** Constants *)

Definition ECONNRESET : Z := 104.
Definition ECONNREFUSED : Z := 111.
Definition ENETUNREACH : Z := 101.
Definition EHOSTUNREACH : Z := 113.
Definition ETIMEDOUT : Z := 110.
Definition EAGAIN : Z := 11.
Definition ENOMEM : Z := 12.
Definition EINTR : Z := 4.
Definition EINPROGRESS : Z := 115.
Definition EBADF : Z := 9.
Definition EAI_FAIL : Z := -4.

Definition EPOLLIN : Z := 1.
Definition EPOLLOUT : Z := 4.
Definition EPOLLERR : Z := 8.
Definition EPOLLHUP : Z := 16.
Definition EPOLLRDHUP : Z := 8192.
Definition EPOLL_CTL_ADD : Z := 1.
Definition EPOLL_CTL_DEL : Z := 2.
Definition EPOLL_CTL_MOD : Z := 3.

Definition MSG_OOB : Z := 1.
Definition MSG_DONTWAIT : Z := 64.
Definition SOL_SOCKET : Z := 1.
Definition IPPROTO_IP : Z := 0.
Definition IPPROTO_TCP : Z := 6.
Definition IPPROTO_IPV6 : Z := 41.
Definition SO_REUSEADDR : Z := 2.
Definition SO_ERROR : Z := 4.
Definition SO_SNDBUF : Z := 7.
Definition SO_RCVBUF : Z := 8.
Definition SO_KEEPALIVE : Z := 9.
Definition SO_LINGER : Z := 13.
Definition TCP_NODELAY : Z := 1.
Definition TCP_MAXSEG : Z := 2.
Definition TCP_CORK : Z := 3.
Definition TCP_INFO : Z := 11.
Definition TCP_USER_TIMEOUT : Z := 18.
Definition IP_TTL : Z := 2.
Definition IPV6_UNICAST_HOPS : Z := 16.
Definition SO_ORIGINAL_DST : Z := 80.

(** ** Connections *)

Inductive conn_state : Type := CONN_UNAVAILABLE | CONN_AVAILABLE | CONN_RDHUP | CONN_CLOSED.
#[export] Instance conn_state_eq_dec : EqDecision conn_state.
Proof. solve_decision. Defined.
Inductive conn_type : Type := CONN_TYPE_TRANSPARENT | CONN_TYPE_SOCKS.
#[export] Instance conn_type_eq_dec : EqDecision conn_type.
Proof. solve_decision. Defined.
Inductive socks_states : Type := S_WAIT_HANDSHAKE | S_WAIT_REQUEST | S_WAIT_RESOLVE | S_WAIT_CONNECTION | S_TCP.
#[export] Instance socks_states_eq_dec : EqDecision socks_states.
Proof. solve_decision. Defined.

(** [sb_data = None] is the null pointer *)
Record send_buffer : Type := SendBuffer {
  sb_data : option mem; sb_len : Z; sb_pos : Z; sb_ttl : Z; sb_flags : Z
}.
#[export] Instance send_buffer_eta : Eta send_buffer := λ b,
  SendBuffer (sb_data b) (sb_len b) (sb_pos b) (sb_ttl b) (sb_flags b).
Definition no_buffer : send_buffer := SendBuffer None 0 0 0 0.

(** [splice_pipe]: the two ends *)
Record tproxy_conn : Type := Conn {
  c_remote : bool; c_efd : Z; c_fd : Z; c_splice_pipe : Z * Z;
  c_state : conn_state; c_type : conn_type; c_client : sockaddr; c_dest : sockaddr;
  c_partner : option nat; c_orphan_since : Z;
  c_socks_state : socks_states; c_socks_ver : Z; c_socks_ri : option nat;
  bFlowIn : bool; bFlowOut : bool; bShutdown : bool;
  bFlowInPrev : bool; bFlowOutPrev : bool; bPrevRdhup : bool;
  c_trd : Z; c_twr : Z; c_tnrd : Z; c_event_count : Z;
  c_wr_unsent : Z; c_wr_buf : list send_buffer; c_track : t_ctrack
}.
#[export] Instance tproxy_conn_eta : Eta tproxy_conn := λ c,
  Conn (c_remote c) (c_efd c) (c_fd c) (c_splice_pipe c)
    (c_state c) (c_type c) (c_client c) (c_dest c)
    (c_partner c) (c_orphan_since c)
    (c_socks_state c) (c_socks_ver c) (c_socks_ri c)
    (bFlowIn c) (bFlowOut c) (bShutdown c)
    (bFlowInPrev c) (bFlowOutPrev c) (bPrevRdhup c)
    (c_trd c) (c_twr c) (c_tnrd c) (c_event_count c)
    (c_wr_unsent c) (c_wr_buf c) (c_track c).

(** what [calloc] gives *)
Definition zero_conn : tproxy_conn :=
  Conn false 0 0 (0, 0) CONN_UNAVAILABLE CONN_TYPE_TRANSPARENT no_addr no_addr
    None 0 S_WAIT_HANDSHAKE 0 None false false false false false false
    0 0 0 0 0 (repeat no_buffer 4) (new_ctrack None false).

Record resolve_item : Type := ResolveItem {
  ri_dom : mem; ri_ss : sockaddr; ri_ga_res : Z; ri_port : Z; ri_ptr : option nat
}.
#[export] Instance resolve_item_eta : Eta resolve_item := λ r,
  ResolveItem (ri_dom r) (ri_ss r) (ri_ga_res r) (ri_port r) (ri_ptr r).

(** ** Options *)

Record tp_params : Type := TpParams {
  skip_nodelay : bool; ttl_default : Z; nosplice : bool; tamper_on : bool; tamper_lim : bool;
  remote_rcvbuf : Z; remote_sndbuf : Z;
  connect_bind4 : sockaddr; connect_bind6 : sockaddr; connect_bind6_ifname : mem;
  tcp_user_timeout_remote : Z; tcp_user_timeout_local : Z;
  fix_seg : Z; fix_seg_avail : bool; no_resolve : bool; max_orphan_time : Z;
  maxconn : Z; listen_port : Z; proxy_type : conn_type; resolver_threads : Z
}.

(** ** System calls *)

Inductive target : Type := T_RESOLVE_PIPE | T_LISTEN (i : nat) | T_CONN (c : nat).
#[export] Instance target_eq_dec : EqDecision target.
Proof. solve_decision. Defined.

Inductive call : Type :=
| Send (fd : Z) (data : mem) (flags : Z) | Recv (fd n : Z)
| SpliceIn (fd pipe n : Z) | SpliceOut (pipe fd n : Z)
| Shutdown (fd : Z) | Close (fd : Z)
| SetSockOpt (fd level opt val : Z) | GetSockOpt (fd level opt : Z)
| Unread (fd : Z) | Pipe | SetNonblock (fd : Z)
| Socket (family : Z) | Bind (fd : Z) (addr : sockaddr) | Connect (fd : Z) (addr : sockaddr)
| IfNameToIndex (name : mem) | Accept4 (fd : Z) | GetPeerName (fd : Z) | GetSockName (fd : Z)
| GetIfAddrs | EpollCreate | EpollCtl (efd op fd events : Z) (data : option target) | EpollWait (efd : Z)
| Malloc (n : Z) | CallocConn | CallocItem | CallocListen (n : Z) | Realloc (n : Z)
| Time | GetEnv (name : string) | ClockGetRes | MSleep (ms : Z)
| ReadPtr (fd : Z) | WritePtr (fd : Z) | SemInit | SemPost | SemWait | MutexInit | AttrInit | AttrSetStackSize
| PthreadCreate | GetAddrInfo (dom : mem) (port : Z).

(** what comes back: the return value ([-1] for a null pointer), [errno] if it
    is negative, the bytes the caller's buffer holds, an address, a value, the
    state and length of [tcp_info], events, a list of addresses *)
Record reply : Type := Reply {
  r_ret : Z; r_errno : Z; r_data : mem; r_addr : sockaddr; r_val : Z; r_info : Z * Z;
  r_events : list (Z * target); r_addrs : list sockaddr
}.
Definition history : Type := list (call * reply).
Class Kernel := kernel : history → call → reply.

(** Memory and files, as [TpProfile] sees them, and the numbers [random] and
    the segment's address give to a request. *)
Class Env := {
  env_alloc : hostlist_pool → mem → bool; env_room : ip_cache → ip_dest → bool;
  env_strdup : mem → bool; env_room_fail : hostfail_pool → mem → bool;
  env_room_prefix : tree elem → mem → bool;
  env_z_readfile : mem → option mem; env_inet_pton : Z → mem → option mem;
  env_writable : mem → bool;
  env_cache_hostname : bool; env_ipcache_lifetime : Z;
  env_random : history → nat → Z; env_address : history → Z
}.

(** ** The process *)

Record proc : Type := Proc {
  p_conns : list (option tproxy_conn); p_conn_list : list nat; p_close_list : list nat;
  legs_local : Z; legs_remote : Z;
  p_listen : list (Z * Z);
  p_tp : tpws; p_bReload : bool;
  p_items : list (option resolve_item); resolve_list : list nat; p_pipe : list nat;
  resolver_bInit : bool; resolver_thread_count' : Z; fd_signal_pipe : Z;
  bind6_scope_id : Z;
  segfail_count : Z; segfail_report_time : Z;
  p_errno : Z; p_trace : history
}.
#[export] Instance proc_eta : Eta proc := λ p,
  Proc (p_conns p) (p_conn_list p) (p_close_list p) (legs_local p) (legs_remote p) (p_listen p)
    (p_tp p) (p_bReload p) (p_items p) (resolve_list p) (p_pipe p)
    (resolver_bInit p) (resolver_thread_count' p) (fd_signal_pipe p) (bind6_scope_id p)
    (segfail_count p) (segfail_report_time p) (p_errno p) (p_trace p).

Definition M (A : Type) : Type := ST proc A.

(** [*conn], and writing its fields *)
Definition conn (c : nat) : M tproxy_conn := λ p,
  match p_conns p !! c with Some (Some x) => Ok (x, p) | _ => UB end.
Definition conn_set (c : nat) (f : tproxy_conn → tproxy_conn) : M unit := λ p,
  match p_conns p !! c with
  | Some (Some _) => Ok (tt, p <| p_conns := alter (fmap f) c (p_conns p) |>)
  | _ => UB
  end.
Definition conn_free (c : nat) : M unit := λ p,
  match p_conns p !! c with
  | Some (Some _) => Ok (tt, p <| p_conns := <[c := None]> (p_conns p) |>)
  | _ => UB
  end.
Definition conn_new (x : tproxy_conn) : M nat := λ p,
  Ok (length (p_conns p), p <| p_conns := p_conns p ++ [Some x] |>).

Definition item (r : nat) : M resolve_item := λ p,
  match p_items p !! r with Some (Some x) => Ok (x, p) | _ => UB end.
Definition item_set (r : nat) (f : resolve_item → resolve_item) : M unit := λ p,
  match p_items p !! r with
  | Some (Some _) => Ok (tt, p <| p_items := alter (fmap f) r (p_items p) |>)
  | _ => UB
  end.
Definition item_free (r : nat) : M unit := λ p,
  match p_items p !! r with
  | Some (Some _) => Ok (tt, p <| p_items := <[r := None]> (p_items p) |>)
  | _ => UB
  end.
Definition item_new (x : resolve_item) : M nat := λ p,
  Ok (length (p_items p), p <| p_items := p_items p ++ [Some x] |>).

(** [TAILQ_REMOVE] of an element that is not in the queue is undefined *)
Definition tailq_remove (c : nat) (l : list nat) : option (list nat) :=
  if bool_decide (c ∈ l) then Some (filter (λ d, d ≠ c) l) else None.

(** [exit] on a state the code takes for impossible *)
Definition fatal {A} : M A := ub.

Section sys.
Context {K : Kernel}.
Definition sys (c : call) : M reply := λ p,
  let r := kernel (p_trace p) c in
  Ok (r, p <| p_trace := p_trace p ++ [(c, r)] |>
           <| p_errno := if r_ret r <? 0 then r_errno r else p_errno p |>).
Definition sysret (c : call) : M Z := let* r := sys c in ret (r_ret r).
(** a call of which only success matters *)
Definition sys_ok (c : call) : M bool := let* r := sysret c in ret (negb (r <? 0)).
Definition errno : M Z := gets p_errno.

(** a buffer of [size] bytes after a call that may have written to it *)
Definition buffer_of (size : Z) (data : mem) : mem := take (Z.to_nat size) (data ++ repeat x00 (Z.to_nat size)).

(** the process after a system call *)
Definition after (c : call) (p : proc) : proc :=
  let r := kernel (p_trace p) c in
  p <| p_trace := p_trace p ++ [(c, r)] |> <| p_errno := if r_ret r <? 0 then r_errno r else p_errno p |>.

Lemma wps_sys c p (Q : reply → proc → Prop) : Q (kernel (p_trace p) c) (after c p) → wps (sys c) p Q.
Proof. done. Qed.
Lemma wps_sysret c p (Q : Z → proc → Prop) : Q (r_ret (kernel (p_trace p) c)) (after c p) → wps (sysret c) p Q.
Proof. done. Qed.
Lemma wps_sys_ok c p (Q : bool → proc → Prop) :
  Q (negb (r_ret (kernel (p_trace p) c) <? 0)) (after c p) → wps (sys_ok c) p Q.
Proof. done. Qed.
Lemma wps_conn c x p (Q : tproxy_conn → proc → Prop) : p_conns p !! c = Some (Some x) → Q x p → wps (conn c) p Q.
Proof. unfold wps, conn. by intros ->. Qed.
Lemma wps_conn_set c x f p (Q : unit → proc → Prop) :
  p_conns p !! c = Some (Some x) → Q tt (p <| p_conns := alter (fmap f) c (p_conns p) |>) → wps (conn_set c f) p Q.
Proof. unfold wps, conn_set. by intros ->. Qed.
End sys.
Arguments errno / _.

Lemma len_buffer_of size data : 0 <= size → len (buffer_of size data) = size.
Proof. intros H. unfold buffer_of, len. rewrite length_take, length_app, repeat_length. lia. Qed.
