(* ===== verification/TpSend.v ===== *)
(** * tpws, sending: native/tpws/tpws_conn.c, lines 102-311 and 1141-1173

    A segment goes to the kernel as far as it takes it; the rest is kept in
    the connection's send buffers, which are sent in their order. *)

From Stdlib Require Import ZArith Lia Bool List.
From Stdlib Require Import Strings.Byte Strings.String.
From stdpp Require Import base tactics list numbers option.
From S2P Require Import Prelude CMem TpProfile TpSockaddr StateMonad TpWorld.

Section send.
Context `{K : Kernel} (params : tp_params).

(** ** Options of a socket: helpers.c *)

Definition setsockopt (fd level opt val : Z) : M bool := sys_ok (SetSockOpt fd level opt val).
Definition set_keepalive (fd : Z) : M bool := setsockopt fd SOL_SOCKET SO_KEEPALIVE 1.
Definition set_ttl (fd ttl : Z) : M bool := setsockopt fd IPPROTO_IP IP_TTL ttl.
Definition set_hl (fd hl : Z) : M bool := setsockopt fd IPPROTO_IPV6 IPV6_UNICAST_HOPS hl.
Definition set_ttl_hl (fd ttl : Z) : M bool :=
  let* b1 := set_ttl fd ttl in let* b2 := set_hl fd ttl in ret (b1 || b2).
(** reading the error clears it *)
Definition get_so_error (fd : Z) : M Z :=
  let* r := sys (GetSockOpt fd SOL_SOCKET SO_ERROR) in
  if r_ret r =? -1 then errno else ret (r_val r).

(** the length of [struct tcp_info] up to the end of [tcpi_notsent_bytes] *)
Definition TCPI_NOTSENT_END : Z := 148.
Definition socket_has_notsent (sfd : Z) : M bool :=
  let* r := sys (GetSockOpt sfd IPPROTO_TCP TCP_INFO) in
  if r_ret r <? 0 then ret false else
  let '(tcpi_state, ts) := r_info r in
  if negb (tcpi_state =? 1) then ret false else
  if ts <? TCPI_NOTSENT_END then ret false else
  ret (negb (r_val r =? 0)).

(** waits for the kernel to send what it has; [mtick] is at least 1 *)
Definition wait_step (sfd mtick : Z) (delay_ms : Z) : M (Z + bool) :=
  let* _ := sys (MSleep mtick) in
  let* b := socket_has_notsent sfd in
  if negb b then ret (inr true) else
  if delay_ms <=? mtick then ret (inr false) else ret (inl (delay_ms - mtick)).
Definition socket_wait_notsent (sfd delay_ms : Z) : M bool :=
  let* b := socket_has_notsent sfd in
  if negb b then ret true else
  let* r := sys ClockGetRes in
  let '(sec, nsec) := if negb (r_ret r =? 0) then (0, 10000000) else (r_val r / 1000000000, r_val r mod 1000000000) in
  let mtick := u32 (u32 (sec * 1000) + u32 (nsec / 1000000)) in
  let mtick := if mtick <? 1 then 1 else mtick in
  mloop (Datatypes.S (Z.to_nat delay_ms)) (wait_step sfd mtick) delay_ms.

(** ** Sending *)

(** [errno] is what it was *)
Definition cork (fd enable : Z) : M bool :=
  let* e := errno in
  let* b := setsockopt fd IPPROTO_TCP TCP_CORK enable in
  modify (λ p, p <| p_errno := e |>) ;;; ret b.

Definition send_with_ttl (fd : Z) (buf : mem) (flags ttl : Z) : M Z :=
  when (negb (skip_nodelay params))
    (let* _ := set_ttl_hl fd (if ttl =? 0 then ttl_default params else ttl) in
     let* _ := cork fd 1 in ret tt) ;;;
  let* wr := sysret (Send fd buf flags) in
  when (negb (skip_nodelay params)) (let* _ := cork fd 0 in ret tt) ;;;
  ret wr.

(** [wr<0 && errno==EAGAIN] counts as nothing sent *)
Definition or_again (wr : Z) : M Z :=
  let* e := errno in ret (if (wr <? 0) && (e =? EAGAIN) then 0 else wr).

(** *** Send buffers *)

Definition send_buffer_present (sb : send_buffer) : bool := bool_decide (is_Some (sb_data sb)).
Definition send_buffers_present (sbs : list send_buffer) : bool := existsb send_buffer_present sbs.
Definition send_buffer_free (sb : send_buffer) : send_buffer := sb <| sb_data := None |>.
Definition send_buffers_free (sbs : list send_buffer) : list send_buffer := map send_buffer_free sbs.

(** [data = None] leaves the bytes as [malloc] gave them *)
Definition send_buffer_create (sb : send_buffer) (data : option mem) (len' extra_bytes flags ttl : Z)
  : M (send_buffer * bool) :=
  if send_buffer_present sb then fatal else
  let* r := sys (Malloc (len' + extra_bytes)) in
  if r_ret r <? 0 then ret (sb, false) else
  let new := buffer_of (len' + extra_bytes) (r_data r) in
  let* new := lift (match data with Some d => memcpy new 0 d 0 len' | None => Ok new end) in
  ret (SendBuffer (Some new) len' 0 ttl flags, true).

Definition send_buffer_realloc (sb : send_buffer) (extra_bytes : Z) : M (send_buffer * bool) :=
  match sb_data sb with
  | None => ret (sb, false)
  | Some data =>
      let* r := sys (Realloc (sb_len sb + extra_bytes)) in
      if r_ret r <? 0 then ret (sb, false) else
      ret (sb <| sb_data := Some (buffer_of (sb_len sb + extra_bytes) (data ++ r_data r)) |>, true)
  end.

Definition send_buffer_send (sb : send_buffer) (fd : Z) : M (send_buffer * Z) :=
  let* data := deref (sb_data sb) in
  let* piece := lift (bytes_at (sb_pos sb) (sb_len sb - sb_pos sb) data) in
  let* wr := send_with_ttl fd piece (sb_flags sb) (sb_ttl sb) in
  if 0 <? wr then
    let sb := sb <| sb_pos := sb_pos sb + wr |> in
    ret (if sb_len sb <=? sb_pos sb then send_buffer_free sb else sb, wr)
  else let* wr := or_again wr in ret (sb, wr).

(** the buffers, what is returned, [*real_wr] *)
Fixpoint send_buffers_send (sbs : list send_buffer) (fd twr : Z) : M (list send_buffer * Z * Z) :=
  match sbs with
  | [] => ret ([], twr, twr)
  | sb :: rest =>
      if send_buffer_present sb then
        let* '(sb, wr) := send_buffer_send sb fd in
        if wr <? 0 then ret (sb :: rest, wr, twr) else
        let twr := twr + wr in
        if send_buffer_present sb then ret (sb :: rest, twr, twr)
        else let* '(rest, w, real) := send_buffers_send rest fd twr in ret (sb :: rest, w, real)
      else let* '(rest, w, real) := send_buffers_send rest fd twr in ret (sb :: rest, w, real)
  end.

Definition send_or_buffer (sb : send_buffer) (fd : Z) (buf : mem) (flags ttl : Z) : M (send_buffer * Z) :=
  if len buf =? 0 then ret (sb, 0) else
  let* wr := send_with_ttl fd buf flags ttl in
  let* wr := or_again wr in
  if (0 <=? wr) && (wr <? len buf) then
    let* rest := lift (bytes_at wr (len buf - wr) buf) in
    let* '(sb, ok) := send_buffer_create sb (Some rest) (len buf - wr) 0 flags ttl in
    ret (sb, if ok : bool then wr else -1)
  else ret (sb, wr).

(** [buf] has a byte more than [len']; the byte behind the part goes out of
    band *)
Definition send_oob (fd : Z) (buf : mem) (from len' ttl : Z) (oob : bool) (oob_byte : Z) : M Z :=
  if oob then
    let* buf := lift (wr buf (from + len') oob_byte) in
    let* piece := lift (bytes_at from (len' + 1) buf) in
    let* wr := send_with_ttl fd piece MSG_OOB ttl in
    or_again wr
  else
    let* piece := lift (bytes_at from len' buf) in
    send_with_ttl fd piece 0 ttl.

Definition report_segfail : M unit :=
  let* now := sysret Time in
  modify (λ p, p <| segfail_count := u32 (segfail_count p + 1) |>
    <| segfail_report_time := now |>).

(** ** Buffers of a connection *)

Definition conn_buffers_present (c : tproxy_conn) : bool := send_buffers_present (c_wr_buf c).
Definition conn_has_unsent (c : tproxy_conn) : bool := negb (c_wr_unsent c =? 0) || conn_buffers_present c.
Definition conn_free_buffers (c : tproxy_conn) : tproxy_conn := c <| c_wr_buf := send_buffers_free (c_wr_buf c) |>.
Definition conn_buffers_send (c : nat) : M Z :=
  let* x := conn c in
  let* '(bufs, wr, real_twr) := send_buffers_send (c_wr_buf x) (c_fd x) 0 in
  conn_set c (λ x, x <| c_wr_buf := bufs |> <| c_twr := u64 (c_twr x + real_twr) |>) ;;; ret wr.
End send.
