(* ===== verification/TpConn.v ===== *)
(** * tpws, connections: native/tpws/tpws_conn.c, lines 215-790 and 1401-1523;
    native/tpws/redirect.c

    A connection is two legs that are each other's partner: the local one,
    which a client opened, and the remote one.  Making, connecting and
    closing them, the events each leg waits for, and what is left to send. *)

From Stdlib Require Import ZArith Lia Bool List.
From Stdlib Require Import Strings.Byte Strings.String.
From stdpp Require Import base tactics list numbers option.
From S2P Require Import Prelude CMem TpPools TpFiles TpHostlist TpIpset TpProfile TpSockaddr StateMonad TpWorld TpSend.

Section conn.
Context `{K : Kernel} `{E : Env} (params : tp_params).

Definition conn_in_tcp_mode (c : tproxy_conn) : bool :=
  negb (bool_decide (c_type c = CONN_TYPE_SOCKS) && negb (bool_decide (c_socks_state c = S_TCP))).

(** the partner, if there is one that is not closed *)
Definition alive_partner (c : tproxy_conn) : M (option (nat * tproxy_conn)) :=
  match c_partner c with
  | None => ret None
  | Some d => let* y := conn d in ret (if bool_decide (c_state y = CONN_CLOSED) then None else Some (d, y))
  end.
Definition conn_partner_alive (c : tproxy_conn) : M bool :=
  let* p := alive_partner c in ret (bool_decide (is_Some p)).
Definition conn_bytes_unread (c : tproxy_conn) : M Z :=
  let* r := sys (Unread (c_fd c)) in ret (if r_ret r <? 0 then -1 else r_val r).
Definition conn_shutdown (c : nat) : M bool :=
  conn_set c (λ x, x <| bShutdown := true |>) ;;;
  let* x := conn c in sys_ok (Shutdown (c_fd x)).

(** ** Connecting *)

Definition set_socket_buffers (fd rcvbuf sndbuf : Z) : M bool :=
  let* ok := if rcvbuf =? 0 then ret true else setsockopt fd SOL_SOCKET SO_RCVBUF rcvbuf in
  if negb ok then ret false else
  if sndbuf =? 0 then ret true else setsockopt fd SOL_SOCKET SO_SNDBUF sndbuf.
Definition set_user_timeout (fd timeout : Z) : M unit :=
  when (0 <? timeout) (let* _ := setsockopt fd IPPROTO_TCP TCP_USER_TIMEOUT (1000 * timeout) in ret tt).

(** the steps of a connection attempt, which a failure ends *)
Fixpoint steps (l : list (M bool)) : M bool :=
  match l with
  | [] => ret true
  | m :: l => let* ok := m in if ok : bool then steps l else ret false
  end.
(** [bind] to the address the options give for the family *)
Definition bind_step (fd : Z) (remote_addr : sockaddr) : M bool :=
  if sa_family remote_addr =? sa_family (connect_bind4 params) then sys_ok (Bind fd (connect_bind4 params))
  else if sa_family remote_addr =? sa_family (connect_bind6 params) then
    let* scope := gets bind6_scope_id in
    let* found := if negb (bool_decide (connect_bind6_ifname params = [])) && (scope =? 0) then
        let* r := sysret (IfNameToIndex (connect_bind6_ifname params)) in
        modify (λ p, p <| bind6_scope_id := r |>) ;;; ret (negb (r =? 0))
      else ret true in
    if found : bool then sys_ok (Bind fd (connect_bind6 params)) else ret false
  else ret true.
Definition connect_step (fd : Z) (remote_addr : sockaddr) : M bool :=
  let* r := sysret (Connect fd remote_addr) in
  if r <? 0 then let* e := errno in ret (e =? EINPROGRESS) else ret true.
Definition connect_remote (remote_addr : sockaddr) (mss : Z) : M Z :=
  let* remote_fd := sysret (Socket (sa_family remote_addr)) in
  if remote_fd <? 0 then ret (-1) else
  let* ok := steps
    [ sys_ok (SetNonblock remote_fd);
      setsockopt remote_fd SOL_SOCKET SO_REUSEADDR 1;
      set_socket_buffers remote_fd (remote_rcvbuf params) (remote_sndbuf params);
      set_keepalive remote_fd;
      setsockopt remote_fd IPPROTO_TCP TCP_NODELAY (if skip_nodelay params then 0 else 1);
      (if mss =? 0 then ret true else setsockopt remote_fd IPPROTO_TCP TCP_MAXSEG mss);
      bind_step remote_fd remote_addr;
      (set_user_timeout remote_fd (tcp_user_timeout_remote params) ;;; ret true);
      connect_step remote_fd remote_addr ] in
  if ok : bool then ret remote_fd
  else let* _ := sys (Close remote_fd) in ret (-1).

(** [TpProfile.connect_remote_conn] says with which segment size; the new
    socket is the partner's *)
Definition conn_connect_remote (c : nat) : M bool :=
  let* x := conn c in
  let* now := sysret Time in
  let* st := gets p_tp in
  let* '(st, ct, mss) := lift (connect_remote_conn env_alloc env_room env_strdup env_room_prefix env_z_readfile
    env_inet_pton env_cache_hostname env_ipcache_lifetime now st (c_track x) (c_dest x)) in
  modify (λ p, p <| p_tp := st |>) ;;; conn_set c (λ x, x <| c_track := ct |>) ;;;
  let* d := deref (c_partner x) in
  let* fd := connect_remote (c_dest x) mss in
  conn_set d (λ y, y <| c_fd := fd |>) ;;; ret (0 <=? fd).

(** ** Making and freeing *)

Definition free_conn (o : option nat) : M unit :=
  match o with
  | None => ret tt
  | Some c =>
      let* x := conn c in
      when (negb (c_fd x =? 0)) (let* _ := sys (Close (c_fd x)) in ret tt) ;;;
      when (negb (fst (c_splice_pipe x) =? 0))
        (let* _ := sys (Close (fst (c_splice_pipe x))) in let* _ := sys (Close (snd (c_splice_pipe x))) in ret tt) ;;;
      match c_partner x with Some d => conn_set d (λ y, y <| c_partner := None |>) | None => ret tt end ;;;
      match c_socks_ri x with Some r => item_set r (λ i, i <| ri_ptr := None |>) | None => ret tt end ;;;
      conn_free c
  end.

Definition new_conn (fd : Z) (remote : bool) : M (option nat) :=
  let* r := sysret CallocConn in
  if r <? 0 then ret None else
  let* c := conn_new (zero_conn <| c_fd := fd |> <| c_remote := remote |>) in
  if negb (nosplice params) && (negb remote || negb (tamper_on params) || tamper_lim params) then
    let* r := sys Pipe in
    if r_ret r =? 0 then
      conn_set c (λ x, x <| c_splice_pipe := r_info r |>) ;;; ret (Some c)
    else free_conn (Some c) ;;; ret None
  else ret (Some c).

(** ** The events a leg waits for *)

Definition epoll_set (c : nat) (events : Z) : M bool :=
  let* x := conn c in
  let* r := sysret (EpollCtl (c_efd x) EPOLL_CTL_MOD (c_fd x) events (Some (T_CONN c))) in
  if negb (r =? -1) then ret true else
  let* r := sysret (EpollCtl (c_efd x) EPOLL_CTL_ADD (c_fd x) events (Some (T_CONN c))) in
  ret (negb (r =? -1)).
Definition epoll_del (c : nat) : M bool :=
  let* x := conn c in
  let* r := sysret (EpollCtl (c_efd x) EPOLL_CTL_DEL (c_fd x) 0 None) in ret (negb (r =? -1)).
Definition epoll_update_flow (c : nat) : M bool :=
  let* x := conn c in
  let rdhup := bool_decide (c_state x = CONN_RDHUP) in
  if Bool.eqb (bFlowInPrev x) (bFlowIn x) && Bool.eqb (bFlowOutPrev x) (bFlowOut x) && Bool.eqb (bPrevRdhup x) rdhup
  then ret true else
  let evtmask := Z.lor (Z.lor (if rdhup then 0 else EPOLLRDHUP) (if bFlowIn x then EPOLLIN else 0))
                       (if bFlowOut x then EPOLLOUT else 0) in
  let* ok := epoll_set c evtmask in
  if negb ok then ret false else
  conn_set c (λ x, x <| bFlowInPrev := bFlowIn x |> <| bFlowOutPrev := bFlowOut x |> <| bPrevRdhup := rdhup |>) ;;;
  ret true.
Definition epoll_set_flow (c : nat) (flow_in flow_out : bool) : M bool :=
  conn_set c (λ x, x <| bFlowIn := flow_in |> <| bFlowOut := flow_out |>) ;;; epoll_update_flow c.

Definition epoll_set_flow_pair (c : nat) : M bool :=
  let* x := conn c in
  let unsent := conn_has_unsent x in
  let* p := alive_partner x in
  let unsent' := match p with Some (_, y) => conn_has_unsent y | None => false end in
  let* ok := epoll_set_flow c (negb unsent' && negb (bool_decide (c_state x = CONN_RDHUP))) unsent in
  if negb ok then ret false else
  match p with
  | Some (d, y) => epoll_set_flow d (negb unsent && negb (bool_decide (c_state y = CONN_RDHUP))) unsent'
  | None => ret true
  end.

(** ** Where the client wants to go: redirect.c, helpers.c *)

Definition get_dest_addr (sockfd : Z) : M (option sockaddr) :=
  let* r := sys (GetSockOpt sockfd IPPROTO_IP SO_ORIGINAL_DST) in
  let* r := if r_ret r <? 0 then sys (GetSockOpt sockfd IPPROTO_IPV6 SO_ORIGINAL_DST) else ret r in
  let* r := if r_ret r <? 0 then sys (GetSockName sockfd) else ret r in
  ret (if r_ret r <? 0 then None else Some (saconvmapped (r_addr r)).1).
Definition check_local_ip (saddr : sockaddr) : M bool :=
  if is_localnet saddr then ret true else
  let* r := sys GetIfAddrs in
  if r_ret r <? 0 then ret false else ret (existsb (λ a, sacmp a saddr) (r_addrs r)).

Definition conn_list_insert_head (c : nat) (remote : bool) : M unit :=
  modify (λ p, p <| p_conn_list := c :: p_conn_list p |>
    <| legs_local := if remote then legs_local p else legs_local p + 1 |>
    <| legs_remote := if remote then legs_remote p + 1 else legs_remote p |>).

(** the other leg of [c], not yet connected *)
Definition new_partner (c : nat) : M (option nat) :=
  let* o := new_conn 0 true in
  match o with
  | None => ret None
  | Some d =>
      conn_set c (λ x, x <| c_partner := Some d |>) ;;;
      let* x := conn c in
      conn_set d (λ y, y <| c_partner := Some c |> <| c_efd := c_efd x |> <| c_client := c_client x |> <| c_dest := c_dest x |>) ;;;
      ret (Some d)
  end.

Definition close_fd {A} (fd : Z) : M (option A) := let* _ := sys (Close fd) in ret None.
(** the last steps of [add_tcp_connection] *)
Definition add_legs (c : nat) (proxy : conn_type) : M (option nat) :=
  let* ok := epoll_set c (if bool_decide (proxy = CONN_TYPE_TRANSPARENT) then EPOLLRDHUP else Z.lor EPOLLIN EPOLLRDHUP) in
  let* x := conn c in
  if negb ok then free_conn (c_partner x) ;;; free_conn (Some c) ;;; ret None else
  conn_list_insert_head c false ;;;
  match c_partner x with Some d => conn_list_insert_head d true | None => ret tt end ;;;
  ret (Some c).
Definition add_tcp_connection (efd local_fd : Z) (port : Z) (proxy : conn_type) : M (option nat) :=
  let transparent := bool_decide (proxy = CONN_TYPE_TRANSPARENT) in
  let* orig_dst := if transparent then get_dest_addr local_fd else ret (Some no_addr) in
  match orig_dst with
  | None => close_fd local_fd
  | Some orig_dst =>
      let* loop := if transparent then
          let* b := check_local_ip orig_dst in ret (b && (saport orig_dst =? port))
        else ret false in
      if loop : bool then close_fd local_fd else
      let* ok := set_keepalive local_fd in
      if negb ok then close_fd local_fd else
      let* o := new_conn local_fd false in
      match o with
      | None => close_fd local_fd
      | Some c =>
          conn_set c (λ x, x <| c_type := proxy |> <| c_state := CONN_AVAILABLE |> <| c_efd := efd |>) ;;;
          let* r := sys (GetPeerName local_fd) in
          conn_set c (λ x, x <| c_client := if r_ret r <? 0 then no_addr else r_addr r |>) ;;;
          if negb transparent then add_legs c proxy else
          conn_set c (λ x, x <| c_dest := sa46copy orig_dst |>) ;;;
          let* o := new_partner c in
          match o with
          | None => free_conn (Some c) ;;; ret None
          | Some d =>
              let* ok := conn_connect_remote c in
              let* ok := if ok : bool then epoll_set d EPOLLOUT else ret false in
              if negb ok then free_conn (Some d) ;;; free_conn (Some c) ;;; ret None
              else add_legs c proxy
          end
      end
  end.

(** ** Sending what is left *)

(** the part of [handle_unsent] that shuts down: the other side will send no
    more and this side has sent everything *)
Definition delayed_shutdown (c : nat) : M bool :=
  let* x := conn c in
  let* p := alive_partner x in
  match p with
  | Some (_, y) =>
      if negb (conn_has_unsent x) && bool_decide (c_state y = CONN_RDHUP) then
        let* ok := if bShutdown x then ret true else conn_shutdown c in
        if negb ok then ret false else
        ret (negb (bool_decide (c_state x = CONN_RDHUP) && negb (conn_has_unsent y)))
      else ret true
  | None => ret true
  end.
Definition unsent_pipe (c : nat) : M bool :=
  let* x := conn c in
  if negb (nosplice params) && negb (c_wr_unsent x =? 0) then
    let* wr := sysret (SpliceOut (fst (c_splice_pipe x)) (c_fd x) (c_wr_unsent x)) in
    let* wr := or_again wr in
    if wr <? 0 then ret false else
    conn_set c (λ x, x <| c_twr := u64 (c_twr x + wr) |> <| c_wr_unsent := c_wr_unsent x - wr |>) ;;; ret true
  else ret true.
Definition unsent_buffers (c : nat) : M bool :=
  let* x := conn c in
  if (c_wr_unsent x =? 0) && conn_buffers_present x then
    let* wr := conn_buffers_send params c in ret (negb (wr <? 0))
  else ret true.
Definition handle_unsent (c : nat) : M bool :=
  let* ok := steps [unsent_pipe c; unsent_buffers c; delayed_shutdown c] in
  if ok : bool then epoll_set_flow_pair c else ret false.

(** ** Closing *)

Definition close_tcp_conn (c : nat) : M unit :=
  let* x := conn c in
  if bool_decide (c_state x = CONN_CLOSED) then ret tt else
  conn_set c (λ x, x <| c_state := CONN_CLOSED |>) ;;;
  let* l := gets p_conn_list in
  let* l := deref (tailq_remove c l) in
  modify (λ p, p <| p_conn_list := l |> <| p_close_list := p_close_list p ++ [c] |>).
Definition conn_close_both (c : nat) : M unit :=
  let* x := conn c in
  let* p := alive_partner x in
  match p with Some (d, _) => close_tcp_conn d | None => ret tt end ;;; close_tcp_conn c.
Definition conn_close_with_partner_check (c : nat) : M unit :=
  close_tcp_conn c ;;;
  let* x := conn c in
  let* p := alive_partner x in
  match p with
  | None => ret tt
  | Some (d, y) =>
      if negb (conn_has_unsent y) then close_tcp_conn d
      else when (c_remote y && bool_decide (c_state y = CONN_UNAVAILABLE) && negb (max_orphan_time params =? 0))
        (let* now := sysret Time in conn_set d (λ y, y <| c_orphan_since := now |>))
  end.
Definition remove_closed_connections : M unit :=
  let* l := gets p_close_list in
  for_each l (λ c,
    modify (λ p, p <| p_close_list := drop 1 (p_close_list p) |>) ;;;
    let* _ := epoll_del c in
    let* x := conn c in
    modify (λ p, if c_remote x then p <| legs_remote := legs_remote p - 1 |> else p <| legs_local := legs_local p - 1 |>) ;;;
    free_conn (Some c)).

Definition conn_timed_out (x : tproxy_conn) : M bool :=
  if negb (c_orphan_since x =? 0) && bool_decide (c_state x = CONN_UNAVAILABLE) then
    let* now := sysret Time in ret (max_orphan_time params <=? now - c_orphan_since x)
  else ret false.
Definition conn_close_timed_out : M unit :=
  let* l := gets p_conn_list in
  for_each l (λ c,
    let* x := conn c in
    let* b := conn_timed_out x in
    if b : bool then close_tcp_conn c else ret tt).
End conn.
