(* ===== verification/TpSocks.v ===== *)
(** * tpws, the SOCKS side: native/tpws/tpws_conn.c, lines 61-100, 359-379,
    735-767 and 841-1104; native/tpws/socks.h, native/tpws/resolver.c

    A client asks for an address or a name.  A name goes to the resolver
    threads: [resolver_queue] puts it into their list, a thread takes it out
    ([resolver_job]) and writes the item's pointer to the pipe that the event
    loop reads ([handle_resolve_pipe]).  What a thread does between taking an
    item and writing it touches nothing else, so a job is one step. *)

From Stdlib Require Import ZArith Lia Bool List.
From Stdlib Require Import Strings.Byte Strings.String.
From stdpp Require Import base tactics list numbers option.
From S2P Require Import Prelude CMem TpProtocol TpFiles TpPools TpProfile TpSockaddr StateMonad TpWorld TpSend TpConn.

Definition S4_CMD_CONNECT : Z := 1.
Definition S4_REP_OK : Z := 90.
Definition S4_REP_FAILED : Z := 91.
Definition S5_AUTH_NONE : Z := 0.
Definition S5_AUTH_UNACCEPTABLE : Z := 255.
Definition S5_CMD_CONNECT : Z := 1.
Definition S5_ATYP_IP4 : Z := 1.
Definition S5_ATYP_DOM : Z := 3.
Definition S5_ATYP_IP6 : Z := 4.
Definition S5_REP_OK : Z := 0.
Definition S5_REP_GENERAL_FAILURE : Z := 1.
Definition S5_REP_NOT_ALLOWED_BY_RULESET : Z := 2.
Definition S5_REP_NETWORK_UNREACHABLE : Z := 3.
Definition S5_REP_HOST_UNREACHABLE : Z := 4.
Definition S5_REP_CONN_REFUSED : Z := 5.
Definition S5_REP_COMMAND_NOT_SUPPORTED : Z := 7.
(** [sizeof(s5_req)] *)
Definition S5_REQ_SIZE : Z := 262.

Section socks.
Context `{K : Kernel} `{E : Env} (params : tp_params).

(** ** Replies *)

Definition send_rep (fd : Z) (rep : mem) : M bool :=
  let* wr := sysret (Send fd rep MSG_DONTWAIT) in ret (wr =? len rep).
Definition s5_rep (rep : Z) : mem := [x05; bz rep; x00; bz S5_ATYP_IP4; x00; x00; x00; x00; x00; x00].
Definition socks5_send_rep (fd rep : Z) : M bool := send_rep fd (s5_rep rep).
Definition rep_of_errno (errn : Z) : Z :=
  if errn =? 0 then S5_REP_OK
  else if errn =? ECONNREFUSED then S5_REP_CONN_REFUSED
  else if errn =? ENETUNREACH then S5_REP_NETWORK_UNREACHABLE
  else if (errn =? ETIMEDOUT) || (errn =? EHOSTUNREACH) then S5_REP_HOST_UNREACHABLE
  else S5_REP_GENERAL_FAILURE.
Definition socks5_send_rep_errno (fd errn : Z) : M bool := socks5_send_rep fd (rep_of_errno errn).
Definition s4_rep (rep : Z) : mem := [x00; bz rep; x00; x00; x00; x00; x00; x00].
Definition socks4_send_rep (fd rep : Z) : M bool := send_rep fd (s4_rep rep).
Definition socks4_send_rep_errno (fd errn : Z) : M bool :=
  socks4_send_rep fd (if negb (errn =? 0) then S4_REP_FAILED else S4_REP_OK).
Definition socks_send_rep (ver fd rep5 : Z) : M bool :=
  if ver =? 5 then socks5_send_rep fd rep5
  else socks4_send_rep fd (if negb (rep5 =? 0) then S4_REP_FAILED else S4_REP_OK).
Definition socks_send_rep_errno (ver fd errn : Z) : M bool :=
  if ver =? 5 then socks5_send_rep_errno fd errn else socks4_send_rep_errno fd errn.

(** [c] is a remote leg: the client is told how its connection went *)
Definition proxy_remote_conn_ack (c : nat) (sock_err : Z) : M bool :=
  let* x := conn c in
  if negb (c_remote x) then ret false else
  let* p := alive_partner x in
  match p with
  | None => ret false
  | Some (d, y) =>
      if bool_decide (c_type y = CONN_TYPE_SOCKS) && bool_decide (c_socks_state y = S_WAIT_CONNECTION) then
        conn_set d (λ y, y <| c_socks_state := S_TCP |>) ;;;
        socks_send_rep_errno (c_socks_ver y) (c_fd y) sock_err
      else ret true
  end.

Definition check_connection_attempt (c : nat) : M bool :=
  let* x := conn c in
  if negb (bool_decide (c_state x = CONN_UNAVAILABLE)) || negb (c_remote x) then ret true else
  let* r := sys (GetSockOpt (c_fd x) SOL_SOCKET SO_ERROR) in
  if r_ret r =? -1 then ret false else
  let errn := r_val r in
  let* ok := if errn =? 0 then
      let* ok := epoll_set_flow c true false in
      let* p := alive_partner x in
      let* ok := match ok, p with
        | true, Some (d, _) => epoll_set_flow d true false
        | ok, _ => ret ok
        end in
      when ok (conn_set c (λ x, x <| c_state := CONN_AVAILABLE |>)) ;;; ret ok
    else ret true in
  if negb ok then ret false else
  let* e := get_so_error (c_fd x) in
  let* _ := proxy_remote_conn_ack c e in
  ret (errn =? 0).

(** ** The connection the client asked for *)

Definition ALLOW_LOCAL : string := "VCVPN_TPWS_ALLOW_LOCAL".
Definition proxy_mode_connect_remote (c : nat) : M bool :=
  let* x := conn c in
  let* allow := sys_ok (GetEnv ALLOW_LOCAL) in
  let* local := if allow : bool then ret false else check_local_ip (c_dest x) in
  if local : bool then
    let* _ := socks_send_rep (c_socks_ver x) (c_fd x) S5_REP_NOT_ALLOWED_BY_RULESET in ret false
  else
  let* o := new_partner params c in
  match o with
  | None => let* _ := socks_send_rep (c_socks_ver x) (c_fd x) S5_REP_GENERAL_FAILURE in ret false
  | Some d =>
      let* ok := conn_connect_remote params c in
      if negb ok then
        free_conn (Some d) ;;; conn_set c (λ x, x <| c_partner := None |>) ;;;
        let* e := errno in
        let* _ := socks_send_rep_errno (c_socks_ver x) (c_fd x) e in ret false
      else
      let* ok := epoll_set d EPOLLOUT in
      if negb ok then
        free_conn (Some d) ;;; conn_set c (λ x, x <| c_partner := None |>) ;;;
        let* _ := socks_send_rep (c_socks_ver x) (c_fd x) S5_REP_GENERAL_FAILURE in ret false
      else
      conn_list_insert_head d true ;;;
      conn_set c (λ x, x <| c_socks_state := S_WAIT_CONNECTION |>) ;;; ret true
  end.

(** ** The resolver *)

(** [char dom[256]] *)
Definition resolver_queue (dom : mem) (port : Z) (ptr : nat) : M (option nat) :=
  let* r := sysret CallocItem in
  if r <? 0 then ret None else
  let* ri := item_new (ResolveItem (take 255 dom) no_addr 0 port (Some ptr)) in
  modify (λ p, p <| resolve_list := resolve_list p ++ [ri] |>) ;;;
  let* ok := sys_ok SemPost in
  if negb ok then item_free ri ;;; ret None else ret (Some ri).

(** [sizeof(sockaddr_in46)] *)
Definition SOCKADDR_IN46 : Z := 28.
(** a resolver thread that has got through [sem_wait] *)
Definition resolver_job : M unit :=
  let* l := gets resolve_list in
  match l with
  | [] => ret tt
  | ri :: rest =>
      modify (λ p, p <| resolve_list := rest |>) ;;;
      let* i := item ri in
      let* r := sys (GetAddrInfo (ri_dom i) (ri_port i)) in
      (if r_ret r =? 0 then
         if SOCKADDR_IN46 <? r_val r then item_set ri (λ i, i <| ri_ga_res := EAI_FAIL |>)
         else item_set ri (λ i, i <| ri_ga_res := 0 |> <| ri_ss := r_addr r |>)
       else item_set ri (λ i, i <| ri_ga_res := r_ret r |>)) ;;;
      let* fd := gets fd_signal_pipe in
      let* wr := sysret (WritePtr fd) in
      if wr <? 0 then item_free ri
      else if negb (wr =? 8) then fatal
      else modify (λ p, p <| p_pipe := p_pipe p ++ [ri] |>)
  end.

Definition resolver_clear_list : M unit :=
  let* l := gets resolve_list in
  for_each l (λ ri, modify (λ p, p <| resolve_list := drop 1 (resolve_list p) |>) ;;; item_free ri).
Definition resolver_deinit : M unit :=
  let* b := gets resolver_bInit in
  when b (resolver_clear_list ;;;
    modify (λ p, p <| resolver_bInit := false |> <| resolver_thread_count' := 0 |> <| fd_signal_pipe := 0 |>)).
Definition resolver_thread_count : M Z :=
  let* b := gets resolver_bInit in if b : bool then gets resolver_thread_count' else ret 0.
(** as many threads as can be started, at most [n] more *)
Fixpoint start_threads (n : nat) (started : Z) : M Z :=
  match n with
  | O => ret started
  | Datatypes.S n => let* ok := sysret PthreadCreate in
      if ok =? 0 then start_threads n (started + 1) else ret started
  end.
Definition resolver_init (threads signal_pipe : Z) : M bool :=
  let* b := gets resolver_bInit in
  if (threads <? 1) || b then ret false else
  modify (λ p, p <| resolver_bInit := true |> <| resolve_list := [] |> <| resolver_thread_count' := 0 |>) ;;;
  let ok0 c := let* r := sysret c in ret (r =? 0) in
  let* ok := steps
    [ (let* r := sysret SemInit in ret (negb (r =? -1)));
      ok0 MutexInit;
      (modify (λ p, p <| fd_signal_pipe := signal_pipe |>) ;;; sys_ok (Malloc (8 * threads)));
      ok0 AttrInit;
      ok0 AttrSetStackSize ] in
  if negb ok then resolver_deinit ;;; ret false else
  let* n := start_threads (Z.to_nat threads) 0 in
  modify (λ p, p <| resolver_thread_count' := n |>) ;;;
  if n =? 0 then resolver_deinit ;;; ret false else ret true.

(** the answer for [ri] has come *)
Definition resolve_complete (ri : nat) : M bool :=
  let* i := item ri in
  match ri_ptr i with
  | None => ret true
  | Some c =>
      let* x := conn c in
      if bool_decide (c_state x = CONN_CLOSED) || negb (bool_decide (c_socks_state x = S_WAIT_RESOLVE)) then ret true else
      if negb (ri_ga_res i =? 0) then let* _ := socks5_send_rep (c_fd x) S5_REP_HOST_UNREACHABLE in ret false else
      when (negb (bool_decide (is_Some (hostname (c_track x)))) && env_strdup (ri_dom i))
        (conn_set c (λ x, x <| c_track := c_track x <| hostname := Some (ri_dom i) |> |>)) ;;;
      conn_set c (λ x, x <| c_dest := sa46copy (ri_ss i) |>) ;;;
      proxy_mode_connect_remote c
  end.
(** the answer and the connection it is for *)
Definition handle_resolve_pipe (fd : Z) : M (bool * option nat) :=
  let* rd := sysret (ReadPtr fd) in
  if rd <? 0 then ret (false, None) else
  if negb (rd =? 8) then fatal else
  let* l := gets p_pipe in
  match l with
  | [] => ub
  | ri :: rest =>
      modify (λ p, p <| p_pipe := rest |>) ;;;
      let* b := resolve_complete ri in
      let* i := item ri in
      match ri_ptr i with Some c => conn_set c (λ x, x <| c_socks_ri := None |>) | None => ret tt end ;;;
      item_free ri ;;; ret (b, ri_ptr i)
  end.

(** ** Requests *)

Definition be16 (a b : byte) : Z := Z.lor (Z.shiftl (zb a) 8) (zb b).
(** whether one of the methods from the [k]-th on is "none" *)
Fixpoint offers_none (buf : mem) (k : Z) (n : nat) : res bool :=
  match n with
  | O => Ok false
  | Datatypes.S n => m ← rd buf (2 + k); if zb m =? S5_AUTH_NONE then Ok true else offers_none buf (k + 1) n
  end.

(** [S_WAIT_HANDSHAKE], SOCKS5 *)
Definition socks5_handshake (c : nat) (fd : Z) (buf : mem) (n : Z) : M bool :=
  if n <? 3 then ret false else
  let* ver := lift (rd buf 0) in
  let* nmethods := lift (rd buf 1) in
  if negb (zb ver =? 5) || (zb nmethods =? 0) || negb (2 + zb nmethods <=? n) then ret false else
  let* none := lift (offers_none buf 0 (Z.to_nat (zb nmethods))) in
  if negb none then let* _ := sys (Send fd [x05; bz S5_AUTH_UNACCEPTABLE] MSG_DONTWAIT) in ret false else
  let* wr := sysret (Send fd [x05; bz S5_AUTH_NONE] MSG_DONTWAIT) in
  if negb (wr =? 2) then ret false else
  conn_set c (λ x, x <| c_socks_state := S_WAIT_REQUEST |>) ;;; ret true.

(** what a SOCKS4 request asks for *)
Inductive s4_request : Type := S4_INVALID | S4_FAILED | S4_DEST (a : sockaddr).
Definition socks4_parse (buf : mem) (n : Z) : res s4_request :=
  if n <? 8 then Ok S4_INVALID else
  ver ← rd buf 0; cmd ← rd buf 1;
  if negb (zb ver =? 4) then Ok S4_INVALID else
  if negb (zb cmd =? S4_CMD_CONNECT) then Ok S4_FAILED else
  p1 ← rd buf 2; p2 ← rd buf 3;
  if be16 p1 p2 =? 0 then Ok S4_FAILED else
  ip ← bytes_at 4 4 buf;
  if bool_decide (ip = [x00; x00; x00; x01]) then Ok S4_FAILED else
  Ok (S4_DEST (Sockaddr (In4 ip) (be16 p1 p2))).

(** what a SOCKS5 request asks for; a name is written over: its port's first
    byte becomes the string's end *)
Inductive s5_request : Type := S5_INVALID | S5_UNSUPPORTED | S5_DEST (a : sockaddr) | S5_NAME (dom : mem) (port : Z).
Definition socks5_parse (buf : mem) (n : Z) : res s5_request :=
  if n <? 4 then Ok S5_INVALID else
  ver ← rd buf 0; cmd ← rd buf 1; atyp ← rd buf 3;
  if negb (zb ver =? 5) then Ok S5_INVALID else
  if negb (zb cmd =? S5_CMD_CONNECT) then Ok S5_UNSUPPORTED else
  if zb atyp =? S5_ATYP_IP4 then
    if n <? 4 + 6 then Ok S5_INVALID else
    ip ← bytes_at 4 4 buf; p1 ← rd buf 8; p2 ← rd buf 9;
    Ok (S5_DEST (Sockaddr (In4 ip) (be16 p1 p2)))
  else if zb atyp =? S5_ATYP_IP6 then
    if n <? 4 + 18 then Ok S5_INVALID else
    ip ← bytes_at 4 16 buf; p1 ← rd buf 20; p2 ← rd buf 21;
    Ok (S5_DEST (Sockaddr (In6 ip) (be16 p1 p2)))
  else if zb atyp =? S5_ATYP_DOM then
    if n <? 5 then Ok S5_INVALID else
    l ← rd buf 4;
    if n <? 5 + zb l then Ok S5_INVALID else
    port ← (if 4 + zb l + 2 <=? n then
      p1 ← rd buf (5 + zb l); p2 ← rd buf (5 + zb l + 1); Ok (be16 p1 p2) else Ok 0);
    dom ← bytes_at 5 (zb l) buf;
    Ok (S5_NAME (c_str dom) port)
  else Ok S5_INVALID.

Definition handle_proxy_mode (c : nat) : M bool :=
  let* x := conn c in
  let* r := sys (Recv (c_fd x) S5_REQ_SIZE) in
  let n := r_ret r in
  let buf := buffer_of S5_REQ_SIZE (r_data r) in
  if n <? 1 then ret false else
  if negb (bool_decide (c_type x = CONN_TYPE_SOCKS)) then ret false else
  match c_socks_state x with
  | S_WAIT_HANDSHAKE =>
      let* ver := lift (rd buf 0) in
      if negb (zb ver =? 5) && negb (zb ver =? 4) then ret false else
      conn_set c (λ x, x <| c_socks_ver := zb ver |>) ;;;
      if zb ver =? 5 then socks5_handshake c (c_fd x) buf n else
      let* q := lift (socks4_parse buf n) in
      match q with
      | S4_INVALID => ret false
      | S4_FAILED => let* _ := socks4_send_rep (c_fd x) S4_REP_FAILED in ret false
      | S4_DEST a => conn_set c (λ x, x <| c_dest := a |>) ;;; proxy_mode_connect_remote c
      end
  | S_WAIT_REQUEST =>
      let* q := lift (socks5_parse buf n) in
      match q with
      | S5_INVALID => ret false
      | S5_UNSUPPORTED => let* _ := socks5_send_rep (c_fd x) S5_REP_COMMAND_NOT_SUPPORTED in ret false
      | S5_DEST a => conn_set c (λ x, x <| c_dest := a |>) ;;; proxy_mode_connect_remote c
      | S5_NAME dom port =>
          if no_resolve params then let* _ := socks5_send_rep (c_fd x) S5_REP_NOT_ALLOWED_BY_RULESET in ret false else
          if port =? 0 then let* _ := socks5_send_rep (c_fd x) S5_REP_HOST_UNREACHABLE in ret false else
          let* ri := resolver_queue dom port c in
          conn_set c (λ x, x <| c_socks_ri := ri |>) ;;;
          match ri with
          | None => let* _ := socks5_send_rep (c_fd x) S5_REP_GENERAL_FAILURE in ret false
          | Some _ => conn_set c (λ x, x <| c_socks_state := S_WAIT_RESOLVE |>) ;;; ret true
          end
      end
  | _ => ret false
  end.
End socks.
