(* ===== verification/TpLoop.v ===== *)
(** * tpws, the event loop: native/tpws/tpws_conn.c, lines 1107-1784

    One leg's data goes to its partner: through a pipe of the kernel, or
    through [tamper], in parts if the request is to be cut.  [event_loop]
    serves the events, closes what has timed out and frees what is closed. *)

From Stdlib Require Import ZArith Lia Bool List.
From Stdlib Require Import Strings.Byte Strings.String.
From stdpp Require Import base tactics list numbers option.
From S2P Require Import Prelude CMem TpTamper TpPools TpFiles TpHostlist TpIpset TpProfile TpSockaddr StateMonad.
From S2P Require Import TpWorld TpSend TpConn TpSocks.

Definition RD_BLOCK_SIZE : Z := 65536.
Definition SPLICE_LEN : Z := 65536.
Definition MAX_WASTE : Z := 1024 * 1024.
Definition WASTE_SIZE : Z := 65070.

Section loop.
Context `{K : Kernel} `{E : Env} (params : tp_params).

(** ** A segment *)

Definition in_tamper_out_range (st : tpws) (x : tproxy_conn) : res bool :=
  match dp (c_track x) with
  | None => Ok true
  | Some i => match desync_profiles st !! i with
      | None => UB
      | Some p =>
          Ok ((tamper_start p <=? (if tamper_start_n p then u64 (c_tnrd x + 1) else c_trd x))
            && ((tamper_cutoff p =? 0)
                || ((if tamper_cutoff_n p then u64 (c_tnrd x + 1) else c_trd x) <? tamper_cutoff p)))
      end
  end.

(** the segment, its size, where to cut it, the split flags *)
Definition tamper (c : nat) (segment : mem) (size : Z) : M outgoing :=
  let as_it_is := Outgoing segment size [] 0 in
  if negb (tamper_on params) then ret as_it_is else
  let* x := conn c in
  let* st := gets p_tp in
  if c_remote x then
    let* p := alive_partner x in
    match p with
    | Some (d, y) =>
        if bTamperInCutoff (c_track y) then ret as_it_is else
        let* now := sysret Time in
        let* '(st, ct) := lift (tamper_in env_alloc env_room_fail env_z_readfile env_writable now st (c_track y) segment size) in
        modify (λ p, p <| p_tp := st |>) ;;; conn_set d (λ y, y <| c_track := ct |>) ;;; ret as_it_is
    | None => ret as_it_is
    end
  else
    let* in_range := lift (in_tamper_out_range st x) in
    if negb in_range then ret as_it_is else
    let* now := sysret Time in
    let* tr := gets p_trace in
    let* '(st, ct, out) := lift (tamper_out env_alloc env_room env_strdup env_room_prefix env_z_readfile env_inet_pton
      env_cache_hostname env_ipcache_lifetime now (env_random tr) (env_address tr)
      st (c_track x) (c_dest x) segment (len segment) size [] 0) in
    modify (λ p, p <| p_tp := st |>) ;;; conn_set c (λ x, x <| c_track := ct |>) ;;; ret out.

Definition oob_byte_of (st : tpws) (ct : t_ctrack) : res Z :=
  match dp ct with
  | None => Ok 0
  | Some i => match desync_profiles st !! i with Some p => Ok (oob_byte p) | None => UB end
  end.

Definition count_written (d : nat) (wr : Z) : M unit := conn_set d (λ y, y <| c_twr := u64 (c_twr y + wr) |>).
(** [send_or_buffer] into the partner's first buffer *)
Definition send_to (d : nat) (buf : mem) : M Z :=
  let* y := conn d in
  let* sb := deref (head (c_wr_buf y)) in
  let* '(sb, wr) := send_or_buffer params sb (c_fd y) buf 0 0 in
  conn_set d (λ y, y <| c_wr_buf := sb :: drop 1 (c_wr_buf y) |>) ;;;
  when (0 <? wr) (count_written d wr) ;;; ret wr.

(** waits for, or notices, data the kernel has not sent yet *)
Definition fix_segmentation (fd : Z) : M unit :=
  if negb (fix_seg_avail params) then ret tt else
  if negb (fix_seg params =? 0) then
    let* ok := socket_wait_notsent fd (fix_seg params) in if ok : bool then ret tt else report_segfail
  else let* b := socket_has_notsent fd in when b report_segfail.

(** the parts from the [i]-th on, [from] is where it starts; to leg [d] *)
Fixpoint send_parts (d : nat) (buf : mem) (bs flags oob_byte : Z) (i from : Z) (pos : list Z) : M Z :=
  let to := match pos with [] => bs | p :: _ => p end in
  let bApplyDisorder := Z.even i && negb (bool_decide (pos = [])) && negb (Z.land flags SPLIT_FLAG_DISORDER =? 0) in
  let bApplyOOB := (i =? 0) && negb (Z.land flags SPLIT_FLAG_OOB =? 0) in
  let len' := to - from in
  let* y := conn d in
  fix_segmentation (c_fd y) ;;;
  let* wr := send_oob params (c_fd y) buf from len' (if bApplyDisorder then 1 else 0) bApplyOOB oob_byte in
  if wr <? 0 then ret wr else
  count_written d wr ;;;
  if wr <? len' then
    let* rest := lift (bytes_at (from + wr) (bs - (from + wr)) buf) in send_to d rest
  else match pos with [] => ret wr | _ :: pos => send_parts d buf bs flags oob_byte (i + 1) to pos end.

(** what [tamper] has made of the segment, to leg [d] *)
Definition send_segment (d : nat) (out : outgoing) (oob_byte : Z) : M Z :=
  match out_pos out with
  | [] => let* buf := lift (bytes_at 0 (out_size out) (out_segment out)) in send_to d buf
  | pos => send_parts d (out_segment out) (out_size out) (out_flags out) oob_byte 0 0 pos
  end.

(** ** Reading *)

(** the leg has no partner any more: the data is thrown away *)
Definition waste_step (c : nat) (fd trd : Z) : M (Z + unit) :=
  let* rd := sysret (Recv fd WASTE_SIZE) in
  if (0 <? rd) && (trd <? MAX_WASTE) then
    conn_set c (λ x, x <| c_trd := u64 (c_trd x + rd) |>) ;;; ret (inl (trd + rd))
  else ret (inr tt).
Definition waste (c : nat) : M unit :=
  let* x := conn c in mloop (Datatypes.S (Z.to_nat MAX_WASTE)) (waste_step c (c_fd x)) 0.

Definition count_read (c : nat) (rd : Z) : M unit :=
  conn_set c (λ x, x <| c_tnrd := u64 (c_tnrd x + 1) |> <| c_trd := u64 (c_trd x + rd) |>).

(** from leg [c] through the pipe of its partner [d]; what [rd] is, and
    whether there was no memory *)
Definition splice_leg (c d : nat) : M Z :=
  let* x := conn c in let* y := conn d in
  let* rd := sysret (SpliceIn (c_fd x) (snd (c_splice_pipe y)) SPLICE_LEN) in
  let* rd := or_again rd in
  when (0 <? rd)
    (count_read c rd ;;;
     conn_set d (λ y, y <| c_wr_unsent := c_wr_unsent y + rd |>) ;;;
     let* y := conn d in
     let* wr := sysret (SpliceOut (fst (c_splice_pipe y)) (c_fd y) (c_wr_unsent y)) in
     let* wr := or_again wr in
     when (0 <? wr)
       (conn_set d (λ y, y <| c_wr_unsent := c_wr_unsent y - wr |> <| c_twr := u64 (c_twr y + wr) |>))) ;;;
  ret rd.

Definition recv_leg (c d : nat) : M (Z * bool) :=
  let* x := conn c in
  let* r := sys (Recv (c_fd x) RD_BLOCK_SIZE) in
  let* rd := or_again (r_ret r) in
  if negb (0 <? rd) then ret (rd, false) else
  let* out := tamper c (buffer_of (RD_BLOCK_SIZE + 6) (r_data r)) rd in
  count_read c rd ;;;
  let* x := conn c in
  let* st := gets p_tp in
  let* oob := lift (oob_byte_of st (c_track x)) in
  let* wr := send_segment d out oob in
  let* e := errno in
  ret (rd, (wr <? 0) && (e =? ENOMEM)).

Definition use_splice (st : tpws) (x y : tproxy_conn) : res bool :=
  if nosplice params then Ok false else
  if negb (tamper_on params) then Ok true else
  if c_remote x then Ok (bTamperInCutoff (c_track y))
  else b ← in_tamper_out_range st x; Ok (negb b).

Definition handle_epoll (c : nat) (evt : Z) : M bool :=
  let* x := conn c in
  if negb (conn_in_tcp_mode x) then
    if Z.land evt EPOLLIN =? 0 then ret true else handle_proxy_mode params c
  else
  let* ok := handle_unsent params c in
  if negb ok then ret false else
  let* x := conn c in
  let* p := alive_partner x in
  if negb (bool_decide (is_Some p)) && negb (conn_has_unsent x) then ret false else
  if Z.land evt EPOLLIN =? 0 then ret true else
  match p with
  | None => waste c ;;; ret true
  | Some (d, y) =>
      if conn_has_unsent y then ret true else
      let* numbytes := conn_bytes_unread x in
      if negb (0 <? numbytes) then ret true else
      let* st := gets p_tp in
      let* splice := lift (use_splice st x y) in
      let* '(rd, oom) := if splice : bool then let* rd := splice_leg c d in ret (rd, false) else recv_leg c d in
      let* ok := epoll_set_flow_pair c in
      if negb ok then ret false else ret ((0 <=? rd) && negb oom)
  end.

(** what is left to read goes into the partner's buffer [n] *)
Definition buffer_put (d n : nat) (sb : send_buffer) : M unit :=
  conn_set d (λ y, y <| c_wr_buf := <[n := sb]> (c_wr_buf y) |>).
Definition read_all_and_buffer (c : nat) (n : nat) : M bool :=
  let* x := conn c in
  let* p := alive_partner x in
  match p with
  | None => ret false
  | Some (d, y) =>
      let* numbytes := conn_bytes_unread x in
      if negb (0 <? numbytes) then ret false else
      let* sb := deref (c_wr_buf y !! n) in
      let* '(sb, ok) := send_buffer_create sb None numbytes 6 0 0 in
      buffer_put d n sb ;;;
      if negb ok then ret false else
      let* r := sys (Recv (c_fd x) numbytes) in
      let rd := r_ret r in
      let* ok := if 0 <? rd then
          conn_set c (λ x, x <| c_trd := u64 (c_trd x + rd) |>) ;;;
          conn_set d (λ y, y <| bFlowOut := true |>) ;;;
          let* out := tamper c (buffer_of (numbytes + 6) (r_data r)) rd in
          buffer_put d n (SendBuffer (Some (out_segment out)) (out_size out) 0 0 0) ;;;
          epoll_update_flow d
        else ret false in
      if ok : bool then ret true else
      let* y := conn d in
      let* sb := deref (c_wr_buf y !! n) in
      buffer_put d n (send_buffer_free sb) ;;; ret false
  end.

(** ** Events *)

(** [rst_in], [hup_out] *)
Definition lost_leg (c : nat) (lost : Z → tpws → t_ctrack → res tpws) : M unit :=
  let* x := conn c in
  let* now := sysret Time in
  let* st := gets p_tp in
  let* st := lift (lost now st (c_track x)) in
  modify (λ p, p <| p_tp := st |>).
Definition on_rst : Z → tpws → t_ctrack → res tpws := rst_in env_alloc env_room_fail env_z_readfile env_writable.
Definition on_hup : Z → tpws → t_ctrack → res tpws := hup_out env_alloc env_room_fail env_z_readfile env_writable.

(** EPOLLHUP, EPOLLERR *)
Definition event_error (c : nat) : M unit :=
  let* x := conn c in
  let* errn := get_so_error (c_fd x) in
  let* _ := proxy_remote_conn_ack c errn in
  let* _ := read_all_and_buffer c 3 in
  let* x := conn c in
  let* p := alive_partner x in
  match p with
  | Some (d, y) =>
      when (errn =? ECONNRESET)
        (when (c_remote x && tamper_on params) (lost_leg d on_rst) ;;;
         let* _ := setsockopt (c_fd y) SOL_SOCKET SO_LINGER 0 in ret tt)
  | None => ret tt
  end ;;;
  conn_close_with_partner_check params c.

(** EPOLLRDHUP *)
Definition event_rdhup (c : nat) : M unit :=
  let* _ := read_all_and_buffer c 2 in
  let* x := conn c in
  when (negb (c_remote x) && tamper_on params) (lost_leg c on_hup) ;;;
  conn_set c (λ x, x <| c_state := CONN_RDHUP |>) ;;;
  let* x := conn c in
  if conn_has_unsent x then let* _ := epoll_set_flow c false true in ret tt else
  conn_set c (λ x, x <| bFlowIn := false |>) ;;;
  let* _ := epoll_update_flow c in
  let* p := alive_partner x in
  match p with
  | Some (d, y) =>
      if conn_has_unsent y then ret tt else
      let* ok := conn_shutdown d in
      when (negb ok) (conn_close_with_partner_check params c) ;;;
      let* y := conn d in
      when (bool_decide (c_state y = CONN_RDHUP)) (conn_close_with_partner_check params c)
  | None => close_tcp_conn c
  end.

(** EPOLLIN, EPOLLOUT *)
Definition event_io (c : nat) (evt : Z) : M unit :=
  let* ok := handle_epoll c evt in
  if negb ok then conn_close_with_partner_check params c else
  let* x := conn c in
  let* p := alive_partner x in
  match p with
  | Some (d, y) =>
      if bool_decide (c_state x = CONN_RDHUP) && negb (bShutdown y) && negb (conn_has_unsent x) then
        let* ok := conn_shutdown d in
        when (negb ok) (conn_close_with_partner_check params c)
      else ret tt
  | None => ret tt
  end.

Definition has_event (evt mask : Z) : bool := negb (Z.land evt mask =? 0).
Definition conn_event (c : nat) (evt : Z) : M unit :=
  conn_set c (λ x, x <| c_event_count := u32 (c_event_count x + 1) |>) ;;;
  let* x := conn c in
  if bool_decide (c_state x = CONN_CLOSED) then ret tt else
  if has_event evt (Z.lor EPOLLHUP EPOLLERR) then event_error c else
  let* ok := if has_event evt EPOLLOUT then check_connection_attempt c else ret true in
  if negb ok then conn_close_both c else
  if has_event evt EPOLLRDHUP then event_rdhup c else
  if has_event evt (Z.lor EPOLLIN EPOLLOUT) then event_io c evt else ret tt.

Definition accept_event (efd : Z) (i : nat) : M unit :=
  let* l := gets p_listen in
  let* '(fd, count) := deref (l !! i) in
  modify (λ p, p <| p_listen := <[i := (fd, u32 (count + 1))]> l |>) ;;;
  let* tmp_fd := sysret (Accept4 fd) in
  if tmp_fd <? 0 then ret tt else
  let* legs := gets legs_local in
  if maxconn params <=? legs then let* _ := sys (Close tmp_fd) in ret tt else
  let* o := add_tcp_connection params efd tmp_fd (listen_port params) (proxy_type params) in
  match o with
  | Some c => let* x := conn c in set_user_timeout (c_fd x) (tcp_user_timeout_local params)
  | None => ret tt
  end.

Definition resolve_event (fd evt : Z) : M unit :=
  if has_event evt EPOLLIN then
    let* '(ok, o) := handle_resolve_pipe params fd in
    match o with Some c => when (negb ok) (close_tcp_conn c) | None => ret tt end
  else ret tt.

Definition serve (efd resolve_fd : Z) (ev : Z * target) : M unit :=
  match snd ev with
  | T_RESOLVE_PIPE => resolve_event resolve_fd (fst ev)
  | T_LISTEN i => accept_event efd i
  | T_CONN c => conn_event c (fst ev)
  end.

(** ** The loop *)

(** [false]: the lists cannot be read, which ends the process *)
Definition ReloadCheck : M bool :=
  let* b := gets p_bReload in
  if negb b then ret true else
  let* st := gets p_tp in
  let* '(files, ok) := lift (LoadAllHostLists env_alloc env_z_readfile (autos st) (fs st) (files_reset_modtime (hostlists st))) in
  if negb ok then ret false else
  let* '(sets, ok) := lift (LoadIpsets env_room_prefix env_inet_pton env_z_readfile (fs st) (files_reset_modtime (ipsets st))) in
  if negb ok then ret false else
  modify (λ p, p <| p_tp := st <| hostlists := files |> <| ipsets := sets |> |> <| p_bReload := false |>) ;;; ret true.

(** the events of one wait, and what is done after them *)
Definition serve_all (efd resolve_fd : Z) (evs : list (Z * target)) : M unit := for_each evs (serve efd resolve_fd).
Definition after_events (last_timeout_check : Z) : M Z :=
  let* tm := sysret Time in
  when (negb (last_timeout_check =? tm)) (conn_close_timed_out params) ;;;
  remove_closed_connections ;;; ret tm.
(** the state is the second of the last look for timeouts; the result what
    [event_loop] returns, [None] if the process ends *)
Definition round (efd resolve_fd : Z) (last_timeout_check : Z) : M (Z + option Z) :=
  let* ok := ReloadCheck in
  if negb ok then ret (inr None) else
  let* r := sys (EpollWait efd) in
  if r_ret r =? -1 then
    let* e := errno in ret (if e =? EINTR then inl last_timeout_check else inr (Some (-1)))
  else
  serve_all efd resolve_fd (r_events r) ;;;
  let* tm := after_events last_timeout_check in ret (inl tm).

(** listening sockets and the resolver's pipe are waited for *)
Fixpoint listen_all (efd : Z) (i : nat) (fds : list Z) : M bool :=
  match fds with
  | [] => ret true
  | fd :: fds =>
      let* r := sysret (EpollCtl efd EPOLL_CTL_ADD fd EPOLLIN (Some (T_LISTEN i))) in
      if r =? -1 then ret false else listen_all efd (Datatypes.S i) fds
  end.
(** the pipe's ends; [None] after a failure *)
Definition start_resolver (efd : Z) : M (Z * Z * bool) :=
  if bool_decide (proxy_type params = CONN_TYPE_SOCKS) && negb (no_resolve params) then
    let* r := sys Pipe in
    if r_ret r =? -1 then ret (0, 0, false) else
    let '(a, b) := r_info r in
    let* ok := steps
      [ sys_ok (SetNonblock a);
        (let* r := sysret (EpollCtl efd EPOLL_CTL_ADD a EPOLLIN (Some T_RESOLVE_PIPE)) in ret (negb (r =? -1)));
        resolver_init (resolver_threads params) b ] in
    ret (a, b, ok)
  else ret (0, 0, true).
Definition event_loop (fuel : nat) (listen_fd : list Z) : M (option Z) :=
  if bool_decide (listen_fd = []) then ret (Some (-1)) else
  modify (λ p, p <| legs_local := 0 |> <| legs_remote := 0 |> <| p_conn_list := [] |> <| p_close_list := [] |>) ;;;
  let* efd := sysret EpollCreate in
  if efd =? -1 then ret (Some (-1)) else
  let* ok := sys_ok (CallocListen (Z.of_nat (length listen_fd))) in
  if negb ok then ret (Some (-1)) else
  modify (λ p, p <| p_listen := map (λ fd, (fd, 0)) listen_fd |>) ;;;
  let* ok := listen_all efd 0 listen_fd in
  let* '(a, b, ok) := if ok : bool then start_resolver efd else ret (0, 0, false) in
  let* retval := if ok : bool then mloop fuel (round efd a) 0 else ret (Some (-1)) in
  if bool_decide (retval = None) then ret None else
  when (negb (efd =? 0)) (let* _ := sys (Close efd) in ret tt) ;;;
  resolver_deinit ;;;
  when (negb (a =? 0)) (let* _ := sys (Close a) in ret tt) ;;;
  when (negb (b =? 0)) (let* _ := sys (Close b) in ret tt) ;;;
  ret retval.
End loop.
