(* ===== verification/TpSendSpec.v ===== *)
(** * tpws, sending: proofs

    What the kernel takes of a leg's data and what is kept of it: together
    always the data, in order. *)

From Stdlib Require Import ZArith Lia Bool List Sorted.
From Stdlib Require Import Strings.Byte Strings.String.
From stdpp Require Import base tactics list numbers option countable gmap.
From S2P Require Import Prelude CMem TpTamper TpPools TpFiles TpIpsetSpec TpProfile TpRequestSpec TpSockaddr StateMonad.
From S2P Require Import TpWorld TpSend TpConn TpSocks TpLoop.

(** ** What the system calls are documented to do *)

Class KernelOk (K : Kernel) := {
  k_send : ∀ h fd data flags, r_ret (K h (Send fd data flags)) <= len data;
  k_recv : ∀ h fd n, r_ret (K h (Recv fd n)) <= n;
  k_addr : ∀ h c, dest_ok (sa_addr (r_addr (K h c)));
  k_unread : ∀ h fd, r_val (K h (Unread fd)) < 2 ^ 31;
  k_read : ∀ h fd, r_ret (K h (ReadPtr fd)) < 0 ∨ r_ret (K h (ReadPtr fd)) = 8
}.

(** what the resolver needs and does not look after: [sem_post] does not fail,
    and the pipe takes the pointer of an answer whole.  When they fail, what is
    in use is freed ([TpSocksSpec.queue_frees_listed], [job_frees_awaited]). *)
Class ResolverOk (K : Kernel) := {
  k_sem_post : ∀ h, 0 <= r_ret (K h SemPost);
  k_write : ∀ h fd, r_ret (K h (WritePtr fd)) = 8
}.

(** ** Traces *)

(** what the kernel took of the data given to it, by descriptor *)
Definition taken (e : call * reply) : option (Z * mem) :=
  match fst e with
  | Send fd data _ => if 0 <? r_ret (snd e) then Some (fd, take (Z.to_nat (r_ret (snd e))) data) else None
  | _ => None
  end.
Definition sends (tr : history) : list (Z * mem) := omap taken tr.
Definition accepted (fd : Z) (tr : history) : mem :=
  concat (map snd (filter (λ s : Z * mem, s.1 = fd) (sends tr))).

Lemma sends_app t1 t2 : sends (t1 ++ t2) = sends t1 ++ sends t2.
Proof. apply omap_app. Qed.
Lemma accepted_app fd t1 t2 : accepted fd (t1 ++ t2) = accepted fd t1 ++ accepted fd t2.
Proof. unfold accepted. by rewrite sends_app, filter_app, map_app, concat_app. Qed.

(** what an operation on a leg leaves alone *)
Definition frame (p : proc) :=
  (p_conn_list p, p_close_list p, legs_local p, legs_remote p, p_tp p, p_items p, resolve_list p, p_pipe p, p_listen p).

(** a computation that makes system calls and changes neither the frame nor
    a leg; [S]: what it sent *)
Definition calls_only (p p' : proc) (S : list (Z * mem)) : Prop :=
  frame p' = frame p ∧ p_conns p' = p_conns p ∧ ∃ new, p_trace p' = p_trace p ++ new ∧ sends new = S.

Lemma calls_same p p' : frame p' = frame p → p_conns p' = p_conns p → p_trace p' = p_trace p → calls_only p p' [].
Proof. intros. split; [done|]. split; [done|]. exists []. by rewrite app_nil_r. Qed.
Lemma calls_refl p : calls_only p p [].
Proof. by apply calls_same. Qed.
Lemma calls_trans p1 p2 p3 S1 S2 : calls_only p1 p2 S1 → calls_only p2 p3 S2 → calls_only p1 p3 (S1 ++ S2).
Proof.
  intros (F1 & C1 & n1 & E1 & <-) (F2 & C2 & n2 & E2 & <-). split; [congruence|]. split; [congruence|].
  exists (n1 ++ n2). split; [|by rewrite sends_app]. by rewrite E2, E1, app_assoc.
Qed.
Lemma calls_errno p e : calls_only p (p <| p_errno := e |>) [].
Proof. by apply calls_same. Qed.

Definition called (p p' : proc) : Prop := ∃ S, calls_only p p' S.
Lemma called_trans p1 p2 p3 : called p1 p2 → called p2 p3 → called p1 p3.
Proof. intros [S1 H1] [S2 H2]. exists (S1 ++ S2). by eapply calls_trans. Qed.
Lemma calls_called p p' S : calls_only p p' S → called p p'.
Proof. by exists S. Qed.
Lemma called_refl p : called p p.
Proof. exists []. apply calls_refl. Qed.
#[export] Hint Resolve calls_refl calls_errno called_refl calls_called : core.

(** nothing but calls, nothing sent: [silent m] *)
Section spec.
Context {K : Kernel} {KO : KernelOk K} (params : tp_params).

Definition silent {A} (m : M A) : Prop := ∀ p, wps m p (λ _ p', calls_only p p' []).

Lemma silent_ret {A} (a : A) : silent (ret a).
Proof. intros p. apply wps_ret, calls_refl. Qed.
Lemma silent_bind {A B} (m : M A) (k : A → M B) : silent m → (∀ a, silent (k a)) → silent (mbind m k).
Proof.
  intros Hm Hk p. apply wps_bind. eapply wps_mono; [apply Hm|]. intros a p' H.
  eapply wps_mono; [apply Hk|]. intros b p''. apply (calls_trans _ _ _ [] [] H).
Qed.
Lemma silent_errno : silent errno.
Proof. intros p. apply wps_gets, calls_refl. Qed.
Lemma silent_gets {A} (f : proc → A) : silent (gets f).
Proof. intros p. apply wps_gets, calls_refl. Qed.
Lemma after_calls c p : calls_only p (after c p) (sends [(c, kernel (p_trace p) c)]).
Proof. split; [done|]. split; [done|]. by exists [(c, kernel (p_trace p) c)]. Qed.
Definition not_send (c : call) : Prop := match c with Send _ _ _ => False | _ => True end.
Lemma after_silent c p : not_send c → calls_only p (after c p) [].
Proof. intros H. pose proof (after_calls c p) as Hc. by destruct c. Qed.
Lemma silent_sys c : not_send c → silent (sys c).
Proof. intros H p. apply wps_sys. by apply after_silent. Qed.
Lemma silent_sysret c : not_send c → silent (sysret c).
Proof. intros H p. apply wps_sysret. by apply after_silent. Qed.
Lemma silent_sys_ok c : not_send c → silent (sys_ok c).
Proof. intros H p. apply wps_sys_ok. by apply after_silent. Qed.
Lemma silent_when b m : silent m → silent (when b m).
Proof. destruct b; [done|]. intros _. apply silent_ret. Qed.

Create HintDb silent.
Hint Resolve silent_ret silent_bind silent_errno silent_gets silent_when : silent.
Hint Extern 1 (silent (sys _)) => apply silent_sys; exact I : silent.
Hint Extern 1 (silent (sysret _)) => apply silent_sysret; exact I : silent.
Hint Extern 1 (silent (sys_ok _)) => apply silent_sys_ok; exact I : silent.
Hint Extern 1 (silent (setsockopt _ _ _ _)) => apply silent_sys_ok; exact I : silent.
Ltac silent := repeat first
  [ progress (cbv zeta)
  | apply silent_bind; [|intros ?]
  | match goal with |- silent (if ?b then _ else _) => destruct b | |- silent (match ?x with _ => _ end) => destruct x end
  | solve [eauto 2 with silent] ].

Lemma silent_set_ttl_hl fd ttl : silent (set_ttl_hl fd ttl).
Proof. unfold set_ttl_hl, set_ttl, set_hl. silent. Qed.
Lemma silent_cork fd b : silent (cork fd b).
Proof.
  unfold cork. silent.
Qed.
Lemma silent_has_notsent fd : silent (socket_has_notsent fd).
Proof. unfold socket_has_notsent. silent. Qed.
Lemma silent_wait fd delay : 0 <= delay → silent (socket_wait_notsent fd delay).
Proof.
  intros Hd p. unfold socket_wait_notsent. apply wps_bind. eapply wps_mono; [apply silent_has_notsent|].
  intros b p1 H1. destruct b; simpl; [|by apply wps_ret]. apply wps_bind, wps_sys.
  set (p2 := after _ _). assert (H2 : calls_only p p2 []) by (eapply (calls_trans _ _ _ [] []); [exact H1|by apply after_silent]).
  destruct (if negb _ then _ else _) as [sec nsec]. cbv zeta.
  match goal with |- context [wait_step _ ?m] => set (mtick := m) end.
  assert (Hm : 1 <= mtick) by (unfold mtick; case_match; lia).
  apply (wps_loop (λ d p', 0 <= d ∧ calls_only p p' []) (λ d _, d)); [lia| |done|lia].
  clear - Hm. intros d p' [Hd H]. unfold wait_step. apply wps_bind, wps_sys, wps_bind.
  eapply wps_mono; [apply silent_has_notsent|]. intros b p'' H'.
  assert (H2 : calls_only p p'' []).
  { eapply (calls_trans _ _ _ [] []); [exact H|]. eapply (calls_trans _ _ _ [] []); [|exact H']. by apply after_silent. }
  destruct b; simpl; [|by apply wps_ret]. destruct (Z.leb_spec d mtick); apply wps_ret; [done|]. split; [|lia]. split; [lia|done].
Qed.
Lemma silent_get_so_error fd : silent (get_so_error fd).
Proof. unfold get_so_error. silent. Qed.

(** *** One send *)

Lemma wps_send fd buf flags ttl p (Q : Z → proc → Prop) :
  (∀ wr p', wr <= len buf → calls_only p p' (if 0 <? wr then [(fd, take (Z.to_nat wr) buf)] else []) →
     (∃ h, wr = r_ret (kernel h (Send fd buf flags)) ∧ (wr < 0 → p_errno p' = r_errno (kernel h (Send fd buf flags)))) → Q wr p') →
  wps (send_with_ttl params fd buf flags ttl) p Q.
Proof.
  intros HQ. unfold send_with_ttl. apply wps_bind.
  apply (wps_mono _ _ (λ _ p', calls_only p p' [])).
  { apply silent_when, silent_bind; [apply silent_set_ttl_hl|]. intros _. apply silent_bind; [apply silent_cork|]. intros _. apply silent_ret. }
  intros _ p1 H1. apply wps_bind, wps_sysret. set (h := p_trace p1). set (r := kernel h (Send fd buf flags)).
  set (p2 := after (Send fd buf flags) p1).
  assert (H2 : calls_only p1 p2 (if 0 <? r_ret r then [(fd, take (Z.to_nat (r_ret r)) buf)] else [])).
  { pose proof (after_calls (Send fd buf flags) p1) as H. unfold sends in H. simpl in H. unfold taken in H. simpl in H.
    fold h r in H. by destruct (0 <? r_ret r). }
  assert (He : r_ret r < 0 → p_errno p2 = r_errno r).
  { intros Hr. simpl. fold h r. by rewrite (proj2 (Z.ltb_lt _ _) Hr). }
  apply wps_bind. apply (wps_mono _ _ (λ _ p3, calls_only p2 p3 [] ∧ p_errno p3 = p_errno p2)).
  { apply wps_when; [|by split; [apply calls_refl|]]. intros _. apply wps_bind. unfold cork, setsockopt.
    apply wps_bind, wps_gets, wps_bind, wps_sys_ok, wps_bind, wps_modify, wps_ret, wps_ret. split; [|done].
    eapply (calls_trans _ _ _ [] []); [|apply calls_errno]. by apply after_silent. }
  intros _ p3 [H3 E3]. apply wps_ret, HQ.
  - apply k_send.
  - pose proof (calls_trans _ _ _ _ _ H1 (calls_trans _ _ _ _ _ H2 H3)) as H. by rewrite app_nil_r in H.
  - exists h. split; [done|]. intros Hr. rewrite E3. by apply He.
Qed.
End spec.

(** ** What an operation leaves alone *)

Definition live (p : proc) (c : nat) (x : tproxy_conn) : Prop := p_conns p !! c = Some (Some x).

(** the fields of a leg that say how it hangs together with the others *)
Definition core (x : tproxy_conn) := (c_remote x, c_state x, c_type x, c_partner x, c_socks_state x, c_socks_ri x).
Definition nview (x : tproxy_conn) := (core x, c_track x, c_dest x, c_fd x).

(** a projection of all legs *)
Definition proj {A} (f : tproxy_conn → A) (l : list (option tproxy_conn)) : list (option A) := fmap (M:=list) (fmap (M:=option) f) l.

(** [calm]: buffers, counters and flags may change; [still]: not the buffers *)
Record calm (p p' : proc) : Prop := Calm {
  cl_frame : frame p' = frame p;
  cl_conns : proj nview (p_conns p') = proj nview (p_conns p)
}.
Record still (p p' : proc) : Prop := Still {
  sl_calm : calm p p';
  sl_bufs : proj c_wr_buf (p_conns p') = proj c_wr_buf (p_conns p)
}.

Lemma calm_refl p : calm p p.
Proof. done. Qed.
Lemma calm_trans p1 p2 p3 : calm p1 p2 → calm p2 p3 → calm p1 p3.
Proof. intros [H1 H2] [H3 H4]. split; congruence. Qed.
Lemma still_refl p : still p p.
Proof. done. Qed.
Lemma still_trans p1 p2 p3 : still p1 p2 → still p2 p3 → still p1 p3.
Proof. intros [H1 H2] [H3 H4]. split; [by eapply calm_trans|congruence]. Qed.
Lemma calls_still p p' S : calls_only p p' S → still p p'.
Proof. intros (F & C & _). by split; [split; [|rewrite C]|rewrite C]. Qed.
#[export] Hint Resolve calm_refl still_refl calls_still : core.

(** a projection of the legs that is kept *)
Lemma live_kept {A} (f : tproxy_conn → A) p p' c x :
  proj f (p_conns p') = proj f (p_conns p) → live p c x → ∃ x', live p' c x' ∧ f x' = f x.
Proof.
  unfold live. intros H Hx. assert (Hc : (proj f (p_conns p')) !! c = (proj f (p_conns p)) !! c) by by rewrite H.
  unfold proj in Hc. rewrite !list_lookup_fmap, Hx in Hc. simpl in Hc. destruct (p_conns p' !! c) as [[x'|]|]; simpl in Hc; [|done..].
  exists x'. split; [done|congruence].
Qed.
Lemma calm_live p p' c x : calm p p' → live p c x → ∃ x', live p' c x' ∧ nview x' = nview x.
Proof. intros [_ H]. by apply live_kept. Qed.
Lemma still_live p p' c x : still p p' → live p c x → ∃ x', live p' c x' ∧ nview x' = nview x ∧ c_wr_buf x' = c_wr_buf x.
Proof.
  intros [[_ H1] H2] Hx. destruct (live_kept _ _ _ _ _ H1 Hx) as (x1 & E1 & H1').
  destruct (live_kept _ _ _ _ _ H2 Hx) as (x2 & E2 & H2'). exists x1. unfold live in *. rewrite E1 in E2. by injection E2 as <-.
Qed.

Lemma alter_kept {A} (f : tproxy_conn → A) g (c : nat) (l : list (option tproxy_conn)) :
  (∀ x, l !! c = Some (Some x) → f (g x) = f x) → proj f (alter (fmap g) c l) = proj f l.
Proof.
  intros H. apply list_eq. intros i. unfold proj. rewrite !list_lookup_fmap, list_lookup_alter. case_decide; [subst i|done].
  destruct (l !! c) as [[x|]|]; simpl; [|done..]. by rewrite H.
Qed.
Lemma set_calm p c g : (∀ x, live p c x → nview (g x) = nview x) → calm p (p <| p_conns := alter (fmap g) c (p_conns p) |>).
Proof. intros H. split; [done|]. by apply alter_kept. Qed.
Lemma set_still p c g : (∀ x, live p c x → nview (g x) = nview x ∧ c_wr_buf (g x) = c_wr_buf x) →
  still p (p <| p_conns := alter (fmap g) c (p_conns p) |>).
Proof. intros H. split; [apply set_calm; intros; by apply H|]. apply alter_kept. intros. by apply H. Qed.
Lemma live_set p c d g x : live p d x →
  live (p <| p_conns := alter (fmap g) c (p_conns p) |>) d (if decide (c = d) then g x else x).
Proof. unfold live. simpl. intros H. rewrite list_lookup_alter. case_decide as E; [|done]. subst. by rewrite H. Qed.
Lemma live_set_eq p c g x : live p c x → live (p <| p_conns := alter (fmap g) c (p_conns p) |>) c (g x).
Proof. intros H. pose proof (live_set p c c g x H) as H'. by rewrite decide_True in H'. Qed.

Lemma wps_live c p x (Q : tproxy_conn → proc → Prop) : live p c x → Q x p → wps (conn c) p Q.
Proof. apply wps_conn. Qed.
Lemma wps_live_set c p x g (Q : unit → proc → Prop) :
  live p c x → Q tt (p <| p_conns := alter (fmap g) c (p_conns p) |>) → wps (conn_set c g) p Q.
Proof. apply wps_conn_set. Qed.

(** ** Data sent to one descriptor *)

Definition sent (fd : Z) (data : mem) (p p' : proc) : Prop :=
  ∃ new, p_trace p' = p_trace p ++ new ∧ Forall (λ s : Z * mem, s.1 = fd) (sends new) ∧ concat (map snd (sends new)) = data.

Lemma sent_nil fd p p' : calls_only p p' [] → sent fd [] p p'.
Proof. intros (_ & _ & new & E & H). exists new. by rewrite H. Qed.
Lemma sent_one fd data p p' : calls_only p p' [(fd, data)] → sent fd data p p'.
Proof. intros (_ & _ & new & E & H). exists new. rewrite H. simpl. rewrite app_nil_r. split; [done|]. by split; [constructor|]. Qed.
Lemma sent_trans fd d1 d2 p1 p2 p3 : sent fd d1 p1 p2 → sent fd d2 p2 p3 → sent fd (d1 ++ d2) p1 p3.
Proof.
  intros (n1 & E1 & F1 & <-) (n2 & E2 & F2 & <-). exists (n1 ++ n2). rewrite sends_app, map_app, concat_app.
  split; [by rewrite E2, E1, app_assoc|]. split; [by apply Forall_app|done].
Qed.
Lemma sent_trans_l fd d p1 p2 p3 : sent fd [] p1 p2 → sent fd d p2 p3 → sent fd d p1 p3.
Proof. apply sent_trans. Qed.
Lemma sent_trans_r fd d p1 p2 p3 : sent fd d p1 p2 → sent fd [] p2 p3 → sent fd d p1 p3.
Proof. intros H1 H2. pose proof (sent_trans _ _ _ _ _ _ H1 H2) as H. by rewrite app_nil_r in H. Qed.
(** what changes neither the trace ... *)
Lemma sent_same fd p p' : p_trace p' = p_trace p → sent fd [] p p'.
Proof. intros E. exists []. by rewrite app_nil_r. Qed.
Lemma sent_accepted fd data p p' : sent fd data p p' → accepted fd (p_trace p') = accepted fd (p_trace p) ++ data.
Proof.
  intros (new & -> & F & <-). rewrite accepted_app. f_equal. unfold accepted. f_equal. f_equal.
  induction F as [|s l Hs _ IH]; [done|]. rewrite filter_cons, decide_True by done. by rewrite IH.
Qed.

(** ** Send buffers *)

Definition sb_ok (sb : send_buffer) : Prop :=
  match sb_data sb with None => True | Some m => 0 <= sb_pos sb <= sb_len sb ∧ sb_len sb <= len m end.
Definition pend (sb : send_buffer) : mem :=
  match sb_data sb with None => [] | Some m => slice m (sb_pos sb) (sb_len sb - sb_pos sb) end.
Definition pending (sbs : list send_buffer) : mem := concat (map pend sbs).

Lemma pend_absent sb : send_buffer_present sb = false → pend sb = [].
Proof. unfold send_buffer_present, pend. destruct (sb_data sb); [|done]. by rewrite bool_decide_true. Qed.
Lemma pending_absent sbs : send_buffers_present sbs = false → pending sbs = [].
Proof.
  induction sbs as [|sb sbs IH]; [done|]. unfold send_buffers_present. simpl. intros [H1 H2]%orb_false_iff.
  unfold pending in *. simpl. rewrite pend_absent by done. by apply IH.
Qed.
Lemma present_data sb : send_buffer_present sb = true → ∃ m, sb_data sb = Some m.
Proof. unfold send_buffer_present. intros [m Hm]%bool_decide_eq_true. by exists m. Qed.

Section bufs.
Context {K : Kernel} {KO : KernelOk K} (params : tp_params).

Lemma wps_or_again wr p : wps (or_again wr) p (λ wr' p', p' = p ∧ wr' = if (wr <? 0) && (p_errno p =? EAGAIN) then 0 else wr).
Proof. by apply wps_bind, wps_gets, wps_ret. Qed.

Lemma wps_sb_send sb fd p : sb_ok sb → send_buffer_present sb = true →
  wps (send_buffer_send params sb fd) p (λ '(sb', wr) p', called p p' ∧ sb_ok sb' ∧
    (send_buffer_present sb' = true → sb_data sb' = sb_data sb) ∧
    ∃ data, sent fd data p p' ∧ data ++ pend sb' = pend sb ∧ len data = Z.max 0 wr).
Proof.
  intros Hok Hp. destruct (present_data sb Hp) as [m Em]. unfold sb_ok in Hok. rewrite Em in Hok.
  destruct Hok as [Hpos Hlen]. unfold send_buffer_send. apply wps_bind, (wps_deref _ m); [done|].
  apply wps_bind, wps_lift. rewrite bytes_at_ok by lia. apply wp_ok, wps_bind, wps_send.
  set (piece := slice m (sb_pos sb) (sb_len sb - sb_pos sb)). intros wr p1 Hwr Hc _.
  assert (Hl : len piece = sb_len sb - sb_pos sb) by (apply len_slice; lia).
  assert (Hpend : pend sb = piece) by (unfold pend; by rewrite Em).
  destruct (Z.ltb_spec 0 wr) as [Hw|Hw].
  - apply wps_ret. split; [by eapply calls_called|].
    set (sb1 := sb <| sb_pos := sb_pos sb + wr |>).
    assert (Hdata : take (Z.to_nat wr) piece ++ slice m (sb_pos sb + wr) (sb_len sb - (sb_pos sb + wr)) = piece).
    { unfold piece. replace (sb_len sb - sb_pos sb) with (wr + (sb_len sb - (sb_pos sb + wr))) at 2 by lia.
      rewrite slice_split by lia. f_equal. unfold slice. rewrite take_take. f_equal. lia. }
    assert (Hlw : len (take (Z.to_nat wr) piece) = wr) by (unfold len in *; rewrite length_take; lia).
    destruct (Z.leb_spec (sb_len sb1) (sb_pos sb1)) as [He|He]; simpl in He.
    + split; [done|]. split; [done|]. exists (take (Z.to_nat wr) piece). split; [by apply sent_one|].
      split; [|lia]. rewrite Hpend. etransitivity; [|apply Hdata]. f_equal. unfold pend. simpl.
      by replace (sb_len sb - (sb_pos sb + wr)) with 0 by lia.
    + split; [unfold sb_ok; simpl; rewrite Em; lia|]. split; [done|]. exists (take (Z.to_nat wr) piece).
      split; [by apply sent_one|]. split; [|lia]. rewrite Hpend. unfold pend. simpl. rewrite Em. apply Hdata.
  - apply wps_bind. eapply wps_mono; [apply wps_or_again|]. intros wr' ? [-> ->]. apply wps_ret.
    split; [by eapply calls_called|]. split; [unfold sb_ok; rewrite Em; lia|]. split; [done|]. exists []. split; [by apply sent_nil|].
    split; [done|]. change (len []) with 0. case_match; lia.
Qed.

Lemma wps_sbs_send fd sbs : ∀ twr p, Forall sb_ok sbs →
  wps (send_buffers_send params sbs fd twr) p (λ '(sbs', w, real) p', called p p' ∧ Forall sb_ok sbs' ∧
    Forall2 (λ sb sb', send_buffer_present sb' = true → send_buffer_present sb = true) sbs sbs' ∧
    ∃ data, sent fd data p p' ∧ data ++ pending sbs' = pending sbs ∧ real = twr + len data).
Proof.
  induction sbs as [|sb sbs IH]; intros twr p Hok.
  { apply wps_ret. split; [done|]. split; [done|]. split; [done|]. exists []. split; [by apply sent_nil|]. split; [done|].
    change (len []) with 0. lia. }
  apply Forall_cons_1 in Hok as [Hsb Hok]. simpl. destruct (send_buffer_present sb) eqn:Hp.
  2:{ apply wps_bind. eapply wps_mono; [by apply IH|]. intros [[sbs' w] real] p1 (Hs & Hok' & H2 & data & Hd & Hd2 & Hr).
      apply wps_ret. split; [done|]. split; [by constructor|]. split; [constructor; [by rewrite Hp|done]|]. exists data. split; [done|].
      split; [|done]. unfold pending in *. simpl. by rewrite pend_absent. }
  apply wps_bind. eapply wps_mono; [by apply wps_sb_send|]. intros [sb' wr] p1 (Hs & Hok' & Hpr & data & Hd & Hd2 & Hl).
  assert (Hpr' : send_buffer_present sb' = true → send_buffer_present sb = true) by by rewrite Hp.
  assert (Hrest : Forall2 (λ sb sb', send_buffer_present sb' = true → send_buffer_present sb = true) sbs sbs)
    by (clear; induction sbs; by constructor).
  assert (Hpd : data ++ pending (sb' :: sbs) = pending (sb :: sbs)) by (unfold pending; simpl; by rewrite app_assoc, Hd2).
  destruct (Z.ltb_spec wr 0).
  { apply wps_ret. split; [done|]. split; [by constructor|]. split; [by constructor|]. exists data. split; [done|]. split; [done|lia]. }
  destruct (send_buffer_present sb') eqn:Hp'.
  { apply wps_ret. split; [done|]. split; [by constructor|]. split; [by constructor|]. exists data. split; [done|]. split; [done|lia]. }
  apply wps_bind. eapply wps_mono; [by apply IH|]. intros [[sbs' w] real] p2 (Hs2 & Hok2 & H2 & data2 & Hd3 & Hd4 & Hr).
  apply wps_ret. split; [by eapply called_trans|]. split; [by constructor|]. split; [constructor; [by rewrite Hp|done]|].
  exists (data ++ data2). split; [by eapply sent_trans|]. split.
  - unfold pending in *. simpl. rewrite (pend_absent sb') in * by done. rewrite app_nil_r in Hd2. simpl. by rewrite <- app_assoc, Hd4, Hd2.
  - unfold len in *. rewrite length_app. lia.
Qed.

(** no memory runs out, a socket is at most full; it is never full *)
Definition reliable : Prop :=
  (∀ h n, 0 <= r_ret (K h (Malloc n))) ∧
  (∀ h fd data flags, r_ret (K h (Send fd data flags)) < 0 → r_errno (K h (Send fd data flags)) = EAGAIN).
Definition never_full : Prop := ∀ h fd data flags, 0 <= r_ret (K h (Send fd data flags)).

Lemma wps_create sb data l extra flags ttl p :
  send_buffer_present sb = false → 0 <= l → 0 <= extra → match data with Some d => l <= len d | None => True end →
  wps (send_buffer_create sb data l extra flags ttl) p (λ '(sb', ok) p', calls_only p p' [] ∧ sb_ok sb' ∧
    (if ok : bool then ∃ new, sb' = SendBuffer (Some new) l 0 ttl flags ∧ len new = l + extra
       ∧ (∀ d, data = Some d → pend sb' = take (Z.to_nat l) d)
     else sb' = sb) ∧ ((∀ h n, 0 <= r_ret (K h (Malloc n))) → ok = true)).
Proof.
  intros Hp Hl He Hd. unfold send_buffer_create. rewrite Hp. apply wps_bind, wps_sys.
  set (r := kernel (p_trace p) (Malloc (l + extra))).
  assert (Hc : calls_only p (after (Malloc (l + extra)) p) []) by by apply after_silent.
  destruct (Z.ltb_spec (r_ret r) 0).
  { apply wps_ret. split; [done|]. split; [|split; [done|]].
    - unfold sb_ok. unfold send_buffer_present in Hp. by destruct (sb_data sb).
    - intros Hm. exfalso. specialize (Hm (p_trace p) (l + extra)). unfold r, kernel in *. lia. }
  set (new := buffer_of (l + extra) (r_data r)). assert (Hn : len new = l + extra) by (apply len_buffer_of; lia).
  apply wps_bind, wps_lift. destruct data as [d|].
  - apply wp_memcpy; [lia..|]. apply wps_ret.
    assert (Hls : len (slice d 0 l) = l) by (apply len_slice; lia).
    assert (Hn2 : len (splice new 0 (slice d 0 l)) = len new) by (apply len_splice; lia).
    split; [done|]. split; [unfold sb_ok; simpl; lia|]. split; [|done]. eexists. split; [done|]. split; [lia|].
    intros ? [= <-]. unfold pend. simpl. unfold splice, slice. simpl. rewrite drop_0, Z.sub_0_r, take_app_le, take_take, Nat.min_id; [done|].
    change (drop (Z.to_nat 0) d) with d. unfold len in *. rewrite length_take. lia.
  - apply wp_ok, wps_ret. split; [done|]. split; [unfold sb_ok; simpl; lia|]. split; [|done]. by exists new.
Qed.

Lemma wps_send_or_buffer sb fd buf flags ttl p : sb_ok sb → send_buffer_present sb = false →
  wps (send_or_buffer params sb fd buf flags ttl) p (λ '(sb', wr) p', called p p' ∧ sb_ok sb' ∧
    ∃ data, sent fd data p p' ∧ (0 <= wr → data ++ pend sb' = buf) ∧ (reliable → 0 <= wr)).
Proof.
  intros Hok Hp. unfold send_or_buffer. destruct (Z.eqb_spec (len buf) 0) as [Hb|Hb].
  { apply wps_ret. split; [done|]. split; [done|]. exists []. split; [by apply sent_nil|]. split; [|lia].
    intros _. rewrite pend_absent by done. by destruct buf. }
  apply wps_bind, wps_send. intros wr p1 Hwr Hc (h & Eh & Er). unfold kernel in Eh, Er. apply wps_bind.
  eapply wps_mono; [apply wps_or_again|]. intros wr' ? [-> Hw'].
  assert (Hrel : reliable → 0 <= wr').
  { intros [_ Hr]. subst wr'. destruct (Z.ltb_spec wr 0) as [Hn|]; [|done]. rewrite (Er Hn).
    rewrite (Hr h fd buf flags) by lia. done. }
  assert (Hs : sent fd (take (Z.to_nat wr') buf) p p1).
  { subst wr'. destruct (Z.ltb_spec 0 wr) as [H0|H0].
    - rewrite (proj2 (Z.ltb_ge wr 0)) by lia. by apply sent_one.
    - replace (take _ buf) with (@nil byte); [by apply sent_nil|]. destruct ((wr <? 0) && _); [done|].
      by replace (Z.to_nat wr) with 0%nat by lia. }
  assert (Hw2 : wr' <= len buf) by (subst wr'; case_match; unfold len in *; lia).
  assert (Hst : called p p1) by by eapply calls_called.
  clear Hw' Eh Er Hc. destruct (Z.leb_spec 0 wr') as [H0|H0]; simpl.
  2:{ apply wps_ret. split; [done|]. split; [done|]. exists (take (Z.to_nat wr') buf). split; [done|]. split; [lia|]. intros H. by apply Hrel in H. }
  destruct (Z.ltb_spec wr' (len buf)) as [H1|H1].
  - apply wps_bind, wps_lift. rewrite bytes_at_ok by lia. apply wp_ok, wps_bind.
    assert (Hl : len (slice buf wr' (len buf - wr')) = len buf - wr') by (apply len_slice; lia).
    eapply wps_mono; [apply wps_create; [done|lia|done|lia]|]. intros [sb' ok] p2 (Hc & Hok' & Hsb & Hm). apply wps_ret.
    split; [by eapply called_trans, calls_called|]. split; [done|]. exists (take (Z.to_nat wr') buf).
    split; [by eapply sent_trans_r, sent_nil|]. split; [|intros [Hr _]; by rewrite (Hm Hr)].
    destruct ok; [intros _|intros ?; exfalso; lia]. destruct Hsb as (new & -> & _ & Hpd). rewrite (Hpd _ eq_refl).
    rewrite (take_ge (slice _ _ _)) by (rewrite <- to_nat_len, Hl; lia). unfold slice. rewrite (take_ge (drop _ _)) by (unfold len in *; rewrite length_drop; lia).
    apply take_drop.
  - apply wps_ret. split; [done|]. split; [done|]. exists (take (Z.to_nat wr') buf). split; [done|]. split; [|done].
    intros _. rewrite pend_absent, app_nil_r by done. apply take_ge. unfold len in *. lia.
Qed.

(** *** To a leg *)

(** only leg [d] changes, and of it neither the place among the others nor
    the track *)
Definition at_leg (d : nat) (p p' : proc) : Prop :=
  calm p p' ∧ ∀ c, c ≠ d → p_conns p' !! c = p_conns p !! c.
Lemma at_leg_trans d p1 p2 p3 : at_leg d p1 p2 → at_leg d p2 p3 → at_leg d p1 p3.
Proof. intros [H1 H2] [H3 H4]. split; [by eapply calm_trans|]. intros c Hc. by rewrite H4, H2. Qed.
Lemma called_at_leg d p p' : called p p' → at_leg d p p'.
Proof. intros (S & F & C & _). split; [split; [done|by rewrite C]|]. intros. by rewrite C. Qed.
Lemma set_at_leg d p g : (∀ y, live p d y → nview (g y) = nview y) →
  at_leg d p (p <| p_conns := alter (fmap g) d (p_conns p) |>).
Proof. intros H. split; [by apply set_calm|]. intros c Hc. simpl. by rewrite list_lookup_alter_ne. Qed.

Lemma called_live p p' c x : called p p' → live p c x → live p' c x.
Proof. intros (S & F & C & _). unfold live. by rewrite C. Qed.

(** leg [d]: its descriptor, buffers, counters *)
Lemma wps_send_to d y sb tl buf p :
  live p d y → c_wr_buf y = sb :: tl → sb_ok sb → send_buffer_present sb = false →
  wps (send_to params d buf) p (λ wr p', at_leg d p p' ∧ ∃ y' sb', live p' d y' ∧ c_wr_buf y' = sb' :: tl ∧ sb_ok sb' ∧
    ∃ data, sent (c_fd y) data p p' ∧ (0 <= wr → data ++ pend sb' = buf) ∧ (reliable → 0 <= wr)).
Proof.
  intros Hy Eb Hok Hp. unfold send_to. apply wps_bind, (wps_live _ _ y); [done|]. cbv beta. rewrite Eb.
  apply wps_bind, (wps_deref _ sb); [done|]. apply wps_bind. eapply wps_mono; [by apply wps_send_or_buffer|].
  intros [sb' wr] p1 (Hs & Hok' & data & Hd & Hw & Hr). pose proof (called_live _ _ _ _ Hs Hy) as Hy1.
  apply wps_bind, (wps_live_set _ _ y); [done|]. set (g1 := λ y : tproxy_conn, y <| c_wr_buf := _ |>).
  set (p2 := p1 <| p_conns := _ |>). assert (Hy2 : live p2 d (g1 y)) by by apply live_set_eq.
  assert (Ht2 : sent (c_fd y) data p p2) by by eapply sent_trans_r, sent_same.
  assert (Ha2 : at_leg d p p2) by (eapply at_leg_trans; [by apply called_at_leg|by apply set_at_leg]).
  apply wps_bind, wps_when.
  - intros _. unfold count_written. apply (wps_live_set _ _ (g1 y)); [done|]. set (g2 := λ y : tproxy_conn, y <| c_twr := _ |>).
    apply wps_ret. split; [eapply at_leg_trans; [exact Ha2|by apply set_at_leg]|]. exists (g2 (g1 y)), sb'.
    split; [by apply live_set_eq|]. split; [by simpl; rewrite Eb|]. split; [done|]. exists data.
    split; [by eapply sent_trans_r, sent_same|done].
  - intros _. apply wps_ret. split; [done|]. exists (g1 y), sb'. split; [done|]. split; [by simpl; rewrite Eb|]. split; [done|]. by exists data.
Qed.

Lemma silent_fix_segmentation fd : 0 <= fix_seg params → silent (fix_segmentation params fd).
Proof.
  intros Hf. assert (Hr : silent report_segfail).
  { unfold report_segfail. apply silent_bind; [by apply silent_sysret|]. intros now p. by apply wps_modify, calls_same. }
  unfold fix_segmentation. destruct (fix_seg_avail params); [|apply silent_ret]. simpl. destruct (fix_seg params =? 0); simpl.
  - apply silent_bind; [apply silent_has_notsent|]. intros b. by apply silent_when.
  - apply silent_bind; [by apply silent_wait|]. intros b. destruct b; [apply silent_ret|done].
Qed.

Lemma wps_send_oob fd buf from len' ttl (oob : bool) b p :
  0 <= from → 0 <= len' → from + len' <= len buf → (oob = true → from + len' < len buf) →
  wps (send_oob params fd buf from len' ttl oob b) p (λ wr p', called p p' ∧ wr <= len' + 1 ∧
    (oob = false → wr <= len' ∧ sent fd (take (Z.to_nat wr) (slice buf from len')) p p' ∧ (never_full → 0 <= wr))).
Proof.
  intros H0 H1 H2 H3. unfold send_oob. destruct oob.
  - specialize (H3 eq_refl). apply wps_bind, wps_lift, wp_wr; [lia..|].
    set (buf' := <[_ := _]> buf). assert (Hl : len buf' = len buf) by (unfold buf', len; by rewrite length_insert).
    apply wps_bind, wps_lift. rewrite bytes_at_ok by lia. apply wp_ok, wps_bind, wps_send. intros wr p1 Hwr Hc _.
    rewrite len_slice in Hwr by lia. eapply wps_mono; [apply wps_or_again|]. intros wr' ? [-> ->].
    split; [by eapply calls_called|]. split; [|done]. destruct ((wr <? 0) && _); lia.
  - apply wps_bind, wps_lift. rewrite bytes_at_ok by lia. apply wp_ok, wps_send. intros wr p1 Hwr Hc (h & Eh & _).
    rewrite len_slice in Hwr by lia. split; [by eapply calls_called|]. split; [lia|]. intros _. split; [done|]. split.
    + destruct (Z.ltb_spec 0 wr); [by apply sent_one|]. replace (Z.to_nat wr) with 0%nat by lia. by apply sent_nil.
    + intros Hn. unfold kernel in Eh. specialize (Hn h fd (slice buf from len') 0). lia.
Qed.

(** where the parts end: increasing, inside the segment *)
Fixpoint parts_ok (bs from : Z) (pos : list Z) : Prop :=
  match pos with [] => from <= bs | p :: pos => from <= p < bs ∧ parts_ok bs p pos end.
Lemma cuts_parts bs pos : ∀ from, 0 <= from <= bs → Forall (λ p, from <= p) pos → cuts bs pos → parts_ok bs from pos.
Proof.
  induction pos as [|q pos IH]; intros from Hf Hl [Hs Hb]; simpl; [lia|].
  apply Forall_cons_1 in Hl as [Hq _]. apply Forall_cons_1 in Hb as [Hqb Hb]. apply StronglySorted_inv in Hs as [Hs Hlt].
  split; [lia|]. apply IH; [lia| |done]. eapply Forall_impl; [exact Hlt|]. simpl. lia.
Qed.

Definition no_oob (flags i : Z) : Prop := i ≠ 0 ∨ Z.land flags SPLIT_FLAG_OOB = 0.
(** leg [d] after it has been given [whole]: the first buffer may hold a rest *)
Definition given (d : nat) (fd : Z) (tl : list send_buffer) (whole : mem) (faithful : Prop) (p p' : proc) : Prop :=
  at_leg d p p' ∧ ∃ y' sb', live p' d y' ∧ c_wr_buf y' = sb' :: tl ∧ sb_ok sb' ∧
    (faithful → ∃ data, sent fd data p p' ∧ data ++ pend sb' = whole).

Lemma calm_fd p p' d y y' : calm p p' → live p d y → live p' d y' → c_fd y' = c_fd y.
Proof.
  intros Hc Hy Hy'. destruct (calm_live _ _ _ _ Hc Hy) as (y2 & Hy2 & Hn). unfold live in *. rewrite Hy' in Hy2.
  injection Hy2 as <-. unfold nview in Hn. congruence.
Qed.

(** a part has been sent as far as the kernel took it *)
Lemma given_none d y sb tl buf from len' wr whole (faithful : Prop) p p1 :
  live p d y → c_wr_buf y = sb :: tl → sb_ok sb → send_buffer_present sb = false → called p p1 → 0 <= from → 0 <= len' →
  (faithful → sent (c_fd y) (take (Z.to_nat wr) (slice buf from len')) p p1 ∧ len' <= wr ∧ slice buf from len' = whole) →
  given d (c_fd y) tl whole faithful p p1.
Proof.
  intros Hy Eb Hok Hp Hc Hf Hl Hw. split; [by apply called_at_leg|]. exists y, sb. split; [by eapply called_live|].
  split; [done|]. split; [done|]. intros Hfa. destruct (Hw Hfa) as (Hs & Hge & <-). eexists. split; [exact Hs|].
  rewrite pend_absent, app_nil_r by done. apply take_ge. unfold slice. rewrite length_take. lia.
Qed.
Lemma given_written d fd tl whole (faithful : Prop) data p p1 p2 :
  at_leg d p p1 → (faithful → sent fd data p p1) →
  given d fd tl whole faithful p1 p2 → given d fd tl (data ++ whole) faithful p p2.
Proof.
  intros Ha Hs (Ha2 & y' & sb' & Hy' & Eb & Hok & Hd). split; [by eapply at_leg_trans|]. exists y', sb'.
  split; [done|]. split; [done|]. split; [done|]. intros Hf. destruct (Hd Hf) as (data2 & Hs2 & <-).
  exists (data ++ data2). split; [by eapply sent_trans; [apply Hs|]|]. by rewrite app_assoc.
Qed.
Lemma given_faithful d fd tl whole whole' (f f' : Prop) p p' : (f' → f ∧ whole = whole') → given d fd tl whole f p p' → given d fd tl whole' f' p p'.
Proof.
  intros H (Ha & y' & sb' & Hy' & Eb & Hok & Hd). split; [done|]. exists y', sb'. split; [done|]. split; [done|]. split; [done|].
  intros Hf. destruct (H Hf) as [Hf' <-]. by apply Hd.
Qed.

(** one part, [k] what follows when the kernel has taken it *)
Lemma wps_part d y sb tl buf bs from len' ttl (oob : bool) b (k : Z → M Z) (faithful : Prop) p :
  0 <= fix_seg params → bs <= len buf → 0 <= from → 0 <= len' → from + len' <= bs → (oob = true → from + len' < len buf) →
  live p d y → c_wr_buf y = sb :: tl → sb_ok sb → send_buffer_present sb = false →
  (faithful → reliable ∧ never_full ∧ oob = false) →
  (∀ wr p', at_leg d p p' → (∃ y', live p' d y' ∧ c_wr_buf y' = sb :: tl) →
     (faithful → sent (c_fd y) (slice buf from len') p p') →
     wps (k wr) p' (λ _ p'', given d (c_fd y) tl (slice buf (from + len') (bs - (from + len'))) faithful p' p'')) →
  wps (let* y := conn d in
       fix_segmentation params (c_fd y) ;;;
       let* wr := send_oob params (c_fd y) buf from len' ttl oob b in
       if wr <? 0 then ret wr else
       count_written d wr ;;;
       if wr <? len' then
         let* rest := lift (bytes_at (from + wr) (bs - (from + wr)) buf) in send_to params d rest
       else k wr) p (λ _ p', given d (c_fd y) tl (slice buf from (bs - from)) faithful p p').
Proof.
  intros Hfix Hbs Hf Hl Hto Ho Hy Eb Hok Hpr Hfa Hk.
  apply wps_bind, (wps_live _ _ y); [done|]. apply wps_bind.
  eapply wps_mono; [by apply silent_fix_segmentation|]. intros [] p0 Hc0. apply wps_bind.
  eapply wps_mono; [apply wps_send_oob; [lia|lia|lia|done]|]. intros wr p1 (Hc1 & Hwr & Hplain).
  assert (Hc : called p p1) by by eapply called_trans; [eapply calls_called|].
  assert (Hs : faithful → sent (c_fd y) (take (Z.to_nat wr) (slice buf from len')) p p1).
  { intros (_ & _ & H)%Hfa. eapply sent_trans_l; [by apply sent_nil|by apply Hplain]. }
  pose proof (called_live _ _ _ _ Hc Hy) as Hy1. destruct (Z.ltb_spec wr 0) as [Hneg|Hpos].
  { apply wps_ret. apply (given_none d y sb tl buf from len' wr); [done..|]. intros (_ & Hn & H)%Hfa. apply Hplain in H as (_ & _ & H). apply H in Hn. lia. }
  apply wps_bind, (wps_live_set _ _ y); [done|]. set (g := λ y : tproxy_conn, y <| c_twr := _ |>). set (p2 := p1 <| p_conns := _ |>).
  assert (Hy2 : live p2 d (g y)) by by apply live_set_eq.
  assert (Ha2 : at_leg d p p2) by (eapply at_leg_trans; [by apply called_at_leg|by apply set_at_leg]).
  assert (Hs2 : faithful → sent (c_fd y) (take (Z.to_nat wr) (slice buf from len')) p p2).
  { intros H. eapply sent_trans_r; [by apply Hs|by apply sent_same]. }
  destruct (Z.ltb_spec wr len') as [Hlt|Hge].
  - apply wps_bind, wps_lift. rewrite bytes_at_ok by lia. apply wp_ok.
    eapply wps_mono; [by apply (wps_send_to d (g y) sb tl)|].
    intros w p3 (Ha3 & y3 & sb3 & Hy3 & Eb3 & Hok3 & data & Hd & Hw & Hr).
    replace (slice buf from (bs - from)) with (take (Z.to_nat wr) (slice buf from len') ++ slice buf (from + wr) (bs - (from + wr))).
    2:{ replace (bs - from) with (wr + (bs - (from + wr))) by lia. rewrite slice_split by lia. f_equal.
        unfold slice. rewrite take_take. f_equal. lia. }
    eapply given_written; [exact Ha2|exact Hs2|]. split; [done|]. exists y3, sb3. split; [done|]. split; [done|]. split; [done|].
    intros (Hrel & _)%Hfa. exists data. split; [done|]. by apply Hw, Hr.
  - assert (Hs3 : faithful → sent (c_fd y) (slice buf from len') p p2).
    { intros H. specialize (Hs2 H). rewrite take_ge in Hs2; [done|]. unfold slice. rewrite length_take. lia. }
    replace (bs - from) with (len' + (bs - (from + len'))) by lia. rewrite slice_split by lia.
    apply (wps_mono _ _ (λ _ p', given d (c_fd y) tl (slice buf (from + len') (bs - (from + len'))) faithful p2 p'));
      [apply Hk; [done|by exists (g y)|done]|]. intros w p3 H. by eapply given_written.
Qed.

Lemma wps_send_parts d buf bs flags b tl : 0 <= fix_seg params → bs <= len buf →
  ∀ pos i from y sb p, 0 <= i → 0 <= from → parts_ok bs from pos → (i = 0 → pos ≠ []) →
  live p d y → c_wr_buf y = sb :: tl → sb_ok sb → send_buffer_present sb = false →
  wps (send_parts params d buf bs flags b i from pos) p (λ _ p',
    given d (c_fd y) tl (slice buf from (bs - from)) (reliable ∧ never_full ∧ no_oob flags i) p p').
Proof.
  intros Hfix Hbs pos. induction pos as [|q pos IH]; intros i from y sb p Hi Hf Hparts Hne Hy Eb Hok Hpr.
  - simpl in Hparts. assert (i ≠ 0) by (intros ->; by destruct Hne). cbn [send_parts]. cbv zeta.
    rewrite (proj2 (Z.eqb_neq i 0)) by done. eapply (wps_part d y sb tl buf bs from (bs - from)); [done|done|done|lia|lia|done..| |].
    { by intros (? & ? & _). }
    intros wr p1 Ha (y' & Hy' & Eb') Hs. apply wps_ret. replace (bs - (from + (bs - from))) with 0 by lia.
    split; [done|]. exists y', sb. split; [done|]. split; [done|]. split; [done|]. intros _. exists [].
    split; [by apply sent_same|]. by apply pend_absent.
  - destruct Hparts as [Hq Hparts]. cbn [send_parts]. cbv zeta. set (oob := (i =? 0) && _).
    eapply (wps_part d y sb tl buf bs from (q - from)); [done|done|done|lia|lia|lia|done..| |].
    { intros (? & ? & [Hi0|E]); (split; [done|]); (split; [done|]); unfold oob; [by rewrite (proj2 (Z.eqb_neq i 0))|by rewrite E, andb_comm]. }
    intros wr p1 Ha (y' & Hy' & Eb') Hs. replace (from + (q - from)) with q by lia.
    assert (Efd : c_fd y' = c_fd y) by (eapply calm_fd; [apply Ha|done|done]).
    eapply wps_mono; [apply (IH (i + 1) q y' sb); [lia|lia|done|lia|done..]|]. intros w p2. rewrite Efd.
    apply given_faithful. intros (? & ? & _). split; [|done]. split; [done|]. split; [done|]. left. lia.
Qed.

(** a segment, cut or not, given to a leg that has nothing unsent *)
Lemma wps_send_segment d y sb tl out b p :
  0 <= fix_seg params → 0 <= out_size out <= len (out_segment out) → (out_pos out = [] ∨ cuts (out_size out) (out_pos out)) →
  live p d y → c_wr_buf y = sb :: tl → sb_ok sb → send_buffer_present sb = false →
  wps (send_segment params d out b) p (λ _ p',
    given d (c_fd y) tl (take (Z.to_nat (out_size out)) (out_segment out))
      (reliable ∧ (out_pos out ≠ [] → never_full ∧ Z.land (out_flags out) SPLIT_FLAG_OOB = 0)) p p').
Proof.
  intros Hfix Hsz Hcut Hy Eb Hok Hpr. unfold send_segment. destruct (out_pos out) as [|q pos] eqn:Ep.
  - apply wps_bind, wps_lift. rewrite bytes_at_ok by lia. apply wp_ok. rewrite slice_0 by lia.
    eapply wps_mono; [by apply (wps_send_to d y sb tl)|].
    intros w p1 (Ha & y1 & sb1 & Hy1 & Eb1 & Hok1 & data & Hd & Hw & Hr). split; [done|]. exists y1, sb1.
    split; [done|]. split; [done|]. split; [done|]. intros (Hrel & _). exists data. split; [done|]. by apply Hw, Hr.
  - destruct Hcut as [|Hcut]; [done|]. eapply wps_mono.
    { apply (wps_send_parts d (out_segment out) (out_size out) (out_flags out) b tl Hfix ltac:(lia) (q :: pos) 0 0 y sb p);
        [done|done| |done..].
      apply cuts_parts; [lia| |done]. destruct Hcut as [_ Hb]. eapply Forall_impl; [exact Hb|]. simpl. lia. }
    intros w p1. rewrite Z.sub_0_r, slice_0 by lia. apply given_faithful. intros (Hr & Hn). destruct (Hn ltac:(done)) as [Hf Ho].
    split; [|done]. split; [done|]. split; [done|]. by right.
Qed.

Lemma wps_conn_buffers_send d y p : live p d y → Forall sb_ok (c_wr_buf y) →
  wps (conn_buffers_send params d) p (λ _ p', at_leg d p p' ∧ ∃ y', live p' d y' ∧ Forall sb_ok (c_wr_buf y') ∧
    Forall2 (λ sb sb', send_buffer_present sb' = true → send_buffer_present sb = true) (c_wr_buf y) (c_wr_buf y') ∧
    ∃ data, sent (c_fd y) data p p' ∧ data ++ pending (c_wr_buf y') = pending (c_wr_buf y)).
Proof.
  intros Hy Hok. unfold conn_buffers_send. apply wps_bind, (wps_live _ _ y); [done|]. apply wps_bind.
  eapply wps_mono; [by apply wps_sbs_send|]. intros [[bufs w] real] p1 (Hc & Hok' & H2 & data & Hd & Hp & _).
  pose proof (called_live _ _ _ _ Hc Hy) as Hy1. apply wps_bind, (wps_live_set _ _ y); [done|].
  set (g := λ x : tproxy_conn, x <| c_wr_buf := bufs |> <| c_twr := _ |>). apply wps_ret.
  split; [eapply at_leg_trans; [by apply called_at_leg|by apply set_at_leg]|]. exists (g y). split; [by apply live_set_eq|].
  split; [done|]. split; [done|]. exists data. split; [by eapply sent_trans_r, sent_same|done].
Qed.

(** *** Runs of a leg

    A leg is given segments when it has nothing unsent ([handle_epoll] reads
    no more before), and is flushed when its socket takes data again. *)
Inductive leg_op : Type := Segment (out : outgoing) (oob_byte : Z) | Flush.
(** what the leg has been given *)
Definition leg_step (d : nat) (op : leg_op) : M mem :=
  let* y := conn d in
  match op with
  | Segment out b =>
      if conn_has_unsent y then ret [] else
      let* _ := send_segment params d out b in ret (take (Z.to_nat (out_size out)) (out_segment out))
  | Flush => let* _ := unsent_buffers params d in ret []
  end.
Fixpoint leg_run (d : nat) (ops : list leg_op) : M mem :=
  match ops with
  | [] => ret []
  | op :: ops => let* a := leg_step d op in let* b := leg_run d ops in ret (a ++ b)
  end.

Definition leg_ok (y : tproxy_conn) : Prop := Forall sb_ok (c_wr_buf y) ∧ c_wr_buf y ≠ [].
Definition op_ok (op : leg_op) : Prop :=
  match op with
  | Segment out _ => 0 <= out_size out <= len (out_segment out) ∧
      (out_pos out = [] ∨ cuts (out_size out) (out_pos out) ∧ never_full ∧ Z.land (out_flags out) SPLIT_FLAG_OOB = 0)
  | Flush => True
  end.

Definition keeps_stream (d : nat) (fd : Z) (given : mem) (y : tproxy_conn) (p p' : proc) : Prop :=
  ∃ y', live p' d y' ∧ leg_ok y' ∧ c_fd y' = fd ∧ ∃ data, sent fd data p p' ∧
    data ++ pending (c_wr_buf y') = pending (c_wr_buf y) ++ given.

Lemma wps_leg_step d op y p : 0 <= fix_seg params → reliable → live p d y → leg_ok y → op_ok op →
  wps (leg_step d op) p (λ a, keeps_stream d (c_fd y) a y p).
Proof.
  intros Hfix Hrel Hy [Hok Hne] Hop. unfold leg_step. apply wps_bind, (wps_live _ _ y); [done|].
  assert (Hsame : keeps_stream d (c_fd y) [] y p p).
  { exists y. split; [done|]. split; [done|]. split; [done|]. exists []. split; [by apply sent_same|]. by rewrite app_nil_r. }
  destruct op as [out b|].
  - destruct Hop as [Hsz Hcut]. destruct (conn_has_unsent y) eqn:Hu; [by apply wps_ret|]. unfold conn_has_unsent in Hu.
    apply orb_false_iff in Hu as [_ Hu]. unfold conn_buffers_present in Hu.
    destruct (c_wr_buf y) as [|sb tl] eqn:Eb; [done|]. pose proof (Forall_inv Hok) as Hsb. pose proof (Forall_inv_tail Hok) as Htl.
    assert (Hu' := Hu). unfold send_buffers_present in Hu'. simpl in Hu'. apply orb_false_iff in Hu' as [Hsb0 Htl0].
    apply wps_bind. eapply wps_mono; [apply (wps_send_segment d y sb tl out b p Hfix Hsz); [|done..]|].
    { destruct Hcut as [|[]]; [by left|by right]. }
    intros w p1 (Ha & y1 & sb1 & Hy1 & Eb1 & Hok1 & Hd). apply wps_ret.
    assert (Hf : c_fd y1 = c_fd y) by (eapply calm_fd; [apply Ha|done|done]).
    destruct Hd as (data & Hd & Hp).
    { split; [done|]. intros Hc. destruct Hcut as [|(_ & H1 & H2)]; [done|by split]. }
    exists y1. split; [done|]. split; [by split; rewrite Eb1; [constructor|]|]. split; [done|]. exists data. split; [done|].
    rewrite Eb1, Eb, (pending_absent (sb :: tl)) by done. pose proof (pending_absent tl Htl0) as Ht. unfold pending in *.
    simpl. by rewrite Ht, app_nil_r.
  - apply wps_bind. unfold unsent_buffers. apply wps_bind, (wps_live _ _ y); [done|].
    destruct (_ && _); [|by apply wps_ret, wps_ret]. apply wps_bind.
    eapply wps_mono; [by apply wps_conn_buffers_send|]. intros w p1 (Ha & y1 & Hy1 & Hok1 & H2 & data & Hd & Hp).
    apply wps_ret, wps_ret. exists y1. split; [done|]. split.
    { split; [done|]. intros E. apply Forall2_length in H2. rewrite E in H2. by destruct (c_wr_buf y). }
    split; [eapply calm_fd; [apply Ha|done|done]|]. exists data. by rewrite app_nil_r.
Qed.
Lemma wps_leg_run d ops : 0 <= fix_seg params → reliable → ∀ y p, live p d y → leg_ok y → Forall op_ok ops →
  wps (leg_run d ops) p (λ a, keeps_stream d (c_fd y) a y p).
Proof.
  intros Hfix Hrel. induction ops as [|op ops IH]; intros y p Hy Hok Hops; simpl.
  { apply wps_ret. exists y. split; [done|]. split; [done|]. split; [done|]. exists []. split; [by apply sent_same|]. by rewrite app_nil_r. }
  pose proof (Forall_inv Hops) as Hop. pose proof (Forall_inv_tail Hops) as Hops'.
  apply wps_bind. eapply wps_mono; [by apply wps_leg_step|]. intros a p1 (y1 & Hy1 & Hok1 & Ef & d1 & Hd1 & Hp1).
  apply wps_bind. eapply wps_mono; [by apply IH|]. intros b p2 (y2 & Hy2 & Hok2 & Ef2 & d2 & Hd2 & Hp2). apply wps_ret.
  exists y2. split; [done|]. split; [done|]. split; [by rewrite Ef2|]. exists (d1 ++ d2). rewrite Ef in Hd2.
  split; [by eapply sent_trans|]. by rewrite <- app_assoc, Hp2, !app_assoc, Hp1.
Qed.
End bufs.

(** C20: the bytes a leg is given reach its socket in their order and once: what
    the socket has taken and what the leg's buffers hold is what it was given,
    however little the kernel takes at a time.  This needs that no [send] fails
    except because the socket is full and that there is memory for what is left
    over ([reliable]), that no urgent data is sent, and, for a request that is
    cut in parts, that the socket is not full either ([op_ok]):
    [split_part_lost] shows a part that is lost otherwise. *)
Theorem leg_keeps_stream (K : Kernel) (KO : KernelOk K) (params : tp_params) (d : nat) (ops : list leg_op)
    (y : tproxy_conn) (p : proc) :
  0 <= fix_seg params → reliable → live p d y → leg_ok y → Forall op_ok ops →
  ∃ a p' y', leg_run params d ops p = Ok (a, p') ∧ live p' d y' ∧
    accepted (c_fd y) (p_trace p') ++ pending (c_wr_buf y')
    = accepted (c_fd y) (p_trace p) ++ pending (c_wr_buf y) ++ a.
Proof.
  intros Hf Hr Hy Hok Hops. pose proof (wps_leg_run params d ops Hf Hr y p Hy Hok Hops) as Hw.
  apply wps_iff in Hw as (a & p' & E & y' & Hy' & _ & _ & data & Hd & Hp). exists a, p', y'.
  split; [done|]. split; [done|]. by rewrite (sent_accepted _ _ _ _ Hd), <- app_assoc, Hp.
Qed.

(** ** Instances *)

Definition some_params : tp_params :=
  TpParams false 64 true true false 0 0 no_addr no_addr [] 0 0 50 true false 5 512 988 CONN_TYPE_SOCKS 2.
Definition remote_leg : tproxy_conn :=
  zero_conn <| c_remote := true |> <| c_fd := 7 |> <| c_state := CONN_AVAILABLE |>.
Definition one_leg : proc :=
  Proc [Some remote_leg] [0%nat] [] 0 1 [] (Tpws [] [] [] (IpCache ∅ ∅) 0 0 (λ _, File None None)) false [] [] [] false 0 0 0 0 0 0 [].

Definition answer (n : Z) : reply := Reply n EAGAIN [] no_addr 0 (0, 0) [] [].
(** a kernel that takes at most [n] bytes at a time, and none of what
    [full] says comes at a bad moment *)
Definition narrow_kernel (n : Z) (full : history → bool) : Kernel := λ h c,
  match c with
  | Send _ data _ => answer (if full h then -1 else Z.min n (len data))
  | Recv _ n => answer (Z.min 0 n)
  | WritePtr _ | ReadPtr _ => answer 8
  | _ => answer 0
  end.
#[export] Instance narrow_kernel_ok n full : KernelOk (narrow_kernel n full).
Proof.
  split; intros; simpl; try lia.
  - destruct (full h); pose proof (len_nonneg data); simpl; lia.
  - by destruct c.
Qed.

(** "abcd" cut in the middle, then "ef", then three flushes *)
Definition cut_segment : outgoing := Outgoing (bytes_of "abcd") 4 [2] 0.
Definition three_ops : list leg_op := [Segment cut_segment 0; Flush; Segment (Outgoing (bytes_of "ef") 2 [] 0) 0; Flush; Flush].

Lemma leg_keeps_stream_witness :
  ∃ a p' y', leg_run (K := narrow_kernel 1 (λ _, false)) some_params 0 three_ops one_leg = Ok (a, p') ∧ live p' 0 y' ∧
    accepted 7 (p_trace p') ++ pending (c_wr_buf y') = a.
Proof.
  destruct (leg_keeps_stream (narrow_kernel 1 (λ _, false)) (narrow_kernel_ok 1 (λ _, false)) some_params 0 three_ops remote_leg one_leg)
    as (a & p' & y' & E & Hy & Hs); [simpl; lia| |done| | |].
  - split; [intros h n; simpl; lia|]. intros h fd data flags. simpl. pose proof (len_nonneg data). lia.
  - split; [|done]. repeat (constructor; [done|]). constructor.
  - assert (Hn : never_full (K := narrow_kernel 1 (λ _, false))).
    { intros h fd data flags. simpl. pose proof (len_nonneg data). lia. }
    constructor; [|constructor; [done|constructor; [|by repeat constructor]]].
    + split; [vm_compute; split; congruence|]. right. split; [|done]. split; [repeat constructor|]. constructor; [simpl; lia|constructor].
    + split; [vm_compute; split; congruence|]. by left.
  - exists a, p', y'. split; [exact E|]. split; [exact Hy|]. exact Hs.
Defined.

(** The socket is full when the second part is to be sent: the part is neither
    sent nor kept, and nothing tells the connection. *)
Definition full_after_one (h : history) : bool := bool_decide (length (sends h) = 1%nat).
Lemma split_part_lost :
  match leg_run (K := narrow_kernel 100 full_after_one) some_params 0 [Segment cut_segment 0; Flush; Flush] one_leg with
  | Ok (a, p') => a = bytes_of "abcd" ∧ accepted 7 (p_trace p') = bytes_of "ab" ∧
      proj (λ y, pending (c_wr_buf y)) (p_conns p') = [Some []]
  | _ => False
  end.
Proof. vm_compute. done. Qed.
