(* ===== verification/TpConnSpec.v ===== *)
(** * tpws, connections: the invariant of the event loop

    The legs, their queues, their partners and the resolver's items, and what
    the operations on legs keep of it. *)

From Stdlib Require Import ZArith Lia Bool List.
From Stdlib Require Import Strings.Byte Strings.String.
From stdpp Require Import base tactics list numbers option countable gmap.
From S2P Require Import Prelude StateMonad CMem MPool TpProtocol TpTamper TpPools TpFiles TpIpset TpIpsetSpec TpProfile TpRequestSpec TpProfileSpec TpSockaddr.
From S2P Require Import TpWorld TpSend TpConn TpSocks TpLoop TpSendSpec.

(** [inet_pton] fills an address *)
Class EnvOk (E : Env) := {
  env_pton4 : ∀ s a, env_inet_pton AF_INET s = Some a → len a = 4;
  env_pton6 : ∀ s a, env_inet_pton AF_INET6 s = Some a → len a = 16
}.

(** ** The invariant *)

(** what is under way while an operation runs: legs that are in no queue yet,
    items taken from the pipe, the leg that is being connected or is about to
    be closed, and the leg whose data has just gone to its partner's buffer *)
Record stage : Type := Stage { fresh : list nat; taken_items : list nat; dying : option nat; drained : option (nat * nat) }.
#[export] Instance stage_eta : Eta stage := λ s, Stage (fresh s) (taken_items s) (dying s) (drained s).
Definition at_rest : stage := Stage [] [] None None.

Definition early (x : tproxy_conn) : Prop :=
  c_type x = CONN_TYPE_SOCKS ∧ c_socks_state x ∈ [S_WAIT_HANDSHAKE; S_WAIT_REQUEST; S_WAIT_RESOLVE].
Definition unborn (x : tproxy_conn) : Prop :=
  c_partner x = None ∧ conn_buffers_present x = false ∧ b_ah_check (c_track x) = false.

(** a leg by itself *)
Record leg_fits (X : stage) (st : tpws) (c : nat) (x : tproxy_conn) : Prop := LegFits {
  lf_type : c_remote x = true → c_type x = CONN_TYPE_TRANSPARENT;
  lf_ri : c_socks_ri x ≠ None → c_type x = CONN_TYPE_SOCKS ∧ c_socks_state x ≠ S_WAIT_HANDSHAKE ∧ c_socks_state x ≠ S_WAIT_REQUEST;
  lf_early : early x → c_state x ≠ CONN_CLOSED → dying X ≠ Some c → unborn x;
  lf_bufs : length (c_wr_buf x) = 4%nat ∧ Forall sb_ok (c_wr_buf x);
  lf_track : ct_ok st (c_track x) ∧ dest_ok (sa_addr (c_dest x))
}.

(** buffers 2 and 3 hold what the partner still had when it hung up *)
Definition holds (x : tproxy_conn) (n : nat) : Prop := ∃ sb, c_wr_buf x !! n = Some sb ∧ send_buffer_present sb = true.
Definition late_ok (X : stage) (n : nat) (d : nat) (y : tproxy_conn) : Prop :=
  c_state y = CONN_CLOSED ∨ (n = 2%nat ∧ c_state y = CONN_RDHUP) ∨ drained X = Some (d, n).

Definition queues (p : proc) : list nat := p_conn_list p ++ p_close_list p.
Definition items_of (p : proc) : list nat := resolve_list p ++ p_pipe p.
Definition leg_is (b : bool) (p : proc) (c : nat) : bool :=
  match p_conns p !! c with Some (Some x) => Bool.eqb (c_remote x) b | _ => false end.
Definition count_legs (b : bool) (p : proc) : Z := Z.of_nat (length (List.filter (leg_is b p) (queues p))).
Definition live_item (p : proc) (r : nat) (i : resolve_item) : Prop := p_items p !! r = Some (Some i).

Section inv.
Context {E : Env}.

Record inv (X : stage) (p : proc) : Prop := Inv {
  i_nodup : NoDup (queues p ++ fresh X);
  i_live : ∀ c, (∃ x, live p c x) ↔ c ∈ queues p ++ fresh X;
  i_closed : ∀ c x, live p c x → c ∈ p_close_list p → c_state x = CONN_CLOSED;
  i_open : ∀ c x, live p c x → c_state x = CONN_CLOSED → c ∈ p_close_list p ++ fresh X;
  i_partner : ∀ c x d, live p c x → c_partner x = Some d →
    ∃ y, live p d y ∧ c_partner y = Some c ∧ c_remote y = negb (c_remote x);
  i_legs : ∀ c x, live p c x → leg_fits X (p_tp p) c x;
  i_late : ∀ c x n d y, live p c x → n = 2%nat ∨ n = 3%nat → holds x n → c_partner x = Some d → live p d y → late_ok X n d y;
  i_ri : ∀ c x r, live p c x → c_socks_ri x = Some r → ∃ i, live_item p r i ∧ ri_ptr i = Some c;
  i_ptr : ∀ r i c, live_item p r i → ri_ptr i = Some c → ∃ x, live p c x ∧ c_socks_ri x = Some r;
  i_inodup : NoDup (items_of p ++ taken_items X);
  i_items : ∀ r, (∃ i, live_item p r i) ↔ r ∈ items_of p ++ taken_items X;
  i_item : ∀ r i, live_item p r i → len (ri_dom i) <= 255 ∧ dest_ok (sa_addr (ri_ss i));
  i_local : legs_local p = count_legs false p;
  i_remote : legs_remote p = count_legs true p;
  i_tp : tpws_ok env_z_readfile (p_tp p)
}.

(** *** What is kept *)

(** the queues, the items and the counts are the same *)
Definition same_queues (p p' : proc) : Prop :=
  p_conn_list p' = p_conn_list p ∧ p_close_list p' = p_close_list p ∧ legs_local p' = legs_local p ∧
  legs_remote p' = legs_remote p ∧ p_items p' = p_items p ∧ resolve_list p' = resolve_list p ∧ p_pipe p' = p_pipe p ∧ p_listen p' = p_listen p.

(** a leg after a change that leaves its place alone: [x] before, [x'] after *)
Record leg_same (x x' : tproxy_conn) : Prop := LegSame {
  ls_remote : c_remote x' = c_remote x;
  ls_partner : c_partner x' = c_partner x;
  ls_ri : c_socks_ri x' = c_socks_ri x;
  ls_closed : c_state x' = CONN_CLOSED ↔ c_state x = CONN_CLOSED;
  ls_rdhup : c_state x = CONN_RDHUP → c_state x' = CONN_RDHUP;
  ls_holds : ∀ n, n = 2%nat ∨ n = 3%nat → holds x' n → holds x n
}.
(** every leg of [p] is one of [p'], changed like that, and the other way round *)
Definition legs_same (p p' : proc) : Prop :=
  (∀ c x, live p c x → ∃ x', live p' c x' ∧ leg_same x x') ∧
  (∀ c x', live p' c x' → ∃ x, live p c x ∧ leg_same x x').

Lemma leg_is_same b p p' : legs_same p p' → ∀ c, leg_is b p' c = leg_is b p c.
Proof.
  intros [H1 H2] c. unfold leg_is. destruct (p_conns p !! c) as [[x|]|] eqn:E1.
  - destruct (H1 c x E1) as (x' & E2 & Hs). unfold live in E2. by rewrite E2, (ls_remote _ _ Hs).
  - destruct (p_conns p' !! c) as [[x'|]|] eqn:E2; [|done..]. destruct (H2 c x' E2) as (x & E3 & _). unfold live in E3. congruence.
  - destruct (p_conns p' !! c) as [[x'|]|] eqn:E2; [|done..]. destruct (H2 c x' E2) as (x & E3 & _). unfold live in E3. congruence.
Qed.
Lemma count_same b p p' : legs_same p p' → queues p' = queues p → count_legs b p' = count_legs b p.
Proof. intros H Eq. unfold count_legs. rewrite Eq. do 2 f_equal. apply filter_ext. by apply leg_is_same. Qed.

Lemma inv_same X p p' :
  inv X p → same_queues p p' → legs_same p p' →
  (∀ c x x', live p c x → live p' c x' → leg_fits X (p_tp p) c x → leg_fits X (p_tp p') c x') →
  tpws_ok env_z_readfile (p_tp p') → inv X p'.
Proof.
  intros I (Q1 & Q2 & Q3 & Q4 & Q5 & Q6 & Q7 & _) [L1 L2] Hfit Htp.
  assert (Eq : queues p' = queues p) by (unfold queues; congruence).
  assert (Ei : items_of p' = items_of p) by (unfold items_of; congruence).
  assert (Hli : ∀ r i, live_item p' r i ↔ live_item p r i) by (intros; unfold live_item; by rewrite Q5).
  assert (L : legs_same p p') by done.
  split.
  - rewrite Eq. apply I.
  - intros c. rewrite Eq, <- (i_live _ _ I). split; intros [x Hx]; [destruct (L2 _ _ Hx) as (y & Hy & _)|destruct (L1 _ _ Hx) as (y & Hy & _)]; eauto.
  - intros c x' Hx' Hc. rewrite Q2 in Hc. destruct (L2 _ _ Hx') as (x & Hx & Hs). apply (ls_closed _ _ Hs). by eapply i_closed.
  - intros c x' Hx' Hc. rewrite Q2. destruct (L2 _ _ Hx') as (x & Hx & Hs). apply (ls_closed _ _ Hs) in Hc. by eapply i_open.
  - intros c x' d Hx' Hd. destruct (L2 _ _ Hx') as (x & Hx & Hs). rewrite (ls_partner _ _ Hs) in Hd.
    destruct (i_partner _ _ I _ _ _ Hx Hd) as (y & Hy & Hp & Hr). destruct (L1 _ _ Hy) as (y' & Hy' & Hs').
    exists y'. split; [done|]. by rewrite (ls_partner _ _ Hs'), (ls_remote _ _ Hs'), (ls_remote _ _ Hs).
  - intros c x' Hx'. destruct (L2 _ _ Hx') as (x & Hx & Hs). eapply Hfit; [done..|]. by apply I.
  - intros c x' n d y' Hx' Hn Hh Hd Hy'. destruct (L2 _ _ Hx') as (x & Hx & Hs). destruct (L2 _ _ Hy') as (y & Hy & Hsy).
    rewrite (ls_partner _ _ Hs) in Hd. apply (ls_holds _ _ Hs) in Hh; [|done].
    destruct (i_late _ _ I _ _ _ _ _ Hx Hn Hh Hd Hy) as [Hc|[[-> Hc]|Hc]].
    + left. by apply (ls_closed _ _ Hsy).
    + right; left. split; [done|]. by apply (ls_rdhup _ _ Hsy).
    + right; by right.
  - intros c x' r Hx' Hr. destruct (L2 _ _ Hx') as (x & Hx & Hs). rewrite (ls_ri _ _ Hs) in Hr.
    destruct (i_ri _ _ I _ _ _ Hx Hr) as (i & Hi & Hp). exists i. by rewrite Hli.
  - intros r i c Hi Hp. apply Hli in Hi. destruct (i_ptr _ _ I _ _ _ Hi Hp) as (x & Hx & Hr).
    destruct (L1 _ _ Hx) as (x' & Hx' & Hs). exists x'. by rewrite (ls_ri _ _ Hs).
  - rewrite Ei. apply I.
  - intros r. rewrite Ei, <- (i_items _ _ I). split; intros [i Hi]; exists i; by apply Hli.
  - intros r i Hi. apply Hli in Hi. by eapply i_item.
  - rewrite Q3, (count_same _ _ _ L Eq). apply I.
  - rewrite Q4, (count_same _ _ _ L Eq). apply I.
  - done.
Qed.

(** *** Legs that stay where they are *)

Lemma leg_same_refl x : leg_same x x.
Proof. by split. Qed.
Lemma nview_leg_same x x' : nview x' = nview x → (∀ n, n = 2%nat ∨ n = 3%nat → holds x' n → holds x n) → leg_same x x'.
Proof. unfold nview, core. intros [= H1 H2 H3 H4 H5 H6 H7 H8 H9] Hh. split; try congruence; [by rewrite H2|done]. Qed.

Lemma proj_live {A} (f : tproxy_conn → A) p p' c x' :
  proj f (p_conns p') = proj f (p_conns p) → live p' c x' → ∃ x, live p c x ∧ f x' = f x.
Proof. intros H Hx. destruct (live_kept f p' p c x' (eq_sym H) Hx) as (x & Hx0 & Hf). by exists x. Qed.

(** buffers of legs that change: not more of the late ones are held *)
Lemma calm_inv X p p' :
  inv X p → calm p p' →
  (∀ c x x', live p c x → live p' c x' →
     (∀ n, n = 2%nat ∨ n = 3%nat → holds x' n → holds x n) ∧
     (length (c_wr_buf x') = 4%nat ∧ Forall sb_ok (c_wr_buf x')) ∧ (unborn x → unborn x')) →
  inv X p'.
Proof.
  intros I [Hf Hn] Hb. unfold frame in Hf. injection Hf as F1 F2 F3 F4 F5 F6 F7 F8 F9.
  apply (inv_same X p); [done| | | |by rewrite F5; apply I].
  - by repeat split.
  - split; intros c x Hx.
    + destruct (live_kept _ _ _ _ _ Hn Hx) as (x' & Hx' & E'). exists x'. split; [done|]. apply nview_leg_same; [done|]. by eapply Hb.
    + destruct (proj_live _ _ _ _ _ Hn Hx) as (x0 & Hx0 & E'). exists x0. split; [done|]. apply nview_leg_same; [done|]. by eapply Hb.
  - intros c x x' Hx Hx' [L1 L2 L3 L4 L5]. rewrite F5. destruct (Hb _ _ _ Hx Hx') as (H1 & H2 & H3).
    destruct (live_kept _ _ _ _ _ Hn Hx) as (x2 & Hx2 & E2). unfold live in *. rewrite Hx' in Hx2. injection Hx2 as <-.
    unfold nview, core in E2. injection E2 as N1 N2 N3 N4 N5 N6 N7 N8 N9.
    split; [by rewrite N1, N3|by rewrite N3, N5, N6| |done|by rewrite N7, N8]. unfold early. rewrite N2, N3, N5. intros Hy Hc Hd. by apply H3, L3.
Qed.
Lemma still_inv X p p' : inv X p → still p p' → inv X p'.
Proof.
  intros I [Hc Hb]. apply (calm_inv X p); [done..|]. intros c x x' Hx Hx'.
  destruct (live_kept _ _ _ _ _ Hb Hx) as (x2 & Hx2 & E2). destruct (calm_live _ _ _ _ Hc Hx) as (x3 & Hx3 & E3).
  unfold live in *. rewrite Hx' in Hx2, Hx3. injection Hx2 as <-. injection Hx3 as <-. unfold holds, unborn, conn_buffers_present.
  rewrite E2. split; [done|]. split; [by eapply lf_bufs, i_legs|]. unfold nview, core in E3. injection E3 as _ _ _ N4 _ _ N7 _ _. by rewrite N4, N7.
Qed.
Lemma called_inv X p p' : inv X p → called p p' → inv X p'.
Proof. intros I [S H]. by eapply still_inv, calls_still. Qed.
Lemma at_leg_inv X p p' d y y' :
  inv X p → at_leg d p p' → live p d y → live p' d y' →
  (∀ n, n = 2%nat ∨ n = 3%nat → holds y' n → holds y n) →
  length (c_wr_buf y') = 4%nat → Forall sb_ok (c_wr_buf y') → (unborn y → unborn y') → inv X p'.
Proof.
  intros I [Hc Ho] Hy Hy' Hh Hl Hok Hu. apply (calm_inv X p); [done..|]. intros c x x' Hx Hx'.
  destruct (decide (c = d)) as [->|Hne].
  - unfold live in *. rewrite Hy in Hx. rewrite Hy' in Hx'. by simplify_eq.
  - unfold live in *. rewrite Ho in Hx' by done. rewrite Hx in Hx'. injection Hx' as <-. split; [done|]. split; [|done]. by eapply lf_bufs, i_legs.
Qed.

(** one leg changes *)
Lemma set_inv X p c x g : inv X p → live p c x → leg_same x (g x) → leg_fits X (p_tp p) c (g x) →
  inv X (p <| p_conns := alter (fmap g) c (p_conns p) |>).
Proof.
  intros I Hx Hs Hfit. set (p' := p <| p_conns := _ |>).
  assert (Hl : ∀ d y, live p d y → live p' d (if decide (c = d) then g y else y)) by (intros; by apply live_set).
  apply (inv_same X p); [done|by repeat split| | |apply I].
  - split.
    + intros d y Hy. eexists. split; [by apply Hl|]. case_decide; [|apply leg_same_refl]. subst d. unfold live in *. by simplify_eq.
    + intros d y' Hy'. destruct (decide (c = d)) as [<-|Hne].
      * exists x. split; [done|]. specialize (Hl _ _ Hx). rewrite decide_True in Hl by done. unfold live in *. rewrite Hl in Hy'. by simplify_eq.
      * exists y'. split; [|apply leg_same_refl]. unfold live in *. simpl in Hy'. by rewrite list_lookup_alter_ne in Hy'.
  - intros d y y' Hy Hy' Hf. specialize (Hl _ _ Hy). unfold live in *. rewrite Hl in Hy'. injection Hy' as <-.
    case_decide; [|done]. subst d. rewrite Hx in Hy. by injection Hy as <-.
Qed.

(** tpws has learned something, about a connection too *)
Lemma tp_inv X p st : inv X p → keeps env_z_readfile (p_tp p) st → inv X (p <| p_tp := st |>).
Proof.
  intros I K. apply (inv_same X p); [done|by repeat split| | |apply K].
  - split; intros c x Hx; exists x; by split; [|apply leg_same_refl].
  - intros c x x' Hx Hx' [L1 L2 L3 L4 [L5 L6]]. unfold live in *. simpl in Hx'. simplify_eq. split; [done..|]. split; [|done]. by apply K.
Qed.

(** *** What later events may rely on

    A leg is still there; it has not hung up unless [T] says so; what is in
    the pipe stays there unless [T] says so. *)
Definition later (T : target → Prop) (p p' : proc) : Prop :=
  (∀ c x, live p c x → ∃ x', live p' c x' ∧ (c_state x' = CONN_RDHUP → c_state x = CONN_RDHUP ∨ T (T_CONN c))) ∧
  (p_pipe p ≠ [] → p_pipe p' ≠ [] ∨ T T_RESOLVE_PIPE) ∧ length (p_listen p') = length (p_listen p).
Lemma later_pipe T p p' :
  (∀ c x, live p c x → ∃ x', live p' c x' ∧ (c_state x' = CONN_RDHUP → c_state x = CONN_RDHUP ∨ T (T_CONN c))) →
  (p_pipe p', p_listen p') = (p_pipe p, p_listen p) → later T p p'.
Proof. intros H [= Ep El]. split; [done|]. rewrite Ep, El. split; [by left|done]. Qed.
Lemma later_refl T p : later T p p.
Proof. apply later_pipe; [|done]. intros c x Hx. exists x. auto. Qed.
Lemma later_trans T p1 p2 p3 : later T p1 p2 → later T p2 p3 → later T p1 p3.
Proof.
  intros (H1 & E1 & N1) (H2 & E2 & N2). split; [|split; [|congruence]].
  - intros c x Hx. destruct (H1 _ _ Hx) as (x1 & Hx1 & Hr1).
    destruct (H2 _ _ Hx1) as (x2 & Hx2 & Hr2). exists x2. split; [done|]. intros [H|H]%Hr2; auto.
  - intros [H|H]%E1; auto.
Qed.
Lemma later_mono (T T' : target → Prop) p p' : (∀ c, T c → T' c) → later T p p' → later T' p p'.
Proof.
  intros HT (H & E' & N). split; [|split; [|done]].
  - intros c x Hx. destruct (H _ _ Hx) as (x' & Hx' & Hr). exists x'. split; [done|]. intros [?|?]%Hr; auto.
  - intros [?|?]%E'; auto.
Qed.
Lemma calm_later T p p' : calm p p' → later T p p'.
Proof.
  intros Hc. apply later_pipe.
  - intros c x Hx. destruct (calm_live _ _ _ _ Hc Hx) as (x' & Hx' & N). exists x'. split; [done|]. unfold nview, core in N.
    injection N as _ N2 _ _ _ _ _ _ _. rewrite N2. by left.
  - destruct Hc as [Hf _]. unfold frame in Hf. congruence.
Qed.
Lemma still_later T p p' : still p p' → later T p p'.
Proof. intros [H _]. by apply calm_later. Qed.
Lemma called_later T p p' : called p p' → later T p p'.
Proof. intros [S H]. eapply still_later. by eapply calls_still. Qed.
Lemma set_later (T : target → Prop) p c x g : live p c x → (c_state (g x) = CONN_RDHUP → c_state x = CONN_RDHUP ∨ T (T_CONN c)) →
  later T p (p <| p_conns := alter (fmap g) c (p_conns p) |>).
Proof.
  intros Hx Hs. apply later_pipe; [|done]. intros d y Hy. eexists. split; [by apply live_set|]. case_decide; [|by left].
  subst d. unfold live in *. rewrite Hx in Hy. by injection Hy as <-.
Qed.
End inv.
#[export] Hint Resolve later_refl calm_later still_later called_later : core.

(** ** Operations that leave the legs where they are *)

Section still.
Context {K : Kernel} {KO : KernelOk K} {E : Env} (params : tp_params).

Lemma still_called p p' : called p p' → still p p'.
Proof. intros [S H]. by eapply calls_still. Qed.
Lemma silent_called {A} (m : M A) p : silent m → wps m p (λ _ p', called p p').
Proof. intros H. eapply wps_mono; [apply H|]. intros a p' Hc. exact (calls_called _ _ _ Hc). Qed.
Lemma after_called c p : called p (after c p).
Proof. eapply calls_called. apply after_calls. Qed.
Lemma set_still_live p c x g : live p c x → nview (g x) = nview x → c_wr_buf (g x) = c_wr_buf x →
  still p (p <| p_conns := alter (fmap g) c (p_conns p) |>).
Proof. intros Hx H1 H2. apply set_still. intros y Hy. unfold live in *. rewrite Hx in Hy. by injection Hy as <-. Qed.

(** a step that only calls; a step that sets a field that does not matter *)
Lemma wps_still_set c x g p (Q : unit → proc → Prop) : live p c x → nview (g x) = nview x → c_wr_buf (g x) = c_wr_buf x →
  (∀ p', still p p' → live p' c (g x) → Q tt p') → wps (conn_set c g) p Q.
Proof. intros Hx H1 H2 HQ. apply (wps_live_set _ _ x); [done|]. apply HQ; [by eapply set_still_live|by apply live_set_eq]. Qed.

Lemma st_epoll_set c x ev p : live p c x → wps (epoll_set c ev) p (λ _ p', called p p').
Proof.
  intros Hx. unfold epoll_set. apply wps_bind, (wps_live _ _ x); [done|]. apply silent_called.
  apply silent_bind; [by apply silent_sysret|]. intros r. destruct (negb _); [apply silent_ret|].
  apply silent_bind; [by apply silent_sysret|]. intros r'. apply silent_ret.
Qed.
Lemma st_epoll_del c x p : live p c x → wps (epoll_del c) p (λ _ p', called p p').
Proof.
  intros Hx. unfold epoll_del. apply wps_bind, (wps_live _ _ x); [done|]. apply silent_called.
  apply silent_bind; [by apply silent_sysret|]. intros r. apply silent_ret.
Qed.
Lemma st_update_flow c x p : live p c x → wps (epoll_update_flow c) p (λ _ p', still p p').
Proof.
  intros Hx. unfold epoll_update_flow. apply wps_bind, (wps_live _ _ x); [done|]. cbv zeta.
  destruct (_ && _); [by apply wps_ret|]. apply wps_bind. eapply wps_mono; [by eapply st_epoll_set|]. intros ok p1 H1.
  pose proof (called_live _ _ _ _ H1 Hx) as Hx1. destruct ok; simpl; [|by apply wps_ret, still_called].
  apply wps_bind, (wps_still_set _ x); [done..|]. intros p2 H2 _. apply wps_ret. eapply still_trans; [by apply still_called|done].
Qed.
Lemma st_set_flow c x a b p : live p c x → wps (epoll_set_flow c a b) p (λ _ p', still p p').
Proof.
  intros Hx. unfold epoll_set_flow. apply wps_bind, (wps_still_set _ x); [done..|]. intros p1 H1 Hx1.
  eapply wps_mono; [by eapply st_update_flow|]. intros ok p2 H2. by eapply still_trans.
Qed.
(** the partner, if it is alive *)
Lemma wps_partner X p c x (Q : option (nat * tproxy_conn) → proc → Prop) :
  inv X p → live p c x →
  ((∀ d y, c_partner x = Some d → live p d y → c_state y = CONN_CLOSED) → Q None p) →
  (∀ d y, c_partner x = Some d → live p d y → c_partner y = Some c → c_remote y = negb (c_remote x) → c ≠ d →
     c_state y ≠ CONN_CLOSED → Q (Some (d, y)) p) →
  wps (alive_partner x) p Q.
Proof.
  intros I Hx HN HS. unfold alive_partner. destruct (c_partner x) as [d|] eqn:Ed; [|by apply wps_ret, HN].
  destruct (i_partner _ _ I _ _ _ Hx Ed) as (y & Hy & Hp & Hr). apply wps_bind, (wps_live _ _ y); [done|].
  case_bool_decide as Hs; apply wps_ret.
  - apply HN. intros ? y' [= <-] Hy'. unfold live in *. congruence.
  - apply HS; [done..| |done]. intros ->. unfold live in *. rewrite Hx in Hy. injection Hy as <-. by destruct (c_remote x).
Qed.
Lemma st_flow_pair X c x p : inv X p → live p c x → wps (epoll_set_flow_pair c) p (λ _ p', still p p').
Proof.
  intros I Hx. unfold epoll_set_flow_pair. apply wps_bind, (wps_live _ _ x); [done|]. cbv zeta. apply wps_bind.
  eapply (wps_partner X); [done..| |].
  - intros _. apply wps_bind. eapply wps_mono; [by eapply st_set_flow|]. intros ok p1 H1. by destruct ok; apply wps_ret.
  - intros d y _ Hy _ _ _ _. apply wps_bind. eapply wps_mono; [by eapply st_set_flow|]. intros ok p1 H1.
    destruct ok; simpl; [|by apply wps_ret]. destruct (still_live _ _ _ _ H1 Hy) as (y1 & Hy1 & _).
    eapply wps_mono; [by eapply st_set_flow|]. intros ok p2 H2. by eapply still_trans.
Qed.
Lemma st_shutdown c x p : live p c x → wps (conn_shutdown c) p (λ _ p', still p p').
Proof.
  intros Hx. unfold conn_shutdown. apply wps_bind, (wps_still_set _ x); [done..|]. intros p1 H1 Hx1.
  apply wps_bind, (wps_live _ _ _ _ Hx1), wps_sys_ok. eapply still_trans; [done|]. apply still_called, after_called.
Qed.
Lemma st_unread x p : wps (conn_bytes_unread x) p (λ n p', called p p' ∧ n < 2 ^ 31).
Proof.
  unfold conn_bytes_unread. apply wps_bind, wps_sys, wps_ret. split; [apply after_called|].
  pose proof (k_unread (p_trace p) (c_fd x)). unfold kernel. destruct (_ <? 0); lia.
Qed.
Lemma st_delayed_shutdown X c x p : inv X p → live p c x → wps (delayed_shutdown c) p (λ _ p', still p p').
Proof.
  intros I Hx. unfold delayed_shutdown. apply wps_bind, (wps_live _ _ x); [done|]. apply wps_bind.
  eapply (wps_partner X); [done..|by intros _; apply wps_ret|]. intros d y _ Hy _ _ _ _. destruct (_ && _); [|by apply wps_ret].
  destruct (bShutdown x).
  - by apply wps_bind, wps_ret, wps_ret.
  - apply wps_bind. eapply wps_mono; [by eapply st_shutdown|]. intros ok p1 H1. by destruct ok; apply wps_ret.
Qed.
Lemma st_unsent_pipe c x p : live p c x → wps (unsent_pipe params c) p (λ _ p', still p p').
Proof.
  intros Hx. unfold unsent_pipe. apply wps_bind, (wps_live _ _ x); [done|]. destruct (_ && _); [|by apply wps_ret].
  apply wps_bind, wps_sysret, wps_bind. set (p1 := after _ p). assert (H1 : called p p1) by apply after_called.
  eapply wps_mono; [apply wps_or_again|]. intros wr ? [-> _]. destruct (wr <? 0); [by apply wps_ret, still_called|].
  apply wps_bind, (wps_still_set _ x); [by eapply called_live|done..|]. intros p2 H2 _. apply wps_ret.
  eapply still_trans; [by apply still_called|done].
Qed.
Lemma st_count_written d y wr p : live p d y → wps (count_written d wr) p (λ _ p', still p p').
Proof. intros Hy. by apply (wps_still_set _ y). Qed.
Lemma st_count_read c x rd p : live p c x → wps (count_read c rd) p (λ _ p', still p p').
Proof. intros Hx. by apply (wps_still_set _ x). Qed.
Lemma st_waste c x p : live p c x → wps (waste c) p (λ _ p', still p p').
Proof.
  intros Hx. unfold waste. apply wps_bind, (wps_live _ _ x); [done|].
  apply (wps_loop (λ trd p', 0 <= trd ∧ still p p' ∧ (∃ x', live p' c x')) (λ trd _, Z.max 0 (MAX_WASTE - trd))).
  - intros. lia.
  - intros trd p1 (Ht & H1 & x1 & Hx1). unfold waste_step. apply wps_bind, wps_sysret. set (p2 := after _ p1).
    assert (H2 : called p1 p2) by apply after_called. assert (H12 : still p p2) by (eapply still_trans; [done|by apply still_called]).
    destruct (Z.ltb_spec 0 (r_ret (kernel (p_trace p1) (Recv (c_fd x) WASTE_SIZE)))); simpl; [|by apply wps_ret].
    destruct (Z.ltb_spec trd MAX_WASTE); [|by apply wps_ret]. apply wps_bind, (wps_still_set _ x1); [by eapply called_live|done..|].
    intros p3 H3 Hx3. apply wps_ret. split; [|lia]. split; [lia|]. split; [by eapply still_trans|by eexists].
  - split; [done|]. split; [done|]. by exists x.
  - rewrite Z.max_r by (unfold MAX_WASTE; lia). lia.
Qed.
Lemma st_splice_leg c d x y p : live p c x → live p d y → wps (splice_leg c d) p (λ _ p', still p p').
Proof.
  intros Hx Hy. unfold splice_leg. apply wps_bind, (wps_live _ _ x); [done|]. apply wps_bind, (wps_live _ _ y); [done|].
  apply wps_bind, wps_sysret, wps_bind. set (p1 := after _ p). assert (H1 : called p p1) by apply after_called.
  eapply wps_mono; [apply wps_or_again|]. intros rd ? [-> _]. apply wps_bind, wps_when; [|by intros _; apply wps_ret, still_called].
  intros _. apply wps_bind. eapply wps_mono; [eapply st_count_read; by eapply called_live|]. intros [] p2 H2.
  destruct (still_live _ _ _ _ H2 (called_live _ _ _ _ H1 Hy)) as (y2 & Hy2 & _).
  apply wps_bind, (wps_still_set _ y2); [done..|]. intros p3 H3 Hy3. apply wps_bind, (wps_live _ _ _ _ Hy3).
  apply wps_bind, wps_sysret, wps_bind. set (p4 := after _ p3). assert (H4 : called p3 p4) by apply after_called.
  assert (H04 : still p p4) by (eapply still_trans; [by apply still_called|]; eapply still_trans; [done|]; eapply still_trans; [done|by apply still_called]).
  eapply wps_mono; [apply wps_or_again|]. intros wr ? [-> _]. apply wps_when; [|by intros _; apply wps_ret].
  intros _. eapply (wps_still_set _ _ _ _ _ (called_live _ _ _ _ H4 Hy3)); [done..|]. intros p5 H5 _. apply wps_ret. by eapply still_trans.
Qed.
End still.

(** ** Operations that leave every leg in its queue, with its partner *)

Definition place (x : tproxy_conn) := (c_remote x, c_state x, c_partner x, c_socks_ri x).
Record mild (p p' : proc) : Prop := Mild {
  md_queues : same_queues p p';
  md_conns : proj place (p_conns p') = proj place (p_conns p)
}.
Lemma mild_refl p : mild p p.
Proof. by repeat split. Qed.
Lemma mild_trans p1 p2 p3 : mild p1 p2 → mild p2 p3 → mild p1 p3.
Proof. intros [Q1 E1] [Q2 E2]. split; [|congruence]. unfold same_queues in *. naive_solver congruence. Qed.
Lemma mild_live p p' c x : mild p p' → live p c x → ∃ x', live p' c x' ∧ place x' = place x.
Proof. intros [_ H]. by apply live_kept. Qed.
Lemma mild_later T p p' : mild p p' → later T p p'.
Proof.
  intros Hm. apply later_pipe; [|by destruct Hm as [(_ & _ & _ & _ & _ & _ & -> & ->) _]]. intros c x Hx. destruct (mild_live _ _ _ _ Hm Hx) as (x' & Hx' & Ep).
  exists x'. split; [done|]. unfold place in Ep. injection Ep as _ -> _ _. by left.
Qed.
Lemma proj_map {A B} (f : tproxy_conn → A) (g : A → B) l l' : proj f l' = proj f l → proj (λ x, g (f x)) l' = proj (λ x, g (f x)) l.
Proof.
  unfold proj. intros H. apply (f_equal (fmap (M:=list) (fmap (M:=option) g))) in H. rewrite <- !list_fmap_compose in H.
  etransitivity; [|etransitivity; [exact H|]]; apply list_fmap_ext; intros _ [] _; done.
Qed.
Lemma calm_mild p p' : calm p p' → mild p p'.
Proof.
  intros [Hf Hn]. unfold frame in Hf. injection Hf as F1 F2 F3 F4 F5 F6 F7 F8 F9. split; [by repeat split|].
  apply (proj_map nview (λ v, (v.1.1.1.1.1.1.1.1, v.1.1.1.1.1.1.1.2, v.1.1.1.1.1.2, v.1.1.1.2)) _ _ Hn).
Qed.
Lemma still_mild p p' : still p p' → mild p p'.
Proof. intros [H _]. by apply calm_mild. Qed.
Lemma set_mild p c x g : live p c x → place (g x) = place x → mild p (p <| p_conns := alter (fmap g) c (p_conns p) |>).
Proof.
  intros Hx Hp. split; [by repeat split|]. apply alter_kept. intros y Hy. unfold live in *. rewrite Hx in Hy. by injection Hy as <-.
Qed.
Lemma tp_mild p st : mild p (p <| p_tp := st |>).
Proof. by repeat split. Qed.
#[export] Hint Resolve mild_refl calm_mild still_mild mild_later : core.

Section mild.
Context {K : Kernel} {KO : KernelOk K} {E : Env} (params : tp_params).

(** what is promised of such an operation *)
Definition settled (X : stage) (p p' : proc) : Prop := inv X p' ∧ mild p p'.
Lemma settled_trans X p1 p2 p3 : mild p1 p2 → settled X p2 p3 → settled X p1 p3.
Proof. intros H1 [H2 H3]. split; [done|]. by eapply mild_trans. Qed.
Lemma still_settled X p p' : inv X p → still p p' → settled X p p'.
Proof. intros I H. split; [by eapply still_inv|by apply still_mild]. Qed.
Lemma settled_refl X p : inv X p → settled X p p.
Proof. by split. Qed.

Lemma wps_set X p c x g (Q : unit → proc → Prop) :
  inv X p → live p c x → leg_same x (g x) → leg_fits X (p_tp p) c (g x) → place (g x) = place x →
  (∀ p', settled X p p' → p_tp p' = p_tp p → live p' c (g x) → Q tt p') → wps (conn_set c g) p Q.
Proof.
  intros I Hx Hs Hfit Hp HQ. apply (wps_live_set _ _ x); [done|]. apply HQ; [|done|by apply live_set_eq].
  split; [by eapply set_inv|by eapply set_mild].
Qed.

(** buffers: none of the late ones comes up *)
Lemma wps_unsent_buffers X p c x : inv X p → live p c x →
  wps (unsent_buffers params c) p (λ _ p', inv X p' ∧ calm p p').
Proof.
  intros I Hx. unfold unsent_buffers. apply wps_bind, (wps_live _ _ x); [done|].
  destruct (_ && _) eqn:Eb; [|by apply wps_ret]. apply andb_true_iff in Eb as [_ Eb]. apply wps_bind.
  destruct (lf_bufs _ _ _ _ (i_legs _ _ I _ _ Hx)) as [Hl Hok].
  eapply wps_mono; [by apply wps_conn_buffers_send|]. intros w p1 (Ha & y & Hy & Hok' & H2 & _). apply wps_ret.
  split; [|apply Ha]. eapply (at_leg_inv X p p1 c x y); [done..| | |done|].
  - intros n _ (sb' & Es & Hp'). destruct (Forall2_lookup_r _ _ _ _ _ H2 Es) as (sb & Es0 & Himp). exists sb. auto.
  - by rewrite <- (Forall2_length _ _ _ H2).
  - unfold unborn. rewrite Eb. by intros (_ & ? & _).
Qed.
Lemma wps_handle_unsent X p c x : inv X p → live p c x →
  wps (handle_unsent params c) p (λ _ p', inv X p' ∧ calm p p').
Proof.
  intros I Hx. unfold handle_unsent. apply wps_bind. cbn [steps]. apply wps_bind.
  eapply wps_mono; [by eapply st_unsent_pipe|]. intros ok p1 H1. pose proof (still_inv _ _ _ I H1) as I1.
  destruct (still_live _ _ _ _ H1 Hx) as (x1 & Hx1 & _). pose proof (sl_calm _ _ H1) as C1.
  destruct ok; [|by do 2 apply wps_ret]. apply wps_bind. eapply wps_mono; [by eapply wps_unsent_buffers|].
  intros ok p2 [I2 H2]. destruct (calm_live _ _ _ _ H2 Hx1) as (x2 & Hx2 & _).
  assert (C2 : calm p p2) by by eapply calm_trans. destruct ok; [|by do 2 apply wps_ret].
  apply wps_bind. eapply wps_mono; [by eapply st_delayed_shutdown|]. intros ok p3 H3.
  destruct (still_live _ _ _ _ H3 Hx2) as (x3 & Hx3 & _). pose proof (still_inv _ _ _ I2 H3) as I3.
  assert (C3 : calm p p3) by (eapply calm_trans; [done|apply H3]). destruct ok; [|by do 2 apply wps_ret].
  apply wps_ret. eapply wps_mono; [by eapply st_flow_pair|]. intros ok p4 H4.
  split; [by eapply still_inv|eapply calm_trans; [done|apply H4]].
Qed.

(** ** Closing *)

Definition ends_with (c : nat) (X : stage) : Prop :=
  (dying X = None ∨ dying X = Some c) ∧ (drained X = None ∨ ∃ n, drained X = Some (c, n)).
Definition over (X : stage) : stage := X <| dying := None |> <| drained := None |>.

Lemma tailq_remove_in c l : c ∈ l → tailq_remove c l = Some (filter (λ d, d ≠ c) l).
Proof. intros H. unfold tailq_remove. by rewrite bool_decide_true. Qed.
Lemma filter_ne_id (c : nat) (l : list nat) : c ∉ l → filter (λ d, d ≠ c) l = l.
Proof.
  induction l as [|d l IH]; [done|]. intros Hc. rewrite filter_cons, decide_True by set_solver. f_equal. apply IH. set_solver.
Qed.
Lemma filter_ne_perm (c : nat) (l : list nat) : NoDup l → c ∈ l → l ≡ₚ c :: filter (λ d, d ≠ c) l.
Proof.
  induction l as [|d l IH]; [by intros _ ?%not_elem_of_nil|]. intros [Hd Hn]%NoDup_cons Hc. rewrite filter_cons.
  destruct (decide (d = c)) as [->|Hne].
  - rewrite decide_False by auto. by rewrite filter_ne_id.
  - rewrite decide_True by done. apply elem_of_cons in Hc as [->|Hc]; [done|]. rewrite (IH Hn Hc) at 1. constructor.
Qed.

Lemma count_perm b p p' : queues p' ≡ₚ queues p → (∀ c, c ∈ queues p → leg_is b p' c = leg_is b p c) → count_legs b p' = count_legs b p.
Proof.
  unfold count_legs. intros Hp Hl. f_equal. 
  assert (Hq : List.filter (leg_is b p') (queues p') ≡ₚ List.filter (leg_is b p') (queues p)).
  { clear Hl. induction Hp as [|d l l' _ IH|d e l|l1 l2 l3 _ IH1 _ IH2]; simpl; [done| | |by etransitivity].
    - destruct (leg_is b p' d); by rewrite IH.
    - destruct (leg_is b p' d), (leg_is b p' e); done || apply perm_swap. }
  rewrite (Permutation_length Hq). f_equal. apply filter_ext_in. intros c Hc. apply Hl. by apply list_elem_of_In.
Qed.

Lemma over_inv X p c x : inv X p → live p c x → c_state x = CONN_CLOSED → ends_with c X → inv (over X) p.
Proof.
  intros I Hx Hc [Hd Hr]. destruct I. split; try done.
  - intros d y Hy. destruct (i_legs0 d y Hy) as [L1 L2 L3 L4 L5]. split; try done. intros He Hs _. apply L3; [done..|].
    destruct Hd as [->| ->]; [done|]. intros [= <-]. unfold live in *. rewrite Hx in Hy. injection Hy as <-. done.
  - intros d y n e z Hy Hn Hh He Hz. destruct (i_late0 d y n e z Hy Hn Hh He Hz) as [?|[?|Hdr]]; [by left|by right; left|].
    left. destruct Hr as [E0|[m E0]]; rewrite E0 in Hdr; [done|]. injection Hdr as -> ->. unfold live in *. rewrite Hx in Hz. by injection Hz as <-.
Qed.
Lemma open_listed X p c x : inv X p → live p c x → c_state x ≠ CONN_CLOSED → c ∉ fresh X → c ∈ p_conn_list p.
Proof.
  intros I Hx Hc Hf. assert (Hq : c ∈ queues p ++ fresh X) by (apply I; by exists x). unfold queues in Hq.
  rewrite !elem_of_app in Hq. destruct Hq as [[?|Hq]|?]; [done| |done]. by destruct (i_closed _ _ I _ _ Hx Hq).
Qed.
Lemma close_perm X p c : inv X p → c ∈ p_conn_list p →
  filter (λ d, d ≠ c) (p_conn_list p) ++ p_close_list p ++ [c] ≡ₚ queues p.
Proof.
  intros I Hc. pose proof (i_nodup _ _ I) as Hn. unfold queues in *. rewrite !NoDup_app in Hn. destruct Hn as [[Hn _] _].
  rewrite (filter_ne_perm c (p_conn_list p)) at 2 by done. rewrite app_assoc, Permutation_app_comm. done.
Qed.

Definition shut (p : proc) (c : nat) : proc :=
  p <| p_conns := alter (fmap (λ x : tproxy_conn, x <| c_state := CONN_CLOSED |>)) c (p_conns p) |>
    <| p_conn_list := filter (λ d, d ≠ c) (p_conn_list p) |> <| p_close_list := p_close_list p ++ [c] |>.

Lemma shut_inv X p c x : inv X p → live p c x → c_state x ≠ CONN_CLOSED → c ∉ fresh X → ends_with c X → inv (over X) (shut p c).
Proof.
  intros I Hx Hc Hf He. pose proof (open_listed _ _ _ _ I Hx Hc Hf) as Hcl. pose proof (close_perm _ _ _ I Hcl) as Hperm.
  set (g := λ x : tproxy_conn, x <| c_state := CONN_CLOSED |>). set (p' := shut p c).
  assert (Hl : ∀ d y, live p d y → live p' d (if decide (c = d) then g y else y)) by (intros; by apply (live_set p c d g)).
  assert (Hb : ∀ d y', live p' d y' → ∃ y, live p d y ∧ y' = if decide (c = d) then g y else y).
  { intros d y' Hy'. destruct (decide (c = d)) as [<-|Hne].
    - exists x. split; [done|]. specialize (Hl _ _ Hx). rewrite decide_True in Hl by done. unfold live in *. congruence.
    - exists y'. split; [|done]. unfold live in *. simpl in Hy'. by rewrite list_lookup_alter_ne in Hy'. }
  assert (Hg : ∀ d y, let y' := if decide (c = d) then g y else y in c_partner y' = c_partner y ∧ c_remote y' = c_remote y ∧
    c_socks_ri y' = c_socks_ri y ∧ c_wr_buf y' = c_wr_buf y) by (intros d y; by destruct (decide (c = d))).
  assert (Hleg : ∀ b d, leg_is b p' d = leg_is b p d).
  { intros b d. unfold leg_is, p'. simpl. rewrite list_lookup_alter. case_decide; [|done]. subst d.
    destruct (p_conns p !! c) as [[y|]|]; done. }
  assert (Hq : queues p' ++ fresh X ≡ₚ queues p ++ fresh X) by (f_equiv; apply Hperm).
  split.
  - simpl. rewrite Hq. apply I.
  - intros d. simpl. rewrite Hq, <- (i_live _ _ I). split; intros [y Hy]; [destruct (Hb _ _ Hy) as (y0 & ? & _); eauto|eexists; by apply Hl].
  - intros d y' Hy' Hd. destruct (Hb _ _ Hy') as (y & Hy & ->). case_decide as E1; [done|]. simpl in Hd.
    apply elem_of_app in Hd as [Hd|Hd%list_elem_of_singleton]; [by eapply i_closed|done].
  - intros d y' Hy' Hd. destruct (Hb _ _ Hy') as (y & Hy & ->). simpl. case_decide as E1; [set_solver|].
    pose proof (i_open _ _ I _ _ Hy Hd). set_solver.
  - intros d y' e Hy' Hp. destruct (Hb _ _ Hy') as (y & Hy & ->).
    rewrite (proj1 (Hg d y)) in Hp. destruct (i_partner _ _ I _ _ _ Hy Hp) as (z & Hz & Hpz & Hrz).
    eexists. split; [by apply Hl|]. destruct (Hg d y) as (_ & -> & _), (Hg e z) as (-> & -> & _). done.
  - intros d y' Hy'. destruct (Hb _ _ Hy') as (y & Hy & ->). destruct (i_legs _ _ I _ _ Hy) as [L1 L2 L3 L4 L5].
    case_decide as E1; split; try done. intros Hea Hs _. apply L3; [done..|]. destruct (proj1 He) as [->| ->]; [done|congruence].
  - intros d y' n e z' Hy' Hn Hh Hp Hz'. destruct (Hb _ _ Hy') as (y & Hy & ->). destruct (Hb _ _ Hz') as (z & Hz & ->).
    destruct (Hg d y) as (Eg1 & _ & _ & Eg2). rewrite Eg1 in Hp. unfold holds in Hh. rewrite Eg2 in Hh. rename Hp into Hpy, Hh into Hhy. destruct (decide (c = e)) as [<-|Hne]; [by left|].
    destruct (i_late _ _ I _ _ _ _ _ Hy Hn Hhy Hpy Hz) as [?|[?|Hdr]]; [by left|by right; left|].
    destruct (proj2 He) as [E0|[m E0]]; rewrite E0 in Hdr; [done|]. congruence.
  - intros d y' r Hy' Hr. destruct (Hb _ _ Hy') as (y & Hy & ->). apply (i_ri _ _ I _ _ _ Hy). by rewrite <- (proj1 (proj2 (proj2 (Hg d y)))).
  - intros r i d Hi Hp. destruct (i_ptr _ _ I _ _ _ Hi Hp) as (y & Hy & Hr). eexists. split; [by apply Hl|].
    by rewrite (proj1 (proj2 (proj2 (Hg d y)))).
  - apply I.
  - apply I.
  - apply I.
  - simpl. rewrite (count_perm false p p'); [apply I|apply Hperm|done].
  - simpl. rewrite (count_perm true p p'); [apply I|apply Hperm|done].
  - apply I.
Qed.
Lemma live_alter p c x g d y' : live p c x → (p_conns p) !! d = p_conns p !! d →
  alter (fmap g) c (p_conns p) !! d = Some (Some y') → ∃ y, live p d y ∧ y' = if decide (c = d) then g y else y.
Proof.
  unfold live. intros Hx _. rewrite list_lookup_alter. case_decide; [|by eauto]. subst d. rewrite Hx. simpl. intros [= <-]. eauto.
Qed.
Lemma shut_later T p c : later T p (shut p c).
Proof.
  apply later_pipe; [|done]. intros d y Hy. eexists. split; [by apply (live_set p c d)|]. case_decide; [done|by left].
Qed.
Lemma wps_close T X p c x : inv X p → live p c x → c ∉ fresh X → ends_with c X →
  wps (close_tcp_conn c) p (λ _ p', inv (over X) p' ∧ later T p p' ∧ ∀ d y, d ≠ c → live p d y → live p' d y).
Proof.
  intros I Hx Hf He. unfold close_tcp_conn. apply wps_bind, (wps_live _ _ x); [done|]. case_bool_decide as Hc.
  { apply wps_ret. split; [by eapply over_inv|]. by split; [apply later_refl|]. }
  pose proof (open_listed _ _ _ _ I Hx Hc Hf) as Hl.
  apply wps_bind, (wps_live_set _ _ x); [done|]. apply wps_bind, wps_gets, wps_bind.
  apply (wps_deref _ (filter (λ d, d ≠ c) (p_conn_list p))); [by apply tailq_remove_in|]. apply wps_modify.
  change (inv (over X) (shut p c) ∧ later T p (shut p c) ∧ ∀ d y, d ≠ c → live p d y → live (shut p c) d y).
  split; [by eapply shut_inv|]. split; [apply shut_later|]. intros d y Hd Hy. unfold live in *. simpl. by rewrite list_lookup_alter_ne.
Qed.
Lemma over_rest : over at_rest = at_rest.
Proof. done. Qed.
Lemma rest_ends c X : dying X = None → drained X = None → ends_with c X.
Proof. intros H1 H2. split; by left. Qed.
Hint Resolve rest_ends : core.

Lemma wps_close_both T X p c x : inv X p → live p c x → fresh X = [] → dying X = None → drained X = None →
  wps (conn_close_both c) p (λ _ p', inv X p' ∧ later T p p').
Proof.
  intros I Hx Hf Hd Hr. assert (Ho : over X = X) by (destruct X; simpl in *; by subst).
  assert (Hc : ∀ d p1 y, later T p p1 → inv X p1 → live p1 d y → wps (close_tcp_conn d) p1 (λ _ p', inv X p' ∧ later T p p' ∧ ∀ e z, e ≠ d → live p1 e z → live p' e z)).
  { intros d p1 y L1 I1 Hy. eapply wps_mono; [by eapply (wps_close T X p1 d y); [..|rewrite Hf; by apply not_elem_of_nil|auto]|].
    rewrite Ho. intros [] p2 (I2 & L2 & H2). split; [done|]. split; [by eapply later_trans|done]. }
  unfold conn_close_both. apply wps_bind, (wps_live _ _ x); [done|]. apply wps_bind. eapply (wps_partner X); [done..| |].
  - intros _. apply wps_bind, wps_ret. eapply wps_mono; [by eapply Hc|]. by intros [] p1 (? & ? & _).
  - intros d y _ Hy _ _ Hne _. apply wps_bind. eapply wps_mono; [by eapply Hc|]. intros [] p1 (I1 & L1 & H1).
    eapply wps_mono; [eapply (Hc c p1 x); [done|done|by apply H1]|]. by intros [] p2 (? & ? & _).
Qed.
(** also ends what was under way for [c] *)
Lemma wps_close_check T X p c x : inv X p → live p c x → fresh X = [] → ends_with c X →
  wps (conn_close_with_partner_check params c) p (λ _ p', inv (over X) p' ∧ later T p p').
Proof.
  intros I Hx Hf He. unfold conn_close_with_partner_check. apply wps_bind.
  eapply wps_mono; [eapply (wps_close T); [done..|rewrite Hf; by apply not_elem_of_nil|done]|]. intros [] p1 (I1 & L1 & _).
  destruct (proj1 L1 _ _ Hx) as (x1 & Hx1 & _). apply wps_bind, (wps_live _ _ x1); [done|]. apply wps_bind.
  eapply (wps_partner (over X)); [done..|by intros _; apply wps_ret|]. intros d y _ Hy _ _ _ _. destruct (conn_has_unsent y); simpl.
  - apply wps_when; [|by intros _]. intros _. apply wps_bind, wps_sysret. set (p2 := after Time p1).
    assert (C2 : called p1 p2) by apply after_called. apply (wps_still_set _ y); [by eapply called_live|done..|].
    intros p3 H3 _. assert (H13 : still p1 p3) by (eapply still_trans; [by apply still_called|done]).
    split; [by eapply still_inv|]. eapply later_trans; [exact L1|by apply still_later].
  - eapply wps_mono; [eapply (wps_close T (over X)); [done|done|simpl; rewrite Hf; by apply not_elem_of_nil|by apply rest_ends]|].
    intros [] p2 (I2 & L2 & _). split; [done|by eapply later_trans].
Qed.
Lemma wps_timed_out T X p : inv X p → fresh X = [] → dying X = None → drained X = None →
  wps (conn_close_timed_out params) p (λ _ p', inv X p' ∧ later T p p').
Proof.
  intros I Hf Hd Hr. assert (Ho : over X = X) by (destruct X; simpl in *; by subst). unfold conn_close_timed_out.
  apply wps_bind, wps_gets.
  apply (wps_for_each (λ l p', inv X p' ∧ later T p p' ∧ ∀ c, c ∈ l → ∃ x, live p' c x)).
  - split; [done|]. split; [apply later_refl|]. intros c Hc. apply (i_live _ _ I). unfold queues. set_solver.
  - intros c l p1 (I1 & L1 & Hl). destruct (Hl c) as [x Hx]; [set_solver|].
    apply wps_bind, (wps_live _ _ x); [done|]. apply wps_bind.
    apply (wps_mono _ _ (λ _ p', called p1 p')).
    { unfold conn_timed_out. destruct (_ && _); [|by apply wps_ret]. apply wps_bind, wps_sysret, wps_ret, after_called. }
    intros b p2 H2. pose proof (called_inv _ _ _ I1 H2) as I2. pose proof (called_live _ _ _ _ H2 Hx) as Hx2.
    destruct b.
    + eapply wps_mono; [by eapply (wps_close T X p2 c x); [..|rewrite Hf; by apply not_elem_of_nil|auto]|]. rewrite Ho.
      intros [] p3 (I3 & L3 & _). split; [done|].
      assert (L : later T p1 p3) by (eapply later_trans; [by apply called_later|done]).
      split; [by eapply later_trans|]. intros d Hd'. destruct (Hl d) as [y Hy]; [set_solver|]. destruct (proj1 L _ _ Hy) as (y' & ? & _). eauto.
    + apply wps_ret. split; [done|]. split; [eapply later_trans; [done|by apply called_later]|]. intros d Hd'.
      destruct (Hl d) as [y Hy]; [set_solver|]. exists y. by eapply called_live.
  - intros p1 (I1 & L1 & _). done.
Qed.
End mild.

(** * tpws, connections: making, joining and freeing legs

    Legs come into being outside the queues, are joined to a partner, are
    connected, and enter the queue; they leave it closed, and are freed.  The
    invariant of [TpConnSpec] holds at each step. *)

Section legs.
Context {K : Kernel} {KO : KernelOk K} {E : Env} {EO : EnvOk E} (params : tp_params).

(** ** Freeing *)

Definition parted (x y : tproxy_conn) (d : nat) : tproxy_conn :=
  if bool_decide (c_partner x = Some d) then y <| c_partner := None |> else y.
(** the process without leg [c], which was [x] *)
Definition dropped (p : proc) (c : nat) (x : tproxy_conn) : proc :=
  let conns := match c_partner x with
    | Some d => alter (fmap (λ y : tproxy_conn, y <| c_partner := None |>)) d (p_conns p) | None => p_conns p end in
  let items := match c_socks_ri x with
    | Some r => alter (fmap (λ i : resolve_item, i <| ri_ptr := None |>)) r (p_items p) | None => p_items p end in
  p <| p_conns := <[c := None]> conns |> <| p_items := items |>.

Lemma dropped_live p c x d y : live p d y → d ≠ c → live (dropped p c x) d (parted x y d).
Proof.
  unfold live, dropped, parted. simpl. intros Hy Hd. rewrite list_lookup_insert_ne by done. destruct (c_partner x) as [e|].
  - rewrite list_lookup_alter. destruct (decide (e = d)) as [->|]; [by rewrite bool_decide_true, Hy|].
    by rewrite bool_decide_false by congruence.
  - by rewrite bool_decide_false.
Qed.
Lemma dropped_live_inv p c x d y' : live p c x → live (dropped p c x) d y' → d ≠ c ∧ ∃ y, live p d y ∧ y' = parted x y d.
Proof.
  intros Hx Hy'. assert (Hd : d ≠ c).
  { intros ->. unfold live, dropped in Hy'. simpl in Hy'. rewrite list_lookup_insert_eq in Hy'; [done|].
    apply lookup_lt_Some in Hx. destruct (c_partner x); [by rewrite length_alter|done]. }
  split; [done|]. assert (Hs : ∃ y, live p d y).
  { unfold live, dropped in Hy'. simpl in Hy'. rewrite list_lookup_insert_ne in Hy' by done. unfold live. destruct (c_partner x) as [e|]; [|eauto].
    rewrite list_lookup_alter in Hy'. case_decide; [subst e|by eauto]. destruct (p_conns p !! d) as [[y|]|]; by eauto. }
  destruct Hs as [y Hy]. exists y. split; [done|]. pose proof (dropped_live p c x d y Hy Hd) as H. unfold live in *. congruence.
Qed.
Lemma dropped_item p c x r i' : live_item (dropped p c x) r i' ↔
  ∃ i, live_item p r i ∧ i' = if bool_decide (c_socks_ri x = Some r) then i <| ri_ptr := None |> else i.
Proof.
  unfold live_item, dropped. simpl. destruct (c_socks_ri x) as [q|].
  - rewrite list_lookup_alter. case_decide as Hq.
    + subst q. rewrite bool_decide_true by done. destruct (p_items p !! r) as [[i|]|]; naive_solver.
    + rewrite bool_decide_false by congruence. naive_solver.
  - rewrite bool_decide_false by done. naive_solver.
Qed.

Lemma drop_inv X p c x l : inv X p → live p c x → fresh X = c :: l → inv (X <| fresh := l |>) (dropped p c x).
Proof.
  intros I Hx Hf. pose proof (i_nodup _ _ I) as Hn. rewrite Hf in Hn.
  assert (Hn' : NoDup (c :: queues p ++ l)) by by rewrite Permutation_middle.
  apply NoDup_cons in Hn' as [Hc Hn'].
  assert (Hlive : ∀ d, (∃ y, live p d y) ↔ d ∈ c :: queues p ++ l).
  { intros d. rewrite (i_live _ _ I), Hf. clear. set_solver. }
  pose proof (dropped_live p c x) as Hl. pose proof (λ d y', dropped_live_inv p c x d y' Hx) as Hb.
  assert (Hi : ∀ r i', live_item (dropped p c x) r i' → ri_ptr i' ≠ None → live_item p r i' ∧ c_socks_ri x ≠ Some r).
  { intros r i' (i & Hi & ->)%dropped_item Hp. case_bool_decide; [by destruct Hp|]. done. }
  assert (Hcount : ∀ b, count_legs b (dropped p c x) = count_legs b p).
  { intros b. apply count_perm; [done|]. intros d Hd. assert (Hdc : d ≠ c) by (intros ->; apply Hc; set_solver).
    destruct (proj2 (Hlive d)) as [y Hy]; [set_solver|]. pose proof (Hl _ _ Hy Hdc) as Hy'. unfold live in *. unfold leg_is.
    rewrite Hy, Hy'. unfold parted. by case_bool_decide. }
  split.
  - done.
  - intros d. change (queues (dropped p c x)) with (queues p). simpl. split.
    + intros [y' (Hd & y & Hy & _)%Hb]. assert (d ∈ c :: queues p ++ l) by by apply Hlive; eauto. set_solver.
    + intros Hd. destruct (proj2 (Hlive d)) as [y Hy]; [set_solver|]. eexists. apply Hl; [done|]. by intros ->.
  - intros d y' (Hd & y & Hy & ->)%Hb Hcl. pose proof (i_closed _ _ I _ _ Hy Hcl). unfold parted. by case_bool_decide.
  - intros d y' (Hd & y & Hy & ->)%Hb Hst. simpl. assert (Hcl : d ∈ p_close_list p ++ fresh X).
    { eapply i_open; [done..|]. revert Hst. unfold parted. by case_bool_decide. }
    rewrite Hf in Hcl. set_solver.
  - intros d y' e (Hd & y & Hy & ->)%Hb. unfold parted. case_bool_decide as Hp; [done|]. intros He.
    destruct (i_partner _ _ I _ _ _ Hy He) as (z & Hz & Hpz & Hrz).
    assert (Hec : e ≠ c) by (intros ->; unfold live in *; rewrite Hx in Hz; injection Hz as <-; done).
    exists (parted x z e). split; [by apply Hl|]. unfold parted. case_bool_decide as Hp'; [|done]. exfalso.
    destruct (i_partner _ _ I _ _ _ Hx Hp') as (z2 & Hz2 & Hpz2 & _). unfold live in *. rewrite Hz in Hz2. injection Hz2 as <-.
    rewrite Hpz in Hpz2. by injection Hpz2.
  - intros d y' (Hd & y & Hy & ->)%Hb. destruct (i_legs _ _ I _ _ Hy) as [L1 L2 L3 L4 L5]. unfold parted. case_bool_decide; [|by split].
    split; try done. intros He Hs Hdy. destruct (L3 He Hs Hdy) as (H1 & H2 & H3). by split.
  - intros d y' n e z' (Hd & y & Hy & ->)%Hb Hn3 Hh Hp (He & z & Hz & ->)%Hb.
    assert (Hp2 : c_partner y = Some e) by (revert Hp; unfold parted; by case_bool_decide).
    assert (Hh2 : holds y n) by (revert Hh; unfold parted; by case_bool_decide).
    pose proof (i_late _ _ I _ _ _ _ _ Hy Hn3 Hh2 Hp2 Hz) as H. unfold parted. case_bool_decide; exact H.
  - intros d y' r (Hd & y & Hy & ->)%Hb Hr. assert (Hr2 : c_socks_ri y = Some r) by (revert Hr; unfold parted; by case_bool_decide).
    destruct (i_ri _ _ I _ _ _ Hy Hr2) as (i & Hi1 & Hp). exists i. split; [|done]. apply dropped_item. exists i. split; [done|].
    rewrite bool_decide_false; [done|]. intros Hrx. destruct (i_ri _ _ I _ _ _ Hx Hrx) as (i2 & Hi2 & Hp2).
    unfold live_item in *. rewrite Hi1 in Hi2. injection Hi2 as <-. congruence.
  - intros r i' d Hi' Hp. destruct (Hi _ _ Hi') as [Hi1 Hr]; [by rewrite Hp|].
    destruct (i_ptr _ _ I _ _ _ Hi1 Hp) as (y & Hy & Hry). assert (Hd : d ≠ c) by (intros ->; unfold live in *; congruence).
    eexists. split; [by apply Hl|]. unfold parted. by case_bool_decide.
  - apply I.
  - intros r. change (items_of (dropped p c x)) with (items_of p). simpl. rewrite <- (i_items _ _ I). split.
    + intros [i' (i & Hi1 & _)%dropped_item]. by exists i.
    + intros [i Hi1]. eexists. apply dropped_item. by exists i.
  - intros r i' (i & Hi1 & ->)%dropped_item. pose proof (i_item _ _ I _ _ Hi1). by case_bool_decide.
  - rewrite Hcount. apply I.
  - rewrite Hcount. apply I.
  - apply I.
Qed.

Lemma wps_free X p c x l : inv X p → live p c x → fresh X = c :: l →
  wps (free_conn (Some c)) p (λ _ p', inv (X <| fresh := l |>) p' ∧ ∃ p1, called p p1 ∧ p' = dropped p1 c x).
Proof.
  intros I Hx Hf. unfold free_conn. apply wps_bind, (wps_live _ _ x); [done|]. apply wps_bind.
  apply (wps_mono _ _ (λ _ p', called p p')).
  { apply wps_when; [|done]. intros _. apply wps_bind, wps_sys, wps_ret, after_called. }
  intros [] p1 H1. apply wps_bind. apply (wps_mono _ _ (λ _ p', called p p')).
  { apply wps_when; [|done]. intros _. apply wps_bind, wps_sys, wps_bind, wps_sys, wps_ret.
    eapply called_trans; [done|]. eapply called_trans; apply after_called. }
  clear p1 H1. intros [] p1 H1. pose proof (called_inv _ _ _ I H1) as I1. pose proof (called_live _ _ _ _ H1 Hx) as Hx1.
  apply wps_bind. eapply (wps_mono _ _ (λ _ p', p' = match c_partner x with
    | Some d => p1 <| p_conns := alter (fmap (λ y : tproxy_conn, y <| c_partner := None |>)) d (p_conns p1) |> | None => p1 end)).
  { destruct (c_partner x) as [d|] eqn:Ed; [|by apply wps_ret]. destruct (i_partner _ _ I1 _ _ _ Hx1 Ed) as (y & Hy & _).
    by apply (wps_live_set _ _ y). }
  intros [] p2 H2. apply wps_bind. eapply (wps_mono _ _ (λ _ p', p' = match c_socks_ri x with
    | Some r => p2 <| p_items := alter (fmap (λ i : resolve_item, i <| ri_ptr := None |>)) r (p_items p2) |> | None => p2 end)).
  { assert (Hit : p_items p2 = p_items p1) by (subst p2; by destruct (c_partner x)).
    destruct (c_socks_ri x) as [r|] eqn:Er; [|by apply wps_ret]. destruct (i_ri _ _ I1 _ _ _ Hx1 Er) as (i & Hi & _).
    unfold wps, item_set. rewrite Hit. unfold live_item in Hi. by rewrite Hi. }
  intros [] p3 H3. assert (Hc : ∃ x', p_conns p3 !! c = Some (Some x')).
  { subst p3 p2. unfold live in Hx1. destruct (c_socks_ri x), (c_partner x) as [d|] eqn:Ed; simpl; eauto;
      rewrite list_lookup_alter; case_decide; [subst d; rewrite Hx1; by eexists|by eexists|subst d; rewrite Hx1; by eexists|by eexists]. }
  destruct Hc as [x' Hc]. unfold wps, conn_free. rewrite Hc. simpl.
  assert (Hdr : p3 <| p_conns := <[c:=None]> (p_conns p3) |> = dropped p1 c x).
  { subst p3 p2. unfold dropped. by destruct (c_socks_ri x), (c_partner x). }
  rewrite Hdr. split; [by apply drop_inv|]. by exists p1.
Qed.

(** ** New legs *)

Record newborn (x : tproxy_conn) : Prop := Newborn {
  nb_partner : c_partner x = None;
  nb_ri : c_socks_ri x = None;
  nb_type : c_type x = CONN_TYPE_TRANSPARENT;
  nb_state : c_state x = CONN_UNAVAILABLE;
  nb_bufs : c_wr_buf x = repeat no_buffer 4;
  nb_track : c_track x = new_ctrack None false;
  nb_dest : c_dest x = no_addr
}.
Lemma newborn_unborn x : newborn x → unborn x.
Proof. intros []. unfold unborn, conn_buffers_present. by rewrite nb_bufs0, nb_track0. Qed.
Lemma unborn_holds x n : unborn x → ¬ holds x n.
Proof.
  intros (_ & Hb & _) (sb & Hs & Hp). unfold conn_buffers_present, send_buffers_present in Hb.
  apply not_true_iff_false in Hb. apply Hb, existsb_exists. exists sb. split; [|done]. apply list_elem_of_In. by eapply list_elem_of_lookup_2.
Qed.

Lemma inv_perm X p l : fresh X ≡ₚ l → inv X p → inv (X <| fresh := l |>) p.
Proof.
  intros Hp I. destruct I as [F1 F2 F3 F4 F5 F6 F7 F8 F9 F10 F11 F12 F13 F14 F15]. split; try done; simpl.
  - by rewrite <- Hp.
  - intros c. rewrite F2. by rewrite <- Hp.
  - intros c x Hx Hc. rewrite <- Hp. by apply (F4 c x).
  - intros c x Hx. by destruct (F6 c x Hx).
Qed.

(** every leg is there as it was *)
Definition grown (p p' : proc) : Prop := frame p' = frame p ∧ ∀ d y, live p d y → live p' d y.
Lemma grown_refl p : grown p p.
Proof. done. Qed.
Lemma grown_trans p1 p2 p3 : grown p1 p2 → grown p2 p3 → grown p1 p3.
Proof. intros [F1 L1] [F2 L2]. split; [congruence|auto]. Qed.
Lemma called_grown p p' : called p p' → grown p p'.
Proof. intros H. split; [destruct H as (S & F & _); done|]. intros d y. by apply called_live. Qed.
Lemma grown_later T p p' : grown p p' → later T p p'.
Proof. intros [F H]. unfold frame in F. apply later_pipe; [|congruence]. intros d y Hy. exists y. split; [auto|by left]. Qed.

Definition born (p : proc) (x : tproxy_conn) : proc := p <| p_conns := p_conns p ++ [Some x] |>.
Lemma born_live p x d y : live p d y → live (born p x) d y.
Proof. unfold live. simpl. intros H. apply lookup_lt_Some in H as Hl. by rewrite lookup_app_l. Qed.
Lemma born_new p x : live (born p x) (length (p_conns p)) x.
Proof. unfold live. simpl. rewrite lookup_app_r, Nat.sub_diag by lia. done. Qed.
Lemma born_live_inv p x d y : live (born p x) d y → live p d y ∨ d = length (p_conns p) ∧ y = x.
Proof.
  unfold live. simpl. intros [H|[Hl H]]%lookup_app_Some; [by left|]. right. apply list_lookup_singleton_Some in H as [H1 [= <-]]. split; [lia|done].
Qed.
Lemma other_kept p c g d y : d ≠ c → live p d y → live (p <| p_conns := alter (fmap g) c (p_conns p) |>) d y.
Proof. unfold live. simpl. intros Hd. by rewrite list_lookup_alter_ne. Qed.
Lemma not_live_new p y : ¬ live p (length (p_conns p)) y.
Proof. intros H%lookup_lt_Some. lia. Qed.

Lemma born_inv X p x : inv X p → newborn x → inv (X <| fresh := length (p_conns p) :: fresh X |>) (born p x).
Proof.
  intros I Hn. set (c := length (p_conns p)). pose proof Hn as [N1 N2 N3 N4 N5 N6 N7].
  assert (Hnew : c ∉ queues p ++ fresh X) by (intros [y Hy]%(i_live _ _ I); by eapply not_live_new).
  pose proof (born_live p x) as Hl. pose proof (λ d y, born_live_inv p x d y) as Hb. fold c in Hb.
  assert (Hcount : ∀ b, count_legs b (born p x) = count_legs b p).
  { intros b. apply count_perm; [done|]. intros d Hd. destruct (proj2 (i_live _ _ I d)) as [y Hy]; [set_solver|].
    unfold leg_is. pose proof (Hl _ _ Hy) as Hy'. unfold live in *. by rewrite Hy, Hy'. }
  split; simpl.
  - change (queues (born p x)) with (queues p). rewrite <- Permutation_middle. constructor; [done|apply I].
  - intros d. change (queues (born p x)) with (queues p). split.
    + intros [y [Hy|[-> _]]%Hb]; [|set_solver]. assert (d ∈ queues p ++ fresh X) by (apply I; eauto). set_solver.
    + intros Hd. destruct (decide (d = c)) as [->|Hne]; [exists x; apply born_new|].
      destruct (proj2 (i_live _ _ I d)) as [y Hy]; [set_solver|]. exists y. by apply Hl.
  - intros d y [Hy|[-> ->]]%Hb Hd; [by eapply i_closed|]. exfalso. apply Hnew. unfold queues. set_solver.
  - intros d y [Hy|[-> ->]]%Hb Hs; [|set_solver]. pose proof (i_open _ _ I _ _ Hy Hs). set_solver.
  - intros d y e [Hy|[-> ->]]%Hb He; [|congruence]. destruct (i_partner _ _ I _ _ _ Hy He) as (z & Hz & H). exists z. split; [by apply Hl|done].
  - intros d y [Hy|[-> ->]]%Hb; [by destruct (i_legs _ _ I _ _ Hy)|]. split; try done.
    + intros _ _ _. by apply newborn_unborn.
    + rewrite N5. split; [done|]. by repeat constructor.
    + rewrite N6, N7. done.
  - intros d y n e z [Hy|[-> ->]]%Hb Hn3 Hh He; [|congruence]. intros [Hz|[-> ->]]%Hb; [by apply (i_late _ _ I _ _ _ _ _ Hy Hn3 Hh He Hz)|].
    destruct (i_partner _ _ I _ _ _ Hy He) as (z & Hz & _). by apply not_live_new in Hz.
  - intros d y r [Hy|[-> ->]]%Hb Hr; [by apply (i_ri _ _ I _ _ _ Hy Hr)|congruence].
  - intros r i d Hi Hp. destruct (i_ptr _ _ I _ _ _ Hi Hp) as (y & Hy & Hr). exists y. split; [by apply Hl|done].
  - apply I.
  - apply I.
  - apply I.
  - rewrite Hcount. apply I.
  - rewrite Hcount. apply I.
  - apply I.
Qed.

Lemma wps_new_conn X fd remote p : inv X p →
  wps (new_conn params fd remote) p (λ o p', grown p p' ∧ match o with
    | None => inv X p'
    | Some c => inv (X <| fresh := c :: fresh X |>) p' ∧ (∀ y, ¬ live p c y) ∧ ∃ x, live p' c x ∧ newborn x ∧ c_remote x = remote
    end).
Proof.
  intros I. unfold new_conn. apply wps_bind, wps_sysret. set (p1 := after _ p). assert (H1 : called p p1) by apply after_called.
  pose proof (called_inv _ _ _ I H1) as I1. destruct (_ <? 0); [by apply wps_ret; split; [apply called_grown|]|].
  apply wps_bind. unfold conn_new, wps at 1. cbn [wp]. set (x := zero_conn <| c_fd := fd |> <| c_remote := remote |>).
  change (p1 <| p_conns := p_conns p1 ++ [Some x] |>) with (born p1 x). set (c := length (p_conns p1)).
  assert (Hnb : newborn x) by done. pose proof (born_inv _ _ _ I1 Hnb) as I2. fold c in I2. pose proof (born_new p1 x) as Hx2. fold c in Hx2.
  assert (G2 : grown p (born p1 x)) by (eapply grown_trans; [by apply called_grown|]; split; [done|apply born_live]).
  assert (Hno : ∀ y, ¬ live p c y) by (intros y Hy; apply (called_live _ _ _ _ H1) in Hy; by apply not_live_new in Hy).
  destruct (_ && _).
  2:{ apply wps_ret. split; [done|]. split; [done|]. split; [done|]. by exists x. }
  apply wps_bind, wps_sys. set (p3 := after _ (born p1 x)). assert (H3 : called (born p1 x) p3) by apply after_called.
  pose proof (called_inv _ _ _ I2 H3) as I3. pose proof (called_live _ _ _ _ H3 Hx2) as Hx3.
  assert (G3 : grown p p3) by (eapply grown_trans; [done|by apply called_grown]).
  destruct (_ =? 0).
  - apply wps_bind, (wps_live_set _ _ x); [done|]. apply wps_ret. split; [|split; [|split]].
    + destruct G3 as [F3 L3]. split; [done|]. intros d y Hy. apply other_kept; [intros ->; by apply Hno in Hy|by apply L3].
    + by eapply still_inv, set_still.
    + done.
    + eexists. split; [by apply live_set_eq|]. done.
  - apply wps_bind. eapply wps_mono; [by eapply wps_free|]. intros [] p4 (I4 & p5 & H5 & ->). apply wps_ret. split; [|by destruct X].
    destruct (called_grown _ _ H5) as [F5 L5]. destruct G3 as [F3 L3]. split; [rewrite <- F3, <- F5; done|].
    intros d y Hy. apply (dropped_live p5 c x d y); [by apply L5, L3|]. intros ->. by apply Hno in Hy.
Qed.

(** ** Partners *)

(** [d] becomes the partner of [c] *)
Lemma link_inv X p c x d y efd client dest :
  inv X p → live p c x → live p d y → c ≠ d → unborn x → c_remote x = false → (early x → dying X = Some c) →
  newborn y → c_remote y = true → dest_ok (sa_addr dest) →
  let g1 := λ x : tproxy_conn, x <| c_partner := Some d |> in
  let g2 := λ y : tproxy_conn, y <| c_partner := Some c |> <| c_efd := efd |> <| c_client := client |> <| c_dest := dest |> in
  inv X (p <| p_conns := alter (fmap g2) d (alter (fmap g1) c (p_conns p)) |>).
Proof.
  intros I Hx Hy Hcd Hu Hrx Hearly Hnb Hry Hdest g1 g2. set (p' := p <| p_conns := _ |>).
  assert (Hxp : c_partner x = None) by apply Hu. assert (Hyp : c_partner y = None) by apply Hnb.
  assert (Hc' : live p' c (g1 x)).
  { unfold live in *. simpl. rewrite list_lookup_alter_ne by done. by rewrite list_lookup_alter_eq, Hx. }
  assert (Hd' : live p' d (g2 y)).
  { unfold live in *. simpl. rewrite list_lookup_alter_eq, list_lookup_alter_ne by done. by rewrite Hy. }
  assert (Ho : ∀ e, e ≠ c → e ≠ d → p_conns p' !! e = p_conns p !! e).
  { intros e H1 H2. simpl. rewrite !list_lookup_alter_ne by done. done. }
  assert (Hl : ∀ e z, live p e z → ∃ z', live p' e z' ∧ (z' = z ∨ e = c ∧ z = x ∧ z' = g1 x ∨ e = d ∧ z = y ∧ z' = g2 y)).
  { intros e z Hz. destruct (decide (e = c)) as [->|H1].
    - exists (g1 x). split; [done|]. right; left. unfold live in *. split; [done|]. split; [congruence|done].
    - destruct (decide (e = d)) as [->|H2]; [|exists z; unfold live in *; rewrite Ho by done; auto].
      exists (g2 y). split; [done|]. right; right. unfold live in *. split; [done|]. split; [congruence|done]. }
  assert (Hb : ∀ e z', live p' e z' → (e = c ∧ z' = g1 x) ∨ (e = d ∧ z' = g2 y) ∨ e ≠ c ∧ e ≠ d ∧ live p e z').
  { intros e z Hz. destruct (decide (e = c)) as [->|H1]; [left; unfold live in *; split; [done|congruence]|right].
    destruct (decide (e = d)) as [->|H2]; [left; unfold live in *; split; [done|congruence]|right].
    unfold live in *. by rewrite Ho in Hz. }
  assert (Hnox : ∀ e z, live p e z → c_partner z ≠ Some c ∧ c_partner z ≠ Some d).
  { intros e z Hz. split; intros Hp; destruct (i_partner _ _ I _ _ _ Hz Hp) as (w & Hw & Hpw & _); unfold live in *; congruence. }
  assert (Hcount : ∀ b, count_legs b p' = count_legs b p).
  { intros b. apply count_perm; [done|]. intros e _. unfold leg_is. destruct (decide (e = c)) as [->|H1].
    - unfold live in *. by rewrite Hc', Hx.
    - destruct (decide (e = d)) as [->|H2]; [unfold live in *; by rewrite Hd', Hy|]. by rewrite Ho. }
  destruct (i_legs _ _ I _ _ Hx) as [X1 X2 X3 X4 X5]. destruct (i_legs _ _ I _ _ Hy) as [Y1 Y2 Y3 Y4 Y5].
  split.
  - apply I.
  - intros e. change (queues p') with (queues p). rewrite <- (i_live _ _ I). split; [|intros [z Hz]; destruct (Hl _ _ Hz) as (z' & ? & _); eauto].
    intros [z [[-> _]|[[-> _]|(_ & _ & Hz)]]%Hb]; eauto.
  - intros e z [[-> ->]|[[-> ->]|(_ & _ & Hz)]]%Hb He; [by apply (i_closed _ _ I c x)|by apply (i_closed _ _ I d y)|by eapply i_closed].
  - intros e z [[-> ->]|[[-> ->]|(_ & _ & Hz)]]%Hb He; [by apply (i_open _ _ I c x)|by apply (i_open _ _ I d y)|by apply (i_open _ _ I _ _ Hz He)].
  - intros e z f [[-> ->]|[[-> ->]|(H1 & H2 & Hz)]]%Hb.
    + intros [= <-]. exists (g2 y). simpl. rewrite Hrx, Hry. done.
    + intros [= <-]. exists (g1 x). simpl. rewrite Hrx, Hry. done.
    + intros Hf. destruct (i_partner _ _ I _ _ _ Hz Hf) as (w & Hw & Hpw & Hrw). destruct (Hnox _ _ Hz) as [N1 N2].
      exists w. split; [|done]. unfold live in *. rewrite Ho; [done|congruence..].
  - intros e z [[-> ->]|[[-> ->]|(_ & _ & Hz)]]%Hb; [| |by apply (i_legs _ _ I)].
    + split; try done. intros He _ Hdy. by destruct Hdy; apply Hearly.
    + destruct Hnb. split; try done; [intros [He _]; simpl in He; congruence|]. split; [apply Y5|done].
  - intros e z n f w [[-> ->]|[[-> ->]|(H1 & H2 & Hz)]]%Hb Hn Hh Hf.
    + by apply (unborn_holds x n) in Hu.
    + by apply newborn_unborn, (unborn_holds y n) in Hnb.
    + destruct (Hnox _ _ Hz) as [N1 N2]. intros [[-> ->]|[[-> ->]|(_ & _ & Hw)]]%Hb; [congruence..|].
      by apply (i_late _ _ I _ _ _ _ _ Hz Hn Hh Hf Hw).
  - intros e z r [[-> ->]|[[-> ->]|(_ & _ & Hz)]]%Hb Hr; [by apply (i_ri _ _ I c x)|by apply (i_ri _ _ I d y)|by apply (i_ri _ _ I e z)].
  - intros r i e Hi Hp. destruct (i_ptr _ _ I _ _ _ Hi Hp) as (z & Hz & Hr). destruct (Hl _ _ Hz) as (z' & Hz' & Hcase).
    exists z'. split; [done|]. destruct Hcase as [->|[(-> & -> & ->)|(-> & -> & ->)]]; done.
  - apply I.
  - apply I.
  - apply I.
  - rewrite Hcount. apply I.
  - rewrite Hcount. apply I.
  - apply I.
Qed.

(** a leg about to be connected *)
Definition single (X : stage) (c : nat) (x : tproxy_conn) : Prop :=
  unborn x ∧ c_remote x = false ∧ (early x → dying X = Some c).

(** all legs but [c] are there as they were *)
Definition grown_but (c : nat) (p p' : proc) : Prop := frame p' = frame p ∧ ∀ d y, d ≠ c → live p d y → live p' d y.

Lemma wps_new_partner X p c x : inv X p → live p c x → single X c x →
  wps (new_partner params c) p (λ o p', grown_but c p p' ∧ match o with
    | None => inv X p' ∧ live p' c x
    | Some d => inv (X <| fresh := d :: fresh X |>) p' ∧ (∀ y, ¬ live p d y) ∧ live p' c (x <| c_partner := Some d |>) ∧
        ∃ y, live p' d y ∧ c_partner y = Some c ∧ c_remote y = true ∧ c_state y = CONN_UNAVAILABLE ∧ c_socks_ri y = None
    end).
Proof.
  intros I Hx (Hu & Hr & He). unfold new_partner. apply wps_bind. eapply wps_mono; [by apply wps_new_conn|].
  intros [d|] p1 [[F1 L1] H1]; [|apply wps_ret; split; [by split; [|auto]|by split; [|apply L1]]].
  destruct H1 as (I1 & Hno & y & Hy & Hnb & Hry). pose proof (L1 _ _ Hx) as Hx1.
  assert (Hcd : c ≠ d) by (intros ->; by apply Hno in Hx).
  apply wps_bind, (wps_live_set _ _ x); [done|]. set (g1 := λ x : tproxy_conn, x <| c_partner := Some d |>). set (p2 := p1 <| p_conns := _ |>).
  assert (Hx2 : live p2 c (g1 x)) by by apply live_set_eq. assert (Hy2 : live p2 d y) by by apply other_kept.
  apply wps_bind, (wps_live _ _ _ _ Hx2), wps_bind, (wps_live_set _ _ y); [done|].
  set (g2 := λ y : tproxy_conn, y <| c_partner := Some c |> <| c_efd := _ |> <| c_client := _ |> <| c_dest := _ |>). apply wps_ret.
  pose proof (link_inv _ p1 c x d y (c_efd x) (c_client x) (c_dest x) I1 Hx1 Hy Hcd Hu Hr He Hnb Hry) as I3. split; [|split; [|split; [|split]]].
  - split; [done|]. intros e z Hne Hz. apply other_kept; [intros ->; by apply Hno in Hz|]. apply other_kept; [done|]. by apply L1.
  - apply I3. by apply (i_legs _ _ I _ _ Hx).
  - done.
  - by apply other_kept.
  - exists (g2 y). split; [by apply live_set_eq|]. destruct Hnb. done.
Qed.

(** a leg in no queue enters the head of the queue *)
Lemma enlist_inv X p c x l : inv X p → live p c x → c_state x ≠ CONN_CLOSED → fresh X = c :: l →
  inv (X <| fresh := l |>) (p <| p_conn_list := c :: p_conn_list p |>
    <| legs_local := if c_remote x then legs_local p else legs_local p + 1 |>
    <| legs_remote := if c_remote x then legs_remote p + 1 else legs_remote p |>).
Proof.
  intros I Hx Hs Hf. set (p' := p <| p_conn_list := _ |> <| legs_local := _ |> <| legs_remote := _ |>).
  assert (Hp : queues p' ++ l ≡ₚ queues p ++ fresh X) by (rewrite Hf; unfold queues; simpl; by rewrite Permutation_middle).
  assert (Hcount : ∀ b, count_legs b p' = count_legs b p + (if Bool.eqb (c_remote x) b then 1 else 0)).
  { intros b. assert (Hlc : leg_is b p c = Bool.eqb (c_remote x) b) by (unfold leg_is, live in *; by rewrite Hx).
    unfold count_legs, queues. change (leg_is b p') with (leg_is b p). simpl. rewrite Hlc. destruct (Bool.eqb _ b); simpl; lia. }
  destruct I as [F1 F2 F3 F4 F5 F6 F7 F8 F9 F10 F11 F12 F13 F14 F15]. split; try done.
  - change (NoDup (queues p' ++ l)). by rewrite Hp.
  - intros d. change ((∃ y, live p d y) ↔ d ∈ queues p' ++ l). rewrite Hp. apply F2.
  - intros d y Hy Hst. simpl. pose proof (F4 d y Hy Hst) as H. rewrite Hf in H.
    assert (d ≠ c) by (intros ->; unfold live in *; simpl in Hy; congruence). set_solver.
  - intros d y Hy. by destruct (F6 d y Hy).
  - simpl. rewrite Hcount, F13. by destruct (c_remote x); simpl; lia.
  - simpl. rewrite Hcount, F14. by destruct (c_remote x); simpl; lia.
Qed.
Lemma wps_enlist X p c x l remote : inv X p → live p c x → c_state x ≠ CONN_CLOSED → fresh X = c :: l → c_remote x = remote →
  wps (conn_list_insert_head c remote) p (λ _ p', inv (X <| fresh := l |>) p' ∧ p_conns p' = p_conns p ∧ (p_pipe p', p_listen p') = (p_pipe p, p_listen p) ∧ p_items p' = p_items p).
Proof. intros I Hx Hs Hf <-. apply wps_modify. split; [by eapply enlist_inv|done]. Qed.

(** ** Connecting *)

Lemma silent_steps l : Forall silent l → silent (steps l).
Proof.
  induction 1 as [|m l Hm _ IH]; [apply silent_ret|]. simpl. apply silent_bind; [done|]. intros []; [done|apply silent_ret].
Qed.
Lemma silent_scope n : silent (modify (λ p, p <| bind6_scope_id := n |>)).
Proof. intros p. by apply wps_modify, calls_same. Qed.
Lemma silent_setsockopt fd l o v : silent (setsockopt fd l o v).
Proof. by apply silent_sys_ok. Qed.
Lemma silent_user_timeout fd t : silent (set_user_timeout fd t).
Proof. apply silent_when, silent_bind; [apply silent_setsockopt|intros; apply silent_ret]. Qed.
Lemma silent_bind_step fd a : silent (bind_step params fd a).
Proof.
  unfold bind_step. destruct (_ =? _); [by apply silent_sys_ok|]. destruct (_ =? _); [|apply silent_ret].
  apply silent_bind; [apply silent_gets|]. intros scope. apply silent_bind.
  - destruct (_ && _); [|apply silent_ret]. apply silent_bind; [by apply silent_sysret|]. intros r.
    apply silent_bind; [apply silent_scope|intros; apply silent_ret].
  - intros []; [by apply silent_sys_ok|apply silent_ret].
Qed.
Lemma silent_connect_step fd a : silent (connect_step fd a).
Proof.
  unfold connect_step. apply silent_bind; [by apply silent_sysret|]. intros r. destruct (_ <? 0); [|apply silent_ret].
  apply silent_bind; [apply silent_errno|intros; apply silent_ret].
Qed.
Lemma silent_connect_remote a mss : silent (connect_remote params a mss).
Proof.
  unfold connect_remote. apply silent_bind; [by apply silent_sysret|]. intros fd. destruct (_ <? 0); [apply silent_ret|].
  apply silent_bind.
  - apply silent_steps. repeat (constructor; [try solve [by apply silent_sys_ok|apply silent_setsockopt|apply silent_bind_step|apply silent_connect_step]|]); [..|done].
    + unfold set_socket_buffers. apply silent_bind; [destruct (_ =? 0); [apply silent_ret|apply silent_setsockopt]|].
      intros []; [|apply silent_ret]. destruct (_ =? 0); [apply silent_ret|apply silent_setsockopt].
    + destruct (_ =? 0); [apply silent_ret|apply silent_setsockopt].
    + apply silent_bind; [apply silent_user_timeout|intros; apply silent_ret].
  - intros []; [apply silent_ret|]. apply silent_bind; [by apply silent_sys|intros; apply silent_ret].
Qed.

Lemma leg_fits_set X st c x x' : leg_fits X st c x →
  c_remote x' = c_remote x → c_type x' = c_type x → c_socks_ri x' = c_socks_ri x → c_socks_state x' = c_socks_state x →
  c_state x' = c_state x → c_wr_buf x' = c_wr_buf x → (early x → dying X ≠ Some c → unborn x → unborn x') →
  ct_ok st (c_track x') → dest_ok (sa_addr (c_dest x')) → leg_fits X st c x'.
Proof.
  intros [L1 L2 L3 L4 L5] E1 E2 E3 E4 E5 E6 Hu Hct Hd. split; rewrite ?E1, ?E2, ?E3, ?E4, ?E5, ?E6; try done.
  unfold early. rewrite E2, E4. intros He Hs Hdy. auto.
Qed.
Lemma leg_same_track x x' :
  place x' = place x → c_wr_buf x' = c_wr_buf x → leg_same x x'.
Proof.
  unfold place. intros [= E1 E2 E3 E4] E5. split; try done.
  - by rewrite E2.
  - by rewrite E2.
  - unfold holds. by rewrite E5.
Qed.

Lemma wps_connect X p c x d : inv X p → live p c x → b_ah_check (c_track x) = false → c_partner x = Some d →
  (early x → dying X = Some c) →
  wps (conn_connect_remote params c) p (λ _ p', settled X p p').
Proof.
  intros I Hx Hb Hp He. unfold conn_connect_remote. apply wps_bind, (wps_live _ _ x); [done|].
  apply wps_bind, wps_sysret. set (p1 := after _ p). assert (H1 : called p p1) by apply after_called.
  pose proof (called_inv _ _ _ I H1) as I1. pose proof (called_live _ _ _ _ H1 Hx) as Hx1. pose proof (i_legs _ _ I1 _ _ Hx1) as Hfit.
  assert (M1 : mild p p1) by by apply still_mild, still_called.
  apply wps_bind, wps_gets, wps_bind, wps_lift.
  eapply wp_mono; [eapply (wp_connect env_alloc env_room env_strdup env_room_prefix env_z_readfile env_inet_pton env_cache_hostname env_ipcache_lifetime);
    [apply env_pton4|apply env_pton6|apply I1|apply Hfit|done|apply Hfit]|].
  intros [[st ct] mss] [R Hct]. apply wps_bind, wps_modify. set (p2 := p1 <| p_tp := st |>).
  assert (I2 : inv X p2) by (apply tp_inv; [done|]; apply reloads_keeps; [apply I1|done]).
  assert (Hx2 : live p2 c x) by done. assert (M2 : mild p p2) by (eapply mild_trans; [done|apply tp_mild]).
  apply wps_bind, (wps_set X _ _ x); [done|done|by apply leg_same_track| |done|].
  { apply (leg_fits_set _ _ _ x); [by apply (i_legs _ _ I2)|done..| | |by apply Hfit]; [|done].
    intros He2 Hdy. by apply He in He2. }
  intros p3 [I3 M3] _ Hx3. apply wps_bind, (wps_deref _ d); [done|]. apply wps_bind.
  eapply wps_mono; [apply silent_connect_remote|]. intros fd p4 H4. pose proof (calls_called _ _ _ H4) as C4.
  pose proof (called_inv _ _ _ I3 C4) as I4. pose proof (called_live _ _ _ _ C4 Hx3) as Hx4.
  assert (M4 : mild p p4) by (eapply mild_trans; [done|]; eapply mild_trans; [done|]; by apply still_mild, still_called).
  destruct (i_partner _ _ I4 _ _ d Hx4) as (y & Hy & Hpy & Hry); [done|].
  apply wps_bind, (wps_set X _ _ y); [done|done|by apply leg_same_track| |done|].
  { pose proof (i_legs _ _ I4 _ _ Hy) as Hf. apply (leg_fits_set _ _ _ y); [done..| |by apply Hf|by apply Hf]. done. }
  intros p5 [I5 M5] _ _. apply wps_ret. split; [done|]. by eapply mild_trans.
Qed.

(** ** A new connection *)

(** legs other than those of [F] are there, closed or not as they were *)
Definition others (F : list nat) (p p' : proc) : Prop :=
  (∀ e y, e ∉ F → live p e y → ∃ y', live p' e y' ∧ c_state y' = c_state y) ∧ (p_pipe p', p_listen p') = (p_pipe p, p_listen p).
Lemma others_trans F p1 p2 p3 : others F p1 p2 → others F p2 p3 → others F p1 p3.
Proof.
  intros [H1 E1] [H2 E2]. split; [|congruence]. intros e y He Hy. destruct (H1 _ _ He Hy) as (y1 & Hy1 & S1).
  destruct (H2 _ _ He Hy1) as (y2 & Hy2 & S2). exists y2. split; [done|congruence].
Qed.
Lemma others_sub F F' p p' : F ⊆ F' → others F p p' → others F' p p'.
Proof. intros Hs [H E']. split; [|done]. intros e y He. apply H. set_solver. Qed.
Lemma others_mild F p p' : mild p p' → others F p p'.
Proof.
  intros M. split; [|by destruct M as [(_ & _ & _ & _ & _ & _ & -> & ->) _]]. intros e y _ Hy. destruct (mild_live _ _ _ _ M Hy) as (y' & Hy' & Ep). exists y'. split; [done|].
  unfold place in Ep. congruence.
Qed.
Lemma others_grown F p p' : grown p p' → others F p p'.
Proof. intros [H L]. unfold frame in H. split; [|congruence]. intros e y _ Hy. exists y. auto. Qed.
Lemma others_grown_but c p p' : grown_but c p p' → others [c] p p'.
Proof. intros [H L]. unfold frame in H. split; [|congruence]. intros e y He Hy. exists y. split; [|done]. apply L; [set_solver|done]. Qed.
Lemma others_called F p p' : called p p' → others F p p'.
Proof. intros H. by apply others_grown, called_grown. Qed.
Lemma others_dropped p c x : others [c] p (dropped p c x).
Proof.
  split; [|done]. intros e y He Hy. eexists. split; [apply dropped_live; [done|set_solver]|]. unfold parted. by case_bool_decide.
Qed.
Lemma others_later T F p p' : (∀ e y, e ∈ F → ¬ live p e y) → others F p p' → later T p p'.
Proof.
  intros HF [H E']. apply later_pipe; [|done]. intros e y Hy. destruct (H e y) as (y' & Hy' & S); [intros He; by eapply HF|done|].
  exists y'. split; [done|]. rewrite S. by left.
Qed.
Lemma others_set F p c x g : live p c x → c ∈ F → others F p (p <| p_conns := alter (fmap g) c (p_conns p) |>).
Proof. intros Hx HF. split; [|done]. intros e y He Hy. exists y. split; [|done]. apply other_kept; [by intros ->|done]. Qed.

(** the connection has one leg, or two *)
Definition legs_of (c : nat) (x : tproxy_conn) (p : proc) (l : list nat) : Prop :=
  match c_partner x with
  | None => l = [c]
  | Some d => l = [d; c] ∧ ∃ y, live p d y ∧ c_state y ≠ CONN_CLOSED
  end.

(** the legs are thrown away *)
Lemma wps_free_legs {A} X p c x l (k : M A) (Q : A → proc → Prop) :
  inv (X <| fresh := l |>) p → fresh X = [] → live p c x → legs_of c x p l →
  (∀ p', inv X p' → others l p p' → wps k p' Q) →
  wps (free_conn (c_partner x) ;;; free_conn (Some c) ;;; k) p Q.
Proof.
  intros I Hf Hx Hl HQ. apply wps_bind. unfold legs_of in Hl. destruct (c_partner x) as [d|] eqn:Ed.
  - destruct Hl as (-> & y & Hy & _). assert (Hdc : c ≠ d).
    { intros ->. destruct (i_partner _ _ I _ _ _ Hx Ed) as (z & Hz & _ & Hr). unfold live in *. rewrite Hx in Hz. injection Hz as <-. by destruct (c_remote x). }
    eapply wps_mono; [eapply (wps_free _ _ d y); [done|done|done]|]. intros [] p1 (I1 & p0 & H0 & ->).
    pose proof (called_live _ _ _ _ H0 Hx) as Hx0. pose proof (dropped_live p0 d y c x Hx0 Hdc) as Hx1.
    apply wps_bind. eapply wps_mono; [eapply (wps_free _ _ c); [done|done|done]|]. intros [] p2 (I2 & p3 & H3 & ->).
    apply HQ; [by destruct X; simpl in *; subst|]. eapply others_trans; [by apply others_called|]. eapply others_trans; [apply (others_sub [d]); [set_solver|apply others_dropped]|].
    eapply others_trans; [by apply others_called|]. apply (others_sub [c]); [set_solver|apply others_dropped].
  - subst l. apply wps_ret, wps_bind. eapply wps_mono; [eapply (wps_free _ _ c); [done|done|done]|]. intros [] p2 (I2 & p3 & H3 & ->).
    apply HQ; [by destruct X; simpl in *; subst|]. eapply others_trans; [by apply others_called|apply others_dropped].
Qed.

Lemma wps_add_legs X p c x l proxy : inv (X <| fresh := l |>) p → fresh X = [] → live p c x → c_remote x = false →
  c_state x ≠ CONN_CLOSED → legs_of c x p l →
  wps (add_legs c proxy) p (λ o p', inv X p' ∧ others l p p' ∧ match o with Some e => ∃ z, live p' e z | None => True end).
Proof.
  intros I Hf Hx Hr Hs Hl. unfold add_legs. apply wps_bind. eapply wps_mono; [by eapply st_epoll_set|].
  intros ok p1 H1. pose proof (called_inv _ _ _ I H1) as I1. pose proof (called_live _ _ _ _ H1 Hx) as Hx1.
  assert (Hl1 : legs_of c x p1 l).
  { unfold legs_of in *. destruct (c_partner x); [|done]. destruct Hl as (-> & y & Hy & ?). split; [done|]. exists y. split; [by eapply called_live|done]. }
  assert (O1 : others l p p1) by by apply others_called.
  apply wps_bind, (wps_live _ _ _ _ Hx1). destruct ok; cbn [negb].
  2:{ eapply (wps_free_legs X); [done..|]. intros p2 I2 O2. apply wps_ret. split; [done|]. split; [by eapply others_trans|done]. }
  apply wps_bind. unfold legs_of in Hl1. destruct (c_partner x) as [d|] eqn:Ed.
  - destruct Hl1 as (-> & y & Hy & Hsy). destruct (i_partner _ _ I1 _ _ _ Hx1 Ed) as (z & Hz & _ & Hrz). unfold live in Hy, Hz.
    rewrite Hy in Hz. injection Hz as <-. rewrite Hr in Hrz.
    apply (inv_perm _ _ [c; d]) in I1; [|apply perm_swap].
    eapply wps_mono; [eapply (wps_enlist _ _ c x [d]); done|]. intros [] p2 (I2 & C2 & P2 & _). apply wps_bind.
    eapply wps_mono; [eapply (wps_enlist _ _ d y []); [done|by unfold live; rewrite C2|done..]|]. intros [] p3 (I3 & C3 & P3 & _). apply wps_ret.
    split; [by destruct X; simpl in *; subst|]. split; [|exists x; unfold live; by rewrite C3, C2].
    eapply others_trans; [done|]. split; [|congruence]. intros e w _ Hw. exists w. unfold live. by rewrite C3, C2.
  - subst l. eapply wps_mono; [eapply (wps_enlist _ _ c x []); done|]. intros [] p2 (I2 & C2 & P2 & _). apply wps_ret, wps_ret.
    split; [by destruct X; simpl in *; subst|]. split; [|exists x; unfold live; by rewrite C2].
    eapply others_trans; [done|]. split; [|congruence]. intros e w _ Hw. exists w. unfold live. by rewrite C2.
Qed.

Lemma dest_ok_mapped a : dest_ok (sa_addr a) → dest_ok (sa_addr (saconvmapped a).1).
Proof.
  unfold saconvmapped. destruct (sa_addr a) as [b|b|] eqn:Ea; simpl; rewrite ?Ea; try done. destruct (saismapped b); simpl; rewrite ?Ea; [|done].
  unfold extract_map4, len. rewrite length_drop. lia.
Qed.
Lemma dest_ok_copy a : dest_ok (sa_addr a) → dest_ok (sa_addr (sa46copy a)).
Proof. unfold sa46copy, sacopy. destruct (sa_addr a) eqn:Ea; simpl; by rewrite ?Ea. Qed.
Lemma wps_get_dest fd p :
  wps (get_dest_addr fd) p (λ o p', called p p' ∧ match o with Some a => dest_ok (sa_addr a) | None => True end).
Proof.
  unfold get_dest_addr. set (good := λ (r : reply) p', called p p' ∧ dest_ok (sa_addr (r_addr r))).
  assert (Hs : ∀ c p1, called p p1 → wps (sys c) p1 good).
  { intros c p1 H1. apply wps_sys. split; [eapply called_trans; [done|apply after_called]|apply k_addr]. }
  apply wps_bind. eapply wps_mono; [by apply Hs|]. intros r1 p1 [H1 D1]. apply wps_bind, (wps_mono _ _ good).
  { destruct (_ <? 0); [by apply Hs|by apply wps_ret]. }
  clear r1 p1 H1 D1. intros r1 p1 [H1 D1]. apply wps_bind, (wps_mono _ _ good).
  { destruct (_ <? 0); [by apply Hs|by apply wps_ret]. }
  clear r1 p1 H1 D1. intros r1 p1 [H1 D1]. apply wps_ret. split; [done|]. destruct (_ <? 0); [done|by apply dest_ok_mapped].
Qed.
Lemma silent_local_ip a : silent (check_local_ip a).
Proof.
  unfold check_local_ip. destruct (is_localnet a); [apply silent_ret|]. apply silent_bind; [by apply silent_sys|]. intros r.
  destruct (_ <? 0); apply silent_ret.
Qed.

(** a leg that is alone changes: still alone *)
Lemma wps_set_single X p c x g (Q : unit → proc → Prop) :
  inv X p → live p c x → leg_same x (g x) → unborn (g x) → (c_remote (g x) = true → c_type (g x) = CONN_TYPE_TRANSPARENT) →
  c_socks_ri (g x) = None → c_wr_buf (g x) = c_wr_buf x → ct_ok (p_tp p) (c_track (g x)) → dest_ok (sa_addr (c_dest (g x))) →
  (∀ p', inv X p' → others [c] p p' → live p' c (g x) → Q tt p') → wps (conn_set c g) p Q.
Proof.
  intros I Hx Hs Hu Ht Hri Hb Hct Hd HQ. apply (wps_live_set _ _ x); [done|].
  apply HQ; [|by eapply others_set; [|set_solver]|by apply live_set_eq]. eapply set_inv; [done..|].
  split; [done|by rewrite Hri|done| |done]. rewrite Hb. by apply (i_legs _ _ I _ _ Hx).
Qed.

Lemma wps_add_connection T X efd fd port proxy p : inv X p → fresh X = [] → dying X = None →
  wps (add_tcp_connection params efd fd port proxy) p (λ o p', inv X p' ∧ later T p p' ∧
    match o with Some c => ∃ x, live p' c x | None => True end).
Proof.
  intros I Hf Hdy. unfold add_tcp_connection. cbv zeta. set (tr := bool_decide _).
  assert (Hfail : ∀ p1, called p p1 → wps (close_fd (A := nat) fd) p1 (λ o p', inv X p' ∧ later T p p' ∧
    match o with Some c => ∃ x, live p' c x | None => True end)).
  { intros p1 H1. apply wps_bind, wps_sys, wps_ret.
    assert (H2 : called p (after (Close fd) p1)) by (eapply called_trans; [done|apply after_called]).
    split; [by eapply called_inv|]. split; [by apply called_later|done]. }
  apply wps_bind, (wps_mono _ _ (λ o p', called p p' ∧ match o with Some a => dest_ok (sa_addr a) | None => True end)).
  { destruct tr; [apply wps_get_dest|by apply wps_ret]. }
  intros [dst|] p1 [H1 Hdst]; [|by apply Hfail]. apply wps_bind, (wps_mono _ _ (λ _ p', called p p')).
  { destruct tr; [|by apply wps_ret]. apply wps_bind. eapply wps_mono; [apply silent_local_ip|]. intros b p2 H2.
    apply wps_ret. eapply called_trans; [done|exact (calls_called _ _ _ H2)]. }
  clear p1 H1. intros [] p1 H1; [by apply Hfail|]. apply wps_bind.
  eapply wps_mono; [apply silent_setsockopt|]. intros ok p2 H2. assert (H02 : called p p2) by (eapply called_trans; [done|exact (calls_called _ _ _ H2)]).
  clear p1 H1 H2. destruct ok; cbn [negb]; [|by apply Hfail]. pose proof (called_inv _ _ _ I H02) as I2.
  apply wps_bind. eapply wps_mono; [by apply wps_new_conn|]. intros [c|] p3 [G3 H3].
  2:{ apply wps_bind, wps_sys, wps_ret. split; [by eapply called_inv, after_called|]. split; [|done].
      apply grown_later. eapply grown_trans; [by apply called_grown|]. eapply grown_trans; [exact G3|apply called_grown, after_called]. }
  destruct H3 as (I3 & Hno & x & Hx & Hnb & Hr). rewrite Hf in I3. set (X1 := X <| fresh := [c] |>).
  assert (O3 : others [c] p p3) by (apply others_grown; eapply grown_trans; [by apply called_grown|done]).
  assert (Hno' : ∀ e y, e ∈ [c] → ¬ live p e y).
  { intros e y ->%list_elem_of_singleton Hy. apply (called_live _ _ _ _ H02) in Hy. by apply Hno in Hy. }
  pose proof (newborn_unborn _ Hnb) as Hu. pose proof Hnb as [N1 N2 N3 N4 N5 N6 N7].
  apply wps_bind. eapply (wps_set_single X1 _ _ x); [exact I3|done|..|].
  { split; try done. - simpl. by rewrite N4. - simpl. by rewrite N4. }
  { done. } { simpl. by rewrite Hr. } { done. } { done. } { simpl. rewrite N6. done. } { simpl. by rewrite N7. }
  intros p4 I4 O4 Hx4. set (x4 := x <| c_type := _ |> <| c_state := _ |> <| c_efd := _ |>) in *.
  apply wps_bind, wps_sys. set (p5 := after _ p4). assert (H5 : called p4 p5) by apply after_called.
  apply wps_bind. eapply (wps_set_single X1 _ _ x4);
    [by eapply called_inv|by eapply called_live|by split|done|simpl; by rewrite Hr|done|done|simpl; rewrite N6; done|simpl; by rewrite N7|].
  intros p6 I6 O6 Hx6. set (x6 := x4 <| c_client := _ |>) in *.
  assert (O : others [c] p p6).
  { eapply others_trans; [exact O3|]. eapply others_trans; [exact O4|]. eapply others_trans; [by apply others_called|exact O6]. }
  destruct tr eqn:Etr; cbn [negb].
  2:{ eapply wps_mono; [eapply (wps_add_legs X _ c x6 [c]); [done|done|done|done|done|]|].
      - unfold legs_of. simpl. by rewrite N1.
      - intros o p7 (I7 & O7 & L7). split; [done|]. split; [|done]. eapply others_later; [exact Hno'|by eapply others_trans]. }
  assert (Htr : proxy = CONN_TYPE_TRANSPARENT) by (unfold tr in Etr; by apply bool_decide_eq_true in Etr).
  apply wps_bind. eapply (wps_set_single X1 _ _ x6);
    [done|done|by split|done|simpl; by rewrite Hr|done|done|simpl; rewrite N6; done|simpl; by apply dest_ok_copy|].
  intros p7 I7 O7 Hx7. set (x7 := x6 <| c_dest := _ |>) in *. assert (O07 : others [c] p p7) by by eapply others_trans.
  apply wps_bind. eapply wps_mono; [eapply (wps_new_partner X1); [done|done|]|].
  { split; [done|]. split; [done|]. intros [He _]. simpl in He. congruence. }
  intros [d|] p8 [G8 H8].
  2:{ destruct H8 as [I8 Hx8]. apply wps_bind. eapply wps_mono; [eapply (wps_free X1 _ c); done|].
      intros [] p9 (I9 & p10 & H10 & ->). apply wps_ret. split; [by destruct X; simpl in *; subst|]. split; [|done].
      eapply others_later; [exact Hno'|]. eapply others_trans; [exact O07|]. eapply others_trans; [by apply others_grown_but|].
      eapply others_trans; [by apply others_called|apply others_dropped]. }
  destruct H8 as (I8 & Hnod & Hx8 & y & Hy & Hpy & Hry & Hsy & _). simpl in I8. set (x8 := x7 <| c_partner := Some d |>) in *.
  assert (O08 : others [d; c] p p8).
  { apply (others_sub [c]); [set_solver|]. eapply others_trans; [exact O07|by apply others_grown_but]. }
  assert (Hno2 : ∀ e z, e ∈ [d; c] → ¬ live p e z).
  { intros e z He Hz. apply elem_of_cons in He as [->|He%list_elem_of_singleton]; [|subst e; by apply (Hno' c z); [set_solver|]].
    destruct (proj1 O07 d z) as (z' & Hz' & _); [|done|by apply Hnod in Hz'].
    intros Hd. by apply (Hno' d z Hd). }
  apply wps_bind. eapply wps_mono; [eapply wps_connect; [exact I8|exact Hx8|simpl; by rewrite N6|done|]|].
  { intros [He _]. simpl in He. congruence. }
  intros ok p9 [I9 M9]. destruct (mild_live _ _ _ _ M9 Hx8) as (x9 & Hx9 & Px9). destruct (mild_live _ _ _ _ M9 Hy) as (y9 & Hy9 & Py9).
  unfold place in Px9, Py9. injection Px9 as R9 S9 P9 _. injection Py9 as Ry9 Sy9 Pp9 _. apply wps_bind.
  apply (wps_mono _ _ (λ _ p', called p9 p')).
  { destruct ok; [by eapply st_epoll_set|by apply wps_ret]. }
  clear ok. intros ok p10 H10. pose proof (called_inv _ _ _ I9 H10) as I10. pose proof (called_live _ _ _ _ H10 Hx9) as Hx10.
  pose proof (called_live _ _ _ _ H10 Hy9) as Hy10.
  assert (O10 : others [d; c] p p10).
  { eapply others_trans; [exact O08|]. eapply others_trans; [by apply others_mild|by apply others_called]. }
  assert (Hleg : legs_of c x9 p10 [d; c]).
  { unfold legs_of. rewrite P9. split; [done|]. exists y9. by rewrite Sy9, Hsy. }
  destruct ok; cbn [negb].
  - eapply wps_mono; [eapply (wps_add_legs X _ c x9 [d; c]); [done|done|done|by rewrite R9|by rewrite S9|done]|].
    intros o p11 (I11 & O11 & L11). split; [done|]. split; [|done]. eapply others_later; [exact Hno2|by eapply others_trans].
  - rewrite <- P9. eapply (wps_free_legs X p10 c x9 [d; c]); [done..|]. intros p11 I11 O11. apply wps_ret.
    split; [done|]. split; [|done]. eapply others_later; [exact Hno2|by eapply others_trans].
Qed.

(** ** Closed legs are freed *)

Definition one_leg_less (x : tproxy_conn) (p : proc) : proc :=
  if c_remote x then p <| legs_remote := legs_remote p - 1 |> else p <| legs_local := legs_local p - 1 |>.
Definition unlisted (c : nat) (x : tproxy_conn) (p : proc) : proc :=
  one_leg_less x (p <| p_close_list := drop 1 (p_close_list p) |>).
Lemma unlist_inv X p c x l : inv X p → fresh X = [] → p_close_list p = c :: l → live p c x → inv (X <| fresh := [c] |>) (unlisted c x p).
Proof.
  intros I Hf Hl Hx. set (p' := unlisted c x p).
  assert (Hq : p_conn_list p' = p_conn_list p ∧ p_close_list p' = l ∧ p_conns p' = p_conns p).
  { unfold p', unlisted, one_leg_less. destruct (c_remote x); simpl; by rewrite Hl. }
  destruct Hq as (Q1 & Q2 & Q3).
  assert (Hp : queues p' ++ [c] ≡ₚ queues p ++ fresh X).
  { unfold queues. rewrite Q1, Q2, Hf, Hl, app_nil_r, <- app_assoc. f_equiv. by rewrite Permutation_app_comm. }
  assert (Hlive : ∀ d y, live p' d y ↔ live p d y) by (intros; unfold live; by rewrite Q3).
  assert (Hcount : ∀ b, count_legs b p = count_legs b p' + (if Bool.eqb (c_remote x) b then 1 else 0)).
  { intros b. assert (Hlc : leg_is b p c = Bool.eqb (c_remote x) b) by (unfold leg_is, live in *; by rewrite Hx).
    assert (Hle : leg_is b p' = leg_is b p) by (unfold leg_is; by rewrite Q3).
    unfold count_legs, queues. rewrite Hle, Q1, Q2, Hl, !List.filter_app, !length_app. simpl. rewrite Hlc. destruct (Bool.eqb _ b); simpl; lia. }
  assert (Hother : p_items p' = p_items p ∧ items_of p' = items_of p ∧ p_tp p' = p_tp p) by (unfold p', unlisted, one_leg_less; by destruct (c_remote x)).
  destruct Hother as (O1 & O2 & O3).
  destruct I as [F1 F2 F3 F4 F5 F6 F7 F8 F9 F10 F11 F12 F13 F14 F15]. split; try setoid_rewrite Hlive; unfold live_item; try setoid_rewrite O1; rewrite ?O2, ?O3; try done.
  - change (NoDup (queues p' ++ [c])). by rewrite Hp.
  - intros d. change ((∃ y, live p d y) ↔ d ∈ queues p' ++ [c]). rewrite Hp. apply F2.
  - intros d y Hy Hd. apply (F3 d y Hy). rewrite Q2 in Hd. rewrite Hl. set_solver.
  - intros d y Hy Hs. pose proof (F4 d y Hy Hs) as H. rewrite Hl, Hf in H. rewrite Q2. simpl. set_solver.
  - intros d y Hy. by destruct (F6 d y Hy).
  - specialize (Hcount false). unfold p', unlisted, one_leg_less in *. destruct (c_remote x); simpl in *; lia.
  - specialize (Hcount true). unfold p', unlisted, one_leg_less in *. destruct (c_remote x); simpl in *; lia.
Qed.
Lemma called_less x p p' : called p p' → called (one_leg_less x p) (one_leg_less x p').
Proof.
  intros (S & F & C & H). exists S. unfold frame in F. injection F as F1 F2 F3 F4 F5 F6 F7 F8 F9. unfold one_leg_less.
  destruct (c_remote x); (split; [unfold frame; simpl; congruence|by split]).
Qed.
Lemma wps_remove_closed X p : inv X p → fresh X = [] →
  wps remove_closed_connections p (λ _ p', inv X p' ∧ p_close_list p' = []).
Proof.
  intros I Hf. unfold remove_closed_connections. apply wps_bind, wps_gets.
  apply (wps_for_each (λ l p', inv X p' ∧ p_close_list p' = l)); [done| |by intros].
  clear I p. intros c l p [I Hl]. assert (Hx : ∃ x, live p c x) by (apply (i_live _ _ I); unfold queues; rewrite Hl; set_solver).
  destruct Hx as [x Hx]. apply wps_bind, wps_modify. set (p1 := p <| p_close_list := _ |>). assert (Hx1 : live p1 c x) by done.
  apply wps_bind. eapply wps_mono; [by eapply st_epoll_del|]. intros ok p2 H2. pose proof (called_live _ _ _ _ H2 Hx1) as Hx2.
  apply wps_bind, (wps_live _ _ _ _ Hx2), wps_bind, wps_modify.
  change (if c_remote x then _ else _) with (one_leg_less x p2). set (p3 := one_leg_less x p2).
  assert (H3 : called (unlisted c x p) p3) by by apply called_less.
  pose proof (called_inv _ _ _ (unlist_inv _ _ _ _ _ I Hf Hl Hx) H3) as I3.
  assert (Hx3 : live p3 c x) by (unfold p3, one_leg_less, live in *; by destruct (c_remote x)).
  eapply wps_mono; [by eapply (wps_free _ _ c x [])|]. intros [] p4 (I4 & p5 & H5 & ->). split; [by destruct X; simpl in *; subst|].
  simpl. destruct (called_grown _ _ H5) as [F5 _]. destruct (called_grown _ _ H3) as [F3 _]. unfold frame in *.
  assert (Hc : p_close_list p5 = p_close_list (unlisted c x p)) by congruence. rewrite Hc. unfold unlisted, one_leg_less. destruct (c_remote x); simpl; by rewrite Hl.
Qed.
End legs.
