(* ===== verification/TpSocksSpec.v ===== *)
(** * tpws, the SOCKS side: the invariant

    What a client's request does to the legs, and what becomes of the names
    it asks to resolve: the items of the resolver and the legs that wait for
    them. *)

From Stdlib Require Import ZArith Lia Bool List.
From Stdlib Require Import Strings.Byte Strings.String.
From stdpp Require Import base tactics list numbers option countable gmap.
From S2P Require Import Prelude CMem MPool TpProtocol TpTamper TpPools TpFiles TpIpset TpIpsetSpec TpProfile TpRequestSpec TpProfileSpec.
From S2P Require Import TpSockaddr StateMonad TpWorld TpSend TpConn TpSocks TpLoop TpSendSpec TpConnSpec.

Section socks.
Context {K : Kernel} {KO : KernelOk K} {RO : ResolverOk K} {E : Env} {EO : EnvOk E} (params : tp_params).

(** ** Replies *)

Lemma called_send fd rep p : wps (send_rep fd rep) p (λ _ p', called p p').
Proof. apply wps_bind, wps_sysret, wps_ret, after_called. Qed.
Lemma called_socks_rep ver fd rep p : wps (socks_send_rep ver fd rep) p (λ _ p', called p p').
Proof. unfold socks_send_rep. destruct (_ =? _); apply called_send. Qed.
Lemma called_socks_errno ver fd e p : wps (socks_send_rep_errno ver fd e) p (λ _ p', called p p').
Proof. unfold socks_send_rep_errno. destruct (_ =? _); apply called_send. Qed.
Lemma called_s5_rep fd rep p : wps (socks5_send_rep fd rep) p (λ _ p', called p p').
Proof. apply called_send. Qed.
Lemma called_s4_rep fd rep p : wps (socks4_send_rep fd rep) p (λ _ p', called p p').
Proof. apply called_send. Qed.

(** a reply, and what follows *)
Lemma wps_after_rep {A B} (m : M A) (k : M B) p Q :
  wps m p (λ _ p', called p p') → (∀ p', called p p' → wps k p' Q) → wps (let* _ := m in k) p Q.
Proof. intros Hm Hk. apply wps_bind. eapply wps_mono; [exact Hm|]. intros a p' H. by apply Hk. Qed.

(** a leg that is in conversation: only its SOCKS state changes *)
Lemma socks_state_fits X st c x s : leg_fits X st c x → s ∉ [S_WAIT_HANDSHAKE; S_WAIT_REQUEST; S_WAIT_RESOLVE] →
  leg_fits X st c (x <| c_socks_state := s |>).
Proof.
  intros [L1 L2 L3 L4 L5] Hs. split; try done.
  - intros H. destruct (L2 H) as [H1 H2]. split; [done|]. simpl. split; intros ->; set_solver.
  - intros [_ He]. simpl in He. done.
Qed.
Lemma wps_ack X p c x e : inv X p → live p c x → wps (proxy_remote_conn_ack c e) p (λ _ p', settled X p p').
Proof.
  intros I Hx. unfold proxy_remote_conn_ack. apply wps_bind, (wps_live _ _ x); [done|].
  destruct (c_remote x); cbn [negb]; [|by apply wps_ret, settled_refl]. apply wps_bind.
  eapply (wps_partner X); [done..|by intros _; apply wps_ret, settled_refl|]. intros d y _ Hy _ _ _ _.
  destruct (_ && _); [|by apply wps_ret, settled_refl]. apply wps_bind.
  apply (wps_set X _ _ y); [done|done|by apply leg_same_track| |done|].
  { apply socks_state_fits; [by apply (i_legs _ _ I)|]. set_solver. }
  intros p1 [I1 M1] _ _. eapply wps_mono; [apply called_socks_errno|]. intros ok p2 H2.
  split; [by eapply called_inv|]. eapply mild_trans; [done|]. by apply still_mild, still_called.
Qed.

(** a still change keeps the fields that place a leg *)
Lemma still_place p p' c x : still p p' → live p c x → ∃ x', live p' c x' ∧ place x' = place x.
Proof. intros H Hx. eapply mild_live; [|done]. by apply still_mild. Qed.

Lemma wps_check_attempt T X p c x : inv X p → live p c x →
  wps (check_connection_attempt c) p (λ _ p', inv X p' ∧ later T p p' ∧
    ∃ x', live p' c x' ∧ (c_state x' = c_state x ∨ c_state x' = CONN_AVAILABLE)).
Proof.
  intros I Hx. unfold check_connection_attempt. apply wps_bind, (wps_live _ _ x); [done|].
  assert (Hsame : ∀ p', inv X p' → mild p p' → inv X p' ∧ later T p p' ∧
    ∃ x', live p' c x' ∧ (c_state x' = c_state x ∨ c_state x' = CONN_AVAILABLE)).
  { intros p' I' M'. split; [done|]. split; [by apply mild_later|]. destruct (mild_live _ _ _ _ M' Hx) as (x' & Hx' & Ep).
    exists x'. split; [done|]. left. unfold place in Ep. congruence. }
  destruct (_ || _) eqn:Eu; [by apply wps_ret, Hsame|]. apply orb_false_iff in Eu as [Eu Er].
  apply negb_false_iff, bool_decide_eq_true in Eu. apply negb_false_iff in Er.
  apply wps_bind, wps_sys. set (p1 := after _ p). assert (H1 : still p p1) by apply still_called, after_called.
  pose proof (still_inv _ _ _ I H1) as I1. assert (Hx1 : live p1 c x) by done.
  destruct (_ =? -1); [by apply wps_ret, Hsame, still_mild|]. cbv zeta. apply wps_bind.
  apply (wps_mono _ _ (λ _ p', inv X p' ∧ later T p p' ∧ ∃ x', live p' c x' ∧ (c_state x' = c_state x ∨ c_state x' = CONN_AVAILABLE))).
  { destruct (_ =? 0); [|by apply wps_ret, Hsame, still_mild]. apply wps_bind.
    eapply wps_mono; [by eapply st_set_flow|]. intros ok p2 H2. assert (H02 : still p p2) by by eapply still_trans.
    pose proof (still_inv _ _ _ I1 H2) as I2. destruct (still_place _ _ _ _ H2 Hx1) as (x2 & Hx2 & P2). unfold place in P2. injection P2 as R2 S2 Q2 _.
    apply wps_bind. unfold alive_partner. rewrite <- Q2. fold (alive_partner x2).
    assert (Hset : ∀ ok p3, still p p3 → wps (when ok (conn_set c (λ x, x <| c_state := CONN_AVAILABLE |>)) ;;; ret ok) p3
      (λ _ p', inv X p' ∧ later T p p' ∧ ∃ x', live p' c x' ∧ (c_state x' = c_state x ∨ c_state x' = CONN_AVAILABLE))).
    { clear ok p2 H2 H02 I2 x2 Hx2 R2 S2 Q2. intros ok p3 H3. pose proof (still_inv _ _ _ I H3) as I3. destruct (still_place _ _ _ _ H3 Hx) as (x3 & Hx3 & P3).
      apply wps_bind, wps_when; [|by intros _; apply wps_ret, Hsame, still_mild]. intros _.
      unfold place in P3. injection P3 as R3 S3 Q3 _. apply (wps_live_set _ _ x3); [done|]. apply wps_ret. split; [|split].
      - eapply set_inv; [done|exact Hx3| |].
        + split; try done; simpl; rewrite S3, Eu; done.
        + destruct (i_legs _ _ I3 _ _ Hx3) as [L1 L2 L3 L4 L5]. split; try done. intros [He _]. simpl in He. rewrite L1 in He by congruence. done.
      - eapply later_trans; [by apply still_later|]. by eapply set_later.
      - eexists. split; [by apply live_set_eq|]. by right. }
    eapply (wps_partner X); [done..| |].
    - intros _. apply wps_bind. destruct ok; by apply wps_ret, Hset.
    - intros d y _ Hy _ _ _ _. apply wps_bind. destruct ok; [|by apply wps_ret, Hset].
      eapply wps_mono; [by eapply st_set_flow|]. intros ok p3 H3. apply Hset. by eapply still_trans. }
  intros ok p2 (I2 & L2 & x2 & Hx2 & S2). destruct ok; cbn [negb]; [|apply wps_ret; split; [done|]; split; [done|by exists x2]].
  apply wps_bind. eapply wps_mono; [apply silent_get_so_error|]. intros e p3 H3. pose proof (calls_called _ _ _ H3) as C3.
  pose proof (called_live _ _ _ _ C3 Hx2) as Hx3. apply wps_bind. eapply wps_mono; [eapply wps_ack; [by eapply called_inv|exact Hx3]|].
  intros ok p4 [I4 M4]. apply wps_ret. split; [done|]. destruct (mild_live _ _ _ _ M4 Hx3) as (x4 & Hx4 & P4).
  unfold place in P4. injection P4 as _ S4 _ _. split; [|exists x4; split; [done|by rewrite S4]].
  eapply later_trans; [exact L2|]. eapply later_trans; [by apply called_later|by apply mild_later].
Qed.

(** ** The connection a client asks for *)

(** [c] is no longer what is under way *)
Lemma undying_inv X p c x : inv X p → dying X = Some c → live p c x → ¬ early x → inv (X <| dying := None |>) p.
Proof.
  intros I Hd Hx He. pose proof (i_legs _ _ I) as HL. destruct I. split; try done. intros d y Hy. destruct (HL d y Hy) as [L1 L2 L3 L4 L5]. split; try done.
  intros Hey Hs _. apply L3; [done..|]. rewrite Hd. intros [= <-]. unfold live in *. congruence.
Qed.
Lemma dying_inv X p c : inv X p → dying X = None → inv (X <| dying := Some c |>) p.
Proof.
  intros I Hd. pose proof (i_legs _ _ I) as HL. destruct I. split; try done. intros d y Hy. destruct (HL d y Hy) as [L1 L2 L3 L4 L5]. split; try done.
  intros He Hs _. apply L3; [done..|]. by rewrite Hd.
Qed.

(** what [proxy_mode_connect_remote] and what calls it promise of leg [c] *)
Definition asked (T : target → Prop) (X : stage) (c : nat) (p : proc) (ok : bool) (p' : proc) : Prop :=
  inv (if ok then X <| dying := None |> else X) p' ∧ later T p p'.

(** the remote leg [d] is thrown away *)
Lemma wps_give_up {A} T X p0 p c d y (k : M A) (Q : A → proc → Prop) :
  inv (X <| fresh := [d] |>) p → fresh X = [] → live p d y → c_partner y = Some c → c_socks_ri y = None →
  (∀ z, ¬ live p0 d z) → others [d] p0 p → p_items p = p_items p0 →
  (∀ p', inv X p' → later T p0 p' → p_items p' = p_items p0 → (∃ x, live p' c x) → wps k p' Q) →
  wps (free_conn (Some d) ;;; conn_set c (λ x, x <| c_partner := None |>) ;;; k) p Q.
Proof.
  intros I Hf Hy Hp Hri Hno O Hit HQ. destruct (i_partner _ _ I _ _ _ Hy Hp) as (x & Hx & Hpx & Hrx).
  assert (Hcd : c ≠ d) by (intros ->; unfold live in *; rewrite Hx in Hy; injection Hy as ->; by destruct (c_remote y)).
  apply wps_bind. eapply wps_mono; [eapply (wps_free _ _ d y []); done|]. intros [] p2 (I2 & p1 & H1 & ->).
  pose proof (called_live _ _ _ _ H1 Hx) as Hx1. pose proof (dropped_live p1 d y c x Hx1 Hcd) as Hx2.
  assert (I2' : inv X (dropped p1 d y)) by (destruct X; simpl in *; by subst). apply wps_bind, (wps_live_set _ _ _ _ _ Hx2).
  assert (Hpt : parted y x c = x <| c_partner := None |>) by (unfold parted; by rewrite bool_decide_true). rewrite Hpt in *.
  apply HQ.
  - eapply set_inv; [done|exact Hx2|by apply leg_same_track|]. by destruct (i_legs _ _ I2' _ _ Hx2).
  - eapply later_trans; [eapply (others_later _ [d])|by eapply set_later; [exact Hx2|by left]].
    + by intros e z ->%list_elem_of_singleton.
    + eapply others_trans; [exact O|]. eapply others_trans; [by apply others_called|apply others_dropped].
  - simpl. unfold dropped. rewrite Hri. simpl. destruct (called_grown _ _ H1) as [F _]. unfold frame in F. rewrite <- Hit. congruence.
  - eexists. by apply live_set_eq.
Qed.

Lemma wps_ask T X p c x : inv X p → live p c x → fresh X = [] → dying X = Some c → unborn x → c_remote x = false →
  wps (proxy_mode_connect_remote params c) p (λ ok p', asked T X c p ok p' ∧ p_items p' = p_items p).
Proof.
  intros I Hx Hf Hd Hu Hr. unfold proxy_mode_connect_remote. apply wps_bind, (wps_live _ _ x); [done|].
  assert (Hno : ∀ {B} (m : M B) p1, inv X p1 → later T p p1 → p_items p1 = p_items p → (∀ p, wps m p (λ _ p', called p p')) →
    wps (let* _ := m in ret false) p1 (λ ok p', asked T X c p ok p' ∧ p_items p' = p_items p)).
  { intros B m p1 I1 L1 E1 Hm. apply wps_after_rep; [by apply Hm|]. intros p2 H2. apply wps_ret. split; [split|].
    - by eapply called_inv.
    - eapply later_trans; [done|by apply called_later].
    - destruct (called_grown _ _ H2) as [F _]. unfold frame in F. congruence. }
  apply wps_bind, wps_sys_ok, wps_bind. set (p1 := after _ p). assert (H1 : called p p1) by apply after_called.
  apply (wps_mono _ _ (λ _ p', called p p')).
  { destruct (negb _); [by apply wps_ret|]. eapply wps_mono; [apply silent_local_ip|]. intros b p2 H2.
    eapply called_trans; [done|exact (calls_called _ _ _ H2)]. }
  clear p1 H1. intros b p1 H1. pose proof (called_inv _ _ _ I H1) as I1. pose proof (called_live _ _ _ _ H1 Hx) as Hx1.
  assert (E1 : p_items p1 = p_items p) by (destruct (called_grown _ _ H1) as [F _]; unfold frame in F; congruence).
  destruct b; [apply Hno; [done|by apply called_later|done|intros; apply called_socks_rep]|].
  apply wps_bind. eapply wps_mono; [eapply (wps_new_partner params X); [done|done|by split]|].
  intros [d|] p2 [G2 H2].
  2:{ destruct H2 as [I2 Hx2]. apply Hno; [done| |destruct G2 as [F _]; unfold frame in F; congruence|intros; apply called_socks_rep].
      eapply later_trans; [by apply called_later|]. destruct G2 as [F L]. unfold frame in F. apply later_pipe; [|congruence]. intros e y Hy.
      destruct (decide (e = c)) as [->|Hne]; [exists x; split; [done|]; unfold live in *; left; congruence|]. exists y. split; [by apply L|by left]. }
  destruct H2 as (I2 & Hnod & Hx2 & y & Hy & Hpy & Hry & Hsy & Hriy). rewrite Hf in I2. set (x2 := x <| c_partner := Some d |>) in *.
  assert (Hnod' : ∀ z, ¬ live p d z) by (intros z Hz; apply (called_live _ _ _ _ H1) in Hz; by apply Hnod in Hz).
  assert (O2 : others [d] p p2).
  { eapply others_trans; [by apply others_called|]. destruct G2 as [F L]. unfold frame in F. split; [|congruence]. intros e z _ Hz.
    destruct (decide (e = c)) as [->|Hne]; [exists x2; split; [done|]; unfold live in *; by simplify_eq|]. exists z. split; [by apply L|done]. }
  assert (E2 : p_items p2 = p_items p) by (destruct G2 as [F _]; unfold frame in F; congruence).
  apply wps_bind. eapply wps_mono; [eapply (wps_connect params (X <| fresh := [d] |>)); [exact I2|exact Hx2|apply Hu|done|done]|].
  intros ok p3 [I3 M3]. destruct (mild_live _ _ _ _ M3 Hy) as (y3 & Hy3 & Py3). unfold place in Py3. injection Py3 as Ry3 Sy3 Pp3 Ri3.
  destruct (mild_live _ _ _ _ M3 Hx2) as (x3 & Hx3 & Px3). unfold place in Px3. injection Px3 as Rx3 Sx3 Pp3' Ri3'.
  assert (O3 : others [d] p p3) by (eapply others_trans; [exact O2|by apply others_mild]).
  assert (E3 : p_items p3 = p_items p) by (destruct M3 as [(? & ? & ? & ? & ? & _) _]; congruence).
  destruct ok; cbn [negb].
  2:{ eapply (wps_give_up T X p p3 c d y3); [done|done|done|congruence|congruence|done..|]. intros p4 I4 L4 E4 _.
      apply wps_bind, wps_gets. apply Hno; [done..|]. intros; apply called_socks_errno. }
  apply wps_bind. eapply wps_mono; [by eapply st_epoll_set|]. intros ok p4 H4.
  pose proof (called_inv _ _ _ I3 H4) as I4. pose proof (called_live _ _ _ _ H4 Hx3) as Hx4. pose proof (called_live _ _ _ _ H4 Hy3) as Hy4.
  assert (O4 : others [d] p p4) by (eapply others_trans; [exact O3|by apply others_called]).
  assert (E4 : p_items p4 = p_items p) by (destruct (called_grown _ _ H4) as [F _]; unfold frame in F; congruence).
  destruct ok; cbn [negb].
  2:{ eapply (wps_give_up T X p p4 c d y3); [done|done|done|congruence|congruence|done..|]. intros p5 I5 L5 E5 _.
      apply Hno; [done..|]. intros; apply called_socks_rep. }
  apply wps_bind. eapply wps_mono; [eapply (wps_enlist _ _ d y3 []); [done|done|congruence|done|congruence]|].
  intros [] p5 (I5 & C5 & P5 & E5). assert (Hx5 : live p5 c x3) by (unfold live; by rewrite C5).
  assert (I5' : inv X p5) by (destruct X; simpl in *; by subst).
  apply wps_bind, (wps_set X _ _ x3); [done|done|by apply leg_same_track| |done|].
  { apply socks_state_fits; [by apply (i_legs _ _ I5')|]. set_solver. }
  intros p6 [I6 M6] _ Hx6. apply wps_ret. split; [|destruct M6 as [(? & ? & ? & ? & ? & _) _]; congruence]. split.
  - eapply undying_inv; [done|done|exact Hx6|]. intros [_ He]. simpl in He. set_solver.
  - eapply (others_later _ [d]); [by intros e z ->%list_elem_of_singleton|]. eapply others_trans; [exact O4|].
    eapply others_trans; [|by apply others_mild]. split; [|done]. intros e z _ Hz. exists z. unfold live. by rewrite C5.
Qed.

(** ** The resolver's items *)

(** the part of the invariant that is about them *)
Record items_inv (X : stage) (p : proc) : Prop := ItemsInv {
  ii_ri : ∀ c x r, live p c x → c_socks_ri x = Some r → ∃ i, live_item p r i ∧ ri_ptr i = Some c;
  ii_ptr : ∀ r i c, live_item p r i → ri_ptr i = Some c → ∃ x, live p c x ∧ c_socks_ri x = Some r;
  ii_nodup : NoDup (items_of p ++ taken_items X);
  ii_items : ∀ r, (∃ i, live_item p r i) ↔ r ∈ items_of p ++ taken_items X;
  ii_item : ∀ r i, live_item p r i → len (ri_dom i) <= 255 ∧ dest_ok (sa_addr (ri_ss i))
}.
Lemma inv_items X p : inv X p → items_inv X p.
Proof. intros I. split; apply I. Qed.

(** items change, and of the legs only which item they wait for *)
Definition alike (x x' : tproxy_conn) : Prop :=
  c_remote x' = c_remote x ∧ c_state x' = c_state x ∧ c_partner x' = c_partner x ∧ c_wr_buf x' = c_wr_buf x.
Lemma alike_inv X t p p' :
  inv X p → p_conn_list p' = p_conn_list p → p_close_list p' = p_close_list p → legs_local p' = legs_local p →
  legs_remote p' = legs_remote p → p_tp p' = p_tp p →
  (∀ c x, live p c x → ∃ x', live p' c x' ∧ alike x x') →
  (∀ c x', live p' c x' → ∃ x, live p c x ∧ alike x x' ∧ leg_fits X (p_tp p) c x') →
  items_inv (X <| taken_items := t |>) p' → inv (X <| taken_items := t |>) p'.
Proof.
  intros I Q1 Q2 Q3 Q4 Q5 L1 L2 [F1 F2 F3 F4 F5]. assert (Eq : queues p' = queues p) by (unfold queues; congruence).
  assert (Hcount : ∀ b, count_legs b p' = count_legs b p).
  { intros b. apply count_perm; [by rewrite Eq|]. intros c Hc. destruct (proj2 (i_live _ _ I c)) as [x Hx]; [set_solver|].
    destruct (L1 _ _ Hx) as (x' & Hx' & Ha & _). unfold leg_is, live in *. by rewrite Hx, Hx', Ha. }
  split; try done.
  - rewrite Eq. apply I.
  - intros c. rewrite Eq. simpl. rewrite <- (i_live _ _ I). split; intros [x Hx]; [destruct (L2 _ _ Hx) as (y & Hy & _)|destruct (L1 _ _ Hx) as (y & Hy & _)]; eauto.
  - intros c x' Hx' Hc. rewrite Q2 in Hc. destruct (L2 _ _ Hx') as (x & Hx & (_ & -> & _) & _). by eapply i_closed.
  - intros c x' Hx' Hc. rewrite Q2. destruct (L2 _ _ Hx') as (x & Hx & (_ & Hs & _) & _). rewrite Hs in Hc. by apply (i_open _ _ I c x).
  - intros c x' d Hx' Hd. destruct (L2 _ _ Hx') as (x & Hx & (Hr & _ & Hp & _) & _). rewrite Hp in Hd.
    destruct (i_partner _ _ I _ _ _ Hx Hd) as (y & Hy & Hpy & Hry). destruct (L1 _ _ Hy) as (y' & Hy' & Hr' & _ & Hp' & _).
    exists y'. split; [done|]. by rewrite Hp', Hr', Hr.
  - intros c x' Hx'. destruct (L2 _ _ Hx') as (x & Hx & _ & Hf). rewrite Q5. by destruct Hf.
  - intros c x' n d y' Hx' Hn Hh Hd Hy'. destruct (L2 _ _ Hx') as (x & Hx & (_ & _ & Hp & Hb) & _).
    destruct (L2 _ _ Hy') as (y & Hy & (_ & Hs & _) & _). unfold holds in Hh. rewrite Hb in Hh. rewrite Hp in Hd.
    pose proof (i_late _ _ I _ _ _ _ _ Hx Hn Hh Hd Hy) as H. unfold late_ok in *. by rewrite Hs.
  - rewrite Q3, Hcount. apply I.
  - rewrite Q4, Hcount. apply I.
  - rewrite Q5. apply I.
Qed.

(** *** A name is queued *)

Definition queued_leg (r : nat) (x : tproxy_conn) : tproxy_conn := x <| c_socks_ri := Some r |> <| c_socks_state := S_WAIT_RESOLVE |>.
Lemma queued_inv X p p' c x i :
  inv X p → live p c x → c_type x = CONN_TYPE_SOCKS → c_socks_ri x = None → unborn x →
  len (ri_dom i) <= 255 → dest_ok (sa_addr (ri_ss i)) → ri_ptr i = Some c →
  p' = p <| p_items := p_items p ++ [Some i] |> <| resolve_list := resolve_list p ++ [length (p_items p)] |>
         <| p_conns := alter (fmap (queued_leg (length (p_items p)))) c (p_conns p) |> →
  inv X p'.
Proof.
  intros I Hx Ht Hri Hu Hd Hss Hp ->. set (r := length (p_items p)). set (p' := p <| p_items := _ |> <| resolve_list := _ |> <| p_conns := _ |>).
  assert (EX : X = X <| taken_items := taken_items X |>) by by destruct X. rewrite EX.
  assert (Hl : ∀ d y, live p d y → live p' d (if decide (c = d) then queued_leg r y else y)) by (intros; by apply (live_set p c d)).
  assert (Hb : ∀ d y', live p' d y' → ∃ y, live p d y ∧ y' = if decide (c = d) then queued_leg r y else y).
  { intros d y' Hy'. destruct (decide (c = d)) as [<-|Hne].
    - exists x. split; [done|]. specialize (Hl _ _ Hx). rewrite decide_True in Hl by done. unfold live in *. congruence.
    - exists y'. split; [|done]. unfold live in *. simpl in Hy'. by rewrite list_lookup_alter_ne in Hy'. }
  assert (Hi : ∀ q j, live_item p' q j ↔ live_item p q j ∨ q = r ∧ j = i).
  { intros q j. unfold live_item. simpl. rewrite lookup_app_Some, list_lookup_singleton_Some. split.
    - intros [?|[? [? [= <-]]]]; [by left|right]. unfold r. split; [lia|done].
    - intros [H|[-> ->]]; [by left|right]. unfold r. split; [lia|]. split; [lia|done]. }
  assert (Hnr : ∀ j, ¬ live_item p r j) by (intros j Hj%lookup_lt_Some; unfold r in Hj; lia).
  assert (Hnew : r ∉ items_of p ++ taken_items X) by (intros [j Hj]%(i_items _ _ I); by eapply Hnr).
  assert (Hperm : items_of p' ++ taken_items X ≡ₚ r :: items_of p ++ taken_items X).
  { unfold items_of. simpl. rewrite <- !app_assoc. simpl. by rewrite <- Permutation_middle. }
  apply (alike_inv X _ p); [done..| | |].
  - intros d y Hy. eexists. split; [by apply Hl|]. by case_decide.
  - intros d y' Hy'. destruct (Hb _ _ Hy') as (y & Hy & ->). exists y. split; [done|]. split; [by case_decide|].
    destruct (i_legs _ _ I _ _ Hy) as [L1 L2 L3 L4 L5]. case_decide; [|by split]. subst d.
    assert (y = x) by (unfold live in *; congruence). subst y. split; try done.
  - split.
    + intros d y' q Hy' Hq. destruct (Hb _ _ Hy') as (y & Hy & ->). case_decide as E0.
      * simpl in Hq. injection Hq as <-. exists i. subst d. split; [apply Hi; by right|done].
      * destruct (i_ri _ _ I _ _ _ Hy Hq) as (j & Hj & ?). exists j. split; [apply Hi; by left|done].
    + intros q j d [Hj|[-> ->]]%Hi Hq.
      * destruct (i_ptr _ _ I _ _ _ Hj Hq) as (y & Hy & Hry). eexists. split; [by apply Hl|]. case_decide; [|done]. subst d.
        unfold live in *. congruence.
      * assert (d = c) by congruence. subst d. eexists. split; [by apply Hl|]. by rewrite decide_True.
    + simpl. rewrite Hperm. constructor; [done|apply I].
    + intros q. simpl. rewrite Hperm, elem_of_cons, <- (i_items _ _ I). split.
      * intros [j [Hj|[-> _]]%Hi]; [right; by exists j|by left].
      * intros [->|[j Hj]]; [exists i|exists j]; apply Hi; auto.
    + intros q j [Hj|[-> ->]]%Hi; [by eapply i_item|done].
Qed.

(** *** A thread resolves it *)

Lemma resolved_inv X p p' r i f :
  inv X p → live_item p r i → ri_ptr (f i) = ri_ptr i → ri_dom (f i) = ri_dom i → dest_ok (sa_addr (ri_ss (f i))) →
  p_conns p' = p_conns p → p_conn_list p' = p_conn_list p → p_close_list p' = p_close_list p → legs_local p' = legs_local p →
  legs_remote p' = legs_remote p → p_tp p' = p_tp p → p_items p' = alter (fmap f) r (p_items p) → items_of p' ≡ₚ items_of p →
  inv X p'.
Proof.
  intros I Hi Hp Hd Hss C0 C1 C2 C3 C4 C5 C6 Hq. assert (EX : X = X <| taken_items := taken_items X |>) by by destruct X. rewrite EX.
  assert (Hl : ∀ c x, live p' c x ↔ live p c x) by (intros; unfold live; by rewrite C0).
  assert (Hb : ∀ q j', live_item p' q j' ↔ ∃ j, live_item p q j ∧ j' = if decide (r = q) then f j else j).
  { intros q j'. unfold live_item. rewrite C6, list_lookup_alter. case_decide; [|naive_solver]. subst q.
    unfold live_item in Hi. rewrite Hi. simpl. naive_solver. }
  assert (Hsame : ∀ q j, live_item p q j → let j' := if decide (r = q) then f j else j in
    ri_ptr j' = ri_ptr j ∧ len (ri_dom j') <= 255 ∧ dest_ok (sa_addr (ri_ss j'))).
  { intros q j Hj. pose proof (i_item _ _ I _ _ Hj) as [H1 H2]. simpl. case_decide; [|done]. subst q. unfold live_item in *.
    assert (j = i) by congruence. subst j. by rewrite Hp, Hd. }
  apply (alike_inv X _ p); [done..| | |].
  - intros c x Hx. exists x. by rewrite Hl.
  - intros c x Hx%Hl. exists x. split; [done|]. split; [done|]. by apply (i_legs _ _ I).
  - split.
    + intros c x q Hx%Hl Hq'. destruct (i_ri _ _ I _ _ _ Hx Hq') as (j & Hj & Hpj). destruct (Hsame _ _ Hj) as [Hs _].
      eexists. split; [apply Hb; by exists j|]. by rewrite Hs.
    + intros q j' c (j & Hj & ->)%Hb Hpj. destruct (Hsame _ _ Hj) as [Hs _]. rewrite Hs in Hpj.
      destruct (i_ptr _ _ I _ _ _ Hj Hpj) as (x & Hx & ?). exists x. by rewrite Hl.
    + simpl. rewrite Hq. apply I.
    + intros q. simpl. rewrite Hq, <- (i_items _ _ I). split; [intros [j' (j & Hj & _)%Hb]; by exists j|].
      intros [j Hj]. eexists. apply Hb. by exists j.
    + intros q j' (j & Hj & ->)%Hb. by apply Hsame.
Qed.

Lemma wps_resolver_job T X p : inv X p → wps resolver_job p (λ _ p', inv X p' ∧ later T p p').
Proof.
  intros I. unfold resolver_job. apply wps_bind, wps_gets. destruct (resolve_list p) as [|r rest] eqn:Er; [by apply wps_ret|].
  assert (Hi : ∃ i, live_item p r i) by (apply (i_items _ _ I); unfold items_of; rewrite Er; set_solver). destruct Hi as [i Hi].
  apply wps_bind, wps_modify. set (p1 := p <| resolve_list := rest |>). apply wps_bind. unfold item, wps at 1.
  change (p_items p1) with (p_items p). rewrite Hi. cbn [wp]. apply wps_bind, wps_sys. set (p2 := after _ p1). set (rp := kernel _ _).
  assert (Hda : dest_ok (sa_addr (r_addr rp))) by apply k_addr. pose proof (i_item _ _ I _ _ Hi) as [_ Hdi].
  apply wps_bind. apply (wps_mono _ _ (λ _ p3, ∃ f, ri_ptr (f i) = ri_ptr i ∧ ri_dom (f i) = ri_dom i ∧ dest_ok (sa_addr (ri_ss (f i))) ∧
    p3 = p2 <| p_items := alter (fmap f) r (p_items p2) |>)).
  { assert (Hset : ∀ f, ri_ptr (f i) = ri_ptr i → ri_dom (f i) = ri_dom i → dest_ok (sa_addr (ri_ss (f i))) →
      wps (item_set r f) p2 (λ _ p3, ∃ f, ri_ptr (f i) = ri_ptr i ∧ ri_dom (f i) = ri_dom i ∧ dest_ok (sa_addr (ri_ss (f i))) ∧
        p3 = p2 <| p_items := alter (fmap f) r (p_items p2) |>)).
    { intros f H1 H2 H3. unfold wps, item_set. change (p_items p2) with (p_items p). unfold live_item in Hi. rewrite Hi. simpl. by exists f. }
    destruct (_ =? 0); [destruct (_ <? _)|]; by apply Hset. }
  intros [] p3 (f & H1 & H2 & H3 & ->). apply wps_bind, wps_gets, wps_bind, wps_sysret.
  match goal with |- context [kernel ?h ?c] => pose proof (k_write h (fd_signal_pipe p2)) as Hw; change (K h _) with (kernel h c) in Hw; rewrite Hw end.
  simpl. apply wps_modify. split.
  - eapply (resolved_inv X p _ r i f); [done..|]. unfold items_of. simpl. rewrite Er. simpl. rewrite app_assoc, Permutation_app_comm. done.
  - split; [intros c x Hx; exists x; split; [done|by left]|]. split; [|done]. intros _. left. simpl. by destruct (p_pipe p).
Qed.

(** *** The answer has been used *)

Definition answered (r : nat) (i : resolve_item) (p : proc) : proc :=
  p <| p_conns := match ri_ptr i with
       | Some c => alter (fmap (λ x : tproxy_conn, x <| c_socks_ri := None |>)) c (p_conns p) | None => p_conns p end |>
    <| p_items := <[r := None]> (p_items p) |>.
Lemma answered_inv X p r i : inv X p → live_item p r i → taken_items X = [r] → inv (X <| taken_items := [] |>) (answered r i p).
Proof.
  intros I Hi Ht. set (p' := answered r i p). set (g := λ x : tproxy_conn, x <| c_socks_ri := None |>).
  assert (Hlk : ∀ c, p_conns p' !! c = if bool_decide (ri_ptr i = Some c) then fmap (fmap g) (p_conns p !! c) else p_conns p !! c).
  { intros c. unfold p', answered. simpl. destruct (ri_ptr i) as [e|]; [|done]. rewrite list_lookup_alter. case_decide.
    - subst e. by rewrite bool_decide_true.
    - rewrite bool_decide_false by congruence. done. }
  assert (Hl : ∀ c x, live p c x → live p' c (if bool_decide (ri_ptr i = Some c) then g x else x)).
  { intros c x Hx. unfold live in *. rewrite Hlk, Hx. by case_bool_decide. }
  assert (Hb : ∀ c x', live p' c x' → ∃ x, live p c x ∧ x' = if bool_decide (ri_ptr i = Some c) then g x else x).
  { intros c x' Hx'. unfold live in *. rewrite Hlk in Hx'. case_bool_decide; [|by eauto]. destruct (p_conns p !! c) as [[x|]|]; naive_solver. }
  assert (Hr : (r < length (p_items p))%nat) by by apply lookup_lt_Some in Hi.
  assert (Hit : ∀ q j, live_item p' q j ↔ q ≠ r ∧ live_item p q j).
  { intros q j. unfold live_item, p', answered. simpl. rewrite list_lookup_insert. case_decide as Hq; [naive_solver|]. naive_solver. }
  pose proof (i_inodup _ _ I) as Hnd. rewrite Ht in Hnd. apply NoDup_app in Hnd as (Hnd & Hnr & _).
  apply (alike_inv X _ p); [done..| | |].
  - intros c x Hx. eexists. split; [by apply Hl|]. by case_bool_decide.
  - intros c x' Hx'. destruct (Hb _ _ Hx') as (x & Hx & ->). exists x. split; [done|]. split; [by case_bool_decide|].
    destruct (i_legs _ _ I _ _ Hx) as [L1 L2 L3 L4 L5]. case_bool_decide; [|by split]. by split.
  - split.
    + intros c x' q Hx' Hq. destruct (Hb _ _ Hx') as (x & Hx & ->). case_bool_decide as Hp; [done|].
      destruct (i_ri _ _ I _ _ _ Hx Hq) as (j & Hj & Hpj). exists j. split; [|done]. apply Hit. split; [|done]. intros ->.
      unfold live_item in *. congruence.
    + intros q j c [Hq Hj]%Hit Hpj. destruct (i_ptr _ _ I _ _ _ Hj Hpj) as (x & Hx & Hrx). eexists. split; [by apply Hl|].
      case_bool_decide as Hp; [|done]. destruct (i_ptr _ _ I _ _ _ Hi Hp) as (y & Hy & Hry). unfold live in *. congruence.
    + simpl. rewrite app_nil_r. exact Hnd.
    + intros q. change (items_of p') with (items_of p). simpl. rewrite app_nil_r.
      pose proof (i_items _ _ I q) as Hq. rewrite Ht in Hq. split.
      * intros [j [Hne Hj]%Hit]. assert (Hin : q ∈ items_of p ++ [r]) by (apply Hq; eauto). set_solver.
      * intros Hin. destruct (proj2 Hq) as [j Hj]; [set_solver|]. exists j. apply Hit. split; [|done]. intros ->. by apply (Hnr r Hin), list_elem_of_singleton.
    + intros q j [_ Hj]%Hit. by eapply i_item.
Qed.

Lemma unborn_early X p c x : inv X p → live p c x → early x → c_state x ≠ CONN_CLOSED → dying X = None → unborn x ∧ c_remote x = false.
Proof.
  intros I Hx He Hs Hd. pose proof (i_legs _ _ I _ _ Hx) as [L1 L2 L3 _ _]. split; [by apply L3; [..|rewrite Hd]|].
  destruct (c_remote x); [|done]. destruct He as [He _]. by rewrite L1 in He.
Qed.
Lemma wps_resolve_complete T X p r i : inv X p → live_item p r i → fresh X = [] → dying X = None →
  wps (resolve_complete params r) p (λ ok p', p_items p' = p_items p ∧ later T p p' ∧
    if ok then inv X p' else ∃ c, ri_ptr i = Some c ∧ inv (X <| dying := Some c |>) p').
Proof.
  intros I Hi Hf Hd. unfold resolve_complete. apply wps_bind. unfold item, wps at 1. unfold live_item in Hi. rewrite Hi. cbn [wp].
  assert (Hsame : ∀ p', p' = p → p_items p' = p_items p ∧ later T p p' ∧ inv X p') by (intros ? ->; split; [done|]; split; [apply later_refl|done]).
  destruct (ri_ptr i) as [c|] eqn:Ep; [|by apply wps_ret, Hsame]. destruct (i_ptr _ _ I _ _ _ Hi Ep) as (x & Hx & Hri).
  apply wps_bind, (wps_live _ _ x); [done|]. destruct (_ || _) eqn:Es; [by apply wps_ret, Hsame|].
  apply orb_false_iff in Es as [Hst Hss]. apply bool_decide_eq_false in Hst. apply negb_false_iff, bool_decide_eq_true in Hss.
  assert (He : early x) by (split; [eapply lf_ri; [by apply (i_legs _ _ I)|by rewrite Hri]|rewrite Hss; set_solver]).
  destruct (unborn_early _ _ _ _ I Hx He Hst Hd) as [Hu Hr]. pose proof (i_legs _ _ I _ _ Hx) as Hfit.
  destruct (negb _).
  { apply wps_after_rep; [apply called_s5_rep|]. intros p1 H1. apply wps_ret. split; [destruct (called_grown _ _ H1) as [F _]; unfold frame in F; congruence|].
    split; [by apply called_later|]. exists c. split; [done|]. apply dying_inv; [by eapply called_inv|done]. }
  pose proof (i_item _ _ I _ _ Hi) as [Hdom Hdst].
  apply wps_bind, (wps_mono _ _ (λ _ p', inv X p' ∧ mild p p' ∧ ∃ x', live p' c x' ∧ unborn x' ∧ c_remote x' = false ∧ c_type x' = CONN_TYPE_SOCKS)).
  { apply wps_when; [|intros _; split; [done|]; split; [done|]; exists x; destruct He; done]. intros _.
    apply (wps_set X _ _ x); [done|done|by apply leg_same_track| |done|].
    - destruct Hfit as [L1 L2 L3 L4 [[D1 D2 D3] L6]]. split; try done.
      split; [|done]. split; [done|done|]. intros name [= <-]. lia.
    - intros p1 [I1 M1] _ Hx1. split; [done|]. split; [done|]. eexists. split; [exact Hx1|]. by destruct Hu, He. }
  intros [] p1 (I1 & M1 & x1 & Hx1 & Hu1 & Hr1 & Ht1). pose proof (i_legs _ _ I1 _ _ Hx1) as Hfit1.
  apply wps_bind, (wps_set X _ _ x1); [done|done|by apply leg_same_track| |done|].
  { apply (leg_fits_set _ _ _ x1); [done..| |apply (lf_track _ _ _ _ Hfit1)|by apply dest_ok_copy]. by intros _ _ ?. }
  intros p2 [I2 M2] _ Hx2. eapply wps_mono; [eapply (wps_ask T (X <| dying := Some c |>)); [by apply dying_inv|exact Hx2|done|done|done|done]|].
  intros ok p3 [[I3 L3] E3]. assert (E03 : p_items p3 = p_items p) by (destruct M1 as [(? & ? & ? & ? & ? & _) _], M2 as [(? & ? & ? & ? & ? & _) _]; congruence).
  assert (L03 : later T p p3) by (eapply later_trans; [by apply mild_later|]; eapply later_trans; [by apply mild_later|done]).
  split; [done|]. split; [done|]. destruct ok; [by destruct X; simpl in *; subst|]. by exists c.
Qed.

(** what the event loop finds after an answer *)
Lemma wps_resolve_pipe (T : target → Prop) X p fd : inv X p → fresh X = [] → dying X = None → taken_items X = [] → p_pipe p ≠ [] → T T_RESOLVE_PIPE →
  wps (handle_resolve_pipe params fd) p (λ '(ok, o) p', later T p p' ∧ match ok, o with
    | false, Some c => inv (X <| dying := Some c |>) p' ∧ ∃ x, live p' c x
    | _, _ => inv X p' end).
Proof.
  intros I Hf Hd Ht Hp HT. unfold handle_resolve_pipe. apply wps_bind, wps_sysret. set (p1 := after _ p).
  assert (H1 : called p p1) by apply after_called. pose proof (called_inv _ _ _ I H1) as I1.
  set (rd := r_ret _). destruct (Z.ltb_spec rd 0) as [Hneg|Hpos]; [by apply wps_ret; split; [apply called_later|]|].
  assert (Hrd : rd = 8) by (unfold rd in *; destruct (k_read (p_trace p) fd); unfold kernel in *; lia). rewrite Hrd. cbn [negb Z.eqb Pos.eqb].
  apply wps_bind, wps_gets. change (p_pipe p1) with (p_pipe p). destruct (p_pipe p) as [|r rest] eqn:Epipe; [done|].
  assert (Hi : ∃ i, live_item p1 r i) by (apply (i_items _ _ I1); unfold items_of; change (p_pipe p1) with (p_pipe p); rewrite Epipe; set_solver).
  destruct Hi as [i Hi]. apply wps_bind, wps_modify. set (p2 := p1 <| p_pipe := rest |>). set (X2 := X <| taken_items := [r] |>).
  assert (I2 : inv X2 p2).
  { assert (Hq : items_of p2 ++ [r] ≡ₚ items_of p1 ++ taken_items X).
    { rewrite Ht, app_nil_r. unfold items_of. change (p_pipe p1) with (p_pipe p). rewrite Epipe. simpl. rewrite <- app_assoc. f_equiv.
      by rewrite Permutation_app_comm. }
    apply (alike_inv X _ p1); [done..| | |].
    - intros c x Hx. by exists x.
    - intros c x Hx. exists x. split; [done|]. split; [done|]. by apply (i_legs _ _ I1).
    - split; [apply I1|apply I1|simpl; rewrite Hq; apply I1| |apply I1]. intros q. simpl. rewrite Hq. apply (i_items _ _ I1). }
  apply wps_bind. eapply wps_mono; [eapply (wps_resolve_complete T X2); [done|exact Hi|done|done]|]. intros ok p3 (E3 & L3 & H3).
  assert (Hi3 : live_item p3 r i) by (unfold live_item; by rewrite E3).
  assert (L03 : later T p p3).
  { eapply later_trans; [by apply called_later|]. apply (later_trans _ _ p2); [|done]. split; [|split; [by right|done]]. intros c x Hx. exists x. split; [done|by left]. }
  apply wps_bind. unfold item, wps at 1. unfold live_item in Hi3. rewrite Hi3. cbn [wp].
  assert (Hend : ∀ Y, inv Y p3 → taken_items Y = [r] →
    wps (match ri_ptr i with Some c => conn_set c (λ x, x <| c_socks_ri := None |>) | None => ret tt end ;;; item_free r ;;; ret (ok, ri_ptr i)) p3
      (λ a p', a = (ok, ri_ptr i) ∧ inv (Y <| taken_items := [] |>) p' ∧ later T p p' ∧ ∀ c, ri_ptr i = Some c → ∃ x, live p' c x)).
  { intros Y IY HY. apply wps_bind. apply (wps_mono _ _ (λ _ p4, p4 <| p_items := <[r := None]> (p_items p4) |> = answered r i p3 ∧ p_items p4 = p_items p3 ∧
      ∀ c, ri_ptr i = Some c → ∃ x, live p4 c x)).
    { unfold answered. destruct (ri_ptr i) as [c|] eqn:Ep; [|by apply wps_ret]. destruct (i_ptr _ _ IY _ _ _ Hi3 Ep) as (x & Hx & _).
      apply (wps_live_set _ _ x); [done|]. split; [done|]. split; [done|]. intros ? [= <-]. eexists. by apply live_set_eq. }
    intros [] p4 (E4 & Ei4 & Hc). apply wps_bind. unfold item_free, wps. rewrite Ei4, Hi3. simpl. rewrite <- Ei4, E4. split; [done|].
    split; [by apply answered_inv|]. split.
    - eapply later_trans; [exact L03|]. apply later_pipe; [|done]. intros c x Hx. unfold answered, live. simpl. destruct (ri_ptr i) as [e|]; [|by exists x; auto].
      rewrite list_lookup_alter. unfold live in Hx.
      case_decide as Ee; [subst e; exists (x <| c_socks_ri := None |>)|exists x]; rewrite Hx; (split; [done|by left]).
    - intros c Hp'. destruct (Hc c Hp') as [x Hx]. exists x. rewrite <- E4. done. }
  destruct ok.
  - eapply wps_mono; [by apply Hend|]. intros a p4 (-> & I4 & L4 & _). split; [done|]. by destruct X; simpl in *; subst.
  - destruct H3 as (c & Ep & I3). eapply wps_mono; [by apply (Hend _ I3)|]. intros a p4 (-> & I4 & L4 & Hc). rewrite Ep in *.
    split; [done|]. split; [by destruct X; simpl in *; subst|]. by apply Hc.
Qed.

(** ** Requests *)

Lemma wp_socks4_parse buf n : 8 <= len buf →
  wp (socks4_parse buf n) (λ q, match q with S4_DEST a => dest_ok (sa_addr a) | _ => True end).
Proof.
  intros Hl. unfold socks4_parse. destruct (_ <? _); [done|].
  do 2 (apply wp_bind, wp_rd; [lia|]; intros ? _). destruct (negb _); [done|]. destruct (negb _); [done|].
  do 2 (apply wp_bind, wp_rd; [lia|]; intros ? _). destruct (_ =? 0); [done|].
  apply wp_bind. rewrite bytes_at_ok by lia. apply wp_ok. case_bool_decide; [done|]. simpl. apply len_slice; lia.
Qed.
Lemma wp_socks5_parse buf n : n <= len buf → 262 <= len buf →
  wp (socks5_parse buf n) (λ q, match q with S5_DEST a => dest_ok (sa_addr a) | S5_NAME dom _ => len dom <= 255 | _ => True end).
Proof.
  intros Hn Hl. unfold socks5_parse. destruct (_ <? _); [done|].
  do 3 (apply wp_bind, wp_rd; [lia|]; intros ? _). do 2 (destruct (negb _); [done|]). destruct (_ =? _).
  { destruct (_ <? _); [done|]. apply wp_bind. rewrite bytes_at_ok by lia. apply wp_ok.
    do 2 (apply wp_bind, wp_rd; [lia|]; intros ? _). simpl. apply len_slice; lia. }
  destruct (_ =? _).
  { destruct (_ <? _); [done|]. apply wp_bind. rewrite bytes_at_ok by lia. apply wp_ok.
    do 2 (apply wp_bind, wp_rd; [lia|]; intros ? _). simpl. apply len_slice; lia. }
  destruct (_ =? _); [|done]. destruct (_ <? _); [done|]. apply wp_bind, wp_rd; [lia|]. intros l _. pose proof (zb_range l).
  destruct (_ <? _); [done|]. apply wp_bind, (wp_mono _ (λ _, True)).
  { destruct (_ <=? _); [|done]. do 2 (apply wp_bind, wp_rd; [lia|]; intros ? _). done. }
  intros port _. apply wp_bind. rewrite bytes_at_ok by lia. apply wp_ok. simpl.
  etransitivity; [apply c_str_length|]. rewrite len_slice; lia.
Qed.
Lemma wp_offers_none buf n : ∀ k, 0 <= k → 2 + k + Z.of_nat n <= len buf → wp (offers_none buf k n) (λ _, True).
Proof.
  induction n as [|n IH]; intros k Hk Hl; [done|]. cbn [offers_none]. apply wp_bind, wp_rd; [lia|]. intros m _.
  destruct (_ =? _); [done|]. apply IH; lia.
Qed.

(** a leg before its request: a change keeps it so *)
Lemma wps_set_early X p c x g (Q : unit → proc → Prop) :
  inv X p → live p c x → place (g x) = place x → c_wr_buf (g x) = c_wr_buf x → c_type (g x) = c_type x → c_track (g x) = c_track x →
  (c_socks_ri x ≠ None → c_socks_state (g x) = c_socks_state x) → dest_ok (sa_addr (c_dest (g x))) → early x → c_state x ≠ CONN_CLOSED → dying X ≠ Some c →
  (∀ p', inv X p' → later (λ _, False) p p' → live p' c (g x) → Q tt p') → wps (conn_set c g) p Q.
Proof.
  intros I Hx Hp Hb Ht Htr Hri Hd He Hs Hdy HQ. pose proof (i_legs _ _ I _ _ Hx) as [L1 L2 L3 L4 L5]. destruct (L3 He Hs Hdy) as (U1 & U2 & U3).
  apply (wps_set X _ _ x); [done|done|by apply leg_same_track| |done|].
  - unfold place in Hp. injection Hp as P1 P2 P3 P4. split; rewrite ?P1, ?P2, ?P3, ?P4, ?Hb, ?Ht, ?Htr; try done.
    + intros H. rewrite Hri by done. by apply L2.
    + intros _ _ _. unfold unborn, conn_buffers_present. by rewrite P3, Hb, Htr.
    + split; [apply L5|done].
  - intros p' [I' M'] _ Hx'. apply HQ; [done|by apply mild_later|done].
Qed.

Lemma wps_handshake T X p c x fd buf n : inv X p → live p c x → early x → c_state x ≠ CONN_CLOSED → dying X = None →
  c_socks_state x = S_WAIT_HANDSHAKE → n <= len buf →
  wps (socks5_handshake c fd buf n) p (λ ok p', inv X p' ∧ later T p p').
Proof.
  intros I Hx He Hs Hd Hss Hn. unfold socks5_handshake. assert (Hno : ∀ p', called p p' → inv X p' ∧ later T p p').
  { intros p' H. split; [by eapply called_inv|by apply called_later]. }
  destruct (Z.ltb_spec n 3); [by apply wps_ret, Hno|]. do 2 (apply wps_bind, wps_lift, wp_rd; [lia|]; intros ? _).
  destruct (_ || _) eqn:Eb; [by apply wps_ret, Hno|]. apply orb_false_iff in Eb as [_ Eb]. apply negb_false_iff, Z.leb_le in Eb.
  apply wps_bind, wps_lift. pose proof (zb_range b0). eapply wp_mono; [apply wp_offers_none; lia|]. intros [] _; cbn [negb].
  2:{ apply wps_bind, wps_sys, wps_ret, Hno, after_called. }
  apply wps_bind, wps_sysret. destruct (negb _); [apply wps_ret, Hno, after_called|]. set (p1 := after _ p).
  assert (H1 : called p p1) by apply after_called. apply wps_bind.
  apply (wps_set_early X _ _ x); [by eapply called_inv|done|done|done|done|done| |by apply (i_legs _ _ I _ _ Hx)|done|done|by rewrite Hd|].
  { intros Hri. exfalso. eapply (lf_ri _ _ _ _ (i_legs _ _ I _ _ Hx)) in Hri. by destruct Hri as (_ & ? & _). }
  intros p2 I2 L2 _. apply wps_ret. split; [done|]. eapply later_trans; [by apply called_later|]. by eapply later_mono; [|exact L2].
Qed.

(** the leg has asked for an address *)
Lemma wps_ask_dest T X p c x a : inv X p → live p c x → early x → c_state x ≠ CONN_CLOSED → dying X = None → fresh X = [] →
  dest_ok (sa_addr a) →
  wps (conn_set c (λ x, x <| c_dest := a |>) ;;; proxy_mode_connect_remote params c) p
    (λ ok p', inv (if ok then X else X <| dying := Some c |>) p' ∧ later T p p').
Proof.
  intros I Hx He Hs Hd Hf Ha. apply wps_bind, (wps_set_early X _ _ x); [done..|by rewrite Hd|]. intros p1 I1 L1 Hx1.
  destruct (unborn_early _ _ _ _ I1 Hx1) as [Hu Hr]; [done..|].
  eapply wps_mono; [eapply (wps_ask T (X <| dying := Some c |>)); [by apply dying_inv|exact Hx1|done|done|done|done]|].
  intros ok p2 [[I2 L2] _]. split; [destruct ok; [by destruct X; simpl in *; subst|done]|].
  eapply later_trans; [|done]. by eapply later_mono; [|exact L1].
Qed.

(** ... a name *)
Lemma wps_ask_name T X p c x dom port : inv X p → live p c x → early x → c_state x ≠ CONN_CLOSED → dying X = None →
  c_socks_state x = S_WAIT_REQUEST → len dom <= 255 →
  wps (let* ri := resolver_queue dom port c in
       conn_set c (λ x, x <| c_socks_ri := ri |>) ;;;
       match ri with
       | None => let* _ := socks5_send_rep (c_fd x) S5_REP_GENERAL_FAILURE in ret false
       | Some _ => conn_set c (λ x, x <| c_socks_state := S_WAIT_RESOLVE |>) ;;; ret true
       end) p (λ ok p', inv X p' ∧ later T p p').
Proof.
  intros I Hx He Hs Hd Hss Hl. pose proof (i_legs _ _ I _ _ Hx) as Hfit.
  assert (Hri : c_socks_ri x = None).
  { destruct (c_socks_ri x) eqn:E0; [|done]. exfalso. destruct (lf_ri _ _ _ _ Hfit) as (_ & _ & ?); [by rewrite E0|done]. }
  unfold resolver_queue. apply wps_bind, wps_bind, wps_sysret. set (p1 := after _ p). assert (H1 : called p p1) by apply after_called.
  pose proof (called_inv _ _ _ I H1) as I1. destruct (_ <? 0).
  - apply wps_ret, wps_bind, (wps_set_early X _ _ x); [done|done|simpl; by unfold place; rewrite Hri|done|done|done|done|by apply Hfit|done|done|by rewrite Hd|].
    intros p2 I2 L2 _. apply wps_after_rep; [apply called_s5_rep|]. intros p3 H3. apply wps_ret. split; [by eapply called_inv|].
    eapply later_trans; [by apply called_later|]. eapply later_trans; [|by apply called_later]. by eapply later_mono; [|exact L2].
  - apply wps_bind. unfold item_new, wps at 1. cbn [wp]. set (i := ResolveItem _ _ _ _ _). apply wps_bind, wps_modify, wps_bind, wps_sys_ok.
    set (p2 := p1 <| p_items := _ |> <| resolve_list := _ |>). set (p3 := after _ p2). set (r := length (p_items p1)).
    pose proof (k_sem_post (p_trace p2)) as Hsem. unfold kernel. rewrite (proj2 (Z.ltb_ge _ _) Hsem). cbn [negb]. apply wps_ret.
    apply wps_bind, (wps_live_set _ _ x); [done|]. apply wps_bind, (wps_live_set _ _ (x <| c_socks_ri := Some r |>)).
    { by apply (live_set_eq p3 c (λ x, x <| c_socks_ri := Some r |>)). }
    apply wps_ret. match goal with |- inv X ?q ∧ _ => set (p4 := q) end.
    assert (E4 : p_conns p4 = alter (fmap (queued_leg r)) c (p_conns p)).
    { unfold p4. simpl. rewrite list_alter_alter_eq. apply list_alter_ext; [|done]. intros [y|] _; done. }
    set (p5 := p1 <| p_items := p_items p1 ++ [Some i] |> <| resolve_list := resolve_list p1 ++ [r] |>
      <| p_conns := alter (fmap (queued_leg r)) c (p_conns p1) |>).
    assert (I5 : inv X p5).
    { eapply (queued_inv X p1 _ c x i); [done|done|by destruct He|done|by destruct (unborn_early _ _ _ _ I Hx)| |done|done|done].
      simpl. unfold len. rewrite length_take. lia. }
    assert (H5 : called p5 p4) by (exists []; split; [done|]; split; [exact E4|]; by exists [(SemPost, kernel (p_trace p2) SemPost)]).
    split; [by eapply called_inv|]. eapply later_trans; [|by apply called_later]. apply (later_trans _ _ p1); [by apply called_later|].
    apply later_pipe; [|done]. intros d y Hy. eexists. split; [by apply (live_set p1 c d)|]. case_decide; by left.
Qed.

Lemma wps_handle_proxy_mode T X p c x : inv X p → live p c x → c_state x ≠ CONN_CLOSED → dying X = None → fresh X = [] →
  wps (handle_proxy_mode params c) p (λ ok p', inv (if ok then X else X <| dying := Some c |>) p' ∧ later T p p').
Proof.
  intros I Hx Hs Hd Hf. unfold handle_proxy_mode. apply wps_bind, (wps_live _ _ x); [done|]. apply wps_bind, wps_sys.
  set (r := kernel _ _). set (p1 := after _ p). assert (H1 : called p p1) by apply after_called. cbv zeta.
  set (buf := buffer_of _ _). assert (Hl : len buf = 262) by by apply len_buffer_of.
  assert (Hn : r_ret r <= 262) by apply k_recv.
  set (P := λ (ok : bool) p', inv (if ok then X else X <| dying := Some c |>) p' ∧ later T p p').
  assert (Hno : ∀ p', inv X p' → later T p p' → P false p') by (intros p' I' L'; split; [by apply dying_inv|done]).
  assert (L1 : later T p p1) by by apply called_later. pose proof (called_inv _ _ _ I H1) as I1. pose proof (called_live _ _ _ _ H1 Hx) as Hx1.
  assert (Hrep : ∀ (m : M bool) p2, inv X p2 → later T p p2 → (∀ p, wps m p (λ _ p', called p p')) → wps (let* _ := m in ret false) p2 P).
  { intros m p2 I2 L2 Hm. apply wps_after_rep; [by apply Hm|]. intros p3 H3. apply wps_ret, Hno; [by eapply called_inv|].
    eapply later_trans; [done|by apply called_later]. }
  assert (Hgo : ∀ (m : M bool) p2, later T p p2 → wps m p2 (λ ok p', inv (if ok then X else X <| dying := Some c |>) p' ∧ later T p2 p') → wps m p2 P).
  { intros m p2 L2 Hm. eapply wps_mono; [exact Hm|]. intros ok p3 [I3 L3]. split; [done|by eapply later_trans]. }
  destruct (_ <? 1); [by apply wps_ret, Hno|]. case_bool_decide as Ht; cbn [negb]; [|by apply wps_ret, Hno].
  destruct (c_socks_state x) eqn:Ess; try (by apply wps_ret, Hno).
  - assert (He : early x) by (split; [done|rewrite Ess; set_solver]).
    apply wps_bind, wps_lift, wp_rd; [lia|]. intros ver _. destruct (_ && _); [by apply wps_ret, Hno|].
    apply wps_bind, (wps_set_early X _ _ x); [done..|by apply (i_legs _ _ I _ _ Hx)|done|done|by rewrite Hd|]. intros p2 I2 L2 Hx2.
    set (x2 := x <| c_socks_ver := zb ver |>) in *.
    assert (L02 : later T p p2) by (eapply later_trans; [done|]; by eapply later_mono; [|exact L2]). destruct (_ =? 5).
    + eapply wps_mono; [eapply (wps_handshake T X _ _ x2); [done|done|done|done|done|done|lia]|]. intros ok p3 [I3 L3].
      assert (L03 : later T p p3) by by eapply later_trans. destruct ok; [by split|by apply Hno].
    + apply wps_bind, wps_lift. eapply wp_mono; [apply wp_socks4_parse; lia|]. intros [| |a] Ha; [by apply wps_ret, Hno| |].
      * apply Hrep; [done|done|intros; apply called_s4_rep].
      * apply Hgo; [done|]. by apply (wps_ask_dest T X _ _ x2).
  - assert (He : early x) by (split; [done|rewrite Ess; set_solver]).
    apply wps_bind, wps_lift. eapply wp_mono; [apply wp_socks5_parse; lia|].
    intros [| |a|dom port] Ha; [by apply wps_ret, Hno| | |].
    + apply Hrep; [done|done|intros; apply called_s5_rep].
    + apply Hgo; [done|]. by apply (wps_ask_dest T X _ _ x).
    + destruct (no_resolve params); [apply Hrep; [done|done|intros; apply called_s5_rep]|].
      destruct (port =? 0); [apply Hrep; [done|done|intros; apply called_s5_rep]|].
      eapply wps_mono; [by eapply (wps_ask_name T X)|]. intros ok p2 [I2 L2].
      assert (L02 : later T p p2) by by eapply later_trans. destruct ok; [by split|by apply Hno].
Qed.
End socks.

(** ** What a failed semaphore or pipe does

    The two cases that [ResolverOk] leaves out: the item is freed while the
    threads' list, or the leg that asked, still has it. *)
Section failures.
Context {K : Kernel} {E : Env}.

(** [sem_post] fails: the item is freed, and stays in the list of the threads *)
Lemma queue_frees_listed dom port c p :
  let p1 := after CallocItem p in
  let i := ResolveItem (take 255 dom) no_addr 0 port (Some c) in
  let p2 := p1 <| p_items := p_items p1 ++ [Some i] |> <| resolve_list := resolve_list p1 ++ [length (p_items p1)] |> in
  0 <= r_ret (kernel (p_trace p) CallocItem) → r_ret (kernel (p_trace p2) SemPost) < 0 →
  ∃ p', resolver_queue dom port c p = Ok (None, p')
    ∧ resolve_list p' = resolve_list p ++ [length (p_items p)] ∧ (∀ i', ¬ live_item p' (length (p_items p)) i').
Proof.
  intros p1 i p2 Hc Hs.
  assert (Hw : wps (resolver_queue dom port c) p (λ o p', o = None
    ∧ resolve_list p' = resolve_list p ++ [length (p_items p)] ∧ (∀ i', ¬ live_item p' (length (p_items p)) i'))).
  { unfold resolver_queue. apply wps_bind, wps_sysret. rewrite (proj2 (Z.ltb_ge _ _) Hc).
    apply wps_bind. unfold item_new, wps at 1. cbn [wp]. apply wps_bind, wps_modify, wps_bind, wps_sys_ok.
    change (after CallocItem p) with p1. fold i. fold p2.
    match goal with |- context [kernel (p_trace ?q) SemPost] => change (p_trace q) with (p_trace p2) end.
    rewrite (proj2 (Z.ltb_lt _ _) Hs). cbn [negb]. apply wps_bind. unfold item_free, wps at 1.
    match goal with |- context [p_items (after SemPost ?q)] => change (p_items (after SemPost q)) with (p_items p1 ++ [Some i]) end.
    rewrite lookup_app_r, Nat.sub_diag by lia. cbn. split; [done|]. split; [done|].
    intros i' Hi. unfold live_item in Hi. simpl in Hi. rewrite list_lookup_insert_eq in Hi by (rewrite length_app; simpl; lia). done. }
  apply wps_iff in Hw as (o & p' & Eq & -> & Hl). by exists p'.
Qed.

(** ... and the thread that takes such an item out of the list uses it *)
Lemma job_uses_freed p ri rest : resolve_list p = ri :: rest → (∀ i, ¬ live_item p ri i) → resolver_job p = UB.
Proof.
  intros Hl Hi. unfold resolver_job, mbind, gets, modify, item. rewrite !bind_Ok. cbn [fst]. rewrite Hl. rewrite !bind_Ok.
  simpl. destruct (p_items p !! ri) as [[i|]|] eqn:Ei; [|done..]. by destruct (Hi i).
Qed.

(** the write to the pipe fails: the item is freed, and the leg keeps it *)
Lemma job_frees_awaited p ri rest i :
  resolve_list p = ri :: rest → live_item p ri i → (∀ h fd, r_ret (kernel h (WritePtr fd)) < 0) →
  ∃ p', resolver_job p = Ok (tt, p') ∧ p_conns p' = p_conns p ∧ (∀ i', ¬ live_item p' ri i').
Proof.
  intros Hl Hi Hw.
  assert (H : wps resolver_job p (λ _ p', p_conns p' = p_conns p ∧ (∀ i', ¬ live_item p' ri i'))).
  { unfold resolver_job. apply wps_bind, wps_gets. rewrite Hl. apply wps_bind, wps_modify, wps_bind. unfold item, wps at 1.
    cbn [p_items]. match goal with |- context [p_items ?q !! ri] => change (p_items q) with (p_items p) end. rewrite Hi. cbn [wp].
    apply wps_bind, wps_sys. match goal with |- context [wps _ ?q _] => set (p2 := q) end.
    apply wps_bind. apply (wps_mono _ _ (λ _ p3, p_conns p3 = p_conns p ∧ is_Some (mjoin (p_items p3 !! ri)))).
    { assert (Hset : ∀ f, wps (item_set ri f) p2 (λ _ p3, p_conns p3 = p_conns p ∧ is_Some (mjoin (p_items p3 !! ri)))).
      { intros f. unfold wps, item_set. change (p_items p2) with (p_items p). rewrite Hi. simpl. split; [done|].
        rewrite list_lookup_alter_eq, Hi. by eexists. }
      destruct (_ =? 0); [destruct (_ <? _)|]; by apply Hset. }
    intros [] p3 [Hc [j Hj]]. apply wps_bind, wps_gets, wps_bind, wps_sysret. rewrite (proj2 (Z.ltb_lt _ _) (Hw _ _)).
    unfold wps, item_free. change (p_items (after ?c p3)) with (p_items p3). destruct (p_items p3 !! ri) as [[j'|]|] eqn:E3; try done.
    simpl. split; [done|]. intros i' H. unfold live_item in H. simpl in H. rewrite list_lookup_insert_eq in H; [done|by eapply lookup_lt_Some]. }
  apply wps_iff in H as ([] & p' & Eq & Hp). by exists p'.
Qed.

(** ... and freeing a leg that still has a freed item uses the item *)
Lemma free_uses_freed p c x ri : live p c x → c_socks_ri x = Some ri → c_partner x = None → (∀ i, ¬ live_item p ri i) →
  free_conn (Some c) p = UB.
Proof.
  intros Hx Hr Hp Hi. assert (Hu : ∀ f q, p_items q = p_items p → item_set ri f q = UB).
  { intros f q Eq. unfold item_set. rewrite Eq. destruct (p_items p !! ri) as [[i|]|] eqn:Ei; [|done..]. by destruct (Hi i). }
  unfold free_conn, mbind, conn. rewrite Hx, bind_Ok. cbn [fst]. rewrite Hr, Hp. unfold when, sys, ret.
  destruct (c_fd x =? 0), (fst (c_splice_pipe x) =? 0); cbn [negb]; rewrite ?bind_Ok; by rewrite Hu.
Qed.
End failures.
