(* ===== verification/TpLoopSpec.v ===== *)
(** * tpws, the event loop: the invariant

    Every event that can come keeps the invariant of [TpConnSpec]: the loop
    never uses a leg or an item that has been freed, never reaches a state it
    takes for impossible, and every leg is in exactly one queue. *)

From Stdlib Require Import ZArith Lia Bool List.
From Stdlib Require Import Strings.Byte Strings.String.
From stdpp Require Import base tactics list numbers option countable gmap.
From S2P Require Import Prelude CMem MPool TpProtocol TpTamper TpPools TpFiles TpFilesSpec TpHostlist TpHostlistSpec TpIpset TpIpsetSpec.
From S2P Require Import TpProfile TpRequestSpec TpProfileSpec.
From S2P Require Import TpSockaddr StateMonad TpWorld TpSend TpConn TpSocks TpLoop TpSendSpec TpConnSpec TpSocksSpec.

Section loop.
Context {K : Kernel} {KO : KernelOk K} {RO : ResolverOk K} {E : Env} {EO : EnvOk E} (params : tp_params) (Hfix : 0 <= fix_seg params).

(** ** A segment *)

(** nothing is under way *)
Definition resting (X : stage) : Prop := fresh X = [] ∧ dying X = None ∧ drained X = None.

(** buffers too are as they were *)
Definition bufs_kept (p p' : proc) : Prop := proj c_wr_buf (p_conns p') = proj c_wr_buf (p_conns p).
Definition quiet (X : stage) (p p' : proc) : Prop := settled X p p' ∧ bufs_kept p p'.
Lemma quiet_trans X p1 p2 p3 : mild p1 p2 → bufs_kept p1 p2 → quiet X p2 p3 → quiet X p1 p3.
Proof. intros M B [S B']. split; [by eapply settled_trans|]. unfold bufs_kept in *. congruence. Qed.
Lemma still_quiet X p p' : inv X p → still p p' → quiet X p p'.
Proof. intros I H. split; [by apply still_settled|apply H]. Qed.

Lemma not_early_partner X p c x d : inv X p → live p c x → c_partner x = Some d → c_state x ≠ CONN_CLOSED → dying X = None → ¬ early x.
Proof.
  intros I Hx Hd Hs Hdy He. destruct (lf_early _ _ _ _ (i_legs _ _ I _ _ Hx) He Hs) as [Hp _]; [by rewrite Hdy|congruence].
Qed.

(** what [tamper] learns about the connection and its track *)
Lemma wps_learned X p c x st ct k (Q : outgoing → proc → Prop) :
  inv X p → live p c x → ¬ early x → keeps env_z_readfile (p_tp p) st → ct_ok st ct →
  (∀ p', quiet X p p' → wps k p' Q) →
  wps (modify (λ p, p <| p_tp := st |>) ;;; conn_set c (λ x, x <| c_track := ct |>) ;;; k) p Q.
Proof.
  intros I Hx He Hk Hct HQ. apply wps_bind, wps_modify. set (p1 := p <| p_tp := st |>). pose proof (tp_inv X p st I Hk) as I1.
  apply wps_bind, (wps_live_set _ _ x); [done|]. apply HQ. assert (Hx1 : live p1 c x) by done. split; [split|].
  - eapply set_inv; [done|exact Hx1|by apply leg_same_track|].
    pose proof (i_legs _ _ I1 _ _ Hx1) as Hf. apply (leg_fits_set _ _ _ x); [done..| |done|by apply Hf]. done.
  - eapply mild_trans; [apply tp_mild|]. by eapply set_mild.
  - by apply alter_kept.
Qed.

Lemma wp_in_range st x p X c : inv X p → live p c x → st = p_tp p → wp (in_tamper_out_range st x) (λ _, True).
Proof.
  intros I Hx ->. unfold in_tamper_out_range. destruct (dp (c_track x)) as [i|] eqn:Ei; [|done].
  destruct (ok_profile _ _ i (i_tp _ _ I)) as (pr & Ep & _); [|by rewrite Ep].
  by eapply ct_dp; [apply (i_legs _ _ I _ _ Hx)|].
Qed.

Definition fits_out (out : outgoing) : Prop :=
  0 <= out_size out <= len (out_segment out) ∧ (out_pos out = [] ∨ cuts (out_size out) (out_pos out)).
Lemma wps_tamper X p c x segment size : inv X p → dying X = None → live p c x → ¬ early x →
  0 <= size <= len segment → len segment < 2 ^ 63 →
  wps (tamper params c segment size) p (λ out p', quiet X p p' ∧ fits_out out).
Proof.
  intros I Hdy Hx He Hs Hl. unfold tamper. cbv zeta. set (as_it_is := Outgoing segment size [] 0).
  assert (Hid : ∀ p', quiet X p p' → quiet X p p' ∧ fits_out as_it_is) by (intros p' Hq; split; [done|]; split; [done|by left]).
  assert (Hrefl : quiet X p p) by by apply still_quiet.
  destruct (tamper_on params); cbn [negb]; [|by apply wps_ret, Hid]. apply wps_bind, (wps_live _ _ x); [done|]. apply wps_bind, wps_gets.
  assert (Hlater : ∀ c0, quiet X p (after c0 p)) by (intros; apply still_quiet; [done|]; by apply still_called, after_called).
  destruct (c_remote x).
  - apply wps_bind. eapply (wps_partner X); [done..| |]; [intros _; by apply wps_ret, Hid|].
    intros d y _ Hy Hpy _ _ Hsy. destruct (bTamperInCutoff _); [by apply wps_ret, Hid|].
    apply wps_bind, wps_sysret. destruct (Hlater Time) as [[I1 M1] B1]. set (p1 := after Time p) in *. assert (Hy1 : live p1 d y) by done.
    apply wps_bind, wps_lift. eapply wp_mono; [apply (wp_tamper_in env_alloc env_room_fail env_z_readfile env_writable);
      [apply I|by apply (i_legs _ _ I _ _ Hy)|lia]|]. intros [st ct] [Hk Hct].
    eapply (wps_learned X p1 d y); [done|done|by eapply not_early_partner|done|done|].
    intros p2 Hq. apply wps_ret, Hid. by eapply quiet_trans.
  - apply wps_bind, wps_lift. eapply wp_mono; [by eapply wp_in_range|]. intros [] _; cbn [negb]; [|by apply wps_ret, Hid].
    apply wps_bind, wps_sysret. destruct (Hlater Time) as [[I1 M1] B1]. set (p1 := after Time p) in *. assert (Hx1 : live p1 c x) by done.
    apply wps_bind, wps_gets, wps_bind, wps_lift. pose proof (i_legs _ _ I _ _ Hx) as Hf.
    eapply wp_mono; [apply (wp_tamper_out env_alloc env_room env_strdup env_room_prefix env_z_readfile env_inet_pton env_cache_hostname
      env_ipcache_lifetime env_pton4 env_pton6); [apply I|apply Hf|apply Hf|done|done|done]|].
    intros [[st ct] out] (R & Hct & Ho1 & Ho2 & Ho3).
    eapply (wps_learned X p1 c x); [done|done|done|apply reloads_keeps; [apply I|done]|done|].
    intros p2 Hq. apply wps_ret. split; [by eapply quiet_trans|]. split; [lia|]. done.
Qed.

(** ** Reading *)

Lemma wp_oob_byte X p c x : inv X p → live p c x → wp (oob_byte_of (p_tp p) (c_track x)) (λ _, True).
Proof.
  intros I Hx. unfold oob_byte_of. destruct (dp (c_track x)) as [i|] eqn:Ei; [|done].
  destruct (ok_profile _ _ i (i_tp _ _ I)) as (pr & Ep & _); [|by rewrite Ep].
  by eapply ct_dp; [apply (i_legs _ _ I _ _ Hx)|].
Qed.
Lemma bufs_live p p' d y y' : bufs_kept p p' → live p d y → live p' d y' → c_wr_buf y' = c_wr_buf y.
Proof. intros H Hy Hy'. destruct (live_kept _ _ _ _ _ H Hy) as (y2 & Hy2 & E2). unfold live in *. rewrite Hy' in Hy2. by injection Hy2 as <-. Qed.

Lemma wps_recv_leg X p c d x y : inv X p → dying X = None → live p c x → live p d y → c_partner x = Some d → c_partner y = Some c →
  c_state x ≠ CONN_CLOSED → conn_has_unsent y = false →
  wps (recv_leg params c d) p (λ _ p', settled X p p').
Proof.
  intros I Hdy Hx Hy Hpx Hpy Hs Hu. unfold recv_leg. apply wps_bind, (wps_live _ _ x); [done|]. apply wps_bind, wps_sys.
  set (r := kernel _ _). set (p1 := after _ p). assert (H1 : called p p1) by apply after_called.
  assert (Hrd : r_ret r <= RD_BLOCK_SIZE) by apply k_recv. pose proof (called_inv _ _ _ I H1) as I1.
  apply wps_bind. eapply wps_mono; [apply wps_or_again|]. intros rd ? [-> Erd].
  assert (Hr2 : rd <= RD_BLOCK_SIZE) by (subst rd; case_match; unfold RD_BLOCK_SIZE in *; lia).
  destruct (Z.ltb_spec 0 rd) as [Hpos|]; cbn [negb]; [|apply wps_ret; apply still_settled; [done|by apply still_called]].
  assert (Hl : len (buffer_of (RD_BLOCK_SIZE + 6) (r_data r)) = RD_BLOCK_SIZE + 6) by by apply len_buffer_of.
  apply wps_bind. eapply wps_mono; [eapply (wps_tamper X p1 c x); [done|done|done|by eapply not_early_partner|rewrite Hl; lia|rewrite Hl; done]|].
  intros out p2 [[[I2 M2] B2] Hout]. destruct (mild_live _ _ _ _ M2 (called_live _ _ _ _ H1 Hx)) as (x2 & Hx2 & _).
  destruct (mild_live _ _ _ _ M2 (called_live _ _ _ _ H1 Hy)) as (y2 & Hy2 & Py2). pose proof (bufs_live _ _ _ _ _ B2 (called_live _ _ _ _ H1 Hy) Hy2) as Eb2.
  apply wps_bind. eapply wps_mono; [by eapply st_count_read|]. intros [] p3 H3. pose proof (still_inv _ _ _ I2 H3) as I3.
  destruct (still_live _ _ _ _ H3 Hx2) as (x3 & Hx3 & _). destruct (still_live _ _ _ _ H3 Hy2) as (y3 & Hy3 & Ny3 & Eb3).
  apply wps_bind, (wps_live _ _ x3); [done|]. apply wps_bind, wps_gets, wps_bind, wps_lift.
  eapply wp_mono; [by eapply wp_oob_byte|]. intros oob _. apply wps_bind.
  destruct (lf_bufs _ _ _ _ (i_legs _ _ I3 _ _ Hy3)) as [Hlen Hok]. destruct (c_wr_buf y3) as [|sb tl] eqn:Eb; [done|].
  assert (Habs : send_buffers_present (sb :: tl) = false).
  { rewrite Eb3, Eb2. unfold conn_has_unsent in Hu. by apply orb_false_iff in Hu as [_ Hu]. }
  unfold send_buffers_present in Habs. simpl in Habs. apply orb_false_iff in Habs as [Hsb Htl]. destruct Hout as [Ho1 Ho2].
  eapply wps_mono; [apply (wps_send_segment params d y3 sb tl out oob p3 Hfix Ho1 Ho2 Hy3 Eb); [by apply Forall_inv in Hok|done]|].
  intros wr p4 (Ha & y4 & sb4 & Hy4 & Eb4 & Hok4 & _). apply wps_bind, wps_gets, wps_ret. split.
  - eapply (at_leg_inv X p3 p4 d y3 y4); [done..| |by rewrite Eb4|rewrite Eb4; constructor; [done|by apply Forall_inv_tail in Hok]|].
    + intros n Hn. unfold holds. rewrite Eb4, Eb. by destruct Hn as [-> | ->].
    + intros (Hp & _). exfalso. unfold nview, core in Ny3. injection Ny3 as _ _ _ Np _ _ _ _ _. unfold place in Py2. injection Py2 as _ _ Pp _. congruence.
  - eapply mild_trans; [by apply still_mild, still_called|]. eapply mild_trans; [done|]. eapply mild_trans; [by apply still_mild|].
    apply calm_mild, Ha.
Qed.

(** ** One event on a leg *)

Lemma wp_use_splice X p c x y : inv X p → live p c x → wp (use_splice params (p_tp p) x y) (λ _, True).
Proof.
  intros I Hx. unfold use_splice. do 2 (case_match; [done|]). destruct (c_remote x); [done|].
  apply wp_bind. eapply wp_mono; [by eapply wp_in_range|]. done.
Qed.
Lemma tcp_mode_late x : conn_in_tcp_mode x = true → ¬ early x.
Proof.
  unfold conn_in_tcp_mode. intros Hm [Ht Hs]. rewrite bool_decide_true in Hm by done. apply negb_true_iff, andb_false_iff in Hm as [|Hm]; [done|].
  apply negb_false_iff, bool_decide_eq_true in Hm. rewrite Hm in Hs. set_solver.
Qed.

(** what an event handler promises of leg [c]: if it fails, [c] is to be closed *)
Definition handled (T : target → Prop) (X : stage) (c : nat) (p : proc) (ok : bool) (p' : proc) : Prop :=
  inv (if ok then X else X <| dying := Some c |>) p' ∧ later T p p'.
Lemma handled_inv T X c p ok p' : dying X = None → inv X p' → later T p p' → handled T X c p ok p'.
Proof. intros Hd I L. split; [destruct ok; [done|by apply dying_inv]|done]. Qed.

Lemma wps_handle_epoll T X p c x evt : inv X p → resting X → live p c x → c_state x ≠ CONN_CLOSED →
  wps (handle_epoll params c evt) p (λ ok p', handled T X c p ok p').
Proof.
  intros I (Hf & Hd & Hr) Hx Hs. unfold handle_epoll. apply wps_bind, (wps_live _ _ x); [done|].
  destruct (conn_in_tcp_mode x) eqn:Em; cbn [negb].
  2:{ destruct (_ =? 0); [apply wps_ret, handled_inv; [done|done|apply later_refl]|]. by eapply wps_handle_proxy_mode. }
  assert (Hdone : ∀ ok p', inv X p' → mild p p' → handled T X c p ok p') by (intros; apply handled_inv; [done|done|by apply mild_later]).
  apply wps_bind. eapply wps_mono; [by eapply (wps_handle_unsent params X)|]. intros ok p1 [I1 C1]. pose proof (calm_mild _ _ C1) as M1.
  destruct ok; cbn [negb]; [|by apply wps_ret, Hdone]. destruct (mild_live _ _ _ _ M1 Hx) as (x1 & Hx1 & P1). unfold place in P1. injection P1 as R1 S1 Q1 _.
  apply wps_bind, (wps_live _ _ x1); [done|]. apply wps_bind.
  eapply (wps_partner X); [done..| |].
  - intros _. destruct (_ && _); [by apply wps_ret, Hdone|]. destruct (_ =? 0); [by apply wps_ret, Hdone|].
    apply wps_bind. eapply wps_mono; [by eapply st_waste|]. intros [] p2 H2. apply wps_ret, Hdone; [by eapply still_inv|].
    eapply mild_trans; [done|by apply still_mild].
  - intros d y Hpx Hy Hpy Hry _ Hsy. destruct (_ && _); [by apply wps_ret, Hdone|]. destruct (_ =? 0); [by apply wps_ret, Hdone|].
    destruct (conn_has_unsent y) eqn:Hu; [by apply wps_ret, Hdone|]. apply wps_bind.
    eapply wps_mono; [apply st_unread|]. intros nb p2 [H2 _]. pose proof (called_inv _ _ _ I1 H2) as I2.
    assert (M2 : mild p p2) by (eapply mild_trans; [done|by apply still_mild, still_called]).
    destruct (0 <? nb); cbn [negb]; [|by apply wps_ret, Hdone]. apply wps_bind, wps_gets, wps_bind, wps_lift.
    pose proof (called_live _ _ _ _ H2 Hx1) as Hx2. pose proof (called_live _ _ _ _ H2 Hy) as Hy2.
    eapply wp_mono; [by eapply wp_use_splice|]. intros splice _. apply wps_bind, (wps_mono _ _ (λ _ p', settled X p p')).
    { destruct splice.
      - apply wps_bind. eapply wps_mono; [by eapply st_splice_leg|]. intros rd p3 H3. apply wps_ret.
        eapply settled_trans; [exact M2|]. by apply still_settled.
      - eapply wps_mono; [eapply (wps_recv_leg X p2 c d x1 y); [done..|by rewrite S1|done]|]. intros rd p3 H3. by eapply settled_trans. }
    intros [rd oom] p3 [I3 M3]. destruct (mild_live _ _ _ _ M3 Hx) as (x3 & Hx3 & _).
    apply wps_bind. eapply wps_mono; [by eapply (st_flow_pair X)|]. intros ok p4 H4.
    assert (M4 : mild p p4) by (eapply mild_trans; [done|by apply still_mild]). pose proof (still_inv _ _ _ I3 H4) as I4.
    destruct ok; by apply wps_ret, Hdone.
Qed.

Lemma wps_event_io T X p c x evt : inv X p → resting X → live p c x → c_state x ≠ CONN_CLOSED →
  wps (event_io params c evt) p (λ _ p', inv X p' ∧ later T p p').
Proof.
  intros I HX Hx Hs. pose proof HX as (Hf & Hd & Hr). unfold event_io. apply wps_bind.
  eapply wps_mono; [by eapply (wps_handle_epoll T X)|]. intros ok p1 [I1 L1]. destruct (proj1 L1 _ _ Hx) as (x1 & Hx1 & _).
  assert (Hover : ∀ Y, fresh Y = [] → (dying Y = None ∨ dying Y = Some c) → drained Y = None → taken_items Y = taken_items X → over Y = X).
  { intros [? ? ? ?] ? ? ? ?. destruct X. simpl in *. by subst. }
  assert (Hclose : ∀ Y p' x', inv Y p' → later T p p' → live p' c x' → fresh Y = [] → (dying Y = None ∨ dying Y = Some c) → drained Y = None →
    taken_items Y = taken_items X → wps (conn_close_with_partner_check params c) p' (λ _ p', inv X p' ∧ later T p p')).
  { intros Y p' x' I' L' Hx' Y1 Y2 Y3 Y4. eapply wps_mono; [eapply (wps_close_check params T Y); [done|exact Hx'|done|by split; [|left]]|].
    rewrite Hover by done. intros [] p2 [I2 L2]. split; [done|by eapply later_trans]. }
  destruct ok; cbn [negb].
  2:{ eapply (Hclose (X <| dying := Some c |>)); [done|done|exact Hx1|done|by right|done|done]. }
  apply wps_bind, (wps_live _ _ x1); [done|]. apply wps_bind.
  eapply (wps_partner X); [done..|by intros _; apply wps_ret|]. intros d y _ Hy _ _ _ _.
  destruct (_ && _); [|by apply wps_ret]. apply wps_bind. eapply wps_mono; [by eapply st_shutdown|]. intros ok p2 H2.
  assert (L2 : later T p p2) by (eapply later_trans; [done|by apply still_later]). pose proof (still_inv _ _ _ I1 H2) as I2.
  destruct (still_live _ _ _ _ H2 Hx1) as (x2 & Hx2 & _). apply wps_when; [|done]. intros _.
  eapply (Hclose X); [done|done|exact Hx2|done|by left|done|done].
Qed.

(** ** What is left of a leg that goes *)

Lemma drained_inv X p q : inv X p → drained X = None → inv (X <| drained := Some q |>) p.
Proof.
  intros I Hd. pose proof (i_legs _ _ I) as HL. pose proof (i_late _ _ I) as HT. destruct I. split; try done.
  - intros c x Hx. by destruct (HL c x Hx).
  - intros c x n d y Hx Hn Hh Hp Hy. destruct (HT c x n d y Hx Hn Hh Hp Hy) as [?|[?|Hdr]]; [by left|by right; left|congruence].
Qed.

(** the buffer of the partner is written *)
Lemma wps_buffer_put X p c d y n sb (Q : unit → proc → Prop) :
  inv X p → live p d y → c_partner y = Some c → sb_ok sb → drained X = Some (c, n) → c_state y ≠ CONN_CLOSED → dying X = None →
  (∀ p', settled X p p' → Q tt p') → wps (buffer_put d n sb) p Q.
Proof.
  intros I Hy Hp Hsb Hdr Hs Hdy HQ. unfold buffer_put. apply (wps_live_set _ _ y); [done|]. apply HQ.
  set (g := λ y : tproxy_conn, y <| c_wr_buf := <[n := sb]> (c_wr_buf y) |>). split; [|by eapply set_mild].
  set (p' := p <| p_conns := _ |>).
  assert (Hl : ∀ e z, live p e z → live p' e (if decide (d = e) then g z else z)) by (intros; by apply (live_set p d e)).
  assert (Hb : ∀ e z', live p' e z' → ∃ z, live p e z ∧ z' = if decide (d = e) then g z else z).
  { intros e z' Hz'. destruct (decide (d = e)) as [<-|Hne].
    - exists y. split; [done|]. specialize (Hl _ _ Hy). rewrite decide_True in Hl by done. unfold live in *. congruence.
    - exists z'. split; [|done]. unfold live in *. simpl in Hz'. by rewrite list_lookup_alter_ne in Hz'. }
  assert (Hg : ∀ e z, let z' := if decide (d = e) then g z else z in place z' = place z) by (intros e z; by destruct (decide (d = e))).
  assert (Hcount : ∀ b, count_legs b p' = count_legs b p).
  { intros b. apply count_perm; [done|]. intros e _. unfold leg_is, p'. simpl. rewrite list_lookup_alter. case_decide; [|done].
    destruct (p_conns p !! e) as [[z|]|] eqn:Ez; subst e; by rewrite Ez. }
  pose proof (not_early_partner _ _ _ _ _ I Hy Hp Hs Hdy) as Hne. unfold place in Hg.
  split; try apply I.
  - intros e. change (queues p') with (queues p). rewrite <- (i_live _ _ I). split; intros [z Hz]; [destruct (Hb _ _ Hz) as (z0 & ? & _); eauto|eexists; by apply Hl].
  - intros e z' Hz' He. destruct (Hb _ _ Hz') as (z & Hz & ->). specialize (Hg e z). simpl in Hg. injection Hg as _ -> _ _. by eapply i_closed.
  - intros e z' Hz' He. destruct (Hb _ _ Hz') as (z & Hz & ->). pose proof (Hg e z) as G. simpl in G. injection G as _ G _ _. rewrite G in He. by apply (i_open _ _ I e z).
  - intros e z' f Hz' He. destruct (Hb _ _ Hz') as (z & Hz & ->). pose proof (Hg e z) as G. simpl in G. injection G as G1 _ G2 _. rewrite G2 in He.
    destruct (i_partner _ _ I _ _ _ Hz He) as (w & Hw & Hpw & Hrw). eexists. split; [by apply Hl|]. pose proof (Hg f w) as G'. simpl in G'.
    injection G' as G1' _ G2' _. by rewrite G2', G1', G1.
  - intros e z' Hz'. destruct (Hb _ _ Hz') as (z & Hz & ->). pose proof (i_legs _ _ I _ _ Hz) as [L1 L2 L3 L4 L5]. case_decide; [|by split]. subst e.
    assert (z = y) by (unfold live in *; congruence). subst z. split; try done. simpl. rewrite length_insert. split; [apply L4|]. apply Forall_insert; [apply L4|done].
  - intros e z' m f w' Hz' Hm Hh Hf Hw'. destruct (Hb _ _ Hz') as (z & Hz & ->). destruct (Hb _ _ Hw') as (w & Hw & ->).
    pose proof (Hg e z) as G. simpl in G. injection G as _ _ G2 _. rewrite G2 in Hf. pose proof (Hg f w) as G'. simpl in G'. injection G' as _ G1' _ _.
    unfold late_ok. rewrite G1'. destruct (decide (d = e)) as [<-|Hde]; [|by apply (i_late _ _ I _ _ _ _ _ Hz Hm Hh Hf Hw)].
    assert (z = y) by (unfold live in *; congruence). subst z. assert (f = c) by congruence. subst f.
    destruct (decide (m = n)) as [->|Hmn]; [by right; right|]. apply (i_late _ _ I _ _ _ _ _ Hz Hm); [|done|done].
    destruct Hh as (sb' & Es & Hpr). simpl in Es. rewrite list_lookup_insert_ne in Es by done. by exists sb'.
  - intros e z' r Hz' Hr'. destruct (Hb _ _ Hz') as (z & Hz & ->). pose proof (Hg e z) as G. simpl in G. injection G as _ _ _ G. rewrite G in Hr'. by apply (i_ri _ _ I e z).
  - intros r i e Hi He. destruct (i_ptr _ _ I _ _ _ Hi He) as (z & Hz & Hr'). eexists. split; [by apply Hl|]. pose proof (Hg e z) as G. simpl in G. injection G as _ _ _ G. by rewrite G.
  - rewrite Hcount. apply I.
  - rewrite Hcount. apply I.
Qed.

Lemma place_partner p p' d y : mild p p' → live p d y → ∃ y', live p' d y' ∧ c_partner y' = c_partner y ∧ c_state y' = c_state y.
Proof. intros M Hy. destruct (mild_live _ _ _ _ M Hy) as (y' & Hy' & Ep). exists y'. unfold place in Ep. injection Ep as _ -> -> _. done. Qed.

Lemma wps_read_all X p c x n : inv X p → resting X → live p c x → c_state x ≠ CONN_CLOSED → (n = 2%nat ∧ c_state x ≠ CONN_RDHUP) ∨ n = 3%nat →
  wps (read_all_and_buffer params c n) p (λ _ p', settled (X <| drained := Some (c, n) |>) p p').
Proof.
  intros I (_ & Hd & Hr) Hx Hs Hn. unfold read_all_and_buffer. pose proof (drained_inv _ _ (c, n) I Hr) as Id. set (Y := X <| drained := _ |>) in *.
  apply wps_bind, (wps_live _ _ x); [done|]. apply wps_bind.
  eapply (wps_partner X); [done..|by intros _; apply wps_ret, settled_refl|]. intros d y Hpx Hy Hpy Hry Hcd Hsy.
  apply wps_bind. eapply wps_mono; [apply st_unread|]. intros nb p1 [H1 Hnb].
  pose proof (called_inv _ _ _ I H1) as I1. pose proof (called_inv _ _ _ Id H1) as Id1. assert (M1 : mild p p1) by by apply still_mild, still_called.
  destruct (Z.ltb_spec 0 nb) as [Hpos|]; cbn [negb]; [|by apply wps_ret].
  destruct (lf_bufs _ _ _ _ (i_legs _ _ I _ _ Hy)) as [Hlen Hok].
  destruct (lookup_lt_is_Some_2 (c_wr_buf y) n) as [sb Esb]; [lia|]. apply wps_bind, (wps_deref _ sb); [done|].
  assert (Habs : send_buffer_present sb = false).
  { destruct (send_buffer_present sb) eqn:Hpr; [|done]. exfalso. assert (Hh : holds y n) by by exists sb.
    destruct (i_late _ _ I d y n c x Hy ltac:(naive_solver) Hh Hpy Hx) as [?|[[-> ?]|?]]; [done|naive_solver|congruence]. }
  assert (Hsb : sb_ok sb) by (by eapply (Forall_lookup_1 _ _ _ _ Hok)).
  pose proof (called_live _ _ _ _ H1 Hx) as Hx1. pose proof (called_live _ _ _ _ H1 Hy) as Hy1.
  assert (Hput : ∀ sb' p2 y2 (k : M bool), settled Y p p2 → live p2 d y2 → c_partner y2 = Some c → c_state y2 ≠ CONN_CLOSED → sb_ok sb' →
    (∀ p3, settled Y p p3 → mild p2 p3 → wps k p3 (λ _ p', settled Y p p')) → wps (buffer_put d n sb' ;;; k) p2 (λ _ p', settled Y p p')).
  { intros sb' p2 y2 k [I2 M2] Hy2 Hp2 Hs2 Hok2 Hk. apply wps_bind. eapply (wps_buffer_put Y p2 c d y2); [done..|]. intros p3 [I3 M3].
    apply Hk; [|done]. split; [done|]. by eapply mild_trans. }
  apply wps_bind. eapply wps_mono; [apply (wps_create sb None nb 6 0 0); [done|lia|done|done]|]. intros [sb1 ok] p2 (Hc & Hok1 & _).
  pose proof (calls_called _ _ _ Hc) as H2. pose proof (called_inv _ _ _ Id1 H2) as I2.
  assert (M2 : mild p p2) by (eapply mild_trans; [done|by apply still_mild, still_called]).
  eapply (Hput sb1 p2 y); [done|by eapply called_live|done|done|done|]. intros p3 [I3 M3] M23.
  destruct ok; cbn [negb]; [|by apply wps_ret]. apply wps_bind, wps_sys. set (r := kernel _ _). set (p4 := after _ p3). cbv zeta.
  assert (H4 : called p3 p4) by apply after_called. assert (Hrd : r_ret r <= nb) by apply k_recv.
  assert (S4 : settled Y p p4) by (split; [by eapply called_inv|eapply mild_trans; [done|by apply still_mild, still_called]]).
  apply wps_bind, (wps_mono _ _ (λ _ p', settled Y p p')).
  { destruct (Z.ltb_spec 0 (r_ret r)) as [Hr0|]; [|by apply wps_ret]. destruct S4 as [I4 M4].
    destruct (mild_live _ _ _ _ M4 Hx) as (x4 & Hx4 & P4). unfold place in P4. injection P4 as _ Sx4 Px4 _.
    apply wps_bind, (wps_still_set _ x4); [done..|]. intros p5 H5 Hx5. destruct (place_partner _ _ _ _ (mild_trans _ _ _ M4 (still_mild _ _ H5)) Hy) as (y5 & Hy5 & _).
    apply wps_bind, (wps_still_set _ y5); [done..|]. intros p6 H6 Hy6. pose proof (still_inv _ _ _ (still_inv _ _ _ I4 H5) H6) as I6.
    destruct (still_place _ _ _ _ H6 Hx5) as (x6 & Hx6 & P6). unfold place in P6. simpl in P6. injection P6 as _ Sx6 Px6 _.
    assert (M6 : mild p p6) by (eapply mild_trans; [exact M4|]; eapply mild_trans; by apply still_mild).
    assert (Hl : len (buffer_of (nb + 6) (r_data r)) = nb + 6) by (apply len_buffer_of; lia).
    apply wps_bind. eapply wps_mono; [eapply (wps_tamper Y p6 c x6); [done|done|done| |rewrite Hl; lia|rewrite Hl; lia]|].
    { eapply not_early_partner; [exact I6|done|by rewrite Px6, Px4|by rewrite Sx6, Sx4|done]. }
    intros out p7 [[[I7 M7] _] [Ho _]]. assert (M07 : mild p p7) by by eapply mild_trans.
    destruct (place_partner _ _ _ _ M07 Hy) as (y7 & Hy7 & Py7 & Sy7).
    eapply (Hput _ p7 y7); [done|done|congruence|congruence| |].
    { unfold sb_ok. simpl. lia. }
    intros p8 [I8 M8] _. destruct (mild_live _ _ _ _ M8 Hy) as (y8 & Hy8 & _).
    eapply wps_mono; [by eapply st_update_flow|]. intros ok p9 H9. split; [by eapply still_inv|]. eapply mild_trans; [done|by apply still_mild]. }
  intros ok p5 S5. destruct ok; [by apply wps_ret|]. destruct S5 as [I5 M5]. destruct (place_partner _ _ _ _ M5 Hy) as (y5 & Hy5 & Py5 & Sy5).
  apply wps_bind, (wps_live _ _ _ _ Hy5). destruct (lf_bufs _ _ _ _ (i_legs _ _ I5 _ _ Hy5)) as [Hlen5 Hok5].
  destruct (lookup_lt_is_Some_2 (c_wr_buf y5) n) as [sb5 Esb5]; [lia|]. apply wps_bind, (wps_deref _ sb5); [done|].
  eapply (Hput _ p5 y5); [done|done|congruence|congruence|done|]. intros p6 S6 _. by apply wps_ret.
Qed.

Lemma wps_lost X p c x (f : Z → tpws → t_ctrack → res tpws) : inv X p → live p c x →
  (∀ now st ct, tpws_ok env_z_readfile st → ct_ok st ct → wp (f now st ct) (keeps env_z_readfile st)) →
  wps (lost_leg c f) p (λ _ p', settled X p p').
Proof.
  intros I Hx Hw. unfold lost_leg. apply wps_bind, (wps_live _ _ x); [done|]. apply wps_bind, wps_sysret.
  set (p1 := after Time p). assert (H1 : called p p1) by apply after_called. pose proof (called_inv _ _ _ I H1) as I1.
  apply wps_bind, wps_gets, wps_bind, wps_lift. eapply wp_mono; [apply Hw; [apply I1|by apply (i_legs _ _ I1 _ _ (called_live _ _ _ _ H1 Hx))]|].
  intros st Hk. apply wps_modify. split; [by apply tp_inv|]. eapply mild_trans; [by apply still_mild, still_called|apply tp_mild].
Qed.
Lemma wps_on_rst X p c x : inv X p → live p c x → wps (lost_leg c on_rst) p (λ _ p', settled X p p').
Proof. intros I Hx. eapply wps_lost; [done|done|]. intros now st ct Hst Hct. by apply wp_rst_in. Qed.
Lemma wps_on_hup X p c x : inv X p → live p c x → wps (lost_leg c on_hup) p (λ _ p', settled X p p').
Proof. intros I Hx. eapply wps_lost; [done|done|]. intros now st ct Hst Hct. unfold on_hup. rewrite hup_rst. by apply wp_rst_in. Qed.

(** closing ends what was under way *)
Lemma wps_close_over T X Y p0 p c x : inv Y p → later T p0 p → live p c x → Y = X <| drained := drained Y |> → resting X →
  (drained Y = None ∨ ∃ n, drained Y = Some (c, n)) →
  wps (conn_close_with_partner_check params c) p (λ _ p', inv X p' ∧ later T p0 p').
Proof.
  intros I L Hx EY (Hf & Hd & Hr) Hdr. assert (Hfy : fresh Y = []) by by rewrite EY. assert (Hdy : dying Y = None) by by rewrite EY.
  eapply wps_mono; [eapply (wps_close_check params T Y); [done|exact Hx|done|split; [by left|done]]|]. intros [] p' [I' L'].
  assert (Eo : over Y = X) by (rewrite EY; destruct X; unfold over; simpl in *; by subst). rewrite Eo in I'. split; [done|by eapply later_trans].
Qed.

Lemma wps_event_error T X p c x : inv X p → resting X → live p c x → c_state x ≠ CONN_CLOSED →
  wps (event_error params c) p (λ _ p', inv X p' ∧ later T p p').
Proof.
  intros I HX Hx Hs. unfold event_error. apply wps_bind, (wps_live _ _ x); [done|]. apply wps_bind.
  eapply wps_mono; [apply silent_get_so_error|]. intros errn p1 H1. pose proof (calls_called _ _ _ H1) as C1.
  pose proof (called_inv _ _ _ I C1) as I1. pose proof (called_live _ _ _ _ C1 Hx) as Hx1. assert (M1 : mild p p1) by by apply still_mild, still_called.
  apply wps_bind. eapply wps_mono; [by eapply wps_ack|]. intros ok p2 [I2 M2]. destruct (place_partner _ _ _ _ M2 Hx1) as (x2 & Hx2 & _ & S2).
  apply wps_bind. eapply wps_mono; [eapply (wps_read_all X p2 c x2 3); [done|done|done|by rewrite S2|by right]|]. intros ok' p3 [I3 M3].
  set (Y := X <| drained := _ |>) in *. assert (M03 : mild p p3) by (eapply mild_trans; [done|]; by eapply mild_trans).
  destruct (mild_live _ _ _ _ M03 Hx) as (x3 & Hx3 & _). apply wps_bind, (wps_live _ _ _ _ Hx3), wps_bind.
  assert (Hclose : ∀ p4, settled Y p p4 → wps (conn_close_with_partner_check params c) p4 (λ _ p', inv X p' ∧ later T p p')).
  { intros p4 [I4 M4]. destruct (mild_live _ _ _ _ M4 Hx) as (x4 & Hx4 & _).
    eapply (wps_close_over T X Y p p4); [done|by apply mild_later|exact Hx4|done|done|by right; exists 3%nat]. }
  eapply (wps_partner Y); [done..| |].
  - intros _. by apply wps_bind, wps_ret, Hclose.
  - intros d y _ Hy _ _ _ _. apply wps_bind, wps_when; [|by intros _; apply Hclose]. intros _. apply wps_bind.
    apply (wps_mono _ _ (λ _ p', settled Y p p')).
    { apply wps_when; [|done]. intros _. eapply wps_mono; [by eapply wps_on_rst|]. intros [] p4 H4. by eapply settled_trans. }
    intros [] p4 [I4 M4]. apply wps_bind. eapply wps_mono; [apply silent_setsockopt|]. intros ok4 p5 H5. pose proof (calls_called _ _ _ H5) as C5.
    apply wps_ret, Hclose. split; [by eapply called_inv|]. eapply mild_trans; [done|by apply still_mild, still_called].
Qed.

(** the leg has hung up; its last data is in its partner's second buffer *)
Lemma rdhup_inv X p c x : inv (X <| drained := Some (c, 2%nat) |>) p → drained X = None → live p c x → c_state x ≠ CONN_CLOSED →
  inv X (p <| p_conns := alter (fmap (λ x : tproxy_conn, x <| c_state := CONN_RDHUP |>)) c (p_conns p) |>).
Proof.
  intros I Hd Hx Hs. set (g := λ x : tproxy_conn, x <| c_state := CONN_RDHUP |>). set (Y := X <| drained := _ |>) in *. set (p' := p <| p_conns := _ |>).
  assert (I' : inv Y p').
  { eapply set_inv; [done|exact Hx| |].
    - by split.
    - pose proof (i_legs _ _ I _ _ Hx) as [L1 L2 L3 L4 L5]. split; try done. intros He _ Hdy. by apply L3. }
  pose proof (i_legs _ _ I') as HL. pose proof (i_late _ _ I') as HT. destruct I'. split; try done.
  - intros e z Hz. by destruct (HL e z Hz).
  - intros e z n f w Hz Hn Hh Hp Hw. destruct (HT e z n f w Hz Hn Hh Hp Hw) as [?|[?|[= <- <-]]]; [by left|by right; left|].
    right; left. split; [done|]. pose proof (live_set_eq p c g x Hx) as Hx'. unfold live, p' in *. rewrite Hx' in Hw. by injection Hw as <-.
Qed.

Lemma wps_event_rdhup (T : target → Prop) X p c x : inv X p → resting X → live p c x → c_state x ≠ CONN_CLOSED → c_state x ≠ CONN_RDHUP → T (T_CONN c) →
  wps (event_rdhup params c) p (λ _ p', inv X p' ∧ later T p p').
Proof.
  intros I HX Hx Hs Hs2 HT. pose proof HX as (Hf & Hd & Hr). unfold event_rdhup. apply wps_bind.
  eapply wps_mono; [eapply (wps_read_all X p c x 2); [done..|by left]|]. intros ok p1 [I1 M1]. set (Y := X <| drained := _ |>) in *.
  destruct (place_partner _ _ _ _ M1 Hx) as (x1 & Hx1 & _ & S1). apply wps_bind, (wps_live _ _ _ _ Hx1), wps_bind.
  apply (wps_mono _ _ (λ _ p', settled Y p p')).
  { apply wps_when; [|by intros _]. intros _. eapply wps_mono; [by eapply wps_on_hup|]. intros [] p2 H2. by eapply settled_trans. }
  intros [] p2 [I2 M2]. destruct (place_partner _ _ _ _ M2 Hx) as (x2 & Hx2 & _ & S2).
  apply wps_bind, (wps_live_set _ _ _ _ _ Hx2). set (p3 := p2 <| p_conns := _ |>).
  assert (I3 : inv X p3) by (eapply rdhup_inv; [done|done|exact Hx2|by rewrite S2]).
  assert (L3 : later T p p3). { eapply later_trans; [by apply mild_later|]. eapply set_later; [exact Hx2|by right]. }
  set (x3 := x2 <| c_state := CONN_RDHUP |>). assert (Hx3 : live p3 c x3) by by apply (live_set_eq p2 c).
  apply wps_bind, (wps_live _ _ _ _ Hx3). clear I2 M2 Hx2 Y I1 M1 Hx1.
  assert (Hdone : ∀ p', inv X p' → later T p3 p' → inv X p' ∧ later T p p') by (intros; split; [done|by eapply later_trans]).
  destruct (conn_has_unsent x3).
  { apply wps_bind. eapply wps_mono; [by eapply st_set_flow|]. intros ok4 p4 H4. apply wps_ret, Hdone; [by eapply still_inv|by apply still_later]. }
  apply wps_bind, (wps_still_set _ x3); [done..|]. intros p4 H4 Hx4. apply wps_bind.
  eapply wps_mono; [by eapply st_update_flow|]. intros ok5 p5 H5. assert (H35 : still p3 p5) by by eapply still_trans.
  pose proof (still_inv _ _ _ I3 H35) as I5. destruct (still_place _ _ _ _ H35 Hx3) as (x5 & Hx5 & P5). unfold place in P5. injection P5 as _ _ P5 _.
  assert (L5 : later T p p5) by (eapply later_trans; [done|by apply still_later]).
  apply wps_bind. unfold alive_partner. change (c_partner x3) with (c_partner x2) in P5. simpl. rewrite <- P5. fold (alive_partner x5).
  eapply (wps_partner X); [done..| |].
  - intros _. eapply wps_mono; [eapply (wps_close T X); [done|exact Hx5|rewrite Hf; by apply not_elem_of_nil|by apply rest_ends]|].
    intros [] p6 (I6 & L6 & _). assert (Eo : over X = X) by (destruct X; unfold over; simpl in *; by subst). rewrite Eo in I6.
    split; [done|by eapply later_trans].
  - intros d y _ Hy _ _ _ _. destruct (conn_has_unsent y); [by apply wps_ret|]. apply wps_bind.
    eapply wps_mono; [by eapply st_shutdown|]. intros ok6 p6 H6. pose proof (still_inv _ _ _ I5 H6) as I6.
    assert (L6 : later T p p6) by (eapply later_trans; [done|by apply still_later]).
    assert (Hclose : ∀ p7, inv X p7 → later T p p7 → wps (conn_close_with_partner_check params c) p7 (λ _ p', inv X p' ∧ later T p p')).
    { intros p7 I7 L7. destruct (proj1 L7 _ _ Hx) as (x7 & Hx7 & _). eapply (wps_close_over T X X p p7); [done|done|exact Hx7|by destruct X|done|by left]. }
    apply wps_bind, (wps_mono _ _ (λ _ p', inv X p' ∧ later T p6 p')).
    { apply wps_when; [|by intros _; split; [|apply later_refl]]. intros _. destruct (proj1 L6 _ _ Hx) as (x6 & Hx6 & _).
      eapply (wps_close_over T X X p6 p6); [done|apply later_refl|exact Hx6|by destruct X|done|by left]. }
    intros [] p7 [I7 L7]. destruct (still_live _ _ _ _ H6 Hy) as (y6 & Hy6 & _). destruct (proj1 L7 _ _ Hy6) as (y7 & Hy7 & _).
    assert (L07 : later T p p7) by by eapply later_trans. apply wps_bind, (wps_live _ _ _ _ Hy7), wps_when; [|by intros _].
    intros _. by apply Hclose.
Qed.

(** ** Any event *)

Lemma wps_conn_event (T : target → Prop) X p c x evt : inv X p → resting X → live p c x → T (T_CONN c) →
  (has_event evt EPOLLRDHUP = true → has_event evt (Z.lor EPOLLHUP EPOLLERR) = false → c_state x ≠ CONN_RDHUP) →
  wps (conn_event params c evt) p (λ _ p', inv X p' ∧ later T p p').
Proof.
  intros I HX Hx HT Hevt. pose proof HX as (Hf & Hd & Hr). unfold conn_event. apply wps_bind, (wps_still_set _ x); [done..|].
  intros p1 H1 Hx1. set (x1 := x <| c_event_count := _ |>) in *. pose proof (still_inv _ _ _ I H1) as I1.
  assert (Hdone : ∀ p', inv X p' ∧ later T p1 p' → inv X p' ∧ later T p p').
  { intros p' [I' L']. split; [done|]. eapply later_trans; [by apply still_later|done]. }
  apply wps_bind, (wps_live _ _ _ _ Hx1). change (c_state x1) with (c_state x). case_bool_decide as Hs; [by apply wps_ret, Hdone|].
  apply (wps_mono _ _ (λ _ p', inv X p' ∧ later T p1 p')); [|by intros [] p' H; apply Hdone].
  destruct (has_event evt (Z.lor EPOLLHUP EPOLLERR)) eqn:Eerr; [by eapply wps_event_error|].
  apply wps_bind, (wps_mono _ _ (λ _ p', inv X p' ∧ later T p1 p' ∧ ∃ x', live p' c x' ∧ (c_state x' = c_state x1 ∨ c_state x' = CONN_AVAILABLE))).
  { destruct (has_event evt EPOLLOUT); [by eapply wps_check_attempt|]. apply wps_ret. split; [done|]. split; [apply later_refl|]. exists x1. auto. }
  intros ok p2 (I2 & L2 & x2 & Hx2 & S2).
  assert (Hdone2 : ∀ p', inv X p' ∧ later T p2 p' → inv X p' ∧ later T p1 p').
  { intros p' [I' L']. split; [done|]. by eapply later_trans. }
  assert (Hs2 : c_state x2 ≠ CONN_CLOSED) by (destruct S2 as [-> | ->]; done).
  apply (wps_mono _ _ (λ _ p', inv X p' ∧ later T p2 p')); [|by intros [] p' H; apply Hdone2].
  destruct ok; cbn [negb]; [|by eapply wps_close_both]. destruct (has_event evt EPOLLRDHUP) eqn:Erd.
  - eapply wps_event_rdhup; [done|done|exact Hx2|done| |done]. destruct S2 as [-> | ->]; [|done]. by apply Hevt.
  - destruct (has_event evt (Z.lor EPOLLIN EPOLLOUT)); [|by apply wps_ret]. by eapply wps_event_io.
Qed.

Lemma wps_accept T X p efd i : inv X p → resting X → (i < length (p_listen p))%nat →
  wps (accept_event params efd i) p (λ _ p', inv X p' ∧ later T p p').
Proof.
  intros I (Hf & Hd & _) Hi. unfold accept_event. apply wps_bind, wps_gets.
  destruct (lookup_lt_is_Some_2 _ _ Hi) as [[fd count] Ei]. apply wps_bind, (wps_deref _ (fd, count)); [done|]. apply wps_bind, wps_modify.
  set (p1 := p <| p_listen := _ |>). assert (I1 : inv X p1) by (destruct I; by split).
  assert (L1 : later T p p1).
  { split; [intros c x Hx; exists x; split; [done|by left]|]. split; [by left|]. simpl. by rewrite length_insert. }
  apply wps_bind, wps_sysret. set (p2 := after _ p1). assert (H2 : called p1 p2) by apply after_called.
  assert (L2 : later T p p2) by (eapply later_trans; [done|by apply called_later]). pose proof (called_inv _ _ _ I1 H2) as I2.
  destruct (_ <? 0); [by apply wps_ret|]. apply wps_bind, wps_gets. destruct (_ <=? _).
  { apply wps_bind, wps_sys, wps_ret. split; [by eapply called_inv, after_called|]. eapply later_trans; [done|]. apply called_later, after_called. }
  apply wps_bind. eapply wps_mono; [by eapply (wps_add_connection params T X)|]. intros [c|] p3 (I3 & L3 & H3).
  - destruct H3 as [x Hx]. apply wps_bind, (wps_live _ _ _ _ Hx). eapply wps_mono; [apply silent_user_timeout|]. intros [] p4 H4.
    pose proof (calls_called _ _ _ H4) as C4. split; [by eapply called_inv|]. eapply later_trans; [exact L2|]. eapply later_trans; [done|by apply called_later].
  - apply wps_ret. split; [done|by eapply later_trans].
Qed.

Lemma wps_resolve_event (T : target → Prop) X p fd evt : inv X p → resting X → taken_items X = [] →
  (has_event evt EPOLLIN = true → p_pipe p ≠ []) → T T_RESOLVE_PIPE →
  wps (resolve_event params fd evt) p (λ _ p', inv X p' ∧ later T p p').
Proof.
  intros I (Hf & Hd & Hr) Ht Hp HT. unfold resolve_event. destruct (has_event evt EPOLLIN); [|by apply wps_ret].
  apply wps_bind. eapply wps_mono; [by eapply (wps_resolve_pipe params T X); [..|apply Hp|]|]. intros [ok o] p1 [L1 H1].
  destruct o as [c|]; [|by apply wps_ret; destruct ok]. apply wps_when; intros Eok; [|by destruct ok].
  apply negb_true_iff in Eok. subst ok. destruct H1 as [I1 [x Hx]].
  eapply wps_mono; [eapply (wps_close T (X <| dying := Some c |>)); [done|exact Hx|simpl; rewrite Hf; by apply not_elem_of_nil|by split; [right|left]]|].
  intros [] p2 (I2 & L2 & _). split; [by destruct X; unfold over in *; simpl in *; subst|by eapply later_trans].
Qed.

(** ** A turn of the loop *)

Definition admissible_event (p : proc) (ev : Z * target) : Prop :=
  match ev.2 with
  | T_RESOLVE_PIPE => has_event ev.1 EPOLLIN = true → p_pipe p ≠ []
  | T_LISTEN i => (i < length (p_listen p))%nat
  | T_CONN c => ∃ x, live p c x ∧
      (has_event ev.1 EPOLLRDHUP = true → has_event ev.1 (Z.lor EPOLLHUP EPOLLERR) = false → c_state x ≠ CONN_RDHUP)
  end.
(** What one wait can report: each descriptor once; legs that are there, and
    of them no second hang-up, which is not waited for; the resolver's pipe
    only if something is in it. *)
Definition admissible (p : proc) (evs : list (Z * target)) : Prop := NoDup (map snd evs) ∧ Forall (admissible_event p) evs.

Lemma later_admissible (T : target → Prop) p p' ev : later T p p' → ¬ T ev.2 → admissible_event p ev → admissible_event p' ev.
Proof.
  intros (HL & HP & HN) HT. destruct ev as [evt [|i|c]]; unfold admissible_event; simpl in *.
  - intros H He. destruct (HP (H He)) as [|?]; done.
  - by rewrite HN.
  - intros (x & Hx & H). destruct (HL _ _ Hx) as (x' & Hx' & Hr). exists x'. split; [done|]. intros H1 H2 H3. destruct (Hr H3) as [?|?]; [|done]. by apply H.
Qed.

Lemma wps_serve X p efd fd ev : inv X p → resting X → taken_items X = [] → admissible_event p ev →
  wps (serve params efd fd ev) p (λ _ p', inv X p' ∧ later (λ t, t = ev.2) p p').
Proof.
  intros I HX Ht Ha. unfold serve. destruct ev as [evt [|i|c]]; simpl in *.
  - by eapply wps_resolve_event.
  - by eapply wps_accept.
  - destruct Ha as (x & Hx & H). by eapply wps_conn_event.
Qed.

(** resolver threads work while the loop does: [n] jobs get done *)
Definition resolver_jobs (n : nat) : M unit := for_each (repeat tt n) (λ _, resolver_job).
(** before the [i]-th event, [jobs i] of them *)
Fixpoint serve_busy (jobs : nat → nat) (efd fd : Z) (i : nat) (evs : list (Z * target)) : M unit :=
  match evs with
  | [] => ret tt
  | ev :: evs => resolver_jobs (jobs i) ;;; serve params efd fd ev ;;; serve_busy jobs efd fd (Datatypes.S i) evs
  end.
(** [round] with the threads at work *)
Definition turn (jobs : nat → nat) (efd fd last_timeout_check : Z) : M (Z + option Z) :=
  let* ok := ReloadCheck in
  if negb ok then ret (inr None) else
  let* r := sys (EpollWait efd) in
  if r_ret r =? -1 then
    let* e := errno in ret (if e =? EINTR then inl last_timeout_check else inr (Some (-1)))
  else
  serve_busy jobs efd fd 0 (r_events r) ;;;
  let* tm := after_events params last_timeout_check in ret (inl tm).

Lemma busy_idle efd fd evs : ∀ i p, serve_busy (λ _, O) efd fd i evs p = serve_all params efd fd evs p.
Proof.
  induction evs as [|ev evs IH]; intros i p; [done|]. unfold serve_all in *. cbn [serve_busy for_each].
  change (mbind (resolver_jobs 0) ?k p) with (k tt p). cbv beta. unfold mbind. destruct (serve params efd fd ev p) as [[[] p']| |]; [apply IH|done..].
Qed.
Lemma turn_idle efd fd last p : turn (λ _, O) efd fd last p = round params efd fd last p.
Proof.
  unfold turn, round, mbind. destruct (ReloadCheck p) as [[ok p1]| |]; [|done..]. cbn [bind]. destruct ok; [|done]. cbn [negb].
  destruct (sys _ p1) as [[r p2]| |]; [|done..]. cbn [bind]. destruct (r_ret r =? -1); [done|]. by rewrite busy_idle.
Qed.

Lemma wps_jobs T X p n : inv X p → wps (resolver_jobs n) p (λ _ p', inv X p' ∧ later T p p').
Proof.
  intros I. unfold resolver_jobs. apply (wps_for_each (λ _ p', inv X p' ∧ later T p p')); [by split; [|apply later_refl]| |done].
  intros [] l p' [I' L']. eapply wps_mono; [by apply (wps_resolver_job T)|]. intros [] p2 [I2 L2]. split; [done|by eapply later_trans].
Qed.
Lemma wps_serve_busy jobs efd fd X evs : resting X → taken_items X = [] →
  ∀ i p, inv X p → admissible p evs → wps (serve_busy jobs efd fd i evs) p (λ _ p', inv X p').
Proof.
  intros HX Ht. induction evs as [|ev evs IH]; intros i p I [Hn Ha]; [by apply wps_ret|]. cbn [serve_busy].
  simpl in Hn. apply NoDup_cons in Hn as [Hev Hn]. apply Forall_cons in Ha as [Ha1 Ha2].
  apply wps_bind. eapply wps_mono; [by apply (wps_jobs (λ _, False))|]. intros [] p1 [I1 L1].
  apply wps_bind. eapply wps_mono; [apply (wps_serve X p1); [done|done|done|by eapply later_admissible; [exact L1|intros []|]]|]. intros [] p2 [I2 L2].
  apply IH; [done|]. split; [done|]. apply Forall_forall. intros e He. eapply later_admissible; [exact L2| |].
  - intros Ee. apply Hev. rewrite <- Ee. by apply list_elem_of_fmap_2.
  - eapply later_admissible; [exact L1|intros []|]. rewrite Forall_forall in Ha2. by apply Ha2.
Qed.

Lemma wps_after_events X p last : inv X p → resting X →
  wps (after_events params last) p (λ _ p', inv X p' ∧ p_close_list p' = []).
Proof.
  intros I (Hf & Hd & Hr). unfold after_events. apply wps_bind, wps_sysret. set (p1 := after _ p).
  assert (I1 : inv X p1) by (eapply called_inv; [done|apply after_called]).
  apply wps_bind, (wps_mono _ _ (λ _ p', inv X p')).
  { apply wps_when; [|by intros _]. intros _. eapply wps_mono; [by eapply (wps_timed_out params (λ _, False) X)|]. by intros [] p2 [? _]. }
  intros [] p2 I2. apply wps_bind. eapply wps_mono; [by eapply wps_remove_closed|]. intros [] p3 H3. by apply wps_ret.
Qed.

Lemma wps_reload X p : inv X p → wps ReloadCheck p (λ _ p', inv X p' ∧ mild p p' ∧ p_trace p' = p_trace p).
Proof.
  intros I. unfold ReloadCheck. apply wps_bind, wps_gets. destruct (p_bReload p); cbn [negb]; [|by apply wps_ret].
  apply wps_bind, wps_gets, wps_bind, wps_lift. pose proof (i_tp _ _ I) as Htp. set (st := p_tp p) in *.
    unfold LoadAllHostLists, LoadHostLists. apply wp_bind.
  eapply wp_mono; [apply (load_lists_total ∅ (addpool env_alloc) 255 env_z_readfile (λ _ _, True));
    [lia|done| |apply order_in|by apply Forall_true|by apply Forall_true]|].
  { intros n pool l _. apply (addpool_total env_alloc n pool l). }
  intros [files ok] [Hn _]. destruct ok; [|by apply wps_ret]. apply wps_bind, wps_lift. unfold LoadIpsets.
  eapply wp_mono; [apply (load_lists_total no_ips (ips_addpool env_room_prefix env_inet_pton) 254 env_z_readfile ips_room);
    [lia|apply ips_room_le|apply (ips_addpool_total env_inet_pton env_z_readfile env_pton4 env_pton6)|apply order_in|apply reset_pools; apply Htp|]|].
  { eapply fits_memory_names; [apply reset_names|]. apply Htp. }
  intros [sets ok] [Hn2 Hp2]. destruct ok; cbn [negb]; [|by apply wps_ret]. apply wps_bind, wps_modify, wps_ret.
  set (st' := st <| hostlists := _ |> <| ipsets := sets |>).
  assert (R : reloads st st').
  { split; [done|done| | |done].
    - unfold same_names, st'. simpl. rewrite (make_autolists_names env_alloc (autos st) files). unfold same_names in Hn. rewrite Hn. apply (reset_names (hostlists st)).
    - unfold same_names, st'. simpl. unfold same_names in Hn2. rewrite Hn2. apply (reset_names (ipsets st)). }
  pose proof (tp_inv X p st' I (reloads_keeps env_z_readfile _ _ Htp R)) as I'. split; [by destruct I'; split|]. split; [|done]. by repeat split.
Qed.

(** the events that the next wait reports *)
Definition next_wait (efd : Z) (p : proc) : reply := kernel (p_trace p) (EpollWait efd).

Lemma wps_turn jobs efd fd last p : inv at_rest p → admissible p (r_events (next_wait efd p)) →
  wps (turn jobs efd fd last) p (λ r p', inv at_rest p' ∧ (r_ret (next_wait efd p) ≠ -1 → r ≠ inr None → p_close_list p' = [])).
Proof.
  intros I [Hn Ha]. unfold turn. apply wps_bind. eapply wps_mono; [by eapply wps_reload|]. intros ok p1 (I1 & M1 & E1).
  destruct ok; cbn [negb]; [|by apply wps_ret]. apply wps_bind, wps_sys. rewrite E1. fold (next_wait efd p). set (p2 := after _ p1).
  assert (H2 : called p1 p2) by apply after_called. pose proof (called_inv _ _ _ I1 H2) as I2.
  destruct (Z.eqb_spec (r_ret (next_wait efd p)) (-1)); [by apply wps_bind, wps_gets, wps_ret|].
  assert (Hrest : resting at_rest) by done.
  apply wps_bind. eapply wps_mono; [eapply (wps_serve_busy jobs efd fd at_rest); [done|done|done|]|].
  { split; [done|]. eapply Forall_impl; [exact Ha|]. intros ev Hev. eapply (later_admissible (λ _, False)); [|by intros []|exact Hev].
    eapply later_trans; [by apply mild_later|by apply called_later]. }
  intros [] p3 I3. apply wps_bind. eapply wps_mono; [by eapply wps_after_events|]. intros tm p4 [I4 H4]. by apply wps_ret.
Qed.

(** ** Runs

    tpws before its loop, and what happens to it: turns of the loop with the
    resolver's threads at work, the threads while the loop waits, a signal to
    read the lists again, files that change. *)
Definition started (p : proc) : Prop :=
  p_conns p = [] ∧ p_conn_list p = [] ∧ p_close_list p = [] ∧ legs_local p = 0 ∧ legs_remote p = 0 ∧
  p_items p = [] ∧ resolve_list p = [] ∧ p_pipe p = [] ∧ tpws_ok env_z_readfile (p_tp p).

Inductive reach : proc → Prop :=
| R_start p : started p → reach p
| R_turn jobs efd fd last p tm p' : reach p → admissible p (r_events (next_wait efd p)) →
    turn jobs efd fd last p = Ok (inl tm, p') → reach p'
| R_job p p' : reach p → resolver_job p = Ok (tt, p') → reach p'
| R_signal p : reach p → reach (p <| p_bReload := true |>)
| R_edit p files : reach p → fits_memory no_ips env_z_readfile ips_room files (ipsets (p_tp p)) →
    reach (p <| p_tp := p_tp p <| fs := files |> |>).

Lemma started_inv p : started p → inv at_rest p.
Proof.
  intros (C1 & C2 & C3 & C4 & C5 & C6 & C7 & C8 & Htp).
  assert (Hno : ∀ c x, ¬ live p c x) by (intros c x; unfold live; by rewrite C1).
  assert (Hni : ∀ r i, ¬ live_item p r i) by (intros r i; unfold live_item; by rewrite C6).
  assert (Hq : queues p = []) by (unfold queues; by rewrite C2, C3). assert (Hi : items_of p = []) by (unfold items_of; by rewrite C7, C8).
  split; try (by intros c x *; intros H; exfalso; by eapply Hno).
  - rewrite Hq. constructor.
  - intros c. rewrite Hq. simpl. split; [by intros [x Hx%Hno]|by intros ?%not_elem_of_nil].
  - intros r i c H. by apply Hni in H.
  - rewrite Hi. constructor.
  - intros r. rewrite Hi. simpl. split; [by intros [i Hx%Hni]|by intros ?%not_elem_of_nil].
  - intros r i H. by apply Hni in H.
  - unfold count_legs. by rewrite Hq, C4.
  - unfold count_legs. by rewrite Hq, C5.
  - done.
Qed.
Lemma reach_inv p : reach p → inv at_rest p.
Proof.
  induction 1 as [p Hs|jobs efd fd last p tm p' _ I Ha Et|p p' _ I Ej|p _ I|p files _ I Hfs].
  - by apply started_inv.
  - pose proof (wps_turn jobs efd fd last p I Ha) as Hw. apply wps_iff in Hw as (r & p2 & E2 & I2 & _). rewrite Et in E2. by injection E2 as <- <-.
  - pose proof (wps_resolver_job (λ _, False) at_rest p I) as Hw. apply wps_iff in Hw as ([] & p2 & E2 & I2 & _). rewrite Ej in E2. by injection E2 as <-.
  - destruct I. by split.
  - apply tp_inv; [done|]. destruct (i_tp _ _ I) as [K1 K2 K3 K4 K5]. split; [by split|intros ct [J1 J2 J3]; by split|done].
Qed.
End loop.

(** C19: whatever clients, servers, the kernel and the resolver's threads do -
    as long as [sem_post] succeeds and the resolver's pipe takes every pointer
    whole ([ResolverOk]) - at every turn of the event loop the legs and the
    resolver's items are in order: every leg that has not been freed is in exactly one queue, partners
    point to each other and are of opposite sides, a closed leg waits to be
    freed and only a closed one, a leg that waits for a name and its item point
    to each other, every item is in exactly one queue, and [legs_local] and
    [legs_remote] count the legs. *)
Theorem event_loop_inv (K : Kernel) (KO : KernelOk K) (RO : ResolverOk K) (E : Env) (EO : EnvOk E) (params : tp_params) (p : proc) :
  0 <= fix_seg params → reach params p → inv at_rest p.
Proof. intros Hfix. by apply reach_inv. Qed.

(** C18: ... and, under the same condition, no turn uses a leg or an item that
    has been freed, removes a leg from a queue it is not in, or comes to a state
    the code takes for impossible: a turn is carried out to its end, after which
    what has been closed is freed.  The condition is needed: after a failed
    [sem_post] the threads' list still has the item that [resolver_queue] freed
    ([TpSocksSpec.queue_frees_listed], [job_uses_freed]), and after a failed
    write to the pipe the leg still has the item that the thread freed
    ([job_frees_awaited], [free_uses_freed]). *)
Theorem event_loop_safe (K : Kernel) (KO : KernelOk K) (RO : ResolverOk K) (E : Env) (EO : EnvOk E) (params : tp_params)
    (jobs : nat → nat) (efd fd last : Z) (p : proc) :
  0 <= fix_seg params → reach params p → admissible p (r_events (next_wait efd p)) →
  ∃ r p', turn params jobs efd fd last p = Ok (r, p') ∧
    (r_ret (next_wait efd p) ≠ -1 → r ≠ inr None →
       p_close_list p' = [] ∧ ∀ c x, live p' c x → c ∈ p_conn_list p' ∧ c_state x ≠ CONN_CLOSED).
Proof.
  intros Hfix Hr Ha. pose proof (wps_turn params Hfix jobs efd fd last p (reach_inv params Hfix p Hr) Ha) as Hw.
  apply wps_iff in Hw as (r & p' & Et & I & Hc). exists r, p'. split; [done|]. intros H1 H2. specialize (Hc H1 H2). split; [done|].
  intros c x Hx. assert (Hq : c ∈ queues p' ++ []) by (apply (i_live _ _ I); by exists x). unfold queues in Hq. rewrite Hc, !app_nil_r in Hq.
  split; [done|]. intros Hs. pose proof (i_open _ _ I _ _ Hx Hs) as Ho. rewrite Hc in Ho. by apply not_elem_of_nil in Ho.
Qed.

(** ** An instance

    One listening socket, a client that connects, offers to speak SOCKS5
    without a password and asks for 127.0.0.1, port 80. *)
Definition client_comes (h : history) : bool :=
  existsb (λ e : call * reply, match e.1 with Accept4 _ => true | _ => false end) h.
Definition one_client : Kernel := λ h c,
  match c with
  | EpollWait _ => Reply 1 0 [] no_addr 0 (0, 0) (if client_comes h then [(EPOLLIN, T_CONN 0)] else [(EPOLLIN, T_LISTEN 0)]) []
  | Accept4 _ => answer 9
  | Recv _ n =>
      let msg := if bool_decide (accepted 9 h = []) then [x05; x01; x00] else [x05; x01; x00; x01; x7f; x00; x00; x01; x00; x50] in
      Reply (Z.min n (len msg)) 0 msg no_addr 0 (0, 0) [] []
  | GetEnv _ => answer (-1)
  | Close fd => if fd <? 0 then Reply (-1) EBADF [] no_addr 0 (0, 0) [] [] else answer 0
  | Send _ data _ => answer (len data)
  | WritePtr _ | ReadPtr _ => answer 8
  | Time => answer 100
  | _ => answer 0
  end.
#[export] Instance one_client_ok : KernelOk one_client.
Proof.
  split; intros; unfold one_client; simpl; try lia. destruct c; try done; by case_match.
Qed.
#[export] Instance one_client_resolver : ResolverOk one_client.
Proof. by split. Qed.
Definition some_env : Env :=
  Build_Env (λ _ _, true) (λ _ _, true) (λ _, true) (λ _ _, true) (λ _ _, true) (λ _, None) (λ _ _, None) (λ _, true)
    false 0 (λ _ _, 0) (λ _, 0).
#[export] Instance some_env_ok : EnvOk some_env.
Proof. by split. Qed.
Definition at_start : proc :=
  Proc [] [] [] 0 0 [(3, 0)] some_tpws false [] [] [] false 0 0 0 0 0 0 [].
Definition one_turn (p : proc) : res (Z + option Z) * proc :=
  match turn (K := one_client) (E := some_env) some_params (λ _, 1%nat) 4 5 0 p with Ok (r, p') => (Ok r, p') | UB => (UB, p) | NoFuel => (NoFuel, p) end.
Definition client_there : proc := (one_turn at_start).2.

Lemma client_there_reach : reach (K := one_client) (E := some_env) some_params client_there.
Proof.
  assert (Hs : reach (K := one_client) (E := some_env) some_params at_start).
  { apply R_start. repeat (split; [done|]). apply some_tpws_ok. }
  eapply (R_turn some_params (λ _, 1%nat) 4 5 0 at_start 100); [exact Hs| |vm_compute; reflexivity].
  split; [apply NoDup_singleton|]. constructor; [|constructor]. vm_compute. lia.
Qed.
Lemma event_loop_inv_witness : inv (E := some_env) at_rest client_there.
Proof. apply (event_loop_inv one_client one_client_ok one_client_resolver some_env some_env_ok some_params client_there); [simpl; lia|apply client_there_reach]. Defined.
Lemma event_loop_safe_witness :
  ∃ r p', turn (K := one_client) (E := some_env) some_params (λ _, O) 4 5 0 client_there = Ok (r, p') ∧ p_close_list p' = [].
Proof.
  destruct (event_loop_safe one_client one_client_ok one_client_resolver some_env some_env_ok some_params (λ _, O) 4 5 0 client_there) as (r & p' & Et & H).
  - simpl. lia.
  - apply client_there_reach.
  - split; [apply NoDup_singleton|]. constructor; [|constructor]. exists (match p_conns client_there with Some x :: _ => x | _ => zero_conn end).
    split; [vm_compute; reflexivity|]. vm_compute. done.
  - exists r, p'. split; [exact Et|]. apply H; [vm_compute; done|]. intros ->. vm_compute in Et. discriminate Et.
Defined.
(** the client is told which method to use *)
Lemma client_answered : accepted 9 (p_trace (one_turn client_there).2) = [x05; x00].
Proof. vm_compute. done. Qed.
