(* ===== verification/TpDialogSpec.v ===== *)
(** * tpws, the SOCKS dialogue

    What a client is told.  The messages of SOCKS4 and SOCKS5 are written
    down with their encodings, and what a proxy is to do with each; then what
    [handle_proxy_mode] does when it receives one.  A run is described by the
    calls it adds to the trace. *)

From Stdlib Require Import ZArith Lia Bool List.
From Stdlib Require Import Strings.Byte Strings.String.
From stdpp Require Import base tactics list numbers option countable gmap.
From S2P Require Import Prelude CMem PacketsTls TpProtocol TpProtocolSpec TpFiles TpPools TpProfile TpSockaddr StateMonad.
From S2P Require Import TpWorld TpSend TpConn TpSocks TpLoop TpSendSpec TpConnSpec TpSocksSpec TpLoopSpec.

(** ** The calls of a run *)

(** if [m] returns, then with [R]: the calls it made are the last argument *)
Definition does {A} (m : M A) (p : proc) (R : A → proc → history → Prop) : Prop :=
  ∀ a p', m p = Ok (a, p') → ∃ l, p_trace p' = p_trace p ++ l ∧ R a p' l.

(** calls that say nothing and ask neither for the environment nor for the
    local addresses *)
Definition dull (e : call * reply) : Prop :=
  match fst e with Send _ _ _ | GetEnv _ | GetIfAddrs => False | _ => True end.
Definition mute {A} (m : M A) : Prop := ∀ p, does m p (λ _ _ l, Forall dull l).

Section does.
Context {K : Kernel}.

Lemma does_mono {A} (m : M A) p (R R' : A → proc → history → Prop) :
  does m p R → (∀ a p' l, R a p' l → R' a p' l) → does m p R'.
Proof. intros H HR a p' E. destruct (H a p' E) as (l & El & Hl). exists l. auto. Qed.
Lemma does_and {A} (m : M A) p (R R' : A → proc → history → Prop) :
  does m p R → does m p R' → does m p (λ a p' l, R a p' l ∧ R' a p' l).
Proof.
  intros H H' a p' E. destruct (H a p' E) as (l & El & Hl). destruct (H' a p' E) as (l' & El' & Hl').
  rewrite El in El'. apply app_inv_head in El' as <-. eauto.
Qed.
Lemma does_ret {A} (a : A) p (R : A → proc → history → Prop) : R a p [] → does (ret a) p R.
Proof. intros H b p' [= <- <-]. exists []. by rewrite app_nil_r. Qed.
Lemma does_bind {A B} (m : M A) (k : A → M B) p R :
  does m p (λ a p1 l1, does (k a) p1 (λ b p2 l2, R b p2 (l1 ++ l2))) → does (mbind m k) p R.
Proof.
  intros H b p2. unfold mbind. destruct (m p) as [[a p1]| |] eqn:Em; simpl; [|done..]. intros Ek.
  destruct (H a p1 Em) as (l1 & E1 & H1). destruct (H1 b p2 Ek) as (l2 & E2 & H2).
  exists (l1 ++ l2). by rewrite E2, E1, app_assoc.
Qed.
Lemma does_gets {A} (f : proc → A) p (R : A → proc → history → Prop) : R (f p) p [] → does (gets f) p R.
Proof. intros H b p' [= <- <-]. exists []. by rewrite app_nil_r. Qed.
Lemma does_modify f p (R : unit → proc → history → Prop) : p_trace (f p) = p_trace p → R tt (f p) [] → does (modify f) p R.
Proof. intros E H b p' [= <- <-]. exists []. by rewrite app_nil_r. Qed.
Lemma does_lift {A} (m : res A) p (R : A → proc → history → Prop) : (∀ a, m = Ok a → R a p []) → does (lift m) p R.
Proof. intros H b p'. unfold lift. destruct m as [a| |]; [|done..]. intros [= <- <-]. exists []. rewrite app_nil_r. auto. Qed.
Lemma does_deref {A} (o : option A) p (R : A → proc → history → Prop) : (∀ a, o = Some a → R a p []) → does (deref o) p R.
Proof. destruct o as [a|]; intros H; [by apply does_ret, H|done]. Qed.
Lemma does_when b m p (R : unit → proc → history → Prop) :
  (b = true → does m p R) → (b = false → R tt p []) → does (when b m) p R.
Proof. destruct b; intros H1 H2; [by apply H1|by apply does_ret, H2]. Qed.
Lemma does_sys c p (R : reply → proc → history → Prop) :
  R (kernel (p_trace p) c) (after c p) [(c, kernel (p_trace p) c)] → does (sys c) p R.
Proof. intros H a p' [= <- <-]. by exists [(c, kernel (p_trace p) c)]. Qed.
Lemma does_sysret c p (R : Z → proc → history → Prop) :
  R (r_ret (kernel (p_trace p) c)) (after c p) [(c, kernel (p_trace p) c)] → does (sysret c) p R.
Proof. intros H. apply does_bind, does_sys. by apply does_ret. Qed.
Lemma does_sys_ok c p (R : bool → proc → history → Prop) :
  R (negb (r_ret (kernel (p_trace p) c) <? 0)) (after c p) [(c, kernel (p_trace p) c)] → does (sys_ok c) p R.
Proof. intros H. apply does_bind, does_sysret. by apply does_ret. Qed.
Lemma does_conn c p (R : tproxy_conn → proc → history → Prop) : (∀ x, live p c x → R x p []) → does (conn c) p R.
Proof.
  intros H x p'. unfold conn. destruct (p_conns p !! c) as [[y|]|] eqn:E; [|done..]. intros [= <- <-]. exists [].
  rewrite app_nil_r. auto.
Qed.
Lemma does_set c f p (R : unit → proc → history → Prop) :
  (∀ x, live p c x → R tt (p <| p_conns := alter (fmap f) c (p_conns p) |>) []) → does (conn_set c f) p R.
Proof.
  intros H x p'. unfold conn_set. destruct (p_conns p !! c) as [[y|]|] eqn:E; [|done..]. intros [= <- <-]. exists [].
  rewrite app_nil_r. eauto.
Qed.
Lemma does_conn_free c p (R : unit → proc → history → Prop) : R tt (p <| p_conns := <[c := None]> (p_conns p) |>) [] → does (conn_free c) p R.
Proof. intros H a p'. unfold conn_free. destruct (p_conns p !! c) as [[y|]|]; [|done..]. intros [= <- <-]. exists []. by rewrite app_nil_r. Qed.
Lemma does_item_set r f p (R : unit → proc → history → Prop) :
  R tt (p <| p_items := alter (fmap f) r (p_items p) |>) [] → does (item_set r f) p R.
Proof. intros H a p'. unfold item_set. destruct (p_items p !! r) as [[y|]|]; [|done..]. intros [= <- <-]. exists []. by rewrite app_nil_r. Qed.
Lemma does_conn_new x p (R : nat → proc → history → Prop) :
  R (length (p_conns p)) (p <| p_conns := p_conns p ++ [Some x] |>) [] → does (conn_new x) p R.
Proof. intros H a p' [= <- <-]. exists []. by rewrite app_nil_r. Qed.
Lemma does_item_new x p (R : nat → proc → history → Prop) :
  R (length (p_items p)) (p <| p_items := p_items p ++ [Some x] |>) [] → does (item_new x) p R.
Proof. intros H a p' [= <- <-]. exists []. by rewrite app_nil_r. Qed.
Lemma does_item_free r p (R : unit → proc → history → Prop) : R tt (p <| p_items := <[r := None]> (p_items p) |>) [] → does (item_free r) p R.
Proof. intros H a p'. unfold item_free. destruct (p_items p !! r) as [[y|]|]; [|done..]. intros [= <- <-]. exists []. by rewrite app_nil_r. Qed.
Lemma does_live {A} c (x : tproxy_conn) (k : tproxy_conn → M A) p R : live p c x → does (k x) p R → does (mbind (conn c) k) p R.
Proof. intros Hx Hk. apply does_bind, does_conn. intros y Hy. unfold live in *. by simplify_eq. Qed.

(** *** Mute computations *)

Lemma mute_ret {A} (a : A) : mute (ret a).
Proof. intros p. by apply does_ret. Qed.
Lemma mute_bind {A B} (m : M A) (k : A → M B) : mute m → (∀ a, mute (k a)) → mute (mbind m k).
Proof.
  intros Hm Hk p. apply does_bind. eapply does_mono; [apply Hm|]. intros a p1 l1 H1.
  eapply does_mono; [apply Hk|]. intros b p2 l2 H2. by apply Forall_app.
Qed.
Lemma mute_gets {A} (f : proc → A) : mute (gets f).
Proof. intros p. by apply does_gets. Qed.
Lemma mute_errno : mute errno.
Proof. apply mute_gets. Qed.
Lemma mute_modify f : (∀ p, p_trace (f p) = p_trace p) → mute (modify f).
Proof. intros H p. by apply does_modify. Qed.
Lemma mute_lift {A} (m : res A) : mute (lift m).
Proof. intros p. by apply does_lift. Qed.
Lemma mute_deref {A} (o : option A) : mute (deref o).
Proof. intros p. by apply does_deref. Qed.
Lemma mute_when b m : mute m → mute (when b m).
Proof. destruct b; [done|]. intros _. apply mute_ret. Qed.
Lemma mute_sys c : (∀ r, dull (c, r)) → mute (sys c).
Proof. intros H p. apply does_sys. by constructor. Qed.
Lemma mute_sysret c : (∀ r, dull (c, r)) → mute (sysret c).
Proof. intros H p. apply does_sysret. by constructor. Qed.
Lemma mute_sys_ok c : (∀ r, dull (c, r)) → mute (sys_ok c).
Proof. intros H p. apply does_sys_ok. by constructor. Qed.
Lemma mute_conn c : mute (conn c).
Proof. intros p. by apply does_conn. Qed.
Lemma mute_set c f : mute (conn_set c f).
Proof. intros p. by apply does_set. Qed.
Lemma mute_conn_free c : mute (conn_free c).
Proof. intros p. by apply does_conn_free. Qed.
Lemma mute_item_set r f : mute (item_set r f).
Proof. intros p. by apply does_item_set. Qed.
Lemma mute_conn_new x : mute (conn_new x).
Proof. intros p. by apply does_conn_new. Qed.
Lemma mute_steps l : Forall mute l → mute (steps l).
Proof.
  induction 1 as [|m l Hm _ IH]; [apply mute_ret|]. apply mute_bind; [done|]. intros [|]; [done|apply mute_ret].
Qed.
End does.

Create HintDb mute.
#[export] Hint Resolve mute_ret mute_gets mute_errno mute_lift mute_deref mute_conn mute_set mute_conn_free mute_item_set mute_conn_new : mute.
#[export] Hint Extern 1 (mute (sys _)) => apply mute_sys; intros; exact I : mute.
#[export] Hint Extern 1 (mute (sysret _)) => apply mute_sysret; intros; exact I : mute.
#[export] Hint Extern 1 (mute (sys_ok _)) => apply mute_sys_ok; intros; exact I : mute.
#[export] Hint Extern 1 (mute (setsockopt _ _ _ _)) => apply mute_sys_ok; intros; exact I : mute.
#[export] Hint Extern 1 (mute (modify _)) => apply mute_modify; intros; reflexivity : mute.
Ltac mute := repeat first
  [ progress (cbv zeta)
  | apply mute_bind; [|intros ?]
  | apply mute_when
  | match goal with
    | |- ∀ _, mute _ => intros ?
    | |- mute (if ?b then _ else _) => destruct b
    | |- mute (match ?x with _ => _ end) => destruct x
    end
  | solve [auto 2 with mute] ].

(** ** A connection to the address asked for *)

(** [connect] to [a] has been tried with descriptor [fd], and did not fail at once *)
Definition connecting (fd : Z) (a : sockaddr) (l : history) : Prop :=
  ∃ r, (Connect fd a, r) ∈ l ∧ (0 <= r_ret r ∨ r_errno r = EINPROGRESS).

Section connect.
Context {K : Kernel} {E : Env} (params : tp_params).

Lemma connecting_app fd a l1 l2 : connecting fd a l2 → connecting fd a (l1 ++ l2).
Proof. intros (r & Hr & H). exists r. split; [apply elem_of_app; by auto|done]. Qed.
Lemma connecting_app_l fd a l1 l2 : connecting fd a l1 → connecting fd a (l1 ++ l2).
Proof. intros (r & Hr & H). exists r. split; [apply elem_of_app; by auto|done]. Qed.

Lemma silent_does {A} (m : M A) p : silent m → does m p (λ _ p' _, p_conns p' = p_conns p).
Proof.
  intros H a p' Em. specialize (H p). apply wps_iff in H as (b & q & Eq & F & C & new & T & _).
  rewrite Em in Eq. injection Eq as <- <-. by exists new.
Qed.

Lemma does_steps_last l m (R : history → Prop) : (∀ p, does m p (λ ok _ h, ok = true → R h)) →
  (∀ h1 h2, R h2 → R (h1 ++ h2)) → Forall mute l → ∀ p, does (steps (l ++ [m])) p (λ ok _ h, ok = true → R h).
Proof.
  intros Hm HR. induction 1 as [|m' l Hm' _ IH]; intros p; simpl; apply does_bind.
  - eapply does_mono; [apply Hm|]. intros [|] p' h H; apply does_ret; [|done]. intros _. rewrite app_nil_r. by apply H.
  - eapply does_mono; [apply Hm'|]. intros [|] p' h _; [|by apply does_ret].
    eapply does_mono; [apply IH|]. intros ok p2 h2 H Hok. by apply HR, H.
Qed.

Lemma mute_setsockopt fd l o v : mute (setsockopt fd l o v).
Proof. auto with mute. Qed.
Lemma mute_user_timeout fd t : mute (set_user_timeout fd t).
Proof. unfold set_user_timeout. mute. Qed.
Lemma mute_bind_step fd a : mute (bind_step params fd a).
Proof. unfold bind_step. mute. Qed.
Lemma does_connect_step fd a p : does (connect_step fd a) p (λ ok _ h, ok = true → connecting fd a h).
Proof.
  unfold connect_step. apply does_bind, does_sysret. set (r := kernel _ _). destruct (Z.ltb_spec (r_ret r) 0) as [Hr|Hr].
  - apply does_bind, does_gets, does_ret. intros H%Z.eqb_eq. exists r. split; [set_solver|]. right. rewrite <- H. simpl.
    fold r. by rewrite (proj2 (Z.ltb_lt _ _) Hr).
  - apply does_ret. intros _. exists r. split; [set_solver|by left].
Qed.

(** what is done before [connect] *)
Definition preparations (fd : Z) (a : sockaddr) (mss : Z) : list (M bool) :=
  [ sys_ok (SetNonblock fd);
    setsockopt fd SOL_SOCKET SO_REUSEADDR 1;
    set_socket_buffers fd (remote_rcvbuf params) (remote_sndbuf params);
    set_keepalive fd;
    setsockopt fd IPPROTO_TCP TCP_NODELAY (if skip_nodelay params then 0 else 1);
    (if mss =? 0 then ret true else setsockopt fd IPPROTO_TCP TCP_MAXSEG mss);
    bind_step params fd a;
    (set_user_timeout fd (tcp_user_timeout_remote params) ;;; ret true) ].
Lemma mute_preparations fd a mss : Forall mute (preparations fd a mss).
Proof.
  unfold preparations, set_socket_buffers, set_keepalive.
  repeat apply List.Forall_cons; try apply List.Forall_nil; first [apply mute_bind_step | mute]; apply mute_user_timeout.
Qed.
Lemma connect_remote_steps a mss : connect_remote params a mss =
  let* fd := sysret (Socket (sa_family a)) in
  if fd <? 0 then ret (-1) else
  let* ok := steps (preparations fd a mss ++ [connect_step fd a]) in
  if ok : bool then ret fd else let* _ := sys (Close fd) in ret (-1).
Proof. done. Qed.

Lemma does_connect_remote a mss p :
  does (connect_remote params a mss) p (λ fd p' l, Forall dull l ∧ p_conns p' = p_conns p ∧
    (fd = -1 ∨ 0 <= fd ∧ connecting fd a l)).
Proof.
  apply does_and; [|apply does_and; [apply silent_does, silent_connect_remote|]]; rewrite connect_remote_steps.
  - apply mute_bind; [auto with mute|]. intros fd. destruct (fd <? 0); [apply mute_ret|]. apply mute_bind; [|mute].
    apply mute_steps, Forall_app. split; [apply mute_preparations|]. constructor; [|done]. unfold connect_step. mute.
  - apply does_bind, does_sysret. set (fd := r_ret _). destruct (Z.ltb_spec fd 0); [by apply does_ret; left|]. apply does_bind.
    eapply does_mono; [apply (does_steps_last _ _ (connecting fd a)); [intros q; apply does_connect_step|intros; by apply connecting_app|apply mute_preparations]|].
    intros [|] p1 l1 H1; [|by apply does_bind, does_sys, does_ret; left].
    apply does_ret. right. split; [done|]. rewrite app_nil_r. by apply (connecting_app _ _ [_]), H1.
Qed.

(** *** Throwing the new leg away *)

(** how [close] fails: on no descriptor always, and with one of these *)
Definition close_errors : list Z := [EBADF; EINTR; 5 (* EIO *); 28 (* ENOSPC *); 122 (* EDQUOT *)].
Class CloseOk := {
  k_close_bad : ∀ h, r_ret (kernel h (Close (-1))) < 0;
  k_close_errno : ∀ h fd, r_ret (kernel h (Close fd)) < 0 → r_errno (kernel h (Close fd)) ∈ close_errors
}.

Lemma mute_free_conn o : mute (free_conn o).
Proof. unfold free_conn. mute. Qed.
Lemma close_keeps `{CloseOk} fd p : p_errno p ∈ close_errors → p_errno (after (Close fd) p) ∈ close_errors.
Proof. intros Hp. simpl. case_match eqn:Hr; [|done]. apply k_close_errno. lia. Qed.
Lemma does_free_lost `{CloseOk} d y p : live p d y → c_fd y = -1 →
  does (free_conn (Some d)) p (λ _ p' l, Forall dull l ∧ p_errno p' ∈ close_errors).
Proof.
  intros Hy Hfd. apply does_and; [apply mute_free_conn|]. unfold free_conn. eapply does_live; [exact Hy|]. rewrite Hfd. simpl.
  apply does_bind, does_bind, does_sys, does_ret. set (p1 := after _ p).
  assert (H1 : p_errno p1 ∈ close_errors).
  { simpl. pose proof (k_close_bad (p_trace p)) as Hb. rewrite (proj2 (Z.ltb_lt _ _) Hb). by apply k_close_errno. }
  assert (Hend : ∀ q, p_errno q ∈ close_errors →
    does (match c_partner y with Some d => conn_set d (λ y, y <| c_partner := None |>) | None => ret tt end ;;;
      match c_socks_ri y with Some r => item_set r (λ i, i <| ri_ptr := None |>) | None => ret tt end ;;;
      conn_free d) q (λ _ p' _, p_errno p' ∈ close_errors)).
  { clear - H. intros q Hq. apply does_bind. apply (does_mono _ _ (λ _ p' _, p_errno p' ∈ close_errors)).
    { destruct (c_partner y); [by apply does_set|by apply does_ret]. }
    intros [] q1 _ H1. apply does_bind, (does_mono _ _ (λ _ p' _, p_errno p' ∈ close_errors)).
    { destruct (c_socks_ri y); [by apply does_item_set|by apply does_ret]. }
    intros [] q2 _ H2. by apply does_conn_free. }
  apply does_bind, does_when; [|by intros _; apply Hend]. intros _.
  apply does_bind, does_sys, does_bind, does_sys, does_ret, Hend. by do 2 apply close_keeps.
Qed.

(** *** Making and connecting it *)

Lemma mute_new_conn fd remote : mute (new_conn params fd remote).
Proof. unfold new_conn, free_conn. mute. Qed.
Lemma does_new_conn fd remote p : does (new_conn params fd remote) p (λ o p' l, Forall dull l ∧
  ∀ d, o = Some d → (∃ y, live p' d y) ∧ (∀ x, ¬ live p d x) ∧ ∀ c x, live p c x → live p' c x).
Proof.
  apply does_and; [apply mute_new_conn|]. unfold new_conn. apply does_bind, does_sysret. set (p1 := after _ p).
  destruct (_ <? 0); [by apply does_ret|]. apply does_bind, does_conn_new. fold (born p1 (zero_conn <| c_fd := fd |> <| c_remote := remote |>)).
  set (y := zero_conn <| c_fd := fd |> <| c_remote := remote |>). set (d := length _). pose proof (born_new p1 y) as Hy.
  assert (Hno : ∀ x, ¬ live p d x) by apply (not_live_new p1). pose proof (born_live p1 y) as Hb.
  destruct (_ && _); [|by apply does_ret; intros ? [= <-]; split; [by eexists|]].
  apply does_bind, does_sys. destruct (_ =? 0).
  - apply does_bind, does_set. intros z Hz. apply does_ret. intros ? [= <-]. split; [eexists; by apply live_set_eq|]. split; [done|].
    intros c x Hx. apply other_kept; [intros ->; by apply Hno in Hx|]. by apply Hb.
  - apply does_bind. eapply does_mono; [apply mute_free_conn|]. intros [] p2 l2 _. by apply does_ret.
Qed.

Lemma does_new_partner c x p : live p c x → does (new_partner params c) p (λ o p' l, Forall dull l ∧
  ∀ d, o = Some d → d ≠ c ∧ live p' c (x <| c_partner := Some d |>) ∧
    ∃ y, live p' d y ∧ c_partner y = Some c ∧ c_dest y = c_dest x).
Proof.
  intros Hx. unfold new_partner. apply does_bind. eapply does_mono; [apply does_new_conn|]. intros [d|] p1 l1 [Hl1 H1].
  2:{ apply does_ret. by rewrite app_nil_r. }
  destruct (H1 d eq_refl) as ((y & Hy) & Hno & Hk). assert (Hcd : d ≠ c) by (intros ->; by apply Hno in Hx).
  apply does_bind, does_set. intros ? _. pose proof (Hk _ _ Hx) as Hx1.
  set (p2 := p1 <| p_conns := _ |>). assert (Hx2 : live p2 c (x <| c_partner := Some d |>)) by by apply (live_set_eq p1 c (λ x, x <| c_partner := Some d |>)).
  assert (Hy2 : live p2 d y) by by apply other_kept. eapply does_live; [exact Hx2|]. apply does_bind, does_set. intros ? _. apply does_ret. split; [by rewrite !app_nil_r|]. intros ? [= <-]. split; [done|]. split.
  - by apply other_kept.
  - eexists. split; [by apply live_set_eq|]. done.
Qed.

Lemma does_conn_connect c x d y p : live p c x → live p d y → c_partner x = Some d → d ≠ c →
  does (conn_connect_remote params c) p (λ ok p' l, Forall dull l ∧ ∃ ct fd,
    live p' c (x <| c_track := ct |>) ∧ live p' d (y <| c_fd := fd |>) ∧
    (if ok : bool then connecting fd (c_dest x) l else fd = -1)).
Proof.
  intros Hx Hy Hd Hcd. unfold conn_connect_remote. eapply does_live; [exact Hx|]. apply does_bind, does_sysret.
  apply does_bind, does_gets, does_bind, does_lift. intros [[st ct] mss] _. apply does_bind, does_modify; [done|].
  set (p1 := after _ p <| p_tp := st |>). assert (Hx1 : live p1 c x) by done. assert (Hy1 : live p1 d y) by done.
  apply does_bind, does_set. intros ? _. set (p2 := p1 <| p_conns := _ |>).
  assert (Hx2 : live p2 c (x <| c_track := ct |>)) by by apply (live_set_eq p1 c (λ x, x <| c_track := ct |>)).
  assert (Hy2 : live p2 d y) by by apply other_kept.
  apply does_bind. rewrite Hd. apply does_ret, does_bind. eapply does_mono; [apply does_connect_remote|]. intros fd p3 l3 (Hl3 & E3 & H3).
  assert (Hx3 : live p3 c (x <| c_track := ct |>)) by (unfold live; by rewrite E3). assert (Hy3 : live p3 d y) by (unfold live; by rewrite E3).
  apply does_bind, does_set. intros ? _. apply does_ret. simpl. rewrite !app_nil_r. split.
  { by constructor. }
  exists ct, fd. split; [by apply other_kept|]. split; [by apply (live_set_eq p3 d (λ y, y <| c_fd := fd |>))|].
  destruct H3 as [->|[H0 H3]]; [done|]. rewrite (proj2 (Z.leb_le _ _) H0). by apply (connecting_app _ _ [_]).
Qed.

(** *** What is said, and what is forbidden *)

(** what was given to [send], and where *)
Definition spoken (l : history) : list (Z * mem) :=
  omap (λ e : call * reply, match fst e with Send fd d _ => Some (fd, d) | _ => None end) l.
(** the environment allows local addresses *)
Definition allow_set (l : history) : bool :=
  existsb (λ e : call * reply, match fst e with GetEnv _ => negb (r_ret (snd e) <? 0) | _ => false end) l.
Definition local_seen (a : sockaddr) (l : history) : bool :=
  is_localnet a || existsb (λ e : call * reply, match fst e with
    | GetIfAddrs => negb (r_ret (snd e) <? 0) && existsb (λ b, sacmp b a) (r_addrs (snd e))
    | _ => false end) l.
(** the address is this host's own, and that is not allowed *)
Definition forbidden (a : sockaddr) (l : history) : bool := negb (allow_set l) && local_seen a l.

Definition unasking (e : call * reply) : Prop := match fst e with GetEnv _ | GetIfAddrs => False | _ => True end.
Lemma dull_unasking l : Forall dull l → Forall unasking l.
Proof. intros H. eapply Forall_impl; [exact H|]. by intros [[] r]. Qed.
Lemma dull_spoken l : Forall dull l → spoken l = [].
Proof. induction 1 as [|[c r] l He _ IH]; [done|]. simpl. rewrite IH. by destruct c. Qed.
Lemma spoken_app l1 l2 : spoken (l1 ++ l2) = spoken l1 ++ spoken l2.
Proof. apply omap_app. Qed.
Lemma existsb_unasking (f : call * reply → bool) l : (∀ e, unasking e → f e = false) → Forall unasking l → existsb f l = false.
Proof. intros Hf. induction 1 as [|e l He _ IH]; [done|]. simpl. by rewrite Hf, IH. Qed.
Lemma forbidden_app a l1 l2 : Forall unasking l2 → forbidden a (l1 ++ l2) = forbidden a l1.
Proof.
  intros H. unfold forbidden, allow_set, local_seen. rewrite !existsb_app.
  rewrite !(existsb_unasking _ l2), !orb_false_r by (done || by intros [[] r]). done.
Qed.
Lemma forbidden_cons a e l : unasking e → forbidden a (e :: l) = forbidden a l.
Proof. intros H. unfold forbidden, allow_set, local_seen. simpl. by destruct e as [[] r]. Qed.

(** a reply that says [rep5], in the version the client speaks *)
Definition rep_msg (ver rep5 : Z) : mem :=
  if ver =? 5 then s5_rep rep5 else s4_rep (if negb (rep5 =? 0) then S4_REP_FAILED else S4_REP_OK).
Definition says {A} (fd : Z) (msg : mem) (m : M A) : Prop :=
  ∀ p, does m p (λ _ _ l, ∃ r, l = [(Send fd msg MSG_DONTWAIT, r)]).
Lemma says_rep fd msg : says fd msg (send_rep fd msg).
Proof. intros p. apply does_bind, does_sysret, does_ret. by eexists. Qed.
Lemma says_socks ver fd rep5 : says fd (rep_msg ver rep5) (socks_send_rep ver fd rep5).
Proof. unfold rep_msg, socks_send_rep. destruct (ver =? 5); apply says_rep. Qed.
Lemma says_lost ver fd e : e ∈ close_errors → says fd (rep_msg ver S5_REP_GENERAL_FAILURE) (socks_send_rep_errno ver fd e).
Proof.
  intros He. unfold rep_msg, socks_send_rep_errno, socks5_send_rep_errno, socks4_send_rep_errno.
  assert (Hr : rep_of_errno e = S5_REP_GENERAL_FAILURE ∧ negb (e =? 0) = true) by (repeat (apply elem_of_cons in He as [->|He]; [done|]); by apply not_elem_of_nil in He).
  destruct Hr as [-> ->]. destruct (ver =? 5); apply says_rep.
Qed.
(** ... and the client is hung up on *)
Lemma does_refuse {A} fd msg (m : M A) p : says fd msg m →
  does (let* _ := m in ret false) p (λ ok _ l, ok = false ∧ Forall unasking l ∧ spoken l = [(fd, msg)]).
Proof.
  intros Hm. apply does_bind. eapply does_mono; [apply Hm|]. intros a p1 l (r & ->). apply does_ret. by repeat constructor.
Qed.

Lemma does_local_ip a p : does (check_local_ip a) p (λ b p' l, p_conns p' = p_conns p ∧ spoken l = [] ∧ allow_set l = false ∧ local_seen a l = b).
Proof.
  unfold check_local_ip, local_seen. destruct (is_localnet a); [by apply does_ret|].
  apply does_bind, does_sys. set (r := kernel _ _). simpl. destruct (r_ret r <? 0); apply does_ret; simpl; [done|]. by rewrite !orb_false_r.
Qed.
(** the two questions *)
Lemma does_check a p : does (let* allow := sys_ok (GetEnv ALLOW_LOCAL) in if allow : bool then ret false else check_local_ip a) p
  (λ b p' l, p_conns p' = p_conns p ∧ spoken l = [] ∧ forbidden a l = b).
Proof.
  apply does_bind, does_sys_ok. set (r := kernel _ _). destruct (negb _) eqn:Er.
  - apply does_ret. unfold forbidden. simpl. by rewrite Er.
  - eapply does_mono; [apply does_local_ip|]. intros b p1 l1 (C & S1 & A1 & L1). split; [done|]. split; [by simpl|].
    unfold forbidden, local_seen in *. simpl. rewrite Er, A1. done.
Qed.
End connect.
Arguments CloseOk : clear implicits.

Section ask.
Context {K : Kernel} {KC : CloseOk K} {E : Env} (params : tp_params).

(** the client is on its way to [a]: it waits for its new partner, which is
    being connected *)
Definition on_its_way (c : nat) (a : sockaddr) (l : history) (p : proc) : Prop :=
  ∃ x d y, live p c x ∧ c_socks_state x = S_WAIT_CONNECTION ∧ c_dest x = a ∧ c_partner x = Some d ∧
    live p d y ∧ c_partner y = Some c ∧ c_dest y = a ∧ connecting (c_fd y) a l.
Lemma on_its_way_mono c a l l' p : (∀ e, e ∈ l → e ∈ l') → on_its_way c a l p → on_its_way c a l' p.
Proof.
  intros Hl (x & d & y & H1 & H2 & H3 & H4 & H5 & H6 & H7 & (r & Hr & H)). exists x, d, y. repeat (split; [done|]). exists r. auto.
Qed.

Lemma mute_epoll_set c ev : mute (epoll_set c ev).
Proof. unfold epoll_set. mute. Qed.
Lemma does_epoll_set c x ev p : live p c x → does (epoll_set c ev) p (λ _ p' l, p_conns p' = p_conns p ∧ Forall dull l).
Proof.
  intros Hx. apply does_and; [|apply mute_epoll_set]. unfold epoll_set. eapply does_live; [exact Hx|].
  apply does_bind, does_sysret. destruct (negb _); [by apply does_ret|]. by apply does_bind, does_sysret, does_ret.
Qed.
Lemma mute_insert_head c b : mute (conn_list_insert_head c b).
Proof. unfold conn_list_insert_head. mute. Qed.

(** the new leg did not come off *)
Lemma does_refuse_lost c d y fd ver p : live p d y → c_fd y = -1 →
  does (free_conn (Some d) ;;; conn_set c (λ x, x <| c_partner := None |>) ;;;
        let* e := errno in let* _ := socks_send_rep_errno ver fd e in ret false) p
    (λ ok _ l, ok = false ∧ Forall unasking l ∧ spoken l = [(fd, rep_msg ver S5_REP_GENERAL_FAILURE)]).
Proof.
  intros Hy Hfd. apply does_bind. eapply does_mono; [by eapply does_free_lost|]. intros [] p1 l1 [Hl1 He].
  apply does_bind, does_set. intros ? _. apply does_bind, does_gets. eapply does_mono; [apply does_refuse, says_lost, He|].
  intros ok p2 l2 (-> & Hu & Hs). split; [done|]. split; [apply Forall_app; split; [by apply dull_unasking|done]|].
  by rewrite !spoken_app, (dull_spoken l1), Hs.
Qed.
Lemma does_refuse_freed c d fd ver p :
  does (free_conn (Some d) ;;; conn_set c (λ x, x <| c_partner := None |>) ;;;
        let* _ := socks_send_rep ver fd S5_REP_GENERAL_FAILURE in ret false) p
    (λ ok _ l, ok = false ∧ Forall unasking l ∧ spoken l = [(fd, rep_msg ver S5_REP_GENERAL_FAILURE)]).
Proof.
  apply does_bind. eapply does_mono; [apply mute_free_conn|]. intros [] p1 l1 Hl1.
  apply does_bind, does_set. intros ? _. eapply does_mono; [apply does_refuse, says_socks|].
  intros ok p2 l2 (-> & Hu & Hs). split; [done|]. split; [apply Forall_app; split; [by apply dull_unasking|done]|].
  by rewrite !spoken_app, (dull_spoken l1), Hs.
Qed.

(** what becomes of a request for an address: [l] are the calls *)
Definition asked_for (c : nat) (x : tproxy_conn) (a : sockaddr) (ok : bool) (p' : proc) (l : history) : Prop :=
  if ok then spoken l = [] ∧ forbidden a l = false ∧ on_its_way c a l p'
  else spoken l = [(c_fd x, rep_msg (c_socks_ver x) (if forbidden a l then S5_REP_NOT_ALLOWED_BY_RULESET else S5_REP_GENERAL_FAILURE))].

Lemma does_ask c x p : live p c x →
  does (proxy_mode_connect_remote params c) p (asked_for c x (c_dest x)).
Proof.
  intros Hx. set (a := c_dest x). unfold proxy_mode_connect_remote. eapply does_live; [exact Hx|].
  assert (Hassoc : ∀ (k : bool → M bool) (R : bool → proc → history → Prop),
    does (let* b := (let* allow := sys_ok (GetEnv ALLOW_LOCAL) in if allow : bool then ret false else check_local_ip a) in k b) p R →
    does (let* allow := sys_ok (GetEnv ALLOW_LOCAL) in let* b := if allow : bool then ret false else check_local_ip a in k b) p R) by done.
  apply Hassoc, does_bind. eapply does_mono; [apply does_check|]. clear Hassoc. intros b p1 l1 (C1 & S1 & F1).
  assert (Hx1 : live p1 c x) by (unfold live; by rewrite C1).
  assert (Hend : ∀ l0 ok p' l, Forall dull l0 → ok = false ∧ Forall unasking l ∧
    spoken l = [(c_fd x, rep_msg (c_socks_ver x) (if b then S5_REP_NOT_ALLOWED_BY_RULESET else S5_REP_GENERAL_FAILURE))] →
    asked_for c x a ok p' (l1 ++ l0 ++ l)).
  { intros l0 ok p' l H0 (-> & Hu & Hs). unfold asked_for.
    rewrite forbidden_app, !spoken_app, S1, (dull_spoken l0 H0), Hs, F1; [done|]. apply Forall_app. by auto using dull_unasking. }
  destruct b.
  { eapply does_mono; [apply does_refuse, says_socks|]. intros ok p2 l2. by apply (Hend []). }
  apply does_bind. eapply does_mono; [by apply does_new_partner|]. intros [d|] p2 l2 [Hl2 H2].
  2:{ eapply does_mono; [apply does_refuse, says_socks|]. intros ok p3 l3. by apply Hend. }
  destruct (H2 d eq_refl) as (Hcd & Hx2 & y & Hy & Hpy & Hdy).
  apply does_bind. eapply does_mono; [by eapply does_conn_connect|]. intros ok p3 l3 (Hl3 & ct & fd & Hx3 & Hy3 & H3).
  destruct ok; cbn [negb].
  2:{ eapply does_mono; [eapply does_refuse_lost; [exact Hy3|done]|]. intros ok p4 l4 H4. rewrite (app_assoc l2). apply Hend; [|done].
      apply Forall_app. auto. }
  apply does_bind. eapply does_mono; [by eapply does_epoll_set|]. intros ok p4 l4 (C4 & Hl4). destruct ok; cbn [negb].
  2:{ eapply does_mono; [apply does_refuse_freed|]. intros ok p5 l5 H5. rewrite (app_assoc l3), (app_assoc l2). apply Hend; [|done].
      repeat (apply Forall_app; split; [done|]). done. }
  apply does_bind, does_modify; [done|]. apply does_bind, does_set. intros ? _. apply does_ret. rewrite !app_nil_r.
  set (p5 := p4 <| p_conn_list := _ |> <| legs_local := _ |> <| legs_remote := _ |>).
  assert (Hx5 : live p5 c ((x <| c_partner := Some d |>) <| c_track := ct |>)) by (unfold live; simpl; by rewrite C4).
  assert (Hy5 : live p5 d (y <| c_fd := fd |>)) by (unfold live; simpl; by rewrite C4).
  assert (Hd : Forall dull (l2 ++ l3 ++ l4)) by (repeat (apply Forall_app; split; [done|]); done).
  split; [|split].
  - by rewrite spoken_app, S1, dull_spoken.
  - by rewrite forbidden_app by by apply dull_unasking.
  - do 3 eexists. split; [by apply live_set_eq|]. split; [done|]. split; [done|]. split; [done|]. split; [by apply other_kept|].
    split; [done|]. split; [by simpl|]. simpl. apply connecting_app, connecting_app. by apply connecting_app_l.
Qed.
End ask.

(** ** Messages *)

Inductive s5_dst : Type := D_ip4 (ip : mem) | D_ip6 (ip : mem) | D_name (name : mem).
Inductive message : Type :=
| Greeting (methods : mem)
| Request4 (cmd : byte) (port : Z) (ip user : mem)
| Request5 (cmd : byte) (dst : s5_dst) (port : Z).

Definition enc_dst (d : s5_dst) : mem :=
  match d with
  | D_ip4 ip => x01 :: ip
  | D_ip6 ip => x04 :: ip
  | D_name name => x03 :: bz (len name) :: name
  end.
Definition enc (m : message) : mem :=
  match m with
  | Greeting methods => x05 :: bz (len methods) :: methods
  | Request4 cmd port ip user => x04 :: cmd :: enc16 port ++ ip ++ user ++ [x00]
  | Request5 cmd d port => x05 :: cmd :: x00 :: enc_dst d ++ enc16 port
  end.
Definition dst_ok (d : s5_dst) : Prop :=
  match d with D_ip4 ip => length ip = 4%nat | D_ip6 ip => length ip = 16%nat | D_name name => len name <= 255 ∧ x00 ∉ name end.
Definition message_ok (m : message) : Prop :=
  match m with
  | Greeting methods => 1 <= len methods <= 255
  | Request4 _ port ip user => 0 <= port < 2 ^ 16 ∧ length ip = 4%nat ∧ len user <= 253
  | Request5 _ d port => 0 <= port < 2 ^ 16 ∧ dst_ok d
  end.

(** what a proxy is to do: say something and go on, say something and hang
    up, connect, resolve a name *)
Inductive verdict : Type :=
| V_accept (rep : mem) (next : socks_states) | V_refuse (rep : mem) | V_connect (a : sockaddr) | V_resolve (name : mem) (port : Z).
Definition verdict_of (no_resolve : bool) (s : socks_states) (m : message) : option verdict :=
  match s, m with
  | S_WAIT_HANDSHAKE, Greeting methods =>
      Some (if bool_decide (x00 ∈ methods) then V_accept [x05; x00] S_WAIT_REQUEST else V_refuse [x05; xff])
  | S_WAIT_HANDSHAKE, Request4 cmd port ip _ =>
      Some (if bool_decide (cmd = x01) && negb (port =? 0) && negb (bool_decide (ip = [x00; x00; x00; x01]))
            then V_connect (Sockaddr (In4 ip) port) else V_refuse (s4_rep S4_REP_FAILED))
  | S_WAIT_REQUEST, Request5 cmd d port =>
      Some (if negb (bool_decide (cmd = x01)) then V_refuse (s5_rep S5_REP_COMMAND_NOT_SUPPORTED) else
            match d with
            | D_ip4 ip => V_connect (Sockaddr (In4 ip) port)
            | D_ip6 ip => V_connect (Sockaddr (In6 ip) port)
            | D_name name =>
                if no_resolve then V_refuse (s5_rep S5_REP_NOT_ALLOWED_BY_RULESET)
                else if port =? 0 then V_refuse (s5_rep S5_REP_HOST_UNREACHABLE) else V_resolve name port
            end)
  | _, _ => None
  end.

(** *** The parsers read them *)

Lemma be16_enc port : 0 <= port < 2 ^ 16 → be16 (bz (Z.shiftr port 8)) (bz port) = port.
Proof. intros H. unfold be16. rewrite pntoh16_be. by apply enc16_be16. Qed.
Lemma zb_is b k : zb (bz k) = k → (zb b =? k) = bool_decide (b = bz k).
Proof.
  intros Hk. apply eq_true_iff_eq. rewrite Z.eqb_eq, bool_decide_eq_true. split; [|by intros ->].
  intros H. apply zb_inj. by rewrite Hk.
Qed.
Lemma c_str_id (l : mem) : x00 ∉ l → c_str l = l.
Proof.
  induction l as [|b l IH]; [done|]. intros H. cbn [c_str]. rewrite (zb_is _ 0) by done. rewrite bool_decide_false by set_solver.
  f_equal. apply IH. set_solver.
Qed.

(** a byte at a known place *)
Lemma rd_nth m i n b : i = Z.of_nat n → m !! n = Some b → rd m i = Ok b.
Proof. intros -> H. apply rd_ok. split; [lia|]. by rewrite Nat2Z.id. Qed.
Ltac rd_known :=
  repeat match goal with
  | |- context [rd ?m ?i] =>
      let n := eval vm_compute in (Z.to_nat i) in
      match eval lazy [lookup list_lookup] in (m !! n) with
      | Some ?b => rewrite (rd_nth m i n b eq_refl eq_refl); cbn [bind]
      end
  end.

Lemma socks4_parse_enc cmd port ip user rest : message_ok (Request4 cmd port ip user) →
  let m := enc (Request4 cmd port ip user) in
  socks4_parse (m ++ rest) (len m) = Ok (if negb (bool_decide (cmd = x01)) then S4_FAILED else
    if port =? 0 then S4_FAILED else
    if bool_decide (ip = [x00; x00; x00; x01]) then S4_FAILED else S4_DEST (Sockaddr (In4 ip) port)).
Proof.
  intros (Hp & Hip & Hu). do 5 (destruct ip as [|? ip]; try discriminate Hip). cbv zeta. simpl enc.
  unfold socks4_parse. rewrite (proj2 (Z.ltb_ge _ _)) by (unfold len; simpl; lia). cbn [app]. rd_known.
  rewrite (zb_is _ S4_CMD_CONNECT) by done. change (bz S4_CMD_CONNECT) with x01. simpl negb. destruct (bool_decide (cmd = x01)); [|done].
  cbn [negb]. rewrite be16_enc by done. destruct (port =? 0); [done|].
  rewrite bytes_at_ok by (unfold len; simpl; lia). cbn [bind]. change (slice _ 4 4) with [b; b0; b1; b2]. by destruct (bool_decide _).
Qed.

Lemma socks5_parse_enc cmd d port rest : message_ok (Request5 cmd d port) →
  let m := enc (Request5 cmd d port) in
  socks5_parse (m ++ rest) (len m) = Ok (if negb (bool_decide (cmd = x01)) then S5_UNSUPPORTED else
    match d with
    | D_ip4 ip => S5_DEST (Sockaddr (In4 ip) port)
    | D_ip6 ip => S5_DEST (Sockaddr (In6 ip) port)
    | D_name name => S5_NAME name port
    end).
Proof.
  intros (Hp & Hd). cbv zeta. unfold socks5_parse.
  rewrite (proj2 (Z.ltb_ge _ _)) by (destruct d; unfold len; simpl; rewrite ?length_app; simpl; lia).
  assert (Hcmd : (zb cmd =? S5_CMD_CONNECT) = bool_decide (cmd = x01)) by (by apply (zb_is cmd 1)).
  destruct d as [ip|ip|name]; simpl in Hd; unfold enc, enc_dst, enc16; cbn [app].
  - do 5 (destruct ip as [|? ip]; try discriminate Hd). cbn [app]. rd_known. rewrite Hcmd. destruct (bool_decide _); [|done].
    change (zb x01 =? S5_ATYP_IP4) with true. cbn [negb]. cbv iota.
    rewrite (proj2 (Z.ltb_ge _ _)), bytes_at_ok by (unfold len; simpl; lia). cbn [bind]. rd_known. by rewrite be16_enc.
  - do 17 (destruct ip as [|? ip]; try discriminate Hd). cbn [app]. rd_known. rewrite Hcmd. destruct (bool_decide _); [|done].
    change (zb x04 =? S5_ATYP_IP4) with false. change (zb x04 =? S5_ATYP_IP6) with true. cbn [negb]. cbv iota.
    rewrite (proj2 (Z.ltb_ge _ _)), bytes_at_ok by (unfold len; simpl; lia). cbn [bind]. rd_known. by rewrite be16_enc.
  - destruct Hd as [Hl Hn]. pose proof (len_nonneg name). rd_known. rewrite Hcmd. destruct (bool_decide _); [|done].
    change (zb x03 =? S5_ATYP_IP4) with false. change (zb x03 =? S5_ATYP_IP6) with false. change (zb x03 =? S5_ATYP_DOM) with true.
    assert (Hz : zb (bz (len name)) = len name) by (apply zb_bz_small; lia).
    set (hd := [x05; cmd; x00; x03; bz (len name)]). cbn [negb]. cbv iota.
    assert (Hm : ∀ t, (x05 :: cmd :: x00 :: x03 :: bz (len name) :: t) = hd ++ t) by done. rewrite !Hm.
    assert (Hlen : len (hd ++ name ++ [bz (Z.shiftr port 8); bz port]) = 5 + len name + 2) by (rewrite !len_app; unfold len; simpl; lia).
    rewrite Hlen, Hz, !(proj2 (Z.ltb_ge _ _)), (proj2 (Z.leb_le _ _)) by lia.
    rewrite (rd_head _ (hd ++ name) (bz port :: rest) (bz (Z.shiftr port 8))); [|by rewrite <- !app_assoc|rewrite len_app; change (len hd) with 5; lia]. cbn [bind].
    rewrite (rd_head _ (hd ++ name ++ [bz (Z.shiftr port 8)]) rest (bz port)); [|by rewrite <- !app_assoc|rewrite !len_app; unfold hd, len; simpl; lia]. cbn [bind].
    rewrite <- app_assoc, bytes_at_ok by (rewrite ?len_app; change (len hd) with 5; pose proof (len_nonneg rest); pose proof (len_nonneg [bz (Z.shiftr port 8); bz port]); lia). cbn [bind].
    rewrite (slice_mid hd name) by done. by rewrite c_str_id, be16_enc.
Qed.

Lemma offers_none_enc methods rest hd : len hd = 2 → 
  offers_none (hd ++ methods ++ rest) 0 (length methods) = Ok (bool_decide (x00 ∈ methods)).
Proof.
  intros Hhd. assert (H : ∀ pre, offers_none (hd ++ pre ++ methods ++ rest) (len pre) (length methods) = Ok (bool_decide (x00 ∈ methods))).
  { induction methods as [|m ms IH]; intros pre; [done|]. cbn [offers_none length].
    rewrite (rd_head _ (hd ++ pre) (ms ++ rest) m); [|by rewrite <- app_assoc|rewrite len_app; lia]. cbn [bind].
    rewrite (zb_is m S5_AUTH_NONE) by done. change (bz S5_AUTH_NONE) with x00. destruct (decide (m = x00)) as [->|Hm].
    - rewrite !bool_decide_true by (done || by left). done.
    - rewrite bool_decide_false by done. replace (len pre + 1) with (len (pre ++ [m])) by (rewrite len_app; done).
      replace (hd ++ pre ++ (m :: ms) ++ rest) with (hd ++ (pre ++ [m]) ++ ms ++ rest) by by rewrite <- !app_assoc.
      rewrite IH. f_equal. apply bool_decide_ext. rewrite elem_of_cons. naive_solver. }
  apply (H []).
Qed.

(** ** Messages answered *)

Section answer.
Context {K : Kernel} {KC : CloseOk K} {E : Env} (params : tp_params).

(** leg [c] is about to receive [m] *)
Definition hears (p : proc) (x : tproxy_conn) (m : message) : Prop :=
  let r := kernel (p_trace p) (Recv (c_fd x) S5_REQ_SIZE) in
  r_ret r = len (enc m) ∧ enc m `prefix_of` r_data r.

(** the version replies are made in *)
Definition version (x : tproxy_conn) (m : message) : Z := match m with Request4 _ _ _ _ => 4 | _ => c_socks_ver x end.

(** [v] has been carried out: [ok], the process after it and the calls *)
Definition carried_out (c : nat) (x : tproxy_conn) (m : message) (v : verdict) (ok : bool) (p' : proc) (l : history) : Prop :=
  match v with
  | V_accept rep next =>
      spoken l = [(c_fd x, rep)] ∧ (ok = true → ∃ x', live p' c x' ∧ c_socks_state x' = next ∧ c_socks_ver x' = 5)
  | V_refuse rep => ok = false ∧ spoken l = [(c_fd x, rep)]
  | V_connect a => asked_for c (x <| c_socks_ver := version x m |>) a ok p' l
  | V_resolve name port =>
      if ok then spoken l = [] ∧ ∃ x' r i, live p' c x' ∧ c_socks_state x' = S_WAIT_RESOLVE ∧ c_socks_ri x' = Some r ∧
        live_item p' r i ∧ ri_dom i = name ∧ ri_port i = port ∧ ri_ptr i = Some c
      else spoken l = [(c_fd x, s5_rep S5_REP_GENERAL_FAILURE)]
  end.

(** a call that says and asks nothing before it changes nothing *)
Lemma carried_cons c x m v ok p' e l : dull e → carried_out c x m v ok p' l → carried_out c x m v ok p' (e :: l).
Proof.
  intros He. assert (Hs : spoken (e :: l) = spoken l) by (destruct e as [[] r]; done).
  assert (Hf : ∀ a, forbidden a (e :: l) = forbidden a l) by (intros a; apply forbidden_cons; by destruct e as [[] r]).
  unfold carried_out, asked_for. rewrite Hs. destruct v as [| |a|]; try done. rewrite Hf. destruct ok; [|done].
  intros (H1 & H2 & H3). split; [done|]. split; [done|]. eapply on_its_way_mono; [|exact H3]. intros f Hf'. by right.
Qed.

Lemma does_ask_dest c x y m a p : live p c y → c_fd y = c_fd x → c_socks_ver y = version x m →
  does (conn_set c (λ x, x <| c_dest := a |>) ;;; proxy_mode_connect_remote params c) p (carried_out c x m (V_connect a)).
Proof.
  intros Hy Hfd Hver. apply does_bind, does_set. intros ? _. set (p1 := p <| p_conns := _ |>).
  assert (Hy1 : live p1 c (y <| c_dest := a |>)) by by apply (live_set_eq p c (λ x, x <| c_dest := a |>)).
  eapply does_mono; [by eapply does_ask|]. intros ok p2 l. simpl. unfold asked_for. simpl. by rewrite Hfd, Hver.
Qed.

Lemma does_handshake c x p methods rest : live p c x → c_socks_ver x = 5 → message_ok (Greeting methods) →
  let m := Greeting methods in
  does (socks5_handshake c (c_fd x) (enc m ++ rest) (len (enc m))) p
    (λ ok p' l, carried_out c x m (if bool_decide (x00 ∈ methods) then V_accept [x05; x00] S_WAIT_REQUEST else V_refuse [x05; xff]) ok p' l).
Proof.
  intros Hx Hv Hm. simpl in Hm. cbv zeta. unfold socks5_handshake, enc.
  assert (Hz : zb (bz (len methods)) = len methods) by (apply zb_bz_small; lia).
  assert (Hl : len (x05 :: bz (len methods) :: methods) = 2 + len methods) by (unfold len; simpl; lia). rewrite Hl.
  rewrite (proj2 (Z.ltb_ge _ _)) by lia. cbn [app]. rd_known.
  apply does_bind, does_lift. intros ? [= <-]. apply does_bind, does_lift. intros ? [= <-]. rewrite Hz.
  rewrite (proj2 (Z.eqb_neq (len methods) 0)), (proj2 (Z.leb_le _ _)) by lia. cbn [negb orb]. cbv iota.
  apply does_bind, does_lift. intros none Hnone.
  assert (Hn : none = bool_decide (x00 ∈ methods)).
  { change (x05 :: bz (len methods) :: methods ++ rest) with ([x05; bz (len methods)] ++ methods ++ rest) in Hnone.
    rewrite to_nat_len, offers_none_enc in Hnone by done. congruence. }
  subst none. destruct (bool_decide _); cbn [negb].
  - apply does_bind, does_sysret. destruct (negb _); [by apply does_ret|].
    apply does_bind, does_set. intros ? _. apply does_ret. split; [done|]. intros _. eexists. split; [by apply (live_set_eq _ _ _ x)|]. done.
  - by apply does_bind, does_sys, does_ret.
Qed.

Lemma does_queue dom port c p : does (resolver_queue dom port c) p (λ o p' l, Forall dull l ∧ p_conns p' = p_conns p ∧
  ∀ r, o = Some r → live_item p' r (ResolveItem (take 255 dom) no_addr 0 port (Some c))).
Proof.
  unfold resolver_queue. apply does_bind, does_sysret. destruct (_ <? 0); [by apply does_ret; repeat constructor|].
  apply does_bind, does_item_new, does_bind, does_modify; [done|].
  apply does_bind, does_sys_ok. destruct (negb _); cbn [negb].
  - apply does_bind, does_item_free, does_ret. by repeat constructor.
  - apply does_ret. split; [by repeat constructor|]. split; [done|]. intros r [= <-]. unfold live_item. simpl.
    by rewrite lookup_app_r, Nat.sub_diag by lia.
Qed.

Lemma does_ask_name c x m p dom port : live p c x → len dom <= 255 →
  does (let* ri := resolver_queue dom port c in
        conn_set c (λ x, x <| c_socks_ri := ri |>) ;;;
        match ri with
        | None => let* _ := socks5_send_rep (c_fd x) S5_REP_GENERAL_FAILURE in ret false
        | Some _ => conn_set c (λ x, x <| c_socks_state := S_WAIT_RESOLVE |>) ;;; ret true
        end) p (carried_out c x m (V_resolve dom port)).
Proof.
  intros Hx Hl. apply does_bind. eapply does_mono; [apply does_queue|]. intros o p1 l1 (Hl1 & C1 & H1).
  assert (Hx1 : live p1 c x) by (unfold live; by rewrite C1). apply does_bind, does_set. intros ? _.
  set (p2 := p1 <| p_conns := _ |>). assert (Hx2 : live p2 c (x <| c_socks_ri := o |>)) by by apply (live_set_eq p1 c (λ x, x <| c_socks_ri := o |>)).
  destruct o as [r|].
  - apply does_bind, does_set. intros ? _. apply does_ret. rewrite !app_nil_r. split; [by apply dull_spoken|].
    do 3 eexists. split; [by apply live_set_eq|]. split; [done|]. split; [done|]. split; [by apply (H1 r)|]. split; [|done].
    simpl. apply take_ge. unfold len in Hl. lia.
  - eapply does_mono; [apply does_refuse, says_rep|]. intros ok p3 l3 (-> & _ & H3). simpl. by rewrite spoken_app, (dull_spoken l1), H3.
Qed.

(** the verdict on a message is carried out *)
Lemma does_handle_proxy_mode c x m v p : live p c x → c_type x = CONN_TYPE_SOCKS → message_ok m → hears p x m →
  verdict_of (no_resolve params) (c_socks_state x) m = Some v → len (enc m) <= S5_REQ_SIZE →
  does (handle_proxy_mode params c) p (carried_out c x m v).
Proof.
  intros Hx Ht Hm [Hn [junk Hd]] Hv Hlen. unfold handle_proxy_mode. eapply does_live; [exact Hx|]. apply does_bind, does_sys.
  set (r := kernel _ _) in *. set (p1 := after _ p). assert (Hx1 : live p1 c x) by done. cbv zeta.
  assert (Hbuf : ∃ rest, buffer_of S5_REQ_SIZE (r_data r) = enc m ++ rest).
  { unfold buffer_of. rewrite Hd, <- app_assoc. eexists. apply take_app_ge. unfold len in Hlen. lia. }
  destruct Hbuf as [rest ->]. rewrite Hn. assert (Hpos : 1 <= len (enc m)) by (destruct m; unfold len; simpl; lia).
  rewrite (proj2 (Z.ltb_ge _ _)) by done. rewrite bool_decide_true by done. cbn [negb].
  eapply does_mono; [|intros ok p2 l; by apply carried_cons].
  destruct (c_socks_state x) eqn:Es; [| |by destruct m..].
  - apply does_bind, does_lift. intros ver Hver. destruct m as [methods|cmd port ip user|]; [| |done].
    + injection Hver as <-. change (zb x05) with 5. cbn [Z.eqb Pos.eqb negb andb]. cbv iota. apply does_bind, does_set. intros ? _.
      set (x2 := x <| c_socks_ver := 5 |>). set (p2 := p1 <| p_conns := _ |>).
      assert (Hx2 : live p2 c x2) by by apply (live_set_eq p1 c (λ x, x <| c_socks_ver := 5 |>)).
      eapply does_mono; [by apply (does_handshake c x2)|]. intros ok p3 l. injection Hv as <-. by destruct (bool_decide _).
    + injection Hver as <-. change (zb x04) with 4. cbn [Z.eqb Pos.eqb negb andb]. cbv iota. apply does_bind, does_set. intros ? _.
      set (x2 := x <| c_socks_ver := 4 |>). set (p2 := p1 <| p_conns := _ |>).
      assert (Hx2 : live p2 c x2) by by apply (live_set_eq p1 c (λ x, x <| c_socks_ver := 4 |>)).
      apply does_bind, does_lift. intros q Hq. rewrite socks4_parse_enc in Hq by done. injection Hq as <-.
      assert (Hfail : ∀ R : bool → proc → history → Prop,
        (∀ p' l, spoken l = [(c_fd x, s4_rep S4_REP_FAILED)] → R false p' l) →
        does (let* _ := socks4_send_rep (c_fd x) S4_REP_FAILED in ret false) p2 R).
      { intros R HR. eapply does_mono; [apply does_refuse, says_rep|]. intros ok p3 l (-> & _ & Hs). by apply HR. }
      injection Hv as <-. destruct (bool_decide (cmd = x01)); simpl negb; cbn [andb]; [|by apply Hfail].
      destruct (port =? 0); simpl negb; cbn [andb]; [by apply Hfail|]. destruct (bool_decide _); simpl negb; cbv iota; [by apply Hfail|].
      by apply (does_ask_dest c x x2).
  - destruct m as [| |cmd d port]; [done..|]. apply does_bind, does_lift. intros q Hq. rewrite socks5_parse_enc in Hq by done. injection Hq as <-.
    assert (Hfail : ∀ rep (R : bool → proc → history → Prop),
      (∀ p' l, spoken l = [(c_fd x, s5_rep rep)] → R false p' l) →
      does (let* _ := socks5_send_rep (c_fd x) rep in ret false) p1 R).
    { intros rep R HR. eapply does_mono; [apply does_refuse, says_rep|]. intros ok p3 l (-> & _ & Hs). by apply HR. }
    injection Hv as <-. destruct (bool_decide (cmd = x01)); simpl negb; cbv iota; [|by apply Hfail].
    destruct d as [ip|ip|name]; [by apply (does_ask_dest c x x)..|].
    destruct (no_resolve params); [by apply Hfail|]. destruct (port =? 0); [by apply Hfail|].
    apply does_ask_name; [done|]. by destruct Hm as (_ & ? & _).
Qed.
End answer.

Lemma message_fits m : message_ok m → len (enc m) <= S5_REQ_SIZE.
Proof.
  intros Hm. assert (Hlen : ∀ l : mem, len l = Z.of_nat (length l)) by done.
  destruct m as [methods|cmd port ip user|cmd d port]; simpl in Hm; unfold S5_REQ_SIZE, enc, enc16; rewrite ?len_cons, ?len_app, ?len_cons.
  - lia.
  - rewrite (Hlen ip), (Hlen []). simpl. lia.
  - rewrite (Hlen []). destruct Hm as [_ Hd]. destruct d; simpl in Hd |- *; rewrite ?len_cons; try rewrite (Hlen ip), Hd; simpl; lia.
Qed.

(** C21: the SOCKS dialogue.  In every state that tpws comes to (while the
    resolver's semaphore and pipe work, [ResolverOk]), a client that sends a whole message of the kind its connection waits for gets what the
    protocol asks for, and nothing else is said to anyone: a greeting is
    accepted if it offers to do without authentication and refused with 255 if
    not; a command other than CONNECT, a SOCKS4 request without a port or for a
    SOCKS4a name is refused with the code for that; a request for an address is
    refused with "not allowed" if the address is one of this host (unless the
    environment allows it) and "general failure" if the connection does not come off, and otherwise exactly that
    address is being connected to by a new partner of the client's leg, for
    which it waits; a name is put to the resolver as it was sent, or refused
    with the code for the reason. *)
Theorem socks_dialogue (K : Kernel) (KO : KernelOk K) (RO : ResolverOk K) (KC : CloseOk K) (E : Env) (EO : EnvOk E) (params : tp_params)
    (p : proc) (c : nat) (x : tproxy_conn) (m : message) (v : verdict) :
  0 <= fix_seg params → reach params p → live p c x → c_type x = CONN_TYPE_SOCKS → c_state x ≠ CONN_CLOSED →
  message_ok m → hears p x m → verdict_of (no_resolve params) (c_socks_state x) m = Some v →
  ∃ ok p' l, handle_proxy_mode params c p = Ok (ok, p') ∧ p_trace p' = p_trace p ++ l ∧ carried_out c x m v ok p' l.
Proof.
  intros Hfix Hr Hx Ht Hs Hm Hh Hv. pose proof (reach_inv params Hfix p Hr) as I.
  pose proof (wps_handle_proxy_mode params (λ _, True) at_rest p c x I Hx Hs eq_refl eq_refl) as Hw.
  apply wps_iff in Hw as (ok & p' & Er & _).
  destruct (does_handle_proxy_mode params c x m v p Hx Ht Hm Hh Hv (message_fits m Hm) ok p' Er) as (l & Hl & Hc). by exists ok, p', l.
Qed.

(** ** An instance

    The client of [TpLoopSpec] goes on: it asks for 127.0.0.1, port 80. *)
#[export] Instance one_client_closes : CloseOk one_client.
Proof.
  split; unfold kernel, one_client; [done|]. intros h fd. destruct (fd <? 0); [by left|done].
Qed.
Definition client_greeted : proc := (one_turn client_there).2.
Lemma client_greeted_reach : reach (K := one_client) (E := some_env) some_params client_greeted.
Proof.
  eapply (R_turn some_params (λ _, 1%nat) 4 5 0 client_there 100); [apply client_there_reach| |vm_compute; reflexivity].
  split; [apply NoDup_singleton|]. constructor; [|constructor]. exists (match p_conns client_there with Some x :: _ => x | _ => zero_conn end).
  split; [vm_compute; reflexivity|]. vm_compute. done.
Qed.
Definition greeted_leg : tproxy_conn := match p_conns client_greeted with Some x :: _ => x | _ => zero_conn end.
Definition local_request : message := Request5 x01 (D_ip4 [x7f; x00; x00; x01]) 80.
Lemma socks_dialogue_witness : ∃ ok p' l,
  handle_proxy_mode (K := one_client) (E := some_env) some_params 0 client_greeted = Ok (ok, p') ∧
  p_trace p' = p_trace client_greeted ++ l ∧
  carried_out 0 greeted_leg local_request (V_connect (Sockaddr (In4 [x7f; x00; x00; x01]) 80)) ok p' l.
Proof.
  apply (socks_dialogue one_client one_client_ok one_client_resolver one_client_closes some_env some_env_ok some_params client_greeted 0 greeted_leg local_request);
    [simpl; lia|apply client_greeted_reach|vm_compute; reflexivity|vm_compute; reflexivity|vm_compute; discriminate| | |vm_compute; reflexivity].
  - split; [lia|done].
  - split; [vm_compute; reflexivity|]. exists []. vm_compute. reflexivity.
Defined.
(** ... which is not allowed *)
Lemma local_request_refused :
  match handle_proxy_mode (K := one_client) (E := some_env) some_params 0 client_greeted with
  | Ok (ok, p') => ok = false ∧ accepted 9 (p_trace p') = [x05; x00] ++ s5_rep S5_REP_NOT_ALLOWED_BY_RULESET
  | _ => False
  end.
Proof. vm_compute. done. Qed.

(** *** A connection that failed is reported as made

    [check_connection_attempt] reads the socket's error, which clears it, and
    the error that [proxy_remote_conn_ack] reports is read again. *)
Definition refusing : Kernel := λ h c,
  match c with
  | GetSockOpt _ _ _ => Reply 0 0 [] no_addr (if existsb (λ e : call * reply, match e.1 with GetSockOpt _ _ _ => true | _ => false end) h then 0 else ECONNREFUSED) (0, 0) [] []
  | Send _ data _ => answer (len data)
  | _ => answer 0
  end.
Definition waiting_legs : proc :=
  at_start <| p_conns :=
    [Some (zero_conn <| c_fd := 9 |> <| c_state := CONN_AVAILABLE |> <| c_type := CONN_TYPE_SOCKS |> <| c_socks_state := S_WAIT_CONNECTION |>
           <| c_socks_ver := 5 |> <| c_partner := Some 1%nat |>);
     Some (zero_conn <| c_fd := 10 |> <| c_remote := true |> <| c_partner := Some 0%nat |>)] |>.
Lemma refused_connect_told_ok :
  match check_connection_attempt (K := refusing) 1 waiting_legs with
  | Ok (ok, p') => ok = false ∧ spoken (p_trace p') = [(9, s5_rep S5_REP_OK)]
  | _ => False
  end.
Proof. vm_compute. done. Qed.
