(* ===== verification/HevRing.v ===== *)
(** * hev-socks5-tunnel, the ring buffer: misc/hev-ring-buffer.c

    A TCP session reads from the SOCKS server into the free part of the
    buffer and hands what is readable to lwIP without copying it: the bytes
    stay in the buffer until lwIP reports them sent
    ([hev_ring_buffer_read_release]).  [tcp_splice_b] and [tcp_sent_handler]
    are the only clients; their use of the buffer is [receive], [forward] and
    [sent].  The buffer refines a queue with a capacity ([ring_refines_queue]),
    so every byte reaches lwIP once and in order ([ring_fifo]). *)

From Stdlib Require Import ZArith Lia Bool List.
From Stdlib Require Import Strings.Byte Strings.String.
From stdpp Require Import base tactics list numbers option.
From S2P Require Import Prelude CMem.

Record HevRingBuffer : Type := RingBuffer {
  rp : Z; wp : Z; rda_size : Z; use_size : Z; max_size : Z; data : mem
}.
#[export] Instance ring_eta : Eta HevRingBuffer := λ b,
  RingBuffer (rp b) (wp b) (rda_size b) (use_size b) (max_size b) (data b).

(** an iovec: an offset into [data] and a length *)
Definition iovec : Type := Z * Z.

(** [hev_ring_buffer_alloca]; the memory is not cleared *)
Definition hev_ring_buffer_alloca (garbage : mem) : HevRingBuffer :=
  RingBuffer 0 0 0 0 (len garbage) garbage.

Definition hev_ring_buffer_get_max_size (self : HevRingBuffer) : Z := max_size self.
Definition hev_ring_buffer_get_use_size (self : HevRingBuffer) : Z := use_size self.

Definition hev_ring_buffer_reading (self : HevRingBuffer) : list iovec :=
  if rda_size self =? 0 then [] else
  let upper_size := u64 (max_size self - rp self) in
  if rda_size self <=? upper_size then [(rp self, rda_size self)]
  else [(rp self, upper_size); (0, u64 (rda_size self - upper_size))].

(** [a % b]: undefined for [b = 0] *)
Definition rem64 (a b : Z) : res Z := if b =? 0 then UB else Ok (a mod b).

Definition hev_ring_buffer_read_finish (self : HevRingBuffer) (size : Z) : res HevRingBuffer :=
  rp' ← rem64 (u64 (rp self + size)) (max_size self);
  Ok (self <| rp := rp' |> <| rda_size := u64 (rda_size self - size) |>).

Definition hev_ring_buffer_read_release (self : HevRingBuffer) (size : Z) : HevRingBuffer :=
  let self := self <| use_size := u64 (use_size self - size) |> in
  if use_size self =? 0 then self <| rp := 0 |> <| wp := 0 |> else self.

Definition hev_ring_buffer_writing (self : HevRingBuffer) : list iovec :=
  if use_size self =? max_size self then [] else
  let upper_size := u64 (max_size self - wp self) in
  let spc_size := u64 (max_size self - use_size self) in
  if spc_size <=? upper_size then [(wp self, spc_size)]
  else [(wp self, upper_size); (0, u64 (spc_size - upper_size))].

Definition hev_ring_buffer_write_finish (self : HevRingBuffer) (size : Z) : res HevRingBuffer :=
  wp' ← rem64 (u64 (wp self + size)) (max_size self);
  Ok (self <| wp := wp' |> <| use_size := u64 (use_size self + size) |>
           <| rda_size := u64 (rda_size self + size) |>).

(** ** The clients (hev-socks5-session-tcp.c) *)

(** [readv]: [bs] arrives, the first part of the vectors is filled *)
Fixpoint readv (m : mem) (iov : list iovec) (bs : mem) : res mem :=
  match iov with
  | [] => Ok m
  | (o, n) :: iov =>
      let k := Z.to_nat n in
      m ← memcpy m o (take k bs) 0 (len (take k bs));
      readv m iov (drop k bs)
  end.

(** [tcp_write] of every vector *)
Fixpoint tcp_write_all (m : mem) (iov : list iovec) : res mem :=
  match iov with
  | [] => Ok []
  | (o, n) :: iov =>
      if (0 <=? o) && (0 <=? n) && (o + n <=? len m) then
        rest ← tcp_write_all m iov; Ok (slice m o n ++ rest)
      else UB
  end.

(** the first half of [tcp_splice_b]: [bs] is what [readv] delivers *)
Definition receive (self : HevRingBuffer) (bs : mem) : res HevRingBuffer :=
  match hev_ring_buffer_writing self with
  | [] => Ok self
  | iov =>
      d ← readv (data self) iov bs;
      let self := self <| data := d |> in
      if len bs =? 0 then Ok self else hev_ring_buffer_write_finish self (len bs)
  end.

(** the second half: the buffer, the bytes lwIP was given *)
Definition forward (self : HevRingBuffer) : res (HevRingBuffer * mem) :=
  match hev_ring_buffer_reading self with
  | [] => Ok (self, [])
  | iov =>
      bytes ← tcp_write_all (data self) iov;
      self ← hev_ring_buffer_read_finish self (foldr (λ v s, v.2 + s) 0 iov);
      Ok (self, bytes)
  end.

(** [tcp_sent_handler] *)
Definition sent (self : HevRingBuffer) (n : Z) : HevRingBuffer := hev_ring_buffer_read_release self n.

Inductive event : Type := Receive (bs : mem) | Forward | Sent (n : Z).

(** an event's outcome: the buffer, the bytes handed on *)
Definition ring_event (self : HevRingBuffer) (e : event) : res (HevRingBuffer * mem) :=
  match e with
  | Receive bs => self ← receive self bs; Ok (self, [])
  | Forward => forward self
  | Sent n => Ok (sent self n, [])
  end.
Fixpoint ring_session (self : HevRingBuffer) (es : list event) : res (HevRingBuffer * mem) :=
  match es with
  | [] => Ok (self, [])
  | e :: es => '(self, out) ← ring_event self e; '(self, rest) ← ring_session self es; Ok (self, out ++ rest)
  end.

(** ** The specification: a queue with a capacity

    [q_flight] was handed to lwIP and not yet reported sent, [q_ready] was
    received and not yet handed on. *)
Record queue : Type := Queue { q_flight : mem; q_ready : mem }.

(** [None]: the environment does what it never does: [readv] delivers more
    than it was given room for, lwIP reports more than it has *)
Definition qstep (cap : Z) (q : queue) (e : event) : option (queue * mem) :=
  match e with
  | Receive bs =>
      if len (q_flight q) + len (q_ready q) + len bs <=? cap
      then Some (Queue (q_flight q) (q_ready q ++ bs), []) else None
  | Forward => Some (Queue (q_flight q ++ q_ready q) [], q_ready q)
  | Sent n =>
      if (0 <=? n) && (n <=? len (q_flight q))
      then Some (Queue (drop (Z.to_nat n) (q_flight q)) (q_ready q), []) else None
  end.
Fixpoint qrun (cap : Z) (q : queue) (es : list event) : option (queue * mem) :=
  match es with
  | [] => Some (q, [])
  | e :: es =>
      '(q, out) ← qstep cap q e; '(q, rest) ← qrun cap q es; Some (q, out ++ rest)
  end%stdpp.

(** ** Bytes around the corner *)

(** [l] lies in [d] from [base] on, modulo the size of [d] *)
Definition holds (d : mem) (base : Z) (l : mem) : Prop :=
  ∀ (i : nat) x, l !! i = Some x → d !! Z.to_nat ((base + Z.of_nat i) mod len d) = Some x.

Lemma holds_nil d base : holds d base [].
Proof. by intros i x. Qed.

Lemma holds_app d base l1 l2 : holds d base (l1 ++ l2) ↔ holds d base l1 ∧ holds d (base + len l1) l2.
Proof.
  split.
  - intros H. split; intros i x Hi.
    + apply H. by apply lookup_app_l_Some.
    + replace (base + len l1 + Z.of_nat i) with (base + Z.of_nat (length l1 + i)) by (unfold len; lia).
      apply H. by rewrite lookup_app_r, Nat.add_comm, Nat.add_sub by lia.
  - intros [H1 H2] i x [Hi|[Hl Hi]]%lookup_app_Some; [by apply H1|].
    replace (base + Z.of_nat i) with (base + len l1 + Z.of_nat (i - length l1)) by (unfold len; lia).
    by apply H2.
Qed.

Lemma holds_mod d base base' l : base mod len d = base' mod len d → holds d base l → holds d base' l.
Proof.
  intros E H i x Hi. replace ((base' + Z.of_nat i) mod len d) with ((base + Z.of_nat i) mod len d); [by apply H|].
  by rewrite <- Zplus_mod_idemp_l, E, Zplus_mod_idemp_l.
Qed.

(** where nothing wraps, [holds] is a slice *)
Lemma holds_slice d base l :
  0 <= base → base + len l <= len d → holds d base l → slice d base (len l) = l.
Proof.
  intros Hb Hl H. apply list_eq. intros i. unfold slice. rewrite to_nat_len.
  destruct (decide (i < length l)%nat) as [Hi|Hi].
  - rewrite lookup_take_lt, lookup_drop by done. destruct (lookup_lt_is_Some_2 l i Hi) as [x Hx].
    rewrite Hx. specialize (H i x Hx). unfold len in *. rewrite Z.mod_small in H by lia.
    by replace (Z.to_nat base + i)%nat with (Z.to_nat (base + Z.of_nat i)) by lia.
  - rewrite lookup_take_ge by lia. symmetry. apply lookup_ge_None. lia.
Qed.

(** writing behind what is held extends it *)
Lemma holds_put d base l o bs :
  0 < len d → o = (base + len l) mod len d → o + len bs <= len d → len l + len bs <= len d →
  holds d base l → holds (splice d o bs) base (l ++ bs).
Proof.
  intros Hd Ho Hob Hlb H.
  pose proof (len_nonneg l). pose proof (len_nonneg bs).
  assert (Ho0 : 0 <= o < len d) by (rewrite Ho; by apply Z.mod_pos_bound).
  assert (Hsp : len (splice d o bs) = len d).
  { unfold splice. rewrite !len_app. unfold len in *. rewrite length_take, length_drop. lia. }
  assert (Hrd : ∀ j, 0 <= j < len d → splice d o bs !! Z.to_nat j
    = if decide (o <= j < o + len bs) then bs !! Z.to_nat (j - o) else d !! Z.to_nat j).
  { intros j Hj. unfold splice. destruct (decide (o <= j)) as [Hoj|Hoj].
    - rewrite lookup_app_r by (rewrite length_take; unfold len in *; lia).
      rewrite length_take. unfold len in *. rewrite Nat.min_l by lia.
      replace (Z.to_nat j - Z.to_nat o)%nat with (Z.to_nat (j - o)) by lia. case_decide.
      + rewrite lookup_app_l; [done|lia].
      + rewrite lookup_app_r, lookup_drop by lia. f_equal. lia.
    - rewrite lookup_app_l by (rewrite length_take; unfold len in *; lia).
      rewrite lookup_take_lt by lia. by rewrite decide_False by lia. }
  intros i x Hi. rewrite Hsp. set (j := (base + Z.of_nat i) mod len d).
  assert (Hj : 0 <= j < len d) by (unfold j; by apply Z.mod_pos_bound). rewrite Hrd by done.
  assert (Hq : ∃ q, j - o = Z.of_nat i - len l + len d * q).
  { exists ((base + len l) / len d - (base + Z.of_nat i) / len d). subst o j.
    rewrite !Z.mod_eq by lia. lia. }
  destruct Hq as [q Hq]. apply lookup_app_Some in Hi as [Hi|[Hl Hi]].
  - pose proof (lookup_lt_Some _ _ _ Hi). specialize (H i x Hi). rewrite decide_False; [done|].
    intros ?. unfold len in *. destruct (Z.le_gt_cases q 0); nia.
  - pose proof (lookup_lt_Some _ _ _ Hi). unfold len in *.
    assert (q = 0) by (destruct (Z.lt_trichotomy q 0) as [|[|]]; nia). subst q.
    rewrite decide_True by lia. rewrite <- Hi. f_equal. lia.
Qed.

(** ** The buffer refines the queue *)

Record ring_ok (b : HevRingBuffer) (q : queue) : Prop := RingOk {
  ro_max : 0 < max_size b < 2 ^ 62; ro_data : len (data b) = max_size b;
  ro_rp : 0 <= rp b < max_size b; ro_wp : 0 <= wp b < max_size b;
  ro_rda : rda_size b = len (q_ready q);
  ro_use : use_size b = len (q_flight q) + len (q_ready q);
  ro_fit : use_size b <= max_size b;
  ro_rw : wp b = (rp b + rda_size b) mod max_size b;
  ro_flight : holds (data b) (rp b - len (q_flight q)) (q_flight q ++ q_ready q)
}.

Lemma ring_new garbage : 0 < len garbage < 2 ^ 62 → ring_ok (hev_ring_buffer_alloca garbage) (Queue [] []).
Proof. intros H. split; simpl; auto; try lia. apply holds_nil. Qed.

Lemma ring_ready b q : ring_ok b q → holds (data b) (rp b) (q_ready q).
Proof.
  intros Hb. pose proof (ro_flight _ _ Hb) as H. apply holds_app in H as [_ H].
  by rewrite Z.sub_add in H.
Qed.

Lemma ring_forward b q :
  ring_ok b q → ∃ b', forward b = Ok (b', q_ready q) ∧ ring_ok b' (Queue (q_flight q ++ q_ready q) []).
Proof.
  intros Hb. pose proof (ring_ready b q Hb) as Hr. destruct Hb as [? Hd ? ? Hrda Huse ? Hrw Hh].
  pose proof (len_nonneg (q_ready q)). pose proof (len_nonneg (q_flight q)).
  set (b' := b <| rp := (rp b + rda_size b) mod max_size b |> <| rda_size := 0 |>).
  assert (Hok' : ring_ok b' (Queue (q_flight q ++ q_ready q) [])).
  { split; simpl; rewrite ?app_nil_r, ?len_app, ?len_nil; try (done || lia).
    - by rewrite Z.add_0_r, Hrw, Z.mod_mod by lia.
    - eapply holds_mod; [|exact Hh]. rewrite Hd, Hrda.
      rewrite <- (Zminus_mod_idemp_l (_ mod _)), Z.mod_mod, Zminus_mod_idemp_l by lia. f_equal. lia. }
  unfold forward, hev_ring_buffer_reading. destruct (Z.eqb_spec (rda_size b) 0) as [E|E].
  - exists b. rewrite E in Hrda. destruct (q_ready q) as [|x l] eqn:El; [|rewrite len_cons in Hrda; pose proof (len_nonneg l); lia].
    split; [done|]. replace b with b'; [done|]. unfold b'. rewrite E, Z.add_0_r, Z.mod_small by done.
    clear -E. destruct b. simpl in E. by subst.
  - ints. destruct (Z.leb_spec (rda_size b) (max_size b - rp b)).
    + cbn [tcp_write_all foldr snd]. rewrite Hd. ints.
      rewrite !(proj2 (Z.leb_le _ _)) by lia. cbn [andb]. rewrite !bind_Ok, Z.add_0_r, app_nil_r.
      unfold hev_ring_buffer_read_finish, rem64. rewrite (proj2 (Z.eqb_neq _ _)) by lia. ints.
      rewrite !bind_Ok. exists b'. split; [|done]. f_equal. f_equal.
      * unfold b'. by rewrite Z.sub_diag.
      * rewrite Hrda. apply holds_slice; [lia|lia|done].
    + cbn [tcp_write_all foldr snd]. rewrite Hd. ints.
      rewrite !(proj2 (Z.leb_le _ _)) by lia. cbn [andb]. rewrite !bind_Ok, Z.add_0_r, app_nil_r.
      unfold hev_ring_buffer_read_finish, rem64. rewrite (proj2 (Z.eqb_neq _ _)) by lia. ints.
      rewrite !bind_Ok. exists b'. split; [|done].
      replace (max_size b - rp b + (rda_size b - (max_size b - rp b))) with (rda_size b) by lia.
      f_equal. f_equal; [unfold b'; ints; by rewrite Z.sub_diag|].
      rewrite <- (take_drop (Z.to_nat (max_size b - rp b)) (q_ready q)) in Hr |- *.
      set (l1 := take _ (q_ready q)) in *. set (l2 := drop _ (q_ready q)) in *.
      assert (Hl1 : len l1 = max_size b - rp b) by (unfold l1, len in *; rewrite length_take; lia).
      assert (Hl2 : len l2 = rda_size b - (max_size b - rp b)) by (unfold l2, len in *; rewrite length_drop; lia).
      apply holds_app in Hr as [Hr1 Hr2]. f_equal.
      * rewrite <- Hl1. apply holds_slice; [lia|lia|done].
      * rewrite <- Hl2. apply holds_slice; [lia|lia|]. eapply holds_mod; [|exact Hr2].
        rewrite Hl1, Hd. replace (rp b + (max_size b - rp b)) with (max_size b) by lia.
        by rewrite Z.mod_same, Z.mod_0_l by lia.
Qed.

Lemma forward_max b b' out : forward b = Ok (b', out) → max_size b' = max_size b.
Proof.
  unfold forward. destruct (hev_ring_buffer_reading b); [by intros [= <- _]|]. intros E.
  apply bind_ok in E as (bytes & _ & E). apply bind_ok in E as (b2 & E2 & [= -> _]).
  unfold hev_ring_buffer_read_finish in E2. apply bind_ok in E2 as (? & _ & [= <-]). done.
Qed.
Lemma sent_max b n : max_size (sent b n) = max_size b.
Proof. unfold sent, hev_ring_buffer_read_release. by case_match. Qed.

(** the vectors to read from, and the room to write into *)
Lemma ring_reading b q : ring_ok b q → Forall (λ v, 0 < v.2 <= max_size b) (hev_ring_buffer_reading b).
Proof.
  intros [? Hd ? ? Hrda Huse ? Hrw Hh]. pose proof (len_nonneg (q_ready q)). pose proof (len_nonneg (q_flight q)).
  unfold hev_ring_buffer_reading. destruct (Z.eqb_spec (rda_size b) 0) as [E|E]; [constructor|]. ints.
  destruct (Z.leb_spec (rda_size b) (max_size b - rp b)); ints.
  - apply Forall_singleton. cbn [snd]. lia.
  - apply Forall_cons_2; [cbn [snd]; lia|]. apply Forall_singleton. cbn [snd]. lia.
Qed.
Lemma ring_room b q : ring_ok b q → foldr (λ v s, v.2 + s) 0 (hev_ring_buffer_writing b) = max_size b - use_size b.
Proof.
  intros [? Hd ? ? Hrda Huse ? Hrw Hh]. pose proof (len_nonneg (q_ready q)). pose proof (len_nonneg (q_flight q)).
  unfold hev_ring_buffer_writing. destruct (Z.eqb_spec (use_size b) (max_size b)) as [E|E]; [simpl; lia|]. ints.
  destruct (Z.leb_spec (max_size b - use_size b) (max_size b - wp b)); ints; simpl; lia.
Qed.

Lemma ring_sent b q n :
  ring_ok b q → 0 <= n <= len (q_flight q) →
  ring_ok (sent b n) (Queue (drop (Z.to_nat n) (q_flight q)) (q_ready q)).
Proof.
  intros [? Hd ? ? Hrda Huse ? Hrw Hh] Hn. unfold sent, hev_ring_buffer_read_release.
  pose proof (len_nonneg (q_ready q)). ints.
  assert (Hdrop : len (drop (Z.to_nat n) (q_flight q)) = len (q_flight q) - n).
  { unfold len in *. rewrite length_drop. lia. }
  simpl. destruct (Z.eqb_spec (use_size b - n) 0) as [E|E].
  - assert (drop (Z.to_nat n) (q_flight q) = [] ∧ q_ready q = []) as [-> ->].
    { unfold len in *. split; apply length_zero_iff_nil; lia. }
    assert (Hz : rda_size b = 0) by (unfold len in *; lia).
    split; simpl; rewrite ?Hz, ?len_nil; try (done || lia).
  - split; simpl; try (done || lia).
    assert (Hs : q_flight q ++ q_ready q
      = take (Z.to_nat n) (q_flight q) ++ drop (Z.to_nat n) (q_flight q) ++ q_ready q)
      by by rewrite app_assoc, take_drop.
    rewrite Hs in Hh. apply holds_app in Hh as [_ Hh]. eapply holds_mod; [|exact Hh].
    f_equal. rewrite Hdrop. unfold len in *. rewrite length_take. lia.
Qed.

(** the room offered is filled from the front, behind what is held *)
Lemma readv_writing b q bs :
  ring_ok b q → use_size b + len bs <= max_size b → use_size b ≠ max_size b →
  ∃ d, readv (data b) (hev_ring_buffer_writing b) bs = Ok d ∧ len d = max_size b
    ∧ holds d (rp b - len (q_flight q)) ((q_flight q ++ q_ready q) ++ bs).
Proof.
  intros [? Hd ? ? Hrda Huse ? Hrw Hh] Hfit Hroom.
  pose proof (len_nonneg bs). pose proof (len_nonneg (q_ready q)). pose proof (len_nonneg (q_flight q)).
  set (base := rp b - len (q_flight q)) in *. set (l := q_flight q ++ q_ready q) in *.
  assert (Hl : len l = use_size b) by (unfold l; rewrite len_app; lia).
  assert (Hwp : wp b = (base + len l) mod len (data b)).
  { rewrite Hd, Hrw. f_equal. unfold base. lia. }
  unfold hev_ring_buffer_writing. rewrite (proj2 (Z.eqb_neq _ _)) by done. ints.
  destruct (Z.leb_spec (max_size b - use_size b) (max_size b - wp b)).
  - cbn [readv]. assert (Hk : take (Z.to_nat (max_size b - use_size b)) bs = bs) by (apply take_ge; unfold len in *; lia).
    rewrite Hk, memcpy_ok by (rewrite ?Hd; lia). rewrite bind_Ok, slice_all.
    eexists. split; [done|]. split; [by rewrite len_splice by lia|]. by apply holds_put; lia || done.
  - ints. cbn [readv]. set (k := Z.to_nat (max_size b - wp b)).
    assert (Hk : len (take k bs) <= max_size b - wp b) by (unfold k, len; rewrite length_take; lia).
    pose proof (len_nonneg (take k bs)).
    assert (Hs : len (take k bs) + len (drop k bs) = len bs) by (rewrite <- len_app, take_drop; done).
    pose proof (len_nonneg (drop k bs)).
    rewrite memcpy_ok by (rewrite ?Hd; lia). rewrite bind_Ok, slice_all.
    assert (Hput : holds (splice (data b) (wp b) (take k bs)) base (l ++ take k bs)) by (apply holds_put; lia || done).
    set (d1 := splice _ _ _) in *. assert (Hd1 : len d1 = max_size b) by (unfold d1; by rewrite len_splice by lia).
    assert (Hk2 : take (Z.to_nat (max_size b - use_size b - (max_size b - wp b))) (drop k bs) = drop k bs).
    { apply take_ge. rewrite length_drop. unfold k, len in *. lia. }
    rewrite Hk2, memcpy_ok by (rewrite ?Hd1; lia). rewrite bind_Ok, slice_all.
    eexists. split; [done|]. split; [by rewrite len_splice by lia|].
    rewrite <- (take_drop k bs) at 2. rewrite (app_assoc l).
    destruct (decide (drop k bs = [])) as [->|Hne].
    { rewrite app_nil_r. unfold splice. change (len []) with 0. simpl. by rewrite drop_0. }
    apply holds_put; [lia| |lia|rewrite len_app; lia|done].
    assert (len (take k bs) = max_size b - wp b).
    { unfold k, len in *. rewrite length_take. destruct (drop _ bs) eqn:Eb; [done|].
      assert (Hlt : (length (drop (Z.to_nat (max_size b - wp b)) bs) > 0)%nat) by (unfold k in *; rewrite Eb; simpl; lia).
      rewrite length_drop in Hlt. lia. }
    rewrite len_app, Hd1, Z.add_assoc, <- Z.add_mod_idemp_l, <- Hd, <- Hwp by lia.
    replace (wp b + len (take k bs)) with (len (data b)) by lia. by rewrite Z.mod_same by lia.
Qed.

Lemma ring_receive b q bs :
  ring_ok b q → use_size b + len bs <= max_size b →
  ∃ b', receive b bs = Ok b' ∧ ring_ok b' (Queue (q_flight q) (q_ready q ++ bs)) ∧ max_size b' = max_size b.
Proof.
  intros Hb Hfit. pose proof (len_nonneg bs). unfold receive.
  destruct (decide (use_size b = max_size b)) as [Hfull|Hroom].
  { unfold hev_ring_buffer_writing. rewrite (proj2 (Z.eqb_eq _ _)) by done.
    assert (bs = []) as -> by (unfold len in *; apply length_zero_iff_nil; lia).
    exists b. rewrite app_nil_r. by destruct q. }
  destruct (readv_writing b q bs Hb Hfit Hroom) as (d & Er & Hd & Hh).
  destruct Hb as [? ? ? ? Hrda Huse ? Hrw _].
  destruct (hev_ring_buffer_writing b) as [|v iov] eqn:Ei.
  { unfold hev_ring_buffer_writing in Ei. rewrite (proj2 (Z.eqb_neq _ _)) in Ei by done. by case_match. }
  rewrite Er, bind_Ok. cbv zeta. rewrite <- app_assoc in Hh. destruct (Z.eqb_spec (len bs) 0) as [E|E].
  - assert (bs = []) as -> by (unfold len in *; apply length_zero_iff_nil; lia). rewrite app_nil_r in *.
    eexists. split; [done|]. split; [|done]. by split; simpl.
  - unfold hev_ring_buffer_write_finish, rem64. simpl. rewrite (proj2 (Z.eqb_neq _ _)) by lia.
    pose proof (len_nonneg (q_flight q)). pose proof (len_nonneg (q_ready q)). ints. rewrite bind_Ok.
    eexists. split; [done|]. split; [|done].
    split; simpl; rewrite ?len_app; try (done || lia); [by apply Z.mod_pos_bound; lia|].
    rewrite Hrw, Zplus_mod_idemp_l. f_equal. lia.
Qed.

Lemma ring_step b q e q' out :
  ring_ok b q → qstep (max_size b) q e = Some (q', out) →
  ∃ b', ring_event b e = Ok (b', out) ∧ ring_ok b' q' ∧ max_size b' = max_size b.
Proof.
  intros Hb Hq. destruct e as [bs| |n]; simpl in *.
  - destruct (Z.leb_spec (len (q_flight q) + len (q_ready q) + len bs) (max_size b)); [|done].
    injection Hq as <- <-. destruct (ring_receive b q bs Hb) as (b' & E & Hb' & Hm).
    { rewrite (ro_use _ _ Hb). lia. }
    exists b'. by rewrite E.
  - injection Hq as <- <-. destruct (ring_forward b q Hb) as (b' & E & Hb').
    exists b'. split; [done|]. split; [done|]. by apply forward_max in E.
  - destruct ((0 <=? n) && (n <=? len (q_flight q))) eqn:E; [|done]. injection Hq as <- <-.
    apply andb_true_iff in E as [E1%Z.leb_le E2%Z.leb_le].
    exists (sent b n). split; [done|]. split; [by apply ring_sent|apply sent_max].
Qed.

Lemma ring_run es : ∀ b0 q0 q out,
  ring_ok b0 q0 → qrun (max_size b0) q0 es = Some (q, out) →
  ∃ b, ring_session b0 es = Ok (b, out) ∧ ring_ok b q.
Proof.
  induction es as [|e es IH]; intros b0 q0 q out Hb; simpl.
  - intros [= <- <-]. by exists b0.
  - destruct (qstep (max_size b0) q0 e) as [[q1 o1]|] eqn:E1; simpl; [|done].
    destruct (qrun (max_size b0) q1 es) as [[q2 o2]|] eqn:E2; simpl; [|done]. intros [= <- <-].
    destruct (ring_step b0 q0 e q1 o1 Hb E1) as (b1 & Es & Hb1 & Hm).
    rewrite <- Hm in E2. destruct (IH b1 q1 q2 o2 Hb1 E2) as (b2 & Er & Hb2).
    exists b2. by rewrite Es, bind_Ok, Er.
Qed.

(** C40: whatever the server and lwIP do, as long as no read delivers more
    than the room offered and no report exceeds what is in flight, the ring
    buffer never leaves its memory and behaves like the queue: the same bytes
    are handed on at every event, and the bytes lwIP still needs stay where
    they are. *)
Theorem ring_refines_queue (garbage : mem) (es : list event) (q : queue) (out : mem) :
  0 < len garbage < 2 ^ 62 →
  qrun (len garbage) (Queue [] []) es = Some (q, out) →
  ∃ b, ring_session (hev_ring_buffer_alloca garbage) es = Ok (b, out) ∧ ring_ok b q.
Proof. intros Hg. by apply (ring_run es (hev_ring_buffer_alloca garbage)), ring_new. Qed.

(** *** Order *)

(** the bytes received *)
Definition received (es : list event) : mem := concat (map (λ e, match e with Receive bs => bs | _ => [] end) es).

Lemma qrun_fifo cap es : ∀ q q' out,
  qrun cap q es = Some (q', out) → q_ready q ++ received es = out ++ q_ready q'.
Proof.
  induction es as [|e es IH]; intros q q' out; simpl.
  - intros [= <- <-]. by rewrite app_nil_r.
  - destruct (qstep cap q e) as [[q1 o1]|] eqn:E1; simpl; [|done].
    destruct (qrun cap q1 es) as [[q2 o2]|] eqn:E2; simpl; [|done]. intros [= <- <-].
    specialize (IH _ _ _ E2). unfold received in *. rewrite <- app_assoc, <- IH.
    destruct e as [bs| |n]; simpl in *; [case_match; [|done]|..|case_match; [|done]];
      injection E1 as <- <-; simpl; by rewrite ?app_assoc.
Qed.

(** What lwIP is given is what the server sent, byte for byte and in
    order; what is missing is what the next [forward] hands on. *)
Theorem ring_fifo (garbage : mem) (es : list event) (q : queue) (out : mem) :
  0 < len garbage < 2 ^ 62 →
  qrun (len garbage) (Queue [] []) es = Some (q, out) →
  ∃ b b' bytes, ring_session (hev_ring_buffer_alloca garbage) es = Ok (b, out)
    ∧ forward b = Ok (b', bytes) ∧ received es = out ++ bytes.
Proof.
  intros Hg Hq. destruct (ring_run es _ _ q out (ring_new garbage Hg) Hq) as (b & Er & Hb).
  destruct (ring_forward b q Hb) as (b' & Ef & _). exists b, b', (q_ready q).
  split; [done|]. split; [done|]. by apply qrun_fifo in Hq.
Qed.

(** ** Examples: a buffer of four bytes goes round *)

Definition around : list event :=
  [Receive [x01; x02; x03]; Forward; Sent 2; Receive [x04; x05; x06]; Forward; Sent 4; Receive [x07]].

Lemma ring_refines_queue_witness :
  ∃ b, ring_session (hev_ring_buffer_alloca (repeat xff 4)) around = Ok (b, [x01; x02; x03; x04; x05; x06])
    ∧ ring_ok b (Queue [] [x07]).
Proof. apply ring_refines_queue; zeval. Defined.

Lemma ring_fifo_witness :
  ∃ b b' bytes, ring_session (hev_ring_buffer_alloca (repeat xff 4)) around = Ok (b, [x01; x02; x03; x04; x05; x06])
    ∧ forward b = Ok (b', bytes) ∧ received around = [x01; x02; x03; x04; x05; x06] ++ bytes.
Proof. apply (ring_fifo (repeat xff 4) around (Queue [] [x07])); zeval. Defined.
