(* ===== verification/HevList.v ===== *)
(** * hev-socks5-tunnel, the doubly linked list: misc/hev-list.c

    Nodes are named by the objects they are part of; a [HevList] is its two
    end pointers with the store its nodes live in.  [hev_list_add_tail] and
    [hev_list_del] refine appending to and removing from a list. *)

From Stdlib Require Import ZArith Lia Bool List.
From stdpp Require Import base tactics list numbers option gmap.
From S2P Require Import Prelude.

Record HevListNode : Type := ListNode { ln_next : option nat; ln_prev : option nat }.
#[export] Instance listnode_eta : Eta HevListNode := λ n, ListNode (ln_next n) (ln_prev n).

Record HevList : Type := MkHevList {
  hl_head : option nat; hl_tail : option nat; hl_nodes : gmap nat HevListNode
}.
#[export] Instance hevlist_eta : Eta HevList := λ l, MkHevList (hl_head l) (hl_tail l) (hl_nodes l).

(** a node's memory *)
Definition node_get (self : HevList) (x : nat) : res HevListNode :=
  match hl_nodes self !! x with Some n => Ok n | None => UB end.
Definition node_set (self : HevList) (x : nat) (f : HevListNode → HevListNode) : res HevList :=
  _ ← node_get self x; Ok (self <| hl_nodes := alter f x (hl_nodes self) |>).

Definition hev_list_node_prev (self : HevList) (node : nat) : res (option nat) :=
  n ← node_get self node; Ok (ln_prev n).
Definition hev_list_node_next (self : HevList) (node : nat) : res (option nat) :=
  n ← node_get self node; Ok (ln_next n).
Definition hev_list_first (self : HevList) : option nat := hl_head self.
Definition hev_list_last (self : HevList) : option nat := hl_tail self.

Definition hev_list_add_tail (self : HevList) (new : nat) : res HevList :=
  self ← node_set self new (λ n, n <| ln_prev := hl_tail self |> <| ln_next := None |>);
  self ← (match hl_tail self with
    | Some t => node_set self t (λ n, n <| ln_next := Some new |>)
    | None => Ok (self <| hl_head := Some new |>)
    end);
  Ok (self <| hl_tail := Some new |>).

Definition hev_list_del (self : HevList) (node : nat) : res HevList :=
  n ← node_get self node;
  self ← (match ln_prev n with
    | Some p => node_set self p (λ m, m <| ln_next := ln_next n |>)
    | None => Ok (self <| hl_head := ln_next n |>)
    end);
  n ← node_get self node;
  match ln_next n with
  | Some q => node_set self q (λ m, m <| ln_prev := ln_prev n |>)
  | None => Ok (self <| hl_tail := ln_prev n |>)
  end.

(** a node's memory comes and goes with the object it is part of *)
Definition node_alloc (self : HevList) (x : nat) : HevList :=
  self <| hl_nodes := <[x := ListNode None None]> (hl_nodes self) |>.
Definition node_free (self : HevList) (x : nat) : HevList :=
  self <| hl_nodes := delete x (hl_nodes self) |>.

(** ** What a list stands for *)

Definition first (l : list nat) (n : option nat) : option nat :=
  match l with [] => n | x :: _ => Some x end.
Definition final (p : option nat) (l : list nat) : option nat :=
  match last l with Some x => Some x | None => p end.

(** [l] is chained up between [p] and [n] *)
Fixpoint seg (nodes : gmap nat HevListNode) (p : option nat) (l : list nat) (n : option nat) : Prop :=
  match l with
  | [] => True
  | x :: l => nodes !! x = Some (ListNode (first l n) p) ∧ seg nodes (Some x) l n
  end.

Record dll (self : HevList) (l : list nat) : Prop := Dll {
  dll_nodup : NoDup l;
  dll_head : hl_head self = first l None;
  dll_tail : hl_tail self = last l;
  dll_seg : seg (hl_nodes self) None l None
}.

Lemma dll_empty nodes : dll (MkHevList None None nodes) [].
Proof. split; [constructor|done..]. Qed.

Lemma final_cons p x l : final p (x :: l) = final (Some x) l.
Proof. unfold final. rewrite last_cons. by destruct (last l). Qed.

Lemma first_app l1 l2 n : first (l1 ++ l2) n = first l1 (first l2 n).
Proof. by destruct l1. Qed.

Lemma seg_app nodes p l1 l2 n :
  seg nodes p (l1 ++ l2) n ↔ seg nodes p l1 (first l2 n) ∧ seg nodes (final p l1) l2 n.
Proof.
  revert p. induction l1 as [|x l1 IH]; intros p; [simpl; tauto|].
  cbn [app seg]. rewrite IH, final_cons, first_app. tauto.
Qed.

Lemma seg_frame nodes nodes' p l n :
  (∀ x, x ∈ l → nodes' !! x = nodes !! x) → seg nodes p l n → seg nodes' p l n.
Proof.
  revert p. induction l as [|x l IH]; intros p Hx; [done|]. intros [H1 H2]. split.
  - rewrite Hx; [done|]. by apply elem_of_cons; left.
  - apply IH; [|done]. intros y Hy. apply Hx. by apply elem_of_cons; right.
Qed.

(** the last node's [next], the first node's [prev] *)
Lemma seg_set_next nodes p l t n n' :
  NoDup (l ++ [t]) → seg nodes p (l ++ [t]) n →
  seg (alter (λ m, m <| ln_next := n' |>) t nodes) p (l ++ [t]) n'.
Proof.
  intros Hnd [H1 [H2 _]]%seg_app. apply NoDup_app in Hnd as (_ & Hnot & _).
  apply seg_app. split.
  - eapply seg_frame; [|exact H1]. intros x Hx. rewrite lookup_alter_ne; [done|].
    intros <-. apply (Hnot t Hx). by apply list_elem_of_singleton.
  - split; [|done]. by rewrite lookup_alter_eq, H2.
Qed.
Lemma seg_set_prev nodes p p' x l n :
  x ∉ l → seg nodes p (x :: l) n → seg (alter (λ m, m <| ln_prev := p' |>) x nodes) p' (x :: l) n.
Proof.
  intros Hx [H1 H2]. split; [by rewrite lookup_alter_eq, H1|].
  eapply seg_frame; [|exact H2]. intros y Hy. rewrite lookup_alter_ne; [done|]. by intros <-.
Qed.

Lemma node_set_ok self x n f :
  hl_nodes self !! x = Some n → node_set self x f = Ok (self <| hl_nodes := alter f x (hl_nodes self) |>).
Proof. intros H. unfold node_set, node_get. by rewrite H. Qed.

(** only the nodes of the list count *)
Lemma dll_frame self self' l :
  dll self l → hl_head self' = hl_head self → hl_tail self' = hl_tail self →
  (∀ x, x ∈ l → hl_nodes self' !! x = hl_nodes self !! x) → dll self' l.
Proof.
  intros [Hn Hh Ht Hs] Eh Et Ex. split; [done|by rewrite Eh|by rewrite Et|by eapply seg_frame].
Qed.
Lemma dll_alloc self l x : dll self l → x ∉ l → dll (node_alloc self x) l.
Proof.
  intros H Hx. eapply dll_frame; [done..|]. intros y Hy. simpl. rewrite lookup_insert_ne; [done|]. by intros ->.
Qed.
Lemma dll_free self l x : dll self l → x ∉ l → dll (node_free self x) l.
Proof.
  intros H Hx. eapply dll_frame; [done..|]. intros y Hy. simpl. rewrite lookup_delete_ne; [done|]. by intros ->.
Qed.
Lemma dll_alive self l x : dll self l → x ∈ l → is_Some (hl_nodes self !! x).
Proof.
  intros [_ _ _ Hs] (l1 & l2 & ->)%list_elem_of_split. apply seg_app in Hs as [_ [H _]]. by eexists.
Qed.

(** what an operation may do: exactly the new list, and no other node *)
Definition list_effect (self self' : HevList) (x : nat) (l l' : list nat) : Prop :=
  dll self' l' ∧ (∀ y, y ∉ l → y ≠ x → hl_nodes self' !! y = hl_nodes self !! y)
  ∧ is_Some (hl_nodes self' !! x).

Lemma add_tail_effect self l new n :
  dll self l → hl_nodes self !! new = Some n → new ∉ l →
  ∃ self', hev_list_add_tail self new = Ok self' ∧ list_effect self self' new l (l ++ [new]).
Proof.
  intros [Hnd Hh Ht Hs] Hn Hnew. unfold hev_list_add_tail.
  rewrite (node_set_ok _ _ _ _ Hn), bind_Ok. cbv beta. set (s1 := self <| hl_nodes := _ |>).
  assert (Hnd' : NoDup (l ++ [new])).
  { apply NoDup_app. split; [done|]. split; [|apply NoDup_singleton].
    intros x Hx ->%list_elem_of_singleton. done. }
  assert (Hs1 : seg (hl_nodes s1) None l None).
  { eapply seg_frame; [|exact Hs]. intros x Hx. simpl. rewrite lookup_alter_ne; [done|]. by intros <-. }
  assert (Hn1 : hl_nodes s1 !! new = Some (ListNode None (hl_tail self))) by (simpl; by rewrite lookup_alter_eq, Hn).
  change (hl_tail s1) with (hl_tail self). rewrite Ht in Hn1 |- *.
  destruct (last l) as [t|] eqn:Et.
  - apply last_Some in Et as [l' ->].
    assert (Htn : t ≠ new) by (intros ->; apply Hnew, elem_of_app; right; by apply list_elem_of_singleton).
    pose proof Hs1 as [_ [H1 _]]%seg_app. rewrite (node_set_ok _ _ _ _ H1), bind_Ok.
    eexists. split; [done|]. split; [split; simpl; [done|by rewrite Hh; destruct l'|by rewrite last_snoc|]|split; simpl].
    + apply seg_app. split; [by eapply seg_set_next|]. split; [|done].
      rewrite lookup_alter_ne by done. unfold s1 in Hn1. simpl in Hn1. rewrite Hn1. unfold final. by rewrite last_snoc.
    + intros y Hy Hyn. rewrite !lookup_alter_ne; [done|by intros <-|].
      intros <-. apply Hy, elem_of_app. right. by apply list_elem_of_singleton.
    + rewrite lookup_alter_ne by done. unfold s1 in Hn1. simpl in Hn1. by rewrite Hn1.
  - apply last_None in Et as ->. rewrite bind_Ok. eexists. split; [done|].
    split; [split; simpl; [done..|]|split; simpl].
    + split; [done|done].
    + intros y _ Hyn. by rewrite lookup_alter_ne.
    + unfold s1 in Hn1. simpl in Hn1. by rewrite Hn1.
Qed.

(** taking [x] out of the chain: what its neighbours point to *)
Lemma del_prev self l1 x l2 :
  NoDup (l1 ++ x :: l2) → seg (hl_nodes self) None (l1 ++ x :: l2) None →
  ∃ nodes, (match last l1 with
      | Some p => node_set self p (λ m, m <| ln_next := first l2 None |>)
      | None => Ok (self <| hl_head := first l2 None |>)
      end) = Ok (MkHevList (if l1 then first l2 None else hl_head self) (hl_tail self) nodes)
    ∧ seg nodes None l1 (first l2 None) ∧ seg nodes (Some x) l2 None
    ∧ (∀ y, y ∉ l1 → nodes !! y = hl_nodes self !! y).
Proof.
  intros Hnd Hs. apply NoDup_app in Hnd as (Hn1 & Hn12 & Hn2). apply seg_app in Hs as [H1 [Hx H2]].
  assert (Hd : ∀ y, y ∈ l2 → y ∉ l1).
  { intros y Hy Hy1. apply (Hn12 y Hy1). by apply elem_of_cons; right. }
  destruct (last l1) as [p|] eqn:E.
  - apply last_Some in E as [l1' ->]. pose proof H1 as [_ [Hp _]]%seg_app.
    rewrite (node_set_ok _ _ _ _ Hp). eexists. split; [by destruct l1'; destruct self|].
    split; [by eapply seg_set_next|]. split.
    + eapply seg_frame; [|exact H2]. intros y Hy. rewrite lookup_alter_ne; [done|].
      intros <-. apply (Hd p Hy), elem_of_app. right. by apply list_elem_of_singleton.
    + intros y Hy. rewrite lookup_alter_ne; [done|]. intros <-. apply Hy, elem_of_app. right.
      by apply list_elem_of_singleton.
  - apply last_None in E as ->. exists (hl_nodes self). by destruct self.
Qed.

Lemma del_next h l1 x l2 :
  NoDup (l1 ++ l2) → seg (hl_nodes h) None l1 (first l2 None) → seg (hl_nodes h) (Some x) l2 None →
  ∃ nodes, (match first l2 None with
      | Some q => node_set h q (λ m, m <| ln_prev := last l1 |>)
      | None => Ok (h <| hl_tail := last l1 |>)
      end) = Ok (MkHevList (hl_head h) (if l2 then last l1 else hl_tail h) nodes)
    ∧ seg nodes None (l1 ++ l2) None ∧ (∀ y, y ∉ l2 → nodes !! y = hl_nodes h !! y).
Proof.
  intros (Hn1 & Hn12 & Hn2)%NoDup_app H1 H2. destruct l2 as [|q l2].
  - exists (hl_nodes h). rewrite app_nil_r. by destruct h.
  - cbn [first]. pose proof H2 as [Hq _]. rewrite (node_set_ok _ _ _ _ Hq).
    apply NoDup_cons in Hn2 as [Hq2 Hn2]. eexists. split; [by destruct h|]. split.
    + apply seg_app. split.
      * eapply seg_frame; [|exact H1]. intros y Hy. rewrite lookup_alter_ne; [done|].
        intros <-. apply (Hn12 q Hy), elem_of_cons. by left.
      * replace (final None l1) with (last l1) by (unfold final; by destruct (last l1)). by eapply seg_set_prev.
    + intros y Hy. rewrite lookup_alter_ne; [done|]. intros <-. apply Hy, elem_of_cons. by left.
Qed.

Lemma final_None l : final None l = last l.
Proof. unfold final. by destruct (last l). Qed.

Lemma del_effect self l1 x l2 :
  dll self (l1 ++ x :: l2) →
  ∃ self', hev_list_del self x = Ok self' ∧ list_effect self self' x (l1 ++ x :: l2) (l1 ++ l2).
Proof.
  intros [Hnd Hh Ht Hs]. pose proof Hs as [_ [Hx _]]%seg_app.
  destruct (del_prev self l1 x l2 Hnd Hs) as (nodes & Ep & H1 & H2 & Hfr).
  pose proof Hnd as (Hn1 & Hn12 & Hn2)%NoDup_app. apply NoDup_cons in Hn2 as [Hx2 Hn2].
  assert (Hx1 : x ∉ l1) by (intros H; apply (Hn12 x H), elem_of_cons; by left).
  assert (Hnd' : NoDup (l1 ++ l2)).
  { apply NoDup_app. split; [done|]. split; [|done]. intros y Hy1 Hy2. apply (Hn12 y Hy1), elem_of_cons. by right. }
  rewrite final_None in Hx. set (h := MkHevList _ _ nodes) in Ep.
  destruct (del_next h l1 x l2 Hnd' H1 H2) as (nodes' & En & Hs' & Hfr').
  assert (E : hev_list_del self x = Ok (MkHevList (hl_head h) (if l2 then last l1 else hl_tail h) nodes')).
  { unfold hev_list_del, node_get at 1. rewrite Hx, bind_Ok. cbn [ln_prev ln_next].
    rewrite Ep, bind_Ok. unfold node_get. cbn [hl_nodes h]. rewrite (Hfr x) by done. rewrite Hx, bind_Ok. exact En. }
  eexists. split; [exact E|]. split; [split; simpl; [done| | |done]|split; simpl].
  - rewrite Hh. by destruct l1.
  - rewrite Ht. destruct l2 as [|q l2]; [by rewrite app_nil_r|]. rewrite !last_app, last_cons.
    by destruct (last (q :: l2)) eqn:E2; [|apply last_None in E2].
  - intros y Hy _. rewrite Hfr' by (intros H; apply Hy, elem_of_app; right; by apply elem_of_cons; right).
    apply Hfr. intros H. apply Hy, elem_of_app. by left.
  - rewrite Hfr', Hfr, Hx by done. done.
Qed.

(** [hev_list_add_tail] and [hev_list_del] are the queue operations: a
    node that is not in the list goes to the end, a node of the list is taken
    out wherever it is; nothing outside the list is touched. *)
Theorem hev_list_refines_list (self : HevList) (l : list nat) :
  dll self l →
  hev_list_first self = first l None ∧ hev_list_last self = last l
  ∧ (∀ new n, new ∉ l → hl_nodes self !! new = Some n →
       ∃ self', hev_list_add_tail self new = Ok self' ∧ list_effect self self' new l (l ++ [new]))
  ∧ (∀ l1 x l2, l = l1 ++ x :: l2 →
       ∃ self', hev_list_del self x = Ok self' ∧ list_effect self self' x l (l1 ++ l2)
         ∧ hev_list_node_next self x = Ok (first l2 None) ∧ hev_list_node_prev self x = Ok (last l1)).
Proof.
  intros H. split; [by apply dll_head|]. split; [by apply dll_tail|]. split.
  - intros new n Hnew Hn. by eapply add_tail_effect.
  - intros l1 x l2 ->. destruct (del_effect self l1 x l2 H) as (self' & E & He).
    exists self'. split; [done|]. split; [done|].
    pose proof (dll_seg _ _ H) as [_ [Hx _]]%seg_app. rewrite final_None in Hx.
    unfold hev_list_node_next, hev_list_node_prev, node_get. by rewrite Hx.
Qed.

(** ** Example *)

Definition three : res HevList :=
  let h := node_alloc (node_alloc (node_alloc (MkHevList None None ∅) 7) 8) 9 in
  h ← hev_list_add_tail h 7; h ← hev_list_add_tail h 8; hev_list_add_tail h 9.
Definition three_list : HevList :=
  MkHevList (Some 7%nat) (Some 9%nat)
    {[ 7%nat := ListNode (Some 8%nat) None; 8%nat := ListNode (Some 9%nat) (Some 7%nat); 9%nat := ListNode None (Some 8%nat) ]}.

Example three_ok : three = Ok three_list.
Proof. vm_compute. reflexivity. Qed.

Lemma three_dll : dll three_list [7; 8; 9]%nat.
Proof. split; [|vm_compute; done..]. repeat constructor; set_solver. Qed.

Lemma hev_list_refines_list_witness :
  dll three_list [7; 8; 9]%nat ∧
  ∃ self', hev_list_del three_list 8%nat = Ok self' ∧ list_effect three_list self' 8%nat [7; 8; 9]%nat ([7] ++ [9])%nat
         ∧ hev_list_node_next three_list 8%nat = Ok (Some 9%nat) ∧ hev_list_node_prev three_list 8%nat = Ok (Some 7%nat).
Proof.
  split; [apply three_dll|].
  destruct (hev_list_refines_list three_list [7; 8; 9]%nat three_dll) as (_ & _ & _ & H).
  exact (H [7%nat] 8%nat [9%nat] eq_refl).
Defined.
