(* ===== verification/HevRbtree.v ===== *)
(** * hev-socks5-tunnel, red-black trees: core/src/hev-rbtree.c

    A node is named by the object it is part of.  The children's pointers are
    the constructors of [rbtree]; the parent pointers of a node are the frames
    on the way up to the root, so a node with its surroundings is a subtree
    and a list of frames, innermost first.  A rotation therefore builds the
    subtree the C code ties together; where the code follows a pointer that is
    null the model is [UB]. *)

From Stdlib Require Import ZArith Lia Bool List.
From stdpp Require Import base tactics list numbers option.
From S2P Require Import Prelude.

Inductive HevRBTreeColor : Type := RED | BLACK.
#[export] Instance color_eq_dec : EqDecision HevRBTreeColor.
Proof. solve_decision. Defined.

Inductive rbtree : Type :=
| Null
| RBNode (color : HevRBTreeColor) (left : rbtree) (node : nat) (right : rbtree).
#[export] Instance rbtree_eq_dec : EqDecision rbtree.
Proof. solve_decision. Defined.

Inductive side : Type := L | R.
#[export] Instance side_eq_dec : EqDecision side.
Proof. solve_decision. Defined.

(** a parent: which child one comes from, its color, its other child *)
Record rb_frame : Type := RBFrame {
  fr_side : side; fr_color : HevRBTreeColor; fr_node : nat; fr_other : rbtree
}.

Definition rb_up (f : rb_frame) (t : rbtree) : rbtree :=
  match fr_side f with
  | L => RBNode (fr_color f) t (fr_node f) (fr_other f)
  | R => RBNode (fr_color f) (fr_other f) (fr_node f) t
  end.
Definition rb_root (t : rbtree) (path : list rb_frame) : rbtree := fold_left (λ t f, rb_up f t) path t.

Definition rb_is_red (t : rbtree) : bool :=
  match t with RBNode RED _ _ _ => true | _ => false end.

(** [if (tmp) hev_rbtree_node_set_parent_color (tmp, ..., color)] *)
Definition rb_paint (color : HevRBTreeColor) (t : rbtree) : rbtree :=
  match t with Null => Null | RBNode _ l x r => RBNode color l x r end.

(** a node with the child on side [s] first *)
Definition rb_node (s : side) (color : HevRBTreeColor) (t : rbtree) (x : nat) (u : rbtree) : rbtree :=
  match s with L => RBNode color t x u | R => RBNode color u x t end.
Definition rb_child (s : side) (l r : rbtree) : rbtree := match s with L => l | R => r end.
Definition opposite (s : side) : side := match s with L => R | R => L end.

(** ** Insertion *)

(** [node] is the root of [t]; both branches of the code are one, [s] the side
    of the parent below the grandparent *)
Fixpoint hev_rbtree_insert_color (t : rbtree) (path : list rb_frame) : res rbtree :=
  match path with
  | [] => Ok (rb_paint BLACK t)
  | p :: path =>
      match fr_color p with
      | BLACK => Ok (rb_root t (p :: path))
      | RED =>
          match path with
          | [] => UB
          | g :: path =>
              let s := fr_side g in
              let tmp := fr_other g in
              if rb_is_red tmp then
                hev_rbtree_insert_color
                  (rb_node s RED (rb_up (RBFrame (fr_side p) BLACK (fr_node p) (fr_other p)) t)
                     (fr_node g) (rb_paint BLACK tmp)) path
              else if decide (fr_side p = opposite s) then
                match t with
                | Null => UB
                | RBNode c l n r =>
                    Ok (rb_root (rb_node s (fr_color g)
                      (rb_node s RED (fr_other p) (fr_node p) (rb_paint BLACK (rb_child s l r)))
                      n
                      (rb_node s RED (rb_paint BLACK (rb_child s r l)) (fr_node g) tmp)) path)
                end
              else
                Ok (rb_root (rb_node s (fr_color g) t (fr_node p)
                  (rb_node s RED (rb_paint BLACK (fr_other p)) (fr_node g) tmp)) path)
          end
      end
  end.

(** [hev_rbtree_node_link] at the null pointer below [path], and the repair *)
Definition hev_rbtree_insert (node : nat) (path : list rb_frame) : res rbtree :=
  hev_rbtree_insert_color (RBNode RED Null node Null) path.

(** ** Erasure *)

(** the parent pointers of a node: the frames above it *)
Fixpoint locate (node : nat) (t : rbtree) (path : list rb_frame)
  : option (list rb_frame * HevRBTreeColor * rbtree * rbtree) :=
  match t with
  | Null => None
  | RBNode c l x r =>
      if decide (x = node) then Some (path, c, l, r) else
      match locate node l (RBFrame L c x r :: path) with
      | Some z => Some z
      | None => locate node r (RBFrame R c x l :: path)
      end
  end.

(** the way down to the leftmost node: the frames, its color, its right child *)
Fixpoint leftmost_from (c : HevRBTreeColor) (l : rbtree) (x : nat) (r : rbtree) (path : list rb_frame)
  : list rb_frame * HevRBTreeColor * nat * rbtree :=
  match l with
  | Null => (path, c, x, r)
  | RBNode c' l' x' r' => leftmost_from c' l' x' r' (RBFrame L c x r :: path)
  end.

(** [_hev_rbtree_erase]: what takes the place of the node that goes, the
    frames above it, and whether to rebalance from the innermost of them *)
Definition _hev_rbtree_erase (path : list rb_frame) (c : HevRBTreeColor) (l r : rbtree)
  : rbtree * list rb_frame * bool :=
  match l, r with
  | Null, Null => (Null, path, bool_decide (c = BLACK))
  | Null, child => (rb_paint c child, path, false)
  | tmp, Null => (rb_paint c tmp, path, false)
  | tmp, RBNode cr lr xr rr =>
      let '(below, cs, successor, child2) := leftmost_from cr lr xr rr [] in
      let path := below ++ RBFrame R c successor tmp :: path in
      match child2 with
      | Null => (Null, path, bool_decide (cs = BLACK))
      | _ => (rb_paint BLACK child2, path, false)
      end
  end.

(** cases 2, 3 and 4 below the parent [p]: [inl] goes on with the parent as
    [node], [inr] is done, both with the parent's subtree *)
Definition erase_fix (t : rbtree) (p : rb_frame) : res (rbtree + rbtree) :=
  let s := fr_side p in
  match fr_other p with
  | Null => UB
  | RBNode cs sl sx sr =>
      let near := rb_child s sl sr in
      let far := rb_child s sr sl in
      if negb (rb_is_red far) then
        if negb (rb_is_red near) then
          let sibling := RBNode RED sl sx sr in
          match fr_color p with
          | RED => Ok (inr (rb_node s BLACK t (fr_node p) sibling))
          | BLACK => Ok (inl (rb_node s BLACK t (fr_node p) sibling))
          end
        else
          match near with
          | Null => UB
          | RBNode _ nl nx nr =>
              Ok (inr (rb_node s (fr_color p)
                (rb_node s BLACK t (fr_node p) (rb_child s nl nr)) nx
                (rb_node s BLACK (rb_paint BLACK (rb_child s nr nl)) sx far)))
          end
      else Ok (inr (rb_node s (fr_color p) (rb_node s BLACK t (fr_node p) near) sx (rb_paint BLACK far)))
  end.

(** one round of [_hev_rbtree_erase_color]: [node], the frames from [parent] on *)
Definition erase_color_step (st : rbtree * list rb_frame) : res (rbtree * list rb_frame + rbtree) :=
  let '(t, path) := st in
  match path with
  | [] => UB
  | p :: path =>
      let s := fr_side p in
      '(p, path) ← (match fr_other p with
        | Null => UB
        | RBNode RED sl sx sr =>
            match rb_child s sl sr with
            | Null => UB
            | tmp1 => Ok (RBFrame s RED (fr_node p) (rb_paint BLACK tmp1),
                          RBFrame s (fr_color p) sx (rb_child s sr sl) :: path)
            end
        | _ => Ok (p, path)
        end);
      r ← erase_fix t p;
      match r with
      | inr t => Ok (inr (rb_root t path))
      | inl t => Ok (match path with [] => inr t | _ => inl (t, path) end)
      end
  end.
Definition _hev_rbtree_erase_color (t : rbtree) (path : list rb_frame) : res rbtree :=
  loop (Datatypes.S (length path)) erase_color_step (t, path).

Definition hev_rbtree_erase (self : rbtree) (node : nat) : res rbtree :=
  match locate node self [] with
  | None => UB
  | Some (path, c, l, r) =>
      let '(t, path, rebalance) := _hev_rbtree_erase path c l r in
      if rebalance && negb (bool_decide (path = []))
      then _hev_rbtree_erase_color t path else Ok (rb_root t path)
  end.

(** ** Order and replacement *)

(** as far as one can on one side *)
Fixpoint leftmost (l : rbtree) (x : nat) : nat :=
  match l with Null => x | RBNode _ l' x' _ => leftmost l' x' end.
Fixpoint rightmost (x : nat) (r : rbtree) : nat :=
  match r with Null => x | RBNode _ _ x' r' => rightmost x' r' end.
Definition hev_rbtree_first (self : rbtree) : option nat :=
  match self with Null => None | RBNode _ l x r => Some (leftmost l x) end.
Definition hev_rbtree_last (self : rbtree) : option nat :=
  match self with Null => None | RBNode _ l x r => Some (rightmost x r) end.

(** [while (parent && node == parent->side) ...] *)
Fixpoint climb (s : side) (path : list rb_frame) : option nat :=
  match path with
  | [] => None
  | f :: path => if decide (fr_side f = s) then climb s path else Some (fr_node f)
  end.
Definition hev_rbtree_node_next (self : rbtree) (node : nat) : res (option nat) :=
  match locate node self [] with
  | None => UB
  | Some (path, _, _, RBNode _ l x r) => Ok (Some (leftmost l x))
  | Some (path, _, _, Null) => Ok (climb R path)
  end.
Definition hev_rbtree_node_prev (self : rbtree) (node : nat) : res (option nat) :=
  match locate node self [] with
  | None => UB
  | Some (path, _, RBNode _ l x r, _) => Ok (Some (rightmost x r))
  | Some (path, _, Null, _) => Ok (climb L path)
  end.

Definition hev_rbtree_replace (self : rbtree) (victim new : nat) : res rbtree :=
  match locate victim self [] with
  | None => UB
  | Some (path, c, l, r) => Ok (rb_root (RBNode c l new r) path)
  end.
