(* ===== verification/HevRbtreeSpec.v ===== *)
(** * hev-socks5-tunnel: red-black trees stay red-black

    Insertion and erasure keep the colors ([valid]) and do to the in-order
    list what they should ([rbtree_insert], [rbtree_erase]); the height is
    logarithmic ([rbtree_height]). *)

From Stdlib Require Import ZArith Lia Bool List Sorted.
From stdpp Require Import base tactics list numbers option fin_maps sorting.
From S2P Require Import Prelude HevRbtree.

(** ** In order *)

Fixpoint rb_elements (t : rbtree) : list nat :=
  match t with Null => [] | RBNode _ l x r => rb_elements l ++ x :: rb_elements r end.

(** what lies left and right of a subtree *)
Fixpoint rb_before (path : list rb_frame) : list nat :=
  match path with
  | [] => []
  | f :: path => rb_before path ++ match fr_side f with L => [] | R => rb_elements (fr_other f) ++ [fr_node f] end
  end.
Fixpoint rb_after (path : list rb_frame) : list nat :=
  match path with
  | [] => []
  | f :: path => match fr_side f with L => fr_node f :: rb_elements (fr_other f) | R => [] end ++ rb_after path
  end.

(** list equations up to associativity *)
Ltac lists :=
  repeat (progress (cbn [rb_elements app rb_before rb_after rb_up rb_node rb_child rb_paint fr_side fr_node fr_other fr_color];
    rewrite <- ?app_assoc, ?app_nil_r)).

Lemma elements_root t path : rb_elements (rb_root t path) = rb_before path ++ rb_elements t ++ rb_after path.
Proof.
  revert t. induction path as [|[s c x u] path IH]; intros t; [by lists|].
  cbn [rb_root fold_left]. fold (rb_root (rb_up (RBFrame s c x u) t) path). rewrite IH. by destruct s; lists.
Qed.

Lemma elements_paint c t : rb_elements (rb_paint c t) = rb_elements t.
Proof. by destruct t. Qed.

(** ** Colors *)

(** [n] black nodes on every way down, no red node below a red one *)
Fixpoint balanced (n : nat) (t : rbtree) : Prop :=
  match t with
  | Null => n = 0%nat
  | RBNode RED l _ r => balanced n l ∧ balanced n r ∧ rb_is_red l = false ∧ rb_is_red r = false
  | RBNode BLACK l _ r => match n with O => False | Datatypes.S n => balanced n l ∧ balanced n r end
  end.
Definition valid (t : rbtree) : Prop := rb_is_red t = false ∧ ∃ n, balanced n t.

(** a subtree with [n] black nodes on every way down belongs here; a red one
    only where [room_red] *)
Definition room_red (path : list rb_frame) : bool :=
  match path with [] => false | f :: _ => bool_decide (fr_color f = BLACK) end.
Fixpoint fits (path : list rb_frame) (n : nat) : Prop :=
  match path with
  | [] => True
  | f :: path =>
      balanced n (fr_other f)
      ∧ match fr_color f with
        | RED => rb_is_red (fr_other f) = false ∧ room_red path = true ∧ fits path n
        | BLACK => fits path (Datatypes.S n)
        end
  end.

Lemma balanced_paint n t : rb_is_red t = true → balanced n t → balanced (Datatypes.S n) (rb_paint BLACK t).
Proof. destruct t as [|[] l x r]; simpl; [done| |done]. tauto. Qed.
Lemma red_paint t : rb_is_red (rb_paint BLACK t) = false.
Proof. by destruct t. Qed.
Lemma paint_black t : rb_is_red t = false → rb_paint BLACK t = t.
Proof. by destruct t as [|[]]. Qed.

Lemma root_valid t path n :
  balanced n t → (rb_is_red t = false ∨ room_red path = true) → fits path n → valid (rb_root t path).
Proof.
  revert t n. induction path as [|[s c x u] path IH]; intros t n Ht Hr Hf.
  { destruct Hr; [|done]. split; [done|by exists n]. }
  cbn [rb_root fold_left]. fold (rb_root (rb_up (RBFrame s c x u) t) path).
  destruct Hf as [Hu Hf]. simpl in *. destruct c.
  - destruct Hf as (Hru & Hp & Hf). apply (IH _ n); [|by right|done]. destruct Hr as [Hr|]; [|done].
    by destruct s; simpl.
  - apply (IH _ (Datatypes.S n)); [|left|done]; by destruct s; simpl.
Qed.

(** ** Insertion *)

Lemma insert_color_spec path : ∀ l x r n,
  balanced n (RBNode RED l x r) → fits path n →
  ∃ t, hev_rbtree_insert_color (RBNode RED l x r) path = Ok t ∧ valid t
    ∧ rb_elements t = rb_before path ++ rb_elements (RBNode RED l x r) ++ rb_after path.
Proof.
  induction path as [path IH] using (well_founded_induction (well_founded_ltof _ (@length _))).
  intros l x r n Ht Hf. destruct path as [|[sp cp xp up] path].
  { eexists. split; [done|]. split; [|by lists]. destruct Ht as (?&?&?&?).
    split; [done|]. exists (Datatypes.S n). done. }
  destruct cp.
  2:{ eexists. split; [done|]. split; [|by rewrite elements_root]. eapply root_valid; [done|by right|done]. }
  destruct Hf as (Hup & Hrup & Hroom & Hf). simpl in Hup, Hrup, Hroom, Hf.
  destruct path as [|[sg cg xg ug] path]; [done|]. simpl in Hroom. apply bool_decide_eq_true in Hroom as ->.
  destruct Hf as [Hug Hf]. simpl in Hug, Hf.
  cbn [hev_rbtree_insert_color fr_color fr_side fr_other fr_node].
  destruct (rb_is_red ug) eqn:Eug.
  - assert (Hx : ∃ l' r', rb_node sg RED (rb_up (RBFrame sp BLACK xp up) (RBNode RED l x r)) xg (rb_paint BLACK ug)
        = RBNode RED l' xg r' ∧ balanced (Datatypes.S n) (RBNode RED l' xg r')
        ∧ rb_elements (RBNode RED l' xg r') = match sg with
          | L => (rb_before [RBFrame sp RED xp up] ++ rb_elements (RBNode RED l x r) ++ rb_after [RBFrame sp RED xp up]) ++ xg :: rb_elements ug
          | R => rb_elements ug ++ xg :: (rb_before [RBFrame sp RED xp up] ++ rb_elements (RBNode RED l x r) ++ rb_after [RBFrame sp RED xp up]) end).
    { pose proof (balanced_paint n ug Eug Hug). pose proof (red_paint ug). destruct Ht as (?&?&?&?).
      destruct sg, sp; eexists _, _; (split; [done|]); (split; [by simpl|]); by rewrite <- (elements_paint BLACK ug); lists. }
    destruct Hx as (l' & r' & -> & Hb & He).
    destruct (IH path ltac:(unfold ltof; simpl; lia) l' xg r' (Datatypes.S n) Hb Hf) as (t & -> & Hv & Het).
    exists t. split; [done|]. split; [done|]. rewrite Het, He. by destruct sg, sp; lists.
  - simpl in Ht. destruct Ht as (Hl & Hr & Hrl & Hrr).
    destruct (decide (sp = opposite sg)) as [->|Hsp].
    + eexists. split; [done|]. split.
      * apply (root_valid _ _ (Datatypes.S n)); [|left; by destruct sg|done].
        destruct sg; simpl; rewrite ?(paint_black l), ?(paint_black r) by done; done.
      * rewrite elements_root. destruct sg; simpl; rewrite ?(paint_black l), ?(paint_black r) by done; by lists.
    + assert (sp = sg) as -> by (by destruct sp, sg).
      eexists. split; [done|]. split.
      * apply (root_valid _ _ (Datatypes.S n)); [|left; by destruct sg|done].
        destruct sg; simpl; rewrite ?(paint_black up) by done; done.
      * rewrite elements_root. destruct sg; simpl; rewrite ?(paint_black up) by done; by lists.
Qed.

(** ** Erasure *)

(** the place is right for a node of color [c] with [n] below it *)
Definition place (path : list rb_frame) (c : HevRBTreeColor) (n : nat) : Prop :=
  fits path n ∧ (c = RED → room_red path = true).

Lemma place_sub s c x l r path n :
  balanced n (RBNode c l x r) → place path c n →
  ∃ m, let u := rb_child s l r in let f := RBFrame s c x (rb_child s r l) in
    balanced m u ∧ fits (f :: path) m ∧ (rb_is_red u = true → room_red (f :: path) = true).
Proof.
  intros Hb [Hf Hr]. destruct c; simpl in Hb.
  - destruct Hb as (Hl & Hrr & Hredl & Hredr). exists n. destruct s; simpl; repeat split; auto; congruence.
  - destruct n as [|n]; [done|]. exists n. destruct Hb. destruct s; simpl; repeat split; auto.
Qed.

Lemma locate_spec node t : ∀ path n path' c l r,
  locate node t path = Some (path', c, l, r) →
  balanced n t → fits path n → (rb_is_red t = true → room_red path = true) →
  rb_root t path = rb_root (RBNode c l node r) path'
  ∧ ∃ m, balanced m (RBNode c l node r) ∧ place path' c m.
Proof.
  induction t as [|c0 l0 IHl x0 r0 IHr]; intros path n path' c l r; [done|]. cbn [locate].
  intros Hloc Hb Hf Hr. assert (Hp : place path c0 n) by (split; [done|]; intros ->; by apply Hr).
  destruct (decide (x0 = node)) as [->|].
  { injection Hloc as <- <- <- <-. split; [done|]. by exists n. }
  destruct (place_sub L _ _ _ _ _ _ Hb Hp) as (m1 & B1 & F1 & R1).
  destruct (place_sub R _ _ _ _ _ _ Hb Hp) as (m2 & B2 & F2 & R2). simpl rb_child in *.
  destruct (locate node l0 (RBFrame L c0 x0 r0 :: path)) as [[[[p1 c1] l1] r1]|] eqn:E.
  - injection Hloc as -> -> -> ->. destruct (IHl _ _ _ _ _ _ E B1 F1 R1) as [<- H]. done.
  - destruct (IHr _ _ _ _ _ _ Hloc B2 F2 R2) as [<- H]. done.
Qed.

Lemma locate_found node t : ∀ path, node ∈ rb_elements t → is_Some (locate node t path).
Proof.
  induction t as [|c l IHl x r IHr]; intros path; cbn [rb_elements locate]; [by intros ?%elem_of_nil|].
  intros Hin. destruct (decide (x = node)) as [->|Hne]; [by eexists|].
  destruct (locate node l _) eqn:El; [by eexists|]. apply elem_of_app in Hin as [Hin|Hin].
  - destruct (IHl (RBFrame L c x r :: path) Hin) as [z Hz]. congruence.
  - apply elem_of_cons in Hin as [->|Hin]; [done|]. by apply IHr.
Qed.

Lemma leftmost_from_spec l : ∀ c x r acc below cs s child q n,
  leftmost_from c l x r acc = (below, cs, s, child) →
  balanced n (RBNode c l x r) → place (acc ++ q) c n →
  (∃ m, balanced m (RBNode cs Null s child) ∧ place (below ++ q) cs m)
  ∧ rb_before (below ++ q) = rb_before (acc ++ q)
  ∧ s :: rb_elements child ++ rb_after (below ++ q) = rb_elements (RBNode c l x r) ++ rb_after (acc ++ q).
Proof.
  induction l as [|c' l' IH x' r' _]; intros c x r acc below cs s child q n; cbn [leftmost_from].
  - intros [= <- <- <- <-] Hb Hp. split; [by exists n|done].
  - intros E Hb Hp. destruct (place_sub L _ _ _ _ _ _ Hb Hp) as (m & B & F & R). simpl rb_child in *.
    destruct (IH _ _ _ _ _ _ _ _ q m E B) as (H1 & H2 & H3).
    { split; [done|]. intros ->. by apply R. }
    split; [done|]. split; [rewrite H2; by lists|]. rewrite H3. by lists.
Qed.

Lemma one_child n c x u : balanced n (RBNode c Null x u) ∨ balanced n (RBNode c u x Null) → u ≠ Null →
  c = BLACK ∧ balanced n (rb_paint BLACK u).
Proof.
  intros Hb Hu. destruct u as [|cu lu xu ru]; [done|].
  destruct c; simpl in Hb.
  - destruct Hb as [(->&Hb&_&Hr)|(Hb&->&Hr&_)]; (destruct cu; [done|]); simpl in Hb; done.
  - destruct n as [|n]; [by destruct Hb|]. destruct cu; simpl in *; [|destruct n; [by destruct Hb as [[? []]|[[] ?]]|destruct Hb as [[? ?]|[? ?]]; done]].
    split; [done|]. destruct Hb as [[? (?&?&?)]|[(?&?&?) ?]]; done.
Qed.
Lemma no_child n c x : balanced n (RBNode c Null x Null) → n = match c with RED => 0 | BLACK => 1 end%nat.
Proof. destruct c; simpl; [tauto|]. destruct n; [done|]. by intros [-> _]. Qed.

(** cases 2, 3 and 4 *)
Lemma erase_fix_spec t s c x sl sx sr n :
  let p := RBFrame s c x (RBNode BLACK sl sx sr) in
  balanced n t → rb_is_red t = false → balanced (Datatypes.S n) (fr_other p) →
  ∃ z, erase_fix t p = Ok z ∧ rb_elements (match z with inl t' => t' | inr t' => t' end) = rb_elements (rb_up p t)
    ∧ match z with
      | inl t' => c = BLACK ∧ balanced (Datatypes.S n) t' ∧ rb_is_red t' = false
      | inr t' => (rb_is_red t' = true → c = RED)
          ∧ balanced (match c with RED => Datatypes.S n | BLACK => Datatypes.S (Datatypes.S n) end) t'
      end.
Proof.
  intros p Ht Hr [Hsl Hsr]. unfold erase_fix, p. cbn [fr_side fr_other fr_color fr_node].
  set (near := rb_child s sl sr). set (far := rb_child s sr sl).
  assert (Hnear : balanced n near) by (unfold near; by destruct s).
  assert (Hfar : balanced n far) by (unfold far; by destruct s).
  assert (Hsib : ∀ c', RBNode c' sl sx sr = rb_node s c' near sx far) by (by destruct s).
  destruct (rb_is_red far) eqn:Efar; cbn [negb].
  - eexists. split; [done|]. split.
    + rewrite Hsib. destruct far as [|[] fl fx fr]; try done. by destruct s; lists.
    + pose proof (balanced_paint n far Efar Hfar) as Hp. split; [by destruct s, c|].
      destruct s, c; simpl; rewrite ?red_paint; repeat split; auto.
  - destruct (rb_is_red near) eqn:Enear; cbn [negb].
    + destruct near as [|[] nl nx nr]; [done| |done]. destruct Hnear as (Hnl & Hnr & Hnlr & Hnrr).
      eexists. split; [done|]. split.
      * rewrite Hsib. clear Hsib. destruct s; cbn [rb_child rb_node]; rewrite ?(paint_black nl), ?(paint_black nr) by done; by lists.
      * split; [by destruct s, c|].
        destruct s, c; cbn [rb_child rb_node balanced]; rewrite ?(paint_black nl), ?(paint_black nr) by done; repeat split; auto.
    + destruct c; (eexists; split; [done|]); rewrite !Hsib; (split; [by destruct s; lists|]);
        destruct s; simpl; repeat split; auto.
Qed.

Lemma erase_color_spec path : ∀ t n fuel,
  path ≠ [] → balanced n t → rb_is_red t = false → fits path (Datatypes.S n) → (length path < fuel)%nat →
  ∃ t', loop fuel erase_color_step (t, path) = Ok t' ∧ valid t'
    ∧ rb_elements t' = rb_before path ++ rb_elements t ++ rb_after path.
Proof.
  induction path as [|[s c x u] path IH]; intros t n fuel Hne Ht Hr Hf Hfuel; [done|].
  destruct fuel as [|fuel]; [simpl in Hfuel; lia|]. rewrite loop_S.
  destruct Hf as [Hu Hf]. simpl in Hu, Hf. destruct u as [|[] sl sx sr]; [done| |].
  - (* case 1 *)
    destruct c; [by destruct Hf|]. destruct Hu as (Hsl & Hsr & Hrl & Hrr).
    cbn [erase_color_step fr_other fr_side fr_node fr_color].
    set (near := rb_child s sl sr). set (far := rb_child s sr sl).
    assert (Hnear : balanced (Datatypes.S n) near ∧ rb_is_red near = false) by (unfold near; by destruct s).
    assert (Hfar : balanced (Datatypes.S n) far) by (unfold far; by destruct s).
    assert (Hsib : RBNode RED sl sx sr = rb_node s RED near sx far) by (by destruct s).
    destruct Hnear as [Hnear Hnr]. destruct near as [|[] nl nx nr]; [done|done|]. rewrite bind_Ok. cbn [rb_paint].
    destruct (erase_fix_spec t s RED x nl nx nr n Ht Hr Hnear) as (z & -> & He & Hz). rewrite bind_Ok.
    destruct z as [t'|t']; [by destruct Hz|]. destruct Hz as [Hz1 Hz2]. rewrite bind_Ok. eexists. split; [done|]. split.
    + eapply root_valid; [exact Hz2|by right|]. by split.
    + rewrite elements_root, He, Hsib. by destruct s; lists.
  - (* the sibling is black *)
    cbn [erase_color_step fr_other fr_side]. rewrite bind_Ok.
    destruct (erase_fix_spec t s c x sl sx sr n Ht Hr Hu) as (z & -> & He & Hz). rewrite bind_Ok.
    destruct z as [t'|t'].
    + destruct Hz as (-> & Hz1 & Hz2). destruct path as [|f path].
      * rewrite bind_Ok. exists t'. split; [done|]. split; [by split; [|eexists]|]. rewrite He. by destruct s; lists.
      * rewrite bind_Ok. destruct (IH t' (Datatypes.S n) fuel) as (t2 & -> & Hv & Het); [done..|simpl in *; lia|].
        exists t2. split; [done|]. split; [done|]. rewrite Het, He. by destruct s; lists.
    + rewrite bind_Ok. destruct Hz as [Hz1 Hz2]. eexists. split; [done|]. split.
      * destruct c; [destruct Hf as (_ & Hroom & Hf); eapply root_valid; [done|by right|done]|].
        eapply root_valid; [done|left|done]. destruct (rb_is_red t'); [by discriminate Hz1|done].
      * rewrite elements_root, He. by destruct s; lists.
Qed.

(** what the first half of the erasure leaves *)
Lemma erase_spec path c l x r n t path' rebalance :
  balanced n (RBNode c l x r) → place path c n →
  _hev_rbtree_erase path c l r = (t, path', rebalance) →
  rb_before path' ++ rb_elements t ++ rb_after path'
    = rb_before path ++ rb_elements l ++ rb_elements r ++ rb_after path
  ∧ ∃ m, balanced m t
    ∧ if rebalance then rb_is_red t = false ∧ fits path' (Datatypes.S m)
      else fits path' m ∧ (rb_is_red t = false ∨ room_red path' = true).
Proof.
  intros Hb Hp. unfold _hev_rbtree_erase.
  assert (Hone : ∀ u, u ≠ Null → balanced n (RBNode c Null x u) ∨ balanced n (RBNode c u x Null) →
    ∃ m, balanced m (rb_paint c u) ∧ fits path m ∧ (rb_is_red (rb_paint c u) = false ∨ room_red path = true)).
  { intros u Hu Hbu. destruct (one_child n c x u Hbu Hu) as [-> Hbal]. exists n. split; [done|].
    split; [apply Hp|]. left. apply red_paint. }
  destruct l as [|cl ll xl lr] eqn:El; [destruct r as [|cr rl xr rr] eqn:Er|destruct r as [|cr rl xr rr] eqn:Er].
  - intros [= <- <- <-]. split; [by lists|]. exists 0%nat. split; [done|].
    pose proof (no_child _ _ _ Hb) as ->. destruct Hp as [Hp _]. destruct c; simpl; auto.
  - intros [= <- <- <-]. split; [by lists|].
    apply (Hone (RBNode cr rl xr rr)); [done|by left].
  - intros [= <- <- <-]. split; [by lists|].
    apply (Hone (RBNode cl ll xl lr)); [done|by right].
  - destruct (leftmost_from cr rl xr rr []) as [[[below cs] s] child] eqn:E.
    set (q := RBFrame R c s (RBNode cl ll xl lr) :: path).
    destruct (place_sub R _ _ _ _ _ _ Hb Hp) as (m & B & F & Rr). simpl rb_child in *.
    destruct (leftmost_from_spec _ _ _ _ _ _ _ _ _ q m E B) as ((m' & Hb' & Hp') & Hbef & Haft).
    { split; [exact F|]. intros ->. by apply Rr. }
    assert (Hels : rb_before (below ++ q) ++ rb_elements child ++ rb_after (below ++ q)
      = rb_before path ++ rb_elements (RBNode cl ll xl lr) ++ rb_elements (RBNode cr rl xr rr) ++ rb_after path).
    { transitivity (rb_before path ++ rb_elements (RBNode cl ll xl lr) ++ s :: rb_elements child ++ rb_after (below ++ q)).
      - rewrite Hbef. unfold q at 1. by lists.
      - rewrite Haft. unfold q at 1. by lists. }
    destruct child as [|cc lc xc rc] eqn:Ec.
    + intros [= <- <- <-]. split; [done|]. exists 0%nat. split; [done|].
      pose proof (no_child _ _ _ Hb') as ->. destruct Hp' as [Hp' _]. destruct cs; simpl; auto.
    + intros [= <- <- <-]. split; [done|].
      destruct (one_child m' cs s (RBNode cc lc xc rc) (or_introl Hb')) as [-> Hbal]; [done|].
      exists m'. split; [done|]. split; [apply Hp'|]. by left.
Qed.

Lemma rb_erase t node :
  valid t → node ∈ rb_elements t →
  ∃ t' l1 l2, hev_rbtree_erase t node = Ok t' ∧ valid t'
    ∧ rb_elements t = l1 ++ node :: l2 ∧ rb_elements t' = l1 ++ l2.
Proof.
  intros [Hr [n Hb]] Hin. destruct (locate_found node t [] Hin) as [[[[path c] l] r] Hloc].
  destruct (locate_spec _ _ _ n _ _ _ _ Hloc Hb I) as (Hroot & m & Hbm & Hp); [congruence|].
  unfold hev_rbtree_erase. rewrite Hloc.
  destruct (_hev_rbtree_erase path c l r) as [[u path'] rebalance] eqn:E.
  destruct (erase_spec _ _ _ _ _ _ _ _ _ Hbm Hp E) as (Hels & k & Hbk & Hk).
  assert (He : rb_elements t = (rb_before path ++ rb_elements l) ++ node :: (rb_elements r ++ rb_after path)).
  { change t with (rb_root t []). rewrite Hroot, elements_root. by lists. }
  assert (Ht' : ∃ t', (if rebalance && negb (bool_decide (path' = []))
      then _hev_rbtree_erase_color u path' else Ok (rb_root u path')) = Ok t'
    ∧ valid t' ∧ rb_elements t' = rb_before path' ++ rb_elements u ++ rb_after path').
  { destruct rebalance; cbn [andb].
    - destruct Hk as [Hu Hf]. case_bool_decide as Epath; cbn [negb].
      + subst path'. exists u. split; [done|]. split; [by split; [|eexists]|]. by lists.
      + apply (erase_color_spec _ _ k); [done..|lia].
    - destruct Hk as [Hf Hu]. eexists. split; [done|]. split; [by eapply root_valid|by rewrite elements_root]. }
  destruct Ht' as (t' & -> & Hv & Het). exists t', (rb_before path ++ rb_elements l), (rb_elements r ++ rb_after path).
  split; [done|]. split; [done|]. split; [done|]. by rewrite Het, Hels, <- app_assoc.
Qed.

(** every place of a tree is right for what is there *)
Lemma root_place path : ∀ t n, balanced n (rb_root t path) → rb_is_red (rb_root t path) = false →
  ∃ k, balanced k t ∧ fits path k ∧ (rb_is_red t = true → room_red path = true).
Proof.
  induction path as [|[s c x u] path IH]; intros t n Hb Hr.
  { exists n. split; [done|]. split; [done|]. simpl in Hr. congruence. }
  destruct (IH (rb_up (RBFrame s c x u) t) n Hb Hr) as (k & Hk & Hf & Hroom).
  destruct s; simpl in Hk, Hroom.
  - destruct (place_sub L c x t u path k Hk) as (m & H1 & H2 & H3); [split; [done|by intros ->; apply Hroom]|].
    by exists m.
  - destruct (place_sub R c x u t path k Hk) as (m & H1 & H2 & H3); [split; [done|by intros ->; apply Hroom]|].
    by exists m.
Qed.

Lemma rb_insert path node :
  valid (rb_root Null path) →
  ∃ t', hev_rbtree_insert node path = Ok t' ∧ valid t' ∧ rb_elements t' = rb_before path ++ node :: rb_after path.
Proof.
  intros [Hr [n Hb]]. destruct (root_place path Null n Hb Hr) as (k & Hk & Hf & _). simpl in Hk. subst k.
  destruct (insert_color_spec path Null node Null 0) as (t & E & Hv & He); [done|done|].
  exists t. split; [done|]. split; [done|]. by rewrite He; lists.
Qed.

(** ** Searching

    What every walk down from the root does that goes left where [cmp] is
    negative, right where it is positive, and ends where it is zero or at the
    null pointer the searched key belongs at. *)

Fixpoint rb_search (cmp : nat → Z) (t : rbtree) (path : list rb_frame) : nat + list rb_frame :=
  match t with
  | Null => inr path
  | RBNode c l x r =>
      if cmp x <? 0 then rb_search cmp l (RBFrame L c x r :: path)
      else if 0 <? cmp x then rb_search cmp r (RBFrame R c x l :: path)
      else inl x
  end.

Lemma rb_search_spec (cmp : nat → Z) (P : nat → nat → Prop) t : ∀ path,
  StronglySorted P (rb_elements t) → (∀ x y, x ∈ rb_elements t → y ∈ rb_elements t → P x y → cmp x <= 0 → cmp y < 0) →
  match rb_search cmp t path with
  | inl x => x ∈ rb_elements t ∧ cmp x = 0
  | inr path' => rb_root Null path' = rb_root t path
      ∧ ∃ l1 l2, rb_before path' = rb_before path ++ l1 ∧ rb_after path' = l2 ++ rb_after path
        ∧ rb_elements t = l1 ++ l2 ∧ Forall (λ x, 0 < cmp x) l1 ∧ Forall (λ x, cmp x < 0) l2
  end.
Proof.
  induction t as [|c l IHl x r IHr]; intros path Hs Hmon.
  { split; [done|]. exists [], []. by rewrite app_nil_r. }
  cbn [rb_search rb_elements] in *.
  apply StronglySorted_app in Hs as (Hlr & Hsl & Hsr). inversion Hsr as [|?? Hsr' Hxr]; subst.
  destruct (Z.ltb_spec (cmp x) 0) as [Hlt|Hge]; [|destruct (Z.ltb_spec 0 (cmp x)) as [Hgt|Hle]].
  - assert (Hml : ∀ y z, y ∈ rb_elements l → z ∈ rb_elements l → P y z → cmp y <= 0 → cmp z < 0)
      by (intros y z Hy Hz; apply Hmon; apply elem_of_app; by left).
    specialize (IHl (RBFrame L c x r :: path) Hsl Hml). destruct (rb_search cmp l _) as [y|path'].
    { split; [apply elem_of_app; left|]; apply IHl. }
    destruct IHl as (Hroot & l1 & l2 & Hb & Ha & Hel & F1 & F2). split; [by rewrite Hroot|].
    exists l1, (l2 ++ x :: rb_elements r). rewrite Hb, Ha, Hel. split; [by lists|]. split; [by lists|].
    split; [by lists|]. split; [done|]. apply Forall_app. split; [done|]. constructor; [done|].
    rewrite Forall_forall in Hxr |- *. intros y Hy. apply (Hmon x y); [apply elem_of_app; right; by left| |by apply Hxr|lia].
    apply elem_of_app. right. by right.
  - assert (Hmr : ∀ y z, y ∈ rb_elements r → z ∈ rb_elements r → P y z → cmp y <= 0 → cmp z < 0)
      by (intros y z Hy Hz; apply Hmon; apply elem_of_app; right; by right).
    specialize (IHr (RBFrame R c x l :: path) Hsr' Hmr). destruct (rb_search cmp r _) as [y|path'].
    { split; [apply elem_of_app; right; right|]; apply IHr. }
    destruct IHr as (Hroot & l1 & l2 & Hb & Ha & Hel & F1 & F2). split; [by rewrite Hroot|].
    exists (rb_elements l ++ x :: l1), l2. rewrite Hb, Ha, Hel. split; [by lists|]. split; [by lists|].
    split; [by lists|]. split; [|done]. apply Forall_app. split; [|by constructor].
    apply Forall_forall. intros y Hy. destruct (Z.le_gt_cases (cmp y) 0) as [Hn|Hn]; [|lia].
    specialize (Hmon y x). rewrite !elem_of_app in Hmon. specialize (Hlr y x Hy (list_elem_of_here _ _)).
    assert (cmp x < 0) by (apply Hmon; [by left|right; by left|done..]). lia.
  - split; [apply elem_of_app; right; by left|]. lia.
Qed.

(** ** The theorems *)

(** Linking a node at any null pointer of a red-black tree and repairing
    the colors ends, never follows a null pointer, keeps the tree red-black
    and puts the node exactly where it was linked. *)
Theorem rbtree_insert (path : list rb_frame) (node : nat) :
  let t := rb_root Null path in
  valid t →
  ∃ t', hev_rbtree_insert node path = Ok t' ∧ valid t'
    ∧ rb_elements t = rb_before path ++ rb_after path
    ∧ rb_elements t' = rb_before path ++ node :: rb_after path.
Proof.
  intros t Hv. destruct (rb_insert path node Hv) as (t' & E & Hv' & He).
  exists t'. split; [done|]. split; [done|]. split; [|done]. unfold t. by rewrite elements_root.
Qed.

(** Erasing a node of a red-black tree ends, never follows a null
    pointer, keeps the tree red-black and takes out exactly that node. *)
Theorem rbtree_erase (t : rbtree) (node : nat) :
  valid t → node ∈ rb_elements t →
  ∃ t' l1 l2, hev_rbtree_erase t node = Ok t' ∧ valid t'
    ∧ rb_elements t = l1 ++ node :: l2 ∧ rb_elements t' = l1 ++ l2.
Proof. apply rb_erase. Qed.

(** ** Walking in order *)

Lemma locate_root node t : ∀ path path' c l r,
  locate node t path = Some (path', c, l, r) → rb_root t path = rb_root (RBNode c l node r) path'.
Proof.
  induction t as [|c0 l0 IHl x0 r0 IHr]; intros path path' c l r; [done|]. cbn [locate].
  destruct (decide (x0 = node)) as [->|]; [by intros [= <- <- <- <-]|].
  destruct (locate node l0 _) as [[[[p1 c1] l1] r1]|] eqn:E.
  - intros [= -> -> -> ->]. by rewrite <- (IHl _ _ _ _ _ E).
  - intros Hloc. by rewrite <- (IHr _ _ _ _ _ Hloc).
Qed.

Lemma locate_split t node l1 l2 :
  NoDup (rb_elements t) → rb_elements t = l1 ++ node :: l2 →
  ∃ path c l r, locate node t [] = Some (path, c, l, r)
    ∧ l1 = rb_before path ++ rb_elements l ∧ l2 = rb_elements r ++ rb_after path.
Proof.
  intros Hnd Ht. destruct (locate_found node t []) as [[[[path c] l] r] E].
  { rewrite Ht. apply elem_of_app. right. by left. }
  exists path, c, l, r. split; [done|]. pose proof (locate_root _ _ _ _ _ _ _ E) as Hr.
  change t with (rb_root t []) in Ht, Hnd. rewrite Hr, elements_root in Ht, Hnd. cbn [rb_elements] in Ht, Hnd.
  replace (rb_before path ++ (rb_elements l ++ node :: rb_elements r) ++ rb_after path)
    with ((rb_before path ++ rb_elements l) ++ node :: (rb_elements r ++ rb_after path)) in Ht, Hnd by by lists.
  pose proof Hnd as (_ & Hn & Hn2)%NoDup_app. rewrite Ht in Hnd. pose proof Hnd as (_ & Hm & Hm2)%NoDup_app.
  apply app_eq_inv in Ht as [(k & E1 & E2)|(k & E1 & E2)].
  - destruct k as [|y k]; simpl in E2; [by simplify_list_eq|]. injection E2 as <- E2.
    exfalso. apply (Hn node); [rewrite E1; apply elem_of_app; right; by left|by left].
  - destruct k as [|y k]; simpl in E2; [by simplify_list_eq|]. injection E2 as <- E2.
    exfalso. apply (Hm node); [rewrite E1; apply elem_of_app; right; by left|by left].
Qed.

Lemma leftmost_head l : ∀ x r, head (rb_elements l ++ x :: r) = Some (leftmost l x).
Proof. induction l as [|c l' IH x' r' _]; intros x r; [done|]. cbn [rb_elements]. rewrite <- app_assoc. apply IH. Qed.
Lemma rightmost_last r : ∀ l x, last (l ++ x :: rb_elements r) = Some (rightmost x r).
Proof.
  induction r as [|c l' _ x' r' IH]; intros l x; cbn [rb_elements rightmost]; [by rewrite last_snoc|].
  rewrite app_comm_cons, app_assoc. apply IH.
Qed.
Lemma climb_after path : climb R path = head (rb_after path).
Proof. induction path as [|[[] c x u] path IH]; [done..|]. simpl. done. Qed.
Lemma climb_before path : climb L path = last (rb_before path).
Proof.
  induction path as [|[[] c x u] path IH]; [done|..]; simpl.
  - by rewrite app_nil_r.
  - by rewrite app_assoc, last_snoc.
Qed.

(** First, last, next and previous walk the in-order list; replacing a
    node changes its entry and keeps the tree red-black. *)
Theorem rbtree_walk (t : rbtree) :
  NoDup (rb_elements t) →
  hev_rbtree_first t = head (rb_elements t) ∧ hev_rbtree_last t = last (rb_elements t)
  ∧ ∀ l1 x l2, rb_elements t = l1 ++ x :: l2 →
      hev_rbtree_node_next t x = Ok (head l2) ∧ hev_rbtree_node_prev t x = Ok (last l1)
      ∧ ∀ new, ∃ t', hev_rbtree_replace t x new = Ok t' ∧ rb_elements t' = l1 ++ new :: l2
          ∧ (valid t → valid t').
Proof.
  intros Hnd. split; [|split].
  - destruct t as [|c l x r]; [done|]. symmetry. apply leftmost_head.
  - destruct t as [|c l x r]; [done|]. symmetry. apply rightmost_last.
  - intros l1 x l2 Ht. destruct (locate_split t x l1 l2 Hnd Ht) as (path & c & l & r & E & -> & ->).
    unfold hev_rbtree_node_next, hev_rbtree_node_prev, hev_rbtree_replace. rewrite E. split; [|split].
    + destruct r as [|cr lr xr rr]; [by rewrite climb_after|]. cbn [rb_elements].
      rewrite <- app_assoc. cbn [app]. by rewrite leftmost_head.
    + destruct l as [|cl ll xl lr]; [by rewrite climb_before; lists|]. cbn [rb_elements].
      by rewrite app_assoc, rightmost_last.
    + intros new. eexists. split; [done|]. split; [by rewrite elements_root; lists|].
      intros [Hr [n Hb]]. apply locate_root in E. change t with (rb_root t []) in Hr, Hb. rewrite E in Hr, Hb.
      destruct (root_place path _ n Hb Hr) as (m & Hm & Hf & Hroom).
      eapply (root_valid (RBNode c l new r)); [exact Hm| |exact Hf].
      destruct c; [right; by apply Hroom|by left].
Qed.

(** ** Height *)

Fixpoint height (t : rbtree) : nat :=
  match t with Null => 0 | RBNode _ l _ r => Datatypes.S (height l `max` height r) end.

Lemma height_balanced t : ∀ n, balanced n t →
  (height t <= 2 * n + (if rb_is_red t then 1 else 0))%nat
  ∧ (2 ^ n <= length (rb_elements t) + 1)%nat.
Proof.
  induction t as [|c l IHl x r IHr]; intros n Hb; simpl in Hb |- *; [by subst|].
  rewrite length_app. cbn [length]. destruct c.
  - destruct Hb as (Hl & Hr & Hrl & Hrr). destruct (IHl n Hl) as [H1 H2], (IHr n Hr) as [H3 H4].
    rewrite Hrl in H1. rewrite Hrr in H3. lia.
  - destruct n as [|n]; [done|]. destruct Hb as [Hl Hr]. destruct (IHl n Hl) as [H1 H2], (IHr n Hr) as [H3 H4].
    cbn [Nat.pow]. destruct (rb_is_red l), (rb_is_red r); lia.
Qed.

(** A red-black tree of [n] nodes is at most [2 log2 (n + 1)] high: that
    many comparisons a lookup makes at most. *)
Theorem rbtree_height (t : rbtree) :
  valid t → (height t <= 2 * Nat.log2 (length (rb_elements t) + 1))%nat.
Proof.
  intros [Hr [n Hb]]. destruct (height_balanced t n Hb) as [H1 H2]. rewrite Hr in H1.
  assert (n <= Nat.log2 (length (rb_elements t) + 1))%nat.
  { apply Nat.log2_le_pow2; [lia|done]. }
  lia.
Qed.

(** ** Examples *)

(** seven nodes linked in order, one after another at the right end *)
Fixpoint right_end (t : rbtree) (path : list rb_frame) : list rb_frame :=
  match t with Null => path | RBNode c l x r => right_end r (RBFrame R c x l :: path) end.
Definition link_last (t : res rbtree) (x : nat) : res rbtree := t ← t; hev_rbtree_insert x (right_end t []).
Definition seven : rbtree :=
  match fold_left link_last (seq 0 7) (Ok Null) with Ok t => t | _ => Null end.

Lemma seven_valid : valid seven.
Proof. split; [by vm_compute|]. exists 2%nat. vm_compute. tauto. Qed.

Lemma rbtree_insert_witness :
  rb_root Null (right_end seven []) = seven ∧
  ∃ t', hev_rbtree_insert 7 (right_end seven []) = Ok t' ∧ valid t'
    ∧ rb_elements seven = rb_before (right_end seven []) ++ rb_after (right_end seven [])
    ∧ rb_elements t' = rb_before (right_end seven []) ++ 7%nat :: rb_after (right_end seven []).
Proof. split; [by vm_compute|]. apply rbtree_insert, seven_valid. Defined.

Lemma rbtree_erase_witness :
  ∃ t' l1 l2, hev_rbtree_erase seven 3 = Ok t' ∧ valid t'
    ∧ rb_elements seven = l1 ++ 3%nat :: l2 ∧ rb_elements t' = l1 ++ l2.
Proof. apply rbtree_erase; [apply seven_valid|]. refine (bool_decide_eq_true_1 _ _). vm_compute. reflexivity. Defined.

Lemma rbtree_walk_witness :
  hev_rbtree_first seven = Some 0%nat ∧ hev_rbtree_node_next seven 3 = Ok (Some 4%nat).
Proof.
  destruct (rbtree_walk seven) as (H1 & _ & H3); [refine (bool_decide_eq_true_1 _ _); vm_compute; reflexivity|].
  split; [exact H1|]. by destruct (H3 [0; 1; 2]%nat 3%nat [4; 5; 6]%nat eq_refl) as [? _].
Defined.

Lemma rbtree_height_witness : (height seven <= 2 * Nat.log2 (length (rb_elements seven) + 1))%nat.
Proof. apply rbtree_height, seven_valid. Defined.
