(* ===== verification/HevMappedDns.v ===== *)
(** * hev-socks5-tunnel, mapped DNS: src/hev-mapped-dns.c

    Every name asked for gets an address of a private network: the network's
    prefix with an index.  A red-black tree finds the index of a name, the
    table [records] the name of an index, and a list keeps the nodes in the
    order of their last use, so that the least recently used name gives up its
    index when all are taken.  A node is one object in the tree, the list and
    the table: [heap] holds its own fields, the others live in [HevRbtree] and
    [HevList]. *)

From Stdlib Require Import ZArith Lia Bool List.
From Stdlib Require Import Strings.Byte Strings.String.
From stdpp Require Import base tactics list numbers option gmap.
From S2P Require Import Prelude CMem HevList HevRbtree.

Record HevMappedDNSNode : Type := MappedNode { md_name : mem; md_idx : Z }.
#[export] Instance mappednode_eta : Eta HevMappedDNSNode := λ n, MappedNode (md_name n) (md_idx n).

Record HevMappedDNS : Type := MappedDNS {
  md_use : Z; md_max : Z; md_net : Z; md_mask : Z;
  md_list : HevList; md_tree : rbtree; md_records : list (option nat);
  md_heap : gmap nat HevMappedDNSNode
}.
#[export] Instance mappeddns_eta : Eta HevMappedDNS := λ d,
  MappedDNS (md_use d) (md_max d) (md_net d) (md_mask d) (md_list d) (md_tree d) (md_records d) (md_heap d).

(** [strcmp] of two strings, without their terminating zeros; a byte is
    compared as an unsigned character *)
Fixpoint strcmp (a b : mem) : Z :=
  match a, b with
  | [], [] => 0
  | [], y :: _ => - zb y
  | x :: _, [] => zb x
  | x :: a, y :: b => if zb x =? zb y then strcmp a b else zb x - zb y
  end.

(** the string at [p] *)
Definition c_string (m : mem) (p : Z) : res mem :=
  '(s, _) ← loop (Datatypes.S (length m)) (λ st,
    let '(s, p) := st in
    c ← rd m p; Ok (if zb c =? 0 then inr (s, p) else inl (s ++ [c], p + 1))) ([], p);
  Ok s.

(** [hev_mapped_dns_new] and [_construct]; the memory is zeroed *)
Definition hev_mapped_dns_construct (net mask max : Z) : option HevMappedDNS :=
  if Z.lnot mask <? max then None
  else Some (MappedDNS 0 max net mask (MkHevList None None ∅) Null (repeat None (Z.to_nat max)) ∅).

Section mapped_dns.
(** what [hev_malloc0] answers: the address of a new node, or no memory *)
Context (alloc : HevMappedDNS → option nat).
Implicit Types (self : HevMappedDNS) (name : mem).

Definition get_node self (x : nat) : res HevMappedDNSNode :=
  match md_heap self !! x with Some n => Ok n | None => UB end.

(** the walk down the tree: the node of that name, or the null pointer where
    it belongs *)
Fixpoint find_node self name (t : rbtree) (path : list rb_frame) : res (nat + list rb_frame) :=
  match t with
  | Null => Ok (inr path)
  | RBNode c l x r =>
      node ← get_node self x;
      let res := strcmp (md_name node) name in
      if res <? 0 then find_node self name l (RBFrame L c x r :: path)
      else if 0 <? res then find_node self name r (RBFrame R c x l :: path)
      else Ok (inl x)
  end.

(** to the end of the list: the most recently used *)
Definition touch self (x : nat) : res HevMappedDNS :=
  l ← hev_list_del (md_list self) x;
  l ← hev_list_add_tail l x;
  Ok (self <| md_list := l |>).

Definition hev_mapped_dns_node_alloc self name : option (HevMappedDNS * nat) :=
  match alloc self with
  | None => None
  | Some x => Some (self <| md_heap := <[x := MappedNode name 0]> (md_heap self) |>
                         <| md_list := node_alloc (md_list self) x |>, x)
  end.
Definition hev_mapped_dns_node_free self (x : nat) : HevMappedDNS :=
  self <| md_heap := delete x (md_heap self) |> <| md_list := node_free (md_list self) x |>.

(** the index of the least recently used node, which is freed *)
Definition evict self : res (HevMappedDNS * Z) :=
  match hev_list_first (md_list self) with
  | None => UB
  | Some nf =>
      node ← get_node self nf;
      t ← hev_rbtree_erase (md_tree self) nf;
      l ← hev_list_del (md_list self) nf;
      Ok (hev_mapped_dns_node_free (self <| md_tree := t |> <| md_list := l |>) nf, md_idx node)
  end.

Definition hev_mapped_dns_find self name : res (HevMappedDNS * Z) :=
  let idx := md_use self in
  found ← find_node self name (md_tree self) [];
  match found with
  | inl x =>
      self ← touch self x;
      node ← get_node self x;
      Ok (self, md_idx node)
  | inr path =>
      match hev_mapped_dns_node_alloc self name with
      | None => Ok (self, -1)
      | Some (self, x) =>
          t ← hev_rbtree_insert x path;
          l ← hev_list_add_tail (md_list self) x;
          let self := self <| md_tree := t |> <| md_list := l |> in
          '(self, idx) ← (if md_use self <? md_max self
            then Ok (self <| md_use := md_use self + 1 |>, idx) else evict self);
          if (0 <=? idx) && (idx <? Z.of_nat (length (md_records self))) then
            let self := self <| md_records := <[Z.to_nat idx := Some x]> (md_records self) |> in
            node ← get_node self x;
            Ok (self <| md_heap := <[x := node <| md_idx := idx |>]> (md_heap self) |>, idx)
          else UB
      end
  end.

(** the name, [None] for a null pointer *)
Definition hev_mapped_dns_lookup self (ip : Z) : res (HevMappedDNS * option mem) :=
  if negb (Z.land ip (md_mask self) =? md_net self) then Ok (self, None) else
  let idx := Z.land ip (Z.lnot (md_mask self)) in
  if md_max self <=? idx then Ok (self, None) else
  if idx <? 0 then UB else
  match md_records self !! Z.to_nat idx with
  | None => UB
  | Some None => Ok (self, None)
  | Some (Some x) =>
      self ← touch self x;
      node ← get_node self x;
      Ok (self, Some (md_name node))
  end.

(** the nodes are freed one after another, the next one read first *)
Definition destruct_step (st : HevMappedDNS * option nat) : res (HevMappedDNS * option nat + HevMappedDNS) :=
  let '(self, n) := st in
  match n with
  | None => Ok (inr self)
  | Some t =>
      n ← hev_list_node_next (md_list self) t;
      _ ← get_node self t;
      Ok (inl (hev_mapped_dns_node_free self t, n))
  end.
Definition hev_mapped_dns_destruct self : res HevMappedDNS :=
  loop (Datatypes.S (size (md_heap self))) destruct_step (self, hev_list_first (md_list self)).

(** ** A query *)

Definition read_u16 (m : mem) (p : Z) : res Z :=
  a ← rd m p; b ← rd m (p + 1); Ok (Z.lor (Z.shiftl (zb a) 8) (zb b)).
Definition write_u16 (m : mem) (p v : Z) : res mem :=
  m ← wr m p (Z.shiftr v 8); wr m (p + 1) v.
Definition write_u32 (m : mem) (p v : Z) : res mem :=
  m ← wr m p (Z.shiftr v 24); m ← wr m (p + 1) (Z.shiftr v 16);
  m ← wr m (p + 2) (Z.shiftr v 8); wr m (p + 3) v.

(** [ntohs] in place: the two bytes change places *)
Definition ntohs_at (m : mem) (p : Z) : res mem :=
  a ← rd m p; b ← rd m (p + 1); m ← wr m p (zb b); wr m (p + 1) (zb a).

(** [sizeof (DNSHdr)] *)
Definition DNS_HDR : Z := 12.

(** one label: the length becomes a dot.  [None] is [return -1] *)
Definition label_step (qlen : Z) (st : mem * Z) : res (mem * Z + option (mem * Z)) :=
  let '(rb, off) := st in
  c ← rd rb off;
  if zb c =? 0 then Ok (inr (Some (rb, off))) else
  let poff := off in
  let off := off + (1 + zb c) in
  if qlen <=? off then Ok (inr None) else
  rb ← wr rb poff 46;
  Ok (inl (rb, off)).

(** one question: the cache, the request, [off], what was found ([ipo], [ip]) *)
Definition question self (qlen : Z) (rb : mem) (off : Z)
  : res (HevMappedDNS * option (mem * Z * list (Z * Z))) :=
  let ipo := off in
  if qlen <=? off then Ok (self, None) else
  r ← loop (Datatypes.S (length rb)) (label_step qlen) (rb, off);
  match r with
  | None => Ok (self, None)
  | Some (rb, off) =>
      let off := off + 1 in
      if qlen <=? off + 3 then Ok (self, None) else
      t ← read_u16 rb off;
      c ← (if t =? 1 then read_u16 rb (off + 2) else Ok 0);
      if (t =? 1) && (c =? 1) then
        name ← c_string rb (ipo + 1);
        '(self, idx) ← hev_mapped_dns_find self name;
        Ok (self, Some (rb, off + 4, if 0 <=? idx then [(ipo, Z.lor (md_net self) idx)] else []))
      else Ok (self, Some (rb, off + 4, []))
  end.

Fixpoint questions (n : nat) self (qlen : Z) (rb : mem) (off : Z)
  : res (HevMappedDNS * option (mem * Z * list (Z * Z))) :=
  match n with
  | O => Ok (self, Some (rb, off, []))
  | Datatypes.S n =>
      '(self, r) ← question self qlen rb off;
      match r with
      | None => Ok (self, None)
      | Some (rb, off, ips) =>
          '(self, r) ← questions n self qlen rb off;
          Ok (self, option_map (λ z, (z.1.1, z.1.2, ips ++ z.2)) r)
      end
  end.

(** an answer: a pointer to the name, A, IN, a second to live, the address *)
Fixpoint answers (slen : Z) (sb : mem) (off : Z) (ips : list (Z * Z)) : res (option (mem * Z)) :=
  match ips with
  | [] => Ok (Some (sb, off))
  | (ipo, ip) :: ips =>
      if slen <=? off + 15 then Ok None else
      sb ← write_u16 sb off (Z.lor 0xc000 ipo);
      sb ← write_u16 sb (off + 2) 1;
      sb ← write_u16 sb (off + 4) 1;
      sb ← write_u32 sb (off + 6) 1;
      sb ← write_u16 sb (off + 10) 4;
      sb ← write_u32 sb (off + 12) ip;
      answers slen sb (off + 16) ips
  end.

(** the cache, the length of the response ([-1]: none), the response's buffer *)
Definition hev_mapped_dns_handle self (req : mem) (qlen : Z) (resp : mem) (slen : Z)
  : res (HevMappedDNS * Z * mem) :=
  if slen <? qlen then Ok (self, -1, resp) else
  if u64 qlen <? DNS_HDR then Ok (self, -1, resp) else
  sb ← memcpy resp 0 req 0 qlen;
  qd ← read_u16 req 4;
  rb ← ntohs_at req 4;
  fl ← read_u16 sb 2;
  sb ← ntohs_at sb 2;
  sb ← memset sb 6 0 6;
  if 32 <? qd then Ok (self, -1, sb) else
  '(self, r) ← questions (Z.to_nat qd) self qlen rb DNS_HDR;
  match r with
  | None => Ok (self, -1, sb)
  | Some (_, off, ips) =>
      r ← answers slen sb off ips;
      match r with
      | None => Ok (self, -1, sb)
      | Some (sb, off) =>
          sb ← write_u16 sb 2 (Z.lor (Z.lor fl 0x8000) (Z.shiftr (Z.land fl 0x100) 1));
          sb ← write_u16 sb 6 (Z.of_nat (length ips));
          Ok (self, off, sb)
      end
  end.
End mapped_dns.
