(* ===== verification/HevMappedDnsSpec.v ===== *)
(** * hev-socks5-tunnel: mapped DNS is a least-recently-used map

    The tree, the list, the table and the heap together refine one list of
    names and indices in the order of their last use, through every history of
    requests ([mapped_dns_refines_lru]).  An address stays with its name until as many other
    names have been used as the cache can hold ([address_kept]). *)

From Stdlib Require Import ZArith Lia Bool List Sorted.
From Stdlib Require Import Strings.Byte Strings.String.
From stdpp Require Import base tactics list numbers option gmap sorting.
From S2P Require Import Prelude CMem HevList HevRbtree HevRbtreeSpec HevMappedDns.

(** ** The order of names *)

Definition c_name (m : mem) : Prop := Forall (λ c, zb c ≠ 0) m.

Lemma zb_nonneg c : 0 <= zb c.
Proof. pose proof (zb_range c). lia. Qed.

Lemma strcmp_flip a : ∀ b, strcmp b a = - strcmp a b.
Proof.
  induction a as [|x a IH]; intros [|y b]; simpl; [lia|lia|lia|].
  rewrite (Z.eqb_sym (zb y)). destruct (Z.eqb_spec (zb x) (zb y)); [apply IH|lia].
Qed.

Lemma strcmp_eq a : ∀ b, c_name a → c_name b → strcmp a b = 0 ↔ a = b.
Proof.
  induction a as [|x a IH]; intros [|y b] Ha Hb; simpl.
  - done.
  - inversion Hb as [|?? Hy _]; subst. split; [lia|done].
  - inversion Ha as [|?? Hx _]; subst. split; [lia|done].
  - inversion Ha as [|?? Hx Ha']; subst. inversion Hb as [|?? Hy Hb']; subst.
    destruct (Z.eqb_spec (zb x) (zb y)) as [E|E].
    + apply zb_inj in E as ->. rewrite IH by done. split; congruence.
    + split; [lia|]. intros [= -> _]. done.
Qed.

Lemma strcmp_trans a : ∀ b c, 0 < strcmp a b → 0 < strcmp b c → 0 < strcmp a c.
Proof.
  induction a as [|x a IH]; intros [|y b] [|z c]; simpl;
    repeat match goal with v : byte |- _ =>
      lazymatch goal with _ : 0 <= zb v |- _ => fail | _ => pose proof (zb_nonneg v) end end; try lia.
  all: repeat match goal with |- context [?u =? ?v] => destruct (Z.eqb_spec u v) end; try lia. by apply IH.
Qed.

Lemma strcmp_below a b c : c_name b → c_name c → 0 < strcmp a b → strcmp a c <= 0 → strcmp b c < 0.
Proof.
  intros Hb Hc H1 H2. destruct (Z.lt_trichotomy (strcmp b c) 0) as [?|[->%strcmp_eq|H3]]; [done|lia|done..|].
  pose proof (strcmp_trans a b c H1 H3). lia.
Qed.

Lemma sorted_cmp {A} (P : A → A → Prop) (l : list A) (x y : A) :
  StronglySorted P l → x ∈ l → y ∈ l → x = y ∨ P x y ∨ P y x.
Proof.
  induction 1 as [|z l Hs IH Hz]; [by intros ?%elem_of_nil|]. rewrite Forall_forall in Hz.
  intros [->|Hx]%elem_of_cons [->|Hy]%elem_of_cons; auto.
Qed.

(** ** The invariant *)

Section invariant.
Implicit Types (d : HevMappedDNS) (x : nat).

(** the fields of a live node *)
Definition nm d x : mem := match md_heap d !! x with Some n => md_name n | None => [] end.
Definition ix d x : Z := match md_heap d !! x with Some n => md_idx n | None => 0 end.

(** the names go down from left to right *)
Definition descending d (l : list nat) : Prop := StronglySorted (λ x y, 0 < strcmp (nm d x) (nm d y)) l.

Record md_ok d (l : list nat) : Prop := MdOk {
  mo_list : dll (md_list d) l;
  mo_valid : valid (md_tree d);
  mo_perm : rb_elements (md_tree d) ≡ₚ l;
  mo_sorted : descending d (rb_elements (md_tree d));
  mo_heap : ∀ x, is_Some (md_heap d !! x) ↔ x ∈ l;
  mo_names : ∀ x, x ∈ l → c_name (nm d x);
  mo_use : md_use d = Z.of_nat (length l);
  mo_max : 0 < md_max d ∧ md_use d <= md_max d;
  mo_mask : md_max d <= Z.lnot (md_mask d);
  mo_records : Z.of_nat (length (md_records d)) = md_max d;
  mo_idx : ∀ x, x ∈ l → 0 <= ix d x < md_use d;
  mo_table : ∀ i x, md_records d !! i = Some (Some x) ↔ x ∈ l ∧ ix d x = Z.of_nat i
}.

(** the abstract map, the least recently used entry first *)
Definition entries d (l : list nat) : list (mem * Z) := map (λ x, (nm d x, ix d x)) l.

Lemma md_new net mask max d :
  hev_mapped_dns_construct net mask max = Some d → 0 < max → md_ok d [] ∧ entries d [] = [].
Proof.
  unfold hev_mapped_dns_construct. destruct (Z.ltb_spec (Z.lnot mask) max); [done|]. intros [= <-] Hmax.
  split; [|done]. split; simpl; try done; try lia.
  - apply dll_empty.
  - split; [done|by exists 0%nat].
  - constructor.
  - intros x. rewrite lookup_empty, elem_of_nil. split; [by intros [? ?]|done].
  - by intros x ?%elem_of_nil.
  - rewrite repeat_length. lia.
  - by intros x ?%elem_of_nil.
  - intros i x. split; [|by intros [?%elem_of_nil ?]]. intros Hi.
    apply list_elem_of_lookup_2, list_elem_of_In, repeat_spec in Hi. done.
Qed.

Lemma md_nodup d l : md_ok d l → NoDup l.
Proof. intros H. apply (mo_list _ _ H). Qed.
Lemma md_alive d l x : md_ok d l → x ∈ l → md_heap d !! x = Some (MappedNode (nm d x) (ix d x)).
Proof.
  intros H Hx. apply (mo_heap _ _ H) in Hx as [n Hn]. unfold nm, ix. rewrite Hn. by destruct n.
Qed.

(** names and indices are unique *)
Lemma md_name_inj d l x y : md_ok d l → x ∈ l → y ∈ l → nm d x = nm d y → x = y.
Proof.
  intros H Hx Hy E. rewrite <- (mo_perm _ _ H) in Hx, Hy.
  destruct (sorted_cmp _ _ x y (mo_sorted _ _ H) Hx Hy) as [?|[Hc|Hc]]; [done|..];
    pose proof (strcmp_flip (nm d y) (nm d y)); rewrite E in Hc; lia.
Qed.
Lemma md_idx_inj d l x y : md_ok d l → x ∈ l → y ∈ l → ix d x = ix d y → x = y.
Proof.
  intros H Hx Hy E. pose proof (mo_idx _ _ H x Hx) as Hr.
  assert (Hxr : md_records d !! Z.to_nat (ix d x) = Some (Some x)) by (apply (mo_table _ _ H); split; [done|lia]).
  assert (Hyr : md_records d !! Z.to_nat (ix d x) = Some (Some y)) by (apply (mo_table _ _ H); split; [done|lia]).
  congruence.
Qed.

(** ** The walk down *)

Lemma find_node_search d name t : ∀ path, (∀ x, x ∈ rb_elements t → is_Some (md_heap d !! x)) →
  find_node d name t path = Ok (rb_search (λ x, strcmp (nm d x) name) t path).
Proof.
  induction t as [|c l IHl x r IHr]; intros path Hal; [done|]. cbn [find_node rb_search rb_elements] in *.
  destruct (Hal x) as [n Hn]; [apply elem_of_app; right; by left|]. unfold get_node. rewrite Hn, bind_Ok. cbv zeta.
  replace (nm d x) with (md_name n) by (unfold nm; by rewrite Hn).
  rewrite IHl, IHr by (intros y Hy; apply Hal, elem_of_app; first [by left|by right; right]). by repeat case_match.
Qed.

Lemma find_node_spec d name t path :
  (∀ x, x ∈ rb_elements t → is_Some (md_heap d !! x) ∧ c_name (nm d x)) → descending d (rb_elements t) → c_name name →
  ∃ r, find_node d name t path = Ok r ∧
    match r with
    | inl x => x ∈ rb_elements t ∧ nm d x = name
    | inr path' => rb_root Null path' = rb_root t path
        ∧ ∃ l1 l2, rb_before path' = rb_before path ++ l1 ∧ rb_after path' = l2 ++ rb_after path
          ∧ rb_elements t = l1 ++ l2
          ∧ Forall (λ x, 0 < strcmp (nm d x) name) l1 ∧ Forall (λ x, 0 < strcmp name (nm d x)) l2
    end.
Proof.
  intros Hal Hs Hn. rewrite find_node_search by (intros x Hx; apply (Hal x Hx)). eexists. split; [done|].
  pose proof (rb_search_spec (λ x, strcmp (nm d x) name) _ t path Hs) as H. destruct (rb_search _ t path) as [x|path'].
  - destruct H as [Hx E]; [intros y z _ Hz; apply strcmp_below; [by apply Hal|done]|]. split; [done|]. apply strcmp_eq; [by apply Hal|done..].
  - destruct H as (Hroot & l1 & l2 & Hb & Ha & Hel & F1 & F2); [intros y z _ Hz; apply strcmp_below; [by apply Hal|done]|]. split; [done|].
    exists l1, l2. repeat split; try done. apply (Forall_impl _ _ _ F2). intros y Hy. rewrite strcmp_flip. lia.
Qed.

(** ** Using a name *)

Lemma md_relist d l h l' : md_ok d l → dll h l' → l' ≡ₚ l → md_ok (d <| md_list := h |>) l'.
Proof.
  intros [H1 H2 H3 H4 H5 H6 H7 H8 HM H9 H10 H11] Hh Hp.
  split; simpl; try done.
  - by rewrite H3, Hp.
  - intros x. by rewrite Hp.
  - intros x. rewrite Hp. apply H6.
  - by rewrite Hp.
  - intros x. rewrite Hp. apply H10.
  - intros i x. rewrite Hp. apply H11.
Qed.

Lemma touch_spec d l1 x l2 :
  md_ok d (l1 ++ x :: l2) →
  ∃ h, touch d x = Ok (d <| md_list := h |>) ∧ md_ok (d <| md_list := h |>) (l1 ++ l2 ++ [x]).
Proof.
  intros H. destruct (del_effect _ _ _ _ (mo_list _ _ H)) as (h1 & E1 & Hd1 & _ & Hal).
  destruct Hal as [n Hn].
  assert (Hx : x ∉ l1 ++ l2).
  { pose proof (md_nodup _ _ H) as Hnd. rewrite <- Permutation_middle in Hnd. by apply NoDup_cons in Hnd as [? _]. }
  destruct (add_tail_effect h1 (l1 ++ l2) x n Hd1 Hn Hx) as (h2 & E2 & Hd2 & _).
  exists h2. unfold touch. rewrite E1, bind_Ok, E2, bind_Ok. split; [done|].
  rewrite app_assoc. apply (md_relist _ _ _ _ H Hd2). by rewrite <- Permutation_cons_append, Permutation_middle.
Qed.

Lemma descending_ext d d' l : (∀ x, x ∈ l → nm d' x = nm d x) → descending d l → descending d' l.
Proof.
  unfold descending. induction l as [|x l IH]; intros E H; [constructor|]. inversion H as [|?? H1 H2]; subst.
  constructor; [apply IH; [|done]; intros y Hy; apply E; by right|].
  rewrite Forall_forall in *. intros y Hy. rewrite !E by (by left || by right). by apply H2.
Qed.

(** a fresh node [a] with the index [idx]; [kept] are the nodes that stay *)
Lemma md_add d l d' kept a name idx :
  md_ok d l → kept ⊆ l → NoDup kept → a ∉ l → c_name name →
  dll (md_list d') (kept ++ [a]) → valid (md_tree d') →
  rb_elements (md_tree d') ≡ₚ kept ++ [a] →
  (∃ b c, rb_elements (md_tree d') = b ++ a :: c ∧ descending d (b ++ c)
     ∧ Forall (λ x, 0 < strcmp (nm d x) name) b ∧ Forall (λ x, 0 < strcmp name (nm d x)) c) →
  md_heap d' !! a = Some (MappedNode name idx) → (∀ x, x ∈ kept → md_heap d' !! x = md_heap d !! x) →
  (∀ x, is_Some (md_heap d' !! x) → x ∈ kept ++ [a]) →
  md_use d' = Z.of_nat (length kept) + 1 → md_max d' = md_max d → md_mask d' = md_mask d → md_use d' <= md_max d → md_use d <= md_use d' →
  md_records d' = <[Z.to_nat idx := Some a]> (md_records d) → 0 <= idx < md_use d' →
  (∀ x, x ∈ kept → ix d x ≠ idx) → (∀ x, x ∈ l → x ∉ kept → ix d x = idx) →
  md_ok d' (kept ++ [a]) ∧ entries d' (kept ++ [a]) = entries d kept ++ [(name, idx)].
Proof.
  intros H Hsub Hnd Ha Hn Hdll Hval Hperm (b & c & Hels & Hdesc & Fb & Fc) Hha Hhk Hdom Hu Hm Hmm Hum Hud Hrec Hi Hne Heq.
  assert (Hak : a ∉ kept) by (intros Hk; by apply Ha, Hsub).
  assert (Nk : ∀ x, x ∈ kept → nm d' x = nm d x ∧ ix d' x = ix d x).
  { intros x Hx. unfold nm, ix. by rewrite Hhk. }
  assert (Na : nm d' a = name ∧ ix d' a = idx) by (unfold nm, ix; by rewrite Hha).
  assert (Hbc : b ++ c ≡ₚ kept).
  { rewrite Hels, <- Permutation_middle, <- Permutation_cons_append in Hperm. by apply Permutation_cons_inv in Hperm. }
  assert (Nb : ∀ x, x ∈ b ++ c → nm d' x = nm d x) by (intros x Hx; apply Nk; by rewrite <- Hbc).
  split.
  - split; try done.
    + rewrite Hels. apply (descending_ext _ d') in Hdesc; [|done].
      unfold descending in *. apply StronglySorted_app in Hdesc as (D1 & D2 & D3).
      rewrite Forall_forall in Fb, Fc. destruct Na as [Na _].
      apply StronglySorted_app_2; [|done|].
      * intros x1 x2 H1 [->|H2]%elem_of_cons; [|by apply D1].
        rewrite Na, Nb by (apply elem_of_app; by left). by apply Fb.
      * constructor; [done|]. apply Forall_forall. intros y Hy.
        rewrite Na, Nb by (apply elem_of_app; by right). by apply Fc.
    + intros x. split; [apply Hdom|]. intros [Hx| ->%list_elem_of_singleton]%elem_of_app; [|by eexists].
      rewrite Hhk by done. by apply (mo_heap _ _ H), Hsub.
    + intros x [Hx| ->%list_elem_of_singleton]%elem_of_app; [|by rewrite (proj1 Na)].
      rewrite (proj1 (Nk x Hx)). by apply (mo_names _ _ H), Hsub.
    + rewrite Hu, length_app. simpl. lia.
    + pose proof (mo_max _ _ H). lia.
    + rewrite Hm, Hmm. apply (mo_mask _ _ H).
    + by rewrite Hrec, length_insert, (mo_records _ _ H).
    + intros x [Hx| ->%list_elem_of_singleton]%elem_of_app; [|by rewrite (proj2 Na)].
      rewrite (proj2 (Nk x Hx)). pose proof (mo_idx _ _ H x (Hsub _ Hx)). lia.
    + intros i x. pose proof (mo_records _ _ H) as Hlen. pose proof (mo_max _ _ H).
      rewrite Hrec, elem_of_app, list_elem_of_singleton. destruct (decide (i = Z.to_nat idx)) as [->|Hi'].
      * rewrite list_lookup_insert_eq by lia. split.
        -- intros [= <-]. split; [by right|]. rewrite (proj2 Na). lia.
        -- intros [[Hx| ->] E]; [|done]. exfalso. apply (Hne x Hx). rewrite (proj2 (Nk x Hx)) in E. lia.
      * rewrite list_lookup_insert_ne by done. rewrite (mo_table _ _ H). split.
        -- intros [Hx E]. destruct (decide (x ∈ kept)) as [Hk|Hk].
           ++ split; [by left|]. by rewrite (proj2 (Nk x Hk)).
           ++ exfalso. apply Hi'. rewrite <- (Heq x Hx Hk), E. lia.
        -- intros [[Hx| ->] E]; [|exfalso; rewrite (proj2 Na) in E; lia].
           split; [by apply Hsub|]. by rewrite <- (proj2 (Nk x Hx)).
  - unfold entries. rewrite map_app. simpl. rewrite (proj1 Na), (proj2 Na). f_equal.
    apply map_ext_in. intros x Hx%list_elem_of_In. by destruct (Nk x Hx) as [-> ->].
Qed.

Lemma walk_spec d l name :
  md_ok d l → c_name name →
  ∃ r, find_node d name (md_tree d) [] = Ok r ∧
    match r with
    | inl x => x ∈ l ∧ nm d x = name
    | inr path => (∀ x, x ∈ l → nm d x ≠ name) ∧ valid (rb_root Null path)
        ∧ rb_before path ++ rb_after path = rb_elements (md_tree d)
        ∧ Forall (λ x, 0 < strcmp (nm d x) name) (rb_before path)
        ∧ Forall (λ x, 0 < strcmp name (nm d x)) (rb_after path)
    end.
Proof.
  intros H Hn. destruct (find_node_spec d name (md_tree d) []) as (r & E & Hr).
  - intros x Hx. rewrite (mo_perm _ _ H) in Hx. split; [by apply (mo_heap _ _ H)|by apply (mo_names _ _ H)].
  - apply (mo_sorted _ _ H).
  - done.
  - exists r. split; [done|]. destruct r as [x|path].
    + by rewrite <- (mo_perm _ _ H).
    + destruct Hr as (Hroot & l1 & l2 & Hb & Ha & Hel & F1 & F2). simpl in Hb, Ha. rewrite app_nil_r in Ha.
      rewrite Hb, Ha. split; [|split; [rewrite Hroot; apply (mo_valid _ _ H)|done]].
      intros x Hx E'. rewrite <- (mo_perm _ _ H), Hel in Hx. rewrite Forall_forall in F1, F2.
      pose proof (strcmp_flip name name). apply elem_of_app in Hx as [Hx|Hx]; [apply F1 in Hx|apply F2 in Hx];
        rewrite E' in Hx; lia.
Qed.

(** the list when the new node is in *)
Lemma link_new d l a :
  md_ok d l → md_heap d !! a = None →
  a ∉ l ∧ ∃ h, hev_list_add_tail (node_alloc (md_list d) a) a = Ok h ∧ dll h (l ++ [a]).
Proof.
  intros H Ha. assert (Hl : a ∉ l) by (intros Hx; apply (mo_heap _ _ H) in Hx as [? ?]; congruence).
  split; [done|]. pose proof (dll_alloc _ _ a (mo_list _ _ H) Hl) as Hd.
  destruct (add_tail_effect _ l a (ListNode None None) Hd) as (h & E & Hh & _); [simpl; by rewrite lookup_insert_eq|done|].
  by exists h.
Qed.
End invariant.

(** ** The cache is a least-recently-used map *)

Definition lru_find (max : Z) (s : list (mem * Z)) (name : mem) : list (mem * Z) * Z :=
  match list_find (λ e, e.1 = name) s with
  | Some (k, e) => (delete k s ++ [e], e.2)
  | None =>
      if Z.of_nat (length s) <? max then (s ++ [(name, Z.of_nat (length s))], Z.of_nat (length s))
      else match s with
        | [] => (s, -1)
        | (_, i) :: s => (s ++ [(name, i)], i)
        end
  end.
Definition lru_lookup (s : list (mem * Z)) (idx : Z) : list (mem * Z) * option mem :=
  match list_find (λ e, e.2 = idx) s with
  | Some (k, e) => (delete k s ++ [e], Some e.1)
  | None => (s, None)
  end.

(** the network does not change *)
Definition same_net (d d' : HevMappedDNS) : Prop :=
  md_net d' = md_net d ∧ md_mask d' = md_mask d ∧ md_max d' = md_max d.

Section refinement.
Context (alloc : HevMappedDNS → option nat).
Context (Hfresh : ∀ d a, alloc d = Some a → md_heap d !! a = None).

Lemma list_find_entries {X} (f : mem * Z → X) `{EqDecision X} d l1 x l2 (v : X) :
  f (nm d x, ix d x) = v → (∀ y, y ∈ l1 → f (nm d y, ix d y) ≠ v) →
  list_find (λ e, f e = v) (entries d (l1 ++ x :: l2)) = Some (length l1, (nm d x, ix d x)).
Proof.
  intros Hx Hy. unfold entries. rewrite map_app. simpl. apply list_find_Some.
  split; [by rewrite lookup_app_r, length_map, Nat.sub_diag by (rewrite length_map; lia)|]. split; [done|].
  intros j e Hj Hlt. rewrite lookup_app_l in Hj by (by rewrite length_map).
  apply list_lookup_fmap_Some in Hj as (y & -> & Hj). apply Hy. by eapply list_elem_of_lookup_2.
Qed.

Lemma delete_entries d l1 x l2 :
  delete (length l1) (entries d (l1 ++ x :: l2)) = entries d (l1 ++ l2).
Proof.
  unfold entries. rewrite !map_app. simpl.
  rewrite <- (length_map (λ x, (nm d x, ix d x)) l1) at 1. apply delete_middle.
Qed.

Lemma find_hit d l name x :
  md_ok d l → c_name name → find_node d name (md_tree d) [] = Ok (inl x) → x ∈ l → nm d x = name →
  ∃ d' l', hev_mapped_dns_find alloc d name = Ok (d', ix d x) ∧ md_ok d' l' ∧ same_net d d'
    ∧ lru_find (md_max d) (entries d l) name = (entries d' l', ix d x).
Proof.
  intros H Hn E Hx Enm. pose proof Hx as (l1 & l2 & ->)%list_elem_of_split.
  destruct (touch_spec d l1 x l2 H) as (h & Et & H').
  exists (d <| md_list := h |>), (l1 ++ l2 ++ [x]). unfold hev_mapped_dns_find. rewrite E, bind_Ok, Et, bind_Ok.
  unfold get_node. simpl md_heap. rewrite (md_alive _ _ _ H Hx), bind_Ok. split; [done|]. split; [done|].
  split; [done|]. unfold lru_find.
  rewrite (list_find_entries fst d l1 x l2 name Enm).
  - rewrite delete_entries. unfold entries. by rewrite app_assoc, (map_app _ (l1 ++ l2)).
  - intros y Hy E'. simpl in E'. assert (y = x) as ->.
    { apply (md_name_inj d _ _ _ H); [apply elem_of_app; by left|done|congruence]. }
    pose proof (md_nodup _ _ H) as (_ & Hnd & _)%NoDup_app. apply (Hnd x Hy). by left.
Qed.

Lemma not_found_entries d l name :
  (∀ x, x ∈ l → nm d x ≠ name) → list_find (λ e, e.1 = name) (entries d l) = None.
Proof.
  intros H. apply list_find_None, Forall_forall. intros e (x & -> & Hx)%list_elem_of_fmap. by apply H.
Qed.

Lemma find_new d l name path a :
  md_ok d l → c_name name → md_use d < md_max d → alloc d = Some a →
  find_node d name (md_tree d) [] = Ok (inr path) →
  (∀ x, x ∈ l → nm d x ≠ name) → valid (rb_root Null path) →
  rb_before path ++ rb_after path = rb_elements (md_tree d) →
  Forall (λ x, 0 < strcmp (nm d x) name) (rb_before path) →
  Forall (λ x, 0 < strcmp name (nm d x)) (rb_after path) →
  ∃ d', hev_mapped_dns_find alloc d name = Ok (d', md_use d) ∧ md_ok d' (l ++ [a]) ∧ same_net d d'
    ∧ entries d' (l ++ [a]) = entries d l ++ [(name, md_use d)].
Proof.
  intros H Hn Hroom Hal E Hnew Hv Hel Fb Fa. pose proof (Hfresh _ _ Hal) as Ha.
  destruct (link_new d l a H Ha) as (Hl & h & Eh & Hh).
  destruct (rb_insert path a Hv) as (t & Et & Hvt & Helt).
  unfold hev_mapped_dns_find. rewrite E, bind_Ok. unfold hev_mapped_dns_node_alloc. rewrite Hal.
  cbv zeta. rewrite Et, bind_Ok. cbn [md_list upd]. simpl md_list. rewrite Eh, bind_Ok.
  simpl. rewrite (proj2 (Z.ltb_lt _ _)) by done. rewrite bind_Ok.
  pose proof (mo_use _ _ H). pose proof (mo_records _ _ H) as Hlen.
  rewrite (proj2 (Z.leb_le 0 _)), (proj2 (Z.ltb_lt _ (Z.of_nat _))) by (simpl; lia). cbn [andb].
  unfold get_node. simpl. rewrite lookup_insert_eq, bind_Ok. simpl.
  eexists. split; [done|].
  destruct (md_add d l (MappedDNS (md_use d + 1) (md_max d) (md_net d) (md_mask d) h t
      (<[Z.to_nat (md_use d) := Some a]> (md_records d))
      (<[a := MappedNode name (md_use d)]> (<[a := MappedNode name 0]> (md_heap d)))) l a name (md_use d))
    as [H1 H2]; simpl; try done; try lia.
  - apply (md_nodup _ _ H).
  - rewrite Helt, <- Permutation_middle, Hel, (mo_perm _ _ H). apply Permutation_cons_append.
  - exists (rb_before path), (rb_after path). split; [done|]. split; [|done]. rewrite Hel. apply (mo_sorted _ _ H).
  - by rewrite lookup_insert_eq.
  - intros x Hx. rewrite !lookup_insert_ne; [done|intros ->; done..].
  - intros x. destruct (decide (x = a)) as [->|Hne]; [intros _; apply elem_of_app; right; by left|].
    rewrite !lookup_insert_ne by done. intros Hx. apply elem_of_app. left. by apply (mo_heap _ _ H).
  - intros x Hx. pose proof (mo_idx _ _ H x Hx). lia.
Qed.

(** without [y], the new node still stands between the greater and the smaller *)
Lemma gone_split d bef aft a y b c l2 name :
  bef ++ a :: aft = b ++ y :: c → l2 = b ++ c → a ≠ y → descending d (bef ++ aft) →
  Forall (λ x, 0 < strcmp (nm d x) name) bef → Forall (λ x, 0 < strcmp name (nm d x)) aft →
  ∃ b0 c0, l2 = b0 ++ a :: c0 ∧ descending d (b0 ++ c0)
    ∧ Forall (λ x, 0 < strcmp (nm d x) name) b0 ∧ Forall (λ x, 0 < strcmp name (nm d x)) c0.
Proof.
  intros E -> Hne Hd Fb Fa.
  assert (Hrm : ∀ l1 l2, descending d (l1 ++ y :: l2) → descending d (l1 ++ l2)).
  { intros l1 l2 (H1 & H2 & H3)%StronglySorted_app. inversion H3; subst.
    apply StronglySorted_app_2; [|done..]. intros x1 x2 Hx1 Hx2. apply H1; [done|by right]. }
  apply app_eq_inv in E as [(k & -> & E)|(k & -> & E)]; destruct k as [|z k]; simpl in E; try congruence;
    injection E as <- ->.
  - exists (b ++ k), aft. rewrite <- !app_assoc in *. split; [done|]. split; [by apply Hrm|].
    apply Forall_app in Fb as [F1 F2]. inversion F2; subst. by split; [apply Forall_app|].
  - exists bef, (k ++ c). rewrite <- app_assoc. split; [done|].
    split; [rewrite app_assoc in Hd |- *; by apply Hrm|].
    apply Forall_app in Fa as [F1 F2]. inversion F2; subst. by split; [|apply Forall_app].
Qed.

Lemma find_evicts d l y name path a :
  md_ok d (y :: l) → c_name name → md_use d = md_max d → alloc d = Some a →
  find_node d name (md_tree d) [] = Ok (inr path) →
  (∀ x, x ∈ y :: l → nm d x ≠ name) → valid (rb_root Null path) →
  rb_before path ++ rb_after path = rb_elements (md_tree d) →
  Forall (λ x, 0 < strcmp (nm d x) name) (rb_before path) →
  Forall (λ x, 0 < strcmp name (nm d x)) (rb_after path) →
  ∃ d', hev_mapped_dns_find alloc d name = Ok (d', ix d y) ∧ md_ok d' (l ++ [a]) ∧ same_net d d'
    ∧ entries d' (l ++ [a]) = entries d l ++ [(name, ix d y)].
Proof.
  intros H Hn Hfull Hal E Hnew Hv Hel Fb Fa. pose proof (Hfresh _ _ Hal) as Ha.
  destruct (link_new d (y :: l) a H Ha) as (Hl & h & Eh & Hh).
  destruct (rb_insert path a Hv) as (t & Et & Hvt & Helt).
  assert (Hay : a ≠ y) by (intros ->; apply Hl; by left).
  assert (Hperm : rb_elements t ≡ₚ a :: y :: l).
  { by rewrite Helt, <- Permutation_middle, Hel, (mo_perm _ _ H). }
  destruct (rb_erase t y Hvt) as (t2 & b & c & Et2 & Hvt2 & Hbc & Hbc2); [rewrite Hperm; right; by left|].
  destruct (del_effect h [] y (l ++ [a]) Hh) as (h2 & Eh2 & Hh2 & _).
  assert (Hyl : y ∉ l ++ [a]).
  { pose proof (dll_nodup _ _ Hh) as Hnd. simpl in Hnd. by apply NoDup_cons in Hnd as [? _]. }
  pose proof (md_nodup _ _ H) as Hnd. apply NoDup_cons in Hnd as [Hyl' Hnd].
  pose proof (md_alive _ _ y H ltac:(by left)) as Hy.
  pose proof (mo_idx _ _ H y ltac:(by left)) as Hiy. pose proof (mo_records _ _ H) as Hlen.
  pose proof (mo_use _ _ H) as Hu. simpl in Hu.
  unfold hev_mapped_dns_find. rewrite E, bind_Ok. unfold hev_mapped_dns_node_alloc. rewrite Hal.
  cbv zeta. rewrite Et, bind_Ok. simpl md_list. rewrite Eh, bind_Ok.
  simpl. rewrite (proj2 (Z.ltb_ge _ _)) by lia.
  unfold evict. simpl. unfold hev_list_first. rewrite (dll_head _ _ Hh). simpl.
  unfold get_node. simpl. rewrite lookup_insert_ne, Hy, bind_Ok by done.
  rewrite Et2, bind_Ok, Eh2, !bind_Ok. simpl.
  rewrite (proj2 (Z.leb_le 0 _)), (proj2 (Z.ltb_lt _ (Z.of_nat _))) by lia. cbn [andb].
  rewrite lookup_delete_ne, lookup_insert_eq, bind_Ok by done. simpl.
  eexists. split; [done|].
  destruct (md_add d (y :: l) (MappedDNS (md_use d) (md_max d) (md_net d) (md_mask d) (node_free h2 y) t2
      (<[Z.to_nat (ix d y) := Some a]> (md_records d))
      (<[a := MappedNode name (ix d y)]> (delete y (<[a := MappedNode name 0]> (md_heap d))))) l a name (ix d y))
    as [H1 H2]; simpl; try done; try lia.
  - by intros x; right.
  - by apply dll_free.
  - apply (Permutation_cons_inv (a := y)). rewrite Hbc2, Permutation_middle, <- Hbc, Hperm.
    rewrite <- Permutation_cons_append. apply Permutation_swap.
  - eapply gone_split; [by rewrite <- Helt|exact Hbc2|exact Hay|rewrite Hel; apply (mo_sorted _ _ H)|exact Fb|exact Fa].
  - by rewrite lookup_insert_eq.
  - intros x Hx. rewrite lookup_insert_ne, lookup_delete_ne, lookup_insert_ne; [done|intros ->..]; try done.
    apply Hl. by right. apply Hl. by right.
  - intros x. destruct (decide (x = a)) as [->|Hne]; [intros _; apply elem_of_app; right; by left|].
    rewrite lookup_insert_ne by done. destruct (decide (x = y)) as [->|Hney]; [rewrite lookup_delete_eq; by intros [??]|].
    rewrite lookup_delete_ne, lookup_insert_ne by done.
    intros Hx. apply elem_of_app. left. apply (mo_heap _ _ H) in Hx. by apply elem_of_cons in Hx as [?|?].
  - intros x Hx E'. apply Hyl'. assert (x = y) as <-; [|done].
    apply (md_idx_inj d _ _ _ H); [by right|by left|done].
  - by intros x [->|Hx]%elem_of_cons Hk.
Qed.

Lemma find_cases d l name :
  md_ok d l → c_name name →
  (∃ d' l' idx, hev_mapped_dns_find alloc d name = Ok (d', idx) ∧ md_ok d' l' ∧ same_net d d' ∧ 0 <= idx
    ∧ lru_find (md_max d) (entries d l) name = (entries d' l', idx))
  ∨ (alloc d = None ∧ hev_mapped_dns_find alloc d name = Ok (d, -1) ∧ ∀ i, (name, i) ∉ entries d l).
Proof.
  intros H Hn. destruct (walk_spec d l name H Hn) as (r & E & Hr). destruct r as [x|path].
  { destruct Hr as [Hx Enm]. left. destruct (find_hit d l name x H Hn E Hx Enm) as (d' & l' & ? & ? & ? & ?).
    exists d', l', (ix d x). pose proof (mo_idx _ _ H x Hx) as [? _].
    split; [done|]. by split. }
  destruct Hr as (Hnew & Hv & Hel & Fb & Fa). pose proof (mo_use _ _ H) as Hu. pose proof (mo_max _ _ H) as Hm.
  destruct (alloc d) as [a|] eqn:Hal.
  - left. destruct (Z.ltb_spec (md_use d) (md_max d)) as [Hroom|Hfull].
    + destruct (find_new d l name path a) as (d' & E' & H' & Hs & He); try done.
      exists d', (l ++ [a]), (md_use d). split; [done|]. split; [done|]. split; [done|]. split; [lia|].
      unfold lru_find. rewrite not_found_entries by done. unfold entries at 1 3. rewrite length_map, <- Hu.
      rewrite (proj2 (Z.ltb_lt _ _)) by done. rewrite He. unfold entries. by rewrite length_map, <- Hu.
    + destruct l as [|y l]; [simpl in Hu; lia|].
      destruct (find_evicts d l y name path a) as (d' & E' & H' & Hs & He); try done; [lia|].
      exists d', (l ++ [a]), (ix d y). split; [done|]. split; [done|]. split; [done|].
      split; [apply (mo_idx _ _ H); by left|].
      unfold lru_find. rewrite not_found_entries by done. unfold entries at 1. rewrite length_map, <- Hu.
      rewrite (proj2 (Z.ltb_ge _ _)) by done. by rewrite He.
  - right. split; [done|]. split.
    + unfold hev_mapped_dns_find. rewrite E, bind_Ok. unfold hev_mapped_dns_node_alloc. by rewrite Hal.
    + intros i (x & [= Ex _] & Hx)%list_elem_of_fmap. by apply (Hnew x).
Qed.

Lemma lookup_cases d l ip :
  md_ok d l →
  ∃ d' l' r, hev_mapped_dns_lookup d ip = Ok (d', r) ∧ md_ok d' l' ∧ same_net d d'
    ∧ (entries d' l', r) = if Z.land ip (md_mask d) =? md_net d
        then lru_lookup (entries d l) (Z.land ip (Z.lnot (md_mask d))) else (entries d l, None).
Proof.
  intros H. unfold hev_mapped_dns_lookup. pose proof (mo_mask _ _ H) as Hmask. pose proof (mo_max _ _ H) as Hmax.
  destruct (Z.eqb_spec (Z.land ip (md_mask d)) (md_net d)); cbn [negb]; [|by exists d, l, None].
  set (idx := Z.land ip (Z.lnot (md_mask d))).
  assert (Hidx : 0 <= idx) by (unfold idx; apply Z.land_nonneg; right; lia). cbv zeta.
  assert (Hnone : (∀ x, x ∈ l → ix d x ≠ idx) → lru_lookup (entries d l) idx = (entries d l, None)).
  { intros Hno. unfold lru_lookup. replace (list_find _ _) with (@None (nat * (mem * Z))); [done|]. symmetry.
    apply list_find_None, Forall_forall. intros ent (x & -> & Hx)%list_elem_of_fmap. by apply Hno. }
  destruct (Z.leb_spec (md_max d) idx).
  { exists d, l, None. rewrite Hnone; [done|]. intros x Hx. pose proof (mo_idx _ _ H x Hx). lia. }
  rewrite (proj2 (Z.ltb_ge _ _)) by lia. pose proof (mo_records _ _ H).
  destruct (lookup_lt_is_Some_2 (md_records d) (Z.to_nat idx)) as [o Ho]; [lia|]. rewrite Ho. destruct o as [x|].
  - pose proof Ho as Hx. apply (mo_table _ _ H) in Hx as [Hx Eix].
    pose proof Hx as (l1 & l2 & ->)%list_elem_of_split.
    destruct (touch_spec d l1 x l2 H) as (h & Et & H'). rewrite Et, bind_Ok. unfold get_node. simpl md_heap.
    rewrite (md_alive _ _ _ H Hx), bind_Ok. exists (d <| md_list := h |>), (l1 ++ l2 ++ [x]), (Some (nm d x)).
    split; [done|]. split; [done|]. split; [done|]. unfold lru_lookup.
    rewrite (list_find_entries snd d l1 x l2 idx) by (simpl; lia || (intros y Hy E';
      assert (y = x) as -> by (apply (md_idx_inj d _ _ _ H); [apply elem_of_app; by left|done|simpl in E'; lia]);
      pose proof (md_nodup _ _ H) as (_ & Hnd & _)%NoDup_app; apply (Hnd x Hy); by left)).
    rewrite delete_entries. unfold entries. by rewrite app_assoc, (map_app _ (l1 ++ l2)).
  - exists d, l, None. rewrite Hnone; [done|]. intros x Hx E'.
    assert (Hc : md_records d !! Z.to_nat idx = Some (Some x)) by (apply (mo_table _ _ H); split; [done|lia]).
    congruence.
Qed.
End refinement.

(** ** The theorems *)

(** a heap that hands out fresh objects *)
Definition fresh_alloc (alloc : HevMappedDNS → option nat) : Prop :=
  ∀ d a, alloc d = Some a → md_heap d !! a = None.

(** *** A history of requests *)

Inductive request : Type := Find (name : mem) | Lookup (ip : Z).
Inductive answer : Type := Index (idx : Z) | Name (name : option mem).

Definition ask (alloc : HevMappedDNS → option nat) (d : HevMappedDNS) (r : request) : res (HevMappedDNS * answer) :=
  match r with
  | Find name => '(d, i) ← hev_mapped_dns_find alloc d name; Ok (d, Index i)
  | Lookup ip => '(d, n) ← hev_mapped_dns_lookup d ip; Ok (d, Name n)
  end.
Fixpoint dns_run (alloc : HevMappedDNS → option nat) (d : HevMappedDNS) (rs : list request)
  : res (HevMappedDNS * list answer) :=
  match rs with
  | [] => Ok (d, [])
  | r :: rs =>
      '(d, a) ← ask alloc d r;
      '(d, l) ← dns_run alloc d rs;
      Ok (d, a :: l)
  end.

(** the same of the abstract map *)
Definition lru_ask (net mask max : Z) (s : list (mem * Z)) (r : request) : list (mem * Z) * answer :=
  match r with
  | Find name => let '(s, i) := lru_find max s name in (s, Index i)
  | Lookup ip =>
      if Z.land ip mask =? net then let '(s, n) := lru_lookup s (Z.land ip (Z.lnot mask)) in (s, Name n)
      else (s, Name None)
  end.
Fixpoint lru_run (net mask max : Z) (s : list (mem * Z)) (rs : list request) : list (mem * Z) * list answer :=
  match rs with
  | [] => (s, [])
  | r :: rs =>
      let '(s, a) := lru_ask net mask max s r in
      let '(s, l) := lru_run net mask max s rs in (s, a :: l)
  end.

Definition request_ok (r : request) : Prop := match r with Find name => c_name name | Lookup _ => True end.

Lemma ask_refines alloc d l r :
  fresh_alloc alloc → (∀ d, is_Some (alloc d)) → md_ok d l → request_ok r →
  ∃ d' l' a, ask alloc d r = Ok (d', a) ∧ md_ok d' l' ∧ same_net d d'
    ∧ lru_ask (md_net d) (md_mask d) (md_max d) (entries d l) r = (entries d' l', a).
Proof.
  intros Hf Hs H Hr. destruct r as [name|ip]; simpl.
  - destruct (find_cases alloc Hf d l name H Hr) as [(d' & l' & i & E & H' & Hs' & _ & El)|(Hn & _)].
    + rewrite E, El. exists d', l', (Index i). done.
    + destruct (Hs d) as [? Ha]. congruence.
  - destruct (lookup_cases d l ip H) as (d' & l' & n & E & H' & Hs' & El). rewrite E.
    exists d', l', (Name n). split; [done|]. split; [done|]. split; [done|].
    destruct (_ =? _); [|by injection El as -> ->]. by rewrite <- El.
Qed.

Lemma run_refines alloc rs : ∀ d l,
  fresh_alloc alloc → (∀ d, is_Some (alloc d)) → md_ok d l → Forall request_ok rs →
  ∃ d' l' out, dns_run alloc d rs = Ok (d', out) ∧ md_ok d' l'
    ∧ lru_run (md_net d) (md_mask d) (md_max d) (entries d l) rs = (entries d' l', out).
Proof.
  induction rs as [|r rs IH]; intros d l Hf Hs H Hr; [by exists d, l, []|].
  inversion Hr as [|?? Hr1 Hrs]; subst. cbn [dns_run lru_run].
  destruct (ask_refines alloc d l r Hf Hs H Hr1) as (d1 & l1 & a & E & H1 & (En & Em & Ex) & El).
  destruct (IH d1 l1 Hf Hs H1 Hrs) as (d2 & l2 & out & E2 & H2 & El2). rewrite En, Em, Ex in El2.
  exists d2, l2, (a :: out). rewrite E, bind_Ok, E2, El, El2. done.
Qed.

(** C26: from the start on, every history of requests is answered without going
    wrong and as the least-recently-used map answers it: the same indices, the
    same names, the same victims.  A request for a name the cache has no room
    for takes the index of the name unused for longest. *)
Theorem mapped_dns_refines_lru (alloc : HevMappedDNS → option nat) (net mask max : Z) (d : HevMappedDNS)
    (rs : list request) :
  fresh_alloc alloc → (∀ d, is_Some (alloc d)) →
  hev_mapped_dns_construct net mask max = Some d → 0 < max → Forall request_ok rs →
  ∃ d' l out, dns_run alloc d rs = Ok (d', out) ∧ md_ok d' l
    ∧ lru_run net mask max [] rs = (entries d' l, out).
Proof.
  intros Hf Hs E Hm Hr. destruct (md_new net mask max d E Hm) as [H En].
  destruct (run_refines alloc rs d [] Hf Hs H Hr) as (d' & l & out & E1 & H1 & El). exists d', l, out.
  unfold hev_mapped_dns_construct in E. destruct (_ <? _); [done|]. injection E as <-. done.
Qed.

(** *** An address keeps its name *)

Section kept.
Implicit Types (s : list (mem * Z)).

(** [name] with [i] is in the map, only names of [T] are more recent *)
Definition behind s (name : mem) (i : Z) (T : list mem) : Prop :=
  ∃ s1 s2, s = s1 ++ (name, i) :: s2 ∧ ∀ e, e ∈ s2 → e.1 ∈ T.

Lemma lru_find_names max s n s' i :
  lru_find max s n = (s', i) → NoDup (map fst s) → NoDup (map fst s').
Proof.
  unfold lru_find. destruct (list_find _ s) as [[k e]|] eqn:E.
  - intros [= <- <-] Hnd. apply list_find_Some in E as (Hk & _ & _).
    rewrite map_app. simpl. rewrite <- (take_drop_middle s k e Hk) in Hnd.
    rewrite delete_take_drop. rewrite map_app in Hnd |- *. simpl in Hnd.
    rewrite <- Permutation_middle in Hnd. by rewrite <- Permutation_cons_append.
  - assert (Hnew : ∀ s0, s0 ⊆ s → n ∉ map fst s0).
    { intros s0 Hsub (e & -> & He)%list_elem_of_fmap. apply list_find_None in E.
      rewrite Forall_forall in E. by apply (E e (Hsub e He)). }
    destruct (Z.ltb_spec (Z.of_nat (length s)) max).
    + intros [= <- <-] Hnd. rewrite map_app. simpl. rewrite <- Permutation_cons_append.
      apply NoDup_cons. split; [by apply Hnew|done].
    + destruct s as [|[m j] s]; [by intros [= <- <-]|]. intros [= <- <-] Hnd.
      simpl in Hnd. apply NoDup_cons in Hnd as [_ Hnd]. rewrite map_app. simpl.
      rewrite <- Permutation_cons_append. apply NoDup_cons. split; [|done]. apply Hnew. by intros x; right.
Qed.

Lemma behind_find max s name i T n s' j (all : list mem) :
  lru_find max s n = (s', j) → NoDup (map fst s) → behind s name i T →
  (n ≠ name → n ∈ all) → T ⊆ all → (∀ L, NoDup L → L ⊆ all → Z.of_nat (length L) < max) →
  (n = name → j = i) ∧ ∃ T', behind s' name i T' ∧ T' ⊆ all.
Proof.
  intros E Hnd (s1 & s2 & -> & Hs2) Hn HT Hall. unfold lru_find in E.
  rewrite map_app in Hnd. simpl in Hnd. pose proof Hnd as (Hnd1 & Hdisj & Hnd2)%NoDup_app.
  apply NoDup_cons in Hnd2 as [Hname Hnd2].
  destruct (list_find _ (s1 ++ (name, i) :: s2)) as [[k e]|] eqn:Ef.
  - injection E as <- <-. apply list_find_Some in Ef as (Hk & He & Hfirst).
    rewrite delete_take_drop.
    destruct (decide (n = name)) as [->|Hne].
    + assert (Hk' : k = length s1).
      { destruct (Nat.lt_trichotomy k (length s1)) as [Hlt|[|Hgt]]; [|done|].
        - rewrite lookup_app_l in Hk by done. exfalso. apply (Hdisj name).
          + apply list_elem_of_fmap. exists e. split; [done|]. by eapply list_elem_of_lookup_2.
          + by left.
        - exfalso. apply (Hfirst (length s1) (name, i)); [by apply list_lookup_middle|done|done]. }
      subst k. rewrite list_lookup_middle in Hk by done. injection Hk as <-. split; [done|].
      exists []. split; [|by intros x ?%elem_of_nil].
      exists (take (length s1) (s1 ++ (name, i) :: s2) ++ drop (Datatypes.S (length s1)) (s1 ++ (name, i) :: s2)), [].
      split; [done|]. by intros ? ?%elem_of_nil.
    + split; [done|]. exists (n :: T). split; [|intros x [->|Hx]%elem_of_cons; [by apply Hn|by apply HT]].
      destruct (decide (k < length s1)%nat) as [Hlt|Hge].
      * exists (take k s1 ++ drop (Datatypes.S k) s1), (s2 ++ [e]). split.
        -- rewrite take_app_le, drop_app_le by lia. by rewrite <- !app_assoc.
        -- intros x [Hx| ->%list_elem_of_singleton]%elem_of_app; [right; by apply Hs2|rewrite He; by left].
      * assert (k ≠ length s1).
        { intros ->. rewrite list_lookup_middle in Hk by done. injection Hk as <-. by apply Hne. }
        exists s1, (take (k - length s1 - 1) s2 ++ drop (k - length s1) s2 ++ [e]). split.
        -- rewrite take_app_ge, drop_app_ge by lia.
           replace (k - length s1)%nat with (Datatypes.S (k - length s1 - 1)) at 1 by lia.
           replace (Datatypes.S k - length s1)%nat with (Datatypes.S (k - length s1)) by lia.
           cbn [take drop]. by rewrite <- !app_assoc.
        -- intros x [Hx|[Hx| ->%list_elem_of_singleton]%elem_of_app]%elem_of_app; [..|rewrite He; by left];
             right; apply Hs2; [by eapply subseteq_take|by eapply subseteq_drop].
  - assert (Hne : n ≠ name).
    { intros ->. apply list_find_None in Ef. rewrite Forall_forall in Ef.
      apply (Ef (name, i)); [apply elem_of_app; right; by left|done]. }
    split; [done|]. exists (n :: T). split; [|intros x [->|Hx]%elem_of_cons; [by apply Hn|by apply HT]].
    destruct (Z.ltb_spec (Z.of_nat (length (s1 ++ (name, i) :: s2))) max).
    + injection E as <- <-. exists s1, (s2 ++ [(n, Z.of_nat (length (s1 ++ (name, i) :: s2)))]).
      split; [by rewrite <- app_assoc|].
      intros x [Hx| ->%list_elem_of_singleton]%elem_of_app; [right; by apply Hs2|by left].
    + destruct s1 as [|[m u] s1]; simpl in E; injection E as <- <-.
      * exfalso. assert (Hl : Z.of_nat (length (n :: map fst s2)) < max).
        { apply Hall.
          - apply NoDup_cons. split; [|done]. intros (e & -> & He)%list_elem_of_fmap.
            apply list_find_None in Ef. rewrite Forall_forall in Ef. apply (Ef e); [by right|done].
          - intros x [->|(e & -> & He)%list_elem_of_fmap]%elem_of_cons; [by apply Hn|by apply HT, Hs2]. }
        simpl in *. rewrite length_map in Hl. lia.
      * exists s1, (s2 ++ [(n, u)]). split; [by rewrite <- app_assoc|].
        intros x [Hx| ->%list_elem_of_singleton]%elem_of_app; [right; by apply Hs2|by left].
Qed.
End kept.

(** names asked one after the other *)
Fixpoint ask_all (alloc : HevMappedDNS → option nat) (d : HevMappedDNS) (names : list mem) : res HevMappedDNS :=
  match names with
  | [] => Ok d
  | n :: names => '(d, _) ← hev_mapped_dns_find alloc d n; ask_all alloc d names
  end.

Lemma entries_nodup d l : md_ok d l → NoDup (map fst (entries d l)).
Proof.
  intros H. unfold entries. rewrite map_map. simpl.
  assert (Hinj : ∀ x y, x ∈ l → y ∈ l → nm d x = nm d y → x = y) by (intros x y; by apply md_name_inj).
  pose proof (md_nodup _ _ H) as Hnd. clear H. induction Hnd as [|x l Hx Hnd IH]; [constructor|]. simpl.
  constructor.
  - intros (y & E & Hy)%list_elem_of_fmap. apply Hx.
    rewrite (Hinj x y); [done|by left|by right|done].
  - apply IH. intros y z Hy Hz. apply Hinj; by right.
Qed.

Lemma lru_find_last max s n s' i : 0 < max → lru_find max s n = (s', i) → ∃ s0, s' = s0 ++ [(n, i)].
Proof.
  intros Hm. unfold lru_find. destruct (list_find _ s) as [[k [m j]]|] eqn:E.
  - intros [= <- <-]. apply list_find_Some in E as (_ & E & _). simpl in E. subst m. by eexists.
  - destruct (Z.ltb_spec (Z.of_nat (length s)) max); [intros [= <- <-]; by eexists|].
    destruct s as [|[m j] s]; [simpl in *; lia|]. intros [= <- <-]. by eexists.
Qed.

Section ask.
Context (alloc : HevMappedDNS → option nat) (Hfresh : fresh_alloc alloc).

Lemma ask_all_kept name i (all : list mem) names : ∀ d l T,
  md_ok d l → Forall c_name names → behind (entries d l) name i T → T ⊆ all →
  (∀ n, n ∈ names → n ≠ name → n ∈ all) → (∀ L, NoDup L → L ⊆ all → Z.of_nat (length L) < md_max d) →
  ∃ d' l' T', ask_all alloc d names = Ok d' ∧ md_ok d' l' ∧ same_net d d' ∧ behind (entries d' l') name i T'.
Proof.
  induction names as [|n names IH]; intros d l T H Hc Hb HT Hin Hall.
  { exists d, l, T. done. }
  inversion Hc as [|?? Hn Hns]; subst. cbn [ask_all].
  assert (Hin' : ∀ n, n ∈ names → n ≠ name → n ∈ all) by (intros m Hm; apply Hin; by right).
  destruct (find_cases alloc Hfresh d l n H Hn) as [(d1 & l1 & j & E & H1 & (Hs1 & Hs2 & Hs3) & _ & Ef)|(_ & E & _)];
    rewrite E, bind_Ok.
  - destruct (behind_find _ _ name i T n _ _ all Ef (entries_nodup _ _ H) Hb) as (_ & T' & Hb' & HT'); try done.
    { intros Hne. apply Hin; [by left|done]. }
    destruct (IH d1 l1 T' H1 Hns Hb' HT' Hin') as (d2 & l2 & T2 & E2 & H2 & (?&?&?) & Hb2); [by rewrite Hs3|].
    exists d2, l2, T2. split; [done|]. split; [done|]. split; [|done]. split; [congruence|]. split; congruence.
  - by apply (IH d l T).
Qed.

Lemma lookup_behind d l name i T k :
  md_ok d l → behind (entries d l) name i T → 0 <= k → md_mask d = - 2 ^ k →
  Z.land (md_net d) (md_mask d) = md_net d →
  ∃ d', hev_mapped_dns_lookup d (Z.lor (md_net d) i) = Ok (d', Some name).
Proof.
  intros H (s1 & s2 & Es & _) Hk Hmask Hnet.
  assert (Hin : (name, i) ∈ entries d l) by (rewrite Es; apply elem_of_app; right; by left).
  apply list_elem_of_fmap in Hin as (x & [= -> ->] & Hx).
  pose proof (mo_idx _ _ H x Hx) as Hi. pose proof (mo_max _ _ H) as Hm. pose proof (mo_mask _ _ H) as Hmm.
  assert (Eo : md_mask d = Z.lnot (Z.ones k)) by (rewrite Hmask, Z.ones_equiv; unfold Z.lnot; lia).
  assert (Hlow : 0 <= ix d x < 2 ^ k).
  { rewrite Hmask in Hmm. unfold Z.lnot in Hmm. lia. }
  assert (Hlm : Z.land (ix d x) (md_mask d) = 0).
  { rewrite Eo, <- Z.ldiff_land. destruct (decide (ix d x = 0)) as [->|]; [by rewrite Z.ldiff_0_l|].
    apply Z.ldiff_ones_r_low; [lia|]. apply Z.log2_lt_pow2; lia. }
  assert (Hln : Z.land (md_net d) (Z.lnot (md_mask d)) = 0).
  { rewrite <- Hnet, <- Z.land_assoc, Z.land_lnot_diag. by rewrite Z.land_0_r. }
  assert (Hli : Z.land (ix d x) (Z.lnot (md_mask d)) = ix d x).
  { rewrite Eo, Z.lnot_involutive, Z.land_ones by done. by apply Z.mod_small. }
  destruct (lookup_cases d l (Z.lor (md_net d) (ix d x)) H) as (d' & l' & r & E & _ & _ & Er).
  exists d'. rewrite E. do 2 f_equal.
  rewrite Z.land_lor_distr_l, Hnet, Hlm, Z.lor_0_r, Z.eqb_refl in Er.
  rewrite Z.land_lor_distr_l, Hln, Hli, Z.lor_0_l in Er.
  unfold lru_lookup in Er. destruct (list_find _ _) as [[j e]|] eqn:Ef.
  - injection Er as _ ->. apply list_find_Some in Ef as (Hj & He & _).
    apply list_elem_of_lookup_2, list_elem_of_fmap in Hj as (y & -> & Hy). simpl in *.
    by rewrite (md_idx_inj d l y x H Hy Hx He).
  - exfalso. clear Er. apply list_find_None in Ef. rewrite Forall_forall in Ef.
    apply (Ef (nm d x, ix d x)); [|done]. apply list_elem_of_fmap. by exists x.
Qed.
End ask.

(** Once a name has got its address, the address names it, and goes on
    naming it until as many different other names have been asked for as the
    cache has room: for a network with contiguous mask and no host bits. *)
Theorem address_kept (alloc : HevMappedDNS → option nat) (d d1 : HevMappedDNS) (l : list nat)
    (name : mem) (others : list mem) (idx k : Z) :
  fresh_alloc alloc → md_ok d l → c_name name → Forall c_name others →
  0 <= k → md_mask d = - 2 ^ k → Z.land (md_net d) (md_mask d) = md_net d →
  hev_mapped_dns_find alloc d name = Ok (d1, idx) → 0 <= idx →
  Z.of_nat (length (remove_dups (filter (λ n, n ≠ name) others))) < md_max d →
  ∃ d2 d3, ask_all alloc d1 others = Ok d2
    ∧ hev_mapped_dns_lookup d2 (Z.lor (md_net d) idx) = Ok (d3, Some name).
Proof.
  intros Hf H Hn Ho Hk Hmask Hnet E Hidx Hfew.
  destruct (find_cases alloc Hf d l name H Hn) as [(d' & l1 & j & E' & H1 & (Hs1 & Hs2 & Hs3) & _ & Ef)|(_ & E' & _)];
    rewrite E in E'; injection E' as -> ->; [|lia].
  destruct (lru_find_last _ _ _ _ _ (proj1 (mo_max _ _ H)) Ef) as [s0 Es].
  destruct (ask_all_kept alloc Hf name j (filter (λ n, n ≠ name) others) others d' l1 [] H1 Ho)
    as (d2 & l2 & T2 & E2 & H2 & (Hm1 & Hm2 & Hm3) & Hb2).
  - exists s0, []. split; [done|]. by intros ? ?%elem_of_nil.
  - by intros ? ?%elem_of_nil.
  - intros n Hin Hne. apply list_elem_of_filter. done.
  - intros L HL Hsub. rewrite Hs3. eapply Z.le_lt_trans; [|exact Hfew]. apply inj_le.
    apply submseteq_length, NoDup_submseteq; [done|]. intros x Hx. apply elem_of_remove_dups. by apply Hsub.
  - destruct (lookup_behind d2 l2 name j T2 k H2 Hb2 Hk) as [d3 E3]; [congruence|congruence|].
    exists d2, d3. split; [done|]. by rewrite <- Hs1, <- Hm1.
Qed.

(** ** The end *)

Lemma destruct_loop suf : ∀ d fuel p,
  seg (hl_nodes (md_list d)) p suf None → NoDup suf → (∀ x, is_Some (md_heap d !! x) ↔ x ∈ suf) →
  (length suf < fuel)%nat →
  ∃ d', loop fuel destruct_step (d, first suf None) = Ok d' ∧ md_heap d' = ∅.
Proof.
  induction suf as [|x suf IH]; intros d fuel p Hs Hnd Hh Hf; (destruct fuel as [|fuel]; [simpl in Hf; lia|]);
    rewrite loop_S.
  { exists d. split; [done|]. apply map_empty. intros x. destruct (md_heap d !! x) eqn:E; [|done].
    exfalso. apply (elem_of_nil x), Hh. by eexists. }
  destruct Hs as [Hx Hs]. apply NoDup_cons in Hnd as [Hnx Hnd].
  destruct (proj2 (Hh x)) as [n Hn]; [by left|]. cbn [first]. unfold destruct_step at 1.
  unfold hev_list_node_next, node_get. rewrite Hx. do 2 bstep. unfold get_node. rewrite Hn. do 2 bstep.
  apply (IH (hev_mapped_dns_node_free d x) fuel (Some x)); [|done| |simpl in Hf; lia].
  - eapply seg_frame; [|exact Hs]. intros y Hy. simpl. rewrite lookup_delete_ne; [done|]. by intros ->.
  - intros y. simpl. destruct (decide (y = x)) as [->|Hne].
    + rewrite lookup_delete_eq. split; [by intros [? ?]|done].
    + rewrite lookup_delete_ne, Hh by done. rewrite elem_of_cons. tauto.
Qed.

Lemma md_size d l : md_ok d l → size (md_heap d) = length l.
Proof.
  intros H. assert (E : dom (md_heap d) = list_to_set l).
  { apply set_eq. intros x. rewrite elem_of_dom, elem_of_list_to_set. apply (mo_heap _ _ H). }
  rewrite <- size_dom, E. apply size_list_to_set, (md_nodup _ _ H).
Qed.

(** Taking the cache down frees every node once, reads no freed node and
    leaves none behind. *)
Theorem destruct_frees_all (d : HevMappedDNS) (l : list nat) :
  md_ok d l → ∃ d', hev_mapped_dns_destruct d = Ok d' ∧ md_heap d' = ∅.
Proof.
  intros H. unfold hev_mapped_dns_destruct, hev_list_first. rewrite (dll_head _ _ (mo_list _ _ H)).
  apply (destruct_loop l d _ None); [apply (mo_list _ _ H)|apply (md_nodup _ _ H)|apply (mo_heap _ _ H)|].
  rewrite (md_size d l H). lia.
Qed.

(** ** Examples: a cache of two names in 198.18.0.0/22 *)

(** the heap's next address *)
Definition next_node (d : HevMappedDNS) : option nat :=
  Some (Datatypes.S (foldr Nat.max 0%nat (map fst (map_to_list (md_heap d))))).

Lemma next_node_fresh : fresh_alloc next_node.
Proof.
  intros d a [= <-]. destruct (md_heap d !! _) as [n|] eqn:E; [|done]. exfalso.
  apply elem_of_map_to_list in E. revert E. generalize (map_to_list (md_heap d)). intros l Hin.
  assert (H : ∀ m, foldr Nat.max 0%nat (map fst l) = m → ∀ k v, (k, v) ∈ l → (k <= m)%nat).
  { clear. induction l as [|[k v] l IH]; intros m Hm k' v'; [by intros ?%elem_of_nil|]. simpl in Hm.
    intros [[= -> ->]|Hin]%elem_of_cons; [lia|]. specialize (IH _ eq_refl k' v' Hin). lia. }
  specialize (H _ eq_refl _ _ Hin). lia.
Qed.

Definition net_198_18 : Z := 0xC6120000 - 2 ^ 32.
Definition two_names : HevMappedDNS :=
  MappedDNS 0 2 net_198_18 (- 2 ^ 10) (MkHevList None None ∅) Null [None; None] ∅.
Definition some_requests : list request :=
  [Find (bytes_of "a"); Find (bytes_of "b"); Find (bytes_of "a"); Find (bytes_of "c");
   Lookup (net_198_18 + 1); Lookup (net_198_18 + 2); Lookup 7].

Lemma mapped_dns_refines_lru_witness :
  ∃ d' l out, dns_run next_node two_names some_requests = Ok (d', out) ∧ md_ok d' l
    ∧ lru_run net_198_18 (- 2 ^ 10) 2 [] some_requests = (entries d' l, out).
Proof.
  apply (mapped_dns_refines_lru next_node net_198_18 (- 2 ^ 10) 2 two_names some_requests).
  - apply next_node_fresh.
  - intros d. by eexists.
  - reflexivity.
  - lia.
  - repeat constructor; discriminate.
Defined.

(** the third name takes the second one's index *)
Example two_names_run : ∃ d', dns_run next_node two_names some_requests =
  Ok (d', [Index 0; Index 1; Index 0; Index 1; Name (Some (bytes_of "c")); Name None; Name None]).
Proof. by eexists; vm_compute. Qed.

Lemma address_kept_witness :
  ∃ d1, hev_mapped_dns_find next_node two_names (bytes_of "a") = Ok (d1, 0) ∧
  ∃ d2 d3, ask_all next_node d1 [bytes_of "b"; bytes_of "a"; bytes_of "b"] = Ok d2
    ∧ hev_mapped_dns_lookup d2 (Z.lor net_198_18 0) = Ok (d3, Some (bytes_of "a")).
Proof.
  eexists. split; [vm_compute; reflexivity|].
  apply (address_kept next_node two_names _ [] (bytes_of "a") [bytes_of "b"; bytes_of "a"; bytes_of "b"] 0 10).
  - apply next_node_fresh.
  - apply (md_new net_198_18 (- 2 ^ 10) 2); [reflexivity|lia].
  - repeat constructor; discriminate.
  - repeat constructor; discriminate.
  - lia.
  - reflexivity.
  - reflexivity.
  - vm_compute; reflexivity.
  - lia.
  - vm_compute; reflexivity.
Defined.

Lemma destruct_frees_all_witness :
  ∃ d1 i d', hev_mapped_dns_find next_node two_names (bytes_of "a") = Ok (d1, i)
    ∧ hev_mapped_dns_destruct d1 = Ok d' ∧ md_heap d' = ∅.
Proof.
  destruct (find_cases next_node next_node_fresh two_names [] (bytes_of "a")) as [(d1 & l & i & E & H & _)|(Ha & _)].
  - apply (md_new net_198_18 (- 2 ^ 10) 2); [reflexivity|lia].
  - repeat constructor; discriminate.
  - exists d1, i. destruct (destruct_frees_all d1 l H) as (d' & E1 & E2). exists d'. done.
  - discriminate.
Defined.
