(* ===== verification/HevDnsPacket.v ===== *)
(** * hev-socks5-tunnel: answering a DNS query

    [hev_mapped_dns_handle] stays inside both packets, whatever the query
    holds, and keeps the cache in order ([handle_safe]); a query for the
    address of one name is answered with the name's address
    ([handle_answers]). *)

From Stdlib Require Import ZArith Lia Bool List.
From Stdlib Require Import Strings.Byte Strings.String.
From stdpp Require Import base tactics list numbers option gmap.
From S2P Require Import Prelude CMem HevList HevRbtree HevRbtreeSpec HevMappedDns HevMappedDnsSpec.

(** ** Accesses *)

Lemma wp_write_u16 m p v (Q : mem → Prop) :
  0 <= p → p + 2 <= len m → (∀ m', len m' = len m → Q m') → wp (write_u16 m p v) Q.
Proof.
  intros Hp Hl HQ. unfold write_u16. wp_step. apply wp_wr; [lia|]. apply wp_wr; rewrite ?len_insert; [lia|].
  apply HQ. by rewrite !len_insert.
Qed.
Lemma wp_write_u32 m p v (Q : mem → Prop) :
  0 <= p → p + 4 <= len m → (∀ m', len m' = len m → Q m') → wp (write_u32 m p v) Q.
Proof.
  intros Hp Hl HQ. unfold write_u32. do 3 (wp_step; apply wp_wr; rewrite ?len_insert; [lia|]).
  apply wp_wr; rewrite ?len_insert; [lia|]. apply HQ. by rewrite !len_insert.
Qed.
Lemma wp_ntohs_at m p (Q : mem → Prop) :
  0 <= p → p + 2 <= len m → (∀ m', len m' = len m → Q m') → wp (ntohs_at m p) Q.
Proof.
  intros Hp Hl HQ. unfold ntohs_at. wp_step. apply wp_rd; [lia|]. intros a _. wp_step. apply wp_rd; [lia|].
  intros b _. wp_step. apply wp_wr; [lia|]. apply wp_wr; rewrite ?len_insert; [lia|]. apply HQ. by rewrite !len_insert.
Qed.
Lemma wp_read_u16 m p (Q : Z → Prop) :
  0 <= p → p + 2 <= len m →
  (∀ a b, rd m p = Ok a → rd m (p + 1) = Ok b → Q (Z.lor (Z.shiftl (zb a) 8) (zb b))) → wp (read_u16 m p) Q.
Proof.
  intros Hp Hl HQ. unfold read_u16. wp_step. apply wp_rd; [lia|]. intros a Ha. wp_step. apply wp_rd; [lia|].
  intros b Hb. by apply wp_ok, HQ.
Qed.

(** a string that ends inside the memory *)
Lemma wp_c_string m p z c (Q : mem → Prop) :
  0 <= p <= z → rd m z = Ok c → zb c = 0 → (∀ s, c_name s → Q s) → wp (c_string m p) Q.
Proof.
  intros Hp Hz Hc HQ. unfold c_string.
  assert (Hzl : z < len m) by (apply rd_ok in Hz as [_ Hz]; apply lookup_lt_Some in Hz; unfold len; lia).
  wp_step. apply (wp_loop (λ st, c_name st.1 ∧ 0 <= st.2 <= z) (λ st, z - st.2)).
  - intros [s q] [_ H]. simpl in *. lia.
  - intros [s q] [Hs Hq]. simpl in Hs, Hq. wp_step. apply wp_rd; [lia|]. intros b Hb.
    destruct (Z.eqb_spec (zb b) 0) as [E|E]; simpl; [by apply wp_ok, HQ|].
    assert (q ≠ z) by (intros ->; congruence).
    split; [|lia]. split; [|lia]. apply Forall_app. by repeat constructor.
  - simpl. split; [constructor|done].
  - simpl. unfold len in *. lia.
Qed.

(** ** Any query *)

Section handle.
Context (alloc : HevMappedDNS → option nat) (Hfresh : fresh_alloc alloc).
Variables (d0 : HevMappedDNS).

(** the cache is in order *)
Definition cache_ok (d : HevMappedDNS) : Prop := same_net d0 d ∧ ∃ l, md_ok d l.

Lemma cache_find d name : cache_ok d → c_name name → wp (hev_mapped_dns_find alloc d name) (λ r, cache_ok r.1).
Proof.
  intros [Hs [l H]] Hn.
  destruct (find_cases alloc Hfresh d l name H Hn) as [(d' & l' & j & E & H' & Hs' & _)|(_ & E & _)]; rewrite E; simpl.
  - split; [|by exists l']. destruct Hs as (?&?&?), Hs' as (?&?&?). split; [congruence|]. split; congruence.
  - split; [done|by exists l].
Qed.

Lemma wp_labels qlen rb off :
  0 <= off < qlen → qlen <= len rb →
  wp (loop (Datatypes.S (length rb)) (label_step qlen) (rb, off)) (λ r, ∀ rb' off', r = Some (rb', off') →
    len rb' = len rb ∧ off <= off' < qlen ∧ ∃ c, rd rb' off' = Ok c ∧ zb c = 0).
Proof.
  intros Ho Hq.
  apply (wp_loop (λ '(rb', off'), len rb' = len rb ∧ off <= off' < qlen) (λ '(rb', off'), qlen - off')).
  - intros [rb' off'] [_ H]. lia.
  - intros [rb' off'] [Hl H]. unfold label_step. wp_step. apply wp_rd; [lia|]. intros c Hc.
    pose proof (zb_range c). destruct (Z.eqb_spec (zb c) 0).
    { simpl. intros ? ? [= <- <-]. split; [done|]. split; [lia|by exists c]. }
    cbv zeta. destruct (Z.leb_spec qlen (off' + (1 + zb c))); [by simpl|].
    wp_step. apply wp_wr; [lia|]. simpl. rewrite len_insert. lia.
  - split; [done|lia].
  - unfold len in *. lia.
Qed.

Lemma wp_question d qlen rb off :
  cache_ok d → 0 <= off → qlen <= len rb →
  wp (question alloc d qlen rb off) (λ '(d', r), cache_ok d' ∧ ∀ rb' off' ips, r = Some (rb', off', ips) →
    len rb' = len rb ∧ off < off' <= qlen ∧ (length ips <= 1)%nat).
Proof.
  intros Hd Ho Hq. unfold question. destruct (Z.leb_spec qlen off); [by simpl|].
  wp_step. eapply wp_mono; [apply wp_labels; lia|]. intros [[rb1 off1]|] Hr; [|by simpl].
  destruct (Hr _ _ eq_refl) as (Hl1 & Ho1 & c0 & Hc0 & Ez). cbv iota zeta.
  destruct (Z.leb_spec qlen (off1 + 1 + 3)); [by simpl|].
  wp_step. apply wp_read_u16; [lia|lia|]. intros a b Ha Hb. set (t := Z.lor _ _).
  wp_step. apply (wp_mono _ (λ _, True)).
  { destruct (t =? 1); [|done]. apply wp_read_u16; [lia|lia|done]. }
  intros cl _. destruct (Z.eqb_spec t 1) as [Et|]; cbn [andb]; [destruct (cl =? 1)|]; cycle 1.
  1,2: simpl; split; [done|]; intros ? ? ? [= <- <- <-]; simpl; lia.
  wp_step. destruct (decide (off1 = off)) as [->|Hne].
  - (* the root's name: the first byte of the type ends it *)
    assert (Ea : zb a = 0).
    { unfold t in Et. pose proof (zb_range a). pose proof (zb_range b). rewrite lor_shift_add in Et by lia. lia. }
    eapply (wp_c_string _ _ (off + 1) a); [lia|done|done|]. intros name Hn.
    wp_step. eapply wp_mono; [by apply cache_find|]. intros [d2 idx] Hd2. simpl. split; [done|].
    intros ? ? ? [= <- <- <-]. split; [done|]. split; [lia|]. by destruct (0 <=? idx); simpl; lia.
  - eapply (wp_c_string _ _ off1 c0); [lia|done|done|]. intros name Hn.
    wp_step. eapply wp_mono; [by apply cache_find|]. intros [d2 idx] Hd2. simpl. split; [done|].
    intros ? ? ? [= <- <- <-]. split; [done|]. split; [lia|]. by destruct (0 <=? idx); simpl; lia.
Qed.

Lemma wp_questions n : ∀ d qlen rb off,
  cache_ok d → 0 <= off <= qlen → qlen <= len rb →
  wp (questions alloc n d qlen rb off) (λ '(d', r), cache_ok d' ∧ ∀ rb' off' ips, r = Some (rb', off', ips) →
    off <= off' <= qlen ∧ (length ips <= n)%nat).
Proof.
  induction n as [|n IH]; intros d qlen rb off Hd Ho Hq; cbn [questions].
  { simpl. split; [done|]. intros ? ? ? [= <- <- <-]. simpl. lia. }
  wp_step. eapply wp_mono; [apply wp_question; [done|lia|done]|].
  intros [d1 [[[rb1 off1] ips]|]] [Hd1 Hr]; [|by simpl]. destruct (Hr _ _ _ eq_refl) as (Hl & Ho1 & Hi).
  cbv iota. wp_step. eapply wp_mono; [apply IH; [done|lia|lia]|].
  intros [d2 [[[rb2 off2] ips2]|]] [Hd2 Hr2]; simpl; (split; [done|]); [|done].
  intros ? ? ? [= <- <- <-]. destruct (Hr2 _ _ _ eq_refl) as [Ho2 Hi2]. rewrite length_app. lia.
Qed.

Lemma wp_answers slen ips : ∀ sb off,
  0 <= off → slen <= len sb →
  wp (answers slen sb off ips) (λ r, ∀ sb' off', r = Some (sb', off') →
    len sb' = len sb ∧ off' = off + 16 * Z.of_nat (length ips) ∧ (ips ≠ [] → off' <= slen)).
Proof.
  induction ips as [|[ipo ip] ips IH]; intros sb off Ho Hl; cbn [answers].
  { simpl. intros ? ? [= <- <-]. split; [done|]. split; [lia|done]. }
  destruct (Z.leb_spec slen (off + 15)); [by simpl|].
  do 3 (wp_step; apply wp_write_u16; [lia|lia|intros ? ?]). wp_step. apply wp_write_u32; [lia|lia|intros ? ?].
  wp_step. apply wp_write_u16; [lia|lia|intros ? ?]. wp_step. apply wp_write_u32; [lia|lia|intros ? ?].
  eapply wp_mono; [apply IH; lia|]. intros r Hr sb' off' E. destruct (Hr _ _ E) as (Hr1 & Hr2 & Hr3).
  split; [congruence|]. split; [cbn [length]; lia|]. intros _. destruct ips; [simpl in Hr2; lia|by apply Hr3].
Qed.
End handle.

(** C39: for every query, every cache in order and every heap, answering ends,
    stays inside the query and the response, and leaves the cache in order;
    an answer fits the response. *)
Theorem handle_safe (alloc : HevMappedDNS → option nat) (d : HevMappedDNS) (l : list nat)
    (req resp : mem) (qlen slen : Z) :
  fresh_alloc alloc → md_ok d l → 0 <= qlen < 2 ^ 31 → qlen <= len req → slen <= len resp →
  wp (hev_mapped_dns_handle alloc d req qlen resp slen) (λ '(d', n, resp'),
    same_net d d' ∧ (∃ l', md_ok d' l') ∧ len resp' = len resp ∧ (n = -1 ∨ DNS_HDR <= n <= slen)).
Proof.
  intros Hf H Hq Hlq Hls. unfold hev_mapped_dns_handle, DNS_HDR.
  assert (Hd : cache_ok d d) by (split; [done|by exists l]).
  destruct (Z.ltb_spec slen qlen); [simpl; split; [done|]; split; [by exists l|auto]|]. ints.
  destruct (Z.ltb_spec qlen 12); [simpl; split; [done|]; split; [by exists l|auto]|].
  wp_step. apply wp_memcpy; [lia..|]. set (sb := splice resp 0 _).
  assert (Hsb : len sb = len resp) by (unfold sb; apply len_splice; rewrite ?len_slice; lia).
  wp_step. apply wp_read_u16; [lia|lia|]. intros a b _ _. set (qd := Z.lor _ _).
  wp_step. apply wp_ntohs_at; [lia|lia|]. intros rb Hrb.
  wp_step. apply wp_read_u16; [lia|lia|]. intros a2 b2 _ _. set (fl := Z.lor _ _).
  wp_step. apply wp_ntohs_at; [lia|lia|]. intros sb1 Hsb1.
  wp_step. apply wp_memset; [lia..|]. set (sb2 := splice sb1 6 _).
  assert (Hsb2 : len sb2 = len resp).
  { unfold sb2. rewrite len_splice; [congruence|lia|]. unfold len at 1. rewrite repeat_length. lia. }
  destruct (32 <? qd); [simpl; split; [done|]; split; [by exists l|auto]|].
  wp_step. eapply wp_mono; [apply (wp_questions alloc Hf d _ d _ _ 12 Hd); lia|].
  intros [d' [[[rb' off] ips]|]] [[Hn Hd'] Hr]; [|by simpl; auto]. destruct (Hr _ _ _ eq_refl) as [Ho Hi].
  cbv iota. wp_step. eapply wp_mono; [apply (wp_answers slen ips sb2 off); lia|].
  intros [[sb3 off3]|] Ha; [|by simpl; auto]. destruct (Ha _ _ eq_refl) as (Hs3 & Ho3 & Hfit). cbv iota.
  wp_step. apply wp_write_u16; [lia|lia|]. intros sb4 Hsb4. wp_step. apply wp_write_u16; [lia|lia|]. intros sb5 Hsb5.
  simpl. split; [done|]. split; [done|]. split; [congruence|]. right.
  destruct ips; [simpl in Ho3; lia|]. specialize (Hfit ltac:(done)). lia.
Qed.

(** ** A question for one name *)

(** a name on the wire: its labels, each behind its length *)
Definition enc_label (l : mem) : mem := bz (len l) :: l.
Definition enc_name (ls : list mem) : mem := concat (map enc_label ls) ++ [x00].
(** the same bytes once the lengths are dots *)
Definition dots (ls : list mem) : mem := concat (map (λ l, x2e :: l) ls).
(** the name asked for: [a.b.c] *)
Definition dotted (ls : list mem) : mem := drop 1 (dots ls).

Definition u16_bytes (v : Z) : mem := [bz (Z.shiftr v 8); bz v].
Definition u32_bytes (v : Z) : mem := [bz (Z.shiftr v 24); bz (Z.shiftr v 16); bz (Z.shiftr v 8); bz v].
(** type A, class IN *)
Definition A_IN : mem := [x00; x01; x00; x01].
(** the answer: the name's place, A, IN, a second to live, four bytes *)
Definition a_record (ip : Z) : mem := [xc0; x0c] ++ A_IN ++ [x00; x00; x00; x01; x00; x04] ++ u32_bytes ip.

Definition wf_label (l : mem) : Prop := 0 < len l < 256 ∧ c_name l.

Lemma zb_len l : wf_label l → zb (bz (len l)) = len l.
Proof. intros [? _]. apply zb_bz_small. lia. Qed.
Lemma dots_cons l ls : dots (l :: ls) = x2e :: l ++ dots ls.
Proof. done. Qed.
Lemma enc_name_cons l ls : enc_name (l :: ls) = bz (len l) :: l ++ enc_name ls.
Proof. unfold enc_name. simpl. by lists. Qed.
Lemma len_enc_name ls : len (enc_name ls) = len (dots ls) + 1.
Proof.
  induction ls as [|l ls IH]; [done|]. rewrite enc_name_cons, dots_cons, !len_cons, !len_app. lia.
Qed.
Lemma c_name_dots ls : Forall wf_label ls → c_name (dots ls).
Proof.
  induction 1 as [|l ls [_ Hl] _ IH]; [constructor|]. rewrite dots_cons. constructor; [done|].
  apply Forall_app. done.
Qed.

Lemma labels_enc qlen ls : ∀ p q fuel,
  Forall wf_label ls → len p + len (dots ls) < qlen → (length ls < fuel)%nat →
  loop fuel (label_step qlen) (p ++ enc_name ls ++ q, len p)
    = Ok (Some (p ++ dots ls ++ x00 :: q, len p + len (dots ls))).
Proof.
  induction ls as [|l ls IH]; intros p q fuel Hw Hq Hf; (destruct fuel as [|fuel]; [simpl in Hf; lia|]).
  { rewrite loop_S. unfold label_step. rewrite (rd_head _ p q x00) by done. bstep. simpl. by rewrite Z.add_0_r. }
  inversion Hw as [|?? Hl Hls]; subst. rewrite dots_cons, len_cons, len_app in *.
  rewrite loop_S. unfold label_step. rewrite enc_name_cons. cbn [app].
  rewrite (rd_head _ p ((l ++ enc_name ls) ++ q) (bz (len l))) by done. bstep. rewrite zb_len by done.
  pose proof (len_nonneg (dots ls)). pose proof (proj1 Hl).
  rewrite (proj2 (Z.eqb_neq _ _)), (proj2 (Z.leb_gt _ _)) by lia.
  rewrite wr_app by done. do 2 bstep. change (bz 46) with x2e.
  replace (p ++ x2e :: (l ++ enc_name ls) ++ q) with ((p ++ x2e :: l) ++ enc_name ls ++ q) by by lists.
  assert (Ep : len (p ++ x2e :: l) = len p + (1 + len l)) by (rewrite len_app, len_cons; lia).
  rewrite <- Ep, (IH _ q fuel Hls) by (simpl in Hf; lia). do 2 f_equal. rewrite Ep. f_equal; [by lists|lia].
Qed.

Lemma c_string_at s : ∀ (p q : mem), c_name s → c_string (p ++ s ++ x00 :: q) (len p) = Ok s.
Proof.
  assert (Hl : ∀ s' (t p q : mem) fuel, c_name s' → (length s' < fuel)%nat →
    loop fuel (λ st : mem * Z, let '(s, i) := st in c ← rd (p ++ s' ++ x00 :: q) i;
      Ok (if zb c =? 0 then inr (s, i) else inl (s ++ [c], i + 1))) (t, len p) = Ok (t ++ s', len p + len s')).
  { induction s' as [|c s' IH]; intros t p q fuel Hc Hf; (destruct fuel as [|fuel]; [simpl in Hf; lia|]); rewrite loop_S.
    - rewrite (rd_head _ p q x00) by done. simpl. by rewrite app_nil_r, Z.add_0_r.
    - inversion Hc as [|?? Hz Hc']; subst. rewrite (rd_head _ p (s' ++ x00 :: q) c) by done. do 2 bstep.
      rewrite (proj2 (Z.eqb_neq _ _)) by done. cbn [app].
      replace (p ++ c :: s' ++ x00 :: q) with ((p ++ [c]) ++ s' ++ x00 :: q) by by lists.
      replace (len p + 1) with (len (p ++ [c])) by by rewrite len_app.
      rewrite (IH _ _ _ fuel Hc') by (simpl in Hf; lia). f_equal. f_equal; [by lists|].
      rewrite len_app, !len_cons, len_nil. lia. }
  intros p q Hs. unfold c_string. rewrite Hl; [done|done|]. rewrite !length_app. simpl. lia.
Qed.

(** the writes replace bytes *)
Lemma splice_behind (p m bs : mem) i : 0 <= i → splice (p ++ m) (len p + i) bs = p ++ splice m i bs.
Proof.
  intros Hi. unfold splice. rewrite Z2Nat.inj_add, to_nat_len by (pose proof (len_nonneg p); lia).
  rewrite take_app_add, <- Nat.add_assoc, drop_app_add. by lists.
Qed.
Lemma wr_splice m i v : 0 <= i < len m → wr m i v = Ok (splice m i [bz v]).
Proof.
  intros Hi. unfold wr. rewrite (proj2 (Z.leb_le _ _)), (proj2 (Z.ltb_lt _ _)) by lia. cbn [andb]. f_equal.
  unfold splice. rewrite insert_take_drop by (unfold len in Hi; lia). cbn [app length]. do 3 f_equal. lia.
Qed.
Lemma splice_splice m i (b1 b2 : mem) : 
  0 <= i → i + len b1 + len b2 <= len m → splice (splice m i b1) (i + len b1) b2 = splice m i (b1 ++ b2).
Proof.
  intros Hi Hl. unfold splice at 2. set (t := take (Z.to_nat i) m).
  assert (Ht : len t = i) by (unfold t, len in *; rewrite length_take; lia).
  assert (E : i + len b1 = len (t ++ b1) + 0) by (rewrite len_app; lia).
  rewrite app_assoc, E, splice_behind by done. unfold splice. simpl. subst t. rewrite drop_drop, !length_app. lists.
  do 4 f_equal. lia.
Qed.
(** writing goes on behind what was written *)
Lemma wr_next m i b v j :
  j = i + len b → 0 <= i → j + 1 <= len m → wr (splice m i b) j v = Ok (splice m i (b ++ [bz v])).
Proof.
  intros -> Hi Hl. pose proof (len_nonneg b). rewrite wr_splice by (rewrite len_splice; lia).
  by rewrite splice_splice by (change (len [_]) with 1; lia).
Qed.
Lemma write_u16_next m i b v j :
  j = i + len b → 0 <= i → j + 2 <= len m → write_u16 (splice m i b) j v = Ok (splice m i (b ++ u16_bytes v)).
Proof.
  intros -> Hi Hl. unfold write_u16. rewrite wr_next by lia. bstep.
  rewrite wr_next; [by rewrite <- app_assoc|rewrite len_app; change (len [_]) with 1; lia|lia|lia].
Qed.
Lemma write_u32_next m i b v j :
  j = i + len b → 0 <= i → j + 4 <= len m → write_u32 (splice m i b) j v = Ok (splice m i (b ++ u32_bytes v)).
Proof.
  intros -> Hi Hl. unfold write_u32. rewrite wr_next by lia. bstep.
  do 3 (rewrite wr_next; [try bstep|rewrite !len_app; change (len [_]) with 1; lia|lia|lia]).
  by rewrite <- !app_assoc.
Qed.
Lemma splice_none m i : 0 <= i → splice m i [] = m.
Proof. intros Hi. unfold splice. cbn [app length]. rewrite Nat.add_0_r. apply take_drop. Qed.

Lemma write_u16_splice m i v : 0 <= i → i + 2 <= len m → write_u16 m i v = Ok (splice m i (u16_bytes v)).
Proof.
  intros Hi Hl. rewrite <- (splice_none m i) at 1 by done. by rewrite write_u16_next by (rewrite ?len_nil; lia).
Qed.

(** sixteen bytes become the answer *)
Lemma answer_one slen sb off ip :
  0 <= off → off + 16 <= slen → slen <= len sb →
  answers slen sb off [(12, ip)] = Ok (Some (splice sb off (a_record ip), off + 16)).
Proof.
  intros Ho Hs Hl. cbn [answers]. rewrite (proj2 (Z.leb_gt _ _)) by lia.
  rewrite <- (splice_none sb off) at 1 by done.
  do 3 (rewrite write_u16_next; [bstep|rewrite ?len_app, len_nil; change (len (u16_bytes _)) with 2; lia|lia|lia]).
  rewrite write_u32_next; [bstep|rewrite ?len_app, len_nil; change (len (u16_bytes _)) with 2; lia|lia|lia].
  rewrite write_u16_next; [bstep|rewrite ?len_app, len_nil; change (len (u16_bytes _)) with 2; change (len (u32_bytes _)) with 4; lia|lia|lia].
  rewrite write_u32_next; [bstep|rewrite ?len_app, len_nil; change (len (u16_bytes _)) with 2; change (len (u32_bytes _)) with 4; lia|lia|lia].
  done.
Qed.

(** a query: the header, one question, whatever follows it *)
Definition query (id : mem) (fl : Z) (cnt : mem) (ls : list mem) (tail : mem) : mem :=
  id ++ u16_bytes fl ++ [x00; x01] ++ cnt ++ enc_name ls ++ A_IN ++ tail.
(** its answer: the flags say so, one record, no other counts, and [rest] as
    the buffer had it *)
Definition reply (id : mem) (fl : Z) (ls : list mem) (ip : Z) (rest : mem) : mem :=
  id ++ u16_bytes (Z.lor (Z.lor fl 0x8000) (Z.shiftr (Z.land fl 0x100) 1)) ++ [x00; x01; x00; x01; x00; x00; x00; x00]
    ++ enc_name ls ++ A_IN ++ a_record ip ++ rest.

Lemma read_u16_at (p q : mem) x y i : i = len p → read_u16 (p ++ x :: y :: q) i = Ok (Z.lor (Z.shiftl (zb x) 8) (zb y)).
Proof.
  intros ->. unfold read_u16. rewrite (rd_head _ p (y :: q) x) by done. bstep.
  rewrite (rd_head _ (p ++ [x]) q y) by (by rewrite <- ?app_assoc || by rewrite len_app). done.
Qed.
Lemma ntohs_at_at (p q : mem) x y i : i = len p → ntohs_at (p ++ x :: y :: q) i = Ok (p ++ y :: x :: q).
Proof.
  intros ->. unfold ntohs_at. rewrite (rd_head _ p (y :: q) x) by done. bstep.
  rewrite (rd_head _ (p ++ [x]) q y) by (by rewrite <- ?app_assoc || by rewrite len_app). bstep.
  rewrite wr_app by done. bstep. rewrite bz_zb.
  replace (p ++ y :: y :: q) with ((p ++ [y]) ++ y :: q) by by lists. rewrite wr_app by by rewrite len_app.
  rewrite bz_zb. by lists.
Qed.
Lemma read_u16_bytes v : 0 <= v < 2 ^ 16 → Z.lor (Z.shiftl (zb (bz (Z.shiftr v 8))) 8) (zb (bz v)) = v.
Proof.
  intros Hv. rewrite lor_shift_add by (pose proof (zb_range (bz v)); lia).
  rewrite !zb_bz, Z.shiftr_div_pow2 by done. unfold u8. change (2 ^ 8) with 256.
  Z.div_mod_to_equations. lia.
Qed.

Lemma splice_end (a b bs : mem) i : i = len a → splice (a ++ b) i bs = a ++ bs ++ drop (length bs) b.
Proof.
  intros ->. rewrite <- (Z.add_0_r (len a)), splice_behind by done. unfold splice. by rewrite Nat.add_0_l.
Qed.
(** what the handler reads and changes in the headers, the answer's counts zeroed *)
Lemma header_read b b0 b1 b2 b3 b4 b5 b6 fl (rest R : mem) :
  0 <= fl < 2 ^ 16 →
  let F1 := bz (Z.shiftr fl 8) in let F0 := bz fl in
  let req := [b; b0; F1; F0; x00; x01; b1; b2; b3; b4; b5; b6] ++ rest in
  read_u16 req 4 = Ok 1
  ∧ ntohs_at req 4 = Ok ([b; b0; F1; F0; x01; x00; b1; b2; b3; b4; b5; b6] ++ rest)
  ∧ read_u16 ([b; b0; F1; F0; x00; x01; b1; b2; b3; b4; b5; b6] ++ rest ++ R) 2 = Ok fl
  ∧ ∃ sb, ntohs_at ([b; b0; F1; F0; x00; x01; b1; b2; b3; b4; b5; b6] ++ rest ++ R) 2 = Ok sb
    ∧ memset sb 6 0 6 = Ok ([b; b0; F0; F1; x00; x01; x00; x00; x00; x00; x00; x00] ++ rest ++ R).
Proof.
  intros Hfl F1 F0 req. split; [by apply (read_u16_at [b; b0; F1; F0])|].
  split; [by apply (ntohs_at_at [b; b0; F1; F0])|]. split.
  { rewrite <- (read_u16_bytes fl) by done. by apply (read_u16_at [b; b0]). }
  eexists. split; [by apply (ntohs_at_at [b; b0])|]. rewrite memset_ok; [done..|].

    pose proof (len_nonneg (rest ++ R)). cbn [app]. rewrite !len_cons. lia.
Qed.
Lemma dots_dotted ls : ls ≠ [] → dots ls = x2e :: dotted ls.
Proof. by destruct ls. Qed.

Section answer.
Context (alloc : HevMappedDNS → option nat).

Lemma question_a d d' ls (p tail : mem) idx qlen :
  ls ≠ [] → Forall wf_label ls → qlen = len p + len (enc_name ls) + 4 + len tail →
  hev_mapped_dns_find alloc d (dotted ls) = Ok (d', idx) → 0 <= idx →
  question alloc d qlen (p ++ enc_name ls ++ A_IN ++ tail) (len p)
    = Ok (d', Some (p ++ dots ls ++ x00 :: A_IN ++ tail, len p + len (enc_name ls) + 4, [(len p, Z.lor (md_net d') idx)])).
Proof.
  intros Hne Hw -> Hf Hi. unfold question. rewrite !len_enc_name. pose proof (len_nonneg (dots ls)). pose proof (len_nonneg tail).
  rewrite (proj2 (Z.leb_gt _ _)) by lia. rewrite labels_enc; [|done|lia|].
  2:{ rewrite !length_app. apply PeanoNat.Nat.lt_succ_r.
      assert (length ls <= length (enc_name ls))%nat; [|lia]. clear. induction ls as [|l ls IH]; [simpl; lia|].
      rewrite enc_name_cons. cbn [length]. rewrite length_app. lia. }
  bstep. rewrite (proj2 (Z.leb_gt _ _)) by lia.
  replace (p ++ dots ls ++ x00 :: A_IN ++ tail) with ((p ++ dots ls ++ [x00]) ++ x00 :: x01 :: x00 :: x01 :: tail) by by lists.
  rewrite (read_u16_at _ (x00 :: x01 :: tail)) by (rewrite !len_app; change (len [x00]) with 1; lia). bstep.
  replace ((p ++ dots ls ++ [x00]) ++ x00 :: x01 :: x00 :: x01 :: tail)
    with ((p ++ dots ls ++ [x00; x00; x01]) ++ x00 :: x01 :: tail) by by lists.
  simpl (Z.lor _ _ =? 1). cbv iota.
  rewrite (read_u16_at _ tail) by (rewrite !len_app; change (len [x00; x00; x01]) with 3; lia). bstep.
  simpl (Z.lor _ _ =? 1). cbn [andb].
  replace ((p ++ dots ls ++ [x00; x00; x01]) ++ x00 :: x01 :: tail)
    with ((p ++ [x2e]) ++ dotted ls ++ x00 :: A_IN ++ tail).
  2:{ rewrite (dots_dotted ls) by done. by lists. }
  replace (len p + 1) with (len (p ++ [x2e])) by by rewrite len_app.
  rewrite c_string_at.
  2:{ unfold dotted. apply Forall_drop. by apply c_name_dots. }
  bstep. rewrite Hf. bstep. rewrite (proj2 (Z.leb_le _ _)) by done. do 4 f_equal.
  rewrite (dots_dotted ls) by done. f_equal. lia.
Qed.
End answer.

(** A query that asks for the address of one name is answered with the
    name's address: the header's identifier comes back, the flags say it is
    an answer, the question is repeated, and one record carries the network
    with the name's index. *)
Theorem handle_answers (alloc : HevMappedDNS → option nat) (d d' : HevMappedDNS)
    (id cnt tail resp : mem) (fl idx slen : Z) (ls : list mem) :
  len id = 2 → 0 <= fl < 2 ^ 16 → len cnt = 6 → ls ≠ [] → Forall wf_label ls →
  len (query id fl cnt ls tail) < 2 ^ 31 →
  len (query id fl cnt ls tail) <= slen → len (query id fl cnt ls []) + 16 <= slen → slen <= len resp →
  hev_mapped_dns_find alloc d (dotted ls) = Ok (d', idx) → 0 <= idx →
  hev_mapped_dns_handle alloc d (query id fl cnt ls tail) (len (query id fl cnt ls tail)) resp slen
    = Ok (d', len (query id fl cnt ls []) + 16,
          reply id fl ls (Z.lor (md_net d') idx)
            (drop 16 (tail ++ drop (length (query id fl cnt ls tail)) resp))).
Proof.
  intros Hid Hfl Hcnt Hne Hw Hlen Hq Hs Hr Hf Hi.
  do 2 (destruct id as [|? id]; [discriminate|]). destruct id; [|rewrite !len_cons in Hid; pose proof (len_nonneg id); lia].
  do 6 (destruct cnt as [|? cnt]; [discriminate|]). destruct cnt; [|rewrite !len_cons in Hcnt; pose proof (len_nonneg cnt); lia].
  set (req := query _ _ _ _ tail) in *. set (rest := enc_name ls ++ A_IN ++ tail) in *.
  assert (Hql : len req = 12 + len (enc_name ls) + 4 + len tail).
  { unfold req, query, rest. rewrite !len_app. unfold len. simpl. lia. }
  assert (Hqn : len (query [b; b0] fl [b1; b2; b3; b4; b5; b6] ls []) = 12 + len (enc_name ls) + 4).
  { unfold query. rewrite !len_app. unfold len. simpl. lia. }
  pose proof (len_nonneg (enc_name ls)). pose proof (len_nonneg tail). set (R := drop (length req) resp).
  unfold hev_mapped_dns_handle. rewrite (proj2 (Z.ltb_ge _ _)) by lia. ints. unfold DNS_HDR.
  rewrite (proj2 (Z.ltb_ge _ _)) by lia. rewrite memcpy_ok by lia. bstep. rewrite slice_all.
  change (splice resp 0 req) with (req ++ R).
  destruct (header_read b b0 b1 b2 b3 b4 b5 b6 fl rest R Hfl) as (E1 & E2 & E3 & sb & E4 & E5).
  assert (Hl : len (req ++ R) = len resp).
  { unfold R, len in *. rewrite length_app, length_drop. lia. }
  set (F1 := bz (Z.shiftr fl 8)) in *. set (F0 := bz fl) in *.
  change ([b; b0; F1; F0; x00; x01; b1; b2; b3; b4; b5; b6] ++ rest ++ R) with (req ++ R) in E3, E4.
  change ([b; b0; F1; F0; x00; x01; b1; b2; b3; b4; b5; b6] ++ rest) with req in E1, E2.
  rewrite E1, bind_Ok, E2, bind_Ok, E3, bind_Ok, E4, bind_Ok, E5, bind_Ok.
  change (32 <? 1) with false. cbv iota. change (Z.to_nat 1) with 1%nat. cbn [questions].
  unfold rest at 1. change 12 with (len [b; b0; F1; F0; x01; x00; b1; b2; b3; b4; b5; b6]) at 1.
  rewrite (question_a alloc d d' ls _ tail idx) by (done || (change (len [_; _; _; _; _; _; _; _; _; _; _; _]) with 12; lia)).
  do 3 bstep. cbn [option_map fst snd]. cbn [app length]. change (len [_; _; _; _; _; _; _; _; _; _; _; _]) with 12.
  set (M := _ :: _). assert (EM : M = [b; b0; F0; F1; x00; x01; x00; x00; x00; x00; x00; x00] ++ rest ++ R) by done.
  assert (HM : len M = len resp).
  { rewrite EM, <- Hl. unfold req, query, rest. rewrite !len_app. unfold len. simpl. lia. }
  clearbody M. rewrite answer_one by lia. bstep. set (a := a_record _).
  assert (Ha : len a = 16) by done.
  rewrite write_u16_splice by (rewrite ?len_splice; lia). bstep.
  assert (Hu : ∀ v, len (u16_bytes v) = 2) by done.
  rewrite write_u16_splice by (rewrite ?len_splice; rewrite ?Hu; rewrite ?len_splice; lia). bstep. rewrite Hqn. do 2 f_equal.
  replace M with (([b; b0; F0; F1; x00; x01; x00; x00; x00; x00; x00; x00] ++ enc_name ls ++ A_IN) ++ tail ++ R)
    by (rewrite EM; unfold rest; by rewrite <- !app_assoc).
  rewrite splice_end by (rewrite !len_app; change (len [_; _; _; _; _; _; _; _; _; _; _; _]) with 12; change (len A_IN) with 4; lia).
  rewrite <- !app_assoc. done.
Qed.

(** ** Examples: www.a.b, with a record behind the question *)

Definition www_a_b : list mem := [bytes_of "www"; bytes_of "a"; bytes_of "b"].
Definition www_query : mem := query [x12; x34] 0x100 [x00; x00; x00; x00; x00; x01] www_a_b [x00; x00; x29; x04].

Lemma handle_safe_witness :
  wp (hev_mapped_dns_handle next_node two_names www_query (len www_query) (repeat x00 64) 64)
    (λ '(d', n, resp'), same_net two_names d' ∧ (∃ l', md_ok d' l') ∧ len resp' = 64 ∧ (n = -1 ∨ DNS_HDR <= n <= 64)).
Proof.
  apply (handle_safe next_node two_names [] www_query (repeat x00 64) (len www_query) 64).
  - apply next_node_fresh.
  - apply (md_new net_198_18 (- 2 ^ 10) 2); [reflexivity|lia].
  - zeval.
  - zeval.
  - zeval.
Defined.

Lemma handle_answers_witness :
  ∃ d', hev_mapped_dns_find next_node two_names (bytes_of "www.a.b") = Ok (d', 0) ∧
  hev_mapped_dns_handle next_node two_names www_query (len www_query) (repeat xff 64) 64
    = Ok (d', 41, reply [x12; x34] 0x100 www_a_b net_198_18 (repeat xff 23)).
Proof.
  eexists. split; [vm_compute; reflexivity|].
  unfold www_query. etransitivity.
  - eapply (handle_answers next_node two_names _ [x12; x34] [x00; x00; x00; x00; x00; x01]
      [x00; x00; x29; x04] (repeat xff 64) 0x100 0 64 www_a_b); try zeval.
    repeat constructor; discriminate.
  - vm_compute. reflexivity.
Defined.
