(* ===== verification/HevAuth.v ===== *)
(** * hev-socks5, who may log in: src/core/src/hev-socks5-authenticator.c,
    hev-socks5-user.c

    The users of a SOCKS5 server, in a red-black tree by the length of the
    name and then the name.  A user is an object with a count of references;
    [au_users] holds those that are not freed.  Counting is done by the
    object library (hev-task-system), as it is documented there: the last
    reference that goes frees the object. *)

From Stdlib Require Import ZArith Lia Bool List.
From Stdlib Require Import Strings.Byte Strings.String.
From stdpp Require Import base tactics list numbers option gmap countable sorting.
From S2P Require Import Prelude CMem HevRbtree HevRbtreeSpec HevMappedDnsSpec.

Record HevSocks5User : Type := User { us_name : mem; us_pass : mem; us_refs : Z }.
#[export] Instance user_eta : Eta HevSocks5User := λ u, User (us_name u) (us_pass u) (us_refs u).
Record HevSocks5Authenticator : Type := Authenticator { au_tree : rbtree; au_users : gmap nat HevSocks5User }.
#[export] Instance authenticator_eta : Eta HevSocks5Authenticator := λ a, Authenticator (au_tree a) (au_users a).

Definition hev_socks5_authenticator_new : HevSocks5Authenticator := Authenticator Null ∅.

Section authenticator.
(** the address of a new user, or no memory *)
Context (alloc : HevSocks5Authenticator → option nat).
Implicit Types (self : HevSocks5Authenticator) (name pass : mem).

(** *** Users *)

Definition hev_socks5_user_new self name pass : option (HevSocks5Authenticator * nat) :=
  match alloc self with
  | None => None
  | Some x => Some (self <| au_users := <[x := User name pass 1]> (au_users self) |>, x)
  end.
Definition hev_socks5_user_checker (u : HevSocks5User) pass : Z :=
  if negb (len (us_pass u) =? len pass) then -1
  else if negb (memcmp_list (us_pass u) pass =? 0) then -1 else 0.
Definition get_user self (x : nat) : res HevSocks5User :=
  match au_users self !! x with Some u => Ok u | None => UB end.
Definition user_ref self (x : nat) : res HevSocks5Authenticator :=
  u ← get_user self x; Ok (self <| au_users := <[x := u <| us_refs := us_refs u + 1 |>]> (au_users self) |>).
Definition user_unref self (x : nat) : res HevSocks5Authenticator :=
  u ← get_user self x;
  Ok (self <| au_users := if 1 <? us_refs u then <[x := u <| us_refs := us_refs u - 1 |>]> (au_users self)
                          else delete x (au_users self) |>).

(** *** The tree *)

(** the order of names *)
Definition user_cmp (this name : mem) : Z :=
  if len this <? len name then -1 else if len name <? len this then 1 else memcmp_list this name.

(** the loop of [_add], [_del] and [_get]: the node of that name, or the null
    pointer where it belongs *)
Fixpoint find_user self name (t : rbtree) (path : list rb_frame) : res (nat + list rb_frame) :=
  match t with
  | Null => Ok (inr path)
  | RBNode c l x r =>
      this ← get_user self x;
      let res := user_cmp (us_name this) name in
      if res <? 0 then find_user self name l (RBFrame L c x r :: path)
      else if 0 <? res then find_user self name r (RBFrame R c x l :: path)
      else Ok (inl x)
  end.

Definition hev_socks5_authenticator_add self (user : nat) : res (HevSocks5Authenticator * Z) :=
  u ← get_user self user;
  found ← find_user self (us_name u) (au_tree self) [];
  match found with
  | inl _ => Ok (self, -1)
  | inr path => t ← hev_rbtree_insert user path; Ok (self <| au_tree := t |>, 0)
  end.

Definition hev_socks5_authenticator_del self name : res (HevSocks5Authenticator * Z) :=
  found ← find_user self name (au_tree self) [];
  match found with
  | inl x =>
      t ← hev_rbtree_erase (au_tree self) x;
      self ← user_unref (self <| au_tree := t |>) x;
      Ok (self, 0)
  | inr _ => Ok (self, -1)
  end.

Definition hev_socks5_authenticator_get self name : res (option nat) :=
  found ← find_user self name (au_tree self) [];
  Ok (match found with inl x => Some x | inr _ => None end).

Definition clear_step self : res (HevSocks5Authenticator + HevSocks5Authenticator) :=
  match hev_rbtree_first (au_tree self) with
  | None => Ok (inr self)
  | Some x =>
      t ← hev_rbtree_erase (au_tree self) x;
      self ← user_unref (self <| au_tree := t |>) x;
      Ok (inl self)
  end.
Definition hev_socks5_authenticator_clear self : res HevSocks5Authenticator :=
  loop (Datatypes.S (size (au_users self))) clear_step self.
End authenticator.

(** * hev-socks5, who may log in: the authenticator is a map

    From names to passwords, through every sequence of calls. *)

(** ** The order of names *)

Lemma memcmp_flip a : ∀ b, memcmp_list b a = - memcmp_list a b.
Proof.
  induction a as [|x a IH]; intros [|y b]; simpl; try done. rewrite (Z.eqb_sym (zb y)).
  destruct (Z.eqb_spec (zb x) (zb y)); [apply IH|lia].
Qed.
Lemma memcmp_trans a : ∀ b c, length a = length b → length b = length c →
  0 < memcmp_list a b → 0 < memcmp_list b c → 0 < memcmp_list a c.
Proof.
  induction a as [|x a IH]; intros [|y b] [|z c]; simpl; try lia. intros [= H1] [= H2].
  destruct (Z.eqb_spec (zb x) (zb y)), (Z.eqb_spec (zb y) (zb z)), (Z.eqb_spec (zb x) (zb z)); try lia. by apply IH.
Qed.
Lemma user_cmp_flip a b : user_cmp b a = - user_cmp a b.
Proof.
  unfold user_cmp. destruct (Z.ltb_spec (len a) (len b)), (Z.ltb_spec (len b) (len a)); try lia. apply memcmp_flip.
Qed.
Lemma user_cmp_eq a b : user_cmp a b = 0 ↔ a = b.
Proof.
  unfold user_cmp. destruct (Z.ltb_spec (len a) (len b)); [split; [lia|intros ->; lia]|].
  destruct (Z.ltb_spec (len b) (len a)); [split; [lia|intros ->; lia]|]. apply memcmp_list_eq. unfold len in *. lia.
Qed.
Lemma user_cmp_trans a b c : 0 < user_cmp a b → 0 < user_cmp b c → 0 < user_cmp a c.
Proof.
  unfold user_cmp. destruct (Z.ltb_spec (len a) (len b)); [lia|]. destruct (Z.ltb_spec (len b) (len c)); [lia|].
  destruct (Z.ltb_spec (len a) (len c)); [lia|].
  destruct (Z.ltb_spec (len b) (len a)), (Z.ltb_spec (len c) (len b)), (Z.ltb_spec (len c) (len a)); try lia.
  apply memcmp_trans; unfold len in *; lia.
Qed.

Lemma user_cmp_below a b c : 0 < user_cmp a b → user_cmp a c <= 0 → user_cmp b c < 0.
Proof.
  intros H1 H2. destruct (Z.lt_trichotomy (user_cmp b c) 0) as [?|[->%user_cmp_eq|H3]]; [done|lia|].
  pose proof (user_cmp_trans a b c H1 H3). lia.
Qed.

(** ** The invariant *)

Section spec.
Implicit Types (a : HevSocks5Authenticator) (m : gmap mem mem) (x : nat) (name pass : mem).

Definition uname a x : mem := match au_users a !! x with Some u => us_name u | None => [] end.
Definition in_order a (l : list nat) : Prop := StronglySorted (λ x y, 0 < user_cmp (uname a x) (uname a y)) l.

(** the users in the tree are those of [m] *)
Record tree_ok a m : Prop := TreeOk {
  to_valid : valid (au_tree a);
  to_sorted : in_order a (rb_elements (au_tree a));
  to_alive : ∀ x, x ∈ rb_elements (au_tree a) → is_Some (au_users a !! x);
  to_map : ∀ name pass, m !! name = Some pass ↔
    ∃ x u, x ∈ rb_elements (au_tree a) ∧ au_users a !! x = Some u ∧ us_name u = name ∧ us_pass u = pass
}.

(** no user is alive but those, and the tree alone holds them *)
Record auth_ok a m : Prop := AuthOk {
  ao_tree : tree_ok a m;
  ao_users : ∀ x u, au_users a !! x = Some u → x ∈ rb_elements (au_tree a) ∧ us_refs u = 1
}.

Lemma in_order_ext a a' l : (∀ x, x ∈ l → au_users a' !! x = au_users a !! x) → in_order a l → in_order a' l.
Proof.
  unfold in_order. intros E H. induction H as [|x l H IH Hx]; [constructor|].
  constructor; [apply IH; intros y Hy; apply E; by right|]. rewrite Forall_forall in Hx |- *. intros y Hy.
  unfold uname. rewrite !E by (by left || by right). by apply Hx.
Qed.
Lemma in_order_nodup a l : in_order a l → NoDup l.
Proof.
  induction 1 as [|x l H IH Hx]; [constructor|]. constructor; [|done]. intros Hin. rewrite Forall_forall in Hx.
  specialize (Hx x Hin). pose proof (proj2 (user_cmp_eq (uname a x) (uname a x)) eq_refl). lia.
Qed.
Lemma tree_ok_ext a a' m : au_tree a' = au_tree a →
  (∀ x, x ∈ rb_elements (au_tree a) → au_users a' !! x = au_users a !! x) → tree_ok a m → tree_ok a' m.
Proof.
  intros Et E [H1 H2 H3 H4]. split; rewrite Et; [done|by eapply in_order_ext|intros x Hx; rewrite E by done; auto|].
  intros name pass. rewrite H4. split; intros (x & u & Hx & Hu & ?); exists x, u; split_and!; try tauto; by rewrite E in * || rewrite E.
Qed.

Lemma find_user_search a name t : ∀ path, (∀ x, x ∈ rb_elements t → is_Some (au_users a !! x)) →
  find_user a name t path = Ok (rb_search (λ x, user_cmp (uname a x) name) t path).
Proof.
  induction t as [|c l IHl x r IHr]; intros path Hal; [done|]. cbn [find_user rb_search rb_elements] in *.
  destruct (Hal x) as [u Hu]; [apply elem_of_app; right; by left|]. unfold get_user. rewrite Hu, bind_Ok. cbv zeta.
  replace (uname a x) with (us_name u) by (unfold uname; by rewrite Hu).
  rewrite IHl, IHr by (intros y Hy; apply Hal, elem_of_app; first [by left|by right; right]). by repeat case_match.
Qed.

Lemma auth_lookup a m name : tree_ok a m →
  ∃ r, find_user a name (au_tree a) [] = Ok r ∧
    match r with
    | inl x => x ∈ rb_elements (au_tree a) ∧ ∃ u, au_users a !! x = Some u ∧ us_name u = name ∧ m !! name = Some (us_pass u)
    | inr path => m !! name = None ∧ valid (rb_root Null path) ∧ rb_before path ++ rb_after path = rb_elements (au_tree a)
        ∧ Forall (λ x, 0 < user_cmp (uname a x) name) (rb_before path)
        ∧ Forall (λ x, user_cmp (uname a x) name < 0) (rb_after path)
    end.
Proof.
  intros I. rewrite find_user_search by (intros x; apply (to_alive _ _ I)). eexists. split; [done|].
  pose proof (rb_search_spec (λ x, user_cmp (uname a x) name) _ _ [] (to_sorted _ _ I)) as H.
  destruct (rb_search _ _ []) as [x|path].
  - destruct H as [Hx En%user_cmp_eq]; [intros y z _ _; apply user_cmp_below|]. split; [done|].
    pose proof (to_alive _ _ I x Hx) as [u Hu]. exists u. unfold uname in En. rewrite Hu in En.
    split; [done|]. split; [done|]. apply (to_map _ _ I). by exists x, u.
  - destruct H as (Hroot & l1 & l2 & Hb & Ha & Hel & F1 & F2); [intros y z _ _; apply user_cmp_below|].
    simpl in Hb, Ha. rewrite app_nil_r in Ha. rewrite Hb, Ha.
    split; [|split; [rewrite Hroot; apply I|done]]. destruct (m !! name) as [pass|] eqn:Em; [|done]. exfalso.
    apply (to_map _ _ I) in Em as (x & u & Hx & Hu & Hn & _).
    assert (En : uname a x = name) by (unfold uname; by rewrite Hu). rewrite Hel in Hx.
    pose proof (proj2 (user_cmp_eq name name) eq_refl) as E0.
    apply elem_of_app in Hx as [Hx|Hx]; [eapply Forall_forall in F1|eapply Forall_forall in F2]; eauto; simpl in *; rewrite En in *; lia.
Qed.

(** the tree with one user more or less *)
Lemma insert_ok a m path x u :
  tree_ok a m → au_users a !! x = Some u → x ∉ rb_elements (au_tree a) → m !! us_name u = None →
  valid (rb_root Null path) → rb_before path ++ rb_after path = rb_elements (au_tree a) →
  Forall (λ y, 0 < user_cmp (uname a y) (us_name u)) (rb_before path) →
  Forall (λ y, user_cmp (uname a y) (us_name u) < 0) (rb_after path) →
  ∃ t, hev_rbtree_insert x path = Ok t ∧ rb_elements t ≡ₚ x :: rb_elements (au_tree a)
    ∧ tree_ok (a <| au_tree := t |>) (<[us_name u := us_pass u]> m).
Proof.
  intros [H1 H2 H3 H4] Hu Hx Hm Hv Hel Fb Fa. destruct (rb_insert path x Hv) as (t & E & Hvt & He). exists t.
  assert (Hp : rb_elements t ≡ₚ x :: rb_elements (au_tree a)) by (rewrite He, <- Hel; by rewrite Permutation_middle).
  split; [done|]. split; [done|]. assert (En : uname a x = us_name u) by (unfold uname; by rewrite Hu).
  assert (Hin : ∀ y, y ∈ rb_elements t ↔ y = x ∨ y ∈ rb_elements (au_tree a)) by (intros y; by rewrite Hp, elem_of_cons).
  split; simpl; [done| | |].
  - rewrite He. unfold in_order in *. rewrite <- Hel in H2. apply StronglySorted_app in H2 as (Hlr & Hl & Hr).
    rewrite Forall_forall in Fb, Fa. apply StronglySorted_app_2; [|done|].
    + intros y z Hy [->|Hz]%elem_of_cons; [|by apply Hlr]. change (uname (a <| au_tree := t |>)) with (uname a). rewrite En. by apply Fb.
    + constructor; [done|]. apply Forall_forall. intros y Hy. change (uname (a <| au_tree := t |>)) with (uname a).
      rewrite En, user_cmp_flip. specialize (Fa y Hy). lia.
  - intros y [->|Hy]%Hin; [by eexists|auto].
  - intros name pass. rewrite lookup_insert_Some, H4. setoid_rewrite Hin. split.
    + intros [[<- <-]|(Hn & y & v & Hy & Hv' & ? & ?)]; [exists x, u; tauto|exists y, v; tauto].
    + intros (y & v & [->|Hy] & Hv' & <- & <-); [left; simplify_eq; done|]. right. split.
      * intros E'. assert (m !! us_name v = Some (us_pass v)) by (apply H4; by exists y, v). congruence.
      * by exists y, v.
Qed.

Lemma erase_ok a m x u :
  tree_ok a m → au_users a !! x = Some u → x ∈ rb_elements (au_tree a) →
  ∃ t, hev_rbtree_erase (au_tree a) x = Ok t ∧ rb_elements (au_tree a) ≡ₚ x :: rb_elements t
    ∧ x ∉ rb_elements t ∧ tree_ok (a <| au_tree := t |>) (delete (us_name u) m).
Proof.
  intros [H1 H2 H3 H4] Hu Hx. destruct (rb_erase _ x H1 Hx) as (t & l1 & l2 & E & Hvt & Hel & He). exists t.
  assert (Hp : rb_elements (au_tree a) ≡ₚ x :: rb_elements t) by (rewrite He, Hel; by rewrite Permutation_middle).
  pose proof (in_order_nodup _ _ H2) as Hnd. rewrite Hp in Hnd. apply NoDup_cons in Hnd as [Hnx Hnd].
  split; [done|]. split; [done|]. split; [done|].
  assert (Hin : ∀ y, y ∈ rb_elements (au_tree a) ↔ y = x ∨ y ∈ rb_elements t) by (intros y; by rewrite Hp, elem_of_cons).
  assert (Hne : ∀ y v, y ∈ rb_elements t → au_users a !! y = Some v → us_name v ≠ us_name u).
  { intros y v Hy Hv' En. rewrite Hel in H2. pose proof (sorted_cmp _ _ x y H2) as Hs. rewrite <- Hel in Hs.
    destruct Hs as [->|Hs]; [by apply Hin; left|by apply Hin; right|done|]. unfold uname in Hs. rewrite Hu, Hv', En in Hs.
    pose proof (proj2 (user_cmp_eq (us_name u) (us_name u)) eq_refl). lia. }
  split; simpl; [done| | |].
  - rewrite He. unfold in_order in *. rewrite Hel in H2. apply StronglySorted_app in H2 as (Hlr & Hl & Hr).
    inversion Hr; subst. apply StronglySorted_app_2; [|done|done]. intros y z Hy Hz. apply Hlr; [done|by right].
  - intros y Hy. apply H3, Hin. by right.
  - intros name pass. rewrite lookup_delete_Some, H4. setoid_rewrite Hin. split.
    + intros (Hn & y & v & [->|Hy] & Hv' & <- & <-); [simplify_eq|by exists y, v].
    + intros (y & v & Hy & Hv' & <- & <-). split; [intros E'; by apply (Hne y v)|]. exists y, v. tauto.
Qed.

End spec.

(** ** The operations *)

Definition fresh_user (alloc : HevSocks5Authenticator → option nat) : Prop :=
  ∀ a x, alloc a = Some x → au_users a !! x = None.

(** a call: [Add] makes the user and gives it up when the name is taken *)
Inductive auth_call : Type := Add (name pass : mem) | Del (name : mem) | LogIn (name pass : mem) | Clear.

Definition serve (alloc : HevSocks5Authenticator → option nat) (a : HevSocks5Authenticator) (c : auth_call)
    : res (HevSocks5Authenticator * Z) :=
  match c with
  | Add name pass =>
      match hev_socks5_user_new alloc a name pass with
      | None => Ok (a, -1)
      | Some (a, x) =>
          '(a, r) ← hev_socks5_authenticator_add a x;
          if r <? 0 then a ← user_unref a x; Ok (a, r) else Ok (a, r)
      end
  | Del name => hev_socks5_authenticator_del a name
  | LogIn name pass =>
      found ← hev_socks5_authenticator_get a name;
      match found with
      | None => Ok (a, -1)
      | Some x => u ← get_user a x; Ok (a, hev_socks5_user_checker u pass)
      end
  | Clear => a ← hev_socks5_authenticator_clear a; Ok (a, 0)
  end.

Fixpoint serve_all alloc a (cs : list auth_call) : res (HevSocks5Authenticator * list Z) :=
  match cs with
  | [] => Ok (a, [])
  | c :: cs => '(a, r) ← serve alloc a c; '(a, rs) ← serve_all alloc a cs; Ok (a, r :: rs)
  end.

(** what is promised: a map from names to passwords; [room] tells whether a
    user could be made *)
Definition promised (m : gmap mem mem) (c : auth_call) (room : bool) : gmap mem mem * Z :=
  match c with
  | Add name pass => if negb room then (m, -1) else if m !! name is Some _ then (m, -1) else (<[name := pass]> m, 0)
  | Del name => if m !! name is Some _ then (delete name m, 0) else (m, -1)
  | LogIn name pass => (m, if bool_decide (m !! name = Some pass) then 0 else -1)
  | Clear => (∅, 0)
  end.

Fixpoint promised_all (m : gmap mem mem) (cs : list (auth_call * bool)) : gmap mem mem * list Z :=
  match cs with
  | [] => (m, [])
  | (c, room) :: cs => let (m, r) := promised m c room in let (m, rs) := promised_all m cs in (m, r :: rs)
  end.

(** ** The calls *)

Section calls.
Context (alloc : HevSocks5Authenticator → option nat) (Hfresh : fresh_user alloc).
Implicit Types (a : HevSocks5Authenticator) (m : gmap mem mem).

Lemma unref_last a x u : au_users a !! x = Some u → us_refs u = 1 →
  user_unref a x = Ok (a <| au_users := delete x (au_users a) |>).
Proof. intros Hu Hr. unfold user_unref, get_user. by rewrite Hu, bind_Ok, Hr. Qed.

(** erasing a node and dropping its user *)
Lemma drop_ok a m x u :
  auth_ok a m → au_users a !! x = Some u →
  ∃ t, hev_rbtree_erase (au_tree a) x = Ok t ∧ user_unref (a <| au_tree := t |>) x = Ok (Authenticator t (delete x (au_users a)))
    ∧ auth_ok (Authenticator t (delete x (au_users a))) (delete (us_name u) m).
Proof.
  intros [Ht Hu] E. destruct (Hu x u E) as [Hx Hr]. destruct (erase_ok a m x u Ht E Hx) as (t & Et & Hp & Hnx & Ht').
  exists t. split; [done|].
  split; [unfold user_unref, get_user; simpl; by rewrite E, bind_Ok, Hr|]. split.
  - apply (tree_ok_ext (a <| au_tree := t |>)); [done| |done]. simpl. intros y Hy.
    rewrite lookup_delete_ne; [done|]. by intros ->.
  - simpl. intros y v [Hne Hv]%lookup_delete_Some. destruct (Hu y v Hv) as [Hy ?]. split; [|done].
    rewrite Hp in Hy. apply elem_of_cons in Hy as [->|]; done.
Qed.

Lemma add_ok a m name pass : auth_ok a m →
  ∃ a', serve alloc a (Add name pass) = Ok (a', (promised m (Add name pass) (bool_decide (is_Some (alloc a)))).2)
    ∧ auth_ok a' (promised m (Add name pass) (bool_decide (is_Some (alloc a)))).1.
Proof.
  intros [Ht Hu]. cbn [serve promised]. unfold hev_socks5_user_new. destruct (alloc a) as [x|] eqn:Ea; [|by exists a].
  pose proof (Hfresh _ _ Ea) as Hx. set (u := User name pass 1). set (a1 := a <| au_users := _ |>). simpl negb.
  assert (Hnx : x ∉ rb_elements (au_tree a)) by (intros Hin; apply (to_alive _ _ Ht) in Hin as [? ?]; congruence).
  assert (Hu1 : au_users a1 !! x = Some u) by apply lookup_insert_eq.
  assert (Ht1 : tree_ok a1 m).
  { apply (tree_ok_ext a); [done| |done]. intros y Hy. apply lookup_insert_ne. by intros ->. }
  unfold hev_socks5_authenticator_add, get_user. rewrite Hu1, bind_Ok. cbn [us_name u].
  destruct (auth_lookup a1 m name Ht1) as (found & -> & Hf). rewrite bind_Ok. destruct found as [y|path].
  - destruct Hf as (Hy & v & Hv & En & Hm). rewrite bind_Ok, Hm. simpl Z.ltb. cbv iota.
    rewrite (unref_last a1 x u Hu1 eq_refl), bind_Ok. eexists. split; [done|]. simpl.
    rewrite delete_insert_id by done. destruct a; split; [done|apply Hu].
  - destruct Hf as (Hm & Hv & Hel & Fb & Fa). rewrite Hm.
    destruct (insert_ok a1 m path x u Ht1 Hu1 Hnx Hm Hv Hel Fb Fa) as (t & -> & Hp & Ht2). rewrite !bind_Ok.
    eexists. split; [done|]. split; [done|]. simpl. intros y v [[<- <-]|[Hne Hy]]%lookup_insert_Some.
    + rewrite Hp. split; [by left|done].
    + destruct (Hu y v Hy). rewrite Hp. split; [by right|done].
Qed.

Lemma del_ok a m name : auth_ok a m →
  ∃ a', hev_socks5_authenticator_del a name = Ok (a', (promised m (Del name) true).2)
    ∧ auth_ok a' (promised m (Del name) true).1.
Proof.
  intros I. unfold hev_socks5_authenticator_del. destruct (auth_lookup a m name (ao_tree _ _ I)) as (found & -> & Hf).
  rewrite bind_Ok. cbn [promised]. destruct found as [x|path].
  - destruct Hf as (Hx & u & Hu & <- & ->). destruct (drop_ok a m x u I Hu) as (t & -> & E & I').
    rewrite bind_Ok. cbv zeta. rewrite E, bind_Ok. eauto.
  - destruct Hf as (-> & _). by exists a.
Qed.

Lemma login_ok a m name pass : auth_ok a m →
  serve alloc a (LogIn name pass) = Ok (a, (promised m (LogIn name pass) true).2).
Proof.
  intros I. cbn [serve promised]. unfold hev_socks5_authenticator_get.
  destruct (auth_lookup a m name (ao_tree _ _ I)) as (found & -> & Hf). rewrite !bind_Ok. destruct found as [x|path].
  - destruct Hf as (Hx & u & Hu & _ & ->). unfold get_user. rewrite Hu, bind_Ok. simpl. f_equal. f_equal.
    unfold hev_socks5_user_checker. destruct (Z.eqb_spec (len (us_pass u)) (len pass)) as [El|El]; simpl.
    + destruct (Z.eqb_spec (memcmp_list (us_pass u) pass) 0) as [E|E]; simpl; case_bool_decide as Hb; try done; exfalso.
      * apply Hb. f_equal. apply memcmp_list_eq; [|done]. unfold len in *. lia.
      * apply E. injection Hb as Hb. rewrite Hb. by apply memcmp_list_eq.
    + rewrite bool_decide_false; [done|]. intros [= E]. by rewrite E in El.
  - by destruct Hf as (-> & _).
Qed.

Lemma clear_ok n : ∀ a m, auth_ok a m → length (rb_elements (au_tree a)) = n → ∀ fuel, (n < fuel)%nat →
  ∃ a', loop fuel clear_step a = Ok a' ∧ auth_ok a' ∅.
Proof.
  induction n as [|n IH]; intros a m I Hn [|fuel] Hf; try lia; rewrite loop_S; unfold clear_step, hev_rbtree_first.
  - destruct (au_tree a) as [|c l x r] eqn:E; [|simpl in Hn; rewrite length_app in Hn; simpl in Hn; lia].
    exists a. split; [done|]. replace ∅ with m; [done|]. apply map_eq. intros name. rewrite lookup_empty.
    destruct (m !! name) as [pass|] eqn:Em; [|done]. apply (to_map _ _ (ao_tree _ _ I)) in Em as (x & u & Hx & _).
    rewrite E in Hx. by apply elem_of_nil in Hx.
  - destruct (au_tree a) as [|c l x r] eqn:E; [done|]. rewrite <- E.
    assert (Hx : leftmost l x ∈ rb_elements (au_tree a)).
    { rewrite E. cbn [rb_elements]. apply head_Some_elem_of, leftmost_head. }
    destruct (to_alive _ _ (ao_tree _ _ I) _ Hx) as [u Hu]. destruct (drop_ok a m _ u I Hu) as (t & Et & Eu & I').
    rewrite Et, bind_Ok. cbv zeta. rewrite Eu, !bind_Ok. apply (IH _ _ I'); [|lia]. simpl.
    destruct (erase_ok a m _ u (ao_tree _ _ I) Hu Hx) as (t' & Et' & Hp & _). rewrite Et in Et'. injection Et' as <-.
    rewrite <- E, Hp in Hn. simpl in Hn. lia.
Qed.

Lemma serve_ok a m c : auth_ok a m →
  ∃ a' room, serve alloc a c = Ok (a', (promised m c room).2) ∧ auth_ok a' (promised m c room).1
    ∧ (is_Some (alloc a) → room = true).
Proof.
  intros I. destruct c as [name pass|name|name pass|].
  - destruct (add_ok a m name pass I) as (a' & ? & ?). exists a', (bool_decide (is_Some (alloc a))).
    split; [done|]. split; [done|]. apply bool_decide_eq_true_2.
  - destruct (del_ok a m name I) as (a' & ? & ?). by exists a', true.
  - exists a, true. split; [by apply login_ok|done].
  - destruct (clear_ok (length (rb_elements (au_tree a))) a m I eq_refl (Datatypes.S (size (au_users a)))) as (a' & E & ?).
    + rewrite <- size_dom. apply Nat.lt_succ_r. rewrite <- (size_list_to_set (C:=gset nat)).
      * apply subseteq_size. intros x Hx%elem_of_list_to_set. by apply elem_of_dom, (to_alive _ _ (ao_tree _ _ I)).
      * apply (in_order_nodup a), (to_sorted _ _ (ao_tree _ _ I)).
    + exists a', true. cbn [serve promised fst snd]. unfold hev_socks5_authenticator_clear. by rewrite E, bind_Ok.
Qed.

Lemma serve_all_ok cs : ∀ a m, auth_ok a m →
  ∃ a' m' rs rooms, serve_all alloc a cs = Ok (a', rs) ∧ length rooms = length cs
    ∧ promised_all m (zip cs rooms) = (m', rs) ∧ auth_ok a' m' ∧ ((∀ a, is_Some (alloc a)) → Forall (eq true) rooms).
Proof.
  induction cs as [|c cs IH]; intros a m I.
  { exists a, m, [], []. split_and!; [done..|]. constructor. }
  destruct (serve_ok a m c I) as (a1 & room & E & I1 & Hr). destruct (promised m c room) as [m1 r] eqn:Ep.
  destruct (IH a1 m1 I1) as (a' & m' & rs & rooms & Es & Hl & Eps & I' & Hall).
  exists a', m', (r :: rs), (room :: rooms). cbn [serve_all zip zip_with promised_all]. rewrite E, bind_Ok, Es, bind_Ok, Ep, Eps.
  split; [done|]. split; [by simpl; rewrite Hl|]. split; [done|]. split; [done|]. intros Ha. constructor; [|auto].
  by symmetry; apply Hr.
Qed.
End calls.

Lemma auth_new : auth_ok hev_socks5_authenticator_new ∅.
Proof.
  split; [split; simpl|].
  - split; [done|by exists 0%nat].
  - constructor.
  - by intros x ?%elem_of_nil.
  - intros name pass. rewrite lookup_empty. split; [done|]. by intros (x & u & ?%elem_of_nil & _).
  - intros x u. simpl. by rewrite lookup_empty.
Qed.

(** ** The theorem *)

(** C38: an authenticator, through every sequence of adding and removing users,
    clearing and logging in, answers as a map from names to passwords: a name
    is added once, a login succeeds exactly when the map holds that password
    for the name, no call follows a dead user, and only the users of the map
    are alive at the end.  A user is not added only for want of memory or
    because the name is taken. *)
Theorem authenticator_refines_map (alloc : HevSocks5Authenticator → option nat) (cs : list auth_call) :
  fresh_user alloc →
  ∃ a m rs rooms, serve_all alloc hev_socks5_authenticator_new cs = Ok (a, rs) ∧ length rooms = length cs
    ∧ promised_all ∅ (zip cs rooms) = (m, rs) ∧ auth_ok a m ∧ ((∀ a, is_Some (alloc a)) → Forall (eq true) rooms).
Proof. intros Hfresh. apply serve_all_ok; [done|apply auth_new]. Qed.

(** the heap's next address *)
Definition next_user (a : HevSocks5Authenticator) : option nat := Some (fresh (dom (au_users a))).
Lemma next_user_fresh : fresh_user next_user.
Proof. intros a x [= <-]. apply not_elem_of_dom, is_fresh. Qed.

Definition some_calls : list auth_call :=
  [Add (bytes_of "joe") (bytes_of "x"); Add (bytes_of "ann") (bytes_of "yy"); LogIn (bytes_of "ann") (bytes_of "yy");
   LogIn (bytes_of "joe") (bytes_of "yy"); Add (bytes_of "joe") (bytes_of "z"); Del (bytes_of "joe");
   LogIn (bytes_of "joe") (bytes_of "x"); Clear; LogIn (bytes_of "ann") (bytes_of "yy")].

Lemma authenticator_refines_map_witness :
  ∃ a m rs rooms, serve_all next_user hev_socks5_authenticator_new some_calls = Ok (a, rs) ∧ length rooms = length some_calls
    ∧ promised_all ∅ (zip some_calls rooms) = (m, rs) ∧ auth_ok a m
    ∧ ((∀ a, is_Some (next_user a)) → Forall (eq true) rooms).
Proof. apply (authenticator_refines_map next_user some_calls), next_user_fresh. Defined.

Example some_calls_run : ∃ a, serve_all next_user hev_socks5_authenticator_new some_calls = Ok (a, [0; 0; 0; -1; -1; 0; -1; 0; -1]).
Proof. by eexists; vm_compute. Qed.
