(* ===== verification/HevIo.v ===== *)
(** * hev-socks5, programs that wait: a free monad of requests

    A task of hev-task-system runs until it asks the system for something and
    goes on with the answer.  [io A] is such a program: [Done] with a result,
    a [Call] and what is done with its answer, or [Crash], undefined
    behaviour.  The calls are those the SOCKS5 code makes; sends and receives
    are the ones of [hev_task_io_socket_*] with [MSG_WAITALL] (all bytes, or
    fewer when the connection ends or the wait is given up).  [run] answers a
    program that makes no sends and receives from an environment. *)

From Stdlib Require Import ZArith Lia Bool List FunctionalExtensionality.
From Stdlib Require Import Strings.Byte Strings.String.
From stdpp Require Import base tactics list numbers option relations.
From S2P Require Import Prelude CMem.

(** [struct sockaddr_in6]: the port and the address as they lie in memory *)
Record sockaddr_in6 : Type := Sin6 { sin6_family : Z; sin6_port : mem; sin6_addr : mem }.
#[export] Instance sin6_eta : Eta sockaddr_in6 := λ s, Sin6 (sin6_family s) (sin6_port s) (sin6_addr s).

Definition AF_UNSPEC : Z := 0.
Definition AF_INET : Z := 2.
Definition AF_INET6 : Z := 10.
Definition SOCK_STREAM : Z := 1.
Definition SOCK_DGRAM : Z := 2.

Inductive syscall : Type :=
  | HSend (fd : Z) (data : mem)
  | HRecv (fd : Z) (n : Z)
  | HSocket (type : Z)
  | HV6Only (fd : Z)                       (* setsockopt IPV6_V6ONLY := 0 *)
  | HReuse (fd : Z)                        (* setsockopt SO_REUSEADDR := 1 *)
  | HRcvbuf (fd : Z)                       (* setsockopt SO_RCVBUF *)
  | HMark (fd : Z) (mark : Z)              (* set_sock_mark *)
  | HFastopen (fd : Z) (on : Z)            (* set_sock_tcp_fastopen *)
  | HAddFd (fd : Z)                        (* hev_task_add_fd *)
  | HModFd (fd : Z)                        (* hev_task_mod_fd *)
  | HDelFd (fd : Z)                        (* hev_task_del_fd *)
  | HClose (fd : Z)
  | HConnect (fd : Z) (dest : sockaddr_in6)
  | HBind (fd : Z) (src : sockaddr_in6)
  | HGetsockname (fd : Z)
  | HGetaddrinfo (name : mem) (family : Z) (* the family and the address of the first result *)
  | HMalloc (size : Z)
  | HFree
  | HRecvSome (fd : Z) (n : Z) (dontwait : bool)   (* [recv] without [MSG_WAITALL] *)
  | HSendmm (fd : Z) (packets : list (option sockaddr_in6 * mem))
  | HRecvmm (fd : Z) (sizes : list Z) (dontwait : bool)  (* with the senders' addresses *)
  | HPlainConnect (fd : Z) (dest : sockaddr_in6)   (* [connect] itself *)
  | HPoll (fd : Z)                         (* [recv] of one byte: the result, and whether errno is EAGAIN *)
  | HAgain                                 (* is errno EAGAIN? *)
  | HYield | HWaitio                       (* hev_task_yield *)
  | HSleep (ms : Z)                        (* hev_task_sleep: the time that is left *)
  | HWritev (fd : Z) (iov : list mem)      (* the result, and whether errno is EAGAIN *)
  | HReadv (fd : Z) (room : Z)             (* the bytes, none at the end; or whether errno is EAGAIN *)
  | HShutdown (fd : Z)                     (* of the side that writes *)
  | HTcpWrite (data : mem)                 (* tcp_write to the session's pcb, without copying *)
  | HTcpOutput
  | HTcpRecved (n : Z)
  | HTcpShutdown                           (* of the side that sends *)
  | HPbufRef                               (* pbuf_alloc_reference *)
  | HUdpSendfrom (src : mem) (port : Z) (data : mem)   (* with the address and port of the sender *)
  | HUpdateSession.                        (* the tunnel's list of sessions *)

Definition answer (c : syscall) : Type :=
  match c with
  | HRecv _ _ => mem + Z                   (* the bytes, at least one; or the value that is not positive *)
  | HGetsockname _ => option sockaddr_in6
  | HGetaddrinfo _ _ => option (Z * mem)
  | HMalloc _ => bool
  | HRcvbuf _ | HFastopen _ _ | HDelFd _ | HClose _ | HFree | HYield | HWaitio => unit
  | HRecvSome _ _ _ => mem + Z
  | HRecvmm _ _ _ => list (sockaddr_in6 * mem) + Z
  | HPoll _ => Z * bool
  | HAgain => bool
  | HWritev _ _ => Z * bool
  | HReadv _ _ => mem + bool
  | HPbufRef => bool
  | HShutdown _ | HTcpRecved _ | HTcpShutdown | HUpdateSession => unit
  | _ => Z
  end.

Inductive io (A : Type) : Type :=
  | Done (a : A)
  | Call (c : syscall) (k : answer c → io A)
  | Crash.
Arguments Done {A} _.
Arguments Call {A} _ _.
Arguments Crash {A}.

Fixpoint io_bind {A B} (m : io A) (k : A → io B) : io B :=
  match m with
  | Done a => k a
  | Call c f => Call c (λ x, io_bind (f x) k)
  | Crash => Crash
  end.
Definition ask (c : syscall) : io (answer c) := Call c Done.
(** a step that makes no request *)
Definition pure {A} (m : res A) : io A := match m with Ok a => Done a | _ => Crash end.

Declare Scope io_scope.
Delimit Scope io_scope with io.
Notation "x <~ y ; z" := (io_bind y (λ x, z))
  (at level 20, y at level 100, z at level 200, right associativity, format "x  <~  y ;  '/' z") : io_scope.
Notation "' x <~ y ; z" := (io_bind y (λ x, z))
  (at level 20, x pattern, y at level 100, z at level 200, right associativity, format "' x  <~  y ;  '/' z") : io_scope.
Open Scope io_scope.

(** what [recv] returns *)
Definition recvd (r : mem + Z) : Z := match r with inl d => len d | inr e => e end.
Definition stored (r : mem + Z) : mem := match r with inl d => d | inr _ => [] end.

(** an environment with the state [W] *)
Definition env (W : Type) : Type := ∀ c : syscall, W → W * answer c.

Definition on_wire (c : syscall) : bool := match c with HSend _ _ | HRecv _ _ | HRecvSome _ _ _ => true | _ => false end.

(** the program alone with an environment; no result when it crashes, sends or
    receives *)
Fixpoint run {W A} (E : env W) (m : io A) (w : W) : option (W * A) :=
  match m with
  | Done a => Some (w, a)
  | Call c k => if on_wire c then None else let (w, a) := E c w in run E (k a) w
  | Crash => None
  end.

(** ** Laws *)

Lemma io_bind_assoc {A B C} (m : io A) (f : A → io B) (g : B → io C) :
  io_bind (io_bind m f) g = io_bind m (λ a, io_bind (f a) g).
Proof. induction m as [a|c k IH|]; simpl; [done| |done]. f_equal. by extensionality x. Qed.
Lemma io_bind_done {A} (m : io A) : io_bind m Done = m.
Proof. induction m as [a|c k IH|]; simpl; [done| |done]. f_equal. by extensionality x. Qed.
Lemma pure_ok {A B} (a : A) (k : A → io B) : io_bind (pure (Ok a)) k = k a.
Proof. done. Qed.

Lemma run_bind {W A B} (E : env W) (m : io A) (k : A → io B) w :
  run E (io_bind m k) w = match run E m w with Some (w, a) => run E (k a) w | None => None end.
Proof.
  revert w. induction m as [a|c f IH|]; intros w; simpl; [done| |done]. destruct (on_wire c); [done|].
  destruct (E c w) as [w' x]. apply IH.
Qed.

(** ** Total correctness against an environment

    [wpio ok m Q]: whatever the environment answers within [ok], the program
    makes no send or receive, does not crash and ends in [Q]. *)

Fixpoint wpio {A} (ok : ∀ c, answer c → Prop) (m : io A) (Q : A → Prop) : Prop :=
  match m with
  | Done a => Q a
  | Call c k => on_wire c = false ∧ ∀ x, ok c x → wpio ok (k x) Q
  | Crash => False
  end.

Lemma wpio_bind {A B} ok (m : io A) (k : A → io B) (Q : B → Prop) :
  wpio ok m (λ a, wpio ok (k a) Q) → wpio ok (io_bind m k) Q.
Proof. induction m as [a|c f IH|]; simpl; [done| |done]. intros [Hc H]. split; [done|]. auto. Qed.
Lemma wpio_mono {A} ok (m : io A) (P Q : A → Prop) : wpio ok m P → (∀ a, P a → Q a) → wpio ok m Q.
Proof. intros H HPQ. induction m as [a|c f IH|]; simpl in *; [auto| |done]. destruct H as [Hc H]. auto. Qed.
Lemma wpio_ask {A} ok c (k : answer c → io A) Q :
  on_wire c = false → (∀ x, ok c x → wpio ok (k x) Q) → wpio ok (io_bind (ask c) k) Q.
Proof. done. Qed.
Lemma wpio_pure {A} ok (m : res A) (Q : A → Prop) : wp m Q → wpio ok (pure m) Q.
Proof. intros (a & -> & H)%wp_iff. done. Qed.

Lemma wpio_run {W A} ok (E : env W) (m : io A) (Q : A → Prop) w :
  wpio ok m Q → (∀ c w, ok c (E c w).2) → ∃ w' a, run E m w = Some (w', a) ∧ Q a.
Proof.
  intros H HE. revert w. induction m as [a|c f IH|]; intros w; simpl in *; [by eexists _, _| |done].
  destruct H as [-> H]. pose proof (HE c w) as Hok. destruct (E c w) as [w' x]. by apply IH, H.
Qed.

(** ** Contracts

    A ledger [G] keeps what the calls so far amount to ([upd]).  [ok] is what
    the system promises of an answer, [pre] what it asks of a call.
    [wpg m g Q]: from [g] on, [m] makes only calls the system asks for, does
    not crash, and ends in [Q].  [exec m g g' a]: [m] can end so. *)

Section contracts.
Context {G : Type} (pre : G → syscall → Prop) (ok : G → ∀ c, answer c → Prop) (upd : G → ∀ c, answer c → G).

Fixpoint wpg {A} (m : io A) (g : G) (Q : G → A → Prop) : Prop :=
  match m with
  | Done a => Q g a
  | Call c k => pre g c ∧ ∀ x, ok g c x → wpg (k x) (upd g c x) Q
  | Crash => False
  end.
Fixpoint exec {A} (m : io A) (g g' : G) (a : A) : Prop :=
  match m with
  | Done b => g' = g ∧ a = b
  | Call c k => ∃ x, ok g c x ∧ exec (k x) (upd g c x) g' a
  | Crash => False
  end.

Lemma wpg_bind {A B} (m : io A) (k : A → io B) g (Q : G → B → Prop) :
  wpg m g (λ g a, wpg (k a) g Q) → wpg (io_bind m k) g Q.
Proof.
  revert g. induction m as [a|c f IH|]; intros g; simpl; [done| |done]. intros [Hc H]. split; [done|]. auto.
Qed.
Lemma wpg_mono {A} (m : io A) g (P Q : G → A → Prop) : wpg m g P → (∀ g a, P g a → Q g a) → wpg m g Q.
Proof.
  intros H HPQ. revert g H. induction m as [a|c f IH|]; intros g; simpl; [auto| |done]. intros [Hc H]. split; [done|]. auto.
Qed.
Lemma wpg_ask {A} c (k : answer c → io A) g Q :
  pre g c → (∀ x, ok g c x → wpg (k x) (upd g c x) Q) → wpg (io_bind (ask c) k) g Q.
Proof. done. Qed.
Lemma wpg_pure {A B} (m : res A) (k : A → io B) g Q : wp m (λ a, wpg (k a) g Q) → wpg (io_bind (pure m) k) g Q.
Proof. intros (a & -> & H)%wp_iff. done. Qed.
Lemma wpg_exec {A} (m : io A) g g' a Q : wpg m g Q → exec m g g' a → Q g' a.
Proof.
  revert g. induction m as [b|c f IH|]; intros g; simpl; [by intros ? [-> ->]| |done].
  intros [_ H] (x & Hx & He). by apply (IH x (upd g c x)); [apply H|].
Qed.
End contracts.

(** * Two programs and a connection

    [net] is a client and a server of [HevIo.io], each with its environment,
    and the bytes that are on their way.  A connection delivers what is sent,
    in order; a receive (all of them are [MSG_WAITALL] in a handshake) waits until all it asks for is there or the peer has
    given up and closed ([closed]).  Either program may run at any moment.
    Since the two meet only in the connection, all schedules have the same
    length and the same end ([one_outcome]). *)

Section party.
Context {W A : Type} (E : env W) (fd : Z).

(** one request: [inn] is what has arrived, [eof] whether more can; the
    program that goes on, what it sent, how much it took *)
Definition party_step (m : io A) (w : W) (inn : mem) (eof : bool) : option (io A * W * mem * nat) :=
  match m with
  | Call c k =>
      let other : option (io A * W * mem * nat) := Some (k (E c w).2, (E c w).1, [], 0%nat) in
      match c return (answer c → io A) → option (io A * W * mem * nat) → option (io A * W * mem * nat) with
      | HSend f d => λ k other, if f =? fd then Some (k (len d), w, d, 0%nat) else other
      | HRecv f n => λ k other,
          if negb (f =? fd) then other
          else if n <=? 0 then Some (k (inr 0), w, [], 0%nat)
          else if n <=? len inn then Some (k (inl (take (Z.to_nat n) inn)), w, [], Z.to_nat n)
          else if eof then Some (k (match inn with [] => inr 0 | _ => inl inn end), w, [], length inn)
          else None
      | _ => λ _ other, other
      end k other
  | _ => None
  end.

Lemma step_took m w inn eof r : party_step m w inn eof = Some r → (r.2 <= length inn)%nat.
Proof.
  destruct m as [a|c k|]; simpl; try done.
  assert (Ho : Some (k (E c w).2, (E c w).1, [], 0%nat) = Some r → (r.2 <= length inn)%nat).
  { intros [= <-]. simpl. lia. }
  destruct c; simpl; try exact Ho.
  - destruct (_ =? fd); [|exact Ho]. intros [= <-]. simpl. lia.
  - destruct (negb _); [exact Ho|]. destruct (_ <=? 0); [intros [= <-]; simpl; lia|].
    destruct (Z.leb_spec n (len inn)); [intros [= <-]; unfold len in *; simpl; lia|].
    destruct eof; [|done]. intros [= <-]. simpl. lia.
Qed.

(** what arrives later changes nothing *)
Lemma step_more m w inn r x eof : party_step m w inn false = Some r → party_step m w (inn ++ x) eof = Some r.
Proof.
  destruct m as [a|c k|]; simpl; try done. destruct c; simpl; try done.
  destruct (negb _); [done|]. destruct (_ <=? 0); [done|].
  destruct (Z.leb_spec n (len inn)) as [Hn|]; [|done]. intros <-.
  rewrite len_app. pose proof (len_nonneg x). rewrite (proj2 (Z.leb_le _ _)) by lia.
  rewrite take_app_le; [done|]. unfold len in *. lia.
Qed.
End party.

Record net (W1 W2 A B : Type) : Type := Net {
  n_client : io A; n_server : io B; n_up : mem; n_down : mem; n_wc : W1; n_ws : W2
}.
Arguments Net {W1 W2 A B} _ _ _ _ _ _.
Arguments n_client {W1 W2 A B} _.
Arguments n_server {W1 W2 A B} _.
Arguments n_up {W1 W2 A B} _.
Arguments n_down {W1 W2 A B} _.
Arguments n_wc {W1 W2 A B} _.
Arguments n_ws {W1 W2 A B} _.

Section net.
Context {W1 W2 A B : Type} (E1 : env W1) (E2 : env W2) (fd1 fd2 : Z).
(** the results a program closes the connection with *)
Context (gave_up1 : A → bool) (gave_up2 : B → bool).
Implicit Types n : net W1 W2 A B.

Definition closed {X} (gave_up : X → bool) (m : io X) : bool := match m with Done a => gave_up a | _ => false end.

Definition client_step n : option (net W1 W2 A B) :=
  match party_step E1 fd1 (n_client n) (n_wc n) (n_down n) (closed gave_up2 (n_server n)) with
  | Some (m, w, sent, took) => Some (Net m (n_server n) (n_up n ++ sent) (drop took (n_down n)) w (n_ws n))
  | None => None
  end.
Definition server_step n : option (net W1 W2 A B) :=
  match party_step E2 fd2 (n_server n) (n_ws n) (n_up n) (closed gave_up1 (n_client n)) with
  | Some (m, w, sent, took) => Some (Net (n_client n) m (drop took (n_up n)) (n_down n ++ sent) (n_wc n) w)
  | None => None
  end.
Inductive net_step n n' : Prop :=
  | ByClient : client_step n = Some n' → net_step n n'
  | ByServer : server_step n = Some n' → net_step n n'.

Lemma running {W X} (E : env W) fd (gave_up : X → bool) m w inn eof r :
  party_step E fd m w inn eof = Some r → closed gave_up m = false.
Proof. by destruct m. Qed.

Lemma steps_commute n n1 n2 : client_step n = Some n1 → server_step n = Some n2 →
  ∃ n3, server_step n1 = Some n3 ∧ client_step n2 = Some n3.
Proof.
  unfold client_step, server_step.
  destruct (party_step E1 fd1 _ _ _ _) as [[[[m1 w1] s1] t1]|] eqn:H1; [|done]. intros [= <-].
  destruct (party_step E2 fd2 _ _ _ _) as [[[[m2 w2] s2] t2]|] eqn:H2; [|done]. intros [= <-]. simpl.
  pose proof (running _ _ gave_up1 _ _ _ _ _ H1) as C1. pose proof (running _ _ gave_up2 _ _ _ _ _ H2) as C2.
  rewrite C2 in H1. rewrite C1 in H2. pose proof (step_took _ _ _ _ _ _ _ H1) as L1. pose proof (step_took _ _ _ _ _ _ _ H2) as L2.
  simpl in L1, L2. rewrite (step_more _ _ _ _ _ _ _ _ H1), (step_more _ _ _ _ _ _ _ _ H2).
  eexists. split; [done|]. by rewrite !drop_app_le by done.
Qed.

Lemma step_unique n T k x :
  nsteps net_step k n T → nf net_step T → net_step n x → ∃ j, k = Datatypes.S j ∧ nsteps net_step j x T.
Proof.
  intros Hk HT. revert x. induction Hk as [n|k n y T Hy Hk IH]; intros x Hx; [by destruct HT; eexists|].
  assert (x = y ∨ ∃ z, net_step x z ∧ net_step y z) as [->|(z & Hxz & Hyz)].
  { destruct Hx as [Hx|Hx], Hy as [Hy|Hy]; [left; congruence| | |left; congruence]; right.
    - destruct (steps_commute n x y Hx Hy) as (z & H1 & H2). exists z. by split; [right|left].
    - destruct (steps_commute n y x Hy Hx) as (z & H1 & H2). exists z. by split; [left|right]. }
  - eauto.
  - destruct (IH HT z Hyz) as (j & -> & Hj). exists (Datatypes.S j). split; [done|]. by econstructor.
Qed.

(** every schedule has the length of this one and ends where it ends *)
Theorem one_outcome n T k : nsteps net_step k n T → nf net_step T →
  ∀ j x, nsteps net_step j n x → ∃ i, k = (j + i)%nat ∧ nsteps net_step i x T.
Proof.
  intros Hk HT j x Hj. revert k Hk. induction Hj as [n|j n y x Hy Hj IH]; intros k Hk; [by exists k|].
  destruct (step_unique n T k y Hk HT Hy) as (i & -> & Hi). destruct (IH i Hi) as (i' & -> & Hx).
  exists i'. by split; [lia|].
Qed.

(** ** One program's turn *)

Lemma client_turn {X} (m : io X) (k : X → io A) b up down w w' ws a n' :
  run E1 m w = Some (w', a) →
  rtc net_step (Net (k a) b up down w' ws) n' → rtc net_step (Net (io_bind m k) b up down w ws) n'.
Proof.
  revert w. induction m as [x|c f IH|]; intros w; simpl; [by intros [= -> ->]| |done].
  destruct (on_wire c) eqn:Ec; [done|]. destruct (E1 c w) as [w1 x] eqn:E. intros H1 H2.
  eapply rtc_l; [apply ByClient|apply (IH _ _ H1 H2)]. unfold client_step.
  replace (party_step _ _ _ _ _ _) with (Some (io_bind (f x) k, w1, [] : mem, 0%nat)).
  - cbn [n_server n_up n_down n_ws]. by rewrite app_nil_r, drop_0.
  - simpl. by destruct c; simpl in Ec |- *; try done; rewrite E.
Qed.
Lemma server_turn {X} (m : io X) (k : X → io B) b up down w w' wc a n' :
  run E2 m w = Some (w', a) →
  rtc net_step (Net b (k a) up down wc w') n' → rtc net_step (Net b (io_bind m k) up down wc w) n'.
Proof.
  revert w. induction m as [x|c f IH|]; intros w; simpl; [by intros [= -> ->]| |done].
  destruct (on_wire c) eqn:Ec; [done|]. destruct (E2 c w) as [w1 x] eqn:E. intros H1 H2.
  eapply rtc_l; [apply ByServer|apply (IH _ _ H1 H2)]. unfold server_step.
  replace (party_step _ _ _ _ _ _) with (Some (io_bind (f x) k, w1, [] : mem, 0%nat)).
  - cbn [n_client n_up n_down n_wc]. by rewrite app_nil_r, drop_0.
  - simpl. by destruct c; simpl in Ec |- *; try done; rewrite E.
Qed.

Lemma client_sends d (k : Z → io A) b up down wc ws n' :
  rtc net_step (Net (k (len d)) b (up ++ d) down wc ws) n' →
  rtc net_step (Net (io_bind (ask (HSend fd1 d)) k) b up down wc ws) n'.
Proof. intros H. eapply rtc_l; [apply ByClient|exact H]. unfold client_step. simpl. by rewrite Z.eqb_refl, drop_0. Qed.
Lemma server_sends d (k : Z → io B) b up down wc ws n' :
  rtc net_step (Net b (k (len d)) up (down ++ d) wc ws) n' →
  rtc net_step (Net b (io_bind (ask (HSend fd2 d)) k) up down wc ws) n'.
Proof. intros H. eapply rtc_l; [apply ByServer|exact H]. unfold server_step. simpl. by rewrite Z.eqb_refl, drop_0. Qed.

Lemma arrived d rest : take (Z.to_nat (len d)) (d ++ rest) = d ∧ drop (Z.to_nat (len d)) (d ++ rest) = rest.
Proof. by rewrite take_len_app, drop_len_app. Qed.
Lemma client_receives d (sz : Z) (k : mem + Z → io A) b up down wc ws n' :
  0 < sz → sz = len d →
  rtc net_step (Net (k (inl d)) b up down wc ws) n' →
  rtc net_step (Net (io_bind (ask (HRecv fd1 sz)) k) b up (d ++ down) wc ws) n'.
Proof.
  intros Hn -> H. eapply rtc_l; [apply ByClient|exact H]. unfold client_step. simpl. rewrite Z.eqb_refl. simpl.
  rewrite (proj2 (Z.leb_gt _ _)) by lia. rewrite len_app. pose proof (len_nonneg down).
  rewrite (proj2 (Z.leb_le _ _)) by lia. destruct (arrived d down) as [-> ->]. by rewrite app_nil_r.
Qed.
Lemma server_receives d (sz : Z) (k : mem + Z → io B) b up down wc ws n' :
  0 < sz → sz = len d →
  rtc net_step (Net b (k (inl d)) up down wc ws) n' →
  rtc net_step (Net b (io_bind (ask (HRecv fd2 sz)) k) (d ++ up) down wc ws) n'.
Proof.
  intros Hn -> H. eapply rtc_l; [apply ByServer|exact H]. unfold server_step. simpl. rewrite Z.eqb_refl. simpl.
  rewrite (proj2 (Z.leb_gt _ _)) by lia. rewrite len_app. pose proof (len_nonneg up).
  rewrite (proj2 (Z.leb_le _ _)) by lia. destruct (arrived d up) as [-> ->]. by rewrite app_nil_r.
Qed.
End net.
