(* ===== verification/HevSocks5.v ===== *)
(** * hev-socks5, addresses and sockets: src/core/src/hev-socks5.c,
    hev-socks5-misc.c, hev-socks5-proto.h

    A [HevSocks5Addr] is 260 bytes of memory (or a shorter block that holds
    one), because its three forms overlay one another: the type at 0; for an
    IPv4 or IPv6 address the address at 1 and the port behind it; for a name
    its length at 1, the name at 2 and the port behind it.  A port that is in
    network order is its two bytes. *)

From Stdlib Require Import ZArith Lia Bool List.
From Stdlib Require Import Strings.Byte Strings.String.
From stdpp Require Import base tactics list numbers option.
From S2P Require Import Prelude CMem HevIo.

(** ** hev-socks5-proto.h *)

Definition HEV_SOCKS5_VERSION_5 : Z := 5.
Definition HEV_SOCKS5_AUTH_METHOD_NONE : Z := 0.
Definition HEV_SOCKS5_AUTH_METHOD_USER : Z := 2.
Definition HEV_SOCKS5_AUTH_VERSION_1 : Z := 1.
Definition HEV_SOCKS5_REQ_CMD_CONNECT : Z := 1.
Definition HEV_SOCKS5_REQ_CMD_UDP_ASC : Z := 3.
Definition HEV_SOCKS5_REQ_CMD_FWD_UDP : Z := 5.
Definition HEV_SOCKS5_RES_REP_SUCC : Z := 0.
Definition HEV_SOCKS5_RES_REP_FAIL : Z := 1.
Definition HEV_SOCKS5_RES_REP_HOST : Z := 4.
Definition HEV_SOCKS5_RES_REP_IMPL : Z := 7.
Definition HEV_SOCKS5_RES_REP_ADDR : Z := 8.
Definition HEV_SOCKS5_ADDR_TYPE_IPV4 : Z := 1.
Definition HEV_SOCKS5_ADDR_TYPE_IPV6 : Z := 4.
Definition HEV_SOCKS5_ADDR_TYPE_NAME : Z := 3.

(** ** hev-socks5.c *)

Inductive HevSocks5Type : Type := TYPE_NONE | TYPE_TCP | TYPE_UDP_IN_TCP | TYPE_UDP_IN_UDP.
#[export] Instance type_eq_dec : EqDecision HevSocks5Type.
Proof. solve_decision. Defined.

Record HevSocks5 : Type := Socks5 {
  s5_fd : Z; s5_timeout : Z; s5_type : HevSocks5Type; s5_udp_associated : bool; s5_addr_family : Z
}.
#[export] Instance socks5_eta : Eta HevSocks5 :=
  λ s, Socks5 (s5_fd s) (s5_timeout s) (s5_type s) (s5_udp_associated s) (s5_addr_family s).

Definition hev_socks5_construct (type : HevSocks5Type) : HevSocks5 := Socks5 (-1) (-1) type false AF_UNSPEC.
(** once it is zero it stays zero *)
Definition hev_socks5_set_timeout (self : HevSocks5) (timeout : Z) : HevSocks5 :=
  if s5_timeout self =? 0 then self else self <| s5_timeout := timeout |>.
Definition hev_socks5_set_addr_family (self : HevSocks5) (family : Z) : HevSocks5 := self <| s5_addr_family := family |>.
Definition hev_socks5_destruct (self : HevSocks5) : io unit :=
  if 0 <=? s5_fd self then _ <~ ask (HDelFd (s5_fd self)); ask (HClose (s5_fd self)) else Done tt.

(** ** hev-socks5-misc.c *)

(** the globals *)
Record Timeouts : Type := MkTimeouts { connect_timeout : Z; tcp_timeout : Z; udp_timeout : Z }.
Definition default_timeouts : Timeouts := MkTimeouts 10000 300000 60000.

Definition hev_socks5_socket (type : Z) : io Z :=
  fd <~ ask (HSocket type);
  if fd <? 0 then Done (-1) else
  res <~ ask (HV6Only fd);
  if res <? 0 then _ <~ ask (HClose fd); Done (-1) else
  res <~ ask (HAddFd fd);
  _ <~ (if res <? 0 then _ <~ ask (HModFd fd); Done tt else Done tt);
  _ <~ (if type =? SOCK_DGRAM then ask (HRcvbuf fd) else Done tt);
  Done fd.

(** [htons], [ntohs] of the bytes of a port *)
Definition htons (port : Z) : mem := [bz (Z.shiftr (u16 port) 8); bz (u16 port)].
Definition ntohs (port : mem) : Z := match port with [a; b] => zb a * 256 + zb b | _ => 0 end.

(** the C string at the front of [m] *)
Fixpoint c_str (m : mem) : mem :=
  match m with [] => [] | c :: m => if zb c =? 0 then [] else c :: c_str m end.
(** its length; running off the end of the memory is undefined *)
Definition strlen (m : mem) : res Z := let n := len (c_str m) in if n <? len m then Ok n else UB.
(** [strncpy]: [n] bytes, zeros behind a shorter string *)
Definition strncpy (dst : mem) (d : Z) (src : mem) (n : Z) : res mem :=
  let s := take (Z.to_nat n) (c_str src) in
  memcpy dst d (s ++ repeat x00 (Z.to_nat n - length s)) 0 n.

(** [len] is held in a byte *)
Definition name_len (addr : mem) : res Z := l ← rd addr 1; Ok (zb l).

Definition hev_socks5_addr_len (addr : mem) : res Z :=
  atype ← rd addr 0;
  if zb atype =? HEV_SOCKS5_ADDR_TYPE_IPV4 then Ok 7
  else if zb atype =? HEV_SOCKS5_ADDR_TYPE_IPV6 then Ok 19
  else if zb atype =? HEV_SOCKS5_ADDR_TYPE_NAME then l ← name_len addr; Ok (4 + l)
  else Ok (-1).

Definition hev_socks5_addr_from_name (addr name port : mem) : res (mem * Z) :=
  addr ← wr addr 0 HEV_SOCKS5_ADDR_TYPE_NAME;
  addr ← strncpy addr 2 name 256;
  n ← strlen (drop 2 addr);
  addr ← wr addr 1 n;
  l ← name_len addr;
  addr ← memcpy addr (2 + l) port 0 2;
  Ok (addr, 4 + l).

Definition hev_socks5_addr_from_ipv4 (addr ipv4 port : mem) : res (mem * Z) :=
  addr ← wr addr 0 HEV_SOCKS5_ADDR_TYPE_IPV4;
  addr ← memcpy addr 1 ipv4 0 4;
  addr ← memcpy addr 5 port 0 2;
  Ok (addr, 7).
Definition hev_socks5_addr_from_ipv6 (addr ipv6 port : mem) : res (mem * Z) :=
  addr ← wr addr 0 HEV_SOCKS5_ADDR_TYPE_IPV6;
  addr ← memcpy addr 1 ipv6 0 16;
  addr ← memcpy addr 17 port 0 2;
  Ok (addr, 19).

Definition V4MAPPED : mem := repeat x00 10 ++ [xff; xff].
Definition in6_is_addr_v4mapped (a : mem) : bool := bool_decide (take 12 a = V4MAPPED).

Definition hev_socks5_addr_from_sockaddr6 (addr : mem) (saddr : sockaddr_in6) : res (mem * Z) :=
  if in6_is_addr_v4mapped (sin6_addr saddr) then
    addr ← wr addr 0 HEV_SOCKS5_ADDR_TYPE_IPV4;
    addr ← memcpy addr 5 (sin6_port saddr) 0 2;
    addr ← memcpy addr 1 (sin6_addr saddr) 12 4;
    Ok (addr, 7)
  else
    addr ← wr addr 0 HEV_SOCKS5_ADDR_TYPE_IPV6;
    addr ← memcpy addr 17 (sin6_port saddr) 0 2;
    addr ← memcpy addr 1 (sin6_addr saddr) 0 16;
    Ok (addr, 19).

Definition hev_socks5_ipv4_into_sockaddr6 (addr : mem) : res sockaddr_in6 :=
  port ← bytes_at 5 2 addr; a ← bytes_at 1 4 addr; Ok (Sin6 AF_INET6 port (V4MAPPED ++ a)).
Definition hev_socks5_ipv6_into_sockaddr6 (addr : mem) : res sockaddr_in6 :=
  port ← bytes_at 17 2 addr; a ← bytes_at 1 16 addr; Ok (Sin6 AF_INET6 port a).

Section resolve.
(** [inet_pton] for the two families: the bytes of the address, or none when
    the text is not one *)
Context (inet_pton4 inet_pton6 : mem → option mem).

(** the result, the address and the family *)
Definition hev_socks5_name_resolve_name (name : mem) (saddr : sockaddr_in6) (family : Z) : io (Z * sockaddr_in6 * Z) :=
  result <~ ask (HGetaddrinfo name family);
  Done (match result with
        | None => (-1, saddr, family)
        | Some (f, a) =>
            if f =? AF_INET then (0, saddr <| sin6_addr := V4MAPPED ++ a |>, AF_INET)
            else if f =? AF_INET6 then (0, saddr <| sin6_addr := a |>, AF_INET6)
            else (-1, saddr, family)
        end).

Definition hev_socks5_name_into_sockaddr6 (name : mem) (port : Z) (saddr : sockaddr_in6) (family : Z)
    : io (Z * sockaddr_in6 * Z) :=
  let saddr := Sin6 AF_INET6 (htons port) (repeat x00 10 ++ drop 10 (sin6_addr saddr)) in
  match inet_pton4 name with
  | Some a => Done (0, saddr <| sin6_addr := V4MAPPED ++ a |>, AF_INET)
  | None =>
  match inet_pton6 name with
  | Some a => Done (0, saddr <| sin6_addr := a |>, AF_INET6)
  | None => hev_socks5_name_resolve_name name saddr family
  end end.

Definition hev_socks5_addr_into_sockaddr6 (addr : mem) (saddr : sockaddr_in6) (family : Z) : io (Z * sockaddr_in6 * Z) :=
  atype <~ pure (rd addr 0);
  if zb atype =? HEV_SOCKS5_ADDR_TYPE_IPV4 then saddr <~ pure (hev_socks5_ipv4_into_sockaddr6 addr); Done (0, saddr, AF_INET)
  else if zb atype =? HEV_SOCKS5_ADDR_TYPE_IPV6 then saddr <~ pure (hev_socks5_ipv6_into_sockaddr6 addr); Done (0, saddr, AF_INET6)
  else if zb atype =? HEV_SOCKS5_ADDR_TYPE_NAME then
    l <~ pure (name_len addr);
    name <~ pure (bytes_at 2 l addr);
    port <~ pure (bytes_at (2 + l) 2 addr);
    hev_socks5_name_into_sockaddr6 (c_str name) (ntohs port) saddr family
  else Done (-1, saddr, family).
End resolve.
