(* ===== verification/HevSocks5Client.v ===== *)
(** * hev-socks5, the client: src/core/src/hev-socks5-client.c,
    hev-socks5-client-tcp.c, hev-socks5-client-udp.c and, for what the tunnel
    overrides, src/hev-socks5-session.c and hev-socks5-session-udp.c

    A client is an object of the TCP or the UDP class; the tunnel's sessions
    are subclasses that differ in the binder and, for UDP, in what is done with
    the address the server answers.  A program returns the object and the
    result of the C function. *)

From Stdlib Require Import ZArith Lia Bool List.
From Stdlib Require Import Strings.Byte Strings.String.
From stdpp Require Import base tactics list numbers option.
From S2P Require Import Prelude CMem HevIo HevSocks5.

(** hev-config.h *)
Record HevConfigServer : Type := ConfigServer {
  srv_user : option mem; srv_pass : option mem; srv_mark : Z; srv_udp_in_udp : bool; srv_port : Z;
  srv_pipeline : bool; srv_fastopen : Z; srv_udp_addr : mem; srv_addr : mem
}.

Inductive client_class : Type := ClientTCP | ClientUDP.
Record HevSocks5Client : Type := Client {
  cl_base : HevSocks5; cl_class : client_class;
  cl_user : option mem; cl_pass : option mem;  (* auth; C strings, or the null pointer *)
  cl_addr : option mem;                        (* the TCP client's address, on the heap *)
  cl_fd : Z                                    (* the UDP client's socket *)
}.
#[export] Instance client_eta : Eta HevSocks5Client :=
  λ c, Client (cl_base c) (cl_class c) (cl_user c) (cl_pass c) (cl_addr c) (cl_fd c).

Section client.
Context (inet_pton4 inet_pton6 : mem → option mem) (srv : HevConfigServer) (tm : Timeouts).
(** what a local [HevSocks5Addr] holds before it is written *)
Context (stack : mem).
Implicit Types (self : HevSocks5Client).

Definition hev_socks5_session_bind (fd : Z) (dest : sockaddr_in6) : io Z :=
  res <~ (if negb (srv_mark srv =? 0) then ask (HMark fd (srv_mark srv)) else Done 0);
  if res <? 0 then Done (-1) else
  _ <~ ask (HFastopen fd (srv_fastopen srv)); Done 0.

(** *** hev-socks5-client-tcp.c, hev-socks5-client-udp.c *)

Definition hev_socks5_client_construct (class : client_class) (type : HevSocks5Type) : HevSocks5Client :=
  Client (hev_socks5_construct type) class None None None (-1).
Definition hev_socks5_client_tcp_construct (addr : mem) : io (option HevSocks5Client) :=
  n <~ pure (hev_socks5_addr_len addr);
  ok <~ ask (HMalloc n);
  if (ok : bool) then
    block <~ pure (bytes_at 0 n addr);
    Done (Some (hev_socks5_client_construct ClientTCP TYPE_TCP <| cl_addr := Some block |>))
  else Done None.
Definition hev_socks5_client_udp_construct (type : HevSocks5Type) : HevSocks5Client :=
  hev_socks5_client_construct ClientUDP type.

Definition hev_socks5_client_tcp_get_upstream_addr self : io (HevSocks5Client * option mem) :=
  Done (self <| cl_addr := None |>, cl_addr self).
Definition hev_socks5_client_udp_get_upstream_addr self : io (HevSocks5Client * option mem) :=
  let block n atype :=
    ok <~ ask (HMalloc n); Done (self, if (ok : bool) then Some (bz atype :: repeat x00 (Z.to_nat n - 1)) else None) in
  let family := s5_addr_family (cl_base self) in
  if family =? AF_INET then block 7 HEV_SOCKS5_ADDR_TYPE_IPV4
  else if family =? AF_INET6 then block 19 HEV_SOCKS5_ADDR_TYPE_IPV6
  else Done (self, None).

(** binds, connects; closes on failure *)
Definition bind_connect (fd : Z) (saddr : sockaddr_in6) : io Z :=
  let fail := _ <~ ask (HDelFd fd); _ <~ ask (HClose fd); Done (-1) in
  res <~ hev_socks5_session_bind fd saddr;
  if res <? 0 then fail else
  res <~ ask (HConnect fd saddr);
  if res <? 0 then fail else Done fd.

Definition zero_addr : sockaddr_in6 := Sin6 0 [x00; x00] (repeat x00 16).

Definition hev_socks5_client_udp_set_upstream_addr self (addr : mem) : io (HevSocks5Client * Z) :=
  if negb (bool_decide (s5_type (cl_base self) = TYPE_UDP_IN_UDP)) then Done (self, 0) else
  '(res, saddr, _) <~ hev_socks5_addr_into_sockaddr6 inet_pton4 inet_pton6 addr zero_addr (s5_addr_family (cl_base self));
  if res <? 0 then Done (self, -1) else
  fd <~ hev_socks5_socket SOCK_DGRAM;
  if fd <? 0 then Done (self, -1) else
  fd <~ bind_connect fd saddr;
  if fd <? 0 then Done (self, -1) else
  Done (self <| cl_base := cl_base self <| s5_udp_associated := true |> |> <| cl_fd := fd |>, 0).

(** hev-socks5-session-udp.c *)
Definition hev_socks5_addr_get_port (addr : mem) : res mem :=
  atype ← rd addr 0;
  if zb atype =? HEV_SOCKS5_ADDR_TYPE_IPV4 then bytes_at 5 2 addr
  else if zb atype =? HEV_SOCKS5_ADDR_TYPE_IPV6 then bytes_at 17 2 addr
  else if zb atype =? HEV_SOCKS5_ADDR_TYPE_NAME then l ← name_len addr; bytes_at (2 + l) 2 addr
  else Ok [x00; x00].
Definition hev_socks5_session_udp_set_upstream_addr self (addr : mem) : io (HevSocks5Client * Z) :=
  addr <~ (if srv_udp_in_udp srv && negb (bool_decide (c_str (srv_udp_addr srv) = [])) then
            port <~ pure (hev_socks5_addr_get_port addr);
            '(addr, _) <~ pure (hev_socks5_addr_from_name addr (srv_udp_addr srv) port); Done addr
          else Done addr);
  hev_socks5_client_udp_set_upstream_addr self addr.

(** the virtual calls *)
Definition get_upstream_addr self : io (HevSocks5Client * option mem) :=
  match cl_class self with
  | ClientTCP => hev_socks5_client_tcp_get_upstream_addr self
  | ClientUDP => hev_socks5_client_udp_get_upstream_addr self
  end.
Definition set_upstream_addr self (addr : mem) : io (HevSocks5Client * Z) :=
  match cl_class self with
  | ClientTCP => Done (self, 0)
  | ClientUDP => hev_socks5_session_udp_set_upstream_addr self addr
  end.

(** *** hev-socks5-client.c: what is written *)

Definition fd_of self : Z := s5_fd (cl_base self).
Definition creds self : option (mem * mem) :=
  match cl_user self, cl_pass self with Some user, Some pass => Some (user, pass) | _, _ => None end.
Definition sent (r : Z) : Z := if r <=? 0 then -1 else 0.

Definition hev_socks5_client_write_auth_methods self : io Z :=
  let method := match creds self with None => HEV_SOCKS5_AUTH_METHOD_NONE | Some _ => HEV_SOCKS5_AUTH_METHOD_USER end in
  res <~ ask (HSend (fd_of self) [bz HEV_SOCKS5_VERSION_5; bz 1; bz method]);
  Done (sent res).

Definition hev_socks5_client_write_auth_creds self : io Z :=
  match creds self with
  | None => Done 0
  | Some (user, pass) =>
      let n := u8 (len user) in let m := u8 (len pass) in
      res <~ ask (HSend (fd_of self) ([bz HEV_SOCKS5_AUTH_VERSION_1; bz n] ++ slice user 0 n ++ [bz m] ++ slice pass 0 m));
      Done (sent res)
  end.

(** from the call of [get_upstream_addr] on; the block is not freed when the
    type is unknown or the send fails *)
Definition send_request self (cmd : Z) : io (HevSocks5Client * Z) :=
  '(self, addr) <~ get_upstream_addr self;
  match addr with
  | None => Crash
  | Some addr =>
      addrlen <~ pure (hev_socks5_addr_len addr);
      if addrlen <? 0 then Done (self, -1) else
      body <~ pure (bytes_at 0 addrlen addr);
      ret <~ ask (HSend (fd_of self) ([bz HEV_SOCKS5_VERSION_5; bz cmd; bz 0] ++ body));
      if ret <=? 0 then Done (self, -1) else
      _ <~ ask HFree; Done (self, 0)
  end.
Definition hev_socks5_client_write_request self : io (HevSocks5Client * Z) :=
  match s5_type (cl_base self) with
  | TYPE_TCP => send_request self HEV_SOCKS5_REQ_CMD_CONNECT
  | TYPE_UDP_IN_TCP => send_request self HEV_SOCKS5_REQ_CMD_FWD_UDP
  | TYPE_UDP_IN_UDP => send_request self HEV_SOCKS5_REQ_CMD_UDP_ASC
  | TYPE_NONE => Done (self, -1)
  end.

(** *** What is read *)

Definition hev_socks5_client_read_auth_method self : io Z :=
  r <~ ask (HRecv (fd_of self) 2);
  if negb (recvd r =? 2) then Done (-1) else
  ver <~ pure (rd (stored r) 0);
  if negb (zb ver =? HEV_SOCKS5_VERSION_5) then Done (-1) else
  method <~ pure (rd (stored r) 1); Done (zb method).

Definition hev_socks5_client_read_auth_creds self : io Z :=
  r <~ ask (HRecv (fd_of self) 2);
  if negb (recvd r =? 2) then Done (-1) else
  ver <~ pure (rd (stored r) 0);
  if negb (zb ver =? HEV_SOCKS5_AUTH_VERSION_1) then Done (-1) else
  rep <~ pure (rd (stored r) 1);
  if negb (zb rep =? HEV_SOCKS5_RES_REP_SUCC) then Done (-1) else Done 0.

Definition hev_socks5_client_read_response self : io (HevSocks5Client * Z) :=
  r <~ ask (HRecv (fd_of self) 4);
  if negb (recvd r =? 4) then Done (self, -1) else
  ver <~ pure (rd (stored r) 0);
  if negb (zb ver =? HEV_SOCKS5_VERSION_5) then Done (self, -1) else
  rep <~ pure (rd (stored r) 1);
  if negb (zb rep =? HEV_SOCKS5_RES_REP_SUCC) then Done (self, -1) else
  atype <~ pure (rd (stored r) 3);
  let addrlen := if zb atype =? HEV_SOCKS5_ADDR_TYPE_IPV4 then 6
                 else if zb atype =? HEV_SOCKS5_ADDR_TYPE_IPV6 then 18 else -1 in
  if addrlen <? 0 then Done (self, -1) else
  r <~ ask (HRecv (fd_of self) addrlen);
  if negb (recvd r =? addrlen) then Done (self, -1) else
  '(self, ret) <~ set_upstream_addr self (splice stack 0 (atype :: stored r));
  Done (self, if ret <? 0 then -1 else 0).

(** *** Connecting and shaking hands *)

Definition hev_socks5_client_connect self (addr : mem) (port : Z) : io (HevSocks5Client * Z) :=
  let self := self <| cl_base := hev_socks5_set_timeout (cl_base self) (connect_timeout tm) |> in
  '(res, saddr, family) <~ hev_socks5_name_into_sockaddr6 inet_pton4 inet_pton6 addr port zero_addr
                             (s5_addr_family (cl_base self));
  if res <? 0 then Done (self, -1) else
  fd <~ hev_socks5_socket SOCK_STREAM;
  if fd <? 0 then Done (self, -1) else
  fd <~ bind_connect fd saddr;
  if fd <? 0 then Done (self, -1) else
  Done (self <| cl_base := hev_socks5_set_addr_family (cl_base self <| s5_fd := fd |>) family |>, 0).

Definition hev_socks5_client_handshake_standard self : io (HevSocks5Client * Z) :=
  res <~ hev_socks5_client_write_auth_methods self;
  if res <? 0 then Done (self, -1) else
  res <~ hev_socks5_client_read_auth_method self;
  if res <? 0 then Done (self, -1) else
  res <~ (if res =? HEV_SOCKS5_AUTH_METHOD_USER then
            res <~ hev_socks5_client_write_auth_creds self;
            if res <? 0 then Done (-1) else hev_socks5_client_read_auth_creds self
          else Done (if negb (res =? HEV_SOCKS5_AUTH_METHOD_NONE) then -1 else 0));
  if res <? 0 then Done (self, -1) else
  '(self, res) <~ hev_socks5_client_write_request self;
  if res <? 0 then Done (self, -1) else
  '(self, res) <~ hev_socks5_client_read_response self;
  Done (self, if res <? 0 then -1 else 0).

Definition hev_socks5_client_handshake_pipeline self : io (HevSocks5Client * Z) :=
  res <~ hev_socks5_client_write_auth_methods self;
  if res <? 0 then Done (self, -1) else
  res <~ hev_socks5_client_write_auth_creds self;
  if res <? 0 then Done (self, -1) else
  '(self, res) <~ hev_socks5_client_write_request self;
  if res <? 0 then Done (self, -1) else
  res <~ hev_socks5_client_read_auth_method self;
  if res <? 0 then Done (self, -1) else
  res <~ (if res =? HEV_SOCKS5_AUTH_METHOD_USER then hev_socks5_client_read_auth_creds self
          else Done (if negb (res =? HEV_SOCKS5_AUTH_METHOD_NONE) then -1 else 0));
  if res <? 0 then Done (self, -1) else
  '(self, res) <~ hev_socks5_client_read_response self;
  Done (self, if res <? 0 then -1 else 0).

Definition hev_socks5_client_handshake self (pipeline : bool) : io (HevSocks5Client * Z) :=
  let self := self <| cl_base := hev_socks5_set_timeout (cl_base self) (tcp_timeout tm) |> in
  '(self, res) <~ (if pipeline then hev_socks5_client_handshake_pipeline self
                   else hev_socks5_client_handshake_standard self);
  let self := match s5_type (cl_base self) with
              | TYPE_UDP_IN_TCP | TYPE_UDP_IN_UDP =>
                  self <| cl_base := hev_socks5_set_timeout (cl_base self) (udp_timeout tm) |>
              | _ => self
              end in
  Done (self, res).

Definition hev_socks5_client_set_auth self (user pass : option mem) : HevSocks5Client :=
  self <| cl_user := user |> <| cl_pass := pass |>.

(** hev-socks5-session.c: true when the session's splicer is to run *)
Definition hev_socks5_session_run self : io (HevSocks5Client * bool) :=
  '(self, res) <~ hev_socks5_client_connect self (srv_addr srv) (srv_port srv);
  if res <? 0 then Done (self, false) else
  let self := match srv_user srv, srv_pass srv with
              | Some user, Some pass => hev_socks5_client_set_auth self (Some user) (Some pass)
              | _, _ => self
              end in
  '(self, res) <~ hev_socks5_client_handshake self (srv_pipeline srv);
  Done (self, negb (res <? 0)).

(** the destructors of the two classes *)
Definition hev_socks5_client_tcp_destruct self : io unit :=
  _ <~ (match cl_addr self with Some _ => ask HFree | None => Done tt end); hev_socks5_destruct (cl_base self).
Definition hev_socks5_client_udp_destruct self : io unit :=
  _ <~ (if 0 <=? cl_fd self then _ <~ ask (HDelFd (cl_fd self)); ask (HClose (cl_fd self)) else Done tt);
  hev_socks5_destruct (cl_base self).
End client.
