(* ===== verification/HevSocks5Server.v ===== *)
(** * hev-socks5, the server: src/core/src/hev-socks5-server.c, hev-socks5-tcp.c

    A program returns the object and the result of the C function.  The
    authenticator is shared by all servers of a process; [sv_auth] is that
    object as the server finds it, since nothing else runs while the server
    looks a user up and takes a reference.  The references to the authenticator
    itself are not counted here. *)

From Stdlib Require Import ZArith Lia Bool List.
From Stdlib Require Import Strings.Byte Strings.String.
From stdpp Require Import base tactics list numbers option gmap.
From S2P Require Import Prelude CMem HevRbtree HevAuth HevIo HevSocks5.

(** the union [obj]/[user]/[auth] *)
Inductive server_obj : Type := ObjNull | ObjAuth | ObjUser (x : nat).
Record HevSocks5Server : Type := Server {
  sv_base : HevSocks5; sv_fd0 : Z; sv_fd1 : Z; sv_obj : server_obj; sv_auth : HevSocks5Authenticator
}.
#[export] Instance server_eta : Eta HevSocks5Server :=
  λ s, Server (sv_base s) (sv_fd0 s) (sv_fd1 s) (sv_obj s) (sv_auth s).

Section server.
Context (inet_pton4 inet_pton6 : mem → option mem) (tm : Timeouts).
(** what a local [HevSocks5Addr] holds before it is written *)
Context (stack : mem).
(** the splicers of the two kinds of session *)
Context (tcp_splice udp_splice : HevSocks5Server → io HevSocks5Server).
Implicit Types (self : HevSocks5Server).

Definition hev_socks5_server_construct (fd : Z) : HevSocks5Server :=
  Server (hev_socks5_construct TYPE_NONE <| s5_fd := fd |>) (-1) (-1) ObjNull hev_socks5_authenticator_new.
Definition hev_socks5_server_set_auth self (auth : HevSocks5Authenticator) : HevSocks5Server :=
  self <| sv_obj := ObjAuth |> <| sv_auth := auth |>.

Definition sfd_of self : Z := s5_fd (sv_base self).
Definition wrote (r : Z) : Z := if r <=? 0 then -1 else 0.

(** *** Who may use the server *)

Fixpoint find_method (methods : mem) (method : Z) : Z :=
  match methods with [] => -1 | m :: methods => if zb m =? method then method else find_method methods method end.

Definition hev_socks5_server_read_auth_method self : io Z :=
  r <~ ask (HRecv (sfd_of self) 2);
  if negb (recvd r =? 2) then Done (-1) else
  ver <~ pure (rd (stored r) 0);
  if negb (zb ver =? HEV_SOCKS5_VERSION_5) then Done (-1) else
  n <~ pure (rd (stored r) 1);
  r <~ ask (HRecv (sfd_of self) (zb n));
  if negb (recvd r =? zb n) then Done (-1) else
  let method := match sv_obj self with ObjNull => HEV_SOCKS5_AUTH_METHOD_NONE | _ => HEV_SOCKS5_AUTH_METHOD_USER end in
  Done (find_method (stored r) method).

Definition hev_socks5_server_write_auth_method self (auth_method : Z) : io Z :=
  res <~ ask (HSend (sfd_of self) [bz HEV_SOCKS5_VERSION_5; bz auth_method]); Done (wrote res).

(** is [pass] the password of the user of that name?  The server then holds
    the user instead of the authenticator. *)
Definition check_user self (name pass : mem) : res (HevSocks5Server * Z) :=
  match sv_obj self with
  | ObjAuth =>
      user ← hev_socks5_authenticator_get (sv_auth self) name;
      match user with
      | None => Ok (self, -1)
      | Some x =>
          u ← get_user (sv_auth self) x;
          if hev_socks5_user_checker u pass <? 0 then Ok (self, -1) else
          auth ← user_ref (sv_auth self) x;
          Ok (self <| sv_auth := auth |> <| sv_obj := ObjUser x |>, 0)
      end
  | _ => UB
  end.

Definition hev_socks5_server_read_auth_user self : io (HevSocks5Server * Z) :=
  r <~ ask (HRecv (sfd_of self) 2);
  if negb (recvd r =? 2) then Done (self, -1) else
  ver <~ pure (rd (stored r) 0);
  if negb (zb ver =? 1) then Done (self, -1) else
  nlen <~ pure (rd (stored r) 1);
  let nlen := zb nlen in
  if nlen =? 0 then Done (self, -1) else
  r <~ ask (HRecv (sfd_of self) (nlen + 1));
  if negb (recvd r =? nlen + 1) then Done (self, -1) else
  name <~ pure (bytes_at 0 nlen (stored r));
  plen <~ pure (rd (stored r) nlen);
  let plen := zb plen in
  if plen =? 0 then Done (self, -1) else
  r <~ ask (HRecv (sfd_of self) plen);
  if negb (recvd r =? plen) then Done (self, -1) else
  pure (check_user self name (stored r)).

Definition hev_socks5_server_write_auth_user self (auth_res : Z) : io Z :=
  res <~ ask (HSend (sfd_of self) [bz 1; bz auth_res]); Done (wrote res).

Definition hev_socks5_server_auth self : io (HevSocks5Server * Z) :=
  method <~ hev_socks5_server_read_auth_method self;
  res <~ hev_socks5_server_write_auth_method self method;
  if res <? 0 then Done (self, -1) else
  if method =? HEV_SOCKS5_AUTH_METHOD_NONE then Done (self, 0)
  else if method =? HEV_SOCKS5_AUTH_METHOD_USER then
    '(self, res) <~ hev_socks5_server_read_auth_user self;
    w <~ hev_socks5_server_write_auth_user self res;
    Done (self, if Z.lor res w <? 0 then -1 else 0)
  else Done (self, -1).

(** *** The request *)

(** the result, the command, the reply and the address *)
Definition hev_socks5_server_read_request self (rep : Z) (addr : sockaddr_in6)
    : io (HevSocks5Server * (Z * Z * Z * sockaddr_in6)) :=
  r <~ ask (HRecv (sfd_of self) 5);
  if negb (recvd r =? 5) then Done (self, (-1, 0, rep, addr)) else
  ver <~ pure (rd (stored r) 0);
  if negb (zb ver =? HEV_SOCKS5_VERSION_5) then Done (self, (0, 0, HEV_SOCKS5_RES_REP_FAIL, addr)) else
  atype <~ pure (rd (stored r) 3);
  b <~ pure (rd (stored r) 4);
  let addrlen := if zb atype =? HEV_SOCKS5_ADDR_TYPE_IPV4 then 5
                 else if zb atype =? HEV_SOCKS5_ADDR_TYPE_IPV6 then 17
                 else if zb atype =? HEV_SOCKS5_ADDR_TYPE_NAME then 2 + zb b else -1 in
  if addrlen <? 0 then Done (self, (0, 0, HEV_SOCKS5_RES_REP_ADDR, addr)) else
  cmd <~ pure (rd (stored r) 1);
  r <~ ask (HRecv (sfd_of self) addrlen);
  if negb (recvd r =? addrlen) then Done (self, (0, 0, HEV_SOCKS5_RES_REP_ADDR, addr)) else
  '(res, addr, family) <~ hev_socks5_addr_into_sockaddr6 inet_pton4 inet_pton6
                            (splice stack 0 (atype :: b :: stored r)) addr (s5_addr_family (sv_base self));
  if res <? 0 then Done (self, (0, 0, HEV_SOCKS5_RES_REP_ADDR, addr)) else
  Done (self <| sv_base := hev_socks5_set_addr_family (sv_base self) family |>, (0, zb cmd, rep, addr)).

Definition hev_socks5_server_write_response self (rep : Z) (addr : sockaddr_in6) : io Z :=
  '(a, n) <~ pure (hev_socks5_addr_from_sockaddr6 stack addr);
  body <~ pure (bytes_at 0 n a);
  ret <~ ask (HSend (sfd_of self) ([bz HEV_SOCKS5_VERSION_5; bz rep; bz 0] ++ body)); Done (wrote ret).

(** *** Carrying it out *)

Definition close_fd (fd : Z) : io unit := _ <~ ask (HDelFd fd); ask (HClose fd).

(** the binder of the base class does nothing and returns 0 *)
Definition hev_socks5_server_connect self (addr : sockaddr_in6) : io (HevSocks5Server * Z) :=
  fd <~ hev_socks5_socket SOCK_STREAM;
  if fd <? 0 then Done (self, -1) else
  let self := self <| sv_base := hev_socks5_set_timeout (sv_base self) (connect_timeout tm) |> in
  res <~ ask (HConnect fd addr);
  if res <? 0 then _ <~ close_fd fd; Done (self, -1) else
  let self := self <| sv_base := hev_socks5_set_timeout (sv_base self) (tcp_timeout tm) |> in
  Done (self <| sv_fd0 := fd |>, 0).

Definition hev_socks5_server_udp_bind self (sock : Z) (src : sockaddr_in6) : io (Z * sockaddr_in6) :=
  name <~ ask (HGetsockname (sfd_of self));
  match name with
  | None => Done (-1, src)
  | Some src =>
      let src := src <| sin6_port := [x00; x00] |> in
      res <~ ask (HBind sock src);
      if res <? 0 then Done (-1, src) else
      name <~ ask (HGetsockname sock);
      match name with None => Done (-1, src) | Some src => Done (0, src) end
  end.

(** [addr] is the null pointer when the datagrams come in the connection *)
Definition hev_socks5_server_bind self (addr : option sockaddr_in6) : io (HevSocks5Server * Z * option sockaddr_in6) :=
  fd <~ hev_socks5_socket SOCK_DGRAM;
  if fd <? 0 then Done (self, -1, addr) else
  let self := self <| sv_fd0 := fd |> in
  match addr with
  | None => Done (self, 0, None)
  | Some a =>
      fd <~ hev_socks5_socket SOCK_DGRAM;
      if fd <? 0 then Done (self, -1, Some a) else
      res <~ ask (HReuse fd);
      if res <? 0 then _ <~ close_fd fd; Done (self, -1, Some a) else
      '(res, a) <~ hev_socks5_server_udp_bind self fd a;
      if res <? 0 then _ <~ close_fd fd; Done (self, -1, Some a) else
      Done (self <| sv_fd1 := fd |>, 0, Some a)
  end.

Definition set_type self (type : HevSocks5Type) : HevSocks5Server := self <| sv_base := sv_base self <| s5_type := type |> |>.

(** the switch on the command: the reply and the address *)
Definition carry_out self (cmd : Z) (addr : sockaddr_in6) : io (HevSocks5Server * Z * sockaddr_in6) :=
  if cmd =? HEV_SOCKS5_REQ_CMD_CONNECT then
    '(self, res) <~ hev_socks5_server_connect self addr;
    Done (set_type self TYPE_TCP, if res <? 0 then HEV_SOCKS5_RES_REP_HOST else HEV_SOCKS5_RES_REP_SUCC, addr)
  else if cmd =? HEV_SOCKS5_REQ_CMD_UDP_ASC then
    '(self, res, a) <~ hev_socks5_server_bind self (Some addr);
    Done (set_type self TYPE_UDP_IN_UDP, if res <? 0 then HEV_SOCKS5_RES_REP_FAIL else HEV_SOCKS5_RES_REP_SUCC,
          default addr a)
  else if cmd =? HEV_SOCKS5_REQ_CMD_FWD_UDP then
    '(self, res, _) <~ hev_socks5_server_bind self None;
    Done (set_type self TYPE_UDP_IN_TCP, if res <? 0 then HEV_SOCKS5_RES_REP_FAIL else HEV_SOCKS5_RES_REP_SUCC, addr)
  else Done (self, HEV_SOCKS5_RES_REP_IMPL, addr).

Definition no_sockaddr : sockaddr_in6 := Sin6 0 [x00; x00] (repeat x00 16).

Definition hev_socks5_server_handshake self : io (HevSocks5Server * Z) :=
  let self := self <| sv_base := hev_socks5_set_timeout (sv_base self) (tcp_timeout tm) |> in
  '(self, res) <~ hev_socks5_server_auth self;
  if res <? 0 then Done (self, -1) else
  '(self, (res, cmd, rep, addr)) <~ hev_socks5_server_read_request self HEV_SOCKS5_RES_REP_SUCC no_sockaddr;
  if res <? 0 then Done (self, -1) else
  '(self, rep, addr) <~ (if rep =? HEV_SOCKS5_RES_REP_SUCC then carry_out self cmd addr else Done (self, rep, addr));
  res <~ hev_socks5_server_write_response self rep addr;
  Done (self, if (res <? 0) || negb (rep =? HEV_SOCKS5_RES_REP_SUCC) then -1 else 0).

Definition hev_socks5_server_service self : io (HevSocks5Server * Z) :=
  match s5_type (sv_base self) with
  | TYPE_TCP => self <~ tcp_splice self; Done (self, 0)
  | TYPE_UDP_IN_UDP | TYPE_UDP_IN_TCP =>
      self <~ udp_splice (self <| sv_base := hev_socks5_set_timeout (sv_base self) (udp_timeout tm) |>);
      Done (self, 0)
  | TYPE_NONE => Done (self, -1)
  end.

Definition hev_socks5_server_run self : io (HevSocks5Server * Z) :=
  res <~ ask (HAddFd (sfd_of self));
  _ <~ (if res <? 0 then ask (HModFd (sfd_of self)) else Done 0);
  '(self, res) <~ hev_socks5_server_handshake self;
  if res <? 0 then Done (self, -1) else
  '(self, res) <~ hev_socks5_server_service self;
  Done (self, if res <? 0 then -1 else 0).

Definition hev_socks5_server_destruct self : io HevSocks5Server :=
  _ <~ (if 0 <=? sv_fd0 self then close_fd (sv_fd0 self) else Done tt);
  _ <~ (if 0 <=? sv_fd1 self then close_fd (sv_fd1 self) else Done tt);
  auth <~ (match sv_obj self with ObjUser x => pure (user_unref (sv_auth self) x) | _ => Done (sv_auth self) end);
  _ <~ hev_socks5_destruct (sv_base self);
  Done (self <| sv_auth := auth |>).
End server.
