(* ===== verification/HevSocks5Spec.v ===== *)
(** * hev-socks5: client and server agree

    Whatever the interleaving, pipelined or not, the two ends of a handshake
    come to the same verdict, and a server that accepts has been asked for
    exactly what the client wants ([handshake_agrees]). *)

From Stdlib Require Import ZArith Lia Bool List.
From Stdlib Require Import Strings.Byte Strings.String.
From stdpp Require Import base tactics list numbers option gmap relations.
From S2P Require Import Prelude CMem HevRbtree HevAuth HevIo HevSocks5 HevSocks5Client HevSocks5Server.

(** ** Addresses as they are sent *)

Inductive wire_addr : mem → Prop :=
  | WireIPv4 a port : length a = 4%nat → length port = 2%nat → wire_addr (bz 1 :: a ++ port)
  | WireIPv6 a port : length a = 16%nat → length port = 2%nat → wire_addr (bz 4 :: a ++ port)
  | WireName name port : len name <= 255 → length port = 2%nat → wire_addr (bz 3 :: bz (len name) :: name ++ port).

Ltac lengths := unfold len in *; cbn [length] in *; repeat (rewrite ?length_app, ?length_cons; simpl length); lia.

Lemma rd0 b m : rd (b :: m) 0 = Ok b.
Proof. done. Qed.
Lemma rd1 a b m : rd (a :: b :: m) 1 = Ok b.
Proof. done. Qed.
Lemma rd3 a b c d m : rd (a :: b :: c :: d :: m) 3 = Ok d.
Proof. done. Qed.
Lemma rd4 a b c d e m : rd (a :: b :: c :: d :: e :: m) 4 = Ok e.
Proof. done. Qed.

(** the bytes between two others *)
Lemma bytes_mid (a b c : mem) o n : o = len a → n = len b → bytes_at o n (a ++ b ++ c) = Ok b.
Proof.
  intros -> ->. rewrite bytes_at_ok; [|apply len_nonneg|apply len_nonneg|rewrite !len_app; pose proof (len_nonneg c); lia].
  by rewrite slice_mid.
Qed.
Lemma bytes_front (b c : mem) n : n = len b → bytes_at 0 n (b ++ c) = Ok b.
Proof. intros ->. by apply (bytes_mid [] b c). Qed.
Lemma bytes_all (b : mem) n : n = len b → bytes_at 0 n b = Ok b.
Proof. intros Hn. rewrite <- (app_nil_r b) at 1. by apply bytes_front. Qed.

Lemma wire_length a : wire_addr a → hev_socks5_addr_len a = Ok (len a) ∧ 4 <= len a < 260.
Proof.
  destruct 1 as [a port Ha Hp|a port Ha Hp|name port Hn Hp]; unfold hev_socks5_addr_len; rewrite rd0, bind_Ok; simpl Z.eqb; cbv iota.
  - split; [f_equal|]; lengths.
  - split; [f_equal|]; lengths.
  - unfold name_len. rewrite rd1, bind_Ok, bind_Ok. pose proof (len_nonneg name). rewrite zb_bz_small by lia.
    split; [f_equal|]; lengths.
Qed.

(** the bytes of the header, and the rest *)
Lemma wire_split a : wire_addr a → ∃ t b rest, a = t :: b :: rest ∧
  len rest = (if zb t =? HEV_SOCKS5_ADDR_TYPE_IPV4 then 5
              else if zb t =? HEV_SOCKS5_ADDR_TYPE_IPV6 then 17
              else if zb t =? HEV_SOCKS5_ADDR_TYPE_NAME then 2 + zb b else -1) ∧ 0 < len rest.
Proof.
  destruct 1 as [a port Ha Hp|a port Ha Hp|name port Hn Hp].
  - destruct a as [|b a]; [done|]. exists (bz 1), b, (a ++ port). split; [done|]. simpl Z.eqb. cbv iota. lengths.
  - destruct a as [|b a]; [done|]. exists (bz 4), b, (a ++ port). split; [done|]. simpl Z.eqb. cbv iota. lengths.
  - exists (bz 3), (bz (len name)), (name ++ port). split; [done|]. simpl Z.eqb. cbv iota.
    pose proof (len_nonneg name). rewrite zb_bz_small by lia. lengths.
Qed.

(** what lies behind an address does not matter *)
Lemma wire_into p4 p6 a rest sa family : wire_addr a →
  hev_socks5_addr_into_sockaddr6 p4 p6 (a ++ rest) sa family = hev_socks5_addr_into_sockaddr6 p4 p6 a sa family.
Proof.
  unfold hev_socks5_addr_into_sockaddr6, hev_socks5_ipv4_into_sockaddr6, hev_socks5_ipv6_into_sockaddr6, name_len.
  assert (Hb : ∀ x y z : mem, ∀ o n, o = len x → n = len y → bytes_at o n (x ++ y ++ z ++ rest) = bytes_at o n (x ++ y ++ z)).
  { intros x y z o n -> ->. by rewrite !bytes_mid. }
  destruct 1 as [a port Ha Hp|a port Ha Hp|name port Hn Hp]; cbn [app]; rewrite !rd0, ?rd1, !pure_ok; simpl Z.eqb; cbv iota;
    rewrite <- ?app_assoc.
  - pose proof (Hb (bz 1 :: a) port [] 5 2) as H1. pose proof (Hb [bz 1] a port 1 4) as H2. simpl in H1, H2.
    rewrite H1, H2, app_nil_r by lengths. done.
  - pose proof (Hb (bz 4 :: a) port [] 17 2) as H1. pose proof (Hb [bz 4] a port 1 16) as H2. simpl in H1, H2.
    rewrite H1, H2, app_nil_r by lengths. done.
  - rewrite !bind_Ok, !pure_ok. pose proof (len_nonneg name). rewrite zb_bz_small by lia.
    pose proof (Hb [bz 3; bz (len name)] name port 2 (len name)) as H2.
    pose proof (Hb (bz 3 :: bz (len name) :: name) port [] (2 + len name) 2) as H1. simpl in H1, H2.
    rewrite H1, H2, app_nil_r by lengths. done.
Qed.

(** an address of the kernel or of the resolver *)
Definition sa_ok (sa : sockaddr_in6) : Prop := length (sin6_port sa) = 2%nat ∧ length (sin6_addr sa) = 16%nat.

(** the form in which the server tells an address *)
Definition told (sa : sockaddr_in6) : mem :=
  if in6_is_addr_v4mapped (sin6_addr sa) then bz 1 :: drop 12 (sin6_addr sa) ++ sin6_port sa
  else bz 4 :: sin6_addr sa ++ sin6_port sa.

Lemma splice_front (stack d : mem) n : len d = n → n <= len stack → splice stack 0 d = d ++ drop (Z.to_nat n) stack.
Proof. intros <- _. unfold splice. simpl. unfold len. by rewrite Nat2Z.id. Qed.

Lemma memcpy_part (dst src : mem) d o n a b c u v w :
  dst = a ++ b ++ c → src = u ++ v ++ w → d = len a → o = len u → n = len b → n = len v →
  memcpy dst d src o n = Ok (a ++ v ++ c).
Proof.
  intros -> -> -> -> -> Hv.
  rewrite memcpy_ok; try (pose proof (len_nonneg a); pose proof (len_nonneg b); pose proof (len_nonneg c);
    pose proof (len_nonneg u); pose proof (len_nonneg w); rewrite ?len_app; lia).
  rewrite slice_mid by done. by rewrite splice_app.
Qed.
Lemma memcpy_whole (dst src : mem) d a b c n :
  dst = a ++ b ++ c → d = len a → n = len b → n = len src → memcpy dst d src 0 n = Ok (a ++ src ++ c).
Proof. intros. apply (memcpy_part _ _ _ _ _ a b c [] src []); try done. by rewrite app_nil_r. Qed.

(** the 260 bytes of the local, written field by field *)
Lemma from_sockaddr6 (stack : mem) sa : len stack = 260 → sa_ok sa →
  ∃ rest, hev_socks5_addr_from_sockaddr6 stack sa = Ok (told sa ++ rest, len (told sa)).
Proof.
  intros Hs [Hp Ha]. unfold hev_socks5_addr_from_sockaddr6, told.
  destruct stack as [|s0 stack]; [done|]. rewrite len_cons in Hs.
  assert (Hw : ∀ v, wr (s0 :: stack) 0 v = Ok (bz v :: stack)).
  { intros v. unfold wr. rewrite len_cons. pose proof (len_nonneg stack). rewrite (proj2 (Z.ltb_lt _ _)) by lia. done. }
  destruct (in6_is_addr_v4mapped (sin6_addr sa)); rewrite Hw, bind_Ok.
  - rewrite <- (take_drop 4 stack), <- (take_drop 2 (drop 4 stack)). set (x := take 4 stack). set (y := take 2 _). set (z := drop 2 _).
    assert (Hx : length x = 4%nat) by (unfold x; rewrite length_take; lengths).
    assert (Hy : length y = 2%nat) by (unfold y; rewrite length_take, length_drop; lengths).
    rewrite (memcpy_whole _ _ _ (bz 1 :: x) y z) by (done || lengths). rewrite bind_Ok.
    assert (H12 : length (take 12 (sin6_addr sa)) = 12%nat) by (rewrite length_take; lengths).
    assert (H4 : length (drop 12 (sin6_addr sa)) = 4%nat) by (rewrite length_drop; lengths).
    rewrite (memcpy_part _ _ _ _ _ [bz 1] x (sin6_port sa ++ z) (take 12 (sin6_addr sa)) (drop 12 (sin6_addr sa)) []);
      [|done|by rewrite app_nil_r, take_drop|lengths..].
    rewrite bind_Ok. exists z. cbn [app]. rewrite <- !app_assoc. f_equal. f_equal. lengths.
  - rewrite <- (take_drop 16 stack), <- (take_drop 2 (drop 16 stack)). set (x := take 16 stack). set (y := take 2 _). set (z := drop 2 _).
    assert (Hx : length x = 16%nat) by (unfold x; rewrite length_take; lengths).
    assert (Hy : length y = 2%nat) by (unfold y; rewrite length_take, length_drop; lengths).
    rewrite (memcpy_whole _ _ _ (bz 4 :: x) y z) by (done || lengths). rewrite bind_Ok.
    rewrite (memcpy_whole _ _ _ [bz 4] x (sin6_port sa ++ z)) by (done || lengths). rewrite bind_Ok.
    exists z. cbn [app]. rewrite <- !app_assoc. f_equal. f_equal. lengths.
Qed.

(** ** The turns of a handshake *)

Section agree.
Context {W1 W2 : Type} (E1 : env W1) (E2 : env W2) (p4 p6 : mem → option mem).
Context (srv : HevConfigServer) (tm : Timeouts).
Context (fd1 fd2 : Z).

(** either end gives up with a negative result *)
Definition failed {X} (r : X * Z) : bool := r.2 <? 0.
Notation state := (net W1 W2 (HevSocks5Client * Z) (HevSocks5Server * Z)).
Notation "n '⇒*' n'" := (rtc (net_step E1 E2 fd1 fd2 failed failed) n n') (at level 70).
Implicit Types (c : HevSocks5Client) (s : HevSocks5Server) (up down rest : mem) (T : state).

Definition cmd_of c : option Z :=
  match s5_type (cl_base c) with
  | TYPE_TCP => Some HEV_SOCKS5_REQ_CMD_CONNECT
  | TYPE_UDP_IN_TCP => Some HEV_SOCKS5_REQ_CMD_FWD_UDP
  | TYPE_UDP_IN_UDP => Some HEV_SOCKS5_REQ_CMD_UDP_ASC
  | TYPE_NONE => None
  end.
Definition method_of c : Z := match creds c with None => HEV_SOCKS5_AUTH_METHOD_NONE | Some _ => HEV_SOCKS5_AUTH_METHOD_USER end.
Definition wanted s : Z := match sv_obj s with ObjNull => HEV_SOCKS5_AUTH_METHOD_NONE | _ => HEV_SOCKS5_AUTH_METHOD_USER end.

(** the messages *)
Definition hello c : mem := [bz 5; bz 1; bz (method_of c)].
Definition login (user pass : mem) : mem := [bz 1; bz (len user)] ++ user ++ [bz (len pass)] ++ pass.
Definition asking (cmd : Z) (addr : mem) : mem := [bz 5; bz cmd; bz 0] ++ addr.
Definition reply (rep : Z) (sa : sockaddr_in6) : mem := [bz 5; bz rep; bz 0] ++ told sa.

Lemma sent_cons x (d : mem) : sent (len (x :: d)) = 0.
Proof. unfold sent. rewrite len_cons. pose proof (len_nonneg d). by rewrite (proj2 (Z.leb_gt _ _)) by lia. Qed.
Lemma wrote_cons x (d : mem) : wrote (len (x :: d)) = 0.
Proof. apply sent_cons. Qed.
Lemma recvd_inl (d : mem) n : n = len d → negb (recvd (inl d) =? n) = false.
Proof. intros ->. simpl. by rewrite Z.eqb_refl. Qed.

Lemma turn_hello c k b up down wc ws T : fd_of c = fd1 →
  Net (k 0) b (up ++ hello c) down wc ws ⇒* T →
  Net (io_bind (hev_socks5_client_write_auth_methods c) k) b up down wc ws ⇒* T.
Proof.
  intros Hf H. unfold hev_socks5_client_write_auth_methods. rewrite io_bind_assoc, Hf. apply client_sends.
  unfold hello, method_of in H. destruct (creds c); exact H.
Qed.

Lemma turn_login c k b up down wc ws T user pass : fd_of c = fd1 →
  creds c = Some (user, pass) → len user <= 255 → len pass <= 255 →
  Net (k 0) b (up ++ login user pass) down wc ws ⇒* T →
  Net (io_bind (hev_socks5_client_write_auth_creds c) k) b up down wc ws ⇒* T.
Proof.
  intros Hf Hc Hu Hp H. unfold hev_socks5_client_write_auth_creds. rewrite Hc. cbv zeta. rewrite io_bind_assoc, Hf.
  pose proof (len_nonneg user). pose proof (len_nonneg pass). rewrite !u8_small, !slice_all by lia. apply client_sends.
  by replace (sent _) with 0 by (symmetry; apply sent_cons).
Qed.

Lemma turn_request c c1 addr cmd k b up down wc wc1 ws T : fd_of c1 = fd1 → wire_addr addr → cmd_of c = Some cmd →
  run E1 (get_upstream_addr c) wc = Some (wc1, (c1, Some addr)) →
  Net (k (c1, 0)) b (up ++ asking cmd addr) down (E1 HFree wc1).1 ws ⇒* T →
  Net (io_bind (hev_socks5_client_write_request c) k) b up down wc ws ⇒* T.
Proof.
  intros Hf Ha Hcmd Hr H. destruct (wire_length _ Ha) as [El Hl].
  assert (Hgo : Net (io_bind (send_request c cmd) k) b up down wc ws ⇒* T).
  { unfold send_request. rewrite io_bind_assoc. eapply client_turn; [exact Hr|]. cbn beta iota. rewrite io_bind_assoc, El, pure_ok.
    rewrite (proj2 (Z.ltb_ge _ _)) by lia. rewrite io_bind_assoc, bytes_all, pure_ok by done.
    rewrite io_bind_assoc, Hf. apply client_sends. rewrite (proj2 (Z.leb_gt _ _)) by (rewrite len_app; lengths).
    rewrite io_bind_assoc. eapply client_turn; [|exact H]. simpl. by destruct (E1 HFree wc1) as [? []]. }
  unfold hev_socks5_client_write_request, cmd_of in *.
  destruct (s5_type (cl_base c)); try done; injection Hcmd as <-; exact Hgo.
Qed.

Lemma turn_server_hello s k p m up down wc ws T : sfd_of s = fd2 → 0 <= m < 256 →
  Net p (k (if m =? wanted s then m else -1)) up down wc ws ⇒* T →
  Net p (io_bind (hev_socks5_server_read_auth_method s) k) ([bz 5; bz 1; bz m] ++ up) down wc ws ⇒* T.
Proof.
  intros Hf Hm H. unfold hev_socks5_server_read_auth_method. rewrite io_bind_assoc, Hf.
  change ([bz 5; bz 1; bz m] ++ up) with ([bz 5; bz 1] ++ [bz m] ++ up).
  apply server_receives; [done|done|]. rewrite recvd_inl by done. cbn [stored].
  rewrite io_bind_assoc, rd0, pure_ok. simpl Z.eqb. simpl negb. cbv iota. rewrite io_bind_assoc, rd1, pure_ok.
  rewrite io_bind_assoc. apply server_receives; [done|done|]. rewrite recvd_inl by done. cbn [stored io_bind].
  replace (find_method _ _) with (if m =? wanted s then m else -1); [done|]. cbn [find_method].
  rewrite zb_bz_small by done. fold (wanted s). by destruct (Z.eqb_spec m (wanted s)) as [<-|].
Qed.

(** the answers of one or two bytes *)
Lemma turn_method s k p m up down wc ws T : sfd_of s = fd2 →
  Net p (k 0) up (down ++ [bz 5; bz m]) wc ws ⇒* T →
  Net p (io_bind (hev_socks5_server_write_auth_method s m) k) up down wc ws ⇒* T.
Proof. intros Hf H. unfold hev_socks5_server_write_auth_method. rewrite io_bind_assoc, Hf. by apply server_sends. Qed.
Lemma turn_verdict s k p r up down wc ws T : sfd_of s = fd2 →
  Net p (k 0) up (down ++ [bz 1; bz r]) wc ws ⇒* T →
  Net p (io_bind (hev_socks5_server_write_auth_user s r) k) up down wc ws ⇒* T.
Proof. intros Hf H. unfold hev_socks5_server_write_auth_user. rewrite io_bind_assoc, Hf. by apply server_sends. Qed.

Lemma turn_read_method c k b m up down wc ws T : fd_of c = fd1 → 0 <= m < 256 →
  Net (k m) b up down wc ws ⇒* T →
  Net (io_bind (hev_socks5_client_read_auth_method c) k) b up ([bz 5; bz m] ++ down) wc ws ⇒* T.
Proof.
  intros Hf Hm H. unfold hev_socks5_client_read_auth_method. rewrite io_bind_assoc, Hf.
  apply client_receives; [done|done|]. rewrite recvd_inl by done. cbn [stored].
  rewrite io_bind_assoc, rd0, pure_ok. simpl Z.eqb. simpl negb. cbv iota. rewrite io_bind_assoc, rd1, pure_ok.
  cbn [io_bind]. by rewrite zb_bz_small.
Qed.
Lemma turn_read_verdict c k b r up down wc ws T : fd_of c = fd1 →
  Net (k (if u8 r =? 0 then 0 else -1)) b up down wc ws ⇒* T →
  Net (io_bind (hev_socks5_client_read_auth_creds c) k) b up ([bz 1; bz r] ++ down) wc ws ⇒* T.
Proof.
  intros Hf H. unfold hev_socks5_client_read_auth_creds. rewrite io_bind_assoc, Hf.
  apply client_receives; [done|done|]. rewrite recvd_inl by done. cbn [stored].
  rewrite io_bind_assoc, rd0, pure_ok. simpl Z.eqb. simpl negb. cbv iota. rewrite io_bind_assoc, rd1, pure_ok.
  rewrite zb_bz. by destruct (u8 r =? _).
Qed.

(** the login as it arrives, whole when neither part is empty *)
Lemma turn_read_login s k p user pass up down wc ws T r : sfd_of s = fd2 →
  0 < len user <= 255 → 0 < len pass <= 255 → check_user s user pass = Ok r →
  Net p (k r) up down wc ws ⇒* T →
  Net p (io_bind (hev_socks5_server_read_auth_user s) k) (login user pass ++ up) down wc ws ⇒* T.
Proof.
  intros Hf Hu Hp Hr H. unfold hev_socks5_server_read_auth_user, login. rewrite io_bind_assoc, Hf. rewrite <- !app_assoc.
  apply server_receives; [done|done|]. rewrite recvd_inl by done. cbn [stored].
  rewrite io_bind_assoc, rd0, pure_ok. simpl Z.eqb. simpl negb. cbv iota. rewrite io_bind_assoc, rd1, pure_ok. cbv zeta.
  rewrite zb_bz_small by lia. rewrite (proj2 (Z.eqb_neq _ _)) by lia. rewrite io_bind_assoc, app_assoc.
  apply server_receives; [lia|lengths|]. rewrite recvd_inl by lengths. cbn [stored].
  rewrite io_bind_assoc, bytes_front, pure_ok by done.
  rewrite io_bind_assoc, (rd_head _ user [] (bz (len pass))), pure_ok by done. cbv zeta. rewrite zb_bz_small by lia.
  rewrite (proj2 (Z.eqb_neq _ _)) by lia. rewrite io_bind_assoc.
  apply server_receives; [lia|done|]. rewrite recvd_inl by done. cbn [stored]. by rewrite Hr, pure_ok.
Qed.

(** what the server has not read of a login it found wanting *)
Definition leftover (user pass up : mem) : mem := if len user =? 0 then bz (len pass) :: pass ++ up else up.

Lemma turn_read_bad_login s k p user pass up down wc ws T : sfd_of s = fd2 →
  len user <= 255 → len user = 0 ∨ len pass = 0 →
  Net p (k (s, -1)) (leftover user pass up) down wc ws ⇒* T →
  Net p (io_bind (hev_socks5_server_read_auth_user s) k) (login user pass ++ up) down wc ws ⇒* T.
Proof.
  intros Hf Hu Hor H. unfold hev_socks5_server_read_auth_user, login, leftover in *. rewrite io_bind_assoc, Hf.
  rewrite <- !app_assoc. pose proof (len_nonneg user).
  apply server_receives; [done|done|]. rewrite recvd_inl by done. cbn [stored].
  rewrite io_bind_assoc, rd0, pure_ok. simpl (negb (zb (bz 1) =? _)). cbv iota. rewrite io_bind_assoc, rd1, pure_ok. cbv zeta.
  rewrite zb_bz_small by lia. destruct (Z.eqb_spec (len user) 0) as [E0|E0]; [by destruct user|].
  rewrite io_bind_assoc, app_assoc. apply server_receives; [lia|lengths|].
  rewrite recvd_inl by lengths. cbn [stored]. rewrite io_bind_assoc, bytes_front, pure_ok by done.
  rewrite io_bind_assoc, (rd_head _ user [] (bz (len pass))), pure_ok by done. cbv zeta.
  destruct Hor as [? | Ep]; [lia|]. rewrite Ep. simpl (_ =? _). cbv iota. by destruct pass.
Qed.

(** *** What the server does for a request *)

Context (stack1 stack2 : mem) (Hst1 : len stack1 = 260) (Hst2 : len stack2 = 260).

Definition served s (cmd : Z) (addr : mem) : io (HevSocks5Server * Z * sockaddr_in6) :=
  '(res, sa, family) <~ hev_socks5_addr_into_sockaddr6 p4 p6 addr no_sockaddr (s5_addr_family (sv_base s));
  if res <? 0 then Done (s, HEV_SOCKS5_RES_REP_ADDR, sa)
  else carry_out tm (s <| sv_base := hev_socks5_set_addr_family (sv_base s) family |>) cmd sa.

(** the handshake of the server after the login *)
Definition server_rest s : io (HevSocks5Server * Z) :=
  '(self, (res, cmd, rep, addr)) <~ hev_socks5_server_read_request p4 p6 stack2 s HEV_SOCKS5_RES_REP_SUCC no_sockaddr;
  if res <? 0 then Done (self, -1) else
  '(self, rep, addr) <~ (if rep =? HEV_SOCKS5_RES_REP_SUCC then carry_out tm self cmd addr else Done (self, rep, addr));
  res <~ hev_socks5_server_write_response stack2 self rep addr;
  Done (self, if (res <? 0) || negb (rep =? HEV_SOCKS5_RES_REP_SUCC) then -1 else 0).

Lemma turn_response s k p rep sa up down wc ws T : sfd_of s = fd2 → sa_ok sa →
  Net p (k 0) up (down ++ reply rep sa) wc ws ⇒* T →
  Net p (io_bind (hev_socks5_server_write_response stack2 s rep sa) k) up down wc ws ⇒* T.
Proof.
  intros Hf Ha H. unfold hev_socks5_server_write_response. destruct (from_sockaddr6 stack2 sa Hst2 Ha) as (rest & E).
  rewrite io_bind_assoc, E, pure_ok. cbn beta iota. rewrite io_bind_assoc, bytes_front, pure_ok by done.
  rewrite io_bind_assoc, Hf. by apply server_sends.
Qed.

Lemma turn_served s s' p cmd addr rep sa up down wc ws ws' T :
  sfd_of s = fd2 → sfd_of s' = fd2 → wire_addr addr → 0 <= cmd < 256 → sa_ok sa →
  run E2 (served s cmd addr) ws = Some (ws', (s', rep, sa)) →
  Net p (Done (s', if rep =? 0 then 0 else -1)) up (down ++ reply rep sa) wc ws' ⇒* T →
  Net p (server_rest s) (asking cmd addr ++ up) down wc ws ⇒* T.
Proof.
  intros Hf Hf' Hw Hc Hsa Hr H. destruct (wire_split _ Hw) as (t & b & rest & -> & Hrest & Hpos).
  destruct (wire_length _ Hw) as [_ [_ Hlen]].
  unfold server_rest, hev_socks5_server_read_request, asking. rewrite io_bind_assoc, Hf.
  change (([bz 5; bz cmd; bz 0] ++ t :: b :: rest) ++ up) with ([bz 5; bz cmd; bz 0; t; b] ++ rest ++ up).
  apply server_receives; [done|done|]. rewrite recvd_inl by done. cbn [stored].
  rewrite io_bind_assoc, rd0, pure_ok. simpl (negb (zb (bz 5) =? _)). cbv iota.
  rewrite io_bind_assoc, rd3, pure_ok, io_bind_assoc, rd4, pure_ok. rewrite <- Hrest. cbv zeta.
  rewrite (proj2 (Z.ltb_ge _ _)) by lia. rewrite io_bind_assoc, rd1, pure_ok.
  rewrite io_bind_assoc. apply server_receives; [lia|done|]. rewrite recvd_inl by done. cbn [stored].
  rewrite (splice_front _ _ (len (t :: b :: rest))) by (done || lia).
  rewrite wire_into by done. rewrite zb_bz_small by lia. rewrite io_bind_assoc.
  unfold served in Hr. rewrite run_bind in Hr.
  destruct (run E2 (hev_socks5_addr_into_sockaddr6 _ _ _ _ _) ws) as [[ws1 [[res sa1] family]]|] eqn:E; [|done].
  eapply server_turn; [exact E|]. cbn beta iota. cbn beta iota in Hr. destruct (res <? 0) eqn:Eres.
  - simpl in Hr. injection Hr as -> -> <- ->. cbn [io_bind]. simpl (_ <? 0). simpl (_ =? _). cbv iota.
    apply turn_response; [done|done|]. exact H.
  - cbn [io_bind]. simpl (0 <? 0). simpl (_ =? _). cbv iota. rewrite <- (io_bind_done (carry_out _ _ _ _)) in Hr.
    rewrite run_bind in Hr.
    destruct (run E2 (carry_out _ _ _ _) ws1) as [[ws2 [[s2 rep2] sa2]]|] eqn:E'; [|done]. simpl in Hr. injection Hr as -> -> -> ->.
    eapply server_turn; [exact E'|]. cbn beta iota. apply turn_response; [done|done|].
    simpl. simpl in H. change HEV_SOCKS5_RES_REP_SUCC with 0. by destruct (rep =? 0).
Qed.

(** the handshake of the client after the request *)
Definition client_rest c : io (HevSocks5Client * Z) :=
  '(self, res) <~ hev_socks5_client_read_response p4 p6 srv stack1 c;
  let self := match s5_type (cl_base self) with
              | TYPE_UDP_IN_TCP | TYPE_UDP_IN_UDP =>
                  self <| cl_base := hev_socks5_set_timeout (cl_base self) (udp_timeout tm) |>
              | _ => self
              end in
  Done (self, if res <? 0 then -1 else 0).

(** the address as the client holds it *)
Definition heard (sa : sockaddr_in6) : mem := told sa ++ drop (Z.to_nat (len (told sa))) stack1.

Lemma told_split sa : sa_ok sa → ∃ t rest, told sa = t :: rest ∧ len (told sa) <= 260 ∧ 0 < len rest
  ∧ len rest = (if zb t =? HEV_SOCKS5_ADDR_TYPE_IPV4 then 6 else if zb t =? HEV_SOCKS5_ADDR_TYPE_IPV6 then 18 else -1).
Proof.
  intros [Hp Ha]. unfold told. destruct (in6_is_addr_v4mapped _); eexists _, _; (split; [done|]); simpl Z.eqb; cbv iota.
  - assert (length (drop 12 (sin6_addr sa)) = 4%nat) by (rewrite length_drop; lia). split_and!; lengths.
  - split_and!; lengths.
Qed.

Lemma turn_read_response c c' k b sa up down wc wc' ws r T : fd_of c = fd1 → sa_ok sa →
  run E1 (set_upstream_addr p4 p6 srv c (heard sa)) wc = Some (wc', (c', r)) →
  Net (k (c', if r <? 0 then -1 else 0)) b up down wc' ws ⇒* T →
  Net (io_bind (hev_socks5_client_read_response p4 p6 srv stack1 c) k) b up (reply 0 sa ++ down) wc ws ⇒* T.
Proof.
  intros Hf Hsa Hr H. unfold hev_socks5_client_read_response, reply. rewrite io_bind_assoc, Hf.
  destruct (told_split sa Hsa) as (t & rest & Et & Hl & Hpos & Hrest). unfold heard in Hr. rewrite Et in *.
  change (([bz 5; bz 0; bz 0] ++ t :: rest) ++ down) with ([bz 5; bz 0; bz 0; t] ++ rest ++ down).
  apply client_receives; [done|done|]. rewrite recvd_inl by done. cbn [stored].
  rewrite io_bind_assoc, rd0, pure_ok. simpl (negb (zb (bz 5) =? _)). cbv iota.
  rewrite io_bind_assoc, rd1, pure_ok. simpl (negb (zb (bz 0) =? _)). cbv iota.
  rewrite io_bind_assoc, rd3, pure_ok. rewrite <- Hrest. cbv zeta.
  rewrite (proj2 (Z.ltb_ge _ _)) by lia. rewrite io_bind_assoc. apply client_receives; [lia|done|].
  rewrite recvd_inl by done. cbn [stored]. rewrite io_bind_assoc.
  rewrite (splice_front _ _ (len (t :: rest))) by (done || lia).
  eapply client_turn; [exact Hr|]. exact H.
Qed.
Lemma turn_read_refusal c (k : HevSocks5Client * Z → io (HevSocks5Client * Z)) (b : io (HevSocks5Server * Z)) rep sa up down wc ws : fd_of c = fd1 → 0 < rep < 256 →
  ∃ down', Net (io_bind (hev_socks5_client_read_response p4 p6 srv stack1 c) k) b up (reply rep sa ++ down) wc ws
    ⇒* Net (k (c, -1)) b up down' wc ws.
Proof.
  intros Hf Hrep. unfold hev_socks5_client_read_response, reply. rewrite io_bind_assoc, Hf.
  assert (∃ t rest, told sa = t :: rest) as (t & rest & ->) by (unfold told; destruct (in6_is_addr_v4mapped _); eauto).
  eexists. change (([bz 5; bz rep; bz 0] ++ t :: rest) ++ down) with ([bz 5; bz rep; bz 0; t] ++ rest ++ down).
  apply client_receives; [done|done|]. rewrite recvd_inl by done. cbn [stored].
  rewrite io_bind_assoc, rd0, pure_ok. simpl (negb (zb (bz 5) =? _)). cbv iota.
  rewrite io_bind_assoc, rd1, pure_ok. rewrite zb_bz_small by lia. rewrite (proj2 (Z.eqb_neq _ _)) by (unfold HEV_SOCKS5_RES_REP_SUCC; lia).
  reflexivity.
Qed.
End agree.

(** ** What the environment answers *)

(** the resolver's addresses have the length of their family; a socket's name
    is an address *)
Definition answer_ok (c : syscall) : answer c → Prop :=
  match c return answer c → Prop with
  | HGetsockname _ => λ x, match x with Some sa => sa_ok sa | None => True end
  | HGetaddrinfo _ _ => λ x,
      match x with
      | Some (f, a) => (f = AF_INET → length a = 4%nat) ∧ (f = AF_INET6 → length a = 16%nat)
      | None => True
      end
  | _ => λ _, True
  end.
Definition env_ok {W} (E : env W) : Prop := ∀ c w, answer_ok c (E c w).2.
Definition pton_ok (p4 p6 : mem → option mem) : Prop :=
  (∀ t a, p4 t = Some a → length a = 4%nat) ∧ (∀ t a, p6 t = Some a → length a = 16%nat).

Section served.
Context (p4 p6 : mem → option mem) (tm : Timeouts) (Hp : pton_ok p4 p6).
Notation wpi := (wpio answer_ok).

Lemma mapped_length (a : mem) : length a = 4%nat → length (V4MAPPED ++ a) = 16%nat.
Proof. intros H. rewrite length_app, H. done. Qed.

Lemma name_into_ok name port sa family : sa_ok sa →
  wpi (hev_socks5_name_into_sockaddr6 p4 p6 name port sa family) (λ '(_, sa', _), sa_ok sa').
Proof.
  intros [H1 H2]. destruct Hp as [H4 H6]. unfold hev_socks5_name_into_sockaddr6. cbv zeta.
  destruct (p4 name) as [a|] eqn:E4; [split; [done|]; simpl; by eapply mapped_length, H4|].
  destruct (p6 name) as [a|] eqn:E6; [split; [done|]; simpl; by eapply H6|].
  split; [done|]. intros [[f a]|] Hr; simpl in Hr |- *.
  - destruct (Z.eqb_spec f AF_INET) as [->|]; [split; [done|]; by apply mapped_length, Hr|].
    destruct (Z.eqb_spec f AF_INET6) as [->|]; [split; [done|]; by apply Hr|].
    split; [done|]. simpl. rewrite length_drop. lia.
  - split; [done|]. simpl. rewrite length_drop. lia.
Qed.

Lemma into_ok a sa family : len a = 260 → sa_ok sa →
  wpi (hev_socks5_addr_into_sockaddr6 p4 p6 a sa family) (λ '(_, sa', _), sa_ok sa').
Proof.
  intros Ha Hsa. unfold hev_socks5_addr_into_sockaddr6, hev_socks5_ipv4_into_sockaddr6, hev_socks5_ipv6_into_sockaddr6, name_len.
  assert (Hs : ∀ o n, 0 <= o → 0 <= n → o + n <= 260 → ∃ x, bytes_at o n a = Ok x ∧ length x = Z.to_nat n).
  { intros o n Ho Hn Hon. exists (slice a o n). split; [apply bytes_at_ok; lia|].
    pose proof (len_slice a o n). unfold len in *. lia. }
  destruct (rd_in a 0) as [t Et]; [lia|]. rewrite Et, pure_ok.
  destruct (zb t =? _); [|destruct (zb t =? _); [|destruct (zb t =? _); [|done]]].
  - destruct (Hs 5 2) as (x & -> & Hx); [lia..|]. destruct (Hs 1 4) as (y & -> & Hy); [lia..|]. rewrite !bind_Ok, pure_ok.
    split; [done|]. by apply mapped_length.
  - destruct (Hs 17 2) as (x & -> & Hx); [lia..|]. destruct (Hs 1 16) as (y & -> & Hy); [lia..|]. rewrite !bind_Ok, pure_ok. done.
  - destruct (rd_in a 1) as [l El]; [lia|]. rewrite El, bind_Ok, pure_ok. pose proof (zb_range l).
    destruct (Hs 2 (zb l)) as (x & -> & Hx); [lia..|]. destruct (Hs (2 + zb l) 2) as (y & -> & Hy); [lia..|]. rewrite !pure_ok.
    by apply name_into_ok.
Qed.

Lemma socket_ok type : wpi (hev_socks5_socket type) (λ _, True).
Proof.
  split; [done|]. intros fd _. simpl. destruct (fd <? 0); [done|]. split; [done|]. intros r _.
  destruct (r <? 0); [by split|]. split; [done|]. intros r' _. destruct (r' <? 0), (type =? _); simpl; repeat split.
Qed.

(** the server's answers: the connection stays the one it has *)
Definition answered (fd : Z) (r : HevSocks5Server * Z * sockaddr_in6) : Prop :=
  sfd_of r.1.1 = fd ∧ 0 <= r.1.2 < 256 ∧ sa_ok r.2.

Lemma timeout_fd b t : s5_fd (hev_socks5_set_timeout b t) = s5_fd b.
Proof. unfold hev_socks5_set_timeout. by destruct (s5_timeout b =? 0). Qed.

Lemma close_ok fd (Q : unit → Prop) : Q tt → wpi (close_fd fd) Q.
Proof. intros H. split; [done|]. intros [] _. split; [done|]. by intros [] _. Qed.

Lemma connect_ok s sa : wpi (hev_socks5_server_connect tm s sa) (λ '(s', _), sfd_of s' = sfd_of s).
Proof.
  unfold hev_socks5_server_connect. apply wpio_bind. eapply wpio_mono; [apply socket_ok|]. intros fd _.
  destruct (fd <? 0); [done|]. split; [done|]. intros r _. cbn [io_bind]. unfold sfd_of. destruct (r <? 0).
  - apply wpio_bind, close_ok. simpl. by rewrite timeout_fd.
  - simpl. by rewrite !timeout_fd.
Qed.

Lemma bind_succeeds s (a : option sockaddr_in6) : match a with Some sa => sa_ok sa | None => True end →
  wpi (hev_socks5_server_bind s a) (λ '(s', _, a'), sfd_of s' = sfd_of s ∧ match a' with Some sa => sa_ok sa | None => True end).
Proof.
  intros Ha. unfold hev_socks5_server_bind. apply wpio_bind. eapply wpio_mono; [apply socket_ok|]. intros fd _.
  destruct (fd <? 0); [done|]. destruct a as [sa|]; [|done]. apply wpio_bind. eapply wpio_mono; [apply socket_ok|]. intros fd' _.
  destruct (fd' <? 0); [done|]. split; [done|]. intros r _. cbn [io_bind]. destruct (r <? 0); [by apply wpio_bind, close_ok|].
  apply wpio_bind. unfold hev_socks5_server_udp_bind. split; [done|]. intros [src|] Hsrc; cbn [io_bind].
  - split; [done|]. intros r' _. cbn [io_bind]. destruct (r' <? 0); [apply wpio_bind, close_ok; split; [done|]; split; [done|apply Hsrc]|].
    split; [done|]. intros [src'|] Hsrc'; cbn [io_bind]; [done|].
    apply wpio_bind, close_ok. split; [done|]. split; [done|apply Hsrc].
  - by apply wpio_bind, close_ok.
Qed.

Lemma carry_out_ok s cmd sa : sa_ok sa → wpi (carry_out tm s cmd sa) (answered (sfd_of s)).
Proof.
  intros Hsa. unfold carry_out. destruct (cmd =? _); [|destruct (cmd =? _); [|destruct (cmd =? _)]].
  - apply wpio_bind. eapply wpio_mono; [apply connect_ok|]. intros [s' r] E. split; [done|]. simpl. by destruct (r <? 0).
  - apply wpio_bind. eapply wpio_mono; [by apply bind_succeeds|]. intros [[s' r] a] [E Ha]. split; [done|]. simpl.
    split; [by destruct (r <? 0)|]. by destruct a.
  - apply wpio_bind. eapply wpio_mono; [by apply bind_succeeds|]. intros [[s' r] a] [E Ha]. split; [done|]. simpl. by destruct (r <? 0).
  - done.
Qed.

Lemma served_ok {W} (E : env W) s cmd addr w : env_ok E → wire_addr addr →
  ∃ w' r, run E (served p4 p6 tm s cmd addr) w = Some (w', r) ∧ answered (sfd_of s) r.
Proof.
  intros HE Hw. apply (wpio_run answer_ok); [|done]. unfold served. destruct (wire_length _ Hw) as [_ Hl].
  rewrite <- (wire_into p4 p6 addr (repeat x00 (Z.to_nat (260 - len addr)))) by done. apply wpio_bind.
  eapply wpio_mono; [apply into_ok; [|done]|].
  - unfold len in *. rewrite length_app, repeat_length. lia.
  - intros [[res sa] family] Hsa. destruct (res <? 0); [done|].
    eapply wpio_mono; [by apply carry_out_ok|]. done.
Qed.
End served.

(** ** The login *)

Definition logs_in (m : gmap mem mem) (s : HevSocks5Server) (c : HevSocks5Client) : bool :=
  match sv_obj s, creds c with
  | ObjNull, None => true
  | ObjAuth, Some (user, pass) =>
      negb (len user =? 0) && negb (len pass =? 0) && bool_decide (m !! user = Some pass)
  | _, _ => false
  end.

Lemma check_user_ok s m user pass : sv_obj s = ObjAuth → auth_ok (sv_auth s) m →
  ∃ s', check_user s user pass = Ok (s', if bool_decide (m !! user = Some pass) then 0 else -1)
    ∧ sfd_of s' = sfd_of s ∧ (bool_decide (m !! user = Some pass) = false → s' = s).
Proof.
  intros Ho I. unfold check_user. rewrite Ho.
  pose proof (login_ok (λ _, None) (sv_auth s) m user pass I) as Hl. cbn [serve promised snd] in Hl.
  unfold hev_socks5_authenticator_get in *.
  destruct (find_user _ _ _ _) as [[x|path]| |]; cbn [bind] in Hl |- *; try done.
  - unfold user_ref. unfold get_user in *. destruct (au_users (sv_auth s) !! x) as [u|] eqn:Eu; [|done]. cbn [bind] in Hl |- *.
    injection Hl as ->. case_bool_decide; simpl; [|by exists s]. eexists. split; [done|]. by split.
  - injection Hl as Hl. exists s. split; [|done]. by rewrite <- Hl.
Qed.

(** ** Both ends *)

Section both.
Context {W1 W2 : Type} (E1 : env W1) (E2 : env W2) (p4 p6 : mem → option mem).
Context (srv : HevConfigServer) (tm : Timeouts) (stack1 stack2 : mem).
Context (fd1 fd2 : Z).
Context (Hst1 : len stack1 = 260) (Hst2 : len stack2 = 260).
Notation state := (net W1 W2 (HevSocks5Client * Z) (HevSocks5Server * Z)).
Notation "n '⇒*' n'" := (rtc (net_step E1 E2 fd1 fd2 failed failed) n n') (at level 70).
Implicit Types (c : HevSocks5Client) (s : HevSocks5Server).

(** the objects as the handshake starts *)
Definition started_client c : HevSocks5Client := c <| cl_base := hev_socks5_set_timeout (cl_base c) (tcp_timeout tm) |>.
Definition started s : HevSocks5Server := s <| sv_base := hev_socks5_set_timeout (sv_base s) (tcp_timeout tm) |>.
(** the server that has let [c] in *)
Definition entered s c : res HevSocks5Server :=
  match sv_obj s, creds c with
  | ObjAuth, Some (user, pass) => '(s, _) ← check_user s user pass; Ok s
  | _, _ => Ok s
  end.

(** what the client does with its result *)
Definition finished c : HevSocks5Client :=
  match s5_type (cl_base c) with
  | TYPE_UDP_IN_TCP | TYPE_UDP_IN_UDP => c <| cl_base := hev_socks5_set_timeout (cl_base c) (udp_timeout tm) |>
  | _ => c
  end.
Definition finish (r : HevSocks5Client * Z) : io (HevSocks5Client * Z) :=
  let '(self, res) := r in let self := finished self in Done (self, res).
Definition heard_reply c (k : HevSocks5Client * Z → io (HevSocks5Client * Z)) : io (HevSocks5Client * Z) :=
  io_bind (hev_socks5_client_read_response p4 p6 srv stack1 c) (λ r, io_bind (let '(self, res) := r in Done (self, if res <? 0 then -1 else 0)) k).

Notation client c pipeline :=
  (io_bind (if pipeline : bool then hev_socks5_client_handshake_pipeline p4 p6 srv stack1 c
            else hev_socks5_client_handshake_standard p4 p6 srv stack1 c) finish).
Definition server s : io (HevSocks5Server * Z) :=
  '(self, res) <~ hev_socks5_server_auth s;
  if res <? 0 then Done (self, -1) else server_rest p4 p6 tm stack2 self.

Lemma server_handshake_eq s : hev_socks5_server_handshake p4 p6 tm stack2 s = server (started s).
Proof. done. Qed.

(** run to the next request: bind by bind, deciding the tests that are known *)
Ltac known t :=
  let v := eval vm_compute in t in lazymatch v with true => idtac | false => idtac end; change t with v.
Ltac go :=
  repeat first
    [ progress (cbn beta iota zeta) | progress (cbn [io_bind negb]) | rewrite io_bind_assoc
    | match goal with
      | |- context [?a <? 0] => known (a <? 0)
      | |- context [?a =? ?b] => known (a =? b)
      end ].

(** *** The client's first words *)

Definition cred_bytes c : mem := match creds c with Some (user, pass) => login user pass | None => [] end.
Definition fits c : Prop := ∀ user pass, creds c = Some (user, pass) → len user <= 255 ∧ len pass <= 255.

(** the client that has sent everything, or only its methods *)
Definition pipeline_rest c : io (HevSocks5Client * Z) :=
  res <~ hev_socks5_client_read_auth_method c;
  io_bind
    (if res <? 0 then Done (c, -1) else
     res <~ (if res =? HEV_SOCKS5_AUTH_METHOD_USER then hev_socks5_client_read_auth_creds c
             else Done (if negb (res =? HEV_SOCKS5_AUTH_METHOD_NONE) then -1 else 0));
     if res <? 0 then Done (c, -1) else
     '(self, res) <~ hev_socks5_client_read_response p4 p6 srv stack1 c;
     Done (self, if res <? 0 then -1 else 0)) finish.
Definition standard_rest c : io (HevSocks5Client * Z) :=
  res <~ hev_socks5_client_read_auth_method c;
  io_bind
    (if res <? 0 then Done (c, -1) else
     res <~ (if res =? HEV_SOCKS5_AUTH_METHOD_USER then
               res <~ hev_socks5_client_write_auth_creds c;
               if res <? 0 then Done (-1) else hev_socks5_client_read_auth_creds c
             else Done (if negb (res =? HEV_SOCKS5_AUTH_METHOD_NONE) then -1 else 0));
     if res <? 0 then Done (c, -1) else
     '(self, res) <~ hev_socks5_client_write_request c;
     if res <? 0 then Done (self, -1) else
     '(self, res) <~ hev_socks5_client_read_response p4 p6 srv stack1 self;
     Done (self, if res <? 0 then -1 else 0)) finish.

Lemma begins_pipeline c c1 (b : io (HevSocks5Server * Z)) addr cmd wc wc1 ws :
  fd_of c = fd1 → fd_of c1 = fd1 → wire_addr addr → cmd_of c = Some cmd →
  run E1 (get_upstream_addr c) wc = Some (wc1, (c1, Some addr)) → fits c →
  Net (client c true) b [] [] wc ws ⇒* Net (pipeline_rest c1) b (hello c ++ cred_bytes c ++ asking cmd addr) [] (E1 HFree wc1).1 ws.
Proof.
  intros Hf Hf1 Hw Hcmd Hr Hfit. unfold hev_socks5_client_handshake_pipeline, cred_bytes.
  go. apply turn_hello; [done|]. go. destruct (creds c) as [[user pass]|] eqn:Ec.
  - destruct (Hfit _ _ Ec). eapply turn_login; [done..|]. go. eapply turn_request; [done..|]. go.
    rewrite <- !app_assoc. reflexivity.
  - unfold hev_socks5_client_write_auth_creds at 1. rewrite Ec. go. eapply turn_request; [done..|]. go. reflexivity.
Qed.
Lemma begins_standard c (b : io (HevSocks5Server * Z)) wc ws : fd_of c = fd1 →
  Net (client c false) b [] [] wc ws ⇒* Net (standard_rest c) b (hello c) [] wc ws.
Proof.
  intros Hf. unfold hev_socks5_client_handshake_standard. go. apply turn_hello; [done|]. go. reflexivity.
Qed.

(** *** What comes of it *)

(** a client that may enter gets as far as the request *)
Lemma enters (pipeline : bool) c c1 s m addr cmd wc wc1 ws :
  fd_of c = fd1 → fd_of c1 = fd1 → sfd_of s = fd2 → wire_addr addr → cmd_of c = Some cmd →
  run E1 (get_upstream_addr c) wc = Some (wc1, (c1, Some addr)) → fits c →
  (sv_obj s = ObjAuth → auth_ok (sv_auth s) m) → logs_in m s c = true →
  ∃ s1, entered s c = Ok s1 ∧ sfd_of s1 = fd2 ∧
    Net (client c pipeline) (server s) [] [] wc ws
    ⇒* Net (heard_reply c1 finish) (server_rest p4 p6 tm stack2 s1) (asking cmd addr) [] (E1 HFree wc1).1 ws.
Proof.
  intros Hf Hf1 Hs Hw Hcmd Hr Hfit Hauth Hlog. unfold logs_in in Hlog.
  assert (Hbegin : ∀ s1 T, (Net (if pipeline then pipeline_rest c1 else standard_rest c) (server s)
      (hello c ++ if pipeline then cred_bytes c ++ asking cmd addr else []) [] (if pipeline then (E1 HFree wc1).1 else wc) ws
      ⇒* T s1) → Net (client c pipeline) (server s) [] [] wc ws ⇒* T s1).
  { intros s1 T H. etrans; [|exact H]. destruct pipeline; [by eapply begins_pipeline|rewrite app_nil_r; by apply begins_standard]. }
  unfold entered. destruct (sv_obj s) eqn:Eo; [| |done]; destruct (creds c) as [[user pass]|] eqn:Ec; try done.
  - exists s. split; [done|]. split; [done|]. apply (Hbegin s (λ s1, Net (heard_reply c1 finish) (server_rest p4 p6 tm stack2 s1) (asking cmd addr) [] (E1 HFree wc1).1 ws)).
    assert (Hhello : hello c = [bz 5; bz 1; bz 0]) by (unfold hello, method_of; by rewrite Ec).
    assert (Hwant : wanted s = 0) by (unfold wanted; by rewrite Eo). unfold cred_bytes. rewrite Ec, Hhello.
    unfold server, hev_socks5_server_auth. go. eapply turn_server_hello; [done|done|]. rewrite Hwant. go. eapply turn_method; [done|]. go.
    destruct pipeline; (eapply (turn_read_method _ _ _ _ _ _ _ 0 _ []); [done|done|]); go; [reflexivity|].
    eapply turn_request; [done..|]. go. reflexivity.
  - destruct (Hfit _ _ Ec) as [Hu Hps]. apply andb_prop in Hlog as [[Hn1 Hn2]%andb_prop Hm].
    apply negb_true_iff, Z.eqb_neq in Hn1, Hn2. pose proof (len_nonneg user). pose proof (len_nonneg pass).
    destruct (check_user_ok s m user pass Eo (Hauth eq_refl)) as (s1 & Eck & Hs1 & _). rewrite Hm in Eck. rewrite Eck.
    exists s1. split; [done|]. rewrite Hs in Hs1. split; [done|].
    apply (Hbegin s1 (λ s1, Net (heard_reply c1 finish) (server_rest p4 p6 tm stack2 s1) (asking cmd addr) [] (E1 HFree wc1).1 ws)).
    assert (Hhello : hello c = [bz 5; bz 1; bz 2]) by (unfold hello, method_of; by rewrite Ec).
    assert (Hwant : wanted s = 2) by (unfold wanted; by rewrite Eo). unfold cred_bytes. rewrite Ec, Hhello.
    unfold server, hev_socks5_server_auth. go. eapply turn_server_hello; [done|done|]. rewrite Hwant. go. eapply turn_method; [done|]. go.
    destruct pipeline.
    + eapply turn_read_login with (user := user) (pass := pass); [done|lia|lia|done|]. go. eapply turn_verdict; [done|]. go.
      eapply (turn_read_method _ _ _ _ _ _ _ 2 _ [bz 1; bz 0]); [done|done|]. go.
      eapply (turn_read_verdict _ _ _ _ _ _ _ 0 _ []); [done|]. go. reflexivity.
    + eapply (turn_read_method _ _ _ _ _ _ _ 2 _ []); [done|done|]. go. eapply turn_login; [done..|]. go.
      rewrite <- (app_nil_r ([] ++ login user pass)). cbn [app].
      eapply turn_read_login with (user := user) (pass := pass); [done|lia|lia|done|]. go. eapply turn_verdict; [done|]. go.
      eapply (turn_read_verdict _ _ _ _ _ _ _ 0 _ []); [done|]. go. eapply turn_request; [done..|]. go. reflexivity.
Qed.

(** a login that fails, whole or not *)
Lemma login_fails s m user pass (k : HevSocks5Server * Z → io (HevSocks5Server * Z)) (p : io (HevSocks5Client * Z)) up down wc ws T :
  sfd_of s = fd2 → sv_obj s = ObjAuth → auth_ok (sv_auth s) m → len user <= 255 → len pass <= 255 →
  negb (len user =? 0) && negb (len pass =? 0) && bool_decide (m !! user = Some pass) = false →
  Net p (k (s, -1)) (leftover user pass up) down wc ws ⇒* T →
  Net p (io_bind (hev_socks5_server_read_auth_user s) k) (login user pass ++ up) down wc ws ⇒* T.
Proof.
  intros Hs Eo Ha Hu Hp Hl H. pose proof (len_nonneg user). pose proof (len_nonneg pass).
  destruct (Z.eqb_spec (len user) 0) as [E|Hn1]; [apply turn_read_bad_login; auto|].
  destruct (Z.eqb_spec (len pass) 0) as [E|Hn2]; [apply turn_read_bad_login; auto|]. simpl in Hl.
  destruct (check_user_ok s m user pass Eo Ha) as (s' & Eck & _ & Hsame). rewrite Hl in *. rewrite (Hsame eq_refl) in Eck.
  eapply turn_read_login with (user := user) (pass := pass); [done|lia|lia|done|].
  unfold leftover in H. by rewrite (proj2 (Z.eqb_neq _ _) Hn1) in H.
Qed.

(** a client that may not is told so, and the server does nothing for it *)
Lemma is_refused (pipeline : bool) c c1 s m addr cmd wc wc1 ws :
  fd_of c = fd1 → fd_of c1 = fd1 → sfd_of s = fd2 → wire_addr addr → cmd_of c = Some cmd →
  run E1 (get_upstream_addr c) wc = Some (wc1, (c1, Some addr)) → fits c →
  (sv_obj s = ObjNull ∨ sv_obj s = ObjAuth ∧ auth_ok (sv_auth s) m) → logs_in m s c = false →
  ∃ c' up down wc', Net (client c pipeline) (server s) [] [] wc ws ⇒* Net (Done (c', -1)) (Done (s, -1)) up down wc' ws.
Proof.
  intros Hf Hf1 Hs Hw Hcmd Hr Hfit Hauth Hlog.
  set (rest := hello c ++ if pipeline then cred_bytes c ++ asking cmd addr else []).
  set (cp := if pipeline then pipeline_rest c1 else standard_rest c).
  set (w := if pipeline then (E1 HFree wc1).1 else wc).
  assert (Hbegin : Net (client c pipeline) (server s) [] [] wc ws ⇒* Net cp (server s) rest [] w ws).
  { unfold cp, rest, w. destruct pipeline; [by eapply begins_pipeline|rewrite app_nil_r; by apply begins_standard]. }
  assert (Hsuff : (∃ c' up down wc', Net cp (server s) rest [] w ws ⇒* Net (Done (c', -1)) (Done (s, -1)) up down wc' ws) →
    ∃ c' up down wc', Net (client c pipeline) (server s) [] [] wc ws ⇒* Net (Done (c', -1)) (Done (s, -1)) up down wc' ws).
  { intros (c' & up & down & wc' & H). exists c', up, down, wc'. by etrans. }
  apply Hsuff. clear Hbegin Hsuff. unfold server, hev_socks5_server_auth, rest, hello. go.
  assert (Hmc : 0 <= method_of c < 256) by (unfold method_of; by destruct (creds c)).
  destruct (Z.eqb_spec (method_of c) (wanted s)) as [Em|Em].
  - assert (sv_obj s = ObjAuth ∧ auth_ok (sv_auth s) m ∧ ∃ user pass, creds c = Some (user, pass)) as (Eo & Ha & user & pass & Ec).
    { unfold logs_in, method_of, wanted in *. destruct Hauth as [Eo|[Eo Ha]]; rewrite Eo in *; destruct (creds c) as [[user pass]|]; try done. eauto. }
    unfold logs_in in Hlog. rewrite Eo, Ec in Hlog. destruct (Hfit _ _ Ec) as [Hu Hps].
    assert (Emc : method_of c = 2) by (unfold method_of; by rewrite Ec). rewrite Emc.
    assert (Hwant : wanted s = 2) by (unfold wanted; by rewrite Eo).
    unfold cp, cred_bytes. rewrite Ec. destruct pipeline; do 4 eexists;
      (eapply turn_server_hello; [done|done|]); rewrite Hwant; go; (eapply turn_method; [done|]); go.
    + eapply login_fails; [done..|]. go. eapply turn_verdict; [done|]. go.
      eapply (turn_read_method _ _ _ _ _ _ _ 2 _ [bz 1; bz (-1)]); [done|done|]. go.
      eapply (turn_read_verdict _ _ _ _ _ _ _ (-1) _ []); [done|]. go. apply rtc_refl.
    + eapply (turn_read_method _ _ _ _ _ _ _ 2 _ []); [done|done|]. go. eapply turn_login; [done..|]. go.
      rewrite <- (app_nil_r ([] ++ login user pass)). cbn [app]. eapply login_fails; [done..|]. go.
      eapply turn_verdict; [done|]. go. eapply (turn_read_verdict _ _ _ _ _ _ _ (-1) _ []); [done|]. go. apply rtc_refl.
  - assert (Em' : (method_of c =? wanted s) = false) by by apply Z.eqb_neq.
    unfold cp. destruct pipeline; do 4 eexists;
      (eapply turn_server_hello; [done|done|]); rewrite Em'; go; (eapply turn_method; [done|]); go;
      (eapply (turn_read_method _ _ _ _ _ _ _ 255 _ []); [done|done|]); go; apply rtc_refl.
Qed.

(** the request and the reply *)
Lemma answers c1 s1 cmd addr wc ws : fd_of c1 = fd1 → sfd_of s1 = fd2 → wire_addr addr → 0 <= cmd < 256 →
  env_ok E2 → pton_ok p4 p6 →
  (∀ sa w, sa_ok sa → ∃ w' c' r, run E1 (set_upstream_addr p4 p6 srv c1 (heard stack1 sa)) w = Some (w', (c', r))) →
  ∃ c' s' rc rep sa up down wc' ws',
    Net (heard_reply c1 finish) (server_rest p4 p6 tm stack2 s1) (asking cmd addr) [] wc ws
    ⇒* Net (Done (finished c', rc)) (Done (s', if rep =? 0 then 0 else -1)) up down wc' ws'
    ∧ run E2 (served p4 p6 tm s1 cmd addr) ws = Some (ws', (s', rep, sa))
    ∧ if rep =? 0 then up = [] ∧ down = [] ∧ ∃ r, run E1 (set_upstream_addr p4 p6 srv c1 (heard stack1 sa)) wc = Some (wc', (c', r))
                        ∧ rc = (if r <? 0 then -1 else 0)
      else rc = -1.
Proof.
  intros Hf1 Hf2 Hw Hcmd HE Hp Hset.
  destruct (served_ok p4 p6 tm Hp E2 s1 cmd addr ws HE Hw) as (ws' & [[s' rep] sa] & Hrun & Hs' & Hrep & Hsa). simpl in Hs', Hrep, Hsa.
  rewrite Hf2 in Hs'. rewrite <- (app_nil_r (asking cmd addr)). unfold heard_reply.
  assert (Hserved : ∀ T, Net (heard_reply c1 finish) (Done (s', if rep =? 0 then 0 else -1)) [] (reply rep sa) wc ws' ⇒* T →
    Net (heard_reply c1 finish) (server_rest p4 p6 tm stack2 s1) (asking cmd addr ++ []) [] wc ws ⇒* T).
  { intros T HT. by eapply turn_served. }
  destruct (Z.eqb_spec rep 0) as [->|Hne].
  - destruct (Hset sa wc Hsa) as (wc' & c' & r & Hr).
    exists c', s', (if r <? 0 then -1 else 0), 0, sa, [], [], wc', ws'. split; [|split; [done|]; simpl; eauto].
    apply Hserved. rewrite <- (app_nil_r (reply 0 sa)). unfold heard_reply. eapply turn_read_response; [done..|].
    destruct (r <? 0); go; apply rtc_refl.
  - destruct (turn_read_refusal E1 E2 p4 p6 srv fd1 fd2 stack1 c1
      (λ r, io_bind (let '(self, res) := r in Done (self, if res <? 0 then -1 else 0)) finish)
      (Done (s', -1)) rep sa [] [] wc ws' Hf1 ltac:(lia)) as (down & Hdown).
    exists c1, s', (-1), rep, sa, [], down, wc, ws'. rewrite (proj2 (Z.eqb_neq _ _) Hne) in *. split; [|done].
    apply Hserved. rewrite app_nil_r in Hdown. etrans; [exact Hdown|]. go. apply rtc_refl.
Qed.

Lemma done_stuck (a : HevSocks5Client * Z) (b : HevSocks5Server * Z) up down wc ws :
  nf (net_step E1 E2 fd1 fd2 failed failed) (Net (Done a) (Done b) up down wc ws).
Proof. by intros [n [H|H]]. Qed.

(** what a handshake comes to *)
Definition verdict (m : gmap mem mem) c c1 s cmd addr (wc : W1) (ws : W2) (T : state) : Prop :=
  ∃ c' s' rc rs, n_client T = Done (c', rc) ∧ n_server T = Done (s', rs) ∧
    if logs_in m s c then
      ∃ s1 rep sa, entered s c = Ok s1 ∧ run E2 (served p4 p6 tm s1 cmd addr) ws = Some (n_ws T, (s', rep, sa))
        ∧ rs = (if rep =? 0 then 0 else -1)
        ∧ if rep =? 0 then
            n_up T = [] ∧ n_down T = [] ∧ ∃ c2 r, c' = finished c2 ∧ rc = (if r <? 0 then -1 else 0)
              ∧ run E1 (set_upstream_addr p4 p6 srv c1 (heard stack1 sa)) (E1 HFree wc).1 = Some (n_wc T, (c2, r))
          else rc = -1
    else rc = -1 ∧ rs = -1 ∧ s' = s ∧ n_ws T = ws.

Lemma handshake_end (pipeline : bool) c c1 s m addr cmd wc wc1 ws :
  fd_of c = fd1 → fd_of c1 = fd1 → sfd_of s = fd2 → wire_addr addr → cmd_of c = Some cmd →
  run E1 (get_upstream_addr c) wc = Some (wc1, (c1, Some addr)) → fits c →
  (sv_obj s = ObjNull ∨ sv_obj s = ObjAuth ∧ auth_ok (sv_auth s) m) → env_ok E2 → pton_ok p4 p6 →
  (∀ sa w, sa_ok sa → ∃ w' c' r, run E1 (set_upstream_addr p4 p6 srv c1 (heard stack1 sa)) w = Some (w', (c', r))) →
  ∃ T, Net (client c pipeline) (server s) [] [] wc ws ⇒* T ∧ nf (net_step E1 E2 fd1 fd2 failed failed) T
    ∧ verdict m c c1 s cmd addr wc1 ws T.
Proof.
  intros Hf Hf1 Hs Hw Hcmd Hr Hfit Hauth HE Hp Hset. unfold verdict. destruct (logs_in m s c) eqn:Hlog.
  - destruct (enters pipeline c c1 s m addr cmd wc wc1 ws) as (s1 & He & Hs1 & Henter); try done.
    { intros Eo. destruct Hauth as [|[]]; [congruence|done]. }
    assert (Hc : 0 <= cmd < 256) by (unfold cmd_of in Hcmd; destruct (s5_type (cl_base c)); by simplify_eq).
    destruct (answers c1 s1 cmd addr (E1 HFree wc1).1 ws) as (c' & s' & rc & rep & sa & up & down & wc' & ws' & Hrun & Hsv & Hend); try done.
    eexists. split; [by etrans|]. split; [apply done_stuck|]. simpl. exists (finished c'), s', rc, (if rep =? 0 then 0 else -1).
    split; [done|]. split; [done|]. exists s1, rep, sa. split; [done|]. split; [done|]. split; [done|].
    destruct (rep =? 0); [|done]. destruct Hend as (-> & -> & r & ? & ?). split; [done|]. split; [done|]. by exists c', r.
  - destruct (is_refused pipeline c c1 s m addr cmd wc wc1 ws) as (c' & up & down & wc' & Hrun); try done.
    eexists. split; [exact Hrun|]. split; [apply done_stuck|]. simpl. by exists c', s, (-1), (-1).
Qed.
End both.

(** ** The theorem *)

(** C27: a client for a TCP connection (a CONNECT request) and a server that
    shake hands over a connection come to the same verdict, pipelined or not and whatever the order in which they
    run: all schedules are finite, of one length, and end in one state.  The
    verdict is positive exactly when the client may log in and the server
    could carry out the request for the very address the client was made
    with, on the server's environment; after a positive verdict no byte is left in
    the connection.  A client that may not log in has nothing done for it. *)
Theorem handshake_agrees {W1 W2} (E1 : env W1) (E2 : env W2) (p4 p6 : mem → option mem) (srv : HevConfigServer)
    (tm : Timeouts) (stack1 stack2 : mem) (c : HevSocks5Client) (s : HevSocks5Server) (m : gmap mem mem) (addr : mem)
    (pipeline : bool) (wc : W1) (ws : W2) :
  env_ok E2 → pton_ok p4 p6 → len stack1 = 260 → len stack2 = 260 →
  cl_class c = ClientTCP → s5_type (cl_base c) = TYPE_TCP → cl_addr c = Some addr → wire_addr addr → fits c →
  sv_obj s = ObjNull ∨ sv_obj s = ObjAuth ∧ auth_ok (sv_auth s) m →
  let step := net_step E1 E2 (fd_of c) (sfd_of s) failed failed in
  let start := Net (hev_socks5_client_handshake p4 p6 srv tm stack1 c pipeline)
                   (hev_socks5_server_handshake p4 p6 tm stack2 s) [] [] wc ws in
  ∃ n T c' s' r,
    (∀ j x, nsteps step j start x → ∃ i, n = (j + i)%nat ∧ nsteps step i x T) ∧ nf step T
    ∧ n_client T = Done (c', r) ∧ n_server T = Done (s', r)
    ∧ if logs_in m s c then
        ∃ s1 rep sa, entered (started tm s) c = Ok s1
          ∧ run E2 (served p4 p6 tm s1 HEV_SOCKS5_REQ_CMD_CONNECT addr) ws = Some (n_ws T, (s', rep, sa))
          ∧ r = (if rep =? 0 then 0 else -1) ∧ (r = 0 → n_up T = [] ∧ n_down T = [])
      else r = -1 ∧ n_ws T = ws.
Proof.
  intros HE Hp Hst1 Hst2 Hcl Hty Had Hw Hfit Hauth step start.
  set (c0 := started_client tm c). set (s0 := started tm s).
  assert (Hfd1 : fd_of c0 = fd_of c) by (unfold c0, started_client, fd_of; apply timeout_fd).
  assert (Hfd2 : sfd_of s0 = sfd_of s) by (unfold s0, started, sfd_of; apply timeout_fd).
  assert (Hty0 : s5_type (cl_base c0) = TYPE_TCP).
  { unfold c0, started_client, hev_socks5_set_timeout. simpl. by destruct (_ =? 0). }
  destruct (handshake_end E1 E2 p4 p6 srv tm stack1 stack2 (fd_of c) (sfd_of s) Hst1 Hst2 pipeline
    c0 (c0 <| cl_addr := None |>) s0 m addr HEV_SOCKS5_REQ_CMD_CONNECT wc wc ws)
    as (T & HT & Hnf & c' & s' & rc & rs & Ec & Es & Hv); try done.
  { unfold cmd_of. by rewrite Hty0. }
  { unfold get_upstream_addr. change (cl_class c0) with (cl_class c). rewrite Hcl. simpl. by rewrite Had. }
  { intros sa w _. exists w, (c0 <| cl_addr := None |>), 0. unfold set_upstream_addr. simpl. by rewrite Hcl. }
  apply rtc_nsteps in HT as [n HT]. exists n, T, c', s', rs. split; [by apply one_outcome|]. split; [done|].
  change (logs_in m s0 c0) with (logs_in m s c) in Hv. change (entered s0 c0) with (entered s0 c) in Hv.
  destruct (logs_in m s c).
  - destruct Hv as (s1 & rep & sa & He & Hrun & -> & Hv). assert (rc = if rep =? 0 then 0 else -1) as ->.
    { destruct (rep =? 0); [|done]. destruct Hv as (_ & _ & c2 & r & _ & -> & Hr). unfold set_upstream_addr in Hr.
      simpl in Hr. rewrite Hcl in Hr. simpl in Hr. by simplify_eq. }
    split; [done|]. split; [done|]. exists s1, rep, sa. split; [done|]. split; [done|]. split; [done|].
    destruct (rep =? 0); [|done]. intros _. by destruct Hv as (? & ? & _).
  - destruct Hv as (-> & -> & -> & ?). by split.
Qed.

(** what is connected to *)
Lemma served_ipv4 p4 p6 tm s a port : length a = 4%nat → length port = 2%nat →
  served p4 p6 tm s HEV_SOCKS5_REQ_CMD_CONNECT (bz 1 :: a ++ port)
  = carry_out tm (s <| sv_base := hev_socks5_set_addr_family (sv_base s) AF_INET |>) HEV_SOCKS5_REQ_CMD_CONNECT
      (Sin6 AF_INET6 port (V4MAPPED ++ a)).
Proof.
  intros Ha Hp. unfold served, hev_socks5_addr_into_sockaddr6, hev_socks5_ipv4_into_sockaddr6. rewrite rd0, pure_ok.
  simpl (zb (bz 1) =? _). cbv iota. pose proof (bytes_mid (bz 1 :: a) port [] 5 2) as H1. pose proof (bytes_mid [bz 1] a port 1 4) as H2.
  rewrite app_nil_r in H1. simpl in H1, H2. rewrite H1, H2 by lengths. done.
Qed.

(** ** Example: joe asks for 93.184.216.34:80 *)

Definition joe : HevSocks5Authenticator :=
  match serve next_user hev_socks5_authenticator_new (Add (bytes_of "joe") (bytes_of "pw")) with
  | Ok (a, _) => a
  | _ => hev_socks5_authenticator_new
  end.
Lemma joe_ok : auth_ok joe {[bytes_of "joe" := bytes_of "pw"]}.
Proof.
  destruct (add_ok next_user next_user_fresh hev_socks5_authenticator_new ∅ (bytes_of "joe") (bytes_of "pw") auth_new)
    as (a & E & H). unfold joe. rewrite E. exact H.
Qed.

(** an environment that writes down the calls and lets them succeed *)
Definition logging : env (list syscall) := λ c w,
  (w ++ [c], match c return answer c with
             | HRecv _ _ => inr (-1)
             | HGetsockname _ => None
             | HGetaddrinfo _ _ => None
             | HMalloc _ => true
             | HRcvbuf _ | HFastopen _ _ | HDelFd _ | HClose _ | HFree | HYield | HWaitio => tt
             | HRecvSome _ _ _ | HRecvmm _ _ _ => inr (-1)
             | HPoll _ => (0, false)
             | HAgain | HPbufRef => false
             | HWritev _ _ => (-1, false)
             | HReadv _ _ => inr false
             | HShutdown _ | HTcpRecved _ | HTcpShutdown | HUpdateSession => tt
             | HSocket _ => 9
             | _ => 0
             end).
Definition no_pton : mem → option mem := λ _, None.
Definition tunnel_server : HevConfigServer :=
  ConfigServer (Some (bytes_of "joe")) (Some (bytes_of "pw")) 0 true 1080 true 0 [] (bytes_of "127.0.0.1").
Definition web : mem := [bz 1; bz 93; bz 184; bz 216; bz 34; bz 0; bz 80].
Definition a_client : HevSocks5Client :=
  Client (Socks5 5 (-1) TYPE_TCP false AF_INET) ClientTCP (Some (bytes_of "joe")) (Some (bytes_of "pw")) (Some web) (-1).
Definition a_server : HevSocks5Server := hev_socks5_server_set_auth (hev_socks5_server_construct 6) joe.

Lemma handshake_agrees_witness :
  let step := net_step logging logging 5 6 failed failed in
  let start := Net (hev_socks5_client_handshake no_pton no_pton tunnel_server default_timeouts (repeat x00 260) a_client true)
                   (hev_socks5_server_handshake no_pton no_pton default_timeouts (repeat x00 260) a_server) [] [] [] [] in
  ∃ n T c' s' r,
    (∀ j x, nsteps step j start x → ∃ i, n = (j + i)%nat ∧ nsteps step i x T) ∧ nf step T
    ∧ n_client T = Done (c', r) ∧ n_server T = Done (s', r)
    ∧ ∃ s1 rep sa, entered (started default_timeouts a_server) a_client = Ok s1
        ∧ run logging (served no_pton no_pton default_timeouts s1 HEV_SOCKS5_REQ_CMD_CONNECT web) [] = Some (n_ws T, (s', rep, sa))
        ∧ r = (if rep =? 0 then 0 else -1) ∧ (r = 0 → n_up T = [] ∧ n_down T = []).
Proof.
  assert (El : logs_in {[bytes_of "joe" := bytes_of "pw"]} a_server a_client = true) by (vm_compute; reflexivity).
  pose proof (handshake_agrees logging logging no_pton no_pton tunnel_server default_timeouts (repeat x00 260) (repeat x00 260)
    a_client a_server {[bytes_of "joe" := bytes_of "pw"]} web true [] []) as H. cbv zeta in H. rewrite El in H. apply H.
  - by intros [].
  - done.
  - reflexivity.
  - reflexivity.
  - reflexivity.
  - reflexivity.
  - reflexivity.
  - by apply (WireIPv4 [bz 93; bz 184; bz 216; bz 34] [bz 0; bz 80]).
  - by intros user pass [= <- <-].
  - right. split; [reflexivity|apply joe_ok].
Defined.

(** the server of the example connects to that address and to nothing else *)
Example web_served : ∃ w s' sa, run logging (served no_pton no_pton default_timeouts a_server HEV_SOCKS5_REQ_CMD_CONNECT web) []
  = Some (w, (s', 0, sa)) ∧ w = [HSocket SOCK_STREAM; HV6Only 9; HAddFd 9;
      HConnect 9 (Sin6 AF_INET6 [bz 0; bz 80] (V4MAPPED ++ [bz 93; bz 184; bz 216; bz 34]))].
Proof. by do 3 eexists. Qed.
