(* ===== verification/HevSocks5Udp.v ===== *)
(** * hev-socks5, datagrams: src/core/src/hev-socks5-udp.c

    Datagrams in the SOCKS connection, each behind a header with its length
    and the length of its address, or in a UDP socket of their own, behind
    three zero bytes and the address.  A message on its way out has an
    address, a buffer and a length; a message that is received starts as an
    empty buffer, and its address then points into it, so the address is the
    memory from there on.  The object is its [HevSocks5] and the socket
    [get_fd] answers. *)

From Stdlib Require Import ZArith Lia Bool List.
From Stdlib Require Import Strings.Byte Strings.String.
From stdpp Require Import base tactics list numbers option gmap.
From S2P Require Import Prelude CMem HevIo HevSocks5 HevSocks5Client HevSocks5Server.

Definition UDP_BUF_SIZE : Z := 1500.

(** the pointer to the address: not written yet, null, or the memory from
    there on *)
Inductive addr_ptr : Type := Unset | NoAddr | AddrAt (m : mem).
Record HevSocks5UDPMsg : Type := UDPMsg { um_addr : addr_ptr; um_buf : mem; um_len : Z }.
#[export] Instance udpmsg_eta : Eta HevSocks5UDPMsg := λ m, UDPMsg (um_addr m) (um_buf m) (um_len m).

Definition hev_socks5_client_udp_get_fd (self : HevSocks5Client) : Z :=
  match s5_type (cl_base self) with
  | TYPE_UDP_IN_TCP => s5_fd (cl_base self)
  | TYPE_UDP_IN_UDP => cl_fd self
  | _ => -1
  end.
Definition hev_socks5_server_get_fd (self : HevSocks5Server) : Z :=
  match s5_type (sv_base self) with
  | TYPE_UDP_IN_TCP => s5_fd (sv_base self)
  | TYPE_UDP_IN_UDP => sv_fd1 self
  | _ => -1
  end.

Section udp.
Context (inet_pton4 inet_pton6 : mem → option mem).
(** what the buffers hold before they are written *)
Context (heap : nat → mem).
Implicit Types (self : HevSocks5) (fd : Z) (m : HevSocks5UDPMsg) (msgv : list HevSocks5UDPMsg).

(** *** Waiting *)

Inductive HevTaskYieldType : Type := HEV_TASK_YIELD | HEV_TASK_WAITIO.

Definition hev_socks5_task_io_yielder (type : HevTaskYieldType) self : io Z :=
  match type with
  | HEV_TASK_YIELD => _ <~ ask HYield; Done 0
  | HEV_TASK_WAITIO =>
      if s5_timeout self <? 0 then _ <~ ask HWaitio; Done 0
      else t <~ ask (HSleep (s5_timeout self)); Done (if t <=? 0 then -1 else 0)
  end.
(** gives up when the connection that belongs to the socket is closed *)
Definition task_io_yielder (type : HevTaskYieldType) self : io (HevSocks5 * Z) :=
  let wait := r <~ hev_socks5_task_io_yielder type self; Done (self, r) in
  if bool_decide (s5_type self = TYPE_UDP_IN_UDP) then
    '(res, again) <~ ask (HPoll (s5_fd self));
    if (res =? 0) || (res <? 0) && negb again then Done (hev_socks5_set_timeout self 0, -1) else wait
  else wait.

(** *** Sending *)

(** the address and the data of a message, or none when the address is bad *)
Definition addr_and_data m : res (option (mem * mem)) :=
  match um_addr m with
  | Unset | NoAddr => UB
  | AddrAt addr =>
      addrlen ← hev_socks5_addr_len addr;
      if addrlen <=? 0 then Ok None else
      a ← bytes_at 0 addrlen addr;
      d ← bytes_at 0 (um_len m) (um_buf m);
      Ok (Some (a, d))
  end.

(** [hdrlen] is held in a byte, [datlen] in two *)
Definition frame (a d : mem) : mem := htons (len d) ++ [bz (3 + len a)] ++ a ++ d.
Definition packet (a d : mem) : mem := [x00; x00; x00] ++ a ++ d.

(** all messages as [f] puts them, or none when one address is bad *)
Fixpoint assemble {A} (f : mem → mem → A) msgv : res (option (list A)) :=
  match msgv with
  | [] => Ok (Some [])
  | m :: msgv =>
      x ← addr_and_data m;
      match x with
      | None => Ok None
      | Some (a, d) =>
          rest ← assemble f msgv;
          Ok (match rest with Some l => Some (f a d :: l) | None => None end)
      end
  end.

Definition hev_socks5_udp_sendmmsg_tcp fd msgv : io Z :=
  frames <~ pure (assemble frame msgv);
  match frames with
  | None => Done (-1)
  | Some l => res <~ ask (HSend fd (concat l)); Done (if res <=? 0 then -1 else Z.of_nat (length msgv))
  end.
Definition hev_socks5_udp_sendmmsg_udp fd msgv : io Z :=
  packets <~ pure (assemble packet msgv);
  match packets with
  | None => Done (-1)
  | Some l => ask (HSendmm fd (map (λ p, (None, p)) l))
  end.
Definition hev_socks5_udp_sendmmsg self fd msgv : io Z :=
  match s5_type self with
  | TYPE_UDP_IN_TCP => hev_socks5_udp_sendmmsg_tcp fd msgv
  | TYPE_UDP_IN_UDP => hev_socks5_udp_sendmmsg_udp fd msgv
  | _ => Done (-1)
  end.

(** *** Receiving from the connection *)

(** the five bytes every message starts with *)
Definition recv_head fd (nonblock : bool) : io (mem * Z) :=
  r <~ ask (HRecvSome fd 5 nonblock);
  if (0 <? recvd r) && (recvd r <? 5) then
    r' <~ ask (HRecv fd (5 - recvd r)); Done (stored r ++ stored r', recvd r + recvd r')
  else Done (stored r, recvd r).

(** the rest of a message whose head is [udp]: the message, or the value to
    return *)
Definition recv_body fd (udp : mem) m : io (HevSocks5UDPMsg + Z) :=
  hdrlen <~ pure (rd udp 2);
  if zb hdrlen <? 5 then Done (inr (-1)) else
  let addrlen := zb hdrlen - 3 in
  let datlen := ntohs (take 2 udp) in
  if u64 (um_len m - addrlen) <? datlen then Done (inr (-1)) else
  r <~ ask (HRecv fd (addrlen - 2 + datlen));
  if negb (recvd r =? addrlen - 2 + datlen) then Done (inr (recvd r)) else
  buf <~ pure (memcpy (um_buf m) 2 (stored r) 0 (addrlen - 2));
  buf <~ pure (memcpy buf addrlen (stored r) (addrlen - 2) datlen);
  atype <~ pure (rd udp 3);
  dlen <~ pure (rd udp 4);
  buf <~ pure (wr buf 0 (zb atype));
  buf <~ pure (wr buf 1 (zb dlen));
  Done (inl (UDPMsg (AddrAt buf) (drop (Z.to_nat addrlen) buf) datlen)).

(** the messages of the loop, and the result; [done] are those received *)
Fixpoint recv_frames fd (nonblock : bool) (done msgv : list HevSocks5UDPMsg) : io (list HevSocks5UDPMsg * Z) :=
  match msgv with
  | [] => Done (done, Z.of_nat (length done))
  | m :: rest =>
      '(udp, res) <~ recv_head fd nonblock;
      if negb (res =? 5) then
        Done (done ++ msgv, if 0 <? Z.of_nat (length done) then Z.of_nat (length done) else res)
      else
      r <~ recv_body fd udp m;
      match r with
      | inl m => recv_frames fd nonblock (done ++ [m]) rest
      | inr e => Done (done ++ msgv, e)
      end
  end.
Definition hev_socks5_udp_recvmmsg_tcp fd msgv (nonblock : bool) : io (list HevSocks5UDPMsg * Z) :=
  recv_frames fd nonblock [] msgv.

(** *** Receiving from the socket *)

(** the message in a packet; none when it is not one *)
Definition open_packet m (data : mem) : res (option HevSocks5UDPMsg) :=
  let buf := splice (um_buf m) 0 data in
  addrlen ← hev_socks5_addr_len (drop 3 buf);
  if len data <? 4 then Ok (Some (UDPMsg NoAddr buf 0)) else
  if addrlen <=? 0 then Ok None else
  let doff := 3 + addrlen in
  if len data <? doff then Ok None else
  Ok (Some (UDPMsg (AddrAt (drop 3 buf)) (drop (Z.to_nat doff) buf) (len data - doff))).

Fixpoint open_packets msgv (packets : list (sockaddr_in6 * mem)) : res (option (list HevSocks5UDPMsg)) :=
  match packets, msgv with
  | [], _ => Ok (Some msgv)
  | _ :: _, [] => UB
  | (_, data) :: packets, m :: msgv =>
      x ← open_packet m data;
      match x with
      | None => Ok None
      | Some m => rest ← open_packets msgv packets; Ok (match rest with Some l => Some (m :: l) | None => None end)
      end
  end.

Definition hev_socks5_udp_recvmmsg_udp self fd msgv (nonblock : bool) : io (HevSocks5 * list HevSocks5UDPMsg * Z) :=
  r <~ ask (HRecvmm fd (map um_len msgv) nonblock);
  match r with
  | inr e => Done (self, msgv, e)
  | inl [] => Done (self, msgv, 0)
  | inl (((saddr, _) :: _) as packets) =>
      res <~ (if s5_udp_associated self then Done 0 else ask (HPlainConnect fd saddr));
      if res <? 0 then Done (self, msgv, -1) else
      let self := self <| s5_udp_associated := true |> in
      opened <~ pure (open_packets msgv packets);
      Done (match opened with
            | None => (self, msgv, -1)
            | Some l => (self, l, Z.of_nat (length packets))
            end)
  end.

Definition hev_socks5_udp_recvmmsg self fd msgv (nonblock : bool) : io (HevSocks5 * list HevSocks5UDPMsg * Z) :=
  match s5_type self with
  | TYPE_UDP_IN_TCP => '(msgv, res) <~ hev_socks5_udp_recvmmsg_tcp fd msgv nonblock; Done (self, msgv, res)
  | TYPE_UDP_IN_UDP => hev_socks5_udp_recvmmsg_udp self fd msgv nonblock
  | _ => Done (self, msgv, -1)
  end.

(** *** The server's relay *)

Definition empty_buffers (num : nat) : list HevSocks5UDPMsg :=
  map (λ i, UDPMsg Unset (heap i) UDP_BUF_SIZE) (seq 0 num).

(** the first [n] messages with their destinations; none when one is invalid *)
Fixpoint destinations self (svec : list HevSocks5UDPMsg) (n : nat) : io (option (list (option sockaddr_in6 * mem))) :=
  match n with
  | O => Done (Some [])
  | S n =>
      match svec with
      | [] => Crash
      | m :: svec =>
          match um_addr m with
          | Unset => Crash
          | NoAddr => Done None
          | AddrAt addr =>
              if um_len m =? 0 then Done None else
              '(ret, saddr, _) <~ hev_socks5_addr_into_sockaddr6 inet_pton4 inet_pton6 addr zero_addr (s5_addr_family self);
              if ret <? 0 then Done None else
              data <~ pure (bytes_at 0 (um_len m) (um_buf m));
              rest <~ destinations self svec n;
              Done (match rest with Some l => Some ((Some saddr, data) :: l) | None => None end)
          end
      end
  end.

(** what a forwarder returns for the result of its last call *)
Definition forwarded (res : Z) : io Z :=
  if res <=? 0 then
    if res =? -1 then again <~ ask HAgain; Done (if (again : bool) then 0 else -1) else Done (-1)
  else Done 1.

Definition hev_socks5_udp_fwd_f self (fd_a fd : Z) (num : nat) : io (HevSocks5 * Z) :=
  '(self, svec, res) <~ hev_socks5_udp_recvmmsg self fd_a (empty_buffers num) true;
  if 0 <? res then
    dvec <~ destinations self svec (Z.to_nat res);
    match dvec with
    | None => Done (self, -1)
    | Some l => res <~ ask (HSendmm fd l); r <~ forwarded res; Done (self, r)
    end
  else r <~ forwarded res; Done (self, r).

Fixpoint replies (packets : list (sockaddr_in6 * mem)) : res (list HevSocks5UDPMsg) :=
  match packets with
  | [] => Ok []
  | (from, data) :: packets =>
      '(addr, _) ← hev_socks5_addr_from_sockaddr6 (repeat x00 19) from;
      rest ← replies packets;
      Ok (UDPMsg (AddrAt addr) data (len data) :: rest)
  end.
Definition hev_socks5_udp_fwd_b self (fd_a fd : Z) (num : nat) : io Z :=
  r <~ ask (HRecvmm fd (repeat UDP_BUF_SIZE num) true);
  match r with
  | inr e => forwarded e
  | inl [] => forwarded 0
  | inl packets =>
      dvec <~ pure (replies packets);
      res <~ hev_socks5_udp_sendmmsg self fd_a dvec; forwarded res
  end.

(** one round of the relay: the object and the two directions, or the end *)
Definition splicer_round (fd_a fd_b : Z) (num : nat) (st : HevSocks5 * Z * Z) : io (HevSocks5 * Z * Z + HevSocks5) :=
  let '(self, res_f, res_b) := st in
  '(self, res_f) <~ (if 0 <=? res_f then hev_socks5_udp_fwd_f self fd_a fd_b num else Done (self, res_f));
  res_b <~ (if 0 <=? res_b then hev_socks5_udp_fwd_b self fd_a fd_b num else Done res_b);
  let wait type :=
    '(self, r) <~ task_io_yielder type self;
    Done (if r =? 0 then inl (self, res_f, res_b) else inr self) in
  if (0 <? res_f) || (0 <? res_b) then wait HEV_TASK_YIELD
  else if Z.land res_f res_b =? 0 then wait HEV_TASK_WAITIO
  else Done (inr self).
End udp.
