(* ===== verification/HevSocks5UdpSpec.v ===== *)
(** * hev-socks5: datagrams survive the connection

    Messages that are framed into the connection come out of it as they were,
    however the connection cuts them up ([frames_roundtrip]).  A connection
    that ends inside a message makes the receiver claim messages it does not
    have ([cut_frame_overcounts]). *)

From Stdlib Require Import ZArith Lia Bool List.
From Stdlib Require Import Strings.Byte Strings.String.
From stdpp Require Import base tactics list numbers option gmap.
From S2P Require Import Prelude CMem HevIo HevSocks5 HevSocks5Client HevSocks5Server HevAuth HevSocks5Spec HevSocks5Udp.

(** ** A program that reads a stream *)

Inductive outcome (A : Type) : Type := Ran (a : A) (rest : mem) (chunks : list Z) | Waits | Crashed.
Arguments Ran {A} _ _ _.
Arguments Waits {A}.
Arguments Crashed {A}.

(** [chunks] is how many bytes each receive finds ready, zero for none; [eof]
    whether the stream ends where it ends *)
Fixpoint reads {A} (fd : Z) (eof : bool) (m : io A) (stream : mem) (chunks : list Z) : outcome A :=
  match m with
  | Done a => Ran a stream chunks
  | Crash => Crashed
  | Call c k =>
      match c return (answer c → io A) → (answer c → mem → list Z → outcome A) → outcome A with
      | HRecv f n => λ k go,
          if n <=? 0 then go (inr 0) stream chunks
          else if n <=? len stream then go (inl (take (Z.to_nat n) stream)) (drop (Z.to_nat n) stream) chunks
          else if eof then go (match stream with [] => inr 0 | _ => inl stream end) [] chunks
          else Waits
      | HRecvSome f n _ => λ k go,
          match stream, chunks with
          | [], _ => go (inr (if eof then 0 else -1)) stream chunks
          | _, [] => Waits
          | _, q :: chunks =>
              if q <=? 0 then go (inr (-1)) stream chunks
              else go (inl (take (Z.to_nat (Z.min q n)) stream)) (drop (Z.to_nat (Z.min q n)) stream) chunks
          end
      | HAgain => λ k go, go true stream chunks
      | HSendmm _ l => λ k go, go (Z.of_nat (length l)) stream chunks
      | _ => λ _ _, Crashed
      end k (λ x stream chunks, reads fd eof (k x) stream chunks)
  end.

Lemma reads_bind {A B} fd eof (m : io A) (k : A → io B) stream chunks :
  reads fd eof (io_bind m k) stream chunks
  = match reads fd eof m stream chunks with Ran a s q => reads fd eof (k a) s q | Waits => Waits | Crashed => Crashed end.
Proof.
  revert stream chunks. induction m as [a|c f IH|]; intros stream chunks; simpl; [done| |done].
  destruct c; simpl; try done; try apply IH.
  - destruct (n <=? 0); [apply IH|]. destruct (n <=? len stream); [apply IH|]. by destruct eof; [apply IH|].
  - destruct stream as [|b stream]; [apply IH|]. destruct chunks as [|q chunks]; [done|].
    destruct (q <=? 0); apply IH.
Qed.

(** ** Messages *)

(** an address whose header fits the byte that tells its length, and data
    that fits the buffer with it *)
Definition sendable (x : mem * mem) : Prop :=
  wire_addr x.1 ∧ len x.1 <= 252 ∧ len x.1 + len x.2 <= UDP_BUF_SIZE.
Definition frames (xs : list (mem * mem)) : mem := concat (map (λ x, frame x.1 x.2) xs).

Definition outgoing (x : mem * mem) (m : HevSocks5UDPMsg) : Prop :=
  ∃ ra rd, um_addr m = AddrAt (x.1 ++ ra) ∧ um_buf m = x.2 ++ rd ∧ um_len m = len x.2.
(** the message [m] is [x] *)
Definition incoming (x : mem * mem) (m : HevSocks5UDPMsg) : Prop :=
  ∃ ra rd, um_addr m = AddrAt (x.1 ++ ra) ∧ um_buf m = x.2 ++ rd ∧ um_len m = len x.2.
Definition buffer (m : HevSocks5UDPMsg) : Prop := len (um_buf m) = UDP_BUF_SIZE ∧ um_len m = UDP_BUF_SIZE.

Lemma sendable_data m x : wire_addr x.1 → outgoing x m → addr_and_data m = Ok (Some x).
Proof.
  intros Hw (ra & rd & Ea & Eb & El). destruct (wire_length _ Hw) as [E Hl]. unfold addr_and_data. rewrite Ea.
  assert (E' : hev_socks5_addr_len (x.1 ++ ra) = Ok (len x.1)).
  { rewrite <- E. unfold hev_socks5_addr_len, name_len.
    destruct (wire_split _ Hw) as (t & b & rest & -> & _). reflexivity. }
  rewrite E', bind_Ok. rewrite (proj2 (Z.leb_gt _ _)) by lia. rewrite bytes_front, bind_Ok by done.
  rewrite Eb, El, bytes_front, bind_Ok by done. by destruct x.
Qed.
Lemma assemble_ok {A} (f : mem → mem → A) xs msgv : Forall (λ x, wire_addr x.1) xs → Forall2 outgoing xs msgv →
  assemble f msgv = Ok (Some (map (λ x, f x.1 x.2) xs)).
Proof.
  intros Hw H. induction H as [|x m xs msgv Hx H IH]; [done|]. inversion Hw; subst. cbn [assemble].
  rewrite (sendable_data m x) by done. rewrite bind_Ok. destruct x as [a d]. rewrite IH by done. by rewrite bind_Ok.
Qed.

(** *** One message *)

Lemma wr0 x c v : wr (x :: c) 0 v = Ok (bz v :: c).
Proof. by apply (wr_app [] x c v 0). Qed.
Lemma wr1 a x c v : wr (a :: x :: c) 1 v = Ok (a :: bz v :: c).
Proof. by apply (wr_app [a] x c v 1). Qed.

Lemma ntohs_htons p : 0 <= p < 2 ^ 16 → ntohs (htons p) = p.
Proof.
  intros Hp. unfold htons, ntohs. rewrite u16_small by done. rewrite Z.shiftr_div_pow2 by lia. change (2 ^ 8) with 256.
  pose proof (Z.div_pos p 256). assert (p / 256 < 256) by (apply Z.div_lt_upper_bound; lia).
  rewrite zb_bz_small by lia. rewrite zb_bz. unfold u8. change (2 ^ 8) with 256. pose proof (Z.div_mod p 256). lia.
Qed.

Lemma u64_fits a b : 0 <= b <= a → a < 2 ^ 64 → (u64 a <? b) = false.
Proof. intros H1 H2. rewrite u64_small by lia. apply Z.ltb_ge. lia. Qed.

(** the head of a frame, and the rest *)
Lemma frame_split x : sendable x → ∃ t b rest, x.1 = t :: b :: rest ∧
  frame x.1 x.2 = (htons (len x.2) ++ [bz (3 + len x.1); t; b]) ++ rest ++ x.2 ∧ len x.1 = 2 + len rest.
Proof.
  intros (Hw & _). destruct (wire_split _ Hw) as (t & b & rest & -> & _). exists t, b, rest. split; [done|].
  split; [done|]. rewrite !len_cons. lia.
Qed.

Lemma recv_body_ok fd x m t b rest S q :
  sendable x → buffer m → x.1 = t :: b :: rest → len x.1 = 2 + len rest →
  ∃ m', incoming x m' ∧
    reads fd false (recv_body fd (htons (len x.2) ++ [bz (3 + len x.1); t; b]) m) (rest ++ x.2 ++ S) q = Ran (inl m') S q.
Proof.
  intros (Hw & Hl & Hs) [Hb Hbl] E El. destruct (wire_length _ Hw) as [_ [H4 _]]. unfold UDP_BUF_SIZE in *.
  pose proof (len_nonneg x.2) as Hd. pose proof (len_nonneg rest) as Hr. unfold recv_body.
  rewrite rd_app_r by done. change (2 - len (htons (len x.2))) with 0. rewrite rd0, pure_ok. rewrite zb_bz_small by lia.
  rewrite (proj2 (Z.ltb_ge _ _)) by lia. change (take 2 (htons (len x.2) ++ _)) with (htons (len x.2)). cbv zeta.
  rewrite ntohs_htons by lia. replace (3 + len x.1 - 3) with (len x.1) by lia. rewrite Hbl, u64_fits by lia.
  rewrite reads_bind. cbn [ask reads]. replace (len x.1 - 2 + len x.2) with (len (rest ++ x.2)) by (rewrite len_app; lia).
  assert (Hgo : ∃ m', incoming x m' ∧ reads fd false (
     (buf <~ pure (memcpy (um_buf m) 2 (rest ++ x.2) 0 (len x.1 - 2));
      buf <~ pure (memcpy buf (len x.1) (rest ++ x.2) (len x.1 - 2) (len x.2));
      atype <~ pure (rd (htons (len x.2) ++ [bz (3 + len x.1); t; b]) 3);
      dlen <~ pure (rd (htons (len x.2) ++ [bz (3 + len x.1); t; b]) 4);
      buf <~ pure (wr buf 0 (zb atype)); buf <~ pure (wr buf 1 (zb dlen));
      Done (inl (UDPMsg (AddrAt buf) (drop (Z.to_nat (len x.1)) buf) (len x.2)) : HevSocks5UDPMsg + Z))%io) S q = Ran (inl m') S q).
  { set (B := um_buf m) in *.
    set (l := Z.to_nat (len rest)). set (n := Z.to_nat (len x.2)).
    assert (EB : B = take 2 B ++ take l (drop 2 B) ++ drop l (drop 2 B)) by by rewrite !take_drop.
    assert (L2 : length (take 2 B) = 2%nat) by (rewrite length_take; unfold len in *; lia).
    assert (Ll : length (take l (drop 2 B)) = l) by (rewrite length_take, length_drop; unfold l, len in *; lia).
    rewrite (memcpy_part B (rest ++ x.2) 2 0 _ (take 2 B) (take l (drop 2 B)) (drop l (drop 2 B)) [] rest x.2);
      [|exact EB|done|unfold len; lia|done|unfold len in *; lia|lia]. rewrite pure_ok.
    set (C := drop l (drop 2 B)) in *. assert (EC : C = take n C ++ drop n C) by by rewrite take_drop.
    assert (LC : length C = (1500 - 2 - l)%nat) by (unfold C; rewrite !length_drop; unfold len in *; lia).
    assert (Ln : length (take n C) = n) by (rewrite length_take; unfold n, l, len in *; lia).
    rewrite (memcpy_part _ (rest ++ x.2) (len x.1) _ (len x.2) (take 2 B ++ rest) (take n C) (drop n C) rest x.2 []);
      [|rewrite EC at 1; by rewrite <- !app_assoc|by rewrite app_nil_r|rewrite len_app; unfold len in *; lia|lia|unfold len in *; lia|done].
    rewrite pure_ok. rewrite rd_app_r by done. change (3 - len (htons (len x.2))) with 1. rewrite rd1, pure_ok.
    rewrite rd_app_r by done. change (4 - len (htons (len x.2))) with 2. change (rd [bz (3 + len x.1); t; b] 2) with (Ok b).
    rewrite pure_ok. destruct (take 2 B) as [|b0 [|b1 [|]]]; try done. cbn [app].
    rewrite wr0, pure_ok, wr1, pure_ok.
    rewrite !bz_zb. eexists. split; [|reflexivity]. exists (x.2 ++ drop n C), (drop n C). simpl um_addr. simpl um_buf. simpl um_len.
    split; [|split; [|done]].
    - by rewrite E.
    - change (t :: b :: (rest ++ x.2 ++ drop n C)) with ((t :: b :: rest) ++ x.2 ++ drop n C). rewrite <- E. by apply drop_len_app. }
  destruct Hgo as (m' & Hm' & Hgo). exists m'. split; [done|].
  destruct (Z.leb_spec (len (rest ++ x.2)) 0) as [H0|H0].
  - exfalso. rewrite len_app in H0. lia.
  - rewrite (proj2 (Z.leb_le _ _)) by (rewrite !len_app; pose proof (len_nonneg S); lia).
    rewrite app_assoc, take_len_app, drop_len_app by done. cbn [stored recvd]. rewrite Z.eqb_refl. exact Hgo.
Qed.

(** the head comes whole, in one piece or in two *)
Lemma recv_head_ok fd h S q qs : length h = 5%nat → 0 < q →
  reads fd false (recv_head fd true) (h ++ S) (q :: qs) = Ran (h, 5) S qs.
Proof.
  intros Hh Hq. unfold recv_head. destruct (h ++ S) as [|b0 s0] eqn:E0; [destruct h; done|]. cbn [ask io_bind reads].
  rewrite <- E0. clear E0 b0 s0. rewrite (proj2 (Z.leb_gt _ _)) by lia.
  set (n := Z.to_nat (Z.min q 5)). assert (Hn : (1 <= n <= 5)%nat) by lia.
  rewrite take_app_le, drop_app_le by lia. assert (Lt : len (take n h) = Z.of_nat n) by (unfold len; rewrite length_take; lia).
  cbn [recvd stored]. rewrite Lt. rewrite (proj2 (Z.ltb_lt 0 _)) by lia. cbn [andb].
  destruct (Z.ltb_spec (Z.of_nat n) 5) as [Hlt|Hge].
  - cbn [io_bind reads]. assert (Ld : len (drop n h) = 5 - Z.of_nat n) by (unfold len; rewrite length_drop; lia).
    rewrite (proj2 (Z.leb_gt _ _)) by lia. rewrite (proj2 (Z.leb_le _ _)) by (rewrite len_app; pose proof (len_nonneg S); lia).
    rewrite <- Ld, take_len_app, drop_len_app by done. cbn [recvd stored]. rewrite take_drop, Ld.
    by replace (Z.of_nat n + (5 - Z.of_nat n)) with 5 by lia.
  - replace n with 5%nat by lia. by rewrite take_ge, drop_ge by lia.
Qed.

(** what a call has found: [k] more messages *)
Lemma recv_frames_ok fd bufs : ∀ xs got q, Forall sendable xs → Forall buffer bufs → (length bufs <= length q)%nat →
  ∃ k new msgv r q', reads fd false (recv_frames fd true got bufs) (frames xs) q = Ran (msgv, r) (frames (drop k xs)) q'
    ∧ (k <= length xs)%nat ∧ Forall2 incoming (take k xs) new ∧ take (length (got ++ new)) msgv = got ++ new
    ∧ r = (if bool_decide (got ++ new = []) && negb (bool_decide (bufs = [])) then -1 else Z.of_nat (length (got ++ new)))
    ∧ (bufs ≠ [] → xs ≠ [] → (∃ c, head q = Some c ∧ 0 < c) → (0 < k)%nat).
Proof.
  induction bufs as [|m bufs IH]; intros xs got q Hxs Hb Hq.
  { exists 0%nat, [], got, (Z.of_nat (length got)), q. simpl. rewrite drop_0, app_nil_r, firstn_all, andb_false_r.
    split; [done|]. split; [lia|]. split_and!; done. }
  inversion Hb as [|?? Hm Hbs]; subst. destruct q as [|c q]; [simpl in Hq; lia|].
  assert (Hstop : Forall2 incoming (take 0 xs) [] ∧ take (length (got ++ [])) (got ++ m :: bufs) = got ++ []
    ∧ (if 0 <? Z.of_nat (length got) then Z.of_nat (length got) else -1)
      = (if bool_decide (got ++ [] = []) && negb (bool_decide (m :: bufs = [])) then -1 else Z.of_nat (length (got ++ [])))).
  { rewrite app_nil_r, take_app_length. split; [constructor|]. split; [done|]. by destruct got. }
  cbn [recv_frames]. rewrite reads_bind.
  destruct xs as [|x xs].
  { exists 0%nat, [], (got ++ m :: bufs), (if 0 <? Z.of_nat (length got) then Z.of_nat (length got) else -1), (c :: q).
    split; [done|]. split; [done|]. destruct Hstop as (? & ? & ?). split_and!; done. }
  inversion Hxs as [|?? Hx Hxs']; subst.
  destruct (frame_split x Hx) as (t & b & rest & E1 & Ef & El).
  assert (Efr : frames (x :: xs) = (htons (len x.2) ++ [bz (3 + len x.1); t; b]) ++ rest ++ x.2 ++ frames xs).
  { unfold frames. cbn [map concat]. rewrite Ef, <- !app_assoc. done. }
  destruct (Z.leb_spec c 0) as [Hc|Hc].
  { exists 0%nat, [], (got ++ m :: bufs), (if 0 <? Z.of_nat (length got) then Z.of_nat (length got) else -1), q.
    split; [|split; [simpl; lia|]; destruct Hstop as (? & ? & ?); split_and!; try done; intros _ _ (c' & [= ->] & ?); lia].
    rewrite drop_0, Efr. unfold recv_head. cbn [ask io_bind htons app reads].
    rewrite (proj2 (Z.leb_le _ _)) by lia. reflexivity. }
  rewrite Efr, recv_head_ok by done. cbn beta iota. simpl (negb (5 =? 5)). cbv iota. rewrite reads_bind.
  destruct (recv_body_ok fd x m t b rest (frames xs) q Hx Hm E1 El) as (m' & Hm' & ->).
  destruct (IH xs (got ++ [m']) q Hxs' Hbs) as (k & new & msgv & r & q' & -> & Hk & Hnew & Htake & Hr & _); [simpl in Hq; lia|].
  exists (S k), (m' :: new), msgv, r, q'. rewrite <- app_assoc in Htake, Hr. cbn [app] in Htake, Hr.
  split; [done|]. split; [simpl; lia|]. split; [by constructor|]. split; [done|]. split; [|lia].
  rewrite Hr. assert (H : got ++ m' :: new ≠ []) by by destruct got. by rewrite (bool_decide_false _ H).
Qed.

(** ** Calls in a row *)

(** a call into fresh buffers for each list of [rounds], which tells what its
    receives find ready; the messages that were claimed, and the stream *)
Fixpoint receive_all (fd : Z) (bufs : list HevSocks5UDPMsg) (rounds : list (list Z)) (stream : mem)
    : option (list HevSocks5UDPMsg * mem) :=
  match rounds with
  | [] => Some ([], stream)
  | q :: rounds =>
      match reads fd false (hev_socks5_udp_recvmmsg_tcp fd bufs true) stream q with
      | Ran (msgv, r) stream _ =>
          match receive_all fd bufs rounds stream with
          | Some (ms, stream) => Some (take (Z.to_nat r) msgv ++ ms, stream)
          | None => None
          end
      | _ => None
      end
  end.

(** a round in which something is ready *)
Definition ready (num : nat) (q : list Z) : Prop := (num <= length q)%nat ∧ ∃ c, head q = Some c ∧ 0 < c.

Lemma receive_all_ok fd bufs rounds : ∀ xs, bufs ≠ [] → Forall buffer bufs → Forall sendable xs →
  Forall (ready (length bufs)) rounds → (length xs <= length rounds)%nat →
  ∃ ms, receive_all fd bufs rounds (frames xs) = Some (ms, []) ∧ Forall2 incoming xs ms.
Proof.
  induction rounds as [|q rounds IH]; intros xs Hne Hb Hxs Hr Hl.
  { destruct xs; [|simpl in Hl; lia]. exists []. split; [done|constructor]. }
  inversion Hr as [|?? [Hq Hc] Hr']; subst. cbn [receive_all]. unfold hev_socks5_udp_recvmmsg_tcp.
  destruct (recv_frames_ok fd bufs xs [] q Hxs Hb Hq) as (k & new & msgv & r & q' & -> & Hk & Hnew & Htake & Er & Hpos).
  destruct (IH (drop k xs)) as (ms & -> & Hms); try done.
  { by apply Forall_drop. }
  { rewrite length_drop. destruct xs; [simpl; lia|]. specialize (Hpos Hne ltac:(done) Hc). simpl in *. lia. }
  exists (new ++ ms). cbn [app] in Htake, Er. split.
  - f_equal. f_equal. f_equal. rewrite Er. rewrite (bool_decide_false (bufs = [])) by done. case_bool_decide as En; simpl.
    + by rewrite En.
    + by rewrite Nat2Z.id.
  - rewrite <- (take_drop k xs). by apply Forall2_app.
Qed.

(** ** The theorems *)

(** C37: datagrams sent in the connection arrive: [hev_socks5_udp_sendmmsg_tcp]
    hands the connection exactly their frames, and receiving from them, into
    any number of buffers and however the bytes come in, gives every datagram
    once, in order, with its address and its data, and leaves nothing behind.
    An address has to fit the byte that tells the header's length: it has at
    most 252 bytes, a name at most 248 ([long_name_header]); and it fits one
    buffer together with the data ([sendable]). *)
Theorem frames_roundtrip (fd : Z) (xs : list (mem * mem)) (out bufs : list HevSocks5UDPMsg) (rounds : list (list Z)) :
  Forall sendable xs → Forall2 outgoing xs out → bufs ≠ [] → Forall buffer bufs →
  Forall (ready (length bufs)) rounds → (length xs <= length rounds)%nat →
  ∃ ms k, hev_socks5_udp_sendmmsg_tcp fd out = io_bind (ask (HSend fd (frames xs))) k
    ∧ (∀ n, 0 < n → k n = Done (Z.of_nat (length xs)))
    ∧ receive_all fd bufs rounds (frames xs) = Some (ms, []) ∧ Forall2 incoming xs ms.
Proof.
  intros Hxs Hout Hne Hb Hr Hl. destruct (receive_all_ok fd bufs rounds xs) as (ms & E & Hms); try done.
  exists ms, (λ res, Done (if res <=? 0 then -1 else Z.of_nat (length out))). split; [|split; [|done]].
  - unfold hev_socks5_udp_sendmmsg_tcp. rewrite (assemble_ok frame xs), pure_ok; [done| |done].
    apply (Forall_impl _ _ _ Hxs). by intros x [? _].
  - intros n Hn. rewrite (proj2 (Z.leb_gt _ _)) by lia. by rewrite (Forall2_length _ _ _ Hout).
Qed.

(** what is wrong: the length of the header is held in a byte *)
Lemma long_name_header (name port d : mem) : len name = 249 → length port = 2%nat →
  frame (bz 3 :: bz 249 :: name ++ port) d = htons (len d) ++ [bz 0] ++ (bz 3 :: bz 249 :: name ++ port) ++ d.
Proof.
  intros Hn Hp. unfold frame. replace (3 + len (bz 3 :: bz 249 :: name ++ port)) with 256; [done|].
  rewrite !len_cons, len_app. unfold len in *. lia.
Qed.

(** When the connection ends inside a datagram, the receiver returns how
    many of its bytes came, and not how many datagrams it has: two buffers,
    no datagram complete, and the answer is 300.  The server's relay then
    reads an address that was never written. *)
Theorem cut_frame_overcounts (fd fd_b sfd timeout family : Z) (assoc : bool) (heap : nat → mem) (p4 p6 : mem → option mem) :
  let a := [bz 1; bz 10; bz 0; bz 0; bz 1; bz 0; bz 53] in
  let stream := take 305 (frame a (repeat x00 1000)) in
  (∃ msgv, reads fd true (hev_socks5_udp_recvmmsg_tcp fd (empty_buffers heap 2) true) stream [5; 5] = Ran (msgv, 300) [] [5])
  ∧ reads fd true (hev_socks5_udp_fwd_f p4 p6 heap (Socks5 sfd timeout TYPE_UDP_IN_TCP assoc family) fd fd_b 2) stream [5; 5]
    = Crashed.
Proof. split; [eexists|]; vm_compute; reflexivity. Qed.

(** ** Example: two datagrams, in pieces of two bytes *)

Definition dns_query : mem * mem := ([bz 1; bz 8; bz 8; bz 8; bz 8; bz 0; bz 53], bytes_of "query").
Definition ntp_query : mem * mem := (bz 3 :: bz 3 :: bytes_of "ntp" ++ [bz 0; bz 123], bytes_of "time").
Definition out_of (x : mem * mem) : HevSocks5UDPMsg := UDPMsg (AddrAt x.1) x.2 (len x.2).
Definition two_buffers : list HevSocks5UDPMsg := empty_buffers (λ _, repeat x00 1500) 2.

Lemma frames_roundtrip_witness :
  ∃ ms k, hev_socks5_udp_sendmmsg_tcp 5 [out_of dns_query; out_of ntp_query]
      = io_bind (ask (HSend 5 (frames [dns_query; ntp_query]))) k
    ∧ (∀ n, 0 < n → k n = Done 2)
    ∧ receive_all 5 two_buffers [[2; 2]; [2; 2]] (frames [dns_query; ntp_query]) = Some (ms, [])
    ∧ Forall2 incoming [dns_query; ntp_query] ms.
Proof.
  apply (frames_roundtrip 5 [dns_query; ntp_query] [out_of dns_query; out_of ntp_query] two_buffers [[2; 2]; [2; 2]]).
  - repeat constructor; simpl; try (vm_compute; discriminate).
    + by apply (WireIPv4 [bz 8; bz 8; bz 8; bz 8] [bz 0; bz 53]).
    + by apply (WireName (bytes_of "ntp") [bz 0; bz 123]).
  - repeat constructor; exists [], []; by rewrite !app_nil_r.
  - done.
  - repeat constructor.
  - repeat constructor; by exists 2.
  - simpl. lia.
Defined.
