(* ===== verification/HevLwip.v ===== *)
(** * hev-socks5-tunnel, lwIP's addresses and buffers: src/misc/hev-utils.c

    What the sessions see of lwIP: an address is its type and the bytes it
    starts with, a chain of packet buffers the list of their payloads.  An
    address that mapped DNS has handed out becomes its name again
    ([hev_socks5_addr_from_lwip]). *)

From Stdlib Require Import ZArith Lia Bool List.
From Stdlib Require Import Strings.Byte Strings.String.
From stdpp Require Import base tactics list numbers option gmap.
From S2P Require Import Prelude CMem HevMappedDns HevIo HevSocks5.

(** ** third-part/lwip/src/include/lwip/ip_addr.h *)

Definition IPADDR_TYPE_V4 : Z := 0.
Definition IPADDR_TYPE_V6 : Z := 6.
Record ip_addr_t : Type := IpAddr { ip_type : Z; ip_bytes : mem }.

(** ** third-part/lwip/src/core/pbuf.c *)

(** [size] is a [u16_t] *)
Fixpoint pbuf_free_header (q : list mem) (size : Z) : list mem :=
  match q with
  | [] => []
  | p :: rest =>
      if size =? 0 then q
      else if len p <=? size then pbuf_free_header rest (u16 (size - len p))
      else drop (Z.to_nat size) p :: rest
  end.

(** ** hev-utils.c *)

(** the number in four bytes in network order *)
Definition ntohl (m : mem) : res Z :=
  a ← rd m 0; b ← rd m 1; c ← rd m 2; d ← rd m 3;
  Ok (zb a * 2 ^ 24 + zb b * 2 ^ 16 + zb c * 2 ^ 8 + zb d).

(** the name mapped DNS knows the address by; [dns] is the one of
    [hev_mapped_dns_get] *)
Definition lookup_name (dns : option HevMappedDNS) (ip : mem) : res (option HevMappedDNS * option mem) :=
  match dns with
  | None => Ok (None, None)
  | Some d =>
      a ← ntohl ip;
      '(d, name) ← hev_mapped_dns_lookup d (i32 a);
      Ok (Some d, name)
  end.

Definition hev_socks5_addr_from_lwip (dns : option HevMappedDNS) (addr : mem) (ip : ip_addr_t) (port : Z)
    : res (option HevMappedDNS * mem * Z) :=
  if ip_type ip =? IPADDR_TYPE_V4 then
    '(dns, name) ← lookup_name dns (ip_bytes ip);
    '(addr, _) ← (match name with
      | Some name => hev_socks5_addr_from_name addr name (htons port)
      | None => hev_socks5_addr_from_ipv4 addr (ip_bytes ip) (htons port)
      end);
    Ok (dns, addr, 0)
  else if ip_type ip =? IPADDR_TYPE_V6 then
    '(addr, _) ← hev_socks5_addr_from_ipv6 addr (ip_bytes ip) (htons port);
    Ok (dns, addr, 0)
  else Ok (dns, addr, -1).

(** the address and the port, none when it is a name *)
Definition hev_socks5_addr_into_lwip (addr : mem) : res (option (ip_addr_t * Z)) :=
  atype ← rd addr 0;
  if zb atype =? HEV_SOCKS5_ADDR_TYPE_IPV4 then
    ip ← bytes_at 1 4 addr; port ← bytes_at 5 2 addr; Ok (Some (IpAddr IPADDR_TYPE_V4 ip, ntohs port))
  else if zb atype =? HEV_SOCKS5_ADDR_TYPE_IPV6 then
    ip ← bytes_at 1 16 addr; port ← bytes_at 17 2 addr; Ok (Some (IpAddr IPADDR_TYPE_V6 ip, ntohs port))
  else Ok None.
