(* ===== verification/HevSessionTcp.v ===== *)
(** * hev-socks5-tunnel, a TCP session: src/hev-socks5-session-tcp.c

    A connection of the device that lwIP has accepted, and the SOCKS client
    that carries it.  What the device sends waits in a chain of packet
    buffers ([st_queue]), what the server sends in the ring buffer.  The task
    of the session runs until it waits; in between lwIP calls
    [tcp_recv_handler], [tcp_sent_handler] and [tcp_err_handler].  No task
    waits while it holds the mutex, so both directions of a turn are carried
    out without a handler in between. *)

From Stdlib Require Import ZArith Lia Bool List.
From Stdlib Require Import Strings.Byte Strings.String.
From stdpp Require Import base tactics list numbers option gmap.
From S2P Require Import Prelude CMem HevMappedDns HevRing HevIo HevSocks5 HevSocks5Client HevSocks5Udp HevLwip.

(** lwipopts.h *)
Definition TCP_MSS : Z := 8191.
Definition TCP_WND : Z := 8 * TCP_MSS.
Definition TCP_SND_BUF : Z := 8 * TCP_MSS.

Record HevSocks5SessionTCP : Type := SessionTCP {
  st_client : HevSocks5Client;
  st_queue : list mem;              (* the chain; empty for the null pointer *)
  st_pcb : bool;                    (* is there still a [tcp_pcb]? *)
  st_pcb_eof : bool;
  st_buffer : option HevRingBuffer  (* none before the splicer has made it *)
}.
#[export] Instance session_tcp_eta : Eta HevSocks5SessionTCP :=
  λ s, SessionTCP (st_client s) (st_queue s) (st_pcb s) (st_pcb_eof s) (st_buffer s).

Implicit Types (self : HevSocks5SessionTCP).

(** ** hev-socks5-session.c *)

Definition hev_socks5_session_terminate (base : HevSocks5) : HevSocks5 := hev_socks5_set_timeout base 0.

(** ** What lwIP calls *)

Definition tcp_recv_handler self (p : option (list mem)) : HevSocks5SessionTCP :=
  match p with
  | Some p => match st_queue self with
              | [] => self <| st_queue := p |>
              | q => self <| st_queue := q ++ p |>
              end
  | None => self <| st_pcb_eof := true |>
  end.

Definition get_buffer self : res HevRingBuffer := match st_buffer self with Some b => Ok b | None => UB end.

Definition tcp_sent_handler self (len : Z) : res HevSocks5SessionTCP :=
  b ← get_buffer self; Ok (self <| st_buffer := Some (hev_ring_buffer_read_release b len) |>).

Definition tcp_err_handler self : HevSocks5SessionTCP :=
  self <| st_pcb := false |>
       <| st_client := st_client self <| cl_base := hev_socks5_session_terminate (cl_base (st_client self)) |> |>.

(** ** The two directions *)

Definition st_fd self : Z := s5_fd (cl_base (st_client self)).

Definition tcp_splice_f self : io (HevSocks5SessionTCP * Z) :=
  let iov := take 64 (st_queue self) in
  let res := match st_queue self with _ :: _ => 1 | [] => if st_pcb_eof self then -1 else 0 end in
  match iov with
  | _ :: _ =>
      '(s, again) <~ ask (HWritev (st_fd self) iov);
      if s <=? 0 then Done (self, if (s <? 0) && again then 0 else -1) else
      let self := self <| st_queue := pbuf_free_header (st_queue self) (u16 s) |> in
      _ <~ (if st_pcb self then ask (HTcpRecved (u16 s)) else Done tt);
      Done (self, 1)
  | [] =>
      _ <~ (if res <? 0 then ask (HShutdown (st_fd self)) else Done tt);
      Done (self, res)
  end.

(** [tcp_write] of every vector, the errors together; a length is a [u16_t] *)
Fixpoint tcp_writes (data : mem) (iov : list iovec) : io Z :=
  match iov with
  | [] => Done 0
  | (o, n) :: iov =>
      d <~ pure (bytes_at o (u16 n) data);
      err <~ ask (HTcpWrite d);
      rest <~ tcp_writes data iov;
      Done (Z.lor err rest)
  end.

Definition room (iov : list iovec) : Z := foldr (λ v s, v.2 + s) 0 iov.

(** the server's bytes into the ring *)
Definition fill self : io (HevSocks5SessionTCP * Z) :=
  b <~ pure (get_buffer self);
  match hev_ring_buffer_writing b with
  | [] => Done (self, 0)
  | iov =>
      r <~ ask (HReadv (st_fd self) (room iov));
      match r with
      | inr again => Done (self, if (again : bool) then 0 else -1)
      | inl [] => Done (self, -1)
      | inl bs => b <~ pure (receive b bs); Done (self <| st_buffer := Some b |>, 1)
      end
  end.

(** the ring's bytes to lwIP: the session, the result, the errors *)
Definition drain self (res : Z) : io (HevSocks5SessionTCP * Z * Z) :=
  b <~ pure (get_buffer self);
  match hev_ring_buffer_reading b with
  | [] => _ <~ (if res <? 0 then ask HTcpShutdown else Done tt); Done (self, res, 0)
  | iov =>
      err <~ tcp_writes (data b) iov;
      b <~ pure (hev_ring_buffer_read_finish b (room iov));
      err' <~ ask HTcpOutput;
      Done (self <| st_buffer := Some b |>, 1, Z.lor err err')
  end.

Definition tcp_splice_b self : io (HevSocks5SessionTCP * Z) :=
  '(self, res) <~ fill self;
  '(self, res, err) <~ (if st_pcb self then drain self res else Done (self, res, 0));
  Done (self, if negb (st_pcb self) || negb (err =? 0) then -1 else res).

(** ** The task *)

Definition task_io_yielder (type : HevTaskYieldType) self : io Z :=
  res <~ hev_socks5_task_io_yielder type (cl_base (st_client self));
  _ <~ ask HUpdateSession;
  Done res.

(** where [hev_socks5_session_tcp_splice] stands: about to carry out the two
    directions, about to wait after that, about to look whether the ring is
    empty, about to wait for that, or at its end *)
Inductive splice_at : Type :=
  | Turn (res_f res_b : Z)
  | Wait (type : HevTaskYieldType) (res_f res_b : Z)
  | Flush | WaitFlush | Over.

Definition hev_socks5_session_tcp_splice self (tcp_buffer_size : Z) (garbage : mem) : HevSocks5SessionTCP * splice_at :=
  if negb (st_pcb self) then (self, Over)
  else (self <| st_buffer := Some (hev_ring_buffer_alloca (take (Z.to_nat tcp_buffer_size) garbage)) |>, Turn 1 1).

(** the splicer as far as its next wait *)
Definition splice_step self (pc : splice_at) : io (HevSocks5SessionTCP * splice_at) :=
  match pc with
  | Turn res_f res_b =>
      '(self, res_f) <~ (if 0 <=? res_f then tcp_splice_f self else Done (self, res_f));
      '(self, res_b) <~ (if 0 <=? res_b then tcp_splice_b self else Done (self, res_b));
      Done (self, if (0 <? res_f) || (0 <? res_b) then Wait HEV_TASK_YIELD res_f res_b
                  else if Z.land res_f res_b =? 0 then Wait HEV_TASK_WAITIO res_f res_b
                  else Flush)
  | Wait type res_f res_b =>
      r <~ task_io_yielder type self;
      Done (self, if r <? 0 then Flush else Turn res_f res_b)
  | Flush =>
      if negb (st_pcb self) then Done (self, Over) else
      b <~ pure (get_buffer self);
      Done (self, if hev_ring_buffer_get_use_size b =? 0 then Over else WaitFlush)
  | WaitFlush =>
      r <~ task_io_yielder HEV_TASK_WAITIO self;
      Done (self, if r <? 0 then Over else Flush)
  | Over => Done (self, Over)
  end.

(** ** The beginning and the end *)

(** no session when there is no memory or the address is unusable; [stack] is
    what the local [HevSocks5Addr] holds *)
Definition hev_socks5_session_tcp_construct (dns : option HevMappedDNS) (stack : mem) (ip : ip_addr_t) (port : Z)
    : io (option HevMappedDNS * option HevSocks5SessionTCP) :=
  '(dns, addr, res) <~ pure (hev_socks5_addr_from_lwip dns stack ip port);
  if res <? 0 then Done (dns, None) else
  client <~ hev_socks5_client_tcp_construct addr;
  Done (dns, match client with
             | None => None
             | Some c => Some (SessionTCP c [] true false None)
             end).

Definition hev_socks5_session_tcp_destruct self : io HevSocks5SessionTCP :=
  let self := self <| st_pcb := false |> <| st_queue := [] |> in
  _ <~ hev_socks5_client_tcp_destruct (st_client self);
  Done self.
