(* ===== verification/HevLwipSpec.v ===== *)
(** * hev-socks5-tunnel: addresses between lwIP and SOCKS

    [hev_socks5_addr_from_lwip] always makes an address that can be sent
    ([from_lwip_ok]), provided mapped DNS knows no name of more than 255
    bytes. *)

From Stdlib Require Import ZArith Lia Bool List.
From Stdlib Require Import Strings.Byte Strings.String.
From stdpp Require Import base tactics list numbers option gmap.
From S2P Require Import Prelude CMem HevList HevMappedDns HevMappedDnsSpec HevDnsPacket HevIo HevSocks5 HevSocks5Client HevSocks5Spec HevLwip HevSessionTcp.

(** ** Names *)

Lemma c_str_name (name : mem) r : c_name name → c_str (name ++ x00 :: r) = name.
Proof.
  intros H. induction H as [|c name Hc H IH]; [done|]. cbn [app c_str]. rewrite (proj2 (Z.eqb_neq _ _)) by done. by rewrite IH.
Qed.
Lemma c_str_all (name : mem) : c_name name → c_str name = name.
Proof. intros H. induction H as [|c name Hc H IH]; [done|]. cbn [c_str]. rewrite (proj2 (Z.eqb_neq _ _)) by done. by rewrite IH. Qed.

Lemma htons_length p : length (htons p) = 2%nat.
Proof. done. Qed.

Section from.
Context (stack port : mem).
Hypothesis Hstack : len stack = 260.
Hypothesis Hport : length port = 2%nat.

Lemma wr_stack v : ∃ s1 rest, wr stack 0 v = Ok (bz v :: s1 :: rest) ∧ len rest = 258.
Proof.
  destruct stack as [|s0 [|s1 rest]]; [done|done|]. rewrite !len_cons in Hstack. exists s1, rest. split; [|lia].
  by apply (wr_app [] s0 (s1 :: rest) v 0).
Qed.

(** the field of the name is filled with zeros behind it *)
Lemma from_name_ok (name : mem) : c_name name → len name <= 255 →
  ∃ rest, hev_socks5_addr_from_name stack name port = Ok ((bz 3 :: bz (len name) :: name ++ port) ++ rest, 4 + len name).
Proof.
  intros Hn Hl. unfold hev_socks5_addr_from_name. destruct (wr_stack HEV_SOCKS5_ADDR_TYPE_NAME) as (s1 & rest & -> & Hr).
  rewrite bind_Ok. unfold strncpy. rewrite c_str_all by done. cbv zeta.
  rewrite (take_ge name) by (unfold len in Hl; lia). set (z := repeat x00 (Z.to_nat 256 - length name)).
  assert (Hz : len z = 256 - len name) by (unfold z, len in *; rewrite repeat_length; lia).
  rewrite (memcpy_whole _ (name ++ z) 2 [bz HEV_SOCKS5_ADDR_TYPE_NAME; s1] (take 256 rest) (drop 256 rest));
    [|by rewrite take_drop|done|unfold len in *; rewrite length_take; lia|rewrite len_app; lia].
  rewrite bind_Ok. set (tl := drop 256 rest). assert (Htl : len tl = 2) by (unfold tl, len in *; rewrite length_drop; lia).
  clearbody tl. cbn [app drop]. pose proof (len_nonneg name).
  assert (Ez : z = x00 :: x00 :: repeat x00 (Z.to_nat 256 - length name - 2) ∨ len name = 255 ∧ z = [x00]).
  { unfold z. unfold len in *. destruct (Z.to_nat 256 - length name)%nat as [|[|n]] eqn:E; [lia|right|left].
    - split; [lia|done].
    - replace (S (S n) - 2)%nat with n by lia. done. }
  unfold strlen.
  assert (Ec : c_str ((name ++ z) ++ tl) = name).
  { rewrite <- app_assoc. destruct Ez as [->|[_ ->]]; by apply c_str_name. }
  rewrite !drop_0, Ec. cbv zeta. rewrite (proj2 (Z.ltb_lt _ _)) by (rewrite !len_app; pose proof (len_nonneg (tl)); lia).
  rewrite bind_Ok. change (bz ?t :: s1 :: ?m) with ([bz t] ++ s1 :: m). rewrite wr_app by done. rewrite bind_Ok. cbn [app].
  unfold name_len. rewrite rd1, bind_Ok, zb_bz_small, bind_Ok by lia.
  assert (Hzr : ∃ b c, z ++ tl = b ++ c ∧ length b = 2%nat).
  { exists (take 2 (z ++ tl)), (drop 2 (z ++ tl)). split; [by rewrite take_drop|].
    rewrite length_take, length_app. unfold len in *. lia. }
  destruct Hzr as (b & c & E & Hb). rewrite <- app_assoc, E.
  rewrite (memcpy_whole _ port (2 + len name) (bz HEV_SOCKS5_ADDR_TYPE_NAME :: bz (len name) :: name) b c);
    [|done|rewrite !len_cons; lia|unfold len; lia|unfold len; lia].
  rewrite bind_Ok. exists c. f_equal. f_equal. cbn [app]. by rewrite <- app_assoc.
Qed.

Lemma from_ipv4_ok (ip : mem) : (4 <= length ip)%nat →
  ∃ rest, hev_socks5_addr_from_ipv4 stack ip port = Ok ((bz 1 :: take 4 ip ++ port) ++ rest, 7).
Proof.
  intros Hi. unfold hev_socks5_addr_from_ipv4. destruct (wr_stack HEV_SOCKS5_ADDR_TYPE_IPV4) as (s1 & rest & -> & Hr). rewrite bind_Ok.
  set (m := s1 :: rest). assert (Hm : len m = 259) by (unfold m; rewrite len_cons; lia). clearbody m.
  rewrite (memcpy_part _ ip 1 0 4 [bz HEV_SOCKS5_ADDR_TYPE_IPV4] (take 4 m) (drop 4 m) [] (take 4 ip) (drop 4 ip));
    try (by rewrite ?take_drop); try done; try (unfold len in *; rewrite length_take; lia).
  rewrite bind_Ok. rewrite (memcpy_whole _ port 5 (bz HEV_SOCKS5_ADDR_TYPE_IPV4 :: take 4 ip) (take 2 (drop 4 m)) (drop 2 (drop 4 m)));
    [|by rewrite take_drop|rewrite len_cons; unfold len; rewrite length_take; lia|unfold len in *; rewrite length_take, length_drop; lia|unfold len; lia].
  rewrite bind_Ok. exists (drop 2 (drop 4 m)). f_equal. f_equal. cbn [app]. by rewrite <- app_assoc.
Qed.
Lemma from_ipv6_ok (ip : mem) : (16 <= length ip)%nat →
  ∃ rest, hev_socks5_addr_from_ipv6 stack ip port = Ok ((bz 4 :: take 16 ip ++ port) ++ rest, 19).
Proof.
  intros Hi. unfold hev_socks5_addr_from_ipv6. destruct (wr_stack HEV_SOCKS5_ADDR_TYPE_IPV6) as (s1 & rest & -> & Hr). rewrite bind_Ok.
  set (m := s1 :: rest). assert (Hm : len m = 259) by (unfold m; rewrite len_cons; lia). clearbody m.
  rewrite (memcpy_part _ ip 1 0 16 [bz HEV_SOCKS5_ADDR_TYPE_IPV6] (take 16 m) (drop 16 m) [] (take 16 ip) (drop 16 ip));
    try (by rewrite ?take_drop); try done; try (unfold len in *; rewrite length_take; lia).
  rewrite bind_Ok. rewrite (memcpy_whole _ port 17 (bz HEV_SOCKS5_ADDR_TYPE_IPV6 :: take 16 ip) (take 2 (drop 16 m)) (drop 2 (drop 16 m)));
    [|by rewrite take_drop|rewrite len_cons; unfold len; rewrite length_take; lia|unfold len in *; rewrite length_take, length_drop; lia|unfold len; lia].
  rewrite bind_Ok. exists (drop 2 (drop 16 m)). f_equal. f_equal. cbn [app]. by rewrite <- app_assoc.
Qed.
End from.

(** ** Addresses of lwIP *)

Definition ip_ok (ip : ip_addr_t) : Prop :=
  (ip_type ip = IPADDR_TYPE_V4 ∧ (4 <= length (ip_bytes ip))%nat) ∨ (ip_type ip = IPADDR_TYPE_V6 ∧ (16 <= length (ip_bytes ip))%nat).
(** mapped DNS in order, with names that fit an address *)
Definition dns_ok (dns : option HevMappedDNS) : Prop :=
  match dns with None => True | Some d => ∃ l, md_ok d l ∧ ∀ x, x ∈ l → len (nm d x) <= 255 end.

Lemma ntohl_ok (m : mem) : (4 <= length m)%nat → ∃ v, ntohl m = Ok v ∧ 0 <= v < 2 ^ 32.
Proof.
  intros Hm. destruct m as [|a [|b [|c [|d m]]]]; simpl in Hm; try lia. unfold ntohl.
  change (rd (a :: b :: c :: d :: m) 0) with (Ok a). change (rd (a :: b :: c :: d :: m) 1) with (Ok b).
  change (rd (a :: b :: c :: d :: m) 2) with (Ok c). change (rd (a :: b :: c :: d :: m) 3) with (Ok d). rewrite !bind_Ok.
  eexists. split; [done|]. pose proof (zb_range a). pose proof (zb_range b). pose proof (zb_range c). pose proof (zb_range d). lia.
Qed.

Lemma same_entries d l d' l' x : entries d' l' ≡ₚ entries d l → x ∈ l' → ∃ y, y ∈ l ∧ nm d' x = nm d y.
Proof.
  intros E Hx. assert (H : (nm d' x, ix d' x) ∈ entries d l).
  { rewrite <- E. apply list_elem_of_fmap. by exists x. }
  apply list_elem_of_fmap in H as (y & [= -> _] & Hy). by exists y.
Qed.

Lemma lru_lookup_perm s i s' r : lru_lookup s i = (s', r) → s' ≡ₚ s ∧ ∀ n, r = Some n → n ∈ s.*1.
Proof.
  unfold lru_lookup. destruct (list_find _ s) as [[k e]|] eqn:E; [|by intros [= <- <-]].
  intros [= <- <-]. apply list_find_Some in E as (Hk & _ & _). split.
  - rewrite <- (take_drop_middle s k e Hk) at 2. rewrite delete_take_drop, <- app_assoc.
    apply Permutation_app_head. by rewrite <- Permutation_cons_append.
  - intros n [= <-]. apply list_elem_of_fmap. exists e. split; [done|]. by eapply list_elem_of_lookup_2.
Qed.

Lemma lookup_name_ok dns ip : dns_ok dns → (4 <= length ip)%nat →
  ∃ dns' name, lookup_name dns ip = Ok (dns', name) ∧ dns_ok dns' ∧ ∀ n, name = Some n → c_name n ∧ len n <= 255.
Proof.
  destruct dns as [d|]; [|by intros _ _; exists None, None]. intros (l & H & Hl) Hip. unfold lookup_name.
  destruct (ntohl_ok ip Hip) as (v & -> & _). rewrite bind_Ok.
  destruct (lookup_cases d l (i32 v) H) as (d' & l' & r & -> & H' & _ & E). rewrite bind_Ok.
  assert (Hp : entries d' l' ≡ₚ entries d l ∧ ∀ n, r = Some n → n ∈ (entries d l).*1).
  { destruct (_ =? _); [by apply (lru_lookup_perm _ _ _ _ (eq_sym E))|]. injection E as -> ->. by split. }
  destruct Hp as [Hp Hr]. exists (Some d'), r. split; [done|]. split.
  - exists l'. split; [done|]. intros x Hx. destruct (same_entries _ _ _ _ x Hp Hx) as (y & Hy & ->). by apply Hl.
  - intros n Hn. specialize (Hr n Hn). apply list_elem_of_fmap in Hr as (e & -> & He).
    apply list_elem_of_fmap in He as (y & -> & Hy). simpl. split; [by apply (mo_names _ _ H)|by apply Hl].
Qed.

(** the address in front of what the block held *)
Lemma from_lwip_ok dns stack ip port : dns_ok dns → len stack = 260 → ip_ok ip →
  ∃ dns' a rest, hev_socks5_addr_from_lwip dns stack ip port = Ok (dns', a ++ rest, 0) ∧ dns_ok dns' ∧ wire_addr a.
Proof.
  intros Hd Hs [[Ht Hl]|[Ht Hl]]; unfold hev_socks5_addr_from_lwip; rewrite Ht; simpl Z.eqb; cbv iota.
  - destruct (lookup_name_ok dns (ip_bytes ip) Hd Hl) as (dns' & [name|] & -> & Hd' & Hn); rewrite bind_Ok.
    + destruct (Hn name eq_refl) as [Hc Hle].
      destruct (from_name_ok stack (htons port) Hs eq_refl name Hc Hle) as (rest & ->). rewrite !bind_Ok.
      eexists dns', _, rest. split; [done|]. split; [done|]. by apply WireName.
    + destruct (from_ipv4_ok stack (htons port) Hs eq_refl (ip_bytes ip) Hl) as (rest & ->). rewrite !bind_Ok.
      eexists dns', _, rest. split; [done|]. split; [done|]. apply WireIPv4; [|done]. rewrite length_take. lia.
  - destruct (from_ipv6_ok stack (htons port) Hs eq_refl (ip_bytes ip) Hl) as (rest & ->). rewrite bind_Ok.
    eexists dns, _, rest. split; [done|]. split; [done|]. apply WireIPv6; [|done]. rewrite length_take. lia.
Qed.

(** * hev-socks5-tunnel: a name on its way

    The parts put together: the address that mapped DNS answers a query with
    is turned back into the name when a session is opened to it, and the
    session's client asks the server for that name ([name_travels]). *)

(** ** Addresses as four bytes *)

Lemma ntohl_u32 v : ntohl (u32_bytes v) = Ok (u32 v).
Proof.
  unfold ntohl, u32_bytes. change (rd [bz ?a; bz ?b; bz ?c; bz ?d] ?i) with (rd [bz a; bz b; bz c; bz d] i).
  set (a := bz (Z.shiftr v 24)). set (b := bz (Z.shiftr v 16)). set (c := bz (Z.shiftr v 8)). set (d := bz v).
  change (rd [a; b; c; d] 0) with (Ok a). change (rd [a; b; c; d] 1) with (Ok b).
  change (rd [a; b; c; d] 2) with (Ok c). change (rd [a; b; c; d] 3) with (Ok d). rewrite !bind_Ok. f_equal.
  unfold a, b, c, d. rewrite !zb_bz. unfold u8, u32. rewrite !Z.shiftr_div_pow2 by lia.
  pose proof (Z.div_mod v 256). pose proof (Z.div_mod (v / 256) 256). pose proof (Z.div_mod (v / 256 / 256) 256).
  pose proof (Z.div_mod (v / 256 / 256 / 256) 256). change (2 ^ 24) with (256 * 256 * 256). change (2 ^ 16) with (256 * 256). change (2 ^ 8) with 256.
  rewrite <- !Z.div_div by lia. change (2 ^ 32) with (256 * (256 * (256 * 256))).
  rewrite (Z.rem_mul_r v 256), (Z.rem_mul_r (v / 256) 256), (Z.rem_mul_r (v / 256 / 256) 256) by lia. lia.
Qed.

Lemma i32_u32 v : - 2 ^ 31 <= v < 2 ^ 31 → i32 (u32 v) = v.
Proof.
  intros Hv. unfold u32. destruct (Z.ltb_spec v 0).
  - replace (v mod 2 ^ 32) with (v + 2 ^ 32) by (rewrite <- (Z_mod_plus_full v 1); rewrite Z.mod_small; lia).
    unfold i32. replace (v + 2 ^ 32 + 2 ^ 31) with (v + 2 ^ 31 + 1 * 2 ^ 32) by lia.
    rewrite Z_mod_plus_full, Z.mod_small by lia. lia.
  - rewrite Z.mod_small by lia. apply i32_small. lia.
Qed.

(** a network without host bits, and an index in it *)
Lemma lor_in_network net k idx : 0 <= k <= 31 → - 2 ^ 31 <= net < 2 ^ 31 → Z.land net (- 2 ^ k) = net → 0 <= idx < 2 ^ k →
  - 2 ^ 31 <= Z.lor net idx < 2 ^ 31.
Proof.
  intros Hk Hnet Hm Hi. assert (E : - 2 ^ k = Z.lnot (Z.ones k)) by (rewrite Z.ones_equiv; unfold Z.lnot; lia).
  assert (Hl : Z.land net (Z.ones k) = 0) by (rewrite <- Hm, E, <- Z.land_assoc, (Z.land_comm (Z.lnot _)), Z.land_lnot_diag; apply Z.land_0_r).
  assert (Hd : net = 2 ^ k * (net / 2 ^ k)) by (rewrite Z.land_ones in Hl by lia; pose proof (Z.div_mod net (2 ^ k)); lia).
  assert (Ei : Z.land idx (Z.ones k) = idx) by (rewrite Z.land_ones by lia; by apply Z.mod_small).
  assert (Hor : Z.lor net idx = net + idx).
  { rewrite <- Z.add_lor_land. replace (Z.land net idx) with 0; [lia|]. rewrite <- Ei, (Z.land_comm idx), Z.land_assoc, Hl. by rewrite Z.land_0_l. }
  rewrite Hor. assert (E31 : 2 ^ 31 = 2 ^ k * 2 ^ (31 - k)) by (rewrite <- Z.pow_add_r by lia; f_equal; lia).
  pose proof (Z.pow_pos_nonneg 2 k). assert (Hq : net / 2 ^ k < 2 ^ (31 - k)) by (apply Z.div_lt_upper_bound; lia).
  set (q := net / 2 ^ k) in *. set (p := 2 ^ k) in *. set (r := 2 ^ (31 - k)) in *. clearbody p q r. clear Hl E Hm Ei Hor. nia.
Qed.

Lemma dotted_name ls : Forall wf_label ls → c_name (dotted ls).
Proof. intros H. apply c_name_dots in H. unfold dotted. by apply Forall_drop. Qed.

Section travels.
Context (alloc : HevMappedDNS → option nat) (fresh : fresh_alloc alloc).
Implicit Types (d : HevMappedDNS).

(** the index a name gets lies in the network *)
Lemma index_small d d1 l name idx k : md_ok d l → c_name name → md_mask d = - 2 ^ k →
  hev_mapped_dns_find alloc d name = Ok (d1, idx) → 0 <= idx → idx < 2 ^ k.
Proof.
  intros H Hn Hmask E Hidx. destruct (find_cases alloc fresh d l name H Hn) as [(d' & l1 & j & E' & H1 & (Hs1 & Hs2 & Hs3) & _ & Ef)|(_ & E' & _)];
    rewrite E in E'; injection E' as -> ->; [|lia].
  destruct (lru_find_last _ _ _ _ _ (proj1 (mo_max _ _ H)) Ef) as [s0 Es].
  assert (Hin : (name, j) ∈ entries d' l1) by (rewrite Es; apply elem_of_app; right; by left).
  apply list_elem_of_fmap in Hin as (x & [= -> ->] & Hx). pose proof (mo_idx _ _ H1 x Hx). pose proof (mo_max _ _ H1). pose proof (mo_mask _ _ H1).
  rewrite Hs2, Hmask in *. unfold Z.lnot in *. lia.
Qed.

(** C30: a DNS query for a name of at most 255 bytes is answered with an address
    of the network; while fewer other names are asked for than the cache
    holds, a connection the device opens to that address becomes a session
    whose client has the name for its destination, and the CONNECT request it
    sends asks the server for that name and the device's port. *)
Theorem name_travels d d1 l ls others idx k id cnt tail resp fl slen stack port :
  md_ok d l → ls ≠ [] → Forall wf_label ls → len (dotted ls) <= 255 → Forall c_name others →
  0 <= k <= 31 → - 2 ^ 31 <= md_net d < 2 ^ 31 → md_mask d = - 2 ^ k → Z.land (md_net d) (md_mask d) = md_net d →
  hev_mapped_dns_find alloc d (dotted ls) = Ok (d1, idx) → 0 <= idx →
  Z.of_nat (length (remove_dups (filter (λ n, n ≠ dotted ls) others))) < md_max d →
  len id = 2 → 0 <= fl < 2 ^ 16 → len cnt = 6 → len (query id fl cnt ls tail) < 2 ^ 31 →
  len (query id fl cnt ls tail) <= slen → len (query id fl cnt ls []) + 16 <= slen → slen <= len resp → len stack = 260 →
  let ip := Z.lor (md_net d) idx in
  let addr := bz 3 :: bz (len (dotted ls)) :: dotted ls ++ htons port in
  (∃ rest, hev_mapped_dns_handle alloc d (query id fl cnt ls tail) (len (query id fl cnt ls tail)) resp slen
     = Ok (d1, len (query id fl cnt ls []) + 16, HevDnsPacket.reply id fl ls ip rest))
  ∧ ∃ d2 d3 answer c, ask_all alloc d1 others = Ok d2
     ∧ hev_socks5_session_tcp_construct (Some d2) stack (IpAddr IPADDR_TYPE_V4 (u32_bytes ip)) port
         = io_bind (ask (HMalloc (4 + len (dotted ls)))) answer
     ∧ answer true = Done (Some d3, Some (SessionTCP c [] true false None)) ∧ answer false = Done (Some d3, None)
     ∧ cl_addr c = Some addr ∧ wire_addr addr
     ∧ ∃ sent, hev_socks5_client_write_request c
         = io_bind (ask (HSend (s5_fd (cl_base c)) ([bz 5; bz 1; bz 0] ++ addr))) sent.
Proof.
  intros H Hne Hw Hl Ho Hk Hnet Hmask Hland Hfind Hidx Hfew Hid Hfl Hcnt Hq1 Hq2 Hq3 Hr Hst ip addr.
  pose proof (dotted_name ls Hw) as Hn. pose proof (index_small d d1 l _ idx k H Hn Hmask Hfind Hidx) as Hlt.
  assert (Hip : - 2 ^ 31 <= ip < 2 ^ 31) by (apply (lor_in_network _ k); try done; congruence).
  destruct (find_cases alloc fresh d l _ H Hn) as [(d1' & l1 & j & E & H1 & (Hs1 & _) & _)|(_ & E & _)];
    rewrite Hfind in E; injection E as -> ->; [|lia]. split.
  { eexists. unfold ip. rewrite <- Hs1. apply handle_answers; done. }
  destruct (address_kept alloc d d1' l (dotted ls) others j k fresh H Hn Ho (proj1 Hk) Hmask Hland Hfind Hidx Hfew) as (d2 & d3 & E2 & E3).
  assert (Hlw : hev_socks5_addr_from_lwip (Some d2) stack (IpAddr IPADDR_TYPE_V4 (u32_bytes ip)) port =
    '(a, _) ← hev_socks5_addr_from_name stack (dotted ls) (htons port); Ok (Some d3, a, 0)).
  { unfold hev_socks5_addr_from_lwip. cbn [ip_type ip_bytes]. change (IPADDR_TYPE_V4 =? IPADDR_TYPE_V4) with true. cbv iota.
    unfold lookup_name. rewrite ntohl_u32, bind_Ok, i32_u32 by done. unfold ip. by rewrite E3, !bind_Ok. }
  destruct (from_name_ok stack (htons port) Hst eq_refl (dotted ls) Hn Hl) as (rest & E4). rewrite E4, bind_Ok in Hlw. fold addr in Hlw.
  assert (Ha : hev_socks5_addr_len (addr ++ rest) = Ok (4 + len (dotted ls)) ∧ hev_socks5_addr_len addr = Ok (4 + len (dotted ls))
    ∧ len addr = 4 + len (dotted ls)).
  { assert (Hz : zb (bz (len (dotted ls))) = len (dotted ls)) by (apply zb_bz_small; pose proof (len_nonneg (dotted ls)); lia).
    unfold addr, hev_socks5_addr_len, name_len. cbn [app]. rewrite !rd0, !bind_Ok, !rd1, !bind_Ok, Hz.
    split; [done|]. split; [done|]. rewrite !len_cons, len_app. change (len (htons port)) with 2. lia. }
  destruct Ha as (Ha1 & Ha2 & Ha3). pose proof (len_nonneg (dotted ls)).
  assert (Hb : bytes_at 0 (4 + len (dotted ls)) (addr ++ rest) = Ok addr).
  { rewrite bytes_at_ok by (rewrite ?len_app; pose proof (len_nonneg rest); lia). by rewrite slice_0, take_len_app by lia. }
  assert (Hb' : bytes_at 0 (4 + len (dotted ls)) addr = Ok addr) by (rewrite bytes_at_ok by lia; by rewrite <- Ha3, slice_all).
  set (c := hev_socks5_client_construct ClientTCP TYPE_TCP <| cl_addr := Some addr |>).
  eexists d2, d3, _, c. split; [done|]. split.
  { unfold hev_socks5_session_tcp_construct. rewrite Hlw, pure_ok. cbn [Z.ltb]. unfold hev_socks5_client_tcp_construct. rewrite Ha1, pure_ok. reflexivity. }
  split; [cbn beta iota; by rewrite Hb|]. split; [done|]. split; [done|]. split; [by apply WireName|].
  eexists. unfold hev_socks5_client_write_request, send_request. cbn [hev_socks5_client_construct].
  change (get_upstream_addr c) with (Done (c <| cl_addr := None |>, Some addr)). cbn [io_bind s5_type cl_base].
  change (s5_type (cl_base c)) with TYPE_TCP. cbv iota. rewrite Ha2, pure_ok, (proj2 (Z.ltb_ge _ _)), Hb', pure_ok by lia. reflexivity.
Qed.
End travels.

(** ** Example: www.a.b, and one other name *)

Lemma name_travels_witness :
  ∃ d1, hev_mapped_dns_find next_node two_names (bytes_of "www.a.b") = Ok (d1, 0) ∧
  let addr := bz 3 :: bz 7 :: bytes_of "www.a.b" ++ [x01; xbb] in
  (∃ rest, hev_mapped_dns_handle next_node two_names www_query (len www_query) (repeat xff 64) 64
     = Ok (d1, 41, HevDnsPacket.reply [x12; x34] 0x100 www_a_b net_198_18 rest))
  ∧ ∃ d2 d3 answer c, ask_all next_node d1 [bytes_of "b"; bytes_of "b"] = Ok d2
     ∧ hev_socks5_session_tcp_construct (Some d2) (repeat x00 260) (IpAddr IPADDR_TYPE_V4 [xc6; x12; x00; x00]) 443
         = io_bind (ask (HMalloc 11)) answer
     ∧ answer true = Done (Some d3, Some (SessionTCP c [] true false None)) ∧ answer false = Done (Some d3, None)
     ∧ cl_addr c = Some addr ∧ wire_addr addr
     ∧ ∃ sent, hev_socks5_client_write_request c = io_bind (ask (HSend (s5_fd (cl_base c)) ([bz 5; bz 1; bz 0] ++ addr))) sent.
Proof.
  eexists. split; [vm_compute; reflexivity|].
  refine (name_travels next_node next_node_fresh two_names _ [] www_a_b [bytes_of "b"; bytes_of "b"] 0 10 [x12; x34]
    [x00; x00; x00; x00; x00; x01] [x00; x00; x29; x04] (repeat xff 64) 0x100 64 (repeat x00 260) 443
    _ _ _ _ _ _ _ _ _ _ _ _ _ _ _ _ _ _ _ _); try zeval.
  - apply (md_new net_198_18 (- 2 ^ 10) 2); [reflexivity|lia].
  - repeat constructor; discriminate.
  - repeat constructor; discriminate.
Defined.
