(* ===== verification/HevSessionTcpSpec.v ===== *)
(** * hev-socks5-tunnel: what a TCP session keeps

    The contract between a session, lwIP and the socket of the server, and
    that the session keeps it through every order of its turns and lwIP's
    calls ([tcp_session_streams]). *)

From Stdlib Require Import ZArith Lia Bool List.
From Stdlib Require Import Strings.Byte Strings.String.
From stdpp Require Import base tactics list numbers option gmap.
From S2P Require Import Prelude CMem HevRing HevIo HevSocks5 HevSocks5Client HevSocks5Udp HevLwip HevSessionTcp.

(** ** The ledger *)

Record ledger : Type := Ledger {
  from_app : mem;      (* what lwIP handed over *)
  app_end : bool;      (* and that nothing more comes *)
  to_server : mem;     (* what the socket took *)
  credit : Z;          (* the window given back to lwIP *)
  from_server : mem;   (* what the socket delivered *)
  server_end : bool;   (* and that nothing more comes *)
  handed : mem;        (* what tcp_write was called with *)
  got : mem;           (* what of it lwIP accepted *)
  refused : bool;      (* and whether there was a call it refused *)
  acked : Z            (* how much lwIP has reported as sent *)
}.
#[export] Instance ledger_eta : Eta ledger := λ g,
  Ledger (from_app g) (app_end g) (to_server g) (credit g) (from_server g) (server_end g) (handed g) (got g) (refused g) (acked g).

(** what may be called when *)
Definition call_pre (g : ledger) (c : syscall) : Prop :=
  match c with
  | HWritev _ iov => iov ≠ [] ∧ ∃ rest, from_app g = to_server g ++ concat iov ++ rest
  | HTcpRecved n => credit g + n = len (to_server g)
  | HShutdown _ => app_end g = true ∧ to_server g = from_app g
  | HReadv _ n => 0 < n
  | HTcpWrite d => 0 < len d <= TCP_SND_BUF - (len (handed g) - acked g) ∧ ∃ rest, from_server g = handed g ++ d ++ rest
  | HTcpShutdown => server_end g = true ∧ got g = from_server g
  | HTcpOutput | HYield | HWaitio | HSleep _ | HUpdateSession => True
  | _ => False
  end.

(** what the answer may be *)
Definition answer_lawful (g : ledger) (c : syscall) : answer c → Prop :=
  match c with
  | HWritev _ iov => λ x, x.1 <= len (concat iov)
  | HReadv _ n => λ x, match x with inl bs => len bs <= n | inr _ => True end
  | _ => λ _, True
  end.

Definition entered (g : ledger) (c : syscall) : answer c → ledger :=
  match c with
  | HWritev _ iov => λ x, g <| to_server := to_server g ++ take (Z.to_nat x.1) (concat iov) |>
  | HTcpRecved n => λ _, g <| credit := credit g + n |>
  | HReadv _ _ => λ x, match x with
                       | inl [] | inr false => g <| server_end := true |>
                       | inl bs => g <| from_server := from_server g ++ bs |>
                       | inr true => g
                       end
  | HTcpWrite d => λ err, if err =? 0 then g <| handed := handed g ++ d |> <| got := got g ++ d |>
                          else g <| handed := handed g ++ d |> <| refused := true |>
  | _ => λ _, g
  end.

Notation wpt := (wpg call_pre answer_lawful entered).
Notation turns := (exec answer_lawful entered).

(** ** Every order of turns and calls *)

Definition chain_ok (p : list mem) : Prop := p ≠ [] ∧ Forall (λ d, d ≠ []) p.

(** [cap] is the size of the ring.  lwIP keeps to the window: it hands over
    what the credit leaves room for, and calls no handler after an error. *)
Inductive reached (cap : Z) : ledger → HevSocks5SessionTCP → splice_at → Prop :=
  | reached_start g self self' pc garbage :
      st_pcb self = true → Forall (λ d, d ≠ []) (st_queue self) →
      g = Ledger (concat (st_queue self)) (st_pcb_eof self) [] 0 [] false [] [] false 0 → len (from_app g) <= TCP_WND →
      len garbage = cap → hev_socks5_session_tcp_splice self cap garbage = (self', pc) →
      reached cap g self' pc
  | reached_turn g self pc g' self' pc' :
      reached cap g self pc → turns (splice_step self pc) g g' (self', pc') → reached cap g' self' pc'
  | reached_recv g self pc p :
      reached cap g self pc → st_pcb self = true → app_end g = false → chain_ok p →
      len (from_app g) + len (concat p) <= TCP_WND + credit g →
      reached cap (g <| from_app := from_app g ++ concat p |>) (tcp_recv_handler self (Some p)) pc
  | reached_eof g self pc :
      reached cap g self pc → st_pcb self = true →
      reached cap (g <| app_end := true |>) (tcp_recv_handler self None) pc
  | reached_sent g self pc n self' :
      reached cap g self pc → st_pcb self = true → 0 <= n <= len (got g) - acked g →
      tcp_sent_handler self n = Ok self' → reached cap (g <| acked := acked g + n |>) self' pc
  | reached_err g self pc :
      reached cap g self pc → st_pcb self = true → reached cap g (tcp_err_handler self) pc.

(** ** The invariant *)

Record session_ok (cap : Z) (g : ledger) self : Prop := SessionOk {
  so_up : from_app g = to_server g ++ concat (st_queue self);
  so_chain : Forall (λ d, d ≠ []) (st_queue self);
  so_credit : credit g <= len (to_server g);
  so_exact : st_pcb self = true → credit g = len (to_server g);
  so_window : len (from_app g) <= TCP_WND + credit g;
  so_eof : st_pcb_eof self = app_end g;
  so_got : refused g = false → got g = handed g;
  so_sub : got g `sublist_of` handed g;
  so_acked : 0 <= acked g <= len (got g);
  so_ring : ∃ b ready, st_buffer self = Some b ∧ max_size b = cap ∧
    ring_ok b (Queue (drop (Z.to_nat (acked g)) (handed g)) ready) ∧ from_server g = handed g ++ ready
}.

(** nothing more is written in a turn *)
Definition quiet (pc : splice_at) : Prop :=
  match pc with Turn _ res_b | Wait _ _ res_b => res_b < 0 | Flush | WaitFlush | Over => True end.

(** what a step that does not write leaves alone *)
Definition unwritten (g g' : ledger) : Prop := got g' = got g ∧ refused g' = refused g.

Lemma acked_handed cap g self : session_ok cap g self → 0 <= acked g <= len (got g) ∧ len (got g) <= len (handed g).
Proof. intros H. split; [apply H|]. pose proof (sublist_length _ _ (so_sub _ _ _ H)). unfold len. lia. Qed.

Lemma queue_fits cap g self : session_ok cap g self → len (concat (st_queue self)) <= TCP_WND.
Proof. intros H. pose proof (so_window _ _ _ H) as Hw. pose proof (so_credit _ _ _ H). rewrite (so_up _ _ _ H), len_app in Hw. lia. Qed.

Lemma free_header (q : list mem) : ∀ n, Forall (λ d, d ≠ []) q → 0 <= n <= len (concat q) → n < 2 ^ 16 →
  concat (pbuf_free_header q n) = drop (Z.to_nat n) (concat q) ∧ Forall (λ d, d ≠ []) (pbuf_free_header q n).
Proof.
  induction q as [|p q IH]; intros n Hq Hn Hs; cbn [pbuf_free_header concat].
  { by rewrite drop_nil. }
  inversion Hq as [|?? Hp Hq']; subst. cbn [concat] in Hn. rewrite len_app in Hn. pose proof (len_nonneg p).
  destruct (Z.eqb_spec n 0) as [->|Hne]; [by rewrite drop_0|].
  destruct (Z.leb_spec (len p) n).
  - rewrite u16_small by lia. destruct (IH (n - len p)) as [-> HF]; [done|lia|lia|]. split; [|done].
    rewrite drop_app_ge by (unfold len in *; lia). f_equal. unfold len in *. lia.
  - cbn [concat]. rewrite drop_app_le by (unfold len in *; lia). split; [done|]. apply Forall_cons_2; [|done].
    intros E. apply (f_equal length) in E. rewrite length_drop in E. unfold len in *. simpl in E. lia.
Qed.

Lemma len_take_concat (q : list mem) k : len (concat (take k q)) <= len (concat q).
Proof. rewrite <- (take_drop k q) at 2. rewrite concat_app, len_app. pose proof (len_nonneg (concat (drop k q))). lia. Qed.

(** a little more than [done] *)
Ltac keep H := split; simpl; try (by apply H).

Lemma splice_f_ok cap g self (Q : ledger → HevSocks5SessionTCP * Z → Prop) :
  session_ok cap g self →
  (∀ g' self' r, session_ok cap g' self' → st_buffer self' = st_buffer self → st_pcb self' = st_pcb self → unwritten g g' → Q g' (self', r)) →
  wpt (tcp_splice_f self) g Q.
Proof.
  intros H HQ. unfold tcp_splice_f. pose proof (queue_fits _ _ _ H) as Hfit. pose proof (so_up _ _ _ H) as Hup.
  destruct (st_queue self) as [|p q] eqn:Eq.
  - change (take 64 []) with (@nil mem). cbv iota zeta. simpl in Hup. rewrite app_nil_r in Hup.
    destruct (st_pcb_eof self) eqn:Ee; cbn [Z.ltb Z.compare io_bind]; [|by apply HQ].
    apply wpg_ask; [|intros [] _; by apply HQ]. split; [by rewrite <- (so_eof _ _ _ H)|done].
  - destruct (take 64 (p :: q)) as [|p' iov] eqn:Ei; [done|]. rewrite <- Ei. cbv zeta.
    assert (Hwhole : concat (p :: q) = concat (take 64 (p :: q)) ++ concat (drop 64 (p :: q))) by by rewrite <- concat_app, take_drop.
    apply wpg_ask. { split; [by rewrite Ei|]. exists (concat (drop 64 (p :: q))). by rewrite Hup, <- Hwhole. }
    intros [s again] Hs. cbn [answer_lawful fst] in Hs. cbn [entered fst].
    pose proof (len_take_concat (p :: q) 64) as Hle. unfold TCP_WND, TCP_MSS in Hfit.
    destruct (Z.leb_spec s 0) as [H0|H0].
    { cbn [wpg]. replace (Z.to_nat s) with 0%nat by lia. rewrite take_0, app_nil_r.
      replace (g <| to_server := to_server g |>) with g by by destruct g. by apply HQ. }
    rewrite u16_small by lia.
    assert (Htake : take (Z.to_nat s) (concat (take 64 (p :: q))) = take (Z.to_nat s) (concat (p :: q))).
    { rewrite Hwhole. symmetry. apply take_app_le. unfold len in *. lia. }
    rewrite Htake.
    assert (Hlen : len (take (Z.to_nat s) (concat (p :: q))) = s) by (unfold len in *; rewrite length_take; lia).
    destruct (free_header (p :: q) s) as [Eh Hch]; [rewrite <- Eq; by apply H|lia|lia|].
    assert (Hup1 : from_app g = (to_server g ++ take (Z.to_nat s) (concat (p :: q))) ++ concat (pbuf_free_header (p :: q) s)).
    { by rewrite Eh, <- app_assoc, take_drop. }
    revert Hlen Hup1. generalize (take (Z.to_nat s) (concat (p :: q))). intros w Hlen Hup1. cbv zeta.
    pose proof (len_app (to_server g) w) as Hl. pose proof (so_credit _ _ _ H). pose proof (so_window _ _ _ H).
    destruct (st_pcb self) eqn:Ep; simpl (if st_pcb _ then _ else _); rewrite ?Ep.
    + pose proof (so_exact _ _ _ H Ep) as Hc. apply wpg_ask; [simpl in *; lia|]. intros [] _. cbn [wpg entered].
      apply HQ; [|done..]. keep H; try done; try lia; intros _; lia.
    + apply HQ; [|done..]. keep H; try done; [lia|by rewrite Ep].
Qed.

(** ** Towards lwIP *)

Lemma writes_ok (m : mem) iov : ∀ bytes rest g (Q : ledger → Z → Prop),
  tcp_write_all m iov = Ok bytes → Forall (λ v, 0 < v.2 < 2 ^ 16) iov →
  from_server g = handed g ++ bytes ++ rest → len (handed g) - acked g + len bytes <= TCP_SND_BUF →
  (∀ err w, w `sublist_of` bytes → (err = 0 → w = bytes) →
     Q (g <| handed := handed g ++ bytes |> <| got := got g ++ w |> <| refused := refused g || negb (err =? 0) |>) err) →
  wpt (tcp_writes m iov) g Q.
Proof.
  induction iov as [|[o n] iov IH]; intros bytes rest g Q E Hiov Hs Hfit HQ.
  { injection E as <-. cbn [tcp_writes wpg]. specialize (HQ 0 [] ltac:(constructor) ltac:(done)).
    rewrite !app_nil_r, orb_false_r in HQ. by destruct g. }
  inversion Hiov as [|?? Hn Hiov']; subst. simpl in Hn. cbn [tcp_write_all] in E.
  destruct ((0 <=? o) && (0 <=? n) && (o + n <=? len m)) eqn:Ec; [|done].
  apply andb_true_iff in Ec as [[E1%Z.leb_le E2%Z.leb_le]%andb_true_iff E3%Z.leb_le].
  apply bind_ok in E as (rest' & E & [= <-]). rewrite <- app_assoc in Hs. rewrite len_app in Hfit.
  pose proof (len_nonneg rest'). assert (Hl : len (slice m o n) = n) by by apply len_slice.
  cbn [tcp_writes]. rewrite u16_small by lia. rewrite bytes_at_ok by lia. rewrite pure_ok.
  apply wpg_ask. { split; [rewrite Hl; lia|]. by exists (rest' ++ rest). }
  intros err _. apply wpg_bind. cbn [entered].
  assert (Hgo : ∀ g1 v, from_server g1 = from_server g → acked g1 = acked g → handed g1 = handed g ++ slice m o n →
      got g1 = got g ++ v → refused g1 = refused g || negb (err =? 0) → g1 = g <| handed := handed g1 |> <| got := got g1 |> <| refused := refused g1 |> →
      v `sublist_of` slice m o n → (err = 0 → v = slice m o n) →
      wpt (tcp_writes m iov) g1 (λ g' rest0, wpt (Done (Z.lor err rest0)) g' Q)).
  { intros g1 v F1 F2 F3 F4 F5 F6 Hv Hve. apply (IH rest' rest); [done|done| | |].
    - by rewrite F1, F3, Hs, <- !app_assoc.
    - rewrite F2, F3, len_app, Hl. lia.
    - intros err' w Hw Hwe. cbn [wpg]. rewrite F6. simpl. rewrite F3, F4, F5, <- !app_assoc, <- orb_assoc.
      replace (negb (err =? 0) || negb (err' =? 0)) with (negb (Z.lor err err' =? 0)).
      + apply HQ; [by apply sublist_app|]. intros [He He']%Z.lor_eq_0_iff. by rewrite Hve, Hwe.
      + pose proof (Z.lor_eq_0_iff err err'). destruct (Z.eqb_spec err 0), (Z.eqb_spec err' 0), (Z.eqb_spec (Z.lor err err') 0); tauto. }
  destruct (Z.eqb_spec err 0) as [E0|Hne].
  - apply (Hgo _ (slice m o n)); try done. simpl. by rewrite orb_false_r.
  - apply (Hgo _ []); try done; simpl; [by rewrite app_nil_r|by rewrite orb_true_r|apply sublist_nil_l].
Qed.

Lemma fill_ok cap g self (Q : ledger → HevSocks5SessionTCP * Z → Prop) :
  session_ok cap g self →
  (∀ g' self' r, session_ok cap g' self' → (r < 0 → server_end g' = true) → st_pcb self' = st_pcb self → unwritten g g' → Q g' (self', r)) →
  wpt (fill self) g Q.
Proof.
  intros H HQ. destruct (so_ring _ _ _ H) as (b & ready & Eb & Em & Hb & Hs). unfold fill, get_buffer. rewrite Eb, pure_ok.
  pose proof (ring_room b _ Hb) as Hroom. pose proof (ro_use _ _ Hb) as Hu. pose proof (ro_fit _ _ Hb) as Hfit.
  destruct (decide (use_size b = max_size b)) as [Hfull|Hfree].
  { unfold hev_ring_buffer_writing. rewrite (proj2 (Z.eqb_eq _ _)) by done. by apply HQ. }
  destruct (hev_ring_buffer_writing b) as [|v iov] eqn:Ei; [simpl in Hroom; lia|].
  apply wpg_ask. { cbn [call_pre]. unfold room. rewrite Hroom. lia. }
  intros [[|x bs]|[|]] Hx; cbn [entered]; [apply HQ|..|apply HQ|apply HQ]; try done; [by keep H| |by keep H].
  cbn [answer_lawful] in Hx. unfold room in Hx. rewrite Hroom in Hx.
  destruct (ring_receive b _ (x :: bs) Hb) as (b' & -> & Hb' & Em'); [lia|]. rewrite pure_ok.
  apply HQ; [|done..]. keep H. exists b', (ready ++ x :: bs). split; [done|]. split; [by rewrite Em'|]. split; [done|].
  by rewrite Hs, app_assoc.
Qed.

(** called with nothing refused so far: an error is told *)
Lemma drain_ok cap g self res (Q : ledger → HevSocks5SessionTCP * Z * Z → Prop) :
  cap <= TCP_SND_BUF → session_ok cap g self → refused g = false → (res < 0 → server_end g = true) →
  (∀ g' self' r err, session_ok cap g' self' → (refused g' = true → err ≠ 0) → Q g' (self', r, err)) → wpt (drain self res) g Q.
Proof.
  intros Hcap H Hclean Hres HQ. destruct (so_ring _ _ _ H) as (b & ready & Eb & Em & Hb & Hs). unfold drain, get_buffer. rewrite Eb, pure_ok.
  destruct (ring_forward b _ Hb) as (b' & Ef & Hb'). pose proof (forward_max _ _ _ Ef) as Em'. unfold forward in Ef.
  pose proof (ring_reading b _ Hb) as Hread. cbn [q_ready q_flight] in *. pose proof (so_got _ _ _ H Hclean) as Hgot.
  destruct (hev_ring_buffer_reading b) as [|v iov] eqn:Ei.
  - injection Ef as <- <-. rewrite app_nil_r in Hs. assert (Hno : refused g = true → 0 ≠ 0) by (by rewrite Hclean).
    destruct (Z.ltb_spec res 0) as [H0|H0]; cbn [io_bind]; [|by apply HQ].
    apply wpg_ask; [by split; [apply Hres|rewrite Hgot]|]. intros [] _. by apply HQ.
  - apply bind_ok in Ef as (bytes & Ew & Ef). apply bind_ok in Ef as (b1 & Er & [= -> ->]).
    pose proof (ro_fit _ _ Hb) as Hfit. rewrite (ro_use _ _ Hb) in Hfit. simpl in Hfit. pose proof (so_acked _ _ _ H) as Ha.
    assert (Hdrop : len (drop (Z.to_nat (acked g)) (handed g)) = len (handed g) - acked g) by (rewrite Hgot in Ha; by apply len_drop).
    apply wpg_bind. apply (writes_ok (data b) (v :: iov) ready [] g); [done| |by rewrite app_nil_r|lia|].
    { eapply Forall_impl; [exact Hread|]. simpl. intros w Hw. unfold TCP_SND_BUF, TCP_MSS in Hcap. lia. }
    intros err w Hw Hwe. unfold room. rewrite Er, pure_ok. apply wpg_ask; [done|]. intros err' _. apply HQ.
    + keep H.
      * rewrite Hclean. intros E0. simpl in E0. rewrite Hgot, Hwe; [done|]. revert E0. by destruct (Z.eqb_spec err 0).
      * by apply sublist_app; [apply H|].
      * rewrite len_app. pose proof (len_nonneg w). lia.
      * exists b', []. split; [done|]. split; [by rewrite Em'|]. rewrite app_nil_r. split; [|done].
        by rewrite drop_app_le by (rewrite Hgot in Ha; unfold len in *; lia).
    + simpl. rewrite Hclean. simpl. intros E0 E1%Z.lor_eq_0_iff. revert E0. destruct (Z.eqb_spec err 0); [done|tauto].
Qed.

Lemma splice_b_ok cap g self (Q : ledger → HevSocks5SessionTCP * Z → Prop) :
  cap <= TCP_SND_BUF → session_ok cap g self → refused g = false →
  (∀ g' self' r, session_ok cap g' self' → (refused g' = true → r < 0) → Q g' (self', r)) → wpt (tcp_splice_b self) g Q.
Proof.
  intros Hcap H Hclean HQ. unfold tcp_splice_b. apply wpg_bind. apply (fill_ok cap); [done|]. intros g1 s1 r H1 Hr _ [_ Hc1].
  apply wpg_bind. rewrite Hclean in Hc1. destruct (st_pcb s1); [|by apply HQ; [|rewrite Hc1]].
  apply (drain_ok cap); [done|done|done|done|]. intros g2 s2 r2 err H2 He. apply HQ; [done|].
  intros Hr2. specialize (He Hr2). rewrite (proj2 (Z.eqb_neq err 0)) by done. cbn [negb]. rewrite orb_true_r. lia.
Qed.

Lemma yielder_ok type self g Q : (∀ r, Q g r) → wpt (task_io_yielder type self) g Q.
Proof.
  intros HQ. unfold task_io_yielder.
  assert (Hend : ∀ r, wpt (_ <~ ask HUpdateSession; Done r) g Q) by (intros r; apply wpg_ask; [done|]; intros [] _; apply HQ).
  apply wpg_bind. destruct type; cbn [hev_socks5_task_io_yielder].
  - apply wpg_ask; [done|]. intros ? _. apply Hend.
  - destruct (_ <? 0); (apply wpg_ask; [done|]; intros ? _; apply Hend).
Qed.

(** a step of the splicer; after a refusal it writes nothing *)
Lemma step_ok cap g self pc : cap <= TCP_SND_BUF → session_ok cap g self → (refused g = true → quiet pc) →
  wpt (splice_step self pc) g (λ g' r, session_ok cap g' r.1 ∧ (refused g' = true → quiet r.2) ∧ (refused g = true → got g' = got g)).
Proof.
  intros Hcap H Hq. destruct pc as [f b|type f b| | |]; cbn [splice_step].
  - apply wpg_bind.
    assert (Hf : ∀ Q : ledger → HevSocks5SessionTCP * Z → Prop, (∀ g' s r, session_ok cap g' s → unwritten g g' → Q g' (s, r)) →
      wpt (if 0 <=? f then tcp_splice_f self else Done (self, f)) g Q).
    { intros Q HQ. case_match; [|by apply HQ]. apply (splice_f_ok cap); [done|]. intros. by apply HQ. }
    apply Hf. intros g1 s1 r1 H1 [Eg Er]. apply wpg_bind.
    assert (Hend : ∀ x (g2 : ledger), (refused g2 = true → x < 0) → refused g2 = true →
      quiet (if (0 <? r1) || (0 <? x) then Wait HEV_TASK_YIELD r1 x else if Z.land r1 x =? 0 then Wait HEV_TASK_WAITIO r1 x else Flush)).
    { intros x g2 Hx Hg2. specialize (Hx Hg2). by repeat case_match. }
    destruct (Z.leb_spec 0 b) as [Hb|Hb].
    + assert (Hclean : refused g1 = false).
      { rewrite Er. destruct (refused g); [|done]. specialize (Hq eq_refl). simpl in Hq. lia. }
      apply (splice_b_ok cap); [done|done|done|]. intros g2 s2 r2 H2 Hr2. cbn [wpg].
      split; [done|]. split; [by apply (Hend r2 g2)|]. rewrite <- Er, Hclean. done.
    + cbn [wpg]. split; [done|]. split; [by apply (Hend b g1)|]. done.
  - apply wpg_bind, yielder_ok. intros r. cbn [wpg]. split; [done|]. split; [|done]. intros Hr. specialize (Hq Hr). by case_match.
  - destruct (st_pcb self); [|done]. cbn [negb].
    destruct (so_ring _ _ _ H) as (b & ready & Eb & _). unfold get_buffer. rewrite Eb, pure_ok. cbn [wpg].
    split; [done|]. split; [|done]. intros _. by case_match.
  - apply wpg_bind, yielder_ok. intros r. cbn [wpg]. split; [done|]. split; [|done]. intros _. by case_match.
  - done.
Qed.

Lemma sent_ok cap g self n : session_ok cap g self → 0 <= n <= len (got g) - acked g →
  ∃ self', tcp_sent_handler self n = Ok self' ∧ session_ok cap (g <| acked := acked g + n |>) self'.
Proof.
  intros H Hn. destruct (so_ring _ _ _ H) as (b & ready & Eb & Em & Hb & Hs). pose proof (acked_handed _ _ _ H) as [Ha Hg].
  unfold tcp_sent_handler, get_buffer. rewrite Eb, bind_Ok. eexists. split; [done|].
  assert (Hl : len (drop (Z.to_nat (acked g)) (handed g)) = len (handed g) - acked g) by (apply len_drop; lia).
  keep H; [lia|]. exists (HevRing.sent b n), ready. split; [done|]. split; [by rewrite sent_max|]. split; [|done].
  replace (drop (Z.to_nat (acked g + n)) (handed g)) with (drop (Z.to_nat n) (drop (Z.to_nat (acked g)) (handed g))).
  - apply (ring_sent b _ n Hb). simpl. lia.
  - rewrite drop_drop. f_equal. lia.
Qed.

Lemma reached_ok cap g self pc : 0 < cap <= TCP_SND_BUF → reached cap g self pc →
  session_ok cap g self ∧ (refused g = true → quiet pc).
Proof.
  intros Hcap H. induction H as [g self self' pc garbage Hp Hq -> Hw Hl E|g self pc g' self' pc' _ [H Hc] Ht
    |g self pc p _ [H Hc] Hp He Hcp Hw|g self pc _ [H Hc] Hp|g self pc n self' _ [H Hc] Hp Hn E|g self pc _ [H Hc] Hp].
  - split; [|done]. unfold hev_socks5_session_tcp_splice in E. rewrite Hp in E. injection E as <- _. rewrite <- Hl, take_ge by (unfold len; lia).
    split; simpl; try done; try lia. exists (hev_ring_buffer_alloca garbage), []. split; [done|]. split; [done|]. split; [|done].
    apply ring_new. unfold TCP_SND_BUF, TCP_MSS in Hcap. lia.
  - by pose proof (wpg_exec _ _ _ _ _ _ (self', pc') _ (step_ok cap g self pc (proj2 Hcap) H Hc) Ht) as (H' & Hc' & _).
  - split; [|done]. destruct Hcp as [Hne Hcp]. assert (Eq : tcp_recv_handler self (Some p) = self <| st_queue := st_queue self ++ p |>).
    { unfold tcp_recv_handler. by destruct (st_queue self) eqn:Es; destruct self; simpl in *; subst. }
    rewrite Eq. keep H.
    + by rewrite (so_up _ _ _ H), <- app_assoc, concat_app.
    + apply Forall_app. split; [by apply H|done].
    + by rewrite len_app.
  - split; [|done]. by keep H.
  - split; [|done]. destruct (sent_ok cap g self n H Hn) as (s & E' & H'). congruence.
  - split; [|done]. keep H; discriminate.
Qed.

(** C28: in every order of its turns, lwIP's calls and lost connections, a TCP
    session whose ring is not larger than lwIP's send buffer goes on without
    going wrong and keeps both streams.  Towards the server: what lwIP handed
    over is what the server's socket took followed by what is queued, and
    exactly what was taken is credited to lwIP's window, as long as it has the
    connection.  Towards the application: [tcp_write] is called with the
    server's bytes, in order and once, and what has not been passed on waits in
    the ring, never more than lwIP has room for.  As long as [tcp_write] refuses
    nothing, lwIP has accepted exactly those bytes.  When it refuses a piece the
    session writes nothing more after that turn, and is over for this
    direction: what lwIP has accepted is some of the server's bytes, in order,
    but not always the first of them, as a piece behind a refused one may have
    been accepted in the same turn ([refused_leaves_gap]).  The server is told
    the end only when all of the application's bytes and its end have come and
    are taken, the application only when lwIP has accepted all of the
    server's. *)
Theorem tcp_session_streams (cap : Z) (g : ledger) self (pc : splice_at) :
  0 < cap <= TCP_SND_BUF → reached cap g self pc →
  wpt (splice_step self pc) g (λ g' _, refused g = true → got g' = got g)
  ∧ from_app g = to_server g ++ concat (st_queue self)
  ∧ (st_pcb self = true → credit g = len (to_server g))
  ∧ (∃ ready, from_server g = handed g ++ ready ∧ len (handed g) - acked g + len ready <= cap
       ∧ (refused g = false → from_server g = got g ++ ready))
  ∧ got g `sublist_of` from_server g
  ∧ (∀ n, 0 <= n <= len (got g) - acked g → ∃ self', tcp_sent_handler self n = Ok self').
Proof.
  intros Hcap Hr. pose proof (reached_ok cap g self pc Hcap Hr) as [H Hq].
  destruct (so_ring _ _ _ H) as (b & ready & _ & <- & Hb & Hs). pose proof (acked_handed _ _ _ H) as [Ha Hg].
  split; [|split; [|split; [|split; [|split]]]].
  - eapply wpg_mono; [apply (step_ok (max_size b)); [lia|done|done]|]. by intros g' r (_ & _ & ?).
  - apply H.
  - apply H.
  - exists ready. split; [done|]. split; [|intros Hc; by rewrite (so_got _ _ _ H Hc)].
    pose proof (ro_fit _ _ Hb) as Hf. rewrite (ro_use _ _ Hb) in Hf. simpl in Hf. by rewrite len_drop in Hf by lia.
  - rewrite Hs. apply sublist_inserts_r, H.
  - intros n Hn. destruct (sent_ok (max_size b) g self n H Hn) as (s & E & _). by exists s.
Qed.

(** ** Example: a request, half of which is taken, and a reply *)

Definition get : mem := bytes_of "GET / HTTP/1.1".
Definition accepted : HevSocks5SessionTCP :=
  SessionTCP (hev_socks5_client_construct ClientTCP TYPE_TCP) [get] true false None.
Definition after_turn : ledger := Ledger get false (take 6 get) 6 (bytes_of "HTTP") false (bytes_of "HTTP") (bytes_of "HTTP") false 0.

Definition turned : HevSocks5SessionTCP :=
  accepted <| st_queue := [drop 6 get] |>
           <| st_buffer := Some (RingBuffer 4 4 0 4 4096 (bytes_of "HTTP" ++ repeat x00 4092)) |>.

Lemma tcp_session_streams_witness :
  reached 4096 after_turn turned (Wait HEV_TASK_YIELD 1 1)
    ∧ wpt (splice_step turned (Wait HEV_TASK_YIELD 1 1)) after_turn (λ g' _, refused after_turn = true → got g' = got after_turn)
    ∧ from_app after_turn = to_server after_turn ++ concat (st_queue turned)
    ∧ (st_pcb turned = true → credit after_turn = len (to_server after_turn))
    ∧ (∃ ready, from_server after_turn = handed after_turn ++ ready
         ∧ len (handed after_turn) - acked after_turn + len ready <= 4096
         ∧ (refused after_turn = false → from_server after_turn = got after_turn ++ ready))
    ∧ got after_turn `sublist_of` from_server after_turn
    ∧ (∀ n, 0 <= n <= len (got after_turn) - acked after_turn → ∃ self', tcp_sent_handler turned n = Ok self').
Proof.
  assert (Hr : reached 4096 after_turn turned (Wait HEV_TASK_YIELD 1 1)).
  { eapply (reached_turn 4096 (Ledger get false [] 0 [] false [] [] false 0) (accepted <| st_buffer := Some (hev_ring_buffer_alloca (repeat x00 4096)) |>) (Turn 1 1)).
    - apply (reached_start 4096 _ accepted _ _ (repeat x00 4096)); try reflexivity; [by repeat constructor|by vm_compute].
    - cbn [splice_step Z.leb Z.compare io_bind]. unfold tcp_splice_f. cbn -[repeat get].
      exists (6, false). split; [by vm_compute|]. cbn -[repeat get]. exists tt. split; [done|].
      exists (inl (bytes_of "HTTP")). split; [by vm_compute|]. vm_compute. exists 0. split; [done|]. exists 0. split; [done|].
      by split. }
  split; [exact Hr|]. by apply (tcp_session_streams 4096 _ _ _ ltac:(by vm_compute) Hr).
Defined.

(** ** A refused write

    The ring is near its end when "ABC" comes, so lwIP is given "A" and then
    "BC".  It has no memory for the first and takes the second. *)
Definition quiet_app : HevSocks5SessionTCP :=
  SessionTCP (hev_socks5_client_construct ClientTCP TYPE_TCP) [] true false None.
Definition ring_at (rp wp use : Z) (d : mem) : HevSocks5SessionTCP :=
  quiet_app <| st_buffer := Some (RingBuffer rp wp 0 use 4 d) |>.
Definition with_gap : ledger :=
  Ledger [] false [] 0 (bytes_of "xyzABC") false (bytes_of "xyzABC") (bytes_of "xyzBC") true 2.
Lemma refused_leaves_gap :
  reached 4 with_gap (ring_at 2 2 4 (bytes_of "BCzA")) (Wait HEV_TASK_WAITIO 0 (-1))
  ∧ ¬ (∃ rest, from_server with_gap = got with_gap ++ rest).
Proof.
  split; [|by intros [rest [=]]].
  set (g0 := Ledger [] false [] 0 [] false [] [] false 0).
  set (g1 := Ledger [] false [] 0 (bytes_of "xyz") false (bytes_of "xyz") (bytes_of "xyz") false 0).
  set (xyz := bytes_of "xyz" ++ [x00]).
  assert (R0 : reached 4 g0 (ring_at 0 0 0 (repeat x00 4)) (Turn 1 1)).
  { apply (reached_start 4 _ quiet_app _ _ (repeat x00 4)); try reflexivity; [by constructor|by vm_compute]. }
  assert (R1 : reached 4 g1 (ring_at 3 3 3 xyz) (Wait HEV_TASK_YIELD 0 1)).
  { eapply reached_turn; [exact R0|]. cbn -[receive bytes_of]. exists (inl (bytes_of "xyz")). split; [by vm_compute|]. vm_compute.
    exists 0. split; [done|]. exists 0. by split. }
  assert (R2 : reached 4 (g1 <| acked := 2 |>) (ring_at 3 3 1 xyz) (Wait HEV_TASK_YIELD 0 1)).
  { apply (reached_sent 4 g1 _ _ 2 _ R1); [reflexivity|split; vm_compute; congruence|reflexivity]. }
  assert (R3 : reached 4 (g1 <| acked := 2 |>) (ring_at 3 3 1 xyz) (Turn 0 1)).
  { eapply reached_turn; [exact R2|]. cbn. exists tt. split; [done|]. exists tt. by split. }
  eapply reached_turn; [exact R3|]. cbn -[receive bytes_of]. exists (inl (bytes_of "ABC")). split; [by vm_compute|]. vm_compute.
  exists (-1). split; [done|]. exists 0. split; [done|]. exists 0. by split.
Qed.
