(* ===== verification/HevSessionUdp.v ===== *)
(** * hev-socks5-tunnel, a UDP session: src/hev-socks5-session-udp.c

    The datagrams an application sends wait as frames in a list, each with
    the address it is for; the task of the session sends them on and hands
    the answers to lwIP.  lwIP calls [udp_recv_handler] whenever the task
    waits, so also while it waits for [hev_socks5_udp_sendmmsg], between the
    making of the messages and the freeing of their frames. *)

From Stdlib Require Import ZArith Lia Bool List.
From Stdlib Require Import Strings.Byte Strings.String.
From stdpp Require Import base tactics list numbers option gmap.
From S2P Require Import Prelude CMem HevList HevMappedDns HevIo HevSocks5 HevSocks5Client HevSocks5Udp HevLwip HevSessionTcp.

Definition UDP_POOL_SIZE : Z := 512.

Record HevSocks5UDPFrame : Type := UDPFrame { uf_addr : mem; uf_data : list mem }.
Record HevSocks5SessionUDP : Type := SessionUDP {
  su_client : HevSocks5Client;
  su_frame_list : HevList;
  su_heap : gmap nat HevSocks5UDPFrame;   (* the frames that are not freed *)
  su_pcb : bool;
  su_frames : Z;
  su_addr : mem; su_port : Z              (* the address that stands for a name; zero for none *)
}.
#[export] Instance session_udp_eta : Eta HevSocks5SessionUDP := λ s,
  SessionUDP (su_client s) (su_frame_list s) (su_heap s) (su_pcb s) (su_frames s) (su_addr s) (su_port s).

Section session_udp.
(** the address of a new frame, or no memory *)
Context (alloc : HevSocks5SessionUDP → option nat).
(** what a new frame's address and the receive buffers hold *)
Context (stack : mem) (heap : nat → mem).
Implicit Types (self : HevSocks5SessionUDP).

Definition get_frame self (x : nat) : res HevSocks5UDPFrame :=
  match su_heap self !! x with Some f => Ok f | None => UB end.

(** ** What lwIP calls *)

Definition udp_recv_handler self (dns : option HevMappedDNS) (p : option (list mem)) (local_ip : ip_addr_t) (local_port : Z)
    : res (HevSocks5SessionUDP * option HevMappedDNS) :=
  match p with
  | None =>
      Ok (self <| su_client := su_client self <| cl_base := hev_socks5_session_terminate (cl_base (su_client self)) |> |>, dns)
  | Some p =>
      if UDP_POOL_SIZE <? su_frames self then Ok (self, dns) else
      match alloc self with
      | None => Ok (self, dns)
      | Some x =>
          '(dns, addr, _) ← hev_socks5_addr_from_lwip dns stack local_ip local_port;
          atype ← rd addr 0;
          let self := if zb atype =? HEV_SOCKS5_ADDR_TYPE_NAME
                      then self <| su_addr := take 4 (ip_bytes local_ip) |> <| su_port := local_port |> else self in
          l ← hev_list_add_tail (node_alloc (su_frame_list self) x) x;
          Ok (self <| su_heap := <[x := UDPFrame addr p]> (su_heap self) |> <| su_frames := su_frames self + 1 |>
                   <| su_frame_list := l |>, dns)
      end
  end.

(** ** Towards the server *)

(** the messages of [n] frames from [node] on; of a chain of buffers only the
    first is looked at *)
Fixpoint gather self (n : nat) (node : option nat) : res (list HevSocks5UDPMsg) :=
  match n with
  | O => Ok []
  | S n =>
      match node with
      | None => UB
      | Some x =>
          f ← get_frame self x;
          next ← hev_list_node_next (su_frame_list self) x;
          rest ← gather self n next;
          match uf_data f with
          | [] => UB
          | d :: _ => Ok (UDPMsg (AddrAt (uf_addr f)) d (len d) :: rest)
          end
      end
  end.

(** [fwd_f] before it sends: nothing to send, or the messages *)
Definition fwd_f_begin self (num : Z) : res (option (list HevSocks5UDPMsg)) :=
  let res := su_frames self in
  if res <=? 0 then Ok None else
  let res := if num <? res then num else res in
  msgv ← gather self (Z.to_nat res) (hev_list_first (su_frame_list self));
  Ok (Some msgv).

(** the first [n] frames are freed *)
Fixpoint drop_frames self (n : nat) : res HevSocks5SessionUDP :=
  match n with
  | O => Ok self
  | S n =>
      match hev_list_first (su_frame_list self) with
      | None => UB
      | Some x =>
          _ ← get_frame self x;
          l ← hev_list_del (su_frame_list self) x;
          drop_frames (self <| su_frame_list := node_free l x |> <| su_heap := delete x (su_heap self) |>
                            <| su_frames := su_frames self - 1 |>) n
      end
  end.

(** [fwd_f] after it has sent, with what [sendmmsg] returned *)
Definition fwd_f_end self (sent : Z) : res (HevSocks5SessionUDP * Z) :=
  if sent <=? 0 then Ok (self, -1) else
  self ← drop_frames self (Z.to_nat sent); Ok (self, 1).

Definition sendmmsg self (msgv : list HevSocks5UDPMsg) : io Z :=
  hev_socks5_udp_sendmmsg (cl_base (su_client self)) (hev_socks5_client_udp_get_fd (su_client self)) msgv.

(** when no handler runs meanwhile *)
Definition hev_socks5_session_udp_fwd_f self (num : Z) : io (HevSocks5SessionUDP * Z) :=
  msgv <~ pure (fwd_f_begin self num);
  match msgv with
  | None => Done (self, 0)
  | Some msgv => res <~ sendmmsg self msgv; pure (fwd_f_end self res)
  end.

(** ** Towards the application *)

(** where an answer seems to come from: the address the name was reached by,
    or the one in the message *)
Definition answer_from self (addr : mem) : res (option (ip_addr_t * Z)) :=
  if negb (bool_decide (su_addr self = repeat x00 4)) && negb (su_port self =? 0)
  then Ok (Some (IpAddr IPADDR_TYPE_V4 (su_addr self), su_port self))
  else hev_socks5_addr_into_lwip addr.

(** the loop over the first [n] messages: the result of [fwd_b] *)
Fixpoint deliver self (msgv : list HevSocks5UDPMsg) (n : nat) : io Z :=
  match n with
  | O => Done 1
  | S n =>
      match msgv with
      | [] => Crash
      | m :: msgv =>
          match um_addr m with
          | Unset => Crash
          | NoAddr => deliver self msgv n
          | AddrAt addr =>
              if um_len m =? 0 then deliver self msgv n else
              from <~ pure (answer_from self addr);
              match from with
              | None => Done (-1)
              | Some (ip, port) =>
                  b <~ ask HPbufRef;
                  if negb (b : bool) then Done (-1) else
                  d <~ pure (bytes_at 0 (um_len m) (um_buf m));
                  err <~ ask (HUdpSendfrom (ip_bytes ip) port d);
                  if negb (err =? 0) then Done (-1) else deliver self msgv n
              end
          end
      end
  end.

Definition recvmmsg self (num : nat) : io (HevSocks5SessionUDP * list HevSocks5UDPMsg * Z) :=
  '(base, msgv, res) <~ hev_socks5_udp_recvmmsg (cl_base (su_client self)) (hev_socks5_client_udp_get_fd (su_client self))
                          (empty_buffers heap num) true;
  Done (self <| su_client := su_client self <| cl_base := base |> |>, msgv, res).

(** [fwd_b] after it has received *)
Definition fwd_b_end self (msgv : list HevSocks5UDPMsg) (res : Z) : io Z :=
  if res <=? 0 then
    if res =? -1 then again <~ ask HAgain; Done (if (again : bool) then 0 else -1) else Done (-1)
  else deliver self msgv (Z.to_nat res).

(** when no handler runs meanwhile *)
Definition hev_socks5_session_udp_fwd_b self (num : nat) : io (HevSocks5SessionUDP * Z) :=
  '(self, msgv, res) <~ recvmmsg self num;
  r <~ fwd_b_end self msgv res; Done (self, r).

(** ** The task *)

Definition udp_io_yielder (type : HevTaskYieldType) self : io (HevSocks5SessionUDP * Z) :=
  let base := cl_base (su_client self) in
  let wait := res <~ hev_socks5_task_io_yielder type base; _ <~ ask HUpdateSession; Done (self, res) in
  if bool_decide (s5_type base = TYPE_UDP_IN_UDP) then
    '(res, again) <~ ask (HPoll (s5_fd base));
    if (res =? 0) || (res <? 0) && negb again
    then Done (self <| su_client := su_client self <| cl_base := hev_socks5_set_timeout base 0 |> |>, -1) else wait
  else wait.

(** where [hev_socks5_session_udp_splice] stands; lwIP may call between two of
    these *)
Inductive udp_at : Type :=
  | Forward (res_f res_b : Z)
  | Sending (msgv : list HevSocks5UDPMsg) (res_b : Z)
  | Sent (msgv : list HevSocks5UDPMsg) (res res_b : Z)
  | Backward (res_f res_b : Z)
  | Received (msgv : list HevSocks5UDPMsg) (res res_f : Z)
  | Waiting (res_f res_b : Z)
  | Ended.

Definition udp_step self (num : Z) (pc : udp_at) : io (HevSocks5SessionUDP * udp_at) :=
  match pc with
  | Forward res_f res_b =>
      if res_f <? 0 then Done (self, Backward res_f res_b) else
      msgv <~ pure (fwd_f_begin self num);
      Done (self, match msgv with None => Backward 0 res_b | Some msgv => Sending msgv res_b end)
  | Sending msgv res_b => res <~ sendmmsg self msgv; Done (self, Sent msgv res res_b)
  | Sent msgv res res_b => '(self, res_f) <~ pure (fwd_f_end self res); Done (self, Backward res_f res_b)
  | Backward res_f res_b =>
      if res_b <? 0 then Done (self, Waiting res_f res_b) else
      '(self, msgv, res) <~ recvmmsg self (Z.to_nat num); Done (self, Received msgv res res_f)
  | Received msgv res res_f => res_b <~ fwd_b_end self msgv res; Done (self, Waiting res_f res_b)
  | Waiting res_f res_b =>
      let wait type := '(self, r) <~ udp_io_yielder type self; Done (self, if r =? 0 then Forward res_f res_b else Ended) in
      if (0 <? res_f) || (0 <? res_b) then wait HEV_TASK_YIELD
      else if Z.land res_f res_b =? 0 then wait HEV_TASK_WAITIO
      else Done (self, Ended)
  | Ended => Done (self, Ended)
  end.

(** ** The beginning and the end *)

Definition hev_socks5_session_udp_construct (udp_in_udp : bool) : HevSocks5SessionUDP :=
  SessionUDP (hev_socks5_client_udp_construct (if udp_in_udp then TYPE_UDP_IN_UDP else TYPE_UDP_IN_TCP))
    (MkHevList None None ∅) ∅ true 0 (repeat x00 4) 0.

(** a frame is freed after the next one is read *)
Definition free_step (st : HevSocks5SessionUDP * option nat) : res (HevSocks5SessionUDP * option nat + HevSocks5SessionUDP) :=
  let '(self, node) := st in
  match node with
  | None => Ok (inr self)
  | Some x =>
      next ← hev_list_node_next (su_frame_list self) x;
      _ ← get_frame self x;
      Ok (inl (self <| su_frame_list := node_free (su_frame_list self) x |> <| su_heap := delete x (su_heap self) |>, next))
  end.
Definition hev_socks5_session_udp_destruct self : io HevSocks5SessionUDP :=
  self <~ pure (loop (Datatypes.S (size (su_heap self))) free_step (self, hev_list_first (su_frame_list self)));
  let self := self <| su_pcb := false |> in
  _ <~ hev_socks5_client_udp_destruct (su_client self);
  Done self.
End session_udp.
