(* ===== verification/HevSessionUdpSpec.v ===== *)
(** * hev-socks5-tunnel: what a UDP session keeps

    The frames of a session are a bounded queue, whatever lwIP does while
    the task waits ([udp_session_fifo]). *)

From Stdlib Require Import ZArith Lia Bool List.
From Stdlib Require Import Strings.Byte Strings.String.
From stdpp Require Import base tactics list numbers option gmap.
From S2P Require Import Prelude CMem HevList HevMappedDns HevIo HevSocks5 HevSocks5Client HevSocks5Spec HevSocks5Udp HevSocks5UdpSpec.
From S2P Require Import HevLwip HevLwipSpec HevSessionTcp HevSessionUdp.

(** a datagram: its address as SOCKS writes it, and its data *)
Notation datagram := (mem * mem)%type.

Section fifo.
Context (alloc : HevSocks5SessionUDP → option nat) (stack : mem) (heap : nat → mem) (num : Z).
Implicit Types (self : HevSocks5SessionUDP) (items taken sent : list datagram).
(** a new frame is not one that is in use *)
Hypothesis alloc_fresh : ∀ self x, alloc self = Some x → su_heap self !! x = None.
Hypothesis stack_block : len stack = 260.
Hypothesis num_pos : 0 < num.

(** ** The contract of a step *)

Definition lawful (_ : unit) (c : syscall) : answer c → Prop :=
  match c with
  | HSendmm _ l => λ n, n <= Z.of_nat (length l)
  | _ => λ _, True
  end.
Notation steps := (exec lawful (λ _ _ _, tt)).
Notation safe := (wpg (λ _ _, True) lawful (λ _ _ _, tt)).

(** lwIP hands over the datagram [x] *)
Definition handed_over (dns : option HevMappedDNS) (ip : ip_addr_t) (port : Z) (p : list mem) (x : datagram) : Prop :=
  (∃ dns' rest, hev_socks5_addr_from_lwip dns stack ip port = Ok (dns', x.1 ++ rest, 0)) ∧ wire_addr x.1 ∧ head p = Some x.2.

(** *** Every order of the task's steps and lwIP's calls

    [taken] is what lwIP handed over and the session did not refuse, [sent]
    what it then sent and let go. *)
Inductive udp_reached : list datagram → list datagram → HevSocks5SessionUDP → udp_at → Prop :=
  | udp_start self f b :
      su_frame_list self = MkHevList None None ∅ → su_heap self = ∅ → su_frames self = 0 →
      udp_reached [] [] self (Forward f b)
  | udp_take taken sent self pc dns ip port p x self' dns' :
      udp_reached taken sent self pc → su_frames self <= UDP_POOL_SIZE → is_Some (alloc self) →
      handed_over dns ip port p x → udp_recv_handler alloc stack self dns (Some p) ip port = Ok (self', dns') →
      udp_reached (taken ++ [x]) sent self' pc
  | udp_refuse taken sent self pc dns ip port p self' dns' :
      udp_reached taken sent self pc → UDP_POOL_SIZE < su_frames self ∨ alloc self = None →
      udp_recv_handler alloc stack self dns (Some p) ip port = Ok (self', dns') →
      udp_reached taken sent self' pc
  | udp_gone taken sent self pc dns ip port self' dns' :
      udp_reached taken sent self pc → udp_recv_handler alloc stack self dns None ip port = Ok (self', dns') →
      udp_reached taken sent self' pc
  | udp_own taken sent self pc self' pc' xs :
      udp_reached taken sent self pc → steps (udp_step heap self num pc) tt tt (self', pc') →
      match pc with
      | Sent msgv res _ => assemble pair (take (Z.to_nat res) msgv) = Ok (Some xs)
      | _ => xs = []
      end → udp_reached taken (sent ++ xs) self' pc'.

(** ** The invariant *)

Definition frame_is (f : HevSocks5UDPFrame) (x : datagram) : Prop :=
  wire_addr x.1 ∧ (∃ rest, uf_addr f = x.1 ++ rest) ∧ head (uf_data f) = Some x.2.

Record frames_ok self items : Prop := FramesOk {
  fo_frames : ∃ q, dll (su_frame_list self) q ∧ (∀ x, is_Some (su_heap self !! x) ↔ x ∈ q)
    ∧ Forall2 (λ x i, ∃ f, su_heap self !! x = Some f ∧ frame_is f i) q items;
  fo_count : su_frames self = Z.of_nat (length items);
  fo_bound : su_frames self <= UDP_POOL_SIZE + 1
}.

Definition at_ok items (pc : udp_at) : Prop :=
  match pc with
  | Sending msgv _ => Forall2 outgoing (take (length msgv) items) msgv
  | Sent msgv res _ => Forall2 outgoing (take (length msgv) items) msgv ∧ res <= Z.of_nat (length msgv)
  | _ => True
  end.

Lemma frames_wire self items : frames_ok self items → Forall (λ x : datagram, wire_addr x.1) items.
Proof. intros [(q & _ & _ & H) _ _]. induction H as [|x i q items (f & _ & Hf & _) H IH]; constructor; done. Qed.

Lemma frames_same self self' items :
  frames_ok self items → su_frame_list self' = su_frame_list self → su_heap self' = su_heap self → su_frames self' = su_frames self →
  frames_ok self' items.
Proof. intros [H1 H2 H3] E1 E2 E3. split; rewrite ?E1, ?E2, ?E3; done. Qed.

(** *** lwIP's calls *)

Lemma handler_total self dns p ip port items : frames_ok self items → dns_ok dns → ip_ok ip →
  ∃ self' dns', udp_recv_handler alloc stack self dns p ip port = Ok (self', dns').
Proof.
  intros [(q & Hd & Hh & _) _ _] Hdns Hip. destruct p as [p|]; [|by eexists _, _]. cbn [udp_recv_handler].
  destruct (_ <? _); [by eexists _, _|]. destruct (alloc self) as [x|] eqn:Ea; [|by eexists _, _].
  destruct (from_lwip_ok dns stack ip port Hdns stack_block Hip) as (dns' & a & rest & -> & _ & Hw). rewrite bind_Ok.
  destruct (wire_split _ Hw) as (t & b & r & -> & _). cbn [app]. rewrite rd0, bind_Ok.
  assert (Hx : x ∉ q) by (rewrite <- Hh, (alloc_fresh _ _ Ea); by intros [? ?]).
  destruct (add_tail_effect (node_alloc (su_frame_list self) x) q x (ListNode None None)) as (l & El & _);
    [by apply dll_alloc|apply lookup_insert_eq|done|].
  cbv zeta. assert (E : ∀ b : bool, su_frame_list (if b then self <| su_addr := take 4 (ip_bytes ip) |> <| su_port := port |> else self)
    = su_frame_list self) by by intros [].
  rewrite E, El, bind_Ok. by eexists _, _.
Qed.

Lemma handler_takes self dns ip port p x self' dns' items :
  frames_ok self items → su_frames self <= UDP_POOL_SIZE → is_Some (alloc self) → handed_over dns ip port p x →
  udp_recv_handler alloc stack self dns (Some p) ip port = Ok (self', dns') → frames_ok self' (items ++ [x]).
Proof.
  intros [(q & Hd & Hh & Hq) Hc Hb] Hle [y Hy] ((dns1 & rest & Ea) & Hw & Hp). cbn [udp_recv_handler].
  rewrite (proj2 (Z.ltb_ge _ _)) by done. rewrite Hy, Ea, bind_Ok.
  destruct (wire_split _ Hw) as (t & b & r & Ex & _). rewrite Ex. cbn [app]. rewrite rd0, bind_Ok. cbv zeta.
  set (self1 := if zb t =? HEV_SOCKS5_ADDR_TYPE_NAME then _ else self).
  assert (E1 : su_frame_list self1 = su_frame_list self ∧ su_heap self1 = su_heap self ∧ su_frames self1 = su_frames self)
    by (unfold self1; by destruct (_ =? _)).
  destruct E1 as (E1 & E2 & E3). clearbody self1. rewrite E1, E2, E3.
  assert (Hyq : y ∉ q) by (rewrite <- Hh, (alloc_fresh _ _ Hy); by intros [? ?]).
  destruct (add_tail_effect (node_alloc (su_frame_list self) y) q y (ListNode None None)) as (l & El & Hl & _);
    [by apply dll_alloc|apply lookup_insert_eq|done|].
  rewrite El, bind_Ok. intros [= <- <-]. split; simpl; [|rewrite Hc, length_app; simpl; lia|lia].
  exists (q ++ [y]). split; [done|]. split.
  - intros z. rewrite elem_of_app, list_elem_of_singleton. destruct (decide (z = y)) as [->|Hne].
    + rewrite lookup_insert_eq. split; [by right|by eexists].
    + rewrite lookup_insert_ne, Hh by done. tauto.
  - apply Forall2_app; [|constructor; [|constructor]].
    + eapply Forall2_impl; [exact Hq|]. intros z i (f & Hf & Hi). exists f. split; [|done].
      rewrite lookup_insert_ne; [done|]. intros <-. apply Hyq, Hh. by eexists.
    + eexists. split; [apply lookup_insert_eq|]. split; [done|]. split; [|done]. exists rest. simpl. by rewrite Ex.
Qed.

(** *** Making the messages *)

Lemma gather_ok self p q q' items items' : seg (hl_nodes (su_frame_list self)) p (q ++ q') None →
  Forall2 (λ x i, ∃ f, su_heap self !! x = Some f ∧ frame_is f i) (q ++ q') (items ++ items') → length q = length items →
  ∃ msgv, gather self (length items) (first (q ++ q') None) = Ok msgv ∧ Forall2 outgoing items msgv.
Proof.
  revert p items. induction q as [|x q IH]; intros p items Hs H Hl; destruct items as [|i items]; try done.
  { exists []. split; [done|constructor]. }
  destruct Hs as [Hx Hs]. cbn [app] in H. apply Forall2_cons in H as [(f & Hf & Hw & (rest & Ea) & Hd) H].
  destruct (IH (Some x) items Hs H ltac:(simpl in Hl; lia)) as (msgv & E & Hm).
  cbn [length first app gather]. unfold get_frame. rewrite Hf, bind_Ok. unfold hev_list_node_next, node_get. rewrite Hx, !bind_Ok.
  cbn [ln_next]. rewrite E, bind_Ok. destruct (uf_data f) as [|d l]; [done|]. injection Hd as ->.
  eexists. split; [done|]. constructor; [|done]. exists rest, []. simpl. by rewrite Ea, app_nil_r.
Qed.

Lemma begin_ok self items : frames_ok self items →
  match fwd_f_begin self num with
  | Ok None => items = []
  | Ok (Some msgv) => msgv ≠ [] ∧ (length msgv <= length items)%nat ∧ Forall2 outgoing (take (length msgv) items) msgv
  | _ => False
  end.
Proof.
  intros [(q & Hd & Hh & Hq) Hc Hb]. unfold fwd_f_begin. destruct (Z.leb_spec (su_frames self) 0) as [H0|H0].
  { destruct items; [done|simpl in Hc; lia]. }
  set (k := Z.to_nat (if num <? su_frames self then num else su_frames self)).
  assert (Hk : (0 < k <= length items)%nat) by (unfold k; destruct (Z.ltb_spec num (su_frames self)); lia).
  clearbody k.
  pose proof (Forall2_length _ _ _ Hq) as Hl. pose proof Hd as [_ Eh _ Hs].
  unfold hev_list_first. rewrite Eh. rewrite <- (take_drop k q) in Hs, Hq |- *. rewrite <- (take_drop k items) in Hq.
  destruct (gather_ok self None (take k q) (drop k q) (take k items) (drop k items) Hs Hq) as (msgv & E & Hm); [rewrite !length_take; lia|].
  rewrite length_take, Nat.min_l in E by lia. rewrite E, bind_Ok. pose proof (Forall2_length _ _ _ Hm) as Hml.
  assert (Ek : length msgv = k) by (rewrite <- Hml, length_take; lia). rewrite Ek.
  split; [intros ->; simpl in Ek; lia|]. split; [lia|done].
Qed.

(** *** Letting frames go *)

Lemma drop_frames_ok n : ∀ self items, frames_ok self items → (n <= length items)%nat →
  ∃ self', drop_frames self n = Ok self' ∧ frames_ok self' (drop n items).
Proof.
  induction n as [|n IH]; intros self items H Hn; [by exists self|]. pose proof H as [(q & Hd & Hh & Hq) Hc Hb].
  destruct items as [|i items]; [simpl in Hn; lia|]. apply Forall2_cons_inv_r in Hq as (x & q' & (f & Hf & Hi) & Hq' & ->). rename q' into q.
  cbn [drop_frames drop]. unfold hev_list_first. rewrite (dll_head _ _ Hd). cbn [first]. unfold get_frame. rewrite Hf, bind_Ok.
  destruct (del_effect (su_frame_list self) [] x q Hd) as (l & -> & Hl & _). rewrite bind_Ok. cbn [app] in Hl.
  pose proof (dll_nodup _ _ Hd) as [Hx Hnd]%NoDup_cons. apply IH; [|simpl in Hn; lia].
  split; simpl; [|simpl in Hc; lia|lia]. exists q. split; [by apply dll_free|]. split.
  - intros z. destruct (decide (z = x)) as [->|Hne].
    + rewrite lookup_delete_eq. split; [by intros [? ?]|done].
    + rewrite lookup_delete_ne, Hh, elem_of_cons by done. naive_solver.
  - apply Forall2_same_length_lookup_2; [by eapply Forall2_length|]. intros k z j Hz Hj.
    destruct (Forall2_lookup_lr _ _ _ _ _ _ Hq' Hz Hj) as (f' & Hf' & Hj'). exists f'. split; [|done].
    rewrite lookup_delete_ne; [done|]. intros <-. apply Hx. by eapply list_elem_of_lookup_2.
Qed.

(** *** Steps of the task *)

Lemma assemble_out {A} (f : mem → mem → A) xs msgv : Forall (λ x : datagram, wire_addr x.1) xs → Forall2 outgoing xs msgv →
  assemble f msgv = Ok (Some (map (λ x, f x.1 x.2) xs)).
Proof. apply assemble_ok. Qed.

Lemma send_ok self items msgv : frames_ok self items → Forall2 outgoing (take (length msgv) items) msgv →
  safe (sendmmsg self msgv) tt (λ _ res, res <= Z.of_nat (length msgv)).
Proof.
  intros H Hm. pose proof (Forall_take _ (length msgv) _ (frames_wire _ _ H)) as Hw. unfold sendmmsg, hev_socks5_udp_sendmmsg.
  destruct (s5_type _); try (simpl; lia).
  - unfold hev_socks5_udp_sendmmsg_tcp. rewrite (assemble_out frame _ _ Hw Hm), pure_ok. apply wpg_ask; [done|].
    intros r _. simpl. destruct (r <=? 0); lia.
  - unfold hev_socks5_udp_sendmmsg_udp. rewrite (assemble_out packet _ _ Hw Hm), pure_ok. split; [done|].
    intros r Hr. cbn [lawful wpg] in *. rewrite !length_map, (Forall2_length _ _ _ Hm) in Hr. lia.
Qed.

Lemma end_ok self items msgv res : frames_ok self items → Forall2 outgoing (take (length msgv) items) msgv →
  res <= Z.of_nat (length msgv) →
  ∃ self' r, fwd_f_end self res = Ok (self', r) ∧ frames_ok self' (drop (Z.to_nat res) items)
    ∧ assemble pair (take (Z.to_nat res) msgv) = Ok (Some (take (Z.to_nat res) items)).
Proof.
  intros H Hm Hr. pose proof (Forall2_length _ _ _ Hm) as Hl. rewrite length_take in Hl.
  assert (Ha : assemble pair (take (Z.to_nat res) msgv) = Ok (Some (take (Z.to_nat res) items))).
  { rewrite (assemble_out pair (take (Z.to_nat res) items)).
    - do 2 f_equal. erewrite list_fmap_ext; [apply list_fmap_id|]. by intros ? [].
    - apply Forall_take. by apply (frames_wire self).
    - replace (take (Z.to_nat res) items) with (take (Z.to_nat res) (take (length msgv) items)); [by apply Forall2_take|].
      rewrite take_take. f_equal. lia. }
  unfold fwd_f_end. destruct (Z.leb_spec res 0).
  - replace (Z.to_nat res) with 0%nat in * by lia. exists self, (-1). by rewrite drop_0.
  - destruct (drop_frames_ok (Z.to_nat res) self items H) as (self' & -> & H'); [lia|]. rewrite bind_Ok. by exists self', 1.
Qed.

(** what a session's own calls leave alone *)
Definition same_frames self self' : Prop :=
  su_frame_list self' = su_frame_list self ∧ su_heap self' = su_heap self ∧ su_frames self' = su_frames self.

Lemma same_frames_refl self : same_frames self self.
Proof. done. Qed.

Lemma exec_bind {A B} (m : io A) (k : A → io B) b : steps (io_bind m k) tt tt b → ∃ a, steps m tt tt a ∧ steps (k a) tt tt b.
Proof.
  induction m as [a|c f IH|]; simpl; [by exists a| |done]. intros (x & Hx & H). destruct (IH x H) as (a & Ha & Hk).
  exists a. split; [|done]. by exists x.
Qed.

Lemma yielder_same type self self' r : steps (udp_io_yielder type self) tt tt (self', r) → same_frames self self'.
Proof.
  unfold udp_io_yielder. assert (Hwait : ∀ res : io Z, steps (r <~ res; _ <~ ask HUpdateSession; Done (self, r)) tt tt (self', r) →
    same_frames self self').
  { intros m H. apply exec_bind in H as (a & _ & (u & _ & [_ [= -> _]])). done. }
  case_bool_decide; [|by apply Hwait]. intros ([res again] & _ & H0). simpl in H0.
  destruct ((res =? 0) || _); [|by eapply Hwait]. destruct H0 as [_ [= -> _]]. done.
Qed.
Lemma recvmmsg_same self n self' msgv res : steps (recvmmsg heap self n) tt tt (self', msgv, res) → same_frames self self'.
Proof. unfold recvmmsg. intros H. apply exec_bind in H as ([[b m] r] & _ & [_ [= -> _ _]]). done. Qed.

(** a step from where frames are not touched *)
Lemma other_step self pc self' pc' : steps (udp_step heap self num pc) tt tt (self', pc') →
  match pc with Sent _ _ _ => False | _ => True end →
  same_frames self self' ∧
  match pc, pc' with
  | Forward _ _, Sending msgv _ => fwd_f_begin self num = Ok (Some msgv)
  | Sending msgv _, Sent msgv' res _ => msgv' = msgv ∧ steps (sendmmsg self msgv) tt tt res
  | _, (Sending _ _ | Sent _ _ _) => False
  | _, _ => True
  end.
Proof.
  intros H Hpc. destruct pc as [f b|msgv b|msgv r b|f b|msgv r f|f b|]; cbn [udp_step] in H; try done.
  - destruct (f <? 0); [by destruct H as [_ [= -> ->]]; (split; [apply same_frames_refl|exact I])|]. apply exec_bind in H as (m & Hm & [_ [= -> ->]]).
    destruct (fwd_f_begin self num) as [x| |] eqn:Eb; try done. destruct Hm as [_ ->]. split; [apply same_frames_refl|]. by destruct x.
  - apply exec_bind in H as (res & Hr & [_ [= -> ->]]). by split; [apply same_frames_refl|].
  - destruct (b <? 0); [by destruct H as [_ [= -> ->]]; (split; [apply same_frames_refl|exact I])|]. apply exec_bind in H as ([[s m] r] & Hr & [_ [= -> ->]]).
    split; [by eapply recvmmsg_same|done].
  - apply exec_bind in H as (r' & _ & [_ [= -> ->]]). (split; [apply same_frames_refl|exact I]).
  - assert (Hw : ∀ type, steps ('(self, r) <~ udp_io_yielder type self; Done (self, if r =? 0 then Forward f b else Ended)) tt tt (self', pc') →
      same_frames self self' ∧ match pc' with Sending _ _ | Sent _ _ _ => False | _ => True end).
    { intros type Hy. apply exec_bind in Hy as ([s r] & Hy & [_ [= -> ->]]). split; [by eapply yielder_same|]. by destruct (r =? 0). }
    destruct ((0 <? f) || (0 <? b)); [by apply Hw in H|]. destruct (_ =? 0); [by apply Hw in H|]. by destruct H as [_ [= -> ->]]; (split; [apply same_frames_refl|exact I]).
  - by destruct H as [_ [= -> ->]]; (split; [apply same_frames_refl|exact I]).
Qed.

Lemma udp_inv taken sent self pc : udp_reached taken sent self pc →
  ∃ items, frames_ok self items ∧ taken = sent ++ items ∧ at_ok items pc.
Proof.
  intros Hr. induction Hr as [self f b E1 E2 E3|taken sent self pc dns ip port p x self' dns' _ (items & H & -> & Hat) Hle Ha Hx E
    |taken sent self pc dns ip port p self' dns' _ (items & H & -> & Hat) Hno E
    |taken sent self pc dns ip port self' dns' _ (items & H & -> & Hat) E
    |taken sent self pc self' pc' xs _ (items & H & -> & Hat) Hs Hxs].
  - exists []. split; [|done]. split; rewrite ?E1, ?E2, ?E3; [|done|done]. exists []. split; [apply dll_empty|]. split; [|constructor].
    intros x. rewrite lookup_empty, elem_of_nil. split; [by intros [? ?]|done].
  - exists (items ++ [x]). split; [by eapply handler_takes|]. split; [by rewrite app_assoc|].
    assert (Hk : ∀ msgv : list HevSocks5UDPMsg, Forall2 outgoing (take (length msgv) items) msgv →
      Forall2 outgoing (take (length msgv) (items ++ [x])) msgv).
    { intros msgv Hm. pose proof (Forall2_length _ _ _ Hm) as Hl. rewrite length_take in Hl. by rewrite take_app_le by lia. }
    destruct pc; try done; [by apply Hk|]. destruct Hat. split; [by apply Hk|done].
  - exists items. split; [|done]. unfold udp_recv_handler in E. destruct (Z.ltb_spec UDP_POOL_SIZE (su_frames self)).
    + by injection E as <- _.
    + destruct Hno as [?|Hno]; [lia|]. rewrite Hno in E. by injection E as <- _.
  - exists items. split; [|done]. injection E as <- _. by eapply frames_same.
  - destruct pc as [f b|msgv b|msgv r b|f b|msgv r f|f b|]; try (subst xs;
      destruct (other_step _ _ _ _ Hs I) as [(E1 & E2 & E3) Hpc]; exists items; rewrite app_nil_r;
      split; [by eapply frames_same|]; split; [done|]).
    + destruct pc'; try done. simpl. pose proof (begin_ok self items H) as Hb. rewrite Hpc in Hb. apply Hb.
    + destruct pc'; try done. destruct Hpc as [-> Hres]. split; [done|].
      by apply (wpg_exec _ _ _ _ _ _ _ _ (send_ok self items _ H Hat) Hres).
    + destruct Hat as [Hm Hle]. destruct (end_ok self items msgv r H Hm Hle) as (s & f & E & H' & Ea).
      assert (xs = take (Z.to_nat r) items) as -> by congruence. exists (drop (Z.to_nat r) items).
      cbn [udp_step] in Hs. rewrite E in Hs. destruct Hs as [_ [= -> ->]]. split; [done|]. split; [|done].
      by rewrite <- app_assoc, take_drop.
    + by destruct pc'.
    + by destruct pc'.
    + by destruct pc'.
    + by destruct pc'.
Qed.

Lemma yielder_safe type self (Q : unit → HevSocks5SessionUDP * Z → Prop) : (∀ s r, Q tt (s, r)) → safe (udp_io_yielder type self) tt Q.
Proof.
  intros HQ. unfold udp_io_yielder.
  assert (Hw : safe (res <~ hev_socks5_task_io_yielder type (cl_base (su_client self)); _ <~ ask HUpdateSession; Done (self, res)) tt Q).
  { apply wpg_bind. destruct type; cbn [hev_socks5_task_io_yielder]; [|destruct (_ <? 0)]; cbn; auto. }
  case_bool_decide; [|done]. apply wpg_ask; [done|]. intros [res again] _. destruct ((res =? 0) || _); [apply HQ|exact Hw].
Qed.

Lemma step_safe self items pc : frames_ok self items → at_ok items pc →
  match pc with Backward _ _ | Received _ _ _ => True | _ => safe (udp_step heap self num pc) tt (λ _ _, True) end.
Proof.
  intros H Hat. destruct pc as [f b|msgv b|msgv r b|f b|msgv r f|f b|]; try done; cbn [udp_step].
  - destruct (f <? 0); [done|]. pose proof (begin_ok self items H) as Hb. by destruct (fwd_f_begin self num).
  - apply wpg_bind. eapply wpg_mono; [by apply (send_ok self items)|done].
  - destruct Hat as [Hm Hle]. destruct (end_ok self items msgv r H Hm Hle) as (s & f & -> & _). done.
  - assert (Hw : ∀ type, safe ('(self, r) <~ udp_io_yielder type self; Done (self, if r =? 0 then Forward f b else Ended)) tt (λ _ _, True))
      by (intros type; by apply wpg_bind, yielder_safe).
    destruct ((0 <? f) || (0 <? b)); [apply Hw|]. by destruct (_ =? 0); [apply Hw|].
Qed.

(** *** The end *)

Lemma free_loop q : ∀ self fuel p,
  seg (hl_nodes (su_frame_list self)) p q None → NoDup q → (∀ x, is_Some (su_heap self !! x) ↔ x ∈ q) → (length q < fuel)%nat →
  ∃ self', loop fuel free_step (self, first q None) = Ok self' ∧ su_heap self' = ∅.
Proof.
  induction q as [|x q IH]; intros self fuel p Hs Hnd Hh Hf; (destruct fuel as [|fuel]; [simpl in Hf; lia|]); rewrite loop_S.
  { exists self. split; [done|]. apply map_empty. intros x. destruct (su_heap self !! x) eqn:E; [|done].
    exfalso. apply (elem_of_nil x), Hh. by eexists. }
  destruct Hs as [Hx Hs]. apply NoDup_cons in Hnd as [Hnx Hnd]. destruct (proj2 (Hh x)) as [f Hfr]; [by left|].
  unfold free_step at 1. cbn [first]. unfold hev_list_node_next, node_get. rewrite Hx, !bind_Ok. unfold get_frame. rewrite Hfr, !bind_Ok.
  cbn [ln_next]. refine (IH _ fuel (Some x) _ Hnd _ _); [| |simpl in Hf; lia].
  - eapply seg_frame; [|exact Hs]. intros y Hy. simpl. rewrite lookup_delete_ne; [done|]. by intros ->.
  - intros y. simpl. destruct (decide (y = x)) as [->|Hne].
    + rewrite lookup_delete_eq. split; [by intros [? ?]|done].
    + rewrite lookup_delete_ne, Hh, elem_of_cons by done. tauto.
Qed.

Lemma heap_size self items : frames_ok self items → size (su_heap self) = length items.
Proof.
  intros [(q & Hd & Hh & Hq) _ _]. rewrite <- (Forall2_length _ _ _ Hq).
  assert (E : dom (su_heap self) = list_to_set q) by (apply set_eq; intros x; by rewrite elem_of_dom, elem_of_list_to_set).
  rewrite <- size_dom, E. apply size_list_to_set, (dll_nodup _ _ Hd).
Qed.

(** C29: whatever datagrams lwIP hands over while the task of a session waits,
    also in the middle of sending: the session keeps those it takes in order,
    never more than 513; what it has sent and let go, followed by what it
    keeps, is always what it took.  lwIP's call always returns.  Sending, and
    freeing what was sent, goes on without going wrong, and what goes into the
    connection are the frames of the datagrams at the front.  Taking the
    session down frees every frame. *)
Theorem udp_session_fifo taken sent self (pc : udp_at) : udp_reached taken sent self pc →
  ∃ items, taken = sent ++ items ∧ su_frames self = Z.of_nat (length items) ∧ size (su_heap self) = length items
    ∧ Z.of_nat (length items) <= UDP_POOL_SIZE + 1
    ∧ (∀ dns p ip port, dns_ok dns → ip_ok ip → ∃ self' dns', udp_recv_handler alloc stack self dns p ip port = Ok (self', dns'))
    ∧ match pc with Backward _ _ | Received _ _ _ => True | _ => safe (udp_step heap self num pc) tt (λ _ _, True) end
    ∧ (∀ msgv b, pc = Sending msgv b → s5_type (cl_base (su_client self)) = TYPE_UDP_IN_TCP →
         ∃ k, sendmmsg self msgv = io_bind (ask (HSend (s5_fd (cl_base (su_client self))) (frames (take (length msgv) items)))) k)
    ∧ ∃ self', loop (S (size (su_heap self))) free_step (self, hev_list_first (su_frame_list self)) = Ok self' ∧ su_heap self' = ∅.
Proof.
  intros Hr. destruct (udp_inv _ _ _ _ Hr) as (items & H & E & Hat). exists items. split; [done|]. split; [by apply H|].
  split; [by apply heap_size|]. split; [rewrite <- (fo_count _ _ H); by apply H|]. split; [intros dns p ip port Hd Hi; by apply (handler_total self dns p ip port items)|].
  split; [by apply (step_safe self items)|]. split.
  - intros msgv b -> Ht. unfold sendmmsg, hev_socks5_udp_sendmmsg, hev_socks5_client_udp_get_fd. rewrite Ht. unfold hev_socks5_udp_sendmmsg_tcp.
    rewrite (assemble_out frame _ _ (Forall_take _ _ _ (frames_wire _ _ H)) Hat), pure_ok. by eexists.
  - pose proof H as [(q & Hd & Hh & Hq) _ _]. unfold hev_list_first. rewrite (dll_head _ _ Hd).
    apply (free_loop q self _ None); [apply Hd|apply Hd|done|]. rewrite (heap_size _ _ H), (Forall2_length _ _ _ Hq). lia.
Qed.
End fifo.

(** ** Example: a datagram, and another one while the first is being sent *)

Definition next_frame (s : HevSocks5SessionUDP) : option nat := Some (fresh (dom (su_heap s))).
Lemma next_frame_fresh s x : next_frame s = Some x → su_heap s !! x = None.
Proof. intros [= <-]. apply not_elem_of_dom, is_fresh. Qed.

Definition block : mem := repeat xff 260.
Definition quad : ip_addr_t := IpAddr IPADDR_TYPE_V4 [x09; x09; x09; x09].
Definition one_query : datagram := (bz 1 :: [x09; x09; x09; x09] ++ [x00; x35], bytes_of "query").
Definition idle : HevSocks5SessionUDP := hev_socks5_session_udp_construct false.
Definition busy : HevSocks5SessionUDP :=
  idle <| su_heap := {[0%nat := UDPFrame (one_query.1 ++ repeat xff 253) [bytes_of "query"]]} |> <| su_frames := 1 |>
       <| su_frame_list := MkHevList (Some 0%nat) (Some 0%nat) {[0%nat := ListNode None None]} |>.
Definition queried : list HevSocks5UDPMsg := [UDPMsg (AddrAt (one_query.1 ++ repeat xff 253)) (bytes_of "query") 5].

Lemma udp_session_fifo_witness :
  udp_reached next_frame block (λ _, block) 10 [one_query] [] busy (Sending queried 1)
  ∧ ∃ items, [one_query] = [] ++ items ∧ su_frames busy = Z.of_nat (length items) ∧ size (su_heap busy) = length items
    ∧ Z.of_nat (length items) <= UDP_POOL_SIZE + 1
    ∧ (∀ dns p ip port, dns_ok dns → ip_ok ip → ∃ self' dns', udp_recv_handler next_frame block busy dns p ip port = Ok (self', dns'))
    ∧ wpg (λ _ _, True) lawful (λ _ _ _, tt) (udp_step (λ _, block) busy 10 (Sending queried 1)) tt (λ _ _, True)
    ∧ (∀ msgv b, Sending queried 1 = Sending msgv b → s5_type (cl_base (su_client busy)) = TYPE_UDP_IN_TCP →
         ∃ k, sendmmsg busy msgv = io_bind (ask (HSend (s5_fd (cl_base (su_client busy))) (frames (take (length msgv) items)))) k)
    ∧ ∃ self', loop (S (size (su_heap busy))) free_step (busy, hev_list_first (su_frame_list busy)) = Ok self' ∧ su_heap self' = ∅.
Proof.
  assert (Hr : udp_reached next_frame block (λ _, block) 10 [one_query] [] busy (Sending queried 1)).
  { apply (udp_own next_frame block (λ _, block) 10 [one_query] [] busy (Forward 1 1) busy (Sending queried 1) []); [| |done].
    - apply (udp_take next_frame block (λ _, block) 10 [] [] idle (Forward 1 1) None quad 53 [bytes_of "query"] one_query busy None).
      + by apply udp_start.
      + done.
      + by eexists.
      + split; [|split; [by apply (WireIPv4 [x09; x09; x09; x09] [x00; x35])|done]]. eexists None, (repeat xff 253). vm_compute. reflexivity.
      + vm_compute. reflexivity.
    - vm_compute. by split. }
  split; [exact Hr|]. by apply (udp_session_fifo next_frame block (λ _, block) 10 next_frame_fresh eq_refl ltac:(done) [one_query] [] busy (Sending queried 1)).
Defined.
