(* ===== verification/HevConfig.v ===== *)
(** * hev-socks5-tunnel, the configuration: src/hev-config.c

    The settings are static variables; [hev_config_init_from_str] resets them
    and walks the document libyaml made of the text.  A document is the array
    of its nodes; a mapping is a list of pairs of 1-based indices into it, 0
    for none.  The value of a scalar is what C reads at it, up to the NUL
    libyaml puts behind it. *)

From Stdlib Require Import ZArith Lia Bool List.
From Stdlib Require Import Strings.Byte Strings.String.
From stdpp Require Import base tactics list numbers option.
From S2P Require Import Prelude CMem HevSocks5 HevSocks5Client HevSocks5Udp HevSessionTcp.

(** ** third-part/yaml *)

Inductive yaml_node_t : Type :=
  | YAML_SCALAR_NODE (value : mem)
  | YAML_SEQUENCE_NODE (items : list Z)
  | YAML_MAPPING_NODE (pairs : list (Z * Z)).
Notation yaml_document_t := (list yaml_node_t).

Definition yaml_document_get_node (doc : yaml_document_t) (index : Z) : option yaml_node_t :=
  if (0 <? index) && (index <=? Z.of_nat (length doc)) then doc !! Z.to_nat (index - 1) else None.
Definition yaml_document_get_root_node (doc : yaml_document_t) : option yaml_node_t := head doc.

(** ** libc *)

(** [strtoul]: a [-] negates, more than [ULONG_MAX] is [ULONG_MAX] *)
Definition ULONG_MAX : Z := 2 ^ 64 - 1.
Definition strtoul (s : mem) (base : Z) : res Z :=
  '(l1, k1) ← skip_space (s ++ [x00]) 0;
  b ← rd_list l1;
  let neg := zb b =? 45 in
  let '(l2, k2) := if neg || (zb b =? 43) then (tail l1, k1 + 1) else (l1, k1) in
  '(bs, l3, k3) ← strtol_base base l2 k2;
  '(v, _, seen) ← strtol_digits bs l3 0 k3 false;
  Ok (if negb seen then 0 else if ULONG_MAX <? v then ULONG_MAX else if neg then (- v) mod 2 ^ 64 else v).

(** the comparisons are with a literal, and ask only for equality *)
Definition strcmp (s : mem) (lit : string) : bool := negb (bool_decide (s = bytes_of lit)).
Definition lower (s : mem) : list Z := map (λ c, tolower (zb c)) s.
Definition strcasecmp (s : mem) (lit : string) : bool := negb (bool_decide (lower s = lower (bytes_of lit))).

(** arithmetic in [int] *)
Definition int (x : Z) : res Z := if (- 2 ^ 31 <=? x) && (x <? 2 ^ 31) then Ok x else UB.

(** ** The variables *)

Definition HEV_LOGGER_DEBUG : Z := 0.
Definition HEV_LOGGER_INFO : Z := 1.
Definition HEV_LOGGER_WARN : Z := 2.
Definition HEV_LOGGER_ERROR : Z := 3.
Definition TASK_STACK_SIZE : Z := 20480.

(** [srv]; whether [user] and [pass] are set: they then point to [_user] and
    [_pass] *)
Record HevConfigServerVar : Type := ServerVar {
  sv_user : bool; sv_pass : bool; sv_mark : Z; sv_udp_in_udp : bool; sv_port : Z;
  sv_pipeline : bool; sv_fastopen : Z; sv_udp_addr : mem; sv_addr : mem
}.
#[export] Instance servervar_eta : Eta HevConfigServerVar := λ s,
  ServerVar (sv_user s) (sv_pass s) (sv_mark s) (sv_udp_in_udp s) (sv_port s) (sv_pipeline s) (sv_fastopen s)
    (sv_udp_addr s) (sv_addr s).

(** of an address of mapped DNS, the bytes in memory *)
Record HevConfig : Type := Config {
  tun_name : mem; tun_guid : mem; tun_mtu : Z; multi_queue : bool; icmp : bool;
  tun_ipv4_address : mem; tun_ipv6_address : mem; tun_post_up_script : mem; tun_pre_down_script : mem;
  cf_srv : HevConfigServerVar; cf_user : mem; cf_pass : mem;
  mapdns_address : mem; mapdns_port : Z; mapdns_network : mem; mapdns_netmask : mem; mapdns_cache_size : Z;
  log_file : mem; pid_file : mem; max_session_count : Z; task_stack_size : Z; tcp_buffer_size : Z;
  udp_recv_buffer_size : Z; udp_copy_buffer_nums : Z; connect_timeout : Z; tcp_read_write_timeout : Z;
  udp_read_write_timeout : Z; limit_nofile : Z; log_level : Z
}.
#[export] Instance config_eta : Eta HevConfig := λ c,
  Config (tun_name c) (tun_guid c) (tun_mtu c) (multi_queue c) (icmp c) (tun_ipv4_address c) (tun_ipv6_address c)
    (tun_post_up_script c) (tun_pre_down_script c) (cf_srv c) (cf_user c) (cf_pass c) (mapdns_address c) (mapdns_port c)
    (mapdns_network c) (mapdns_netmask c) (mapdns_cache_size c) (log_file c) (pid_file c) (max_session_count c)
    (task_stack_size c) (tcp_buffer_size c) (udp_recv_buffer_size c) (udp_copy_buffer_nums c) (connect_timeout c)
    (tcp_read_write_timeout c) (udp_read_write_timeout c) (limit_nofile c) (log_level c).

(** [_user] and [_pass] are not reset *)
Definition hev_config_reset (self : HevConfig) : HevConfig :=
  Config (repeat x00 64) (repeat x00 64) 8500 false false (repeat x00 16) (repeat x00 64) (repeat x00 1024) (repeat x00 1024)
    (ServerVar false false 0 false 0 false 0 (repeat x00 256) (repeat x00 256)) (cf_user self) (cf_pass self)
    (repeat x00 4) 0 (repeat x00 4) (repeat x00 4) 0
    (repeat x00 1024) (repeat x00 1024) 0 86016 65536 524288 10 10000 300000 60000 65535 HEV_LOGGER_WARN.

(** ** The walk over the pairs of a mapping *)

(** what an iteration does: goes on, leaves the loop, or returns -1 *)
Inductive walk (S : Type) : Type :=
  | Next (s : S)
  | Leave (s : S)
  | Return (s : S).
Arguments Next {S}. Arguments Leave {S}. Arguments Return {S}.

(** the state, and whether the loop came to its end *)
Fixpoint over_pairs {S} (doc : yaml_document_t) (body : mem → option yaml_node_t → S → res (walk S)) (pairs : list (Z * Z)) (s : S)
    : res (S * bool) :=
  match pairs with
  | [] => Ok (s, true)
  | (k, v) :: pairs =>
      if (k =? 0) || (v =? 0) then over_pairs doc body pairs s else
      match yaml_document_get_node doc k with
      | Some (YAML_SCALAR_NODE key) =>
          w ← body (c_str key) (yaml_document_get_node doc v) s;
          match w with
          | Next s => over_pairs doc body pairs s
          | Leave s => Ok (s, true)
          | Return s => Ok (s, false)
          end
      | _ => Ok (s, true)
      end
  end.

(** the mappings all of whose values are scalars *)
Definition scalars {S} (set : mem → mem → S → res S) (key : mem) (node : option yaml_node_t) (s : S) : res (walk S) :=
  match node with
  | Some (YAML_SCALAR_NODE value) => s ← set key (c_str value) s; Ok (Next s)
  | _ => Ok (Leave s)
  end.

(** ** The sections *)

Section config.
Context (inet_pton : mem → option mem).
Implicit Types (self : HevConfig).

Definition set_tunnel_ipv4 (key value : mem) self : res HevConfig :=
  if negb (strcmp key "address") then a ← strncpy (tun_ipv4_address self) 0 value 15; Ok (self <| tun_ipv4_address := a |>) else Ok self.
Definition hev_config_parse_tunnel_ipv4 (doc : yaml_document_t) (base : yaml_node_t) self : res (HevConfig * Z) :=
  match base with
  | YAML_MAPPING_NODE pairs => '(self, _) ← over_pairs doc (scalars set_tunnel_ipv4) pairs self; Ok (self, 0)
  | _ => Ok (self, -1)
  end.
Definition set_tunnel_ipv6 (key value : mem) self : res HevConfig :=
  if negb (strcmp key "address") then a ← strncpy (tun_ipv6_address self) 0 value 63; Ok (self <| tun_ipv6_address := a |>) else Ok self.
Definition hev_config_parse_tunnel_ipv6 (doc : yaml_document_t) (base : yaml_node_t) self : res (HevConfig * Z) :=
  match base with
  | YAML_MAPPING_NODE pairs => '(self, _) ← over_pairs doc (scalars set_tunnel_ipv6) pairs self; Ok (self, 0)
  | _ => Ok (self, -1)
  end.

Definition set_tunnel (key value : mem) self : res HevConfig :=
  if negb (strcmp key "name") then s ← strncpy (tun_name self) 0 value 63; Ok (self <| tun_name := s |>)
  else if negb (strcmp key "guid") then s ← strncpy (tun_guid self) 0 value 63; Ok (self <| tun_guid := s |>)
  else if negb (strcmp key "mtu") then n ← strtoul value 10; Ok (self <| tun_mtu := u32 n |>)
  else if negb (strcmp key "multi-queue") then Ok (self <| multi_queue := strcasecmp value "false" |>)
  else if negb (strcmp key "ipv4") then s ← strncpy (tun_ipv4_address self) 0 value 15; Ok (self <| tun_ipv4_address := s |>)
  else if negb (strcmp key "ipv6") then s ← strncpy (tun_ipv6_address self) 0 value 63; Ok (self <| tun_ipv6_address := s |>)
  else if negb (strcmp key "icmp") then Ok (self <| icmp := negb (strcasecmp value "reply") |>)
  else if negb (strcmp key "post-up-script") then s ← strncpy (tun_post_up_script self) 0 value 1023; Ok (self <| tun_post_up_script := s |>)
  else if negb (strcmp key "pre-down-script") then s ← strncpy (tun_pre_down_script self) 0 value 1023; Ok (self <| tun_pre_down_script := s |>)
  else Ok self.
Definition tunnel_body (doc : yaml_document_t) (key : mem) (node : option yaml_node_t) self : res (walk HevConfig) :=
  match node with
  | None => Ok (Leave self)
  | Some (YAML_SCALAR_NODE value) => self ← set_tunnel key (c_str value) self; Ok (Next self)
  | Some node =>
      if negb (strcmp key "ipv4") then '(self, _) ← hev_config_parse_tunnel_ipv4 doc node self; Ok (Next self)
      else if negb (strcmp key "ipv6") then '(self, _) ← hev_config_parse_tunnel_ipv6 doc node self; Ok (Next self)
      else Ok (Next self)
  end.
Definition hev_config_parse_tunnel (doc : yaml_document_t) (base : option yaml_node_t) self : res (HevConfig * Z) :=
  match base with
  | Some (YAML_MAPPING_NODE pairs) => '(self, _) ← over_pairs doc (tunnel_body doc) pairs self; Ok (self, 0)
  | _ => Ok (self, -1)
  end.

(** the values of a server's section that were seen *)
Record seen : Type := Seen {
  se_addr : option mem; se_port : option mem; se_udpm : option mem; se_udpa : option mem; se_user : option mem;
  se_pass : option mem; se_mark : option mem; se_pipe : option mem; se_tfso : option mem
}.
#[export] Instance seen_eta : Eta seen := λ s,
  Seen (se_addr s) (se_port s) (se_udpm s) (se_udpa s) (se_user s) (se_pass s) (se_mark s) (se_pipe s) (se_tfso s).
Definition set_socks5 (key value : mem) (s : seen) : res seen :=
  Ok (if negb (strcmp key "port") then s <| se_port := Some value |>
  else if negb (strcmp key "address") then s <| se_addr := Some value |>
  else if negb (strcmp key "udp") then s <| se_udpm := Some value |>
  else if negb (strcmp key "udp-address") then s <| se_udpa := Some value |>
  else if negb (strcmp key "pipeline") then s <| se_pipe := Some value |>
  else if negb (strcmp key "username") then s <| se_user := Some value |>
  else if negb (strcmp key "password") then s <| se_pass := Some value |>
  else if negb (strcmp key "mark") then s <| se_mark := Some value |>
  else if negb (strcmp key "tcp-fastopen") then s <| se_tfso := Some value |>
  else s).
Definition socks5_modes (s : seen) (srv : HevConfigServerVar) : HevConfigServerVar :=
  let srv := match se_pipe s with
             | Some pipe => if negb (strcasecmp pipe "true") then srv <| sv_pipeline := true |> else srv
             | None => srv end in
  match se_udpm s with
  | Some udpm => if negb (strcasecmp udpm "udp") then srv <| sv_udp_in_udp := true |> else srv
  | None => srv end.
(** the variables after the checks *)
Definition store_socks5 (addr port : mem) (s : seen) self : res HevConfig :=
  let srv := cf_srv self in
  a ← strncpy (sv_addr srv) 0 addr 255;
  p ← strtoul port 10;
  let srv := socks5_modes s (srv <| sv_addr := a |> <| sv_port := u16 p |>) in
  srv ← (match se_udpa s with
    | Some udpa => a ← strncpy (sv_udp_addr srv) 0 udpa 255; Ok (srv <| sv_udp_addr := a |>)
    | None => Ok srv end);
  '(self, srv) ← (match se_user s, se_pass s with
    | Some user, Some pass =>
        u ← strncpy (cf_user self) 0 user 255;
        p ← strncpy (cf_pass self) 0 pass 255;
        Ok (self <| cf_user := u |> <| cf_pass := p |>, srv <| sv_user := true |> <| sv_pass := true |>)
    | _, _ => Ok (self, srv) end);
  srv ← (match se_mark s with
    | Some mark => m ← strtoul mark 0; Ok (srv <| sv_mark := u32 m |>)
    | None => Ok srv end);
  let srv := match se_tfso s with
             | Some tfso => srv <| sv_fastopen := if negb (strcasecmp tfso "true") then 1 else 0 |>
             | None => srv end in
  Ok (self <| cf_srv := srv |>).
Definition hev_config_parse_socks5 (doc : yaml_document_t) (base : option yaml_node_t) self : res (HevConfig * Z) :=
  match base with
  | Some (YAML_MAPPING_NODE pairs) =>
      '(s, _) ← over_pairs doc (scalars set_socks5) pairs (Seen None None None None None None None None None);
      match se_port s, se_addr s with
      | Some port, Some addr =>
          if xorb (bool_decide (is_Some (se_user s))) (bool_decide (is_Some (se_pass s))) then Ok (self, -1) else
          self ← store_socks5 addr port s self; Ok (self, 0)
      | _, _ => Ok (self, -1)
      end
  | _ => Ok (self, -1)
  end.

Definition set_mapdns (key value : mem) self : res HevConfig :=
  if negb (strcmp key "address") then Ok (match inet_pton value with Some a => self <| mapdns_address := a |> | None => self end)
  else if negb (strcmp key "port") then n ← strtoul value 10; Ok (self <| mapdns_port := i32 n |>)
  else if negb (strcmp key "network") then Ok (match inet_pton value with Some a => self <| mapdns_network := a |> | None => self end)
  else if negb (strcmp key "netmask") then Ok (match inet_pton value with Some a => self <| mapdns_netmask := a |> | None => self end)
  else if negb (strcmp key "cache-size") then n ← strtoul value 10; Ok (self <| mapdns_cache_size := i32 n |>)
  else Ok self.
(** on a little-endian machine [ntohl] turns the bytes round *)
Definition hev_config_parse_mapdns (doc : yaml_document_t) (base : option yaml_node_t) self : res (HevConfig * Z) :=
  match base with
  | Some (YAML_MAPPING_NODE pairs) =>
      '(self, _) ← over_pairs doc (scalars set_mapdns) pairs self;
      Ok (self <| mapdns_network := rev (mapdns_network self) |> <| mapdns_netmask := rev (mapdns_netmask self) |>, 0)
  | _ => Ok (self, -1)
  end.

Definition hev_config_parse_log_level (value : mem) : Z :=
  if negb (strcmp value "debug") then HEV_LOGGER_DEBUG
  else if negb (strcmp value "info") then HEV_LOGGER_INFO
  else if negb (strcmp value "error") then HEV_LOGGER_ERROR
  else HEV_LOGGER_WARN.

(** the three local timeouts *)
Record timeouts : Type := Locals { rw_timeout : Z; tcp_rw_timeout : Z; udp_rw_timeout : Z }.
#[export] Instance timeouts_eta : Eta timeouts := λ t, Locals (rw_timeout t) (tcp_rw_timeout t) (udp_rw_timeout t).
Definition set_misc (key value : mem) (st : HevConfig * timeouts) : res (HevConfig * timeouts) :=
  let '(self, t) := st in
  let num (f : Z → HevConfig) := n ← strtoul value 10; Ok (f (i32 n), t) in
  let local (f : Z → timeouts) := n ← strtoul value 10; Ok (self, f (i32 n)) in
  if negb (strcmp key "task-stack-size") then num (λ n, self <| task_stack_size := n |>)
  else if negb (strcmp key "tcp-buffer-size") then num (λ n, self <| tcp_buffer_size := n |>)
  else if negb (strcmp key "udp-recv-buffer-size") then num (λ n, self <| udp_recv_buffer_size := n |>)
  else if negb (strcmp key "udp-copy-buffer-nums") then num (λ n, self <| udp_copy_buffer_nums := n |>)
  else if negb (strcmp key "max-session-count") then num (λ n, self <| max_session_count := n |>)
  else if negb (strcmp key "connect-timeout") then num (λ n, self <| connect_timeout := n |>)
  else if negb (strcmp key "read-write-timeout") then local (λ n, t <| rw_timeout := n |>)
  else if negb (strcmp key "tcp-read-write-timeout") then local (λ n, t <| tcp_rw_timeout := n |>)
  else if negb (strcmp key "udp-read-write-timeout") then local (λ n, t <| udp_rw_timeout := n |>)
  else if negb (strcmp key "pid-file") then s ← strncpy (pid_file self) 0 value 1023; Ok (self <| pid_file := s |>, t)
  else if negb (strcmp key "log-file") then s ← strncpy (log_file self) 0 value 1023; Ok (self <| log_file := s |>, t)
  else if negb (strcmp key "log-level") then Ok (self <| log_level := hev_config_parse_log_level value |>, t)
  else if negb (strcmp key "limit-nofile") then '(n, _) ← strtol (value ++ [x00]) 10; Ok (self <| limit_nofile := i32 n |>, t)
  else Ok (self, t).
Definition store_timeouts (t : timeouts) self : HevConfig :=
  let tcp := if tcp_rw_timeout t <=? 0 then rw_timeout t else tcp_rw_timeout t in
  let udp := if udp_rw_timeout t <=? 0 then rw_timeout t else udp_rw_timeout t in
  let self := if 0 <? tcp then self <| tcp_read_write_timeout := tcp |> else self in
  if 0 <? udp then self <| udp_read_write_timeout := udp |> else self.
Definition hev_config_parse_misc (doc : yaml_document_t) (base : option yaml_node_t) self : res (HevConfig * Z) :=
  match base with
  | Some (YAML_MAPPING_NODE pairs) =>
      '(self, t, _) ← over_pairs doc (scalars set_misc) pairs (self, Locals (-1) (-1) (-1));
      Ok (store_timeouts t self, 0)
  | _ => Ok (self, -1)
  end.

(** ** The document *)

Definition doc_body (doc : yaml_document_t) (key : mem) (node : option yaml_node_t) self : res (walk HevConfig) :=
  '(self, res) ←
    (if negb (strcmp key "tunnel") then hev_config_parse_tunnel doc node self
     else if negb (strcmp key "socks5") then hev_config_parse_socks5 doc node self
     else if negb (strcmp key "mapdns") then hev_config_parse_mapdns doc node self
     else if negb (strcmp key "misc") then hev_config_parse_misc doc node self
     else Ok (self, 0));
  Ok (if res <? 0 then Return self else Next self).
(** the sizes are brought into line *)
Definition fit_sizes self : res HevConfig :=
  let self := if TCP_SND_BUF <? tcp_buffer_size self then self <| tcp_buffer_size := TCP_SND_BUF |> else self in
  udp_buffer_size ← int (UDP_BUF_SIZE * udp_copy_buffer_nums self);
  min_task_stack_size ← int (TASK_STACK_SIZE
    + (if udp_buffer_size <? tcp_buffer_size self then tcp_buffer_size self else udp_buffer_size));
  Ok (if task_stack_size self <? min_task_stack_size then self <| task_stack_size := min_task_stack_size |> else self).
Definition hev_config_parse_doc (doc : yaml_document_t) self : res (HevConfig * Z) :=
  match yaml_document_get_root_node doc with
  | Some (YAML_MAPPING_NODE pairs) =>
      '(self, end_) ← over_pairs doc (doc_body doc) pairs self;
      if negb (end_ : bool) then Ok (self, -1) else
      self ← fit_sizes self; Ok (self, 0)
  | _ => Ok (self, -1)
  end.

(** [initialized], [opened], [loaded]: what [yaml_parser_initialize], [fopen]
    and [yaml_parser_load] answer *)
Definition hev_config_init_from_str (initialized : bool) (loaded : option yaml_document_t) self : res (HevConfig * Z) :=
  let self := hev_config_reset self in
  if negb initialized then Ok (self, -1) else
  match loaded with Some doc => hev_config_parse_doc doc self | None => Ok (self, -1) end.
Definition hev_config_init_from_file (initialized opened : bool) (loaded : option yaml_document_t) self : res (HevConfig * Z) :=
  let self := hev_config_reset self in
  if negb initialized then Ok (self, -1) else
  if negb opened then Ok (self, -1) else
  match loaded with Some doc => hev_config_parse_doc doc self | None => Ok (self, -1) end.
End config.

(** ** What the rest of the program reads *)

(** a string that is set *)
Definition set_string (buf : mem) : res (option mem) :=
  c ← rd buf 0;
  if zb c =? 0 then Ok None else n ← strlen buf; Ok (Some (take (Z.to_nat n) buf)).
Definition hev_config_get_tunnel_name self := set_string (tun_name self).
Definition hev_config_get_tunnel_guid self := set_string (tun_guid self).
Definition hev_config_get_tunnel_ipv4_address self := set_string (tun_ipv4_address self).
Definition hev_config_get_tunnel_ipv6_address self := set_string (tun_ipv6_address self).
Definition hev_config_get_tunnel_post_up_script self := set_string (tun_post_up_script self).
Definition hev_config_get_tunnel_pre_down_script self := set_string (tun_pre_down_script self).
Definition hev_config_get_misc_pid_file self := set_string (pid_file self).
Definition hev_config_get_misc_log_file self : res (option mem) :=
  f ← set_string (log_file self);
  Ok (match f with Some f => if negb (strcmp f "null") then None else Some f | None => None end).

(** an [int] of four bytes in memory *)
Definition int_at (m : mem) : Z := i32 (foldr (λ b v, zb b + 256 * v) 0 m).
Definition hev_config_get_mapdns_address self : Z := int_at (mapdns_address self).
Definition hev_config_get_mapdns_network self : Z := int_at (mapdns_network self).
Definition hev_config_get_mapdns_netmask self : Z := int_at (mapdns_netmask self).

(** the strings of [srv] as the client reads them *)
Definition hev_config_get_socks5_server (self : HevConfig) : HevConfigServer :=
  let srv := cf_srv self in
  ConfigServer (if sv_user srv then Some (c_str (cf_user self)) else None) (if sv_pass srv then Some (c_str (cf_pass self)) else None)
    (sv_mark srv) (sv_udp_in_udp srv) (sv_port srv) (sv_pipeline srv) (sv_fastopen srv) (sv_udp_addr srv) (c_str (sv_addr srv)).
