(* ===== verification/HevConfigSpec.v ===== *)
(** * hev-socks5-tunnel: what the configuration makes of a document

    Whatever document libyaml hands over, reading it goes wrong only when the
    sizes overflow, and leaves settings the sessions can rely on
    ([config_init_safe]). *)

From Stdlib Require Import ZArith Lia Bool List.
From Stdlib Require Import Strings.Byte Strings.String.
From stdpp Require Import base tactics list numbers option.
From S2P Require Import Prelude CMem PacketsHttp HevMappedDnsSpec HevSocks5 HevSocks5Client HevSocks5Udp HevLwip HevLwipSpec HevSessionTcp HevConfig.

(** ** Strings in their arrays *)

Definition array (n : nat) (m : mem) : Prop := ∃ a, m = a ++ [x00] ∧ length m = n.
(** [s], cut to what an array of [n] bytes takes *)
Definition pad (n : nat) (s : mem) : mem := let s := take (n - 1) s in s ++ repeat x00 (n - length s).

Lemma c_str_name_of m : c_name (c_str m).
Proof. induction m as [|c m IH]; simpl; [constructor|]. destruct (Z.eqb_spec (zb c) 0); by constructor. Qed.
Lemma c_str_idem m : c_str (c_str m) = c_str m.
Proof. apply c_str_all, c_str_name_of. Qed.

Lemma repeat_snoc {A} (x : A) n : repeat x (S n) = repeat x n ++ [x].
Proof. rewrite <- repeat_cons. done. Qed.
Lemma array_zeros n : array (S n) (repeat x00 (S n)).
Proof. exists (repeat x00 n). split; [apply repeat_snoc|apply repeat_length]. Qed.
Lemma array_pad n s : (0 < n)%nat → array n (pad n s).
Proof.
  intros Hn. unfold pad. pose proof (length_take s (n - 1)) as Hl. set (t := take (n - 1) s) in *. clearbody t.
  exists (t ++ repeat x00 (n - length t - 1)). rewrite <- app_assoc, <- repeat_snoc.
  replace (S (n - length t - 1)) with (n - length t)%nat by lia. split; [done|]. rewrite length_app, repeat_length. lia.
Qed.

Lemma strncpy_pad n a s k : array n a → k = Z.of_nat n - 1 → strncpy a 0 s k = Ok (pad n (c_str s)).
Proof.
  intros (b & -> & Hl) ->. unfold strncpy, pad. replace (Z.to_nat (Z.of_nat n - 1)) with (n - 1)%nat by lia.
  pose proof (length_take (c_str s) (n - 1)) as Ht. set (t := take (n - 1) (c_str s)) in *. cbv zeta. clearbody t.
  rewrite length_app in Hl. simpl in Hl.
  rewrite memcpy_ok by (unfold len; rewrite ?length_app, ?repeat_length; simpl; lia). f_equal.
  unfold splice, slice. rewrite take_0, !drop_0. cbn [Z.to_nat app].
  rewrite take_ge by (rewrite length_app, repeat_length; lia). rewrite length_app, repeat_length, Nat.add_0_l.
  rewrite drop_app_ge by lia. replace (length t + (n - 1 - length t) - length b)%nat with 0%nat by lia.
  cbn [drop]. rewrite <- app_assoc, <- repeat_snoc. do 2 f_equal. lia.
Qed.

(** what a getter makes of an array *)
Lemma set_string_array n a : array n a → set_string a = Ok (if bool_decide (c_str a = []) then None else Some (c_str a)).
Proof.
  intros (b & -> & _). assert (Hlt : len (c_str (b ++ [x00])) < len (b ++ [x00])).
  { induction b as [|c b IH]; [done|]. cbn [app c_str]. destruct (_ =? 0); rewrite ?len_cons in *; [|lia].
    change (len []) with 0. pose proof (len_nonneg (b ++ [x00])). lia. }
  assert (Hp : take (length (c_str (b ++ [x00]))) (b ++ [x00]) = c_str (b ++ [x00])).
  { clear Hlt. induction b as [|c b IH]; [done|]. cbn [app c_str]. destruct (_ =? 0); [done|]. simpl. by rewrite IH. }
  destruct (b ++ [x00]) as [|c m]; [change (len (c_str [])) with 0 in Hlt; by change (len []) with 0 in Hlt|].
  unfold set_string. change (rd (c :: m) 0) with (Ok c). rewrite bind_Ok. cbn [c_str] in Hlt, Hp |- *.
  destruct (zb c =? 0) eqn:E; [done|]. unfold strlen. cbv zeta. cbn [c_str]. rewrite E.
  rewrite (proj2 (Z.ltb_lt _ _)), bind_Ok, to_nat_len, Hp by done. done.
Qed.

(** ** Numbers *)

Lemma strtoul_total s base : base = 10 ∨ base = 0 → wp (strtoul s base) (λ _, True).
Proof.
  intros Hb. unfold strtoul. destruct (skip_space_ok s 0) as (l & j & -> & Hl). rewrite bind_Ok. cbv beta iota.
  apply wp_bind. eapply wp_mono; [by apply ended_head|]. intros c Hc.
  assert (Hs : ∀ l2 k2, ended l2 → wp ('(bs, l3, k3) ← strtol_base base l2 k2; '(v, _, sn) ← strtol_digits bs l3 0 k3 false;
    Ok (if negb sn then 0 else if ULONG_MAX <? v then ULONG_MAX else if zb c =? 45 then (- v) mod 2 ^ 64 else v)) (λ _, True)).
  { intros l2 k2 H2. apply wp_bind. eapply wp_mono; [by apply base_ok|]. intros [[bs l3] k3] [Hbs (t & Ht)]. simpl in Hbs, Ht. subst l3.
    apply wp_bind. eapply wp_mono; [by apply digits_end|]. by intros [[v k] sn] _. }
  cbv zeta. destruct ((zb c =? 45) || (zb c =? 43)) eqn:E; apply Hs; [apply Hc; lia|done].
Qed.
(** a number in decimal *)
Lemma strtoul_number text n base : number text n → n <= ULONG_MAX → base = 10 ∨ base = 0 ∧ head text ≠ Some x30 →
  strtoul text base = Ok n.
Proof.
  intros (Hne & Hd & <-) Hn Hb. destruct text as [|b l]; [done|]. pose proof Hd as [Hdb _]%Forall_cons_iff.
  unfold strtoul. cbn [app skip_space]. rewrite isdigit_not_space by done. rewrite bind_Ok. cbn [rd_list]. rewrite bind_Ok.
  assert (zb b ≠ 45 ∧ zb b ≠ 43) by (unfold is_dec, isdigit in Hdb; lia). cbv zeta.
  rewrite !(proj2 (Z.eqb_neq _ _)) by lia. cbn [orb]. change (b :: l ++ [x00]) with ((b :: l) ++ [x00]).
  assert (Hbase : strtol_base base ((b :: l) ++ [x00]) 0 = Ok (10, (b :: l) ++ [x00], 0)).
  { destruct Hb as [->|[-> Hh]]; [done|]. unfold strtol_base. cbn [Z.eqb app rd_list]. rewrite bind_Ok.
    destruct (Z.eqb_spec (zb b) 48) as [E|]; [|done]. destruct Hh. simpl. f_equal. by apply zb_inj. }
  rewrite Hbase, bind_Ok. rewrite strtol_digits_dec by done. rewrite bind_Ok. simpl.
  by rewrite (proj2 (Z.ltb_ge _ _)).
Qed.

(** ** Every document *)

(** the arrays end in a zero, user name and password come together *)
Record config_ok (c : HevConfig) : Prop := ConfigOk {
  co_name : array 64 (tun_name c); co_guid : array 64 (tun_guid c);
  co_ipv4 : array 16 (tun_ipv4_address c); co_ipv6 : array 64 (tun_ipv6_address c);
  co_up : array 1024 (tun_post_up_script c); co_down : array 1024 (tun_pre_down_script c);
  co_user : array 256 (cf_user c); co_pass : array 256 (cf_pass c);
  co_both : sv_user (cf_srv c) = sv_pass (cf_srv c);
  co_port : 0 <= sv_port (cf_srv c) < 2 ^ 16;
  co_udp_addr : array 256 (sv_udp_addr (cf_srv c)); co_addr : array 256 (sv_addr (cf_srv c));
  co_dns : length (mapdns_address c) = 4%nat; co_network : length (mapdns_network c) = 4%nat;
  co_netmask : length (mapdns_netmask c) = 4%nat;
  co_log : array 1024 (log_file c); co_pid : array 1024 (pid_file c);
  co_tcp : 0 < tcp_read_write_timeout c; co_udp : 0 < udp_read_write_timeout c
}.

(** room on a task's stack for what its session puts there, compared as [int]s *)
Definition sizes_fit (c : HevConfig) : Prop :=
  tcp_buffer_size c <= TCP_SND_BUF ∧ TASK_STACK_SIZE + tcp_buffer_size c <= task_stack_size c
  ∧ TASK_STACK_SIZE + UDP_BUF_SIZE * udp_copy_buffer_nums c <= task_stack_size c.

Lemma wp_strncpy n a s k (Q : mem → Prop) : array n a → k = Z.of_nat n - 1 → (∀ m, array n m → Q m) → wp (strncpy a 0 s k) Q.
Proof.
  intros Ha Hk HQ. rewrite (strncpy_pad n) by done. apply HQ, array_pad. destruct Ha as (b & -> & <-). rewrite length_app. simpl. lia.
Qed.
Lemma wp_strtoul s base (Q : Z → Prop) : base = 10 ∨ base = 0 → (∀ n, Q n) → wp (strtoul s base) Q.
Proof. intros Hb HQ. eapply wp_mono; [by apply strtoul_total|]. intros n _. apply HQ. Qed.

Lemma over_pairs_inv {S} doc (body : mem → option yaml_node_t → S → res (walk S)) (I : S → Prop) pairs s :
  (∀ key node s, I s → wp (body key node s) (λ w, match w with Next s | Leave s | Return s => I s end)) → I s →
  wp (over_pairs doc body pairs s) (λ r, I r.1).
Proof.
  intros Hb. revert s. induction pairs as [|[k v] pairs IH]; intros s Hs; [done|]. cbn [over_pairs].
  destruct (_ || _); [by apply IH|]. destruct (yaml_document_get_node doc k) as [[key| |]|]; try done.
  apply wp_bind. eapply wp_mono; [by apply Hb|]. intros [s'|s'|s'] H'; [by apply IH|done..].
Qed.
Lemma scalars_inv {S} (set : mem → mem → S → res S) (I : S → Prop) key node s :
  (∀ value, wp (set key value s) I) → I s →
  wp (scalars set key node s) (λ w, match w with Next s | Leave s | Return s => I s end).
Proof. intros Hset Hs. destruct node as [[v| |]|]; try done. simpl. apply wp_bind. eapply wp_mono; [apply Hset|]. done. Qed.

(** one setting: the cases of a chain of comparisons *)
Ltac keep H := destruct H; simpl; by split.
Ltac one_setting H :=
  repeat match goal with |- wp (if ?b then _ else _) _ => destruct b end;
  try match goal with |- wp (bind _ _) _ => apply wp_bind end;
  first [ keep H
        | eapply wp_strncpy; [apply H|done|]; intros ??; keep H
        | apply wp_strtoul; [by left|]; intros ?; keep H
        | idtac ].

Section safe.
Context (inet_pton : mem → option mem).
Hypothesis inet_pton_4 : ∀ s a, inet_pton s = Some a → length a = 4%nat.
Implicit Types (c : HevConfig).

Lemma set_tunnel_ok key value c : config_ok c → wp (set_tunnel key value c) config_ok.
Proof. intros H. unfold set_tunnel. one_setting H. Qed.
Lemma tunnel_ipv4_ok doc node c : config_ok c → wp (hev_config_parse_tunnel_ipv4 doc node c) (λ r, config_ok r.1).
Proof.
  intros H. destruct node; try done. simpl. apply wp_bind. eapply wp_mono; [apply (over_pairs_inv _ _ config_ok); [|done]|by intros []].
  intros key node s Hs. apply scalars_inv; [|done]. intros v. unfold set_tunnel_ipv4. one_setting Hs.
Qed.
Lemma tunnel_ipv6_ok doc node c : config_ok c → wp (hev_config_parse_tunnel_ipv6 doc node c) (λ r, config_ok r.1).
Proof.
  intros H. destruct node; try done. simpl. apply wp_bind. eapply wp_mono; [apply (over_pairs_inv _ _ config_ok); [|done]|by intros []].
  intros key node s Hs. apply scalars_inv; [|done]. intros v. unfold set_tunnel_ipv6. one_setting Hs.
Qed.
Lemma parse_tunnel_ok doc node c : config_ok c → wp (hev_config_parse_tunnel doc node c) (λ r, config_ok r.1).
Proof.
  intros H. destruct node as [[]|]; try done. simpl. apply wp_bind. eapply wp_mono; [apply (over_pairs_inv _ _ config_ok); [|done]|by intros []].
  intros key node s Hs. unfold tunnel_body. assert (Hn : ∀ node,
    wp (if negb (strcmp key "ipv4") then '(s, _) ← hev_config_parse_tunnel_ipv4 doc node s; Ok (Next s)
        else if negb (strcmp key "ipv6") then '(s, _) ← hev_config_parse_tunnel_ipv6 doc node s; Ok (Next s) else Ok (Next s))
      (λ w, match w with Next s | Leave s | Return s => config_ok s end)).
  { intros n. destruct (negb _); [apply wp_bind; eapply wp_mono; [by apply tunnel_ipv4_ok|by intros []]|].
    destruct (negb _); [apply wp_bind; eapply wp_mono; [by apply tunnel_ipv6_ok|by intros []]|done]. }
  destruct node as [[v|l|l]|]; [|apply Hn..|done]. apply wp_bind. eapply wp_mono; [by apply set_tunnel_ok|done].
Qed.

Lemma store_socks5_ok addr port s c : config_ok c → wp (store_socks5 addr port s c) config_ok.
Proof.
  intros H. unfold store_socks5. apply wp_bind. eapply wp_strncpy; [apply H|done|]. intros a Ha.
  apply wp_bind, wp_strtoul; [by left|]. intros p. cbv zeta.
  assert (Hp : 0 <= u16 p < 2 ^ 16) by apply u16_range.
  set (good := λ srv, sv_user srv = sv_pass srv ∧ 0 <= sv_port srv < 2 ^ 16 ∧ array 256 (sv_udp_addr srv) ∧ array 256 (sv_addr srv)).
  set (srv0 := cf_srv c <| sv_addr := a |> <| sv_port := u16 p |>).
  assert (H1 : good (socks5_modes s srv0)).
  { assert (H0 : good srv0) by (by destruct H; split). unfold socks5_modes.
    destruct (se_udpm s); [destruct (negb _)|]; (destruct (se_pipe s); [destruct (negb _)|]); exact H0. }
  generalize dependent (socks5_modes s srv0). intros srv1 H1.
  apply wp_bind. apply (wp_mono _ good).
  { destruct (se_udpa s); [|done]. destruct H1 as (?&?&Hu&?). apply wp_bind. eapply wp_strncpy; [exact Hu|done|]. by intros m Hm. }
  intros srv2 H2. apply wp_bind. apply (wp_mono _ (λ r, config_ok r.1 ∧ good r.2)).
  { destruct (se_user s), (se_pass s); try done. apply wp_bind. eapply wp_strncpy; [apply H|done|]. intros u Hu.
    apply wp_bind. eapply wp_strncpy; [apply H|done|]. intros q Hq. split; [by destruct H; split|]. by destruct H2 as (?&?&?&?). }
  intros [c' srv3] [Hc H3]. apply wp_bind. apply (wp_mono _ good).
  { destruct (se_mark s); [|done]. apply wp_bind, wp_strtoul; [by right|]. intros m. exact H3. }
  intros srv4 H4. assert (H5 : good (match se_tfso s with Some t => srv4 <| sv_fastopen := if negb (strcasecmp t "true") then 1 else 0 |> | None => srv4 end))
    by (by destruct (se_tfso s)).
  destruct Hc, H5 as (?&?&?&?). by split.
Qed.
Lemma parse_socks5_ok doc node c : config_ok c → wp (hev_config_parse_socks5 doc node c) (λ r, config_ok r.1).
Proof.
  intros H. destruct node as [[]|]; try done. simpl. apply wp_bind. eapply wp_mono; [apply (over_pairs_inv _ _ (λ _, True)); [|done]|].
  - intros key node s _. by apply scalars_inv.
  - intros [s e] _. destruct (se_port s), (se_addr s); try done. destruct (xorb _ _); [done|]. apply wp_bind.
    eapply wp_mono; [by apply store_socks5_ok|done].
Qed.

Lemma parse_mapdns_ok doc node c : config_ok c → wp (hev_config_parse_mapdns inet_pton doc node c) (λ r, config_ok r.1).
Proof.
  intros H. destruct node as [[]|]; try done. simpl. apply wp_bind. eapply wp_mono; [apply (over_pairs_inv _ _ config_ok); [|done]|].
  - intros key node s Hs. apply scalars_inv; [|done]. intros v. unfold set_mapdns. one_setting Hs;
      (destruct (inet_pton v) as [a|] eqn:E; [apply inet_pton_4 in E|]); keep Hs.
  - intros [s e] Hs. simpl in *. destruct Hs. split; simpl; rewrite ?length_rev; done.
Qed.
Lemma parse_misc_ok doc node c : config_ok c → wp (hev_config_parse_misc doc node c) (λ r, config_ok r.1).
Proof.
  intros H. destruct node as [[]|]; try done. simpl. apply wp_bind.
  eapply wp_mono; [apply (over_pairs_inv _ _ (λ st : HevConfig * timeouts, config_ok st.1)); [|done]|].
  - intros key node [s t] Hs. apply scalars_inv; [|done]. intros v. unfold set_misc. cbv zeta. simpl in Hs. one_setting Hs.
    eapply wp_mono; [apply strtol_total; by left|]. intros [n k] _. keep Hs.
  - intros [[s t] e] Hs. simpl in *. unfold store_timeouts. destruct Hs.
    destruct (Z.ltb_spec 0 (if tcp_rw_timeout t <=? 0 then rw_timeout t else tcp_rw_timeout t)),
      (Z.ltb_spec 0 (if udp_rw_timeout t <=? 0 then rw_timeout t else udp_rw_timeout t)); by split.
Qed.

Lemma sections_ok doc pairs c : config_ok c → wp (over_pairs doc (doc_body inet_pton doc) pairs c) (λ r, config_ok r.1).
Proof.
  intros H. apply over_pairs_inv; [|done]. intros key node s Hs. unfold doc_body. apply wp_bind.
  eapply (wp_mono _ (λ r, config_ok r.1)); [|by intros [s' r] Hs'; destruct (r <? 0)].
  repeat (destruct (negb _)); [by apply parse_tunnel_ok|by apply parse_socks5_ok|by apply parse_mapdns_ok|by apply parse_misc_ok|done].
Qed.

Lemma reset_ok c : array 256 (cf_user c) → array 256 (cf_pass c) → config_ok (hev_config_reset c).
Proof. intros Hu Hp. split; simpl; try done; apply array_zeros. Qed.

Definition in_int (x : Z) : Prop := - 2 ^ 31 <= x < 2 ^ 31.
Lemma int_ok x : in_int x → int x = Ok x.
Proof. intros []. unfold int. by rewrite (proj2 (Z.leb_le _ _)), (proj2 (Z.ltb_lt _ _)). Qed.
Lemma int_no x : ¬ in_int x → int x = UB.
Proof. intros H. unfold int. destruct (Z.leb_spec (- 2 ^ 31) x), (Z.ltb_spec x (2 ^ 31)); try done. by destruct H. Qed.
Lemma fit_sizes_ok c : config_ok c → in_int (UDP_BUF_SIZE * udp_copy_buffer_nums c) →
  in_int (TASK_STACK_SIZE + UDP_BUF_SIZE * udp_copy_buffer_nums c) → wp (fit_sizes c) (λ c', config_ok c' ∧ sizes_fit c').
Proof.
  intros H H1 H2. unfold fit_sizes.
  set (c1 := if TCP_SND_BUF <? tcp_buffer_size c then c <| tcp_buffer_size := TCP_SND_BUF |> else c). cbv zeta.
  assert (Hc : config_ok c1 ∧ tcp_buffer_size c1 <= TCP_SND_BUF ∧ udp_copy_buffer_nums c1 = udp_copy_buffer_nums c).
  { unfold c1. destruct (Z.ltb_spec TCP_SND_BUF (tcp_buffer_size c)); [|done]. split; [keep H|done]. }
  clearbody c1. destruct Hc as (Hc & Ht & E). rewrite E, int_ok, bind_Ok by done.
  rewrite int_ok, bind_Ok.
  2:{ destruct (Z.ltb_spec (UDP_BUF_SIZE * udp_copy_buffer_nums c) (tcp_buffer_size c1)); [|done].
      unfold in_int, TASK_STACK_SIZE, TCP_SND_BUF, TCP_MSS in *. lia. }
  destruct (Z.ltb_spec (UDP_BUF_SIZE * udp_copy_buffer_nums c) (tcp_buffer_size c1));
    match goal with |- context [task_stack_size c1 <? ?x] => destruct (Z.ltb_spec (task_stack_size c1) x) end;
    simpl; (split; [first [exact Hc|keep Hc]|]); unfold sizes_fit; simpl; rewrite ?E; lia.
Qed.

Lemma fit_sizes_overflow c :
  ¬ (in_int (UDP_BUF_SIZE * udp_copy_buffer_nums c) ∧ in_int (TASK_STACK_SIZE + UDP_BUF_SIZE * udp_copy_buffer_nums c)) →
  fit_sizes c = UB.
Proof.
  intros Hno. unfold fit_sizes.
  set (c1 := if TCP_SND_BUF <? tcp_buffer_size c then c <| tcp_buffer_size := TCP_SND_BUF |> else c). cbv zeta.
  assert (Hc : tcp_buffer_size c1 <= TCP_SND_BUF ∧ udp_copy_buffer_nums c1 = udp_copy_buffer_nums c).
  { unfold c1. by destruct (Z.ltb_spec TCP_SND_BUF (tcp_buffer_size c)). }
  clearbody c1. destruct Hc as (Ht & ->). set (u := UDP_BUF_SIZE * udp_copy_buffer_nums c) in *. clearbody u.
  destruct (decide (in_int u)) as [Hu|Hu]; [|by rewrite int_no]. rewrite int_ok, bind_Ok by done.
  rewrite int_no; [done|]. intros Hin. apply Hno. split; [done|]. unfold in_int, TASK_STACK_SIZE, TCP_SND_BUF, TCP_MSS in *.
  destruct (Z.ltb_spec u (tcp_buffer_size c1)); lia.
Qed.

(** the strings the getters return *)
Definition strings (c : HevConfig) : list (res (option mem)) :=
  [hev_config_get_tunnel_name c; hev_config_get_tunnel_guid c; hev_config_get_tunnel_ipv4_address c;
   hev_config_get_tunnel_ipv6_address c; hev_config_get_tunnel_post_up_script c; hev_config_get_tunnel_pre_down_script c;
   hev_config_get_misc_pid_file c; hev_config_get_misc_log_file c].
Lemma strings_end c : config_ok c → Forall (λ r, wp r (λ s, True)) (strings c).
Proof.
  intros H. unfold strings, hev_config_get_tunnel_name, hev_config_get_tunnel_guid, hev_config_get_tunnel_ipv4_address,
    hev_config_get_tunnel_ipv6_address, hev_config_get_tunnel_post_up_script, hev_config_get_tunnel_pre_down_script,
    hev_config_get_misc_pid_file, hev_config_get_misc_log_file.
  rewrite (set_string_array _ _ (co_name _ H)), (set_string_array _ _ (co_guid _ H)), (set_string_array _ _ (co_ipv4 _ H)),
    (set_string_array _ _ (co_ipv6 _ H)), (set_string_array _ _ (co_up _ H)), (set_string_array _ _ (co_down _ H)),
    (set_string_array _ _ (co_pid _ H)), (set_string_array _ _ (co_log _ H)). by repeat constructor.
Qed.

(** C34: reading a document that libyaml made, whatever it holds, goes wrong
    only when the sizes it asks for overflow an [int].  Otherwise it fails, or
    leaves settings the rest of the program can rely on: every string ends
    inside its array and can be read, a user name is set exactly when a password
    is, the read-write timeouts are positive (the connect timeout is taken as it
    is given, zero too), TCP's buffer is at most [TCP_SND_BUF], and, as far as
    the sizes are not negative as [int]s, the stack of a task has room for the
    buffers of its session ([sizes_fit] compares [int]s, as the code does:
    [negative_size_kept]). *)
Theorem config_init_safe c initialized loaded : array 256 (cf_user c) → array 256 (cf_pass c) →
  match hev_config_init_from_str inet_pton initialized loaded c with
  | Ok (c', r) => config_ok c' ∧ Forall (λ s, wp s (λ _, True)) (strings c') ∧ (r = -1 ∨ r = 0 ∧ sizes_fit c')
  | UB => ∃ doc pairs c', loaded = Some doc ∧ yaml_document_get_root_node doc = Some (YAML_MAPPING_NODE pairs)
      ∧ over_pairs doc (doc_body inet_pton doc) pairs (hev_config_reset c) = Ok (c', true)
      ∧ ¬ (in_int (UDP_BUF_SIZE * udp_copy_buffer_nums c') ∧ in_int (TASK_STACK_SIZE + UDP_BUF_SIZE * udp_copy_buffer_nums c'))
  | NoFuel => False
  end.
Proof.
  intros Hu Hp. pose proof (reset_ok c Hu Hp) as Hr. unfold hev_config_init_from_str. cbv zeta.
  assert (Hfail : ∀ c', config_ok c' → config_ok c' ∧ Forall (λ s, wp s (λ _, True)) (strings c') ∧ (-1 = -1 ∨ -1 = 0 ∧ sizes_fit c'))
    by (intros c' H'; split; [done|]; split; [by apply strings_end|by left]).
  destruct initialized; [|by apply Hfail]. cbn [negb]. destruct loaded as [doc|]; [|by apply Hfail].
  unfold hev_config_parse_doc. destruct (yaml_document_get_root_node doc) as [[|items|pairs]|] eqn:Er; try by apply Hfail.
  pose proof (sections_ok doc pairs _ Hr) as Hs. apply wp_iff in Hs as ([c1 e] & E & H1). simpl in H1. rewrite E, bind_Ok.
  destruct e; cbn [negb]; [|by apply Hfail].
  destruct (decide (in_int (UDP_BUF_SIZE * udp_copy_buffer_nums c1) ∧ in_int (TASK_STACK_SIZE + UDP_BUF_SIZE * udp_copy_buffer_nums c1)))
    as [[Hi1 Hi2]|Hno].
  - pose proof (fit_sizes_ok c1 H1 Hi1 Hi2) as (c2 & -> & H2 & Hf)%wp_iff. rewrite bind_Ok. split; [done|].
    split; [by apply strings_end|by right].
  - rewrite fit_sizes_overflow by done. cbn [bind]. by exists doc, pairs, c1.
Qed.
End safe.

(** ** Example: a number of buffers that does not fit *)

Definition no_quad (s : mem) : option mem := None.
Definition blank : HevConfig := hev_config_reset
  (Config [] [] 0 false false [] [] [] [] (ServerVar false false 0 false 0 false 0 [] []) (repeat x00 256) (repeat x00 256)
     [] 0 [] [] 0 [] [] 0 0 0 0 0 0 0 0 0 0).
Definition greedy_yml : yaml_document_t :=
  [YAML_MAPPING_NODE [(2, 3)]; YAML_SCALAR_NODE (bytes_of "misc"); YAML_MAPPING_NODE [(4, 5); (6, 7)];
   YAML_SCALAR_NODE (bytes_of "tcp-buffer-size"); YAML_SCALAR_NODE (bytes_of "1000000");
   YAML_SCALAR_NODE (bytes_of "udp-copy-buffer-nums"); YAML_SCALAR_NODE (bytes_of "64")].
Lemma config_init_safe_witness :
  ∃ c', hev_config_init_from_str no_quad true (Some greedy_yml) blank = Ok (c', 0)
    ∧ tcp_buffer_size c' = 65528 ∧ task_stack_size c' = 116480 ∧ config_ok c' ∧ sizes_fit c'.
Proof.
  pose proof (config_init_safe no_quad ltac:(done) blank true (Some greedy_yml) (array_zeros 255) (array_zeros 255)) as H.
  assert (E : ∃ c', hev_config_init_from_str no_quad true (Some greedy_yml) blank = Ok (c', 0) ∧ tcp_buffer_size c' = 65528
    ∧ task_stack_size c' = 116480) by (eexists; split; [vm_compute; reflexivity|by split]).
  destruct E as (c' & E & E1 & E2). exists c'. rewrite E in H. destruct H as (Hc & _ & [Hr|[_ Hf]]); [discriminate|]. done.
Defined.

(** a size that is negative as an [int], and a connect timeout of zero, are kept *)
Definition negative_yml : yaml_document_t :=
  [YAML_MAPPING_NODE [(2, 3)]; YAML_SCALAR_NODE (bytes_of "misc"); YAML_MAPPING_NODE [(4, 5); (6, 7)];
   YAML_SCALAR_NODE (bytes_of "tcp-buffer-size"); YAML_SCALAR_NODE (bytes_of "4294967295");
   YAML_SCALAR_NODE (bytes_of "connect-timeout"); YAML_SCALAR_NODE (bytes_of "0")].
Lemma negative_size_kept :
  ∃ c', hev_config_init_from_str no_quad true (Some negative_yml) blank = Ok (c', 0)
    ∧ tcp_buffer_size c' = -1 ∧ connect_timeout c' = 0.
Proof. eexists. split; [vm_compute; reflexivity|by split]. Qed.

(** * hev-socks5-tunnel: what a configuration file says

    A file is a list of sections, a section a list of settings; a document
    says it when its nodes do, wherever they lie in it, whatever else there is
    and in whatever order.  Reading it sets exactly what it says
    ([config_says_settings]). *)

(** ** Mappings *)

(** the pairs of a mapping say the settings [l]; pairs without a key or a
    value, and those that are [ignored], say nothing *)
Inductive entries {X} (doc : yaml_document_t) (says : X → mem → yaml_node_t → Prop) (ignored : mem → yaml_node_t → Prop)
    : list (Z * Z) → list X → Prop :=
  | entries_nil : entries doc says ignored [] []
  | entries_null k v pairs l : k = 0 ∨ v = 0 → entries doc says ignored pairs l → entries doc says ignored ((k, v) :: pairs) l
  | entries_says k v key node x pairs l :
      yaml_document_get_node doc k = Some (YAML_SCALAR_NODE key) → yaml_document_get_node doc v = Some node →
      says x (c_str key) node → entries doc says ignored pairs l → entries doc says ignored ((k, v) :: pairs) (x :: l)
  | entries_ignored k v key node pairs l :
      yaml_document_get_node doc k = Some (YAML_SCALAR_NODE key) → yaml_document_get_node doc v = Some node →
      ignored (c_str key) node → entries doc says ignored pairs l → entries doc says ignored ((k, v) :: pairs) l.

Lemma node_index doc k n : yaml_document_get_node doc k = Some n → (k =? 0) = false.
Proof. unfold yaml_document_get_node. destruct (Z.ltb_spec 0 k); [|done]. intros _. lia. Qed.

(** settings carried out one by one; [R] relates what the code keeps to what
    is meant *)
Lemma over_entries {X S W} doc says ignored (body : mem → option yaml_node_t → S → res (walk S)) (R : S → W → Prop) (means : W → X → W)
    pairs l s w :
  (∀ x key node s w, says x key node → R s w → ∃ s', body key (Some node) s = Ok (Next s') ∧ R s' (means w x)) →
  (∀ key node s, ignored key node → body key (Some node) s = Ok (Next s)) →
  entries doc says ignored pairs l → R s w →
  ∃ s', over_pairs doc body pairs s = Ok (s', true) ∧ R s' (foldl means w l).
Proof.
  intros Hsays Hign He. revert s w.
  induction He as [|k v pairs l Hkv _ IH|k v key node x pairs l Hk Hv Hx _ IH|k v key node pairs l Hk Hv Hi _ IH]; intros s w HR.
  - by exists s.
  - cbn [over_pairs]. replace ((k =? 0) || (v =? 0)) with true by lia. by apply IH.
  - cbn [over_pairs]. rewrite (node_index _ _ _ Hk), (node_index _ _ _ Hv), Hk, Hv. cbn [orb].
    destruct (Hsays x (c_str key) node s w Hx HR) as (s' & -> & HR'). rewrite bind_Ok. cbn [foldl]. by apply IH.
  - cbn [over_pairs]. rewrite (node_index _ _ _ Hk), (node_index _ _ _ Hv), Hk, Hv. cbn [orb]. rewrite Hign, bind_Ok by done. by apply IH.
Qed.

(** ** Texts *)

Definition text_is (node : yaml_node_t) (text : mem) : Prop := ∃ value, node = YAML_SCALAR_NODE value ∧ c_str value = text.
Definition number_is (node : yaml_node_t) (n : Z) : Prop := ∃ text, text_is node text ∧ number text n.
Definition word (b : bool) (yes no : string) : mem := bytes_of (if b then yes else no).
Definition unknown (keys : list string) (key : mem) : Prop := Forall (λ k, key ≠ bytes_of k) keys.
(** a scalar under a key that is not one of [keys] *)
Definition other (keys : list string) (key : mem) (node : yaml_node_t) : Prop := unknown keys key ∧ ∃ text, text_is node text.

Lemma strcmp_unknown keys k key : unknown keys key → k ∈ keys → strcmp key k = true.
Proof. intros H Hk. unfold strcmp. rewrite bool_decide_eq_false_2; [done|]. unfold unknown in H.
  rewrite Forall_forall in H. apply H. by apply list_elem_of_In. Qed.

(** evaluates the comparisons of known texts *)
Ltac compare :=
  repeat match goal with
    | |- context [strcmp (bytes_of ?a) ?b] => let v := eval vm_compute in (strcmp (bytes_of a) b) in change (strcmp (bytes_of a) b) with v
    | |- context [strcasecmp (bytes_of ?a) ?b] =>
        let v := eval vm_compute in (strcasecmp (bytes_of a) b) in change (strcasecmp (bytes_of a) b) with v
    end; cbn [negb].
Ltac compare_unknown H := repeat (rewrite (strcmp_unknown _ _ _ H) by (apply list_elem_of_In; simpl; auto 20)); cbn [negb].

(** the parts of a conjunction, a text's bytes *)
Ltac said H :=
  repeat match type of H with _ ∧ _ => let H1 := fresh in destruct H as [H1 H]; said H1 end;
  try match type of H with
    | text_is _ _ => let v := fresh "v" in let E := fresh "Ev" in destruct H as (v & -> & E)
    | number_is _ _ => let t := fresh "t" in let v := fresh "v" in let E := fresh "Ev" in let Hn := fresh "Hn" in
        destruct H as (t & (v & -> & E) & Hn)
    | _ = bytes_of _ => subst
    end.

(** ** The tunnel *)

Inductive tunnel_setting : Type :=
  | TunName (s : mem) | TunGuid (s : mem) | TunMtu (n : Z) | TunMultiQueue (b : bool)
  | TunIpv4 (s : mem) | TunIpv6 (s : mem) | TunIcmp (reply : bool) | TunPostUp (s : mem) | TunPreDown (s : mem).

Definition tunnel_keys : list string :=
  ["name"; "guid"; "mtu"; "multi-queue"; "ipv4"; "ipv6"; "icmp"; "post-up-script"; "pre-down-script"]%string.
Definition address_says (s : mem) (key : mem) (node : yaml_node_t) : Prop := key = bytes_of "address" ∧ text_is node s.
(** an address stands there itself, or in a mapping *)
Definition address_is (doc : yaml_document_t) (node : yaml_node_t) (s : mem) : Prop :=
  text_is node s ∨ ∃ pairs, node = YAML_MAPPING_NODE pairs ∧ entries doc address_says (other ["address"%string]) pairs [s].
Definition tunnel_says (doc : yaml_document_t) (x : tunnel_setting) (key : mem) (node : yaml_node_t) : Prop :=
  match x with
  | TunName s => key = bytes_of "name" ∧ text_is node s
  | TunGuid s => key = bytes_of "guid" ∧ text_is node s
  | TunMtu n => key = bytes_of "mtu" ∧ n < 2 ^ 32 ∧ number_is node n
  | TunMultiQueue b => key = bytes_of "multi-queue" ∧ text_is node (word b "true" "false")
  | TunIpv4 s => key = bytes_of "ipv4" ∧ address_is doc node s
  | TunIpv6 s => key = bytes_of "ipv6" ∧ address_is doc node s
  | TunIcmp b => key = bytes_of "icmp" ∧ text_is node (word b "reply" "off")
  | TunPostUp s => key = bytes_of "post-up-script" ∧ text_is node s
  | TunPreDown s => key = bytes_of "pre-down-script" ∧ text_is node s
  end.
Definition tunnel_means (c : HevConfig) (x : tunnel_setting) : HevConfig :=
  match x with
  | TunName s => c <| tun_name := pad 64 s |>
  | TunGuid s => c <| tun_guid := pad 64 s |>
  | TunMtu n => c <| tun_mtu := n |>
  | TunMultiQueue b => c <| multi_queue := b |>
  | TunIpv4 s => c <| tun_ipv4_address := pad 16 s |>
  | TunIpv6 s => c <| tun_ipv6_address := pad 64 s |>
  | TunIcmp b => c <| icmp := b |>
  | TunPostUp s => c <| tun_post_up_script := pad 1024 s |>
  | TunPreDown s => c <| tun_pre_down_script := pad 1024 s |>
  end.

Definition same (c c' : HevConfig) : Prop := c = c' ∧ config_ok c'.

(** a string copied into an array of the settings *)
Ltac copied H n :=
  rewrite (strncpy_pad n) by (first [apply H | done]); rewrite bind_Ok, c_str_idem.
Ltac counted Hn :=
  rewrite (strtoul_number _ _ _ Hn), bind_Ok by (first [by left | unfold ULONG_MAX; lia]).
Ltac kept H := eexists; split; [done|]; split; [done|destruct H; split; simpl; first [done | apply array_pad; lia]].

Lemma set_ipv4_means s key node c w : address_says s key node → same c w →
  ∃ c', scalars set_tunnel_ipv4 key (Some node) c = Ok (Next c') ∧ same c' (w <| tun_ipv4_address := pad 16 s |>).
Proof.
  intros [-> (v & -> & <-)] [-> H]. cbn [scalars]. unfold set_tunnel_ipv4. compare. copied H 16%nat. rewrite bind_Ok. kept H.
Qed.
Lemma set_ipv6_means s key node c w : address_says s key node → same c w →
  ∃ c', scalars set_tunnel_ipv6 key (Some node) c = Ok (Next c') ∧ same c' (w <| tun_ipv6_address := pad 64 s |>).
Proof.
  intros [-> (v & -> & <-)] [-> H]. cbn [scalars]. unfold set_tunnel_ipv6. compare. copied H 64%nat. rewrite bind_Ok. kept H.
Qed.
Lemma scalars_other {S} (set : mem → mem → S → res S) keys key node s :
  (∀ key value, unknown keys key → set key value s = Ok s) → other keys key node → scalars set key (Some node) s = Ok (Next s).
Proof. intros Hset [Hk (t & v & -> & _)]. cbn [scalars]. by rewrite Hset. Qed.

Lemma address4_set doc node s c : address_is doc node s → config_ok c →
  ∃ c', tunnel_body doc (bytes_of "ipv4") (Some node) c = Ok (Next c') ∧ same c' (c <| tun_ipv4_address := pad 16 s |>).
Proof.
  intros [(v & -> & <-)|(pairs & -> & He)] H; cbn [tunnel_body].
  { unfold set_tunnel. compare. copied H 16%nat. kept H. }
  compare. cbn [hev_config_parse_tunnel_ipv4].
  destruct (over_entries doc _ _ (scalars set_tunnel_ipv4) same (λ c s, c <| tun_ipv4_address := pad 16 s |>) pairs [s] c c
    (λ x key node c w, set_ipv4_means x key node c w)
    (λ key node c, scalars_other set_tunnel_ipv4 ["address"%string] key node c
       ltac:(intros k v Hk; unfold set_tunnel_ipv4; compare_unknown Hk; done)) He) as (c' & -> & HR); [done|].
  rewrite !bind_Ok. by eexists.
Qed.
Lemma address6_set doc node s c : address_is doc node s → config_ok c →
  ∃ c', tunnel_body doc (bytes_of "ipv6") (Some node) c = Ok (Next c') ∧ same c' (c <| tun_ipv6_address := pad 64 s |>).
Proof.
  intros [(v & -> & <-)|(pairs & -> & He)] H; cbn [tunnel_body].
  { unfold set_tunnel. compare. copied H 64%nat. kept H. }
  compare. cbn [hev_config_parse_tunnel_ipv6].
  destruct (over_entries doc _ _ (scalars set_tunnel_ipv6) same (λ c s, c <| tun_ipv6_address := pad 64 s |>) pairs [s] c c
    (λ x key node c w, set_ipv6_means x key node c w)
    (λ key node c, scalars_other set_tunnel_ipv6 ["address"%string] key node c
       ltac:(intros k v Hk; unfold set_tunnel_ipv6; compare_unknown Hk; done)) He) as (c' & -> & HR); [done|].
  rewrite !bind_Ok. by eexists.
Qed.

Lemma tunnel_set doc x key node c w : tunnel_says doc x key node → same c w →
  ∃ c', tunnel_body doc key (Some node) c = Ok (Next c') ∧ same c' (tunnel_means w x).
Proof.
  intros Hx [-> H]. destruct x; cbn [tunnel_says tunnel_means] in *; said Hx.
  all: try (by apply address4_set); try (by apply address6_set).
  all: subst; cbn [tunnel_body]; unfold set_tunnel; compare.
  all: match goal with
    | |- context [strncpy _ _ _ 63] => copied H 64%nat
    | |- context [strncpy _ _ _ 1023] => copied H 1024%nat
    | Hn : number _ _ |- _ => counted Hn; rewrite u32_small by (pose proof (number_pos _ _ Hn); lia)
    | E : c_str _ = word ?b _ _ |- _ => rewrite E; destruct b; unfold word; compare
    end; rewrite bind_Ok; kept H.
Qed.
Lemma tunnel_parsed doc pairs l c : entries doc (tunnel_says doc) (other tunnel_keys) pairs l → config_ok c →
  ∃ c', hev_config_parse_tunnel doc (Some (YAML_MAPPING_NODE pairs)) c = Ok (c', 0) ∧ same c' (foldl tunnel_means c l).
Proof.
  intros He H. cbn [hev_config_parse_tunnel].
  destruct (over_entries doc (tunnel_says doc) (other tunnel_keys) (tunnel_body doc) same tunnel_means pairs l c c)
    as (c' & -> & HR); [intros x key node s w; apply tunnel_set| |done|done|].
  - intros key node s [Hk (t & v & -> & _)]. cbn [tunnel_body]. unfold set_tunnel. by compare_unknown Hk.
  - rewrite bind_Ok. by eexists.
Qed.

(** ** The server *)

Inductive server_setting : Type :=
  | SrvPort (n : Z) | SrvAddress (s : mem) | SrvUdp (in_udp : bool) | SrvUdpAddress (s : mem) | SrvPipeline (b : bool)
  | SrvUser (s : mem) | SrvPass (s : mem) | SrvMark (n : Z) | SrvFastopen (b : bool).
Definition server_keys : list string :=
  ["port"; "address"; "udp"; "udp-address"; "pipeline"; "username"; "password"; "mark"; "tcp-fastopen"]%string.
(** a mark in decimal: it does not begin with a zero *)
Definition server_says (x : server_setting) (key : mem) (node : yaml_node_t) : Prop :=
  match x with
  | SrvPort n => key = bytes_of "port" ∧ n < 2 ^ 16 ∧ number_is node n
  | SrvAddress s => key = bytes_of "address" ∧ text_is node s
  | SrvUdp b => key = bytes_of "udp" ∧ text_is node (word b "udp" "tcp")
  | SrvUdpAddress s => key = bytes_of "udp-address" ∧ text_is node s
  | SrvPipeline b => key = bytes_of "pipeline" ∧ text_is node (word b "true" "false")
  | SrvUser s => key = bytes_of "username" ∧ text_is node s
  | SrvPass s => key = bytes_of "password" ∧ text_is node s
  | SrvMark n => key = bytes_of "mark" ∧ n < 2 ^ 32 ∧ ∃ t, text_is node t ∧ number t n ∧ head t ≠ Some x30
  | SrvFastopen b => key = bytes_of "tcp-fastopen" ∧ text_is node (word b "true" "false")
  end.
(** of each setting the last one counts *)
Record server : Type := Server {
  sr_port : option Z; sr_addr : option mem; sr_udp : option bool; sr_udpa : option mem; sr_pipe : option bool;
  sr_user : option mem; sr_pass : option mem; sr_mark : option Z; sr_fast : option bool
}.
#[export] Instance server_eta : Eta server := λ s,
  Server (sr_port s) (sr_addr s) (sr_udp s) (sr_udpa s) (sr_pipe s) (sr_user s) (sr_pass s) (sr_mark s) (sr_fast s).
Definition server_asks (w : server) (x : server_setting) : server :=
  match x with
  | SrvPort n => w <| sr_port := Some n |>
  | SrvAddress s => w <| sr_addr := Some s |>
  | SrvUdp b => w <| sr_udp := Some b |>
  | SrvUdpAddress s => w <| sr_udpa := Some s |>
  | SrvPipeline b => w <| sr_pipe := Some b |>
  | SrvUser s => w <| sr_user := Some s |>
  | SrvPass s => w <| sr_pass := Some s |>
  | SrvMark n => w <| sr_mark := Some n |>
  | SrvFastopen b => w <| sr_fast := Some b |>
  end.
Definition no_server : server := Server None None None None None None None None None.

(** port and address must be there, and a user name only with a password *)
Definition server_means (w : server) (c : HevConfig) : option HevConfig :=
  match sr_port w, sr_addr w with
  | Some port, Some addr =>
      if xorb (bool_decide (is_Some (sr_user w))) (bool_decide (is_Some (sr_pass w))) then None else
      let old := cf_srv c in
      let srv := ServerVar (sv_user old) (sv_pass old) (default (sv_mark old) (sr_mark w))
        (sv_udp_in_udp old || default false (sr_udp w)) port (sv_pipeline old || default false (sr_pipe w))
        (match sr_fast w with Some b => if b then 1 else 0 | None => sv_fastopen old end)
        (match sr_udpa w with Some a => pad 256 a | None => sv_udp_addr old end) (pad 256 addr) in
      Some (match sr_user w, sr_pass w with
            | Some user, Some pass =>
                c <| cf_srv := srv <| sv_user := true |> <| sv_pass := true |> |> <| cf_user := pad 256 user |> <| cf_pass := pad 256 pass |>
            | _, _ => c <| cf_srv := srv |>
            end)
  | _, _ => None
  end.

(** the texts kept are those of the settings *)
Record agree (s : seen) (w : server) : Prop := Agree {
  ag_port : option_Forall2 (λ t n, number t n ∧ n < 2 ^ 16) (se_port s) (sr_port w);
  ag_addr : option_Forall2 (λ t a, t = a ∧ c_str t = t) (se_addr s) (sr_addr w);
  ag_udp : option_Forall2 (λ t b, t = word b "udp" "tcp") (se_udpm s) (sr_udp w);
  ag_udpa : option_Forall2 (λ t a, t = a ∧ c_str t = t) (se_udpa s) (sr_udpa w);
  ag_pipe : option_Forall2 (λ t b, t = word b "true" "false") (se_pipe s) (sr_pipe w);
  ag_user : option_Forall2 (λ t a, t = a ∧ c_str t = t) (se_user s) (sr_user w);
  ag_pass : option_Forall2 (λ t a, t = a ∧ c_str t = t) (se_pass s) (sr_pass w);
  ag_mark : option_Forall2 (λ t n, (number t n ∧ head t ≠ Some x30) ∧ n < 2 ^ 32) (se_mark s) (sr_mark w);
  ag_fast : option_Forall2 (λ t b, t = word b "true" "false") (se_tfso s) (sr_fast w)
}.

Lemma server_set x key node s w : server_says x key node → agree s w →
  ∃ s', scalars set_socks5 key (Some node) s = Ok (Next s') ∧ agree s' (server_asks w x).
Proof.
  intros Hx H. destruct x; cbn [server_says server_asks] in *; said Hx;
    try match goal with Hm : ∃ t, _ |- _ => destruct Hm as (t & (v & -> & Ev) & Hn & Hh) end; subst;
    cbn [scalars]; unfold set_socks5; compare; rewrite bind_Ok; eexists; (split; [done|]);
    destruct H; split; simpl; try done; constructor; rewrite ?c_str_idem; done.
Qed.
Lemma agree_none : agree (Seen None None None None None None None None None) no_server.
Proof. by split; constructor. Qed.

Lemma socks5_modes_means s w srv : agree s w →
  socks5_modes s srv = srv <| sv_pipeline := sv_pipeline srv || default false (sr_pipe w) |>
                           <| sv_udp_in_udp := sv_udp_in_udp srv || default false (sr_udp w) |>.
Proof.
  intros [_ _ Hu _ Hp _ _ _ _]. unfold socks5_modes. destruct srv as [u p m i q l f a b]. simpl.
  destruct Hu as [t x ->|]; [destruct x|]; (destruct Hp as [t' y ->|]; [destruct y|]); unfold word; compare; cbv iota;
    rewrite ?orb_true_r, ?orb_false_r; reflexivity.
Qed.

Lemma store_means s w c port addr p a : agree s w → config_ok c → number port p ∧ p < 2 ^ 16 → addr = a ∧ c_str addr = addr →
  se_port s = Some port → se_addr s = Some addr → sr_port w = Some p → sr_addr w = Some a →
  xorb (bool_decide (is_Some (sr_user w))) (bool_decide (is_Some (sr_pass w))) = false →
  ∃ c', store_socks5 addr port s c = Ok c' ∧ server_means w c = Some c'.
Proof.
  intros Hag H [Hn Hp] [<- Ea] Es1 Es2 Ew1 Ew2 Hx. unfold store_socks5, server_means. rewrite Ew1, Ew2, Hx.
  rewrite (strncpy_pad 256), bind_Ok, Ea by (first [apply H | done]). counted Hn.
  rewrite u16_small by (pose proof (number_pos _ _ Hn); lia). cbv zeta. rewrite (socks5_modes_means s w) by done.
  destruct Hag as [_ _ _ Hua _ Hus Hps Hm Hf]. destruct c as [? ? ? ? ? ? ? ? ? srv ? ?]. destruct srv.
  assert (Hudp := co_udp_addr _ H). assert (Hu := co_user _ H). assert (Hq := co_pass _ H). simpl in Hudp, Hu, Hq |- *.
  assert (Emark : ∀ t n, (number t n ∧ head t ≠ Some x30) ∧ n < 2 ^ 32 → strtoul t 0 = Ok n ∧ u32 n = n).
  { intros t n [[Ht Hh] Hl]. pose proof (number_pos _ _ Ht). split; [|by apply u32_small].
    apply strtoul_number; [done|unfold ULONG_MAX; lia|by right]. }
  destruct Hua as [ua ? [<- Eua]|]; rewrite ?(strncpy_pad 256 _ _ 255 Hudp), ?bind_Ok, ?Eua by done;
    (destruct Hus as [us ? [<- Eus]|], Hps as [ps ? [<- Eps]|]; try discriminate Hx);
    rewrite ?(strncpy_pad 256 _ _ 255 Hu), ?(strncpy_pad 256 _ _ 255 Hq), ?bind_Ok, ?Eus, ?Eps by done;
    rewrite ?(strncpy_pad 256 _ _ 255 Hq), ?bind_Ok, ?Eps by done;
    (destruct Hm as [m ? Hm|]; [destruct (Emark _ _ Hm) as [-> E32]; rewrite bind_Ok, E32|]); rewrite ?bind_Ok;
    (destruct Hf as [f b ->|]; [destruct b; unfold word; compare|]); eexists; split; reflexivity.
Qed.
Lemma server_parsed doc pairs l c : entries doc server_says (other server_keys) pairs l → config_ok c →
  match server_means (foldl server_asks no_server l) c with
  | Some c' => hev_config_parse_socks5 doc (Some (YAML_MAPPING_NODE pairs)) c = Ok (c', 0) ∧ config_ok c'
  | None => hev_config_parse_socks5 doc (Some (YAML_MAPPING_NODE pairs)) c = Ok (c, -1)
  end.
Proof.
  intros He H. pose proof (parse_socks5_ok doc (Some (YAML_MAPPING_NODE pairs)) c H) as Hok. cbn [hev_config_parse_socks5] in *.
  destruct (over_entries doc server_says (other server_keys) (scalars set_socks5) agree server_asks pairs l
    (Seen None None None None None None None None None) no_server) as (s & Es & Hag);
    [intros x key node s w; apply server_set| |done|apply agree_none|].
  { intros key node s Hi. eapply scalars_other; [|done]. intros k v Hk. unfold set_socks5. by compare_unknown Hk. }
  rewrite Es, bind_Ok in Hok |- *. cbv iota in Hok |- *. set (w := foldl server_asks no_server l) in *. clearbody w.
  pose proof Hag as [Hp Ha _ _ _ Hu Hq _ _].
  assert (Eu : bool_decide (is_Some (se_user s)) = bool_decide (is_Some (sr_user w))) by (by destruct Hu).
  assert (Eq : bool_decide (is_Some (se_pass s)) = bool_decide (is_Some (sr_pass w))) by (by destruct Hq).
  rewrite Eu, Eq in *. clear Es Hu Hq.
  destruct (se_port s) as [port|] eqn:Es1, (sr_port w) as [n|] eqn:Ew1; inversion Hp; subst;
    [|by unfold server_means; rewrite Ew1].
  destruct (se_addr s) as [addr|] eqn:Es2, (sr_addr w) as [a|] eqn:Ew2; inversion Ha; subst;
    [|by unfold server_means; rewrite Ew1, Ew2].
  destruct (xorb _ _) eqn:Ex; [by unfold server_means; rewrite Ew1, Ew2, Ex|].
  destruct (store_means s w c port addr n a) as (c' & E & ->); try done. rewrite E, bind_Ok in *. by split.
Qed.

(** ** Mapped DNS *)

Inductive mapdns_setting : Type :=
  | DnsAddress (a : mem) | DnsPort (n : Z) | DnsNetwork (a : mem) | DnsNetmask (a : mem) | DnsCacheSize (n : Z).
Definition mapdns_keys : list string := ["address"; "port"; "network"; "netmask"; "cache-size"]%string.

Section text.
Context (inet_pton : mem → option mem).
Hypothesis inet_pton_4 : ∀ s a, inet_pton s = Some a → length a = 4%nat.

(** the four bytes a text stands for *)
Definition quad_is (node : yaml_node_t) (a : mem) : Prop := ∃ t, text_is node t ∧ inet_pton t = Some a.
Definition mapdns_says (x : mapdns_setting) (key : mem) (node : yaml_node_t) : Prop :=
  match x with
  | DnsAddress a => key = bytes_of "address" ∧ quad_is node a
  | DnsPort n => key = bytes_of "port" ∧ n < 2 ^ 31 ∧ number_is node n
  | DnsNetwork a => key = bytes_of "network" ∧ quad_is node a
  | DnsNetmask a => key = bytes_of "netmask" ∧ quad_is node a
  | DnsCacheSize n => key = bytes_of "cache-size" ∧ n < 2 ^ 31 ∧ number_is node n
  end.
Definition mapdns_sets (c : HevConfig) (x : mapdns_setting) : HevConfig :=
  match x with
  | DnsAddress a => c <| mapdns_address := a |>
  | DnsPort n => c <| mapdns_port := n |>
  | DnsNetwork a => c <| mapdns_network := a |>
  | DnsNetmask a => c <| mapdns_netmask := a |>
  | DnsCacheSize n => c <| mapdns_cache_size := n |>
  end.
(** network and netmask are kept as numbers *)
Definition mapdns_means (l : list mapdns_setting) (c : HevConfig) : HevConfig :=
  let c := foldl mapdns_sets c l in c <| mapdns_network := rev (mapdns_network c) |> <| mapdns_netmask := rev (mapdns_netmask c) |>.

Lemma mapdns_set x key node c w : mapdns_says x key node → same c w →
  ∃ c', scalars (set_mapdns inet_pton) key (Some node) c = Ok (Next c') ∧ same c' (mapdns_sets w x).
Proof.
  intros Hx [-> H]. destruct x; cbn [mapdns_says mapdns_sets] in *; said Hx;
    try match goal with Hm : quad_is _ _ |- _ => destruct Hm as (t & (v & -> & Ev) & Hq) end; subst;
    cbn [scalars]; unfold set_mapdns; compare.
  all: try (rewrite Hq; apply inet_pton_4 in Hq).
  all: try match goal with Hn : number _ _ |- _ => counted Hn; rewrite i32_small by (pose proof (number_pos _ _ Hn); lia) end.
  all: rewrite bind_Ok; kept H.
Qed.
Lemma mapdns_parsed doc pairs l c : entries doc mapdns_says (other mapdns_keys) pairs l → config_ok c →
  hev_config_parse_mapdns inet_pton doc (Some (YAML_MAPPING_NODE pairs)) c = Ok (mapdns_means l c, 0) ∧ config_ok (mapdns_means l c).
Proof.
  intros He H. pose proof (parse_mapdns_ok inet_pton inet_pton_4 doc (Some (YAML_MAPPING_NODE pairs)) c H) as Hok.
  cbn [hev_config_parse_mapdns] in *.
  destruct (over_entries doc mapdns_says (other mapdns_keys) (scalars (set_mapdns inet_pton)) same mapdns_sets pairs l c c)
    as (c' & Ec & -> & _); [intros x key node s w; apply mapdns_set| |done|done|].
  { intros key node s Hi. eapply scalars_other; [|done]. intros k v Hk. unfold set_mapdns. by compare_unknown Hk. }
  rewrite Ec, bind_Ok in *. by split.
Qed.

(** ** Miscellaneous *)

Inductive level : Type := Debug | Info | Warn | Error.
Definition level_name (l : level) : string :=
  match l with Debug => "debug" | Info => "info" | Warn => "warn" | Error => "error" end.
Definition level_number (l : level) : Z :=
  match l with Debug => HEV_LOGGER_DEBUG | Info => HEV_LOGGER_INFO | Warn => HEV_LOGGER_WARN | Error => HEV_LOGGER_ERROR end.
Inductive misc_setting : Type :=
  | MiscStack (n : Z) | MiscTcpBuffer (n : Z) | MiscUdpRecvBuffer (n : Z) | MiscUdpBuffers (n : Z) | MiscSessions (n : Z)
  | MiscConnect (n : Z) | MiscTimeout (n : Z) | MiscTcpTimeout (n : Z) | MiscUdpTimeout (n : Z)
  | MiscPidFile (s : mem) | MiscLogFile (s : mem) | MiscLogLevel (l : level) | MiscNofile (n : Z).
Definition misc_keys : list string :=
  ["task-stack-size"; "tcp-buffer-size"; "udp-recv-buffer-size"; "udp-copy-buffer-nums"; "max-session-count"; "connect-timeout";
   "read-write-timeout"; "tcp-read-write-timeout"; "udp-read-write-timeout"; "pid-file"; "log-file"; "log-level"; "limit-nofile"]%string.
Definition small_is (node : yaml_node_t) (n : Z) : Prop := n < 2 ^ 31 ∧ number_is node n.
Definition misc_says (x : misc_setting) (key : mem) (node : yaml_node_t) : Prop :=
  match x with
  | MiscStack n => key = bytes_of "task-stack-size" ∧ small_is node n
  | MiscTcpBuffer n => key = bytes_of "tcp-buffer-size" ∧ small_is node n
  | MiscUdpRecvBuffer n => key = bytes_of "udp-recv-buffer-size" ∧ small_is node n
  | MiscUdpBuffers n => key = bytes_of "udp-copy-buffer-nums" ∧ small_is node n
  | MiscSessions n => key = bytes_of "max-session-count" ∧ small_is node n
  | MiscConnect n => key = bytes_of "connect-timeout" ∧ small_is node n
  | MiscTimeout n => key = bytes_of "read-write-timeout" ∧ small_is node n
  | MiscTcpTimeout n => key = bytes_of "tcp-read-write-timeout" ∧ small_is node n
  | MiscUdpTimeout n => key = bytes_of "udp-read-write-timeout" ∧ small_is node n
  | MiscPidFile s => key = bytes_of "pid-file" ∧ text_is node s
  | MiscLogFile s => key = bytes_of "log-file" ∧ text_is node s
  | MiscLogLevel l => key = bytes_of "log-level" ∧ text_is node (bytes_of (level_name l))
  | MiscNofile n => key = bytes_of "limit-nofile" ∧ small_is node n
  end.
Definition misc_sets (c : HevConfig) (x : misc_setting) : HevConfig :=
  match x with
  | MiscStack n => c <| task_stack_size := n |>
  | MiscTcpBuffer n => c <| tcp_buffer_size := n |>
  | MiscUdpRecvBuffer n => c <| udp_recv_buffer_size := n |>
  | MiscUdpBuffers n => c <| udp_copy_buffer_nums := n |>
  | MiscSessions n => c <| max_session_count := n |>
  | MiscConnect n => c <| connect_timeout := n |>
  | MiscPidFile s => c <| pid_file := pad 1024 s |>
  | MiscLogFile s => c <| log_file := pad 1024 s |>
  | MiscLogLevel l => c <| log_level := level_number l |>
  | MiscNofile n => c <| limit_nofile := n |>
  | _ => c
  end.
(** of the timeouts the last of its kind counts; one for both directions
    stands in where the kind's own is missing or zero *)
Definition last_of {X} (f : X → option Z) (l : list X) : option Z := list.last (omap f l).
Definition timeout_of (own common : option Z) : option Z :=
  match own, common with
  | Some n, _ => if 0 <? n then Some n else match common with Some m => if 0 <? m then Some m else None | None => None end
  | None, Some m => if 0 <? m then Some m else None
  | None, None => None
  end.
Definition misc_means (l : list misc_setting) (c : HevConfig) : HevConfig :=
  let both := last_of (λ x, match x with MiscTimeout n => Some n | _ => None end) l in
  let tcp := timeout_of (last_of (λ x, match x with MiscTcpTimeout n => Some n | _ => None end) l) both in
  let udp := timeout_of (last_of (λ x, match x with MiscUdpTimeout n => Some n | _ => None end) l) both in
  let c := foldl misc_sets c l in
  c <| tcp_read_write_timeout := default (tcp_read_write_timeout c) tcp |>
    <| udp_read_write_timeout := default (udp_read_write_timeout c) udp |>.

Definition local_sets (t : timeouts) (x : misc_setting) : timeouts :=
  match x with
  | MiscTimeout n => t <| rw_timeout := n |>
  | MiscTcpTimeout n => t <| tcp_rw_timeout := n |>
  | MiscUdpTimeout n => t <| udp_rw_timeout := n |>
  | _ => t
  end.

Lemma misc_set x key node (st w : HevConfig * timeouts) : misc_says x key node → st = w ∧ config_ok w.1 →
  ∃ st', scalars set_misc key (Some node) st = Ok (Next st')
    ∧ st' = (misc_sets w.1 x, local_sets w.2 x) ∧ config_ok (misc_sets w.1 x).
Proof.
  intros Hx [-> H]. destruct w as [c t]. simpl in H |- *.
  destruct x; cbn [misc_says misc_sets local_sets] in *; unfold small_is in Hx; said Hx; subst;
    cbn [scalars]; unfold set_misc; cbv zeta; compare.
  all: try match goal with Hn : number _ _ |- _ => pose proof (number_pos _ _ Hn);
         first [counted Hn | destruct (strtol_number _ _ Hn ltac:(unfold LONG_MAX; lia)) as [k ->]; rewrite bind_Ok];
         rewrite i32_small by lia end.
  all: try copied H 1024%nat.
  all: try match goal with E : c_str _ = bytes_of (level_name ?l) |- _ =>
         rewrite E; unfold hev_config_parse_log_level; destruct l; cbn [level_name]; compare end.
  all: rewrite bind_Ok; kept H.
Qed.

Lemma foldl_pair {A B X} (f : A → X → A) (g : B → X → B) l a b :
  foldl (λ (w : A * B) x, (f w.1 x, g w.2 x)) (a, b) l = (foldl f a l, foldl g b l).
Proof. revert a b. induction l as [|x l IH]; intros a b; [done|]. cbn [foldl]. apply IH. Qed.
Lemma last_of_cons {X} (f : X → option Z) x l d :
  default d (last_of f (x :: l)) = default (default d (f x)) (last_of f l).
Proof.
  unfold last_of. cbn [omap list_omap]. destruct (f x) as [y|]; [|done]. rewrite last_cons. by destruct (list.last (omap f l)).
Qed.
Lemma locals_last l t : foldl local_sets t l =
  Locals (default (rw_timeout t) (last_of (λ x, match x with MiscTimeout n => Some n | _ => None end) l))
         (default (tcp_rw_timeout t) (last_of (λ x, match x with MiscTcpTimeout n => Some n | _ => None end) l))
         (default (udp_rw_timeout t) (last_of (λ x, match x with MiscUdpTimeout n => Some n | _ => None end) l)).
Proof.
  revert t. induction l as [|x l IH]; intros t; [by destruct t|]. cbn [foldl]. rewrite IH, !last_of_cons. by destruct x.
Qed.
Lemma store_timeouts_means own own' common c :
  store_timeouts (Locals (default (-1) common) (default (-1) own) (default (-1) own')) c = c <| tcp_read_write_timeout := default (tcp_read_write_timeout c) (timeout_of own common) |>
                         <| udp_read_write_timeout := default (udp_read_write_timeout c) (timeout_of own' common) |>.
Proof.
  unfold store_timeouts. cbn [rw_timeout tcp_rw_timeout udp_rw_timeout]. destruct c. unfold timeout_of.
  destruct own as [o|], own' as [u|], common as [m|]; simpl;
    repeat match goal with |- context [?a <=? ?b] => destruct (Z.leb_spec a b) | |- context [?a <? ?b] => destruct (Z.ltb_spec a b) end;
    first [lia | reflexivity].
Qed.
Lemma misc_parsed doc pairs l c : entries doc misc_says (other misc_keys) pairs l → config_ok c →
  hev_config_parse_misc doc (Some (YAML_MAPPING_NODE pairs)) c = Ok (misc_means l c, 0) ∧ config_ok (misc_means l c).
Proof.
  intros He H. pose proof (parse_misc_ok doc (Some (YAML_MAPPING_NODE pairs)) c H) as Hok. cbn [hev_config_parse_misc] in *.
  destruct (over_entries doc misc_says (other misc_keys) (scalars set_misc) (λ st w, st = w ∧ config_ok w.1)
    (λ w x, (misc_sets w.1 x, local_sets w.2 x)) pairs l (c, Locals (-1) (-1) (-1)) (c, Locals (-1) (-1) (-1)))
    as (st & Es & -> & _); [intros x key node s w; apply misc_set| |done|done|].
  { intros key node [s t] Hi. eapply scalars_other; [|done]. intros k v Hk. unfold set_misc. cbv zeta. by compare_unknown Hk. }
  rewrite Es, bind_Ok, foldl_pair in *. cbv iota in Hok |- *. rewrite locals_last in *. cbn [rw_timeout tcp_rw_timeout udp_rw_timeout] in *.
  rewrite store_timeouts_means in *. by split.
Qed.

(** ** The file *)

Inductive section : Type :=
  | SecTunnel (l : list tunnel_setting) | SecSocks5 (l : list server_setting)
  | SecMapDns (l : list mapdns_setting) | SecMisc (l : list misc_setting).
Definition section_keys : list string := ["tunnel"; "socks5"; "mapdns"; "misc"]%string.
Definition section_says (doc : yaml_document_t) (x : section) (key : mem) (node : yaml_node_t) : Prop :=
  ∃ pairs, node = YAML_MAPPING_NODE pairs ∧
  match x with
  | SecTunnel l => key = bytes_of "tunnel" ∧ entries doc (tunnel_says doc) (other tunnel_keys) pairs l
  | SecSocks5 l => key = bytes_of "socks5" ∧ entries doc server_says (other server_keys) pairs l
  | SecMapDns l => key = bytes_of "mapdns" ∧ entries doc mapdns_says (other mapdns_keys) pairs l
  | SecMisc l => key = bytes_of "misc" ∧ entries doc misc_says (other misc_keys) pairs l
  end.
Definition section_means (x : section) (c : HevConfig) : option HevConfig :=
  match x with
  | SecTunnel l => Some (foldl tunnel_means c l)
  | SecSocks5 l => server_means (foldl server_asks no_server l) c
  | SecMapDns l => Some (mapdns_means l c)
  | SecMisc l => Some (misc_means l c)
  end.
Fixpoint file_means (l : list section) (c : HevConfig) : option HevConfig :=
  match l with
  | [] => Some c
  | x :: l => match section_means x c with Some c => file_means l c | None => None end
  end.

Lemma section_parsed doc x key node c : section_says doc x key node → config_ok c →
  match section_means x c with
  | Some c' => doc_body inet_pton doc key (Some node) c = Ok (Next c') ∧ config_ok c'
  | None => doc_body inet_pton doc key (Some node) c = Ok (Return c)
  end.
Proof.
  intros (pairs & -> & Hx) H. unfold doc_body. destruct x; destruct Hx as [-> He]; compare; cbn [section_means].
  - destruct (tunnel_parsed doc pairs l c He H) as (c' & -> & -> & H'). by rewrite bind_Ok.
  - pose proof (server_parsed doc pairs l c He H) as Hs. destruct (server_means _ c) as [c'|].
    + destruct Hs as [-> H']. by rewrite bind_Ok.
    + by rewrite Hs, bind_Ok.
  - destruct (mapdns_parsed doc pairs l c He H) as [-> H']. by rewrite bind_Ok.
  - destruct (misc_parsed doc pairs l c He H) as [-> H']. by rewrite bind_Ok.
Qed.

Notation elsewhere := (λ key _, unknown section_keys key).
Lemma file_parsed doc pairs l c : entries doc (section_says doc) elsewhere pairs l → config_ok c →
  match file_means l c with
  | Some c' => over_pairs doc (doc_body inet_pton doc) pairs c = Ok (c', true) ∧ config_ok c'
  | None => ∃ c', over_pairs doc (doc_body inet_pton doc) pairs c = Ok (c', false)
  end.
Proof.
  intros He. revert c.
  induction He as [|k v pairs l Hkv _ IH|k v key node x pairs l Hk Hv Hx _ IH|k v key node pairs l Hk Hv Hi _ IH]; intros c H; cbn [over_pairs].
  - done.
  - replace ((k =? 0) || (v =? 0)) with true by lia. by apply IH.
  - rewrite (node_index _ _ _ Hk), (node_index _ _ _ Hv), Hk, Hv. cbn [orb file_means].
    pose proof (section_parsed doc x _ node c Hx H) as Hs. destruct (section_means x c) as [c'|].
    + destruct Hs as [-> H']. rewrite bind_Ok. by apply IH.
    + rewrite Hs, bind_Ok. by eexists.
  - rewrite (node_index _ _ _ Hk), (node_index _ _ _ Hv), Hk, Hv. cbn [orb].
    unfold doc_body at 1 3. compare_unknown Hi. rewrite !bind_Ok. cbn [Z.ltb]. by apply IH.
Qed.

(** no more of the ring buffer than lwIP takes, and stack for the buffers *)
Definition fitted (c : HevConfig) : HevConfig :=
  let size := Z.min (tcp_buffer_size c) TCP_SND_BUF in
  c <| tcp_buffer_size := size |>
    <| task_stack_size := Z.max (task_stack_size c) (TASK_STACK_SIZE + Z.max size (UDP_BUF_SIZE * udp_copy_buffer_nums c)) |>.
Lemma fit_sizes_fitted c : in_int (UDP_BUF_SIZE * udp_copy_buffer_nums c) →
  in_int (TASK_STACK_SIZE + UDP_BUF_SIZE * udp_copy_buffer_nums c) → fit_sizes c = Ok (fitted c).
Proof.
  intros H1 H2. unfold fit_sizes, fitted.
  set (c1 := if TCP_SND_BUF <? tcp_buffer_size c then c <| tcp_buffer_size := TCP_SND_BUF |> else c). cbv zeta.
  assert (E : c1 = c <| tcp_buffer_size := Z.min (tcp_buffer_size c) TCP_SND_BUF |>).
  { unfold c1. destruct (Z.ltb_spec TCP_SND_BUF (tcp_buffer_size c)); [by rewrite Z.min_r by lia|].
    rewrite Z.min_l by lia. by destruct c. }
  rewrite E. simpl. rewrite int_ok, bind_Ok by done. set (u := UDP_BUF_SIZE * udp_copy_buffer_nums c) in *.
  set (t := Z.min (tcp_buffer_size c) TCP_SND_BUF). assert (Ht : t <= TCP_SND_BUF) by lia. clearbody t u.
  replace (if u <? t then t else u) with (Z.max t u) by (destruct (Z.ltb_spec u t); lia).
  rewrite int_ok, bind_Ok by (unfold in_int, TASK_STACK_SIZE, TCP_SND_BUF, TCP_MSS in *; lia).
  destruct (Z.ltb_spec (task_stack_size c) (TASK_STACK_SIZE + Z.max t u)).
  - by rewrite (Z.max_r (task_stack_size c)) by lia.
  - rewrite (Z.max_l (task_stack_size c)) by lia. by destruct c.
Qed.

(** C35: a document that says a file's sections, in whatever order and
    wherever its nodes lie, sets exactly the settings of the file: of each one
    the last, cut to its array, the others as they are by default, and the
    sizes brought into line; it fails when a server has no port, no address,
    or only one of user name and password. *)
Theorem config_says_settings doc pairs l c : array 256 (cf_user c) → array 256 (cf_pass c) →
  yaml_document_get_root_node doc = Some (YAML_MAPPING_NODE pairs) → entries doc (section_says doc) elsewhere pairs l →
  match file_means l (hev_config_reset c) with
  | Some c' =>
      in_int (UDP_BUF_SIZE * udp_copy_buffer_nums c') → in_int (TASK_STACK_SIZE + UDP_BUF_SIZE * udp_copy_buffer_nums c') →
      hev_config_init_from_str inet_pton true (Some doc) c = Ok (fitted c', 0)
  | None => ∃ c', hev_config_init_from_str inet_pton true (Some doc) c = Ok (c', -1)
  end.
Proof.
  intros Hu Hp Hroot He. unfold hev_config_init_from_str. cbn [negb]. cbv zeta. unfold hev_config_parse_doc. rewrite Hroot.
  pose proof (file_parsed doc pairs l _ He (reset_ok c Hu Hp)) as Hf. destruct (file_means l _) as [c'|].
  - destruct Hf as [-> _]. rewrite bind_Ok. cbn [negb]. intros H1 H2. by rewrite fit_sizes_fitted, bind_Ok.
  - destruct Hf as [c' ->]. rewrite bind_Ok. by eexists.
Qed.
End text.

(** ** Example: the settings of conf/main.yml, with a user and mapped DNS *)

Definition pton (s : mem) : option mem :=
  if bool_decide (s = bytes_of "100.64.0.0") then Some [x64; x40; x00; x00]
  else if bool_decide (s = bytes_of "255.192.0.0") then Some [xff; xc0; x00; x00] else None.
Lemma pton_4 s a : pton s = Some a → length a = 4%nat.
Proof. unfold pton. repeat case_bool_decide; by intros [= <-]. Qed.

Definition sc (s : string) : yaml_node_t := YAML_SCALAR_NODE (bytes_of s).
Definition main_yml : yaml_document_t :=
  [YAML_MAPPING_NODE [(2, 3); (4, 5); (6, 7)]; sc "tunnel"; YAML_MAPPING_NODE [(8, 9); (10, 11)];
   sc "socks5"; YAML_MAPPING_NODE [(12, 13); (14, 15); (16, 17); (18, 19); (20, 21)];
   sc "mapdns"; YAML_MAPPING_NODE [(22, 23); (24, 25); (26, 27)];
   sc "name"; sc "tun0"; sc "mtu"; sc "8500"; sc "port"; sc "1080"; sc "address"; sc "127.0.0.1"; sc "udp"; sc "udp";
   sc "username"; sc "anna"; sc "password"; sc "pw";
   sc "network"; sc "100.64.0.0"; sc "netmask"; sc "255.192.0.0"; sc "cache-size"; sc "10000"].
Definition main_file : list section :=
  [SecTunnel [TunName (bytes_of "tun0"); TunMtu 8500];
   SecSocks5 [SrvPort 1080; SrvAddress (bytes_of "127.0.0.1"); SrvUdp true; SrvUser (bytes_of "anna"); SrvPass (bytes_of "pw")];
   SecMapDns [DnsNetwork [x64; x40; x00; x00]; DnsNetmask [xff; xc0; x00; x00]; DnsCacheSize 10000]].
Definition main_settings : HevConfig :=
  match file_means main_file (hev_config_reset blank) with Some c => fitted c | None => blank end.

Lemma config_says_settings_witness :
  hev_config_init_from_str pton true (Some main_yml) blank = Ok (main_settings, 0)
  ∧ hev_config_get_tunnel_name main_settings = Ok (Some (bytes_of "tun0"))
  ∧ hev_config_get_socks5_server main_settings =
      ConfigServer (Some (bytes_of "anna")) (Some (bytes_of "pw")) 0 true 1080 false 0 (repeat x00 256) (bytes_of "127.0.0.1")
  ∧ hev_config_get_mapdns_network main_settings = 100 * 2 ^ 24 + 64 * 2 ^ 16
  ∧ hev_config_get_mapdns_netmask main_settings = - 2 ^ 22.
Proof.
  assert (Ht : ∀ s, text_is (sc s) (bytes_of s) ↔ c_str (bytes_of s) = bytes_of s).
  { intros s. split; [by intros (v & [= <-] & E)|by eexists]. }
  assert (Hn : ∀ s n, number (bytes_of s) n → c_str (bytes_of s) = bytes_of s → number_is (sc s) n)
    by (intros s n H E; exists (bytes_of s); split; [by apply Ht|done]).
  assert (Hq : ∀ s a, pton (bytes_of s) = Some a → c_str (bytes_of s) = bytes_of s → quad_is pton (sc s) a)
    by (intros s a H E; exists (bytes_of s); split; [by apply Ht|done]).
  assert (He : entries main_yml (section_says pton main_yml) (λ key _, unknown section_keys key) [(2, 3); (4, 5); (6, 7)] main_file).
  { repeat (eapply entries_says; [vm_compute; reflexivity|vm_compute; reflexivity| |]); [..|constructor].
    all: eexists; split; [reflexivity|]; split; [reflexivity|].
    all: repeat (eapply entries_says; [vm_compute; reflexivity|vm_compute; reflexivity| |]); try constructor.
    all: try reflexivity. all: try lia.
    all: try (eexists; split; [reflexivity|vm_compute; reflexivity]).
    all: try (split; [lia|]). all: try (apply (Hn "8500"%string)). all: try (apply (Hn "1080"%string)). all: try (apply (Hn "10000"%string)).
    all: try (apply (Hq "100.64.0.0"%string); vm_compute; reflexivity). all: try (apply (Hq "255.192.0.0"%string); vm_compute; reflexivity).
    all: try reflexivity. all: (split; [done|]; split; [repeat constructor|reflexivity]). }
  pose proof (config_says_settings pton pton_4 main_yml _ main_file blank (array_zeros 255) (array_zeros 255) eq_refl He) as H.
  assert (E : file_means main_file (hev_config_reset blank) ≠ None) by (vm_compute; discriminate).
  split; [|split; [|split; [|split]]; vm_compute; reflexivity].
  unfold main_settings. destruct (file_means main_file (hev_config_reset blank)) as [c'|] eqn:Ef; [|destruct (E eq_refl)].
  assert (En : udp_copy_buffer_nums c' = 10) by (vm_compute in Ef; by injection Ef as <-).
  apply H; rewrite En; vm_compute; split; congruence.
Defined.
