(* ===== verification/HevTunnel.v ===== *)
(** * hev-socks5-tunnel, the tunnel: src/hev-socks5-tunnel.c

    The static variables in three groups that do not touch each other: what
    [hev_socks5_tunnel_init] acquires ([HevTunnel]), the sessions
    ([HevSessions]), and what the thread that runs the tunnel shares with
    those that stop it ([HevSync]). *)

From Stdlib Require Import ZArith Lia Bool List.
From Stdlib Require Import Strings.Byte Strings.String.
From stdpp Require Import base tactics list numbers option gmap.
From S2P Require Import Prelude CMem HevList HevMappedDns HevDnsPacket HevIo HevSocks5 HevSocks5Client HevSocks5Udp HevLwip HevSessionTcp HevConfig.

(** ** What the tunnel holds *)

(** what has to be given back, with the handle that stands for it: a pointer
    of lwIP or of the task system, a descriptor, the cache of
    [hev_mapped_dns_put], the device *)
Inductive resource : Type :=
  | Netif (p : Z) | TcpPcb (p : Z) | UdpPcb (p : Z) | Task (p : Z) | Fd (n : Z) | Dns | Device (n : Z).
#[export] Instance resource_eq_dec : EqDecision resource.
Proof. solve_decision. Defined.

(** the static variables (a null pointer is 0), and what exists: [live] has
    every resource that was acquired and not released, also one whose handle
    is lost *)
Record HevTunnel : Type := Tunnel {
  tun_fd : Z; tun_fd_local : bool; event_fds : Z * Z;
  tn_netif : Z; tn_tcp : Z; tn_udp : Z; task_event : Z; task_lwip_io : Z; task_lwip_timer : Z;
  tn_dns : option HevMappedDNS;                      (* of [hev_mapped_dns_get] *)
  stat_tx_packets : Z; stat_rx_packets : Z; stat_tx_bytes : Z; stat_rx_bytes : Z;
  live : list resource
}.
#[export] Instance tunnel_eta : Eta HevTunnel := λ t,
  Tunnel (tun_fd t) (tun_fd_local t) (event_fds t) (tn_netif t) (tn_tcp t) (tn_udp t) (task_event t) (task_lwip_io t)
    (task_lwip_timer t) (tn_dns t) (stat_tx_packets t) (stat_rx_packets t) (stat_tx_bytes t) (stat_rx_bytes t) (live t).

(** the calls whose result decides: a descriptor or a status is negative when
    the call failed, a pointer is null *)
Inductive os_call : Type :=
  | FionbioTun | TunnelOpen | TunnelSetMtu | TunnelSetIpv4 | TunnelSetIpv6 | TunnelSetState
  | NetifAdd | TcpNew | TcpListen | UdpNew | Socketpair | FionbioEvent | TaskNewEvent | TaskNewIo | TaskNewTimer.

Definition acquire (r : resource) (t : HevTunnel) : HevTunnel := t <| live := r :: live t |>.
Fixpoint take_out (r : resource) (l : list resource) : option (list resource) :=
  match l with
  | [] => None
  | x :: l => if decide (x = r) then Some l else match take_out r l with Some l => Some (x :: l) | None => None end
  end.
(** releasing what does not exist (any more) is undefined *)
Definition give_back (r : resource) (t : HevTunnel) : res HevTunnel :=
  match take_out r (live t) with Some l => Ok (t <| live := l |>) | None => UB end.
(** [if (p) { free (p); p = NULL; }], [if (fd >= 0) { close (fd); fd = -1; }]
    without the assignment *)
Definition free_pointer (kind : Z → resource) (p : Z) (t : HevTunnel) : res HevTunnel :=
  if p =? 0 then Ok t else give_back (kind p) t.
Definition close_handle (n : Z) (t : HevTunnel) : res HevTunnel := if 0 <=? n then give_back (Fd n) t else Ok t.

Section init.
(** what the calls answer; the descriptors [socketpair] stores *)
Context (os : os_call → Z) (pair : Z * Z) (cfg : HevConfig).
Implicit Types (t : HevTunnel).

Definition tunnel_init (extern_tun_fd : Z) t : res (HevTunnel * Z) :=
  if 0 <=? extern_tun_fd then
    Ok (if os FionbioTun <? 0 then (t, -1) else (t <| tun_fd := extern_tun_fd |>, 0))
  else
  let t := t <| tun_fd_local := true |> <| tun_fd := os TunnelOpen |> in
  if tun_fd t <? 0 then Ok (t, -1) else
  let t := acquire (Device (tun_fd t)) t in
  if os TunnelSetMtu <? 0 then Ok (t, -1) else
  ipv4 ← hev_config_get_tunnel_ipv4_address cfg;
  if match ipv4 with Some _ => os TunnelSetIpv4 <? 0 | None => false end then Ok (t, -1) else
  ipv6 ← hev_config_get_tunnel_ipv6_address cfg;
  if match ipv6 with Some _ => os TunnelSetIpv6 <? 0 | None => false end then Ok (t, -1) else
  if os TunnelSetState <? 0 then Ok (t, -1) else
  Ok (t, 0).
(** [hev_tunnel_close] *)
Definition tunnel_fini t : res HevTunnel :=
  if negb (tun_fd_local t) then Ok t else
  if 0 <=? tun_fd t then t ← give_back (Device (tun_fd t)) t; Ok (t <| tun_fd_local := false |> <| tun_fd := -1 |>) else Ok t.

(** [tcp_listen] frees the pcb it is given and makes another; without memory
    for that it answers null and leaves the pcb alone.  Its result is not
    checked. *)
Definition gateway_init t : res (HevTunnel * Z) :=
  let t := t <| tn_netif := os NetifAdd |> in
  if tn_netif t =? 0 then Ok (t, -1) else
  let t := acquire (Netif (tn_netif t)) t <| tn_tcp := os TcpNew |> in
  if tn_tcp t =? 0 then Ok (t, -1) else
  let t := acquire (TcpPcb (tn_tcp t)) t in
  t ← (if os TcpListen =? 0 then Ok t
       else t ← give_back (TcpPcb (tn_tcp t)) t; Ok (acquire (TcpPcb (os TcpListen)) t));
  let t := t <| tn_tcp := os TcpListen |> <| tn_udp := os UdpNew |> in
  if tn_udp t =? 0 then Ok (t, -1) else
  Ok (acquire (UdpPcb (tn_udp t)) t, 0).
Definition gateway_fini t : res HevTunnel :=
  t ← free_pointer UdpPcb (tn_udp t) t; let t := t <| tn_udp := 0 |> in
  t ← free_pointer TcpPcb (tn_tcp t) t; let t := t <| tn_tcp := 0 |> in
  t ← free_pointer Netif (tn_netif t) t;
  Ok (t <| tn_netif := 0 |>).

Definition event_task_init t : res (HevTunnel * Z) :=
  if os Socketpair <? 0 then Ok (t, -1) else
  let t := t <| event_fds := pair |> <| live := Fd pair.1 :: Fd pair.2 :: live t |> in
  if os FionbioEvent <? 0 then Ok (t, -1) else
  let t := t <| task_event := os TaskNewEvent |> in
  if task_event t =? 0 then Ok (t, -1) else
  Ok (acquire (Task (task_event t)) t, 0).
Definition event_task_fini t : res HevTunnel :=
  t ← free_pointer Task (task_event t) t; let t := t <| task_event := 0 |> in
  t ← close_handle (event_fds t).1 t; let t := t <| event_fds := (-1, (event_fds t).2) |> in
  t ← close_handle (event_fds t).2 t;
  Ok (t <| event_fds := (-1, -1) |>).
Definition lwip_io_task_init t : res (HevTunnel * Z) :=
  let t := t <| task_lwip_io := os TaskNewIo |> in
  Ok (if task_lwip_io t =? 0 then (t, -1) else (acquire (Task (task_lwip_io t)) t, 0)).
Definition lwip_io_task_fini t : res HevTunnel :=
  t ← free_pointer Task (task_lwip_io t) t; Ok (t <| task_lwip_io := 0 |>).
Definition lwip_timer_task_init t : res (HevTunnel * Z) :=
  let t := t <| task_lwip_timer := os TaskNewTimer |> in
  Ok (if task_lwip_timer t =? 0 then (t, -1) else (acquire (Task (task_lwip_timer t)) t, 0)).
Definition lwip_timer_task_fini t : res HevTunnel :=
  t ← free_pointer Task (task_lwip_timer t) t; Ok (t <| task_lwip_timer := 0 |>).

(** [memory]: is there memory for the cache? *)
Definition mapped_dns_new (memory : bool) : option HevMappedDNS :=
  if memory then hev_mapped_dns_construct (hev_config_get_mapdns_network cfg) (hev_config_get_mapdns_netmask cfg) (mapdns_cache_size cfg)
  else None.
Definition mapped_dns_init (memory : bool) t : res (HevTunnel * Z) :=
  let cache_size := mapdns_cache_size cfg in
  if cache_size =? 0 then Ok (t, 0) else
  Ok match mapped_dns_new memory with
     | Some d => (acquire Dns t <| tn_dns := Some d |>, 0)
     | None => (t, -1)
     end.
Definition mapped_dns_fini t : res HevTunnel :=
  match tn_dns t with
  | Some _ => t ← give_back Dns t; Ok (t <| tn_dns := None |>)
  | None => Ok t
  end.

(** after the wait of [hev_socks5_tunnel_fini] *)
Definition hev_socks5_tunnel_fini t : res HevTunnel :=
  t ← mapped_dns_fini t; t ← lwip_timer_task_fini t; t ← lwip_io_task_fini t;
  t ← event_task_fini t; t ← gateway_fini t; t ← tunnel_fini t;
  Ok (t <| stat_tx_packets := 0 |> <| stat_rx_packets := 0 |> <| stat_tx_bytes := 0 |> <| stat_rx_bytes := 0 |>).

(** each step only when the ones before succeeded; else everything is undone *)
Definition also (m : res (HevTunnel * Z)) (step : HevTunnel → res (HevTunnel * Z)) : res (HevTunnel * Z) :=
  '(t, r) ← m; if r <? 0 then Ok (t, r) else step t.
Definition hev_socks5_tunnel_init (fd : Z) (memory : bool) t : res (HevTunnel * Z) :=
  '(t, r) ← also (also (also (also (also (tunnel_init fd t) gateway_init) event_task_init) lwip_io_task_init) lwip_timer_task_init)
              (mapped_dns_init memory);
  if r <? 0 then t ← hev_socks5_tunnel_fini t; Ok (t, -1) else Ok (t, 0).
End init.

(** *** Packets to and from the device *)

Definition ERR_OK : Z := 0.
Definition ERR_MEM : Z := -1.
Definition ERR_WOULDBLOCK : Z := -7.
Definition ERR_IF : Z := -12.
Definition ERR_RST : Z := -14.
(** [s], [again]: what [hev_tunnel_write] answers *)
Definition netif_output_handler (s : Z) (again : bool) (t : HevTunnel) : HevTunnel * Z :=
  if s <=? 0 then (t, if again then ERR_WOULDBLOCK else ERR_IF)
  else (t <| stat_rx_packets := (stat_rx_packets t + 1) mod 2 ^ 64 |> <| stat_rx_bytes := (stat_rx_bytes t + s) mod 2 ^ 64 |>, ERR_OK).
(** a turn of [lwip_io_task_entry] that read [tot_len] bytes *)
Definition count_input (tot_len : Z) (t : HevTunnel) : HevTunnel :=
  t <| stat_tx_packets := (stat_tx_packets t + 1) mod 2 ^ 64 |> <| stat_tx_bytes := (stat_tx_bytes t + tot_len) mod 2 ^ 64 |>.
Definition hev_socks5_tunnel_stats (t : HevTunnel) : list Z :=
  [stat_tx_packets t; stat_tx_bytes t; stat_rx_packets t; stat_rx_bytes t].

(** ** The sessions *)

Record HevSessions : Type := Sessions {
  ss_count : Z;                   (* session_count *)
  ss_set : HevList;               (* session_set *)
  ss_objects : gmap nat HevSocks5 (* the sessions that are not freed *)
}.
#[export] Instance sessions_eta : Eta HevSessions := λ s, Sessions (ss_count s) (ss_set s) (ss_objects s).

Section sessions.
(** the settings *)
Context (max_session_count : Z).
Implicit Types (s : HevSessions).

Definition terminate s (x : nat) : res HevSessions :=
  match ss_objects s !! x with
  | Some base => Ok (s <| ss_objects := <[x := hev_socks5_session_terminate base]> (ss_objects s) |>)
  | None => UB
  end.
Definition hev_socks5_tunnel_insert_session s (node : nat) : res HevSessions :=
  l ← hev_list_add_tail (ss_set s) node;
  let s := s <| ss_set := l |> <| ss_count := ss_count s + 1 |> in
  if (max_session_count =? 0) || (ss_count s <? max_session_count) then Ok s else
  match hev_list_first (ss_set s) with Some x => terminate s x | None => UB end.
Definition hev_socks5_tunnel_delete_session s (node : nat) : res HevSessions :=
  l ← hev_list_del (ss_set s) node; Ok (s <| ss_set := l |> <| ss_count := ss_count s - 1 |>).
Definition hev_socks5_tunnel_update_session s (node : nat) : res HevSessions :=
  if max_session_count =? 0 then Ok s else
  l ← hev_list_del (ss_set s) node;
  l ← hev_list_add_tail l node;
  Ok (s <| ss_set := l |>).

(** [hev_socks5_session_tcp_new], [_udp_new]; and the last [hev_object_unref] *)
Definition session_new s (x : nat) (base : HevSocks5) : HevSessions :=
  s <| ss_objects := <[x := base]> (ss_objects s) |> <| ss_set := node_alloc (ss_set s) x |>.
Definition session_free s (x : nat) : HevSessions :=
  s <| ss_objects := delete x (ss_objects s) |> <| ss_set := node_free (ss_set s) x |>.

(** the end of [hev_socks5_session_task_entry] *)
Definition hev_socks5_session_task_end s (x : nat) : res HevSessions :=
  s ← hev_socks5_tunnel_delete_session s x; Ok (session_free s x).

(** a session object and its task, from [*_new] on; [None]: no memory.  The
    result says whether the task runs. *)
Definition start_session s (new : option nat) (base : HevSocks5) (task : bool) : res (HevSessions * bool) :=
  match new with
  | None => Ok (s, false)
  | Some x =>
      let s := session_new s x base in
      if negb task then Ok (session_free s x, false) else
      s ← hev_socks5_tunnel_insert_session s x; Ok (s, true)
  end.
Definition tcp_accept_handler s (run : bool) (err : Z) (new : option nat) (task : bool) : res (HevSessions * Z) :=
  if negb (err =? ERR_OK) then Ok (s, err) else
  if negb run then Ok (s, ERR_RST) else
  '(s, ok) ← start_session s new (hev_socks5_construct TYPE_TCP) task;
  Ok (s, if (ok : bool) then ERR_OK else ERR_MEM).

(** what becomes of a UDP pcb *)
Inductive udp_fate : Type := Removed | Answered | Session.
Definition udp_recv_handler s (cfg : HevConfig) (run dns : bool) (addr : ip_addr_t) (port : Z) (new : option nat) (task : bool)
    : res (HevSessions * udp_fate) :=
  if negb run then Ok (s, Removed) else
  if dns && (ip_type addr =? IPADDR_TYPE_V4)
     && ((mapdns_port cfg =? port) && (hev_config_get_mapdns_address cfg =? int_at (ip_bytes addr)))
  then Ok (s, Answered) else
  let type := if sv_udp_in_udp (cf_srv cfg) then TYPE_UDP_IN_UDP else TYPE_UDP_IN_TCP in
  '(s, ok) ← start_session s new (hev_socks5_construct type) task;
  Ok (s, if (ok : bool) then Session else Removed).

(** [event_task_entry] after [run] was cleared *)
Definition terminate_step (st : HevSessions * option nat) : res (HevSessions * option nat + HevSessions) :=
  let '(s, node) := st in
  match node with
  | None => Ok (inr s)
  | Some x =>
      s ← terminate s x;
      next ← hev_list_node_next (ss_set s) x;
      Ok (inl (s, next))
  end.
Definition terminate_all s : res HevSessions :=
  loop (Datatypes.S (size (ss_objects s))) terminate_step (s, hev_list_first (ss_set s)).
End sessions.

(** [dns_recv_handler]: the reply for the payload [p], if one is sent; [b]:
    what the new buffer holds, or no memory *)
Definition dns_recv_handler (alloc : HevMappedDNS → option nat) (dns : HevMappedDNS) (p : mem) (b : option mem)
    : res (HevMappedDNS * option mem) :=
  match b with
  | None => Ok (dns, None)
  | Some b =>
      '(dns, res, b) ← hev_mapped_dns_handle alloc dns p (len p) b (len b);
      if res <? 0 then Ok (dns, None) else Ok (dns, Some (take (Z.to_nat res) b))
  end.

(** ** Starting and stopping *)

Definition SYNC_SEND : Z := 1.
Definition SYNC_SENT : Z := 2.
Definition SYNC_WAIT : Z := 4.
Definition SYNC_STOP : Z := 8.

(** where the thread that runs the tunnel is: outside, in
    [hev_socks5_tunnel_init], before [SYNC_SEND] is set, before
    [hev_socks5_tunnel_run], before [run] is set, in the read of
    [event_task_entry], before its [SYNC_SENT] is taken back, in
    [hev_socks5_tunnel_fini], and there after the wait *)
Inductive runner : Type := Outside | Starting | Started | Ready | Tasks | Reading | Woken | Finishing | Freeing.
(** a call of [hev_socks5_tunnel_stop]: before it has [SYNC_WAIT], after it
    found [SYNC_SEND], before the [write], before it sets [SYNC_STOP], before it
    gives [SYNC_WAIT] back (and whether it found [SYNC_SEND]); [Failed] is the
    failed assertion *)
Inductive stopper : Type := Asking | Found | Writing | Noting | Leaving (found : bool) | Returned (found : bool) | Failed.

Record HevSync : Type := Sync {
  tsync : Z; sy_run : bool; sy_fds : bool; sy_pipe : nat; (* the bytes written and not read *)
  sy_runner : runner; sy_stops : list stopper
}.
#[export] Instance sync_eta : Eta HevSync := λ y, Sync (tsync y) (sy_run y) (sy_fds y) (sy_pipe y) (sy_runner y) (sy_stops y).
Definition sync0 : HevSync := Sync 0 false false 0 Outside [].

(** [atomic_fetch_or (&tsync, bit)], [atomic_fetch_and (&tsync, ~bits)]; is
    [bit] in the result? *)
Definition fetch_or (y : HevSync) (bit : Z) : HevSync := y <| tsync := Z.lor (tsync y) bit |>.
Definition fetch_and_not (y : HevSync) (bits : Z) : HevSync := y <| tsync := Z.land (tsync y) (Z.lnot bits) |>.
Definition has (y : HevSync) (bit : Z) : bool := negb (Z.land (tsync y) bit =? 0).

(** a step of the running thread; [choice] decides what the code does not:
    whether the initialisation succeeds ([Some]: whether it had made the
    socket pair by the time it failed) *)
Definition runner_step (y : HevSync) (choice : option bool) : option HevSync :=
  let at_ y pc := y <| sy_runner := pc |> in
  match sy_runner y with
  | Outside => Some (at_ y Starting)
  | Starting =>
      Some (match choice with
            | None => at_ (y <| sy_fds := true |> <| sy_pipe := 0%nat |>) Started
            | Some fds => at_ (y <| sy_fds := fds |> <| sy_pipe := 0%nat |>) Finishing
            end)
  | Started => Some (at_ (fetch_or y SYNC_SEND) Ready)
  | Ready => Some (at_ (fetch_and_not y SYNC_STOP) (if has y SYNC_STOP then Finishing else Tasks))
  | Tasks => Some (at_ (y <| sy_run := true |>) Reading)
  | Reading => if (sy_pipe y =? 0)%nat then None else Some (at_ (y <| sy_pipe := (sy_pipe y - 4)%nat |> <| sy_run := false |>) Woken)
  | Woken => Some (at_ (fetch_and_not y SYNC_SENT) Finishing)
  | Finishing => Some (at_ (fetch_and_not y (Z.lor SYNC_SEND SYNC_SENT)) (if has y SYNC_WAIT then Finishing else Freeing))
  | Freeing => Some (at_ (y <| sy_fds := false |> <| sy_pipe := 0%nat |>) Outside)
  end.

(** a step of a call of [hev_socks5_tunnel_stop] that is at [pc] *)
Definition stopper_step (y : HevSync) (pc : stopper) : HevSync * stopper :=
  match pc with
  | Asking =>
      (fetch_or y SYNC_WAIT, if has y SYNC_WAIT then Asking else if has y SYNC_SEND then Found else Noting)
  | Found => (fetch_or y SYNC_SENT, if has y SYNC_SENT then Leaving true else Writing)
  | Writing => if sy_fds y then (y <| sy_pipe := S (sy_pipe y) |>, Leaving true) else (y, Failed)
  | Noting => (fetch_or y SYNC_STOP, Leaving false)
  | Leaving found => (fetch_and_not y SYNC_WAIT, Returned found)
  | Returned found => (y, Returned found)
  | Failed => (y, Failed)
  end.

(** any interleaving; calls of [hev_socks5_tunnel_stop] come at any time *)
Inductive sync_reached : HevSync → Prop :=
  | sync_start : sync_reached sync0
  | sync_runner y choice y' : sync_reached y → runner_step y choice = Some y' → sync_reached y'
  | sync_call y : sync_reached y → sync_reached (y <| sy_stops := sy_stops y ++ [Asking] |>)
  | sync_stopper y i pc y' pc' :
      sync_reached y → sy_stops y !! i = Some pc → stopper_step y pc = (y', pc') →
      sync_reached (y' <| sy_stops := <[i := pc']> (sy_stops y') |>).
