(* ===== verification/HevTunnelSpec.v ===== *)
(** * hev-socks5-tunnel: the tunnel starts, stops, and keeps its sessions

    However calls of [hev_socks5_tunnel_stop] and the running thread
    interleave, a call that finds the tunnel ready is heard, and none writes
    to a closed descriptor ([stop_is_heard]); one that comes while the tunnel
    is being made can be lost ([stop_can_be_lost]).  The sessions are listed
    in the order of their last use, and the oldest is ended when there are too
    many ([sessions_lru]).  What the initialisation acquires is released, but
    for the pcb that a failed [tcp_listen] loses ([init_releases]). *)

From Stdlib Require Import ZArith Lia Bool List.
From Stdlib Require Import Strings.Byte Strings.String.
From stdpp Require Import base tactics list numbers option gmap.
From S2P Require Import Prelude CMem HevList HevMappedDns HevIo HevSocks5 HevSocks5Client HevSocks5Udp HevLwip HevSessionTcp HevConfig HevConfigSpec HevTunnel.

(** ** The bits of [tsync] *)

Lemma land_bit x k : 0 <= k → Z.land x (2 ^ k) = if Z.testbit x k then 2 ^ k else 0.
Proof.
  intros Hk. apply Z.bits_inj'. intros n Hn. rewrite Z.land_spec, Z.pow2_bits_eqb by done.
  destruct (Z.eqb_spec k n) as [->|Hne].
  - destruct (Z.testbit x n) eqn:E; [by rewrite Z.pow2_bits_true|by rewrite Z.bits_0].
  - rewrite andb_false_r. destruct (Z.testbit x k); [by rewrite Z.pow2_bits_false by done|by rewrite Z.bits_0].
Qed.
Lemma flag_bit y k : 0 <= k → has y (2 ^ k) = Z.testbit (tsync y) k.
Proof.
  intros Hk. unfold has. rewrite land_bit by done. destruct (Z.testbit _ _); [|done].
  rewrite (proj2 (Z.eqb_neq _ _)); [done|]. pose proof (Z.pow_pos_nonneg 2 k). lia.
Qed.

Record bits : Type := Bits { b_send : bool; b_sent : bool; b_wait : bool; b_stop : bool }.
Definition bits_of (v : Z) : bits := Bits (Z.testbit v 0) (Z.testbit v 1) (Z.testbit v 2) (Z.testbit v 3).
Lemma has_bits y :
  has y SYNC_SEND = b_send (bits_of (tsync y)) ∧ has y SYNC_SENT = b_sent (bits_of (tsync y))
  ∧ has y SYNC_WAIT = b_wait (bits_of (tsync y)) ∧ has y SYNC_STOP = b_stop (bits_of (tsync y)).
Proof.
  split; [exact (flag_bit y 0 (Z.le_refl 0))|]. split; [exact (flag_bit y 1 ltac:(lia))|].
  split; [exact (flag_bit y 2 ltac:(lia))|exact (flag_bit y 3 ltac:(lia))].
Qed.
(** what the program does to them *)
Lemma or_bits v bit : bits_of (Z.lor v bit) =
  Bits (b_send (bits_of v) || Z.testbit bit 0) (b_sent (bits_of v) || Z.testbit bit 1)
       (b_wait (bits_of v) || Z.testbit bit 2) (b_stop (bits_of v) || Z.testbit bit 3).
Proof. unfold bits_of. by rewrite !Z.lor_spec. Qed.
Lemma and_bits v bit : bits_of (Z.land v (Z.lnot bit)) =
  Bits (b_send (bits_of v) && negb (Z.testbit bit 0)) (b_sent (bits_of v) && negb (Z.testbit bit 1))
       (b_wait (bits_of v) && negb (Z.testbit bit 2)) (b_stop (bits_of v) && negb (Z.testbit bit 3)).
Proof. unfold bits_of. by rewrite !Z.land_spec, !Z.lnot_spec by lia. Qed.

(** ** The invariant *)

Definition holds (pc : stopper) : bool := match pc with Found | Writing | Noting | Leaving _ => true | _ => false end.
Definition told (pc : stopper) : bool := match pc with Found | Writing | Leaving true => true | _ => false end.
(** the calls that have [SYNC_WAIT] *)
Definition holders (l : list stopper) : list stopper := List.filter holds l.
Definition holder_is (h : option stopper) (l : list stopper) : Prop := holders l = match h with Some pc => [pc] | None => [] end.
(** the tunnel is made and was not stopped; it is made and is not taken down *)
Definition waiting (r : runner) : bool := match r with Ready | Tasks | Reading => true | _ => false end.
Definition made (r : runner) : bool := match r with Ready | Tasks | Reading | Woken | Finishing => true | _ => false end.

Record sync_ok (y : HevSync) (h : option stopper) : Prop := SyncOk {
  (* [SYNC_WAIT] is a lock *)
  sk_lock : holder_is h (sy_stops y);
  sk_wait : b_wait (bits_of (tsync y)) = bool_decide (is_Some h);
  sk_alive : Failed ∉ sy_stops y;
  (* the descriptors are open as long as somebody may write *)
  sk_send : b_send (bits_of (tsync y)) = true → made (sy_runner y) = true ∧ sy_fds y = true;
  sk_open : sy_runner y = Started → sy_fds y = true;
  sk_told : ∀ pc, h = Some pc → told pc = true → made (sy_runner y) = true ∧ sy_fds y = true;
  (* until the thread is woken, [SYNC_SENT] means a byte *)
  sk_ready : waiting (sy_runner y) = true → b_send (bits_of (tsync y)) = true;
  sk_sent : waiting (sy_runner y) = true → b_sent (bits_of (tsync y)) = true → (0 < sy_pipe y)%nat ∨ h = Some Writing;
  sk_byte : waiting (sy_runner y) = true → h = Some (Leaving true) → (0 < sy_pipe y)%nat;
  sk_clear : made (sy_runner y) = false → b_sent (bits_of (tsync y)) = false
}.

#[local] Opaque bits_of has.

Lemma stops_split y i pc pc' : sy_stops y !! i = Some pc →
  ∃ l1 l2, sy_stops y = l1 ++ pc :: l2 ∧ <[i := pc']> (sy_stops y) = l1 ++ pc' :: l2.
Proof.
  intros H. exists (take i (sy_stops y)), (drop (S i) (sy_stops y)). split; [by rewrite take_drop_middle|].
  apply lookup_lt_Some in H. by rewrite insert_take_drop.
Qed.
Lemma holders_one h l1 pc l2 : holder_is h (l1 ++ pc :: l2) → holds pc = true → h = Some pc ∧ holders l1 = [] ∧ holders l2 = [].
Proof.
  unfold holder_is, holders. rewrite List.filter_app. simpl. intros H E. rewrite E in H.
  destruct (List.filter holds l1) as [|x a], h; try done; [by injection H as -> ->|].
  simpl in H. injection H as -> H. by destruct a.
Qed.
Lemma holders_none h l1 pc l2 : holder_is h (l1 ++ pc :: l2) → holds pc = false → holder_is h (l1 ++ l2).
Proof. unfold holder_is, holders. rewrite !List.filter_app. simpl. intros H E. by rewrite E in H. Qed.
Lemma holders_set l1 pc l2 : holders l1 = [] → holders l2 = [] → holder_is (if holds pc then Some pc else None) (l1 ++ pc :: l2).
Proof. unfold holder_is, holders. rewrite List.filter_app. simpl. intros -> ->. by destruct (holds pc). Qed.

#[local] Opaque bits_of has.
(** opens a state into its parts *)
Ltac parts y :=
  destruct (has_bits y) as (Hsend & Hsent & Hwait & Hstop); destruct y as [v run fds pipe r stops];
  unfold fetch_or, fetch_and_not in *; simpl in *; rewrite ?Hsend, ?Hsent, ?Hwait, ?Hstop in *; clear Hsend Hsent Hwait Hstop;
  destruct (bits_of v) as [send sent wait stop] eqn:Ev; simpl in *.
Ltac bits Ev := rewrite ?or_bits, ?and_bits, ?Ev; simpl; rewrite ?orb_true_r, ?orb_false_r, ?andb_true_r, ?andb_false_r.

Lemma runner_keeps y h choice y' : sync_ok y h → runner_step y choice = Some y' → sync_ok y' h.
Proof.
  intros [H1 H2 H3 H4 Ho H5 H6 H7 H8 H9] H. unfold runner_step in H. parts y.
  assert (Hw : wait = false → h = None) by (intros ->; by destruct h).
  assert (Hn : ∀ pc, made r = false → h = Some pc → told pc = false).
  { intros pc Hr E. destruct (told pc) eqn:Et; [|done]. destruct (H5 pc E Et). congruence. }
  destruct r; simpl in *;
    [ | destruct choice as [[]|] | | destruct stop | | destruct (pipe =? 0)%nat | | destruct wait eqn:? | ]; simplify_eq/=.
  all: split; simpl; bits Ev; try done.
  all: try (intros Hs; destruct (H4 Hs); congruence).
  all: try (intros pc Hpc Ht; first [rewrite (Hn pc) in Ht by done; discriminate | rewrite (Hw eq_refl) in Hpc; discriminate]).
  all: try (split; [done|by apply Ho]).
  - intros _ Hs. by rewrite H9 in Hs.
  - intros _ Hl. by pose proof (Hn _ eq_refl Hl).
Qed.

(** a call's step: its holder afterwards *)
Lemma stopper_keeps y h i pc y' pc' : sync_ok y h → sy_stops y !! i = Some pc → stopper_step y pc = (y', pc') →
  ∃ h', sync_ok (y' <| sy_stops := <[i := pc']> (sy_stops y') |>) h'.
Proof.
  intros [H1 H2 H3 H4 Ho H5 H6 H7 H8 H9] Hi H.
  destruct (stops_split _ _ _ pc' Hi) as (l1 & l2 & El & Ei).
  assert (Es : sy_stops y' = sy_stops y) by (destruct pc; simpl in H; repeat case_match; by injection H as <- _).
  rewrite Es, Ei. rewrite El in H1, H3. clear Es Ei El Hi.
  assert (Hf : pc' ≠ Failed → Failed ∉ l1 ++ pc' :: l2).
  { intros Hne. rewrite elem_of_app, elem_of_cons in *. naive_solver. }
  unfold stopper_step in H. parts y.
  assert (Hnone : wait = false → h = None) by (intros ->; by destruct h).
  assert (Hfree : holds pc = true → h = Some pc ∧ holder_is (if holds pc' then Some pc' else None) (l1 ++ pc' :: l2)).
  { intros Hp. destruct (holders_one _ _ _ _ H1 Hp) as (-> & E1 & E2). split; [done|by apply holders_set]. }
  assert (Hnew : wait = false → holds pc = false → holder_is (if holds pc' then Some pc' else None) (l1 ++ pc' :: l2)).
  { intros Hw Hp. rewrite (Hnone Hw) in H1. apply holders_none in H1; [|done]. unfold holder_is, holders in H1.
    rewrite List.filter_app in H1. apply app_eq_nil in H1 as [E1 E2]. by apply holders_set. }
  destruct pc as [| | | |found|found|]; try (destruct (Hfree eq_refl) as [-> Hh]; simpl in H2; subst wait).
  - destruct wait eqn:Ew.
    { simplify_eq/=. exists h. split; simpl; bits Ev; done. }
    destruct send; simplify_eq/=; rewrite (Hnone eq_refl) in *.
    + exists (Some Found). specialize (Hnew eq_refl eq_refl). destruct (H4 eq_refl) as [Hm Hd].
      split; simpl; bits Ev; try done; [by apply Hf|]. intros Hr Hs. destruct (H7 Hr Hs); [by left|done].
    + exists (Some Noting). specialize (Hnew eq_refl eq_refl). split; simpl; bits Ev; try done; [by apply Hf|by intros pc [= <-]|].
      intros Hr Hs. destruct (H7 Hr Hs); [by left|done].
  - destruct (H5 _ eq_refl eq_refl) as [Hm Hd]. destruct sent; simplify_eq/=.
    + exists (Some (Leaving true)). split; simpl; bits Ev; try done; [by apply Hf| |intros Hr _].
      * intros Hr _. destruct (H7 Hr eq_refl); [by left|done].
      * destruct (H7 Hr eq_refl); done.
    + exists (Some Writing). split; simpl; bits Ev; try done; [by apply Hf|by right|by rewrite Hm].
  - destruct (H5 _ eq_refl eq_refl) as [Hm Hd]. rewrite Hd in H. simplify_eq/=.
    exists (Some (Leaving true)). split; simpl; bits Ev; try done; [by apply Hf|left; lia|lia].
  - simplify_eq/=. exists (Some (Leaving false)). split; simpl; bits Ev; try done; [by apply Hf|by intros pc [= <-]|].
    intros Hr Hs. destruct (H7 Hr Hs); [by left|done].
  - simplify_eq/=. exists None. split; simpl; bits Ev; try done; [by apply Hf|].
    intros Hr Hs. destruct (H7 Hr Hs); [by left|done].
  - simplify_eq/=. exists h. by split; simpl; rewrite ?Ev.
  - simplify_eq/=. exists h. by split; simpl; rewrite ?Ev.
Qed.

Lemma sync_reached_ok y : sync_reached y → ∃ h, sync_ok y h.
Proof.
  intros H. induction H as [|y choice y' _ [h IH] E|y _ [h IH]|y i pc y' pc' _ [h IH] Hi E].
  - exists None. split; simpl; try done. apply not_elem_of_nil.
  - exists h. by eapply runner_keeps.
  - exists h. destruct IH as [H1 H2 H3 H4 Ho H5 H6 H7 H8 H9]. split; simpl; try done.
    + unfold holder_is, holders in *. rewrite List.filter_app, H1. by rewrite app_nil_r.
    + rewrite elem_of_app, list_elem_of_singleton. naive_solver.
  - by eapply stopper_keeps.
Qed.

(** C31: however the running thread and any number of calls of
    [hev_socks5_tunnel_stop] interleave, no call writes to a descriptor that is
    not open, and one at a time passes the lock; when a call that found the
    tunnel ready returns, the thread was woken already or the byte lies there
    that wakes it, and stays there until it does. *)
Theorem stop_is_heard y : sync_reached y →
  Failed ∉ sy_stops y
  ∧ (length (holders (sy_stops y)) <= 1)%nat
  ∧ (Writing ∈ sy_stops y → sy_fds y = true)
  ∧ (Leaving true ∈ sy_stops y → waiting (sy_runner y) = true → (0 < sy_pipe y)%nat)
  ∧ (∀ y', (0 < sy_pipe y)%nat → waiting (sy_runner y) = true →
      (∃ choice, runner_step y choice = Some y') ∨ (∃ i pc pc', sy_stops y !! i = Some pc ∧ stopper_step y pc = (y', pc')) →
      (waiting (sy_runner y') = true ∧ (0 < sy_pipe y')%nat) ∨ sy_runner y' = Woken ∨ sy_runner y' = Finishing).
Proof.
  intros H. destruct (sync_reached_ok y H) as [h Hk]. pose proof Hk as [H1 H2 H3 H4 Ho H5 H6 H7 H8 H9].
  assert (Hin : ∀ pc, pc ∈ sy_stops y → holds pc = true → h = Some pc).
  { intros pc (l1 & l2 & E)%list_elem_of_split Hp. rewrite E in H1. by apply holders_one in H1 as [-> _]. }
  split; [done|]. split; [unfold holder_is in H1; rewrite H1; destruct h; simpl; lia|].
  split; [intros Hw; by destruct (H5 Writing (Hin _ Hw eq_refl) eq_refl)|].
  split; [intros Hl Hr; apply H8; [done|by apply Hin]|].
  intros y' Hp Hr [[choice E]|(i & pc & pc' & _ & E)].
  - unfold runner_step in E. destruct (sy_runner y) eqn:Er; try done.
    + injection E as <-. simpl. destruct (has y SYNC_STOP); [by right; right|by left].
    + injection E as <-. by left.
    + destruct (sy_pipe y =? 0)%nat eqn:E0; [done|]. injection E as <-. by right; left.
  - left. destruct pc; simpl in E; repeat case_match; injection E as <- _; simpl; split; try done; lia.
Qed.

(** *** Schedules *)

Inductive move : Type := Run (choice : option bool) | Call | Go (i : nat).
Fixpoint play (y : HevSync) (l : list move) : option HevSync :=
  match l with
  | [] => Some y
  | Run choice :: l => match runner_step y choice with Some y => play y l | None => None end
  | Call :: l => play (y <| sy_stops := sy_stops y ++ [Asking] |>) l
  | Go i :: l =>
      match sy_stops y !! i with
      | Some pc => let '(y, pc) := stopper_step y pc in play (y <| sy_stops := <[i := pc]> (sy_stops y) |>) l
      | None => None
      end
  end.
Lemma play_reached l : ∀ y y', sync_reached y → play y l = Some y' → sync_reached y'.
Proof.
  induction l as [|[choice| |i] l IH]; intros y y' H E; cbn [play] in E; [by injection E as <-|..].
  - destruct (runner_step y choice) eqn:Es; [|done]. eapply IH; [|done]. by eapply sync_runner.
  - eapply IH; [|done]. by apply sync_call.
  - destruct (sy_stops y !! i) eqn:Ei; [|done]. destruct (stopper_step y s) eqn:Es. eapply IH; [|done]. by eapply sync_stopper.
Qed.

(** A call that comes while the tunnel is being made and returns when it
    runs can be lost: it has returned, [SYNC_STOP] is set, and the thread waits
    for a byte that no one writes. *)
Theorem stop_can_be_lost : ∃ y, sync_reached y ∧ sy_stops y = [Returned false] ∧ has y SYNC_STOP = true
  ∧ sy_run y = true ∧ sy_runner y = Reading ∧ ∀ choice, runner_step y choice = None.
Proof.
  eexists. split; [apply (play_reached [Run None; Run None; Call; Go 0; Run None; Run None; Run None; Go 0; Go 0] sync0); [apply sync_start|]|].
  - vm_compute. reflexivity.
  - repeat split.
Qed.

(** a call that finds the tunnel ready, about to return *)
Definition heard : HevSync := Sync 7 true true 1 Reading [Leaving true].
Lemma stop_is_heard_witness : sync_reached heard ∧ (0 < sy_pipe heard)%nat ∧ sy_fds heard = true ∧ Failed ∉ sy_stops heard.
Proof.
  assert (H : sync_reached heard).
  { apply (play_reached [Run None; Run None; Run None; Run None; Run None; Call; Go 0; Go 0; Go 0] sync0); [apply sync_start|reflexivity]. }
  destruct (stop_is_heard heard H) as (Hf & _ & _ & Hp & _). split; [exact H|]. split; [|split; [reflexivity|exact Hf]].
  apply Hp; [|reflexivity]. simpl. left.
Defined.

(** ** The sessions *)

Definition without (x : nat) (q : list nat) : list nat := List.filter (λ y, negb (y =? x)%nat) q.
Lemma without_none x q : x ∉ q → without x q = q.
Proof.
  induction q as [|y q IH]; [done|]. rewrite not_elem_of_cons. intros [Hne Hq]. simpl.
  destruct (Nat.eqb_spec y x) as [->|_]; [done|]. simpl. by rewrite IH.
Qed.
Lemma without_mid x l1 l2 : NoDup (l1 ++ x :: l2) → without x (l1 ++ x :: l2) = l1 ++ l2.
Proof.
  intros (_ & H1 & H2)%NoDup_app. apply NoDup_cons in H2 as [H2 _]. unfold without. rewrite List.filter_app. simpl.
  rewrite Nat.eqb_refl. simpl. f_equal; [apply without_none|by apply without_none]. intros Hx. apply (H1 x Hx). by left.
Qed.

Section lru.
Context (max : Z).
Implicit Types (s : HevSessions) (q : list nat).

(** [q]: the sessions that run; in the order of their last use when there is a
    maximum, of their start when there is none *)
Inductive sessions_reached : list nat → HevSessions → Prop :=
  | sessions_start : sessions_reached [] (Sessions 0 (MkHevList None None ∅) ∅)
  | sessions_new q s x base task s' ok :
      sessions_reached q s → ss_objects s !! x = None → start_session max s (Some x) base task = Ok (s', ok) →
      sessions_reached (if ok then q ++ [x] else q) s'
  | sessions_used q s x s' :
      sessions_reached q s → x ∈ q → hev_socks5_tunnel_update_session max s x = Ok s' →
      sessions_reached (if max =? 0 then q else without x q ++ [x]) s'
  | sessions_end q s x s' :
      sessions_reached q s → x ∈ q → hev_socks5_session_task_end s x = Ok s' → sessions_reached (without x q) s'
  | sessions_own q s x f : sessions_reached q s → sessions_reached q (s <| ss_objects := alter f x (ss_objects s) |>)
  | sessions_stop q s s' : sessions_reached q s → terminate_all s = Ok s' → sessions_reached q s'.

Record sessions_ok q s : Prop := SessionsOk {
  sn_list : dll (ss_set s) q;
  sn_count : ss_count s = Z.of_nat (length q);
  sn_alive : ∀ x, is_Some (ss_objects s !! x) ↔ x ∈ q
}.

(** what a full list does to its oldest session *)
Definition end_oldest q (objects : gmap nat HevSocks5) : gmap nat HevSocks5 :=
  if (max =? 0) || (Z.of_nat (length q) <? max) then objects
  else match q with x :: _ => alter hev_socks5_session_terminate x objects | [] => objects end.

Lemma terminate_ok s x : is_Some (ss_objects s !! x) →
  terminate s x = Ok (s <| ss_objects := alter hev_socks5_session_terminate x (ss_objects s) |>).
Proof.
  intros [b E]. unfold terminate. rewrite E.
  replace (alter hev_socks5_session_terminate x (ss_objects s)) with (<[x := hev_socks5_session_terminate b]> (ss_objects s)); [done|].
  apply map_eq. intros y. destruct (decide (x = y)) as [<-|Hne].
  - by rewrite lookup_insert_eq, lookup_alter_eq, E.
  - by rewrite lookup_insert_ne, lookup_alter_ne.
Qed.

Lemma new_ok q s x base : sessions_ok q s → ss_objects s !! x = None →
  ∃ s', start_session max s (Some x) base true = Ok (s', true) ∧ sessions_ok (q ++ [x]) s'
    ∧ ss_objects s' = end_oldest (q ++ [x]) (<[x := base]> (ss_objects s)).
Proof.
  intros [Hd Hc Ha] Hx. assert (Hxq : x ∉ q) by (rewrite <- Ha, Hx; by intros [? ?]).
  cbn [start_session negb]. unfold hev_socks5_tunnel_insert_session, session_new. simpl.
  destruct (add_tail_effect (node_alloc (ss_set s) x) q x (ListNode None None)) as (l & -> & Hl & _);
    [by apply dll_alloc|apply lookup_insert_eq|done|]. rewrite bind_Ok. simpl.
  assert (Hal : ∀ y, is_Some (<[x := base]> (ss_objects s) !! y) ↔ y ∈ q ++ [x]).
  { intros y. rewrite elem_of_app, list_elem_of_singleton. destruct (decide (y = x)) as [->|Hne].
    - rewrite lookup_insert_eq. split; [by right|by eexists].
    - rewrite lookup_insert_ne, Ha by done. tauto. }
  assert (Hlen : Z.of_nat (length (q ++ [x])) = ss_count s + 1) by (rewrite length_app, Hc; simpl; lia).
  unfold end_oldest. rewrite Hlen. destruct ((max =? 0) || (ss_count s + 1 <? max)).
  - rewrite bind_Ok. eexists. split; [done|]. by split.
  - unfold hev_list_first. rewrite (dll_head _ _ Hl). destruct (q ++ [x]) as [|y r] eqn:Eq; [by destruct q|]. cbn [first].
    rewrite terminate_ok by (simpl; apply Hal; by left). rewrite !bind_Ok. eexists. split; [done|]. split; [|done]. split; simpl; [done|done|].
    intros z. rewrite <- Hal. destruct (decide (y = z)) as [<-|Hne]; [|by rewrite lookup_alter_ne].
    rewrite lookup_alter_eq. by rewrite fmap_is_Some.
Qed.
Lemma unstarted_ok q s x base s' : sessions_ok q s → ss_objects s !! x = None →
  start_session max s (Some x) base false = Ok (s', false) → sessions_ok q s'.
Proof.
  intros [Hd Hc Ha] Hx [= <-]. assert (Hxq : x ∉ q) by (rewrite <- Ha, Hx; by intros [? ?]).
  split; simpl; [by apply dll_free, Hxq; apply dll_alloc|done|]. intros y. rewrite delete_insert_id by done. apply Ha.
Qed.
Lemma used_ok q s x : sessions_ok q s → x ∈ q →
  ∃ s', hev_socks5_tunnel_update_session max s x = Ok s' ∧ sessions_ok (if max =? 0 then q else without x q ++ [x]) s'
    ∧ ss_objects s' = ss_objects s.
Proof.
  intros [Hd Hc Ha] Hx. unfold hev_socks5_tunnel_update_session. destruct (max =? 0); [by exists s|].
  pose proof Hx as (l1 & l2 & ->)%list_elem_of_split. pose proof (dll_nodup _ _ Hd) as Hnd. rewrite (without_mid _ _ _ Hnd).
  destruct (del_effect _ _ _ _ Hd) as (l & -> & Hl & _ & [n Hn]). rewrite bind_Ok.
  assert (Hx' : x ∉ l1 ++ l2).
  { apply NoDup_app in Hnd as (_ & H1 & H2). apply NoDup_cons in H2 as [H2 _]. rewrite elem_of_app. intros [H|H]; [|done].
    apply (H1 x H). by left. }
  destruct (add_tail_effect l _ x n Hl Hn Hx') as (l' & -> & Hl' & _). rewrite bind_Ok. eexists. split; [done|]. split; [|done].
  split; simpl; [done| |].
  - rewrite Hc, !length_app. simpl. lia.
  - intros y. rewrite Ha, !elem_of_app, elem_of_cons, list_elem_of_singleton. tauto.
Qed.
Lemma end_session_ok q s x : sessions_ok q s → x ∈ q →
  ∃ s', hev_socks5_session_task_end s x = Ok s' ∧ sessions_ok (without x q) s' ∧ ss_objects s' = delete x (ss_objects s).
Proof.
  intros [Hd Hc Ha] Hx. unfold hev_socks5_session_task_end, hev_socks5_tunnel_delete_session.
  pose proof Hx as (l1 & l2 & ->)%list_elem_of_split. pose proof (dll_nodup _ _ Hd) as Hnd. rewrite (without_mid _ _ _ Hnd).
  destruct (del_effect _ _ _ _ Hd) as (l & -> & Hl & _). rewrite !bind_Ok. eexists. split; [done|]. split; [|done].
  assert (Hx' : x ∉ l1 ++ l2).
  { apply NoDup_app in Hnd as (_ & H1 & H2). apply NoDup_cons in H2 as [H2 _]. rewrite elem_of_app. intros [H|H]; [|done].
    apply (H1 x H). by left. }
  split; simpl; [by apply dll_free|rewrite Hc, !length_app; simpl; lia|]. intros y. destruct (decide (y = x)) as [->|Hne].
  - rewrite lookup_delete_eq. split; [by intros [? ?]|done].
  - rewrite lookup_delete_ne, Ha, !elem_of_app, elem_of_cons by done. tauto.
Qed.

(** the walk over the list ends each session once *)
Lemma terminate_loop r : ∀ s p fuel, seg (hl_nodes (ss_set s)) p r None → NoDup r →
  (∀ x, x ∈ r → is_Some (ss_objects s !! x)) → (length r < fuel)%nat →
  ∃ s', loop fuel terminate_step (s, first r None) = Ok s' ∧ ss_set s' = ss_set s ∧ ss_count s' = ss_count s
    ∧ ∀ x, ss_objects s' !! x = (if bool_decide (x ∈ r) then hev_socks5_session_terminate <$> ss_objects s !! x else ss_objects s !! x).
Proof.
  induction r as [|x r IH]; intros s p fuel Hs Hnd Ha Hf; (destruct fuel as [|fuel]; [simpl in Hf; lia|]); rewrite loop_S.
  { exists s. split; [done|]. split; [done|]. split; [done|]. intros x. by rewrite bool_decide_eq_false_2 by apply not_elem_of_nil. }
  destruct Hs as [Hx Hs]. apply NoDup_cons in Hnd as [Hnx Hnd]. unfold terminate_step at 1. cbn [first].
  rewrite terminate_ok by (apply Ha; by left). rewrite bind_Ok. unfold hev_list_node_next, node_get. simpl. rewrite Hx, !bind_Ok. cbn [ln_next].
  edestruct (IH (s <| ss_objects := alter hev_socks5_session_terminate x (ss_objects s) |>) (Some x) fuel) as (s' & -> & E1 & E2 & E3);
    [exact Hs|exact Hnd| |simpl in Hf; lia|].
  { intros y Hy. simpl. rewrite lookup_alter_ne; [apply Ha; by right|]. by intros <-. }
  exists s'. split; [done|]. split; [done|]. split; [done|]. intros y. rewrite E3. simpl. destruct (decide (y = x)) as [->|Hne].
  - rewrite bool_decide_eq_false_2, bool_decide_eq_true_2, lookup_alter_eq by (done || by left). done.
  - rewrite lookup_alter_ne by done. rewrite (bool_decide_ext (y ∈ x :: r) (y ∈ r)); [done|]. rewrite elem_of_cons. tauto.
Qed.
Lemma stop_ok q s : sessions_ok q s →
  ∃ s', terminate_all s = Ok s' ∧ sessions_ok q s' ∧ ss_objects s' = hev_socks5_session_terminate <$> ss_objects s.
Proof.
  intros [Hd Hc Ha]. assert (Hsize : size (ss_objects s) = length q).
  { assert (E : dom (ss_objects s) = list_to_set q) by (apply set_eq; intros x; by rewrite elem_of_dom, elem_of_list_to_set).
    rewrite <- size_dom, E. apply size_list_to_set, (dll_nodup _ _ Hd). }
  unfold terminate_all, hev_list_first. rewrite (dll_head _ _ Hd), Hsize.
  destruct (terminate_loop q s None (S (length q))) as (s' & -> & E1 & E2 & E3);
    [apply Hd|apply Hd|intros x; apply Ha|lia|]. exists s'. split; [done|].
  assert (Eo : ss_objects s' = hev_socks5_session_terminate <$> ss_objects s).
  { apply map_eq. intros x. rewrite E3, lookup_fmap. case_bool_decide as Hx; [done|].
    destruct (ss_objects s !! x) eqn:E; [|done]. destruct Hx. apply Ha. by eexists. }
  split; [|done]. split; [by rewrite E1|by rewrite E2|]. intros x. by rewrite Eo, lookup_fmap, fmap_is_Some.
Qed.

Lemma sessions_inv q s : sessions_reached q s → sessions_ok q s.
Proof.
  intros H. induction H as [|q s x base task s' ok _ IH Hx E|q s x s' _ IH Hx E|q s x s' _ IH Hx E|q s x f _ IH|q s s' _ IH E].
  - split; simpl; [apply dll_empty|done|]. intros x. rewrite lookup_empty, elem_of_nil. split; [by intros [? ?]|done].
  - destruct task.
    + destruct (new_ok q s x base IH Hx) as (s1 & E1 & H1 & _). rewrite E1 in E. by injection E as <- <-.
    + pose proof E as E'. injection E' as _ <-. by eapply unstarted_ok.
  - destruct (used_ok q s x IH Hx) as (s1 & E1 & H1 & _). rewrite E1 in E. by injection E as <-.
  - destruct (end_session_ok q s x IH Hx) as (s1 & E1 & H1 & _). rewrite E1 in E. by injection E as <-.
  - destruct IH as [Hd Hc Ha]. split; simpl; [done..|]. intros y. rewrite <- Ha. destruct (decide (x = y)) as [<-|Hne].
    + by rewrite lookup_alter_eq, fmap_is_Some.
    + by rewrite lookup_alter_ne.
  - destruct (stop_ok q s IH) as (s1 & E1 & H1 & _). rewrite E1 in E. by injection E as <-.
Qed.

(** the oldest of [q] is ended *)
Definition ended q (objects : gmap nat HevSocks5) : gmap nat HevSocks5 :=
  match q with x :: _ => alter hev_socks5_session_terminate x objects | [] => objects end.

(** C32: whatever sessions start, are used, end and are stopped, the list holds
    exactly those that run (until their task is over, also when they were ended
    before), and the count is its length.  With a maximum they
    lie in the order of their last use, without one (0) in that of their start.
    A new session goes to the end; no session is ended for it as long as there
    are fewer than the maximum, the one that was not used for the longest time
    is ended when there are more, and no other ever is.  A session that is used
    moves to the end if there is a maximum; one that ends leaves; a stop ends
    them all.  None of these goes wrong.  (The session that makes the maximum
    full: [full_list_ends_oldest].) *)
Theorem sessions_lru q s : sessions_reached q s →
  dll (ss_set s) q ∧ ss_count s = Z.of_nat (length q) ∧ (∀ x, is_Some (ss_objects s !! x) ↔ x ∈ q)
  ∧ (∀ x base, ss_objects s !! x = None → let n := Z.of_nat (length (q ++ [x])) in let objects := <[x := base]> (ss_objects s) in
       ∃ s', start_session max s (Some x) base true = Ok (s', true) ∧ dll (ss_set s') (q ++ [x])
       ∧ (ss_objects s' = objects ∨ max ≠ 0 ∧ max <= n ∧ ss_objects s' = ended (q ++ [x]) objects)
       ∧ (max ≠ 0 → max < n → ss_objects s' = ended (q ++ [x]) objects))
  ∧ (∀ x, x ∈ q → ∃ s', hev_socks5_tunnel_update_session max s x = Ok s'
       ∧ dll (ss_set s') (if max =? 0 then q else without x q ++ [x]) ∧ ss_objects s' = ss_objects s)
  ∧ (∀ x, x ∈ q → ∃ s', hev_socks5_session_task_end s x = Ok s'
       ∧ dll (ss_set s') (without x q) ∧ ss_objects s' = delete x (ss_objects s))
  ∧ ∃ s', terminate_all s = Ok s' ∧ dll (ss_set s') q ∧ ss_objects s' = hev_socks5_session_terminate <$> ss_objects s.
Proof.
  intros H. pose proof (sessions_inv q s H) as Hk. split; [apply Hk|]. split; [apply Hk|]. split; [apply Hk|]. split.
  { intros x base Hx n objects. destruct (new_ok q s x base Hk Hx) as (s' & E & [Hd _ _] & Eo). exists s'. split; [done|]. split; [done|].
    rewrite Eo. unfold end_oldest. fold n. fold objects. fold (ended (q ++ [x]) objects).
    destruct (Z.eqb_spec max 0), (Z.ltb_spec n max); simpl; (split; [|lia || done]); first [by left|right; split_and!; [lia|lia|done]]. }
  split; [intros x Hx; destruct (used_ok q s x Hk Hx) as (s' & E & [Hd _ _] & Eo); by exists s'|].
  split; [intros x Hx; destruct (end_session_ok q s x Hk Hx) as (s' & E & [Hd _ _] & Eo); by exists s'|].
  destruct (stop_ok q s Hk) as (s' & E & [Hd _ _] & Eo). by exists s'.
Qed.

(** The session that makes the number of sessions equal to the maximum ends the
    oldest already; with a maximum of one that is the new session itself. *)
Lemma full_list_ends_oldest q s x base : sessions_reached q s → ss_objects s !! x = None → max ≠ 0 →
  Z.of_nat (length (q ++ [x])) = max →
  ∃ s', start_session max s (Some x) base true = Ok (s', true) ∧ ss_objects s' = ended (q ++ [x]) (<[x := base]> (ss_objects s)).
Proof.
  intros H Hx H0 Hn. destruct (new_ok q s x base (sessions_inv q s H) Hx) as (s' & E & _ & Eo). exists s'. split; [done|].
  rewrite Eo. unfold end_oldest. by rewrite (proj2 (Z.eqb_neq _ _) H0), Hn, Z.ltb_irrefl.
Qed.
End lru.

(** ** What is acquired is released *)

(** no handle is held, as before the first call and after the end *)
Definition idle (t : HevTunnel) : Prop :=
  event_fds t = (-1, -1) ∧ tn_netif t = 0 ∧ tn_tcp t = 0 ∧ tn_udp t = 0 ∧ task_event t = 0
  ∧ task_lwip_io t = 0 ∧ task_lwip_timer t = 0 ∧ tn_dns t = None ∧ hev_socks5_tunnel_stats t = [0; 0; 0; 0].

(** *** The resources the handles stand for *)

Definition of_pointer (kind : Z → resource) (p : Z) : list resource := if p =? 0 then [] else [kind p].
Definition of_fd (n : Z) : list resource := if 0 <=? n then [Fd n] else [].
Definition of_dns (d : option HevMappedDNS) : list resource := match d with Some _ => [Dns] | None => [] end.
Definition gateway t : list resource :=
  of_pointer UdpPcb (tn_udp t) ++ of_pointer TcpPcb (tn_tcp t) ++ of_pointer Netif (tn_netif t).
Definition event_task t : list resource :=
  of_pointer Task (task_event t) ++ of_fd (event_fds t).1 ++ of_fd (event_fds t).2.
Definition device t : list resource := if tun_fd_local t && (0 <=? tun_fd t) then [Device (tun_fd t)] else [].
Definition held t : list resource :=
  of_dns (tn_dns t) ++ of_pointer Task (task_lwip_timer t) ++ of_pointer Task (task_lwip_io t) ++ event_task t ++ gateway t ++ device t.
(** besides what the handles stand for, exactly [rest] exists *)
Definition owns t (rest : list resource) : Prop := live t ≡ₚ held t ++ rest.

Lemma take_out_ok r l rest : l ≡ₚ r :: rest → ∃ l', take_out r l = Some l' ∧ l' ≡ₚ rest.
Proof.
  revert rest. induction l as [|x l IH]; intros rest Hp; [by apply Permutation_nil_cons in Hp|]. cbn [take_out].
  destruct (decide (x = r)) as [->|Hne]; [exists l; split; [done|by apply Permutation_cons_inv in Hp]|].
  assert (Hin : r ∈ l).
  { assert (H : r ∈ x :: l) by (rewrite Hp; left). apply elem_of_cons in H as [->|]; done. }
  apply elem_of_Permutation in Hin as [k Hk]. destruct (IH k Hk) as (l' & -> & Hl'). exists (x :: l'). split; [done|].
  rewrite Hl'. apply (Permutation_cons_inv (a := r)). rewrite <- Hp, Hk. apply perm_swap.
Qed.
Lemma wp_release r t rest (Q : HevTunnel → Prop) :
  live t ≡ₚ r :: rest → (∀ l, l ≡ₚ rest → Q (t <| live := l |>)) → wp (give_back r t) Q.
Proof. intros H HQ. unfold give_back. destruct (take_out_ok r _ _ H) as (l & -> & Hl). by apply HQ. Qed.
Lemma wp_free kind p t rest (Q : HevTunnel → Prop) :
  live t ≡ₚ of_pointer kind p ++ rest → (∀ l, l ≡ₚ rest → Q (t <| live := l |>)) → wp (free_pointer kind p t) Q.
Proof.
  unfold of_pointer, free_pointer. intros H HQ. destruct (p =? 0); [|by eapply wp_release].
  specialize (HQ (live t) H). by destruct t.
Qed.
Lemma wp_close n t rest (Q : HevTunnel → Prop) :
  live t ≡ₚ of_fd n ++ rest → (∀ l, l ≡ₚ rest → Q (t <| live := l |>)) → wp (close_handle n t) Q.
Proof.
  unfold of_fd, close_handle. intros H HQ. destruct (0 <=? n); [by eapply wp_release|].
  specialize (HQ (live t) H). by destruct t.
Qed.

(** the handles, by the step that makes them *)
Definition handles t :=
  (tn_dns t, task_lwip_timer t, task_lwip_io t, (task_event t, event_fds t), (tn_udp t, tn_tcp t, tn_netif t), (tun_fd_local t, tun_fd t)).

(** a step of the end: its own resources go, and its handles with them *)
Section steps.
Context (d : option HevMappedDNS) (tm io e : Z) (fds : Z * Z) (u tc n : Z) (lo : bool) (fd : Z) (t : HevTunnel) (rest : list resource).
Context (Q : HevTunnel → Prop).

Ltac frees tac := apply wp_bind; eapply tac; [simpl; eassumption|simpl; intros ?l ?Hl].
Lemma wp_dns_fini : handles t = (d, tm, io, (e, fds), (u, tc, n), (lo, fd)) → live t ≡ₚ of_dns d ++ rest →
  (∀ t', handles t' = (None, tm, io, (e, fds), (u, tc, n), (lo, fd)) → live t' ≡ₚ rest → Q t') → wp (mapped_dns_fini t) Q.
Proof.
  intros [= <- <- <- <- <- <- <- <- <- <-] H HQ. unfold mapped_dns_fini. destruct (tn_dns t) eqn:E; simpl in H.
  - frees wp_release. by apply HQ.
  - apply HQ; [|done]. unfold handles. by rewrite E.
Qed.
Lemma wp_timer_fini : handles t = (d, tm, io, (e, fds), (u, tc, n), (lo, fd)) → live t ≡ₚ of_pointer Task tm ++ rest →
  (∀ t', handles t' = (d, 0, io, (e, fds), (u, tc, n), (lo, fd)) → live t' ≡ₚ rest → Q t') → wp (lwip_timer_task_fini t) Q.
Proof. intros [= <- <- <- <- <- <- <- <- <- <-] H HQ. unfold lwip_timer_task_fini. frees wp_free. by apply HQ. Qed.
Lemma wp_io_fini : handles t = (d, tm, io, (e, fds), (u, tc, n), (lo, fd)) → live t ≡ₚ of_pointer Task io ++ rest →
  (∀ t', handles t' = (d, tm, 0, (e, fds), (u, tc, n), (lo, fd)) → live t' ≡ₚ rest → Q t') → wp (lwip_io_task_fini t) Q.
Proof. intros [= <- <- <- <- <- <- <- <- <- <-] H HQ. unfold lwip_io_task_fini. frees wp_free. by apply HQ. Qed.
Lemma wp_event_fini : handles t = (d, tm, io, (e, fds), (u, tc, n), (lo, fd)) →
  live t ≡ₚ of_pointer Task e ++ of_fd fds.1 ++ of_fd fds.2 ++ rest →
  (∀ t', handles t' = (d, tm, io, (0, (-1, -1)), (u, tc, n), (lo, fd)) → live t' ≡ₚ rest → Q t') → wp (event_task_fini t) Q.
Proof.
  intros [= <- <- <- <- <- <- <- <- <- <-] H HQ. unfold event_task_fini. frees wp_free. frees wp_close. frees wp_close. by apply HQ.
Qed.
Lemma wp_gateway_fini : handles t = (d, tm, io, (e, fds), (u, tc, n), (lo, fd)) →
  live t ≡ₚ of_pointer UdpPcb u ++ of_pointer TcpPcb tc ++ of_pointer Netif n ++ rest →
  (∀ t', handles t' = (d, tm, io, (e, fds), (0, 0, 0), (lo, fd)) → live t' ≡ₚ rest → Q t') → wp (gateway_fini t) Q.
Proof.
  intros [= <- <- <- <- <- <- <- <- <- <-] H HQ. unfold gateway_fini. frees wp_free. frees wp_free. frees wp_free. by apply HQ.
Qed.
Lemma wp_device_fini : handles t = (d, tm, io, (e, fds), (u, tc, n), (lo, fd)) →
  live t ≡ₚ (if lo && (0 <=? fd) then [Device fd] else []) ++ rest →
  (∀ t' fd', handles t' = (d, tm, io, (e, fds), (u, tc, n), (lo && (fd <? 0), fd')) → live t' ≡ₚ rest → Q t') → wp (tunnel_fini t) Q.
Proof.
  intros [= <- <- <- <- <- <- <- <- <- <-] H HQ. unfold tunnel_fini. destruct (tun_fd_local t) eqn:E; cbn [negb andb] in *.
  - destruct (Z.leb_spec 0 (tun_fd t)).
    + frees wp_release. apply (HQ _ (-1)); [|done]. by rewrite (proj2 (Z.ltb_ge _ _)) by lia.
    + apply (HQ _ (tun_fd t)); [|done]. unfold handles. by rewrite E, (proj2 (Z.ltb_lt _ _)) by lia.
  - apply (HQ _ (tun_fd t)); [|done]. unfold handles. by rewrite E.
Qed.
End steps.

Lemma fini_ok t rest : owns t rest →
  ∃ t', hev_socks5_tunnel_fini t = Ok t' ∧ idle t' ∧ live t' ≡ₚ rest ∧ tun_fd_local t' = tun_fd_local t && (tun_fd t <? 0).
Proof.
  unfold owns, held, event_task, gateway, device. rewrite <- !app_assoc. intros H. apply wp_iff. unfold hev_socks5_tunnel_fini.
  apply wp_bind. eapply wp_dns_fini; [reflexivity|exact H|]. clear H. intros t1 E1 H1.
  apply wp_bind. eapply wp_timer_fini; [exact E1|exact H1|]. clear E1 H1. intros t2 E2 H2.
  apply wp_bind. eapply wp_io_fini; [exact E2|exact H2|]. clear E2 H2. intros t3 E3 H3.
  apply wp_bind. eapply wp_event_fini; [exact E3|exact H3|]. clear E3 H3. intros t4 E4 H4.
  apply wp_bind. eapply wp_gateway_fini; [exact E4|exact H4|]. clear E4 H4. intros t5 E5 H5.
  apply wp_bind. eapply wp_device_fini; [exact E5|exact H5|]. clear E5 H5. intros t6 fd' E6 H6.
  injection E6 as. apply wp_ok. unfold idle. simpl. by split_and!.
Qed.

(** *** The steps of the initialisation *)

(** nothing is made yet from this step on *)
Definition no_dns t : Prop := tn_dns t = None.
Definition no_timer t : Prop := task_lwip_timer t = 0 ∧ no_dns t.
Definition no_io t : Prop := task_lwip_io t = 0 ∧ no_timer t.
Definition no_event t : Prop := task_event t = 0 ∧ event_fds t = (-1, -1) ∧ no_io t.
Definition no_gateway t : Prop := tn_udp t = 0 ∧ tn_tcp t = 0 ∧ tn_netif t = 0 ∧ no_event t.

Section resources.
Context (os : os_call → Z) (pair : Z * Z) (cfg : HevConfig).
Hypothesis cfg_ok : config_ok cfg.
(** [socketpair] stores descriptors *)
Hypothesis pair_ok : 0 <= os Socketpair → 0 <= pair.1 ∧ 0 <= pair.2.

(** the calls of a step succeed; of those that are checked *)
Definition configured (address : res (option mem)) : bool := match address with Ok (Some _) => true | _ => false end.
Definition device_made (fd : Z) : bool :=
  if 0 <=? fd then 0 <=? os FionbioTun
  else (0 <=? os TunnelOpen) && (0 <=? os TunnelSetMtu)
    && (negb (configured (hev_config_get_tunnel_ipv4_address cfg)) || (0 <=? os TunnelSetIpv4))
    && (negb (configured (hev_config_get_tunnel_ipv6_address cfg)) || (0 <=? os TunnelSetIpv6)) && (0 <=? os TunnelSetState).
Definition some (p : Z) : bool := negb (p =? 0).
Definition gateway_made : bool := some (os NetifAdd) && some (os TcpNew) && some (os UdpNew).
Definition event_made : bool := (0 <=? os Socketpair) && (0 <=? os FionbioEvent) && some (os TaskNewEvent).
Definition dns_made (memory : bool) : bool := (mapdns_cache_size cfg =? 0) || bool_decide (is_Some (mapped_dns_new cfg memory)).
Definition all_made (fd : Z) (memory : bool) : bool :=
  device_made fd && gateway_made && event_made && some (os TaskNewIo) && some (os TaskNewTimer) && dns_made memory.
(** the pcb that a failed [tcp_listen] leaves behind *)
Definition listen_lost : list resource :=
  if some (os NetifAdd) && some (os TcpNew) && (os TcpListen =? 0) then [TcpPcb (os TcpNew)] else [].
Definition lost (fd : Z) : list resource := if device_made fd then listen_lost else [].

(** the device of a call: [local], and the descriptor *)
Section stages.
Context (local : bool) (dev : Z) (rest : list resource).
Definition so_far (none : HevTunnel → Prop) (ok : bool) (lost : list resource) : HevTunnel * Z → Prop := λ '(t, r),
  r = (if ok then 0 else -1) ∧ none t ∧ owns t (lost ++ rest) ∧ tun_fd_local t = local ∧ tun_fd t = dev.
Definition stage (none none' : HevTunnel → Prop) (step : HevTunnel → res (HevTunnel * Z)) (ok : bool) (lost : list resource) : Prop :=
  ∀ t r, so_far none true r (t, 0) → wp (step t) (so_far none' ok (lost ++ r)).

Lemma also_ok m step none none' ok ok' r r' : wp m (so_far none ok r) → (∀ t, none t → none' t) → stage none none' step ok' r' →
  wp (also m step) (so_far none' (ok && ok') ((if ok then r' else []) ++ r)).
Proof.
  intros Hm Hn Hs. unfold also. apply wp_bind. eapply wp_mono; [exact Hm|]. intros [t n] (-> & H1 & H2).
  destruct ok; [by apply Hs|]. simpl. split; [done|]. split; [by apply Hn|done].
Qed.

Ltac fields := intros [f l fds n tc u e io tm d s1 s2 s3 s4 lv] r; unfold so_far, owns, held, gateway, event_task, device, of_pointer, no_gateway, no_event, no_io, no_timer, no_dns; simpl.
Lemma gateway_stage : stage no_gateway no_event (gateway_init os) gateway_made listen_lost.
Proof.
  fields. intros (_ & (-> & -> & -> & -> & -> & -> & -> & ->) & H & -> & ->). simpl in H.
  unfold gateway_init, gateway_made, listen_lost, some. simpl.
  destruct (os NetifAdd =? 0) eqn:En; simpl; [by rewrite ?En|]. destruct (os TcpNew =? 0) eqn:Et; simpl.
  { rewrite ?En, ?Et. simpl. repeat split. by rewrite H. }
  destruct (os TcpListen =? 0) eqn:El.
  - rewrite ?bind_Ok. simpl. destruct (os UdpNew =? 0) eqn:Eu; simpl; rewrite ?En, ?Et, ?El, ?Eu; simpl; repeat split; rewrite H.
    + rewrite <- Permutation_middle. apply perm_swap.
    + rewrite <- Permutation_middle. apply perm_skip, perm_swap.
  - unfold give_back. simpl. rewrite decide_True by done. rewrite !bind_Ok. simpl.
    destruct (os UdpNew =? 0) eqn:Eu; simpl; rewrite ?En, ?Et, ?El, ?Eu; simpl; repeat split; by rewrite H.
Qed.
Lemma event_stage : stage no_event no_io (event_task_init os pair) event_made [].
Proof.
  fields. intros (_ & (-> & -> & -> & -> & ->) & H & -> & ->). simpl in H. unfold event_task_init, event_made, some, of_fd.
  destruct (Z.leb_spec 0 (os Socketpair)) as [H0|H0]; [rewrite (proj2 (Z.ltb_ge _ _)) by lia|rewrite (proj2 (Z.ltb_lt _ _)) by lia; by simpl].
  destruct (pair_ok H0) as [P1%Z.leb_le P2%Z.leb_le]. simpl.
  destruct (Z.leb_spec 0 (os FionbioEvent)); [rewrite (proj2 (Z.ltb_ge _ _)) by lia|rewrite (proj2 (Z.ltb_lt _ _)) by lia];
    simpl; rewrite ?P1, ?P2; [|repeat split; by rewrite H].
  destruct (os TaskNewEvent =? 0) eqn:Ee; simpl; rewrite ?P1, ?P2, ?Ee; repeat split; simpl; by rewrite H.
Qed.
Lemma io_stage : stage no_io no_timer (lwip_io_task_init os) (some (os TaskNewIo)) [].
Proof.
  fields. intros (_ & (-> & -> & ->) & H & -> & ->). simpl in H. unfold lwip_io_task_init, some. simpl.
  destruct (os TaskNewIo =? 0) eqn:E; simpl; rewrite ?E; repeat split; simpl; by rewrite H.
Qed.
Lemma timer_stage : stage no_timer no_dns (lwip_timer_task_init os) (some (os TaskNewTimer)) [].
Proof.
  fields. intros (_ & (-> & ->) & H & -> & ->). simpl in H. unfold lwip_timer_task_init, some. simpl.
  destruct (os TaskNewTimer =? 0) eqn:E; simpl; rewrite ?E; repeat split; simpl; by rewrite H.
Qed.
Lemma dns_stage memory : stage no_dns (λ _, True) (mapped_dns_init cfg memory) (dns_made memory) [].
Proof.
  fields. intros (_ & -> & H & -> & ->). simpl in H. unfold mapped_dns_init, dns_made. destruct (mapdns_cache_size cfg =? 0); [done|].
  destruct (mapped_dns_new cfg memory) as [m|]; simpl; (repeat split); [|exact H]. simpl. by rewrite H.
Qed.
End stages.

(** the device's descriptor after [tunnel_init] *)
Definition device_fd (fd : Z) t : Z := if 0 <=? fd then if 0 <=? os FionbioTun then fd else tun_fd t else os TunnelOpen.
Lemma wp_tunnel_init fd t rest : idle t → tun_fd_local t = false → live t ≡ₚ rest →
  wp (tunnel_init os cfg fd t) (so_far (negb (0 <=? fd)) (device_fd fd t) rest no_gateway (device_made fd) []).
Proof.
  destruct t as [f l fds n tc u e io tm d s1 s2 s3 s4 lv]. unfold idle. simpl. intros (-> & -> & -> & -> & -> & -> & -> & -> & _) -> H.
  unfold tunnel_init, device_made, device_fd, so_far, owns, held, gateway, event_task, device. simpl.
  assert (Hneg : ∀ x, (x <? 0) = negb (0 <=? x)) by (intros x; lia). rewrite !Hneg.
  destruct (0 <=? fd); [destruct (0 <=? os FionbioTun); by simpl|].
  unfold hev_config_get_tunnel_ipv4_address, hev_config_get_tunnel_ipv6_address.
  rewrite (set_string_array _ _ (co_ipv4 _ cfg_ok)), (set_string_array _ _ (co_ipv6 _ cfg_ok)). simpl.
  destruct (0 <=? os TunnelOpen) eqn:Eo; simpl; [|rewrite Eo; by simpl]. rewrite ?Hneg.
  destruct (0 <=? os TunnelSetMtu); simpl; [|rewrite Eo; repeat split; by rewrite H].
  destruct (bool_decide (c_str (tun_ipv4_address cfg) = [])), (0 <=? os TunnelSetIpv4),
    (bool_decide (c_str (tun_ipv6_address cfg) = [])), (0 <=? os TunnelSetIpv6), (0 <=? os TunnelSetState);
    simpl; rewrite ?Eo; repeat split; by rewrite H.
Qed.

(** C33: with a configuration as it was read ([config_ok]), and from a state
    without handles, the initialisation fails when one of the
    calls that it checks fails, and only then: it reports that, no handle is
    left, and what exists is what existed before - every descriptor, pcb,
    interface, task and the device is released, each once - with one exception:
    [tcp_listen] is not checked, and when it fails the pcb it was given is lost
    ([lost]).  After an initialisation that succeeded, the end leaves the same.
    So a device that was handed in is closed by neither, if [tun_fd_local] is
    clear before; after [hev_tunnel_open] failed it stays set, and the next
    device that is handed in is closed ([handed_in_closed]). *)
Theorem init_releases fd memory t : idle t → tun_fd_local t = false →
  ∃ t' r, hev_socks5_tunnel_init os pair cfg fd memory t = Ok (t', r)
    ∧ r = (if all_made fd memory then 0 else -1)
    ∧ (r = -1 → idle t' ∧ live t' ≡ₚ lost fd ++ live t
        ∧ tun_fd_local t' = negb (0 <=? fd) && (os TunnelOpen <? 0))
    ∧ (r = 0 → ∃ t2, hev_socks5_tunnel_fini t' = Ok t2 ∧ idle t2 ∧ live t2 ≡ₚ lost fd ++ live t ∧ tun_fd_local t2 = false).
Proof.
  intros Hi Hl. set (loc := negb (0 <=? fd)). set (dev := device_fd fd t). set (rest := live t).
  pose proof (wp_tunnel_init fd t rest Hi Hl (reflexivity _)) as H.
  eapply also_ok in H; [|by intros ? (_ & _ & _ & ?)|apply gateway_stage].
  eapply also_ok in H; [|by intros ? (_ & _ & ?)|apply event_stage].
  eapply also_ok in H; [|by intros ? (_ & ?)|apply io_stage].
  eapply also_ok in H; [|by intros ? (_ & ?)|apply timer_stage].
  eapply (also_ok _ _ _ _ _ _ (λ _, True)) in H; [|done|apply (dns_stage _ _ _ memory)].
  fold (all_made fd memory) in H. unfold hev_socks5_tunnel_init.
  apply wp_iff in H as ([t5 r5] & -> & -> & _ & Ho & El & Ed). rewrite bind_Ok.
  assert (Hnil : ∀ b : bool, (if b then [] else @nil resource) = []) by by intros [].
  rewrite !Hnil, !app_nil_l, app_nil_r in Ho. fold (lost fd) in Ho.
  destruct (fini_ok t5 _ Ho) as (t2 & E2 & I2 & L2 & D2).
  assert (D3 : tun_fd_local t2 = loc && (os TunnelOpen <? 0)) by (rewrite D2, El, Ed; unfold loc, device_fd; by destruct (0 <=? fd)).
  destruct (all_made fd memory) eqn:Em.
  - exists t5, 0. split; [done|]. split; [done|]. split; [done|]. intros _. exists t2. repeat (split; [done|]).
    rewrite D3. unfold loc. unfold all_made, device_made in Em. destruct (0 <=? fd); [done|].
    destruct (Z.leb_spec 0 (os TunnelOpen)); [|done]. by rewrite (proj2 (Z.ltb_ge _ _)) by lia.
  - exists t2, (-1). rewrite E2. split; [done|]. split; [done|]. split; [|done]. intros _. by split.
Qed.
End resources.

(** ** Examples *)

(** a second session when three are allowed: none is ended *)
Definition a_session : HevSocks5 := hev_socks5_construct TYPE_TCP.
Definition one_session : HevSessions := Sessions 1 (MkHevList (Some 0%nat) (Some 0%nat) {[0%nat := ListNode None None]}) {[0%nat := a_session]}.
Lemma sessions_lru_witness : sessions_reached 3 [0%nat] one_session
  ∧ ∃ s', start_session 3 one_session (Some 1%nat) a_session true = Ok (s', true) ∧ dll (ss_set s') [0%nat; 1%nat]
      ∧ ss_objects s' !! 0%nat = Some a_session ∧ ss_objects s' !! 1%nat = Some a_session.
Proof.
  assert (H : sessions_reached 3 [0%nat] one_session).
  { apply (sessions_new 3 [] (Sessions 0 (MkHevList None None ∅) ∅) 0%nat a_session true one_session true); [apply sessions_start|reflexivity|].
    vm_compute. reflexivity. }
  destruct (sessions_lru 3 [0%nat] one_session H) as (_ & _ & _ & Hn & _). split; [exact H|].
  destruct (Hn 1%nat a_session eq_refl) as (s' & E & Hd & Ho & _). exists s'. split; [exact E|]. split; [exact Hd|].
  destruct Ho as [Eo|(_ & Hm & _)]; [rewrite Eo; by split|exfalso; simpl in Hm; lia].
Defined.

(** A session that was ended stays at the head of the list until its task has
    run, and is ended again: with a maximum of two, four sessions that start in
    one turn leave three that go on. *)
Definition start_all (max : Z) : res HevSessions :=
  foldl (λ m x, s ← m; r ← start_session max s (Some x) a_session true; Ok r.1) (Ok (Sessions 0 (MkHevList None None ∅) ∅)) [0%nat; 1%nat; 2%nat; 3%nat].
Lemma more_than_maximum : ∃ s, start_all 2 = Ok s
  ∧ ss_objects s !! 0%nat = Some (hev_socks5_session_terminate a_session)
  ∧ ∀ x, x ∈ [1%nat; 2%nat; 3%nat] → ss_objects s !! x = Some a_session.
Proof.
  eexists. split; [vm_compute; reflexivity|]. split; [vm_compute; reflexivity|].
  intros x. rewrite !elem_of_cons. intros [->|[->|[->|Hx]]]; [vm_compute; reflexivity..|by apply not_elem_of_nil in Hx].
Qed.

(** no memory for the UDP pcb, nor for what [tcp_listen] makes: the device that
    was opened and the interface are given back, the pcb is lost *)
Definition failing_os (c : os_call) : Z := match c with UdpNew | TcpListen => 0 | TunnelOpen => 7 | TcpNew => 5 | _ => 1 end.
Definition no_tunnel (l : list resource) : HevTunnel := Tunnel (-1) false (-1, -1) 0 0 0 0 0 0 None 0 0 0 0 l.
Lemma init_releases_witness : config_ok blank ∧ tun_fd_local (no_tunnel []) = false
  ∧ ∃ t', hev_socks5_tunnel_init failing_os (3, 4) blank (-1) true (no_tunnel []) = Ok (t', -1) ∧ idle t' ∧ live t' ≡ₚ [TcpPcb 5].
Proof.
  assert (Hc : config_ok blank) by (apply reset_ok; apply array_zeros). split; [exact Hc|]. split; [reflexivity|].
  assert (Hi : idle (no_tunnel [])) by (repeat split).
  destruct (init_releases failing_os (3, 4) blank Hc (λ _, conj (Z.le_trans 0 1 3 ltac:(done) ltac:(done)) (Z.le_trans 0 1 4 ltac:(done) ltac:(done)))
    (-1) true (no_tunnel []) Hi eq_refl) as (t' & r & E & Er & Hf & _).
  assert (Er' : r = -1) by (rewrite Er; vm_compute; reflexivity). destruct (Hf Er') as (Hi' & Hl & _).
  exists t'. subst r. rewrite Er' in E. split; [exact E|]. split; [exact Hi'|]. rewrite Hl. vm_compute. reflexivity.
Defined.

(** the device cannot be opened; then a tunnel is made for descriptor 9, and its
    end closes that *)
Definition no_device (c : os_call) : Z := match c with TunnelOpen => -1 | _ => 1 end.
Lemma handed_in_closed :
  ∃ t1 t2 t3, hev_socks5_tunnel_init no_device (3, 4) blank (-1) true (no_tunnel [Device 9]) = Ok (t1, -1)
    ∧ live t1 = [Device 9] ∧ tun_fd_local t1 = true
    ∧ hev_socks5_tunnel_init (λ _, 1) (3, 4) blank 9 true t1 = Ok (t2, 0)
    ∧ hev_socks5_tunnel_fini t2 = Ok t3 ∧ live t3 = [].
Proof.
  eexists _, _, _. split; [vm_compute; reflexivity|]. split; [reflexivity|]. split; [reflexivity|].
  split; [vm_compute; reflexivity|]. split; [vm_compute; reflexivity|reflexivity].
Qed.
